(* ===== verification/_CoqProject ===== *)
-Q . S2P
Prelude.v
Currency.v
Interfaces.v
GenericFunc.v
ItemList.v
Price.v
TaskMode.v
ZkCompute.v
Committee.v
VerifyOnline.v
RentalTypes.v
RentalInterfaces.v
ReportTypes.v
OnlineCommittee.v
OnlineInvariant.v
OnlineSteps.v
OnlineRuns.v
RentMachine.v
RentSteps.v
RentTheorems.v
ProfileTypes.v
OnlineProfile.v
ProfileSteps.v
ProfileOwners.v
ProfileSlashes.v
ProfileTheorems.v
Market.v
MaintainCommittee.v
MaintainSteps.v
MaintainVotes.v
MaintainSlashes.v
MaintainTheorems.v
TerminatingState.v
TerminatingRental.v
TerminatingSteps.v
TerminatingVerify.v
TerminatingReports.v
TerminatingOrders.v
TerminatingTyped.v
TerminatingTheorems.v
TerminatingRuns.v
X402.v
Attestation.v
ComputePool.v
PoolScoring.v
PoolInvariant.v
PoolSteps.v
PoolMoney.v
EvmInterface.v
Precompiles.v
PrecompileTheorems.v
CouncilReward.v
StakingState.v
StakingLedgers.v
Staking.v
StakingSteps.v
StakingInvariant.v
StakingEras.v
StakingCalls.v
StakingRuns.v
StakingTheorems.v
