(* ===== verification/Prelude.v ===== *)
(** * DeepBrainChain runtime pallets: a verification library

    DeepBrainChain is a Substrate chain for renting GPU machines and, in its
    third version, for buying AI computations. Its own logic is in the pallets
    under src/pallets; each keeps storage maps, changes them in dispatchable
    calls, block hooks and off-chain workers, moves the native currency between
    free and reserved balances, and calls the other pallets through traits.
    This library models the pallets of the computation market, and of the rental
    market the committee, its verification of new machines, the registry of
    machines, the rental orders and the reports of faulty machines, with the
    second rental mode that repeats them in one pallet, the contracts through
    which EVM programs use the pallets, and the chain's staking pallet with its
    emission, and proves what makes them correct.

    ** The program's parts and the files that model them

    - Prelude.v (this file): machine integers with the saturating and checked
      operations of the code, the monad of pallet functions (storage passing
      with errors, where a write before an error stays until a storage layer
      drops it), origins, rational parts, sums over maps, shared tactics and
      the hint database [pallet].
    - Currency.v: the traits Currency and ReservableCurrency as a class with the
      laws the trait documents, and a concrete ledger with these laws. [held]
      and [solvent] state what every pallet that reserves money promises.
    - Interfaces.v: the traits of src/pallets/support/src/traits.rs through which
      modelled pallets meet (AttestationSettler, TaskCompletionHandler,
      DbcPrice), as classes with laws; the implementing pallets give instances.
    - ItemList.v: sorted vectors with binary search
      (src/pallets/support/src/primitives.rs).
    - GenericFunc.v: generic-func, the random draws, the fixed fee, burning, and
      slashing with rewards, which other pallets use through the trait GNOps.
    - Price.v: dbc-price-ocw, the price oracle with its off-chain worker and
      price parser.
    - TaskMode.v: task-mode, orders priced by the oracle, settled between
      treasury and miner, with era statistics and reward shares.
    - ZkCompute.v: zk-compute, proofs, deposits, rewards and scores, and the
      runtime's HashCommitmentZkVerifier (src/runtime/src/lib.rs).
    - Committee.v: committee, members in four sorted vectors, stakes, rewards,
      and the ManageCommittee trait other pallets use.
    - VerifyOnline.v: the part of src/pallets/support that the verifying pallets
      share: hardware reports and their hash, the records of a verification, and
      the decision over the reports; RentalTypes.v: machines with their status,
      rental orders, and the GPUs of a machine in use; ReportTypes.v: fault
      reports, their members, lists and results (support/src/report).
    - RentalInterfaces.v: the traits between the rental pallets (ManageCommittee,
      GNOps, OCOps, RTOps, MTOps) as classes, how Committee.v and GenericFunc.v implement
      theirs inside a larger state, and a logic for code that must not panic.
    - OnlineCommittee.v: online-committee, the draw of members, commit and
      reveal of reports, the summary, slashes and appeals; OnlineInvariant.v and
      OnlineSteps.v: its invariants, hooks and steps; OnlineRuns.v: appeals and
      slashes with the stakes that Committee.v records, and runs of the three
      pallets together.
    - RentMachine.v: rent-machine, orders with their fee reserved, confirmation,
      extension and the hooks that cancel and end orders; RentSteps.v: its
      invariant, steps and money; RentTheorems.v: what renters can rely on, and
      a run.
    - ProfileTypes.v, OnlineProfile.v: online-profile, the registry: bonding
      machines, their stakes, points and rewards of an era, going online and
      offline, slashes and their review, and the traits OCOps, RTOps and MTOps
      it implements; ProfileSteps.v: what its operations leave alone, its money
      as the rental pallet sees it, and the count of rented GPUs;
      ProfileOwners.v: who owns which machine; ProfileSlashes.v: when slashes
      are executed; ProfileTheorems.v: what owners can rely on, and a run.
    - Market.v: rent-machine over online-profile, first against the laws of the
      registry's count, then with the registry itself; a run records at which
      machines a call wrapped the 32-bit count.
    - MaintainCommittee.v: maintain-committee, reports of faulty machines, their
      booking, commit and reveal of verdicts, the summaries, slashes and
      appeals; MaintainSteps.v: what its parts leave alone; MaintainVotes.v: the
      members and verdicts of a report; MaintainSlashes.v: when results and
      appeals are executed; MaintainTheorems.v: what follows, and a run over
      rent-machine, online-profile and committee.
    - TerminatingState.v, TerminatingRental.v: terminating-rental, machines with a
      deposit, their verification, orders that either side may end early, and
      fault reports; the parts of its storage that verify and that hold reports
      are the states of OnlineCommittee.v and MaintainCommittee.v; the draw and
      booking of members, the summary and its slashes are written out from this
      pallet's own code, and the calls whose code is the same but for the names
      of the storage are the definitions of those files. TerminatingSteps.v:
      what its operations leave alone, and that the draw and the booking are
      those of online-committee; TerminatingVerify.v: its verification as that
      of online-committee over a registry inside the pallet, and the invariants
      this gives; TerminatingReports.v: the votes on reports;
      TerminatingOrders.v: orders, GPUs and queues; TerminatingTyped.v: the
      types of the stored numbers; TerminatingTheorems.v: what follows;
      TerminatingRuns.v: runs over committee and generic-func.
    - X402.v: x402-settlement, payment intents verified by a facilitator.
    - Attestation.v: agent-attestation, attested task results with deposits and
      challenges; confirming one settles it through x402-settlement.
    - ComputePool.v: compute-pool-scheduler, its data and operations;
      PoolScoring.v: choice of a pool, scores and rewards; PoolInvariant.v and
      PoolSteps.v: its invariant and steps; PoolMoney.v: its money, and its
      composition with the attestation pallet, which it notifies of completed
      tasks.
    - EvmInterface.v: what a precompiled contract sees of the EVM (the call, the
      encoded arguments, selectors, gas and failures), and
      eth-precompile-whitelist; Precompiles.v: the contracts of
      src/runtime/src/precompiles over the states of the pallets above, and the
      set that routes calls to them; PrecompileTheorems.v: what callers can do
      through them, and runs.
    - CouncilReward.v: council-reward, the rewards of the council.
    - StakingState.v, Staking.v: staking, the chain's version of Substrate's
      pallet: ledgers of bonds and their unlocking chunks, validators and
      nominators, payouts of eras, offences with slashing spans and deferred
      slashes, eras and sessions, and the emission by phases with the rewards
      of committee, foundation and treasury; locks, the list of voters,
      sessions and nomination pools are the class [StakingHost].
      StakingLedgers.v: the arithmetic of a ledger; StakingSteps.v: the
      invariant and what leaves it alone; StakingInvariant.v, StakingEras.v,
      StakingCalls.v: ledgers, roles, slashes and payouts, eras, and calls keep
      it; StakingRuns.v: runs from genesis; StakingTheorems.v: what follows,
      and runs on a concrete host.

    In each of these files a Module holds one pallet: its storage is the record
    [State] (with the events it deposited), its constants and host functions the
    record [Config], its enums and structs inductive types and records with the
    source's names, and each dispatchable, hook, helper and trait method one
    definition, guard by guard. [dispatch] runs a call in its storage layer;
    [step] adds the passing of blocks and whatever other pallets do to the
    ledger. Each model ends with a Demo (or a file of runs) that runs it on a
    concrete ledger.

    ** What the theorems show

    - Invariants ([.._reachable_invariant], [com_roles_machine]): in every
      reachable state the maps, queues, counters and statistics of a pallet
      agree, for online-committee and rent-machine whatever the pallets they
      call do; in particular no GPU is in two orders, the era statistics of
      task-mode are the sums over the paid orders and the queues hold exactly
      the pending items; [op_reachable_owners] (stashes, controllers and
      machines); [mt_reachable_votes] (the verdict counted of a member is one that
      opens its commitment, and on exactly one side of an inaccessible machine
      while no two openings have one hash); of the second rental mode
      [tr_reachable_orders], [tr_reachable_verified], [tr_reachable_votes] and
      [tr_reachable_typed] (stored numbers have the types of the source). Of
      rent-machine and online-profile together: [market_reachable_counted] (the
      registry counts at least the GPUs of the orders of a machine whose count
      never wrapped) and
      [market_rents_exactly] (so an order has the GPUs it pays for).
      Of staking: [st_reachable_ledgers] (bonds, ledgers, locks, roles and the
      list of voters agree) and [st_paid_once] (no payout of an era is repeated).
    - Solvency ([.._steps_solvent]): no call, hook or nested call of another
      pallet promises more than is reserved, on top of what the rest of the
      runtime holds; for compute pools a dispute after the claim is excluded,
      and shown to break it.
    - Exact payments ([.._pays_..], [tm_settle_pays_exactly],
      [att_resolve_splits_deposit], [com_stake_exact], [zk_verify_decides],
      [gf_slash_shared_exactly], [gf_destroy_exact], [rm_rent_exclusive],
      [op_report_online_slash], [op_claim_pays_exactly], [tr_terminate_pays],
      [evm_bridge_moves_exactly], [council_rewards_top], [st_end_era_issues],
      [st_slash_bounded] with an upper and a lower bound): what each call that moves money moves, from which
      reserve, and when.
    - Life cycles ([.._lifecycle], [x402_status_machine]): records are never lost,
      their terms never change, and their status follows the state machine.
    - Refinement: [price_refines_history] (window and average against the
      history of all prices), [item_list_refines_set] (sorted vectors against
      finite sets, with the bound on the search), [com_roles_machine] (four
      vectors against one role per account), [tr_verification_refines] (the
      verification of terminating-rental against online-committee),
      [evm_calls_are_native] (calls of contracts against native calls of the
      account of the caller), with [evm_spends_caller_only] (what they can cost
      others) and [evm_create_order_returns_id]. Equivalence:
      [vo_summary_is_majority] (the case analysis over the reports against the
      majority of the votes), [zk_worker_covers].
    - Hooks and workers: [x402_hook_expires_exactly], [pool_hook_decides_exactly]
      (the incremental scans act on the whole storage), [price_worker_total] (no
      panic for any network), [oc_hooks_never_panic], [tr_hooks_never_panic],
      [oc_work_index_covers], [rm_hook_ends_exactly], [tr_hook_ends_orders].
    - Liveness: [tm_funds_recoverable], [op_slashes_executed],
      [mt_results_executed]. Round trips: [zk_verifier_roundtrip],
      [st_unbond_rebond].
      Termination: [rm_never_hangs]; a call that would loop ends in [Hangs].
    - Defects: [zk_unsigned_unchecked], [pool_dispute_after_claim_overdraws],
      [pool_deregistered_locks_escrow], [price_parse_exact] (a saturating product
      misreads 14-digit prices), [tm_billing_quote], [com_total_stake_keeps_lists],
      [vo_hash_binds_verdict_only] (a committed report can be exchanged),
      [oc_appeal_punished_before_due], [oc_cancel_refunds_deposit_twice],
      [oc_failed_slash_repeats], [slash_short], [op_swap_skips_verification],
      [op_second_review_loses_stake], [op_slash_takes_others],
      [mt_appeals_end_with_block] (appeals are executed at once),
      [mt_reduce_frees_reserves], [mt_vote_opens_both_ways],
      [mt_late_booking_silences], [mt_reporter_pays_for_member],
      [mt_result_executed_twice], [tr_stale_id_blocks_hook],
      [tr_terminated_machine_stays_rented], [tr_offline_skips_verification],
      [tr_unverified_exit_keeps_stake], [tr_back_online_loses_stake],
      [evm_panics_oversized] (exactly when contracts panic),
      [evm_unlisted_contracts], [evm_status_without_miner],
      [slash_exceeds_amount], [moved_chunk_exposes_later_chunks],
      [committee_index_panics], [committee_list_not_started],
      [treasury_needs_foundation].

    ** Bounds and parameters

    Integers are [Z] with the bounds of their Rust types written into the
    operations; balances have 128 bits, ids 64, block numbers 32. The only fuel
    is that of the binary search: two more than the logarithm of the length,
    proved to suffice. Loops of the code over lists are structural recursions.
    Code outside the repository is a parameter: the currency, [Percent] and
    [Perbill] products (a rounding to a nearest integer), signature
    verification, encodings, hashing, JSON parsing, HTTP and the random source;
    for the contracts the ABI, Keccak-256, the mapping of addresses to accounts
    and the gas of a weight (the record [Host]); for staking what the election
    answers, [Perquintill], the conversion of balances to votes, and the pallets
    of [StakingHost]. A run of staking ends with the last era that 32 bits can
    count, and a payout needs room in the 128 bits of the ledgers it adds to.
    Account ids and hashes are numbers, as only their equality and order matter.

    ** Not modelled

    dlc-price-ocw copies dbc-price-ocw, and only its conversion is modelled
    again. Of online-profile and terminating-rental the types for RPC clients
    are left out; of staking the targets given to an election and the view
    functions for other pallets. The forks of Substrate's assets and nfts
    pallets, the node, client and RPC crates, weights, benchmarks, migrations and empty
    genesis configurations are left out: they are third-party code, I/O or
    generated constants. Weights returned by calls are not modelled except
    where a hook computes one. *)
From stdpp Require Import base gmap fin_maps list sets numbers countable relations.
From Stdlib Require Import ZArith Lia Strings.Byte.

(** ** Notation and record update *)

Declare Scope pallet_scope.
Delimit Scope pallet_scope with pallet.
#[global] Open Scope pallet_scope.
#[global] Open Scope Z_scope.

(** [RecordEta R] holds the eta-expansion of the record type [R]; updating a
    field is that expansion with one projection composed with an updater. *)
Class RecordEta (R : Type) := record_eta : R → R.

Class FieldUpdate {R E : Type} (proj : R → E) := field_update : (E → E) → R → R.
#[global] Arguments field_update {R E} proj {_} f r /.

Ltac solve_field_update R proj :=
  let inst := constr:(_ : RecordEta R) in
  let eta := eval red in inst in
  match eval pattern proj in eta with
  | ?body _ => let upd := eval cbv beta in (λ f, body (λ r, f (proj r))) in exact upd
  end.

#[export] Hint Extern 1 (@FieldUpdate ?R _ ?proj) =>
  solve_field_update R proj : typeclass_instances.

Notation "r <| proj := v |>" := (field_update proj (λ _, v) r)
  (at level 1, v at level 99, left associativity) : pallet_scope.
Notation "r <| proj ::= f |>" := (field_update proj f r)
  (at level 1, f at level 99, left associativity) : pallet_scope.

(** ** The runtime's basic types

    An account id and a 32-byte hash are opaque identities, so a natural
    number stands for each; machine integers are [Z] with their width's
    operations written out below. *)

Abbreviation AccountId := N (only parsing).
Abbreviation H256 := N (only parsing).
Abbreviation Balance := Z (only parsing).
Abbreviation BlockNumber := Z (only parsing).
Abbreviation bytes := (list byte) (only parsing).

#[export] Instance byte_eq_dec : EqDecision byte := Byte.byte_eq_dec.
#[export] Program Instance byte_countable : Countable byte :=
  {| encode b := encode (Byte.to_N b); decode p := decode p ≫= Byte.of_N |}.
Next Obligation. intros b. simpl. rewrite decode_encode. apply Byte.of_to_N. Qed.

(** ** Machine integers *)

Definition U32_MAX : Z := 2 ^ 32 - 1.
Definition U64_MAX : Z := 2 ^ 64 - 1.
Definition U128_MAX : Z := 2 ^ 128 - 1.

Definition saturating_add (max a b : Z) : Z := Z.min (a + b) max.
Definition saturating_sub (a b : Z) : Z := Z.max 0 (a - b).
Definition saturating_mul (max a b : Z) : Z := Z.min (a * b) max.
Definition checked_add (max a b : Z) : option Z :=
  if a + b <=? max then Some (a + b) else None.
Definition checked_sub (a b : Z) : option Z :=
  if b <=? a then Some (a - b) else None.
Definition checked_mul (max a b : Z) : option Z :=
  if a * b <=? max then Some (a * b) else None.
Definition checked_div (a b : Z) : option Z :=
  if b =? 0 then None else Some (a / b).

(** [x.saturated_into()] and [u64::try_from(x)] for an unsigned target. *)
Definition saturated_into (max a : Z) : Z := Z.min a max.
Definition try_from (max a : Z) : option Z := if a <=? max then Some a else None.

Lemma checked_add_Some max a b c : checked_add max a b = Some c ↔ c = a + b ∧ a + b ≤ max.
Proof. unfold checked_add. destruct (Z.leb_spec (a + b) max); naive_solver lia. Qed.
Lemma checked_sub_Some a b c : checked_sub a b = Some c ↔ c = a - b ∧ b ≤ a.
Proof. unfold checked_sub. destruct (Z.leb_spec b a); naive_solver lia. Qed.
Lemma checked_mul_Some max a b c : checked_mul max a b = Some c ↔ c = a * b ∧ a * b ≤ max.
Proof. unfold checked_mul. destruct (Z.leb_spec (a * b) max); naive_solver lia. Qed.
Lemma checked_div_Some a b c : checked_div a b = Some c ↔ c = a / b ∧ b ≠ 0.
Proof. unfold checked_div. destruct (Z.eqb_spec b 0); naive_solver. Qed.
Lemma try_from_Some max a c : try_from max a = Some c ↔ c = a ∧ a ≤ max.
Proof. unfold try_from. destruct (Z.leb_spec a max); naive_solver lia. Qed.
Lemma saturating_add_exact max a b : a + b ≤ max → saturating_add max a b = a + b.
Proof. unfold saturating_add. lia. Qed.
Lemma saturating_sub_exact a b : b ≤ a → saturating_sub a b = a - b.
Proof. unfold saturating_sub. lia. Qed.

(** ** Results, and state with errors

    A pallet function runs on the storage [S] and returns a [result]; as in
    the runtime, what it wrote before failing stays written until an
    enclosing storage layer discards it ([transactional]), so a caller that
    ignores the error ([ignore], the code's [let _ = ...]) keeps it. *)

Inductive result (E A : Type) :=
| Ok (a : A)
| Err (e : E).
#[global] Arguments Ok {E A} a.
#[global] Arguments Err {E A} e.

Definition is_ok {E A} (r : result E A) : bool :=
  match r with Ok _ => true | Err _ => false end.

Definition M (S E A : Type) : Type := S → result E A * S.

#[export] Instance M_ret S E : MRet (M S E) := λ A a s, (Ok a, s).
#[export] Instance M_bind S E : MBind (M S E) := λ A B f m s,
  match m s with
  | (Ok a, s1) => f a s1
  | (Err e, s1) => (Err e, s1)
  end.

Section monad.
Context {S E : Type}.

Definition fail {A} (e : E) : M S E A := λ s, (Err e, s).
Definition gets {A} (f : S → A) : M S E A := λ s, (Ok (f s), s).
Definition modify (f : S → S) : M S E unit := λ s, (Ok tt, f s).
Definition ensure (b : bool) (e : E) : M S E unit := λ s,
  if b then (Ok tt, s) else (Err e, s).
Definition ok_or {A} (o : option A) (e : E) : M S E A := λ s,
  match o with Some a => (Ok a, s) | None => (Err e, s) end.
Definition ignore {E' A} (m : M S E' A) : M S E unit := λ s, (Ok tt, (m s).2).
Definition transactional {A} (m : M S E A) : M S E A := λ s,
  match m s with
  | (Ok a, s') => (Ok a, s')
  | (Err e, _) => (Err e, s)
  end.
Definition map_err {E' A} (e : E) (m : M S E' A) : M S E A := λ s,
  match m s with
  | (Ok a, s') => (Ok a, s')
  | (Err _, s') => (Err e, s')
  end.
Fixpoint for_each {A} (l : list A) (body : A → M S E unit) : M S E unit :=
  match l with
  | [] => mret tt
  | x :: l' => body x ;; for_each l' body
  end.

Lemma bind_Ok {A B} (m : M S E A) (f : A → M S E B) s b s' :
  (m ≫= f) s = (Ok b, s') ↔ ∃ a s1, m s = (Ok a, s1) ∧ f a s1 = (Ok b, s').
Proof.
  unfold mbind, M_bind. destruct (m s) as [[a|e] s1].
  - split; [eauto|]. intros (a' & s2 & Heq & Hf). by simplify_eq.
  - split; [done|]. intros (a' & s2 & Heq & _). done.
Qed.
Lemma bind_Err {A B} (m : M S E A) (f : A → M S E B) s e s' :
  (m ≫= f) s = (Err e, s') ↔
  m s = (Err e, s') ∨ ∃ a s1, m s = (Ok a, s1) ∧ f a s1 = (Err e, s').
Proof.
  unfold mbind, M_bind. destruct (m s) as [[a|e'] s1]; naive_solver.
Qed.
Lemma bind_run {A B} (m : M S E A) (f : A → M S E B) s a s1 :
  m s = (Ok a, s1) → (m ≫= f) s = f a s1.
Proof. unfold mbind, M_bind. by intros ->. Qed.
Lemma bind_gets {A B} (f : S → A) (k : A → M S E B) s : (gets f ≫= k) s = k (f s) s.
Proof. done. Qed.
Lemma bind_modify {B} (f : S → S) (k : unit → M S E B) s : (modify f ≫= k) s = k tt (f s).
Proof. done. Qed.
Lemma bind_ok_or {A B} (a : A) e (k : A → M S E B) s : (ok_or (Some a) e ≫= k) s = k a s.
Proof. done. Qed.
Lemma mret_Ok {A} (a : A) s b s' :
  (mret a : M S E A) s = (Ok b, s') ↔ b = a ∧ s' = s.
Proof. unfold mret, M_ret. naive_solver. Qed.
Lemma gets_Ok {A} (f : S → A) s b s' : gets f s = (Ok b, s') ↔ b = f s ∧ s' = s.
Proof. unfold gets. naive_solver. Qed.
Lemma modify_Ok f s b s' : modify f s = (Ok b, s') ↔ s' = f s.
Proof. unfold modify. destruct b. naive_solver. Qed.
Lemma ensure_Ok b e s u s' : ensure b e s = (Ok u, s') ↔ b = true ∧ s' = s.
Proof. unfold ensure. destruct b, u; naive_solver. Qed.
Lemma ok_or_Ok {A} (o : option A) e s a s' :
  ok_or o e s = (Ok a, s') ↔ o = Some a ∧ s' = s.
Proof. unfold ok_or. destruct o; naive_solver. Qed.
Lemma fail_Ok {A} e s (a : A) s' : fail e s = (Ok a, s') ↔ False.
Proof. unfold fail. naive_solver. Qed.
Lemma ignore_Ok {E' A} (m : M S E' A) s u s' : ignore m s = (Ok u, s') ↔ s' = (m s).2.
Proof. unfold ignore. destruct u. naive_solver. Qed.

Lemma map_err_Ok {E' A} (e : E) (m : M S E' A) s a s' :
  map_err e m s = (Ok a, s') ↔ m s = (Ok a, s').
Proof. unfold map_err. destruct (m s) as [[]]; naive_solver. Qed.

Lemma transactional_Ok {A} (m : M S E A) s a s' :
  transactional m s = (Ok a, s') → m s = (Ok a, s').
Proof. unfold transactional. destruct (m s) as [[]]; naive_solver. Qed.
Lemma transactional_Err {A} (m : M S E A) s e s' :
  transactional m s = (Err e, s') → s' = s.
Proof. unfold transactional. destruct (m s) as [[]]; naive_solver. Qed.

Lemma run_eta {A} (m : M S E A) s r : (m s).1 = r → m s = (r, (m s).2).
Proof. intros <-. apply surjective_pairing. Qed.

(** A storage layer preserves whatever the successful runs preserve. *)
Lemma transactional_preserves {A} (P : S → Prop) (m : M S E A) s :
  P s → (∀ a s', m s = (Ok a, s') → P s') → P (transactional m s).2.
Proof. intros Hs Hok. unfold transactional. destruct (m s) as [[]]; eauto. Qed.

(** A loop preserves what each run of its body preserves. *)
Lemma for_each_preserves {A} (P : S → Prop) (l : list A) (body : A → M S E unit) s u s' :
  (∀ x s1 s2, x ∈ l → P s1 → body x s1 = (Ok tt, s2) → P s2) →
  P s → for_each l body s = (Ok u, s') → P s'.
Proof.
  revert s. induction l as [|x l IH]; intros s Hbody Hs; simpl.
  - rewrite mret_Ok. naive_solver.
  - rewrite bind_Ok. intros ([] & s1 & Hx & Hl).
    eapply IH; [|eapply Hbody; [|exact Hs|exact Hx]; constructor|exact Hl].
    intros y s2 s3 Hy. eapply Hbody. by constructor.
Qed.
End monad.

(** [run_inv] decomposes every hypothesis that says a pallet function
    succeeded into the facts each of its steps established. Components add
    their own primitive steps by extending [run_step]. *)
Ltac run_step :=
  match goal with
  | H : mbind _ _ _ = (Ok _, _) |- _ =>
      apply bind_Ok in H; destruct H as (? & ? & ? & H)
  | H : (mret _) _ = (Ok _, _) |- _ => apply mret_Ok in H; destruct H as [? ?]; subst
  | H : gets _ _ = (Ok _, _) |- _ => apply gets_Ok in H; destruct H as [? ?]; subst
  | H : modify _ _ = (Ok _, _) |- _ => apply modify_Ok in H; subst
  | H : ensure _ _ _ = (Ok _, _) |- _ => apply ensure_Ok in H; destruct H as [H ?]; subst
  | H : ok_or _ _ _ = (Ok _, _) |- _ => apply ok_or_Ok in H; destruct H as [H ?]; subst
  | H : fail _ _ = (Ok _, _) |- _ => apply fail_Ok in H; destruct H
  | H : ignore _ _ = (Ok _, _) |- _ => apply ignore_Ok in H; subst
  | H : map_err _ _ _ = (Ok _, _) |- _ => apply map_err_Ok in H
  | H : transactional _ _ = (Ok _, _) |- _ => apply transactional_Ok in H
  end.

(** Boolean guards of the code, turned into the propositions they decide. *)
Ltac guard_inv :=
  repeat match goal with
  | H : Some _ = ?y |- _ => lazymatch y with Some _ => fail | _ => symmetry in H end
  | H : None = ?y |- _ => lazymatch y with None => fail | _ => symmetry in H end
  | H : true = ?y |- _ => lazymatch y with true => fail | _ => symmetry in H end
  | H : false = ?y |- _ => lazymatch y with false => fail | _ => symmetry in H end
  | H : negb _ = true |- _ => apply negb_true_iff in H
  | H : negb _ = false |- _ => apply negb_false_iff in H
  | H : _ && _ = true |- _ => apply andb_true_iff in H; destruct H
  | H : bool_decide _ = true |- _ => apply bool_decide_eq_true in H
  | H : bool_decide _ = false |- _ => apply bool_decide_eq_false in H
  | H : (_ <=? _) = true |- _ => apply Z.leb_le in H
  | H : (_ <=? _) = false |- _ => apply Z.leb_gt in H
  | H : (_ <? _) = true |- _ => apply Z.ltb_lt in H
  | H : (_ <? _) = false |- _ => apply Z.ltb_ge in H
  | H : (_ =? _) = true |- _ => apply Z.eqb_eq in H
  | H : (_ =? _) = false |- _ => apply Z.eqb_neq in H
  | H : checked_add _ _ _ = Some _ |- _ => apply checked_add_Some in H; destruct H
  | H : checked_sub _ _ = Some _ |- _ => apply checked_sub_Some in H; destruct H
  | H : checked_mul _ _ _ = Some _ |- _ => apply checked_mul_Some in H; destruct H
  | H : checked_div _ _ = Some _ |- _ => apply checked_div_Some in H; destruct H
  | H : try_from _ _ = Some _ |- _ => apply try_from_Some in H; destruct H
  end.

(** [pallet] holds what closes the leaves of an effect or invariant proof:
    reading back a map just written, membership, and the range of a part. *)
Create HintDb pallet discriminated.
#[export] Hint Resolve lookup_insert_eq mk_is_Some list_elem_of_lookup_2 Z.div_pos : pallet.
#[export] Hint Resolve checked_add_Some checked_sub_Some checked_mul_Some : pallet.

(** Closes a conjunction of such leaves. *)
Ltac solve_facts := split_and!; first [done | lia | congruence | by eauto with pallet].

(** ** Reachable states *)

Lemma rtc_invariant {A} (R : relation A) (P : A → Prop) x y :
  (∀ a b, R a b → P a → P b) → P x → rtc R x y → P y.
Proof. intros Hstep Hx Hr. induction Hr; eauto. Qed.

(** ** Lists *)

(** Two predicates that agree on a list's elements filter it the same way. *)
Lemma filter_agree {A} (P Q : A → Prop) `{∀ x, Decision (P x)} `{∀ x, Decision (Q x)}
    (l : list A) : (∀ x, x ∈ l → P x ↔ Q x) → filter P l = filter Q l.
Proof.
  induction l as [|x l IH]; intros Hl; [done|]. rewrite !filter_cons.
  rewrite IH by (intros y Hy; apply Hl; by constructor).
  specialize (Hl x ltac:(constructor)). repeat case_decide; naive_solver.
Qed.

Lemma filter_all {A} (P : A → Prop) `{∀ x, Decision (P x)} (l : list A) :
  (∀ x, x ∈ l → P x) → filter P l = l.
Proof.
  induction l as [|x l IH]; intros Hl; [done|]. rewrite filter_cons_True.
  - f_equal. apply IH. intros y Hy. apply Hl. by constructor.
  - apply Hl. constructor.
Qed.

Lemma filter_none {A} (P : A → Prop) `{∀ x, Decision (P x)} (l : list A) :
  (∀ x, x ∈ l → ¬ P x) → filter P l = [].
Proof.
  induction l as [|x l IH]; intros Hl; [done|]. rewrite filter_cons_False.
  - apply IH. intros y Hy. apply Hl. by constructor.
  - apply Hl. constructor.
Qed.

Lemma length_filter_split {A} (P : A → Prop) `{∀ x, Decision (P x)} (l : list A) :
  (length (filter P l) + length (filter (λ x, ¬ P x) l) = length l)%nat.
Proof.
  induction l as [|x l IH]; [done|]. rewrite !filter_cons.
  destruct (decide (P x)), (decide (¬ P x)); simpl; try lia; done.
Qed.

Definition zsum (l : list Z) : Z := foldr Z.add 0 l.

Lemma zsum_cons x l : zsum (x :: l) = x + zsum l.
Proof. done. Qed.
Lemma zsum_app l k : zsum (l ++ k) = zsum l + zsum k.
Proof. induction l; simpl in *; lia. Qed.
Lemma zsum_nonneg l : Forall (λ x, 0 ≤ x) l → 0 ≤ zsum l.
Proof. induction 1; simpl in *; lia. Qed.
Lemma zsum_bounds lo hi l :
  Forall (λ x, lo ≤ x ≤ hi) l → Z.of_nat (length l) * lo ≤ zsum l ≤ Z.of_nat (length l) * hi.
Proof. unfold zsum. induction 1; simpl length; simpl foldr; lia. Qed.

(** ** Storage maps *)

Lemma alter_Some `{Countable K} {V} (f : V → V) (m : gmap K V) k v :
  m !! k = Some v → alter f k m = <[k := f v]> m.
Proof. intros Hk. rewrite <-(insert_id m k v Hk) at 1. apply alter_insert_eq. Qed.

(** ** Sums over a storage map *)

Definition msum `{Countable K} {V} (f : K → V → Z) (m : gmap K V) : Z :=
  map_fold (λ k v acc, f k v + acc) 0 m.

Section msum.
Context `{Countable K} {V : Type}.
Implicit Types (f g : K → V → Z) (m : gmap K V).

Lemma msum_empty f : msum f ∅ = 0.
Proof. apply map_fold_empty. Qed.

Lemma msum_insert_None f m k v :
  m !! k = None → msum f (<[k := v]> m) = f k v + msum f m.
Proof. intros Hk. unfold msum. rewrite map_fold_insert_L; [done|intros; lia|done]. Qed.

Lemma msum_delete f m k v :
  m !! k = Some v → msum f (delete k m) = msum f m - f k v.
Proof.
  intros Hk. rewrite <-(insert_delete_id m k v Hk) at 2.
  rewrite msum_insert_None by apply lookup_delete_eq. lia.
Qed.

Lemma msum_insert_Some f m k v w :
  m !! k = Some w → msum f (<[k := v]> m) = msum f m - f k w + f k v.
Proof.
  intros Hk. rewrite <-insert_delete_eq.
  rewrite msum_insert_None by apply lookup_delete_eq.
  rewrite (msum_delete _ _ _ _ Hk). lia.
Qed.

Lemma msum_ext f g m :
  (∀ k v, m !! k = Some v → f k v = g k v) → msum f m = msum g m.
Proof.
  induction m as [|k v m Hk IH] using map_ind; intros Heq.
  - by rewrite !msum_empty.
  - rewrite !msum_insert_None by done.
    rewrite IH, (Heq k v); [done|apply lookup_insert_eq|].
    intros k' v' Hk'. apply Heq. rewrite lookup_insert_ne; [done|]. naive_solver.
Qed.

Lemma msum_nonneg f m :
  (∀ k v, m !! k = Some v → 0 ≤ f k v) → 0 ≤ msum f m.
Proof.
  induction m as [|k v m Hk IH] using map_ind; intros Hf.
  - by rewrite msum_empty.
  - rewrite msum_insert_None by done.
    pose proof (Hf k v (lookup_insert_eq _ _ _)).
    enough (0 ≤ msum f m) by lia.
    apply IH. intros k' v' Hk'. apply (Hf k').
    rewrite lookup_insert_ne; [done|]. naive_solver.
Qed.

Lemma msum_add f g m : msum (λ k v, f k v + g k v) m = msum f m + msum g m.
Proof.
  induction m as [|k v m Hk IH] using map_ind; [by rewrite !msum_empty|].
  rewrite !msum_insert_None by done. lia.
Qed.

Lemma msum_le f g m :
  (∀ k v, m !! k = Some v → f k v ≤ g k v) → msum f m ≤ msum g m.
Proof.
  intros Hle. enough (0 ≤ msum (λ k v, g k v + - f k v) m) as Hd.
  { rewrite msum_add in Hd. enough (msum (λ k v, - f k v) m = - msum f m) by lia.
    clear. induction m as [|k v m Hk IH] using map_ind; [by rewrite !msum_empty|].
    rewrite !msum_insert_None by done. lia. }
  apply msum_nonneg. intros k v Hk. specialize (Hle k v Hk). lia.
Qed.

(** A finite sum of sums, in either order. *)
Lemma msum_zsum {I} (f : I → K → V → Z) (l : list I) m :
  zsum ((λ i, msum (f i) m) <$> l) = msum (λ k v, zsum ((λ i, f i k v) <$> l)) m.
Proof.
  induction l as [|i l IH].
  - simpl. induction m as [|k v m Hk IHm] using map_ind; [by rewrite msum_empty|].
    rewrite msum_insert_None by done. simpl in *. lia.
  - rewrite fmap_cons. change (msum (f i) m + zsum ((λ i, msum (f i) m) <$> l) =
      msum (λ k v, f i k v + zsum ((λ i, f i k v) <$> l)) m).
    by rewrite IH, msum_add.
Qed.

Lemma msum_lookup_le f m k v :
  (∀ k v, m !! k = Some v → 0 ≤ f k v) → m !! k = Some v → f k v ≤ msum f m.
Proof.
  intros Hf Hk. pose proof (msum_delete f m k v Hk) as Hd.
  enough (0 ≤ msum f (delete k m)) by lia.
  apply msum_nonneg. intros k' v' [? Hk']%lookup_delete_Some. by apply (Hf k').
Qed.
End msum.

(** ** Origins and dispatch errors *)

Inductive Origin :=
| Root
| Signed (who : AccountId)
| NoOrigin.

(** The error of a dispatchable: a bad origin, an error of the pallet, an
    arithmetic error of the runtime, or the currency's own error. *)
Inductive DispatchError (E : Type) :=
| BadOrigin
| Module (e : E)
| ArithmeticError
| CurrencyError.
#[global] Arguments BadOrigin {E}.
#[global] Arguments Module {E} e.
#[global] Arguments ArithmeticError {E}.
#[global] Arguments CurrencyError {E}.

Definition ensure_signed {S E} (o : Origin) : M S (DispatchError E) AccountId :=
  match o with Signed who => mret who | _ => fail BadOrigin end.
Definition ensure_root {S E} (o : Origin) : M S (DispatchError E) unit :=
  match o with Root => mret tt | _ => fail BadOrigin end.
Definition ensure_none {S E} (o : Origin) : M S (DispatchError E) unit :=
  match o with NoOrigin => mret tt | _ => fail BadOrigin end.

Lemma ensure_signed_Ok {S E} o (s : S) a s' :
  ensure_signed (E:=E) o s = (Ok a, s') ↔ o = Signed a ∧ s' = s.
Proof. destruct o; unfold ensure_signed, fail, mret, M_ret; naive_solver. Qed.
Lemma ensure_root_Ok {S E} o (s : S) a s' :
  ensure_root (E:=E) o s = (Ok a, s') ↔ o = Root ∧ s' = s.
Proof. destruct o, a; unfold ensure_root, fail, mret, M_ret; naive_solver. Qed.
Lemma ensure_none_Ok {S E} o (s : S) a s' :
  ensure_none (E:=E) o s = (Ok a, s') ↔ o = NoOrigin ∧ s' = s.
Proof. destruct o, a; unfold ensure_none, fail, mret, M_ret; naive_solver. Qed.

Ltac origin_step :=
  match goal with
  | H : ensure_signed _ _ = (Ok _, _) |- _ =>
      apply ensure_signed_Ok in H; destruct H as [H ?]; subst
  | H : ensure_root _ _ = (Ok _, _) |- _ =>
      apply ensure_root_Ok in H; destruct H as [H ?]; subst
  | H : ensure_none _ _ = (Ok _, _) |- _ =>
      apply ensure_none_Ok in H; destruct H as [H ?]; subst
  end.

(** ** Rational parts: [Percent] and [Perbill]

    [sp-arithmetic] is outside the repository. The pallets multiply a balance
    by a rational part [p/accuracy], which that crate documents as a rounding
    to the nearest integer, and make parts from percents or from rationals,
    which it documents as rounded down where the denominator has 32 bits, and as
    one where the rational is not below one or has no value; this is all the
    development relies on. *)
Class PerThing := {
  accuracy : Z;
  from_percent : Z → Z;
  from_rational : Z → Z → Z;
  per_mul : Z → Balance → Balance;
}.

Class PerThingLaws (P : PerThing) : Prop := {
  accuracy_pos : 0 < accuracy;
  from_percent_part x : 0 ≤ x → 0 ≤ from_percent x ≤ accuracy;
  from_percent_exact x : 0 ≤ x ≤ 100 → 100 * from_percent x = x * accuracy;
  from_rational_part p q : 0 ≤ p → 0 ≤ from_rational p q ≤ accuracy;
  from_rational_floor p q : 0 ≤ p ≤ q → 0 < q ≤ U32_MAX →
    q * from_rational p q ≤ p * accuracy < q * (from_rational p q + 1);
  from_rational_one p q : q = 0 ∨ q < p → from_rational p q = accuracy;
  per_mul_nearest p x : 0 ≤ p ≤ accuracy → 0 ≤ x →
    - accuracy ≤ 2 * (accuracy * per_mul p x - p * x) ≤ accuracy;
}.

(** Rounding to the nearest integer, ties downwards, is one such product. *)
Definition nearest (acc : Z) (p x : Z) : Z := (2 * p * x + acc - 1) / (2 * acc).

(** The quotient rounded down, one if it is not below one or has no value. *)
Definition ratio (acc p q : Z) : Z := if (q <=? 0) || (q <? p) then acc else p * acc / q.

Definition percent : PerThing :=
  {| accuracy := 100; from_percent x := Z.min x 100; from_rational := ratio 100;
     per_mul := nearest 100 |}.
Definition perbill : PerThing :=
  {| accuracy := 1000000000; from_percent x := Z.min x 100 * 10000000;
     from_rational := ratio 1000000000; per_mul := nearest 1000000000 |}.

Lemma nearest_bounds acc p x :
  0 < acc → - acc ≤ 2 * (acc * nearest acc p x - p * x) ≤ acc.
Proof.
  intros Hacc. unfold nearest.
  pose proof (Z.div_mod (2 * p * x + acc - 1) (2 * acc) ltac:(lia)).
  pose proof (Z.mod_pos_bound (2 * p * x + acc - 1) (2 * acc) ltac:(lia)). lia.
Qed.

Lemma div_floor a q : 0 < q → q * (a / q) ≤ a < q * (a / q + 1).
Proof. intros Hq. pose proof (Z.div_mod a q). pose proof (Z.mod_pos_bound a q). lia. Qed.
Lemma ratio_part acc p q : 0 < acc → 0 ≤ p → 0 ≤ ratio acc p q ≤ acc.
Proof.
  intros Ha Hp. unfold ratio. destruct (Z.leb_spec q 0), (Z.ltb_spec q p); simpl; try lia.
  pose proof (div_floor (p * acc) q ltac:(lia)). nia.
Qed.
Lemma ratio_floor acc p q : 0 ≤ p ≤ q → 0 < q → q * ratio acc p q ≤ p * acc < q * (ratio acc p q + 1).
Proof.
  intros Hp Hq. unfold ratio. destruct (Z.leb_spec q 0), (Z.ltb_spec q p); try lia.
  by apply div_floor.
Qed.
Lemma ratio_one acc p q : q = 0 ∨ q < p → ratio acc p q = acc.
Proof. intros Hq. unfold ratio. destruct (Z.leb_spec q 0), (Z.ltb_spec q p); try done; lia. Qed.

Lemma percent_laws : PerThingLaws percent.
Proof.
  split; simpl; intros; try lia;
    [by apply ratio_part|apply ratio_floor; lia|by apply ratio_one|by apply nearest_bounds].
Qed.
Lemma perbill_laws : PerThingLaws perbill.
Proof.
  split; simpl; intros; try lia;
    [by apply ratio_part|apply ratio_floor; lia|by apply ratio_one|by apply nearest_bounds].
Qed.

(** A rational part of a balance lies between zero and the balance. *)
Lemma per_mul_bounds {P : PerThing} {LP : PerThingLaws P} p x :
  0 ≤ p ≤ accuracy → 0 ≤ x → 0 ≤ per_mul p x ≤ x.
Proof.
  intros Hp Hx. pose proof (per_mul_nearest p x Hp Hx) as Hn.
  pose proof accuracy_pos as Ha.
  assert (0 ≤ p * x ≤ accuracy * x) by nia. split; nia.
Qed.
