(* ===== verification/Currency.v ===== *)
(** * The native currency, as the pallets use it

    [pallet-balances] is outside the repository, so the pallets' accesses to
    it are the operations of a class, and [ReservableCurrencyLaws] states what
    the [ReservableCurrency] trait documents of them: how much each call moves
    between the free and the reserved balance of which account. [Ledger] is a
    concrete currency with these laws, on which the examples run.

    The last section states what a component that reserves funds promises:
    [held] is what its storage says it holds in reserve for an account, and
    [solvent ext] says that the reserved balances cover it on top of whatever
    the other components hold. *)
From stdpp Require Import base gmap fin_maps list numbers.
From Stdlib Require Import ZArith Lia.
From S2P Require Import Prelude.

Inductive ExistenceRequirement := KeepAlive | AllowDeath.

Class ReservableCurrency (L : Type) := {
  free_balance : L → AccountId → Balance;
  reserved_balance : L → AccountId → Balance;
  reserve : AccountId → Balance → L → option L;
  unreserve : AccountId → Balance → L → L * Balance;
  repatriate_reserved : AccountId → AccountId → Balance → L → option (L * Balance);
  slash_reserved : AccountId → Balance → L → L * Balance;
  transfer : AccountId → AccountId → Balance → ExistenceRequirement → L → option L;
  can_reserve : AccountId → Balance → L → bool;
  deposit_into_existing : AccountId → Balance → L → option L;
}.

(** The change [v] at account [a], nothing elsewhere. *)
Definition at_account (a : AccountId) (v : Z) : AccountId → Z :=
  λ b, if decide (b = a) then v else 0.

Definition moves `{ReservableCurrency L} (l l' : L) (df dr : AccountId → Z) : Prop :=
  ∀ b, free_balance l' b = free_balance l b + df b ∧
       reserved_balance l' b = reserved_balance l b + dr b.

Class ReservableCurrencyLaws (L : Type) `{ReservableCurrency L} : Prop := {
  balances_nonneg l a : 0 ≤ free_balance l a ∧ 0 ≤ reserved_balance l a;
  reserve_spec a v l l' : 0 ≤ v → reserve a v l = Some l' →
    v ≤ free_balance l a ∧ moves l l' (at_account a (- v)) (at_account a v);
  unreserve_spec a v l : 0 ≤ v →
    let m := Z.min v (reserved_balance l a) in
    (unreserve a v l).2 = v - m ∧
    moves l (unreserve a v l).1 (at_account a m) (at_account a (- m));
  repatriate_spec a b v l l' r : 0 ≤ v → repatriate_reserved a b v l = Some (l', r) →
    let m := Z.min v (reserved_balance l a) in
    r = v - m ∧ moves l l' (at_account b m) (at_account a (- m));
  slash_spec a v l : 0 ≤ v →
    let m := Z.min v (reserved_balance l a) in
    (slash_reserved a v l).2 = v - m ∧
    moves l (slash_reserved a v l).1 (λ _, 0) (at_account a (- m));
  transfer_keep_alive_spec a b v l l' : 0 ≤ v → transfer a b v KeepAlive l = Some l' →
    v ≤ free_balance l a ∧
    moves l l' (λ c, at_account a (- v) c + at_account b v c) (λ _, 0);
  transfer_allow_death_spec a b v l l' : 0 ≤ v → transfer a b v AllowDeath l = Some l' →
    v ≤ free_balance l a ∧
    (∀ c, reserved_balance l' c = reserved_balance l c) ∧
    (∀ c, c ≠ a → free_balance l' c = free_balance l c + at_account b v c);
  transfer_allow_death_sender a b v l l' : 0 ≤ v → transfer a b v AllowDeath l = Some l' →
    free_balance l' a = free_balance l a - v + at_account b v a ∨ a ≠ b ∧ free_balance l' a = 0;
  repatriate_alive a b v l : 0 ≤ v → 0 < free_balance l b →
    is_Some (repatriate_reserved a b v l);
  deposit_spec a v l l' : 0 ≤ v → deposit_into_existing a v l = Some l' →
    moves l l' (at_account a v) (λ _, 0);
}.

(** ** Fees, burning and the treasury

    The operations on free balances alone, and the account that absorbs fees
    and slashes ([OnUnbalanced] of pallet-treasury). *)
Class TreasuryCurrency (L : Type) := {
  can_slash : AccountId → Balance → L → bool;
  slash : AccountId → Balance → L → L * Balance;
  make_free_balance_be : AccountId → Balance → L → L;
  treasury : AccountId;
  on_unbalanced : Balance → L → L;
}.

Class TreasuryCurrencyLaws (L : Type) `{ReservableCurrency L} `{TreasuryCurrency L} : Prop := {
  can_slash_spec a v l : can_slash a v l = true → v ≤ free_balance l a;
  slash_free_spec a v l : 0 ≤ v → v ≤ free_balance l a →
    (slash a v l).2 = 0 ∧ moves l (slash a v l).1 (at_account a (- v)) (λ _, 0);
  make_free_spec a v l : 0 ≤ v →
    moves l (make_free_balance_be a v l) (at_account a (v - free_balance l a)) (λ _, 0);
  on_unbalanced_spec v l : 0 ≤ v →
    ∃ d, 0 ≤ d ≤ v ∧ moves l (on_unbalanced v l) (at_account treasury d) (λ _, 0);
}.

(** ** The currency operations as steps of a pallet function

    A pallet runs on its own storage paired with the ledger. *)
Section steps.
Context `{ReservableCurrency L} {St E : Type}.
Abbreviation MC := (M (St * L) E).

Definition st_gets {A} (f : St → A) : MC A := gets (λ w, f w.1).
Definition st_modify (f : St → St) : MC unit := modify (λ w, (f w.1, w.2)).

Definition m_reserve (a : AccountId) (v : Balance) (e : E) : MC unit := λ w,
  match reserve a v w.2 with
  | Some l => (Ok tt, (w.1, l))
  | None => (Err e, w)
  end.
Definition m_unreserve (a : AccountId) (v : Balance) : MC Balance := λ w,
  let '(l, r) := unreserve a v w.2 in (Ok r, (w.1, l)).
Definition m_repatriate (a b : AccountId) (v : Balance) (e : E) : MC Balance := λ w,
  match repatriate_reserved a b v w.2 with
  | Some (l, r) => (Ok r, (w.1, l))
  | None => (Err e, w)
  end.
Definition m_slash_reserved (a : AccountId) (v : Balance) : MC Balance := λ w,
  let '(l, r) := slash_reserved a v w.2 in (Ok r, (w.1, l)).
Definition m_transfer (a b : AccountId) (v : Balance) (k : ExistenceRequirement) (e : E) :
    MC unit := λ w,
  match transfer a b v k w.2 with
  | Some l => (Ok tt, (w.1, l))
  | None => (Err e, w)
  end.

Definition m_deposit_into_existing (a : AccountId) (v : Balance) (e : E) : MC unit := λ w,
  match deposit_into_existing a v w.2 with
  | Some l => (Ok tt, (w.1, l))
  | None => (Err e, w)
  end.

Definition m_ledger (f : L → L) : MC unit := modify (λ w, (w.1, f w.2)).

Lemma m_ledger_Ok f w u w' : m_ledger f w = (Ok u, w') ↔ w' = (w.1, f w.2).
Proof. exact (modify_Ok (λ w, (w.1, f w.2)) w u w'). Qed.
Lemma st_gets_Ok {A} (f : St → A) w a w' :
  st_gets f w = (Ok a, w') ↔ a = f w.1 ∧ w' = w.
Proof. exact (gets_Ok (λ w, f w.1) w a w'). Qed.
Lemma st_modify_Ok f w u w' : st_modify f w = (Ok u, w') ↔ w' = (f w.1, w.2).
Proof. exact (modify_Ok (λ w, (f w.1, w.2)) w u w'). Qed.
Lemma m_unreserve_run a v w :
  m_unreserve a v w = (Ok (unreserve a v w.2).2, (w.1, (unreserve a v w.2).1)).
Proof. unfold m_unreserve. by destruct (unreserve a v w.2). Qed.
Lemma m_slash_reserved_run a v w :
  m_slash_reserved a v w = (Ok (slash_reserved a v w.2).2, (w.1, (slash_reserved a v w.2).1)).
Proof. unfold m_slash_reserved. by destruct (slash_reserved a v w.2). Qed.
Lemma m_reserve_Ok a v e w u w' :
  m_reserve a v e w = (Ok u, w') ↔ ∃ l, reserve a v w.2 = Some l ∧ w' = (w.1, l).
Proof. unfold m_reserve. destruct (reserve a v w.2), u; naive_solver. Qed.
Lemma m_unreserve_Ok a v w r w' :
  m_unreserve a v w = (Ok r, w') ↔
  r = (unreserve a v w.2).2 ∧ w' = (w.1, (unreserve a v w.2).1).
Proof. unfold m_unreserve. destruct (unreserve a v w.2); naive_solver. Qed.
Lemma m_repatriate_Ok a b v e w r w' :
  m_repatriate a b v e w = (Ok r, w') ↔
  ∃ l, repatriate_reserved a b v w.2 = Some (l, r) ∧ w' = (w.1, l).
Proof.
  unfold m_repatriate. destruct (repatriate_reserved a b v w.2) as [[]|]; naive_solver.
Qed.
Lemma m_slash_reserved_Ok a v w r w' :
  m_slash_reserved a v w = (Ok r, w') ↔
  r = (slash_reserved a v w.2).2 ∧ w' = (w.1, (slash_reserved a v w.2).1).
Proof. unfold m_slash_reserved. destruct (slash_reserved a v w.2); naive_solver. Qed.
Lemma m_transfer_Ok a b v k e w u w' :
  m_transfer a b v k e w = (Ok u, w') ↔
  ∃ l, transfer a b v k w.2 = Some l ∧ w' = (w.1, l).
Proof. unfold m_transfer. destruct (transfer a b v k w.2), u; naive_solver. Qed.
Lemma m_deposit_Ok a v e w u w' :
  m_deposit_into_existing a v e w = (Ok u, w') ↔
  ∃ l, deposit_into_existing a v w.2 = Some l ∧ w' = (w.1, l).
Proof. unfold m_deposit_into_existing. destruct (deposit_into_existing a v w.2), u; naive_solver. Qed.
End steps.

Ltac currency_step :=
  match goal with
  | H : st_gets _ _ = (Ok _, _) |- _ => apply st_gets_Ok in H; destruct H as [? ?]; subst
  | H : st_modify _ _ = (Ok _, _) |- _ => apply st_modify_Ok in H; subst
  | H : m_ledger _ _ = (Ok _, _) |- _ => apply m_ledger_Ok in H; subst
  | H : m_reserve _ _ _ _ = (Ok _, _) |- _ =>
      apply m_reserve_Ok in H; destruct H as (? & H & ?); subst
  | H : m_unreserve _ _ _ = (Ok _, _) |- _ => apply m_unreserve_Ok in H; destruct H as [? ?]; subst
  | H : m_repatriate _ _ _ _ _ = (Ok _, _) |- _ =>
      apply m_repatriate_Ok in H; destruct H as (? & H & ?); subst
  | H : m_slash_reserved _ _ _ = (Ok _, _) |- _ =>
      apply m_slash_reserved_Ok in H; destruct H as [? ?]; subst
  | H : m_transfer _ _ _ _ _ _ = (Ok _, _) |- _ =>
      apply m_transfer_Ok in H; destruct H as (? & H & ?); subst
  | H : m_deposit_into_existing _ _ _ _ = (Ok _, _) |- _ =>
      apply m_deposit_Ok in H; destruct H as (? & H & ?); subst
  end.

Ltac run_inv :=
  repeat first [run_step | origin_step | currency_step]; simplify_eq/=; guard_inv;
  repeat match goal with x : unit |- _ => clear x || destruct x end.

(** ** What a component holds in reserve *)

Class Custodian (St : Type) := held : St → AccountId → Z.

Definition solvent `{Custodian St, ReservableCurrency L}
    (ext : AccountId → Z) (w : St * L) : Prop :=
  ∀ a, ext a + held w.1 a ≤ reserved_balance w.2 a.

(** Two components that share the ledger hold what each of them holds. *)
#[export] Instance pair_custodian `{Custodian A, Custodian B} : Custodian (A * B) :=
  λ s a, held s.1 a + held s.2 a.

Section solvency.
Context `{Custodian St} `{ReservableCurrencyLaws L}.
Implicit Types (s : St) (l : L) (ext : AccountId → Z).

(** The only thing solvency asks of a ledger is its reserved balances. *)
Lemma solvent_reserved ext s s' l l' :
  (∀ a, held s' a - held s a ≤ reserved_balance l' a - reserved_balance l a) →
  solvent ext (s, l) → solvent ext (s', l').
Proof. intros Hd Hs a. specialize (Hd a). specialize (Hs a). simpl in *. lia. Qed.

(** Seen from one of two components, what the other holds is held elsewhere. *)
Lemma solvent_fst `{Custodian St'} ext s (s' : St') l :
  solvent ext ((s, s'), l) → solvent (λ a, ext a + held s' a) (s, l).
Proof.
  intros Hs a. specialize (Hs a). change (held ((s, s'), l).1 a) with (held s a + held s' a) in Hs.
  simpl in *. lia.
Qed.

(** Reserving [v] funds a new claim of [v]. *)
Lemma solvent_reserve ext s s' l l' a v :
  0 ≤ v → reserve a v l = Some l' →
  (∀ b, held s' b ≤ held s b + at_account a v b) →
  solvent ext (s, l) → solvent ext (s', l').
Proof.
  intros Hv Hr Hh. destruct (reserve_spec a v l l' Hv Hr) as [_ Hm].
  apply solvent_reserved. intros b. destruct (Hm b) as [_ ->]. specialize (Hh b). lia.
Qed.

(** A release, a repatriation or a slash of a held [v] retires it exactly. *)
Lemma solvent_covers ext s l a v :
  (∀ b, 0 ≤ ext b) → v ≤ held s a → solvent ext (s, l) → v ≤ reserved_balance l a.
Proof. intros Hext Hv Hs. specialize (Hs a). specialize (Hext a). simpl in *. lia. Qed.

Lemma solvent_release ext s s' l l' a v df :
  0 ≤ v → moves l l' df (at_account a (- Z.min v (reserved_balance l a))) →
  (∀ b, held s' b ≤ held s b - at_account a v b) →
  solvent ext (s, l) → solvent ext (s', l').
Proof.
  intros Hv Hm Hh. apply solvent_reserved. intros b. destruct (Hm b) as [_ ->].
  specialize (Hh b). unfold at_account in *. destruct (decide (b = a)); lia.
Qed.
End solvency.

(** ** A concrete ledger

    Every account has a free and a reserved balance; a missing account has
    neither. A reserve needs the free balance, a repatriation an existing
    beneficiary, a [KeepAlive] transfer a balance that is left above zero. *)
Module Ledger.
Abbreviation t := (gmap AccountId (N * N)).
Definition entry (l : t) (a : AccountId) : N * N := default (0, 0)%N (l !! a).
Definition free (l : t) (a : AccountId) : Z := Z.of_N (entry l a).1.
Definition reserved (l : t) (a : AccountId) : Z := Z.of_N (entry l a).2.
Definition put (l : t) (a : AccountId) (f r : Z) : t := <[a := (Z.to_N f, Z.to_N r)]> l.

Definition release (a b : AccountId) (v : Balance) (l : t) : t * Balance :=
  let m := Z.min v (reserved l a) in
  let l1 := put l a (free l a) (reserved l a - m) in
  (put l1 b (free l1 b + m) (reserved l1 b), v - m).

#[global] Instance currency : ReservableCurrency t := {|
  free_balance := free;
  reserved_balance := reserved;
  reserve a v l :=
    if v <=? free l a then Some (put l a (free l a - v) (reserved l a + v)) else None;
  unreserve a v l := release a a v l;
  repatriate_reserved a b v l :=
    match l !! b with Some _ => Some (release a b v l) | None => None end;
  slash_reserved a v l :=
    let m := Z.min v (reserved l a) in
    (put l a (free l a) (reserved l a - m), v - m);
  transfer a b v k l :=
    if (v <=? free l a) && (match k with KeepAlive => v <? free l a | AllowDeath => true end)
    then let l1 := put l a (free l a - v) (reserved l a) in
         Some (put l1 b (free l1 b + v) (reserved l1 b))
    else None;
  can_reserve a v l := v <=? free l a;
  deposit_into_existing a v l :=
    match l !! a with Some _ => Some (put l a (free l a + v) (reserved l a)) | None => None end;
|}.

Lemma free_put l a f r b : 0 ≤ f → free (put l a f r) b = if decide (b = a) then f else free l b.
Proof.
  intros Hf. unfold free, entry, put. rewrite lookup_insert.
  destruct (decide (a = b)), (decide (b = a)); simplify_eq; simpl; lia.
Qed.
Lemma reserved_put l a f r b :
  0 ≤ r → reserved (put l a f r) b = if decide (b = a) then r else reserved l b.
Proof.
  intros Hr. unfold reserved, entry, put. rewrite lookup_insert.
  destruct (decide (a = b)), (decide (b = a)); simplify_eq; simpl; lia.
Qed.
Lemma nonneg l a : 0 ≤ free l a ∧ 0 ≤ reserved l a.
Proof. unfold free, reserved. lia. Qed.

Ltac ledger :=
  repeat match goal with
  | |- context [free (put _ _ _ _) _] => rewrite free_put by lia
  | |- context [reserved (put _ _ _ _) _] => rewrite reserved_put by lia
  | |- context [decide ?P] => destruct (decide P)
  end; subst; try lia.

Lemma release_spec a b v l :
  0 ≤ v →
  let m := Z.min v (reserved l a) in
  (release a b v l).2 = v - m ∧
  ∀ c, free (release a b v l).1 c = free l c + at_account b m c ∧
       reserved (release a b v l).1 c = reserved l c + at_account a (- m) c.
Proof.
  intros Hv m. split; [done|]. intros c.
  pose proof (nonneg l a). pose proof (nonneg l b). pose proof (nonneg l c).
  pose proof (nonneg (put l a (free l a) (reserved l a - m)) b).
  unfold release, at_account; simpl. fold m. assert (m ≤ reserved l a ∧ 0 ≤ m) by lia.
  split; ledger.
Qed.

#[global] Instance laws : ReservableCurrencyLaws t.
Proof.
  split; unfold moves; simpl.
  - intros. apply nonneg.
  - intros a v l l' Hv Hr. pose proof (nonneg l a).
    destruct (Z.leb_spec v (free l a)); simplify_eq. split; [done|].
    intros b. unfold at_account. split; ledger.
  - intros a v l Hv. by apply release_spec.
  - intros a b v l l' r Hv Hr.
    assert (release a b v l = (l', r)) as Heq by (destruct (l !! b); congruence).
    pose proof (release_spec a b v l Hv) as Hs. by rewrite Heq in Hs.
  - intros a v l Hv. split; [done|]. intros b. pose proof (nonneg l a).
    unfold at_account. split; ledger.
  - intros a b v l l' Hv Ht. pose proof (nonneg l a). case_match eqn:E; simplify_eq.
    apply andb_true_iff in E as [E1%Z.leb_le E2]. split; [done|]. intros c.
    pose proof (nonneg (put l a (free l a - v) (reserved l a)) b). pose proof (nonneg l b).
    unfold at_account. split; ledger.
  - intros a b v l l' Hv Ht. pose proof (nonneg l a). case_match eqn:E; simplify_eq.
    apply andb_true_iff in E as [E1%Z.leb_le E2].
    pose proof (nonneg (put l a (free l a - v) (reserved l a)) b). pose proof (nonneg l b).
    unfold at_account. split_and!; [done| |]; intros c; [|intros ?]; ledger.
  - intros a b v l l' Hv Ht. pose proof (nonneg l a). case_match eqn:E; simplify_eq.
    apply andb_true_iff in E as [E1%Z.leb_le E2].
    pose proof (nonneg (put l a (free l a - v) (reserved l a)) b). pose proof (nonneg l b).
    left. unfold at_account. ledger.
  - intros a b v l _ Hf. unfold free, entry in Hf. destruct (l !! b); [done|]. simpl in Hf. lia.
  - intros a v l l' Hv Hd. pose proof (nonneg l a). case_match; simplify_eq.
    intros b. unfold at_account. split; ledger.
Qed.

(** Account 100 is the treasury. *)
#[global] Instance treasury_currency : TreasuryCurrency t := {|
  can_slash a v l := v <=? free l a;
  slash a v l :=
    let m := Z.min v (free l a) in (put l a (free l a - m) (reserved l a), v - m);
  make_free_balance_be a v l := put l a v (reserved l a);
  treasury := 100%N;
  on_unbalanced v l := put l 100%N (free l 100%N + v) (reserved l 100%N);
|}.

#[global] Instance treasury_laws : TreasuryCurrencyLaws t.
Proof.
  split; simpl; unfold moves; simpl.
  - intros a v l. by rewrite Z.leb_le.
  - intros a v l Hv Hle. pose proof (nonneg l a). rewrite Z.min_l by done.
    split; [lia|]. intros b. unfold at_account. split; ledger.
  - intros a v l Hv b. pose proof (nonneg l a). unfold at_account. split; ledger.
  - intros v l Hv. exists v. split; [lia|]. intros b. pose proof (nonneg l 100%N).
    unfold at_account. split; ledger.
Qed.
End Ledger.
