(* ===== verification/Interfaces.v ===== *)
(** * The traits through which pallets call each other

    src/pallets/support/src/traits.rs declares the traits by which one pallet
    drives another without knowing it. A class here has the trait's operations
    on the state [H] of the implementing component (paired with the shared
    ledger); its laws state what the caller relies on: whatever the callee does,
    also when it fails half-way and the caller ignores the error, the reserved
    balances cover the callee's claims as well as they did before. *)
From stdpp Require Import base gmap fin_maps list numbers.
From Stdlib Require Import ZArith Lia.
From S2P Require Import Prelude Currency.

Class AttestationSettler (L H : Type) := {
  settler_error : Type;
  settle : BlockNumber → AccountId → AccountId → Balance → Z → M (H * L) settler_error Z;
}.

Class AttestationSettlerLaws (L H : Type) `{ReservableCurrency L} `{Custodian H}
    `{AttestationSettler L H} : Prop := {
  settle_solvent ext now merchant miner amount aid (w : H * L) :
    0 ≤ amount → solvent ext w → solvent ext (settle now merchant miner amount aid w).2;
}.

(** The price oracle, read in the oracle's state [O]. *)
Class DbcPrice (O : Type) := {
  oracle_inv : O → Prop;
  get_dbc_price : O → option Balance;
  get_dbc_amount_by_value : O → Z → option Balance;
}.

(** [10^15] units of the currency are one DBC. *)
Definition ONE_DBC : Balance := 1000000000000000.

(** What a caller relies on: an amount is the largest whose worth at the
    oracle's price does not exceed the value. *)
Class DbcPriceLaws (O : Type) `{DbcPrice O} : Prop := {
  dbc_price_typed o p : oracle_inv o → get_dbc_price o = Some p → 0 ≤ p ≤ U64_MAX;
  dbc_amount_exact o v p d : oracle_inv o → 0 ≤ v ≤ U64_MAX →
    get_dbc_price o = Some p → get_dbc_amount_by_value o v = Some d →
    0 < p ∧ 0 ≤ d ≤ U128_MAX ∧ p * d ≤ v * ONE_DBC < p * (d + 1);
}.

(** [handler_inv] is the invariant the handler keeps of its own storage. *)
Class TaskCompletionHandler (L H : Type) := {
  handler_error : Type;
  handler_inv : BlockNumber → H → Prop;
  task_completed : BlockNumber → AccountId → Z → H256 → bytes → Z → Z → M (H * L) handler_error Z;
}.

Class TaskCompletionHandlerLaws (L H : Type) `{ReservableCurrency L} `{Custodian H}
    `{TaskCompletionHandler L H} : Prop := {
  task_completed_inv now attester task hash model i o (w : H * L) :
    handler_inv now w.1 → handler_inv now (task_completed now attester task hash model i o w).2.1;
  task_completed_solvent ext now attester task hash model i o (w : H * L) :
    handler_inv now w.1 → solvent ext w → solvent ext (task_completed now attester task hash model i o w).2;
}.

(** ** Running a callee on its part of the caller's state *)
Section callee.
Context {A H L : Type}.

Definition with_callee {E B} (m : M (H * L) E B) : M ((A * H) * L) E B := λ w,
  let r := m (w.1.2, w.2) in (r.1, ((w.1.1, r.2.1), r.2.2)).

Definition own_gets {E B} (f : A → B) : M ((A * H) * L) E B := gets (λ w, f w.1.1).
Definition own_modify {E} (f : A → A) : M ((A * H) * L) E unit :=
  modify (λ w, ((f w.1.1, w.1.2), w.2)).

Lemma own_gets_Ok {E B} (f : A → B) w b w' :
  own_gets (E:=E) f w = (Ok b, w') ↔ b = f w.1.1 ∧ w' = w.
Proof. exact (gets_Ok (λ w, f w.1.1) w b w'). Qed.
Lemma own_modify_Ok {E} f w u w' :
  own_modify (E:=E) f w = (Ok u, w') ↔ w' = ((f w.1.1, w.1.2), w.2).
Proof. exact (modify_Ok (λ w, ((f w.1.1, w.1.2), w.2)) w u w'). Qed.

Context `{Custodian A} `{Custodian H} `{ReservableCurrency L}.

(** A callee that keeps its own solvency keeps the caller's: from the callee's
    point of view the caller's claims are part of what the others hold. *)
Lemma with_callee_solvent {E B} (m : M (H * L) E B) ext (w : (A * H) * L) :
  (∀ ext', solvent ext' (w.1.2, w.2) → solvent ext' (m (w.1.2, w.2)).2) →
  solvent ext w → solvent ext (with_callee m w).2.
Proof.
  intros Hm Hs a. specialize (Hm (λ b, ext b + held w.1.1 b)).
  assert (solvent (λ b, ext b + held w.1.1 b) (w.1.2, w.2)) as Hw.
  { intros b. specialize (Hs b). change (held w.1 b) with (held w.1.1 b + held w.1.2 b) in Hs.
    simpl. lia. }
  specialize (Hm Hw a).
  change (held (with_callee m w).2.1 a) with (held w.1.1 a + held (m (w.1.2, w.2)).2.1 a).
  simpl in *. lia.
Qed.
End callee.

Ltac callee_step :=
  match goal with
  | H : own_gets _ _ = (Ok _, _) |- _ => apply own_gets_Ok in H; destruct H as [? ?]; subst
  | H : own_modify _ _ = (Ok _, _) |- _ => apply own_modify_Ok in H; subst
  end.
Ltac run_inv ::=
  repeat first [run_step | origin_step | currency_step | callee_step]; simplify_eq/=; guard_inv;
  repeat match goal with x : unit |- _ => clear x || destruct x end.
