(* ===== verification/GenericFunc.v ===== *)
(** * pallet-generic-func: random draws, fees, burning, slashing

    Operations the rental pallets share: a random number per nonce, a fixed
    transaction fee paid to the treasury, burning free DBC (on demand or in a
    hook), and taking a slash from reserved balances and sharing it among those
    who earned it. Models src/pallets/generic-func/src (lib.rs, traits.rs). The
    random source with ChaCha is the parameter [rng]. *)
From stdpp Require Import base gmap fin_maps list numbers.
From Stdlib Require Import ZArith Lia.
From S2P Require Import Prelude Currency.

Module GenericFunc.

(** ** Random draws *)

(** [update_nonce]: the new nonce, wrapping around at [u64::MAX]. *)
Definition update_nonce (RandNonce : Z) : Z :=
  if RandNonce =? U64_MAX then 0 else RandNonce + 1.

(** [rng.next_u32() % max]; the remainder by zero panics, hence [None]. *)
Definition pick_u32 (next_u32 : Z) (max : Z) : option Z :=
  if max =? 0 then None else Some (next_u32 mod max).

(** The random source and ChaCha, seeded by the nonce, give [next_u32]. *)
Definition random_u32 (rng : Z → Z) (RandNonce max : Z) : option Z * Z :=
  let nonce := update_nonce RandNonce in
  (pick_u32 (rng nonce) max, nonce).

(** A server room is the random source's 32 bytes for the next nonce. *)
Definition random_server_room (source : Z → H256) (RandNonce : Z) : H256 * Z :=
  let nonce := update_nonce RandNonce in
  (source nonce, nonce).

Lemma random_u32_range rng nonce max x nonce' :
  0 < max → random_u32 rng nonce max = (x, nonce') → ∃ i, x = Some i ∧ 0 ≤ i < max.
Proof.
  intros Hmax [= <- <-]. unfold pick_u32. destruct (Z.eqb_spec max 0); [lia|].
  eexists. split; [done|]. by apply Z.mod_pos_bound.
Qed.

(** ** The pallet *)

Inductive Event :=
| DonateToTreasury (who : AccountId) (v : Balance)
| TxFeeToTreasury (who : AccountId) (v : Balance)
| DestroyDBC (who : AccountId) (v : Balance).

Inductive Error := FreeBalanceNotEnough | UnknownFixedTxFee.

Record State := {
  RandNonce : Z;
  FixedTxFee : option Balance;
  DestroyHook : option (AccountId * BlockNumber);
  TotalDestroy : gmap AccountId Balance;
  events : list Event;
}.
#[export] Instance State_eta : RecordEta State := λ s,
  Build_State (RandNonce s) (FixedTxFee s) (DestroyHook s) (TotalDestroy s) (events s).

Definition genesis : State := {|
  RandNonce := 0; FixedTxFee := None; DestroyHook := None; TotalDestroy := ∅; events := [] |}.

Definition deposit_event (e : Event) (s : State) : State :=
  s <| events ::= λ es, es ++ [e] |>.

Definition total_destroy (s : State) (who : AccountId) : Balance := default 0 (TotalDestroy s !! who).

(** A draw on the pallet's storage. *)
Definition draw_u32 (rng : Z → Z) (max : Z) (s : State) : option Z * State :=
  let '(x, nonce) := random_u32 rng (RandNonce s) max in (x, s <| RandNonce := nonce |>).

Section pallet.
Context `{ReservableCurrency L} `{TreasuryCurrency L} {P : PerThing}.
Abbreviation MG := (M (State * L) (DispatchError Error)).
Abbreviation MU := (M (State * L) unit).

(** [Currency::slash] with its imbalance given to the treasury. *)
Definition slash_to_treasury {St E} (who : AccountId) (v : Balance) : M (St * L) E unit := λ w,
  let '(l, missing) := slash who v w.2 in
  (Ok tt, (w.1, on_unbalanced (v - missing) l)).
Definition slash_reserved_to_treasury {St E} (who : AccountId) (v : Balance) : M (St * L) E unit := λ w,
  let '(l, missing) := slash_reserved who v w.2 in
  (Ok tt, (w.1, on_unbalanced (v - missing) l)).

Definition set_fixed_tx_fee (origin : Origin) (tx_fee : Balance) : MG unit :=
  ensure_root origin;;
  st_modify (λ s, s <| FixedTxFee := Some tx_fee |>).

Definition deposit_into_treasury (origin : Origin) (amount : Balance) : MG unit :=
  who ← ensure_signed origin;
  ok ← gets (λ w, can_slash who amount w.2);
  ensure ok (Module FreeBalanceNotEnough);;
  slash_to_treasury who amount;;
  st_modify (deposit_event (DonateToTreasury who amount)).

Definition set_auto_destroy (origin : Origin) (who : AccountId) (frequency : BlockNumber) : MG unit :=
  ensure_root origin;;
  if frequency =? 0 then st_modify (λ s, s <| DestroyHook := None |>)
  else st_modify (λ s, s <| DestroyHook := Some (who, frequency) |>).

(** Burning: the free balance is set, and the issuance that [make_free_balance_be]
    takes off is all that changes besides; [burn] with its imbalance dropped at
    once leaves the issuance as it is. *)
Definition do_destroy_dbc (who : AccountId) (burn_amount : Balance) : MG unit :=
  free_balance ← gets (λ w, free_balance w.2 who);
  maybe_fee ← st_gets FixedTxFee;
  fixed_tx_fee ← ok_or maybe_fee (Module UnknownFixedTxFee);
  if free_balance <=? fixed_tx_fee then mret tt
  else
    let max_burn_amount := saturating_sub free_balance fixed_tx_fee in
    let burn_amount := if burn_amount <? max_burn_amount then burn_amount else max_burn_amount in
    m_ledger (make_free_balance_be who (saturating_sub free_balance burn_amount));;
    st_modify (λ s, s <| TotalDestroy ::=
      <[who := saturating_add U128_MAX (total_destroy s who) burn_amount]> |>);;
    st_modify (deposit_event (DestroyDBC who burn_amount)).

Definition destroy_free_dbc (origin : Origin) (amount : Balance) : MG unit :=
  who ← ensure_signed origin;
  do_destroy_dbc who amount.

Definition force_destroy_free_dbc (origin : Origin) (who : AccountId) (amount : Balance) : MG unit :=
  ensure_root origin;;
  do_destroy_dbc who amount.

Definition auto_destroy (who : AccountId) : MG unit :=
  free_balance ← gets (λ w, free_balance w.2 who);
  ignore (do_destroy_dbc who free_balance).

Definition on_initialize (block_number : BlockNumber) : MG unit :=
  frequency ← st_gets DestroyHook;
  match frequency with
  | Some (who, every) =>
      if every =? 0 then mret tt
      else if block_number mod every =? 0 then auto_destroy who else mret tt
  | None => mret tt
  end.

Definition pay_fixed_tx_fee (who : AccountId) : MU unit :=
  maybe_fee ← st_gets FixedTxFee;
  fixed_tx_fee ← ok_or maybe_fee tt;
  ok ← gets (λ w, can_slash who fixed_tx_fee w.2);
  ensure ok tt;;
  slash_to_treasury who fixed_tx_fee;;
  st_modify (deposit_event (TxFeeToTreasury who fixed_tx_fee)).

(** ** [GNOps::slash_and_reward], on the ledger beside any storage *)

(** The inner loop: what is left of the slash after the rewards. *)
Fixpoint reward_loop {St} (a_slash_person : AccountId) (reward_each_get left_reward : Balance)
    (reward_who : list AccountId) : M (St * L) unit Balance :=
  match reward_who with
  | [] => mret left_reward
  | a_committee :: reward_who =>
      reserved ← gets (λ w, reserved_balance w.2 a_slash_person);
      left_reward ←
        (if left_reward <=? reserved then
           if reward_each_get <=? left_reward then
             ignore (m_repatriate a_slash_person a_committee reward_each_get tt);;
             ok_or (checked_sub left_reward reward_each_get) tt
           else
             ignore (m_repatriate a_slash_person a_committee left_reward tt);;
             mret 0
         else mret left_reward);
      reward_loop a_slash_person reward_each_get left_reward reward_who
  end.

Definition reward_each_get (each_slash : Balance) (reward_to_num : nat) : Balance :=
  per_mul (from_rational 1 (Z.of_nat reward_to_num)) each_slash.

Definition slash_person {St} (each_slash : Balance) (reward_who : list AccountId)
    (a_slash_person : AccountId) : M (St * L) unit unit :=
  left_reward ← reward_loop a_slash_person (reward_each_get each_slash (length reward_who))
    each_slash reward_who;
  if 0 <? left_reward then slash_reserved_to_treasury a_slash_person left_reward else mret tt.

Definition slash_and_reward {St} (slash_who : list AccountId) (each_slash : Balance)
    (reward_who : list AccountId) : M (St * L) unit unit :=
  if Nat.eqb (length slash_who) 0 || (each_slash =? 0) then mret tt
  else if Nat.eqb (length reward_who) 0 then
    for_each slash_who (λ a_slash_person,
      reserved ← gets (λ w, reserved_balance w.2 a_slash_person);
      if each_slash <=? reserved then slash_reserved_to_treasury a_slash_person each_slash
      else mret tt)
  else for_each slash_who (slash_person each_slash reward_who).
End pallet.

(** ** How a slash is shared

    [shares each left n] are the payments to [n] recipients out of [left]. *)
Fixpoint shares (each left : Balance) (n : nat) : list Balance :=
  match n with
  | O => []
  | S n => let s := if each <=? left then each else left in s :: shares each (left - s) n
  end.

(** What [b] receives when [rewards] are paid the shares [ss] in turn. *)
Definition paid (rewards : list AccountId) (ss : list Balance) (b : AccountId) : Balance :=
  zsum (zip_with (λ c s, at_account c s b) rewards ss).

Lemma length_shares each left n : length (shares each left n) = n.
Proof. revert left. induction n; intros; simpl; auto. Qed.

Lemma shares_bounds each left n :
  0 ≤ each → 0 ≤ left →
  Forall (λ s, 0 ≤ s ≤ each) (shares each left n) ∧ 0 ≤ zsum (shares each left n) ≤ left.
Proof.
  intros He. revert left. induction n as [|n IH]; intros left Hl; simpl; [split; [done|lia]|].
  assert (0 ≤ (if each <=? left then each else left) ≤ each ∧
          (if each <=? left then each else left) ≤ left) as Hs.
  { destruct (Z.leb_spec each left); lia. }
  destruct (IH (left - (if each <=? left then each else left))) as [Hf Hz]; [lia|].
  split; [constructor; [lia|done]|]. unfold zsum in *. simpl. lia.
Qed.

Lemma paid_nonneg rewards ss b : Forall (λ s, 0 ≤ s) ss → 0 ≤ paid rewards ss b.
Proof.
  intros Hs. revert rewards. unfold paid, zsum, at_account.
  induction Hs as [|s ss Hs _ IH]; intros [|c rewards]; simpl; try lia.
  specialize (IH rewards). case_decide; lia.
Qed.

Section correctness.
Context `{!ReservableCurrency L, !TreasuryCurrency L} `{!ReservableCurrencyLaws L, !TreasuryCurrencyLaws L}.
Context {P : PerThing} {LP : PerThingLaws P} {St : Type}.
Implicit Types (l : L) (w : St * L).

(** Rewards can be paid to accounts that exist. *)
Definition alive (l : L) (cs : list AccountId) : Prop := ∀ c, c ∈ cs → 0 < free_balance l c.

Lemma alive_grow l l' cs : (∀ c, free_balance l c ≤ free_balance l' c) → alive l cs → alive l' cs.
Proof. intros Hg Ha c Hc. specialize (Hg c). specialize (Ha c Hc). lia. Qed.

Lemma repatriate_exact l a b v :
  0 ≤ v ≤ reserved_balance l a → 0 < free_balance l b →
  ∃ l', repatriate_reserved a b v l = Some (l', 0) ∧ moves l l' (at_account b v) (at_account a (- v)).
Proof.
  intros Hv Hb. destruct (repatriate_alive a b v l) as [[l' r] Hr]; [lia|done|].
  destruct (repatriate_spec a b v l l' r) as [-> Hm]; [lia|done|].
  exists l'. rewrite Z.min_l in * by lia. rewrite Z.sub_diag in *. done.
Qed.

Lemma slash_reserved_to_treasury_run E a v w :
  0 ≤ v → let m := Z.min v (reserved_balance w.2 a) in
  ∃ l' d, slash_reserved_to_treasury (E:=E) a v w = (Ok tt, (w.1, l')) ∧ 0 ≤ d ≤ m ∧
    moves w.2 l' (at_account treasury d) (at_account a (- m)).
Proof.
  intros Hv m. unfold slash_reserved_to_treasury.
  destruct (slash_spec a v w.2 Hv) as [Hr Hm]. fold m in Hr, Hm.
  destruct (slash_reserved a v w.2) as [l1 missing]; simpl in Hr, Hm. subst missing.
  replace (v - (v - m)) with m by lia. pose proof (balances_nonneg w.2 a).
  destruct (on_unbalanced_spec m l1) as (d & Hd & Hd'); [lia|].
  exists (on_unbalanced m l1), d. split_and!; [done|lia|lia|].
  intros b. specialize (Hm b). specialize (Hd' b). simpl in *. lia.
Qed.

(** A covered slash pays every recipient the next share. *)
Lemma reward_loop_run p each left rewards w :
  0 ≤ each → 0 ≤ left ≤ reserved_balance w.2 p → alive w.2 rewards →
  let ss := shares each left (length rewards) in
  ∃ l', reward_loop p each left rewards w = (Ok (left - zsum ss), (w.1, l')) ∧
    moves w.2 l' (paid rewards ss) (at_account p (- zsum ss)).
Proof.
  intros He. revert left w. induction rewards as [|c rewards IH]; intros left w Hl Ha; cbn zeta.
  - exists w.2. simpl. rewrite Z.sub_0_r. split; [by destruct w|]. intros b.
    unfold paid, at_account. simpl. case_decide; lia.
  - cbn [reward_loop length shares]. rewrite bind_gets.
    rewrite (proj2 (Z.leb_le left _)) by lia.
    set (s := if each <=? left then each else left).
    assert (0 ≤ s ≤ left) as Hs by (unfold s; destruct (Z.leb_spec each left); lia).
    destruct (repatriate_exact w.2 p c s) as (l1 & Hr & Hm); [lia|by apply Ha; constructor|].
    assert ((if each <=? left then ignore (m_repatriate p c each tt);; ok_or (checked_sub left each) tt
             else ignore (m_repatriate p c left tt);; mret 0) w =
            (Ok (left - s), (w.1, l1)) :> result unit Z * (St * L)) as Hstep.
    { unfold s in *. destruct (Z.leb_spec each left); rewrite (bind_run _ _ _ tt (w.1, l1)).
      - unfold ok_or, checked_sub. rewrite (proj2 (Z.leb_le each left)) by done. done.
      - unfold ignore, m_repatriate. by rewrite Hr.
      - by rewrite Z.sub_diag.
      - unfold ignore, m_repatriate. by rewrite Hr. }
    rewrite (bind_run _ _ _ _ _ Hstep).
    destruct (IH (left - s) (w.1, l1)) as (l2 & Hrun & Hm2).
    + simpl. destruct (Hm p) as [_ ->]. unfold at_account. rewrite decide_True by done. lia.
    + simpl. eapply alive_grow; [|intros c' Hc'; apply Ha; by constructor].
      intros c'. destruct (Hm c') as [-> _]. unfold at_account. case_decide; lia.
    + exists l2. simpl in Hrun. rewrite Hrun. 
      rewrite zsum_cons. split.
      { do 2 f_equal. lia. }
      intros b. specialize (Hm b). specialize (Hm2 b). unfold paid in *. cbn [zip_with].
      unfold zsum in *. cbn [foldr]. unfold at_account in *. repeat case_decide; simpl in *; lia.
Qed.

(** A slash the reserve does not cover rewards nobody. *)
Lemma reward_loop_short p each left rewards w :
  reserved_balance w.2 p < left → reward_loop p each left rewards w = (Ok left, w).
Proof.
  intros Hl. induction rewards as [|c rewards IH]; [done|]. cbn [reward_loop].
  rewrite bind_gets. rewrite (proj2 (Z.leb_gt left _)) by lia.
  exact IH.
Qed.

Lemma reward_each_get_nonneg v n : 0 ≤ v → 0 ≤ reward_each_get v n.
Proof. intros Hv. by apply per_mul_bounds; [apply from_rational_part|]. Qed.
Lemma reward_each_get_bounds v n : 0 ≤ v → (0 < n)%nat → Z.of_nat n ≤ U32_MAX →
  let each := reward_each_get v n in
  0 ≤ each ∧ 2 * Z.of_nat n * each ≤ 2 * v + Z.of_nat n ∧
  2 * accuracy * (v - Z.of_nat n * each) ≤ 2 * Z.of_nat n * v + Z.of_nat n * accuracy.
Proof.
  intros Hv Hn Hmax each. unfold each, reward_each_get. clear each.
  pose proof (from_rational_part 1 (Z.of_nat n) ltac:(lia)) as Hp.
  pose proof (from_rational_floor 1 (Z.of_nat n) ltac:(lia) ltac:(lia)) as Hf.
  set (p := from_rational 1 (Z.of_nat n)) in *.
  pose proof (per_mul_bounds p v Hp Hv) as Hb. pose proof (per_mul_nearest p v Hp Hv) as Hnr.
  set (e := per_mul p v) in *. pose proof accuracy_pos as Ha. split; [lia|].
  assert (Z.of_nat n * (p * v) ≤ accuracy * v) by nia.
  assert (accuracy * v ≤ Z.of_nat n * (p * v) + Z.of_nat n * v) by nia.
  split; [|nia].
  assert (accuracy * (2 * Z.of_nat n * e) ≤ accuracy * (2 * v + Z.of_nat n)) by nia. nia.
Qed.

(** One person's slash, when the reserve covers it. *)
Lemma slash_person_run v rewards p w :
  0 < v ≤ reserved_balance w.2 p → (0 < length rewards)%nat → alive w.2 rewards →
  let ss := shares (reward_each_get v (length rewards)) v (length rewards) in
  ∃ l' d, slash_person v rewards p w = (Ok tt, (w.1, l')) ∧ 0 ≤ d ≤ v - zsum ss ∧
    moves w.2 l' (λ b, paid rewards ss b + at_account treasury d b) (at_account p (- v)).
Proof.
  intros Hv Hn Ha. pose proof (reward_each_get_nonneg v (length rewards) ltac:(lia)) as He.
  set (each := reward_each_get v (length rewards)) in *. cbn zeta.
  destruct (reward_loop_run p each v rewards w) as (l1 & Hrun & Hm); [done|lia|done|].
  destruct (shares_bounds each v (length rewards)) as [_ Hz]; [done|lia|].
  set (ss := shares each v (length rewards)) in *. unfold slash_person. fold each.
  rewrite (bind_run _ _ _ _ _ Hrun). destruct (Z.ltb_spec 0 (v - zsum ss)) as [Hl|Hl].
  - destruct (slash_reserved_to_treasury_run unit p (v - zsum ss) (w.1, l1)) as (l2 & d & Hs & Hd & Hm2);
      [lia|]. exists l2, d.
    assert (Z.min (v - zsum ss) (reserved_balance l1 p) = v - zsum ss) as Hmin.
    { destruct (Hm p) as [_ ->]. unfold at_account. rewrite decide_True by done. lia. }
    simpl in Hs, Hd, Hm2. rewrite Hmin in *. split_and!; [done|lia|lia|].
    intros b. specialize (Hm b). specialize (Hm2 b). unfold at_account in *.
    repeat case_decide; lia.
  - exists l1, 0. split_and!; [done|lia|lia|]. intros b. specialize (Hm b). unfold at_account in *.
    repeat case_decide; lia.
Qed.

Lemma slash_persons_run v rewards slash_who w :
  0 < v → NoDup slash_who → (∀ p, p ∈ slash_who → v ≤ reserved_balance w.2 p) →
  (0 < length rewards)%nat → alive w.2 rewards →
  let ss := shares (reward_each_get v (length rewards)) v (length rewards) in
  let n := Z.of_nat (length slash_who) in
  ∃ l' d, for_each slash_who (slash_person v rewards) w = (Ok tt, (w.1, l')) ∧
    0 ≤ d ≤ n * (v - zsum ss) ∧
    moves w.2 l' (λ b, n * paid rewards ss b + at_account treasury d b)
      (λ b, if decide (b ∈ slash_who) then - v else 0).
Proof.
  intros Hv Hnd Hres Hn Ha. cbn zeta.
  pose proof (reward_each_get_nonneg v (length rewards) ltac:(lia)) as He.
  destruct (shares_bounds (reward_each_get v (length rewards)) v (length rewards)) as [Hf Hz]; [lia..|].
  set (ss := shares (reward_each_get v (length rewards)) v (length rewards)) in *.
  revert w Hres Ha. induction Hnd as [|p ps Hp Hnd IH]; intros w Hres Ha.
  - exists w.2, 0. split_and!; [by destruct w|simpl; lia|simpl; lia|].
    intros b. unfold at_account.
    destruct (decide (b ∈ [])) as [Hb|]; [by apply not_elem_of_nil in Hb|]. case_decide; simpl; lia.
  - destruct (slash_person_run v rewards p w) as (l1 & d1 & Hrun & Hd1 & Hm1);
      [split; [done|apply Hres; constructor]|done|done|]. fold ss in Hd1, Hm1.
    assert (∀ b, 0 ≤ paid rewards ss b) as Hpaid.
    { intros b. apply paid_nonneg. eapply Forall_impl; [|exact Hf]. simpl. lia. }
    destruct (IH (w.1, l1)) as (l2 & d2 & Hrun2 & Hd2 & Hm2).
    { intros q Hq. simpl. destruct (Hm1 q) as [_ ->]. unfold at_account.
      rewrite decide_False by (intros ->; done). specialize (Hres q ltac:(by constructor)). lia. }
    { eapply alive_grow; [|exact Ha]. intros c. simpl. destruct (Hm1 c) as [-> _].
      specialize (Hpaid c). unfold at_account. case_decide; lia. }
    exists l2, (d1 + d2). cbn [for_each]. rewrite (bind_run _ _ _ _ _ Hrun). split_and!; [done|lia| |].
    { cbn [length]. lia. }
    intros b. destruct (Hm1 b) as [Hf1 Hr1], (Hm2 b) as [Hf2 Hr2]. simpl in Hf1, Hr1, Hf2, Hr2.
    rewrite Hf2, Hr2, Hf1, Hr1. cbn [length]. unfold at_account. split.
    + rewrite Nat2Z.inj_succ, Z.mul_succ_l. repeat case_decide; lia.
    + rewrite (decide_ext (b ∈ p :: ps) (b = p ∨ b ∈ ps)) by apply elem_of_cons.
      repeat case_decide; naive_solver lia.
Qed.
(** A slash the reserves cover is shared exactly: each of the slashed
    loses the slash from the reserve and nobody else's reserve changes; each
    recipient gets an equal share out of every slash (the last ones possibly
    less, never more than the slash in all), the share being the nearest
    multiple of the rounded-down part [1/n], so within the stated distance of
    an [n]-th; what rounding leaves goes to the treasury. The call cannot fail
    and does not touch the caller's storage. *)
Theorem gf_slash_shared_exactly (slash_who : list AccountId) (each_slash : Balance)
    (reward_who : list AccountId) w :
  0 < each_slash → NoDup slash_who → slash_who ≠ [] → reward_who ≠ [] → alive w.2 reward_who →
  Z.of_nat (length reward_who) ≤ U32_MAX →
  (∀ p, p ∈ slash_who → each_slash ≤ reserved_balance w.2 p) →
  let n := Z.of_nat (length reward_who) in
  let k := Z.of_nat (length slash_who) in
  let each := reward_each_get each_slash (length reward_who) in
  let ss := shares each each_slash (length reward_who) in
  ∃ l' d, slash_and_reward slash_who each_slash reward_who w = (Ok tt, (w.1, l')) ∧
    (∀ b, reserved_balance l' b =
            reserved_balance w.2 b - (if decide (b ∈ slash_who) then each_slash else 0) ∧
          free_balance l' b =
            free_balance w.2 b + k * paid reward_who ss b + at_account treasury d b) ∧
    0 ≤ d ≤ k * (each_slash - zsum ss) ∧
    Forall (λ s, 0 ≤ s ≤ each) ss ∧ 0 ≤ zsum ss ≤ each_slash ∧
    2 * n * each ≤ 2 * each_slash + n ∧
    2 * accuracy * (each_slash - n * each) ≤ 2 * n * each_slash + n * accuracy.
Proof.
  intros Hv Hnd Hs Hr Ha Hmax Hres n k each ss.
  assert (0 < length reward_who)%nat as Hn by (destruct reward_who; [done|simpl; lia]).
  destruct (reward_each_get_bounds each_slash (length reward_who)) as (He & Hlo & Hhi); [lia|done|done|].
  destruct (shares_bounds each each_slash (length reward_who)) as [Hf Hz]; [done|lia|].
  destruct (slash_persons_run each_slash reward_who slash_who w) as (l' & d & Hrun & Hd & Hm); [done..|].
  exists l', d. split; [|split; [|exact (conj Hd (conj Hf (conj Hz (conj Hlo Hhi))))]].
  - unfold slash_and_reward. destruct slash_who, reward_who; try done.
    simpl. rewrite (proj2 (Z.eqb_neq each_slash 0)) by lia. done.
  - intros b. destruct (Hm b) as [-> ->]. split; [case_decide; lia|]. unfold k, ss, each. lia.
Qed.

(** A slash the reserve does not cover: without recipients nothing is taken;
    with recipients the whole reserve goes to the treasury and they get nothing. *)
Lemma slash_short (p : AccountId) (each_slash : Balance) (reward_who : list AccountId) w :
  reserved_balance w.2 p < each_slash →
  ∃ l' d, slash_and_reward [p] each_slash reward_who w = (Ok tt, (w.1, l')) ∧
    0 ≤ d ≤ reserved_balance w.2 p ∧
    if Nat.eqb (length reward_who) 0 then l' = w.2
    else moves w.2 l' (at_account treasury d) (at_account p (- reserved_balance w.2 p)).
Proof.
  intros Hlt. pose proof (balances_nonneg w.2 p) as [_ Hnn]. unfold slash_and_reward.
  change (Nat.eqb (length [p]) 0) with false.
  rewrite (proj2 (Z.eqb_neq each_slash 0)) by lia. cbn [orb].
  destruct (Nat.eqb (length reward_who) 0) eqn:Hn.
  - exists w.2, 0. cbn [for_each]. rewrite (bind_run _ _ w tt w); [by destruct w|].
    rewrite bind_gets. rewrite (proj2 (Z.leb_gt each_slash _)) by lia. done.
  - destruct (slash_reserved_to_treasury_run unit p each_slash w) as (l' & d & Hrun & Hd & Hm); [lia|].
    rewrite Z.min_r in Hd, Hm by lia. exists l', d. split_and!; [|lia|lia|done].
    cbn [for_each]. rewrite (bind_run _ _ w tt (w.1, l')); [done|]. unfold slash_person.
    rewrite (bind_run _ _ w each_slash w) by (by apply reward_loop_short).
    rewrite (proj2 (Z.ltb_lt 0 each_slash)) by lia. done.
Qed.
End correctness.

Section burning.
Context `{!ReservableCurrency L, !TreasuryCurrency L} `{!ReservableCurrencyLaws L, !TreasuryCurrencyLaws L}.
Implicit Types (l : L) (s : State).

(** Burning takes the amount asked for, but never below the fixed fee: the
    free balance falls by exactly the smaller of the amount and what is above
    the fee, the account's burnt total grows by it, and no other balance
    changes; without a fee set it fails and changes nothing. The hook, at the
    multiples of its frequency, burns everything above the fee. *)
Theorem gf_destroy_exact (who : AccountId) (amount : Balance) s l fee :
  0 ≤ amount → 0 ≤ fee → FixedTxFee s = Some fee →
  let burnt := Z.min amount (Z.max 0 (free_balance l who - fee)) in
  (∃ s' l', do_destroy_dbc who amount (s, l) = (Ok tt, (s', l')) ∧
     moves l l' (at_account who (- burnt)) (λ _, 0) ∧
     total_destroy s' who = (if free_balance l who <=? fee then total_destroy s who
       else saturating_add U128_MAX (total_destroy s who) burnt) ∧
     (∀ b, b ≠ who → total_destroy s' b = total_destroy s b)) ∧
  (do_destroy_dbc who amount (s <| FixedTxFee := None |>, l) =
     (Err (Module UnknownFixedTxFee), (s <| FixedTxFee := None |>, l))) ∧
  (∀ every now, DestroyHook s = Some (who, every) → 0 < every →
     ∃ s' l', on_initialize now (s, l) = (Ok tt, (s', l')) ∧
       free_balance l' who = if now mod every =? 0 then Z.min fee (free_balance l who)
                             else free_balance l who).
Proof.
  intros Ha Hf0 Hfee burnt. pose proof (balances_nonneg l who) as [Hfree _].
  assert (∀ v, 0 ≤ v → ∃ s' l', do_destroy_dbc who v (s, l) = (Ok tt, (s', l')) ∧
     let burnt := Z.min v (Z.max 0 (free_balance l who - fee)) in
     moves l l' (at_account who (- burnt)) (λ _, 0) ∧
     total_destroy s' who = (if free_balance l who <=? fee then total_destroy s who
       else saturating_add U128_MAX (total_destroy s who) burnt) ∧
     (∀ b, b ≠ who → total_destroy s' b = total_destroy s b)) as Hdo.
  { clear burnt. intros v Hv. unfold do_destroy_dbc. rewrite bind_gets. unfold st_gets. rewrite bind_gets. simpl.
    rewrite Hfee, bind_ok_or.
    destruct (Z.leb_spec (free_balance l who) fee) as [Hle|Hgt].
    - exists s, l. split_and!; [done| |done|done]. intros b. unfold at_account. case_decide; lia.
    - set (b := if v <? _ then _ else _).
      assert (b = Z.min v (Z.max 0 (free_balance l who - fee))) as Hb.
      { unfold b, saturating_sub. destruct (Z.ltb_spec v (Z.max 0 (free_balance l who - fee))); lia. }
      rewrite <-Hb. clearbody b. eexists _, _. split; [reflexivity|]. split_and!.
      + simpl. assert (0 ≤ free_balance l who - b) as Hle by lia.
        rewrite saturating_sub_exact by lia. intros c.
        destruct (make_free_spec who (free_balance l who - b) l Hle c) as [-> ->].
        unfold at_account. case_decide; lia.
      + unfold total_destroy. simpl. by rewrite lookup_insert_eq.
      + intros c Hc. unfold total_destroy. simpl. by rewrite lookup_insert_ne. }
  split_and!; [by apply Hdo|done|].
  intros every now Hhook Hev. unfold on_initialize, st_gets. rewrite bind_gets. simpl. rewrite Hhook.
  rewrite (proj2 (Z.eqb_neq every 0)) by lia. destruct (now mod every =? 0); [|by exists s, l].
  destruct (Hdo (free_balance l who) Hfree) as (s' & l' & Hrun & Hm & _). exists s', l'.
  split; [unfold auto_destroy; rewrite bind_gets; unfold ignore; simpl; by rewrite Hrun|].
  destruct (Hm who) as [-> _]. unfold at_account. rewrite decide_True by done. lia.
Qed.

(** The fee of an order is taken from the free balance alone. *)
Lemma fixed_tx_fee_reserved who w fee :
  FixedTxFee w.1 = Some fee → 0 ≤ fee →
  ∀ b, reserved_balance (pay_fixed_tx_fee who w).2.2 b = reserved_balance w.2 b.
Proof.
  intros Hf Hn b. unfold pay_fixed_tx_fee, st_gets. rewrite bind_gets, Hf, bind_ok_or, bind_gets.
  destruct (can_slash who fee w.2) eqn:Hc; [|done]. apply can_slash_spec in Hc.
  destruct (slash_free_spec who fee w.2 Hn Hc) as [Hrest Hm].
  unfold mbind, M_bind, ensure, slash_to_treasury. destruct (slash who fee w.2) as [l r]. simpl in *. subst r.
  destruct (on_unbalanced_spec (fee - 0) l ltac:(lia)) as (d & _ & Hu).
  destruct (Hu b) as [_ ->], (Hm b) as [_ ->]. lia.
Qed.
End burning.

Module Demo.
#[local] Existing Instances Ledger.currency Ledger.treasury_currency Ledger.laws Ledger.treasury_laws.
#[local] Existing Instances perbill perbill_laws.
Definition ledger : Ledger.t := {[1 := (50, 400); 2 := (10, 100); 3 := (5, 0); 100 := (1, 0)]}%N.
Definition world : State * Ledger.t :=
  (genesis <| FixedTxFee := Some 10 |> <| DestroyHook := Some (1%N, 7) |>, ledger).

Lemma gf_slash_shared_exactly_witness :
  ∃ l' d, slash_and_reward [1; 2]%N 100 [3; 2; 3]%N world = (Ok tt, (world.1, l')) ∧
    reserved_balance l' 1%N = 300 ∧ reserved_balance l' 2%N = 0 ∧ free_balance l' 3%N = 137 ∧
    0 ≤ d ≤ 2.
Proof.
  destruct (gf_slash_shared_exactly [1; 2]%N 100 [3; 2; 3]%N world) as (l' & d & Hrun & Hb & Hd & _).
  - done.
  - repeat constructor; set_solver.
  - done.
  - done.
  - intros c Hc. repeat (apply elem_of_cons in Hc as [->|Hc]; [done|]). by apply not_elem_of_nil in Hc.
  - done.
  - intros c Hc. repeat (apply elem_of_cons in Hc as [->|Hc]; [done|]). by apply not_elem_of_nil in Hc.
  - exists l', d. split; [exact Hrun|].
    split_and!; [exact (proj1 (Hb 1%N))|exact (proj1 (Hb 2%N))|exact (proj2 (Hb 3%N))|exact (proj1 Hd)|exact (proj2 Hd)].
Defined.

Lemma gf_destroy_exact_witness :
  ∃ s' l', do_destroy_dbc 1%N 30 world = (Ok tt, (s', l')) ∧ free_balance l' 1%N = 20 ∧
    total_destroy s' 1%N = 30.
Proof.
  destruct (gf_destroy_exact 1%N 30 world.1 world.2 10 ltac:(done) ltac:(done) eq_refl)
    as ((s' & l' & Hrun & Hm & Ht & _) & _ & _).
  exists s', l'. split_and!; [exact Hrun|exact (proj1 (Hm 1%N))|exact Ht].
Defined.
End Demo.
End GenericFunc.
