(* ===== verification/ItemList.v ===== *)
(** * Sorted vectors as sets: ItemList of dbc-support

    Several pallets keep sets of accounts, machines or orders as vectors sorted
    by binary search (src/pallets/support/src/primitives.rs). [bisect] is the
    loop of Rust's [slice::binary_search]; [fuel] bounds its iterations and
    [binary_search] gives it the two more than the logarithm of the length that
    always suffice ([bisect_terminates]). *)
From stdpp Require Import base list numbers sets gmap.
From Stdlib Require Import ZArith Lia Strings.Byte.
From S2P Require Import Prelude.

(** A total order, as Rust's [Ord]. *)
Class Ord (A : Type) := cmp : A → A → comparison.
Class OrdLaws (A : Type) `{Ord A} : Prop := {
  cmp_Eq (x y : A) : cmp x y = Eq ↔ x = y;
  cmp_antisym (x y : A) : cmp y x = CompOpp (cmp x y);
  cmp_trans (x y z : A) : cmp x y = Lt → cmp y z = Lt → cmp x z = Lt;
}.

#[export] Instance N_ord : Ord N := N.compare.
#[export] Instance N_ord_laws : OrdLaws N.
Proof.
  split; unfold cmp, N_ord; [apply N.compare_eq_iff|apply N.compare_antisym|].
  intros x y z. rewrite !N.compare_lt_iff. lia.
Qed.
#[export] Instance Z_ord : Ord Z := Z.compare.
#[export] Instance Z_ord_laws : OrdLaws Z.
Proof.
  split; unfold cmp, Z_ord; [apply Z.compare_eq_iff|apply Z.compare_antisym|].
  intros x y z. rewrite !Z.compare_lt_iff. lia.
Qed.

(** The order a key induces, and the orders Rust derives: lexicographic on
    tuples (so on the fields of a struct) and on vectors. *)
Definition ord_by {A K} `{Ord K} (key : A → K) : Ord A := λ x y, cmp (key x) (key y).
Lemma ord_by_laws {A K} `{OrdLaws K} (key : A → K) `{!Inj (=) (=) key} : @OrdLaws A (ord_by key).
Proof.
  split; unfold cmp, ord_by.
  - intros x y. rewrite cmp_Eq. split; [apply (inj key)|by intros ->].
  - intros x y. apply cmp_antisym.
  - intros x y z. apply cmp_trans.
Qed.

#[export] Instance bool_ord : Ord bool := ord_by (λ b : bool, if b then 1 else 0).
#[export] Instance bool_ord_laws : OrdLaws bool.
Proof. apply ord_by_laws. by intros [] []. Qed.
#[export] Instance byte_ord : Ord byte := ord_by Byte.to_N.
#[export] Instance byte_ord_laws : OrdLaws byte.
Proof.
  apply ord_by_laws. intros x y Hxy. apply (f_equal Byte.of_N) in Hxy.
  rewrite !Byte.of_to_N in Hxy. congruence.
Qed.

Section lexicographic.
Context `{OrdLaws A}.

Lemma cmp_refl (x : A) : cmp x x = Eq.
Proof. by apply cmp_Eq. Qed.

#[export] Instance prod_ord `{Ord B} : Ord (A * B) := λ p q,
  match cmp p.1 q.1 with Eq => cmp p.2 q.2 | c => c end.
Lemma prod_cmp `{Ord B} (x1 y1 : A) (x2 y2 : B) :
  cmp (x1, x2) (y1, y2) = match cmp x1 y1 with Eq => cmp x2 y2 | c => c end.
Proof. done. Qed.
#[export] Instance prod_ord_laws `{OrdLaws B} : OrdLaws (A * B).
Proof.
  split.
  - intros [x1 x2] [y1 y2]. rewrite prod_cmp. destruct (cmp x1 y1) eqn:E.
    + apply cmp_Eq in E as ->. rewrite cmp_Eq. naive_solver.
    + split; [done|]. intros [= -> ->]. by rewrite cmp_refl in E.
    + split; [done|]. intros [= -> ->]. by rewrite cmp_refl in E.
  - intros [x1 x2] [y1 y2]. rewrite !prod_cmp, (cmp_antisym x1 y1).
    destruct (cmp x1 y1); simpl; [apply cmp_antisym|done..].
  - intros [x1 x2] [y1 y2] [z1 z2]. rewrite !prod_cmp.
    destruct (cmp x1 y1) eqn:E1; [apply cmp_Eq in E1 as ->| |done].
    + destruct (cmp y1 z1); [apply cmp_trans|done..].
    + intros _. destruct (cmp y1 z1) eqn:E2; [apply cmp_Eq in E2 as ->; by rewrite E1| |done].
      by rewrite (cmp_trans x1 y1 z1).
Qed.

Fixpoint list_cmp (l k : list A) : comparison :=
  match l, k with
  | [], [] => Eq
  | [], _ :: _ => Lt
  | _ :: _, [] => Gt
  | x :: l, y :: k => match cmp x y with Eq => list_cmp l k | c => c end
  end.
#[export] Instance list_ord : Ord (list A) := list_cmp.
#[export] Instance list_ord_laws : OrdLaws (list A).
Proof.
  split; unfold cmp, list_ord.
  - intros l. induction l as [|x l IH]; intros [|y k]; simpl; [naive_solver..|].
    destruct (cmp x y) eqn:E.
    + apply cmp_Eq in E as ->. rewrite IH. naive_solver.
    + split; [done|]. intros [= -> ->]. by rewrite cmp_refl in E.
    + split; [done|]. intros [= -> ->]. by rewrite cmp_refl in E.
  - intros l. induction l as [|x l IH]; intros [|y k]; simpl; [done..|].
    rewrite (cmp_antisym x y). destruct (cmp x y); simpl; [apply IH|done..].
  - intros l. induction l as [|x l IH]; intros [|y k] [|z m]; simpl; try done.
    destruct (cmp x y) eqn:E1; [apply cmp_Eq in E1 as ->| |done].
    + destruct (cmp y z); [apply IH|done..].
    + intros _. destruct (cmp y z) eqn:E2; [apply cmp_Eq in E2 as ->; by rewrite E1| |done].
      by rewrite (cmp_trans x y z).
Qed.
End lexicographic.

Module ItemList.
Section item_list.
Context `{Ord A}.
Implicit Types (l : list A) (x y : A).

(** The search in [left, right): where the item is, or where it belongs. *)
Fixpoint bisect (fuel : nat) l x (left right : nat) : option (result nat nat) :=
  match fuel with
  | O => None
  | S fuel =>
      if (left <? right)%nat then
        let mid := (left + (right - left) / 2)%nat in
        y ← l !! mid;
        match cmp y x with
        | Lt => bisect fuel l x (mid + 1) right
        | Gt => bisect fuel l x left mid
        | Eq => Some (Ok mid)
        end
      else Some (Err left)
  end.

Definition binary_search l x : result nat nat :=
  default (Err 0%nat) (bisect (Nat.log2 (length l) + 2) l x 0 (length l)).

(** [Vec::insert] and [Vec::remove]. *)
Definition vec_insert (i : nat) x l : list A := take i l ++ x :: drop i l.

Definition add_item l x : list A :=
  match binary_search l x with
  | Err index => vec_insert index x l
  | Ok _ => l
  end.

Definition rm_item l x : list A :=
  match binary_search l x with
  | Ok index => delete index l
  | Err _ => l
  end.

Definition expand_to_order l (new_items : list A) : list A := foldl add_item l new_items.

(** Strictly increasing. *)
Definition sorted l : Prop :=
  ∀ i j x y, (i < j)%nat → l !! i = Some x → l !! j = Some y → cmp x y = Lt.

Context `{!OrdLaws A}.

(** *** The search terminates, and finds what is there *)

Lemma halves (left right : nat) :
  (left < right)%nat → let mid := (left + (right - left) / 2)%nat in
  (left ≤ mid < right)%nat ∧ (right - (mid + 1) ≤ (right - left) / 2)%nat ∧
  (mid - left ≤ (right - left) / 2)%nat.
Proof.
  intros Hlt mid. unfold mid. clear mid.
  pose proof (Nat.div_mod_eq (right - left) 2). pose proof (Nat.mod_upper_bound (right - left) 2).
  lia.
Qed.

Lemma bisect_terminates k l x left right :
  (right ≤ length l)%nat → (right - left < 2 ^ k)%nat →
  is_Some (bisect (S k) l x left right).
Proof.
  revert left right. induction k as [|k IH]; intros left right Hr Hk; cbn [bisect].
  - simpl in Hk. destruct (Nat.ltb_spec left right); [lia|eauto].
  - destruct (Nat.ltb_spec left right) as [Hlt|]; [|eauto].
    destruct (halves left right Hlt) as (Hmid & H1 & H2). rewrite Nat.pow_succ_r' in Hk.
    assert ((right - left) / 2 < 2 ^ k)%nat by (apply Nat.Div0.div_lt_upper_bound; lia).
    destruct (lookup_lt_is_Some_2 l (left + (right - left) / 2)) as [y Hy]; [lia|].
    rewrite Hy. cbn [mbind option_bind]. destruct (cmp y x); [eauto| |]; apply IH; lia.
Qed.

(** Where [x] is, or the only place that keeps the vector sorted. *)
Definition found l x (r : result nat nat) : Prop :=
  match r with
  | Ok i => l !! i = Some x
  | Err i => (i ≤ length l)%nat ∧
      (∀ j y, (j < i)%nat → l !! j = Some y → cmp y x = Lt) ∧
      (∀ j y, (i ≤ j)%nat → l !! j = Some y → cmp x y = Lt)
  end.

Lemma bisect_found fuel l x left right r :
  sorted l → (left ≤ right ≤ length l)%nat →
  (∀ j y, (j < left)%nat → l !! j = Some y → cmp y x = Lt) →
  (∀ j y, (right ≤ j)%nat → l !! j = Some y → cmp x y = Lt) →
  bisect fuel l x left right = Some r → found l x r.
Proof.
  intros Hs. revert left right. induction fuel as [|fuel IH]; intros left right Hb Hlo Hhi; [done|].
  cbn [bisect]. destruct (Nat.ltb_spec left right) as [Hlt|Hge].
  - destruct (halves left right Hlt) as (Hmid & _). set (mid := (left + (right - left) / 2)%nat) in *.
    destruct (l !! mid) as [y|] eqn:Hy; [|done]. cbn [mbind option_bind].
    destruct (cmp y x) eqn:Hc.
    + apply cmp_Eq in Hc as ->. by intros [= <-].
    + apply IH; [lia| |done]. intros j z Hj Hz.
      destruct (decide (j = mid)) as [->|]; [by simplify_eq|].
      apply (cmp_trans _ y); [|done]. apply (Hs j mid); [lia|done..].
    + apply IH; [lia|done|]. intros j z Hj Hz.
      assert (cmp x y = Lt) as Hxy by (rewrite cmp_antisym, Hc; done).
      destruct (decide (j = mid)) as [->|]; [by simplify_eq|].
      apply (cmp_trans _ y); [done|]. apply (Hs mid j); [lia|done..].
  - intros [= <-]. assert (left = right) as -> by lia. split_and!; [lia|done|done].
Qed.

Lemma binary_search_found l x : sorted l → found l x (binary_search l x).
Proof.
  intros Hs. unfold binary_search. replace (Nat.log2 (length l) + 2)%nat with (S (S (Nat.log2 (length l)))) by lia.
  destruct (bisect_terminates (S (Nat.log2 (length l))) l x 0 (length l)) as [r Hr]; [lia| |].
  - destruct (decide (length l = 0%nat)) as [->|]; [simpl; lia|].
    destruct (Nat.log2_spec (length l)); lia.
  - rewrite Hr. simpl. apply (bisect_found _ _ _ _ _ _ Hs) in Hr; [done|lia|lia|].
    intros j y Hj Hy%lookup_lt_Some. lia.
Qed.

Lemma cmp_irrefl x : cmp x x ≠ Lt.
Proof. rewrite (proj2 (cmp_Eq x x) eq_refl). done. Qed.

Lemma sorted_NoDup l : sorted l → NoDup l.
Proof.
  intros Hs. apply NoDup_alt. intros i j x Hi Hj.
  destruct (Nat.lt_trichotomy i j) as [Hlt|[->|Hlt]]; [|done|].
  - destruct (cmp_irrefl x). by apply (Hs i j).
  - destruct (cmp_irrefl x). by apply (Hs j i).
Qed.

Lemma is_ok_search l x : sorted l → is_ok (binary_search l x) = true ↔ x ∈ l.
Proof.
  intros Hs. pose proof (binary_search_found l x Hs) as Hf.
  destruct (binary_search l x) as [i|i]; simpl in *.
  - split; [|done]. intros _. by eapply list_elem_of_lookup_2.
  - split; [done|]. intros [j Hj]%list_elem_of_lookup. destruct Hf as (_ & Hlo & Hhi).
    destruct (decide (j < i)%nat); destruct (cmp_irrefl x); [by eapply Hlo|eapply Hhi; [|done]; lia].
Qed.

(** *** Insertion and removal keep the order and act as on a set *)

Lemma vec_insert_lookup (i : nat) x l j : (i ≤ length l)%nat →
  vec_insert i x l !! j =
    if decide (j < i)%nat then l !! j else if decide (j = i) then Some x else l !! (j - 1)%nat.
Proof.
  intros Hi. unfold vec_insert. destruct (decide (j < i)%nat).
  - rewrite lookup_app_l, lookup_take_lt by (rewrite ?length_take; lia). done.
  - rewrite lookup_app_r by (rewrite length_take; lia). rewrite length_take, Nat.min_l by lia.
    destruct (decide (j = i)) as [->|]; [by rewrite Nat.sub_diag|].
    replace (j - i)%nat with (S (j - i - 1)) by lia. simpl. rewrite lookup_drop. f_equal. lia.
Qed.

Lemma elem_of_vec_insert i x l y : y ∈ vec_insert i x l ↔ y = x ∨ y ∈ l.
Proof.
  unfold vec_insert. rewrite elem_of_app, elem_of_cons. rewrite <-(take_drop i l) at 3.
  rewrite elem_of_app. naive_solver.
Qed.

Lemma vec_insert_sorted i x l :
  sorted l → found l x (Err i) → sorted (vec_insert i x l).
Proof.
  intros Hs (Hi & Hlo & Hhi) j k y z Hjk. rewrite !vec_insert_lookup by done.
  intros Hy Hz. repeat case_decide; simplify_eq; try lia.
  - by apply (Hs j k).
  - by apply (Hlo j).
  - apply (Hs j (k - 1)%nat); [lia|done..].
  - apply (Hhi (k - 1)%nat); [lia|done].
  - apply (Hs (j - 1)%nat (k - 1)%nat); [lia|done..].
Qed.

Lemma add_item_spec l x :
  sorted l → sorted (add_item l x) ∧ ∀ y, y ∈ add_item l x ↔ y = x ∨ y ∈ l.
Proof.
  intros Hs. unfold add_item. pose proof (binary_search_found l x Hs) as Hf.
  destruct (binary_search l x) as [i|i].
  - split; [done|]. intros y. split; [by right|]. intros [->|?]; [|done].
    by eapply list_elem_of_lookup_2.
  - split; [by apply vec_insert_sorted|]. intros y. apply elem_of_vec_insert.
Qed.

Lemma delete_sorted i l : sorted l → sorted (delete i l).
Proof.
  intros Hs j k y z Hjk. rewrite !list_lookup_delete.
  intros Hy Hz. repeat case_decide; try lia; (eapply Hs; [|exact Hy|exact Hz]; lia).
Qed.

Lemma rm_item_spec l x :
  sorted l → sorted (rm_item l x) ∧ ∀ y, y ∈ rm_item l x ↔ y ∈ l ∧ y ≠ x.
Proof.
  intros Hs. unfold rm_item. pose proof (binary_search_found l x Hs) as Hf.
  pose proof (is_ok_search l x Hs) as Hok. destruct (binary_search l x) as [i|i]; simpl in *.
  - split; [by apply delete_sorted|]. intros y.
    pose proof (delete_Permutation l i x Hf) as Hp. pose proof (sorted_NoDup l Hs) as Hnd.
    rewrite Hp in Hnd. apply NoDup_cons in Hnd as [Hni _].
    rewrite Hp at 2. rewrite elem_of_cons. naive_solver.
  - split; [done|]. intros y. split; [|naive_solver]. intros Hy. split; [done|].
    intros ->. by apply Hok in Hy.
Qed.

Lemma expand_to_order_spec l new :
  sorted l → sorted (expand_to_order l new) ∧
  ∀ y, y ∈ expand_to_order l new ↔ y ∈ l ∨ y ∈ new.
Proof.
  unfold expand_to_order. revert l. induction new as [|x new IH]; intros l Hs; simpl.
  - split; [done|]. intros y. split; [by left|]. intros [?|?%not_elem_of_nil]; done.
  - destruct (add_item_spec l x Hs) as [Hs' Hel]. destruct (IH _ Hs') as [Hs'' Hel'].
    split; [done|]. intros y. rewrite Hel', Hel, elem_of_cons. naive_solver.
Qed.

Lemma sorted_nil : sorted [].
Proof. by intros i j x y _ Hi. Qed.
Lemma sorted_cons x l : sorted (x :: l) ↔ (∀ y, y ∈ l → cmp x y = Lt) ∧ sorted l.
Proof.
  split.
  - intros Hs. split.
    + intros y [j Hj]%list_elem_of_lookup. apply (Hs 0 (S j))%nat; [lia|done..].
    + intros i j y z Hij Hi Hj. apply (Hs (S i) (S j)); [lia|done..].
  - intros [Hx Hs] [|i] [|j] y z Hij Hi Hj; [lia| |lia|].
    + simplify_eq/=. apply Hx. by eapply list_elem_of_lookup_2.
    + apply (Hs i j); [lia|done..].
Qed.
Lemma sorted_sublist l k : l `sublist_of` k → sorted k → sorted l.
Proof.
  induction 1 as [|x l k Hlk IH|x l k Hlk IH]; [done| |].
  - rewrite !sorted_cons. intros [Hx Hs]. split; [|auto]. intros y Hy. apply Hx.
    by eapply elem_of_sublist.
  - rewrite sorted_cons. naive_solver.
Qed.
End item_list.

(** The vectors refine finite sets: under the abstraction that forgets the
    order, membership, insertion, removal and extension are those of sets. *)
Section refinement.
Context `{Countable A, !Ord A, !OrdLaws A}.

Definition abs (l : list A) : gset A := list_to_set l.

(** C39: a sorted vector behaves as the finite set of its items: the search
    always ends (within two more steps than the logarithm of the length) and
    succeeds exactly on the members, and adding, removing and extending keep
    the vector strictly sorted and are insertion, removal and union of the
    set; two sorted vectors of the same set have the same members once each. *)
Theorem item_list_refines_set (l : list A) (x : A) (new : list A) :
  sorted l →
  is_Some (bisect (Nat.log2 (length l) + 2) l x 0 (length l)) ∧
  (is_ok (binary_search l x) = true ↔ x ∈ abs l) ∧
  (sorted (add_item l x) ∧ abs (add_item l x) = {[x]} ∪ abs l) ∧
  (sorted (rm_item l x) ∧ abs (rm_item l x) = abs l ∖ {[x]}) ∧
  (sorted (expand_to_order l new) ∧ abs (expand_to_order l new) = abs l ∪ abs new) ∧
  size (abs l) = length l.
Proof.
  intros Hs. destruct (add_item_spec l x Hs) as [Ha1 Ha2], (rm_item_spec l x Hs) as [Hr1 Hr2],
    (expand_to_order_spec l new Hs) as [He1 He2]. unfold abs. split_and!; try done.
  - replace (Nat.log2 (length l) + 2)%nat with (S (S (Nat.log2 (length l)))) by lia.
    apply bisect_terminates; [lia|]. destruct (decide (length l = 0%nat)) as [->|]; [simpl; lia|].
    destruct (Nat.log2_spec (length l)); lia.
  - rewrite elem_of_list_to_set. by apply is_ok_search.
  - apply set_eq. intros y. rewrite elem_of_list_to_set, Ha2. set_solver.
  - apply set_eq. intros y. rewrite elem_of_list_to_set, Hr2. set_solver.
  - apply set_eq. intros y. rewrite elem_of_list_to_set, He2. set_solver.
  - apply size_list_to_set, sorted_NoDup, Hs.
Qed.
End refinement.

Module Demo.
Definition items : list N := [1; 4; 9]%N.
Lemma items_sorted : sorted items.
Proof.
  intros i j x y Hij Hi Hj. destruct i as [|[|[|i]]], j as [|[|[|j]]]; simplify_eq/=; done || lia.
Qed.
Lemma item_list_refines_set_witness :
  add_item items 5%N = [1; 4; 5; 9]%N ∧ abs (add_item items 5%N) = {[5%N]} ∪ abs items.
Proof.
  split; [vm_compute; reflexivity|].
  exact (proj2 (proj1 (proj2 (proj2 (item_list_refines_set items 5%N [] items_sorted))))).
Defined.
End Demo.
End ItemList.
