(* ===== verification/Price.v ===== *)
(** * pallet-dbc-price-ocw: the price oracle

    An off-chain worker fetches the DBC price and submits it unsigned; the
    pallet keeps the last 64 prices and their average, from which the other
    pallets convert dollars into DBC. Models src/pallets/dbc-price-ocw/src/lib.rs
    and parse_price.rs; the random draw the worker uses is that of generic-func
    (GenericFunc.v). The HTTP client, the JSON parsers and the random source are
    parameters ([Host]). *)
From Stdlib Require Import ZArith Lia Strings.Byte Strings.String.
From stdpp Require Import base list numbers relations option.
From S2P Require Import Prelude Currency Interfaces GenericFunc.

Module PriceOcw.

Inductive Event := AddNewPrice (price : Z) | AddAvgPrice (price : Z).

Inductive Error :=
| NoLocalAcctForSigning
| FetchPriceFailed
| OffchainUnsignedTxSignedPayloadError
| OffchainUnsignedTxError
| NoneValue
| IndexOutOfRange.

Inductive HttpError := DeadlineReached | IoError | Unknown.

Record State := {
  PriceUpdateFrequency : Z;
  Prices : list Z;
  PriceURL : option (list bytes);
  AvgPrice : option Z;
  events : list Event;
}.
#[export] Instance State_eta : RecordEta State := λ s,
  Build_State (PriceUpdateFrequency s) (Prices s) (PriceURL s) (AvgPrice s) (events s).

Definition MAX_LEN : nat := 64.
Definition UNSIGNED_TXS_PRIORITY : Z := 100.

Definition PriceUpdateFrequencyDefault : Z := 10.

Definition genesis : State := {|
  PriceUpdateFrequency := PriceUpdateFrequencyDefault; Prices := []; PriceURL := None;
  AvgPrice := None; events := [] |}.

Definition deposit_event (e : Event) (s : State) : State :=
  s <| events ::= λ es, es ++ [e] |>.

(** ** Parsing a price *)

(** What the two JSON libraries give: [lite_json]'s number is
    [integer + fraction / 10 ^ fraction_length]. *)
Record NumberValue := {
  integer : Z;
  fraction : Z;
  fraction_length : Z;
}.
#[warnings="-register-all"]
Inductive JsonValue :=
| JsonObject (fields : list (bytes * JsonValue))
| JsonNumber (n : NumberValue)
| JsonOther.

Record Host := {
  SerdeValue : Type;
  serde_from_str : bytes → option SerdeValue;
  serde_index : SerdeValue → bytes → SerdeValue;
  serde_is_null : SerdeValue → bool;
  serde_to_string : SerdeValue → option bytes;
  lite_parse_json : bytes → option JsonValue;
  valid_utf8 : bytes → bool;
  http_get : bytes → result HttpError (Z * bytes);
  submit_unsigned_transaction : Z → bool;
  next_u32 : Z → Z;
}.

Section worker.
Context (T : Host).

(** [i as u64] for a signed [i]. *)
Definition as_u64 (i : Z) : Z := i mod 2 ^ 64.

(** The fixed-point value, in millionths of a dollar, of a parsed number. *)
Definition price_of_number (n : NumberValue) : option Z :=
  if 15 <=? fraction_length n then None
  else Some (saturating_add U64_MAX
    (saturating_mul U64_MAX (as_u64 (integer n)) (10 ^ 6))
    (saturating_mul U64_MAX (fraction n) (10 ^ 6) / 10 ^ fraction_length n)).

Definition str (s : String.string) : bytes := String.list_byte_of_string s.

Definition parse_price (price_str : bytes) : option Z :=
  serde_result ← serde_from_str T price_str;
  let price := serde_index T (serde_index T serde_result (str "content"%string)) (str "dbc_price"%string) in
  if serde_is_null T price then None
  else
    text ← serde_to_string T price;
    if existsb (λ i, bool_decide (i = "e"%byte)) text then None
    else
      let price_json := [x7b; x22; x61; x22; x3a] ++ text ++ [x7d] in
      if negb (valid_utf8 T price_json) then None
      else
        price_json ← lite_parse_json T price_json;
        match price_json with
        | JsonObject ((_, JsonNumber n) :: _) => price_of_number n
        | _ => None
        end.

(** ** Fetching a price

    The outer [None] is a panic: an index out of range, or a remainder by
    zero. The worker's writes to the nonce are discarded with its storage. *)
Definition gen_rand_url (nonce : Z) (s : State) : option (option Z) :=
  match PriceURL s with
  | None => Some None
  | Some price_url =>
      i ← (GenericFunc.random_u32 (next_u32 T) nonce (Z.of_nat (length price_url))).1;
      Some (Some i)
  end.

Definition fetch_price (nonce : Z) (s : State) : option (result HttpError Z) :=
  match PriceURL s with
  | None => Some (Err Unknown)
  | Some price_url =>
      rand_price_url_index ← gen_rand_url nonce s;
      match rand_price_url_index with
      | None => Some (Err Unknown)
      | Some i =>
          url ← price_url !! Z.to_nat i;
          Some (if negb (valid_utf8 T url) then Err Unknown
                else match http_get T url with
                     | Err e => Err e
                     | Ok (code, body) =>
                         if negb (code =? 200) then Err Unknown
                         else if negb (valid_utf8 T body) then Err Unknown
                         else match parse_price body with
                              | Some p => Ok p
                              | None => Err Unknown
                              end
                     end)
      end
  end.

(** The price the worker submits, or why it does not. *)
Definition fetch_price_and_send_unsigned_tx (nonce : Z) (s : State) : option (result Error Z) :=
  r ← fetch_price nonce s;
  Some match r with
       | Err _ => Err FetchPriceFailed
       | Ok price => if submit_unsigned_transaction T price then Ok price
                     else Err OffchainUnsignedTxError
       end.

(** The submission of the worker at this block, if any. *)
Definition offchain_worker (block_number : BlockNumber) (nonce : Z) (s : State) :
    option (option Z) :=
  match PriceURL s with
  | None => Some None
  | Some _ =>
      if PriceUpdateFrequency s =? 0 then Some None
      else if block_number mod PriceUpdateFrequency s =? 0 then
        r ← fetch_price_and_send_unsigned_tx nonce s;
        Some match r with Ok price => Some price | Err _ => None end
      else Some None
  end.
End worker.

(** ** Storing prices *)

Definition pop_front {A} (l : list A) : list A := drop 1 l.

Definition add_price (price : Z) (s : State) : State :=
  let prices := Prices s in
  let prices := if (MAX_LEN <=? length prices)%nat then pop_front prices else prices in
  deposit_event (AddNewPrice price) (s <| Prices := prices ++ [price] |>).

Definition average (prices : list Z) : Z :=
  foldl (saturating_add U64_MAX) 0 prices / Z.of_nat (length prices).

Definition add_avg_price (s : State) : State :=
  if negb (Nat.eqb (length (Prices s)) MAX_LEN) then s
  else let avg_price := average (Prices s) in
       deposit_event (AddAvgPrice avg_price) (s <| AvgPrice := Some avg_price |>).

Abbreviation MP := (M State (DispatchError Error)).

Definition submit_price_unsigned (origin : Origin) (price : Z) : MP unit :=
  ensure_none origin;;
  modify (add_price price);;
  modify add_avg_price.

Definition submit_price_by_root (origin : Origin) (price : Z) : MP unit :=
  ensure_root origin;;
  modify (add_price price);;
  modify add_avg_price.

Definition add_price_url (origin : Origin) (new_url : bytes) : MP unit :=
  ensure_root origin;;
  price_url ← gets (λ s, default [] (PriceURL s));
  modify (λ s, s <| PriceURL := Some (price_url ++ [new_url]) |>).

Definition set_price_update_frequency (origin : Origin) (frequency : Z) : MP unit :=
  ensure_root origin;;
  if frequency =? 0 then mret tt
  else modify (λ s, s <| PriceUpdateFrequency := frequency |>).

Definition rm_price_url_by_index (origin : Origin) (index : Z) : MP unit :=
  ensure_root origin;;
  price_url ← gets (λ s, default [] (PriceURL s));
  ensure (index <? Z.of_nat (length price_url)) (Module IndexOutOfRange);;
  let price_url := delete (Z.to_nat index) price_url in
  if Nat.eqb (length price_url) 0 then modify (λ s, s <| PriceURL := None |>)
  else modify (λ s, s <| PriceURL := Some price_url |>).

Inductive Call :=
| SubmitPriceUnsigned (price : Z)
| SubmitPriceByRoot (price : Z)
| AddPriceUrl (new_url : bytes)
| SetPriceUpdateFrequency (frequency : Z)
| RmPriceUrlByIndex (index : Z).

(** A transaction of the pool: its tag, priority and longevity. *)
Record ValidTransaction := { priority : Z; provides : bytes; longevity : Z; propagate : bool }.

Definition validate_unsigned (c : Call) : option ValidTransaction :=
  match c with
  | SubmitPriceUnsigned _ =>
      Some {| priority := UNSIGNED_TXS_PRIORITY; provides := str "submit_price_unsigned"%string;
              longevity := 3; propagate := true |}
  | _ => None
  end.

(** ** Conversions: the [DbcPrice] trait *)

Definition get_dbc_price (s : State) : option Balance :=
  avg ← AvgPrice s; Some (saturated_into U128_MAX avg).

Definition get_dbc_amount_by_value (s : State) (value : Z) : option Balance :=
  avg ← AvgPrice s;
  product ← checked_mul U128_MAX (saturated_into U128_MAX value) ONE_DBC;
  checked_div product (saturated_into U128_MAX avg).

Definition get_dlc_amount_by_value (value : Z) : option Balance :=
  product ← checked_mul U128_MAX (saturated_into U128_MAX value) ONE_DBC;
  checked_div product 3000.

(** ** The pallet as a state machine *)

Definition dispatch (o : Origin) (c : Call) : MP unit :=
  transactional
    match c with
    | SubmitPriceUnsigned p => submit_price_unsigned o p
    | SubmitPriceByRoot p => submit_price_by_root o p
    | AddPriceUrl u => add_price_url o u
    | SetPriceUpdateFrequency f => set_price_update_frequency o f
    | RmPriceUrlByIndex i => rm_price_url_by_index o i
    end.

Definition call_typed (c : Call) : Prop :=
  match c with
  | SubmitPriceUnsigned p | SubmitPriceByRoot p => 0 ≤ p ≤ U64_MAX
  | SetPriceUpdateFrequency f => 0 ≤ f ≤ U32_MAX
  | RmPriceUrlByIndex i => 0 ≤ i ≤ U32_MAX
  | AddPriceUrl _ => True
  end.

(** ** The window of prices, as a function of the whole history *)

Definition window (history : list Z) : list Z := drop (length history - MAX_LEN) history.

Definition window_average (history : list Z) : option Z :=
  if (MAX_LEN <=? length history)%nat
  then Some (Z.min (zsum (window history)) U64_MAX / Z.of_nat MAX_LEN) else None.

(** The price a call adds, when its origin allows it. *)
Definition accepted (oc : Origin * Call) : option Z :=
  match oc with
  | (NoOrigin, SubmitPriceUnsigned p) | (Root, SubmitPriceByRoot p) => Some p
  | _ => None
  end.

Definition run (cs : list (Origin * Call)) : State :=
  foldl (λ s oc, (dispatch oc.1 oc.2 s).2) genesis cs.

Lemma run_snoc cs oc : run (cs ++ [oc]) = (dispatch oc.1 oc.2 (run cs)).2.
Proof. unfold run. by rewrite foldl_app. Qed.

Lemma window_length history :
  length (window history) = Nat.min (length history) MAX_LEN.
Proof. unfold window. rewrite length_drop. lia. Qed.

Lemma window_snoc history p :
  window (history ++ [p]) =
  (if (MAX_LEN <=? length (window history))%nat then pop_front (window history)
   else window history) ++ [p].
Proof.
  rewrite window_length. unfold window, pop_front. rewrite length_app. simpl length.
  rewrite drop_app_le by (unfold MAX_LEN; lia). f_equal.
  destruct (Nat.leb_spec MAX_LEN (Nat.min (length history) MAX_LEN)).
  - rewrite drop_drop. f_equal. lia.
  - f_equal. lia.
Qed.

(** Saturating additions of unsigned numbers saturate the sum. *)
Lemma foldl_saturating_add max a l :
  0 ≤ a ≤ max → Forall (λ x, 0 ≤ x) l →
  foldl (saturating_add max) a l = Z.min (a + zsum l) max.
Proof.
  intros Ha Hl. revert a Ha. induction Hl as [|x l Hx Hl IH]; intros a Ha; simpl; [lia|].
  pose proof (zsum_nonneg l Hl). rewrite IH; unfold saturating_add; lia.
Qed.

(** *** The invariant *)

Record Inv (s : State) : Prop := {
  inv_frequency : 0 < PriceUpdateFrequency s;
  inv_urls : PriceURL s ≠ Some [];
  inv_avg p : AvgPrice s = Some p → 0 ≤ p ≤ U64_MAX;
}.

(** The state tracks the history [h]. *)
Definition tracks (h : list Z) (s : State) : Prop :=
  Prices s = window h ∧ AvgPrice s = window_average h.

Lemma add_tracks h s p :
  Forall (λ x, 0 ≤ x) (h ++ [p]) → tracks h s →
  tracks (h ++ [p]) (add_avg_price (add_price p s)).
Proof.
  intros Hh [Hp Ha]. unfold tracks.
  assert (Hprices : Prices (add_price p s) = window (h ++ [p])).
  { rewrite window_snoc. unfold add_price. simpl. by rewrite Hp. }
  unfold add_avg_price. rewrite Hprices, window_length, length_app. simpl length.
  unfold window_average. rewrite length_app. simpl length.
  destruct (Nat.leb_spec MAX_LEN (length h + 1)) as [Hl|Hl].
  - rewrite Nat.min_r, Nat.eqb_refl by done. cbn [negb]. split; [done|].
    transitivity (Some (average (window (h ++ [p])))); [by rewrite <-Hprices|].
    unfold average. rewrite window_length, length_app. simpl length.
    rewrite Nat.min_r by done. rewrite foldl_saturating_add.
    + done.
    + unfold U64_MAX. lia.
    + by apply Forall_drop.
  - rewrite Nat.min_l by lia. rewrite (proj2 (Nat.eqb_neq _ _)) by lia. cbn [negb]. split; [done|].
    transitivity (AvgPrice s); [done|]. rewrite Ha. unfold window_average.
    by destruct (Nat.leb_spec MAX_LEN (length h)); [lia|].
Qed.

Definition typed_calls (cs : list (Origin * Call)) : Prop := Forall (λ oc, call_typed oc.2) cs.
Definition history (cs : list (Origin * Call)) : list Z := omap accepted cs.

Lemma history_snoc cs oc : history (cs ++ [oc]) = history cs ++ option_list (accepted oc).
Proof. unfold history. rewrite omap_app. simpl. by destruct (accepted oc). Qed.

Lemma history_typed cs : typed_calls cs → Forall (λ x, 0 ≤ x ≤ U64_MAX) (history cs).
Proof.
  intros Hcs. apply list.Forall_forall. intros x ([o c] & Hc & Ha)%list_elem_of_omap.
  pose proof (proj1 (list.Forall_forall _ _) Hcs _ Hc) as Ht. by destruct o, c; simplify_eq/=.
Qed.

(** A call whose origin is refused, or which is not a price, adds none. *)
Lemma dispatch_prices o c s :
  accepted (o, c) = None →
  Prices (dispatch o c s).2 = Prices s ∧ AvgPrice (dispatch o c s).2 = AvgPrice s.
Proof.
  intros Ha. apply (transactional_preserves (λ s', Prices s' = Prices s ∧ AvgPrice s' = AvgPrice s)); [done|].
  intros u s' Hrun. destruct c; simpl in Hrun.
  - unfold submit_price_unsigned in Hrun. run_inv.
  - unfold submit_price_by_root in Hrun. run_inv.
  - unfold add_price_url in Hrun. by run_inv.
  - unfold set_price_update_frequency in Hrun. run_inv. case_match; by run_inv.
  - unfold rm_price_url_by_index in Hrun. run_inv. case_match; by run_inv.
Qed.

Lemma dispatch_accepted o c s p :
  accepted (o, c) = Some p → (dispatch o c s).2 = add_avg_price (add_price p s).
Proof. destruct o, c; intros; simplify_eq/=; reflexivity. Qed.

Lemma run_tracks cs : typed_calls cs → tracks (history cs) (run cs).
Proof.
  induction cs as [|[o c] cs IH] using rev_ind; intros Ht; [done|].
  pose proof (history_typed _ Ht) as Hh. apply Forall_app in Ht as [Ht _].
  rewrite run_snoc. rewrite history_snoc in Hh |- *. cbn [fst snd].
  destruct (accepted (o, c)) as [p|] eqn:Ha; cbn [option_list].
  - rewrite (dispatch_accepted _ _ _ _ Ha). apply add_tracks; [|by apply IH].
    eapply Forall_impl; [|exact Hh]. simpl. lia.
  - rewrite app_nil_r. unfold tracks. destruct (dispatch_prices o c (run cs) Ha) as [-> ->]. by apply IH.
Qed.

Lemma window_average_typed h p :
  Forall (λ x, 0 ≤ x ≤ U64_MAX) h → window_average h = Some p → 0 ≤ p ≤ U64_MAX.
Proof.
  unfold window_average. intros Hh. case_match; [|done]. intros [= <-].
  assert (0 ≤ zsum (window h)) as Hz.
  { apply zsum_nonneg, Forall_drop. eapply Forall_impl; [|exact Hh]. simpl. lia. }
  assert (0 ≤ Z.min (zsum (window h)) U64_MAX ≤ U64_MAX) by (unfold U64_MAX; lia).
  change (Z.of_nat MAX_LEN) with 64. Z.to_euclidean_division_equations. lia.
Qed.

Lemma run_Inv cs : typed_calls cs → Inv (run cs).
Proof.
  intros Ht. split; [| |intros p; rewrite (proj2 (run_tracks cs Ht)); by apply window_average_typed, history_typed].
  all: induction cs as [|[o c] cs IH] using rev_ind; [done|];
    pose proof Ht as Ht'; apply Forall_app in Ht as [Ht Hc%List.Forall_inv];
    specialize (IH Ht); rewrite run_snoc; cbn [fst snd] in *.
  - apply (transactional_preserves (λ s', 0 < PriceUpdateFrequency s')); [done|].
    intros u s' Hrun. destruct c; simpl in Hrun, Hc.
    + unfold submit_price_unsigned in Hrun. run_inv. unfold add_avg_price. by case_match.
    + unfold submit_price_by_root in Hrun. run_inv. unfold add_avg_price. by case_match.
    + unfold add_price_url in Hrun. by run_inv.
    + unfold set_price_update_frequency in Hrun. run_inv. case_match; run_inv; [done|]. simpl. lia.
    + unfold rm_price_url_by_index in Hrun. run_inv. case_match; by run_inv.
  - apply (transactional_preserves (λ s', PriceURL s' ≠ Some [])); [done|].
    intros u s' Hrun. destruct c; simpl in Hrun.
    + unfold submit_price_unsigned in Hrun. run_inv. unfold add_avg_price. by case_match.
    + unfold submit_price_by_root in Hrun. run_inv. unfold add_avg_price. by case_match.
    + unfold add_price_url in Hrun. run_inv. intros [= He]. by destruct (default [] _).
    + unfold set_price_update_frequency in Hrun. run_inv. case_match; by run_inv.
    + unfold rm_price_url_by_index in Hrun. run_inv. case_match eqn:He; run_inv; [done|].
      intros [= Hd]. by rewrite Hd in He.
Qed.

(** The oracle's promise to the pallets that read it. *)
#[export] Instance oracle : DbcPrice State := {|
  Interfaces.oracle_inv := Inv;
  Interfaces.get_dbc_price := get_dbc_price;
  Interfaces.get_dbc_amount_by_value := get_dbc_amount_by_value |}.

Lemma amount_spec s v :
  Inv s → 0 ≤ v ≤ U64_MAX →
  match get_dbc_amount_by_value s v with
  | None => AvgPrice s = None ∨ AvgPrice s = Some 0
  | Some d => ∃ p, get_dbc_price s = Some p ∧ AvgPrice s = Some p ∧ 0 < p ∧
      0 ≤ d ≤ U128_MAX ∧ p * d ≤ v * ONE_DBC < p * (d + 1)
  end.
Proof.
  intros I Hv. unfold get_dbc_amount_by_value, get_dbc_price, saturated_into.
  destruct (AvgPrice s) as [p|] eqn:Ha; simpl; [|auto].
  pose proof (inv_avg _ I p Ha) as Hp. unfold ONE_DBC.
  assert (v * 1000000000000000 ≤ U128_MAX) by (unfold U128_MAX, U64_MAX in *; lia).
  assert (U64_MAX ≤ U128_MAX) by done. rewrite !Z.min_l by lia.
  unfold checked_mul. rewrite (proj2 (Z.leb_le _ _)) by lia. simpl. unfold checked_div.
  destruct (Z.eqb_spec p 0) as [->|Hne]; [auto|].
  exists p. pose proof (Z.div_mod (v * 1000000000000000) p Hne).
  pose proof (Z.mod_pos_bound (v * 1000000000000000) p ltac:(lia)).
  assert (0 ≤ v * 1000000000000000 / p) by (apply Z.div_pos; lia).
  split_and!; try done; try lia; nia.
Qed.

#[export] Instance oracle_laws : DbcPriceLaws State.
Proof.
  split; simpl.
  - intros s p I. unfold get_dbc_price. destruct (AvgPrice s) as [a|] eqn:Ha; simpl; [|done].
    intros [= <-]. pose proof (inv_avg _ I a Ha). unfold saturated_into.
    assert (U64_MAX ≤ U128_MAX) by done. lia.
  - intros s v p d I Hv Hp Hd. pose proof (amount_spec s v I Hv) as Ha. rewrite Hd in Ha.
    destruct Ha as (p' & ? & _ & ? & ? & ?). by simplify_eq.
Qed.

(** A price within the parser's exact range is the number, rounded down. *)
Lemma price_of_number_exact n p :
  price_of_number n = Some p → 0 ≤ integer n → 0 ≤ fraction_length n ≤ 13 →
  0 ≤ fraction n < 10 ^ fraction_length n → (integer n + 1) * 10 ^ 6 ≤ U64_MAX →
  let scale := 10 ^ fraction_length n in
  p * scale ≤ (integer n * scale + fraction n) * 10 ^ 6 < (p + 1) * scale.
Proof.
  intros Hp Hi Hl Hf Hm scale. unfold price_of_number in Hp. case_match; [done|]. simplify_eq.
  assert (scale ≤ 10 ^ 13) as Hs by (apply Z.pow_le_mono_r; lia).
  assert (0 < scale) by (apply Z.pow_pos_nonneg; lia).
  fold scale in Hf |- *. unfold as_u64. rewrite Z.mod_small by (unfold U64_MAX in *; lia).
  assert (fraction n * 10 ^ 6 ≤ U64_MAX) by (unfold U64_MAX in *; lia).
  unfold saturating_mul. rewrite !Z.min_l by lia.
  pose proof (Z.div_mod (fraction n * 10 ^ 6) scale ltac:(lia)).
  pose proof (Z.mod_pos_bound (fraction n * 10 ^ 6) scale ltac:(lia)).
  assert (fraction n * 10 ^ 6 / scale < 10 ^ 6) by (apply Z.div_lt_upper_bound; lia).
  unfold saturating_add. rewrite Z.min_l by lia. lia.
Qed.

(** C40: the stored window and average implement their specification over the
    whole history: after any calls, [Prices] holds the last 64 accepted prices
    in order, and [AvgPrice] is absent before 64 have been accepted and the sum
    of exactly these, capped at the largest u64, divided by 64 afterwards. So
    the average is never above the highest price of the window, and it is
    below the lowest only when the sum saturated, in which case it is at least
    a 64th of the largest u64. *)
Theorem price_refines_history cs :
  typed_calls cs →
  Prices (run cs) = window (history cs) ∧ AvgPrice (run cs) = window_average (history cs) ∧
  ∀ lo hi a, Forall (λ p, lo ≤ p ≤ hi) (window (history cs)) →
    AvgPrice (run cs) = Some a → Z.min lo (U64_MAX / 64) ≤ a ≤ hi.
Proof.
  intros Ht. destruct (run_tracks cs Ht) as [Hp Ha]. split_and!; [done|done|].
  intros lo hi a Hw. rewrite Ha. unfold window_average. case_match eqn:Hl; [|done].
  apply Nat.leb_le in Hl. intros [= <-]. apply zsum_bounds in Hw.
  rewrite window_length, Nat.min_r in Hw by done. change (Z.of_nat MAX_LEN) with 64 in *.
  Z.to_euclidean_division_equations. lia.
Qed.

(** The off-chain worker never panics, whatever the network, the parsers
    and the random source return: the drawn index is in range because no call
    leaves an empty list of addresses; and what it submits is a price parsed
    from a successful answer of one of the listed addresses, at a block that
    is due. *)
Theorem price_worker_total T cs block nonce :
  typed_calls cs →
  ∃ r, offchain_worker T block nonce (run cs) = Some r ∧
    ∀ p, r = Some p → block mod PriceUpdateFrequency (run cs) = 0 ∧
      ∃ urls url body, PriceURL (run cs) = Some urls ∧ url ∈ urls ∧
        http_get T url = Ok (200, body) ∧ parse_price T body = Some p.
Proof.
  intros Ht. pose proof (run_Inv cs Ht) as I. generalize (run cs), I. clear. intros s I.
  unfold offchain_worker, fetch_price_and_send_unsigned_tx, fetch_price, gen_rand_url.
  destruct (PriceURL s) as [urls|] eqn:Hu; [|by exists None].
  pose proof (inv_frequency s I). rewrite (proj2 (Z.eqb_neq _ _)) by lia.
  destruct (Z.eqb_spec (block mod PriceUpdateFrequency s) 0) as [Hb|]; [|by exists None].
  destruct (GenericFunc.random_u32 (next_u32 T) nonce (Z.of_nat (length urls))) as [x nonce'] eqn:Hr.
  apply GenericFunc.random_u32_range in Hr as (i & -> & Hi).
  2: { pose proof (inv_urls s I). destruct urls; [by rewrite Hu in *|simpl; lia]. }
  simpl. destruct (lookup_lt_is_Some_2 urls (Z.to_nat i)) as [url Hurl]; [lia|].
  rewrite Hurl. simpl. eexists. split; [done|]. intros p.
  destruct (valid_utf8 T url); [|done]. simpl.
  destruct (http_get T url) as [[code body]|] eqn:Hg; [|done].
  destruct (Z.eqb_spec code 200) as [->|]; [|done]. simpl.
  destruct (valid_utf8 T body); [|done]. simpl.
  destruct (parse_price T body) as [q|] eqn:Hq; [|done].
  destruct (submit_unsigned_transaction T q); [|done]. intros [= <-]. split; [done|].
  exists urls, url, body. split_and!; try done. by eapply list_elem_of_lookup_2.
Qed.

(** A conversion fails exactly when there is no average price yet or it is
    zero (it never overflows), and otherwise gives the largest amount worth at
    most the value at the average price. *)
Theorem price_amount_exact cs v :
  typed_calls cs → 0 ≤ v ≤ U64_MAX →
  match get_dbc_amount_by_value (run cs) v with
  | None => AvgPrice (run cs) = None ∨ AvgPrice (run cs) = Some 0
  | Some d => ∃ p, get_dbc_price (run cs) = Some p ∧ AvgPrice (run cs) = Some p ∧ 0 < p ∧
      0 ≤ d ≤ U128_MAX ∧ p * d ≤ v * ONE_DBC < p * (d + 1)
  end.
Proof. intros Ht. by apply amount_spec, run_Inv. Qed.

(** A price is parsed exactly, as the number of millionths rounded down,
    from the number the JSON library read, when that has at most 13 decimals;
    a price with 14 decimals whose fraction is 0.1844674407371 or more is
    parsed with the fraction 0.184467 instead, because the intermediate
    product saturates; longer fractions are refused. *)
Theorem price_parse_exact T text p :
  parse_price T text = Some p →
  ∃ n json rest k, lite_parse_json T json = Some (JsonObject ((k, JsonNumber n) :: rest)) ∧
    fraction_length n < 15 ∧
    (0 ≤ integer n → 0 ≤ fraction_length n → 0 ≤ fraction n < 10 ^ fraction_length n →
     (integer n + 1) * 10 ^ 6 ≤ U64_MAX →
     (fraction_length n ≤ 13 → let scale := 10 ^ fraction_length n in
        p * scale ≤ (integer n * scale + fraction n) * 10 ^ 6 < (p + 1) * scale) ∧
     (fraction_length n = 14 → 18446744073710 ≤ fraction n → p = integer n * 10 ^ 6 + 184467)).
Proof.
  unfold parse_price. destruct (serde_from_str T text) as [v|]; simpl; [|done].
  case_match; [done|]. destruct (serde_to_string T _) as [t|]; simpl; [|done].
  destruct (existsb _ t); [done|]. destruct (valid_utf8 T _); simpl; [|done].
  destruct (lite_parse_json T _) as [[[|[k [|n|]] rest]| |]|] eqn:Hj; simpl; try done.
  intros Hp. exists n. eexists. exists rest, k. split_and!; [exact Hj| |].
  { unfold price_of_number in Hp. case_match; [done|]. by guard_inv. }
  intros Hi Hl Hf Hm. split; [intros; by apply price_of_number_exact|]. intros Hl14 Hbig.
  unfold price_of_number in Hp. rewrite Hl14 in Hp. change (15 <=? 14) with false in Hp. injection Hp as <-.
  unfold as_u64. rewrite Z.mod_small by (unfold U64_MAX in *; lia).
  unfold saturating_mul. rewrite Z.min_l by lia. rewrite Z.min_r by (unfold U64_MAX in *; lia).
  change (U64_MAX / 10 ^ 14) with 184467. unfold saturating_add. rewrite Z.min_l by lia. done.
Qed.

(** ** A run: an address, 64 prices from 100 to 163 and one of 164 *)
Module Demo.
Definition numbers : list Z := seqZ 100 65.
Definition calls : list (Origin * Call) :=
  (Root, AddPriceUrl (str "https://example"%string)) ::
  ((λ p, (NoOrigin, SubmitPriceUnsigned p)) <$> numbers).

(** A host whose answers always hold the number 0.50000000000001. *)
Definition half : NumberValue :=
  {| integer := 0; fraction := 50000000000001; fraction_length := 14 |}.
Definition host : Host := {|
  SerdeValue := unit; serde_from_str _ := Some tt; serde_index _ _ := tt;
  serde_is_null _ := false; serde_to_string _ := Some (str "0.50000000000001"%string);
  lite_parse_json _ := Some (JsonObject [(str "a"%string, JsonNumber half)]);
  valid_utf8 _ := true; http_get _ := Ok (200, []);
  submit_unsigned_transaction _ := true; next_u32 n := n |}.

Lemma price_calls_typed : typed_calls calls.
Proof.
  constructor; [done|]. apply Forall_fmap, list.Forall_forall.
  intros p Hp%elem_of_seqZ. simpl. unfold U64_MAX. lia.
Qed.

Lemma price_refines_history_witness :
  Prices (run calls) = seqZ 101 64 ∧ AvgPrice (run calls) = Some 132 ∧
  Z.min 101 (U64_MAX / 64) ≤ 132 ≤ 164.
Proof.
  destruct (price_refines_history calls price_calls_typed) as (Hp & Ha & Hb).
  rewrite Hp, Ha. split; [vm_compute; reflexivity|]. split; [vm_compute; reflexivity|].
  apply Hb; [|rewrite Ha; vm_compute; reflexivity].
  assert (window (history calls) = seqZ 101 64) as -> by (vm_compute; reflexivity).
  apply list.Forall_forall. intros p Hq%elem_of_seqZ. lia.
Defined.

(** Sixty-four unsigned prices of the largest u64: the sum saturates and the
    average falls below every price of the window. *)
Example price_saturated_average :
  AvgPrice (run (replicate 64 (NoOrigin, SubmitPriceUnsigned U64_MAX))) = Some (U64_MAX / 64).
Proof. vm_compute. reflexivity. Qed.

Lemma price_worker_total_witness :
  ∃ r, offchain_worker host 20 7 (run calls) = Some r ∧
    ∀ p, r = Some p → 20 mod PriceUpdateFrequency (run calls) = 0.
Proof.
  destruct (price_worker_total host calls 20 7 price_calls_typed) as (r & Hr & Hp).
  exists r. split; [exact Hr|]. intros p Heq. exact (proj1 (Hp p Heq)).
Defined.

Lemma price_amount_exact_witness :
  get_dbc_amount_by_value (run calls) 1000000 = Some 7575757575757575757 ∧
  132 * 7575757575757575757 ≤ 1000000 * ONE_DBC < 132 * 7575757575757575758.
Proof.
  assert (get_dbc_amount_by_value (run calls) 1000000 = Some 7575757575757575757) as Ha
    by (vm_compute; reflexivity).
  split; [exact Ha|].
  pose proof (price_amount_exact calls 1000000 price_calls_typed ltac:(unfold U64_MAX; lia)) as Hx.
  rewrite Ha in Hx. destruct Hx as (p & _ & Hp & _ & _ & Hb).
  assert (p = 132) as -> by (vm_compute in Hp; congruence). exact Hb.
Defined.

Lemma price_parse_exact_witness :
  parse_price host [] = Some 184467 ∧ ∃ n, fraction_length n < 15.
Proof.
  assert (parse_price host [] = Some 184467) as Hp by (vm_compute; reflexivity).
  split; [exact Hp|].
  destruct (price_parse_exact host [] 184467 Hp) as (n & _ & _ & _ & _ & Hl & _). by exists n.
Defined.
End Demo.
End PriceOcw.
