(* ===== verification/TaskMode.v ===== *)
(** * pallet-task-mode

    An administrator defines a task (a model and its prices per thousand
    tokens); a customer orders it from a miner, which reserves the charge at
    the oracle's price; the miner marks the order completed; settling it sends
    the burned part to the treasury and the rest to the miner and counts it in
    the era's statistics, from which reward shares are computed; an order that
    stays in progress past its timeout can be cancelled and refunded. Models
    src/pallets/task-mode/src/lib.rs; the oracle is the interface [DbcPrice]. *)
From stdpp Require Import base gmap fin_maps list numbers relations.
From Stdlib Require Import ZArith Lia.
From S2P Require Import Prelude Currency Interfaces Price.

Module TaskMode.

Inductive TaskOrderStatus := Pending | InProgress | Completed | Settled.
#[export] Instance TaskOrderStatus_eq_dec : EqDecision TaskOrderStatus.
Proof. solve_decision. Defined.

Record TaskDefinition := {
  model_id : bytes;
  version : bytes;
  admin : AccountId;
  input_price_usd_per_1k : Balance;
  output_price_usd_per_1k : Balance;
  max_tokens_per_request : Z;
  policy_cid : bytes;
  is_active : bool;
}.
#[export] Instance TaskDefinition_eta : RecordEta TaskDefinition := λ d,
  Build_TaskDefinition (model_id d) (version d) (admin d) (input_price_usd_per_1k d)
    (output_price_usd_per_1k d) (max_tokens_per_request d) (policy_cid d) (is_active d).

Record TaskOrder := {
  order_id : Z;
  task_id : Z;
  customer : AccountId;
  miner : AccountId;
  input_tokens : Z;
  output_tokens : Z;
  dbc_price_snapshot : Balance;
  total_dbc_charged : Balance;
  dbc_burned : Balance;
  miner_payout : Balance;
  created_at : BlockNumber;
  status : TaskOrderStatus;
  attestation_hash : option H256;
}.
#[export] Instance TaskOrder_eta : RecordEta TaskOrder := λ o,
  Build_TaskOrder (order_id o) (task_id o) (customer o) (miner o) (input_tokens o)
    (output_tokens o) (dbc_price_snapshot o) (total_dbc_charged o) (dbc_burned o)
    (miner_payout o) (created_at o) (status o) (attestation_hash o).

Record EraTaskStats := {
  total_charged : Balance;
  total_burned : Balance;
  total_miner_payout : Balance;
  completed_orders : Z;
}.
#[export] Instance EraTaskStats_eta : RecordEta EraTaskStats := λ e,
  Build_EraTaskStats (total_charged e) (total_burned e) (total_miner_payout e) (completed_orders e).
Definition EraTaskStats_default : EraTaskStats := {|
  total_charged := 0; total_burned := 0; total_miner_payout := 0; completed_orders := 0 |}.

Inductive Event :=
| TaskDefinitionCreated (task_id : Z) (admin : AccountId)
| TaskDefinitionUpdated (task_id : Z)
| TaskOrderCreated (order_id : Z) (customer miner : AccountId) (total_dbc : Balance)
| TaskOrderCompleted (order_id : Z) (attestation_hash : H256)
| TaskOrderSettled (order_id : Z) (burned miner_payout : Balance)
| TaskOrderExpired (order_id : Z) (customer : AccountId) (refunded : Balance).

Inductive Error :=
| TaskDefinitionNotFound
| TaskDefinitionInactive
| TaskOrderNotFound
| InvalidOrderStatus
| TokenCountExceedsLimit
| InsufficientBalance
| PriceOracleUnavailable
| ArithmeticOverflow
| NotAuthorized
| OrderNotExpired.

(** The percentages are parts of the [Percent] in force. *)
Record Config := {
  TreasuryAccount : AccountId;
  BurnPercentage : Z;
  MinerPayoutPercentage : Z;
  TaskModeRewardPercentage : Z;
  EraDuration : BlockNumber;
  MaxModelIdLen : Z;
  MaxPolicyCidLen : Z;
  OrderTimeout : BlockNumber;
}.

Record State := {
  NextTaskId : Z;
  NextOrderId : Z;
  TaskDefinitions : gmap Z TaskDefinition;
  TaskOrders : gmap Z TaskOrder;
  EraStats : gmap Z EraTaskStats;
  MinerTaskStats : gmap (Z * AccountId) (Balance * Z);
  events : list Event;
}.
#[export] Instance State_eta : RecordEta State := λ s,
  Build_State (NextTaskId s) (NextOrderId s) (TaskDefinitions s) (TaskOrders s)
    (EraStats s) (MinerTaskStats s) (events s).

Definition genesis : State := {|
  NextTaskId := 0; NextOrderId := 0; TaskDefinitions := ∅; TaskOrders := ∅;
  EraStats := ∅; MinerTaskStats := ∅; events := [] |}.

Definition deposit_event (e : Event) (s : State) : State :=
  s <| events ::= λ es, es ++ [e] |>.

(** The getters of the maps with a default. *)
Definition era_stats_of (s : State) (era : Z) : EraTaskStats :=
  default EraTaskStats_default (EraStats s !! era).
Definition miner_task_stats_of (s : State) (era : Z) (m : AccountId) : Balance * Z :=
  default (0, 0) (MinerTaskStats s !! (era, m)).

Section pallet.
Context `{ReservableCurrency L} `{DbcPrice Oracle} {P : PerThing} (T : Config).
Abbreviation MT := (M (State * L) (DispatchError Error)).

(** ** Arithmetic of orders and rewards *)

Definition calculate_order_usd_value (input output in_price out_price : Z) : option Z :=
  input_product ← checked_mul U128_MAX input in_price;
  input_part ← checked_div input_product 1000;
  output_product ← checked_mul U128_MAX output out_price;
  output_part ← checked_div output_product 1000;
  total ← checked_add U128_MAX input_part output_part;
  try_from U64_MAX total.

Definition calculate_revenue_split (total : Balance) : option (Balance * Balance) :=
  let burned := per_mul (BurnPercentage T) total in
  let miner_percent_cut := per_mul (MinerPayoutPercentage T) total in
  charged_check ← checked_add U128_MAX burned miner_percent_cut;
  if negb (charged_check <=? total) then None
  else
    payout ← checked_sub total burned;
    Some (burned, payout).

Definition block_to_era (block : BlockNumber) : Z :=
  let era_duration := saturated_into U128_MAX (EraDuration T) in
  if era_duration =? 0 then 0
  else Z.min (saturated_into U128_MAX block / era_duration) U32_MAX.

Definition split_era_rewards (total_era_rewards : Balance) : option (Balance * Balance) :=
  let task_reward_pool := per_mul (TaskModeRewardPercentage T) total_era_rewards in
  rental_reward_pool ← checked_sub total_era_rewards task_reward_pool;
  Some (task_reward_pool, rental_reward_pool).

Definition miner_reward_share (s : State) (era_index : Z) (m : AccountId)
    (total_era_rewards : Balance) : option Balance :=
  pools ← split_era_rewards total_era_rewards;
  let era_stats := era_stats_of s era_index in
  if total_miner_payout era_stats =? 0 then None
  else
    let miner_total_payout := (miner_task_stats_of s era_index m).1 in
    if miner_total_payout =? 0 then None
    else
      product ← checked_mul U128_MAX pools.1 miner_total_payout;
      checked_div product (total_miner_payout era_stats).

(** ** Dispatchables *)

Definition len_ok (v : bytes) (max : Z) : bool := Z.of_nat (length v) <=? max.

Definition create_task_definition (origin : Origin) (model_id version : bytes)
    (in_price out_price max_tokens : Z) (policy_cid : bytes) : MT unit :=
  admin ← ensure_signed origin;
  ensure (len_ok model_id (MaxModelIdLen T)) (Module ArithmeticOverflow);;
  ensure (len_ok version (MaxModelIdLen T)) (Module ArithmeticOverflow);;
  ensure (len_ok policy_cid (MaxPolicyCidLen T)) (Module ArithmeticOverflow);;
  task_id ← st_gets NextTaskId;
  next_task_id ← ok_or (checked_add U64_MAX task_id 1) (Module ArithmeticOverflow);
  st_modify (λ s, s <| NextTaskId := next_task_id |>);;
  st_modify (λ s, s <| TaskDefinitions ::= <[task_id := {|
    model_id := model_id; version := version; admin := admin;
    input_price_usd_per_1k := in_price; output_price_usd_per_1k := out_price;
    max_tokens_per_request := max_tokens; policy_cid := policy_cid; is_active := true |}]> |>);;
  st_modify (deposit_event (TaskDefinitionCreated task_id admin)).

Definition update_task_definition (origin : Origin) (task_id : Z) (in_price out_price : option Z)
    (max_tokens : option Z) (active : option bool) : MT unit :=
  who ← ensure_signed origin;
  maybe_def ← st_gets (λ s, TaskDefinitions s !! task_id);
  def ← ok_or maybe_def (Module TaskDefinitionNotFound);
  ensure (bool_decide (admin def = who)) (Module NotAuthorized);;
  st_modify (λ s, s <| TaskDefinitions ::= <[task_id := def
    <| input_price_usd_per_1k ::= λ v, default v in_price |>
    <| output_price_usd_per_1k ::= λ v, default v out_price |>
    <| max_tokens_per_request ::= λ v, default v max_tokens |>
    <| is_active ::= λ v, default v active |>]> |>);;
  st_modify (deposit_event (TaskDefinitionUpdated task_id)).

Definition create_task_order (oracle : Oracle) (now : BlockNumber) (origin : Origin) (task_id : Z)
    (miner : AccountId) (input_tokens output_tokens : Z) : MT unit :=
  customer ← ensure_signed origin;
  maybe_task ← st_gets (λ s, TaskDefinitions s !! task_id);
  task ← ok_or maybe_task (Module TaskDefinitionNotFound);
  ensure (is_active task) (Module TaskDefinitionInactive);;
  total_tokens ← ok_or (checked_add U64_MAX input_tokens output_tokens) (Module ArithmeticOverflow);
  ensure (total_tokens <=? max_tokens_per_request task) (Module TokenCountExceedsLimit);;
  dbc_price_snapshot ← ok_or (get_dbc_price oracle) (Module PriceOracleUnavailable);
  usd_value ← ok_or (calculate_order_usd_value input_tokens output_tokens
    (input_price_usd_per_1k task) (output_price_usd_per_1k task)) (Module ArithmeticOverflow);
  total_dbc_charged ← ok_or (get_dbc_amount_by_value oracle usd_value)
    (Module PriceOracleUnavailable);
  split ← ok_or (calculate_revenue_split total_dbc_charged) (Module ArithmeticOverflow);
  m_reserve customer total_dbc_charged (Module InsufficientBalance);;
  order_id ← st_gets NextOrderId;
  next_order_id ← ok_or (checked_add U64_MAX order_id 1) (Module ArithmeticOverflow);
  st_modify (λ s, s <| NextOrderId := next_order_id |>);;
  st_modify (λ s, s <| TaskOrders ::= <[order_id := {|
    order_id := order_id; task_id := task_id; customer := customer; miner := miner;
    input_tokens := input_tokens; output_tokens := output_tokens;
    dbc_price_snapshot := dbc_price_snapshot; total_dbc_charged := total_dbc_charged;
    dbc_burned := split.1; miner_payout := split.2; created_at := now; status := Pending;
    attestation_hash := None |}]> |>);;
  st_modify (λ s, s <| TaskOrders ::= alter (λ o, o <| status := InProgress |>) order_id |>);;
  st_modify (deposit_event (TaskOrderCreated order_id customer miner total_dbc_charged)).

Definition mark_order_completed (origin : Origin) (id : Z) (hash : H256) : MT unit :=
  who ← ensure_signed origin;
  maybe_order ← st_gets (λ s, TaskOrders s !! id);
  order ← ok_or maybe_order (Module TaskOrderNotFound);
  ensure (bool_decide (who = miner order)) (Module NotAuthorized);;
  ensure (bool_decide (status order = InProgress)) (Module InvalidOrderStatus);;
  st_modify (λ s, s <| TaskOrders ::=
    <[id := order <| status := Completed |> <| attestation_hash := Some hash |>]> |>);;
  st_modify (deposit_event (TaskOrderCompleted id hash)).

(** The updates of the era's and of the miner's statistics. *)
Definition add_era_stats (order : TaskOrder) (stats : EraTaskStats) : EraTaskStats := {|
  total_charged := saturating_add U128_MAX (total_charged stats) (total_dbc_charged order);
  total_burned := saturating_add U128_MAX (total_burned stats) (dbc_burned order);
  total_miner_payout := saturating_add U128_MAX (total_miner_payout stats) (miner_payout order);
  completed_orders := saturating_add U64_MAX (completed_orders stats) 1 |}.
Definition add_miner_stats (order : TaskOrder) (stats : Balance * Z) : Balance * Z :=
  (saturating_add U128_MAX stats.1 (miner_payout order), saturating_add U64_MAX stats.2 1).

Definition settle_task_order (origin : Origin) (id : Z) (hash : option H256) : MT unit :=
  caller ← ensure_signed origin;
  maybe_order ← st_gets (λ s, TaskOrders s !! id);
  order ← ok_or maybe_order (Module TaskOrderNotFound);
  ensure (bool_decide (status order = Completed)) (Module InvalidOrderStatus);;
  maybe_task ← st_gets (λ s, TaskDefinitions s !! task_id order);
  task ← ok_or maybe_task (Module TaskDefinitionNotFound);
  ensure (bool_decide (caller = customer order) || bool_decide (caller = miner order)
          || bool_decide (caller = admin task)) (Module NotAuthorized);;
  let order := match hash with
               | Some h => order <| attestation_hash := Some h |>
               | None => order
               end in
  m_repatriate (customer order) (TreasuryAccount T) (dbc_burned order)
    (Module InsufficientBalance);;
  m_repatriate (customer order) (miner order) (miner_payout order)
    (Module InsufficientBalance);;
  let order := order <| status := Settled |> in
  st_modify (λ s, s <| TaskOrders ::= <[id := order]> |>);;
  let era := block_to_era (created_at order) in
  st_modify (λ s, s <| EraStats ::= <[era := add_era_stats order (era_stats_of s era)]> |>);;
  st_modify (λ s, s <| MinerTaskStats ::=
    <[(era, miner order) := add_miner_stats order (miner_task_stats_of s era (miner order))]> |>);;
  st_modify (deposit_event (TaskOrderSettled id (dbc_burned order) (miner_payout order))).

Definition cancel_expired_order (now : BlockNumber) (origin : Origin) (id : Z) : MT unit :=
  ensure_signed origin;;
  maybe_order ← st_gets (λ s, TaskOrders s !! id);
  order ← ok_or maybe_order (Module TaskOrderNotFound);
  ensure (bool_decide (status order = Pending) || bool_decide (status order = InProgress))
    (Module InvalidOrderStatus);;
  deadline ← ok_or (checked_add U32_MAX (created_at order) (OrderTimeout T))
    (Module ArithmeticOverflow);
  ensure (deadline <? now) (Module OrderNotExpired);;
  m_unreserve (customer order) (total_dbc_charged order);;
  st_modify (λ s, s <| TaskOrders ::= <[id := order <| status := Settled |>]> |>);;
  st_modify (deposit_event (TaskOrderExpired id (customer order) (total_dbc_charged order))).

(** ** The [TaskBillingProvider] trait *)

Definition calculate_billing (oracle : Oracle) (input_tokens output_tokens : Z) : option Balance :=
  dbc_price ← get_dbc_price oracle;
  if dbc_price =? 0 then None
  else
    total_tokens ← checked_add U64_MAX input_tokens output_tokens;
    tokens_in_thousands ← checked_div total_tokens 1000;
    checked_mul U128_MAX tokens_in_thousands dbc_price.

Definition get_revenue_split (total : Balance) : Balance * Balance :=
  (per_mul (from_percent 15) total, per_mul (from_percent 85) total).

(** ** The pallet as a state machine *)

Inductive Call :=
| CreateTaskDefinition (model_id version : bytes) (in_price out_price max_tokens : Z)
    (policy_cid : bytes)
| UpdateTaskDefinition (task_id : Z) (in_price out_price max_tokens : option Z)
    (active : option bool)
| CreateTaskOrder (task_id : Z) (miner : AccountId) (input_tokens output_tokens : Z)
| MarkOrderCompleted (id : Z) (hash : H256)
| SettleTaskOrder (id : Z) (hash : option H256)
| CancelExpiredOrder (id : Z).

Definition u128 (v : Z) : Prop := 0 ≤ v ≤ U128_MAX.
Definition u64 (v : Z) : Prop := 0 ≤ v ≤ U64_MAX.

Definition call_typed (c : Call) : Prop :=
  match c with
  | CreateTaskDefinition _ _ i o m _ => u128 i ∧ u128 o ∧ u64 m
  | UpdateTaskDefinition _ i o m _ =>
      from_option u128 True i ∧ from_option u128 True o ∧ from_option u64 True m
  | CreateTaskOrder _ _ i o => u64 i ∧ u64 o
  | _ => True
  end.

Definition dispatch (oracle : Oracle) (now : BlockNumber) (o : Origin) (c : Call) : MT unit :=
  transactional
    match c with
    | CreateTaskDefinition m v i p x y => create_task_definition o m v i p x y
    | UpdateTaskDefinition id i p m a => update_task_definition o id i p m a
    | CreateTaskOrder id m i p => create_task_order oracle now o id m i p
    | MarkOrderCompleted id h => mark_order_completed o id h
    | SettleTaskOrder id h => settle_task_order o id h
    | CancelExpiredOrder id => cancel_expired_order now o id
    end.
End pallet.

(** ** What the pallet holds, and its invariant *)

Definition live (o : TaskOrder) : bool := negb (bool_decide (status o = Settled)).
Definition owed (a : AccountId) (o : TaskOrder) : Z :=
  if live o && bool_decide (customer o = a) then total_dbc_charged o else 0.
#[export] Instance custodian : Custodian State :=
  λ s a, msum (λ _, owed a) (TaskOrders s).

(** An order was paid, rather than cancelled, exactly when it is settled and
    attested. *)
Definition paid (o : TaskOrder) : bool :=
  bool_decide (status o = Settled) && bool_decide (is_Some (attestation_hash o)).

Definition of_miner (m : AccountId) (f : TaskOrder → Z) (o : TaskOrder) : Z :=
  if bool_decide (miner o = m) then f o else 0.

Section invariant.
Context (T : Config).
Implicit Types (s : State) (o : TaskOrder).

(** The sum of [f] over the paid orders created in an era. *)
Definition paid_in (era : Z) (f : TaskOrder → Z) o : Z :=
  if paid o && (block_to_era T (created_at o) =? era) then f o else 0.
Definition era_total (f : TaskOrder → Z) (era : Z) s : Z :=
  msum (λ _, paid_in era f) (TaskOrders s).

Definition order_stage o : Prop :=
  match status o with
  | Pending => False
  | InProgress => attestation_hash o = None
  | Completed => is_Some (attestation_hash o)
  | Settled => True
  end.

Definition order_ok (now : BlockNumber) s (id : Z) o : Prop :=
  0 ≤ id < NextOrderId s ∧ order_id o = id ∧ is_Some (TaskDefinitions s !! task_id o) ∧
  0 ≤ dbc_burned o ∧ 0 ≤ miner_payout o ∧
  dbc_burned o + miner_payout o = total_dbc_charged o ∧ total_dbc_charged o ≤ U128_MAX ∧
  created_at o ≤ now ∧ order_stage o.

Definition definition_ok s (id : Z) (d : TaskDefinition) : Prop :=
  0 ≤ id < NextTaskId s ∧ u128 (input_price_usd_per_1k d) ∧ u128 (output_price_usd_per_1k d) ∧
  u64 (max_tokens_per_request d).

(** The statistics a settled history must have. *)
Definition era_stats_spec s (era : Z) : EraTaskStats := {|
  total_charged := Z.min (era_total total_dbc_charged era s) U128_MAX;
  total_burned := Z.min (era_total dbc_burned era s) U128_MAX;
  total_miner_payout := Z.min (era_total miner_payout era s) U128_MAX;
  completed_orders := Z.min (era_total (λ _, 1) era s) U64_MAX |}.
Definition miner_stats_spec s (era : Z) (m : AccountId) : Balance * Z :=
  (Z.min (era_total (of_miner m miner_payout) era s) U128_MAX,
   Z.min (era_total (of_miner m (λ _, 1)) era s) U64_MAX).

Record Inv (now : BlockNumber) s : Prop := {
  inv_next : 0 ≤ NextTaskId s ∧ 0 ≤ NextOrderId s;
  inv_definition id d : TaskDefinitions s !! id = Some d → definition_ok s id d;
  inv_order id o : TaskOrders s !! id = Some o → order_ok now s id o;
  inv_era era : era_stats_of s era = era_stats_spec s era;
  inv_miner era m : miner_task_stats_of s era m = miner_stats_spec s era m;
}.

Definition same_core o o' : Prop :=
  order_id o' = order_id o ∧ task_id o' = task_id o ∧ customer o' = customer o ∧
  miner o' = miner o ∧ input_tokens o' = input_tokens o ∧ output_tokens o' = output_tokens o ∧
  dbc_price_snapshot o' = dbc_price_snapshot o ∧ total_dbc_charged o' = total_dbc_charged o ∧
  dbc_burned o' = dbc_burned o ∧ miner_payout o' = miner_payout o ∧ created_at o' = created_at o.

Lemma tm_Inv_genesis now : Inv now genesis.
Proof. by split. Qed.

Lemma tm_Inv_later now now' s : now ≤ now' → Inv now s → Inv now' s.
Proof.
  intros Hle [I0 I1 I2 I3 I4]. split; try done.
  intros id o Ho. destruct (I2 id o Ho) as (? & ? & ? & ? & ? & ? & ? & ? & ?).
  unfold order_ok. solve_facts.
Qed.

(** *** The sums follow the orders *)

Lemma era_total_fresh f era s s' id o :
  TaskOrders s !! id = None → TaskOrders s' = <[id := o]> (TaskOrders s) → paid o = false →
  era_total f era s' = era_total f era s.
Proof.
  intros Hid Hm Hp. unfold era_total. rewrite Hm, msum_insert_None by done.
  unfold paid_in at 1. by rewrite Hp.
Qed.

Lemma era_total_advance f era s s' id o o' :
  TaskOrders s !! id = Some o → TaskOrders s' = <[id := o']> (TaskOrders s) →
  paid o = false → era_total f era s' = era_total f era s + paid_in era f o'.
Proof.
  intros Hid Hm Hp. unfold era_total. rewrite Hm, (msum_insert_Some _ _ _ _ _ Hid).
  unfold paid_in at 2. rewrite Hp. simpl. lia.
Qed.

Lemma saturating_sum max S x : 0 ≤ x → saturating_add max (Z.min S max) x = Z.min (S + x) max.
Proof. unfold saturating_add. lia. Qed.

(** *** Definitions change without touching the orders *)
Lemma Inv_definitions now s s' :
  Inv now s → TaskOrders s' = TaskOrders s → NextOrderId s' = NextOrderId s →
  EraStats s' = EraStats s → MinerTaskStats s' = MinerTaskStats s → 0 ≤ NextTaskId s' →
  (∀ id d, TaskDefinitions s' !! id = Some d → definition_ok s' id d) →
  (∀ id, is_Some (TaskDefinitions s !! id) → is_Some (TaskDefinitions s' !! id)) →
  Inv now s'.
Proof.
  intros [I0 I1 I2 I3 I4] Ho Hn He Hm Hnt Hd Hsub. split; try done.
  - rewrite Hn. naive_solver.
  - intros id o Hid. rewrite Ho in Hid. destruct (I2 id o Hid) as (? & ? & Hdef & ? & ? & ? & ? & ? & ?).
    unfold order_ok. rewrite Hn. split_and!; naive_solver.
  - intros era. unfold era_stats_of. rewrite He. fold (era_stats_of s era). rewrite I3.
    unfold era_stats_spec, era_total. by rewrite Ho.
  - intros era m. unfold miner_task_stats_of. rewrite Hm. fold (miner_task_stats_of s era m). rewrite I4.
    unfold miner_stats_spec, era_total. by rewrite Ho.
Qed.

(** *** A new order *)
Lemma Inv_create now s s' o :
  Inv now s → TaskOrders s' = <[NextOrderId s := o]> (TaskOrders s) →
  NextOrderId s' = NextOrderId s + 1 → NextTaskId s' = NextTaskId s →
  TaskDefinitions s' = TaskDefinitions s → EraStats s' = EraStats s →
  MinerTaskStats s' = MinerTaskStats s → status o = InProgress → order_ok now s' (NextOrderId s) o →
  Inv now s'.
Proof.
  intros [I0 I1 I2 I3 I4] Ho Hn Hnt Hd He Hm Hst Hok.
  assert (Hfresh : TaskOrders s !! NextOrderId s = None).
  { apply eq_None_not_Some. intros [x Hx]. destruct (I2 _ _ Hx). lia. }
  assert (Hp : paid o = false) by (unfold paid; by rewrite Hst).
  assert (Htot : ∀ f era, era_total f era s' = era_total f era s)
    by (intros; by eapply era_total_fresh).
  split.
  - lia.
  - rewrite Hd. intros id d Hid. destruct (I1 id d Hid). unfold definition_ok. by rewrite Hnt.
  - intros id x. rewrite Ho. intros [[<- <-]|[Hne Hx]]%lookup_insert_Some; [done|].
    destruct (I2 id x Hx) as (? & ? & ? & ? & ? & ? & ? & ? & ?). unfold order_ok.
    rewrite Hn, Hd. solve_facts.
  - intros era. unfold era_stats_of. rewrite He. fold (era_stats_of s era). rewrite I3.
    unfold era_stats_spec. by rewrite !Htot.
  - intros era m. unfold miner_task_stats_of. rewrite Hm. fold (miner_task_stats_of s era m). rewrite I4.
    unfold miner_stats_spec. by rewrite !Htot.
Qed.

(** *** An unpaid order reaches its next stage *)
Lemma tm_Inv_advance now s s' id o o' :
  Inv now s → TaskOrders s !! id = Some o → TaskOrders s' = <[id := o']> (TaskOrders s) →
  paid o = false → same_core o o' → order_stage o' →
  NextOrderId s' = NextOrderId s → NextTaskId s' = NextTaskId s →
  TaskDefinitions s' = TaskDefinitions s →
  (∀ era, era_stats_of s' era =
    if paid o' && (block_to_era T (created_at o') =? era)
    then add_era_stats o' (era_stats_of s era) else era_stats_of s era) →
  (∀ era m, miner_task_stats_of s' era m =
    if paid o' && (block_to_era T (created_at o') =? era) && bool_decide (miner o' = m)
    then add_miner_stats o' (miner_task_stats_of s era m) else miner_task_stats_of s era m) →
  Inv now s'.
Proof.
  intros [I0 I1 I2 I3 I4] Hid Ho Hp Hc Hst Hn Hnt Hd He Hm.
  assert (Hok : order_ok now s' id o').
  { destruct (I2 id o Hid) as (? & ? & ? & ? & ? & ? & ? & ? & ?).
    destruct Hc as (Ha & Hb & Hc & Hd' & He' & Hf & Hg & Hh & Hi & Hj & Hk).
    unfold order_ok. rewrite Hn, Hd, Ha, Hb, Hh, Hi, Hj, Hk. solve_facts. }
  assert (0 ≤ dbc_burned o' ∧ 0 ≤ miner_payout o' ∧ 0 ≤ total_dbc_charged o') as (? & ? & ?).
  { destruct Hok as (_ & _ & _ & ? & ? & ? & _). lia. }
  pose proof (λ f era, era_total_advance f era s s' id o o' Hid Ho Hp) as Htot.
  split; rewrite ?Hn, ?Hnt; try done.
  - rewrite Hd. intros k d Hk. destruct (I1 k d Hk). unfold definition_ok. by rewrite Hnt.
  - intros k x. rewrite Ho. intros [[<- <-]|[Hne Hx]]%lookup_insert_Some; [done|].
    destruct (I2 k x Hx) as (? & ? & ? & ? & ? & ? & ? & ? & ?). unfold order_ok.
    rewrite Hn, Hd. solve_facts.
  - intros era. rewrite He, I3. unfold era_stats_spec. rewrite !Htot. unfold paid_in.
    destruct (_ && _); unfold add_era_stats; simpl; [by rewrite !saturating_sum by lia|].
    by rewrite !Z.add_0_r.
  - intros era m. rewrite Hm, I4. unfold miner_stats_spec. rewrite !Htot. unfold paid_in, of_miner.
    destruct (paid o' && _); simpl; [|by rewrite !Z.add_0_r].
    destruct (bool_decide _); unfold add_miner_stats; simpl;
      [by rewrite !saturating_sum by lia|by rewrite !Z.add_0_r].
Qed.
End invariant.

(** The configured percentages are proper parts. *)
Record config_ok {P : PerThing} (T : Config) : Prop := {
  burn_part : 0 ≤ BurnPercentage T ≤ accuracy;
  reward_part : 0 ≤ TaskModeRewardPercentage T ≤ accuracy;
}.

Section theory.
Context `{ReservableCurrencyLaws L} `{DbcPriceLaws Oracle} {P : PerThing} {LP : PerThingLaws P}.
Context (T : Config) (HT : config_ok T).
Implicit Types (s : State) (l : L) (o : TaskOrder).

(** ** Arithmetic *)

Lemma usd_value_spec i q pi pq v :
  u64 i → u64 q → u128 pi → u128 pq → calculate_order_usd_value i q pi pq = Some v →
  v = i * pi / 1000 + q * pq / 1000 ∧ u64 v.
Proof.
  intros Hi Ho Hpi Hpo Hv. unfold calculate_order_usd_value in Hv.
  repeat (apply bind_Some in Hv as (? & ? & Hv)). guard_inv. simplify_eq.
  split; [done|]. unfold u64, u128 in *.
  assert (0 ≤ i * pi / 1000 ∧ 0 ≤ q * pq / 1000) by (split; apply Z.div_pos; lia). lia.
Qed.

Lemma revenue_split_spec total b p :
  0 ≤ total → calculate_revenue_split T total = Some (b, p) →
  b = per_mul (BurnPercentage T) total ∧ 0 ≤ b ∧ 0 ≤ p ∧ b + p = total.
Proof.
  intros Ht Hs. unfold calculate_revenue_split in Hs.
  apply bind_Some in Hs as (c & _ & Hs). destruct (negb _); [done|].
  apply bind_Some in Hs as (q & Hq & Hs). guard_inv. simplify_eq.
  pose proof (per_mul_bounds (BurnPercentage T) total (burn_part T HT) Ht). split_and!; [done|lia..].
Qed.

(** ** What each operation on orders does when it succeeds *)

Lemma create_effect oracle now origin tid m i p s l s' l' :
  Inv T now s → oracle_inv oracle → u64 i → u64 p →
  create_task_order T oracle now origin tid m i p (s, l) = (Ok tt, (s', l')) →
  ∃ c task o price usd, TaskOrders s' = <[NextOrderId s := o]> (TaskOrders s) ∧
    origin = Signed c ∧ TaskDefinitions s !! tid = Some task ∧ is_active task = true ∧
    i + p ≤ max_tokens_per_request task ∧
    get_dbc_price oracle = Some price ∧ 0 < price ∧
    usd = i * input_price_usd_per_1k task / 1000 + p * output_price_usd_per_1k task / 1000 ∧
    u64 usd ∧
    price * total_dbc_charged o ≤ usd * ONE_DBC < price * (total_dbc_charged o + 1) ∧
    order_id o = NextOrderId s ∧ task_id o = tid ∧ customer o = c ∧ miner o = m ∧
    created_at o = now ∧ status o = InProgress ∧ attestation_hash o = None ∧
    dbc_burned o = per_mul (BurnPercentage T) (total_dbc_charged o) ∧
    0 ≤ dbc_burned o ∧ 0 ≤ miner_payout o ∧
    dbc_burned o + miner_payout o = total_dbc_charged o ∧ total_dbc_charged o ≤ U128_MAX ∧
    reserve c (total_dbc_charged o) l = Some l' ∧
    NextOrderId s' = NextOrderId s + 1 ∧ NextTaskId s' = NextTaskId s ∧
    TaskDefinitions s' = TaskDefinitions s ∧ EraStats s' = EraStats s ∧
    MinerTaskStats s' = MinerTaskStats s.
Proof.
  intros I Ho Hi Hp Hrun. unfold create_task_order in Hrun. run_inv.
  match goal with Hd : TaskDefinitions s !! tid = Some ?d,
    Hu : calculate_order_usd_value _ _ _ _ = Some ?u, Ha : get_dbc_amount_by_value _ _ = Some ?v,
    Hs : calculate_revenue_split _ _ = Some ?sp |- _ =>
    rename Hd into Hdef, Hu into Husd, Ha into Hamt, Hs into Hsplit; rename d into task;
    destruct sp as [burned payout] end.
  destruct (inv_definition _ _ _ I _ _ Hdef) as (_ & Hpi & Hpo & _).
  destruct (usd_value_spec _ _ _ _ _ Hi Hp Hpi Hpo Husd) as [Hu Hu64].
  match goal with Hpr : get_dbc_price oracle = Some _ |- _ =>
    destruct (dbc_amount_exact _ _ _ _ Ho Hu64 Hpr Hamt) as (Hpos & Htot & Hworth) end.
  destruct (revenue_split_spec _ _ _ (proj1 Htot) Hsplit) as (Hb & Hb0 & Hp0 & Hsum).
  eexists _, task, _, _, _. split; [simpl; apply alter_insert_eq|].
  split_and!; try done; simpl; apply Hworth || lia.
Qed.

(** The rest of the storage besides the orders and the statistics. *)
Definition same_ids s s' : Prop :=
  NextOrderId s' = NextOrderId s ∧ NextTaskId s' = NextTaskId s ∧
  TaskDefinitions s' = TaskDefinitions s.

Lemma complete_effect origin id h s l s' l' :
  mark_order_completed origin id h (s, l) = (Ok tt, (s', l')) →
  ∃ o, TaskOrders s !! id = Some o ∧ status o = InProgress ∧ origin = Signed (miner o) ∧ l' = l ∧
    TaskOrders s' = <[id := o <| status := Completed |> <| attestation_hash := Some h |>]>
      (TaskOrders s) ∧
    same_ids s s' ∧ EraStats s' = EraStats s ∧ MinerTaskStats s' = MinerTaskStats s.
Proof. intros Hrun. unfold mark_order_completed in Hrun. run_inv. eexists. solve_facts. Qed.

Definition settled_order (h : option H256) o : TaskOrder :=
  (match h with Some x => o <| attestation_hash := Some x |> | None => o end) <| status := Settled |>.

Lemma settled_order_core h o : same_core o (settled_order h o).
Proof. by destruct h. Qed.

Lemma settle_effect origin id h s l s' l' :
  settle_task_order T origin id h (s, l) = (Ok tt, (s', l')) →
  ∃ o caller task l1 r1 r2, TaskOrders s !! id = Some o ∧ status o = Completed ∧
    origin = Signed caller ∧ TaskDefinitions s !! task_id o = Some task ∧
    (caller = customer o ∨ caller = miner o ∨ caller = admin task) ∧
    repatriate_reserved (customer o) (TreasuryAccount T) (dbc_burned o) l = Some (l1, r1) ∧
    repatriate_reserved (customer o) (miner o) (miner_payout o) l1 = Some (l', r2) ∧
    TaskOrders s' = <[id := settled_order h o]> (TaskOrders s) ∧ same_ids s s' ∧
    let era := block_to_era T (created_at o) in
    EraStats s' = <[era := add_era_stats o (era_stats_of s era)]> (EraStats s) ∧
    MinerTaskStats s' = <[(era, miner o) :=
      add_miner_stats o (miner_task_stats_of s era (miner o))]> (MinerTaskStats s).
Proof.
  intros Hrun. unfold settle_task_order in Hrun. run_inv.
  match goal with Ho : TaskOrders s !! id = Some ?o, Hc : _ || _ || _ = true |- _ =>
    exists o; rename Hc into Hauth end.
  rewrite !orb_true_iff, !bool_decide_eq_true in Hauth.
  destruct h; simpl in *; eexists _, _, _, _, _; split_and!; try done; naive_solver.
Qed.

Lemma cancel_effect now origin id s l s' l' :
  cancel_expired_order T now origin id (s, l) = (Ok tt, (s', l')) →
  ∃ o, TaskOrders s !! id = Some o ∧ (status o = Pending ∨ status o = InProgress) ∧
    created_at o + OrderTimeout T < now ∧
    l' = (unreserve (customer o) (total_dbc_charged o) l).1 ∧
    TaskOrders s' = <[id := o <| status := Settled |>]> (TaskOrders s) ∧
    same_ids s s' ∧ EraStats s' = EraStats s ∧ MinerTaskStats s' = MinerTaskStats s.
Proof.
  intros Hrun. unfold cancel_expired_order in Hrun. run_inv.
  match goal with Ho : TaskOrders s !! id = Some ?o, Hc : _ || _ = true |- _ =>
    exists o; rewrite orb_true_iff, !bool_decide_eq_true in Hc end.
  solve_facts.
Qed.

(** ** The invariant is kept *)

Lemma era_stats_insert s s' e x era :
  EraStats s' = <[e := x]> (EraStats s) →
  era_stats_of s' era = if e =? era then x else era_stats_of s era.
Proof.
  intros He. unfold era_stats_of. rewrite He, lookup_insert.
  destruct (Z.eqb_spec e era); by case_decide.
Qed.

Lemma miner_stats_insert s s' e n x era m :
  MinerTaskStats s' = <[(e, n) := x]> (MinerTaskStats s) →
  miner_task_stats_of s' era m =
    if (e =? era) && bool_decide (n = m) then x else miner_task_stats_of s era m.
Proof.
  intros He. unfold miner_task_stats_of. rewrite He, lookup_insert.
  destruct (Z.eqb_spec e era); case_bool_decide; case_decide; simplify_eq; done || naive_solver.
Qed.

Lemma tm_Inv_dispatch oracle now origin c (w : State * L) :
  oracle_inv oracle → call_typed c → Inv T now w.1 →
  Inv T now (dispatch T oracle now origin c w).2.1.
Proof.
  intros Hor Ht I. destruct w as [s l].
  apply (transactional_preserves (λ w, Inv T now w.1)); [done|].
  intros [] [s' l'] Hrun. cbn [fst snd] in *.
  destruct c as [m v pi po mx pc|tid pi po mx a|tid m i q|id h|id h|id]; simpl in Ht; cbn iota in Hrun.
  - unfold create_task_definition in Hrun. run_inv. destruct (inv_next _ _ _ I).
    apply (Inv_definitions T now s); try done; simpl; [lia| |].
    + intros k d [[<- <-]|[? Hd]]%lookup_insert_Some; [unfold definition_ok; simpl; split_and!; try lia; naive_solver|].
      destruct (inv_definition _ _ _ I k d Hd). unfold definition_ok. simpl. split_and!; try lia; naive_solver.
    + intros k Hk. destruct (decide (k = NextTaskId s)) as [->|]; [by rewrite lookup_insert_eq|].
      by rewrite lookup_insert_ne.
  - unfold update_task_definition in Hrun. run_inv. destruct (inv_next _ _ _ I).
    apply (Inv_definitions T now s); try done; simpl.
    + intros k d [[<- <-]|[? Hd]]%lookup_insert_Some; [|by apply (inv_definition _ _ _ I k d)].
      match goal with Hd : TaskDefinitions s !! _ = Some _ |- _ =>
        destruct (inv_definition _ _ _ I _ _ Hd) as (? & ? & ? & ?) end.
      unfold definition_ok; simpl. destruct Ht as (? & ? & ?), pi, po, mx; by split_and!; simpl in *; lia || done.
    + intros k Hk. destruct (decide (k = tid)) as [->|]; [by rewrite lookup_insert_eq|].
      by rewrite lookup_insert_ne.
  - destruct Ht as [Hi Hq].
    destruct (create_effect _ _ _ _ _ _ _ _ _ _ _ I Hor Hi Hq Hrun) as
      (c & task & o & price & usd & Hm & -> & Hd & _ & _ & _ & _ & _ & _ & _ & Hid & Htid & Hc & Hmi
       & Hcr & Hst & Hh & _ & Hb & Hp & Hsum & Hmax & _ & Hn & Hnt & Hde & He & Hmt).
    apply (Inv_create T now s s' o); try done. destruct (inv_next _ _ _ I).
    unfold order_ok, order_stage. rewrite Hst, Hn, Hde, Htid, Hd. solve_facts.
  - destruct (complete_effect _ _ _ _ _ _ _ Hrun) as (o & Ho & Hst & _ & _ & Hm & (Hn & Hnt & Hde) & He & Hmt).
    apply (tm_Inv_advance T now s s' id o (o <| status := Completed |> <| attestation_hash := Some h |>)); try done.
    + unfold paid. by rewrite Hst.
    + unfold order_stage. simpl. eauto.
    + intros. unfold era_stats_of. by rewrite He.
    + intros. unfold miner_task_stats_of. by rewrite Hmt.
  - destruct (settle_effect _ _ _ _ _ _ _ Hrun) as
      (o & caller & task & l1 & r1 & r2 & Ho & Hst & _ & _ & _ & _ & _ & Hm & (Hn & Hnt & Hde) & He & Hmt).
    assert (paid o = false) as Hunpaid by (unfold paid; by rewrite Hst).
    assert (paid (settled_order h o) = true) as Hpaid.
    { destruct (inv_order _ _ _ I id o Ho) as (_ & _ & _ & _ & _ & _ & _ & _ & Hstage).
      unfold order_stage in Hstage. rewrite Hst in Hstage. unfold paid.
      destruct h; simpl; [done|]. by rewrite bool_decide_eq_true_2. }
    pose proof (settled_order_core h o) as Hc.
    destruct Hc as (_ & _ & _ & Hmi & _ & _ & _ & Htot & Hbu & Hpa & Hcr).
    apply (tm_Inv_advance T now s s' id o (settled_order h o)); try done.
    + apply settled_order_core.
    + intros era. rewrite Hpaid, Hcr, (era_stats_insert _ _ _ _ _ He). cbn [andb].
      destruct (Z.eqb_spec (block_to_era T (created_at o)) era) as [<-|]; [|done].
      unfold add_era_stats. by rewrite Htot, Hbu, Hpa.
    + intros era m. rewrite Hpaid, Hcr, Hmi, (miner_stats_insert _ _ _ _ _ _ _ Hmt). cbn [andb].
      destruct (Z.eqb_spec (block_to_era T (created_at o)) era) as [<-|]; [|done].
      case_bool_decide; [subst|done]. unfold add_miner_stats. by rewrite Hpa.
  - destruct (cancel_effect _ _ _ _ _ _ _ Hrun) as (o & Ho & Hst & _ & _ & Hm & (Hn & Hnt & Hde) & He & Hmt).
    destruct (inv_order _ _ _ I id o Ho) as (_ & _ & _ & _ & _ & _ & _ & _ & Hstage).
    unfold order_stage in Hstage. destruct Hst as [Hst|Hst]; rewrite Hst in Hstage; [done|].
    assert (paid (o <| status := Settled |>) = false) as Hp by (unfold paid; simpl; by rewrite Hstage).
    apply (tm_Inv_advance T now s s' id o (o <| status := Settled |>)); try done.
    + unfold paid. by rewrite Hst.
    + intros. rewrite Hp. unfold era_stats_of. by rewrite He.
    + intros. rewrite Hp. unfold miner_task_stats_of. by rewrite Hmt.
Qed.

(** ** Steps and reachable states *)

Inductive pallet_step : BlockNumber * (State * L) → BlockNumber * (State * L) → Prop :=
| step_call oracle now w origin c :
    oracle_inv oracle → call_typed c →
    pallet_step (now, w) (now, (dispatch T oracle now origin c w).2).
Inductive step : BlockNumber * (State * L) → BlockNumber * (State * L) → Prop :=
| step_pallet c c' : pallet_step c c' → step c c'
| step_block now w : step (now, w) (now + 1, w)
| step_ledger now s l l' : step (now, (s, l)) (now, (s, l')).

Definition reachable (c : BlockNumber * (State * L)) : Prop :=
  ∃ l, rtc step (0, (genesis, l)) c.

Lemma tm_Inv_reachable c : reachable c → Inv T c.1 c.2.1.
Proof.
  intros [l Hr]. revert Hr. apply (rtc_invariant step (λ c, Inv T c.1 c.2.1)).
  - intros ? ? [? ? [? ? ? ? ? Hor Ht]|? ?|? ? ? ?] I; simpl in *; [by apply tm_Inv_dispatch| |done].
    apply (tm_Inv_later T now); [lia|done].
  - apply tm_Inv_genesis.
Qed.

(** ** Money *)

Lemma tm_owed_live a o : live o = true → owed a o = at_account (customer o) (total_dbc_charged o) a.
Proof.
  intros Hl. unfold owed, at_account. rewrite Hl. simpl.
  destruct (decide (a = customer o)); case_bool_decide; done.
Qed.
Lemma owed_settled a o : status o = Settled → owed a o = 0.
Proof. intros Hs. unfold owed, live. by rewrite Hs. Qed.

Lemma inv_owed now s k o a : Inv T now s → TaskOrders s !! k = Some o → 0 ≤ owed a o.
Proof.
  intros I Hk. destruct (inv_order _ _ _ I k o Hk) as (_ & _ & _ & ? & ? & ? & _).
  unfold owed. case_match; lia.
Qed.

(** A live order is covered by its customer's reserve. *)
Lemma order_covered ext now s l id o :
  (∀ a, 0 ≤ ext a) → Inv T now s → TaskOrders s !! id = Some o → live o = true →
  solvent ext (s, l) → total_dbc_charged o ≤ reserved_balance l (customer o).
Proof.
  intros Hext I Ho Hl. apply solvent_covers; [done|].
  etrans; [|apply (msum_lookup_le (λ _, owed (customer o)) _ id o); [|done]].
  - rewrite tm_owed_live by done. unfold at_account. by rewrite decide_True.
  - intros k x Hk. by eapply inv_owed.
Qed.

(** The change of what is held when a live order becomes [o']. *)
Lemma tm_held_advance s s' id o o' a :
  TaskOrders s !! id = Some o → TaskOrders s' = <[id := o']> (TaskOrders s) →
  held s' a = held s a - owed a o + owed a o'.
Proof. intros Ho Hm. unfold held, custodian. by rewrite Hm, (msum_insert_Some _ _ _ _ _ Ho). Qed.

(** What a settlement moves. *)
Lemma settle_moves ext now s l id o l1 r1 l' r2 :
  (∀ a, 0 ≤ ext a) → Inv T now s → TaskOrders s !! id = Some o → live o = true →
  solvent ext (s, l) →
  repatriate_reserved (customer o) (TreasuryAccount T) (dbc_burned o) l = Some (l1, r1) →
  repatriate_reserved (customer o) (miner o) (miner_payout o) l1 = Some (l', r2) →
  moves l l' (λ a, at_account (TreasuryAccount T) (dbc_burned o) a
                   + at_account (miner o) (miner_payout o) a)
    (at_account (customer o) (- total_dbc_charged o)).
Proof.
  intros Hext I Ho Hl Hs Hr1 Hr2.
  pose proof (order_covered ext now s l id o Hext I Ho Hl Hs) as Hcov.
  destruct (inv_order _ _ _ I id o Ho) as (_ & _ & _ & Hb & Hp & Hsum & _).
  destruct (repatriate_spec _ _ _ _ _ _ Hb Hr1) as [_ Hm1]. rewrite Z.min_l in Hm1 by lia.
  destruct (repatriate_spec _ _ _ _ _ _ Hp Hr2) as [_ Hm2].
  rewrite Z.min_l in Hm2.
  - intros a. destruct (Hm1 a), (Hm2 a). unfold at_account in *. repeat case_decide; lia.
  - destruct (Hm1 (customer o)) as [_ ->]. unfold at_account. rewrite decide_True by done. lia.
Qed.

Lemma tm_solvent_dispatch ext oracle now origin c (w : State * L) :
  (∀ a, 0 ≤ ext a) → oracle_inv oracle → call_typed c → Inv T now w.1 →
  solvent ext w → solvent ext (dispatch T oracle now origin c w).2.
Proof.
  intros Hext Hor Ht I Hs. destruct w as [s l].
  apply (transactional_preserves (λ w, solvent ext w)); [done|].
  intros [] [s' l'] Hrun. cbn [fst snd] in *.
  destruct c as [m v pi po mx pc|tid pi po mx a|tid m i q|id h|id h|id]; simpl in Ht; cbn iota in Hrun.
  - unfold create_task_definition in Hrun. by run_inv.
  - unfold update_task_definition in Hrun. by run_inv.
  - destruct Ht as [Hi Hq].
    destruct (create_effect _ _ _ _ _ _ _ _ _ _ _ I Hor Hi Hq Hrun) as
      (c & task & o & price & usd & Hm & _ & _ & _ & _ & _ & _ & _ & _ & _ & _ & _ & Hc & _
       & _ & Hst & _ & _ & Hb & Hp & Hsum & _ & Hr & _).
    apply (solvent_reserve ext s s' l l' c (total_dbc_charged o)); [lia|done| |done].
    intros b. unfold held, custodian. rewrite Hm, msum_insert_None.
    + rewrite tm_owed_live by (unfold live; by rewrite Hst). rewrite Hc. lia.
    + apply eq_None_not_Some. intros [x Hx]. destruct (inv_order _ _ _ I _ _ Hx). lia.
  - destruct (complete_effect _ _ _ _ _ _ _ Hrun) as (o & Ho & Hst & _ & -> & Hm & _).
    eapply solvent_reserved; [|exact Hs]. intros a. rewrite (tm_held_advance _ _ _ _ _ a Ho Hm).
    rewrite !tm_owed_live by (unfold live; simpl; by rewrite ?Hst). simpl. lia.
  - destruct (settle_effect _ _ _ _ _ _ _ Hrun) as
      (o & caller & task & l1 & r1 & r2 & Ho & Hst & _ & _ & _ & Hr1 & Hr2 & Hm & _).
    assert (live o = true) as Hl by (unfold live; by rewrite Hst).
    pose proof (settle_moves ext now s l id o _ _ _ _ Hext I Ho Hl Hs Hr1 Hr2) as Hmv.
    eapply solvent_reserved; [|exact Hs]. intros a. rewrite (tm_held_advance _ _ _ _ _ a Ho Hm).
    rewrite tm_owed_live, owed_settled by (done || by destruct h).
    destruct (Hmv a) as [_ ->]. unfold at_account. case_decide; lia.
  - destruct (cancel_effect _ _ _ _ _ _ _ Hrun) as (o & Ho & Hst & _ & -> & Hm & _).
    assert (live o = true) as Hl by (unfold live; by destruct Hst as [-> | ->]).
    destruct (inv_order _ _ _ I id o Ho) as (_ & _ & _ & Hb & Hp & Hsum & _).
    destruct (unreserve_spec (customer o) (total_dbc_charged o) l ltac:(lia)) as [_ Hmv].
    eapply (solvent_release ext s s' l _ (customer o) (total_dbc_charged o)); [lia|exact Hmv| |exact Hs].
    intros a. rewrite (tm_held_advance _ _ _ _ _ a Ho Hm), tm_owed_live, owed_settled by done. lia.
Qed.

(** ** Shares of the era's rewards *)

Lemma era_total_nonneg f era now s :
  Inv T now s → (∀ id o, TaskOrders s !! id = Some o → 0 ≤ f o) → 0 ≤ era_total T f era s.
Proof.
  intros I Hf. apply msum_nonneg. intros k o Hk. unfold paid_in. specialize (Hf k o Hk).
  by case_match; [|lia].
Qed.

Lemma payout_nonneg now s id o : Inv T now s → TaskOrders s !! id = Some o → 0 ≤ miner_payout o.
Proof. intros I Ho. by destruct (inv_order _ _ _ I id o Ho) as (_ & _ & _ & _ & ? & _). Qed.

(** An order counts for at most one of distinct miners. *)
Lemma one_miner f ms o :
  NoDup ms → 0 ≤ f o → zsum ((λ m, of_miner m f o) <$> ms) ≤ f o.
Proof.
  intros Hnd Hf.
  enough (zsum ((λ m, of_miner m f o) <$> ms) ≤ if decide (miner o ∈ ms) then f o else 0)
    by (case_decide; lia).
  induction Hnd as [|m ms Hm Hnd IH]; [done|].
  rewrite fmap_cons. cbn [zsum foldr]. fold (zsum ((λ m, of_miner m f o) <$> ms)).
  unfold of_miner at 1. case_bool_decide as Heq.
  - subst m. rewrite decide_False in IH by done. rewrite decide_True by set_solver. lia.
  - destruct (decide (miner o ∈ ms)); [rewrite decide_True by set_solver|rewrite decide_False by set_solver]; lia.
Qed.

Lemma miners_within_era now s era ms :
  Inv T now s → NoDup ms →
  zsum ((λ m, era_total T (of_miner m miner_payout) era s) <$> ms) ≤ era_total T miner_payout era s.
Proof.
  intros I Hnd. unfold era_total. rewrite (msum_zsum (λ m _, paid_in T era (of_miner m miner_payout))).
  apply msum_le. intros k o Hk. unfold paid_in. destruct (_ && _).
  - apply one_miner; [done|by eapply payout_nonneg].
  - clear. induction ms as [|m ms IH]; [done|exact IH].
Qed.

(** A miner's share, scaled back, is within its part of the pool. *)
Lemma share_scaled now s era m R pool rental :
  Inv T now s → 0 ≤ pool → split_era_rewards T R = Some (pool, rental) →
  era_total T miner_payout era s < U128_MAX →
  default 0 (miner_reward_share T s era m R) * era_total T miner_payout era s
    ≤ pool * era_total T (of_miner m miner_payout) era s.
Proof.
  intros I Hpool Hs Hmax. unfold miner_reward_share. rewrite Hs. simpl.
  assert (Hm0 : 0 ≤ era_total T (of_miner m miner_payout) era s).
  { apply (era_total_nonneg _ _ now); [done|]. intros id o Ho. unfold of_miner.
    case_match; [|done]. by eapply payout_nonneg. }
  assert (Hle : era_total T (of_miner m miner_payout) era s ≤ era_total T miner_payout era s).
  { pose proof (miners_within_era now s era [m] I (NoDup_singleton _)) as Hle.
    cbn [fmap list_fmap zsum foldr] in Hle. lia. }
  rewrite (inv_era _ _ _ I), (inv_miner _ _ _ I). unfold era_stats_spec, miner_stats_spec.
  cbn [total_miner_payout fst]. rewrite !Z.min_l by lia.
  destruct (Z.eqb_spec (era_total T miner_payout era s) 0) as [->|Hne]; simpl; [lia|].
  destruct (_ =? 0); simpl; [lia|].
  destruct (checked_mul U128_MAX pool _) as [x|] eqn:Hx; simpl; [|lia]. guard_inv. subst x.
  unfold checked_div. rewrite (proj2 (Z.eqb_neq _ _) Hne). simpl.
  rewrite Z.mul_comm. apply Z.mul_div_le. lia.
Qed.

Lemma split_spec R : 0 ≤ R → ∃ pool rental,
  split_era_rewards T R = Some (pool, rental) ∧ 0 ≤ pool ∧ 0 ≤ rental ∧ pool + rental = R ∧
  pool = per_mul (TaskModeRewardPercentage T) R.
Proof.
  intros HR. pose proof (per_mul_bounds _ R (reward_part T HT) HR) as Hb.
  unfold split_era_rewards, checked_sub. rewrite (proj2 (Z.leb_le _ _)) by lia. simpl.
  eexists _, _. split; [done|]. lia.
Qed.

(** ** The life of an order *)

Inductive stage : TaskOrderStatus → TaskOrderStatus → Prop :=
| stage_same st : stage st st
| stage_complete : stage InProgress Completed
| stage_settle : stage Completed Settled
| stage_cancel : stage InProgress Settled.

Definition advances s s' : Prop :=
  ∀ id o, TaskOrders s !! id = Some o →
    ∃ o', TaskOrders s' !! id = Some o' ∧ same_core o o' ∧ stage (status o) (status o') ∧
      (is_Some (attestation_hash o) → is_Some (attestation_hash o')).

Lemma tm_advances_same s s' : TaskOrders s' = TaskOrders s → advances s s'.
Proof. intros Hm k o Ho. exists o. rewrite Hm. split_and!; [done|done|constructor|done]. Qed.

Lemma tm_advances_insert s s' id o' :
  (∀ o, TaskOrders s !! id = Some o → same_core o o' ∧ stage (status o) (status o') ∧
    (is_Some (attestation_hash o) → is_Some (attestation_hash o'))) →
  TaskOrders s' = <[id := o']> (TaskOrders s) → advances s s'.
Proof.
  intros Hi Hm k o Ho. rewrite Hm, lookup_insert. destruct (decide (id = k)) as [<-|].
  - exists o'. split; [done|]. eauto.
  - exists o. split_and!; [done|done|constructor|done].
Qed.

Lemma tm_dispatch_advances oracle now origin c s l :
  oracle_inv oracle → call_typed c → Inv T now s →
  advances s (dispatch T oracle now origin c (s, l)).2.1.
Proof.
  intros Hor Ht I. apply (transactional_preserves (λ w, advances s w.1)); [by apply tm_advances_same|].
  intros [] [s' l'] Hrun. cbn [fst snd] in *.
  destruct c as [m v pi po mx pc|tid pi po mx a|tid m i q|id h|id h|id]; simpl in Ht; cbn iota in Hrun.
  - unfold create_task_definition in Hrun. run_inv. by apply tm_advances_same.
  - unfold update_task_definition in Hrun. run_inv. by apply tm_advances_same.
  - destruct Ht as [Hi Hq].
    destruct (create_effect _ _ _ _ _ _ _ _ _ _ _ I Hor Hi Hq Hrun) as (c & task & o & price & usd & Hm & _).
    eapply tm_advances_insert; [|exact Hm]. intros x Hx. destruct (inv_order _ _ _ I _ _ Hx). lia.
  - destruct (complete_effect _ _ _ _ _ _ _ Hrun) as (o & Ho & Hst & _ & _ & Hm & _).
    eapply tm_advances_insert; [|exact Hm]. intros x Hx. simplify_eq. rewrite Hst.
    split_and!; [done|constructor|simpl; eauto].
  - destruct (settle_effect _ _ _ _ _ _ _ Hrun) as (o & caller & task & l1 & r1 & r2 & Ho & Hst & _ & _ & _ & _ & _ & Hm & _).
    eapply tm_advances_insert; [|exact Hm]. intros x Hx. simplify_eq. rewrite Hst.
    split_and!; [apply settled_order_core|destruct h; constructor|destruct h; simpl; eauto].
  - destruct (cancel_effect _ _ _ _ _ _ _ Hrun) as (o & Ho & Hst & _ & _ & Hm & _).
    destruct (inv_order _ _ _ I id o Ho) as (_ & _ & _ & _ & _ & _ & _ & _ & Hstage).
    unfold order_stage in Hstage. destruct Hst as [Hst|Hst]; rewrite Hst in Hstage; [done|].
    eapply tm_advances_insert; [|exact Hm]. intros x Hx. simplify_eq. rewrite Hst.
    split_and!; [done|constructor|done].
Qed.

(** C35: in every reachable state, whatever the oracle says, orders are filed
    under fresh ids for existing definitions, their burned part and payout add
    up to the charge, an order is attested exactly from its completion on, and
    the statistics of every era and every miner are the (saturated) sums over
    exactly the orders of that era that were paid. *)
Theorem tm_reachable_invariant c : reachable c → Inv T c.1 c.2.1.
Proof. apply tm_Inv_reachable. Qed.

(** C36: no call promises more than is reserved: the reserved balances keep
    covering every unsettled order on top of what other pallets hold. *)
Theorem tm_steps_solvent ext c c' :
  (∀ a, 0 ≤ ext a) → reachable c → pallet_step c c' → solvent ext c.2 → solvent ext c'.2.
Proof.
  intros Hext I%tm_Inv_reachable Hstep Hs. destruct Hstep as [oracle now w origin c Hor Ht].
  by apply (tm_solvent_dispatch ext oracle now).
Qed.

(** A settlement that succeeds takes exactly the charge out of the
    customer's reserve, gives the burned percentage of it (rounded to the
    nearest unit when the order was made) to the treasury and all the rest to
    the miner, and changes no other balance; it happens only for a completed
    order, at the request of the customer, the miner or the administrator, and
    leaves the order settled and counted once in its era. *)
Theorem tm_settle_pays_exactly ext oracle now origin id h s l s' l' :
  (∀ a, 0 ≤ ext a) → Inv T now s → solvent ext (s, l) →
  dispatch T oracle now origin (SettleTaskOrder id h) (s, l) = (Ok tt, (s', l')) →
  ∃ o caller task, TaskOrders s !! id = Some o ∧ status o = Completed ∧
    origin = Signed caller ∧ TaskDefinitions s !! task_id o = Some task ∧
    (caller = customer o ∨ caller = miner o ∨ caller = admin task) ∧
    dbc_burned o + miner_payout o = total_dbc_charged o ∧
    moves l l' (λ a, at_account (TreasuryAccount T) (dbc_burned o) a
                     + at_account (miner o) (miner_payout o) a)
      (at_account (customer o) (- total_dbc_charged o)) ∧
    TaskOrders s' !! id = Some (settled_order h o) ∧
    let era := block_to_era T (created_at o) in
    era_stats_of s' era = add_era_stats o (era_stats_of s era).
Proof.
  intros Hext I Hs Hrun. apply transactional_Ok in Hrun. cbn iota in Hrun.
  destruct (settle_effect _ _ _ _ _ _ _ Hrun) as
    (o & caller & task & l1 & r1 & r2 & Ho & Hst & Hcl & Htask & Hauth & Hr1 & Hr2 & Hm & _ & He & _).
  exists o, caller, task. split_and!; try done.
  - by destruct (inv_order _ _ _ I id o Ho) as (_ & _ & _ & _ & _ & ? & _).
  - apply (settle_moves ext now s l id o l1 r1 l' r2 Hext I Ho); try done. unfold live. by rewrite Hst.
  - rewrite Hm. apply lookup_insert_eq.
  - cbv zeta. rewrite (era_stats_insert s s' _ _ (block_to_era T (created_at o)) He). by rewrite Z.eqb_refl.
Qed.

(** What an order costs: a successful order reserves the largest amount
    whose worth at the oracle's current price does not exceed the definition's
    price of its tokens (each part per thousand rounded down), within the
    definition's token limit, and records it in progress with the burned
    percentage of the charge. *)
Theorem tm_charge_exact oracle now origin tid m i q s l s' l' :
  Inv T now s → oracle_inv oracle → u64 i → u64 q →
  dispatch T oracle now origin (CreateTaskOrder tid m i q) (s, l) = (Ok tt, (s', l')) →
  ∃ c task o price, origin = Signed c ∧ TaskDefinitions s !! tid = Some task ∧
    is_active task = true ∧ i + q ≤ max_tokens_per_request task ∧
    get_dbc_price oracle = Some price ∧
    let usd := i * input_price_usd_per_1k task / 1000 + q * output_price_usd_per_1k task / 1000 in
    price * total_dbc_charged o ≤ usd * ONE_DBC < price * (total_dbc_charged o + 1) ∧
    dbc_burned o = per_mul (BurnPercentage T) (total_dbc_charged o) ∧
    TaskOrders s' !! NextOrderId s = Some o ∧ status o = InProgress ∧ customer o = c ∧
    miner o = m ∧
    moves l l' (at_account c (- total_dbc_charged o)) (at_account c (total_dbc_charged o)).
Proof.
  intros I Hor Hi Hq Hrun. apply transactional_Ok in Hrun. cbn iota in Hrun.
  destruct (create_effect _ _ _ _ _ _ _ _ _ _ _ I Hor Hi Hq Hrun) as
    (c & task & o & price & usd & Hm & -> & Hd & Hact & Hlim & Hpr & Hpos & -> & Hu & Hworth & Hid & Htid & Hc & Hmi
     & Hcr & Hst & Hh & Hburn & Hb & Hp & Hsum & Hmax & Hr & _).
  exists c, task, o, price. cbv zeta. split_and!; try done; try apply Hworth.
  - rewrite Hm. apply lookup_insert_eq.
  - apply (reserve_spec c (total_dbc_charged o) l l'); [lia|done].
Qed.

(** The life of an order: it is never removed, its parties, tokens,
    price and amounts never change, its attestation is never lost, and its
    status only moves in progress -> completed -> settled, or from in progress
    to settled when it is cancelled. *)
Theorem tm_order_lifecycle c c' : reachable c → step c c' → advances c.2.1 c'.2.1.
Proof.
  intros I%tm_Inv_reachable Hstep. destruct Hstep as [? ? Hstep|now w|now s l l'];
    [|by apply tm_advances_same..].
  destruct Hstep as [oracle now [s l] origin c Hor Ht]. by apply tm_dispatch_advances.
Qed.

(** The shares of the era's rewards stay within the task pool: however
    many distinct miners ask, their shares of one era add up to no more than
    the configured percentage of the era's rewards, and the two pools add up
    to the rewards (as long as the era's payouts have not saturated). *)
Theorem tm_rewards_within_pool c era ms R :
  reachable c → NoDup ms → 0 ≤ R →
  total_miner_payout (era_stats_of c.2.1 era) < U128_MAX →
  ∃ pool rental, split_era_rewards T R = Some (pool, rental) ∧ pool + rental = R ∧
    pool = per_mul (TaskModeRewardPercentage T) R ∧
    zsum ((λ m, default 0 (miner_reward_share T c.2.1 era m R)) <$> ms) ≤ pool.
Proof.
  intros I%tm_Inv_reachable Hnd HR Hmax. destruct c as [now [s l]]. simpl in *.
  rewrite (inv_era _ _ _ I) in Hmax. cbn [era_stats_spec total_miner_payout] in Hmax.
  destruct (split_spec R HR) as (pool & rental & Hs & Hp & _ & Hsum & Hpool).
  exists pool, rental. split_and!; try done.
  set (S := era_total T miner_payout era s) in *.
  assert (0 ≤ S) as HS by (apply (era_total_nonneg _ _ now); [done|]; intros; by eapply payout_nonneg).
  pose proof (miners_within_era now s era ms I Hnd) as Hms. fold S in Hms.
  assert (zsum ((λ m, default 0 (miner_reward_share T s era m R)) <$> ms) * S ≤
    pool * zsum ((λ m, era_total T (of_miner m miner_payout) era s) <$> ms)) as Hscaled.
  { clear Hnd Hms. induction ms as [|m ms IH]; [simpl; lia|].
    pose proof (share_scaled now s era m R pool rental I Hp Hs ltac:(lia)) as Hm. fold S in Hm.
    unfold zsum in *. rewrite !fmap_cons. cbn [foldr]. lia. }
  destruct (decide (S = 0)) as [HS0|]; [|nia].
  assert (∀ m, default 0 (miner_reward_share T s era m R) = 0) as Hz.
  { intros m. unfold miner_reward_share. rewrite Hs. simpl. rewrite (inv_era _ _ _ I). simpl.
    fold S. by rewrite HS0. }
  etrans; [|exact Hp]. apply Z.eq_le_incl. clear -Hz.
  induction ms as [|m ms IH]; [done|]. unfold zsum in *. rewrite fmap_cons. cbn [foldr].
  by rewrite Hz, IH.
Qed.

(** No charge is stuck: an order past its timeout is cancelled by
    whoever asks, and its customer gets the whole charge back from the
    reserve; a completed order is settled at its customer's request whenever
    the currency accepts the two payments. *)
Theorem tm_funds_recoverable ext oracle now id o s l :
  (∀ a, 0 ≤ ext a) → Inv T now s → solvent ext (s, l) → now ≤ U32_MAX →
  TaskOrders s !! id = Some o →
  (status o = InProgress → created_at o + OrderTimeout T < now → ∀ who, ∃ s' l',
     dispatch T oracle now (Signed who) (CancelExpiredOrder id) (s, l) = (Ok tt, (s', l')) ∧
     TaskOrders s' !! id = Some (o <| status := Settled |>) ∧
     moves l l' (at_account (customer o) (total_dbc_charged o))
       (at_account (customer o) (- total_dbc_charged o))) ∧
  (status o = Completed → ∀ l1 r1 l2 r2,
     repatriate_reserved (customer o) (TreasuryAccount T) (dbc_burned o) l = Some (l1, r1) →
     repatriate_reserved (customer o) (miner o) (miner_payout o) l1 = Some (l2, r2) →
     ∃ s', dispatch T oracle now (Signed (customer o)) (SettleTaskOrder id None) (s, l)
           = (Ok tt, (s', l2))).
Proof.
  intros Hext I Hs Hnow Ho. split.
  - intros Hst Hdue who.
    assert (live o = true) as Hl by (unfold live; by rewrite Hst).
    pose proof (order_covered ext now s l id o Hext I Ho Hl Hs) as Hcov.
    destruct (inv_order _ _ _ I id o Ho) as (_ & _ & _ & Hb & Hp & Hsum & _).
    eexists _, _. split_and!.
    + unfold dispatch, transactional, cancel_expired_order, ensure_signed.
      unfold st_gets, gets, ok_or, ensure, checked_add, mbind, M_bind, mret, M_ret. simpl.
      rewrite Ho. simpl. rewrite Hst. simpl. rewrite (proj2 (Z.leb_le _ _)) by lia. simpl.
      rewrite (proj2 (Z.ltb_lt _ _)) by lia. simpl. rewrite m_unreserve_run. simpl. reflexivity.
    + simpl. apply lookup_insert_eq.
    + simpl. destruct (unreserve_spec (customer o) (total_dbc_charged o) l ltac:(lia)) as [_ Hm].
      by rewrite Z.min_l in Hm.
  - intros Hst l1 r1 l2 r2 Hr1 Hr2.
    destruct (inv_order _ _ _ I id o Ho) as (_ & _ & [task Htask] & _).
    eexists. unfold dispatch, transactional, settle_task_order, ensure_signed.
    unfold st_gets, gets, ok_or, ensure, m_repatriate, mbind, M_bind, mret, M_ret. simpl.
    rewrite Ho. simpl. rewrite Hst. simpl. rewrite Htask. simpl.
    rewrite (bool_decide_eq_true_2 (customer o = customer o)) by done. simpl.
    rewrite Hr1. simpl. rewrite Hr2. simpl. reflexivity.
Qed.

(** What the billing trait quotes: one price unit per full thousand
    tokens, for every token count whose sum is in range (it never overflows);
    so the quote grows with the price of DBC, and it is not one DBC per
    thousand tokens. *)
Theorem tm_billing_quote oracle price i q :
  oracle_inv oracle → get_dbc_price oracle = Some price → 0 < price →
  0 ≤ i → 0 ≤ q → i + q ≤ U64_MAX →
  calculate_billing oracle i q = Some ((i + q) / 1000 * price).
Proof.
  intros Hor Hp Hpos Hi Hq Hmax. pose proof (dbc_price_typed _ _ Hor Hp) as Hty.
  unfold calculate_billing. rewrite Hp. simpl. rewrite (proj2 (Z.eqb_neq _ _)) by lia.
  unfold checked_add. rewrite (proj2 (Z.leb_le _ _)) by lia. simpl.
  unfold checked_mul. rewrite (proj2 (Z.leb_le _ _)); [done|].
  assert (0 ≤ (i + q) / 1000 ≤ U64_MAX) by (unfold U64_MAX in *; Z.to_euclidean_division_equations; lia).
  transitivity (U64_MAX * U64_MAX); [nia|done].
Qed.
End theory.

(** ** A run on a concrete ledger and oracle

    Account 8 defines a task at 100 and 50 per thousand tokens, 1 orders a
    thousand input and two thousand output tokens from miner 2, at the average
    price 132 of the oracle's example run; 2 completes and 1 settles. *)
Module Demo.
#[local] Existing Instances percent percent_laws PriceOcw.oracle PriceOcw.oracle_laws.
Definition T : Config := {|
  TreasuryAccount := 90; BurnPercentage := 15; MinerPayoutPercentage := 85;
  TaskModeRewardPercentage := 30; EraDuration := 100; MaxModelIdLen := 64;
  MaxPolicyCidLen := 64; OrderTimeout := 50 |}%N.
Definition price_oracle : PriceOcw.State := PriceOcw.run PriceOcw.Demo.calls.
Lemma tm_oracle_ok : oracle_inv price_oracle.
Proof. exact (PriceOcw.run_Inv _ PriceOcw.Demo.price_calls_typed). Qed.
Definition ledger : Ledger.t :=
  {[1 := (10000000000000000, 0); 2 := (10, 0); 8 := (5, 0); 90 := (7, 0)]}%N.
Abbreviation world := (State * Ledger.t)%type.
Definition act (who : AccountId) (c : Call) (w : world) : world :=
  (dispatch T price_oracle 0 (Signed who) c w).2.
Definition define : Call := CreateTaskDefinition [] [] 100 50 5000 [].
Definition place : Call := CreateTaskOrder 0 2%N 1000 2000.
Definition defined : world := act 8%N define (genesis, ledger).
Definition ordered : world := act 1%N place defined.
Definition completed : world := act 2%N (MarkOrderCompleted 0 7%N) ordered.
Definition settled : world := act 1%N (SettleTaskOrder 0 None) completed.
Lemma act_run who c w :
  (dispatch T price_oracle 0 (Signed who) c w).1 = Ok tt →
  dispatch T price_oracle 0 (Signed who) c w = (Ok tt, act who c w).
Proof. apply run_eta. Qed.
#[local] Strategy 1000 [price_oracle defined ordered completed settled act].

Lemma tm_config_ok : config_ok T.
Proof. split; simpl; lia. Qed.
Lemma define_typed : call_typed define.
Proof. unfold define, call_typed, u128, u64, U128_MAX, U64_MAX. lia. Qed.
Lemma place_typed : call_typed place.
Proof. unfold place, call_typed, u64, U64_MAX. lia. Qed.

Lemma act_step who c w :
  call_typed c → pallet_step T (0, w) (0, act who c w).
Proof. intros Ht. apply (step_call T price_oracle 0 w (Signed who) c); [apply tm_oracle_ok|done]. Qed.
Lemma act_reachable who c w :
  call_typed c → reachable T (0, w) → reachable T (0, act who c w).
Proof.
  intros Ht [l Hr]. exists l. eapply rtc_r; [exact Hr|]. by apply step_pallet, act_step.
Qed.
Lemma act_solvent who c w :
  call_typed c → reachable T (0, w) → solvent (λ _, 0) w → solvent (λ _, 0) (act who c w).
Proof.
  intros Ht Hr. apply (tm_solvent_dispatch T tm_config_ok); [done|apply tm_oracle_ok|done|].
  exact (tm_Inv_reachable T tm_config_ok _ Hr).
Qed.

Lemma defined_reachable : reachable T (0, defined).
Proof. apply act_reachable; [exact define_typed|]. by exists ledger. Qed.
Lemma ordered_reachable : reachable T (0, ordered).
Proof. apply act_reachable; [exact place_typed|exact defined_reachable]. Qed.
Lemma completed_reachable : reachable T (0, completed).
Proof. apply act_reachable; [exact Logic.I|exact ordered_reachable]. Qed.
Lemma settled_reachable : reachable T (0, settled).
Proof. apply act_reachable; [exact Logic.I|exact completed_reachable]. Qed.
Lemma ordered_solvent : solvent (λ _, 0) ordered.
Proof.
  apply act_solvent; [exact place_typed|exact defined_reachable|].
  apply act_solvent; [exact define_typed|by exists ledger|]. intros a. apply Ledger.nonneg.
Qed.
Lemma completed_solvent : solvent (λ _, 0) completed.
Proof. apply act_solvent; [exact Logic.I|exact ordered_reachable|exact ordered_solvent]. Qed.

Lemma tm_reachable_invariant_witness : Inv T 0 settled.1.
Proof. exact (tm_reachable_invariant T tm_config_ok (0, settled) settled_reachable). Defined.

Lemma tm_steps_solvent_witness : solvent (λ _, 0) settled.
Proof.
  refine (tm_steps_solvent T tm_config_ok (λ _, 0) (0, completed) (0, settled) _ completed_reachable
            (act_step 1%N (SettleTaskOrder 0 None) completed Logic.I) completed_solvent).
  intros a. lia.
Defined.

Lemma tm_settle_pays_exactly_witness :
  ∃ o caller task, TaskOrders completed.1 !! 0 = Some o ∧ Signed 1%N = Signed caller ∧
    TaskDefinitions completed.1 !! task_id o = Some task ∧
    total_dbc_charged o = 1515151515151515 ∧ dbc_burned o = 227272727272727 ∧
    moves completed.2 settled.2
      (λ a, at_account 90%N (dbc_burned o) a + at_account (miner o) (miner_payout o) a)
      (at_account (customer o) (- total_dbc_charged o)).
Proof.
  assert (dispatch T price_oracle 0 (Signed 1%N) (SettleTaskOrder 0 None) completed = (Ok tt, settled))
    as Hrun by (unfold settled; apply act_run; vm_compute; reflexivity).
  destruct (tm_settle_pays_exactly T (λ _, 0) price_oracle 0 (Signed 1%N) 0 None completed.1 completed.2
              settled.1 settled.2) as (o & caller & task & Ho & _ & Hc & Ht & _ & _ & Hm & _).
  - intros a. lia.
  - exact (tm_Inv_reachable T tm_config_ok _ completed_reachable).
  - rewrite <-surjective_pairing. exact completed_solvent.
  - rewrite <-!surjective_pairing. exact Hrun.
  - exists o, caller, task. split; [exact Ho|]. split; [exact Hc|]. split; [exact Ht|].
    split; [|split; [|exact Hm]]; vm_compute in Ho; injection Ho as <-; reflexivity.
Defined.

Lemma tm_charge_exact_witness :
  ∃ o, TaskOrders ordered.1 !! 0 = Some o ∧ total_dbc_charged o = 1515151515151515 ∧
    132 * total_dbc_charged o ≤ 200 * ONE_DBC < 132 * (total_dbc_charged o + 1).
Proof.
  assert (dispatch T price_oracle 0 (Signed 1%N) place defined = (Ok tt, ordered))
    as Hrun by (unfold ordered; apply act_run; vm_compute; reflexivity).
  destruct (tm_charge_exact T tm_config_ok price_oracle 0 (Signed 1%N) 0 2%N 1000 2000 defined.1 defined.2
              ordered.1 ordered.2) as (c & task & o & price & _ & Ht & _ & _ & Hp & Hx).
  - exact (tm_Inv_reachable T tm_config_ok _ defined_reachable).
  - exact tm_oracle_ok.
  - unfold u64, U64_MAX. lia.
  - unfold u64, U64_MAX. lia.
  - rewrite <-!surjective_pairing. exact Hrun.
  - destruct Hx as (Hworth & _ & Ho & _). exists o.
    assert (price = 132) as -> by (vm_compute in Hp; congruence).
    vm_compute in Ht. injection Ht as <-. cbn [input_price_usd_per_1k output_price_usd_per_1k] in Hworth.
    split; [exact Ho|]. split; [|exact Hworth]. vm_compute in Ho. injection Ho as <-. reflexivity.
Defined.

Lemma tm_order_lifecycle_witness : advances completed.1 settled.1.
Proof.
  exact (tm_order_lifecycle T tm_config_ok (0, completed) (0, settled) completed_reachable
           (step_pallet T _ _ (act_step 1%N (SettleTaskOrder 0 None) completed Logic.I))).
Defined.

Lemma tm_rewards_within_pool_witness :
  ∃ pool rental, split_era_rewards T 1000 = Some (pool, rental) ∧ pool = 300 ∧
    zsum ((λ m, default 0 (miner_reward_share T settled.1 0 m 1000)) <$> [2; 3]%N) ≤ pool.
Proof.
  destruct (tm_rewards_within_pool T tm_config_ok (0, settled) 0 [2; 3]%N 1000) as (pool & rental & Hs & _ & Hp & Hz).
  - exact settled_reachable.
  - apply (bool_decide_eq_true_1 (NoDup [2; 3]%N)). vm_compute. reflexivity.
  - lia.
  - vm_compute. reflexivity.
  - exists pool, rental. split; [exact Hs|]. split; [|exact Hz]. rewrite Hp. vm_compute. reflexivity.
Defined.

Lemma tm_funds_recoverable_witness :
  ∃ o, TaskOrders ordered.1 !! 0 = Some o ∧ ∀ who, ∃ s' l',
    dispatch T price_oracle 51 (Signed who) (CancelExpiredOrder 0) ordered = (Ok tt, (s', l')).
Proof.
  destruct (TaskOrders ordered.1 !! 0) as [o|] eqn:Ho; [|vm_compute in Ho; discriminate Ho].
  exists o. split; [reflexivity|].
  destruct (tm_funds_recoverable T (λ _, 0) price_oracle 51 0 o ordered.1 ordered.2) as [Hc _].
  - intros a. lia.
  - apply (tm_Inv_later T 0); [lia|]. exact (tm_Inv_reachable T tm_config_ok _ ordered_reachable).
  - rewrite <-surjective_pairing. exact ordered_solvent.
  - unfold U32_MAX. lia.
  - exact Ho.
  - rewrite <-surjective_pairing in Hc. vm_compute in Ho. injection Ho as <-.
    intros who. destruct (Hc eq_refl ltac:(vm_compute; reflexivity) who) as (s' & l' & Hr & _).
    exists s', l'. exact Hr.
Defined.

Lemma tm_billing_quote_witness :
  calculate_billing price_oracle 1000 2000 = Some 396 ∧ 396 ≠ 3 * ONE_DBC.
Proof.
  split; [|vm_compute; discriminate].
  refine (tm_billing_quote price_oracle 132 1000 2000 tm_oracle_ok _ _ _ _ _);
    [vm_compute; reflexivity|lia..|unfold U64_MAX; lia].
Defined.
End Demo.
End TaskMode.
