(* ===== verification/ZkCompute.v ===== *)
(** * pallet-zk-compute

    A miner submits a proof of a matrix multiplication with a deposit; it is
    verified by anyone on chain ([verify_task]), or by the result an off-chain
    worker submits unsigned ([submit_verification_unsigned]); a verified proof
    earns a reward in proportion to the multiplication's volume and its deposit
    back, a failed one loses the deposit to the pallet. Models
    src/pallets/zk-compute/src/lib.rs and the runtime's verifier,
    HashCommitmentZkVerifier of src/runtime/src/lib.rs. *)
From stdpp Require Import base gmap fin_maps list numbers relations.
From Stdlib Require Import ZArith Lia Strings.Byte.
From S2P Require Import Prelude Currency Interfaces.

Module ZkCompute.

Inductive ZkVerificationStatus := Pending | Verified | Failed.
#[export] Instance ZkVerificationStatus_eq_dec : EqDecision ZkVerificationStatus.
Proof. solve_decision. Defined.

Abbreviation Dimensions := (Z * Z * Z)%type.

Record ZkTask := {
  task_id : Z;
  miner : AccountId;
  proof : bytes;
  dimensions : Dimensions;
  status : ZkVerificationStatus;
  base_reward : Balance;
  multiplier_q100 : Z;
  submitted_at : BlockNumber;
  submission_deposit : Balance;
  reward_claimed : bool;
}.
#[export] Instance ZkTask_eta : RecordEta ZkTask := λ t,
  Build_ZkTask (task_id t) (miner t) (proof t) (dimensions t) (status t) (base_reward t)
    (multiplier_q100 t) (submitted_at t) (submission_deposit t) (reward_claimed t).

(** The runtime's constants and its verifier; [PalletAccount] is the account
    derived from the pallet's id. *)
Record Config := {
  MaxProofSize : Z;
  MaxPendingTasks : Z;
  MaxVerifiedTasks : Z;
  MaxPendingPerMiner : Z;
  BaseReward : Balance;
  SubmissionDeposit : Balance;
  VerificationTimeout : BlockNumber;
  InitialMinerScore : Z;
  MinMinerScoreToSubmit : Z;
  MaxMinerScore : Z;
  ScoreOnSuccess : Z;
  ScorePenaltyOnFailure : Z;
  PalletAccount : AccountId;
  ZkVerifier : bytes → Dimensions → bool;
}.

Inductive Event :=
| ProofSubmitted (task_id : Z) (miner : AccountId) (nonce : Z) (dimensions : Dimensions)
| ProofVerifiedByOcw (task_id : Z) (verified : bool)
| ProofVerified (task_id : Z) (verifier : AccountId) (status : ZkVerificationStatus)
| RewardClaimed (task_id : Z) (miner : AccountId) (reward : Balance)
| MinerScoreUpdated (miner : AccountId) (score : Z)
| DepositSlashed (task_id : Z) (miner : AccountId) (amount : Balance).

Inductive Error :=
| TaskNotFound
| TaskIdOverflow
| ProofTooLarge
| InvalidDimensions
| InvalidMultiplier
| InvalidTaskStatus
| RewardAlreadyClaimed
| TaskNotVerified
| NotTaskMiner
| ArithmeticOverflow
| NonceAlreadyUsed
| TooManyPendingTasks
| TooManyVerifiedTasks
| TooManyPendingTasksForMiner
| InsufficientMinerScore
| BalanceTransferFailed.

Record State := {
  NextTaskId : Z;
  Tasks : gmap Z ZkTask;
  PendingTasks : list Z;
  VerifiedTasks : list Z;
  MinerScores : gmap AccountId Z;
  UsedNonces : gmap (AccountId * Z) bool;
  MinerPendingCount : gmap AccountId Z;
  events : list Event;
}.
#[export] Instance State_eta : RecordEta State := λ s,
  Build_State (NextTaskId s) (Tasks s) (PendingTasks s) (VerifiedTasks s) (MinerScores s)
    (UsedNonces s) (MinerPendingCount s) (events s).

Definition genesis : State := {|
  NextTaskId := 0; Tasks := ∅; PendingTasks := []; VerifiedTasks := []; MinerScores := ∅;
  UsedNonces := ∅; MinerPendingCount := ∅; events := [] |}.

Definition deposit_event (e : Event) (s : State) : State :=
  s <| events ::= λ es, es ++ [e] |>.

Definition used_nonce (s : State) (m : AccountId) (nonce : Z) : bool :=
  default false (UsedNonces s !! (m, nonce)).
Definition miner_pending_count (s : State) (m : AccountId) : Z :=
  default 0 (MinerPendingCount s !! m).

(** ** The queue of pending tasks *)

(** [Vec::swap_remove]: the last element takes the removed one's place. *)
Definition swap_remove {A} (index : nat) (l : list A) : list A :=
  match last l with
  | Some x => take (length l - 1) (<[index := x]> l)
  | None => l
  end.

Definition remove_id (id : Z) (queue : list Z) : list Z :=
  match list_find (λ x, x = id) queue with
  | Some (index, _) => swap_remove index queue
  | None => queue
  end.

Definition remove_from_pending (id : Z) (s : State) : State :=
  s <| PendingTasks ::= remove_id id |>.

(** ** Volumes and rewards *)

Definition volume (d : Dimensions) : option Z :=
  let '(m, n, k) := d in
  v ← checked_mul U128_MAX m n; checked_mul U128_MAX v k.

Definition valid_dimensions (d : Dimensions) : bool :=
  let '(m, n, k) := d in
  if (m =? 0) || (n =? 0) || (k =? 0) then false
  else match volume (m, n, k) with Some _ => true | None => false end.

Definition calculate_reward (task : ZkTask) : option Balance :=
  volume ← volume (dimensions task);
  let base_reward_u128 := saturated_into U128_MAX (base_reward task) in
  product ← checked_mul U128_MAX base_reward_u128 volume;
  numerator ← checked_mul U128_MAX product (multiplier_q100 task);
  reward_u128 ← checked_div numerator 100000000;
  Some (saturated_into U128_MAX reward_u128).

Section pallet.
Context `{ReservableCurrency L} (T : Config).
Abbreviation MZ := (M (State * L) (DispatchError Error)).

(** ** Scores *)

Definition current_miner_score (s : State) (m : AccountId) : Z :=
  default (InitialMinerScore T) (MinerScores s !! m).

Definition increase_score (m : AccountId) (s : State) : State :=
  let score := Z.min (saturating_add U32_MAX (current_miner_score s m) (ScoreOnSuccess T))
                 (MaxMinerScore T) in
  deposit_event (MinerScoreUpdated m score) (s <| MinerScores ::= <[m := score]> |>).

Definition decrease_score (m : AccountId) (s : State) : State :=
  let score := saturating_sub (current_miner_score s m) (ScorePenaltyOnFailure T) in
  deposit_event (MinerScoreUpdated m score) (s <| MinerScores ::= <[m := score]> |>).

(** ** Dispatchables *)

Definition submit_proof (now : BlockNumber) (origin : Origin) (proof : bytes) (dims : Dimensions)
    (multiplier nonce : Z) : MZ unit :=
  miner ← ensure_signed origin;
  ensure (valid_dimensions dims) (Module InvalidDimensions);;
  ensure ((120 <=? multiplier) && (multiplier <=? 150)) (Module InvalidMultiplier);;
  used ← st_gets (λ s, used_nonce s miner nonce);
  ensure (negb used) (Module NonceAlreadyUsed);;
  score ← st_gets (λ s, current_miner_score s miner);
  ensure (MinMinerScoreToSubmit T <=? score) (Module InsufficientMinerScore);;
  pending_count ← st_gets (λ s, miner_pending_count s miner);
  ensure (pending_count <? MaxPendingPerMiner T) (Module TooManyPendingTasksForMiner);;
  ensure (Z.of_nat (length proof) <=? MaxProofSize T) (Module ProofTooLarge);;
  m_reserve miner (SubmissionDeposit T) CurrencyError;;
  id ← st_gets NextTaskId;
  next_task_id ← ok_or (checked_add U64_MAX id 1) (Module TaskIdOverflow);
  queue ← st_gets PendingTasks;
  ensure (Z.of_nat (length queue) <? MaxPendingTasks T) (Module TooManyPendingTasks);;
  st_modify (λ s, s <| PendingTasks := queue ++ [id] |>);;
  st_modify (λ s, s <| Tasks ::= <[id := {|
    task_id := id; miner := miner; proof := proof; dimensions := dims; status := Pending;
    base_reward := BaseReward T; multiplier_q100 := multiplier; submitted_at := now;
    submission_deposit := SubmissionDeposit T; reward_claimed := false |}]> |>);;
  st_modify (λ s, s <| NextTaskId := next_task_id |>);;
  st_modify (λ s, s <| UsedNonces ::= <[(miner, nonce) := true]> |>);;
  st_modify (λ s, s <| MinerPendingCount ::=
    <[miner := saturating_add U32_MAX pending_count 1]> |>);;
  st_modify (deposit_event (ProofSubmitted id miner nonce dims)).

Definition verdict (verified : bool) : ZkVerificationStatus :=
  if verified then Verified else Failed.

(** The part both ways of verifying share: record the verdict, take the task
    off the queue and off its miner's count. *)
Definition conclude (id : Z) (task : ZkTask) (verified : bool) : MZ unit :=
  st_modify (λ s, s <| Tasks ::= <[id := task <| status := verdict verified |>]> |>);;
  st_modify (remove_from_pending id);;
  miner_pending ← st_gets (λ s, miner_pending_count s (miner task));
  st_modify (λ s, s <| MinerPendingCount ::=
    <[miner task := saturating_sub miner_pending 1]> |>).

Definition try_push_verified (id : Z) (e : DispatchError Error) : MZ unit :=
  history ← st_gets VerifiedTasks;
  ensure (Z.of_nat (length history) <? MaxVerifiedTasks T) e;;
  st_modify (λ s, s <| VerifiedTasks := history ++ [id] |>).

Definition verify_task (now : BlockNumber) (origin : Origin) (id : Z) : MZ unit :=
  verifier ← ensure_signed origin;
  maybe_task ← st_gets (λ s, Tasks s !! id);
  task ← ok_or maybe_task (Module TaskNotFound);
  ensure (bool_decide (status task = Pending)) (Module InvalidTaskStatus);;
  deadline ← ok_or (checked_add U32_MAX (submitted_at task) (VerificationTimeout T))
    (Module ArithmeticOverflow);
  let timed_out := deadline <? now in
  let verified := if timed_out then false else ZkVerifier T (proof task) (dimensions task) in
  conclude id task verified;;
  (if verified then
     try_push_verified id (Module TooManyVerifiedTasks);;
     st_modify (increase_score (miner task))
   else
     st_modify (decrease_score (miner task));;
     moved ← m_repatriate (miner task) (PalletAccount T) (submission_deposit task) CurrencyError;
     let slashed := saturating_sub (submission_deposit task) moved in
     if slashed =? 0 then mret tt
     else st_modify (deposit_event (DepositSlashed id (miner task) slashed)));;
  st_modify (deposit_event (ProofVerified id verifier (verdict verified))).

Definition claim_reward (origin : Origin) (id : Z) : MZ unit :=
  who ← ensure_signed origin;
  maybe_task ← st_gets (λ s, Tasks s !! id);
  task ← ok_or maybe_task (Module TaskNotFound);
  ensure (bool_decide (miner task = who)) (Module NotTaskMiner);;
  ensure (bool_decide (status task = Verified)) (Module TaskNotVerified);;
  ensure (negb (reward_claimed task)) (Module RewardAlreadyClaimed);;
  reward ← ok_or (calculate_reward task) (Module ArithmeticOverflow);
  m_transfer (PalletAccount T) (miner task) reward AllowDeath (Module BalanceTransferFailed);;
  m_unreserve (miner task) (submission_deposit task);;
  st_modify (λ s, s <| Tasks ::= <[id := task <| reward_claimed := true |>]> |>);;
  st_modify (deposit_event (RewardClaimed id who reward)).

Definition submit_verification_unsigned (origin : Origin) (id : Z) (verified : bool) : MZ unit :=
  ensure_none origin;;
  maybe_task ← st_gets (λ s, Tasks s !! id);
  task ← ok_or maybe_task (Module TaskNotFound);
  ensure (bool_decide (status task = Pending)) (Module InvalidTaskStatus);;
  conclude id task verified;;
  (if verified then
     ignore (try_push_verified id (Module TooManyVerifiedTasks));;
     st_modify (increase_score (miner task))
   else
     st_modify (decrease_score (miner task));;
     ignore (m_repatriate (E := DispatchError Error) (miner task) (PalletAccount T)
       (submission_deposit task) CurrencyError));;
  st_modify (deposit_event (ProofVerifiedByOcw id verified)).

(** ** Unsigned submissions *)

Inductive Call :=
| SubmitProof (proof : bytes) (dims : Dimensions) (multiplier nonce : Z)
| VerifyTask (id : Z)
| ClaimReward (id : Z)
| SubmitVerificationUnsigned (id : Z) (verified : bool).

(** What the pool answers: the priority and longevity, or why it refuses. *)
Inductive Validity :=
| ValidTransaction (priority longevity provides : Z)
| BadProof
| Stale
| InvalidCall.

Definition UNSIGNED_TXS_PRIORITY : Z := 100.

Definition validate_unsigned (s : State) (c : Call) : Validity :=
  match c with
  | SubmitVerificationUnsigned id _ =>
      match Tasks s !! id with
      | None => BadProof
      | Some task => if bool_decide (status task = Pending)
                     then ValidTransaction UNSIGNED_TXS_PRIORITY 5 id else Stale
      end
  | _ => InvalidCall
  end.

(** What the off-chain worker submits: the verdict on each queued task. *)
Definition ocw_verify_pending_tasks (s : State) : list Call :=
  omap (λ id,
    task ← Tasks s !! id;
    if bool_decide (status task = Pending)
    then Some (SubmitVerificationUnsigned id (ZkVerifier T (proof task) (dimensions task)))
    else None) (PendingTasks s).

(** ** The pallet as a state machine *)

Definition call_typed (c : Call) : Prop :=
  match c with
  | SubmitProof _ (m, n, k) x nonce =>
      0 ≤ m ≤ U32_MAX ∧ 0 ≤ n ≤ U32_MAX ∧ 0 ≤ k ≤ U32_MAX ∧ 0 ≤ x ≤ U32_MAX ∧ 0 ≤ nonce ≤ U64_MAX
  | _ => True
  end.

Definition dispatch (now : BlockNumber) (o : Origin) (c : Call) : MZ unit :=
  transactional
    match c with
    | SubmitProof p d x n => submit_proof now o p d x n
    | VerifyTask id => verify_task now o id
    | ClaimReward id => claim_reward o id
    | SubmitVerificationUnsigned id v => submit_verification_unsigned o id v
    end.
End pallet.

(** ** The queue removal implements removal from a set *)

Lemma swap_remove_Permutation {A} (i : nat) (l : list A) y :
  l !! i = Some y → y :: swap_remove i l ≡ₚ l.
Proof.
  intros Hi. destruct l as [|x l' _] using rev_ind; [done|].
  unfold swap_remove. rewrite last_snoc, length_app. simpl length.
  replace (length l' + 1 - 1)%nat with (length l') by lia.
  pose proof (lookup_lt_Some _ _ _ Hi) as Hlt. rewrite length_app in Hlt. simpl in Hlt.
  destruct (decide (i = length l')) as [->|Hne].
  - rewrite lookup_app_r, Nat.sub_diag in Hi by done. simplify_eq/=.
    rewrite list_insert_id by (by rewrite lookup_app_r, Nat.sub_diag).
    rewrite take_app_length. apply Permutation_cons_append.
  - rewrite lookup_app_l in Hi by lia. rewrite insert_app_l by lia.
    rewrite take_app_le, take_ge by (rewrite length_insert; lia).
    rewrite insert_take_drop by lia.
    transitivity ((take i l' ++ y :: drop (S i) l') ++ [x]); [|by rewrite take_drop_middle].
    generalize (take i l'), (drop (S i) l'). intros a b.
    rewrite (Permutation_app_comm (a ++ y :: b) [x]). simpl.
    rewrite <-(Permutation_middle a b x), <-(Permutation_middle a b y). constructor.
Qed.

Lemma remove_id_Permutation id q : NoDup q → remove_id id q ≡ₚ filter (λ x, x ≠ id) q.
Proof.
  intros Hnd. unfold remove_id. destruct (list_find _ q) as [[i x]|] eqn:Hf.
  - apply list_find_Some in Hf as (Hi & -> & _).
    pose proof (swap_remove_Permutation i q id Hi) as Hp.
    apply (Permutation_cons_inv (a := id)). rewrite Hp.
    rewrite <-Hp in Hnd |- *. apply NoDup_cons in Hnd as [Hni _]. rewrite filter_cons_False by naive_solver.
    rewrite filter_all; [done|]. intros y Hy ->. done.
  - apply list_find_None in Hf. rewrite filter_all; [done|].
    by apply list.Forall_forall.
Qed.

Lemma remove_id_spec id q :
  NoDup q → NoDup (remove_id id q) ∧ (∀ x, x ∈ remove_id id q ↔ x ∈ q ∧ x ≠ id) ∧
  (length (remove_id id q) ≤ length q)%nat.
Proof.
  intros Hnd. pose proof (remove_id_Permutation id q Hnd) as Hp. split_and!.
  - rewrite Hp. by apply NoDup_filter.
  - intros x. rewrite Hp, list_elem_of_filter. naive_solver.
  - rewrite (Permutation_length Hp). apply length_filter.
Qed.

(** ** Dimensions never overflow *)

Lemma volume_exact m n k :
  0 ≤ m ≤ U32_MAX → 0 ≤ n ≤ U32_MAX → 0 ≤ k ≤ U32_MAX → volume (m, n, k) = Some (m * n * k).
Proof.
  intros Hm Hn Hk. unfold volume, checked_mul.
  assert (0 ≤ m * n ≤ U32_MAX * U32_MAX) by nia.
  rewrite (proj2 (Z.leb_le (m * n) _)) by (unfold U32_MAX, U128_MAX in *; lia). simpl.
  rewrite (proj2 (Z.leb_le _ _)); [done|].
  transitivity (U32_MAX * U32_MAX * U32_MAX); [nia|done].
Qed.

Definition dims_ok (d : Dimensions) : Prop :=
  1 ≤ d.1.1 ≤ U32_MAX ∧ 1 ≤ d.1.2 ≤ U32_MAX ∧ 1 ≤ d.2 ≤ U32_MAX.
Definition vol (d : Dimensions) : Z := d.1.1 * d.1.2 * d.2.

Lemma valid_dimensions_ok m n k :
  0 ≤ m ≤ U32_MAX → 0 ≤ n ≤ U32_MAX → 0 ≤ k ≤ U32_MAX →
  valid_dimensions (m, n, k) = true → dims_ok (m, n, k).
Proof.
  intros Hm Hn Hk. unfold valid_dimensions.
  destruct (Z.eqb_spec m 0), (Z.eqb_spec n 0), (Z.eqb_spec k 0); simpl; try done.
  intros _. unfold dims_ok. simpl. lia.
Qed.

(** ** The invariant *)

Definition counts (m : AccountId) (t : ZkTask) : Z :=
  if bool_decide (status t = Pending) && bool_decide (miner t = m) then 1 else 0.
Definition count_pending (m : AccountId) (s : State) : Z := msum (λ _, counts m) (Tasks s).

Definition deposited (t : ZkTask) : bool :=
  match status t with
  | Pending => true
  | Verified => negb (reward_claimed t)
  | Failed => false
  end.
Definition owed (a : AccountId) (t : ZkTask) : Z :=
  if deposited t && bool_decide (miner t = a) then submission_deposit t else 0.
#[export] Instance custodian : Custodian State := λ s a, msum (λ _, owed a) (Tasks s).

Record config_ok (T : Config) : Prop := {
  ok_pending : 0 ≤ MaxPendingTasks T;
  ok_verified : 0 ≤ MaxVerifiedTasks T;
  ok_per_miner : 0 ≤ MaxPendingPerMiner T ≤ U32_MAX;
  ok_deposit : 0 ≤ SubmissionDeposit T;
  ok_base : 0 ≤ BaseReward T ≤ U128_MAX;
  ok_score : 0 ≤ InitialMinerScore T ≤ MaxMinerScore T;
  ok_success : 0 ≤ ScoreOnSuccess T;
  ok_penalty : 0 ≤ ScorePenaltyOnFailure T;
}.

Definition task_ok (T : Config) (now : BlockNumber) (s : State) (id : Z) (t : ZkTask) : Prop :=
  0 ≤ id < NextTaskId s ∧ task_id t = id ∧ submission_deposit t = SubmissionDeposit T ∧
  base_reward t = BaseReward T ∧ 120 ≤ multiplier_q100 t ≤ 150 ∧ dims_ok (dimensions t) ∧
  submitted_at t ≤ now ∧ (reward_claimed t = true → status t = Verified).

Record Inv (T : Config) (now : BlockNumber) (s : State) : Prop := {
  inv_next : 0 ≤ NextTaskId s;
  inv_task id t : Tasks s !! id = Some t → task_ok T now s id t;
  inv_pending id : id ∈ PendingTasks s ↔ ∃ t, Tasks s !! id = Some t ∧ status t = Pending;
  inv_pending_nodup : NoDup (PendingTasks s);
  inv_pending_bound : Z.of_nat (length (PendingTasks s)) ≤ MaxPendingTasks T;
  inv_count m : miner_pending_count s m = count_pending m s;
  inv_count_bound m : count_pending m s ≤ MaxPendingPerMiner T;
  inv_verified id : id ∈ VerifiedTasks s → ∃ t, Tasks s !! id = Some t ∧ status t = Verified;
  inv_verified_nodup : NoDup (VerifiedTasks s);
  inv_verified_bound : Z.of_nat (length (VerifiedTasks s)) ≤ MaxVerifiedTasks T;
  inv_score m v : MinerScores s !! m = Some v → 0 ≤ v ≤ MaxMinerScore T;
}.

Section theory.
Context `{ReservableCurrencyLaws L} (T : Config) (HT : config_ok T).
Implicit Types (s : State) (l : L) (t : ZkTask).

Lemma zk_Inv_genesis now : Inv T now genesis.
Proof.
  destruct HT. split; simpl; try done; try lia.
  - intros id. split; [by intros ?%not_elem_of_nil|naive_solver].
  - constructor.
  - intros m. unfold count_pending. simpl. rewrite msum_empty. lia.
  - intros id ?%not_elem_of_nil. done.
  - constructor.
Qed.

Lemma zk_Inv_later now now' s : now ≤ now' → Inv T now s → Inv T now' s.
Proof.
  intros Hle [I0 I1 I2 I3 I4 I5 I6 I7 I8 I9 I10]. split; try done.
  intros id t Ht. destruct (I1 id t Ht) as (? & ? & ? & ? & ? & ? & ? & ?).
  unfold task_ok. solve_facts.
Qed.

(** *** A verdict on a pending task *)

(** What changes, whichever way the verdict [v] on task [id] came. *)
Record concluded (id : Z) t (v : bool) s s' : Prop := {
  con_tasks : Tasks s' = <[id := t <| status := verdict v |>]> (Tasks s);
  con_pending : PendingTasks s' = remove_id id (PendingTasks s);
  con_count : MinerPendingCount s' =
    <[miner t := saturating_sub (miner_pending_count s (miner t)) 1]> (MinerPendingCount s);
  con_verified : VerifiedTasks s' = VerifiedTasks s ∨
    (v = true ∧ Z.of_nat (length (VerifiedTasks s)) < MaxVerifiedTasks T ∧
     VerifiedTasks s' = VerifiedTasks s ++ [id]);
  con_score : MinerScores s' = <[miner t :=
    if v then Z.min (saturating_add U32_MAX (current_miner_score T s (miner t)) (ScoreOnSuccess T))
                (MaxMinerScore T)
    else saturating_sub (current_miner_score T s (miner t)) (ScorePenaltyOnFailure T)]> (MinerScores s);
  con_next : NextTaskId s' = NextTaskId s;
  con_nonces : UsedNonces s' = UsedNonces s;
}.

Lemma score_range now s m : Inv T now s → 0 ≤ current_miner_score T s m ≤ MaxMinerScore T.
Proof.
  intros I. unfold current_miner_score. destruct (MinerScores s !! m) as [v|] eqn:Hm; simpl.
  - by apply (inv_score _ _ _ I m).
  - apply (ok_score T HT).
Qed.

Lemma counts_update m id t t' s s' :
  Tasks s !! id = Some t → Tasks s' = <[id := t']> (Tasks s) →
  count_pending m s' = count_pending m s - counts m t + counts m t'.
Proof. intros Ht Hm. unfold count_pending. by rewrite Hm, (msum_insert_Some _ _ _ _ _ Ht). Qed.

Lemma counts_range m t : 0 ≤ counts m t ≤ 1.
Proof. unfold counts. case_match; lia. Qed.

Lemma count_lookup m id t s : Tasks s !! id = Some t → counts m t ≤ count_pending m s.
Proof.
  intros Ht. apply (msum_lookup_le (λ _, counts m) _ id t); [|done]. intros. apply counts_range.
Qed.

Lemma Inv_concluded now id t v s s' :
  Inv T now s → Tasks s !! id = Some t → status t = Pending → concluded id t v s s' →
  Inv T now s'.
Proof.
  intros I Ht Hst C. pose proof I as [I0 I1 I2 I3 I4 I5 I6 I7 I8 I9 I10].
  destruct C as [Ct Cp Cc Cv Cs Cn _].
  set (t' := t <| status := verdict v |>) in *.
  destruct (remove_id_spec id (PendingTasks s) I3) as (Hnd & Hel & Hlen).
  assert (Hpend : counts (miner t) t = 1).
  { unfold counts. rewrite Hst. by rewrite (bool_decide_eq_true_2 (miner t = miner t)). }
  assert (Hne : status t' ≠ Pending) by (unfold t'; simpl; by destruct v).
  assert (Hdone : ∀ m, counts m t' = 0) by (intros; unfold counts; by rewrite bool_decide_eq_false_2).
  pose proof (λ m, counts_update m id t t' s s' Ht Ct) as Hcnt.
  assert (Hni : id ∉ VerifiedTasks s).
  { intros Hin. destruct (I7 id Hin) as (x & Hx & Hxs). simplify_eq. by rewrite Hst in Hxs. }
  split; rewrite ?Cn, ?Cp; try done.
  - intros k x. rewrite Ct. intros [[<- <-]|[? Hk]]%lookup_insert_Some.
    + destruct (I1 id t Ht) as (? & ? & ? & ? & ? & ? & ? & Hc). unfold task_ok. rewrite Cn.
      unfold t'; simpl. split_and!; try done; try lia.
      intros Hcl. specialize (Hc Hcl). by rewrite Hst in Hc.
    + destruct (I1 k x Hk). unfold task_ok. by rewrite Cn.
  - intros k. rewrite Hel, I2, Ct. split.
    + intros [(x & Hx & Hxs) Hk]. exists x. by rewrite lookup_insert_ne.
    + intros (x & [[<- <-]|[? Hx]]%lookup_insert_Some & Hxs); [done|]. naive_solver.
  - lia.
  - intros m. unfold miner_pending_count. rewrite Cc, Hcnt, Hdone, lookup_insert.
    case_decide as Hm; simpl.
    + subst m. rewrite I5, Hpend. pose proof (count_lookup (miner t) id t s Ht).
      unfold saturating_sub. lia.
    + fold (miner_pending_count s m). rewrite I5. unfold counts. rewrite (bool_decide_eq_false_2 (miner t = m)) by done.
      rewrite andb_false_r. lia.
  - intros m. rewrite Hcnt, Hdone. specialize (I6 m). pose proof (counts_range m t). lia.
  - intros k Hk. rewrite Ct. destruct (decide (k = id)) as [->|Hki].
    + destruct Cv as [Cv|(-> & _ & Cv)]; rewrite Cv in Hk; [done|].
      exists t'. by rewrite lookup_insert_eq.
    + rewrite lookup_insert_ne by done. apply I7.
      destruct Cv as [Cv|(-> & _ & Cv)]; rewrite Cv in Hk; set_solver.
  - destruct Cv as [->|(-> & _ & ->)]; [done|]. apply NoDup_app. split_and!; [done| |apply NoDup_singleton].
    intros x Hx ->%list_elem_of_singleton. done.
  - destruct Cv as [->|(-> & ? & ->)]; [done|]. rewrite length_app. simpl. lia.
  - intros m sc. rewrite Cs. intros [[<- <-]|[? Hm]]%lookup_insert_Some; [|by apply (I10 m)].
    pose proof (score_range now s (miner t) I). pose proof (ok_success T HT). pose proof (ok_penalty T HT).
    assert (0 < U32_MAX) by done.
    destruct v; unfold saturating_add, saturating_sub; lia.
Qed.

(** *** What each call does when it succeeds *)

Lemma verify_effect now o id s l s' l' :
  verify_task T now o id (s, l) = (Ok tt, (s', l')) →
  ∃ t verifier v, Tasks s !! id = Some t ∧ status t = Pending ∧ o = Signed verifier ∧
    submitted_at t + VerificationTimeout T ≤ U32_MAX ∧
    v = (if submitted_at t + VerificationTimeout T <? now then false
         else ZkVerifier T (proof t) (dimensions t)) ∧
    concluded id t v s s' ∧
    if v then l' = l ∧ VerifiedTasks s' = VerifiedTasks s ++ [id]
    else ∃ r, repatriate_reserved (miner t) (PalletAccount T) (submission_deposit t) l = Some (l', r).
Proof.
  intros Hrun. unfold verify_task, conclude, try_push_verified in Hrun. run_inv.
  subst. match goal with Ht : Tasks s !! id = Some ?t, Hr : (if ?v then _ else _) _ = _ |- _ =>
    exists t, x, v; do 5 (split; [done|]); destruct v end; run_inv.
  - split; [|split; reflexivity]. split; try done. right. by split_and!.
  - match goal with H : (if (?x =? 0) then _ else _) _ = _ |- _ => destruct (x =? 0) end; run_inv.
    all: split; [split; try done; by left|eauto].
Qed.

Lemma unsigned_effect o id v s l s' l' :
  submit_verification_unsigned T o id v (s, l) = (Ok tt, (s', l')) →
  ∃ t, Tasks s !! id = Some t ∧ status t = Pending ∧ o = NoOrigin ∧ concluded id t v s s' ∧
    (l' = l ∨ v = false ∧ ∃ r,
      repatriate_reserved (miner t) (PalletAccount T) (submission_deposit t) l = Some (l', r)).
Proof.
  intros Hrun. unfold submit_verification_unsigned, conclude in Hrun. run_inv.
  match goal with Ht : Tasks s !! id = Some ?t |- _ => exists t; rename Ht into Hlk; rename t into t0 end.
  split_and!; try done.
  all: destruct v; run_inv.
  - unfold try_push_verified, st_gets, gets, ensure, mbind, M_bind; simpl.
    destruct (Z.ltb_spec (Z.of_nat (length (VerifiedTasks s))) (MaxVerifiedTasks T)); simpl;
      split; try done; [right|left]; done.
  - unfold m_repatriate; simpl.
    destruct (repatriate_reserved _ _ _ l) as [[l1 r]|]; simpl; split; try done; by left.
  - unfold try_push_verified, st_gets, gets, ensure, mbind, M_bind; simpl.
    destruct (_ <? _); simpl; by left.
  - unfold m_repatriate; simpl.
    destruct (repatriate_reserved _ _ _ l) as [[l1 r]|]; simpl; eauto.
Qed.

Lemma claim_effect o id s l s' l' :
  claim_reward T o id (s, l) = (Ok tt, (s', l')) →
  ∃ t reward l1, Tasks s !! id = Some t ∧ o = Signed (miner t) ∧ status t = Verified ∧
    reward_claimed t = false ∧ calculate_reward t = Some reward ∧
    transfer (PalletAccount T) (miner t) reward AllowDeath l = Some l1 ∧
    l' = (unreserve (miner t) (submission_deposit t) l1).1 ∧
    Tasks s' = <[id := t <| reward_claimed := true |>]> (Tasks s) ∧
    PendingTasks s' = PendingTasks s ∧ VerifiedTasks s' = VerifiedTasks s ∧
    MinerScores s' = MinerScores s ∧ MinerPendingCount s' = MinerPendingCount s ∧
    NextTaskId s' = NextTaskId s ∧ UsedNonces s' = UsedNonces s.
Proof. intros Hrun. unfold claim_reward in Hrun. run_inv. eexists _, _, _. solve_facts. Qed.

Lemma submit_effect now o p d x nonce s l s' l' :
  call_typed (SubmitProof p d x nonce) →
  submit_proof T now o p d x nonce (s, l) = (Ok tt, (s', l')) →
  ∃ m t, o = Signed m ∧ Tasks s' = <[NextTaskId s := t]> (Tasks s) ∧ status t = Pending ∧
    miner t = m ∧ task_id t = NextTaskId s ∧ submission_deposit t = SubmissionDeposit T ∧
    base_reward t = BaseReward T ∧ 120 ≤ multiplier_q100 t ≤ 150 ∧ dims_ok (dimensions t) ∧
    submitted_at t = now ∧ reward_claimed t = false ∧
    used_nonce s m nonce = false ∧ UsedNonces s' = <[(m, nonce) := true]> (UsedNonces s) ∧
    MinMinerScoreToSubmit T ≤ current_miner_score T s m ∧
    miner_pending_count s m < MaxPendingPerMiner T ∧
    Z.of_nat (length (PendingTasks s)) < MaxPendingTasks T ∧
    reserve m (SubmissionDeposit T) l = Some l' ∧
    PendingTasks s' = PendingTasks s ++ [NextTaskId s] ∧ NextTaskId s' = NextTaskId s + 1 ∧
    MinerPendingCount s' =
      <[m := saturating_add U32_MAX (miner_pending_count s m) 1]> (MinerPendingCount s) ∧
    VerifiedTasks s' = VerifiedTasks s ∧ MinerScores s' = MinerScores s.
Proof.
  intros Hty Hrun. unfold submit_proof in Hrun. run_inv. destruct d as [[m n] k]. simpl in Hty.
  match goal with Hv : valid_dimensions _ = true |- _ =>
    apply valid_dimensions_ok in Hv; [|lia..] end.
  eexists _, _. split; [reflexivity|]. split; [reflexivity|]. split_and!; done || (simpl; lia).
Qed.

Lemma zk_Inv_submit now o p d x nonce s l s' l' :
  call_typed (SubmitProof p d x nonce) → Inv T now s →
  submit_proof T now o p d x nonce (s, l) = (Ok tt, (s', l')) → Inv T now s'.
Proof.
  intros Hty I Hrun. destruct (submit_effect _ _ _ _ _ _ _ _ _ _ Hty Hrun) as
    (m & t & _ & Ct & Hst & Hmi & Hid & Hdep & Hbase & Hmul & Hdim & Hat & Hcl & _ & _ & _ & Hcount &
     Hroom & _ & Cp & Cn & Cc & Cv & Cs).
  pose proof I as [I0 I1 I2 I3 I4 I5 I6 I7 I8 I9 I10].
  assert (Hfresh : Tasks s !! NextTaskId s = None).
  { apply eq_None_not_Some. intros [y Hy]. destruct (I1 _ _ Hy). lia. }
  assert (Hnp : NextTaskId s ∉ PendingTasks s) by (rewrite I2; naive_solver).
  assert (Hcnt : ∀ a, count_pending a s' = counts a t + count_pending a s).
  { intros a. unfold count_pending. by rewrite Ct, msum_insert_None. }
  assert (Hc : ∀ a, counts a t = if decide (a = m) then 1 else 0).
  { intros a. unfold counts. rewrite Hst, Hmi. case_decide; [by rewrite !bool_decide_eq_true_2|].
    by rewrite (bool_decide_eq_false_2 (m = a)). }
  pose proof (ok_per_miner T HT).
  split; rewrite ?Cn, ?Cp, ?Cv, ?Cs; try done; try lia.
  - intros k y. rewrite Ct. intros [[<- <-]|[? Hk]]%lookup_insert_Some.
    + unfold task_ok. rewrite Cn. split_and!; try done; try lia. by rewrite Hcl.
    + destruct (I1 k y Hk). unfold task_ok. rewrite Cn. split_and!; try lia; naive_solver.
  - intros k. rewrite elem_of_app, list_elem_of_singleton, I2, Ct. split.
    + intros [(y & Hy & ?)| ->]; [|exists t; by rewrite lookup_insert_eq].
      exists y. rewrite lookup_insert_ne; naive_solver.
    + intros (y & [[<- <-]|[? Hy]]%lookup_insert_Some & ?); naive_solver.
  - apply NoDup_app. split_and!; [done| |apply NoDup_singleton].
    intros y Hy ->%list_elem_of_singleton. done.
  - rewrite length_app. simpl. lia.
  - intros a. unfold miner_pending_count at 1. rewrite Cc, Hcnt, Hc, lookup_insert.
    destruct (decide (a = m)) as [->|]; [rewrite decide_True by done|rewrite decide_False by done]; simpl.
    + rewrite saturating_add_exact by lia. rewrite I5. lia.
    + fold (miner_pending_count s a). rewrite I5. lia.
  - intros a. rewrite Hcnt, Hc. specialize (I6 a). case_decide; [subst|]; [|lia].
    rewrite I5 in Hcount. lia.
  - intros k Hk. destruct (I7 k Hk) as (y & Hy & ?). exists y. rewrite Ct, lookup_insert_ne; naive_solver.
Qed.

Lemma zk_Inv_claim now o id s l s' l' :
  Inv T now s → claim_reward T o id (s, l) = (Ok tt, (s', l')) → Inv T now s'.
Proof.
  intros I Hrun. destruct (claim_effect _ _ _ _ _ _ Hrun) as
    (t & reward & l1 & Ht & _ & Hst & _ & _ & _ & _ & Ct & Cp & Cv & Cs & Cc & Cn & _).
  pose proof I as [I0 I1 I2 I3 I4 I5 I6 I7 I8 I9 I10].
  set (t' := t <| reward_claimed := true |>) in *.
  assert (Hcnt : ∀ m, count_pending m s' = count_pending m s).
  { intros m. rewrite (counts_update m id t t' s s' Ht Ct).
    unfold counts, t'. simpl. rewrite Hst. simpl. lia. }
  split; rewrite ?Cn, ?Cp, ?Cv, ?Cs; try done.
  - intros k x. rewrite Ct. intros [[<- <-]|[? Hk]]%lookup_insert_Some.
    + destruct (I1 id t Ht) as (? & ? & ? & ? & ? & ? & ? & _). unfold task_ok. rewrite Cn.
      unfold t'. simpl. solve_facts.
    + destruct (I1 k x Hk). unfold task_ok. by rewrite Cn.
  - intros k. rewrite I2, Ct. split.
    + intros (x & Hx & Hxs). destruct (decide (k = id)) as [->|]; [simplify_eq; by rewrite Hst in Hxs|].
      exists x. by rewrite lookup_insert_ne.
    + intros (x & [[<- <-]|[? Hx]]%lookup_insert_Some & Hxs); [|naive_solver].
      unfold t' in Hxs. simpl in Hxs. by rewrite Hst in Hxs.
  - intros m. unfold miner_pending_count. rewrite Cc. fold (miner_pending_count s m). by rewrite I5, Hcnt.
  - intros m. by rewrite Hcnt.
  - intros k Hk. destruct (I7 k Hk) as (x & Hx & Hxs). rewrite Ct.
    destruct (decide (k = id)) as [->|]; [|exists x; by rewrite lookup_insert_ne].
    exists t'. rewrite lookup_insert_eq. unfold t'. simpl. by simplify_eq.
Qed.

Lemma zk_Inv_dispatch now o c (w : State * L) :
  call_typed c → Inv T now w.1 → Inv T now (dispatch T now o c w).2.1.
Proof.
  intros Hty I. destruct w as [s l].
  apply (transactional_preserves (λ w, Inv T now w.1)); [done|].
  intros [] [s' l'] Hrun. cbn [fst snd] in *. destruct c as [p d x n|id|id|id v]; cbn iota in Hrun.
  - by eapply zk_Inv_submit.
  - destruct (verify_effect _ _ _ _ _ _ _ Hrun) as (t & ver & v & Ht & Hst & _ & _ & _ & C & _).
    by eapply Inv_concluded.
  - by eapply zk_Inv_claim.
  - destruct (unsigned_effect _ _ _ _ _ _ _ Hrun) as (t & Ht & Hst & _ & C & _).
    by eapply Inv_concluded.
Qed.

(** *** Steps and reachable states *)

Inductive pallet_step : BlockNumber * (State * L) → BlockNumber * (State * L) → Prop :=
| step_call now w o c :
    call_typed c → pallet_step (now, w) (now, (dispatch T now o c w).2).
Inductive step : BlockNumber * (State * L) → BlockNumber * (State * L) → Prop :=
| step_pallet c c' : pallet_step c c' → step c c'
| step_block now w : step (now, w) (now + 1, w)
| step_ledger now s l l' : step (now, (s, l)) (now, (s, l')).

Definition reachable (c : BlockNumber * (State * L)) : Prop :=
  ∃ l, rtc step (0, (genesis, l)) c.

Lemma zk_Inv_reachable c : reachable c → Inv T c.1 c.2.1.
Proof.
  intros [l Hr]. revert Hr. apply (rtc_invariant step (λ c, Inv T c.1 c.2.1)).
  - intros ? ? [? ? [? ? ? ? Hty]|? ?|? ? ? ?] I; simpl in *; [by apply zk_Inv_dispatch| |done].
    apply (zk_Inv_later now); [lia|done].
  - apply zk_Inv_genesis.
Qed.

(** *** Money *)

Lemma owed_deposited a t :
  deposited t = true → owed a t = at_account (miner t) (submission_deposit t) a.
Proof.
  intros Hd. unfold owed, at_account. rewrite Hd. simpl.
  destruct (decide (a = miner t)); case_bool_decide; done.
Qed.
Lemma owed_released a t : deposited t = false → owed a t = 0.
Proof. intros Hd. unfold owed. by rewrite Hd. Qed.

Lemma zk_held_update s s' id t t' a :
  Tasks s !! id = Some t → Tasks s' = <[id := t']> (Tasks s) →
  held s' a = held s a - owed a t + owed a t'.
Proof. intros Ht Hm. unfold held, custodian. by rewrite Hm, (msum_insert_Some _ _ _ _ _ Ht). Qed.

Lemma deposit_nonneg now s id t : Inv T now s → Tasks s !! id = Some t → 0 ≤ submission_deposit t.
Proof.
  intros I Ht. destruct (inv_task _ _ _ I id t Ht) as (_ & _ & -> & _). apply (ok_deposit T HT).
Qed.

Lemma deposit_covered ext now s l id t :
  (∀ a, 0 ≤ ext a) → Inv T now s → Tasks s !! id = Some t → deposited t = true →
  solvent ext (s, l) → submission_deposit t ≤ reserved_balance l (miner t).
Proof.
  intros Hext I Ht Hd. apply solvent_covers; [done|].
  etrans; [|apply (msum_lookup_le (λ _, owed (miner t)) _ id t); [|done]].
  - rewrite owed_deposited by done. unfold at_account. by rewrite decide_True.
  - intros k x Hk. pose proof (deposit_nonneg now s k x I Hk). unfold owed. case_match; lia.
Qed.

(** The reward: the base reward times the volume times the multiplier in
    hundredths, per million, unless that product leaves 128 bits. *)
Definition reward_product t : Z := base_reward t * vol (dimensions t) * multiplier_q100 t.

Lemma reward_exact now s id t :
  Inv T now s → Tasks s !! id = Some t →
  0 ≤ reward_product t ∧
  calculate_reward t =
    if reward_product t <=? U128_MAX then Some (reward_product t / 100000000) else None.
Proof.
  intros I Ht. destruct (inv_task _ _ _ I id t Ht) as (_ & _ & _ & Hb & Hm & Hd & _).
  unfold calculate_reward, reward_product. destruct (dimensions t) as [[m n] k].
  destruct Hd as (? & ? & ?); cbn [fst snd] in *. rewrite volume_exact by lia. simpl.
  pose proof (ok_base T HT) as Hbase. rewrite <-Hb in Hbase. unfold vol; simpl.
  unfold saturated_into. rewrite (Z.min_l (base_reward t)) by lia.
  assert (0 ≤ base_reward t * (m * n * k)) by (repeat apply Z.mul_nonneg_nonneg; lia).
  split; [lia|]. unfold checked_mul.
  destruct (Z.leb_spec (base_reward t * (m * n * k)) U128_MAX); simpl.
  - destruct (Z.leb_spec (base_reward t * (m * n * k) * multiplier_q100 t) U128_MAX); simpl; [|done].
    unfold saturated_into. rewrite Z.min_l; [done|].
    Z.to_euclidean_division_equations. lia.
  - destruct (Z.leb_spec (base_reward t * (m * n * k) * multiplier_q100 t) U128_MAX); [nia|done].
Qed.

(** A verdict moves at most the deposit of the failed task. *)
Lemma verdict_solvent ext now id t v s s' l l' :
  (∀ a, 0 ≤ ext a) → Inv T now s → Tasks s !! id = Some t → status t = Pending →
  concluded id t v s s' →
  (l' = l ∨ v = false ∧ ∃ r,
    repatriate_reserved (miner t) (PalletAccount T) (submission_deposit t) l = Some (l', r)) →
  solvent ext (s, l) → solvent ext (s', l').
Proof.
  intros Hext I Ht Hst C Hl Hs. pose proof (deposit_nonneg now s id t I Ht) as Hd.
  assert (deposited t = true) as Hdep by (unfold deposited; by rewrite Hst).
  assert (Hh : ∀ a, held s' a = held s a - (if v then 0 else at_account (miner t) (submission_deposit t) a)).
  { intros a. rewrite (zk_held_update _ _ _ _ _ a Ht (con_tasks _ _ _ _ _ C)).
    rewrite (owed_deposited a t Hdep). destruct v.
    - rewrite owed_deposited; [simpl; lia|]. unfold deposited. simpl.
      destruct (inv_task _ _ _ I id t Ht) as (_ & _ & _ & _ & _ & _ & _ & Hc).
      destruct (reward_claimed t); [|done]. specialize (Hc eq_refl). by rewrite Hst in Hc.
    - rewrite owed_released by done. lia. }
  destruct Hl as [->|[-> [r Hr]]].
  - eapply solvent_reserved; [|exact Hs]. intros a. rewrite Hh. unfold at_account.
    destruct v; [lia|]. case_decide; lia.
  - destruct (repatriate_spec _ _ _ _ _ _ Hd Hr) as [_ Hm].
    eapply (solvent_release ext s s' l l' (miner t)); [exact Hd|exact Hm| |exact Hs].
    intros a. rewrite Hh. lia.
Qed.

(** What a claim moves: the reward to the miner, and its deposit back. *)
Lemma zk_claim_moves ext now s l id t reward l1 :
  (∀ a, 0 ≤ ext a) → Inv T now s → solvent ext (s, l) → Tasks s !! id = Some t →
  deposited t = true → 0 ≤ reward →
  transfer (PalletAccount T) (miner t) reward AllowDeath l = Some l1 →
  let l' := (unreserve (miner t) (submission_deposit t) l1).1 in
  reward ≤ free_balance l (PalletAccount T) ∧
  (∀ a, reserved_balance l' a = reserved_balance l a + at_account (miner t) (- submission_deposit t) a) ∧
  (∀ a, a ≠ PalletAccount T →
     free_balance l' a = free_balance l a + at_account (miner t) (reward + submission_deposit t) a).
Proof.
  intros Hext I Hs Ht Hdep Hr Htr l'.
  destruct (transfer_allow_death_spec _ _ _ _ _ Hr Htr) as (Hle & Hres & Hfree).
  pose proof (deposit_nonneg now s id t I Ht) as Hd.
  pose proof (deposit_covered ext now s l id t Hext I Ht Hdep Hs) as Hcov. rewrite <-Hres in Hcov.
  destruct (unreserve_spec (miner t) (submission_deposit t) l1 Hd) as [_ Hm].
  rewrite Z.min_l in Hm by done. split_and!; [done| |].
  - intros a. unfold l'. destruct (Hm a) as [_ ->]. by rewrite Hres.
  - intros a Ha. unfold l'. destruct (Hm a) as [-> _]. rewrite (Hfree a Ha).
    unfold at_account. case_decide; lia.
Qed.

Lemma zk_solvent_dispatch ext now o c (w : State * L) :
  (∀ a, 0 ≤ ext a) → call_typed c → Inv T now w.1 → solvent ext w →
  solvent ext (dispatch T now o c w).2.
Proof.
  intros Hext Hty I Hs. destruct w as [s l].
  apply (transactional_preserves (λ w, solvent ext w)); [done|].
  intros [] [s' l'] Hrun. cbn [fst snd] in *. destruct c as [p d x n|id|id|id v]; cbn iota in Hrun.
  - destruct (submit_effect _ _ _ _ _ _ _ _ _ _ Hty Hrun) as
      (m & t & _ & Ct & Hst & Hmi & _ & Hdep & _ & _ & _ & _ & _ & _ & _ & _ & _ & _ & Hr & _).
    apply (solvent_reserve ext s s' l l' m (SubmissionDeposit T)); [apply (ok_deposit T HT)|done| |done].
    intros a. unfold held, custodian. rewrite Ct, msum_insert_None.
    + rewrite owed_deposited by (unfold deposited; by rewrite Hst). rewrite Hmi, Hdep. lia.
    + apply eq_None_not_Some. intros [y Hy]. destruct (inv_task _ _ _ I _ _ Hy). lia.
  - destruct (verify_effect _ _ _ _ _ _ _ Hrun) as (t & ver & v & Ht & Hst & _ & _ & _ & C & Hl).
    apply (verdict_solvent ext now id t v s s' l l'); try done. destruct v; [left|right]; naive_solver.
  - destruct (claim_effect _ _ _ _ _ _ Hrun) as
      (t & reward & l1 & Ht & _ & Hst & Hcl & Hrew & Htr & -> & Ct & _).
    assert (deposited t = true) as Hdep by (unfold deposited; by rewrite Hst, Hcl).
    assert (0 ≤ reward) as Hr0.
    { destruct (reward_exact now s id t I Ht) as [? Hx]. rewrite Hx in Hrew.
      case_match; [|done]. simplify_eq. apply Z.div_pos; lia. }
    destruct (zk_claim_moves ext now s l id t reward l1 Hext I Hs Ht Hdep Hr0 Htr) as (_ & Hres & _).
    eapply solvent_reserved; [|exact Hs]. intros a.
    rewrite (zk_held_update _ _ _ _ _ a Ht Ct), Hres, (owed_deposited a t Hdep).
    rewrite owed_released by (unfold deposited; simpl; by rewrite Hst).
    unfold at_account. case_decide; lia.
  - destruct (unsigned_effect _ _ _ _ _ _ _ Hrun) as (t & Ht & Hst & _ & C & Hl).
    by apply (verdict_solvent ext now id t v s s' l l').
Qed.

(** *** The life of a task *)

Definition same_core t t' : Prop :=
  task_id t' = task_id t ∧ miner t' = miner t ∧ proof t' = proof t ∧
  dimensions t' = dimensions t ∧ base_reward t' = base_reward t ∧
  multiplier_q100 t' = multiplier_q100 t ∧ submitted_at t' = submitted_at t ∧
  submission_deposit t' = submission_deposit t.

Inductive stage : ZkVerificationStatus → ZkVerificationStatus → Prop :=
| stage_same st : stage st st
| stage_verified : stage Pending Verified
| stage_failed : stage Pending Failed.

Definition advances s s' : Prop :=
  (∀ id t, Tasks s !! id = Some t → ∃ t', Tasks s' !! id = Some t' ∧ same_core t t' ∧
     stage (status t) (status t') ∧ (reward_claimed t = true → reward_claimed t' = true)) ∧
  (∀ m n, used_nonce s m n = true → used_nonce s' m n = true).

Lemma zk_advances_same s s' :
  Tasks s' = Tasks s → UsedNonces s' = UsedNonces s → advances s s'.
Proof.
  intros Ht Hn. split; [|unfold used_nonce; by rewrite Hn].
  intros k t Hk. exists t. rewrite Ht. split_and!; [done|done|constructor|done].
Qed.

Lemma zk_advances_insert s s' id t' :
  (∀ t, Tasks s !! id = Some t → same_core t t' ∧ stage (status t) (status t') ∧
     (reward_claimed t = true → reward_claimed t' = true)) →
  Tasks s' = <[id := t']> (Tasks s) →
  (∀ m n, used_nonce s m n = true → used_nonce s' m n = true) → advances s s'.
Proof.
  intros Hi Hm Hn. split; [|done]. intros k t Hk. rewrite Hm, lookup_insert.
  destruct (decide (id = k)) as [<-|].
  - exists t'. split; [done|]. eauto.
  - exists t. split_and!; [done|done|constructor|done].
Qed.

Lemma concluded_advances id t v s s' :
  Tasks s !! id = Some t → status t = Pending → concluded id t v s s' → advances s s'.
Proof.
  intros Ht Hst C. eapply zk_advances_insert; [|exact (con_tasks _ _ _ _ _ C)|].
  - intros x Hx. simplify_eq. rewrite Hst. split_and!; [done| |done].
    simpl. destruct v; constructor.
  - intros m n. unfold used_nonce. by rewrite (con_nonces _ _ _ _ _ C).
Qed.

Lemma zk_dispatch_advances now o c s l :
  call_typed c → Inv T now s → advances s (dispatch T now o c (s, l)).2.1.
Proof.
  intros Hty I. apply (transactional_preserves (λ w, advances s w.1)); [by apply zk_advances_same|].
  intros [] [s' l'] Hrun. cbn [fst snd] in *. destruct c as [p d x n|id|id|id v]; cbn iota in Hrun.
  - destruct (submit_effect _ _ _ _ _ _ _ _ _ _ Hty Hrun) as
      (m & t & _ & Ct & _ & _ & _ & _ & _ & _ & _ & _ & _ & _ & Cu & _).
    eapply zk_advances_insert; [|exact Ct|].
    + intros y Hy. destruct (inv_task _ _ _ I _ _ Hy). lia.
    + intros a b. unfold used_nonce. rewrite Cu, lookup_insert. by case_decide.
  - destruct (verify_effect _ _ _ _ _ _ _ Hrun) as (t & ver & v & Ht & Hst & _ & _ & _ & C & _).
    by eapply concluded_advances.
  - destruct (claim_effect _ _ _ _ _ _ Hrun) as
      (t & reward & l1 & Ht & _ & Hst & _ & _ & _ & _ & Ct & _ & _ & _ & _ & _ & Cu).
    eapply zk_advances_insert; [|exact Ct|unfold used_nonce; by rewrite Cu].
    intros x Hx. simplify_eq. split_and!; [done|simpl; constructor|done].
  - destruct (unsigned_effect _ _ _ _ _ _ _ Hrun) as (t & Ht & Hst & _ & C & _).
    by eapply concluded_advances.
Qed.

(** C37: in every reachable state the queue holds exactly the pending tasks,
    once each and within its bound, every miner's counter is the number of its
    pending tasks and within its limit, the history lists verified tasks once
    each, scores stay between zero and the maximum, and every task has the
    configured deposit and base reward, a multiplier from 120 to 150, non-zero
    dimensions and a claimed reward only when verified. *)
Theorem zk_reachable_invariant c : reachable c → Inv T c.1 c.2.1.
Proof. apply zk_Inv_reachable. Qed.

(** No call promises more than is reserved: the reserved balances keep
    covering the deposits of the pending and of the verified, unclaimed tasks
    on top of what other pallets hold. *)
Theorem zk_steps_solvent ext c c' :
  (∀ a, 0 ≤ ext a) → reachable c → pallet_step c c' → solvent ext c.2 → solvent ext c'.2.
Proof.
  intros Hext I%zk_Inv_reachable Hstep Hs. destruct Hstep as [now w o c Hty].
  by apply (zk_solvent_dispatch ext now).
Qed.

(** A task is never removed or altered in what it proves; a verdict is
    given once and is final, a claim is never undone, and a used nonce stays
    used. *)
Theorem zk_task_lifecycle c c' : reachable c → step c c' → advances c.2.1 c'.2.1.
Proof.
  intros I%zk_Inv_reachable Hstep. destruct Hstep as [? ? Hstep|now w|now s l l'];
    [|by apply zk_advances_same..].
  destruct Hstep as [now [s l] o c Hty]. by apply zk_dispatch_advances.
Qed.

(** A verification on chain accepts a task exactly when its deadline has
    not passed and the verifier accepts the proof for its dimensions; it then
    moves no money and raises the miner's score, and otherwise it moves exactly
    the deposit from the miner's reserve to the pallet and lowers the score. *)
Theorem zk_verify_decides ext now o id s l s' l' :
  (∀ a, 0 ≤ ext a) → Inv T now s → solvent ext (s, l) →
  dispatch T now o (VerifyTask id) (s, l) = (Ok tt, (s', l')) →
  ∃ t verifier, Tasks s !! id = Some t ∧ status t = Pending ∧ o = Signed verifier ∧
    let accepted := (now <=? submitted_at t + VerificationTimeout T)
                    && ZkVerifier T (proof t) (dimensions t) in
    Tasks s' !! id = Some (t <| status := (if accepted then Verified else Failed) |>) ∧
    (id ∉ PendingTasks s') ∧
    let score := current_miner_score T s (miner t) in
    if accepted
    then l' = l ∧ VerifiedTasks s' = VerifiedTasks s ++ [id] ∧
         current_miner_score T s' (miner t) =
           Z.min (saturating_add U32_MAX score (ScoreOnSuccess T)) (MaxMinerScore T)
    else moves l l' (at_account (PalletAccount T) (submission_deposit t))
           (at_account (miner t) (- submission_deposit t)) ∧
         VerifiedTasks s' = VerifiedTasks s ∧
         current_miner_score T s' (miner t) = Z.max 0 (score - ScorePenaltyOnFailure T).
Proof.
  intros Hext I Hs Hrun. apply transactional_Ok in Hrun. cbn iota in Hrun.
  destruct (verify_effect _ _ _ _ _ _ _ Hrun) as (t & ver & v & Ht & Hst & Ho & _ & Hv & C & Hl).
  exists t, ver. do 3 (split; [done|]). cbv zeta.
  replace (_ && _) with v.
  2: { rewrite Hv. destruct (Z.ltb_spec (submitted_at t + VerificationTimeout T) now);
       [by rewrite (proj2 (Z.leb_gt _ _))|by rewrite (proj2 (Z.leb_le _ _))]. }
  destruct (remove_id_spec id _ (inv_pending_nodup _ _ _ I)) as (_ & Hel & _).
  split; [rewrite (con_tasks _ _ _ _ _ C); apply lookup_insert_eq|].
  split; [rewrite (con_pending _ _ _ _ _ C), Hel; naive_solver|].
  unfold current_miner_score at 1 3. rewrite (con_score _ _ _ _ _ C), lookup_insert_eq. simpl.
  clear Hv. destruct v.
  - destruct Hl as [-> Hver]. done.
  - destruct Hl as [r Hr]. split_and!; [| |done].
    + destruct (repatriate_spec _ _ _ _ _ _ (deposit_nonneg now s id t I Ht) Hr) as [_ Hm].
      rewrite Z.min_l in Hm; [done|]. apply (deposit_covered ext now s l id t); try done.
      unfold deposited. by rewrite Hst.
    + by destruct (con_verified _ _ _ _ _ C) as [|(? & _)].
Qed.

(** A successful claim pays the miner exactly base reward times volume
    times multiplier (in hundredths, per million, rounded down) from the
    pallet's account and gives back its deposit, for a verified task of the
    caller, and a second claim of it is refused. *)
Theorem zk_claim_pays_once ext now o id s l s' l' :
  (∀ a, 0 ≤ ext a) → Inv T now s → solvent ext (s, l) →
  dispatch T now o (ClaimReward id) (s, l) = (Ok tt, (s', l')) →
  ∃ t, Tasks s !! id = Some t ∧ status t = Verified ∧ o = Signed (miner t) ∧
    let reward := reward_product t / 100000000 in
    reward_product t ≤ U128_MAX ∧ reward ≤ free_balance l (PalletAccount T) ∧
    (∀ a, reserved_balance l' a =
       reserved_balance l a + at_account (miner t) (- submission_deposit t) a) ∧
    (∀ a, a ≠ PalletAccount T → free_balance l' a =
       free_balance l a + at_account (miner t) (reward + submission_deposit t) a) ∧
    ∀ now' who l'', ∃ e, dispatch T now' (Signed who) (ClaimReward id) (s', l'') = (Err e, (s', l'')).
Proof.
  intros Hext I Hs Hrun. apply transactional_Ok in Hrun. cbn iota in Hrun.
  destruct (claim_effect _ _ _ _ _ _ Hrun) as
    (t & reward & l1 & Ht & Ho & Hst & Hcl & Hrew & Htr & -> & Ct & _).
  assert (deposited t = true) as Hdep by (unfold deposited; by rewrite Hst, Hcl).
  destruct (reward_exact now s id t I Ht) as [Hp Hx]. rewrite Hx in Hrew.
  destruct (Z.leb_spec (reward_product t) U128_MAX) as [Hmax|]; [|done].
  injection Hrew as <-. exists t. do 3 (split; [done|]). cbv zeta. split; [done|].
  assert (0 ≤ reward_product t / 100000000) as Hr0 by (apply Z.div_pos; lia).
  destruct (zk_claim_moves ext now s l id t _ l1 Hext I Hs Ht Hdep Hr0 Htr) as (Hle & Hres & Hfree).
  split_and!; [done|done|done|]. intros now' who l''.
  unfold dispatch, transactional, claim_reward, ensure_signed, st_gets, gets, ok_or, ensure, mbind, M_bind, mret, M_ret.
  simpl. rewrite Ct, lookup_insert_eq. simpl. case_bool_decide; simpl; [|eauto].
  rewrite Hst. simpl. eauto.
Qed.

(** The verdict of an unsigned submission is not checked: whatever the
    verifier says of the proof and however late, the pool accepts a
    submission for any pending task and the task gets the submitted verdict,
    so that its miner can claim the reward of a proof no verifier accepts. *)
Theorem zk_unsigned_unchecked now id t s l :
  Inv T now s → Tasks s !! id = Some t → status t = Pending →
  validate_unsigned s (SubmitVerificationUnsigned id true)
    = ValidTransaction UNSIGNED_TXS_PRIORITY 5 id ∧
  ∃ s', dispatch T now NoOrigin (SubmitVerificationUnsigned id true) (s, l) = (Ok tt, (s', l)) ∧
    Tasks s' !! id = Some (t <| status := Verified |>) ∧
    ∀ reward l1, calculate_reward t = Some reward →
      transfer (PalletAccount T) (miner t) reward AllowDeath l = Some l1 →
      ∃ w, dispatch T now (Signed (miner t)) (ClaimReward id) (s', l) = (Ok tt, w).
Proof.
  intros I Ht Hst. split.
  { unfold validate_unsigned. by rewrite Ht, Hst. }
  assert (∃ s', dispatch T now NoOrigin (SubmitVerificationUnsigned id true) (s, l) = (Ok tt, (s', l)))
    as [s' Hrun].
  { destruct (Z.of_nat (length (VerifiedTasks s)) <? MaxVerifiedTasks T) eqn:Hroom; eexists.
    all: unfold dispatch, transactional, submit_verification_unsigned, ensure_none, conclude,
      try_push_verified, ignore, st_gets, gets, ok_or, ensure, mbind, M_bind, mret, M_ret; simpl.
    all: rewrite Ht; simpl; rewrite Hst; simpl; rewrite Hroom; reflexivity. }
  exists s'. split; [done|]. apply transactional_Ok in Hrun. cbn iota in Hrun.
  destruct (unsigned_effect _ _ _ _ _ _ _ Hrun) as (t0 & Ht0 & _ & _ & C & _). simplify_eq.
  assert (Tasks s' !! id = Some (t <| status := Verified |>)) as Ht'
    by (rewrite (con_tasks _ _ _ _ _ C); apply lookup_insert_eq).
  split; [done|]. intros reward l1 Hrew Htr.
  destruct (inv_task _ _ _ I id t Ht) as (_ & _ & _ & _ & _ & _ & _ & Hc).
  assert (reward_claimed t = false) as Hcl.
  { destruct (reward_claimed t); [|done]. specialize (Hc eq_refl). by rewrite Hst in Hc. }
  eexists. unfold dispatch, transactional, claim_reward, ensure_signed, st_gets, gets, ok_or, ensure,
    m_transfer, mbind, M_bind, mret, M_ret. simpl. rewrite Ht'. simpl.
  rewrite (bool_decide_eq_true_2 (miner t = miner t)) by done. simpl. rewrite Hcl. simpl.
  replace (calculate_reward _) with (calculate_reward t) by done. rewrite Hrew. simpl.
  rewrite Htr. simpl. rewrite m_unreserve_run. simpl. reflexivity.
Qed.

(** The off-chain worker submits the verifier's verdict on exactly the
    pending tasks, each of them accepted by the pool; and taking a task off
    the queue by swapping with the last one is, up to order, removing its id. *)
Theorem zk_worker_covers now s :
  Inv T now s →
  (∀ c, c ∈ ocw_verify_pending_tasks T s ↔ ∃ id t, Tasks s !! id = Some t ∧ status t = Pending ∧
     c = SubmitVerificationUnsigned id (ZkVerifier T (proof t) (dimensions t))) ∧
  (∀ c, c ∈ ocw_verify_pending_tasks T s → ∃ id,
     validate_unsigned s c = ValidTransaction UNSIGNED_TXS_PRIORITY 5 id) ∧
  ∀ id, PendingTasks (remove_from_pending id s) ≡ₚ filter (λ x, x ≠ id) (PendingTasks s).
Proof.
  intros I.
  assert (Hcov : ∀ c, c ∈ ocw_verify_pending_tasks T s ↔ ∃ id t, Tasks s !! id = Some t ∧
    status t = Pending ∧ c = SubmitVerificationUnsigned id (ZkVerifier T (proof t) (dimensions t))).
  { intros c. unfold ocw_verify_pending_tasks. rewrite list_elem_of_omap. split.
    - intros (id & Hid & Hc). apply (inv_pending _ _ _ I) in Hid as (t & Ht & Hst).
      rewrite Ht in Hc. simpl in Hc. rewrite bool_decide_eq_true_2 in Hc by done. naive_solver.
    - intros (id & t & Ht & Hst & ->). exists id. split; [apply (inv_pending _ _ _ I); eauto|].
      rewrite Ht. simpl. by rewrite bool_decide_eq_true_2. }
  split_and!; [done| |].
  - intros c (id & t & Ht & Hst & ->)%Hcov. exists id. unfold validate_unsigned. by rewrite Ht, Hst.
  - intros id. apply remove_id_Permutation, (inv_pending_nodup _ _ _ I).
Qed.
End theory.
End ZkCompute.

(** ** The runtime's verifier

    A proof is a version byte, a commitment and a nonce of 32 bytes each, and
    the hash of these 65 bytes followed by the three dimensions in
    little-endian order. [blake2_256] is the host's hash function. *)
Module HashCommitmentZkVerifier.
Import ZkCompute.

Definition to_byte (z : Z) : byte := default x00 (Byte.of_N (Z.to_N (z mod 256))).
Definition of_byte (b : byte) : Z := Z.of_N (Byte.to_N b).

(** [u32::to_le_bytes]. *)
Definition to_le_bytes (z : Z) : bytes :=
  [to_byte z; to_byte (z / 256); to_byte (z / 65536); to_byte (z / 16777216)].
Definition from_le_bytes (l : bytes) : Z :=
  foldr (λ b acc, of_byte b + 256 * acc) 0 l.

Section verifier.
Context (blake2_256 : bytes → bytes).

Definition preimage (prefix : bytes) (d : Dimensions) : bytes :=
  let '(m, n, k) := d in
  prefix ++ to_le_bytes m ++ to_le_bytes n ++ to_le_bytes k.

Definition verify (proof : bytes) (d : Dimensions) : bool :=
  let '(m, n, k) := d in
  if (length proof <? 97)%nat then false
  else if negb (bool_decide (proof !! 0%nat = Some x01)) then false
  else if (m =? 0) || (n =? 0) || (k =? 0) then false
  else if (65536 <? m) || (65536 <? n) || (65536 <? k) then false
  else
    let binding_hash := take 32 (drop 65 proof) in
    bool_decide (binding_hash = blake2_256 (preimage (take 65 proof) (m, n, k))).

(** What a prover computes. *)
Definition prove (commitment nonce : bytes) (d : Dimensions) : bytes :=
  let prefix := x01 :: commitment ++ nonce in
  prefix ++ blake2_256 (preimage prefix d).

Definition in_range (d : Dimensions) : Prop :=
  1 ≤ d.1.1 ≤ 65536 ∧ 1 ≤ d.1.2 ≤ 65536 ∧ 1 ≤ d.2 ≤ 65536.

Lemma of_to_byte z : of_byte (to_byte z) = z mod 256.
Proof.
  unfold of_byte, to_byte. pose proof (Z.mod_pos_bound z 256 ltac:(lia)) as Hz.
  destruct (Byte.of_N (Z.to_N (z mod 256))) as [b|] eqn:Hb; simpl.
  - apply Byte.to_of_N in Hb. rewrite Hb. lia.
  - apply Byte.of_N_None_iff in Hb. lia.
Qed.

Lemma le_bytes_roundtrip z : 0 ≤ z ≤ U32_MAX → from_le_bytes (to_le_bytes z) = z.
Proof.
  intros Hz. unfold from_le_bytes, to_le_bytes. cbn [foldr]. rewrite !of_to_byte.
  unfold U32_MAX in Hz. Z.to_euclidean_division_equations. lia.
Qed.

Lemma preimage_inj prefix prefix' d d' :
  length prefix = length prefix' → in_range d → in_range d' →
  preimage prefix d = preimage prefix' d' → prefix = prefix' ∧ d = d'.
Proof.
  destruct d as [[m n] k], d' as [[m' n'] k']. intros Hl (? & ? & ?) (? & ? & ?) Heq.
  cbn [fst snd] in *. unfold preimage in Heq.
  apply app_inj_1 in Heq as [-> Heq]; [|done].
  apply app_inj_1 in Heq as [Hm Heq]; [|done].
  apply app_inj_1 in Heq as [Hn Hk]; [|done].
  split; [done|]. apply (f_equal from_le_bytes) in Hm, Hn, Hk.
  rewrite !le_bytes_roundtrip in Hm, Hn, Hk by (unfold U32_MAX; lia). congruence.
Qed.

Lemma verify_spec p d :
  0 ≤ d.1.1 → 0 ≤ d.1.2 → 0 ≤ d.2 →
  verify p d = true ↔
  (97 ≤ length p)%nat ∧ p !! 0%nat = Some x01 ∧ in_range d ∧
  take 32 (drop 65 p) = blake2_256 (preimage (take 65 p) d).
Proof.
  destruct d as [[m n] k]. cbn [fst snd]. intros Hm Hn Hk. unfold verify, in_range. cbn [fst snd].
  destruct (Nat.ltb_spec (length p) 97); [split; [done|lia]|].
  case_bool_decide; simpl; [|naive_solver].
  destruct (Z.eqb_spec m 0), (Z.eqb_spec n 0), (Z.eqb_spec k 0); simpl; try (split; [done|lia]).
  destruct (Z.ltb_spec 65536 m), (Z.ltb_spec 65536 n), (Z.ltb_spec 65536 k); simpl; try (split; [done|lia]).
  rewrite bool_decide_eq_true. split; [|naive_solver]. intros. solve_facts.
Qed.

(** Dimensions as the code has them, three u32. *)
Definition unsigned (d : Dimensions) : Prop := 0 ≤ d.1.1 ∧ 0 ≤ d.1.2 ∧ 0 ≤ d.2.

Lemma verify_prove commitment nonce d rest :
  (∀ x, length (blake2_256 x) = 32%nat) → length commitment = 32%nat → length nonce = 32%nat →
  unsigned d → verify (prove commitment nonce d ++ rest) d = true ↔ in_range d.
Proof.
  intros Hlen Hc Hn (? & ? & ?). rewrite verify_spec by done.
  assert (length (x01 :: commitment ++ nonce) = 65%nat) as Hp by (simpl; rewrite length_app; lia).
  split; [by intros (_ & _ & Hr & _)|]. intros Hr.
  unfold prove. rewrite <-(assoc_L (++)), !length_app, Hlen, Hp. split; [lia|]. split; [done|].
  split; [done|]. rewrite take_app_length', drop_app_length' by done.
  by rewrite take_app_length' by (rewrite Hlen; lia).
Qed.

Lemma verified_is_prove p d :
  unsigned d → verify p d = true →
  in_range d ∧ ∃ commitment nonce rest, length commitment = 32%nat ∧ length nonce = 32%nat ∧
    p = prove commitment nonce d ++ rest.
Proof.
  intros (? & ? & ?) (Hl & Hv1 & Hr & Hh)%verify_spec; [|done..]. split; [done|].
  destruct p as [|b p]; [done|]. injection Hv1 as ->.
  exists (take 32 p), (take 32 (drop 32 p)), (drop 96 p). simpl in Hl.
  rewrite !length_take, !length_drop. split; [lia|]. split; [lia|].
  assert (take 32 p ++ take 32 (drop 32 p) = take 64 p) as E.
  { by rewrite take_take_drop. }
  unfold prove. rewrite E. cbn [take drop] in Hh. rewrite <-Hh. simpl. f_equal.
  rewrite <-(assoc_L (++)). rewrite <-(take_drop 64 p) at 1. f_equal.
  rewrite <-(take_drop 32 (drop 64 p)) at 1. by rewrite drop_drop.
Qed.

(** C38: exactly which proofs the verifier accepts: for dimensions of 1 to 65536
    each, those that begin with the 97 documented bytes (version, any
    commitment and any nonce of 32 bytes, and the hash of these with the
    dimensions), whatever follows; for any other dimensions none, so that the
    round trip of a proof built as documented fails above 65536. Nothing else
    is checked: no commitment is refused, so acceptance shows that the prover
    hashed the dimensions and is no evidence of a multiplication. A proof
    accepted for two different dimensions exhibits two inputs with one hash. *)
Theorem zk_verifier_roundtrip :
  (∀ x, length (blake2_256 x) = 32%nat) →
  (∀ commitment nonce d, length commitment = 32%nat → length nonce = 32%nat → unsigned d →
     verify (prove commitment nonce d) d = true ↔ in_range d) ∧
  (∀ p d, unsigned d →
     verify p d = true ↔ in_range d ∧ ∃ commitment nonce rest,
       length commitment = 32%nat ∧ length nonce = 32%nat ∧ p = prove commitment nonce d ++ rest) ∧
  (∀ p d d', unsigned d → unsigned d' → verify p d = true → verify p d' = true → d ≠ d' →
     ∃ x y, x ≠ y ∧ blake2_256 x = blake2_256 y).
Proof.
  intros Hlen. split; [|split].
  - intros c n d Hc Hn Hd. rewrite <-(app_nil_r (prove c n d)). by apply verify_prove.
  - intros p d Hd. split; [by apply verified_is_prove|].
    intros (Hr & c & n & rest & Hc & Hn & ->). by apply verify_prove.
  - intros p d d' (? & ? & ?) (? & ? & ?) Hv Hv' Hne. rewrite verify_spec in Hv, Hv' by done.
    destruct Hv as (_ & _ & Hr & Hh), Hv' as (_ & _ & Hr' & Hh').
    exists (preimage (take 65 p) d), (preimage (take 65 p) d'). split; [|congruence].
    intros Heq. by apply preimage_inj in Heq as [_ ?].
Qed.
End verifier.
End HashCommitmentZkVerifier.

(** ** A run on a concrete ledger

    Account 1 has 1000 free, the pallet's account 50 has 5000. 1 submits an
    honest proof for a 10 x 10 x 100 multiplication and a worthless one; the
    first is verified on chain and claimed. The hash is a stand-in. *)
Module ZkDemo.
Import ZkCompute.
Definition hash (x : bytes) : bytes := take 32 (x ++ replicate 32 x00).
Definition T : Config := {|
  MaxProofSize := 1000; MaxPendingTasks := 10; MaxVerifiedTasks := 10; MaxPendingPerMiner := 3;
  BaseReward := 1000; SubmissionDeposit := 100; VerificationTimeout := 20;
  InitialMinerScore := 50; MinMinerScoreToSubmit := 10; MaxMinerScore := 100;
  ScoreOnSuccess := 5; ScorePenaltyOnFailure := 10; PalletAccount := 50;
  ZkVerifier := HashCommitmentZkVerifier.verify hash |}%N.
Definition ledger : Ledger.t := {[1 := (1000, 0); 50 := (5000, 0)]}%N.
Abbreviation world := (State * Ledger.t)%type.
Definition dims : Dimensions := (10, 10, 100).
Definition honest : bytes :=
  HashCommitmentZkVerifier.prove hash (replicate 32 x07) (replicate 32 x09) dims.
Definition act (o : Origin) (c : Call) (w : world) : world := (dispatch T 0 o c w).2.
Definition send_honest : Call := SubmitProof honest dims 150 1.
Definition send_bogus : Call := SubmitProof [] dims 120 2.
Definition first : world := act (Signed 1%N) send_honest (genesis, ledger).
Definition both : world := act (Signed 1%N) send_bogus first.
Definition accepted : world := act (Signed 9%N) (VerifyTask 0) both.
Definition claimed : world := act (Signed 1%N) (ClaimReward 0) accepted.
Lemma zk_act_run o c w :
  (dispatch T 0 o c w).1 = Ok tt → dispatch T 0 o c w = (Ok tt, act o c w).
Proof. apply run_eta. Qed.
#[local] Strategy 1000 [first both accepted claimed act].

Lemma zk_config_ok : config_ok T.
Proof. split; simpl; unfold U32_MAX, U128_MAX; lia. Qed.
Lemma send_honest_typed : call_typed send_honest.
Proof. simpl. unfold U32_MAX, U64_MAX. lia. Qed.
Lemma send_bogus_typed : call_typed send_bogus.
Proof. simpl. unfold U32_MAX, U64_MAX. lia. Qed.

Lemma zk_act_reachable o c w : call_typed c → reachable T (0, w) → reachable T (0, act o c w).
Proof.
  intros Hty [l Hr]. exists l. eapply rtc_r; [exact Hr|]. apply step_pallet.
  exact (step_call T 0 w o c Hty).
Qed.
Lemma zk_act_solvent o c w :
  call_typed c → reachable T (0, w) → solvent (λ _, 0) w → solvent (λ _, 0) (act o c w).
Proof.
  intros Hty Hr. apply (zk_solvent_dispatch T zk_config_ok); [done|done|].
  exact (zk_Inv_reachable T zk_config_ok _ Hr).
Qed.
Lemma both_reachable : reachable T (0, both).
Proof.
  apply zk_act_reachable; [exact send_bogus_typed|].
  apply zk_act_reachable; [exact send_honest_typed|]. by exists ledger.
Qed.
Lemma accepted_reachable : reachable T (0, accepted).
Proof. apply zk_act_reachable; [exact Logic.I|exact both_reachable]. Qed.
Lemma both_solvent : solvent (λ _, 0) both.
Proof.
  apply zk_act_solvent; [exact send_bogus_typed| |].
  - apply zk_act_reachable; [exact send_honest_typed|]. by exists ledger.
  - apply zk_act_solvent; [exact send_honest_typed|by exists ledger|]. intros a. apply Ledger.nonneg.
Qed.
Lemma accepted_solvent : solvent (λ _, 0) accepted.
Proof. apply zk_act_solvent; [exact Logic.I|exact both_reachable|exact both_solvent]. Qed.

Lemma zk_reachable_invariant_witness : Inv T 0 both.1.
Proof. exact (zk_reachable_invariant T zk_config_ok (0, both) both_reachable). Defined.

Lemma zk_steps_solvent_witness : solvent (λ _, 0) accepted.
Proof.
  refine (zk_steps_solvent T zk_config_ok (λ _, 0) (0, both) (0, accepted) _ both_reachable
            (step_call T 0 both (Signed 9%N) (VerifyTask 0) Logic.I) both_solvent).
  intros a. lia.
Defined.

Lemma zk_task_lifecycle_witness : advances both.1 accepted.1.
Proof.
  exact (zk_task_lifecycle T zk_config_ok (0, both) (0, accepted) both_reachable
           (step_pallet T _ _ (step_call T 0 both (Signed 9%N) (VerifyTask 0) Logic.I))).
Defined.

Lemma zk_verify_decides_witness :
  ∃ t, Tasks both.1 !! 0 = Some t ∧ Tasks accepted.1 !! 0 = Some (t <| status := Verified |>) ∧
    accepted.2 = both.2.
Proof.
  assert (dispatch T 0 (Signed 9%N) (VerifyTask 0) both = (Ok tt, accepted)) as Hrun
    by (unfold accepted; apply zk_act_run; vm_compute; reflexivity).
  destruct (zk_verify_decides T zk_config_ok (λ _, 0) 0 (Signed 9%N) 0 both.1 both.2 accepted.1 accepted.2)
    as (t & verifier & Ht & _ & _ & Hx).
  - intros a. lia.
  - exact (zk_Inv_reachable T zk_config_ok _ both_reachable).
  - rewrite <-surjective_pairing. exact both_solvent.
  - rewrite <-!surjective_pairing. exact Hrun.
  - cbv zeta in Hx.
    assert ((0 <=? submitted_at t + VerificationTimeout T) && ZkVerifier T (proof t) (dimensions t) = true)
      as Hacc by (vm_compute in Ht; injection Ht as <-; vm_compute; reflexivity).
    rewrite Hacc in Hx. destruct Hx as (Ht' & _ & Hl & _).
    exists t. split; [exact Ht|]. split; [exact Ht'|exact Hl].
Defined.

Lemma zk_claim_pays_once_witness :
  ∃ t, Tasks accepted.1 !! 0 = Some t ∧ reward_product t / 100000000 = 15 ∧
    free_balance claimed.2 1%N = free_balance accepted.2 1%N + 115.
Proof.
  assert (dispatch T 0 (Signed 1%N) (ClaimReward 0) accepted = (Ok tt, claimed)) as Hrun
    by (unfold claimed; apply zk_act_run; vm_compute; reflexivity).
  destruct (zk_claim_pays_once T zk_config_ok (λ _, 0) 0 (Signed 1%N) 0 accepted.1 accepted.2 claimed.1 claimed.2)
    as (t & Ht & _ & _ & Hx).
  - intros a. lia.
  - exact (zk_Inv_reachable T zk_config_ok _ accepted_reachable).
  - rewrite <-surjective_pairing. exact accepted_solvent.
  - rewrite <-!surjective_pairing. exact Hrun.
  - cbv zeta in Hx. destruct Hx as (_ & _ & _ & Hf & _). exists t. split; [exact Ht|].
    vm_compute in Ht. injection Ht as <-. split; [vm_compute; reflexivity|].
    rewrite Hf by (vm_compute; discriminate). apply f_equal. vm_compute. reflexivity.
Defined.

Lemma zk_unsigned_unchecked_witness :
  HashCommitmentZkVerifier.verify hash [] dims = false ∧ ∃ t s',
    Tasks both.1 !! 1 = Some t ∧ proof t = [] ∧
    dispatch T 0 NoOrigin (SubmitVerificationUnsigned 1 true) both = (Ok tt, (s', both.2)) ∧
    Tasks s' !! 1 = Some (t <| status := Verified |>).
Proof.
  split; [vm_compute; reflexivity|].
  destruct (Tasks both.1 !! 1) as [t|] eqn:Ht; [|vm_compute in Ht; discriminate Ht].
  destruct (zk_unsigned_unchecked T 0 1 t both.1 both.2) as (_ & s' & Hrun & Ht' & _).
  - exact (zk_Inv_reachable T zk_config_ok _ both_reachable).
  - exact Ht.
  - vm_compute in Ht. injection Ht as <-. reflexivity.
  - exists t, s'. split; [reflexivity|]. split; [vm_compute in Ht; injection Ht as <-; reflexivity|].
    rewrite <-surjective_pairing in Hrun. split; [exact Hrun|exact Ht'].
Defined.

Lemma zk_worker_covers_witness :
  SubmitVerificationUnsigned 0 true ∈ ocw_verify_pending_tasks T both.1 ∧
  PendingTasks (remove_from_pending 0 both.1) ≡ₚ [1].
Proof.
  destruct (zk_worker_covers T 0 both.1) as (Hc & _ & Hp).
  - exact (zk_Inv_reachable T zk_config_ok _ both_reachable).
  - split.
    + apply (proj2 (Hc _)). destruct (Tasks both.1 !! 0) as [t|] eqn:Ht; [|vm_compute in Ht; discriminate Ht].
      exists 0, t. split; [exact Ht|]. vm_compute in Ht. injection Ht as <-.
      split; [reflexivity|]. vm_compute. reflexivity.
    + specialize (Hp 0). assert (filter (λ x, x ≠ 0) (PendingTasks both.1) = [1]) as Hf
        by (vm_compute; reflexivity). rewrite Hf in Hp. exact Hp.
Defined.

Lemma zk_verifier_roundtrip_witness :
  HashCommitmentZkVerifier.verify hash honest dims = true ∧
  HashCommitmentZkVerifier.verify hash
    (HashCommitmentZkVerifier.prove hash (replicate 32 x07) (replicate 32 x09) (65537, 3, 4))
    (65537, 3, 4) = false.
Proof.
  destruct (HashCommitmentZkVerifier.zk_verifier_roundtrip hash) as [Hr _].
  - intros x. unfold hash. rewrite length_take, length_app, length_replicate. lia.
  - split.
    + apply (Hr (replicate 32 x07) (replicate 32 x09) dims); try reflexivity;
        unfold HashCommitmentZkVerifier.in_range, HashCommitmentZkVerifier.unsigned, dims; simpl; lia.
    + apply not_true_is_false. intros Hv.
      apply (Hr (replicate 32 x07) (replicate 32 x09) (65537, 3, 4)) in Hv; try reflexivity;
        unfold HashCommitmentZkVerifier.in_range, HashCommitmentZkVerifier.unsigned in *; simpl in *; lia.
Defined.
End ZkDemo.
