(* ===== verification/Committee.v ===== *)
(** * pallet-committee

    The committee that verifies machines: the community adds a member, who
    publishes a key and stakes, works while the stake is sufficient, may rest
    ([chill]) and may leave. Other pallets lock part of the stake for a job,
    slash or reward it through [ManageCommittee]. A member is in one of four
    sorted vectors. Models src/pallets/committee/src (lib.rs, types.rs,
    traits.rs). *)
From stdpp Require Import base gmap fin_maps list numbers relations.
From Stdlib Require Import ZArith Lia.
From S2P Require Import Prelude Currency Interfaces ItemList.

Module Committee.
Import ItemList.

Record CommitteeList := {
  normal : list AccountId;
  chill_list : list AccountId;
  waiting_box_pubkey : list AccountId;
  fulfilling_list : list AccountId;
}.
#[export] Instance CommitteeList_eta : RecordEta CommitteeList := λ c,
  Build_CommitteeList (normal c) (chill_list c) (waiting_box_pubkey c) (fulfilling_list c).
Definition CommitteeList_default : CommitteeList := {|
  normal := []; chill_list := []; waiting_box_pubkey := []; fulfilling_list := [] |}.

Definition is_normal (c : CommitteeList) (who : AccountId) : bool :=
  is_ok (binary_search (normal c) who).
Definition is_chill (c : CommitteeList) (who : AccountId) : bool :=
  is_ok (binary_search (chill_list c) who).
Definition is_waiting_puk (c : CommitteeList) (who : AccountId) : bool :=
  is_ok (binary_search (waiting_box_pubkey c) who).
Definition is_fulfilling (c : CommitteeList) (who : AccountId) : bool :=
  is_ok (binary_search (fulfilling_list c) who).
Definition is_committee (c : CommitteeList) (who : AccountId) : bool :=
  is_normal c who || is_chill c who || is_waiting_puk c who || is_fulfilling c who.

Record CommitteeStakeParamsInfo := {
  stake_baseline : Balance;
  stake_per_order : Balance;
  min_free_stake_percent : Z;
}.
Definition CommitteeStakeParamsInfo_default : CommitteeStakeParamsInfo := {|
  stake_baseline := 0; stake_per_order := 0; min_free_stake_percent := 0 |}.

Record CommitteeStakeInfo := {
  box_pubkey : H256;
  staked_amount : Balance;
  used_stake : Balance;
  can_claim_reward : Balance;
  claimed_reward : Balance;
}.
#[export] Instance CommitteeStakeInfo_eta : RecordEta CommitteeStakeInfo := λ i,
  Build_CommitteeStakeInfo (box_pubkey i) (staked_amount i) (used_stake i) (can_claim_reward i)
    (claimed_reward i).
Definition CommitteeStakeInfo_default : CommitteeStakeInfo := {|
  box_pubkey := 0%N; staked_amount := 0; used_stake := 0; can_claim_reward := 0;
  claimed_reward := 0 |}.

Inductive Event :=
| PayTxFee (who : AccountId) (v : Balance)
| CommitteeAdded (who : AccountId)
| CommitteeFulfill (v : Balance)
| Chill (who : AccountId)
| CommitteeExit (who : AccountId)
| UndoChill (who : AccountId)
| ExitFromCandidacy (who : AccountId)
| CommitteeSetBoxPubkey (who : AccountId) (key : H256)
| StakeAdded (who : AccountId) (v : Balance)
| StakeReduced (who : AccountId) (v : Balance)
| ClaimedReward (who : AccountId) (v : Balance).

Inductive Error :=
| PubkeyNotSet
| NotCommittee
| AccountAlreadyExist
| NotInChillList
| JobNotDone
| NoRewardCanClaim
| ClaimRewardFailed
| GetStakeParamsFailed
| NothingToClaim
| StakeForCommitteeFailed
| BalanceNotEnough
| StakeNotEnough
| StatusNotAllowed
| NotInNormalList
| StatusNotFeat
| ChangeReservedFailed.

Record State := {
  Committee : CommitteeList;
  CommitteeStakeParams : option CommitteeStakeParamsInfo;
  CommitteeStake : gmap AccountId CommitteeStakeInfo;
  events : list Event;
}.
#[export] Instance State_eta : RecordEta State := λ s,
  Build_State (Committee s) (CommitteeStakeParams s) (CommitteeStake s) (events s).

Definition genesis : State := {|
  Committee := CommitteeList_default; CommitteeStakeParams := None; CommitteeStake := ∅;
  events := [] |}.

Definition deposit_event (e : Event) (s : State) : State :=
  s <| events ::= λ es, es ++ [e] |>.

Definition committee_stake (s : State) (who : AccountId) : CommitteeStakeInfo :=
  default CommitteeStakeInfo_default (CommitteeStake s !! who).
Definition put_stake (who : AccountId) (i : CommitteeStakeInfo) (s : State) : State :=
  s <| CommitteeStake ::= <[who := i]> |>.

(** [a += b] on a 128-bit unsigned balance in a release build. *)
Definition wrapping_add (a b : Balance) : Balance := (a + b) mod 2 ^ 128.

Section pallet.
Context `{ReservableCurrency L} {P : PerThing}.
Abbreviation MC := (M (State * L) (DispatchError Error)).
Abbreviation MU := (M (State * L) unit).

(** ** Stake and status *)

Definition add_or_sub (is_add : bool) (a b : Balance) : option Balance :=
  if is_add then checked_add U128_MAX a b else checked_sub a b.

(** The two conditions a stake must meet. *)
Definition free_stake_ok (params : CommitteeStakeParamsInfo) (i : CommitteeStakeInfo) : bool :=
  per_mul (min_free_stake_percent params) (staked_amount i)
    <=? saturating_sub (staked_amount i) (used_stake i).

Definition check_stake_health (who : AccountId) (amount : Balance) (is_add : bool) : MU unit :=
  maybe_params ← st_gets CommitteeStakeParams;
  params ← ok_or maybe_params tt;
  stake ← st_gets (λ s, committee_stake s who);
  staked ← ok_or (add_or_sub is_add (staked_amount stake) amount) tt;
  let stake := stake <| staked_amount := staked |> in
  ensure (stake_baseline params <=? staked_amount stake) tt;;
  ensure (free_stake_ok params stake) tt.

Definition do_change_reserved (who : AccountId) (amount : Balance) (is_add change_reserve : bool) :
    MU unit :=
  stake ← st_gets (λ s, committee_stake s who);
  staked ← ok_or (add_or_sub is_add (staked_amount stake) amount) tt;
  (if change_reserve then
     if is_add then
       ok ← gets (λ w, can_reserve who amount w.2);
       ensure ok tt;;
       m_reserve who amount tt
     else m_unreserve who amount;; mret tt
   else mret tt);;
  st_modify (put_stake who (stake <| staked_amount := staked |>)).

(** Whether the status changed, and the new lists. *)
Definition do_change_status_when_stake_changed (params : option CommitteeStakeParamsInfo)
    (who : AccountId) (c : CommitteeList) (stake : CommitteeStakeInfo) : bool * CommitteeList :=
  let params := default CommitteeStakeParamsInfo_default params in
  let is_free_stake_enough :=
    (stake_baseline params <=? staked_amount stake) && free_stake_ok params stake in
  if is_free_stake_enough && is_fulfilling c who then
    (true, c <| fulfilling_list ::= λ l, rm_item l who |> <| normal ::= λ l, add_item l who |>)
  else if negb is_free_stake_enough && is_normal c who then
    (true, c <| normal ::= λ l, rm_item l who |> <| fulfilling_list ::= λ l, add_item l who |>)
  else (false, c).

Definition do_change_used_stake (who : AccountId) (amount : Balance) (is_add : bool) : MU unit :=
  stake ← st_gets (λ s, committee_stake s who);
  committee_list ← st_gets Committee;
  used ← ok_or (add_or_sub is_add (used_stake stake) amount) tt;
  let stake := stake <| used_stake := used |> in
  params ← st_gets CommitteeStakeParams;
  let '(is_changed, committee_list) :=
    do_change_status_when_stake_changed params who committee_list stake in
  (if is_changed : bool then st_modify (λ s, s <| Committee := committee_list |>) else mret tt);;
  st_modify (put_stake who stake).

(** ** Dispatchables *)

Definition set_committee_stake_params (origin : Origin) (params : CommitteeStakeParamsInfo) :
    MC unit :=
  ensure_root origin;;
  st_modify (λ s, s <| CommitteeStakeParams := Some params |>).

Definition add_committee (origin : Origin) (member : AccountId) : MC unit :=
  ensure_root origin;;
  committee ← st_gets Committee;
  ensure (negb (is_committee committee member)) (Module AccountAlreadyExist);;
  st_modify (λ s, s <| Committee :=
    committee <| waiting_box_pubkey ::= λ l, add_item l member |> |>);;
  st_modify (deposit_event (CommitteeAdded member)).

Definition committee_set_box_pubkey (origin : Origin) (key : H256) : MC unit :=
  who ← ensure_signed origin;
  maybe_params ← st_gets CommitteeStakeParams;
  params ← ok_or maybe_params (Module GetStakeParamsFailed);
  committee_list ← st_gets Committee;
  (if is_waiting_puk committee_list who then
     map_err (Module BalanceNotEnough) (check_stake_health who (stake_baseline params) true);;
     map_err (Module BalanceNotEnough) (do_change_reserved who (stake_baseline params) true true);;
     st_modify (λ s, s <| Committee := committee_list
       <| waiting_box_pubkey ::= λ l, rm_item l who |> <| normal ::= λ l, add_item l who |> |>)
   else if negb (is_normal committee_list who) then fail (Module StatusNotAllowed)
   else mret tt);;
  st_modify (λ s, put_stake who ((committee_stake s who) <| box_pubkey := key |>) s);;
  st_modify (deposit_event (StakeAdded who (stake_baseline params)));;
  st_modify (deposit_event (CommitteeSetBoxPubkey who key)).

Definition committee_add_stake (origin : Origin) (amount : Balance) : MC unit :=
  who ← ensure_signed origin;
  committee_list ← st_gets Committee;
  ensure (is_committee committee_list who) (Module NotCommittee);;
  map_err (Module BalanceNotEnough) (check_stake_health who amount true);;
  map_err (Module BalanceNotEnough) (do_change_reserved who amount true true);;
  (if is_fulfilling committee_list who then
     st_modify (λ s, s <| Committee := committee_list
       <| fulfilling_list ::= λ l, rm_item l who |> <| normal ::= λ l, add_item l who |> |>)
   else mret tt);;
  st_modify (deposit_event (StakeAdded who amount)).

Definition committee_reduce_stake (origin : Origin) (amount : Balance) : MC unit :=
  who ← ensure_signed origin;
  committee_list ← st_gets Committee;
  ensure (is_normal committee_list who) (Module NotInNormalList);;
  map_err (Module BalanceNotEnough) (check_stake_health who amount false);;
  map_err (Module ChangeReservedFailed) (do_change_reserved who amount false true);;
  st_modify (deposit_event (StakeReduced who amount)).

Definition claim_reward (origin : Origin) : MC unit :=
  who ← ensure_signed origin;
  stake ← st_gets (λ s, committee_stake s who);
  ensure (negb (can_claim_reward stake =? 0)) (Module NothingToClaim);;
  let reward := can_claim_reward stake in
  m_deposit_into_existing who reward (Module ClaimRewardFailed);;
  st_modify (put_stake who (stake <| claimed_reward ::= λ c, wrapping_add c reward |>
    <| can_claim_reward := 0 |>));;
  st_modify (deposit_event (ClaimedReward who reward)).

Definition chill (origin : Origin) : MC unit :=
  who ← ensure_signed origin;
  committee_list ← st_gets Committee;
  ensure (is_committee committee_list who) (Module NotCommittee);;
  if is_chill committee_list who then mret tt
  else
    ensure (negb (is_waiting_puk committee_list who)) (Module PubkeyNotSet);;
    st_modify (λ s, s <| Committee := committee_list
      <| normal ::= λ l, rm_item l who |> <| fulfilling_list ::= λ l, rm_item l who |>
      <| chill_list ::= λ l, add_item l who |> |>);;
    st_modify (deposit_event (Chill who)).

Definition undo_chill (origin : Origin) : MC unit :=
  who ← ensure_signed origin;
  committee_list ← st_gets Committee;
  ensure (is_chill committee_list who) (Module NotInChillList);;
  let committee_list := committee_list
    <| chill_list ::= λ l, rm_item l who |> <| normal ::= λ l, add_item l who |> in
  params ← st_gets CommitteeStakeParams;
  stake ← st_gets (λ s, committee_stake s who);
  let '(_, committee_list) :=
    do_change_status_when_stake_changed params who committee_list stake in
  st_modify (λ s, s <| Committee := committee_list |>);;
  st_modify (deposit_event (UndoChill who)).

Definition exit_committee (origin : Origin) : MC unit :=
  who ← ensure_signed origin;
  stake ← st_gets (λ s, committee_stake s who);
  committee_list ← st_gets Committee;
  ensure (used_stake stake =? 0) (Module JobNotDone);;
  ensure (is_chill committee_list who) (Module StatusNotFeat);;
  m_unreserve who (staked_amount stake);;
  st_modify (put_stake who (stake <| staked_amount := 0 |>));;
  st_modify (λ s, s <| Committee := committee_list <| chill_list ::= λ l, rm_item l who |> |>);;
  st_modify (deposit_event (ExitFromCandidacy who)).

(** ** [ManageCommittee], through which other pallets use the committee *)

Definition is_valid_committee (s : State) (who : AccountId) : bool := is_normal (Committee s) who.

Definition available_committee (s : State) : option (list AccountId) :=
  if Nat.eqb (length (normal (Committee s))) 0 then None else Some (normal (Committee s)).

Definition change_used_stake (who : AccountId) (amount : Balance) (is_add : bool) : MU unit :=
  do_change_used_stake who amount is_add.

Definition change_total_stake (who : AccountId) (amount : Balance) (is_add change_reserve : bool) :
    MU unit :=
  do_change_reserved who amount is_add change_reserve.

Definition stake_per_order_of (s : State) : option Balance :=
  params ← CommitteeStakeParams s; Some (stake_per_order params).

Definition add_reward (who : AccountId) (reward : Balance) : MU unit :=
  st_modify (λ s, put_stake who ((committee_stake s who)
    <| can_claim_reward ::= λ v, saturating_add U128_MAX v reward |>) s).

(** ** The pallet as a state machine *)

Inductive Call :=
| SetCommitteeStakeParams (params : CommitteeStakeParamsInfo)
| AddCommittee (member : AccountId)
| SetBoxPubkey (key : H256)
| AddStake (amount : Balance)
| ReduceStake (amount : Balance)
| ClaimRewardCall
| ChillCall
| UndoChillCall
| ExitCommittee.

Definition call_typed (c : Call) : Prop :=
  match c with
  | SetCommitteeStakeParams p =>
      0 ≤ stake_baseline p ≤ U128_MAX ∧ 0 ≤ stake_per_order p ≤ U128_MAX ∧
      0 ≤ min_free_stake_percent p ≤ accuracy
  | AddStake v | ReduceStake v => 0 ≤ v ≤ U128_MAX
  | _ => True
  end.

Definition dispatch (o : Origin) (c : Call) : MC unit :=
  transactional
    match c with
    | SetCommitteeStakeParams p => set_committee_stake_params o p
    | AddCommittee m => add_committee o m
    | SetBoxPubkey k => committee_set_box_pubkey o k
    | AddStake v => committee_add_stake o v
    | ReduceStake v => committee_reduce_stake o v
    | ClaimRewardCall => claim_reward o
    | ChillCall => chill o
    | UndoChillCall => undo_chill o
    | ExitCommittee => exit_committee o
    end.

(** What other pallets do to it. *)
Inductive Request :=
| ChangeUsedStake (who : AccountId) (amount : Balance) (is_add : bool)
| ChangeTotalStake (who : AccountId) (amount : Balance) (is_add change_reserve : bool)
| AddReward (who : AccountId) (reward : Balance).

Definition request_typed (r : Request) : Prop :=
  match r with
  | ChangeUsedStake _ v _ | ChangeTotalStake _ v _ _ | AddReward _ v => 0 ≤ v ≤ U128_MAX
  end.

Definition serve (r : Request) : MU unit :=
  match r with
  | ChangeUsedStake who v a => change_used_stake who v a
  | ChangeTotalStake who v a c => change_total_stake who v a c
  | AddReward who v => add_reward who v
  end.
End pallet.

(** ** Roles: what the four vectors mean *)

Inductive Role := Normal | Resting | Waiting | Fulfilling.
#[export] Instance Role_eq_dec : EqDecision Role.
Proof. solve_decision. Defined.

Definition list_of (c : CommitteeList) (r : Role) : list AccountId :=
  match r with
  | Normal => normal c
  | Resting => chill_list c
  | Waiting => waiting_box_pubkey c
  | Fulfilling => fulfilling_list c
  end.

(** The role the code's own predicates give an account. *)
Definition role (c : CommitteeList) (who : AccountId) : option Role :=
  if is_normal c who then Some Normal
  else if is_chill c who then Some Resting
  else if is_waiting_puk c who then Some Waiting
  else if is_fulfilling c who then Some Fulfilling
  else None.

(** The role of an account may only change this way. *)
Inductive role_step : option Role → option Role → Prop :=
| role_same r : role_step r r
| role_added : role_step None (Some Waiting)
| role_keyed : role_step (Some Waiting) (Some Normal)
| role_fulfilled : role_step (Some Fulfilling) (Some Normal)
| role_short : role_step (Some Normal) (Some Fulfilling)
| role_rest_normal : role_step (Some Normal) (Some Resting)
| role_rest_fulfilling : role_step (Some Fulfilling) (Some Resting)
| role_back : role_step (Some Resting) (Some Normal)
| role_back_short : role_step (Some Resting) (Some Fulfilling)
| role_exit : role_step (Some Resting) None.
#[local] Hint Constructors role_step : core.

Record lists_ok (c : CommitteeList) : Prop := {
  lists_sorted r : sorted (list_of c r);
  lists_disjoint r1 r2 who : who ∈ list_of c r1 → who ∈ list_of c r2 → r1 = r2;
}.

Lemma lists_ok_default : lists_ok CommitteeList_default.
Proof.
  split; [by intros [] i j x y _ Hi|].
  intros r1 r2 who Hin. exfalso. by destruct r1; apply not_elem_of_nil in Hin.
Qed.

(** The predicates of the code decide the role. *)
Lemma is_role c who r : lists_ok c →
  is_ok (binary_search (list_of c r) who) = true ↔ who ∈ list_of c r.
Proof. intros Hc. apply is_ok_search, (lists_sorted c Hc). Qed.

Lemma role_spec c who r : lists_ok c → role c who = Some r ↔ who ∈ list_of c r.
Proof.
  intros Hc. pose proof (λ r, is_role c who r Hc) as Hr. unfold role.
  pose proof (Hr Normal) as H1. pose proof (Hr Resting) as H2.
  pose proof (Hr Waiting) as H3. pose proof (Hr Fulfilling) as H4. simpl in H1, H2, H3, H4.
  fold (is_normal c who) in H1. fold (is_chill c who) in H2.
  fold (is_waiting_puk c who) in H3. fold (is_fulfilling c who) in H4.
  split.
  - repeat case_match; intros [= <-]; simpl; naive_solver.
  - intros Hin. pose proof (λ r', lists_disjoint c Hc r r' who Hin) as Hd.
    pose proof (Hd Normal) as D1. pose proof (Hd Resting) as D2.
    pose proof (Hd Waiting) as D3. pose proof (Hd Fulfilling) as D4. simpl in D1, D2, D3, D4.
    destruct (is_normal c who); [f_equal; symmetry; naive_solver|].
    destruct (is_chill c who); [f_equal; symmetry; naive_solver|].
    destruct (is_waiting_puk c who); [f_equal; symmetry; naive_solver|].
    destruct (is_fulfilling c who); [f_equal; symmetry; naive_solver|].
    destruct r; simpl in Hin; naive_solver.
Qed.

Lemma role_None c who : lists_ok c → role c who = None ↔ ∀ r, who ∉ list_of c r.
Proof.
  intros Hc. destruct (role c who) as [r|] eqn:Hr.
  - split; [done|]. intros Hn. apply role_spec in Hr; [|done]. by destruct (Hn r).
  - split; [|done]. intros _ r Hin. apply role_spec in Hin; [|done]. congruence.
Qed.

Lemma role_is_committee c who : is_committee c who = false ↔ role c who = None.
Proof. unfold is_committee, role. repeat case_match; simpl; naive_solver. Qed.

(** [c'] is [c] with the role of [who] made [ro]. *)
Record reassigned (c c' : CommitteeList) (who : AccountId) (ro : option Role) : Prop := {
  re_sorted r : sorted (list_of c' r);
  re_member w r : w ∈ list_of c' r ↔ if decide (w = who) then ro = Some r else w ∈ list_of c r;
}.

Lemma reassigned_ok c c' who ro : lists_ok c → reassigned c c' who ro → lists_ok c'.
Proof.
  intros Hc [Hs Hm]. split; [done|]. intros r1 r2 w. rewrite !Hm.
  case_decide; [congruence|]. by apply (lists_disjoint c Hc).
Qed.

Lemma reassigned_role c c' who ro w :
  lists_ok c → reassigned c c' who ro → role c' w = if decide (w = who) then ro else role c w.
Proof.
  intros Hc Hr. pose proof (reassigned_ok _ _ _ _ Hc Hr) as Hc'. destruct Hr as [_ Hm].
  destruct (role c' w) as [r|] eqn:Hrole.
  - apply role_spec in Hrole; [|done]. apply Hm in Hrole. case_decide; [done|].
    symmetry. by apply role_spec.
  - rewrite role_None in Hrole by done. case_decide.
    + destruct ro as [r|]; [|done]. destruct (Hrole r). apply Hm. by rewrite decide_True.
    + symmetry. apply role_None; [done|]. intros r Hin. apply (Hrole r), Hm. by rewrite decide_False.
Qed.

(** Changing the vector of one role. *)
Definition upd (c : CommitteeList) (r : Role) (f : list AccountId → list AccountId) : CommitteeList :=
  match r with
  | Normal => c <| normal ::= f |>
  | Resting => c <| chill_list ::= f |>
  | Waiting => c <| waiting_box_pubkey ::= f |>
  | Fulfilling => c <| fulfilling_list ::= f |>
  end.
Definition drop_role (c : CommitteeList) (r : Role) (who : AccountId) : CommitteeList :=
  upd c r (λ l, rm_item l who).
Definition give_role (c : CommitteeList) (r : Role) (who : AccountId) : CommitteeList :=
  upd c r (λ l, add_item l who).

Lemma list_of_upd c r f r' :
  list_of (upd c r f) r' = if decide (r' = r) then f (list_of c r) else list_of c r'.
Proof. by destruct r, r'. Qed.

Lemma drop_role_spec c r who :
  (∀ r, sorted (list_of c r)) →
  (∀ r', sorted (list_of (drop_role c r who) r')) ∧
  ∀ w r', w ∈ list_of (drop_role c r who) r' ↔ w ∈ list_of c r' ∧ ¬ (r' = r ∧ w = who).
Proof.
  intros Hs. pose proof (rm_item_spec (list_of c r) who (Hs r)) as [H1 H2].
  unfold drop_role. split; [intros r'|intros w r']; rewrite list_of_upd; case_decide; subst; naive_solver.
Qed.

Lemma give_role_spec c r who :
  (∀ r, sorted (list_of c r)) →
  (∀ r', sorted (list_of (give_role c r who) r')) ∧
  ∀ w r', w ∈ list_of (give_role c r who) r' ↔ w ∈ list_of c r' ∨ (r' = r ∧ w = who).
Proof.
  intros Hs. pose proof (add_item_spec (list_of c r) who (Hs r)) as [H1 H2].
  unfold give_role. split; [intros r'|intros w r']; rewrite list_of_upd; case_decide; subst; naive_solver.
Qed.

(** The moves of the code. *)
Lemma give_reassigned c r who :
  lists_ok c → role c who = None → reassigned c (give_role c r who) who (Some r).
Proof.
  intros Hc Hn. rewrite role_None in Hn by done.
  destruct (give_role_spec c r who (lists_sorted c Hc)) as [Hs Hm]. split; [done|].
  intros w r'. rewrite Hm. case_decide; subst; naive_solver.
Qed.

Lemma move_reassigned c r1 r2 who :
  lists_ok c → role c who = Some r1 →
  reassigned c (give_role (drop_role c r1 who) r2 who) who (Some r2).
Proof.
  intros Hc Hr. rewrite role_spec in Hr by done.
  destruct (drop_role_spec c r1 who (lists_sorted c Hc)) as [Hs1 Hm1].
  destruct (give_role_spec (drop_role c r1 who) r2 who Hs1) as [Hs2 Hm2]. split; [done|].
  intros w r. rewrite Hm2, Hm1. case_decide; [subst|naive_solver]. split; [|naive_solver].
  intros [[Hin Hne]|[-> _]]; [|done]. destruct Hne. split; [|done].
  by eapply lists_disjoint.
Qed.

Lemma drop_reassigned c r who :
  lists_ok c → role c who = Some r → reassigned c (drop_role c r who) who None.
Proof.
  intros Hc Hr. rewrite role_spec in Hr by done.
  destruct (drop_role_spec c r who (lists_sorted c Hc)) as [Hs Hm]. split; [done|].
  intros w r'. rewrite Hm. case_decide; [subst|naive_solver]. split; [|done].
  intros [Hin Hne]. destruct Hne. split; [|done]. by eapply lists_disjoint.
Qed.

Lemma rest_reassigned c who r :
  lists_ok c → role c who = Some r → r = Normal ∨ r = Fulfilling →
  reassigned c (give_role (drop_role (drop_role c Normal who) Fulfilling who) Resting who) who (Some Resting).
Proof.
  intros Hc Hr Hor. rewrite role_spec in Hr by done.
  destruct (drop_role_spec c Normal who (lists_sorted c Hc)) as [Hs1 Hm1].
  destruct (drop_role_spec _ Fulfilling who Hs1) as [Hs2 Hm2].
  destruct (give_role_spec _ Resting who Hs2) as [Hs3 Hm3]. split; [done|].
  intros w r'. rewrite Hm3, Hm2, Hm1. case_decide; [subst|naive_solver]. split; [|naive_solver].
  intros [[[Hin H1] H2]|[-> _]]; [|done].
  pose proof (lists_disjoint c Hc r' r who Hin Hr). destruct Hor; subst; naive_solver.
Qed.

Lemma has_role c who r : lists_ok c →
  is_ok (binary_search (list_of c r) who) = true → role c who = Some r.
Proof. intros Hc Hi. apply role_spec; [done|]. by apply is_role. Qed.

Lemma reassigned_trans c c1 c2 who r1 r2 :
  reassigned c c1 who r1 → reassigned c1 c2 who r2 → reassigned c c2 who r2.
Proof.
  intros [_ H1] [Hs H2]. split; [done|]. intros w r. rewrite H2. case_decide; [done|].
  rewrite H1. by rewrite decide_False.
Qed.

(** One account's role changed as allowed, or nothing did. *)
Definition lists_step (c c' : CommitteeList) : Prop :=
  c' = c ∨ ∃ who ro, reassigned c c' who ro ∧ role_step (role c who) ro.

Lemma lists_step_ok c c' : lists_ok c → lists_step c c' → lists_ok c'.
Proof. intros Hc [->|(who & ro & Hr & _)]; [done|]. by eapply reassigned_ok. Qed.

Lemma lists_step_role c c' who : lists_ok c → lists_step c c' → role_step (role c who) (role c' who).
Proof.
  intros Hc [->|(w & ro & Hr & Hst)]; [auto|].
  rewrite (reassigned_role _ _ _ _ who Hc Hr). case_decide; subst; auto.
Qed.

Lemma status_step `{PerThing} params who c stake :
  lists_ok c →
  let r := do_change_status_when_stake_changed params who c stake in
  r.2 = c ∨ (role c who = Some Fulfilling ∧ reassigned c r.2 who (Some Normal)) ∨
  (role c who = Some Normal ∧ reassigned c r.2 who (Some Fulfilling)).
Proof.
  intros Hc. unfold do_change_status_when_stake_changed. set (enough := (stake_baseline _ <=? _) && free_stake_ok _ _). clearbody enough.
  destruct enough; simpl.
  - destruct (is_fulfilling c who) eqn:Hf; simpl; [|by left]. right. left.
    pose proof (has_role c who Fulfilling Hc Hf) as Hr. split; [done|].
    exact (move_reassigned c Fulfilling Normal who Hc Hr).
  - destruct (is_normal c who) eqn:Hn; simpl; [|by left]. right. right.
    pose proof (has_role c who Normal Hc Hn) as Hr. split; [done|].
    exact (move_reassigned c Normal Fulfilling who Hc Hr).
Qed.

(** ** The invariant *)

Definition stake_ok (i : CommitteeStakeInfo) : Prop :=
  0 ≤ staked_amount i ≤ U128_MAX ∧ 0 ≤ used_stake i ≤ U128_MAX ∧ 0 ≤ can_claim_reward i ≤ U128_MAX.

Record Inv `{PerThing} (s : State) : Prop := {
  inv_lists : lists_ok (Committee s);
  inv_stake who : stake_ok (committee_stake s who);
  inv_params p : CommitteeStakeParams s = Some p →
    0 ≤ stake_baseline p ≤ U128_MAX ∧ 0 ≤ min_free_stake_percent p ≤ accuracy;
}.

#[export] Instance custodian : Custodian State := λ s a, staked_amount (committee_stake s a).

Section theory.
Context `{ReservableCurrencyLaws L} {P : PerThing} {LP : PerThingLaws P}.
Implicit Types (s : State) (l : L).

Lemma com_Inv_genesis : Inv genesis.
Proof.
  split; [apply lists_ok_default| |done].
  intros who. change (committee_stake genesis who) with CommitteeStakeInfo_default.
  unfold stake_ok, U128_MAX; simpl. lia.
Qed.

Lemma committee_stake_put who i s w :
  committee_stake (put_stake who i s) w = if decide (w = who) then i else committee_stake s w.
Proof.
  unfold committee_stake, put_stake. simpl. rewrite lookup_insert.
  destruct (decide (who = w)), (decide (w = who)); subst; done.
Qed.

Lemma add_or_sub_Some (is_add : bool) a b c :
  0 ≤ a ≤ U128_MAX → 0 ≤ b → add_or_sub is_add a b = Some c →
  0 ≤ c ≤ U128_MAX ∧ c = (if is_add then a + b else a - b).
Proof. intros Ha Hb. unfold add_or_sub. destruct is_add; intros; guard_inv; lia. Qed.

#[local] Arguments add_or_sub : simpl never.

(** What [do_change_reserved] does when it succeeds. *)
Lemma change_reserved_effect who v is_add res s l s' l' :
  Inv s → 0 ≤ v → do_change_reserved who v is_add res (s, l) = (Ok tt, (s', l')) →
  ∃ staked, add_or_sub is_add (staked_amount (committee_stake s who)) v = Some staked ∧
    s' = put_stake who ((committee_stake s who) <| staked_amount := staked |>) s ∧
    match res, is_add with
    | true, true => reserve who v l = Some l'
    | true, false => l' = (unreserve who v l).1
    | false, _ => l' = l
    end.
Proof.
  intros I Hv Hrun. unfold do_change_reserved in Hrun. run_inv.
  destruct res; [destruct is_add|]; run_inv; eexists; split_and!; done.
Qed.

(** What a health check that succeeds establishes. *)
Definition healthy (params : CommitteeStakeParamsInfo) (i : CommitteeStakeInfo) : Prop :=
  stake_baseline params ≤ staked_amount i ∧
  per_mul (min_free_stake_percent params) (staked_amount i) ≤ Z.max 0 (staked_amount i - used_stake i).

Lemma check_health_effect who v is_add s l w :
  check_stake_health who v is_add (s, l) = (Ok tt, w) →
  w = (s, l) ∧ ∃ params staked, CommitteeStakeParams s = Some params ∧
    add_or_sub is_add (staked_amount (committee_stake s who)) v = Some staked ∧
    healthy params ((committee_stake s who) <| staked_amount := staked |>).
Proof.
  intros Hrun. unfold check_stake_health in Hrun. run_inv. split; [done|].
  eexists _, _. split_and!; [done|done|split; [done|]].
  unfold free_stake_ok in *. by guard_inv.
Qed.

(** ** What any operation does to the lists, the stakes and the ledger *)

Record effect s l s' l' : Prop := {
  eff_lists : lists_step (Committee s) (Committee s');
  eff_stake who : stake_ok (committee_stake s' who);
  eff_params p : CommitteeStakeParams s' = Some p →
    0 ≤ stake_baseline p ≤ U128_MAX ∧ 0 ≤ min_free_stake_percent p ≤ accuracy;
  eff_money a : held s' a - held s a ≤ reserved_balance l' a - reserved_balance l a;
}.

Lemma effect_refl s l : Inv s → effect s l s l.
Proof. intros [I1 I2 I3]. split; try done; [by left|lia]. Qed.

Lemma effect_Inv s l s' l' : Inv s → effect s l s' l' → Inv s'.
Proof. intros [I1 _ _] [E1 E2 E3 _]. split; try done. by eapply lists_step_ok. Qed.

(** Events and changes of the lists alone. *)
Lemma effect_lists s l s1 l1 s2 :
  effect s l s1 l1 → lists_step (Committee s) (Committee s2) →
  CommitteeStake s2 = CommitteeStake s1 → CommitteeStakeParams s2 = CommitteeStakeParams s1 →
  effect s l s2 l1.
Proof.
  intros [E1 E2 E3 E4] Hl Hs Hp.
  assert (Hst : ∀ who, committee_stake s2 who = committee_stake s1 who)
    by (intros; unfold committee_stake; by rewrite Hs).
  split; [done| | |].
  - intros who. by rewrite Hst.
  - intros p. rewrite Hp. apply E3.
  - intros a. unfold held, custodian. rewrite Hst. apply E4.
Qed.

Lemma effect_event s l s' l' e : effect s l s' l' → effect s l (deposit_event e s') l'.
Proof. intros E. by apply (effect_lists s l s' l' (deposit_event e s') E (eff_lists _ _ _ _ E)). Qed.

(** A change of one record that leaves the staked amount. *)
Lemma effect_put s l s1 l1 who i :
  effect s l s1 l1 → staked_amount i = staked_amount (committee_stake s1 who) → stake_ok i →
  effect s l (put_stake who i s1) l1.
Proof.
  intros [E1 E2 E3 E4] Hi Hok. split; try done.
  - intros w. rewrite committee_stake_put. by case_decide.
  - intros a. specialize (E4 a). unfold held, custodian in *. rewrite committee_stake_put.
    case_decide; [subst; by rewrite Hi|done].
Qed.

(** A change of the staked amount that goes with the reserve, or that only
    lowers the amount. *)
Lemma reserved_effect who v is_add res s l s' l' :
  Inv s → 0 ≤ v → (is_add = true → res = true) →
  do_change_reserved who v is_add res (s, l) = (Ok tt, (s', l')) →
  effect s l s' l' ∧ Committee s' = Committee s ∧ CommitteeStakeParams s' = CommitteeStakeParams s.
Proof.
  intros I Hv Hres Hrun.
  destruct (change_reserved_effect _ _ _ _ _ _ _ _ I Hv Hrun) as (staked & Ha & -> & Hl).
  pose proof (inv_stake s I who) as (Hst & Hu & Hc).
  destruct (add_or_sub_Some _ _ _ _ Hst Hv Ha) as [Hrange Hval].
  split; [|done]. split; [by left| |apply (inv_params s I)|].
  - intros w. rewrite committee_stake_put. case_decide; [|apply (inv_stake s I)]. done.
  - intros a. unfold held, custodian. rewrite committee_stake_put.
    assert (reserved_balance l a + (if decide (a = who) then staked - staked_amount (committee_stake s who) else 0)
      ≤ reserved_balance l' a) as Hb.
    { destruct res, is_add; try (specialize (Hres eq_refl); done).
      - destruct (reserve_spec who v l l' Hv Hl) as [_ Hm]. destruct (Hm a) as [_ ->].
        unfold at_account. case_decide; lia.
      - subst l'. destruct (unreserve_spec who v l Hv) as [_ Hm]. destruct (Hm a) as [_ ->].
        unfold at_account. case_decide; lia.
      - subst l'. case_decide; lia. }
    case_decide; [subst; simpl|]; lia.
Qed.

Lemma dispatch_effect o c s l s' l' :
  Inv s → call_typed c → dispatch o c (s, l) = (Ok tt, (s', l')) → effect s l s' l'.
Proof.
  intros I Hty Hrun. apply transactional_Ok in Hrun. pose proof (inv_lists s I) as Hc.
  destruct c as [p|m|k|v|v| | | |]; simpl in Hty; cbn iota in Hrun.
  - unfold set_committee_stake_params in Hrun. run_inv. destruct (effect_refl s l I) as [E1 E2 E3 E4].
    split; try done. simpl. intros q [= <-]. naive_solver.
  - unfold add_committee in Hrun. run_inv. apply effect_event.
    apply (effect_lists s l s l); [by apply effect_refl| |done|done].
    right. exists m, (Some Waiting).
    match goal with Hm : is_committee _ _ = false |- _ => apply role_is_committee in Hm; rewrite Hm end.
    split; [by apply (give_reassigned _ Waiting)|auto].
  - unfold committee_set_box_pubkey in Hrun. run_inv. do 2 apply effect_event.
    destruct (is_waiting_puk (Committee s) x) eqn:Hw; run_inv.
    + match goal with Hh : check_stake_health _ _ _ _ = _ |- _ =>
        apply check_health_effect in Hh as [-> _] end.
      match goal with Hq : CommitteeStakeParams s = Some _ |- _ => destruct (inv_params s I _ Hq) as [Hbase _] end.
      match goal with Hr : do_change_reserved _ _ _ _ _ = (_, ?w) |- _ => destruct w as [s1 l1];
        destruct (reserved_effect _ _ _ _ _ _ _ _ I (proj1 Hbase) (λ _, eq_refl) Hr) as (E & Hcom & Hpar) end.
      apply effect_put; [|done|].
      * apply (effect_lists s l s1 l1); [done| |done|done]. right. exists x, (Some Normal).
        pose proof (has_role _ x Waiting Hc Hw) as Hrole. rewrite Hrole. split; [|auto].
        exact (move_reassigned _ Waiting Normal x Hc Hrole).
      * exact (eff_stake _ _ _ _ E x).
    + destruct (is_normal (Committee s) x); cbn [negb] in *; run_inv. apply effect_put; [by apply effect_refl|done|].
      exact (inv_stake s I x).
  - unfold committee_add_stake in Hrun. run_inv. apply effect_event.
    match goal with Hh : check_stake_health _ _ _ _ = _ |- _ => apply check_health_effect in Hh as [-> _] end.
    match goal with Hr : do_change_reserved _ _ _ _ _ = (_, ?w) |- _ => destruct w as [s1 l1];
      destruct (reserved_effect _ _ _ _ _ _ _ _ I (proj1 Hty) (λ _, eq_refl) Hr) as (E & Hcom & Hpar) end.
    destruct (is_fulfilling (Committee s) _) eqn:Hf; run_inv; [|done].
    apply (effect_lists s l s1 _ _ E); [|done|done]. right. eexists _, (Some Normal).
    pose proof (has_role _ _ Fulfilling Hc Hf) as Hrole. split; [|rewrite Hrole; auto].
    exact (move_reassigned _ Fulfilling Normal _ Hc Hrole).
  - unfold committee_reduce_stake in Hrun. run_inv. apply effect_event.
    match goal with Hh : check_stake_health _ _ _ _ = _ |- _ => apply check_health_effect in Hh as [-> _] end.
    match goal with Hr : do_change_reserved _ _ _ _ _ = (_, ?w) |- _ => destruct w as [s1 l1];
      destruct (reserved_effect _ _ _ _ _ _ _ _ I (proj1 Hty) (λ _, eq_refl) Hr) as (E & _) end. exact E.
  - unfold claim_reward in Hrun. run_inv. apply effect_event.
    match goal with Hd : deposit_into_existing ?w ?v _ = Some ?l1 |- _ =>
      destruct (inv_stake s I w) as (? & ? & ?);
      pose proof (deposit_spec w v l l1 ltac:(lia) Hd) as Hm end.
    destruct (effect_refl s l I) as [E1 E2 E3 E4].
    apply effect_put; [|done|].
    + split; try done. intros a. destruct (Hm a) as [_ ->]. specialize (E4 a). lia.
    + unfold stake_ok; simpl. unfold U128_MAX in *. lia.
  - unfold chill in Hrun. run_inv. destruct (is_chill (Committee s) x) eqn:Hch; run_inv.
    { by apply effect_refl. }
    apply effect_event. apply (effect_lists s l s l); [by apply effect_refl| |done|done].
    destruct (role (Committee s) x) as [r|] eqn:Hrole.
    + right. exists x, (Some Resting). rewrite Hrole.
      assert (r = Normal ∨ r = Fulfilling) as Hr.
      { unfold role in Hrole. rewrite Hch in Hrole. repeat case_match; simplify_eq; auto. }
      split; [exact (rest_reassigned _ x r Hc Hrole Hr)|destruct Hr; subst; auto].
    + apply role_is_committee in Hrole. congruence.
  - unfold undo_chill in Hrun. run_inv.
    match goal with Hch : is_chill _ _ = true |- _ => pose proof (has_role _ _ Resting Hc Hch) as Hrole end.
    pose proof (move_reassigned _ Resting Normal _ Hc Hrole) as Hmove.
    match goal with Hr : context [do_change_status_when_stake_changed ?p ?w ?c ?st] |- _ =>
      pose proof (status_step p w c st (reassigned_ok _ _ _ _ Hc Hmove)) as Hst;
      destruct (do_change_status_when_stake_changed p w c st) as [b c'] end.
    simpl in Hst. run_inv. apply effect_event.
    apply (effect_lists s l s l); [by apply effect_refl| |done|done]. right. simpl.
    destruct Hst as [->|[[_ Hre]|[_ Hre]]].
    + eexists _, _. split; [exact Hmove|]. rewrite Hrole. auto.
    + eexists _, _. split; [exact (reassigned_trans _ _ _ _ _ _ Hmove Hre)|]. rewrite Hrole. auto.
    + eexists _, _. split; [exact (reassigned_trans _ _ _ _ _ _ Hmove Hre)|]. rewrite Hrole. auto.
  - unfold exit_committee in Hrun. run_inv. apply effect_event.
    match goal with Hch : is_chill _ ?x = true |- _ =>
      pose proof (has_role _ _ Resting Hc Hch) as Hrole; rename x into who end.
    destruct (inv_stake s I who) as (Hst & Hu & Hcl).
    eapply (effect_lists s l (put_stake who ((committee_stake s who) <| staked_amount := 0 |>) s));
      [| |done|done].
    + destruct (effect_refl s l I) as [E1 E2 E3 E4]. split; try done.
      * intros w. rewrite committee_stake_put. case_decide; [|done].
        unfold stake_ok in *; simpl. unfold U128_MAX in *. lia.
      * intros a. destruct (unreserve_spec who (staked_amount (committee_stake s who)) l ltac:(lia)) as [_ Hm].
        destruct (Hm a) as [_ ->]. unfold held, custodian. rewrite committee_stake_put.
        unfold at_account. case_decide; [subst; simpl|]; lia.
    + right. exists who, None. rewrite Hrole. split; [|auto]. exact (drop_reassigned _ Resting who Hc Hrole).
Qed.

(** ** Requests of other pallets *)

(** Every caller that raises a stake also reserves it. *)
Definition backed (r : Request) : Prop :=
  match r with
  | ChangeTotalStake _ _ is_add change_reserve => is_add = true → change_reserve = true
  | _ => True
  end.

Lemma serve_effect r s l s' l' :
  Inv s → request_typed r → backed r → serve r (s, l) = (Ok tt, (s', l')) → effect s l s' l'.
Proof.
  intros I Hty Hb Hrun. pose proof (inv_lists s I) as Hc.
  destruct r as [who v a|who v a c|who v]; simpl in Hty, Hb; cbn [serve] in Hrun.
  - unfold change_used_stake, do_change_used_stake in Hrun. run_inv.
    match goal with Ha : add_or_sub _ _ _ = Some ?u |- _ =>
      destruct (inv_stake s I who) as (Hst & Hu & Hcl);
      destruct (add_or_sub_Some _ _ _ _ Hu (proj1 Hty) Ha) as [Hrange _]; rename u into used end.
    match goal with Hr : context [do_change_status_when_stake_changed ?p ?w ?c ?st] |- _ =>
      pose proof (status_step p w c st Hc) as Hstep;
      destruct (do_change_status_when_stake_changed p w c st) as [b c'] end.
    simpl in Hstep.
    assert (effect s l (put_stake who ((committee_stake s who) <| used_stake := used |>) s) l) as E.
    { apply effect_put; [by apply effect_refl|done|]. done. }
    destruct b; run_inv; [|done]. apply (effect_lists s l _ l _ E); [|done|done]. simpl.
    destruct Hstep as [->|[[Hrole Hre]|[Hrole Hre]]]; [by left|right..]; exists who; eexists;
      (split; [exact Hre|rewrite Hrole; auto]).
  - unfold change_total_stake in Hrun. by destruct (reserved_effect _ _ _ _ _ _ _ _ I (proj1 Hty) Hb Hrun).
  - unfold add_reward in Hrun. run_inv. apply effect_put; [by apply effect_refl|done|].
    destruct (inv_stake s I who) as (Hst & Hu & Hcl). unfold stake_ok; simpl.
    unfold saturating_add. split_and!; lia.
Qed.

(** A refused request has changed nothing. *)
Lemma serve_Err r w e w' : serve r w = (Err e, w') → w' = w.
Proof.
  destruct r as [who v a|who v a c|who v]; destruct w as [s l]; cbn [serve].
  - unfold change_used_stake, do_change_used_stake, st_gets, gets, ok_or, mbind, M_bind; simpl.
    destruct (add_or_sub _ _ _); simpl; [|naive_solver].
    destruct (do_change_status_when_stake_changed _ _ _ _) as [[] ?]; by simpl.
  - unfold change_total_stake, do_change_reserved, m_reserve, ensure, st_gets, gets, ok_or, mbind, M_bind; simpl.
    destruct (add_or_sub _ _ _); simpl; [|naive_solver].
    destruct c, a; simpl; try done.
    + destruct (can_reserve who v l); simpl; [|naive_solver]. destruct (reserve who v l); naive_solver.
    + rewrite m_unreserve_run. by simpl.
  - done.
Qed.

(** A change of the total stake leaves everyone's role, also of a member whose
    stake falls below the baseline. *)
Theorem com_total_stake_keeps_lists who v is_add res s l s' l' :
  Inv s → 0 ≤ v → serve (ChangeTotalStake who v is_add res) (s, l) = (Ok tt, (s', l')) →
  Committee s' = Committee s.
Proof.
  intros I Hv Hrun. by destruct (change_reserved_effect _ _ _ _ _ _ _ _ I Hv Hrun) as (st & _ & -> & _).
Qed.

Inductive pallet_step : State * L → State * L → Prop :=
| step_call w o c : call_typed c → pallet_step w (dispatch o c w).2
| step_request w r : request_typed r → backed r → pallet_step w (serve r w).2.
Inductive step : State * L → State * L → Prop :=
| step_pallet w w' : pallet_step w w' → step w w'
| step_ledger s l l' : step (s, l) (s, l').
Definition reachable (w : State * L) : Prop := ∃ l, rtc step (genesis, l) w.

Lemma step_effect w w' : Inv w.1 → pallet_step w w' → effect w.1 w.2 w'.1 w'.2.
Proof.
  intros I Hstep. destruct Hstep as [[s l] o c Hty|[s l] r Hty Hb]; simpl in *.
  - destruct (dispatch o c (s, l)) as [[[]|e] [s' l']] eqn:Hrun; [by eapply dispatch_effect|].
    apply transactional_Err in Hrun. simplify_eq. by apply effect_refl.
  - destruct (serve r (s, l)) as [[[]|e] [s' l']] eqn:Hrun; [by eapply serve_effect|].
    apply serve_Err in Hrun. simplify_eq. by apply effect_refl.
Qed.

Lemma com_Inv_step w w' : step w w' → Inv w.1 → Inv w'.1.
Proof.
  intros [? ? Hstep|s l l'] I; [|done]. by eapply effect_Inv, step_effect.
Qed.
Lemma com_Inv_reachable w : reachable w → Inv w.1.
Proof.
  intros [l Hr]. revert Hr. apply (rtc_invariant step (λ w, Inv w.1)); [|apply com_Inv_genesis].
  intros. by eapply com_Inv_step.
Qed.

(** ** What the staking calls do *)

Definition staked_with (i : CommitteeStakeInfo) (v : Balance) : CommitteeStakeInfo :=
  i <| staked_amount := v |>.

Lemma stake_at s who i : CommitteeStake s !! who = Some i → committee_stake s who = i.
Proof. intros Hi. unfold committee_stake. by rewrite Hi. Qed.

(** Reads the record just written to the state that is not [s]. *)
Ltac read_stake s :=
  repeat match goal with |- context [committee_stake ?z ?who] =>
    lazymatch z with s => fail | _ =>
      rewrite (stake_at z who _ ltac:(simpl; apply lookup_insert_eq)) end end.

Lemma add_stake_effect o v s l s' l' :
  Inv s → 0 ≤ v → committee_add_stake o v (s, l) = (Ok tt, (s', l')) →
  ∃ who params, o = Signed who ∧ CommitteeStakeParams s = Some params ∧
    committee_stake s' who =
      staked_with (committee_stake s who) (staked_amount (committee_stake s who) + v) ∧
    healthy params (committee_stake s' who) ∧ reserve who v l = Some l'.
Proof.
  intros I Hv Hrun. unfold committee_add_stake in Hrun. run_inv.
  match goal with Hh : check_stake_health _ _ _ _ = _ |- _ =>
    apply check_health_effect in Hh as [-> (params & staked & Hp & Ha & Hh)] end.
  match goal with Hr : do_change_reserved ?who _ _ _ _ = (_, ?w) |- _ =>
    destruct w as [s1 l1]; exists who, params; rename who into who';
    destruct (change_reserved_effect _ _ _ _ _ _ _ _ I Hv Hr) as (st & Hst & -> & Hl); clear Hr end.
  simplify_eq. destruct (add_or_sub_Some _ _ _ _ (proj1 (inv_stake s I _)) Hv Ha) as [_ ->].
  match goal with Hr : (if ?b then _ else _) _ = _ |- _ => destruct b end; run_inv.
  all: read_stake s; by split_and!.
Qed.

Lemma reduce_stake_effect o v s l s' l' :
  Inv s → 0 ≤ v → committee_reduce_stake o v (s, l) = (Ok tt, (s', l')) →
  ∃ who params, o = Signed who ∧ CommitteeStakeParams s = Some params ∧
    v ≤ staked_amount (committee_stake s who) ∧
    committee_stake s' who =
      staked_with (committee_stake s who) (staked_amount (committee_stake s who) - v) ∧
    healthy params (committee_stake s' who) ∧ l' = (unreserve who v l).1.
Proof.
  intros I Hv Hrun. unfold committee_reduce_stake in Hrun. run_inv.
  match goal with Hh : check_stake_health _ _ _ _ = _ |- _ =>
    apply check_health_effect in Hh as [-> (params & staked & Hp & Ha & Hh)] end.
  match goal with Hr : do_change_reserved ?who _ _ _ _ = (_, ?w) |- _ =>
    destruct w as [s1 l1]; exists who, params; rename who into who';
    destruct (change_reserved_effect _ _ _ _ _ _ _ _ I Hv Hr) as (st & Hst & -> & Hl); clear Hr end.
  simplify_eq. destruct (add_or_sub_Some _ _ _ _ (proj1 (inv_stake s I _)) Hv Ha) as [? ->].
  read_stake s. solve_facts.
Qed.

Lemma exit_effect o s l s' l' :
  exit_committee o (s, l) = (Ok tt, (s', l')) →
  ∃ who, o = Signed who ∧ is_chill (Committee s) who = true ∧
    used_stake (committee_stake s who) = 0 ∧ Committee s' = drop_role (Committee s) Resting who ∧
    committee_stake s' who = staked_with (committee_stake s who) 0 ∧
    l' = (unreserve who (staked_amount (committee_stake s who)) l).1.
Proof.
  intros Hrun. unfold exit_committee in Hrun. run_inv. eexists.
  read_stake s. by split_and!.
Qed.

(** The four vectors implement a role per account: in every reachable
    state each is strictly sorted, no account is in two of them, so the
    code's searches find exactly the members, and whatever call or request of
    another pallet comes next, the role of every account stays or changes as a
    committee member's may: added, keyed, short of stake and back, resting and
    back, and gone only from resting. *)
Theorem com_roles_machine w w' :
  reachable w → step w w' →
  lists_ok (Committee w'.1) ∧
  (∀ who r, role (Committee w'.1) who = Some r ↔ who ∈ list_of (Committee w'.1) r) ∧
  (∀ who, role_step (role (Committee w.1) who) (role (Committee w'.1) who)).
Proof.
  intros I%com_Inv_reachable Hstep. pose proof (com_Inv_step w w' Hstep I) as I'.
  split_and!; [apply (inv_lists _ I')|intros; apply role_spec, (inv_lists _ I')|].
  intros who. apply lists_step_role; [apply (inv_lists _ I)|].
  destruct Hstep as [? ? Hstep|s l l']; [|by left]. by apply (eff_lists _ _ _ _ (step_effect _ _ I Hstep)).
Qed.

(** No call or request promises more than is reserved: the reserved
    balances keep covering every recorded stake on top of what other pallets
    hold. *)
Theorem com_steps_solvent ext w w' :
  reachable w → pallet_step w w' → solvent ext w → solvent ext w'.
Proof.
  intros I%com_Inv_reachable Hstep Hs. pose proof (step_effect w w' I Hstep) as E.
  destruct w as [s l], w' as [s' l']. eapply solvent_reserved; [|exact Hs].
  exact (eff_money _ _ _ _ E).
Qed.

(** Staking is exact: adding (or reducing) moves exactly the amount
    into (or out of) the member's reserve and its record, only if the stake
    then reaches the baseline and enough of it is free; leaving returns the
    whole recorded stake and needs a resting member without a job. *)
Theorem com_stake_exact ext o v s l s' l' :
  (∀ a, 0 ≤ ext a) → Inv s → solvent ext (s, l) → 0 ≤ v ≤ U128_MAX →
  (dispatch o (AddStake v) (s, l) = (Ok tt, (s', l')) → ∃ who params, o = Signed who ∧
     CommitteeStakeParams s = Some params ∧ healthy params (committee_stake s' who) ∧
     staked_amount (committee_stake s' who) = staked_amount (committee_stake s who) + v ∧
     moves l l' (at_account who (- v)) (at_account who v)) ∧
  (dispatch o (ReduceStake v) (s, l) = (Ok tt, (s', l')) → ∃ who params, o = Signed who ∧
     CommitteeStakeParams s = Some params ∧ healthy params (committee_stake s' who) ∧
     staked_amount (committee_stake s' who) = staked_amount (committee_stake s who) - v ∧
     moves l l' (at_account who v) (at_account who (- v))) ∧
  (dispatch o ExitCommittee (s, l) = (Ok tt, (s', l')) → ∃ who, o = Signed who ∧
     role (Committee s) who = Some Resting ∧ role (Committee s') who = None ∧
     used_stake (committee_stake s who) = 0 ∧ staked_amount (committee_stake s' who) = 0 ∧
     let stake := staked_amount (committee_stake s who) in
     moves l l' (at_account who stake) (at_account who (- stake))).
Proof.
  intros Hext I Hs Hv. pose proof (inv_lists s I) as Hc.
  assert (Hcov : ∀ who, staked_amount (committee_stake s who) ≤ reserved_balance l who)
    by (intros who; by apply (solvent_covers ext s l who)).
  split_and!; intros Hrun; apply transactional_Ok in Hrun; cbn iota in Hrun.
  - destruct (add_stake_effect _ _ _ _ _ _ I (proj1 Hv) Hrun) as (who & params & Ho & Hp & Hst & Hh & Hr).
    exists who, params. rewrite Hst in Hh |- *. split_and!; try done; [apply Hh..|].
    apply (reserve_spec who v l l' (proj1 Hv) Hr).
  - destruct (reduce_stake_effect _ _ _ _ _ _ I (proj1 Hv) Hrun) as (who & params & Ho & Hp & Hle & Hst & Hh & ->).
    exists who, params. rewrite Hst in Hh |- *. split_and!; try done; [apply Hh..|].
    destruct (unreserve_spec who v l (proj1 Hv)) as [_ Hm]. rewrite Z.min_l in Hm; [done|].
    specialize (Hcov who). lia.
  - destruct (exit_effect _ _ _ _ _ Hrun) as (who & Ho & Hch & Hu & Hcom & Hst & ->).
    pose proof (has_role _ who Resting Hc Hch) as Hrole. exists who. rewrite Hst, Hcom.
    split_and!; try done.
    + rewrite (reassigned_role _ _ _ _ who Hc (drop_reassigned _ _ _ Hc Hrole)). by rewrite decide_True.
    + simpl. destruct (inv_stake s I who) as (Hrange & _).
      destruct (unreserve_spec who _ l (proj1 Hrange)) as [_ Hm]. by rewrite Z.min_l in Hm.
Qed.
End theory.

(** ** A run: account 1 joins with the baseline of 100 and adds 50 *)
Module Demo.
#[local] Existing Instances perbill perbill_laws.
Definition params : CommitteeStakeParamsInfo := {|
  stake_baseline := 100; stake_per_order := 10; min_free_stake_percent := 400000000 |}.
Definition ledger : Ledger.t := {[1%N := (1000, 0)%N]}.
Abbreviation world := (State * Ledger.t)%type.
Definition act (o : Origin) (c : Call) (w : world) : world := (dispatch o c w).2.
Definition set_up : world := act Root (SetCommitteeStakeParams params) (genesis, ledger).
Definition waiting : world := act Root (AddCommittee 1%N) set_up.
Definition working : world := act (Signed 1%N) (SetBoxPubkey 7%N) waiting.
Definition richer : world := act (Signed 1%N) (AddStake 50) working.
Lemma com_act_run o c w : (dispatch o c w).1 = Ok tt → dispatch o c w = (Ok tt, act o c w).
Proof. apply run_eta. Qed.
#[local] Strategy 1000 [set_up waiting working richer act].

Lemma params_typed : call_typed (SetCommitteeStakeParams params).
Proof. simpl. unfold U128_MAX. lia. Qed.
Lemma com_act_reachable o c w : call_typed c → reachable w → reachable (act o c w).
Proof.
  intros Hty [l Hr]. exists l. eapply rtc_r; [exact Hr|]. apply step_pallet. exact (step_call w o c Hty).
Qed.
Lemma com_act_solvent o c w :
  call_typed c → reachable w → solvent (λ _, 0) w → solvent (λ _, 0) (act o c w).
Proof.
  intros Hty Hr. pose proof (com_Inv_reachable _ Hr) as I.
  pose proof (step_effect w (act o c w) I (step_call w o c Hty)) as E.
  destruct w as [s l], (act o c (s, l)) as [s' l']. apply solvent_reserved. exact (eff_money _ _ _ _ E).
Qed.
Lemma working_reachable : reachable working.
Proof.
  apply com_act_reachable; [exact Logic.I|]. apply com_act_reachable; [exact Logic.I|].
  apply com_act_reachable; [exact params_typed|]. by exists ledger.
Qed.
Lemma working_solvent : solvent (λ _, 0) working.
Proof.
  assert (reachable set_up) by (apply com_act_reachable; [exact params_typed|by exists ledger]).
  apply com_act_solvent; [exact Logic.I|by apply com_act_reachable|].
  apply com_act_solvent; [exact Logic.I|done|].
  apply com_act_solvent; [exact params_typed|by exists ledger|]. intros a. apply Ledger.nonneg.
Qed.
Lemma fifty_typed : call_typed (AddStake 50).
Proof. simpl. unfold U128_MAX. lia. Qed.

Lemma com_roles_machine_witness :
  role (Committee working.1) 1%N = Some Normal ∧
  role_step (role (Committee working.1) 1%N) (role (Committee (dispatch (Signed 1%N) ChillCall working).2.1) 1%N).
Proof.
  split; [vm_compute; reflexivity|].
  destruct (com_roles_machine working (dispatch (Signed 1%N) ChillCall working).2) as (_ & _ & Hr).
  - exact working_reachable.
  - apply step_pallet. exact (step_call working (Signed 1%N) ChillCall Logic.I).
  - exact (Hr 1%N).
Defined.

Lemma com_steps_solvent_witness : solvent (λ _, 0) richer.
Proof.
  exact (com_steps_solvent (λ _, 0) working richer working_reachable
           (step_call working (Signed 1%N) (AddStake 50) fifty_typed) working_solvent).
Defined.

Lemma com_stake_exact_witness :
  staked_amount (committee_stake richer.1 1%N) = 150 ∧
  ∃ who, Signed 1%N = Signed who ∧ moves working.2 richer.2 (at_account who (- 50)) (at_account who 50).
Proof.
  assert (dispatch (Signed 1%N) (AddStake 50) working = (Ok tt, richer)) as Hrun
    by (unfold richer; apply com_act_run; vm_compute; reflexivity).
  split; [vm_compute; reflexivity|].
  destruct (com_stake_exact (λ _, 0) (Signed 1%N) 50 working.1 working.2 richer.1 richer.2) as [Ha _].
  - intros a. lia.
  - exact (com_Inv_reachable _ working_reachable).
  - rewrite <-surjective_pairing. exact working_solvent.
  - exact fifty_typed.
  - rewrite <-!surjective_pairing in Ha. destruct (Ha Hrun) as (who & p & Ho & _ & _ & _ & Hm).
    exists who. split; [exact Ho|exact Hm].
Defined.
End Demo.
End Committee.
