(* ===== verification/VerifyOnline.v ===== *)
(** * Verification of machines: the data and decisions of dbc-support

    What the verifying pallets share: the hardware report of a committee member
    and its hash, the records of a verification in progress (who is booked, has
    submitted a hash, has revealed the report), and the decision over the
    reports. Models src/pallets/support/src: machine_type.rs
    (CommitteeUploadInfo), verify_online.rs, verify_committee_slash.rs,
    custom_err.rs, primitives.rs (the time constants), and the
    [OnlineCommitteeSummary] trait of utils.rs. *)
From Stdlib Require Import ZArith Lia Strings.Byte Strings.String DecimalString DecimalN.
From stdpp Require Import base gmap fin_maps list numbers.
From S2P Require Import Prelude ItemList.

Module VerifyOnline.
Import ItemList.

Abbreviation MachineId := (list byte) (only parsing).
(** A 16-byte hash; its order as an array is its order as a number. *)
Abbreviation Hash16 := N (only parsing).

Definition ONE_MINUTE : Z := 10.
Definition ONE_HOUR : Z := 60 * ONE_MINUTE.
Definition ONE_DAY : Z := 24 * ONE_HOUR.
Definition TWO_DAYS : Z := 2 * ONE_DAY.
Definition SUBMIT_RAW_START : Z := 36 * ONE_HOUR.
Definition SUBMIT_RAW_END : Z := 48 * ONE_HOUR.
Definition SUBMIT_HASH_END : Z := 36 * ONE_HOUR.

(** [a + b] on block numbers: 32 bits, wrapping in a release build. *)
Definition add_block (a b : BlockNumber) : BlockNumber := (a + b) mod 2 ^ 32.

(** ** The report of a committee member *)

Record CommitteeUploadInfo := {
  machine_id : MachineId;
  gpu_type : bytes;
  gpu_num : Z;
  cuda_core : Z;
  gpu_mem : Z;
  calc_point : Z;
  sys_disk : Z;
  data_disk : Z;
  cpu_type : bytes;
  cpu_core_num : Z;
  cpu_rate : Z;
  mem_num : Z;
  rand_str : bytes;
  is_support : bool;
}.
#[export] Instance CommitteeUploadInfo_eta : RecordEta CommitteeUploadInfo := λ i,
  Build_CommitteeUploadInfo (machine_id i) (gpu_type i) (gpu_num i) (cuda_core i) (gpu_mem i)
    (calc_point i) (sys_disk i) (data_disk i) (cpu_type i) (cpu_core_num i) (cpu_rate i)
    (mem_num i) (rand_str i) (is_support i).
Definition CommitteeUploadInfo_default : CommitteeUploadInfo := {|
  machine_id := []; gpu_type := []; gpu_num := 0; cuda_core := 0; gpu_mem := 0; calc_point := 0;
  sys_disk := 0; data_disk := 0; cpu_type := []; cpu_core_num := 0; cpu_rate := 0; mem_num := 0;
  rand_str := []; is_support := false |}.

(** The derived order is lexicographic in the order of the fields. *)
Definition upload_key (i : CommitteeUploadInfo) :=
  (machine_id i, (gpu_type i, (gpu_num i, (cuda_core i, (gpu_mem i, (calc_point i, (sys_disk i,
   (data_disk i, (cpu_type i, (cpu_core_num i, (cpu_rate i, (mem_num i, (rand_str i,
   is_support i))))))))))))).
#[export] Instance CommitteeUploadInfo_eq_dec : EqDecision CommitteeUploadInfo.
Proof. solve_decision. Defined.
#[export] Instance CommitteeUploadInfo_ord : Ord CommitteeUploadInfo := ord_by upload_key.
#[export] Instance CommitteeUploadInfo_ord_laws : OrdLaws CommitteeUploadInfo.
Proof. apply ord_by_laws. intros [] []; unfold upload_key; simpl. by intros [= -> -> -> -> -> -> -> -> -> -> -> -> -> ->]. Qed.

(** [to_string] of an unsigned integer: its decimal digits. *)
Definition to_string (n : Z) : bytes :=
  String.list_byte_of_string (NilZero.string_of_uint (N.to_uint (Z.to_N n))).
Definition join_str (items : list Z) : bytes := foldl (λ output item, output ++ to_string item) [] items.

Definition raw_info (i : CommitteeUploadInfo) : bytes :=
  machine_id i ++ gpu_type i ++
  join_str [gpu_num i; cuda_core i; gpu_mem i; calc_point i; sys_disk i; data_disk i] ++
  cpu_type i ++ join_str [cpu_core_num i; cpu_rate i; mem_num i] ++
  rand_str i ++ (if is_support i then [x31] else [x30]).

Definition hash (blake2_128 : bytes → Hash16) (i : CommitteeUploadInfo) : Hash16 :=
  blake2_128 (raw_info i).

(** ** Records of a verification *)

Inductive VerifyErr :=
| NotInBookList | TimeNotAllow | AlreadySubmitHash | AlreadySubmitRaw | NotSubmitHash | Overflow.

Inductive VerifyResult := Confirmed | Refused | NoConsensus.
Inductive OCBookResultType := OnlineSucceed | OnlineRefused | BookNoConsensus.
Inductive OCVerifyStatus := SubmittingHash | SubmittingRaw | Summarizing | Finished.
Inductive OCMachineStatus := Booked | Hashed | MachineConfirmed.
Inductive OCSlashResult := Pending | Canceled | Executed.

#[export] Instance VerifyResult_eq_dec : EqDecision VerifyResult.
Proof. solve_decision. Defined.
#[export] Instance OCBookResultType_eq_dec : EqDecision OCBookResultType.
Proof. solve_decision. Defined.
#[export] Instance OCVerifyStatus_eq_dec : EqDecision OCVerifyStatus.
Proof. solve_decision. Defined.
#[export] Instance OCSlashResult_eq_dec : EqDecision OCSlashResult.
Proof. solve_decision. Defined.

Record Summary := {
  valid_vote : list AccountId;
  invalid_vote : list AccountId;
  unruly : list AccountId;
  info : option CommitteeUploadInfo;
  verify_result : VerifyResult;
}.
#[export] Instance Summary_eta : RecordEta Summary := λ s,
  Build_Summary (valid_vote s) (invalid_vote s) (unruly s) (info s) (verify_result s).
Definition Summary_default : Summary := {|
  valid_vote := []; invalid_vote := []; unruly := []; info := None; verify_result := Confirmed |}.

Definition should_slash_committee (s : Summary) : bool :=
  if negb (Nat.eqb (length (unruly s)) 0) then true
  else match verify_result s with
       | NoConsensus => false
       | Confirmed | Refused => negb (Nat.eqb (length (invalid_vote s)) 0)
       end.

Definition into_book_result (s : Summary) : OCBookResultType :=
  match verify_result s with
  | Confirmed => OnlineSucceed
  | Refused => OnlineRefused
  | NoConsensus => BookNoConsensus
  end.

Record OCCommitteeOps := {
  staked_dbc : Balance;
  verify_time : list BlockNumber;
  confirm_hash : Hash16;
  hash_time : BlockNumber;
  confirm_time : BlockNumber;
  machine_status : OCMachineStatus;
  machine_info : CommitteeUploadInfo;
}.
#[export] Instance OCCommitteeOps_eta : RecordEta OCCommitteeOps := λ o,
  Build_OCCommitteeOps (staked_dbc o) (verify_time o) (confirm_hash o) (hash_time o)
    (confirm_time o) (machine_status o) (machine_info o).
Definition OCCommitteeOps_default : OCCommitteeOps := {|
  staked_dbc := 0; verify_time := []; confirm_hash := 0%N; hash_time := 0; confirm_time := 0;
  machine_status := Booked; machine_info := CommitteeUploadInfo_default |}.

Definition ops_submit_hash (time : BlockNumber) (h : Hash16) (o : OCCommitteeOps) : OCCommitteeOps :=
  o <| machine_status := Hashed |> <| confirm_hash := h |> <| hash_time := time |>.
Definition ops_submit_raw (time : BlockNumber) (i : CommitteeUploadInfo) (o : OCCommitteeOps) :
    OCCommitteeOps :=
  o <| confirm_time := time |> <| machine_status := MachineConfirmed |>
    <| machine_info := i <| rand_str := [] |> |>.

Record OCCommitteeMachineList := {
  booked_machine : list MachineId;
  hashed_machine : list MachineId;
  confirmed_machine : list MachineId;
  online_machine : list MachineId;
}.
#[export] Instance OCCommitteeMachineList_eta : RecordEta OCCommitteeMachineList := λ l,
  Build_OCCommitteeMachineList (booked_machine l) (hashed_machine l) (confirmed_machine l)
    (online_machine l).
Definition OCCommitteeMachineList_default : OCCommitteeMachineList := {|
  booked_machine := []; hashed_machine := []; confirmed_machine := []; online_machine := [] |}.

Definition list_submit_hash (m : MachineId) (l : OCCommitteeMachineList) : OCCommitteeMachineList :=
  l <| booked_machine ::= λ x, rm_item x m |> <| hashed_machine ::= λ x, add_item x m |>.
Definition list_submit_raw (m : MachineId) (l : OCCommitteeMachineList) :
    result VerifyErr OCCommitteeMachineList :=
  if negb (is_ok (binary_search (hashed_machine l) m)) then Err NotSubmitHash
  else if is_ok (binary_search (confirmed_machine l) m) then Err AlreadySubmitRaw
  else Ok (l <| hashed_machine ::= λ x, rm_item x m |> <| confirmed_machine ::= λ x, add_item x m |>).
Definition list_revert_book (m : MachineId) (l : OCCommitteeMachineList) : OCCommitteeMachineList :=
  l <| booked_machine ::= λ x, rm_item x m |> <| hashed_machine ::= λ x, rm_item x m |>
    <| confirmed_machine ::= λ x, rm_item x m |>.
Definition list_online_cleanup (m : MachineId) (l : OCCommitteeMachineList) : OCCommitteeMachineList :=
  l <| booked_machine ::= λ x, rm_item x m |> <| hashed_machine ::= λ x, rm_item x m |>
    <| confirmed_machine ::= λ x, rm_item x m |>.

Record OCMachineCommitteeList := {
  book_time : BlockNumber;
  booked_committee : list AccountId;
  hashed_committee : list AccountId;
  confirm_start_time : BlockNumber;
  confirmed_committee : list AccountId;
  onlined_committee : list AccountId;
  status : OCVerifyStatus;
}.
#[export] Instance OCMachineCommitteeList_eta : RecordEta OCMachineCommitteeList := λ c,
  Build_OCMachineCommitteeList (book_time c) (booked_committee c) (hashed_committee c)
    (confirm_start_time c) (confirmed_committee c) (onlined_committee c) (status c).
Definition OCMachineCommitteeList_default : OCMachineCommitteeList := {|
  book_time := 0; booked_committee := []; hashed_committee := []; confirm_start_time := 0;
  confirmed_committee := []; onlined_committee := []; status := SubmittingHash |}.

Definition mc_submit_hash (committee : AccountId) (c : OCMachineCommitteeList) :
    result VerifyErr OCMachineCommitteeList :=
  if negb (is_ok (binary_search (booked_committee c) committee)) then Err NotInBookList
  else if is_ok (binary_search (hashed_committee c) committee) then Err AlreadySubmitHash
  else
    let c := c <| hashed_committee ::= λ x, add_item x committee |> in
    Ok (if Nat.eqb (length (booked_committee c)) (length (hashed_committee c))
        then c <| status := SubmittingRaw |> else c).

Definition can_submit_raw (now : BlockNumber) (c : OCMachineCommitteeList) : bool :=
  bool_decide (status c = SubmittingHash) && (add_block (book_time c) SUBMIT_RAW_START <=? now).

Definition mc_submit_raw (time : BlockNumber) (committee : AccountId) (c : OCMachineCommitteeList) :
    result VerifyErr OCMachineCommitteeList :=
  if negb (bool_decide (status c = SubmittingRaw)) &&
     negb ((confirm_start_time c <=? time) && (time <=? add_block (book_time c) SUBMIT_RAW_END))
  then Err TimeNotAllow
  else if negb (is_ok (binary_search (hashed_committee c) committee)) then Err NotSubmitHash
  else
    let c := c <| confirmed_committee ::= λ x, add_item x committee |> in
    Ok (if Nat.eqb (length (confirmed_committee c)) (length (hashed_committee c))
        then c <| status := Summarizing |> else c).

Definition can_summary (now : BlockNumber) (c : OCMachineCommitteeList) : bool :=
  bool_decide (status c = Summarizing) ||
  bool_decide (status c = SubmittingRaw) && (add_block (book_time c) SUBMIT_RAW_END <=? now).

Definition summary_unruly (c : OCMachineCommitteeList) : list AccountId :=
  foldl (λ unruly a_committee,
    if is_ok (binary_search (confirmed_committee c) a_committee) then unruly
    else add_item unruly a_committee) [] (booked_committee c).

Definition after_summary (summary_result : Summary) (c : OCMachineCommitteeList) :
    OCMachineCommitteeList :=
  match verify_result summary_result with
  | Confirmed => c <| status := Finished |> <| onlined_committee := valid_vote summary_result |>
  | NoConsensus => c
  | Refused => c <| status := Finished |>
  end.

Record VerifySequence := {
  who : AccountId;
  index : list nat;
}.

Record OCPendingSlashInfo := {
  slash_machine_id : MachineId;
  machine_stash : option AccountId;
  stash_slash_amount : Balance;
  inconsistent_committee : list AccountId;
  unruly_committee : list AccountId;
  reward_committee : list AccountId;
  committee_stake : Balance;
  slash_time : BlockNumber;
  slash_exec_time : BlockNumber;
  book_result : OCBookResultType;
  slash_result : OCSlashResult;
}.
#[export] Instance OCPendingSlashInfo_eta : RecordEta OCPendingSlashInfo := λ i,
  Build_OCPendingSlashInfo (slash_machine_id i) (machine_stash i) (stash_slash_amount i)
    (inconsistent_committee i) (unruly_committee i) (reward_committee i) (committee_stake i)
    (slash_time i) (slash_exec_time i) (book_result i) (slash_result i).

Definition applicant_is_stash (i : OCPendingSlashInfo) (stash : AccountId) : bool :=
  bool_decide (is_Some (machine_stash i)) && bool_decide (book_result i = OnlineRefused) &&
  bool_decide (machine_stash i = Some stash).
Definition applicant_is_committee (i : OCPendingSlashInfo) (applicant : AccountId) : bool :=
  is_ok (binary_search (inconsistent_committee i) applicant).

(** ** The decision over the reports

    [None] is a panic: an index out of range or the minimum of no reports. *)

(** [Iterator::min] gives the first minimum, [Iterator::max] the last maximum. *)
Definition iter_min `{Ord A} (l : list A) : option A :=
  match l with
  | [] => None
  | x :: l => Some (foldl (λ a b, match cmp a b with Gt => b | _ => a end) x l)
  end.
Definition iter_max `{Ord A} (l : list A) : option A :=
  match l with
  | [] => None
  | x :: l => Some (foldl (λ a b, match cmp a b with Gt => a | _ => b end) x l)
  end.

(** A report against the machine counts only as such. *)
Definition vote_of (i : CommitteeUploadInfo) : CommitteeUploadInfo :=
  if is_support i then i else CommitteeUploadInfo_default <| is_support := false |>.

Definition summary_confirmation (c : OCMachineCommitteeList)
    (committee_submit_info : list CommitteeUploadInfo) : option Summary :=
  let submit_info := vote_of <$> committee_submit_info in
  let summary := Summary_default <| unruly := summary_unruly c |> in
  let uniq_len := length (expand_to_order [] submit_info) in
  if Nat.eqb (length (confirmed_committee c)) 0 then
    Some (summary <| verify_result := NoConsensus |>)
  else
    lo ← iter_min submit_info;
    hi ← iter_max submit_info;
    if decide (lo = hi) then
      info0 ← submit_info !! 0%nat;
      Some (if is_support info0 then
        summary <| info := Some info0 |> <| valid_vote := confirmed_committee c |>
                <| verify_result := Confirmed |>
      else summary <| valid_vote := confirmed_committee c |> <| verify_result := Refused |>)
    else if Nat.eqb uniq_len (length submit_info) then
      Some (summary <| invalid_vote := confirmed_committee c |> <| verify_result := NoConsensus |>)
    else
      info0 ← submit_info !! 0%nat;
      info1 ← submit_info !! 1%nat;
      '(valid_1, valid_2, invalid) ←
        (if decide (info0 = info1) then Some (0, 1, 2)%nat
         else info2 ← submit_info !! 2%nat;
              if decide (info0 = info2) then Some (0, 2, 1)%nat else Some (1, 2, 0)%nat);
      bad ← confirmed_committee c !! invalid;
      good_info ← submit_info !! valid_1;
      good_1 ← confirmed_committee c !! valid_1;
      good_2 ← confirmed_committee c !! valid_2;
      let summary := summary <| invalid_vote := [bad] |> in
      Some (if is_support good_info then
        summary <| info := Some good_info |> <| valid_vote := [good_1; good_2] |>
                <| verify_result := Confirmed |>
      else summary <| valid_vote ::= λ v, expand_to_order v [good_1; good_2] |>
                   <| verify_result := Refused |>).

(** ** The rule: a strict majority of the reports decides *)

Definition count_vote (v : CommitteeUploadInfo) (votes : list CommitteeUploadInfo) : nat :=
  length (filter (λ x, x = v) votes).
Definition is_majority (votes : list CommitteeUploadInfo) (v : CommitteeUploadInfo) : Prop :=
  (length votes < 2 * count_vote v votes)%nat.
#[export] Instance is_majority_dec votes v : Decision (is_majority votes v).
Proof. unfold is_majority. apply _. Defined.

Definition voters (c : OCMachineCommitteeList) (votes : list CommitteeUploadInfo)
    (keep : CommitteeUploadInfo → Prop) `{∀ v, Decision (keep v)} : list AccountId :=
  (filter (λ p : AccountId * CommitteeUploadInfo, keep p.2) (zip (confirmed_committee c) votes)).*1.

Definition majority_summary (c : OCMachineCommitteeList)
    (committee_submit_info : list CommitteeUploadInfo) : Summary :=
  let votes := vote_of <$> committee_submit_info in
  match filter (is_majority votes) votes with
  | [] => {| valid_vote := []; invalid_vote := confirmed_committee c; unruly := summary_unruly c;
             info := None; verify_result := NoConsensus |}
  | v :: _ => {| valid_vote := voters c votes (λ x, x = v); invalid_vote := voters c votes (λ x, x ≠ v);
                 unruly := summary_unruly c;
                 info := if is_support v then Some v else None;
                 verify_result := if is_support v then Confirmed else Refused |}
  end.

(** *** The code's tests decide unanimity and distinctness *)
Section order.
Context `{OrdLaws A}.
Implicit Types (l : list A) (x y a : A).

Lemma le_trans x y z : cmp x y ≠ Gt → cmp y z ≠ Gt → cmp x z ≠ Gt.
Proof.
  destruct (cmp x y) eqn:E1; [apply cmp_Eq in E1 as ->; done| |done].
  destruct (cmp y z) eqn:E2; [apply cmp_Eq in E2 as ->; by rewrite E1| |done].
  by rewrite (cmp_trans x y z).
Qed.
Lemma le_antisym x y : cmp x y ≠ Gt → cmp y x ≠ Gt → x = y.
Proof.
  rewrite (cmp_antisym x y). destruct (cmp x y) eqn:E; simpl; [|done|done].
  by intros; apply cmp_Eq.
Qed.
Lemma gt_le x y : cmp x y = Gt → cmp y x ≠ Gt.
Proof. intros Hc. by rewrite cmp_antisym, Hc. Qed.

Lemma iter_min_spec l a : iter_min l = Some a → a ∈ l ∧ ∀ b, b ∈ l → cmp a b ≠ Gt.
Proof.
  destruct l as [|x l]; [done|]. intros [= <-]. revert x. induction l as [|y l IH]; intros x; simpl.
  - split; [by constructor|]. intros b [->|Hb%not_elem_of_nil]%elem_of_cons; [by rewrite cmp_refl|done].
  - destruct (IH (match cmp x y with Gt => y | _ => x end)) as [Hin Hle]. clear IH.
    set (m := match cmp x y with Gt => y | _ => x end) in *.
    assert (cmp m x ≠ Gt ∧ cmp m y ≠ Gt ∧ (m = x ∨ m = y)) as (Hx & Hy & Hm).
    { unfold m. destruct (cmp x y) eqn:E; rewrite ?cmp_refl, ?E; [split_and!; by auto..|].
      split_and!; [by apply gt_le|done|by right]. }
    split.
    + apply elem_of_cons in Hin as [Heq|Hin]; [rewrite Heq|by do 2 right].
      destruct Hm as [Hm|Hm]; rewrite Hm; repeat constructor.
    + intros b [->|[->|Hb]%elem_of_cons]%elem_of_cons.
      * eapply le_trans; [apply Hle; by constructor|done].
      * eapply le_trans; [apply Hle; by constructor|done].
      * apply Hle. by constructor.
Qed.

Lemma iter_max_spec l a : iter_max l = Some a → a ∈ l ∧ ∀ b, b ∈ l → cmp b a ≠ Gt.
Proof.
  destruct l as [|x l]; [done|]. intros [= <-]. revert x. induction l as [|y l IH]; intros x; simpl.
  - split; [by constructor|]. intros b [->|Hb%not_elem_of_nil]%elem_of_cons; [by rewrite cmp_refl|done].
  - destruct (IH (match cmp x y with Gt => x | _ => y end)) as [Hin Hle]. clear IH.
    set (m := match cmp x y with Gt => x | _ => y end) in *.
    assert (cmp x m ≠ Gt ∧ cmp y m ≠ Gt ∧ (m = x ∨ m = y)) as (Hx & Hy & Hm).
    { unfold m. destruct (cmp x y) eqn:E; rewrite ?cmp_refl, ?E; [split_and!; by auto..|].
      split_and!; [done|by apply gt_le|by left]. }
    split.
    + apply elem_of_cons in Hin as [Heq|Hin]; [rewrite Heq|by do 2 right].
      destruct Hm as [Hm|Hm]; rewrite Hm; repeat constructor.
    + intros b [->|[->|Hb]%elem_of_cons]%elem_of_cons.
      * eapply le_trans; [done|apply Hle; by constructor].
      * eapply le_trans; [done|apply Hle; by constructor].
      * apply Hle. by constructor.
Qed.

Lemma min_is_max l lo hi :
  iter_min l = Some lo → iter_max l = Some hi → lo = hi ↔ ∀ x y, x ∈ l → y ∈ l → x = y.
Proof.
  intros [Hin Hlo]%iter_min_spec [Hin' Hhi]%iter_max_spec. split; [|naive_solver].
  intros -> x y Hx Hy. transitivity hi; [|symmetry]; apply le_antisym; auto.
Qed.

Lemma length_add_item `{!EqDecision A} l x :
  sorted l → length (add_item l x) = (length l + if decide (x ∈ l) then 0 else 1)%nat.
Proof.
  intros Hs. pose proof (is_ok_search l x Hs) as Hok. unfold add_item.
  destruct (binary_search l x) as [i|i]; simpl in Hok.
  - rewrite decide_True by (by apply Hok). lia.
  - rewrite decide_False by (intros Hin; by apply Hok in Hin). unfold vec_insert.
    rewrite length_app. simpl. rewrite length_take, length_drop. lia.
Qed.
End order.

(** The number of distinct ones among two or three. *)
Lemma distinct_two `{OrdLaws A} `{!EqDecision A} (x y : A) :
  length (expand_to_order [] [x; y]) = if decide (x = y) then 1%nat else 2%nat.
Proof.
  unfold expand_to_order. simpl foldl.
  assert (sorted (@nil A)) as Hn by (by intros i j u v _ Hi).
  destruct (add_item_spec [] x Hn) as [Hs He]. rewrite length_add_item by done.
  rewrite length_add_item by done. rewrite (decide_False (P := x ∈ [])) by apply not_elem_of_nil.
  rewrite (decide_ext (y ∈ add_item [] x) (x = y)); [simpl; case_decide; lia|].
  rewrite He. split; [intros [->|Hy%not_elem_of_nil]; done|by left].
Qed.
Lemma distinct_three `{OrdLaws A} `{!EqDecision A} (x y z : A) :
  length (expand_to_order [] [x; y; z]) = 3%nat ↔ x ≠ y ∧ x ≠ z ∧ y ≠ z.
Proof.
  unfold expand_to_order. simpl foldl.
  assert (sorted (@nil A)) as Hn by (by intros i j u v _ Hi).
  destruct (add_item_spec [] x Hn) as [Hs He]. destruct (add_item_spec _ y Hs) as [Hs' He'].
  rewrite !length_add_item by done. rewrite (decide_False (P := x ∈ [])) by apply not_elem_of_nil.
  rewrite (decide_ext (y ∈ add_item [] x) (x = y)).
  2: { rewrite He. split; [intros [->|Hy%not_elem_of_nil]; done|by left]. }
  rewrite (decide_ext (z ∈ add_item (add_item [] x) y) (y = z ∨ x = z)).
  2: { rewrite He', He. split; [intros [->|[->|Hy%not_elem_of_nil]]; auto; done|naive_solver]. }
  simpl. repeat case_decide; naive_solver lia.
Qed.

(** *** The code's case analysis is the majority rule *)

Lemma voters_all (c : OCMachineCommitteeList) votes (keep : CommitteeUploadInfo → Prop)
    `{∀ v, Decision (keep v)} :
  length (confirmed_committee c) = length votes → (∀ v, v ∈ votes → keep v) →
  voters c votes keep = confirmed_committee c.
Proof.
  intros Hl Hk. unfold voters. rewrite filter_all; [apply fst_zip; lia|].
  intros [a v] Hin. apply Hk. by apply elem_of_zip_r in Hin.
Qed.

(** Evaluates counts of votes once the reports are known equal or distinct. *)
Ltac count_votes :=
  repeat match goal with
  | H : is_majority _ _ |- _ => unfold is_majority, count_vote in H
  | H : ¬ is_majority _ _ |- _ => unfold is_majority, count_vote in H
  | H : context [filter _ (_ :: _)] |- _ => rewrite !filter_cons in H
  | H : context [filter _ []] |- _ => rewrite filter_nil in H
  | H : context [decide (?x = ?y)] |- _ =>
      first [rewrite (decide_True (P := x = y)) in H by congruence
            |rewrite (decide_False (P := x = y)) in H by congruence]
  end.

Lemma majority_one x : filter (is_majority [x]) [x] = [x].
Proof. rewrite filter_cons. case_decide; [done|]. count_votes. simpl in *. lia. Qed.
Lemma majority_two x y :
  filter (is_majority [x; y]) [x; y] = if decide (x = y) then [x; x] else [].
Proof.
  destruct (decide (x = y)) as [->|Hne]; rewrite !filter_cons, filter_nil;
    repeat case_decide; try done; count_votes; simpl in *; lia.
Qed.
Lemma majority_three x y z :
  filter (is_majority [x; y; z]) [x; y; z] =
    if decide (x = y) then (if decide (y = z) then [x; x; x] else [x; x])
    else if decide (x = z) then [x; x] else if decide (y = z) then [y; y] else [].
Proof.
  destruct (decide (x = y)) as [->|Hxy]; [|destruct (decide (x = z)) as [->|Hxz]].
  all: destruct (decide (y = z)) as [->|Hyz]; try done.
  all: rewrite !filter_cons, filter_nil; repeat case_decide; try done; count_votes; simpl in *; lia.
Qed.

Lemma sorted_pair_expand (a b : AccountId) : cmp a b = Lt → expand_to_order [] [a; b] = [a; b].
Proof.
  intros Hab. unfold expand_to_order. cbn [foldl]. replace (add_item [] a) with [a] by done.
  unfold add_item, binary_search. cbn. by rewrite Hab.
Qed.

(** Evaluates who voted what. *)
Ltac eval_voters Hc :=
  unfold voters; rewrite !Hc; cbn [zip_with]; rewrite !filter_cons, !filter_nil; cbn [snd];
  repeat match goal with
  | |- context [decide ?P] =>
      first [rewrite (decide_True (P := P)) by congruence
            |rewrite (decide_False (P := P)) by congruence]
  end; cbn [fmap list_fmap fst].

Lemma extremes_exist `{Ord A} (l : list A) : l ≠ [] → ∃ lo hi, iter_min l = Some lo ∧ iter_max l = Some hi.
Proof. destruct l as [|x l]; [done|]. intros _. eauto. Qed.

(** All reports agree. *)
Lemma summary_unanimous c infos x :
  sorted (confirmed_committee c) → length (confirmed_committee c) = length infos → infos ≠ [] →
  (∀ v, v ∈ vote_of <$> infos → v = x) →
  summary_confirmation c infos = Some {|
    valid_vote := confirmed_committee c; invalid_vote := []; unruly := summary_unruly c;
    info := if is_support x then Some x else None;
    verify_result := if is_support x then Confirmed else Refused |}.
Proof.
  intros Hs Hl Hne Hx. unfold summary_confirmation.
  destruct infos as [|i infos]; [done|]. destruct (confirmed_committee c) as [|a confirmed]; [done|].
  set (votes := vote_of <$> i :: infos) in *. destruct (extremes_exist votes) as (lo & hi & Hlo & Hhi); [done|].
  pose proof (min_is_max votes lo hi Hlo Hhi) as Hm. rewrite Hlo, Hhi. cbn -[votes].
  rewrite decide_True by (apply Hm; intros u v Hu%Hx Hv%Hx; congruence).
  change (votes !! 0%nat) with (Some (vote_of i)). cbn [mbind option_bind].
  rewrite (Hx (vote_of i)) by (unfold votes; constructor). by destruct (is_support x).
Qed.

(** All reports differ. *)
Lemma summary_all_distinct c infos :
  length (confirmed_committee c) = length infos → (2 ≤ length infos)%nat →
  NoDup (vote_of <$> infos) →
  length (expand_to_order [] (vote_of <$> infos)) = length infos →
  summary_confirmation c infos = Some {|
    valid_vote := []; invalid_vote := confirmed_committee c; unruly := summary_unruly c;
    info := None; verify_result := NoConsensus |}.
Proof.
  intros Hl Hn Hnd Hd. unfold summary_confirmation. rewrite Hl, Hd.
  set (votes := vote_of <$> infos) in *. assert (length votes = length infos) as Hlv by apply length_fmap.
  destruct (Nat.eqb_spec (length infos) 0); [lia|].
  destruct (extremes_exist votes) as (lo & hi & Hlo & Hhi); [by intros Hv; rewrite Hv in Hlv; simpl in *; lia|].
  rewrite Hlo, Hhi. cbn -[votes]. rewrite decide_False.
  - by rewrite Hlv, Nat.eqb_refl.
  - rewrite (min_is_max votes lo hi Hlo Hhi). intros Heq.
    destruct votes as [|x [|y votes]]; simpl in Hlv; [lia..|].
    apply list.NoDup_cons in Hnd as [Hni _]. apply Hni. rewrite (Heq x y); [constructor|constructor|by do 2 constructor].
Qed.

Lemma voters_none (c : OCMachineCommitteeList) votes (keep : CommitteeUploadInfo → Prop)
    `{∀ v, Decision (keep v)} : (∀ v, v ∈ votes → ¬ keep v) → voters c votes keep = [].
Proof.
  intros Hk. unfold voters. rewrite filter_none; [done|].
  intros [a v] Hin. apply Hk. by apply elem_of_zip_r in Hin.
Qed.

Lemma majority_unanimous c infos x :
  length (confirmed_committee c) = length infos → infos ≠ [] →
  (∀ v, v ∈ vote_of <$> infos → v = x) →
  majority_summary c infos = {|
    valid_vote := confirmed_committee c; invalid_vote := []; unruly := summary_unruly c;
    info := if is_support x then Some x else None;
    verify_result := if is_support x then Confirmed else Refused |}.
Proof.
  intros Hl Hne Hx. unfold majority_summary. set (votes := vote_of <$> infos) in *.
  assert (length votes = length infos) as Hlv by apply length_fmap.
  assert (length votes ≠ 0)%nat as Hv0 by (destruct infos; simpl in *; [done|lia]).
  rewrite filter_all.
  - clearbody votes. destruct votes as [|v votes]; [done|].
    assert (v = x) as -> by (apply Hx; constructor).
    rewrite voters_all, voters_none; [done|naive_solver|congruence|done].
  - intros v ->%Hx. unfold is_majority, count_vote. rewrite filter_all by done. lia.
Qed.

(** Two reports agree against the third. *)
Lemma summary_two_one c i0 i1 i2 a0 a1 a2 :
  let x := vote_of i0 in let y := vote_of i1 in let z := vote_of i2 in
  confirmed_committee c = [a0; a1; a2] → sorted (confirmed_committee c) →
  ¬ (x = y ∧ y = z) → x = y ∨ x = z ∨ y = z →
  summary_confirmation c [i0; i1; i2] = Some (majority_summary c [i0; i1; i2]).
Proof.
  intros x y z Hc Hs Hn Hsome. unfold summary_confirmation, majority_summary.
  cbn [fmap list_fmap]. fold x y z. rewrite majority_three, Hc. cbn [length Nat.eqb].
  destruct (extremes_exist [x; y; z]) as (lo & hi & Hlo & Hhi); [done|].
  rewrite Hlo, Hhi. cbn [mbind option_bind]. rewrite decide_False.
  2: { rewrite (min_is_max _ _ _ Hlo Hhi). intros Heq. apply Hn. split; apply Heq; set_solver. }
  destruct (Nat.eqb_spec (length (expand_to_order [] [x; y; z])) 3) as [Hd|_].
  { apply distinct_three in Hd. naive_solver. }
  assert (cmp a0 a1 = Lt) by (apply (Hs 0 1)%nat; [lia|by rewrite Hc..]).
  assert (cmp a0 a2 = Lt) by (apply (Hs 0 2)%nat; [lia|by rewrite Hc..]).
  assert (cmp a1 a2 = Lt) by (apply (Hs 1 2)%nat; [lia|by rewrite Hc..]).
  clear Hlo Hhi. clearbody x y z. cbn [lookup list_lookup mbind option_bind].
  destruct (decide (x = y)) as [->|Hxy]; [|destruct (decide (x = z)) as [->|Hxz]].
  all: cbn [mbind option_bind lookup list_lookup].
  - assert (y ≠ z) by naive_solver. rewrite decide_False by done. eval_voters Hc.
    destruct (is_support y); [done|]. cbn -[expand_to_order]. by rewrite sorted_pair_expand.
  - eval_voters Hc.
    destruct (is_support z); [done|]. cbn -[expand_to_order]. by rewrite sorted_pair_expand.
  - assert (y = z) as -> by naive_solver. rewrite decide_True by done. eval_voters Hc.
    destruct (is_support z); [done|]. cbn -[expand_to_order]. by rewrite sorted_pair_expand.
Qed.

Lemma summary_majority (c : OCMachineCommitteeList) (infos : list CommitteeUploadInfo) :
  sorted (confirmed_committee c) → length (confirmed_committee c) = length infos →
  (length infos ≤ 3)%nat →
  summary_confirmation c infos = Some (majority_summary c infos).
Proof.
  intros Hs Hl Hn. destruct (decide (infos = [])) as [->|Hne].
  { unfold summary_confirmation, majority_summary. by destruct (confirmed_committee c). }
  assert (∀ x, (∀ v, v ∈ vote_of <$> infos → v = x) →
    summary_confirmation c infos = Some (majority_summary c infos)) as Hall.
  { intros x Hx. by rewrite (summary_unanimous c infos x), (majority_unanimous c infos x). }
  destruct infos as [|i0 [|i1 [|i2 [|i3 infos]]]]; simpl in Hn; [done| | | |lia].
  - apply (Hall (vote_of i0)). set_solver.
  - destruct (decide (vote_of i0 = vote_of i1)) as [Heq|Hneq].
    + apply (Hall (vote_of i0)). set_solver.
    + rewrite summary_all_distinct; [|done|simpl; lia| |].
      * unfold majority_summary. cbn [fmap list_fmap]. by rewrite majority_two, decide_False.
      * repeat constructor; set_solver.
      * cbn [fmap list_fmap]. by rewrite distinct_two, decide_False.
  - destruct (decide (vote_of i0 = vote_of i1 ∧ vote_of i1 = vote_of i2)) as [[Ha Hb]|Hn3].
    + apply (Hall (vote_of i0)). cbn [fmap list_fmap]. rewrite <-Hb, <-Ha. set_solver.
    + destruct (decide (vote_of i0 = vote_of i1 ∨ vote_of i0 = vote_of i2 ∨ vote_of i1 = vote_of i2))
        as [Htwo|Hdist].
      * destruct (confirmed_committee c) as [|a0 [|a1 [|a2 [|]]]] eqn:Hc; try done.
        by apply (summary_two_one c i0 i1 i2 a0 a1 a2); rewrite ?Hc.
      * rewrite summary_all_distinct; [|done|simpl; lia| |].
        -- unfold majority_summary. cbn [fmap list_fmap]. rewrite majority_three, !decide_False; naive_solver.
        -- cbn [fmap list_fmap]. repeat constructor; rewrite ?elem_of_cons, ?elem_of_nil; naive_solver.
        -- cbn [fmap list_fmap]. apply distinct_three. naive_solver.
Qed.

(** C34: with at most three reports, one of each member who revealed one, the
    decision is that of a strict majority: the reports equal to the majority's
    are the valid votes, the others the invalid ones, the machine is confirmed
    with the majority's report or refused according to it, and without a
    majority there is no consensus and every vote is invalid. The code never
    panics. *)
Theorem vo_summary_is_majority (c : OCMachineCommitteeList) (infos : list CommitteeUploadInfo) :
  sorted (confirmed_committee c) → length (confirmed_committee c) = length infos →
  (length infos ≤ 3)%nat →
  summary_confirmation c infos = Some (majority_summary c infos).
Proof. apply summary_majority. Qed.

(** *** The three kinds of members *)

Lemma voters_sublist c votes keep `{∀ v, Decision (keep v)} :
  voters c votes keep `sublist_of` confirmed_committee c.
Proof.
  unfold voters. generalize (confirmed_committee c). intros l.
  transitivity ((zip l votes).*1).
  - apply fmap_sublist. apply sublist_filter.
  - revert votes. induction l as [|a l IH]; intros [|v votes]; simpl; [constructor|constructor| |].
    + apply sublist_nil_l.
    + by constructor.
Qed.

Lemma elem_of_voters c votes keep `{∀ v, Decision (keep v)} a :
  a ∈ voters c votes keep ↔ ∃ v, keep v ∧ (a, v) ∈ zip (confirmed_committee c) votes.
Proof.
  unfold voters. rewrite list_elem_of_fmap. split.
  - intros ([a' v] & -> & [Hk Hin]%list_elem_of_filter). by exists v.
  - intros (v & Hk & Hin). exists (a, v). by rewrite list_elem_of_filter.
Qed.

Lemma zip_functional (l : list AccountId) (votes : list CommitteeUploadInfo) a v v' :
  NoDup l → (a, v) ∈ zip l votes → (a, v') ∈ zip l votes → v = v'.
Proof.
  intros Hnd [i Hi]%list_elem_of_lookup [j Hj]%list_elem_of_lookup.
  apply lookup_zip_with_Some in Hi as (? & ? & [= <- <-] & Hi & Hvi).
  apply lookup_zip_with_Some in Hj as (? & ? & [= <- <-] & Hj & Hvj).
  assert (i = j) as -> by (by eapply NoDup_lookup). congruence.
Qed.

Lemma unruly_spec c :
  sorted (confirmed_committee c) →
  sorted (summary_unruly c) ∧
  ∀ a, a ∈ summary_unruly c ↔ a ∈ booked_committee c ∧ a ∉ confirmed_committee c.
Proof.
  intros Hs. unfold summary_unruly.
  assert (∀ l acc, sorted acc →
    let r := foldl (λ unruly a_committee,
      if is_ok (binary_search (confirmed_committee c) a_committee) then unruly
      else add_item unruly a_committee) acc l in
    sorted r ∧ ∀ a, a ∈ r ↔ a ∈ acc ∨ a ∈ l ∧ a ∉ confirmed_committee c) as Hfold.
  { induction l as [|b l IH]; intros acc Hacc; cbn [foldl].
    - split; [done|]. intros a. split; [by left|]. intros [?|[[]%not_elem_of_nil _]]; done.
    - pose proof (is_ok_search (confirmed_committee c) b Hs) as Hok.
      destruct (is_ok (binary_search (confirmed_committee c) b)).
      + destruct (IH acc Hacc) as [Hr He]. split; [done|]. intros a. rewrite He, elem_of_cons. naive_solver.
      + destruct (add_item_spec acc b Hacc) as [Ha Hea]. destruct (IH _ Ha) as [Hr He].
        split; [done|]. intros a. rewrite He, Hea, elem_of_cons. naive_solver. }
  destruct (Hfold (booked_committee c) [] sorted_nil) as [Hr He]. split; [done|].
  intros a. rewrite He. split; [intros [[]%not_elem_of_nil|]; done|by right].
Qed.

(** Every booked member is a valid or an invalid voter or unruly, and only one
    of these. *)
Record partitioned (c : OCMachineCommitteeList) (s : Summary) : Prop := {
  part_sorted : sorted (valid_vote s) ∧ sorted (invalid_vote s) ∧ sorted (unruly s);
  part_cover a : a ∈ booked_committee c ↔ a ∈ valid_vote s ∨ a ∈ invalid_vote s ∨ a ∈ unruly s;
  part_disjoint a : ¬ (a ∈ valid_vote s ∧ a ∈ invalid_vote s) ∧
    ¬ (a ∈ valid_vote s ∧ a ∈ unruly s) ∧ ¬ (a ∈ invalid_vote s ∧ a ∈ unruly s);
}.

Lemma majority_partitioned c infos :
  sorted (confirmed_committee c) → (∀ a, a ∈ confirmed_committee c → a ∈ booked_committee c) →
  length (confirmed_committee c) = length infos → partitioned c (majority_summary c infos).
Proof.
  intros Hs Hsub Hl. destruct (unruly_spec c Hs) as [Hu Hue]. unfold majority_summary.
  set (votes := vote_of <$> infos). assert (length votes = length infos) as Hlv by apply length_fmap.
  pose proof (sorted_NoDup _ Hs) as Hnd.
  destruct (filter (is_majority votes) votes) as [|v vs].
  - split; cbn; [split_and!; [apply sorted_nil|done|done]| |].
    + intros a. rewrite Hue. split.
      * intros Ha. right. destruct (decide (a ∈ confirmed_committee c)); auto.
      * intros [[]%not_elem_of_nil|[?|[]]]; auto.
    + intros a. rewrite Hue. split_and!; [intros [[]%not_elem_of_nil _]..|naive_solver].
  - assert (∀ keep `{∀ v, Decision (keep v)} a, a ∈ voters c votes keep → a ∈ confirmed_committee c) as Hin.
    { intros keep Hk a Ha. by eapply elem_of_sublist, voters_sublist. }
    split; cbn.
    + split_and!; [| |done]; eapply sorted_sublist; try apply voters_sublist; done.
    + intros a. rewrite Hue. split.
      * intros Ha. destruct (decide (a ∈ confirmed_committee c)) as [Hc|]; [|auto].
        apply list_elem_of_lookup in Hc as [i Hi].
        destruct (lookup_lt_is_Some_2 votes i) as [v' Hv']; [apply lookup_lt_Some in Hi; lia|].
        assert ((a, v') ∈ zip (confirmed_committee c) votes).
        { eapply list_elem_of_lookup_2, lookup_zip_with_Some. naive_solver. }
        rewrite !elem_of_voters. destruct (decide (v' = v)); [left|right; left]; eauto.
      * intros [Ha|[Ha|[]]]; eauto.
    + intros a. rewrite Hue. split_and!; [|intros [Ha [_ []]]; eauto..].
      rewrite !elem_of_voters. intros [(u & -> & H1) (u' & Hne & H2)]. apply Hne.
      by eapply zip_functional.
Qed.

(** ** What the hash of a report commits to *)

(** The committed hash binds a member to the verdict, since the last byte
    of the hashed text is the verdict, but not to the hardware: the numbers are
    joined without separators, so two supporting reports of the same machine
    with the same random string can differ in every count of cores and memory
    and have the same hash, whatever the hash function. *)
Theorem vo_hash_binds_verdict_only :
  (∀ i j, raw_info i = raw_info j → is_support i = is_support j) ∧
  ∃ i j, machine_id i = machine_id j ∧ rand_str i = rand_str j ∧
    is_support i = true ∧ is_support j = true ∧
    gpu_num i ≠ gpu_num j ∧ cuda_core i ≠ cuda_core j ∧ gpu_mem i ≠ gpu_mem j ∧
    vote_of i ≠ vote_of j ∧ ∀ blake2_128, hash blake2_128 i = hash blake2_128 j.
Proof.
  split.
  - intros i j Hij. unfold raw_info in Hij. rewrite !app_assoc in Hij.
    destruct (is_support i), (is_support j); try done; apply app_inj_tail in Hij; naive_solver.
  - pose (i := CommitteeUploadInfo_default <| is_support := true |> <| gpu_num := 4 |>
      <| cuda_core := 8704 |> <| gpu_mem := 24 |>).
    exists i, (i <| gpu_num := 48 |> <| cuda_core := 70 |> <| gpu_mem := 424 |>).
    by split_and!.
Qed.

Module Demo.
Definition good : CommitteeUploadInfo :=
  CommitteeUploadInfo_default <| is_support := true |> <| gpu_num := 4 |>.
Definition bad : CommitteeUploadInfo := good <| gpu_num := 8 |>.
Definition booking : OCMachineCommitteeList := OCMachineCommitteeList_default
  <| booked_committee := [1; 2; 3]%N |> <| hashed_committee := [1; 2; 3]%N |>
  <| confirmed_committee := [1; 2; 3]%N |>.

Lemma booking_sorted : sorted (confirmed_committee booking).
Proof. repeat (apply sorted_cons; split; [set_solver|]). apply sorted_nil. Qed.

Lemma vo_summary_is_majority_witness :
  summary_confirmation booking [good; bad; good] = Some (majority_summary booking [good; bad; good]) ∧
  valid_vote (majority_summary booking [good; bad; good]) = [1; 3]%N ∧
  invalid_vote (majority_summary booking [good; bad; good]) = [2]%N.
Proof.
  split_and!; [|by vm_compute..].
  exact (vo_summary_is_majority booking [good; bad; good] booking_sorted eq_refl ltac:(simpl; lia)).
Defined.
End Demo.
End VerifyOnline.
