(* ===== verification/RentalTypes.v ===== *)
(** * Machines and rental orders: the data of dbc-support

    What the rental pallets store: a machine with its status and history
    ([MachineInfo]), a rental order and the GPUs of a machine in use
    ([RentOrder]). Models src/pallets/support/src: machine_info.rs,
    machine_type.rs (from StakerCustomizeInfo on), rental_type.rs, and the
    reasons of a slash of verify_slash.rs. *)
From stdpp Require Import base gmap fin_maps list numbers.
From Stdlib Require Import ZArith Lia Strings.Byte.
From S2P Require Import Prelude ItemList VerifyOnline.

(** ** Machines *)
Module MachineInfo.
Import VerifyOnline.

Inductive Longitude := East (x : Z) | West (x : Z).
Inductive Latitude := South (x : Z) | North (x : Z).
Definition Longitude_default : Longitude := East 0.
Definition Latitude_default : Latitude := North 0.

Record StakerCustomizeInfo := {
  server_room : H256;
  upload_net : Z;
  download_net : Z;
  longitude_of : Longitude;
  latitude_of : Latitude;
  telecom_operators : list bytes;
  is_bare_machine : bool;
}.
Definition StakerCustomizeInfo_default : StakerCustomizeInfo := {|
  server_room := 0%N; upload_net := 0; download_net := 0; longitude_of := Longitude_default;
  latitude_of := Latitude_default; telecom_operators := []; is_bare_machine := false |}.

Inductive OPSlashReason :=
| RentedReportOffline (t : BlockNumber)
| OnlineReportOffline (t : BlockNumber)
| RentedInaccessible (t : BlockNumber)
| RentedHardwareMalfunction (t : BlockNumber)
| RentedHardwareCounterfeit (t : BlockNumber)
| OnlineRentFailed (t : BlockNumber)
| CommitteeRefusedOnline
| CommitteeRefusedMutHardware
| ReonlineShouldReward.

Inductive MachineStatus :=
| AddingCustomizeInfo
| DistributingOrder
| CommitteeVerifying
| CommitteeRefused (t : BlockNumber)
| WaitingFulfill
| Online
| StakerReportOffline (t : BlockNumber) (before : MachineStatus)
| ReporterReportOffline (r : OPSlashReason) (before : MachineStatus) (reporter : AccountId)
    (committee : list AccountId)
| Creating
| Rented
| Exit.
Definition MachineStatus_default : MachineStatus := AddingCustomizeInfo.

#[global] Instance OPSlashReason_eq_dec : EqDecision OPSlashReason.
Proof. solve_decision. Defined.
#[global] Instance MachineStatus_eq_dec : EqDecision MachineStatus.
Proof. intros x y. unfold Decision. repeat decide equality. Defined.

Record MachineInfoDetail := {
  committee_upload_info : CommitteeUploadInfo;
  staker_customize_info : StakerCustomizeInfo;
}.
#[export] Instance MachineInfoDetail_eta : RecordEta MachineInfoDetail := λ d,
  Build_MachineInfoDetail (committee_upload_info d) (staker_customize_info d).
Definition MachineInfoDetail_default : MachineInfoDetail := {|
  committee_upload_info := CommitteeUploadInfo_default;
  staker_customize_info := StakerCustomizeInfo_default |}.

Inductive OnlineErr :=
| ClaimRewardFailed | NotAllowedChangeMachineInfo | NotMachineController | CalcStakeAmountFailed
| TelecomIsNull.

Record MachineInfo := {
  controller : AccountId;
  machine_stash : AccountId;
  renters : list AccountId;
  last_machine_restake : BlockNumber;
  bonding_height : BlockNumber;
  online_height : BlockNumber;
  last_online_height : BlockNumber;
  init_stake_per_gpu : Balance;
  stake_amount : Balance;
  machine_status : MachineStatus;
  total_rented_duration : BlockNumber;
  total_rented_times : Z;
  total_rent_fee : Balance;
  total_burn_fee : Balance;
  machine_info_detail : MachineInfoDetail;
  reward_committee : list AccountId;
  reward_deadline : Z;
}.
#[export] Instance MachineInfo_eta : RecordEta MachineInfo := λ i,
  Build_MachineInfo (controller i) (machine_stash i) (renters i) (last_machine_restake i)
    (bonding_height i) (online_height i) (last_online_height i) (init_stake_per_gpu i)
    (stake_amount i) (machine_status i) (total_rented_duration i) (total_rented_times i)
    (total_rent_fee i) (total_burn_fee i) (machine_info_detail i) (reward_committee i)
    (reward_deadline i).

Definition change_rent_fee (fee_to_destroy fee_to_stash : Balance) (i : MachineInfo) : MachineInfo :=
  i <| total_burn_fee ::= λ v, saturating_add U128_MAX v fee_to_destroy |>
    <| total_rent_fee ::= λ v, saturating_add U128_MAX v fee_to_stash |>.

Definition new_bonding (controller stash : AccountId) (now : BlockNumber) (stake_per_gpu : Balance) :
    MachineInfo := {|
  controller := controller; machine_stash := stash; bonding_height := now;
  init_stake_per_gpu := stake_per_gpu; stake_amount := stake_per_gpu;
  machine_status := AddingCustomizeInfo; online_height := 0; last_online_height := 0; renters := [];
  last_machine_restake := 0; total_rented_duration := 0; total_rented_times := 0; total_rent_fee := 0;
  total_burn_fee := 0; machine_info_detail := MachineInfoDetail_default; reward_committee := [];
  reward_deadline := 0 |}.

Definition can_add_server_room (i : MachineInfo) (who : AccountId) : result OnlineErr unit :=
  if negb match machine_status i with
          | AddingCustomizeInfo | DistributingOrder | CommitteeVerifying | CommitteeRefused _
          | WaitingFulfill | StakerReportOffline _ _ => true
          | _ => false
          end
  then Err NotAllowedChangeMachineInfo
  else if negb (bool_decide (controller i = who)) then Err NotMachineController else Ok tt.

Definition update_server_room_info (info : StakerCustomizeInfo) (i : MachineInfo) : MachineInfo :=
  i <| machine_info_detail ::= λ d, d <| staker_customize_info := info |> |>.

Definition add_server_room_info (info : StakerCustomizeInfo) (i : MachineInfo) : MachineInfo :=
  let i := i <| machine_info_detail ::= λ d, d <| staker_customize_info := info |> |> in
  if bool_decide (machine_status i = AddingCustomizeInfo)
  then i <| machine_status := DistributingOrder |> else i.

Definition can_update_server_room_info (i : MachineInfo) (who : AccountId) : result OnlineErr unit :=
  if Nat.eqb (length (telecom_operators (staker_customize_info (machine_info_detail i)))) 0
  then Err TelecomIsNull
  else if negb (bool_decide (controller i = who)) then Err NotMachineController else Ok tt.

Definition update_rent_fee (rent_fee burn_fee : Balance) (i : MachineInfo) : MachineInfo :=
  i <| total_rent_fee ::= λ v, saturating_add U128_MAX v rent_fee |>
    <| total_burn_fee ::= λ v, saturating_add U128_MAX v burn_fee |>.

Definition bond_machine (controller stash : AccountId) (now : BlockNumber) (stake : Balance) :
    MachineInfo := (new_bonding controller stash now 0) <| stake_amount := stake |>.

Definition can_add_customize_info (i : MachineInfo) : bool :=
  match machine_status i with
  | AddingCustomizeInfo | CommitteeVerifying | CommitteeRefused _ | WaitingFulfill
  | StakerReportOffline _ _ => true
  | _ => false
  end.

Definition add_machine_info (info : StakerCustomizeInfo) (i : MachineInfo) : result OnlineErr MachineInfo :=
  if Nat.eqb (length (telecom_operators info)) 0 then Err TelecomIsNull
  else if negb (can_add_customize_info i) then Err NotAllowedChangeMachineInfo
  else Ok (i <| machine_info_detail ::= λ d, d <| staker_customize_info := info |> |>
             <| machine_status := DistributingOrder |>).

Definition machine_online (now : BlockNumber) (info : CommitteeUploadInfo) (i : MachineInfo) : MachineInfo :=
  i <| stake_amount := 0 |> <| machine_status := Online |> <| last_online_height := now |>
    <| online_height := now |>
    <| machine_info_detail ::= λ d, d <| committee_upload_info := info |> |>.

Definition revert_book (i : MachineInfo) : MachineInfo := i <| machine_status := DistributingOrder |>.
Definition machine_offline (time : BlockNumber) (i : MachineInfo) : MachineInfo :=
  i <| machine_status := StakerReportOffline time MachineStatus_default |>.

Definition gpu_num (i : MachineInfo) : Z := VerifyOnline.gpu_num (committee_upload_info (machine_info_detail i)).
Definition calc_point (i : MachineInfo) : Z :=
  VerifyOnline.calc_point (committee_upload_info (machine_info_detail i)).
Definition cpu_rate (i : MachineInfo) : Z := VerifyOnline.cpu_rate (committee_upload_info (machine_info_detail i)).
Definition gpu_type_and_mem (i : MachineInfo) : bytes * Z :=
  (gpu_type (committee_upload_info (machine_info_detail i)),
   mem_num (committee_upload_info (machine_info_detail i))).
Definition can_rent (i : MachineInfo) : bool :=
  match machine_status i with Online | Rented => true | _ => false end.
Definition is_online (i : MachineInfo) : bool :=
  match machine_status i with Online => true | _ => false end.
Definition is_controller (i : MachineInfo) (who : AccountId) : bool := bool_decide (controller i = who).
End MachineInfo.

(** ** Rental orders and the GPUs they use *)
Module RentOrder.
Import ItemList.

Inductive RentStatus := WaitingVerifying | Renting | RentExpired.
#[export] Instance RentStatus_eq_dec : EqDecision RentStatus.
Proof. solve_decision. Defined.

Record RentOrderDetail := {
  machine_id : list byte;
  renter : AccountId;
  rent_start : BlockNumber;
  confirm_time : BlockNumber;
  rent_end : BlockNumber;
  stake_amount : Balance;
  rent_status : RentStatus;
  gpu_num : Z;
  gpu_index : list Z;
}.
#[export] Instance RentOrderDetail_eta : RecordEta RentOrderDetail := λ r,
  Build_RentOrderDetail (machine_id r) (renter r) (rent_start r) (confirm_time r) (rent_end r)
    (stake_amount r) (rent_status r) (gpu_num r) (gpu_index r).

Definition new_order (m : list byte) (who : AccountId) (start end_ : BlockNumber) (stake : Balance)
    (num : Z) (index : list Z) : RentOrderDetail := {|
  machine_id := m; renter := who; rent_start := start; confirm_time := 0; rent_end := end_;
  stake_amount := stake; rent_status := WaitingVerifying; gpu_num := num; gpu_index := index |}.

Definition confirm_order (time : BlockNumber) (r : RentOrderDetail) : RentOrderDetail :=
  r <| confirm_time := time |> <| rent_status := Renting |>.

Record MachineGPUOrder := {
  rent_order : list Z;
  used_gpu : list Z;
}.
#[export] Instance MachineGPUOrder_eta : RecordEta MachineGPUOrder := λ o,
  Build_MachineGPUOrder (rent_order o) (used_gpu o).
Definition MachineGPUOrder_default : MachineGPUOrder := {| rent_order := []; used_gpu := [] |}.

(** The loop over [i..total_gpu], of which [n] indices are left. *)
Fixpoint rentable_loop (need_gpu : Z) (n : nat) (i : Z) (out : list Z) (o : MachineGPUOrder) :
    list Z * MachineGPUOrder :=
  match n with
  | O => (out, o)
  | S n =>
      if Z.of_nat (length out) =? need_gpu then (out, o)
      else if is_ok (binary_search (used_gpu o) i) then rentable_loop need_gpu n (i + 1) out o
      else rentable_loop need_gpu n (i + 1) (out ++ [i]) (o <| used_gpu ::= λ u, add_item u i |>)
  end.
Definition gen_rentable_gpu (need_gpu total_gpu : Z) (o : MachineGPUOrder) : list Z * MachineGPUOrder :=
  rentable_loop need_gpu (Z.to_nat total_gpu) 0 [] o.

Definition clean_expired_order (id : Z) (index : list Z) (o : MachineGPUOrder) : MachineGPUOrder :=
  foldl (λ o i, o <| used_gpu ::= λ u, rm_item u i |>) (o <| rent_order ::= λ l, rm_item l id |>) index.

Record MachineRenterRentedOrderDetail := {
  rent_id_of : Z;
  rented_start : BlockNumber;
  rented_end : BlockNumber;
}.

(** The GPUs of [i..i+n] that are not in use. *)
Definition free_gpus (used : list Z) (i : Z) (n : nat) : list Z := filter (.∉ used) (seqZ i (Z.of_nat n)).

Lemma seqZ_step i n : seqZ i (Z.of_nat (S n)) = i :: seqZ (i + 1) (Z.of_nat n).
Proof. rewrite seqZ_cons by lia. f_equal. f_equal; lia. Qed.

(** The loop takes the first free GPUs, as many as are needed. *)
Lemma rentable_loop_takes need n i out o :
  sorted (used_gpu o) → Z.of_nat (length out) ≤ need →
  let r := rentable_loop need n i out o in
  let new := take (Z.to_nat (need - Z.of_nat (length out))) (free_gpus (used_gpu o) i n) in
  rent_order r.2 = rent_order o ∧ sorted (used_gpu r.2) ∧ r.1 = out ++ new ∧
  (∀ x, x ∈ used_gpu r.2 ↔ x ∈ used_gpu o ∨ x ∈ new).
Proof.
  revert i out o. induction n as [|n IH]; intros i out o Hs Hle.
  { cbv zeta. change (free_gpus (used_gpu o) i 0) with (@nil Z). rewrite take_nil, app_nil_r.
    split_and!; [done..|]. intros x. rewrite elem_of_nil. naive_solver. }
  cbn [rentable_loop]. unfold free_gpus. rewrite seqZ_step.
  destruct (Z.eqb_spec (Z.of_nat (length out)) need) as [Heq|Hne].
  { rewrite Heq, Z.sub_diag. cbn -[filter]. rewrite app_nil_r. split_and!; [done..|].
    intros x. rewrite elem_of_nil. naive_solver. }
  destruct (is_ok (binary_search (used_gpu o) i)) eqn:Hb.
  - apply is_ok_search in Hb; [|done]. rewrite filter_cons_False by auto. by apply IH.
  - assert (i ∉ used_gpu o) as Hni by (intros Hin%(is_ok_search _ _ Hs); congruence).
    rewrite filter_cons_True by done.
    destruct (add_item_spec (used_gpu o) i Hs) as [Hs' He].
    destruct (IH (i + 1) (out ++ [i]) (o <| used_gpu ::= λ u, add_item u i |>)) as (Hr & Hsr & Hout & Hx);
      [done|rewrite length_app; simpl; lia|].
    assert (filter (.∉ add_item (used_gpu o) i) (seqZ (i + 1) (Z.of_nat n)) =
      filter (.∉ used_gpu o) (seqZ (i + 1) (Z.of_nat n))) as Hf.
    { apply filter_agree. intros x Hin%elem_of_seqZ. rewrite He. naive_solver lia. }
    replace (Z.to_nat (need - Z.of_nat (length out)))
      with (S (Z.to_nat (need - Z.of_nat (length (out ++ [i]))))) by (rewrite length_app; simpl; lia).
    cbn [take]. unfold free_gpus in Hout, Hx. cbn [used_gpu field_update] in Hout, Hx.
    simpl in Hout, Hx. rewrite Hf in Hout, Hx.
    split_and!; [done|done| |].
    + etrans; [exact Hout|]. by rewrite <-app_assoc.
    + intros x. etrans; [apply Hx|]. rewrite He, elem_of_cons. naive_solver.
Qed.

Lemma gen_rentable_spec need total o :
  sorted (used_gpu o) → 0 ≤ need →
  let r := gen_rentable_gpu need total o in
  let free := free_gpus (used_gpu o) 0 (Z.to_nat total) in
  r.1 = take (Z.to_nat need) free ∧ rent_order r.2 = rent_order o ∧ sorted (used_gpu r.2) ∧
  (∀ x, x ∈ used_gpu r.2 ↔ x ∈ used_gpu o ∨ x ∈ r.1).
Proof.
  intros Hs Hn. destruct (rentable_loop_takes need (Z.to_nat total) 0 [] o Hs Hn) as (H1 & H2 & H3 & H4).
  simpl in H3, H4. rewrite Z.sub_0_r in H3, H4. cbv zeta. unfold gen_rentable_gpu.
  rewrite H3. split_and!; done.
Qed.

Lemma clean_spec id index o :
  sorted (used_gpu o) →
  rent_order (clean_expired_order id index o) = rm_item (rent_order o) id ∧
  sorted (used_gpu (clean_expired_order id index o)) ∧
  ∀ x, x ∈ used_gpu (clean_expired_order id index o) ↔ x ∈ used_gpu o ∧ x ∉ index.
Proof.
  intros Hs. unfold clean_expired_order. set (o1 := o <| rent_order ::= _ |>).
  change (rm_item (rent_order o) id) with (rent_order o1). change (used_gpu o) with (used_gpu o1) in *.
  clearbody o1. revert o1 Hs. induction index as [|i index IH]; intros o1 Hs; cbn [foldl].
  { split_and!; [done..|]. intros x. rewrite elem_of_nil. naive_solver. }
  destruct (rm_item_spec (used_gpu o1) i Hs) as [Hs' He].
  destruct (IH (o1 <| used_gpu ::= λ u, rm_item u i |>)) as (Hr & Hs2 & Hx); [exact Hs'|].
  split_and!; [done..|]. intros x. rewrite Hx. simpl. rewrite He, elem_of_cons. naive_solver.
Qed.
End RentOrder.
