(* ===== verification/RentalInterfaces.v ===== *)
(** * The traits between the pallets of the rental market

    The traits of src/pallets/support/src/traits.rs by which the verifying
    pallets use the committee ([ManageCommittee]), the machine registry ([OCOps] and
    [RTOps], with the storage they read of it), random draws, slashes ([GNOps])
    and fees, as
    classes over the state [H] of the rest of the runtime beside the ledger.
    Committee.v and GenericFunc.v implement their traits; the lifting of an
    implementation into a larger state is [via]. *)
From stdpp Require Import base gmap fin_maps list numbers.
From Stdlib Require Import ZArith Lia Strings.Byte.
From S2P Require Import Prelude Currency Interfaces GenericFunc ItemList Committee VerifyOnline RentalTypes.

(** Why a hook's helper stops: the code's [Err(())], or a panic, which would
    stop the chain and which no caller can ignore. *)
Inductive Fault := Failed | Panic.

(** [let _ = m] and [if m.is_err() { continue }]: a panic is not ignored. *)
Definition attempt {S A} (d : A) (m : M S Fault A) : M S Fault A := λ s,
  match m s with
  | (Err Failed, s') => (Ok d, s')
  | r => r
  end.

(** [safe P Q m]: from a state with [P], [m] ends in a state with [Q], whether
    it succeeds or fails, and does not panic. *)
Definition safe {S A} (P Q : S → Prop) (m : M S Fault A) : Prop :=
  ∀ s, P s → Q (m s).2 ∧ (m s).1 ≠ Err Panic.

Section safe.
Context {S : Type}.
Implicit Types (P Q R : S → Prop).

Lemma safe_weaken {A} P P' Q Q' (m : M S Fault A) :
  (∀ s, P s → P' s) → (∀ s, Q' s → Q s) → safe P' Q' m → safe P Q m.
Proof. intros HP HQ Hm s Hs. destruct (Hm s (HP s Hs)). auto. Qed.
Lemma safe_bind {A B} P Q R (m : M S Fault A) (k : A → M S Fault B) :
  (∀ s, Q s → R s) → safe P Q m → (∀ a, safe Q R (k a)) → safe P R (m ≫= k).
Proof.
  intros HQR Hm Hk s Hs. destruct (Hm s Hs) as [HQ Hp]. unfold mbind, M_bind.
  destruct (m s) as [[a|e] s1]; simpl in *; [by apply Hk|]. split; [auto|congruence].
Qed.
Lemma safe_seq {A B} P (m : M S Fault A) (k : A → M S Fault B) :
  safe P P m → (∀ a, safe P P (k a)) → safe P P (m ≫= k).
Proof. by apply safe_bind. Qed.
(** What a read returns is known of some state with [P]. *)
Lemma safe_gets_bind {A B} P Q (f : S → A) (k : A → M S Fault B) :
  (∀ s, P s → safe (λ s', P s' ∧ f s' = f s) Q (k (f s))) → safe P Q (gets f ≫= k).
Proof. intros Hk s Hs. rewrite bind_gets. by apply (Hk s Hs). Qed.
Lemma safe_modify P Q (f : S → S) : (∀ s, P s → Q (f s)) → safe P Q (modify f).
Proof. intros Hf s Hs. split; [by apply Hf|done]. Qed.
Lemma safe_mret {A} P (a : A) : safe P P (mret a).
Proof. intros s Hs. by split. Qed.
Lemma safe_ok_or_bind {A B} P Q (o : option A) (e : Fault) (k : A → M S Fault B) :
  (∀ s, P s → Q s) → (o = None → e ≠ Panic) → (∀ a, o = Some a → safe P Q (k a)) →
  safe P Q (ok_or o e ≫= k).
Proof.
  intros HPQ He Hk s Hs. destruct o as [a|].
  - rewrite bind_ok_or. by apply Hk.
  - split; [by apply HPQ|]. intros [= ->]. by destruct He.
Qed.
Lemma safe_attempt {A} P Q (d : A) (m : M S Fault A) : safe P Q m → safe P Q (attempt d m).
Proof. intros Hm s Hs. destruct (Hm s Hs). unfold attempt. by destruct (m s) as [[|[]] ?]. Qed.
Lemma safe_for_each {A} P (l : list A) (body : A → M S Fault unit) :
  (∀ x, x ∈ l → safe P P (body x)) → safe P P (for_each l body).
Proof.
  induction l as [|x l IH]; intros Hb; [apply safe_mret|]. apply safe_seq.
  - apply Hb. constructor.
  - intros _. apply IH. intros y Hy. apply Hb. by constructor.
Qed.

(** The same with what holds of the result, and after a failure. *)
Definition safely {A} P (m : M S Fault A) (Q : A → S → Prop) (E : S → Prop) : Prop :=
  ∀ s, P s → match m s with
             | (Ok a, s') => Q a s'
             | (Err Failed, s') => E s'
             | (Err Panic, _) => False
             end.
Lemma safely_bind {A B} P (R : A → S → Prop) (Q : B → S → Prop) E (m : M S Fault A) (k : A → M S Fault B) :
  safely P m R E → (∀ a, safely (R a) (k a) Q E) → safely P (m ≫= k) Q E.
Proof.
  intros Hm Hk s Hs. specialize (Hm s Hs). unfold mbind, M_bind.
  destruct (m s) as [[a|[]] s1]; [by apply Hk|done..].
Qed.
Lemma safe_safely {A} P (E : S → Prop) (m : M S Fault A) :
  (∀ s, P s → E s) → safe P P m → safely P m (λ _, P) E.
Proof. intros HE Hm s Hs. destruct (Hm s Hs). destruct (m s) as [[|[]] ?]; simpl in *; auto. Qed.
End safe.

(** ** What a run keeps, also when it fails *)
Definition kept {S E A} (Q : S → Prop) (m : M S E A) : Prop := ∀ s, Q s → Q (m s).2.

Section kept.
Context {S E : Type} (Q : S → Prop).

Lemma kept_bind {A B} (m : M S E A) (k : A → M S E B) : kept Q m → (∀ a, kept Q (k a)) → kept Q (m ≫= k).
Proof.
  intros Hm Hk s Hs. specialize (Hm s Hs). unfold mbind, M_bind.
  destruct (m s) as [[a|e] s1]; [by apply Hk|done].
Qed.
Lemma kept_assoc {A B C} (m : M S E A) (f : A → M S E B) (k : B → M S E C) :
  kept Q (m ≫= λ a, f a ≫= k) → kept Q ((m ≫= f) ≫= k).
Proof.
  intros Hm s Hs. specialize (Hm s Hs). unfold mbind, M_bind in *. by destruct (m s) as [[a|e] s1].
Qed.
Lemma kept_ret {A B} (a : A) (k : A → M S E B) : kept Q (k a) → kept Q (mret a ≫= k).
Proof. done. Qed.
Lemma kept_gets {A B} (f : S → A) (k : A → M S E B) :
  (∀ s, Q s → kept Q (k (f s))) → kept Q (gets f ≫= k).
Proof. intros Hk s Hs. rewrite bind_gets. by apply Hk. Qed.
Lemma kept_ok_or {A B} (o : option A) e (k : A → M S E B) :
  (∀ a, o = Some a → kept Q (k a)) → kept Q (ok_or o e ≫= k).
Proof. intros Hk s Hs. destruct o as [a|]; [rewrite bind_ok_or; by apply Hk|done]. Qed.
Lemma kept_ensure {B} b e (k : unit → M S E B) : (b = true → kept Q (k tt)) → kept Q (ensure b e ≫= k).
Proof. intros Hk s Hs. destruct b; [by apply Hk|done]. Qed.
Lemma kept_ensure_last b (e : E) : kept Q (ensure b e).
Proof. intros s Hs. by destruct b. Qed.
Lemma kept_ok_or_last {A} (o : option A) (e : E) : kept Q (ok_or o e).
Proof. intros s Hs. by destruct o. Qed.
Lemma kept_mret {A} (a : A) : kept Q (mret a : M S E A).
Proof. by intros s Hs. Qed.
Lemma kept_fail {A} (e : E) : kept Q (fail e : M S E A).
Proof. by intros s Hs. Qed.
Lemma kept_modify f : (∀ s, Q s → Q (f s)) → kept Q (modify f : M S E unit).
Proof. intros Hf s Hs. by apply Hf. Qed.
Lemma kept_map_err {E' A} (e : E) (m : M S E' A) : kept Q m → kept Q (map_err e m).
Proof. intros Hm s Hs. specialize (Hm s Hs). unfold map_err. by destruct (m s) as [[] ?]. Qed.
Lemma kept_ignore {E' A} (m : M S E' A) : kept Q m → kept Q (ignore m : M S E unit).
Proof. intros Hm s Hs. exact (Hm s Hs). Qed.
Lemma kept_for_each {A} (l : list A) (body : A → M S E unit) :
  (∀ x, x ∈ l → kept Q (body x)) → kept Q (for_each l body).
Proof.
  induction l as [|x l IH]; intros Hb; [apply kept_mret|]. apply kept_bind; [apply Hb; by left|intros _].
  apply IH. intros y Hy. apply Hb. by right.
Qed.
Lemma kept_transactional {A} (m : M S E A) : kept Q m → kept Q (transactional m).
Proof. intros Hm s Hs. specialize (Hm s Hs). unfold transactional. by destruct (m s) as [[] ?]. Qed.
End kept.

(** Goes through the steps of a run; what is read is known of a state with [Q]. *)
Ltac kept_step :=
  lazymatch goal with
  | |- kept _ (ok_or _ _ ≫= _) => apply kept_ok_or; intros ? ?
  | |- kept _ (ensure _ _ ≫= _) => apply kept_ensure; intros ?
  | |- kept _ (gets _ ≫= _) => apply kept_gets; intros ? ?
  | |- kept _ (own_gets _ ≫= _) => apply kept_gets; intros ? ?
  | |- kept _ (mret _ ≫= _) => apply kept_ret
  | |- kept _ (_ ≫= _) => apply kept_bind; [|intros ?]
  | |- kept _ (ok_or _ _) => apply kept_ok_or_last
  | |- kept _ (ensure _ _) => apply kept_ensure_last
  | |- kept _ (mret _) => apply kept_mret
  | |- kept _ (fail _) => apply kept_fail
  | |- kept _ (map_err _ _) => apply kept_map_err
  | |- kept _ (ignore _) => apply kept_ignore
  | |- kept _ (for_each _ _) => apply kept_for_each; intros ? ?
  | |- kept _ (transactional _) => apply kept_transactional
  | |- kept _ (if _ then _ else _) => case_match
  | |- kept _ (match _ with _ => _ end) => case_match
  end.

Class ManageCommittee (L H : Type) := {
  mc_is_valid_committee : H → AccountId → bool;
  mc_available_committee : H → option (list AccountId);
  mc_stake_per_order : H → option Balance;
  mc_change_used_stake : AccountId → Balance → bool → M (H * L) unit unit;
  mc_change_total_stake : AccountId → Balance → bool → bool → M (H * L) unit unit;
}.

Class GNOps (L H : Type) := {
  gn_slash_and_reward : list AccountId → Balance → list AccountId → M (H * L) unit unit;
}.

(** A draw below [max]; [None] is the panic of a remainder by zero. *)
Class RandomDraw (H : Type) := {
  rnd_u32 : Z → H → option Z * H;
}.
Class RandomDrawLaws (H : Type) `{RandomDraw H} : Prop := {
  rnd_u32_range max h : 0 < max → ∃ i, (rnd_u32 max h).1 = Some i ∧ 0 ≤ i < max;
}.

Class OCOps (L H : Type) := {
  oc_confirmed_machines : H → list (list byte);
  oc_booked_machines : H → list (list byte);
  oc_controller_stash : H → AccountId → option AccountId;
  oc_booked_machine : list byte → M (H * L) unit unit;
  oc_revert_booked_machine : list byte → M (H * L) unit unit;
  oc_confirm_machine : BlockNumber → list AccountId → VerifyOnline.CommitteeUploadInfo → M (H * L) unit unit;
  oc_refuse_machine : list AccountId → list byte → H * L → option (AccountId * Balance) * (H * L);
  oc_change_staked_balance : AccountId → Balance → bool → M (H * L) unit unit;
  oc_exec_slash : AccountId → Balance → M (H * L) unit unit;
}.

(** The machine registry as the pallet of fault reports uses it, and the rental
    orders this pallet reads. *)
Class MTOps (L H : Type) := {
  mt_machines_info : H → list byte → option MachineInfo.MachineInfo;
  mt_add_offline_machine_to_renters : list byte → list AccountId → H → H;
  mt_machine_offline : AccountId → list AccountId → list byte → MachineInfo.OPSlashReason → M (H * L) unit unit;
  mt_change_staked_balance : AccountId → Balance → bool → M (H * L) unit unit;
  mt_rm_stash_total_stake : AccountId → Balance → M (H * L) unit unit;
}.
Class RentOrders (H : Type) := {
  rent_info : H → Z → option RentOrder.RentOrderDetail;
}.

(** The machine registry as the rental pallet uses it, and what it reads of it. *)
Class RTOps (L H : Type) := {
  rt_machines_info : H → list byte → option MachineInfo.MachineInfo;
  rt_machine_rented_gpu : H → list byte → Z;
  rt_rent_fee_destroy_percent : H → Z;
  rt_get_machine_price : H → Z → Z → Z → option Z;
  rt_on_rent_start : list byte → Z → M (H * L) unit unit;
  rt_on_confirmed : list byte → AccountId → M (H * L) unit unit;
  rt_on_rent_end : BlockNumber → list byte → Z → BlockNumber → bool → bool → AccountId → M (H * L) unit unit;
  rt_on_confirm_expired : list byte → Z → M (H * L) unit unit;
  rt_change_machine_rent_fee : AccountId → list byte → Balance → Balance → M (H * L) unit unit;
}.

(** What the rental pallet relies on: the registry's numbers have their types,
    and its operations, also when they fail half-way, leave the reserves as
    sufficient as they were. *)
Definition keeps_solvent {A H L} `{Custodian H, ReservableCurrency L} (m : M (H * L) unit A) : Prop :=
  ∀ ext w, solvent ext w → solvent ext (m w).2.

Class RTOpsLaws (L H : Type) {P : PerThing} `{Custodian H} `{ReservableCurrency L} `{RTOps L H} : Prop := {
  rt_percent_typed h : 0 ≤ rt_rent_fee_destroy_percent h ≤ accuracy;
  rt_rent_start_solvent m n : keeps_solvent (rt_on_rent_start m n);
  rt_confirmed_solvent m a : keeps_solvent (rt_on_confirmed m a);
  rt_rent_end_solvent t m n d b b' a : keeps_solvent (rt_on_rent_end t m n d b b' a);
  rt_confirm_expired_solvent m n : keeps_solvent (rt_on_confirm_expired m n);
  rt_rent_fee_solvent a m f g : 0 ≤ f → 0 ≤ g → keeps_solvent (rt_change_machine_rent_fee a m f g);
}.

(** The fee of an order, and the price of a value in the two currencies. *)
Class TxFee (L H : Type) := {
  pay_fixed_tx_fee : AccountId → M (H * L) unit unit;
}.
Class TxFeeLaws (L H : Type) `{Custodian H} `{ReservableCurrency L} `{TxFee L H} : Prop := {
  tx_fee_solvent a : keeps_solvent (pay_fixed_tx_fee a);
}.
Class RentPrice (H : Type) := {
  dbc_amount_by_value : H → Z → option Balance;
  dlc_amount_by_value : H → Z → option Balance;
}.
Class RentPriceLaws (H : Type) `{RentPrice H} : Prop := {
  dbc_amount_typed h v d : dbc_amount_by_value h v = Some d → 0 ≤ d ≤ U128_MAX;
}.

(** What the machine registry uses: the committee's rewards and the draw of a
    server room. *)
Class CommitteeRewards (L H : Type) := {
  mc_add_reward : AccountId → Balance → M (H * L) unit unit;
}.
Class ServerRooms (H : Type) := {
  rnd_server_room : H → H256 * H;
}.

(** ** An implementation inside a larger state *)
Section via.
Context {A H L : Type} (get : H → A) (put : A → H → H).

Definition via {E B} (m : M (A * L) E B) : M (H * L) E B := λ w,
  let r := m (get w.1, w.2) in (r.1, (put r.2.1 w.1, r.2.2)).
End via.

Definition manage_committee_via `{ReservableCurrency L} {P : PerThing} {H}
    (get : H → Committee.State) (put : Committee.State → H → H) : ManageCommittee L H := {|
  mc_is_valid_committee h := Committee.is_valid_committee (get h);
  mc_available_committee h := Committee.available_committee (get h);
  mc_stake_per_order h := Committee.stake_per_order_of (get h);
  mc_change_used_stake who v a := via get put (Committee.change_used_stake who v a);
  mc_change_total_stake who v a c := via get put (Committee.change_total_stake who v a c);
|}.

Definition gn_ops `{ReservableCurrency L, TreasuryCurrency L} {P : PerThing} {H} : GNOps L H := {|
  gn_slash_and_reward slash v reward := GenericFunc.slash_and_reward slash v reward;
|}.

Definition random_draw_via {H} (rng : Z → Z)
    (get : H → GenericFunc.State) (put : GenericFunc.State → H → H) : RandomDraw H := {|
  rnd_u32 max h := let '(x, s) := GenericFunc.draw_u32 rng max (get h) in (x, put s h);
|}.

Lemma random_draw_via_laws {H} rng get put : @RandomDrawLaws H (random_draw_via rng get put).
Proof.
  split. intros max h Hmax. cbn [rnd_u32 random_draw_via]. unfold GenericFunc.draw_u32.
  destruct (GenericFunc.random_u32 rng (GenericFunc.RandNonce (get h)) max) as [x n] eqn:E.
  apply (GenericFunc.random_u32_range _ _ _ _ _ Hmax) in E as (i & -> & Hi). by exists i.
Qed.
