(* ===== verification/ReportTypes.v ===== *)
(** * Fault reports: the data of dbc-support

    What the pallet of fault reports stores: a report with the committee members
    who booked, checked and voted on it ([Report]), the lists of live reports, of
    a member's and of a reporter's reports, a member's work on a report, and the
    result of a report with whom it slashes and rewards ([Result]). Models
    src/pallets/support/src/report (committee_order.rs, live_report.rs,
    report_info.rs, reporter_report.rs, report_result.rs) and ReportErr of
    custom_err.rs. *)
From stdpp Require Import base gmap fin_maps list numbers.
From Stdlib Require Import ZArith Lia Strings.Byte.
From S2P Require Import Prelude ItemList VerifyOnline.

Module Report.
Import ItemList.
Abbreviation ReportId := Z (only parsing).
Abbreviation ReportHash := N (only parsing).
Abbreviation BoxPubkey := H256 (only parsing).
Abbreviation MachineId := (list byte) (only parsing).

Definition FIVE_MINUTES : Z := 5 * VerifyOnline.ONE_MINUTE.
Definition HALF_HOUR : Z := 30 * VerifyOnline.ONE_MINUTE.
Definition THREE_HOURS : Z := 3 * VerifyOnline.ONE_HOUR.
Definition FOUR_HOURS : Z := 4 * VerifyOnline.ONE_HOUR.

Inductive ReportErr :=
| OrderNotAllowBook | AlreadyBooked | NotNeedEncryptedInfo | NotOrderReporter | OrderStatusNotFeat
| NotOrderCommittee | NotInBookedList | NotProperCommittee.

Inductive MachineFaultType :=
| RentedInaccessible (m : MachineId) (rent_order_id : Z)
| RentedHardwareMalfunction (h : ReportHash) (key : BoxPubkey)
| RentedHardwareCounterfeit (h : ReportHash) (key : BoxPubkey)
| OnlineRentFailed (h : ReportHash) (key : BoxPubkey).
Definition get_hash (f : MachineFaultType) : option ReportHash :=
  match f with
  | RentedHardwareMalfunction h _ | RentedHardwareCounterfeit h _ | OnlineRentFailed h _ => Some h
  | RentedInaccessible _ _ => None
  end.
(** [matches!(f, MachineFaultType::RentedInaccessible(..))] *)
Definition is_inaccessible (f : MachineFaultType) : bool :=
  match f with RentedInaccessible _ _ => true | _ => false end.

Inductive ReportStatus := Reported | WaitingBook | Verifying | SubmittingRaw | CommitteeConfirmed.
#[export] Instance ReportStatus_eq_dec : EqDecision ReportStatus.
Proof. solve_decision. Defined.

Record ReporterStakeParamsInfo := {
  stake_baseline : Balance;
  stake_per_report : Balance;
  min_free_stake_percent : Z;
}.

(** ** The lists of a member, of the live reports and of a reporter *)

Record MTCommitteeOrderList := {
  booked_report : list ReportId;
  hashed_report : list ReportId;
  confirmed_report : list ReportId;
  order_finished_report : list ReportId;
}.
#[export] Instance MTCommitteeOrderList_eta : RecordEta MTCommitteeOrderList := λ o,
  Build_MTCommitteeOrderList (booked_report o) (hashed_report o) (confirmed_report o)
    (order_finished_report o).
Definition MTCommitteeOrderList_default : MTCommitteeOrderList := {|
  booked_report := []; hashed_report := []; confirmed_report := []; order_finished_report := [] |}.

Definition clean_unfinished_order (id : ReportId) (o : MTCommitteeOrderList) : MTCommitteeOrderList :=
  o <| booked_report ::= λ l, rm_item l id |> <| hashed_report ::= λ l, rm_item l id |>
    <| confirmed_report ::= λ l, rm_item l id |>.
Definition order_can_submit_hash (id : ReportId) (o : MTCommitteeOrderList) : result ReportErr unit :=
  if is_ok (binary_search (booked_report o) id) then Ok tt else Err NotInBookedList.
Definition order_add_hash (id : ReportId) (o : MTCommitteeOrderList) : MTCommitteeOrderList :=
  o <| booked_report ::= λ l, rm_item l id |> <| hashed_report ::= λ l, add_item l id |>.
Definition order_add_raw (id : ReportId) (o : MTCommitteeOrderList) : MTCommitteeOrderList :=
  o <| hashed_report ::= λ l, rm_item l id |> <| confirmed_report ::= λ l, add_item l id |>.
Definition clean_when_summary (id : ReportId) (is_confirmed_committee : bool) (o : MTCommitteeOrderList) :
    MTCommitteeOrderList :=
  let o := o <| hashed_report ::= λ l, rm_item l id |> in
  if is_confirmed_committee then
    o <| confirmed_report ::= λ l, rm_item l id |> <| order_finished_report ::= λ l, add_item l id |>
  else o <| booked_report ::= λ l, rm_item l id |>.

Record MTLiveReportList := {
  bookable_report : list ReportId;
  verifying_report : list ReportId;
  waiting_raw_report : list ReportId;
  finished_report : list ReportId;
}.
#[export] Instance MTLiveReportList_eta : RecordEta MTLiveReportList := λ l,
  Build_MTLiveReportList (bookable_report l) (verifying_report l) (waiting_raw_report l)
    (finished_report l).
Definition MTLiveReportList_default : MTLiveReportList := {|
  bookable_report := []; verifying_report := []; waiting_raw_report := []; finished_report := [] |}.

Inductive ReportConfirmStatus :=
| Confirmed (support against : list AccountId) (err_info : bytes)
| Refuse (support against : list AccountId)
| NoConsensus.

Definition live_new_report (id : ReportId) (l : MTLiveReportList) : MTLiveReportList :=
  l <| bookable_report ::= λ x, add_item x id |>.
Definition live_cancel_report (id : ReportId) (l : MTLiveReportList) : MTLiveReportList :=
  l <| bookable_report ::= λ x, rm_item x id |>.
Definition live_book_report (id : ReportId) (report_type : MachineFaultType)
    (booked_committee_count : nat) (l : MTLiveReportList) : MTLiveReportList :=
  if Nat.eqb booked_committee_count 3 || negb (is_inaccessible report_type) then
    l <| bookable_report ::= λ x, rm_item x id |> <| verifying_report ::= λ x, add_item x id |>
  else l.
Definition live_submit_hash (id : ReportId) (report_type : MachineFaultType)
    (hashed_committee_count : nat) (l : MTLiveReportList) : MTLiveReportList :=
  if Nat.eqb hashed_committee_count 3 then
    l <| verifying_report ::= λ x, rm_item x id |> <| waiting_raw_report ::= λ x, add_item x id |>
  else if negb (is_inaccessible report_type) then
    l <| verifying_report ::= λ x, rm_item x id |> <| bookable_report ::= λ x, add_item x id |>
  else l.
Definition time_to_submit_raw (id : ReportId) (l : MTLiveReportList) : MTLiveReportList :=
  l <| bookable_report ::= λ x, rm_item x id |> <| verifying_report ::= λ x, rm_item x id |>
    <| waiting_raw_report ::= λ x, add_item x id |>.
Definition clean_unfinished_report (id : ReportId) (l : MTLiveReportList) : MTLiveReportList :=
  l <| bookable_report ::= λ x, rm_item x id |> <| verifying_report ::= λ x, rm_item x id |>
    <| waiting_raw_report ::= λ x, rm_item x id |>.
Definition live_get_verify_result (id : ReportId) (summary_result : ReportConfirmStatus)
    (l : MTLiveReportList) : MTLiveReportList :=
  match summary_result with
  | Confirmed _ _ _ | Refuse _ _ =>
      l <| waiting_raw_report ::= λ x, rm_item x id |> <| finished_report ::= λ x, add_item x id |>
  | NoConsensus => l <| waiting_raw_report ::= λ x, rm_item x id |>
  end.
Definition clean_not_submit_hash_report (id : ReportId) (l : MTLiveReportList) : MTLiveReportList :=
  l <| verifying_report ::= λ x, rm_item x id |> <| bookable_report ::= λ x, add_item x id |>.

Record ReporterReportList := {
  processing_report : list ReportId;
  canceled_report : list ReportId;
  succeed_report : list ReportId;
  failed_report : list ReportId;
}.
#[export] Instance ReporterReportList_eta : RecordEta ReporterReportList := λ r,
  Build_ReporterReportList (processing_report r) (canceled_report r) (succeed_report r) (failed_report r).
Definition ReporterReportList_default : ReporterReportList := {|
  processing_report := []; canceled_report := []; succeed_report := []; failed_report := [] |}.
Definition reporter_new_report (id : ReportId) (r : ReporterReportList) : ReporterReportList :=
  r <| processing_report ::= λ l, add_item l id |>.
Definition reporter_cancel (id : ReportId) (r : ReporterReportList) : ReporterReportList :=
  r <| processing_report ::= λ l, rm_item l id |> <| canceled_report ::= λ l, add_item l id |>.
Definition clean_not_submit_encrypted_report (id : ReportId) (r : ReporterReportList) : ReporterReportList :=
  r <| processing_report ::= λ l, rm_item l id |> <| failed_report ::= λ l, add_item l id |>.

Record ReporterStakeInfo := {
  staked_amount : Balance;
  used_stake : Balance;
  can_claim_reward : Balance;
  claimed_reward : Balance;
}.
#[export] Instance ReporterStakeInfo_eta : RecordEta ReporterStakeInfo := λ i,
  Build_ReporterStakeInfo (staked_amount i) (used_stake i) (can_claim_reward i) (claimed_reward i).
Definition ReporterStakeInfo_default : ReporterStakeInfo := {|
  staked_amount := 0; used_stake := 0; can_claim_reward := 0; claimed_reward := 0 |}.
Definition change_stake_on_report_close (amount : Balance) (is_slashed : bool) (i : ReporterStakeInfo) :
    ReporterStakeInfo :=
  let i := i <| used_stake ::= λ v, saturating_sub v amount |> in
  if is_slashed then i <| staked_amount ::= λ v, saturating_sub v amount |> else i.

(** ** A member's work on a report *)

Inductive MTOrderStatus := WaitingEncrypt | OrderVerifying | WaitingRaw | Finished.
#[export] Instance MTOrderStatus_eq_dec : EqDecision MTOrderStatus.
Proof. solve_decision. Defined.
Definition MTOrderStatus_default : MTOrderStatus := OrderVerifying.

Record MTCommitteeOpsDetail := {
  booked_time : BlockNumber;
  encrypted_err_info : option bytes;
  encrypted_time : BlockNumber;
  confirm_hash : ReportHash;
  hash_time : BlockNumber;
  extra_err_info : bytes;
  confirm_time : BlockNumber;
  confirm_result : bool;
  staked_balance : Balance;
  order_status : MTOrderStatus;
}.
#[export] Instance MTCommitteeOpsDetail_eta : RecordEta MTCommitteeOpsDetail := λ o,
  Build_MTCommitteeOpsDetail (booked_time o) (encrypted_err_info o) (encrypted_time o) (confirm_hash o)
    (hash_time o) (extra_err_info o) (confirm_time o) (confirm_result o) (staked_balance o)
    (order_status o).
Definition MTCommitteeOpsDetail_default : MTCommitteeOpsDetail := {|
  booked_time := 0; encrypted_err_info := None; encrypted_time := 0; confirm_hash := 0%N;
  hash_time := 0; extra_err_info := []; confirm_time := 0; confirm_result := false;
  staked_balance := 0; order_status := MTOrderStatus_default |}.

Definition add_encry_info (info : bytes) (time : BlockNumber) (o : MTCommitteeOpsDetail) :
    MTCommitteeOpsDetail :=
  o <| encrypted_err_info := Some info |> <| encrypted_time := time |> <| order_status := OrderVerifying |>.
Definition ops_book_report (fault_type : MachineFaultType) (now : BlockNumber) (order_stake : Balance)
    (o : MTCommitteeOpsDetail) : MTCommitteeOpsDetail :=
  let o := o <| booked_time := now |> in
  if is_inaccessible fault_type then o <| order_status := OrderVerifying |>
  else o <| staked_balance := order_stake |> <| order_status := WaitingEncrypt |>.
Definition ops_can_submit_hash (o : MTCommitteeOpsDetail) : result ReportErr unit :=
  if bool_decide (order_status o = OrderVerifying) then Ok tt else Err OrderStatusNotFeat.
Definition ops_add_hash (h : ReportHash) (time : BlockNumber) (o : MTCommitteeOpsDetail) :
    MTCommitteeOpsDetail :=
  o <| confirm_hash := h |> <| hash_time := time |> <| order_status := WaitingRaw |>.
Definition ops_add_raw (time : BlockNumber) (is_support : bool) (extra : bytes) (o : MTCommitteeOpsDetail) :
    MTCommitteeOpsDetail :=
  o <| confirm_time := time |> <| extra_err_info := extra |> <| confirm_result := is_support |>
    <| order_status := Finished |>.

(** ** A report *)

Record MTReportInfoDetail := {
  reporter : AccountId;
  report_time : BlockNumber;
  reporter_stake : Balance;
  first_book_time : BlockNumber;
  machine_id : MachineId;
  rent_order_id : Z;
  err_info : bytes;
  verifying_committee : option AccountId;
  booked_committee : list AccountId;
  get_encrypted_info_committee : list AccountId;
  hashed_committee : list AccountId;
  confirm_start : BlockNumber;
  confirmed_committee : list AccountId;
  support_committee : list AccountId;
  against_committee : list AccountId;
  report_status : ReportStatus;
  machine_fault_type : MachineFaultType;
}.
#[export] Instance MTReportInfoDetail_eta : RecordEta MTReportInfoDetail := λ r,
  Build_MTReportInfoDetail (reporter r) (report_time r) (reporter_stake r) (first_book_time r)
    (machine_id r) (rent_order_id r) (err_info r) (verifying_committee r) (booked_committee r)
    (get_encrypted_info_committee r) (hashed_committee r) (confirm_start r) (confirmed_committee r)
    (support_committee r) (against_committee r) (report_status r) (machine_fault_type r).

Definition new_report (reporter : AccountId) (report_time : BlockNumber) (fault : MachineFaultType)
    (reporter_stake : Balance) : MTReportInfoDetail :=
  let r := {|
    reporter := reporter; report_time := report_time; machine_fault_type := fault;
    reporter_stake := reporter_stake; first_book_time := 0; machine_id := []; rent_order_id := 0;
    err_info := []; verifying_committee := None; booked_committee := [];
    get_encrypted_info_committee := []; hashed_committee := []; confirm_start := 0;
    confirmed_committee := []; support_committee := []; against_committee := [];
    report_status := Reported |} in
  match fault with
  | RentedInaccessible m rent_order => r <| machine_id := m |> <| rent_order_id := rent_order |>
  | _ => r
  end.

Definition can_book (committee : AccountId) (r : MTReportInfoDetail) : result ReportErr unit :=
  if report_time r =? 0 then Err OrderNotAllowBook
  else if negb (bool_decide (report_status r = Reported) || bool_decide (report_status r = WaitingBook))
  then Err OrderNotAllowBook
  else if negb (length (booked_committee r) <? 3)%nat then Err OrderNotAllowBook
  else if is_ok (binary_search (booked_committee r) committee) then Err AlreadyBooked
  else Ok tt.
Definition can_submit_encrypted_info (from to : AccountId) (r : MTReportInfoDetail) :
    result ReportErr unit :=
  if is_inaccessible (machine_fault_type r) then Err NotNeedEncryptedInfo
  else if negb (bool_decide (reporter r = from)) then Err NotOrderReporter
  else if negb (bool_decide (report_status r = Verifying)) then Err OrderStatusNotFeat
  else if negb (is_ok (binary_search (booked_committee r) to)) then Err NotOrderCommittee
  else Ok tt.
Definition can_submit_hash (r : MTReportInfoDetail) : result ReportErr unit :=
  if is_inaccessible (machine_fault_type r) then
    if bool_decide (report_status r = WaitingBook) || bool_decide (report_status r = Verifying)
    then Ok tt else Err OrderStatusNotFeat
  else if bool_decide (report_status r = Verifying) then Ok tt else Err OrderStatusNotFeat.
Definition can_submit_raw (who : AccountId) (r : MTReportInfoDetail) : result ReportErr unit :=
  if negb (bool_decide (report_status r = SubmittingRaw)) then Err OrderStatusNotFeat
  else if negb (is_ok (binary_search (hashed_committee r) who)) then Err NotProperCommittee
  else Ok tt.
Definition get_reporter_hash (r : MTReportInfoDetail) : result ReportErr ReportHash :=
  match get_hash (machine_fault_type r) with Some h => Ok h | None => Err OrderStatusNotFeat end.
Definition can_submit_inaccessible_raw (who : AccountId) (r : MTReportInfoDetail) : result ReportErr unit :=
  if negb (bool_decide (report_status r = SubmittingRaw)) then Err OrderStatusNotFeat
  else if negb (is_inaccessible (machine_fault_type r)) then Err OrderStatusNotFeat
  else if negb (is_ok (binary_search (hashed_committee r) who)) then Err NotProperCommittee
  else Ok tt.

Definition can_summary_fault (r : MTReportInfoDetail) : bool :=
  negb ((first_book_time r =? 0) || is_inaccessible (machine_fault_type r)).
Definition can_summary (now : BlockNumber) (r : MTReportInfoDetail) : bool :=
  if first_book_time r =? 0 then false
  else if is_inaccessible (machine_fault_type r) then false
  else if (saturating_sub now (first_book_time r) <? FOUR_HOURS) &&
          negb (Nat.eqb (length (hashed_committee r)) (length (confirmed_committee r)))
  then false else true.
Definition summary (r : MTReportInfoDetail) : ReportConfirmStatus :=
  if Nat.eqb (length (confirmed_committee r)) 0 then NoConsensus
  else if (length (against_committee r) <=? length (support_committee r))%nat then
    Confirmed (support_committee r) (against_committee r) (err_info r)
  else Refuse (support_committee r) (against_committee r).
Definition is_confirmed_committee (who : AccountId) (r : MTReportInfoDetail) : bool :=
  is_ok (binary_search (confirmed_committee r) who).

Definition book_report (committee : AccountId) (now : BlockNumber) (r : MTReportInfoDetail) :
    MTReportInfoDetail :=
  let r := r <| booked_committee ::= λ l, add_item l committee |> in
  let r := if bool_decide (report_status r = Reported) then
             r <| first_book_time := now |>
               <| confirm_start := VerifyOnline.add_block now
                    (if is_inaccessible (machine_fault_type r) then FIVE_MINUTES else THREE_HOURS) |>
           else r in
  if is_inaccessible (machine_fault_type r) then
    r <| report_status := if Nat.eqb (length (booked_committee r)) 3 then Verifying else WaitingBook |>
  else r <| verifying_committee := Some committee |> <| report_status := Verifying |>.
Definition add_hash (who : AccountId) (r : MTReportInfoDetail) : MTReportInfoDetail :=
  let r := r <| hashed_committee ::= λ l, add_item l who |> <| verifying_committee := None |> in
  if Nat.eqb (length (hashed_committee r)) 3 then r <| report_status := SubmittingRaw |>
  else if negb (is_inaccessible (machine_fault_type r)) then r <| report_status := WaitingBook |>
  else r.
Definition add_raw (who : AccountId) (is_support : bool) (m : option MachineId) (err_reason : bytes)
    (r : MTReportInfoDetail) : MTReportInfoDetail :=
  let r := r <| confirmed_committee ::= λ l, add_item l who |> in
  let r := if is_support then r <| support_committee ::= λ l, add_item l who |>
           else r <| against_committee ::= λ l, add_item l who |> in
  match m with
  | Some m => r <| err_info := err_reason |> <| machine_id := m |>
  | None => r
  end.

Definition can_summary_inaccessible (now : BlockNumber) (r : MTReportInfoDetail) : bool :=
  if first_book_time r =? 0 then false
  else if negb (is_inaccessible (machine_fault_type r)) then false
  else if bool_decide (report_status r = Reported) || bool_decide (report_status r = CommitteeConfirmed)
  then false
  else if bool_decide (report_status r = SubmittingRaw) &&
          (saturating_sub now (first_book_time r) <? 10 * VerifyOnline.ONE_MINUTE) &&
          ((length (confirmed_committee r) <? length (hashed_committee r))%nat ||
           Nat.eqb (length (hashed_committee r)) 0)
  then false else true.

Definition clean_not_submit_hash_committee (verifying : AccountId) (r : MTReportInfoDetail) :
    MTReportInfoDetail :=
  let r := r <| verifying_committee := None |> <| booked_committee ::= λ l, rm_item l verifying |>
             <| get_encrypted_info_committee ::= λ l, rm_item l verifying |> in
  if Nat.eqb (length (booked_committee r)) 0 then
    r <| first_book_time := 0 |> <| confirm_start := 0 |> <| report_status := Reported |>
  else r <| report_status := WaitingBook |>.
Definition clean_not_submit_raw_committee (verifying : AccountId) (r : MTReportInfoDetail) :
    MTReportInfoDetail :=
  r <| verifying_committee := None |> <| booked_committee ::= λ l, rm_item l verifying |>
    <| get_encrypted_info_committee ::= λ l, rm_item l verifying |>.
End Report.

(** ** The result of a report *)
Module Result.
Import ItemList Report.

Inductive MCSlashResult := Pending | Canceled | Executed.
Inductive ReportResultType :=
| ReportSucceed | ReportRefused | ReporterNotSubmitEncryptedInfo | ReportNoConsensus.
#[global] Instance MCSlashResult_eq_dec : EqDecision MCSlashResult.
Proof. solve_decision. Defined.
#[global] Instance ReportResultType_eq_dec : EqDecision ReportResultType.
Proof. solve_decision. Defined.
Definition ReportResultType_default : ReportResultType := ReportRefused.

Record MTReportResultInfo := {
  report_id : ReportId;
  reporter : AccountId;
  reporter_stake : Balance;
  inconsistent_committee : list AccountId;
  unruly_committee : list AccountId;
  reward_committee : list AccountId;
  committee_stake : Balance;
  machine_stash : option AccountId;
  machine_id : MachineId;
  slash_time : BlockNumber;
  slash_exec_time : BlockNumber;
  report_result : ReportResultType;
  slash_result : MCSlashResult;
}.
#[global] Instance MTReportResultInfo_eta : RecordEta MTReportResultInfo := λ r,
  Build_MTReportResultInfo (report_id r) (reporter r) (reporter_stake r) (inconsistent_committee r)
    (unruly_committee r) (reward_committee r) (committee_stake r) (machine_stash r) (machine_id r)
    (slash_time r) (slash_exec_time r) (report_result r) (slash_result r).

Definition new_inaccessible_result (now : BlockNumber) (id : ReportId) (r : MTReportInfoDetail)
    (stash : AccountId) : MTReportResultInfo := {|
  report_id := id; reporter := Report.reporter r; slash_time := now;
  slash_exec_time := VerifyOnline.add_block now VerifyOnline.TWO_DAYS; slash_result := Pending;
  machine_stash := Some stash; machine_id := Report.machine_id r;
  reporter_stake := Report.reporter_stake r; inconsistent_committee := []; unruly_committee := [];
  reward_committee := []; committee_stake := 0; report_result := ReportResultType_default |}.
Definition add_unruly (who : AccountId) (r : MTReportResultInfo) : MTReportResultInfo :=
  r <| unruly_committee ::= λ l, add_item l who |>.

(** Whether the result takes a stake of the reporter. *)
Definition punishes_reporter (t : ReportResultType) : bool :=
  match t with ReportRefused | ReporterNotSubmitEncryptedInfo => true | _ => false end.
Definition is_slashed_reporter (who : AccountId) (r : MTReportResultInfo) : bool :=
  punishes_reporter (report_result r) && bool_decide (reporter r = who).
Definition is_slashed_committee (who : AccountId) (r : MTReportResultInfo) : bool :=
  is_ok (binary_search (inconsistent_committee r) who) || is_ok (binary_search (unruly_committee r) who).
Definition is_slashed_stash (who : AccountId) (r : MTReportResultInfo) : bool :=
  bool_decide (report_result r = ReportSucceed) && bool_decide (machine_stash r = Some who).
Definition i_exten_sorted (l : list AccountId) (r : MTReportResultInfo) : MTReportResultInfo :=
  r <| inconsistent_committee ::= λ x, foldl add_item x l |>.
Definition r_exten_sorted (l : list AccountId) (r : MTReportResultInfo) : MTReportResultInfo :=
  r <| reward_committee ::= λ x, foldl add_item x l |>.

Definition get_verify_result (current_result : option MTReportResultInfo) (now : BlockNumber)
    (id : ReportId) (committee_order_stake : Balance) (info : MTReportInfoDetail) : MTReportResultInfo :=
  let out :=
    match current_result with
    | Some current =>
        current <| report_id := id |> <| slash_result := Pending |> <| slash_time := now |>
          <| slash_exec_time := VerifyOnline.add_block now VerifyOnline.TWO_DAYS |>
          <| reporter := Report.reporter info |> <| committee_stake := committee_order_stake |>
    | None => {|
        report_id := id; slash_result := Pending; slash_time := now;
        slash_exec_time := VerifyOnline.add_block now VerifyOnline.TWO_DAYS;
        reporter := Report.reporter info; committee_stake := committee_order_stake;
        reporter_stake := 0; inconsistent_committee := []; unruly_committee := [];
        reward_committee := []; machine_stash := None; machine_id := [];
        report_result := ReportResultType_default |}
    end in
  match summary info with
  | Confirmed support against _ =>
      out <| report_result := ReportSucceed |> <| reporter_stake := Report.reporter_stake info |>
          <| inconsistent_committee ::= λ x, foldl add_item x against |>
          <| reward_committee ::= λ x, foldl add_item x support |>
  | Refuse support against =>
      r_exten_sorted against (i_exten_sorted support
        (out <| report_result := ReportRefused |> <| reporter_stake := Report.reporter_stake info |>))
  | NoConsensus =>
      out <| report_result := ReportNoConsensus |>
          <| unruly_committee ::= λ x, expand_to_order x (booked_committee info) |>
          <| reporter_stake := 0 |>
  end.
End Result.
