(* ===== verification/OnlineCommittee.v ===== *)
(** * pallet-online-committee

    New machines are verified by three members of the committee drawn at random:
    each has three of nine time slots, commits to a report by its hash, reveals
    it later, and the majority of the reports decides whether the machine goes
    online. Members who disagree with the majority or do not report, and the
    owner of a refused machine, are slashed two days later unless the slash is
    appealed and cancelled. Models src/pallets/online-committee/src (lib.rs,
    types.rs, utils.rs, slash.rs) over the interfaces of RentalInterfaces.v. *)
From stdpp Require Import base gmap fin_maps list numbers relations.
From Stdlib Require Import ZArith Lia Strings.Byte.
From S2P Require Import Prelude Currency Interfaces ItemList VerifyOnline RentalInterfaces.

Module OnlineCommittee.
Import ItemList VerifyOnline.

Definition DISTRIBUTION : nat := 9.

Record OCPendingSlashReviewInfo := {
  applicant : AccountId;
  staked_amount : Balance;
  apply_time : BlockNumber;
  expire_time : BlockNumber;
  reason : bytes;
}.

Inductive Event :=
| AddConfirmHash (who : AccountId) (h : Hash16)
| AddConfirmRaw (who : AccountId) (m : MachineId)
| MachineDistributed (m : MachineId) (who : AccountId).

Inductive Error :=
| ErrNotInBookList | ErrAlreadySubmitHash | NotAllHashSubmited | ErrTimeNotAllow | ErrNotSubmitHash
| ErrAlreadySubmitRaw | InfoNotFeatHash | DuplicateHash | GetStakeAmountFailed | AlreadyApplied
| NotSlashed | BalanceNotEnough | NotPendingReviewSlash | ExpiredApply | ErrOverflow | Unknown.

Definition from_verify_err (e : VerifyErr) : Error :=
  match e with
  | NotInBookList => ErrNotInBookList
  | TimeNotAllow => ErrTimeNotAllow
  | AlreadySubmitHash => ErrAlreadySubmitHash
  | AlreadySubmitRaw => ErrAlreadySubmitRaw
  | NotSubmitHash => ErrNotSubmitHash
  | Overflow => ErrOverflow
  end.

Record State := {
  CommitteeMachine : gmap AccountId OCCommitteeMachineList;
  MachineCommittee : gmap MachineId OCMachineCommitteeList;
  MachineSubmitedHash : gmap MachineId (list Hash16);
  CommitteeOps : gmap (AccountId * MachineId) OCCommitteeOps;
  NextSlashId : Z;
  PendingSlash : gmap Z OCPendingSlashInfo;
  PendingSlashReview : gmap Z OCPendingSlashReviewInfo;
  UnhandledSlash : list Z;
  events : list Event;
}.
#[export] Instance State_eta : RecordEta State := λ s,
  Build_State (CommitteeMachine s) (MachineCommittee s) (MachineSubmitedHash s) (CommitteeOps s)
    (NextSlashId s) (PendingSlash s) (PendingSlashReview s) (UnhandledSlash s) (events s).

Definition genesis : State := {|
  CommitteeMachine := ∅; MachineCommittee := ∅; MachineSubmitedHash := ∅; CommitteeOps := ∅;
  NextSlashId := 0; PendingSlash := ∅; PendingSlashReview := ∅; UnhandledSlash := []; events := [] |}.

(** The hash function, and who may cancel a slash. *)
Record Config := {
  blake2_128 : bytes → Hash16;
  CancelSlashOrigin : Origin → bool;
}.

Definition deposit_event (e : Event) (s : State) : State :=
  s <| events ::= λ es, es ++ [e] |>.

Definition committee_machine (s : State) (a : AccountId) : OCCommitteeMachineList :=
  default OCCommitteeMachineList_default (CommitteeMachine s !! a).
Definition machine_committee (s : State) (m : MachineId) : OCMachineCommitteeList :=
  default OCMachineCommitteeList_default (MachineCommittee s !! m).
Definition machine_submited_hash (s : State) (m : MachineId) : list Hash16 :=
  default [] (MachineSubmitedHash s !! m).
Definition committee_ops (s : State) (a : AccountId) (m : MachineId) : OCCommitteeOps :=
  default OCCommitteeOps_default (CommitteeOps s !! (a, m)).

(** [mutate] of the maps with a default. *)
Definition mutate_list (a : AccountId) (f : OCCommitteeMachineList → OCCommitteeMachineList)
    (s : State) : State :=
  s <| CommitteeMachine ::= <[a := f (committee_machine s a)]> |>.
Definition mutate_machine (m : MachineId) (f : OCMachineCommitteeList → OCMachineCommitteeList)
    (s : State) : State :=
  s <| MachineCommittee ::= <[m := f (machine_committee s m)]> |>.
Definition mutate_ops (a : AccountId) (m : MachineId) (f : OCCommitteeOps → OCCommitteeOps)
    (s : State) : State :=
  s <| CommitteeOps ::= <[(a, m) := f (committee_ops s a m)]> |>.

Section pallet.
Context {L RT : Type} `{!ReservableCurrency L} `{!ManageCommittee L RT, !OCOps L RT, !GNOps L RT} `{!RandomDraw RT}.
Context (T : Config).
Abbreviation MO := (M ((State * RT) * L) (DispatchError Error)).
Abbreviation MF := (M ((State * RT) * L) Fault).

(** Reading the rest of the runtime, and calling it from a hook. *)
Definition rt_gets {E A} (f : RT → A) : M ((State * RT) * L) E A := gets (λ w, f w.1.2).
Definition call {A} (m : M (RT * L) unit A) : MF A := map_err Failed (with_callee m).

(** ** Helpers (utils.rs) *)

Definition get_new_slash_id (s : State) : Z * State :=
  let slash_id := NextSlashId s in
  (slash_id, s <| NextSlashId := if slash_id =? U64_MAX then 0 else slash_id + 1 |>).

Definition change_committee_used_stake (a : AccountId) (v : Balance) (is_add : bool) : MF unit :=
  call (mc_change_used_stake a v is_add).
Definition change_committee_total_stake (a : AccountId) (v : Balance) (is_add change_reserve : bool) :
    MF unit :=
  call (mc_change_total_stake a v is_add change_reserve).

Definition change_committee_stake (committee_list : list AccountId) (amount : Balance)
    (is_slash : bool) : MF unit :=
  for_each committee_list (λ a_committee,
    (if is_slash then change_committee_total_stake a_committee amount false false else mret tt);;
    change_committee_used_stake a_committee amount false).

(** ** Distribution of new machines *)

(** [(i..DISTRIBUTION).step_by(3)] *)
Definition slots (i : nat) : list nat := filter (λ x, x mod 3 = i mod 3)%nat (seq i (DISTRIBUTION - i)).

Definition draw (max : Z) : MF Z := λ w,
  let '(x, h) := rnd_u32 max w.1.2 in
  let w' := ((w.1.1, h), w.2) in
  match x with Some i => (Ok i, w') | None => (Err Panic, w') end.

(** Draws [n] members, the first of which gets the slots from [i]. *)
Fixpoint draw_members (n i : nat) (committee : list AccountId) : MF (list VerifySequence) :=
  match n with
  | O => mret []
  | S n =>
      lucky_index ← draw (Z.of_nat (length committee));
      a ← ok_or (committee !! Z.to_nat lucky_index) Panic;
      rest ← draw_members n (S i) (delete (Z.to_nat lucky_index) committee);
      mret ({| who := a; index := slots i |} :: rest)
  end.

Definition get_work_index : MF (option (list VerifySequence)) :=
  available ← rt_gets mc_available_committee;
  match available with
  | None => mret None
  | Some committee =>
      if (length committee <? 3)%nat then mret None
      else verify_sequence ← draw_members 3 0 committee; mret (Some verify_sequence)
  end.

(** The records of a booking; [x as u32 * SUBMIT_RAW_START / DISTRIBUTION] is
    below 2^32 for the slots. *)
Definition book_records (m : MachineId) (confirm_start now : BlockNumber) (work_index : VerifySequence)
    (stake_need : Balance) (s : State) : State :=
  let a := who work_index in
  let s := mutate_machine m (λ c, c <| booked_committee ::= λ x, add_item x a |>
    <| book_time := now |> <| confirm_start_time := confirm_start |>) s in
  let s := mutate_list a (λ l, l <| booked_machine ::= λ x, add_item x m |>) s in
  let s := mutate_ops a m (λ o, o <| staked_dbc := stake_need |>
    <| verify_time := (λ x, add_block now (Z.of_nat x * SUBMIT_RAW_START / Z.of_nat DISTRIBUTION))
         <$> index work_index |>
    <| machine_status := Booked |>) s in
  deposit_event (MachineDistributed m a) s.

Definition book_one (m : MachineId) (confirm_start now : BlockNumber) (work_index : VerifySequence) :
    MF unit :=
  maybe_stake ← rt_gets mc_stake_per_order;
  stake_need ← ok_or maybe_stake Failed;
  change_committee_used_stake (who work_index) stake_need true;;
  own_modify (book_records m confirm_start now work_index stake_need).

Definition distribute_machine (confirm_start now : BlockNumber) (m : MachineId) : MF unit :=
  own_modify (λ s, s <| MachineCommittee ::= delete m |>);;
  maybe_work ← get_work_index;
  match maybe_work with
  | Some committee_work_index =>
      for_each committee_work_index (λ w, attempt tt (book_one m confirm_start now w));;
      attempt tt (call (oc_booked_machine m))
  | None => mret tt
  end.

Definition distribute_machines (now : BlockNumber) : MF unit :=
  machines ← rt_gets oc_confirmed_machines;
  for_each machines (distribute_machine (add_block now SUBMIT_RAW_START) now).

(** ** Summary of the reports *)

Definition revert_book (m : MachineId) (s : State) : State :=
  let s := foldl (λ s a, mutate_list a (list_revert_book m) (s <| CommitteeOps ::= delete (a, m) |>))
    s (booked_committee (machine_committee s m)) in
  s <| MachineCommittee ::= delete m |>.

Definition add_summary_slash (m : MachineId) (stash : option AccountId) (slash_amount : Balance)
    (summary : Summary) (stake_per_order : Balance) (now : BlockNumber) (s : State) : State :=
  let '(slash_id, s) := get_new_slash_id s in
  let s := s <| PendingSlash ::= <[slash_id := {|
    slash_machine_id := m; machine_stash := stash; stash_slash_amount := slash_amount;
    inconsistent_committee := invalid_vote summary; unruly_committee := unruly summary;
    reward_committee := valid_vote summary; committee_stake := stake_per_order;
    slash_time := now; slash_exec_time := add_block now TWO_DAYS;
    book_result := into_book_result summary; slash_result := Pending |}]> |> in
  s <| UnhandledSlash ::= λ u, add_item u slash_id |>.

Definition clean_up (m : MachineId) (booked : list AccountId) (s : State) : State :=
  foldl (λ s a, mutate_list a (list_online_cleanup m)
    (s <| CommitteeOps ::= delete (a, m) |> <| MachineSubmitedHash ::= delete m |>)) s booked.

Definition refuse_machine (committees : list AccountId) (m : MachineId) :
    MF (option (AccountId * Balance)) := λ w,
  let '(r, (h, l)) := oc_refuse_machine committees m (w.1.2, w.2) in (Ok r, ((w.1.1, h), l)).

Definition summary_raw (m : MachineId) (now : BlockNumber) (stake_per_order : Balance) : MF unit :=
  c ← own_gets (λ s, machine_committee s m);
  if can_submit_raw now c then
    own_modify (λ s, s <| MachineCommittee ::= <[m := c <| status := SubmittingRaw |>]> |>)
  else if negb (can_summary now c) then mret tt
  else
    submit_info ← own_gets (λ s, (λ a, machine_info (committee_ops s a m)) <$> confirmed_committee c);
    summary ← ok_or (summary_confirmation c submit_info) Panic;
    stash_slash ← (match verify_result summary with
                   | Refused => refuse_machine (valid_vote summary) m
                   | _ => mret None
                   end);
    (match verify_result summary with
     | Confirmed =>
         i ← ok_or (info summary) Panic;
         call (oc_confirm_machine now (valid_vote summary) i);;
         for_each (valid_vote summary) (λ a,
           own_modify (mutate_list a (λ l, l <| online_machine ::= λ x, add_item x m |>)))
     | Refused => mret tt
     | NoConsensus =>
         own_modify (revert_book m);;
         call (oc_revert_booked_machine m);;
         for_each (invalid_vote summary) (λ a,
           attempt tt (change_committee_used_stake a stake_per_order false))
     end);;
    (if bool_decide (is_Some stash_slash) || should_slash_committee summary then
       let '(stash, amount) := match stash_slash with
                               | Some (a, v) => (Some a, v)
                               | None => (None, 0)
                               end in
       own_modify (add_summary_slash m stash amount summary stake_per_order now)
     else
       for_each (valid_vote summary) (λ a,
         attempt tt (change_committee_used_stake a stake_per_order false)));;
    own_modify (mutate_machine m (after_summary summary));;
    own_modify (clean_up m (booked_committee c)).

Definition statistic_result (now : BlockNumber) : MF unit :=
  booked ← rt_gets oc_booked_machines;
  stake_per_order ← rt_gets (λ h, default 0 (mc_stake_per_order h));
  for_each booked (λ m, attempt tt (summary_raw m now stake_per_order)).

(** ** Slashes (slash.rs) *)

Definition slash_and_reward (slash : list AccountId) (v : Balance) (reward : list AccountId) : MF unit :=
  call (gn_slash_and_reward slash v reward).

Definition do_a_pending_review (now : BlockNumber) (id : Z) : MF unit :=
  maybe_review ← own_gets (λ s, PendingSlashReview s !! id);
  review_info ← ok_or maybe_review Failed;
  maybe_slash ← own_gets (λ s, PendingSlash s !! id);
  slash_info ← ok_or maybe_slash Failed;
  if expire_time review_info <? now then mret tt
  else
    (match machine_stash slash_info with
     | Some stash =>
         if bool_decide (book_result slash_info = OnlineRefused) &&
            bool_decide (stash = applicant review_info) then
           call (oc_exec_slash stash (staked_amount review_info));;
           slash_and_reward [stash] (stash_slash_amount slash_info) (reward_committee slash_info)
         else mret tt
     | None => change_committee_stake [applicant review_info] (staked_amount review_info) true
     end);;
    slash_and_reward [applicant review_info] (staked_amount review_info) [];;
    own_modify (λ s, s <| PendingSlashReview ::= delete id |>).

(** The order of the storage iteration is that of the keys' hashes; any order
    is that of [map_to_list] here. *)
Definition check_and_exec_pending_review (now : BlockNumber) : MF unit :=
  ids ← own_gets (λ s, (map_to_list (PendingSlashReview s)).*1);
  for_each ids (λ id, attempt tt (do_a_pending_review now id)).

(** Whom a due slash takes from, and whose stake it releases. *)
Definition slashed_members (i : OCPendingSlashInfo) : list AccountId :=
  unruly_committee i ++
  (if negb (stash_slash_amount i =? 0) then inconsistent_committee i
   else if Nat.eqb (length (reward_committee i)) 0 then [] else inconsistent_committee i).
Definition released_members (i : OCPendingSlashInfo) : list AccountId :=
  if negb (stash_slash_amount i =? 0) then reward_committee i
  else if Nat.eqb (length (reward_committee i)) 0 then inconsistent_committee i
       else reward_committee i.

(** Gives the list of unhandled slashes afterwards. *)
Definition do_a_slash (now : BlockNumber) (id : Z) (pending_unhandled_slash : list Z) : MF (list Z) :=
  maybe_slash ← own_gets (λ s, PendingSlash s !! id);
  slash_info ← ok_or maybe_slash Failed;
  if now <? slash_exec_time slash_info then mret pending_unhandled_slash
  else
    (if negb (stash_slash_amount slash_info =? 0) then
       match machine_stash slash_info with
       | Some stash =>
           call (oc_exec_slash stash (stash_slash_amount slash_info));;
           slash_and_reward [stash] (stash_slash_amount slash_info) (reward_committee slash_info)
       | None => mret tt
       end
     else mret tt);;
    change_committee_stake (slashed_members slash_info) (committee_stake slash_info) true;;
    change_committee_stake (released_members slash_info) (committee_stake slash_info) false;;
    slash_and_reward (slashed_members slash_info) (committee_stake slash_info) [];;
    own_modify (λ s, s <| PendingSlash ::= <[id := slash_info <| slash_result := Executed |>]> |>);;
    mret (rm_item pending_unhandled_slash id).

Fixpoint exec_slashes (now : BlockNumber) (ids pending : list Z) : MF (list Z) :=
  match ids with
  | [] => mret pending
  | id :: ids =>
      pending ← attempt pending (do_a_slash now id pending);
      exec_slashes now ids pending
  end.

Definition check_and_exec_pending_slash (now : BlockNumber) : MF unit :=
  unhandled ← own_gets UnhandledSlash;
  pending ← exec_slashes now unhandled unhandled;
  own_modify (λ s, s <| UnhandledSlash := pending |>).

Definition on_initialize (now : BlockNumber) : MF unit :=
  check_and_exec_pending_review now;;
  check_and_exec_pending_slash now.

Definition on_finalize (now : BlockNumber) : MF unit :=
  statistic_result now;;
  distribute_machines now.

(** ** Dispatchables *)

Definition verify_ok {A} (r : result VerifyErr A) : MO A :=
  match r with Ok a => mret a | Err e => fail (Module (from_verify_err e)) end.
(** A call whose error the dispatchable replaces, or ignores. *)
Definition call_or {A} (e : Error) (m : M (RT * L) unit A) : MO A :=
  map_err (Module e) (with_callee m).
Definition call_ignore (m : M (RT * L) unit unit) : MO unit := ignore (with_callee (E:=unit) m).

Definition submit_confirm_hash (now : BlockNumber) (origin : Origin) (m : MachineId) (h : Hash16) :
    MO unit :=
  a ← ensure_signed origin;
  hashes ← own_gets (λ s, machine_submited_hash s m);
  ensure (negb (is_ok (binary_search hashes h))) (Module DuplicateHash);;
  c ← own_gets (λ s, machine_committee s m);
  l ← own_gets (λ s, committee_machine s a);
  o ← own_gets (λ s, committee_ops s a m);
  c ← verify_ok (mc_submit_hash a c);
  own_modify (λ s, s <| MachineSubmitedHash ::= <[m := add_item hashes h]> |>
    <| MachineCommittee ::= <[m := c]> |>
    <| CommitteeMachine ::= <[a := list_submit_hash m l]> |>
    <| CommitteeOps ::= <[(a, m) := ops_submit_hash now h o]> |>);;
  own_modify (deposit_event (AddConfirmHash a h)).

Definition submit_confirm_raw (now : BlockNumber) (origin : Origin) (i : CommitteeUploadInfo) :
    MO unit :=
  a ← ensure_signed origin;
  let m := machine_id i in
  c ← own_gets (λ s, machine_committee s m);
  l ← own_gets (λ s, committee_machine s a);
  o ← own_gets (λ s, committee_ops s a m);
  ensure (bool_decide (hash (blake2_128 T) i = confirm_hash o)) (Module InfoNotFeatHash);;
  l ← verify_ok (list_submit_raw m l);
  c ← verify_ok (mc_submit_raw now a c);
  own_modify (λ s, s <| CommitteeMachine ::= <[a := l]> |>
    <| MachineCommittee ::= <[m := c]> |>
    <| CommitteeOps ::= <[(a, m) := ops_submit_raw now i o]> |>);;
  own_modify (deposit_event (AddConfirmRaw a m)).

Definition apply_slash_review (now : BlockNumber) (origin : Origin) (id : Z) (why : bytes) : MO unit :=
  who ← ensure_signed origin;
  maybe_slash ← own_gets (λ s, PendingSlash s !! id);
  slash_info ← ok_or maybe_slash (Module Unknown);
  maybe_stake ← rt_gets mc_stake_per_order;
  stake_amount ← ok_or maybe_stake (Module GetStakeAmountFailed);
  applied ← own_gets (λ s, bool_decide (is_Some (PendingSlashReview s !! id)));
  ensure (negb applied) (Module AlreadyApplied);;
  ensure (now <? slash_exec_time slash_info) (Module ErrTimeNotAllow);;
  maybe_stash ← rt_gets (λ h, oc_controller_stash h who);
  controller_stash ← ok_or maybe_stash (Module Unknown);
  let is_slashed_stash := applicant_is_stash slash_info controller_stash in
  let is_slashed_committee := applicant_is_committee slash_info who in
  ensure (is_slashed_stash || is_slashed_committee) (Module NotSlashed);;
  let slashed := if is_slashed_stash then controller_stash else who in
  ok ← gets (λ w, can_reserve slashed stake_amount w.2);
  ensure ok (Module BalanceNotEnough);;
  (if is_slashed_stash then
     call_or BalanceNotEnough (oc_change_staked_balance slashed stake_amount true)
   else if is_slashed_committee then
     call_or ErrOverflow (mc_change_total_stake slashed stake_amount true true);;
     call_or ErrOverflow (mc_change_used_stake slashed stake_amount true)
   else mret tt);;
  own_modify (λ s, s <| PendingSlashReview ::= <[id := {|
    applicant := slashed; staked_amount := stake_amount; apply_time := now;
    expire_time := slash_exec_time slash_info; reason := why |}]> |>).

Definition do_cancel_slash (now : BlockNumber) (id : Z) : MO unit :=
  maybe_slash ← own_gets (λ s, PendingSlash s !! id);
  slash_info ← ok_or maybe_slash (Module Unknown);
  maybe_review ← own_gets (λ s, PendingSlashReview s !! id);
  review ← ok_or maybe_review (Module Unknown);
  maybe_stake ← rt_gets mc_stake_per_order;
  committee_order_stake ← ok_or maybe_stake (Module GetStakeAmountFailed);
  ensure (now <? expire_time review) (Module ExpiredApply);;
  let is_applicant_slashed_stash :=
    bool_decide (book_result slash_info = OnlineRefused) &&
    bool_decide (machine_stash slash_info = Some (applicant review)) in
  (if is_applicant_slashed_stash then
     call_ignore (oc_change_staked_balance (applicant review) committee_order_stake false)
   else
     m_unreserve (applicant review) (staked_amount review);;
     call_ignore (mc_change_total_stake (applicant review) committee_order_stake false true);;
     call_ignore (mc_change_used_stake (applicant review) committee_order_stake false));;
  let should_slash := expand_to_order (reward_committee slash_info) (unruly_committee slash_info) in
  let should_reward :=
    match book_result slash_info, machine_stash slash_info with
    | OnlineRefused, Some stash => add_item (inconsistent_committee slash_info) stash
    | _, _ => inconsistent_committee slash_info
    end in
  call_ignore (gn_slash_and_reward should_slash committee_order_stake should_reward);;
  (if is_applicant_slashed_stash then
     call_ignore (oc_change_staked_balance (applicant review) (stash_slash_amount slash_info) false)
   else mret tt);;
  for_each should_slash (λ a,
    call_ignore (mc_change_total_stake a committee_order_stake false false);;
    call_ignore (mc_change_used_stake a committee_order_stake false));;
  for_each should_reward (λ a, call_ignore (mc_change_used_stake a committee_order_stake false));;
  own_modify (λ s, s <| UnhandledSlash ::= λ u, rm_item u id |>
    <| PendingSlash ::= <[id := slash_info <| slash_result := Canceled |>]> |>
    <| PendingSlashReview ::= delete id |>).

Definition cancel_slash (now : BlockNumber) (origin : Origin) (id : Z) : MO unit :=
  ensure (CancelSlashOrigin T origin) BadOrigin;;
  reviewed ← own_gets (λ s, bool_decide (is_Some (PendingSlashReview s !! id)));
  ensure reviewed (Module NotPendingReviewSlash);;
  do_cancel_slash now id.

(** ** The pallet as a state machine *)

Inductive Call :=
| SubmitConfirmHash (m : MachineId) (h : Hash16)
| SubmitConfirmRaw (i : CommitteeUploadInfo)
| ApplySlashReview (id : Z) (why : bytes)
| CancelSlash (id : Z).

Definition dispatch (now : BlockNumber) (o : Origin) (c : Call) : MO unit :=
  transactional
    match c with
    | SubmitConfirmHash m h => submit_confirm_hash now o m h
    | SubmitConfirmRaw i => submit_confirm_raw now o i
    | ApplySlashReview id why => apply_slash_review now o id why
    | CancelSlash id => cancel_slash now o id
    end.

(** A call, a change of the rest of the runtime, or the end of a block with
    the beginning of the next. Slash ids are not exhausted. *)
Inductive step : BlockNumber * ((State * RT) * L) → BlockNumber * ((State * RT) * L) → Prop :=
| step_call now o c w : step (now, w) (now, (dispatch now o c w).2)
| step_others now s h h' l l' : step (now, ((s, h), l)) (now, ((s, h'), l'))
| step_block now w :
    NextSlashId w.1.1 + Z.of_nat (length (oc_booked_machines w.1.2)) ≤ U64_MAX →
    step (now, w) (now + 1, (on_initialize (now + 1) (on_finalize now w).2).2).

Definition reachable (c : BlockNumber * ((State * RT) * L)) : Prop :=
  ∃ now h l, rtc step (now, ((genesis, h), l)) c.
End pallet.
End OnlineCommittee.
