(* ===== verification/OnlineInvariant.v ===== *)
(** * pallet-online-committee: what every step keeps

    The records of a verification agree with each other ([BookInv]): the lists
    are sorted, who revealed had committed and was booked, the hashes committed
    for a machine are distinct, and each revealed report has the committed hash.
    The slashes are in order ([SlashInv]): exactly the undecided ones are
    scheduled, appeals belong to slashes, and a slash was executed only when due.
    Every call and hook keeps both, whatever the rest of the runtime does, and
    the hooks never panic. *)
From stdpp Require Import base gmap fin_maps list numbers relations.
From Stdlib Require Import ZArith Lia Strings.Byte.
From S2P Require Import Prelude Currency Interfaces ItemList VerifyOnline RentalInterfaces OnlineCommittee.

Module OnlineInvariant.
Import ItemList VerifyOnline OnlineCommittee.

(** ** The invariants *)

Record mc_ok (c : OCMachineCommitteeList) : Prop := {
  mc_sorted : sorted (booked_committee c) ∧ sorted (hashed_committee c) ∧ sorted (confirmed_committee c);
  mc_hashed a : a ∈ hashed_committee c → a ∈ booked_committee c;
  mc_confirmed a : a ∈ confirmed_committee c → a ∈ hashed_committee c;
  mc_three : (length (booked_committee c) ≤ 3)%nat;
}.

Definition list_ok (l : OCCommitteeMachineList) : Prop :=
  sorted (booked_machine l) ∧ sorted (hashed_machine l) ∧ sorted (confirmed_machine l) ∧
  sorted (online_machine l).

(** [m] is in progress with the member whose list is [l]. *)
Definition working (l : OCCommitteeMachineList) (m : MachineId) : Prop :=
  m ∈ booked_machine l ∨ m ∈ hashed_machine l ∨ m ∈ confirmed_machine l.

(** The stored report is one with the committed hash, less its random string. *)
Definition revealed (T : Config) (m : MachineId) (o : OCCommitteeOps) : Prop :=
  ∃ i, machine_id i = m ∧ hash (blake2_128 T) i = confirm_hash o ∧
       machine_info o = i <| rand_str := [] |>.

Record committed (T : Config) (s : State) (m : MachineId) (a : AccountId) (o : OCCommitteeOps) : Prop := {
  com_listed : confirm_hash o ∈ machine_submited_hash s m;
  com_distinct b o' : b ∈ hashed_committee (machine_committee s m) →
    CommitteeOps s !! (b, m) = Some o' → confirm_hash o' = confirm_hash o → b = a;
  com_revealed : a ∈ confirmed_committee (machine_committee s m) → revealed T m o;
}.

Record BookInv (T : Config) (s : State) : Prop := {
  bi_machine m : mc_ok (machine_committee s m);
  bi_list a : list_ok (committee_machine s a);
  bi_hashes m : sorted (machine_submited_hash s m);
  bi_working a m : working (committee_machine s a) m → is_Some (CommitteeOps s !! (a, m));
  bi_committed a m o : a ∈ hashed_committee (machine_committee s m) →
    CommitteeOps s !! (a, m) = Some o → committed T s m a o;
}.

Record slash_ok (now : BlockNumber) (i : OCPendingSlashInfo) : Prop := {
  so_sorted : sorted (inconsistent_committee i) ∧ sorted (unruly_committee i) ∧ sorted (reward_committee i);
  so_disjoint a : ¬ (a ∈ inconsistent_committee i ∧ a ∈ unruly_committee i) ∧
    ¬ (a ∈ inconsistent_committee i ∧ a ∈ reward_committee i) ∧
    ¬ (a ∈ unruly_committee i ∧ a ∈ reward_committee i);
  so_time : slash_exec_time i = add_block (slash_time i) TWO_DAYS;
  so_executed : slash_result i = Executed → slash_exec_time i ≤ now;
}.

Definition review_ok (i : OCPendingSlashInfo) (r : OCPendingSlashReviewInfo) : Prop :=
  expire_time r = slash_exec_time i ∧ apply_time r < expire_time r ∧
  (machine_stash i = Some (applicant r) ∨ applicant r ∈ inconsistent_committee i).

Record SlashInv (now : BlockNumber) (s : State) : Prop := {
  si_next : 0 ≤ NextSlashId s ≤ U64_MAX;
  si_sorted : sorted (UnhandledSlash s);
  si_unhandled id : id ∈ UnhandledSlash s ↔
    ∃ i, PendingSlash s !! id = Some i ∧ slash_result i = Pending;
  si_slash id i : PendingSlash s !! id = Some i → 0 ≤ id < NextSlashId s ∧ slash_ok now i;
  si_review id r : PendingSlashReview s !! id = Some r →
    ∃ i, PendingSlash s !! id = Some i ∧ review_ok i r;
}.

(** How slashes may change up to block [t]: none is lost or changes its terms,
    and a pending one may have been executed when due. *)
Definition advanced (t : BlockNumber) (s s' : State) : Prop :=
  ∀ id i, PendingSlash s !! id = Some i → ∃ i', PendingSlash s' !! id = Some i' ∧
    i' = i <| slash_result := slash_result i' |> ∧
    (slash_result i' = slash_result i ∨
     slash_result i = Pending ∧ slash_result i' = Executed ∧ slash_exec_time i ≤ t).

(** ** Parts of the storage the invariants do not read *)

Definition same_books (s s' : State) : Prop :=
  CommitteeMachine s' = CommitteeMachine s ∧ MachineCommittee s' = MachineCommittee s ∧
  MachineSubmitedHash s' = MachineSubmitedHash s ∧ CommitteeOps s' = CommitteeOps s.
Definition same_slashes (s s' : State) : Prop :=
  NextSlashId s' = NextSlashId s ∧ UnhandledSlash s' = UnhandledSlash s ∧
  PendingSlash s' = PendingSlash s ∧ PendingSlashReview s' = PendingSlashReview s.

Lemma BookInv_same T s s' : same_books s s' → BookInv T s → BookInv T s'.
Proof.
  destruct s, s'. intros (Hl & Hm & Hh & Ho) [I1 I2 I3 I4 I5]; simpl in *; subst.
  split; try done. intros a m o Ha Hao. by destruct (I5 a m o Ha Hao).
Qed.
Lemma SlashInv_same now s s' : same_slashes s s' → SlashInv now s → SlashInv now s'.
Proof. destruct s, s'. intros (Hl & Hm & Hh & Ho) [I1 I2 I3 I4 I5]; simpl in *; subst. by split. Qed.
Lemma advanced_same t s s0 s' : PendingSlash s' = PendingSlash s0 → advanced t s s0 → advanced t s s'.
Proof. unfold advanced. by intros ->. Qed.
Lemma advanced_refl t s : advanced t s s.
Proof. intros id i Hi. exists i. split_and!; [done|by destruct i|by left]. Qed.
Lemma SlashInv_later now now' s : now ≤ now' → SlashInv now s → SlashInv now' s.
Proof.
  intros Hle [I1 I2 I3 I4 I5]. split; try done. intros id i Hi.
  destruct (I4 id i Hi) as [Hid [Hso Hdj Ht He]]. split; [done|]. split; [done..|].
  intros Hx. specialize (He Hx). lia.
Qed.

Lemma genesis_books T : BookInv T genesis.
Proof.
  split.
  - intros m. split; [split_and!; apply sorted_nil|by intros a ?%not_elem_of_nil..|exact (Nat.le_0_l 3)].
  - intros a. split_and!; apply sorted_nil.
  - intros m. apply sorted_nil.
  - intros a m [H|[H|H]]; by apply not_elem_of_nil in H.
  - intros a m o Ha. by apply not_elem_of_nil in Ha.
Qed.
Lemma genesis_slashes now : SlashInv now genesis.
Proof.
  split; simpl; [done|apply sorted_nil| |done|done].
  intros id. split; [by intros ?%not_elem_of_nil|]. by intros (i & Hi & _).
Qed.

(** ** Reading back the maps *)

Lemma mc_insert s m c m' :
  machine_committee (s <| MachineCommittee ::= <[m := c]> |>) m' =
    if decide (m' = m) then c else machine_committee s m'.
Proof.
  unfold machine_committee. simpl. destruct (decide (m' = m)) as [->|].
  - by rewrite lookup_insert_eq.
  - by rewrite lookup_insert_ne.
Qed.
Lemma mc_delete s m m' :
  machine_committee (s <| MachineCommittee ::= delete m |>) m' =
    if decide (m' = m) then OCMachineCommitteeList_default else machine_committee s m'.
Proof.
  unfold machine_committee. simpl. destruct (decide (m' = m)) as [->|].
  - by rewrite lookup_delete_eq.
  - by rewrite lookup_delete_ne.
Qed.
Lemma cm_insert s a l a' :
  committee_machine (s <| CommitteeMachine ::= <[a := l]> |>) a' =
    if decide (a' = a) then l else committee_machine s a'.
Proof.
  unfold committee_machine. simpl. destruct (decide (a' = a)) as [->|].
  - by rewrite lookup_insert_eq.
  - by rewrite lookup_insert_ne.
Qed.
Lemma hashes_insert s m l m' :
  machine_submited_hash (s <| MachineSubmitedHash ::= <[m := l]> |>) m' =
    if decide (m' = m) then l else machine_submited_hash s m'.
Proof.
  unfold machine_submited_hash. simpl. destruct (decide (m' = m)) as [->|].
  - by rewrite lookup_insert_eq.
  - by rewrite lookup_insert_ne.
Qed.
Lemma hashes_delete s m m' :
  machine_submited_hash (s <| MachineSubmitedHash ::= delete m |>) m' =
    if decide (m' = m) then [] else machine_submited_hash s m'.
Proof.
  unfold machine_submited_hash. simpl. destruct (decide (m' = m)) as [->|].
  - by rewrite lookup_delete_eq.
  - by rewrite lookup_delete_ne.
Qed.

(** ** Updates of the books *)
Section books.
Context (T : Config).
Implicit Types (s : State) (m : MachineId) (a b : AccountId).

(** [s'] has at most the committed and revealed members of [s]. *)
Definition mc_shrunk s s' : Prop := ∀ m,
  mc_ok (machine_committee s' m) ∧
  (∀ a, a ∈ hashed_committee (machine_committee s' m) → a ∈ hashed_committee (machine_committee s m)) ∧
  (∀ a, a ∈ confirmed_committee (machine_committee s' m) → a ∈ confirmed_committee (machine_committee s m)).

(** The members [B] give up [m]: their records of it are gone. *)
Record released m (B : list AccountId) s s' : Prop := {
  rel_ops a m' : CommitteeOps s' !! (a, m') =
    if decide (m' = m ∧ a ∈ B) then None else CommitteeOps s !! (a, m');
  rel_list a : list_ok (committee_machine s a) → list_ok (committee_machine s' a) ∧
    ∀ m', working (committee_machine s' a) m' →
      working (committee_machine s a) m' ∧ ¬ (m' = m ∧ a ∈ B);
}.

Lemma books_released m B s s' :
  released m B s s' → mc_shrunk s s' →
  (∀ m', machine_submited_hash s' m' = machine_submited_hash s m' ∨
     m' = m ∧ machine_submited_hash s' m = [] ∧
     ∀ a, a ∈ hashed_committee (machine_committee s' m) → a ∈ B) →
  BookInv T s → BookInv T s'.
Proof.
  intros [Ro Rl] Hmc Hh [I1 I2 I3 I4 I5]. split.
  - intros m'. apply Hmc.
  - intros a. by apply Rl.
  - intros m'. destruct (Hh m') as [->|(-> & -> & _)]; [done|apply sorted_nil].
  - intros a m' Hw. destruct (Rl a (I2 a)) as [_ Hwk]. destruct (Hwk m' Hw) as [Hw' Hn].
    rewrite Ro, decide_False by done. by apply I4.
  - intros a m' o Ha Ho. rewrite Ro in Ho. case_decide as Hd; [done|].
    destruct (Hmc m') as (_ & Hsub & Hsubc).
    destruct (I5 a m' o (Hsub a Ha) Ho) as [C1 C2 C3].
    destruct (Hh m') as [Heq|(-> & _ & Hall)]; [|naive_solver].
    split; [by rewrite Heq| |auto].
    intros b o' Hb Hob. rewrite Ro in Hob. case_decide; [done|]. eauto.
Qed.

(** Nobody gives up anything. *)
Lemma released_none m s s' :
  CommitteeOps s' = CommitteeOps s → CommitteeMachine s' = CommitteeMachine s → released m [] s s'.
Proof.
  intros Ho Hl. split.
  - intros a m'. rewrite decide_False; [by rewrite Ho|]. by intros [_ ?%not_elem_of_nil].
  - intros a. unfold committee_machine. rewrite Hl. intros Hok. split; [done|].
    intros m' Hw. split; [done|]. by intros [_ ?%not_elem_of_nil].
Qed.

Lemma mc_ok_default : mc_ok OCMachineCommitteeList_default.
Proof. split; [split_and!; apply sorted_nil|by intros a ?%not_elem_of_nil..|exact (Nat.le_0_l 3)]. Qed.

Lemma mc_shrunk_delete m s : BookInv T s → mc_shrunk s (s <| MachineCommittee ::= delete m |>).
Proof.
  intros I m'. rewrite mc_delete. case_decide; [|split; [apply (bi_machine T s I)|done]].
  split; [apply mc_ok_default|]. by split; intros a ?%not_elem_of_nil.
Qed.

Lemma books_delete m s : BookInv T s → BookInv T (s <| MachineCommittee ::= delete m |>).
Proof.
  intros I. apply (books_released m [] s); [by apply released_none|by apply mc_shrunk_delete| |done].
  intros m'. by left.
Qed.

(** A machine's record changes in neither of its three lists. *)
Lemma books_status m c s :
  booked_committee c = booked_committee (machine_committee s m) →
  hashed_committee c = hashed_committee (machine_committee s m) →
  confirmed_committee c = confirmed_committee (machine_committee s m) →
  BookInv T s → BookInv T (s <| MachineCommittee ::= <[m := c]> |>).
Proof.
  intros Hb Hh Hc I. apply (books_released m [] s); [by apply released_none| | |done].
  - intros m'. rewrite mc_insert. case_decide; [subst m'|split; [apply (bi_machine T s I)|done]].
    rewrite Hh, Hc. split; [|done]. destruct (bi_machine T s I m) as [H1 H2 H3 H4].
    split; rewrite ?Hb, ?Hh, ?Hc; done.
  - intros m'. by left.
Qed.

Lemma books_after_summary m r s :
  BookInv T s → BookInv T (mutate_machine m (after_summary r) s).
Proof.
  intros I. unfold mutate_machine. apply books_status; [..|done];
    by unfold after_summary; destruct (verify_result r).
Qed.

(** Only the records of machines online change. *)
Lemma books_online m a s :
  BookInv T s → BookInv T (mutate_list a (λ l, l <| online_machine ::= λ x, add_item x m |>) s).
Proof.
  intros I. apply (books_released m [] s); [| |by left|done].
  - split.
    + intros b m'. rewrite decide_False; [done|]. by intros [_ ?%not_elem_of_nil].
    + intros b Hok. unfold mutate_list. rewrite cm_insert. case_decide; [subst b|].
      * destruct Hok as (H1 & H2 & H3 & H4). split.
        -- split_and!; [done..|]. by apply add_item_spec.
        -- intros m' Hw. split; [done|]. by intros [_ ?%not_elem_of_nil].
      * split; [done|]. intros m' Hw. split; [done|]. by intros [_ ?%not_elem_of_nil].
  - intros m'. split; [apply (bi_machine T s I)|done].
Qed.

(** Removing a machine from a member's lists. *)
Lemma list_revert_ok m (l : OCCommitteeMachineList) :
  list_ok l → list_ok (list_revert_book m l) ∧
  ∀ m', working (list_revert_book m l) m' → working l m' ∧ m' ≠ m.
Proof.
  intros (H1 & H2 & H3 & H4).
  destruct (rm_item_spec _ m H1) as [S1 E1], (rm_item_spec _ m H2) as [S2 E2], (rm_item_spec _ m H3) as [S3 E3].
  split; [by split_and!|]. unfold working, list_revert_book. simpl.
  intros m'. rewrite E1, E2, E3. naive_solver.
Qed.

(** What one member's release leaves of the other maps. *)
Definition same_machines s s' : Prop := MachineCommittee s' = MachineCommittee s ∧ same_slashes s s'.

Lemma released_step m a B s s1 s2 :
  released m [a] s s1 → released m B s1 s2 → released m (a :: B) s s2.
Proof.
  intros [O1 L1] [O2 L2]. split.
  - intros b m'. rewrite O2, O1. rewrite (decide_ext (m' = m ∧ b ∈ a :: B)
      (m' = m ∧ b ∈ [a] ∨ m' = m ∧ b ∈ B)) by (rewrite !elem_of_cons, elem_of_nil; naive_solver).
    repeat case_decide; naive_solver.
  - intros b Hok. destruct (L1 b Hok) as [Hok1 W1]. destruct (L2 b Hok1) as [Hok2 W2].
    split; [done|]. intros m' Hw. destruct (W2 m' Hw) as [Hw1 Hn2]. destruct (W1 m' Hw1) as [Hw0 Hn1].
    split; [done|]. rewrite elem_of_cons. rewrite elem_of_cons, elem_of_nil in Hn1. naive_solver.
Qed.

Lemma released_one m a s s' :
  CommitteeOps s' = delete (a, m) (CommitteeOps s) →
  CommitteeMachine s' = <[a := list_revert_book m (committee_machine s a)]> (CommitteeMachine s) →
  released m [a] s s'.
Proof.
  intros Ho Hl. split.
  - intros b m'. rewrite Ho. case_decide as Hd.
    + destruct Hd as [-> ->%list_elem_of_singleton]. apply lookup_delete_eq.
    + rewrite lookup_delete_ne; [done|]. intros [= <- <-]. apply Hd. split; [done|constructor].
  - intros b Hok. unfold committee_machine at 1 2. rewrite Hl. destruct (decide (b = a)) as [->|Hne].
    + rewrite lookup_insert_eq. simpl. destruct (list_revert_ok m _ Hok) as [Hok' Hw]. split; [done|].
      intros m' [Hw' Hne]%Hw. split; [done|naive_solver].
    + rewrite lookup_insert_ne by done. split; [done|]. intros m' Hw. split; [done|].
      by intros [_ ->%list_elem_of_singleton].
Qed.

Lemma revert_released m B s :
  let s' := foldl (λ s a, mutate_list a (list_revert_book m) (s <| CommitteeOps ::= delete (a, m) |>)) s B in
  released m B s s' ∧ same_machines s s' ∧ MachineSubmitedHash s' = MachineSubmitedHash s.
Proof.
  revert s. induction B as [|a B IH]; intros s; cbn [foldl].
  - split; [by apply released_none|done].
  - set (s1 := mutate_list a _ _). destruct (IH s1) as (Hr & [Hm Hs] & Hh). split_and!.
    + apply (released_step m a B s s1); [|done]. by apply released_one.
    + split; [by rewrite Hm|]. destruct Hs as (? & ? & ? & ?). by split_and!.
    + by rewrite Hh.
Qed.

Lemma clean_up_released m B s :
  released m B s (clean_up m B s) ∧ same_machines s (clean_up m B s) ∧
  (∀ m', machine_submited_hash (clean_up m B s) m' =
     if decide (m' = m ∧ B ≠ []) then [] else machine_submited_hash s m').
Proof.
  unfold clean_up. revert s. induction B as [|a B IH]; intros s; cbn [foldl].
  - split_and!; [by apply released_none|done|]. intros m'. rewrite decide_False; [done|naive_solver].
  - set (s1 := mutate_list a _ _). destruct (IH s1) as (Hr & [Hm Hs] & Hh). split_and!.
    + apply (released_step m a B s s1); [|done]. by apply released_one.
    + split; [by rewrite Hm|]. destruct Hs as (? & ? & ? & ?). by split_and!.
    + intros m'. rewrite Hh. change (machine_submited_hash s1 m') with
        (machine_submited_hash (s <| MachineSubmitedHash ::= delete m |>) m').
      rewrite hashes_delete. repeat case_decide; naive_solver.
Qed.

Lemma books_revert m s : BookInv T s → BookInv T (revert_book m s) ∧ same_slashes s (revert_book m s).
Proof.
  intros I. unfold revert_book. set (B := booked_committee (machine_committee s m)).
  destruct (revert_released m B s) as ([Ro Rl] & [Hm Hs] & Hh). cbn zeta in *.
  set (s1 := foldl _ s B) in *. split; [|exact Hs].
  apply (books_released m B s).
  - by split.
  - intros m'. rewrite mc_delete.
    replace (machine_committee s1 m') with (machine_committee s m') by (unfold machine_committee; by rewrite Hm).
    case_decide; [|split; [apply (bi_machine T s I)|done]].
    split; [apply mc_ok_default|]. by split; intros a ?%not_elem_of_nil.
  - intros m'. left. unfold machine_submited_hash. simpl. by rewrite Hh.
  - done.
Qed.

Lemma books_clean_up m B s :
  (∀ a, a ∈ hashed_committee (machine_committee s m) → a ∈ B) →
  BookInv T s → BookInv T (clean_up m B s) ∧ same_slashes s (clean_up m B s).
Proof.
  intros HB I. destruct (clean_up_released m B s) as (Hr & [Hm Hs] & Hh). split; [|done].
  assert (∀ m', machine_committee (clean_up m B s) m' = machine_committee s m') as Hmc
    by (intros m'; unfold machine_committee; by rewrite Hm).
  apply (books_released m B s); [done| | |done].
  - intros m'. rewrite Hmc. split; [apply (bi_machine T s I)|done].
  - intros m'. rewrite Hh. case_decide as Hd; [|by left]. right. destruct Hd as [-> Hne].
    split_and!; [done|by rewrite Hh, decide_True|]. intros a. rewrite Hmc. auto.
Qed.

(** Booking: nobody has committed to [m] yet, and at most [j] are booked. *)
Definition booking (j : nat) m s : Prop :=
  hashed_committee (machine_committee s m) = [] ∧ confirmed_committee (machine_committee s m) = [] ∧
  (length (booked_committee (machine_committee s m)) ≤ j)%nat.

Lemma booking_delete m s : booking 0 m (s <| MachineCommittee ::= delete m |>).
Proof. unfold booking. rewrite mc_delete, decide_True by done. by split_and!. Qed.

(** One member's records of one machine change. *)
Record updated a m (c' : OCMachineCommitteeList) (l' : OCCommitteeMachineList) (o' : OCCommitteeOps)
    (hs' : list Hash16) s s' : Prop := {
  up_mc m' : machine_committee s' m' = if decide (m' = m) then c' else machine_committee s m';
  up_cm b : committee_machine s' b = if decide (b = a) then l' else committee_machine s b;
  up_hs m' : machine_submited_hash s' m' = if decide (m' = m) then hs' else machine_submited_hash s m';
  up_ops : CommitteeOps s' = <[(a, m) := o']> (CommitteeOps s);
}.

Lemma books_update a m c' l' o' hs' s s' :
  updated a m c' l' o' hs' s s' → BookInv T s → mc_ok c' → list_ok l' → sorted hs' →
  (∀ m', working l' m' → m' = m ∨ working (committee_machine s a) m') →
  (∀ h, h ∈ machine_submited_hash s m → h ∈ hs') →
  (∀ b, b ≠ a → (b ∈ hashed_committee c' → b ∈ hashed_committee (machine_committee s m)) ∧
     (b ∈ confirmed_committee c' → b ∈ confirmed_committee (machine_committee s m))) →
  (a ∈ hashed_committee c' → confirm_hash o' ∈ hs' ∧
     (∀ b o, b ≠ a → b ∈ hashed_committee c' → CommitteeOps s !! (b, m) = Some o →
        confirm_hash o ≠ confirm_hash o') ∧
     (a ∈ confirmed_committee c' → revealed T m o')) →
  BookInv T s'.
Proof.
  intros [Hmc Hcm Hhs Ho] I Hc' Hl' Shs Hwk Hinc Hoth Hown. split.
  - intros m'. rewrite Hmc. case_decide; [done|apply (bi_machine T s I)].
  - intros b. rewrite Hcm. case_decide; [done|apply (bi_list T s I)].
  - intros m'. rewrite Hhs. case_decide; [done|apply (bi_hashes T s I)].
  - intros b m' Hw. rewrite Ho. destruct (decide ((a, m) = (b, m'))) as [Heq|Hne].
    { rewrite <-Heq, lookup_insert_eq. eauto. }
    rewrite lookup_insert_ne by done. apply (bi_working T s I). rewrite Hcm in Hw.
    case_decide; [subst b|done]. destruct (Hwk m' Hw); [congruence|done].
  - intros b m' o Hb Hbo. rewrite Hmc in Hb. rewrite Ho in Hbo. destruct (decide (m' = m)) as [->|Hd].
    2: { rewrite lookup_insert_ne in Hbo by congruence.
         destruct (bi_committed T s I b m' o Hb Hbo) as [C1 C2 C3].
         split; [by rewrite Hhs, decide_False| |]; rewrite Hmc, decide_False by done; [|done].
         intros b' o2 Hb'. rewrite Ho, lookup_insert_ne by congruence. eauto. }
    destruct (decide (b = a)) as [->|Hne].
    + rewrite lookup_insert_eq in Hbo. injection Hbo as <-. destruct (Hown Hb) as (O1 & O2 & O3).
      split; rewrite ?Hhs, ?Hmc, ?decide_True by done; [done| |done].
      intros b' o2 Hb' Hob' Heq. destruct (decide (b' = a)) as [|Hnb]; [done|].
      rewrite Ho, lookup_insert_ne in Hob' by congruence. by destruct (O2 b' o2 Hnb Hb' Hob').
    + rewrite lookup_insert_ne in Hbo by congruence. destruct (Hoth b Hne) as [Hh Hcf].
      destruct (bi_committed T s I b m o (Hh Hb) Hbo) as [C1 C2 C3].
      split; rewrite ?Hhs, ?Hmc, ?decide_True by done; [auto| |auto].
      intros b' o2 Hb' Hob' Heq. destruct (decide (b' = a)) as [->|Hnb].
      * rewrite Ho, lookup_insert_eq in Hob'. injection Hob' as <-.
        destruct (Hown Hb') as (_ & O2 & _). by destruct (O2 b o Hne Hb Hbo).
      * rewrite Ho, lookup_insert_ne in Hob' by congruence. eapply C2; [by apply Hoth|done..].
Qed.

Lemma books_book j m cs now w v s :
  (j < 3)%nat → BookInv T s → booking j m s →
  BookInv T (book_records m cs now w v s) ∧ booking (S j) m (book_records m cs now w v s) ∧
  same_slashes s (book_records m cs now w v s).
Proof.
  intros Hj I (Hh & Hc & Hl). set (s' := book_records m cs now w v s). set (a := who w).
  set (c' := (machine_committee s m) <| booked_committee ::= λ x, add_item x a |>
    <| book_time := now |> <| confirm_start_time := cs |>).
  set (l' := (committee_machine s a) <| booked_machine ::= λ x, add_item x m |>).
  assert (∃ o', updated a m c' l' o' (machine_submited_hash s m) s s') as [o' Hup].
  { eexists. split; [exact (mc_insert s m c')|exact (cm_insert s a l')| |reflexivity].
    intros m'. by destruct (decide (m' = m)) as [->|]. }
  destruct (bi_machine T s I m) as [(Sb & Sh & Sc) Hhb Hch _].
  destruct (add_item_spec _ a Sb) as [Sb' Eb']. destruct (bi_list T s I a) as (L1 & L2 & L3 & L4).
  destruct (add_item_spec _ m L1) as [L1' E1].
  assert (length (booked_committee c') ≤ S j)%nat as Hlen.
  { simpl. rewrite length_add_item by done. case_decide; lia. }
  split; [|split; [|done]].
  2: { unfold booking. rewrite (up_mc _ _ _ _ _ _ _ _ Hup), decide_True by done. split_and!; [done..|lia]. }
  apply (books_update a m c' l' o' _ s s' Hup I); [| |apply (bi_hashes T s I)| |done| |].
  - split; simpl; [by split_and!| | |simpl in Hlen; lia].
    + rewrite Hh. by intros b ?%not_elem_of_nil.
    + rewrite Hc. by intros b ?%not_elem_of_nil.
  - by split_and!.
  - intros m' Hw. unfold working, l' in Hw. simpl in Hw. rewrite E1 in Hw. unfold working. naive_solver.
  - done.
  - simpl. rewrite Hh. by intros ?%not_elem_of_nil.
Qed.

(** Committing: the hash is new for the machine. *)
Lemma books_submit_hash now a m h c' s :
  BookInv T s → h ∉ machine_submited_hash s m → mc_submit_hash a (machine_committee s m) = Ok c' →
  BookInv T (s <| MachineSubmitedHash ::= <[m := add_item (machine_submited_hash s m) h]> |>
    <| MachineCommittee ::= <[m := c']> |>
    <| CommitteeMachine ::= <[a := list_submit_hash m (committee_machine s a)]> |>
    <| CommitteeOps ::= <[(a, m) := ops_submit_hash now h (committee_ops s a m)]> |>).
Proof.
  intros I Hnew Hsub. destruct (bi_machine T s I m) as [(Sb & Sh & Sc) Hhb Hch Hlen].
  destruct (add_item_spec _ h (bi_hashes T s I m)) as [Shs Ehs].
  destruct (add_item_spec _ a Sh) as [Sh' Eh']. destruct (bi_list T s I a) as (L1 & L2 & L3 & L4).
  destruct (rm_item_spec _ m L1) as [L1' E1], (add_item_spec _ m L2) as [L2' E2].
  unfold mc_submit_hash in Hsub. case_match eqn:Hin; [done|]. case_match eqn:Hout; [done|]. guard_inv.
  apply (is_ok_search _ _ Sb) in Hin.
  assert (a ∉ hashed_committee (machine_committee s m)) as Hna
    by (intros Hx%(is_ok_search _ _ Sh); congruence).
  assert (booked_committee c' = booked_committee (machine_committee s m) ∧
    hashed_committee c' = add_item (hashed_committee (machine_committee s m)) a ∧
    confirmed_committee c' = confirmed_committee (machine_committee s m)) as (Hb & Hh & Hc)
    by (simplify_eq; by case_match).
  eapply (books_update a m c'); [split; [exact (mc_insert s m c')|exact (cm_insert s a _)
    |exact (hashes_insert s m _)|reflexivity]|exact I|..]; [| |done| | | |].
  - split; rewrite ?Hb, ?Hh, ?Hc; [by split_and!| | |done].
    + intros b [->|Hx]%Eh'; auto.
    + intros b Hx. apply Eh'. auto.
  - by split_and!.
  - intros m'. unfold working, list_submit_hash. simpl. rewrite E1, E2. naive_solver.
  - intros h' Hh'. apply Ehs. by right.
  - intros b Hne. rewrite Hh, Hc, Eh'. naive_solver.
  - intros _. simpl. rewrite Hc. split_and!; [apply Ehs; by left| |by intros Hx%Hch].
    intros b o Hne Hbh Hbo Heq. rewrite Hh in Hbh. apply Eh' in Hbh as [|Hbh]; [done|].
    destruct (bi_committed T s I b m o Hbh Hbo) as [C1 _ _]. by rewrite Heq in C1.
Qed.

(** Revealing: the report has the hash committed before. *)
Lemma books_submit_raw now a i c' l' s :
  BookInv T s → hash (blake2_128 T) i = confirm_hash (committee_ops s a (machine_id i)) →
  list_submit_raw (machine_id i) (committee_machine s a) = Ok l' →
  mc_submit_raw now a (machine_committee s (machine_id i)) = Ok c' →
  BookInv T (s <| CommitteeMachine ::= <[a := l']> |>
    <| MachineCommittee ::= <[machine_id i := c']> |>
    <| CommitteeOps ::= <[(a, machine_id i) := ops_submit_raw now i (committee_ops s a (machine_id i))]> |>).
Proof.
  intros I Hhash Hlist Hsub. set (m := machine_id i) in *.
  destruct (bi_machine T s I m) as [(Sb & Sh & Sc) Hhb Hch Hlen]. destruct (add_item_spec _ a Sc) as [Sc' Ec'].
  destruct (bi_list T s I a) as (L1 & L2 & L3 & L4).
  destruct (rm_item_spec _ m L2) as [L2' E2], (add_item_spec _ m L3) as [L3' E3].
  unfold list_submit_raw in Hlist. case_match eqn:Hin; [done|]. case_match; [done|]. guard_inv.
  apply (is_ok_search _ _ L2) in Hin. injection Hlist as <-.
  unfold mc_submit_raw in Hsub. case_match; [done|]. case_match eqn:Hah; [done|]. guard_inv.
  apply (is_ok_search _ _ Sh) in Hah.
  assert (booked_committee c' = booked_committee (machine_committee s m) ∧
    hashed_committee c' = hashed_committee (machine_committee s m) ∧
    confirmed_committee c' = add_item (confirmed_committee (machine_committee s m)) a) as (Hb & Hh & Hc)
    by (simplify_eq; by case_match).
  destruct (bi_working T s I a m) as [o Ho]; [by right; left|].
  assert (committee_ops s a m = o) as Hops by (unfold committee_ops; by rewrite Ho).
  destruct (bi_committed T s I a m o Hah Ho) as [C1 C2 _]. rewrite Hops in *.
  eapply (books_update a m c' _ _ (machine_submited_hash s m)); [split; [exact (mc_insert s m c')
    |exact (cm_insert s a _)| |reflexivity]|exact I|..]; [| | |apply (bi_hashes T s I)| |done| |].
  - intros m'. by destruct (decide (m' = m)) as [->|].
  - split; rewrite ?Hb, ?Hh, ?Hc; [by split_and!|done| |done].
    intros b [->|Hx]%Ec'; auto.
  - by split_and!.
  - intros m'. unfold working. simpl. rewrite E2, E3. naive_solver.
  - intros b Hne. rewrite Hh, Hc, Ec'. naive_solver.
  - intros _. simpl. split_and!; [done| |].
    + intros b o2 Hne Hbh Hbo Heq. rewrite Hh in Hbh. by destruct (Hne (C2 b o2 Hbh Hbo Heq)).
    + intros _. by exists i.
Qed.
End books.

(** ** Updates of the slashes *)
Section slashes.
Implicit Types (s : State) (id : Z) (i : OCPendingSlashInfo).

(** The result of one slash changes, and the schedule with it. *)
Lemma slashes_decide now s id i r u s' :
  SlashInv now s → PendingSlash s !! id = Some i → r ≠ Pending →
  (r = Executed → slash_exec_time i ≤ now) →
  sorted u → (∀ id', id' ∈ u ↔ id' ∈ UnhandledSlash s ∧ id' ≠ id) →
  NextSlashId s' = NextSlashId s → UnhandledSlash s' = u →
  PendingSlash s' = <[id := i <| slash_result := r |>]> (PendingSlash s) →
  (∀ id', PendingSlashReview s' !! id' = PendingSlashReview s !! id' ∨
          PendingSlashReview s' !! id' = None) →
  SlashInv now s'.
Proof.
  intros [I1 I2 I3 I4 I5] Hi Hr Hex Su Eu Hn Hu Hp Hrev. split.
  - by rewrite Hn.
  - by rewrite Hu.
  - intros id'. rewrite Hu, Eu, I3, Hp. destruct (decide (id' = id)) as [->|Hne].
    + rewrite lookup_insert_eq. split; [by intros [_ []]|]. intros (i' & [= <-] & Hres). done.
    + rewrite lookup_insert_ne by done. naive_solver.
  - intros id' i'. rewrite Hn, Hp. destruct (decide (id' = id)) as [->|Hne].
    + rewrite lookup_insert_eq. intros [= <-]. destruct (I4 id i Hi) as [Hid [S1 S2 S3 S4]].
      split; [done|]. by split.
    + rewrite lookup_insert_ne by done. apply I4.
  - intros id' rv Hrv. destruct (Hrev id') as [Heq|Hnone]; [|congruence]. rewrite Heq in Hrv.
    destruct (I5 id' rv Hrv) as (i' & Hi' & Hok). rewrite Hp. destruct (decide (id' = id)) as [->|Hne].
    + rewrite lookup_insert_eq. simplify_eq. eexists. by split.
    + rewrite lookup_insert_ne by done. eauto.
Qed.

Lemma advanced_execute t s0 s s' id i :
  advanced t s0 s → PendingSlash s !! id = Some i → slash_result i = Pending → slash_exec_time i ≤ t →
  PendingSlash s' = <[id := i <| slash_result := Executed |>]> (PendingSlash s) → advanced t s0 s'.
Proof.
  intros Ha Hi Hres Ht Hp id' j Hj. destruct (Ha id' j Hj) as (j' & Hj' & Hterms & Hr).
  rewrite Hp. destruct (decide (id' = id)) as [->|Hne].
  - rewrite lookup_insert_eq. simplify_eq. eexists. split_and!; [done|by rewrite Hterms|].
    right. rewrite Hterms in Ht. simpl in Ht. destruct Hr as [Hr|(_ & Hr & _)]; [|congruence].
    split_and!; [congruence|done|done].
  - rewrite lookup_insert_ne by done. eauto.
Qed.

(** A new slash over the partition of a summary. *)
Lemma slashes_add now m stash v c r stake s :
  SlashInv now s → NextSlashId s < U64_MAX → partitioned c r →
  let s' := add_summary_slash m stash v r stake now s in
  SlashInv now s' ∧ same_books s s' ∧ NextSlashId s' = NextSlashId s + 1 ∧
  ∀ t s0, advanced t s0 s → advanced t s0 s'.
Proof.
  intros [I1 I2 I3 I4 I5] Hn [(P1 & P2 & P3) _ Pd]. unfold add_summary_slash, get_new_slash_id.
  set (id := NextSlashId s) in *. destruct (Z.eqb_spec id U64_MAX) as [|_]; [lia|]. cbn zeta.
  set (i := Build_OCPendingSlashInfo _ _ _ _ _ _ _ _ _ _ _). set (s' := field_update UnhandledSlash _ _).
  assert (PendingSlash s !! id = None) as Hfresh.
  { destruct (PendingSlash s !! id) as [j|] eqn:Hj; [|done]. destruct (I4 id j Hj) as [? _]. lia. }
  assert (PendingSlash s' = <[id := i]> (PendingSlash s)) as Hp by done.
  destruct (add_item_spec _ id I2) as [Su Eu].
  split_and!; [|done..| |].
  - split; simpl.
    + lia.
    + done.
    + intros id'. rewrite Eu, I3. destruct (decide (id' = id)) as [->|Hne].
      * rewrite lookup_insert_eq. split; [eauto|by left].
      * rewrite lookup_insert_ne by done. naive_solver.
    + intros id' j. destruct (decide (id' = id)) as [->|Hne].
      * rewrite lookup_insert_eq. intros [= <-]. split; [lia|]. split; simpl; try done.
        intros a. specialize (Pd a). naive_solver.
      * rewrite lookup_insert_ne by done. intros Hj. destruct (I4 id' j Hj). split; [lia|done].
    + intros id' rv Hrv. destruct (I5 id' rv Hrv) as (j & Hj & Hok). exists j. split; [|done].
      rewrite lookup_insert_ne; [done|]. intros <-. congruence.
  - done.
  - intros t s0 Ha id' j Hj. destruct (Ha id' j Hj) as (j' & Hj' & Hr). exists j'. split; [|done].
    rewrite Hp, lookup_insert_ne; [done|]. intros <-. congruence.
Qed.

(** Reviews are removed, or entered for a slash not yet due. *)
Lemma slashes_drop_review now id s :
  SlashInv now s → SlashInv now (s <| PendingSlashReview ::= delete id |>).
Proof.
  intros [I1 I2 I3 I4 I5]. split; simpl; try done. intros id' r [_ Hr]%lookup_delete_Some. eauto.
Qed.
Lemma slashes_review now id i r s :
  SlashInv now s → PendingSlash s !! id = Some i → review_ok i r →
  SlashInv now (s <| PendingSlashReview ::= <[id := r]> |>).
Proof.
  intros [I1 I2 I3 I4 I5] Hi Hr. split; simpl; try done. intros id' r'.
  destruct (decide (id' = id)) as [->|Hne].
  - rewrite lookup_insert_eq. intros [= <-]. eauto.
  - rewrite lookup_insert_ne by done. eauto.
Qed.
End slashes.
End OnlineInvariant.
