(* ===== verification/OnlineSteps.v ===== *)
(** * pallet-online-committee: hooks, calls and reachable states

    Every hook and call keeps the invariants of OnlineInvariant.v and moves the
    slashes forward, for any behaviour of the rest of the runtime; the draw of
    the committee; what the appeal of a slash does. *)
From stdpp Require Import base gmap fin_maps list numbers relations.
From Stdlib Require Import ZArith Lia Strings.Byte.
From S2P Require Import Prelude Currency Interfaces ItemList VerifyOnline RentalInterfaces OnlineCommittee OnlineInvariant.

Module OnlineSteps.
Import ItemList VerifyOnline OnlineCommittee OnlineInvariant.

Section steps.
Context {L RT : Type} `{!ReservableCurrency L} `{!ManageCommittee L RT, !OCOps L RT, !GNOps L RT}.
Context `{!RandomDraw RT, !RandomDrawLaws RT} (T : Config).
Abbreviation W := ((State * RT) * L)%type.
Implicit Types (s : State) (w : W) (m : MachineId) (P : State → Prop).

(** A property of the pallet's own storage. *)
Definition own P w : Prop := P w.1.1.

Lemma safe_call {A} P (f : M (RT * L) unit A) : safe (own P) (own P) (call f).
Proof.
  intros w Hw. unfold call, map_err, with_callee.
  destruct (f (w.1.2, w.2)) as [[a|e] w']; by split.
Qed.
Lemma safe_own_modify P Q (f : State → State) :
  (∀ s, P s → Q (f s)) → safe (own P) (own Q) (own_modify f).
Proof. intros Hf w Hw. split; [by apply Hf|done]. Qed.
Lemma safe_own_gets {A B} P Q (f : State → A) (k : A → M W Fault B) :
  (∀ s, P s → safe (own (λ s', P s' ∧ f s' = f s)) (own Q) (k (f s))) →
  safe (own P) (own Q) (own_gets f ≫= k).
Proof. intros Hk w Hw. apply (Hk w.1.1 Hw w). by split. Qed.
Lemma safe_rt_gets {A B} P Q (f : RT → A) (k : A → M W Fault B) :
  (∀ a, safe (own P) (own Q) (k a)) → safe (own P) (own Q) (rt_gets f ≫= k).
Proof. intros Hk w Hw. by apply (Hk (f w.1.2) w). Qed.

Lemma safe_stake P (l : list AccountId) v b : safe (own P) (own P) (change_committee_stake l v b).
Proof.
  apply safe_for_each. intros a _. apply safe_seq; [|intros; apply safe_call].
  destruct b; [apply safe_call|apply safe_mret].
Qed.

(** ** Drawing the committee *)

Lemma draw_members_run n i committee w :
  (n ≤ length committee)%nat →
  ∃ seqs h', draw_members n i committee w = (Ok seqs, ((w.1.1, h'), w.2)) ∧
    length seqs = n ∧ (NoDup committee → NoDup (who <$> seqs)) ∧
    (∀ sq, sq ∈ seqs → who sq ∈ committee) ∧
    ∀ k sq, seqs !! k = Some sq → index sq = slots (i + k).
Proof.
  revert i committee w. induction n as [|n IH]; intros i committee w Hn.
  - exists [], w.1.2. split_and!; try done.
    + by destruct w as [[]].
    + intros _. constructor.
    + by intros sq ?%not_elem_of_nil.
  - cbn [draw_members].
    destruct (rnd_u32_range (Z.of_nat (length committee)) w.1.2) as (x & Hx & Hr); [lia|].
    set (h1 := (rnd_u32 (Z.of_nat (length committee)) w.1.2).2).
    assert (draw (Z.of_nat (length committee)) w = (Ok x, ((w.1.1, h1), w.2))) as Hdraw.
    { unfold draw, h1. destruct (rnd_u32 _ _) as [y h]. simpl in Hx. by rewrite Hx. }
    rewrite (bind_run _ _ _ _ _ Hdraw).
    destruct (lookup_lt_is_Some_2 committee (Z.to_nat x)) as [a Ha]; [lia|]. rewrite Ha, bind_ok_or.
    pose proof (delete_Permutation committee _ a Ha) as Hperm.
    destruct (IH (S i) (delete (Z.to_nat x) committee) ((w.1.1, h1), w.2)) as (seqs & h' & Hrun & Hl & Hnd & Hin & Hix).
    { apply Permutation_length in Hperm. simpl in Hperm. lia. }
    rewrite (bind_run _ _ _ _ _ Hrun). exists ({| who := a; index := slots i |} :: seqs), h'. split_and!; [done| | | |].
    + simpl. by rewrite Hl.
    + rewrite Hperm. intros [Hni Hnd']%list.NoDup_cons. rewrite fmap_cons. apply list.NoDup_cons. split; [|auto].
      intros (sq & Heq & Hsq)%list_elem_of_fmap. simpl in Heq. apply Hni. rewrite Heq. by apply Hin.
    + intros sq [->|Hsq]%elem_of_cons; rewrite Hperm, elem_of_cons; [by left|right; by apply Hin].
    + intros [|k] sq Hk; simpl in Hk; [injection Hk as <-; by rewrite Nat.add_0_r|].
      rewrite (Hix k sq Hk). f_equal. lia.
Qed.

(** If at least three members are available, three different ones are
    drawn, and each of the nine time slots is given to exactly one of them,
    three slots each; nothing but the random nonce is touched, and the draw
    never panics. With fewer than three, nobody is drawn. *)
Theorem oc_work_index_covers w (committee : list AccountId) :
  mc_available_committee w.1.2 = Some committee → NoDup committee →
  if (length committee <? 3)%nat then get_work_index w = (Ok None, w)
  else ∃ seqs h', get_work_index w = (Ok (Some seqs), ((w.1.1, h'), w.2)) ∧
    length seqs = 3%nat ∧ NoDup (who <$> seqs) ∧ (∀ sq, sq ∈ seqs → who sq ∈ committee) ∧
    (∀ k sq, seqs !! k = Some sq → index sq = [k; k + 3; k + 6]%nat) ∧
    (∀ slot, (slot < DISTRIBUTION)%nat → 
       ∃ k, ∀ k', (∃ sq, seqs !! k' = Some sq ∧ slot ∈ index sq) ↔ k' = k).
Proof.
  intros Hav Hnd. unfold get_work_index, rt_gets. rewrite bind_gets, Hav.
  destruct (Nat.ltb_spec (length committee) 3) as [Hlt|Hge]; [done|].
  destruct (draw_members_run 3 0 committee w Hge) as (seqs & h' & Hrun & Hl & Hn & Hin & Hix).
  assert (∀ k sq, seqs !! k = Some sq → (k < 3)%nat ∧ index sq = [k; k + 3; k + 6]%nat) as Hix'.
  { intros k sq Hk. pose proof (lookup_lt_Some _ _ _ Hk) as Hk3. rewrite Hl in Hk3. split; [done|].
    rewrite (Hix k sq Hk). destruct k as [|[|[|k]]]; [done..|lia]. }
  exists seqs, h'. rewrite (bind_run _ _ _ _ _ Hrun). split_and!; [done|done|by apply Hn|done| |].
  - intros k sq Hk. by apply Hix'.
  - intros slot Hslot. unfold DISTRIBUTION in Hslot. exists (slot mod 3)%nat. intros k. split.
    + intros (sq & Hk & Hs). destruct (Hix' k sq Hk) as [Hk3 Hidx]. rewrite Hidx in Hs.
      rewrite !elem_of_cons, elem_of_nil in Hs.
      destruct k as [|[|[|k]]]; [..|lia]; destruct Hs as [->|[->|[->|[]]]]; done.
    + intros ->. destruct (lookup_lt_is_Some_2 seqs (slot mod 3)) as [sq Hk].
      { rewrite Hl. by apply Nat.mod_upper_bound. }
      exists sq. split; [done|]. destruct (Hix' _ sq Hk) as [_ ->].
      do 9 (destruct slot as [|slot]; [by repeat (first [apply list_elem_of_here|apply list_elem_of_further])|]).
      lia.
Qed.


(** ** The hooks *)

(** The invariants at block [t], slashes moved on since [s0], and at least [n]
    slash ids left. *)
Definition core (t : BlockNumber) s0 (n : nat) s : Prop :=
  BookInv T s ∧ SlashInv t s ∧ advanced t s0 s ∧ NextSlashId s + Z.of_nat n ≤ U64_MAX.

Lemma core_books t s0 n s s' :
  same_slashes s s' → BookInv T s' → core t s0 n s → core t s0 n s'.
Proof.
  intros Hs Hb (_ & HS & Ha & Hn). split_and!; [done|by eapply SlashInv_same| |].
  - eapply advanced_same; [|exact Ha]. apply Hs.
  - destruct Hs as (-> & _). done.
Qed.
Lemma core_weaken t s0 n n' s : (n' ≤ n)%nat → core t s0 n s → core t s0 n' s.
Proof. intros Hle (? & ? & ? & ?). split_and!; [done..|lia]. Qed.

(** The reports of a sound record can be summarised. *)
Lemma summary_exists c infos :
  mc_ok c → length infos = length (confirmed_committee c) →
  ∃ r, summary_confirmation c infos = Some r ∧ partitioned c r ∧
    (verify_result r = Confirmed → is_Some (info r)).
Proof.
  intros [(Sb & Sh & Sc) Hh Hc Hl] Hlen.
  assert (∀ a, a ∈ confirmed_committee c → a ∈ booked_committee c) as Hcb by auto.
  exists (majority_summary c infos). split_and!.
  - apply summary_majority; [done..|]. rewrite Hlen. etrans; [|exact Hl].
    apply submseteq_length, NoDup_submseteq; [by apply sorted_NoDup|done].
  - by apply majority_partitioned.
  - unfold majority_summary. destruct (filter _ _) as [|v ?]; simpl; [done|]. by destruct (is_support v).
Qed.

(** [booked c] covers everyone who has committed to [m]. *)
Definition covered m (c : OCMachineCommitteeList) s : Prop :=
  ∀ a, a ∈ hashed_committee (machine_committee s m) → a ∈ booked_committee c.

Lemma safe_outcome t s0 n m c r now stake :
  partitioned c r → (verify_result r = Confirmed → is_Some (info r)) →
  let P s := core t s0 n s ∧ covered m c s in
  safe (own P) (own P)
    (match verify_result r with
     | Confirmed =>
         i ← ok_or (info r) Panic;
         call (oc_confirm_machine now (valid_vote r) i);;
         for_each (valid_vote r) (λ a,
           own_modify (mutate_list a (λ l, l <| online_machine ::= λ x, add_item x m |>)))
     | Refused => mret tt
     | NoConsensus =>
         own_modify (revert_book m);;
         call (oc_revert_booked_machine m);;
         for_each (invalid_vote r) (λ a, attempt tt (change_committee_used_stake a stake false))
     end).
Proof.
  intros Hp Hinfo P. destruct (verify_result r) eqn:Hr.
  - apply safe_ok_or_bind; [done|intros Hn; destruct Hinfo; congruence|]. intros i _.
    apply safe_seq; [apply safe_call|intros _]. apply safe_for_each. intros a _.
    apply safe_own_modify. intros s [Hc Hcov]. split; [|done].
    eapply core_books; [|apply books_online; apply Hc|exact Hc]. done.
  - apply safe_mret.
  - apply safe_seq.
    + apply safe_own_modify. intros s [Hc Hcov]. pose proof Hc as (HB & _).
      destruct (books_revert T m s HB) as [HB' Hs]. split; [by eapply core_books|].
      intros a. unfold revert_book. rewrite mc_delete, decide_True by done. by intros ?%not_elem_of_nil.
    + intros _. apply safe_seq; [apply safe_call|intros _]. apply safe_for_each. intros a _.
      apply safe_attempt, safe_call.
Qed.

Lemma safe_summary_raw t s0 n m stake :
  safe (own (core t s0 (S n))) (own (core t s0 n)) (summary_raw m t stake).
Proof.
  unfold summary_raw. apply safe_own_gets. intros s (HB & _). set (c := machine_committee s m).
  pose proof (bi_machine T s HB m) as Hok. fold c in Hok.
  destruct (can_submit_raw t c).
  { apply safe_own_modify. intros s' [Hc Hmc]. apply (core_weaken t s0 (S n)); [lia|].
    eapply core_books; [|apply books_status; [by rewrite Hmc..|apply Hc]|exact Hc]. done. }
  destruct (negb (can_summary t c)).
  { eapply safe_weaken; [done| |apply safe_mret]. intros w [Hc _]. by apply (core_weaken t s0 (S n)); [lia|]. }
  apply safe_own_gets. intros s1 [_ Hmc1].
  destruct (summary_exists c ((λ a, machine_info (committee_ops s1 a m)) <$> confirmed_committee c))
    as (r & Hr & Hpart & Hinfo); [done|by rewrite length_fmap|]. rewrite Hr.
  apply safe_ok_or_bind; [intros w [[Hc _] _]; by apply (core_weaken t s0 (S n)); [lia|]|done|].
  intros r' [= <-].
  set (P k s := core t s0 k s ∧ covered m c s).
  apply (safe_weaken _ (own (P (S n))) _ (own (core t s0 n))); [|done|].
  { intros w [[Hc Hmc] _]. split; [done|]. intros a. rewrite Hmc. apply Hok. }
  assert (∀ k (x : option (AccountId * Balance)), safe (own (P k)) (own (P k)) (mret x : M W Fault _)) as Hret
    by (intros; apply safe_mret).
  apply (safe_bind _ (own (P (S n)))); [intros w [Hc _]; by apply (core_weaken t s0 (S n)); [lia|]| |].
  { destruct (verify_result r); [apply Hret| |apply Hret]. intros w Hw. unfold refuse_machine.
    destruct (oc_refuse_machine _ _ _) as [x [h l]]. by split. }
  intros stash_slash. apply (safe_bind _ (own (P (S n)))); [intros w [Hc _]; by apply (core_weaken t s0 (S n)); [lia|]| |].
  { by apply safe_outcome. }
  intros _. apply (safe_bind _ (own (P n))); [by intros w [Hc _]| |].
  { destruct (bool_decide (is_Some stash_slash) || should_slash_committee r).
    - destruct (match stash_slash with Some (a, v) => (Some a, v) | None => (None, 0) end) as [stash amount].
      apply safe_own_modify. intros s2 [(HB2 & HS2 & Ha2 & Hn2) Hcov].
      destruct (slashes_add t m stash amount c r stake s2 HS2) as (HS3 & Hbk & Hn3 & Ha3); [lia|done|].
      split; [|done]. split_and!; [by eapply BookInv_same|done|by apply Ha3|rewrite Hn3; lia].
    - eapply safe_weaken; [done| |apply safe_for_each; intros a _; apply safe_attempt, safe_call].
      intros w [Hc Hcov]. split; [by apply (core_weaken t s0 (S n)); [lia|]|done]. }
  intros _. apply (safe_bind _ (own (P n))); [by intros w [Hc _]| |].
  { apply safe_own_modify. intros s2 [Hc Hcov]. split.
    - eapply core_books; [|apply books_after_summary; apply Hc|exact Hc]. done.
    - intros a. unfold mutate_machine. rewrite mc_insert, decide_True by done.
      intros Ha. apply Hcov. revert Ha. unfold after_summary. by destruct (verify_result r). }
  intros _. apply safe_own_modify. intros s2 [Hc Hcov]. pose proof Hc as (HB2 & _).
  destruct (books_clean_up T m (booked_committee c) s2 Hcov HB2) as [HB3 Hs3]. by eapply core_books.
Qed.

Lemma safe_statistic t s0 stake machines :
  safe (own (core t s0 (length machines))) (own (core t s0 0))
    (for_each machines (λ m, attempt tt (summary_raw m t stake))).
Proof.
  induction machines as [|m machines IH]; cbn [for_each length]; [apply safe_mret|].
  apply (safe_bind _ (own (core t s0 (length machines)))); [|apply safe_attempt, safe_summary_raw|done].
  intros w. apply core_weaken. lia.
Qed.

Lemma safe_book_one t s0 j m cs now sq :
  (j < 3)%nat →
  safe (own (λ s, core t s0 0 s ∧ booking j m s)) (own (λ s, core t s0 0 s ∧ booking (S j) m s))
    (book_one m cs now sq).
Proof.
  intros Hj. assert (∀ w, own (λ s, core t s0 0 s ∧ booking j m s) w →
    own (λ s, core t s0 0 s ∧ booking (S j) m s) w) as Hmono.
  { intros w [Hc (? & ? & ?)]. split; [done|]. split_and!; [done..|lia]. }
  unfold book_one. apply safe_rt_gets. intros o. apply safe_ok_or_bind; [done|done|]. intros v _.
  eapply safe_bind; [exact Hmono|apply safe_call|]. intros _. apply safe_own_modify.
  intros s [Hc Hbk]. destruct (books_book T j m cs now sq v s Hj) as (HB & Hbk' & Hs); [apply Hc|done|].
  split; [|done]. by eapply core_books.
Qed.

Lemma safe_book_all t s0 m cs now seqs j :
  (j + length seqs ≤ 3)%nat →
  safe (own (λ s, core t s0 0 s ∧ booking j m s)) (own (core t s0 0))
    (for_each seqs (λ sq, attempt tt (book_one m cs now sq))).
Proof.
  revert j. induction seqs as [|sq seqs IH]; intros j Hj; cbn [for_each length] in *.
  - eapply safe_weaken; [done| |apply safe_mret]. by intros w [Hc _].
  - eapply safe_bind; [|apply safe_attempt, (safe_book_one t s0 j); lia|].
    + by intros w [Hc _].
    + intros _. apply IH. lia.
Qed.

Lemma get_work_index_safe P :
  safe (own P) (own P) get_work_index ∧
  ∀ w, match (get_work_index w).1 with Ok (Some seqs) => length seqs = 3%nat | _ => True end.
Proof.
  assert (∀ w, ∃ r h', get_work_index w = (Ok r, ((w.1.1, h'), w.2)) ∧
    match r with Some seqs => length seqs = 3%nat | None => True end) as Hrun.
  { intros w. unfold get_work_index, rt_gets. rewrite bind_gets.
    destruct (mc_available_committee w.1.2) as [committee|].
    2: { exists None, w.1.2. by destruct w as [[]]. }
    destruct (Nat.ltb_spec (length committee) 3) as [Hlt|Hge].
    { exists None, w.1.2. by destruct w as [[]]. }
    destruct (draw_members_run 3 0 committee w Hge) as (seqs & h' & Hd & Hl & _).
    exists (Some seqs), h'. by rewrite (bind_run _ _ _ _ _ Hd). }
  split.
  - intros w Hw. by destruct (Hrun w) as (r & h' & -> & _).
  - intros w. destruct (Hrun w) as (r & h' & -> & Hr). by destruct r.
Qed.

Lemma safe_distribute t s0 cs now m :
  safe (own (core t s0 0)) (own (core t s0 0)) (distribute_machine cs now m).
Proof.
  unfold distribute_machine.
  apply (safe_bind _ (own (λ s, core t s0 0 s ∧ booking 0 m s))); [by intros w [Hc _]| |intros _].
  { apply safe_own_modify. intros s Hc. split; [|apply booking_delete].
    eapply core_books; [|apply books_delete; apply Hc|exact Hc]. done. }
  intros w Hw. destruct (get_work_index_safe (λ s, core t s0 0 s ∧ booking 0 m s)) as [Hsafe Hlen].
  destruct (Hsafe w Hw) as [Hw' Hnp]. specialize (Hlen w). unfold mbind, M_bind.
  destruct (get_work_index w) as [[[seqs|]|e] w1]; simpl in *.
  - revert w1 Hw'. apply (safe_bind _ (own (core t s0 0))); [done|by apply safe_book_all; lia|].
    intros _. apply safe_attempt, safe_call.
  - split; [apply Hw'|done].
  - split; [apply Hw'|congruence].
Qed.

Lemma safe_on_finalize t s w :
  w.1.1 = s → NextSlashId s + Z.of_nat (length (oc_booked_machines w.1.2)) ≤ U64_MAX →
  BookInv T s → SlashInv t s →
  own (core t s 0) (on_finalize t w).2 ∧ (on_finalize t w).1 ≠ Err Panic.
Proof.
  intros Hw Hn HB HS.
  assert (safe (λ w', w' = w) (own (core t s 0)) (on_finalize t)) as Hsafe; [|by apply Hsafe].
  unfold on_finalize. apply (safe_bind _ (own (core t s 0))); [done| |].
  - intros w' ->. unfold statistic_result, rt_gets. rewrite !bind_gets.
    apply safe_statistic. unfold own. rewrite Hw. split_and!; [done..|apply advanced_refl|done].
  - intros _. apply safe_rt_gets. intros machines. apply safe_for_each. intros m _. apply safe_distribute.
Qed.

Lemma safe_slash P (l : list AccountId) v (r : list AccountId) :
  safe (own P) (own P) (slash_and_reward l v r).
Proof. apply safe_call. Qed.
#[local] Hint Resolve safe_call safe_slash safe_stake safe_mret : pallet.

Lemma safe_review t s0 id :
  safe (own (core t s0 0)) (own (core t s0 0)) (do_a_pending_review t id).
Proof.
  unfold do_a_pending_review. apply safe_own_gets. intros s _.
  apply safe_ok_or_bind; [by intros w [Hc _]|done|]. intros rv _.
  apply safe_own_gets. intros s1 _. apply safe_ok_or_bind; [by intros w [[Hc _] _]|done|]. intros i _.
  apply (safe_weaken _ (own (core t s0 0)) _ (own (core t s0 0))); [by intros w [[Hc _] _]|done|].
  destruct (expire_time rv <? t); [apply safe_mret|].
  apply safe_seq; [|intros _; apply safe_seq; [auto with pallet|intros _]].
  - destruct (machine_stash i); [|auto with pallet]. case_match; [|auto with pallet].
    apply safe_seq; auto with pallet.
  - apply safe_own_modify. intros s2 Hc. pose proof Hc as (HB & HS & Ha & Hn).
    split_and!; [by apply (BookInv_same T s2)|by apply slashes_drop_review|by apply (advanced_same t s0 s2)|done].
Qed.

(** While the schedule is being worked off, [pending] is what is left of it. *)
Definition working_off (t : BlockNumber) s0 (pending : list Z) s : Prop :=
  BookInv T s ∧ SlashInv t (s <| UnhandledSlash := pending |>) ∧ advanced t s0 s.

Lemma do_a_slash_safely t s0 id pending :
  id ∈ pending →
  safely (own (working_off t s0 pending)) (do_a_slash t id pending)
    (λ p' w, own (working_off t s0 p') w ∧ ∀ id', id' ∈ pending → id' ≠ id → id' ∈ p')
    (own (working_off t s0 pending)).
Proof.
  intros Hid w Hw. unfold do_a_slash. unfold own_gets. rewrite bind_gets.
  destruct (PendingSlash w.1.1 !! id) as [i|] eqn:Hi; [|done]. rewrite bind_ok_or.
  destruct (Z.ltb_spec t (slash_exec_time i)) as [Hlt|Hge]; [by split|].
  set (P s := working_off t s0 pending s ∧ PendingSlash s !! id = Some i).
  assert (∀ w, own P w → own (working_off t s0 pending) w) as HP by (by intros w' [? _]).
  revert w Hw Hi. assert (∀ A (k : M W Fault A) Q, safely (own P) k Q (own (working_off t s0 pending)) →
    ∀ w, own (working_off t s0 pending) w → PendingSlash w.1.1 !! id = Some i →
      match k w with (Ok a, w') => Q a w' | (Err Failed, w') => own (working_off t s0 pending) w' | _ => False end)
    as Hstart by (intros A k Q Hk w Hw Hi; apply (Hk w); by split).
  apply Hstart. clear Hstart.
  eapply safely_bind; [apply (safe_safely (own P)); [done|]|intros []].
  { case_match; [|auto with pallet]. destruct (machine_stash i); [|auto with pallet].
    apply safe_seq; auto with pallet. }
  do 3 (eapply safely_bind; [apply (safe_safely (own P)); [done|auto with pallet]|intros []]).
  intros w [(HB & HS & Ha) Hi]. unfold own_modify. rewrite bind_modify.
  pose proof (si_sorted _ _ HS) as Hsort. simpl in Hsort. destruct (rm_item_spec _ id Hsort) as [Su Eu].
  assert (slash_result i = Pending) as Hpend.
  { apply (si_unhandled _ _ HS) in Hid as (j & Hj & Hres). simpl in Hj. congruence. }
  split; [split_and!|].
  - by apply (BookInv_same T w.1.1).
  - by eapply (slashes_decide t _ id i Executed (rm_item pending id)); [exact HS|..|left].
  - by eapply advanced_execute.
  - intros id' Hin Hne. by apply Eu.
Qed.

Lemma exec_slashes_run t s0 ids pending w :
  NoDup ids → (∀ id, id ∈ ids → id ∈ pending) → own (working_off t s0 pending) w →
  ∃ pending' w', exec_slashes t ids pending w = (Ok pending', w') ∧ own (working_off t s0 pending') w'.
Proof.
  intros Hnd. revert pending w. induction Hnd as [|id ids Hni Hnd IH]; intros pending w Hsub Hw; cbn [exec_slashes].
  - by exists pending, w.
  - pose proof (do_a_slash_safely t s0 id pending (Hsub id ltac:(constructor)) w Hw) as Hs.
    assert (∃ p' w', attempt pending (do_a_slash t id pending) w = (Ok p', w') ∧
      own (working_off t s0 p') w' ∧ ∀ id', id' ∈ pending → id' ≠ id → id' ∈ p') as (p' & w' & Hrun & Hw' & Hp').
    { unfold attempt. destruct (do_a_slash t id pending w) as [[p'|[]] w']; [|by eauto|done].
      destruct Hs. by exists p', w'. }
    rewrite (bind_run _ _ _ _ _ Hrun). apply IH; [|done]. intros id' Hin.
    apply Hp'; [apply Hsub; by constructor|]. by intros ->.
Qed.

Lemma safe_on_initialize t s0 :
  safe (own (core t s0 0)) (own (core t s0 0)) (on_initialize t).
Proof.
  unfold on_initialize. apply safe_seq.
  - apply safe_own_gets. intros s _. eapply safe_weaken;
      [|done|apply safe_for_each; intros id _; apply safe_attempt, safe_review]. by intros w [Hc _].
  - intros _ w (HB & HS & Ha & Hn). unfold check_and_exec_pending_slash, own_gets. rewrite bind_gets.
    set (u := UnhandledSlash w.1.1).
    destruct (exec_slashes_run t s0 u u w) as (p' & w' & Hrun & HB' & HS' & Ha').
    + apply sorted_NoDup, (si_sorted _ _ HS).
    + done.
    + split_and!; [done| |done]. eapply SlashInv_same; [|exact HS]. done.
    + rewrite (bind_run _ _ _ _ _ Hrun). split; [|done]. split_and!; [|done|done|].
      * by apply (BookInv_same T w'.1.1).
      * simpl. rewrite Z.add_0_r. apply (si_next _ _ HS').
Qed.

(** ** The calls *)

(** Calling the rest of the runtime leaves the own storage alone. *)
Definition leaves {E A} (f : M W E A) : Prop := ∀ w, (f w).2.1.1 = w.1.1.

Lemma leaves_run {E A} (f : M W E A) w r w' : leaves f → f w = (r, w') → w'.1.1 = w.1.1.
Proof. intros Hf Hr. specialize (Hf w). by rewrite Hr in Hf. Qed.
Lemma leaves_ignore (f : M (RT * L) unit unit) : leaves (call_ignore f).
Proof. by intros w. Qed.
Lemma leaves_call_or {A} e (f : M (RT * L) unit A) : leaves (call_or e f).
Proof. intros w. unfold call_or, map_err, with_callee. by destruct (f (w.1.2, w.2)) as [[] ?]. Qed.
Lemma leaves_call {A} (f : M (RT * L) unit A) : leaves (call f).
Proof. intros w. unfold call, map_err, with_callee. by destruct (f (w.1.2, w.2)) as [[] ?]. Qed.
Lemma leaves_mret {E A} (a : A) : leaves (mret a : M W E A).
Proof. by intros w. Qed.
Lemma leaves_unreserve {E} a v : leaves (m_unreserve (E:=E) a v : M W E Z).
Proof. intros w. unfold m_unreserve. by destruct (unreserve a v w.2). Qed.
Lemma leaves_bind {E A B} (f : M W E A) (k : A → M W E B) :
  leaves f → (∀ a, leaves (k a)) → leaves (f ≫= k).
Proof.
  intros Hf Hk w. specialize (Hf w). unfold mbind, M_bind. destruct (f w) as [[a|e] w1]; [|done].
  rewrite Hk. done.
Qed.
Lemma leaves_for_each {E A} (l : list A) (f : A → M W E unit) : (∀ a, leaves (f a)) → leaves (for_each l f).
Proof.
  intros Hf. induction l as [|a l IH]; [apply leaves_mret|]. apply leaves_bind; [done|]. by intros _.
Qed.
#[local] Hint Resolve leaves_ignore leaves_call_or leaves_mret leaves_unreserve : pallet.
Ltac leaves :=
  repeat first [solve [auto with pallet] | apply leaves_bind; [|intros ?] | apply leaves_for_each; intros ?
    | case_match].

(** Turns the runs of such calls into equations of the own storage. *)
Ltac kept :=
  repeat match goal with
  | Hr : _ _ = (Ok _, ?w1) |- _ => apply leaves_run in Hr; [|leaves]
  end.

Lemma oc_cancel_effect now id w w' :
  do_cancel_slash now id w = (Ok tt, w') →
  ∃ i r, PendingSlash w.1.1 !! id = Some i ∧ PendingSlashReview w.1.1 !! id = Some r ∧
    now < expire_time r ∧
    w'.1.1 = w.1.1 <| UnhandledSlash ::= λ u, rm_item u id |>
      <| PendingSlash ::= <[id := i <| slash_result := Canceled |>]> |>
      <| PendingSlashReview ::= delete id |>.
Proof.
  intros Hrun. unfold do_cancel_slash, rt_gets in Hrun. run_inv. kept.
  eexists _, _. split_and!; [done..|]. match goal with |- context [events ?y] => lazymatch y with
    | w.1.1 => fail | _ => replace y with w.1.1 by congruence end end. done.
Qed.

Lemma apply_effect now o id why w w' :
  SlashInv now w.1.1 → apply_slash_review now o id why w = (Ok tt, w') →
  ∃ i r, PendingSlash w.1.1 !! id = Some i ∧ review_ok i r ∧
    w'.1.1 = w.1.1 <| PendingSlashReview ::= <[id := r]> |>.
Proof.
  intros HS Hrun. unfold apply_slash_review, rt_gets in Hrun. run_inv. kept.
  match goal with
  | Hi : PendingSlash _ !! id = Some ?i0, Hor : applicant_is_stash _ ?st || applicant_is_committee _ ?a = true,
    Hx : ?y = w.1.1 |- _ =>
      exists i0; eexists; split; [done|]; split; [|by rewrite Hx];
      destruct (si_slash _ _ HS id i0 Hi) as [_ [(Sinc & _) _ _ _]];
      split_and!; [done|done|]; simpl; destruct (applicant_is_stash i0 st) eqn:Hst
  end.
  - left. unfold applicant_is_stash in Hst. guard_inv. congruence.
  - right. by apply is_ok_search.
Qed.

(** What a call may do to the slashes. *)
Definition decided (now : BlockNumber) s s' : Prop :=
  ∀ id i, PendingSlash s !! id = Some i → ∃ i', PendingSlash s' !! id = Some i' ∧
    i' = i <| slash_result := slash_result i' |> ∧
    (slash_result i' = slash_result i ∨
     slash_result i' = Canceled ∧ slash_result i ≠ Executed ∧ now < slash_exec_time i ∧
     is_Some (PendingSlashReview s !! id)).

Lemma decided_same now s s' : PendingSlash s' = PendingSlash s → decided now s s'.
Proof. intros Hp id i Hi. exists i. rewrite Hp. split_and!; [done|by destruct i|by left]. Qed.

Lemma dispatch_keeps now o c w :
  BookInv T w.1.1 → SlashInv now w.1.1 →
  BookInv T (dispatch T now o c w).2.1.1 ∧ SlashInv now (dispatch T now o c w).2.1.1 ∧
  decided now w.1.1 (dispatch T now o c w).2.1.1.
Proof.
  intros HB HS. unfold dispatch.
  apply (transactional_preserves (λ w', BookInv T w'.1.1 ∧ SlashInv now w'.1.1 ∧ decided now w.1.1 w'.1.1)).
  { split_and!; [done..|by apply decided_same]. }
  intros [] w' Hrun. destruct c as [m h|i|id why|id].
  - unfold submit_confirm_hash, verify_ok in Hrun. run_inv. case_match eqn:Hsub; run_inv.
    split_and!; [|by apply (SlashInv_same now w.1.1)|by apply decided_same].
    eapply BookInv_same; [|apply (books_submit_hash T now); [exact HB| |exact Hsub]]; [done|].
    intros Hin. apply (is_ok_search _ _ (bi_hashes T _ HB m)) in Hin. congruence.
  - unfold submit_confirm_raw, verify_ok in Hrun. run_inv. repeat (case_match; run_inv).
    split_and!; [|by apply (SlashInv_same now w.1.1)|by apply decided_same].
    eapply BookInv_same; [|apply (books_submit_raw T now); [exact HB|eassumption..]]. done.
  - apply apply_effect in Hrun as (i & r & Hi & Hr & ->); [|done].
    split_and!; [by apply (BookInv_same T w.1.1)|by eapply slashes_review|by apply decided_same].
  - unfold cancel_slash in Hrun. run_inv. apply oc_cancel_effect in Hrun as (i & r & Hi & Hr & Hlt & ->).
    destruct (si_review _ _ HS id r Hr) as (i' & Hi' & Hexp & _). simplify_eq.
    destruct (rm_item_spec _ id (si_sorted _ _ HS)) as [Su Eu].
    split_and!; [by apply (BookInv_same T w.1.1)| |].
    + eapply (slashes_decide now w.1.1 id i Canceled); [done|done|done|done|exact Su|exact Eu|done|done|done|].
      intros id'. simpl. destruct (decide (id' = id)) as [->|Hne]; [right; apply lookup_delete_eq|].
      left. by apply lookup_delete_ne.
    + intros id' j Hj. simpl. destruct (decide (id' = id)) as [->|Hne].
      * rewrite lookup_insert_eq. simplify_eq. eexists. split_and!; [done..|]. right.
        split_and!; [done| |lia|by eexists]. intros Hex.
        destruct (si_slash _ _ HS id _ Hi) as [_ [_ _ _ Hdue]]. specialize (Hdue Hex). lia.
      * rewrite lookup_insert_ne by done. exists j. split_and!; [done|by destruct j|by left].
Qed.

(** ** Reachable states *)

(** The invariants along a step, and what it does to the slashes. *)
Lemma step_keeps c c' :
  step T c c' → BookInv T c.2.1.1 → SlashInv c.1 c.2.1.1 →
  BookInv T c'.2.1.1 ∧ SlashInv c'.1 c'.2.1.1 ∧
  (decided c.1 c.2.1.1 c'.2.1.1 ∨ advanced c'.1 c.2.1.1 c'.2.1.1).
Proof.
  intros Hstep HB HS. destruct Hstep as [now o cl w|now s h h' l l'|now w Hids]; simpl in *.
  - destruct (dispatch_keeps now o cl w HB HS) as (? & ? & ?). auto.
  - split_and!; [done..|]. left. by apply decided_same.
  - destruct (safe_on_finalize now w.1.1 w eq_refl Hids HB HS) as [(HB1 & HS1 & Ha1 & Hn1) _].
    destruct (safe_on_initialize (now + 1) w.1.1 (on_finalize now w).2) as [(HB2 & HS2 & Ha2 & _) _].
    { split_and!; [done|eapply SlashInv_later; [|done]; lia| |done].
      intros id i Hi. destruct (Ha1 id i Hi) as (i' & ? & ? & [?|(? & ? & ?)]); exists i';
        (split_and!; [done..|]); [by left|right; split_and!; [done..|lia]]. }
    split_and!; [done..|by right].
Qed.

Lemma reachable_keeps c : reachable T c → BookInv T c.2.1.1 ∧ SlashInv c.1 c.2.1.1.
Proof.
  intros (now & h & l & Hr).
  apply (rtc_invariant (step T) (λ c, BookInv T c.2.1.1 ∧ SlashInv c.1 c.2.1.1) (now, ((genesis, h), l))); [| |done].
  - intros a b Hs [HB HS]. by destruct (step_keeps a b Hs HB HS) as (? & ? & _).
  - split; [apply genesis_books|apply genesis_slashes].
Qed.

(** C10: in every reachable state, whatever the rest of the runtime did in
    between, the records of the verifications agree: the lists are sorted,
    a machine has at most three members booked, who revealed had committed and
    who committed was booked, a member at work on a machine has its record, the
    hashes committed for a machine are distinct, and a revealed report is one
    with the committed hash; and the slashes are in order: exactly the pending
    ones are scheduled, no member is in two of the three groups of a slash, a
    slash is due two days after it was made and was executed only when due, and
    each appeal belongs to a slash, was made in time and by a slashed party. *)
Theorem oc_reachable_invariant now w :
  reachable T (now, w) → BookInv T w.1.1 ∧ SlashInv now w.1.1.
Proof. exact (reachable_keeps (now, w)). Qed.

(** No call and no hook forgets a slash or changes its terms; it moves from
    pending to executed only at or after its due block, and to cancelled only
    while it is not executed, not due, and appealed. *)
Theorem oc_slash_lifecycle c c' id i :
  reachable T c → step T c c' → PendingSlash c.2.1.1 !! id = Some i →
  ∃ i', PendingSlash c'.2.1.1 !! id = Some i' ∧ i' = i <| slash_result := slash_result i' |> ∧
    (slash_result i' = slash_result i ∨
     (slash_result i = Pending ∧ slash_result i' = Executed ∧ slash_exec_time i ≤ c'.1) ∨
     (slash_result i' = Canceled ∧ slash_result i ≠ Executed ∧ c.1 < slash_exec_time i ∧
      is_Some (PendingSlashReview c.2.1.1 !! id))).
Proof.
  intros Hr Hs Hi. destruct (reachable_keeps c Hr) as [HB HS].
  destruct (step_keeps c c' Hs HB HS) as (_ & _ & [Hd|Ha]).
  - destruct (Hd id i Hi) as (i' & ? & ? & [?|?]); eauto 8.
  - destruct (Ha id i Hi) as (i' & ? & ? & [?|?]); eauto 8.
Qed.

(** The hooks never panic in a reachable state with enough slash ids left:
    every draw has a non-empty committee to draw from, the reports of a summary
    are as many as its members, and a confirmed machine has a report. *)
Theorem oc_hooks_never_panic now w :
  reachable T (now, w) →
  NextSlashId w.1.1 + Z.of_nat (length (oc_booked_machines w.1.2)) ≤ U64_MAX →
  (on_finalize now w).1 ≠ Err Panic ∧
  (on_initialize (now + 1) (on_finalize now w).2).1 ≠ Err Panic.
Proof.
  intros Hr Hids. destruct (reachable_keeps _ Hr) as [HB HS].
  destruct (safe_on_finalize now w.1.1 w eq_refl Hids HB HS) as [(HB1 & HS1 & Ha1 & Hn1) Hp1].
  split; [done|]. destruct (safe_on_initialize (now + 1) (on_finalize now w).2.1.1 (on_finalize now w).2)
    as [_ Hp2]; [|done].
  split_and!; [done|eapply SlashInv_later; [|done]; lia|apply advanced_refl|done].
Qed.

(** ** Running a history *)

Inductive Act := Do (o : Origin) (c : Call) | NextBlock | Wait (n : N).

Definition next_block (c : BlockNumber * W) : BlockNumber * W :=
  if decide (NextSlashId c.2.1.1 + Z.of_nat (length (oc_booked_machines c.2.1.2)) ≤ U64_MAX)
  then (c.1 + 1, (on_initialize (c.1 + 1) (on_finalize c.1 c.2).2).2) else c.

Definition exec1 (a : Act) (c : BlockNumber * W) : BlockNumber * W :=
  match a with
  | Do o cl => (c.1, (dispatch T c.1 o cl c.2).2)
  | NextBlock => next_block c
  | Wait n => N.iter n next_block c
  end.
Definition exec (l : list Act) (c : BlockNumber * W) : BlockNumber * W := foldl (flip exec1) c l.

Lemma step_do o cl c : step T c (c.1, (dispatch T c.1 o cl c.2).2).
Proof. destruct c. apply step_call. Qed.
Lemma next_block_rtc c : rtc (step T) c (next_block c).
Proof.
  unfold next_block. case_decide as Hd; [|done]. destruct c as [now w]. apply rtc_once.
  by apply (step_block T now w).
Qed.
Lemma exec1_rtc a c : rtc (step T) c (exec1 a c).
Proof.
  destruct a as [o cl| |n]; simpl; [|apply next_block_rtc|].
  - apply rtc_once, step_do.
  - apply (N.iter_invariant n _ next_block (rtc (step T) c)); [|done].
    intros c' Hc. etrans; [exact Hc|apply next_block_rtc].
Qed.
Lemma exec_reachable l now h (m : L) : reachable T (exec l (now, ((genesis, h), m))).
Proof.
  exists now, h, m. generalize (now, ((genesis, h), m)).
  induction l as [|a l IH]; intros c; [done|]. simpl. etrans; [apply exec1_rtc|apply IH].
Qed.
End steps.
End OnlineSteps.
