(* ===== verification/OnlineRuns.v ===== *)
(** * pallet-online-committee with pallet-committee and pallet-generic-func

    What an appeal and a due slash do to the stakes that pallet-committee
    records and to the balances, with its implementation of [ManageCommittee]
    (Committee.v) and the slashing of GenericFunc.v in place of the interfaces;
    and runs of the three together. *)
From stdpp Require Import base gmap fin_maps list numbers relations.
From Stdlib Require Import ZArith Lia Strings.Byte.
From S2P Require Import Prelude Currency Interfaces GenericFunc ItemList Committee VerifyOnline RentalInterfaces OnlineCommittee OnlineInvariant OnlineSteps.

Module OnlineRuns.
Import ItemList VerifyOnline OnlineCommittee OnlineInvariant OnlineSteps.
#[local] Existing Instances Committee.CommitteeStakeInfo_eta Committee.State_eta.

(** ** Appeals *)
Section appeals.
Context {L RT : Type} `{!ReservableCurrency L} `{!ManageCommittee L RT, !OCOps L RT, !GNOps L RT}.
Context `{!RandomDraw RT, !RandomDrawLaws RT} (T : Config).

(** The check of an appeal's deadline is the wrong way round: a block's
    review of a pending appeal leaves it alone when the slash has fallen due,
    and before that, when it succeeds, it takes the deposit of the applicant
    and removes the appeal, so that an appeal can only be heard in the block
    in which it was made. *)
Theorem oc_appeal_punished_before_due now w id r t :
  reachable T (now, w) → PendingSlashReview w.1.1 !! id = Some r →
  ∃ i, PendingSlash w.1.1 !! id = Some i ∧
    (slash_exec_time i < t → do_a_pending_review t id w = (Ok tt, w)) ∧
    (t ≤ slash_exec_time i → ∀ w', do_a_pending_review t id w = (Ok tt, w') →
       PendingSlashReview w'.1.1 = delete id (PendingSlashReview w.1.1) ∧
       ∃ rl, gn_slash_and_reward [applicant r] (staked_amount r) [] rl = (Ok tt, (w'.1.2, w'.2))).
Proof.
  intros Hr Hrev. destruct (reachable_keeps T _ Hr) as [_ HS].
  destruct (si_review _ _ HS id r Hrev) as (i & Hi & Hexp & _). exists i. simpl in Hi.
  split_and!; [done| |].
  - intros Hlt. apply Z.ltb_lt in Hlt. unfold do_a_pending_review, own_gets.
    by rewrite bind_gets, Hrev, bind_ok_or, bind_gets, Hi, bind_ok_or, Hexp, Hlt.
  - intros Hle w' Hrun. unfold do_a_pending_review in Hrun. run_inv. 
    simplify_eq. rewrite (proj2 (Z.ltb_ge (expire_time r) t)) in Hrun by lia. run_inv.
    match goal with Hm : _ w = (Ok _, ?w1), Hs : slash_and_reward _ _ _ ?w1 = _ |- _ =>
      apply leaves_run in Hm; [pose proof (leaves_run _ _ _ _ (leaves_call _) Hs) as Hk|] end.
    + rewrite Hk. split; [by f_equal; f_equal|]. exists (x0.1.2, x0.2).
      match goal with Hs : slash_and_reward _ _ _ _ = _ |- _ =>
        unfold slash_and_reward, call in Hs; apply map_err_Ok in Hs; revert Hs end.
      unfold with_callee. destruct (gn_slash_and_reward _ _ _ _) as [res [h1 l1]]. by intros [= -> <-].
    + repeat first [apply leaves_call | apply leaves_mret | case_match | apply leaves_bind; [|intros ?]
                   | apply leaves_for_each; intros ?].
Qed.
End appeals.

(** ** A due slash and the recorded stakes *)
Section stakes.
Context {L R : Type} `{!ReservableCurrency L} {P : PerThing}.
#[local] Instance committee : ManageCommittee L (Committee.State * R) :=
  manage_committee_via fst (λ c h, (c, h.2)).
Context `{!OCOps L (Committee.State * R), !GNOps L (Committee.State * R)}.
Implicit Types (s : State) (c : Committee.State) (r : R) (l : L).

Abbreviation stake_of c a := (Committee.committee_stake c a).

Definition less_staked a v c : Committee.State :=
  Committee.put_stake a ((stake_of c a) <| Committee.staked_amount ::= λ x, x - v |>) c.

Lemma total_stake_falls a v c l :
  v ≤ Committee.staked_amount (stake_of c a) →
  Committee.change_total_stake a v false false (c, l) = (Ok tt, (less_staked a v c, l)).
Proof.
  intros Hv. unfold Committee.change_total_stake, Committee.do_change_reserved, st_gets.
  rewrite bind_gets. cbn [Committee.add_or_sub fst].
  rewrite (proj2 (checked_sub_Some _ _ _) (conj eq_refl Hv)), bind_ok_or. reflexivity.
Qed.
Lemma used_stake_short a v c l :
  Committee.used_stake (stake_of c a) < v →
  Committee.change_used_stake a v false (c, l) = (Err tt, (c, l)).
Proof.
  intros Hv. unfold Committee.change_used_stake, Committee.do_change_used_stake, st_gets.
  rewrite !bind_gets. cbn [Committee.add_or_sub fst]. unfold checked_sub.
  rewrite (proj2 (Z.leb_gt _ _) Hv). reflexivity.
Qed.
(** The two changes of a slashed member's record: the stake falls, and then the
    release of the stake in use fails. *)
Lemma slash_stake_fails a v rest s c r l :
  v ≤ Committee.staked_amount (stake_of c a) → Committee.used_stake (stake_of c a) < v →
  change_committee_stake (a :: rest) v true ((s, (c, r)), l) =
    (Err Failed, ((s, (less_staked a v c, r)), l)).
Proof.
  intros Hv Hused. unfold change_committee_stake. cbn [for_each].
  unfold change_committee_total_stake, change_committee_used_stake, call, map_err, with_callee, mbind, M_bind.
  cbn [mc_change_total_stake mc_change_used_stake committee manage_committee_via]. unfold via. cbn [fst snd].
  rewrite total_stake_falls by done. cbn [fst snd]. rewrite used_stake_short; [done|].
  unfold less_staked, Committee.put_stake, Committee.committee_stake. simpl. by rewrite lookup_insert_eq.
Qed.

(** What a slash's members are, when it fails for the first of them. *)
Record stuck (id : Z) (i : OCPendingSlashInfo) a rest s c : Prop := {
  stuck_slash : PendingSlash s !! id = Some i;
  stuck_scheduled : UnhandledSlash s = [id];
  stuck_stash : stash_slash_amount i = 0;
  stuck_members : slashed_members i = a :: rest;
  stuck_used : Committee.used_stake (stake_of c a) < committee_stake i;
}.

Lemma stuck_block now id i a rest s c r l :
  stuck id i a rest s c → slash_exec_time i ≤ now →
  committee_stake i ≤ Committee.staked_amount (stake_of c a) →
  check_and_exec_pending_slash now ((s, (c, r)), l) =
    (Ok tt, ((s, (less_staked a (committee_stake i) c, r)), l)).
Proof.
  intros [Hi Hu Hz Hm Hused] Hnow Hst. unfold check_and_exec_pending_slash, own_gets.
  rewrite bind_gets. cbn [fst snd]. rewrite Hu. cbn [exec_slashes].
  assert (do_a_slash now id [id] ((s, (c, r)), l) =
    (Err Failed, ((s, (less_staked a (committee_stake i) c, r)), l))) as Hrun.
  { unfold do_a_slash, own_gets. rewrite bind_gets. cbn [fst snd]. rewrite Hi, bind_ok_or.
    rewrite (proj2 (Z.ltb_ge _ _) Hnow), Hz, Hm. cbn [Z.eqb negb]. rewrite bind_run with (a := tt) (s1 := ((s, (c, r)), l)) by done.
    unfold mbind at 1, M_bind at 1. by rewrite slash_stake_fails. }
  unfold mbind, M_bind, attempt. rewrite Hrun. cbn. rewrite <-Hu. by destruct s.
Qed.

(** A due slash that fails for its first member, whose stake in use was
    released before, is tried again in every block, and every try lowers the
    member's recorded stake by the slash while no balance moves and the slash
    stays pending: after n blocks the record is n times the slash too low. *)
Theorem oc_failed_slash_repeats nows id i a rest s c r l :
  stuck id i a rest s c → Forall (λ t, slash_exec_time i ≤ t) nows → 0 ≤ committee_stake i →
  Z.of_nat (length nows) * committee_stake i ≤ Committee.staked_amount (stake_of c a) →
  ∃ c', foldl (λ w t, (check_and_exec_pending_slash t w).2) ((s, (c, r)), l) nows = ((s, (c', r)), l) ∧
    Committee.staked_amount (stake_of c' a) =
      Committee.staked_amount (stake_of c a) - Z.of_nat (length nows) * committee_stake i ∧
    stuck id i a rest s c'.
Proof.
  revert c. induction nows as [|t nows IH]; intros c Hs Hdue Hv Hst; simpl length in *.
  { exists c. simpl. split_and!; [done|lia|done]. }
  apply list.Forall_cons in Hdue as [Ht Hdue]. cbn [foldl].
  rewrite (stuck_block t id i a rest) by (done || nia). cbn [snd].
  assert (stake_of (less_staked a (committee_stake i) c) a =
    (stake_of c a) <| Committee.staked_amount ::= λ x, x - committee_stake i |>) as Heq.
  { unfold less_staked, Committee.put_stake, Committee.committee_stake. simpl. by rewrite lookup_insert_eq. }
  destruct (IH (less_staked a (committee_stake i) c)) as (c' & Hrun & Hst' & Hs').
  - destruct Hs. split; [done..|]. by rewrite Heq.
  - done.
  - done.
  - rewrite Heq. simpl. nia.
  - exists c'. split_and!; [done| |done]. rewrite Hst', Heq. simpl. lia.
Qed.
End stakes.

(** ** Runs

    Members 1, 2 and 3 verify one machine, with a registry of machines that only
    keeps the two queues in place of pallet-online-profile. *)
Module Demo.
#[local] Existing Instances Ledger.currency Ledger.treasury_currency Ledger.laws Ledger.treasury_laws.
#[local] Existing Instances perbill perbill_laws.
Record Registry := { confirmed_queue : list (list byte); booked_queue : list (list byte) }.
Abbreviation RT := (Committee.State * (GenericFunc.State * Registry))%type.
Abbreviation world := ((State * RT) * Ledger.t)%type.

Definition on_registry {A} (f : Registry → Registry) (a : A) : M (RT * Ledger.t) unit A := λ w,
  (Ok a, ((w.1.1, (w.1.2.1, f w.1.2.2)), w.2)).
Definition drop (m : list byte) (q : list (list byte)) : list (list byte) := filter (.≠ m) q.

#[local] Instance registry : OCOps Ledger.t RT := {|
  oc_confirmed_machines h := confirmed_queue h.2.2;
  oc_booked_machines h := booked_queue h.2.2;
  oc_controller_stash h a := Some (a + 10)%N;
  oc_booked_machine m := on_registry (λ g,
    {| confirmed_queue := drop m (confirmed_queue g); booked_queue := m :: booked_queue g |}) tt;
  oc_revert_booked_machine m := on_registry (λ g,
    {| confirmed_queue := m :: confirmed_queue g; booked_queue := drop m (booked_queue g) |}) tt;
  oc_confirm_machine _ _ i := on_registry (λ g,
    {| confirmed_queue := confirmed_queue g; booked_queue := drop (machine_id i) (booked_queue g) |}) tt;
  oc_refuse_machine _ m w := (None, w);
  oc_change_staked_balance _ _ _ := mret tt;
  oc_exec_slash _ _ := mret tt;
|}.
#[local] Existing Instance committee.
#[local] Instance slashing : GNOps Ledger.t RT := gn_ops.
#[local] Instance draws : RandomDraw RT :=
  random_draw_via (λ n, n) (λ h, h.2.1) (λ g h, (h.1, (g, h.2.2))).
#[local] Instance draws_laws : RandomDrawLaws RT := random_draw_via_laws _ _ _.

Definition T : Config := {|
  blake2_128 b := (foldl (λ n x, 256 * n + Byte.to_N x) 0 b mod 2 ^ 128)%N;
  CancelSlashOrigin o := match o with Root => true | _ => false end;
|}.

Definition params : Committee.CommitteeStakeParamsInfo := {|
  Committee.stake_baseline := 100; Committee.stake_per_order := 10;
  Committee.min_free_stake_percent := 400000000 |}.
Definition join (a : AccountId) (w : Committee.State * Ledger.t) : Committee.State * Ledger.t :=
  let w := (Committee.dispatch Root (Committee.AddCommittee a) w).2 in
  (Committee.dispatch (Signed a) (Committee.SetBoxPubkey a) w).2.
Definition members : Committee.State * Ledger.t :=
  foldr join (Committee.dispatch Root (Committee.SetCommitteeStakeParams params)
    (Committee.genesis, {[1 := (1000, 0); 2 := (1000, 0); 3 := (1000, 0); 100 := (1, 0)]}%N)).2 [1; 2; 3]%N.

Definition m : list byte := [x6d].
Definition start : BlockNumber * world :=
  (10, ((genesis, (members.1, (GenericFunc.genesis, {| confirmed_queue := [m]; booked_queue := [] |}))), members.2)).

(** Members 1 and 3 agree, member 2 reports other hardware. *)
Definition report (a : AccountId) : CommitteeUploadInfo :=
  CommitteeUploadInfo_default <| machine_id := m |> <| is_support := true |>
    <| gpu_num := if bool_decide (a = 2%N) then 8 else 4 |> <| rand_str := [if bool_decide (a = 1%N) then x61 else x62] |>.
Definition commit (a : AccountId) : Act := Do (Signed a) (SubmitConfirmHash m (hash (blake2_128 T) (report a))).
Definition reveal (a : AccountId) : Act := Do (Signed a) (SubmitConfirmRaw (report a)).
Definition verified : BlockNumber * world :=
  exec T ([NextBlock] ++ (commit <$> [1; 2; 3]%N) ++ (reveal <$> [1; 2; 3]%N) ++ [NextBlock]) start.
Definition appealed : BlockNumber * world := exec1 T (Do (Signed 2%N) (ApplySlashReview 0 [])) verified.
Definition next : BlockNumber * world := exec1 T NextBlock appealed.
Definition cancelled : BlockNumber * world := exec1 T (Do Root (CancelSlash 0)) appealed.

(** The stake recorded for [a], and the balance reserved. *)
Definition stakes (a : AccountId) (c : BlockNumber * world) : Balance * Balance :=
  (Committee.staked_amount (Committee.committee_stake c.2.1.2.1 a), reserved_balance c.2.2 a).

Lemma oc_verified_reachable : reachable T (verified.1, verified.2).
Proof. rewrite <-surjective_pairing. apply exec_reachable. Qed.
Lemma appealed_reachable : reachable T appealed.
Proof.
  destruct oc_verified_reachable as (now & h & l & Hr). exists now, h, l.
  rewrite <-surjective_pairing in Hr. etrans; [exact Hr|]. apply exec1_rtc.
Qed.
Lemma oc_appealed_reachable : reachable T (appealed.1, appealed.2).
Proof. rewrite <-surjective_pairing. exact appealed_reachable. Qed.
Lemma cancelled_reachable : reachable T cancelled.
Proof.
  destruct appealed_reachable as (now & h & l & Hr). exists now, h, l. etrans; [exact Hr|]. apply exec1_rtc.
Qed.
Lemma appeal_recorded : is_Some (PendingSlashReview appealed.2.1.1 !! 0).
Proof. eexists. vm_compute. reflexivity. Qed.

(** Cancelling a slash that a committee member appealed refunds the member's
    deposit twice, once directly and once through the change of the total stake:
    in the run, the member's recorded and reserved stake are both 110 with the
    deposit of 10, and afterwards 100 is recorded and only 90 reserved. *)
Theorem oc_cancel_refunds_deposit_twice :
  reachable T cancelled ∧ (dispatch T appealed.1 Root (CancelSlash 0) appealed.2).1 = Ok tt ∧
  (slash_result <$> PendingSlash cancelled.2.1.1 !! 0) = Some Canceled ∧
  stakes 2%N verified = (100, 100) ∧ stakes 2%N appealed = (110, 110) ∧ stakes 2%N cancelled = (100, 90).
Proof. split; [exact cancelled_reachable|]. vm_compute. split_and!; reflexivity. Qed.

Lemma oc_work_index_covers_witness :
  ∃ seqs h', get_work_index start.2 = (Ok (Some seqs), ((start.2.1.1, h'), start.2.2)) ∧
    NoDup (who <$> seqs) ∧ ∀ k sq, seqs !! k = Some sq → index sq = [k; k + 3; k + 6]%nat.
Proof.
  destruct (oc_work_index_covers start.2 [1; 2; 3]%N) as (seqs & h' & Hrun & _ & Hnd & _ & Hix & _).
  - vm_compute. reflexivity.
  - repeat constructor; set_solver.
  - exists seqs, h'. split_and!; [exact Hrun|exact Hnd|exact Hix].
Defined.

Lemma oc_reachable_invariant_witness :
  UnhandledSlash appealed.2.1.1 = [0] ∧ BookInv T appealed.2.1.1 ∧ SlashInv appealed.1 appealed.2.1.1.
Proof.
  split; [vm_compute; reflexivity|].
  exact (oc_reachable_invariant T appealed.1 appealed.2 oc_appealed_reachable).
Defined.

Lemma cancel_step : step T appealed cancelled.
Proof. apply step_do. Qed.
Lemma cancel_result :
  ∃ i j, PendingSlash appealed.2.1.1 !! 0 = Some i ∧ slash_result i = Pending ∧
    PendingSlash cancelled.2.1.1 !! 0 = Some j ∧ slash_result j = Canceled.
Proof. eexists _, _. vm_compute. split_and!; reflexivity. Qed.
#[local] Strategy 1000 [appealed verified cancelled].

Lemma oc_slash_lifecycle_witness :
  ∃ i', PendingSlash cancelled.2.1.1 !! 0 = Some i' ∧
    slash_result i' = Canceled ∧ appealed.1 < slash_exec_time i'.
Proof.
  destruct cancel_result as (i & j & Hi & Hp & Hj & Hc).
  destruct (oc_slash_lifecycle T appealed cancelled 0 i appealed_reachable cancel_step Hi)
    as (i' & Hi' & Hsame & Hcase).
  pose proof (eq_trans (eq_sym Hj) Hi') as [= ->].
  exists i'. split; [exact Hi'|]. split; [exact Hc|]. rewrite Hc, Hp in Hcase.
  destruct Hcase as [?|[(_ & ? & _)|(_ & _ & Hlt & _)]]; [discriminate..|]. rewrite Hsame. exact Hlt.
Defined.

Lemma oc_hooks_never_panic_witness :
  (on_finalize verified.1 verified.2).1 ≠ Err Panic ∧
  (on_initialize (verified.1 + 1) (on_finalize verified.1 verified.2).2).1 ≠ Err Panic.
Proof.
  refine (oc_hooks_never_panic T verified.1 verified.2 oc_verified_reachable _).
  vm_compute. discriminate.
Defined.

Lemma oc_appeal_punished_before_due_witness :
  stakes 2%N appealed = (110, 110) ∧ stakes 2%N next = (100, 100) ∧
  PendingSlashReview next.2.1.1 !! 0 = None ∧ free_balance next.2.2 100%N = 11 ∧
  ∃ i, PendingSlash appealed.2.1.1 !! 0 = Some i ∧
    (slash_exec_time i < 30000 → do_a_pending_review 30000 0 appealed.2 = (Ok tt, appealed.2)).
Proof.
  do 4 (split; [vm_compute; reflexivity|]). destruct appeal_recorded as [r Hr].
  destruct (oc_appeal_punished_before_due T appealed.1 appealed.2 0 r 30000 oc_appealed_reachable Hr)
    as (i & Hi & Hlate & _).
  exists i. split; [exact Hi|exact Hlate].
Defined.

(** Member 3 did not report and members 1 and 2 disagreed: their stakes in use
    were released at the summary, and the slash is due. *)
Definition unruly_slash : OCPendingSlashInfo := {|
  slash_machine_id := m; machine_stash := None; stash_slash_amount := 0;
  inconsistent_committee := [1; 2]%N; unruly_committee := [3]%N; reward_committee := [];
  committee_stake := 10; slash_time := 10; slash_exec_time := 28810;
  book_result := BookNoConsensus; slash_result := Pending |}.
Definition due : world :=
  ((genesis <| NextSlashId := 1 |> <| PendingSlash := {[0 := unruly_slash]} |> <| UnhandledSlash := [0] |>,
    ((Committee.change_used_stake 3%N 10 true members).2.1,
     (GenericFunc.genesis, {| confirmed_queue := []; booked_queue := [] |}))), members.2).
Definition once : world := (check_and_exec_pending_slash 28810 due).2.

Lemma oc_failed_slash_repeats_witness :
  ∃ c', foldl (λ w t, (check_and_exec_pending_slash t w).2) once [28811; 28812; 28813] =
      ((once.1.1, (c', once.1.2.2)), once.2) ∧
    Committee.staked_amount (Committee.committee_stake c' 3%N) = 60 ∧ reserved_balance once.2 3%N = 100.
Proof.
  assert (stuck 0 unruly_slash 3%N [] once.1.1 once.1.2.1) as Hs
    by (split; vm_compute; reflexivity).
  destruct (oc_failed_slash_repeats [28811; 28812; 28813] 0 unruly_slash 3%N [] once.1.1 once.1.2.1
    once.1.2.2 once.2 Hs) as (c' & Hrun & Hst & _).
  - repeat constructor; simpl; lia.
  - simpl. lia.
  - vm_compute. discriminate.
  - exists c'. rewrite <-!surjective_pairing in Hrun. split; [exact Hrun|]. split; [|vm_compute; reflexivity].
    rewrite Hst. vm_compute. reflexivity.
Defined.
End Demo.
End OnlineRuns.
