(* ===== verification/RentMachine.v ===== *)
(** * pallet-rent-machine

    A machine is rented GPU by GPU: a renter reserves the fee of an order, has
    fifteen minutes to confirm it, which pays the machine's owner and burns a
    part, and may extend it; the block hooks cancel unconfirmed orders and end
    finished ones. Models src/pallets/rent-machine/src/lib.rs over the
    interfaces of RentalInterfaces.v. *)
From stdpp Require Import base gmap fin_maps list numbers relations.
From Stdlib Require Import ZArith Lia Strings.Byte.
From S2P Require Import Prelude Currency Interfaces ItemList VerifyOnline RentalTypes RentalInterfaces.

Module RentMachine.
Import ItemList RentOrder.
Abbreviation MachineId := (list byte) (only parsing).
Abbreviation H160 := N (only parsing).

Definition HALF_HOUR : Z := 30 * VerifyOnline.ONE_MINUTE.
Definition WAITING_CONFIRMING_DELAY : Z := 15 * VerifyOnline.ONE_MINUTE.

Inductive Event :=
| PayTxFee (who : AccountId) (v : Balance)
| ConfirmRentEvent (id : Z) (who : AccountId) (m : MachineId) (num : Z) (d : BlockNumber) (v : Balance)
| Rent (id : Z) (who : AccountId) (m : MachineId) (num : Z) (d : BlockNumber) (v : Balance)
| Relet (id : Z) (who : AccountId) (m : MachineId) (num : Z) (d : BlockNumber) (v : Balance)
| SetEvmAddress (e : H160) (who : AccountId).

Inductive Error :=
| AccountAlreadyExist | MachineNotRentable | Overflow | InsufficientValue | ExpiredConfirm
| NoOrderExist | StatusNotAllowed | UnlockToPayFeeFailed | UndefinedRentPot | PayTxFeeFailed
| GetMachinePriceFailed | OnlyHalfHourAllowed | GPUNotEnough | NotMachineRenter | Unknown
| ReletTooShort | NotMachineOwner | SignVerifiedFailed | MachineNotRented | MachineNotFound
| MoreThanOneRenter.

(** Why a call has no result: its error, or a loop that does not end. *)
Inductive Stop := Fails (e : DispatchError Error) | Hangs.
Definition error (e : Error) : Stop := Fails (Module e).

Record State := {
  UserOrder : gmap AccountId (list Z);
  MachineRentOrder : gmap MachineId MachineGPUOrder;
  MachineRenterRentedOrders : gmap (MachineId * AccountId) (list MachineRenterRentedOrderDetail);
  NextRentId : Z;
  RentInfo : gmap Z RentOrderDetail;
  ConfirmingOrder : gmap BlockNumber (list Z);
  RentEnding : gmap BlockNumber (list Z);
  UserTotalStake : gmap AccountId Balance;
  RentFeePot : option AccountId;
  MaximumRentalDuration : Z;
  EvmAddress2Account : gmap H160 AccountId;
  events : list Event;
}.
#[export] Instance State_eta : RecordEta State := λ s,
  Build_State (UserOrder s) (MachineRentOrder s) (MachineRenterRentedOrders s) (NextRentId s)
    (RentInfo s) (ConfirmingOrder s) (RentEnding s) (UserTotalStake s) (RentFeePot s)
    (MaximumRentalDuration s) (EvmAddress2Account s) (events s).

Definition genesis : State := {|
  UserOrder := ∅; MachineRentOrder := ∅; MachineRenterRentedOrders := ∅; NextRentId := 0;
  RentInfo := ∅; ConfirmingOrder := ∅; RentEnding := ∅; UserTotalStake := ∅; RentFeePot := None;
  MaximumRentalDuration := 60; EvmAddress2Account := ∅; events := [] |}.

Definition deposit_event (e : Event) (s : State) : State := s <| events ::= λ es, es ++ [e] |>.
Definition machine_rent_order (s : State) (m : MachineId) : MachineGPUOrder :=
  default MachineGPUOrder_default (MachineRentOrder s !! m).
Definition user_total_stake (s : State) (a : AccountId) : Balance := default 0 (UserTotalStake s !! a).

(** Maps to sorted lists of order ids: adding an id, and removing one, which
    removes the entry with its last id. *)
Definition list_at `{Countable K} (m : gmap K (list Z)) (k : K) : list Z := default [] (m !! k).
Definition add_to `{Countable K} (k : K) (id : Z) (m : gmap K (list Z)) : gmap K (list Z) :=
  <[k := add_item (list_at m k) id]> m.
Definition rm_from `{Countable K} (k : K) (id : Z) (m : gmap K (list Z)) : gmap K (list Z) :=
  let l := rm_item (list_at m k) id in
  if Nat.eqb (length l) 0 then delete k m else <[k := l]> m.

Definition push_rented (m : MachineId) (id : Z) (i : RentOrderDetail) (s : State) : State :=
  s <| MachineRenterRentedOrders ::= λ x, <[(m, renter i) :=
    default [] (x !! (m, renter i)) ++
    [{| rent_id_of := id; rented_start := rent_start i; rented_end := rent_end i |}]]> x |>.

(** [loop { if !contains_key(next(rent_id)) { break } }]: the candidate does not
    change from one iteration to the next, so the loop ends at once or never. *)
Definition get_new_rent_id (s : State) : option (Z * State) :=
  let rent_id := NextRentId s in
  let new_rent_id := if rent_id =? U64_MAX then 0 else rent_id + 1 in
  if decide (is_Some (RentInfo s !! new_rent_id)) then None
  else Some (rent_id, s <| NextRentId := new_rent_id |>).

Section pallet.
Context {L RT : Type} `{!ReservableCurrency L} `{!RTOps L RT, !TxFee L RT, !RentPrice RT} {P : PerThing}.
Abbreviation MR := (M ((State * RT) * L) Stop).
Abbreviation MU := (M ((State * RT) * L) unit).

Definition rt_gets {E A} (f : RT → A) : M ((State * RT) * L) E A := gets (λ w, f w.1.2).
Definition fails {A} (m : M ((State * RT) * L) (DispatchError Error) A) : MR A := λ w,
  match m w with (Ok a, w') => (Ok a, w') | (Err e, w') => (Err (Fails e), w') end.

Definition new_rent_id : MR Z := λ w,
  match get_new_rent_id w.1.1 with
  | Some (id, s) => (Ok id, ((s, w.1.2), w.2))
  | None => (Err Hangs, w)
  end.

Definition change_renter_total_stake (who : AccountId) (amount : Balance) (is_add : bool) : MU unit :=
  current_stake ← own_gets (λ s, user_total_stake s who);
  new_stake ← (if is_add then
    ok ← gets (λ w, can_reserve who amount w.2);
    ensure ok tt;;
    m_reserve who amount tt;;
    ok_or (checked_add U128_MAX current_stake amount) tt
  else
    ensure (amount <=? current_stake) tt;;
    m_unreserve who amount;;
    ok_or (checked_sub current_stake amount) tt);
  own_modify (λ s, s <| UserTotalStake ::= <[who := new_stake]> |>).

(** The price of a duration in the unit of the oracle's values, 64 bits. *)
Definition fee_value (machine_price : Z) (duration : BlockNumber) : option Z :=
  product ← checked_mul U64_MAX machine_price duration;
  checked_div product VerifyOnline.ONE_DAY.

Definition pay_rent_fee (who : AccountId) (m : MachineId) (stash : AccountId) (fee_amount : Balance) :
    MR unit :=
  maybe_pot ← own_gets RentFeePot;
  rent_fee_pot ← ok_or maybe_pot (error UndefinedRentPot);
  destroy_percent ← rt_gets rt_rent_fee_destroy_percent;
  let fee_to_destroy := per_mul destroy_percent fee_amount in
  fee_to_stash ← ok_or (checked_sub fee_amount fee_to_destroy) (error Overflow);
  m_transfer who stash fee_to_stash KeepAlive (Fails CurrencyError);;
  m_transfer who rent_fee_pot fee_to_destroy KeepAlive (Fails CurrencyError);;
  ignore (with_callee (E:=unit) (rt_change_machine_rent_fee stash m fee_to_destroy fee_to_stash)).

(** ** Renting *)

Definition record_order (id : Z) (i : RentOrderDetail) (o : MachineGPUOrder) (s : State) : State :=
  s <| RentInfo ::= <[id := i]> |>
    <| UserOrder ::= add_to (renter i) id |>
    <| RentEnding ::= add_to (rent_end i) id |>
    <| ConfirmingOrder ::= add_to (VerifyOnline.add_block (rent_start i) WAITING_CONFIRMING_DELAY) id |>
    <| MachineRentOrder ::= <[machine_id i := o]> |>.

Definition rent_machine_by_block (now : BlockNumber) (who : AccountId) (m : MachineId)
    (rent_gpu_num : Z) (duration : BlockNumber) : MR unit :=
  maybe_info ← rt_gets (λ h, rt_machines_info h m);
  machine_info ← ok_or maybe_info (error Unknown);
  machine_rented_gpu ← rt_gets (λ h, rt_machine_rented_gpu h m);
  let gpu_num := MachineInfo.gpu_num machine_info in
  if (gpu_num =? 0) || (duration =? 0) then mret tt
  else
    ensure ((rent_gpu_num + machine_rented_gpu) mod 2 ^ 32 <=? gpu_num) (error GPUNotEnough);;
    ensure (duration mod HALF_HOUR =? 0) (error OnlyHalfHourAllowed);;
    ensure (bool_decide (MachineInfo.machine_status machine_info = MachineInfo.Online) ||
            bool_decide (MachineInfo.machine_status machine_info = MachineInfo.Rented))
      (error MachineNotRentable);;
    maximum ← own_gets MaximumRentalDuration;
    let duration := Z.min duration (saturating_mul U32_MAX maximum VerifyOnline.ONE_DAY) in
    map_err (error PayTxFeeFailed) (with_callee (pay_fixed_tx_fee who));;
    maybe_price ← rt_gets (λ h,
      rt_get_machine_price h (MachineInfo.calc_point machine_info) rent_gpu_num gpu_num);
    machine_price ← ok_or maybe_price (error GetMachinePriceFailed);
    rent_fee_value ← ok_or (fee_value machine_price duration) (error Overflow);
    maybe_fee ← rt_gets (λ h, dbc_amount_by_value h rent_fee_value);
    rent_fee ← ok_or maybe_fee (error Overflow);
    rent_end ← ok_or (checked_add U32_MAX duration now) (error Overflow);
    map_err (error InsufficientValue) (change_renter_total_stake who rent_fee true);;
    rent_id ← new_rent_id;
    o ← own_gets (λ s, machine_rent_order s m);
    let '(rentable_gpu_index, o) := gen_rentable_gpu rent_gpu_num gpu_num o in
    let o := o <| rent_order ::= λ l, add_item l rent_id |> in
    map_err (error Unknown) (with_callee (rt_on_rent_start m rent_gpu_num));;
    own_modify (record_order rent_id
      (new_order m who now rent_end rent_fee rent_gpu_num rentable_gpu_index) o);;
    own_modify (deposit_event (Rent rent_id who m rent_gpu_num duration rent_fee)).

Definition confirm_rent (now : BlockNumber) (origin : Origin) (id : Z) : MR unit :=
  who ← fails (ensure_signed origin);
  maybe_rent ← own_gets (λ s, RentInfo s !! id);
  rent_info ← ok_or maybe_rent (error Unknown);
  let m := machine_id rent_info in
  ensure (bool_decide (renter rent_info = who)) (error NoOrderExist);;
  ensure (bool_decide (rent_status rent_info = WaitingVerifying)) (error NoOrderExist);;
  machine_start_duration ← ok_or (checked_sub now (rent_start rent_info)) (error Overflow);
  ensure (machine_start_duration <=? WAITING_CONFIRMING_DELAY) (error ExpiredConfirm);;
  maybe_info ← rt_gets (λ h, rt_machines_info h m);
  machine_info ← ok_or maybe_info (error Unknown);
  ensure (bool_decide (MachineInfo.machine_status machine_info = MachineInfo.Rented))
    (error StatusNotAllowed);;
  map_err (error UnlockToPayFeeFailed) (change_renter_total_stake who (stake_amount rent_info) false);;
  pay_rent_fee who m (MachineInfo.machine_stash machine_info) (stake_amount rent_info);;
  let rent_fee := stake_amount rent_info in
  let rent_duration := saturating_sub (rent_end rent_info) (rent_start rent_info) in
  let rent_info := (confirm_order now rent_info) <| stake_amount := 0 |> in
  map_err (error Unknown) (with_callee (rt_on_confirmed m who));;
  own_modify (λ s, s <| ConfirmingOrder ::=
    rm_from (VerifyOnline.add_block (rent_start rent_info) WAITING_CONFIRMING_DELAY) id |>);;
  own_modify (push_rented m id rent_info);;
  own_modify (λ s, s <| RentInfo ::= <[id := rent_info]> |>);;
  own_modify (deposit_event (ConfirmRentEvent id who m (gpu_num rent_info) rent_duration rent_fee)).

Definition relet_machine_by_block (now : BlockNumber) (who : AccountId) (id : Z)
    (duration : BlockNumber) : MR unit :=
  maybe_rent ← own_gets (λ s, RentInfo s !! id);
  rent_info ← ok_or maybe_rent (error Unknown);
  let old_rent_end := rent_end rent_info in
  let m := machine_id rent_info in
  ensure (10 * VerifyOnline.ONE_MINUTE <=? duration) (error ReletTooShort);;
  ensure (bool_decide (renter rent_info = who)) (error NotMachineRenter);;
  ensure (bool_decide (rent_status rent_info = Renting)) (error NoOrderExist);;
  maybe_info ← rt_gets (λ h, rt_machines_info h m);
  machine_info ← ok_or maybe_info (error Unknown);
  max_rent_end ← ok_or (checked_add U32_MAX now (60 * VerifyOnline.ONE_DAY)) (error Overflow);
  let wanted_rent_end := VerifyOnline.add_block old_rent_end duration in
  let add_duration := if wanted_rent_end <=? max_rent_end then duration
                      else saturating_sub max_rent_end old_rent_end in
  if add_duration =? 0 then mret tt
  else
    maybe_price ← rt_gets (λ h, rt_get_machine_price h (MachineInfo.calc_point machine_info)
      (gpu_num rent_info) (MachineInfo.gpu_num machine_info));
    machine_price ← ok_or maybe_price (error GetMachinePriceFailed);
    rent_fee_value ← ok_or (fee_value machine_price add_duration) (error Overflow);
    maybe_fee ← rt_gets (λ h, dbc_amount_by_value h rent_fee_value);
    rent_fee ← ok_or maybe_fee (error Overflow);
    user_balance ← gets (λ w, free_balance w.2 who);
    ensure (rent_fee <? user_balance) (error InsufficientValue);;
    pay_rent_fee who m (MachineInfo.machine_stash machine_info) rent_fee;;
    new_end ← ok_or (checked_add U32_MAX (rent_end rent_info) add_duration) (error Overflow);
    let rent_info := rent_info <| rent_end := new_end |> in
    own_modify (λ s, s <| RentEnding ::= rm_from old_rent_end id |>);;
    own_modify (λ s, s <| RentEnding ::= add_to new_end id |>);;
    own_modify (push_rented m id rent_info);;
    own_modify (λ s, s <| RentInfo ::= <[id := rent_info]> |>);;
    own_modify (deposit_event (Relet id who m (gpu_num rent_info) add_duration rent_fee)).

Definition set_rent_fee_pot (origin : Origin) (pot_addr : AccountId) : MR unit :=
  fails (ensure_root origin);;
  own_modify (λ s, s <| RentFeePot := Some pot_addr |>).

Definition rent_machine (now : BlockNumber) (origin : Origin) (m : MachineId) (rent_gpu_num : Z)
    (duration : BlockNumber) : MR unit :=
  who ← fails (ensure_signed origin);
  rent_machine_by_block now who m rent_gpu_num duration.

Definition relet_machine (now : BlockNumber) (origin : Origin) (id : Z) (duration : BlockNumber) : MR unit :=
  who ← fails (ensure_signed origin);
  relet_machine_by_block now who id duration.

(** The first error is a string with the error's name. *)
Definition bond_evm_address (origin : Origin) (m : MachineId) (evm_address : H160) : MR unit :=
  who ← fails (ensure_signed origin);
  maybe_info ← rt_gets (λ h, rt_machines_info h m);
  machine_info ← ok_or maybe_info (error MachineNotFound);
  ensure (bool_decide (MachineInfo.controller machine_info = who) ||
          bool_decide (MachineInfo.machine_stash machine_info = who)) (error NotMachineOwner);;
  own_modify (λ s, s <| EvmAddress2Account ::= <[evm_address := who]> |>);;
  own_modify (deposit_event (SetEvmAddress evm_address who)).

(** ** The hooks *)

(** The records of an order that is over. *)
Definition drop_records (id : Z) (i : RentOrderDetail) (s : State) : State :=
  s <| UserOrder ::= rm_from (renter i) id |>
    <| RentEnding ::= rm_from (rent_end i) id |>
    <| MachineRentOrder ::= λ x, <[machine_id i :=
         clean_expired_order id (gpu_index i) (machine_rent_order s (machine_id i))]> x |>
    <| RentInfo ::= delete id |>.

Definition refund (i : RentOrderDetail) : MU unit :=
  if negb (stake_amount i =? 0) then
    ignore (change_renter_total_stake (renter i) (stake_amount i) false)
  else mret tt.

Definition cancel_unconfirmed (block_number : BlockNumber) (id : Z) : MU unit :=
  maybe_rent ← own_gets (λ s, RentInfo s !! id);
  rent_info ← ok_or maybe_rent tt;
  refund rent_info;;
  own_modify (λ s, s <| ConfirmingOrder ::= rm_from block_number id |>);;
  own_modify (drop_records id rent_info);;
  with_callee (rt_on_confirm_expired (machine_id rent_info) (gpu_num rent_info)).

Definition check_machine_starting_status (block_number : BlockNumber) : MU unit :=
  pending ← own_gets (λ s, ConfirmingOrder s !! block_number);
  match pending with
  | None => mret tt
  | Some pending_confirming => for_each pending_confirming (cancel_unconfirmed block_number)
  end.

Definition is_last_rent (s : State) (m : MachineId) (who : AccountId) : option (bool * bool) :=
  orders ← mapM (λ id, RentInfo s !! id) (rent_order (machine_rent_order s m));
  let machine_order_count := length (filter (λ i, rent_status i = Renting) orders) in
  let renter_order_count := length (filter (λ i, renter i = who) orders) in
  Some ((machine_order_count <? 2)%nat, (renter_order_count <? 2)%nat).

Definition end_rent (block_number : BlockNumber) (id : Z) : MU unit :=
  maybe_rent ← own_gets (λ s, RentInfo s !! id);
  rent_info ← ok_or maybe_rent tt;
  let rent_duration := saturating_sub (rent_end rent_info) (rent_start rent_info) in
  maybe_last ← own_gets (λ s, is_last_rent s (machine_id rent_info) (renter rent_info));
  last ← ok_or maybe_last tt;
  ignore (with_callee (E:=unit) (rt_on_rent_end block_number (machine_id rent_info) (gpu_num rent_info)
    rent_duration last.1 last.2 (renter rent_info)));;
  refund rent_info;;
  own_modify (drop_records id (rent_info <| rent_end := block_number |>)).

Definition check_if_rent_finished (block_number : BlockNumber) : MU unit :=
  pending ← own_gets (λ s, RentEnding s !! block_number);
  match pending with
  | None => mret tt
  | Some pending_ending => for_each pending_ending (end_rent block_number)
  end.

Definition on_finalize (block_number : BlockNumber) : MU unit :=
  ignore (check_machine_starting_status block_number);;
  ignore (check_if_rent_finished block_number).

(** ** Queries *)

Definition get_rent_ids (s : State) (m : MachineId) (who : AccountId) : list Z :=
  filter (λ id, match RentInfo s !! id with
                | Some i => bool_decide (renter i = who) && bool_decide (rent_status i = Renting)
                | None => false
                end = true) (rent_order (machine_rent_order s m)).

Definition get_rent_id_of_renting_dbc_machine_by_owner (s : State) (h : RT) (m : MachineId) : option Z :=
  machine_info ← rt_machines_info h m;
  match rent_order (machine_rent_order s m) with
  | [rent_id] =>
      rent_info ← RentInfo s !! rent_id;
      if bool_decide (rent_status rent_info = Renting) &&
         bool_decide (renter rent_info = MachineInfo.controller machine_info)
      then Some rent_id else None
  | _ => None
  end.

Definition get_machine_calc_point (h : RT) (m : MachineId) : Z :=
  match rt_machines_info h m with Some i => MachineInfo.calc_point i | None => 0 end.
Definition get_machine_cpu_rate (h : RT) (m : MachineId) : Z :=
  match rt_machines_info h m with Some i => MachineInfo.cpu_rate i | None => 0 end.
Definition get_machine_gpu_type_and_mem (h : RT) (m : MachineId) : bytes * Z :=
  match rt_machines_info h m with Some i => MachineInfo.gpu_type_and_mem i | None => ([], 0) end.
Definition get_machine_gpu_num (h : RT) (m : MachineId) : Z :=
  match rt_machines_info h m with Some i => MachineInfo.gpu_num i | None => 0 end.

Definition or_err {A} (o : option A) (e : Error) : result Error A :=
  match o with Some a => Ok a | None => Err e end.
Definition then_do {A B} (r : result Error A) (f : A → result Error B) : result Error B :=
  match r with Ok a => f a | Err e => Err e end.

Definition get_rent_end_at (s : State) (h : RT) (m : MachineId) (id : Z) : result Error BlockNumber :=
  then_do (or_err (rt_machines_info h m) MachineNotFound) (λ machine_info,
  then_do (or_err (RentInfo s !! id) MachineNotRented) (λ rent_info,
  if negb (bool_decide (machine_id rent_info = m)) then Err NotMachineRenter
  else if negb (bool_decide (renter rent_info = MachineInfo.controller machine_info)) &&
          negb (bool_decide (renter rent_info = MachineInfo.machine_stash machine_info))
  then Err NotMachineRenter else Ok (rent_end rent_info))).

Definition is_machine_owner (s : State) (h : RT) (m : MachineId) (evm_address : H160) : result Error bool :=
  then_do (or_err (EvmAddress2Account s !! evm_address) NotMachineOwner) (λ account,
  then_do (or_err (rt_machines_info h m) MachineNotFound) (λ machine_info,
  Ok (bool_decide (MachineInfo.controller machine_info = account) ||
      bool_decide (MachineInfo.machine_stash machine_info = account)))).

(** The price of a machine for a duration. *)
Definition get_usdt_machine_rent_fee (h : RT) (m : MachineId) (duration : BlockNumber)
    (rent_gpu_num : Z) : result Error Z :=
  then_do (or_err (rt_machines_info h m) Unknown) (λ machine_info,
  then_do (or_err (rt_get_machine_price h (MachineInfo.calc_point machine_info) rent_gpu_num
    (MachineInfo.gpu_num machine_info)) GetMachinePriceFailed) (λ machine_price,
  or_err (fee_value machine_price duration) Overflow)).
Definition get_dlc_machine_rent_fee (h : RT) (m : MachineId) (duration : BlockNumber)
    (rent_gpu_num : Z) : result Error Z :=
  then_do (get_usdt_machine_rent_fee h m duration rent_gpu_num) (λ v,
  then_do (or_err (dlc_amount_by_value h ((per_mul (from_rational 25 100) v + v) mod 2 ^ 64)) Overflow)
    (λ rent_fee, Ok (Z.min U64_MAX rent_fee))).
Definition get_dlc_rent_fee_by_calc_point (h : RT) (calc_point : Z) (duration : BlockNumber)
    (rent_gpu_num total_gpu_num : Z) : result Error Z :=
  then_do (or_err (rt_get_machine_price h calc_point rent_gpu_num total_gpu_num) GetMachinePriceFailed)
    (λ machine_price,
  then_do (or_err (fee_value machine_price duration) Overflow) (λ v,
  then_do (or_err (dlc_amount_by_value h v) Overflow) (λ rent_fee, Ok (Z.min U64_MAX rent_fee)))).
Definition get_dbc_machine_rent_fee (h : RT) (m : MachineId) (duration : BlockNumber)
    (rent_gpu_num : Z) : result Error Z :=
  then_do (get_usdt_machine_rent_fee h m duration rent_gpu_num) (λ v,
  then_do (or_err (dbc_amount_by_value h v) Overflow) (λ rent_fee, Ok (Z.min U64_MAX rent_fee))).

(** ** The pallet as a state machine *)

Inductive Call :=
| SetRentFeePot (pot : AccountId)
| RentMachineCall (m : MachineId) (rent_gpu_num : Z) (duration : BlockNumber)
| ConfirmRent (id : Z)
| ReletMachine (id : Z) (duration : BlockNumber)
| BondEvmAddress (m : MachineId) (evm_address : H160).

Definition dispatch (now : BlockNumber) (o : Origin) (c : Call) : MR unit :=
  transactional
    match c with
    | SetRentFeePot pot => set_rent_fee_pot o pot
    | RentMachineCall m n d => rent_machine now o m n d
    | ConfirmRent id => confirm_rent now o id
    | ReletMachine id d => relet_machine now o id d
    | BondEvmAddress m e => bond_evm_address o m e
    end.

(** The arguments have the types of the source. *)
Definition call_typed (c : Call) : Prop :=
  match c with
  | RentMachineCall _ n d => 0 ≤ n ≤ U32_MAX ∧ 0 ≤ d ≤ U32_MAX
  | ReletMachine _ d => 0 ≤ d ≤ U32_MAX
  | _ => True
  end.

(** A call, while order ids are left, or the end of a block. *)
Inductive pallet_step : BlockNumber * ((State * RT) * L) → BlockNumber * ((State * RT) * L) → Prop :=
| step_call now o c w : call_typed c → NextRentId w.1.1 < U64_MAX → pallet_step (now, w) (now, (dispatch now o c w).2)
| step_block now w : pallet_step (now, w) (now + 1, (on_finalize now w).2).
(** The rest of the runtime may do anything in between. *)
Inductive step : BlockNumber * ((State * RT) * L) → BlockNumber * ((State * RT) * L) → Prop :=
| step_own c c' : pallet_step c c' → step c c'
| step_others now s h h' l l' : step (now, ((s, h), l)) (now, ((s, h'), l')).

Definition reachable (c : BlockNumber * ((State * RT) * L)) : Prop :=
  ∃ now h l, rtc step (now, ((genesis, h), l)) c.
End pallet.
End RentMachine.
