(* ===== verification/RentSteps.v ===== *)
(** * pallet-rent-machine: what every step keeps

    The records of the rental pallet agree with each other ([Inv]): the lists of
    orders by renter, machine, end and confirmation hold exactly the orders they
    should, the GPUs in use are those of the orders and no GPU is in two of
    them, and the stake recorded for a renter is the sum of the unconfirmed
    fees. Every call and hook keeps this and the cover of the stakes by reserved
    balances, whatever the machine registry does. *)
From stdpp Require Import base gmap fin_maps list numbers relations.
From Stdlib Require Import ZArith Lia Strings.Byte.
From S2P Require Import Prelude Currency Interfaces ItemList VerifyOnline RentalTypes RentalInterfaces RentMachine.

Module RentSteps.
Import ItemList RentOrder RentMachine.

(** ** Maps to lists of ids *)
Section indexed.
Context `{Countable K}.
Implicit Types (m : gmap K (list Z)) (k : K) (id : Z) (R : K → Z → Prop).

(** The list at [k] holds exactly the ids [R] relates to [k]. *)
Definition indexed m R : Prop := ∀ k, sorted (list_at m k) ∧ ∀ id, id ∈ list_at m k ↔ R k id.

Lemma list_at_add k id m k' :
  list_at (add_to k id m) k' = if decide (k' = k) then add_item (list_at m k) id else list_at m k'.
Proof.
  unfold add_to, list_at at 1. rewrite lookup_insert.
  destruct (decide (k = k')), (decide (k' = k)); by simplify_eq.
Qed.
Lemma list_at_rm k id m k' :
  list_at (rm_from k id m) k' = if decide (k' = k) then rm_item (list_at m k) id else list_at m k'.
Proof.
  unfold rm_from. destruct (Nat.eqb_spec (length (rm_item (list_at m k) id)) 0) as [Hl|Hl];
    unfold list_at at 1; [rewrite lookup_delete|rewrite lookup_insert];
    destruct (decide (k = k')), (decide (k' = k)); simplify_eq; simpl; [|done..].
  by destruct (rm_item (list_at m k) id).
Qed.

Lemma indexed_ext m R R' : (∀ k id, R k id ↔ R' k id) → indexed m R → indexed m R'.
Proof. intros HR Hm k. destruct (Hm k) as [Hs He]. split; [done|]. intros id. by rewrite He. Qed.
Lemma indexed_add m R k id :
  indexed m R → indexed (add_to k id m) (λ k' id', R k' id' ∨ k' = k ∧ id' = id).
Proof.
  intros Hm k'. rewrite list_at_add. destruct (Hm k') as [Hs He]. case_decide as Hk; [subst k'|].
  - destruct (add_item_spec _ id Hs) as [Hs' He']. split; [done|]. intros id'. rewrite He', He. naive_solver.
  - split; [done|]. intros id'. rewrite He. naive_solver.
Qed.
Lemma indexed_rm m R k id :
  indexed m R → indexed (rm_from k id m) (λ k' id', R k' id' ∧ ¬ (k' = k ∧ id' = id)).
Proof.
  intros Hm k'. rewrite list_at_rm. destruct (Hm k') as [Hs He]. case_decide as Hk; [subst k'|].
  - destruct (rm_item_spec _ id Hs) as [Hs' He']. split; [done|]. intros id'. rewrite He', He. naive_solver.
  - split; [done|]. intros id'. rewrite He. naive_solver.
Qed.
End indexed.

(** ** The invariant *)

Section by_key.
Context {K : Type}.
(** [id] is an order whose [f] is [k]. *)
Definition by_key (f : RentOrderDetail → K) (o : gmap Z RentOrderDetail) (k : K) (id : Z) : Prop :=
  ∃ i, o !! id = Some i ∧ f i = k.

Lemma by_key_insert_fresh f o id i k id' :
  o !! id = None →
  by_key f (<[id := i]> o) k id' ↔ by_key f o k id' ∨ k = f i ∧ id' = id.
Proof.
  intros Hn. unfold by_key. destruct (decide (id' = id)) as [->|Hne].
  - rewrite lookup_insert_eq. rewrite Hn. naive_solver.
  - rewrite lookup_insert_ne by done. naive_solver.
Qed.
Lemma by_key_insert f o id i i0 k id' :
  o !! id = Some i0 →
  by_key f (<[id := i]> o) k id' ↔ (by_key f o k id' ∧ ¬ (k = f i0 ∧ id' = id)) ∨ k = f i ∧ id' = id.
Proof.
  intros Hi. unfold by_key. destruct (decide (id' = id)) as [->|Hne].
  - rewrite lookup_insert_eq. rewrite Hi. naive_solver.
  - rewrite lookup_insert_ne by done. naive_solver.
Qed.
Lemma by_key_insert_same f o id i i0 k id' :
  o !! id = Some i0 → f i = f i0 → by_key f (<[id := i]> o) k id' ↔ by_key f o k id'.
Proof.
  intros Hi Hf. unfold by_key. destruct (decide (id' = id)) as [->|Hne].
  - rewrite lookup_insert_eq. rewrite Hi. naive_solver.
  - by rewrite lookup_insert_ne.
Qed.
Lemma by_key_delete f o id i k id' :
  o !! id = Some i →
  by_key f (delete id o) k id' ↔ by_key f o k id' ∧ ¬ (k = f i ∧ id' = id).
Proof.
  intros Hi. unfold by_key. destruct (decide (id' = id)) as [->|Hne].
  - rewrite lookup_delete_eq, Hi. naive_solver.
  - rewrite lookup_delete_ne by done. naive_solver.
Qed.
End by_key.

Definition confirm_block (i : RentOrderDetail) : BlockNumber :=
  VerifyOnline.add_block (rent_start i) WAITING_CONFIRMING_DELAY.
Definition staked_by (a : AccountId) (o : gmap Z RentOrderDetail) : Balance :=
  msum (λ _ i, if decide (renter i = a) then stake_amount i else 0) o.

Record order_ok (i : RentOrderDetail) : Prop := {
  ok_stake : 0 ≤ stake_amount i;
  ok_paid : rent_status i = Renting → stake_amount i = 0;
  ok_status : rent_status i ≠ RentExpired;
  ok_gpus : NoDup (gpu_index i);
}.

(** The order of a machine's GPUs [g], against the orders of [m]. *)
Record gpus_ok (o : gmap Z RentOrderDetail) (m : MachineId) (g : MachineGPUOrder) : Prop := {
  go_sorted : sorted (rent_order g) ∧ sorted (used_gpu g);
  go_orders id : id ∈ rent_order g ↔ by_key machine_id o m id;
  go_used x : x ∈ used_gpu g ↔ ∃ id i, o !! id = Some i ∧ machine_id i = m ∧ x ∈ gpu_index i;
}.

(** The confirmations expected: every waiting order is listed at its block, and
    what is listed there of the existing orders is waiting. *)
Record conf_ok (o : gmap Z RentOrderDetail) (next : Z) (c : gmap BlockNumber (list Z)) : Prop := {
  co_sorted b : sorted (list_at c b);
  co_listed b id : id ∈ list_at c b → id < next ∧
    ∀ i, o !! id = Some i → rent_status i = WaitingVerifying ∧ confirm_block i = b;
  co_waiting id i : o !! id = Some i → rent_status i = WaitingVerifying → id ∈ list_at c (confirm_block i);
}.

Record Inv (s : State) : Prop := {
  inv_next : 0 ≤ NextRentId s ≤ U64_MAX;
  inv_ids id i : RentInfo s !! id = Some i → 0 ≤ id < NextRentId s;
  inv_user : indexed (UserOrder s) (by_key renter (RentInfo s));
  inv_end : indexed (RentEnding s) (by_key rent_end (RentInfo s));
  inv_conf : conf_ok (RentInfo s) (NextRentId s) (ConfirmingOrder s);
  inv_gpus m : gpus_ok (RentInfo s) m (machine_rent_order s m);
  inv_order id i : RentInfo s !! id = Some i → order_ok i;
  inv_exclusive id id' i i' x : RentInfo s !! id = Some i → RentInfo s !! id' = Some i' →
    machine_id i = machine_id i' → x ∈ gpu_index i → x ∈ gpu_index i' → id = id';
  inv_stake a : user_total_stake s a = staked_by a (RentInfo s);
}.

#[export] Instance custodian : Custodian State := user_total_stake.

Lemma genesis_Inv : Inv genesis.
Proof.
  assert (∀ `{Countable K} (f : RentOrderDetail → K), indexed ∅ (by_key f ∅)) as Hidx.
  { intros K ? ? f k. split; [apply sorted_nil|]. intros id. unfold list_at. rewrite lookup_empty.
    split; [by intros ?%not_elem_of_nil|by intros (i & Hi & _)]. }
  split; try done; try apply Hidx.
  - split; [intros b; apply sorted_nil|by intros b id ?%not_elem_of_nil|done].
  - intros m. split; [split; apply sorted_nil|..].
    + intros id. split; [by intros ?%not_elem_of_nil|by intros (i & Hi & _)].
    + intros x. split; [by intros ?%not_elem_of_nil|by intros (id & i & Hi & _)].
Qed.

(** ** One order changes *)
Section orders.
Implicit Types (s : State) (id : Z) (i : RentOrderDetail) (o : gmap Z RentOrderDetail).

Lemma staked_insert_fresh a o id i :
  o !! id = None → staked_by a (<[id := i]> o) = staked_by a o + if decide (renter i = a) then stake_amount i else 0.
Proof. intros Hn. unfold staked_by. rewrite msum_insert_None by done. lia. Qed.
Lemma staked_insert a o id i i0 :
  o !! id = Some i0 → renter i = renter i0 →
  staked_by a (<[id := i]> o) =
    staked_by a o + if decide (renter i0 = a) then stake_amount i - stake_amount i0 else 0.
Proof.
  intros Hi Hr. unfold staked_by. rewrite (msum_insert_Some _ _ _ _ _ Hi), Hr. case_decide; lia.
Qed.
Lemma staked_delete a o id i :
  o !! id = Some i → staked_by a (delete id o) = staked_by a o - if decide (renter i = a) then stake_amount i else 0.
Proof. intros Hi. unfold staked_by. by rewrite (msum_delete _ _ _ _ Hi). Qed.
Lemma staked_ge s id i : Inv s → RentInfo s !! id = Some i → stake_amount i ≤ user_total_stake s (renter i).
Proof.
  intros I Hi. rewrite (inv_stake s I). unfold staked_by.
  pose proof (msum_lookup_le (λ _ j, if decide (renter j = renter i) then stake_amount j else 0) (RentInfo s) id i) as Hle.
  simpl in Hle. rewrite decide_True in Hle by done. apply Hle; [|done].
  intros k j Hj. case_decide; [apply (inv_order s I k j Hj)|lia].
Qed.

(** The invariant reads neither the events, the pot, the addresses nor the
    history of rentals. *)
Definition same_orders s s' : Prop :=
  UserOrder s' = UserOrder s ∧ MachineRentOrder s' = MachineRentOrder s ∧ NextRentId s' = NextRentId s ∧
  RentInfo s' = RentInfo s ∧ ConfirmingOrder s' = ConfirmingOrder s ∧ RentEnding s' = RentEnding s ∧
  UserTotalStake s' = UserTotalStake s.
Lemma Inv_same s s' : same_orders s s' → Inv s → Inv s'.
Proof.
  destruct s, s'. intros (? & ? & ? & ? & ? & ? & ?) []; simpl in *; subst. by split.
Qed.

Lemma gpus_other o o' m g :
  (∀ id, by_key machine_id o' m id ↔ by_key machine_id o m id) →
  (∀ id i, machine_id i = m → o' !! id = Some i → ∃ i', o !! id = Some i' ∧ machine_id i' = m ∧ gpu_index i' = gpu_index i) →
  (∀ id i, machine_id i = m → o !! id = Some i → ∃ i', o' !! id = Some i' ∧ machine_id i' = m ∧ gpu_index i' = gpu_index i) →
  gpus_ok o m g → gpus_ok o' m g.
Proof.
  intros Hk H1 H2 [Hs Ho Hu]. split; [done| |].
  - intros id. by rewrite Ho, Hk.
  - intros x. rewrite Hu. split.
    + intros (id & i & Hi & Hm & Hx). destruct (H2 id i Hm Hi) as (i' & ? & ? & Hg). exists id, i'. by rewrite Hg.
    + intros (id & i & Hi & Hm & Hx). destruct (H1 id i Hm Hi) as (i' & ? & ? & Hg). exists id, i'. by rewrite Hg.
Qed.

Lemma mro_insert s m g m' :
  default MachineGPUOrder_default (<[m := g]> (MachineRentOrder s) !! m') =
    if decide (m' = m) then g else machine_rent_order s m'.
Proof.
  rewrite lookup_insert. unfold machine_rent_order.
  destruct (decide (m = m')), (decide (m' = m)); by simplify_eq.
Qed.
Lemma stake_insert s a v b :
  default 0 (<[a := v]> (UserTotalStake s) !! b) = if decide (b = a) then v else user_total_stake s b.
Proof.
  rewrite lookup_insert. unfold user_total_stake.
  destruct (decide (a = b)), (decide (b = a)); by simplify_eq.
Qed.

(** *** The confirmations *)
Lemma conf_add o c id i :
  conf_ok o id c → rent_status i = WaitingVerifying → conf_ok (<[id := i]> o) (id + 1) (add_to (confirm_block i) id c).
Proof.
  intros [Cs Cl Cw] Hw. split.
  - intros b. rewrite list_at_add. case_decide; [|done]. by apply add_item_spec.
  - intros b id'. rewrite list_at_add. intros Hin.
    assert (id' ∈ list_at c b ∨ b = confirm_block i ∧ id' = id) as [Hin'|[-> ->]].
    { revert Hin. case_decide as Hb; [|auto]. subst b. rewrite (proj2 (add_item_spec _ id (Cs _)) id'). naive_solver. }
    + destruct (Cl b id' Hin') as [Hlt Hj]. split; [lia|]. intros j. rewrite lookup_insert_ne by lia. apply Hj.
    + split; [lia|]. intros j. rewrite lookup_insert_eq. by intros [= <-].
  - intros id' j. rewrite lookup_insert_Some, list_at_add. intros [[<- <-]|[Hne Hj]] Hwj.
    + rewrite decide_True by done. apply add_item_spec; [done|by left].
    + specialize (Cw id' j Hj Hwj). case_decide as Hb; [|done]. apply add_item_spec; [done|].
      right. by rewrite <-Hb.
Qed.
Lemma conf_confirm o c next id i i0 :
  conf_ok o next c → o !! id = Some i0 → rent_status i0 = WaitingVerifying →
  rent_status i ≠ WaitingVerifying → conf_ok (<[id := i]> o) next (rm_from (confirm_block i0) id c).
Proof.
  intros [Cs Cl Cw] Hi Hw0 Hw. split.
  - intros b. rewrite list_at_rm. case_decide; [|done]. by apply rm_item_spec.
  - intros b id'. rewrite list_at_rm. intros Hin.
    assert (id' ∈ list_at c b ∧ id' ≠ id) as [Hin' Hne].
    { revert Hin. case_decide as Hb.
      - subst b. by intros [? ?]%(rm_item_spec _ id (Cs _)).
      - intros Hin. split; [done|]. intros ->. destruct (Cl b id Hin) as [_ Hj]. naive_solver. }
    rewrite lookup_insert_ne by done. by apply Cl.
  - intros id' j. rewrite lookup_insert_Some, list_at_rm. intros [[<- <-]|[Hne Hj]] Hwj; [done|].
    specialize (Cw id' j Hj Hwj). case_decide as Hb; [|done]. apply rm_item_spec; [done|].
    rewrite <-Hb. done.
Qed.
Lemma conf_update o c next id i i0 :
  conf_ok o next c → o !! id = Some i0 → rent_status i = rent_status i0 → confirm_block i = confirm_block i0 →
  conf_ok (<[id := i]> o) next c.
Proof.
  intros [Cs Cl Cw] Hi Hst Hb. split; [done| |].
  - intros b id' Hin. destruct (Cl b id' Hin) as [Hlt Hj]. split; [done|].
    intros j. rewrite lookup_insert_Some. intros [[<- <-]|[_ Hj']]; [|by apply Hj]. rewrite Hst, Hb. by apply Hj.
  - intros id' j. rewrite lookup_insert_Some. intros [[<- <-]|[_ Hj]] Hw; [|by apply Cw].
    rewrite Hb. apply Cw; [done|by rewrite <-Hst].
Qed.
Lemma conf_delete o c next id : conf_ok o next c → conf_ok (delete id o) next c.
Proof.
  intros [Cs Cl Cw]. split; [done| |].
  - intros b id' Hin. destruct (Cl b id' Hin) as [Hlt Hj]. split; [done|].
    intros j [_ Hj']%lookup_delete_Some. by apply Hj.
  - intros id' j [_ Hj]%lookup_delete_Some. by apply Cw.
Qed.
Lemma conf_rm_gone o c next b id : o !! id = None → conf_ok o next c → conf_ok o next (rm_from b id c).
Proof.
  intros Hn [Cs Cl Cw]. split.
  - intros b'. rewrite list_at_rm. case_decide; [|done]. by apply rm_item_spec.
  - intros b' id'. rewrite list_at_rm. case_decide as Hb; [|apply Cl]. subst b'.
    intros [Hin _]%(rm_item_spec _ id (Cs _)). by apply Cl.
  - intros id' j Hj Hw. rewrite list_at_rm. specialize (Cw id' j Hj Hw). case_decide as Hb; [|done].
    apply rm_item_spec; [done|]. rewrite <-Hb. split; [done|congruence].
Qed.

(** *** The GPUs *)
Lemma gpus_update o m g id i i0 :
  o !! id = Some i0 → machine_id i = machine_id i0 → gpu_index i = gpu_index i0 →
  gpus_ok o m g → gpus_ok (<[id := i]> o) m g.
Proof.
  intros Hi Hm Hx. apply gpus_other.
  - intros id'. by apply (by_key_insert_same machine_id o id i i0).
  - intros id' j Hj. rewrite lookup_insert_Some. intros [[<- <-]|[_ ?]]; [exists i0|exists j]; split_and!; congruence.
  - intros id' j Hj Hj'. destruct (decide (id' = id)) as [->|Hne].
    + exists i. rewrite lookup_insert_eq. split_and!; congruence.
    + exists j. by rewrite lookup_insert_ne.
Qed.
Lemma gpus_add_here o g g' id i :
  o !! id = None → gpus_ok o (machine_id i) g → sorted (used_gpu g') →
  rent_order g' = add_item (rent_order g) id →
  (∀ x, x ∈ used_gpu g' ↔ x ∈ used_gpu g ∨ x ∈ gpu_index i) →
  gpus_ok (<[id := i]> o) (machine_id i) g'.
Proof.
  intros Hn [[Hs1 Hs2] Ho Hu] Hs' Hro Hug. destruct (add_item_spec _ id Hs1) as [Hs He]. split.
  - by rewrite Hro.
  - intros id'. rewrite Hro, He, Ho, by_key_insert_fresh by done. naive_solver.
  - intros x. rewrite Hug, Hu. split.
    + intros [(id' & j & Hj & ? & ?)|Hx]; [exists id', j|exists id, i].
      * rewrite lookup_insert_ne by congruence. done.
      * by rewrite lookup_insert_eq.
    + intros (id' & j & Hj & ? & ?). apply lookup_insert_Some in Hj as [[<- <-]|[_ Hj]]; eauto 10.
Qed.
Lemma gpus_add_other o m g id i :
  o !! id = None → m ≠ machine_id i → gpus_ok o m g → gpus_ok (<[id := i]> o) m g.
Proof.
  intros Hn Hm. apply gpus_other.
  - intros id'. rewrite by_key_insert_fresh by done. naive_solver.
  - intros id' j Hj. rewrite lookup_insert_Some. intros [[<- <-]|[_ Hj']]; [congruence|eauto].
  - intros id' j Hj Hj'. exists j. rewrite lookup_insert_ne by congruence. done.
Qed.
Lemma gpus_delete_other o m g id i :
  o !! id = Some i → m ≠ machine_id i → gpus_ok o m g → gpus_ok (delete id o) m g.
Proof.
  intros Hi Hm. apply gpus_other.
  - intros id'. rewrite (by_key_delete machine_id o id i) by done. naive_solver.
  - intros id' j Hj [_ Hj']%lookup_delete_Some. eauto.
  - intros id' j Hj Hj'. exists j. rewrite lookup_delete_ne by congruence. done.
Qed.
Lemma gpus_delete_here o g id i :
  o !! id = Some i →
  (∀ id' i' x, o !! id' = Some i' → machine_id i' = machine_id i → x ∈ gpu_index i → x ∈ gpu_index i' → id' = id) →
  gpus_ok o (machine_id i) g → gpus_ok (delete id o) (machine_id i) (clean_expired_order id (gpu_index i) g).
Proof.
  intros Hi Hex [[Hs1 Hs2] Ho Hu]. destruct (clean_spec id (gpu_index i) g Hs2) as (Hro & Hs & Hx).
  destruct (rm_item_spec _ id Hs1) as [Hs' He]. split.
  - by rewrite Hro.
  - intros id'. rewrite Hro, He, Ho, (by_key_delete machine_id o id i) by done. naive_solver.
  - intros x. rewrite Hx, Hu. split.
    + intros [(id' & j & Hj & Hm & Hin) Hni]. exists id', j.
      rewrite lookup_delete_ne; [done|]. intros ->. congruence.
    + intros (id' & j & [Hne Hj]%lookup_delete_Some & Hm & Hin). split; [eauto 10|].
      intros Hin'. apply Hne. symmetry. by eapply Hex.
Qed.

(** A new order, under the next id, with GPUs that were free. *)
Lemma Inv_add s i g :
  Inv s → NextRentId s < U64_MAX → order_ok i → rent_status i = WaitingVerifying →
  (∀ x, x ∈ gpu_index i → x ∉ used_gpu (machine_rent_order s (machine_id i))) →
  sorted (used_gpu g) →
  rent_order g = add_item (rent_order (machine_rent_order s (machine_id i))) (NextRentId s) →
  (∀ x, x ∈ used_gpu g ↔ x ∈ used_gpu (machine_rent_order s (machine_id i)) ∨ x ∈ gpu_index i) →
  Inv (record_order (NextRentId s) i g
    (s <| UserTotalStake ::= <[renter i := user_total_stake s (renter i) + stake_amount i]> |>
       <| NextRentId := NextRentId s + 1 |>)).
Proof.
  intros I Hmax Hok Hwait Hfree Hsu Hro Hug. set (id := NextRentId s) in *.
  pose proof (inv_next s I) as Hnext. fold id in Hnext.
  assert (RentInfo s !! id = None) as Hn.
  { destruct (RentInfo s !! id) as [j|] eqn:Hj; [|done]. apply (inv_ids s I) in Hj. unfold id in Hj. lia. }
  split; simpl.
  - lia.
  - intros id' j. rewrite lookup_insert_Some. intros [[<- <-]|[_ Hj]]; [lia|].
    apply (inv_ids s I) in Hj. unfold id. lia.
  - eapply indexed_ext; [|apply indexed_add, (inv_user s I)]. intros k id'. by rewrite by_key_insert_fresh.
  - eapply indexed_ext; [|apply indexed_add, (inv_end s I)]. intros k id'. by rewrite by_key_insert_fresh.
  - by apply conf_add; [apply (inv_conf s I)|].
  - intros m. unfold machine_rent_order at 1. simpl. rewrite mro_insert. case_decide as Hm; [subst m|].
    + eapply gpus_add_here; [done|apply (inv_gpus s I)|done..].
    + by apply gpus_add_other; [..|apply (inv_gpus s I)].
  - intros id' j. rewrite lookup_insert_Some. intros [[<- <-]|[_ Hj]]; [done|by apply (inv_order s I id')].
  - intros id1 id2 j1 j2 x. rewrite !lookup_insert_Some.
    intros [[<- <-]|[Hn1 Hj1]] [[<- <-]|[Hn2 Hj2]] Hm Hx1 Hx2; [done|..|by eapply (inv_exclusive s I)].
    + exfalso. apply (Hfree x Hx1). apply (inv_gpus s I). eauto.
    + exfalso. apply (Hfree x Hx2). apply (inv_gpus s I). eauto.
  - intros a. unfold user_total_stake at 1. simpl. rewrite stake_insert, staked_insert_fresh, <-(inv_stake s I) by done.
    destruct (decide (a = renter i)), (decide (renter i = a)); simplify_eq; lia.
Qed.

(** An order is confirmed and paid. *)
Lemma Inv_confirm s id i t :
  Inv s → RentInfo s !! id = Some i → rent_status i = WaitingVerifying →
  Inv (s <| UserTotalStake ::= <[renter i := user_total_stake s (renter i) - stake_amount i]> |>
         <| ConfirmingOrder ::= rm_from (confirm_block i) id |>
         <| RentInfo ::= <[id := (confirm_order t i) <| stake_amount := 0 |>]> |>).
Proof.
  intros I Hi Hw. destruct (inv_order s I id i Hi) as [H1 H2 H3 H4].
  set (i' := (confirm_order t i) <| stake_amount := 0 |>). split; simpl.
  - apply (inv_next s I).
  - intros id' j. rewrite lookup_insert_Some. intros [[<- <-]|[_ Hj]]; by eapply (inv_ids s I).
  - eapply indexed_ext; [|apply (inv_user s I)]. intros k id'. by rewrite (by_key_insert_same renter _ id i' i).
  - eapply indexed_ext; [|apply (inv_end s I)]. intros k id'. by rewrite (by_key_insert_same rent_end _ id i' i).
  - by apply conf_confirm; [apply (inv_conf s I)|..].
  - intros m. by apply (gpus_update (RentInfo s) m _ id i' i); [..|apply (inv_gpus s I)].
  - intros id' j. rewrite lookup_insert_Some. intros [[<- <-]|[_ Hj]]; [|by apply (inv_order s I id')].
    split; simpl; done || lia.
  - intros id1 id2 j1 j2 x. rewrite !lookup_insert_Some.
    intros [[<- <-]|[Hn1 Hj1]] [[<- <-]|[Hn2 Hj2]] Hm Hx1 Hx2; [done|..]; by eapply (inv_exclusive s I).
  - intros a. unfold user_total_stake at 1. simpl.
    rewrite stake_insert, (staked_insert a _ id i' i), <-(inv_stake s I) by done. simpl.
    destruct (decide (a = renter i)), (decide (renter i = a)); simplify_eq; lia.
Qed.

(** An order's end moves. *)
Lemma Inv_relet s id i e :
  Inv s → RentInfo s !! id = Some i →
  Inv (s <| RentEnding ::= λ x, add_to e id (rm_from (rent_end i) id x) |>
         <| RentInfo ::= <[id := i <| rent_end := e |>]> |>).
Proof.
  intros I Hi. set (i' := i <| rent_end := e |>). split; simpl.
  - apply (inv_next s I).
  - intros id' j. rewrite lookup_insert_Some. intros [[<- <-]|[_ Hj]]; by eapply (inv_ids s I).
  - eapply indexed_ext; [|apply (inv_user s I)]. intros k id'. by rewrite (by_key_insert_same renter _ id i' i).
  - eapply indexed_ext; [|apply indexed_add, indexed_rm, (inv_end s I)]. intros k id'.
    by rewrite (by_key_insert rent_end _ id i' i).
  - by apply (conf_update _ _ _ id i' i); [apply (inv_conf s I)|..].
  - intros m. by apply (gpus_update (RentInfo s) m _ id i' i); [..|apply (inv_gpus s I)].
  - intros id' j. rewrite lookup_insert_Some. intros [[<- <-]|[_ Hj]]; [|by apply (inv_order s I id')].
    by destruct (inv_order s I id i Hi).
  - intros id1 id2 j1 j2 x. rewrite !lookup_insert_Some.
    intros [[<- <-]|[Hn1 Hj1]] [[<- <-]|[Hn2 Hj2]] Hm Hx1 Hx2; [done|..]; by eapply (inv_exclusive s I).
  - intros a. unfold user_total_stake at 1. simpl. rewrite (staked_insert a _ id i' i) by done.
    change (user_total_stake s a = staked_by a (RentInfo s) + (if decide (renter i = a) then stake_amount i - stake_amount i else 0)).
    rewrite (inv_stake s I). case_decide; lia.
Qed.

(** An order is over: its records go, and its stake. *)
Lemma Inv_drop s id i u c :
  Inv s → RentInfo s !! id = Some i →
  (∀ a, default 0 (u !! a) = user_total_stake s a - if decide (renter i = a) then stake_amount i else 0) →
  (c = ConfirmingOrder s ∨ ∃ b, c = rm_from b id (ConfirmingOrder s)) →
  Inv (drop_records id i (s <| UserTotalStake := u |> <| ConfirmingOrder := c |>)).
Proof.
  intros I Hi Hu Hc. split; simpl.
  - apply (inv_next s I).
  - intros id' j [_ Hj]%lookup_delete_Some. by eapply (inv_ids s I).
  - eapply indexed_ext; [|apply indexed_rm, (inv_user s I)]. intros k id'. by rewrite by_key_delete.
  - eapply indexed_ext; [|apply indexed_rm, (inv_end s I)]. intros k id'. by rewrite by_key_delete.
  - assert (conf_ok (delete id (RentInfo s)) (NextRentId s) (ConfirmingOrder s)) by (apply conf_delete, (inv_conf s I)).
    destruct Hc as [->|[b ->]]; [done|]. apply conf_rm_gone; [apply lookup_delete_eq|done].
  - intros m. unfold machine_rent_order at 1. simpl. rewrite mro_insert. case_decide as Hm; [subst m|].
    + apply gpus_delete_here; [done| |apply (inv_gpus s I)].
      intros id' j x Hj Hm Hx Hx'. by eapply (inv_exclusive s I).
    + by eapply gpus_delete_other; [..|apply (inv_gpus s I)].
  - intros id' j [_ Hj]%lookup_delete_Some. by apply (inv_order s I id').
  - intros id1 id2 j1 j2 x [_ Hj1]%lookup_delete_Some [_ Hj2]%lookup_delete_Some. by apply (inv_exclusive s I).
  - intros a. unfold user_total_stake at 1. simpl. by rewrite Hu, (staked_delete a _ id i), <-(inv_stake s I).
Qed.
End orders.

(** ** Running the operations *)
Section steps.
Context {L RT : Type} `{!ReservableCurrency L} `{!RTOps L RT, !TxFee L RT, !RentPrice RT} {P : PerThing}.
Abbreviation W := ((State * RT) * L)%type.
Implicit Types (s : State) (w : W) (id : Z) (i : RentOrderDetail).

Lemma fails_Ok {A} (m : M W (DispatchError Error) A) w a w' : fails m w = (Ok a, w') ↔ m w = (Ok a, w').
Proof. unfold fails. destruct (m w) as [[]]; naive_solver. Qed.

Ltac call_inv :=
  run_inv; repeat match goal with Hf : fails _ _ = _ |- _ => apply fails_Ok in Hf; run_inv end.

(** A call of the registry leaves the own storage alone. *)
Lemma callee_own {E A} (m : M (RT * L) E A) w r w' : with_callee m w = (r, w') → w'.1.1 = w.1.1.
Proof. unfold with_callee. by intros [= <- <-]. Qed.
Lemma ignore_callee_own {E} (m : M (RT * L) unit unit) w r w' :
  ignore (E:=E) (with_callee (A:=State) m) w = (r, w') → w'.1.1 = w.1.1.
Proof. unfold ignore. by intros [= <- <-]. Qed.

Lemma stake_add_Ok a v w w' :
  change_renter_total_stake a v true w = (Ok tt, w') →
  ∃ l, reserve a v w.2 = Some l ∧ user_total_stake w.1.1 a + v ≤ U128_MAX ∧
    w' = ((w.1.1 <| UserTotalStake ::= <[a := user_total_stake w.1.1 a + v]> |>, w.1.2), l).
Proof. intros Hrun. unfold change_renter_total_stake in Hrun. run_inv. subst. by eexists. Qed.
Lemma stake_sub_Ok a v w w' :
  change_renter_total_stake a v false w = (Ok tt, w') →
  v ≤ user_total_stake w.1.1 a ∧
  w' = ((w.1.1 <| UserTotalStake ::= <[a := user_total_stake w.1.1 a - v]> |>, w.1.2), (unreserve a v w.2).1).
Proof. intros Hrun. unfold change_renter_total_stake in Hrun. run_inv. by subst. Qed.
Lemma stake_sub_run a v w :
  v ≤ user_total_stake w.1.1 a →
  change_renter_total_stake a v false w =
    (Ok tt, ((w.1.1 <| UserTotalStake ::= <[a := user_total_stake w.1.1 a - v]> |>, w.1.2), (unreserve a v w.2).1)).
Proof.
  intros Hv. unfold change_renter_total_stake, own_gets. rewrite bind_gets.
  assert ((ensure (E:=unit) (v <=? user_total_stake w.1.1 a) tt;; m_unreserve a v;;
    ok_or (checked_sub (user_total_stake w.1.1 a) v) tt) w =
    (Ok (user_total_stake w.1.1 a - v), (w.1, (unreserve a v w.2).1))) as Hrun.
  { unfold ensure. rewrite (proj2 (Z.leb_le _ _) Hv). unfold mbind, M_bind. rewrite m_unreserve_run.
    by rewrite (proj2 (checked_sub_Some _ _ _) (conj eq_refl Hv)). }
  by rewrite (bind_run _ _ _ _ _ Hrun).
Qed.

Lemma pay_rent_fee_Ok a m stash v w w' :
  pay_rent_fee a m stash v w = (Ok tt, w') →
  ∃ pot l1 l2, RentFeePot w.1.1 = Some pot ∧
    let burnt := per_mul (rt_rent_fee_destroy_percent w.1.2) v in
    burnt ≤ v ∧ transfer a stash (v - burnt) KeepAlive w.2 = Some l1 ∧
    transfer a pot burnt KeepAlive l1 = Some l2 ∧
    w' = ((w.1.1, (rt_change_machine_rent_fee stash m burnt (v - burnt) (w.1.2, l2)).2.1),
          (rt_change_machine_rent_fee stash m burnt (v - burnt) (w.1.2, l2)).2.2).
Proof.
  intros Hrun. unfold pay_rent_fee, rt_gets in Hrun. run_inv. subst. eexists _, _, _. cbv zeta.
  split_and!; done.
Qed.

(** *** The calls *)

Lemma new_id_effect w id w' :
  new_rent_id w = (Ok id, w') → NextRentId w.1.1 < U64_MAX →
  id = NextRentId w.1.1 ∧ w' = ((w.1.1 <| NextRentId := NextRentId w.1.1 + 1 |>, w.1.2), w.2).
Proof.
  unfold new_rent_id, get_new_rent_id. intros Hrun Hmax.
  rewrite (proj2 (Z.eqb_neq (NextRentId w.1.1) U64_MAX)) in Hrun by lia. case_decide; [done|]. by simplify_eq.
Qed.

(** What renting does to the own storage: nothing, or a new order under the next
    id, with the first free GPUs. *)
Lemma rent_effect now a m n d w w' :
  RentPriceLaws RT → Inv w.1.1 → NextRentId w.1.1 < U64_MAX → 0 ≤ n →
  rent_machine_by_block now a m n d w = (Ok tt, w') →
  w' = w ∨ ∃ e v total, 
    (∃ info, rt_machines_info w.1.2 m = Some info ∧ total = MachineInfo.gpu_num info) ∧
    (n + rt_machine_rented_gpu w.1.2 m) mod 2 ^ 32 ≤ total ∧
    let g := machine_rent_order w.1.1 m in
    let i := new_order m a now e v n (gen_rentable_gpu n total g).1 in
    0 ≤ v ∧ same_orders (record_order (NextRentId w.1.1) i
        ((gen_rentable_gpu n total g).2 <| rent_order ::= λ l, add_item l (NextRentId w.1.1) |>)
        (w.1.1 <| UserTotalStake ::= <[a := user_total_stake w.1.1 a + v]> |>
               <| NextRentId := NextRentId w.1.1 + 1 |>)) w'.1.1.
Proof.
  intros LP I Hmax Hn Hrun. unfold rent_machine_by_block, rt_gets in Hrun. run_inv. case_match; run_inv; [by left|].
  match goal with Hc : with_callee _ w = (_, ?w1) |- _ => apply callee_own in Hc as Hw1 end.
  match goal with Hs : change_renter_total_stake _ _ _ _ = _ |- _ => apply stake_add_Ok in Hs as (l1 & _ & _ & ->) end.
  match goal with Hd : new_rent_id _ = _ |- _ => apply new_id_effect in Hd as [-> ->]; [|simpl; by rewrite Hw1] end.
  match type of Hrun with context [gen_rentable_gpu ?nn ?tt ?g] =>
    destruct (gen_rentable_gpu nn tt g) as [gpus g'] eqn:Hg; set (total := tt) in * end.
  run_inv. match goal with Hc : with_callee _ _ = (_, ?w1) |- _ => apply callee_own in Hc as Hw2 end.
  simpl in Hw2. rewrite Hw1 in *. right.
  match goal with |- context [new_order m a now ?e ?v n gpus] => exists e, v, total end.
  split; [by eexists|]. split; [done|]. cbv zeta. split.
  - match goal with Hd : dbc_amount_by_value _ _ = Some _ |- _ => apply dbc_amount_typed in Hd as [? _] end. eassumption.
  - change (machine_rent_order _ m) with (machine_rent_order w.1.1 m) in Hg. rewrite Hg. simpl.
    unfold same_orders. simpl. rewrite Hw2. simpl. split_and!; reflexivity.
Qed.

(** The GPUs of a new order: the first free ones. *)
Lemma new_gpus s m n total :
  Inv s → 0 ≤ n →
  let g := machine_rent_order s m in
  let r := gen_rentable_gpu n total g in
  NoDup r.1 ∧ (∀ x, x ∈ r.1 → 0 ≤ x < total ∧ x ∉ used_gpu g) ∧
  r.1 = take (Z.to_nat n) (free_gpus (used_gpu g) 0 (Z.to_nat total)) ∧
  rent_order r.2 = rent_order g ∧ sorted (used_gpu r.2) ∧ ∀ x, x ∈ used_gpu r.2 ↔ x ∈ used_gpu g ∨ x ∈ r.1.
Proof.
  intros I Hn. cbv zeta. destruct (go_sorted _ _ _ (inv_gpus _ I m)) as [_ Hsu].
  destruct (gen_rentable_spec n total (machine_rent_order s m) Hsu Hn) as (Hg1 & Hg2 & Hg3 & Hg4).
  split_and!; try done; rewrite Hg1.
  - eapply sublist_NoDup; [|apply sublist_take]. apply NoDup_filter, NoDup_seqZ.
  - intros x Hin. eapply elem_of_sublist in Hin; [|apply sublist_take].
    apply list_elem_of_filter in Hin as [? Hin%elem_of_seqZ]. split; [lia|done].
Qed.

Lemma rent_Inv now a m n d w w' :
  RentPriceLaws RT → Inv w.1.1 → NextRentId w.1.1 < U64_MAX → 0 ≤ n →
  rent_machine_by_block now a m n d w = (Ok tt, w') → Inv w'.1.1.
Proof.
  intros LP I Hmax Hn Hrun.
  destruct (rent_effect _ _ _ _ _ _ _ LP I Hmax Hn Hrun) as [->|(e & v & total & _ & _ & Hv & Hs)]; [done|].
  destruct (new_gpus _ m n total I Hn) as (Hnd & Hfree & _ & Hg2 & Hg3 & Hg4).
  eapply Inv_same; [exact Hs|]. apply Inv_add; simpl; try done.
  - intros x Hx. by apply Hfree.
  - by rewrite Hg2.
Qed.

Lemma confirm_effect now o id w w' :
  confirm_rent now o id w = (Ok tt, w') →
  ∃ a i info pot l1 l2, o = Signed a ∧ RentInfo w.1.1 !! id = Some i ∧ renter i = a ∧
    rent_status i = WaitingVerifying ∧ 0 ≤ now - rent_start i ≤ WAITING_CONFIRMING_DELAY ∧
    stake_amount i ≤ user_total_stake w.1.1 a ∧
    rt_machines_info w.1.2 (machine_id i) = Some info ∧ RentFeePot w.1.1 = Some pot ∧
    let burnt := per_mul (rt_rent_fee_destroy_percent w.1.2) (stake_amount i) in
    let stash := MachineInfo.machine_stash info in
    burnt ≤ stake_amount i ∧
    transfer a stash (stake_amount i - burnt) KeepAlive (unreserve a (stake_amount i) w.2).1 = Some l1 ∧
    transfer a pot burnt KeepAlive l1 = Some l2 ∧
    same_orders (w.1.1 <| UserTotalStake ::= <[a := user_total_stake w.1.1 a - stake_amount i]> |>
      <| ConfirmingOrder ::= rm_from (confirm_block i) id |>
      <| RentInfo ::= <[id := (confirm_order now i) <| stake_amount := 0 |>]> |>) w'.1.1 ∧
    (w'.1.2, w'.2) = (rt_on_confirmed (machine_id i) a
      (rt_change_machine_rent_fee stash (machine_id i) burnt (stake_amount i - burnt) (w.1.2, l2)).2).2.
Proof.
  intros Hrun. unfold confirm_rent, rt_gets in Hrun. call_inv.
  match goal with Hs : change_renter_total_stake _ _ _ _ = _ |- _ => apply stake_sub_Ok in Hs as [Hle ->] end.
  match goal with Hp : pay_rent_fee _ _ _ _ _ = _ |- _ =>
    apply pay_rent_fee_Ok in Hp as (pot & l1 & l2 & Hpot & Hb & Ht1 & Ht2 & ->) end.
  simpl in *. match goal with Hc : with_callee _ _ = _ |- _ => unfold with_callee in Hc; injection Hc as _ <- end.
  eexists _, _, _, pot, l1, l2. split_and!; simpl; try done; try lia.
  by rewrite <-!surjective_pairing.
Qed.

Lemma relet_effect now a id d w w' :
  relet_machine_by_block now a id d w = (Ok tt, w') →
  w' = w ∨ ∃ i add, RentInfo w.1.1 !! id = Some i ∧ renter i = a ∧ rent_status i = Renting ∧
    (add = d ∨ rent_end i + add = now + 60 * VerifyOnline.ONE_DAY) ∧ 0 < add ∧ rent_end i + add ≤ U32_MAX ∧
    same_orders (w.1.1 <| RentEnding ::= λ x, add_to (rent_end i + add) id (rm_from (rent_end i) id x) |>
      <| RentInfo ::= <[id := i <| rent_end := rent_end i + add |>]> |>) w'.1.1.
Proof.
  intros Hrun. unfold relet_machine_by_block, rt_gets in Hrun. run_inv. 
  match type of Hrun with context [if ?b =? 0 then _ else _] => set (add := b) in * end.
  case_match; run_inv; [by left|].
  match goal with Hp : pay_rent_fee _ _ _ _ _ = _ |- _ =>
    apply pay_rent_fee_Ok in Hp as (pot & l1 & l2 & Hpot & Hb & Ht1 & Ht2 & ->) end.
  simpl in *. subst. right. eexists _, add. split_and!; try done.
  - match goal with Hne : add ≠ 0 |- _ => revert Hne; clear end. unfold add, saturating_sub. clear add.
    case_match; lia.
  - match goal with Hne : add ≠ 0, Hd : _ ≤ d |- _ => revert Hne Hd; clear end. unfold add, saturating_sub.
    clear add. unfold VerifyOnline.ONE_MINUTE. case_match; lia.
Qed.

Lemma dispatch_Inv now o c w :
  RentPriceLaws RT → call_typed c → Inv w.1.1 → NextRentId w.1.1 < U64_MAX → Inv (dispatch now o c w).2.1.1.
Proof.
  intros LP Ht I Hmax. unfold dispatch. apply (transactional_preserves (λ w', Inv w'.1.1)); [done|].
  intros [] w' Hrun. destruct c as [pot|m n d|id|id d|m e]; cbn iota in Hrun.
  - unfold set_rent_fee_pot in Hrun. call_inv. by apply (Inv_same w.1.1).
  - unfold rent_machine in Hrun. call_inv. destruct Ht as [[Hn _] _].
    exact (rent_Inv _ _ _ _ _ _ _ LP I Hmax Hn Hrun).
  - apply confirm_effect in Hrun as (a & i & info & pot & l1 & l2 & -> & Hi & <- & Hw & _ & _ & _ & _ & _ & _ & _ & Hs & _).
    eapply Inv_same; [exact Hs|]. by apply Inv_confirm.
  - unfold relet_machine in Hrun. call_inv.
    apply relet_effect in Hrun as [->|(i & add & Hi & _ & _ & _ & _ & _ & Hs)]; [done|].
    eapply Inv_same; [exact Hs|]. by apply Inv_relet.
  - unfold bond_evm_address, rt_gets in Hrun. call_inv. by apply (Inv_same w.1.1).
Qed.

(** *** The hooks *)

Lemma refund_run w id i :
  Inv w.1.1 → RentInfo w.1.1 !! id = Some i →
  ∃ u l', refund i w = (Ok tt, ((w.1.1 <| UserTotalStake := u |>, w.1.2), l')) ∧
    (∀ a, default 0 (u !! a) = user_total_stake w.1.1 a - if decide (renter i = a) then stake_amount i else 0).
Proof.
  intros I Hi. unfold refund. destruct (Z.eqb_spec (stake_amount i) 0) as [Hz|Hnz]; cbn [negb].
  - exists (UserTotalStake w.1.1), w.2. split; [by destruct w as [[[] ?] ?]|].
    intros a. rewrite Hz. unfold user_total_stake. case_decide; lia.
  - pose proof (staked_ge _ _ _ I Hi) as Hle. unfold ignore. rewrite stake_sub_run by done. simpl.
    eexists _, _. split; [done|]. intros a. rewrite stake_insert. unfold user_total_stake.
    destruct (decide (a = renter i)), (decide (renter i = a)); simplify_eq; lia.
Qed.

Lemma cancel_run b id w :
  Inv w.1.1 →
  match RentInfo w.1.1 !! id with
  | None => cancel_unconfirmed b id w = (Err tt, w)
  | Some i => ∃ u l',
      (∀ a, default 0 (u !! a) = user_total_stake w.1.1 a - if decide (renter i = a) then stake_amount i else 0) ∧
      let s' := drop_records id i (w.1.1 <| UserTotalStake := u |>
        <| ConfirmingOrder := rm_from b id (ConfirmingOrder w.1.1) |>) in
      Inv s' ∧ cancel_unconfirmed b id w =
        with_callee (rt_on_confirm_expired (machine_id i) (gpu_num i)) ((s', w.1.2), l')
  end.
Proof.
  intros I. destruct (RentInfo w.1.1 !! id) as [i|] eqn:Hi.
  - destruct (refund_run w id i I Hi) as (u & l' & Hr & Hu). exists u, l'. split; [done|]. cbv zeta. split.
    + apply Inv_drop; [done..|]. right. by eexists.
    + unfold cancel_unconfirmed, own_gets. rewrite bind_gets, Hi, bind_ok_or, (bind_run _ _ _ _ _ Hr).
      unfold own_modify. by rewrite !bind_modify.
  - unfold cancel_unconfirmed, own_gets. by rewrite bind_gets, Hi.
Qed.

Lemma cancel_loop_Inv b ids w : Inv w.1.1 → Inv (for_each ids (cancel_unconfirmed b) w).2.1.1.
Proof.
  revert w. induction ids as [|id ids IH]; intros w I; [done|]. cbn [for_each].
  pose proof (cancel_run b id w I) as Hc. unfold mbind, M_bind. destruct (RentInfo w.1.1 !! id) as [i|].
  - destruct Hc as (u & l' & _ & I' & Heq). rewrite Heq. unfold with_callee.
    destruct (rt_on_confirm_expired _ _ _) as [[[]|e] [h1 l1]]; simpl in *; [by apply IH|done].
  - by rewrite Hc.
Qed.

(** The orders of a machine are all there to be counted. *)
Lemma last_rent_some s m a : Inv s → is_Some (is_last_rent s m a).
Proof.
  intros I. unfold is_last_rent.
  assert (Forall (λ id, is_Some (RentInfo s !! id)) (rent_order (machine_rent_order s m))) as Hall.
  { apply list.Forall_forall. intros id Hid. apply (go_orders _ _ _ (inv_gpus s I m)) in Hid as (i & Hi & _). eauto. }
  apply mapM_is_Some_2 in Hall as [l Hl]. rewrite Hl. eauto.
Qed.

Lemma end_rent_run b id i w :
  Inv w.1.1 → RentInfo w.1.1 !! id = Some i → rent_end i = b →
  ∃ u h' l', end_rent b id w =
      (Ok tt, ((drop_records id i (w.1.1 <| UserTotalStake := u |>), h'), l')) ∧
    Inv (drop_records id i (w.1.1 <| UserTotalStake := u |>)) ∧
    ∃ lr, h' = (rt_on_rent_end b (machine_id i) (gpu_num i) (saturating_sub (rent_end i) (rent_start i))
      lr.1 lr.2 (renter i) (w.1.2, w.2)).2.1.
Proof.
  intros I Hi Hb. destruct (last_rent_some _ (machine_id i) (renter i) I) as [lr Hlr].
  set (w1 := ((w.1.1, (rt_on_rent_end b (machine_id i) (gpu_num i) (saturating_sub (rent_end i) (rent_start i))
    lr.1 lr.2 (renter i) (w.1.2, w.2)).2.1), (rt_on_rent_end b (machine_id i) (gpu_num i)
    (saturating_sub (rent_end i) (rent_start i)) lr.1 lr.2 (renter i) (w.1.2, w.2)).2.2)).
  destruct (refund_run w1 id i I Hi) as (u & l' & Hr & Hu).
  exists u, w1.1.2, l'. split_and!; [| |by exists lr].
  - unfold end_rent, own_gets. rewrite bind_gets, Hi, bind_ok_or, bind_gets, Hlr, bind_ok_or.
    rewrite (bind_run _ _ w tt w1) by done. rewrite (bind_run _ _ _ _ _ Hr).
    replace (i <| rent_end := b |>) with i by (rewrite <-Hb; by destruct i). done.
  - pose proof (Inv_drop w.1.1 id i u (ConfirmingOrder w.1.1) I Hi Hu (or_introl eq_refl)) as I'.
    revert I'. by apply Inv_same.
Qed.

Lemma end_loop_run b ids w :
  Inv w.1.1 → NoDup ids → (∀ id, id ∈ ids → by_key rent_end (RentInfo w.1.1) b id) →
  ∃ w', for_each ids (end_rent b) w = (Ok tt, w') ∧ Inv w'.1.1 ∧
    ∀ id, RentInfo w'.1.1 !! id = if decide (id ∈ ids) then None else RentInfo w.1.1 !! id.
Proof.
  revert w. induction ids as [|id ids IH]; intros w I Hnd Hin.
  { exists w. split_and!; [done..|]. intros id. by rewrite decide_False by apply not_elem_of_nil. }
  apply list.NoDup_cons in Hnd as [Hni Hnd].
  destruct (Hin id) as (i & Hi & Hb); [by left|].
  destruct (end_rent_run b id i w I Hi Hb) as (u & h' & l' & Hr & I' & _).
  destruct (IH ((drop_records id i (w.1.1 <| UserTotalStake := u |>), h'), l')) as (w' & Hr' & I'' & Hl); [done|done| |].
  { intros id' Hid'. simpl. apply (by_key_delete rent_end _ id i); [done|]. split; [apply Hin; by right|].
    intros [_ ->]. done. }
  exists w'. cbn [for_each]. rewrite (bind_run _ _ _ _ _ Hr). split_and!; [done..|].
  intros id'. rewrite Hl. simpl. destruct (decide (id' = id)) as [->|Hne].
  - rewrite decide_False by done. rewrite decide_True by (by left). apply lookup_delete_eq.
  - rewrite lookup_delete_ne by done. destruct (decide (id' ∈ ids)) as [Hd|Hd].
    + by rewrite decide_True by (by right).
    + rewrite decide_False; [done|]. by intros [?|?]%elem_of_cons.
Qed.

(** The hook for the end of orders always succeeds and ends exactly those due. *)
Lemma finished_run b w :
  Inv w.1.1 →
  ∃ w', check_if_rent_finished b w = (Ok tt, w') ∧ Inv w'.1.1 ∧
    ∀ id, RentInfo w'.1.1 !! id =
      i ← RentInfo w.1.1 !! id; if decide (rent_end i = b) then None else Some i.
Proof.
  intros I. destruct (inv_end _ I b) as [Hs He]. unfold check_if_rent_finished, own_gets. rewrite bind_gets.
  unfold list_at in Hs, He. destruct (RentEnding w.1.1 !! b) as [ids|]; simpl in Hs, He.
  - destruct (end_loop_run b ids w I (sorted_NoDup _ Hs)) as (w' & Hr & I' & Hl); [by intros id ?%He|].
    exists w'. split_and!; [done..|]. intros id. rewrite Hl.
    destruct (RentInfo w.1.1 !! id) as [i|] eqn:Hi; simpl; [|by case_decide].
    destruct (decide (rent_end i = b)) as [Hb|Hb].
    + rewrite decide_True; [done|]. apply He. by exists i.
    + rewrite decide_False; [done|]. intros (j & Hj & ?)%He. congruence.
  - exists w. split_and!; [done..|]. intros id. destruct (RentInfo w.1.1 !! id) as [i|] eqn:Hi; simpl; [|done].
    rewrite decide_False; [done|]. intros Hb. apply (not_elem_of_nil id), He. by exists i.
Qed.

Lemma starting_Inv b w : Inv w.1.1 → Inv (check_machine_starting_status b w).2.1.1.
Proof.
  intros I. unfold check_machine_starting_status, own_gets. rewrite bind_gets.
  destruct (ConfirmingOrder w.1.1 !! b); [by apply cancel_loop_Inv|done].
Qed.
Lemma finalize_Inv b w : Inv w.1.1 → Inv (on_finalize b w).2.1.1.
Proof.
  intros I. destruct (finished_run b (check_machine_starting_status b w).2 (starting_Inv b w I)) as (w' & Hr & I' & _).
  unfold on_finalize. rewrite (bind_run _ _ w tt (check_machine_starting_status b w).2) by done.
  unfold ignore. by rewrite Hr.
Qed.

Lemma pallet_step_Inv `{!RentPriceLaws RT} c c' : pallet_step c c' → Inv c.2.1.1 → Inv c'.2.1.1.
Proof.
  intros [now o cl w Ht Hmax|now w] I; simpl in *; [by apply dispatch_Inv|by apply finalize_Inv].
Qed.
Lemma reachable_Inv `{!RentPriceLaws RT} c : reachable c → Inv c.2.1.1.
Proof.
  intros (now & h & l & Hr).
  apply (rtc_invariant step (λ c, Inv c.2.1.1) (now, ((genesis, h), l))); [|apply genesis_Inv|done].
  intros a b [c1 c2 Hp|] I; [by eapply pallet_step_Inv|done].
Qed.
End steps.

(** ** The reserves cover the stakes *)
Section money.
Context {L RT : Type} `{!Custodian RT} `{!ReservableCurrency L, !ReservableCurrencyLaws L}.
Context {P : PerThing} {LP : PerThingLaws P}.
Context `{!RTOps L RT, !RTOpsLaws L RT, !TxFee L RT, !TxFeeLaws L RT, !RentPrice RT, !RentPriceLaws RT}.
Context (ext : AccountId → Z).
Abbreviation W := ((State * RT) * L)%type.
Implicit Types (s : State) (w : W) (id : Z) (i : RentOrderDetail).

Definition funded w : Prop :=
  solvent ext w ∧ ∀ id i, RentInfo w.1.1 !! id = Some i → 0 ≤ stake_amount i.
(** From a funded state, also a failing run ends in a funded state. *)
Definition keeps {E A} (m : M W E A) : Prop := ∀ w, funded w → funded (m w).2.

Lemma keeps_idle {E A} (m : M W E A) : (∀ w, (m w).2 = w) → keeps m.
Proof. intros Hm w Hw. by rewrite Hm. Qed.
Lemma keeps_bind {E A B} (m : M W E A) (k : A → M W E B) : keeps m → (∀ a, keeps (k a)) → keeps (m ≫= k).
Proof.
  intros Hm Hk w Hw. specialize (Hm w Hw). unfold mbind, M_bind.
  destruct (m w) as [[a|e] w1]; [by apply Hk|done].
Qed.
Lemma keeps_gets {E A B} (f : W → A) (k : A → M W E B) :
  (∀ w, funded w → keeps (k (f w))) → keeps (gets f ≫= k).
Proof. intros Hk w Hw. rewrite bind_gets. by apply Hk. Qed.
Lemma keeps_ok_or {E A B} (o : option A) (e : E) (k : A → M W E B) :
  (∀ a, o = Some a → keeps (k a)) → keeps (ok_or o e ≫= k).
Proof. intros Hk w Hw. destruct o as [a|]; [rewrite bind_ok_or; by apply Hk|done]. Qed.
Lemma keeps_ensure {E} b (e : E) : keeps (ensure b e).
Proof. apply keeps_idle. intros w. by destruct b. Qed.
Lemma keeps_mret {E A} (a : A) : keeps (mret a : M W E A).
Proof. by apply keeps_idle. Qed.
Lemma keeps_map_err {E E' A} (e : E) (m : M W E' A) : keeps m → keeps (map_err e m).
Proof. intros Hm w Hw. specialize (Hm w Hw). unfold map_err. by destruct (m w) as [[] ?]. Qed.
Lemma keeps_fails {A} (m : M W (DispatchError Error) A) : keeps m → keeps (fails m).
Proof. intros Hm w Hw. specialize (Hm w Hw). unfold fails. by destruct (m w) as [[] ?]. Qed.
Lemma keeps_ignore {E E' A} (m : M W E' A) : keeps m → keeps (ignore (E:=E) m).
Proof. intros Hm w Hw. exact (Hm w Hw). Qed.
Lemma keeps_for_each {E A} (l : list A) (body : A → M W E unit) : (∀ x, keeps (body x)) → keeps (for_each l body).
Proof. intros Hb. induction l as [|x l IH]; [apply keeps_mret|]. by apply keeps_bind; [apply Hb|intros _]. Qed.
Lemma keeps_modify {E} (f : State → State) :
  (∀ s, UserTotalStake (f s) = UserTotalStake s) →
  (∀ s id i, RentInfo (f s) !! id = Some i → (∀ id' j, RentInfo s !! id' = Some j → 0 ≤ stake_amount j) → 0 ≤ stake_amount i) →
  keeps (own_modify (E:=E) f).
Proof.
  intros Hu Hn w [Hs Hi]. split; simpl; [|naive_solver]. intros a. specialize (Hs a).
  change (ext a + (user_total_stake (f w.1.1) a + held w.1.2 a) ≤ reserved_balance w.2 a).
  unfold user_total_stake. rewrite Hu. exact Hs.
Qed.
Lemma keeps_callee {E A} (m : M (RT * L) E A) :
  (∀ e (x : RT * L), solvent e x → solvent e (m x).2) → keeps (with_callee m).
Proof. intros Hm w [Hs Hi]. split; [|done]. apply with_callee_solvent; [|done]. intros e. apply Hm. Qed.
Lemma keeps_transfer {E} a b v (e : E) : 0 ≤ v → keeps (m_transfer a b v KeepAlive e).
Proof.
  intros Hv w [Hs Hi]. unfold m_transfer. destruct (transfer a b v KeepAlive w.2) as [l|] eqn:Ht; [|done].
  split; [|done]. intros c. specialize (Hs c). apply transfer_keep_alive_spec in Ht as [_ Hm]; [|done].
  destruct (Hm c) as [_ Hr]. simpl in *. lia.
Qed.

(** Recording another stake, and other reserves. *)
Lemma funded_stake w u l :
  (∀ c, default 0 (u !! c) - user_total_stake w.1.1 c ≤ reserved_balance l c - reserved_balance w.2 c) →
  funded w → funded ((w.1.1 <| UserTotalStake := u |>, w.1.2), l).
Proof.
  intros Hd [Hs Hi]. split; [|done]. intros c. specialize (Hs c). specialize (Hd c).
  change (ext c + (user_total_stake w.1.1 c + held w.1.2 c) ≤ reserved_balance w.2 c) in Hs.
  change (ext c + (default 0 (u !! c) + held w.1.2 c) ≤ reserved_balance l c). lia.
Qed.
Lemma keeps_stake a v b : 0 ≤ v → keeps (change_renter_total_stake a v b).
Proof.
  intros Hv w Hw. unfold change_renter_total_stake, own_gets. rewrite bind_gets. destruct b.
  - unfold mbind, M_bind, gets, ensure, m_reserve. simpl. destruct (can_reserve a v w.2); [|done].
    destruct (reserve a v w.2) as [l|] eqn:Hr; [|done]. apply reserve_spec in Hr as [_ Hm]; [|done].
    unfold ok_or, checked_add. destruct (user_total_stake w.1.1 a + v <=? U128_MAX); simpl.
    + apply (funded_stake w (<[a := _]> (UserTotalStake w.1.1)) l); [|done]. intros c. rewrite stake_insert. destruct (Hm c) as [_ ->]. unfold at_account.
      case_decide; [subst c|]; lia.
    + assert (funded ((w.1.1 <| UserTotalStake := UserTotalStake w.1.1 |>, w.1.2), l)) as Hf.
      { apply (funded_stake w (UserTotalStake w.1.1) l); [|done]. intros c. destruct (Hm c) as [_ ->].
        unfold at_account, user_total_stake. case_decide; lia. }
      by destruct w as [[[] ?] ?].
  - unfold mbind, M_bind, ensure. destruct (Z.leb_spec v (user_total_stake w.1.1 a)) as [Hle|Hgt]; [|done].
    rewrite m_unreserve_run. destruct (unreserve_spec a v w.2 Hv) as [_ Hm].
    rewrite (proj2 (checked_sub_Some _ _ _) (conj eq_refl Hle)). simpl.
    apply (funded_stake w (<[a := _]> (UserTotalStake w.1.1))); [|done]. intros c. rewrite stake_insert. destruct (Hm c) as [_ ->]. unfold at_account.
    case_decide; [subst c|]; lia.
Qed.

Lemma keeps_pay a m stash v : 0 ≤ v → keeps (pay_rent_fee a m stash v).
Proof.
  intros Hv. unfold pay_rent_fee, rt_gets. apply keeps_gets. intros w _. apply keeps_ok_or. intros pot _.
  apply keeps_gets. intros w1 _. pose proof (per_mul_bounds _ v (rt_percent_typed w1.1.2) Hv) as Hb.
  apply keeps_ok_or. intros rest [-> _]%checked_sub_Some.
  apply keeps_bind; [apply keeps_transfer; lia|intros _].
  apply keeps_bind; [apply keeps_transfer; lia|intros _].
  apply keeps_ignore, keeps_callee. intros e x. apply (rt_rent_fee_solvent (H:=RT)); lia.
Qed.
#[local] Hint Resolve keeps_ensure keeps_mret : pallet.
#[local] Hint Extern 2 (keeps (own_modify (deposit_event _))) => apply keeps_modify; [done|naive_solver] : pallet.

Lemma keeps_new_id : keeps new_rent_id.
Proof.
  intros w [Hs Hi]. unfold new_rent_id, get_new_rent_id. case_decide; [done|]. simpl. by split.
Qed.

Lemma keeps_record id i g : 0 ≤ stake_amount i → keeps (own_modify (E:=Stop) (record_order id i g)).
Proof.
  intros Hi. apply keeps_modify; [done|]. intros s id' j. simpl. rewrite lookup_insert_Some. naive_solver.
Qed.
Lemma keeps_put id i : 0 ≤ stake_amount i → keeps (own_modify (E:=Stop) (λ s, s <| RentInfo ::= <[id := i]> |>)).
Proof.
  intros Hi. apply keeps_modify; [done|]. intros s id' j. simpl. rewrite lookup_insert_Some. naive_solver.
Qed.

Ltac keep :=
  repeat lazymatch goal with
  | |- keeps (ensure _ _) => apply keeps_ensure
  | |- keeps (mret _) => apply keeps_mret
  | |- keeps (map_err _ _) => apply keeps_map_err
  | |- keeps (fails _) => apply keeps_fails
  | |- keeps (ignore _) => apply keeps_ignore
  | |- keeps (change_renter_total_stake _ _ _) => apply keeps_stake
  | |- keeps (pay_rent_fee _ _ _ _) => apply keeps_pay
  | |- keeps new_rent_id => apply keeps_new_id
  | |- keeps (own_modify (record_order _ _ _)) => apply keeps_record
  | |- keeps (ok_or _ _ ≫= _) => apply keeps_ok_or; intros ? ?
  | |- keeps (gets _ ≫= _) => apply keeps_gets; intros ? ?
  | |- keeps (own_gets _ ≫= _) => apply keeps_gets; intros ? ?
  | |- keeps (rt_gets _ ≫= _) => apply keeps_gets; intros ? ?
  | |- keeps (_ ≫= _) => apply keeps_bind; [|intros ?]
  | |- keeps (with_callee _) => apply keeps_callee; intros ? ?
  | |- keeps (if _ then _ else _) => case_match
  | |- keeps (let '(_, _) := _ in _) => case_match
  | |- keeps (own_modify _) => first [by apply keeps_modify; [done|eauto] | by apply keeps_put]
  end.
Ltac amount :=
  match goal with Hd : dbc_amount_by_value _ _ = Some _ |- _ => apply dbc_amount_typed in Hd as [? _] end; simpl; lia.

Lemma keeps_rent now a m n d : keeps (rent_machine_by_block now a m n d).
Proof.
  unfold rent_machine_by_block. keep; [apply tx_fee_solvent|amount|apply rt_rent_start_solvent|amount].
Qed.
Lemma keeps_confirm now o id : keeps (confirm_rent now o id).
Proof.
  unfold confirm_rent. apply keeps_bind; [by apply keeps_fails, keeps_idle; intros w; destruct o|intros a].
  apply keeps_gets. intros w [_ Hi]. apply keeps_ok_or. intros i Hi'. apply Hi in Hi'.
  keep; try done. apply rt_confirmed_solvent.
Qed.
Lemma keeps_relet now a id d : keeps (relet_machine_by_block now a id d).
Proof.
  unfold relet_machine_by_block. apply keeps_gets. intros w [_ Hi]. apply keeps_ok_or. intros i Hi'.
  apply Hi in Hi'. keep; try done. amount.
Qed.
Lemma keeps_dispatch now o c : keeps (dispatch now o c).
Proof.
  intros w Hw. unfold dispatch. apply (transactional_preserves funded); [done|]. intros [] w' Hrun.
  assert (∀ m : M W Stop unit, keeps m → m w = (Ok tt, w') → funded w') as Hdone.
  { intros m Hm Heq. specialize (Hm w Hw). by rewrite Heq in Hm. }
  assert (∀ A (m : M W (DispatchError Error) A), (∀ w, (m w).2 = w) → keeps (fails m)) as Hfails.
  { intros A m Hm. by apply keeps_fails, keeps_idle. }
  revert Hrun. apply Hdone. destruct c as [pot|m n d|id|id d|m e].
  - apply keeps_bind; [apply Hfails; by intros []; destruct o|intros ?]. apply keeps_modify; [done|eauto].
  - apply keeps_bind; [apply Hfails; by intros []; destruct o|intros ?]. apply keeps_rent.
  - apply keeps_confirm.
  - apply keeps_bind; [apply Hfails; by intros []; destruct o|intros ?]. apply keeps_relet.
  - apply keeps_bind; [apply Hfails; by intros []; destruct o|intros ?]. keep.
Qed.

Lemma keeps_drop {E} id i : keeps (own_modify (E:=E) (drop_records id i)).
Proof. apply keeps_modify; [done|]. intros s id' j. simpl. rewrite lookup_delete_Some. naive_solver. Qed.
Lemma keeps_refund i : 0 ≤ stake_amount i → keeps (refund i).
Proof. intros Hi. unfold refund. by keep. Qed.
Lemma keeps_cancel b id : keeps (cancel_unconfirmed b id).
Proof.
  unfold cancel_unconfirmed. apply keeps_gets. intros w [_ Hi]. apply keeps_ok_or. intros i Hi'. apply Hi in Hi'.
  apply keeps_bind; [by apply keeps_refund|intros _]. apply keeps_bind; [apply keeps_modify; [done|eauto]|intros _].
  apply keeps_bind; [apply keeps_drop|intros _]. keep. apply rt_confirm_expired_solvent.
Qed.
Lemma keeps_end b id : keeps (end_rent b id).
Proof.
  unfold end_rent. apply keeps_gets. intros w [_ Hi]. apply keeps_ok_or. intros i Hi'. apply Hi in Hi'.
  apply keeps_gets. intros w1 _. apply keeps_ok_or. intros lr _.
  apply keeps_bind; [keep; apply rt_rent_end_solvent|intros _].
  apply keeps_bind; [by apply keeps_refund|intros _]. apply keeps_drop.
Qed.
Lemma keeps_finalize b : keeps (on_finalize b).
Proof.
  unfold on_finalize. apply keeps_bind; [|intros _]; apply keeps_ignore, keeps_gets; intros w _.
  - case_match; [|apply keeps_mret]. apply keeps_for_each. intros id. apply keeps_cancel.
  - case_match; [|apply keeps_mret]. apply keeps_for_each. intros id. apply keeps_end.
Qed.

(** No call and no hook of the rental pallet promises more than is reserved:
    the reserved balances keep covering the stakes recorded for the renters, on
    top of what the machine registry and the rest of the runtime hold, also when
    a call of the registry fails half-way. *)
Theorem rm_steps_solvent c c' :
  reachable c → pallet_step c c' → solvent ext c.2 → solvent ext c'.2.
Proof.
  intros Hr Hstep Hs. pose proof (reachable_Inv c Hr) as I.
  assert (funded c.2) as Hf by (split; [done|]; intros id i Hi; apply (inv_order _ I id i Hi)).
  destruct Hstep as [now o cl w _ _|now w]; [apply (keeps_dispatch now o cl w Hf)|apply (keeps_finalize now w Hf)].
Qed.
End money.
End RentSteps.
