(* ===== verification/RentTheorems.v ===== *)
(** * pallet-rent-machine: what renters can rely on

    The reachable states, the GPUs of an order, what confirming an order pays,
    what the block hook ends, and that no call loops; and a run of the pallet. *)
From stdpp Require Import base gmap fin_maps list numbers relations.
From Stdlib Require Import ZArith Lia Strings.Byte.
From S2P Require Import Prelude Currency Interfaces GenericFunc ItemList VerifyOnline RentalTypes RentalInterfaces RentMachine RentSteps.

Module RentTheorems.
Import ItemList RentOrder RentMachine RentSteps.

Section theorems.
Context {L RT : Type} `{!ReservableCurrency L} `{!RTOps L RT, !TxFee L RT, !RentPrice RT} {P : PerThing}.
Context `{!RentPriceLaws RT}.
Abbreviation W := ((State * RT) * L)%type.
Implicit Types (w : W).

(** C11: in every reachable state, whatever the machine registry did, the records
    of the rental pallet agree: the lists of orders by renter, by machine and by
    end hold exactly the orders they should; unconfirmed orders wait at the block
    that cancels them; the GPUs in use of a machine are those of its orders, and
    no GPU belongs to two orders; a confirmed order holds no stake; and the stake
    recorded for a renter is the sum of the fees of its unconfirmed orders. *)
Theorem rm_reachable_invariant now w : reachable (now, w) → Inv w.1.1.
Proof. exact (reachable_Inv (now, w)). Qed.

Lemma free_gpus_enough (used : list Z) n :
  Z.of_nat n - Z.of_nat (length used) ≤ Z.of_nat (length (free_gpus used 0 n)).
Proof.
  unfold free_gpus. set (all := seqZ 0 (Z.of_nat n)).
  assert (length (filter (.∈ used) all) ≤ length used)%nat as Hle.
  { apply submseteq_length, NoDup_submseteq; [apply NoDup_filter, NoDup_seqZ|]. intros x Hx.
    by apply list_elem_of_filter in Hx as [? _]. }
  pose proof (length_filter_split (.∈ used) all) as Hsum.
  unfold all in Hsum at 3. rewrite length_seqZ in Hsum. lia.
Qed.

(** A successful request to rent either asks for nothing (a machine without
    GPUs, no duration) and changes nothing, or records a waiting order of the
    caller under the next id with the first free GPUs of the machine, none of
    which any other order of the machine has; and as many as asked for, if the
    registry counts at least the GPUs in use and the count does not overflow. *)
Theorem rm_rent_exclusive now a m n d w w' :
  reachable (now, w) → NextRentId w.1.1 < U64_MAX → 0 ≤ n ≤ U32_MAX →
  dispatch now (Signed a) (RentMachineCall m n d) w = (Ok tt, w') →
  w' = w ∨ ∃ i info, RentInfo w'.1.1 !! NextRentId w.1.1 = Some i ∧
    rt_machines_info w.1.2 m = Some info ∧
    machine_id i = m ∧ renter i = a ∧ rent_start i = now ∧ rent_status i = WaitingVerifying ∧
    gpu_index i = take (Z.to_nat n)
      (free_gpus (used_gpu (machine_rent_order w.1.1 m)) 0 (Z.to_nat (MachineInfo.gpu_num info))) ∧
    (∀ id' i' x, RentInfo w.1.1 !! id' = Some i' → machine_id i' = m → x ∈ gpu_index i → x ∉ gpu_index i') ∧
    (Z.of_nat (length (used_gpu (machine_rent_order w.1.1 m))) ≤ rt_machine_rented_gpu w.1.2 m →
     n + rt_machine_rented_gpu w.1.2 m < 2 ^ 32 → Z.of_nat (length (gpu_index i)) = n).
Proof.
  intros Hr Hmax [Hn _] Hrun. pose proof (reachable_Inv _ Hr) as I. simpl in I.
  apply transactional_Ok in Hrun. cbn iota in Hrun. unfold rent_machine in Hrun.
  run_inv. match goal with Hf : fails _ _ = _ |- _ => apply fails_Ok in Hf; run_inv end.
  destruct (rent_effect _ _ _ _ _ _ _ _ I Hmax Hn Hrun) as [->|(e & v & total & (info & Hinfo & ->) & Hcount & Hv & Hs)];
    [by left|right].
  destruct (new_gpus _ m n (MachineInfo.gpu_num info) I Hn) as (Hnd & Hfree & Htake & _).
  destruct Hs as (_ & _ & _ & HR & _). simpl in HR.
  eexists _, info. rewrite HR, lookup_insert_eq. split_and!; try done; simpl.
  - intros id' i' x Hi' Hm' Hx Hx'. apply (proj2 (Hfree x Hx)). apply (inv_gpus _ I m). eauto.
  - intros Hused Hwrap. rewrite Htake, length_take.
    pose proof (free_gpus_enough (used_gpu (machine_rent_order w.1.1 m)) (Z.to_nat (MachineInfo.gpu_num info))) as Hf.
    rewrite Z.mod_small in Hcount by lia. lia.
Qed.

(** C12: a successful confirmation is of the caller's own waiting order, at most
    fifteen minutes old; it releases the fee reserved for the order and pays it
    from the caller's free balance, the registry's part to the pot and the rest
    to the machine's stash and nothing else, before the registry is told; and the
    order is then renting and holds no stake. *)
Theorem rm_confirm_pays_exactly `{!Custodian RT} `{!ReservableCurrencyLaws L} `{!PerThingLaws P} `{!RTOpsLaws L RT}
    ext now o id w w' :
  reachable (now, w) → solvent ext w → (∀ b, 0 ≤ ext b + held w.1.2 b) →
  dispatch now o (ConfirmRent id) w = (Ok tt, w') →
  ∃ a i info pot l2, o = Signed a ∧ RentInfo w.1.1 !! id = Some i ∧ renter i = a ∧
    rent_status i = WaitingVerifying ∧ 0 ≤ now - rent_start i ≤ WAITING_CONFIRMING_DELAY ∧
    rt_machines_info w.1.2 (machine_id i) = Some info ∧ RentFeePot w.1.1 = Some pot ∧
    RentInfo w'.1.1 !! id = Some ((confirm_order now i) <| stake_amount := 0 |>) ∧
    let v := stake_amount i in
    let burnt := per_mul (rt_rent_fee_destroy_percent w.1.2) v in
    let stash := MachineInfo.machine_stash info in
    0 ≤ burnt ≤ v ∧
    moves w.2 l2 (λ c, at_account stash (v - burnt) c + at_account pot burnt c) (at_account a (- v)) ∧
    (w'.1.2, w'.2) = (rt_on_confirmed (machine_id i) a
      (rt_change_machine_rent_fee stash (machine_id i) burnt (v - burnt) (w.1.2, l2)).2).2.
Proof.
  intros Hr Hs Hext Hrun. pose proof (reachable_Inv _ Hr) as I. simpl in I.
  apply transactional_Ok in Hrun. cbn iota in Hrun.
  apply confirm_effect in Hrun as (a & i & info & pot & l1 & l2 & -> & Hi & Ha & Hw & Ht & Hle & Hinfo & Hpot & Hb & H1 & H2 & Hso & Hreg).
  exists a, i, info, pot, l2. destruct (inv_order _ I id i Hi) as [Hv _ _ _].
  pose proof (per_mul_bounds _ _ (rt_percent_typed w.1.2) Hv) as Hbb.
  destruct Hso as (_ & _ & _ & HR & _). simpl in HR.
  cbv zeta. split_and!; try done; try lia; [by rewrite HR, lookup_insert_eq|].
  specialize (Hs a). specialize (Hext a).
  change (ext a + (user_total_stake w.1.1 a + held w.1.2 a) ≤ reserved_balance w.2 a) in Hs.
  destruct (unreserve_spec a (stake_amount i) w.2 Hv) as [_ Hm]. rewrite Z.min_l in Hm by lia.
  apply transfer_keep_alive_spec in H1 as [_ Hm1]; [|lia]. apply transfer_keep_alive_spec in H2 as [_ Hm2]; [|lia].
  intros c. destruct (Hm c) as [E1 E2], (Hm1 c) as [E3 E4], (Hm2 c) as [E5 E6].
  rewrite E5, E6, E3, E4, E1, E2. unfold at_account. split; repeat case_decide; lia.
Qed.

(** *** The hook *)

(** Why the loop over the unconfirmed orders [cancelled ++ rest] stopped after
    [cancelled]: there is no other, or the next one does not exist, or the
    registry refused the last one, whose records were gone by then. *)
Definition stopped (s : State) (cancelled rest : list Z) : Prop :=
  rest = [] ∨ (∃ id ids, rest = id :: ids ∧ RentInfo s !! id = None) ∨
  (∃ id i x, last cancelled = Some id ∧ RentInfo s !! id = Some i ∧
     (rt_on_confirm_expired (L:=L) (H:=RT) (machine_id i) (gpu_num i) x).1 ≠ Ok tt).

Lemma cancel_loop_run b ids w :
  Inv w.1.1 → NoDup ids →
  ∃ cancelled rest, ids = cancelled ++ rest ∧ stopped w.1.1 cancelled rest ∧
    ∀ id, RentInfo (for_each ids (cancel_unconfirmed b) w).2.1.1 !! id =
      if decide (id ∈ cancelled) then None else RentInfo w.1.1 !! id.
Proof.
  revert w. induction ids as [|id ids IH]; intros w I Hnd.
  { exists [], []. split_and!; [done|by left|]. intros id. by rewrite decide_False by apply not_elem_of_nil. }
  apply list.NoDup_cons in Hnd as [Hni Hnd]. cbn [for_each]. unfold mbind, M_bind.
  pose proof (cancel_run b id w I) as Hc. destruct (RentInfo w.1.1 !! id) as [i|] eqn:Hi.
  2:{ rewrite Hc. exists [], (id :: ids). split_and!; [done|right; left; eauto|].
      intros id'. by rewrite decide_False by apply not_elem_of_nil. }
  destruct Hc as (u & l' & _ & I' & Hr). rewrite Hr. clear Hr. unfold with_callee. cbn [fst snd].
  set (s' := drop_records id i _) in *.
  destruct (rt_on_confirm_expired (machine_id i) (gpu_num i) (w.1.2, l')) as [[[]|e] [h1 l1]] eqn:Hx; cbn [fst snd].
  - destruct (IH ((s', h1), l1)) as (cs & rest & -> & Hs & Hl); [exact I'|done|].
    exists (id :: cs), rest. split_and!; [done| |].
    + destruct Hs as [->|[(id' & ids' & -> & Hn)|(id' & i' & x & Hla & Hi' & Hx')]]; [by left|right; left|right; right].
      * exists id', ids'. split; [done|]. simpl in Hn. rewrite lookup_delete_ne in Hn; [done|].
        intros <-. apply Hni, elem_of_app. right. by left.
      * exists id', i', x. split_and!; [by destruct cs| |done]. simpl in Hi'.
        by apply lookup_delete_Some in Hi' as [_ ?].
    + intros id'. rewrite Hl. simpl. destruct (decide (id' = id)) as [->|Hne].
      * rewrite (decide_True (P:=id ∈ id :: cs)) by (by left). case_decide; [done|]. apply lookup_delete_eq.
      * rewrite lookup_delete_ne by done. destruct (decide (id' ∈ cs)) as [Hd|Hd].
        -- by rewrite decide_True by (by right).
        -- rewrite decide_False; [done|]. by intros [?|?]%elem_of_cons.
  - exists [id], ids. split_and!; [done| |].
    + right; right. exists id, i, (w.1.2, l'). rewrite Hx. done.
    + intros id'. simpl. destruct (decide (id' = id)) as [->|Hne].
      * rewrite decide_True by (by left). apply lookup_delete_eq.
      * rewrite lookup_delete_ne by done. rewrite decide_False; [done|]. by intros ?%list_elem_of_singleton.
Qed.

Lemma starting_run now w :
  Inv w.1.1 → ∃ cancelled rest, list_at (ConfirmingOrder w.1.1) now = cancelled ++ rest ∧
    stopped w.1.1 cancelled rest ∧
    ∀ id, RentInfo (check_machine_starting_status now w).2.1.1 !! id =
      if decide (id ∈ cancelled) then None else RentInfo w.1.1 !! id.
Proof.
  intros I. destruct (inv_conf _ I) as [Cs _ _]. specialize (Cs now).
  unfold check_machine_starting_status, own_gets. rewrite bind_gets. unfold list_at in *.
  destruct (ConfirmingOrder w.1.1 !! now) as [ids|]; [by apply cancel_loop_run, sorted_NoDup|].
  exists [], []. split_and!; [done|by left|]. intros id. by rewrite decide_False by apply not_elem_of_nil.
Qed.


(** *** Termination *)

(** No run of [m] loops. *)
Definition ends {A} (m : M W Stop A) : Prop := ∀ w, (m w).1 ≠ Err Hangs.

Lemma ends_bind {A B} (m : M W Stop A) (k : A → M W Stop B) : ends m → (∀ a, ends (k a)) → ends (m ≫= k).
Proof.
  intros Hm Hk w. specialize (Hm w). unfold mbind, M_bind. destruct (m w) as [[a|e] w1]; [apply Hk|].
  intros [= ->]. by apply Hm.
Qed.
Lemma ends_gets {A} (f : W → A) : ends (gets f).
Proof. done. Qed.
Lemma ends_modify f : ends (own_modify f).
Proof. done. Qed.
Lemma ends_mret {A} (a : A) : ends (mret a).
Proof. done. Qed.
Lemma ends_ok_or {A} (o : option A) e : ends (ok_or o (error e)).
Proof. intros w. by destruct o. Qed.
Lemma ends_ensure b e : ends (ensure b (error e)).
Proof. intros w. by destruct b. Qed.
Lemma ends_map_err {E A} e (m : M W E A) : ends (map_err (error e) m).
Proof. intros w. unfold map_err. by destruct (m w) as [[] ?]. Qed.
Lemma ends_fails {A} (m : M W (DispatchError Error) A) : ends (fails m).
Proof. intros w. unfold fails. by destruct (m w) as [[] ?]. Qed.
Lemma ends_transfer a b v : ends (m_transfer a b v KeepAlive (Fails CurrencyError)).
Proof. intros w. unfold m_transfer. by destruct (transfer a b v KeepAlive w.2). Qed.
Lemma ends_ignore {E A} (m : M W E A) : ends (ignore m).
Proof. done. Qed.

Ltac ends :=
  repeat lazymatch goal with
  | |- ends (_ ≫= _) => apply ends_bind; [|intros ?]
  | |- ends (gets _) => apply ends_gets
  | |- ends (own_gets _) => apply ends_gets
  | |- ends (rt_gets _) => apply ends_gets
  | |- ends (own_modify _) => apply ends_modify
  | |- ends (mret _) => apply ends_mret
  | |- ends (ok_or _ _) => apply ends_ok_or
  | |- ends (ensure _ _) => apply ends_ensure
  | |- ends (map_err _ _) => apply ends_map_err
  | |- ends (fails _) => apply ends_fails
  | |- ends (m_transfer _ _ _ _ _) => apply ends_transfer
  | |- ends (ignore _) => apply ends_ignore
  | |- ends (if _ then _ else _) => case_match
  | |- ends (let '(_, _) := ?p in _) => destruct p
  | |- ends (pay_rent_fee _ _ _ _) => unfold pay_rent_fee
  end.

(** A run from a state with [Q] that does not loop and keeps [Q]; one that does
    not loop, whatever it leaves. *)
Definition calm {A} (Q : W → Prop) (m : M W Stop A) : Prop := ∀ w, Q w → (m w).1 ≠ Err Hangs ∧ Q (m w).2.
Definition ends_from {A} (Q : W → Prop) (m : M W Stop A) : Prop := ∀ w, Q w → (m w).1 ≠ Err Hangs.

Lemma ends_from_bind {A B} Q (m : M W Stop A) (k : A → M W Stop B) :
  calm Q m → (∀ a, ends_from Q (k a)) → ends_from Q (m ≫= k).
Proof.
  intros Hm Hk w Hw. destruct (Hm w Hw) as [Hn Hq]. unfold mbind, M_bind.
  destruct (m w) as [[a|e] w1]; [by apply Hk|]. intros [= ->]. by apply Hn.
Qed.
Lemma calm_gets {A} Q (f : W → A) : calm Q (gets f).
Proof. done. Qed.
Lemma calm_ok_or {A} Q (o : option A) e : calm Q (ok_or o (error e)).
Proof. intros w Hw. by destruct o. Qed.
Lemma calm_ensure Q b e : calm Q (ensure b (error e)).
Proof. intros w Hw. by destruct b. Qed.

(** The search for an id ends at once: the next one is free. *)
Definition next_free (w : W) : Prop :=
  NextRentId w.1.1 < U64_MAX ∧ RentInfo w.1.1 !! (NextRentId w.1.1 + 1) = None.

Lemma calm_callee {A} e (m : M (RT * L) unit A) : calm next_free (map_err (error e) (with_callee m)).
Proof. intros w Hw. split; [apply ends_map_err|]. unfold map_err, with_callee. by destruct (m _) as [[] ?]. Qed.
Lemma calm_stake e a v : calm next_free (map_err (error e) (change_renter_total_stake a v true)).
Proof.
  intros w Hw. split; [apply ends_map_err|]. unfold map_err, change_renter_total_stake, own_gets.
  rewrite bind_gets. unfold mbind, M_bind, gets, ensure, m_reserve. simpl.
  destruct (can_reserve a v w.2); [|done]. destruct (reserve a v w.2); [|done].
  unfold ok_or, checked_add. by destruct (_ <=? U128_MAX).
Qed.
Lemma new_id_ends {B} (k : Z → M W Stop B) : (∀ id, ends (k id)) → ends_from next_free (new_rent_id ≫= k).
Proof.
  intros Hk w [Hlt Hn]. unfold mbind, M_bind, new_rent_id, get_new_rent_id.
  destruct (Z.eqb_spec (NextRentId w.1.1) U64_MAX); [lia|]. rewrite Hn.
  rewrite decide_False by (by intros [? ?]). apply Hk.
Qed.

Ltac calm :=
  lazymatch goal with
  | |- calm _ (map_err _ (with_callee _)) => apply calm_callee
  | |- calm _ (map_err _ (change_renter_total_stake _ _ _)) => apply calm_stake
  | |- calm _ (ok_or _ _) => apply calm_ok_or
  | |- calm _ (ensure _ _) => apply calm_ensure
  | |- calm _ _ => apply calm_gets
  end.
Ltac ends_from :=
  repeat lazymatch goal with
  | |- ends_from _ (new_rent_id ≫= _) => apply new_id_ends; intros ?
  | |- ends_from _ (_ ≫= _) => apply ends_from_bind; [calm|intros ?]
  | |- ends_from _ (if _ then _ else _) => case_match
  | |- ends_from _ (mret _) => intros ? _; done
  end.

Lemma rent_ends now a m n d : ends_from next_free (rent_machine_by_block now a m n d).
Proof. unfold rent_machine_by_block. ends_from. ends. Qed.

(** C14: while ids are left no call of the rental pallet loops: the search for a
    free order id, which would retry the same id for ever, finds it at once. *)
Theorem rm_never_hangs now o c w :
  reachable (now, w) → NextRentId w.1.1 < U64_MAX → (dispatch now o c w).1 ≠ Err Hangs.
Proof.
  intros Hr Hmax. pose proof (reachable_Inv _ Hr) as I. simpl in I.
  assert (next_free w) as Hfree.
  { split; [done|]. destruct (RentInfo w.1.1 !! (NextRentId w.1.1 + 1)) as [i|] eqn:Hi; [|done].
    apply (inv_ids _ I) in Hi. lia. }
  assert (∀ m : M W Stop unit, ends_from next_free m → (transactional m w).1 ≠ Err Hangs) as Ht.
  { intros m Hm. specialize (Hm w Hfree). unfold transactional. by destruct (m w) as [[] ?]. }
  assert (∀ {A} (m : M W Stop A), ends m → ends_from next_free m) as He by (intros A m Hm w' _; apply Hm).
  apply Ht. destruct c as [pot|m n d|id|id d|m e].
  - apply He. unfold set_rent_fee_pot. ends.
  - apply ends_from_bind; [|intros a; apply rent_ends].
    intros w' Hw'. split; [apply ends_fails|]. by destruct o.
  - apply He. unfold confirm_rent. ends.
  - apply He. unfold relet_machine, relet_machine_by_block. ends.
  - apply He. unfold bond_evm_address. ends.
Qed.
End theorems.

(** ** A run

    A registry of one machine with four GPUs; accounts 1 and 2 rent, account 9
    owns the machine, account 50 is the pot. *)
Module Demo.
#[local] Existing Instances Ledger.currency Ledger.treasury_currency Ledger.laws Ledger.treasury_laws.
#[local] Existing Instances perbill perbill_laws.
#[local] Existing Instances MachineInfo.MachineInfo_eta VerifyOnline.CommitteeUploadInfo_eta.
#[local] Existing Instance GenericFunc.State_eta.
Record Registry := { info : MachineInfo.MachineInfo; rented : Z }.
Abbreviation world := ((State * Registry) * Ledger.t)%type.
Definition m : list byte := [x6d].

Definition machine (status : MachineInfo.MachineStatus) (r : Z) : M (Registry * Ledger.t) unit unit :=
  st_modify (λ h, {| info := (info h) <| MachineInfo.machine_status := status |>; rented := rented h + r |}).
#[local] Instance registry : RTOps Ledger.t Registry := {|
  rt_machines_info h x := if decide (x = m) then Some (info h) else None;
  rt_machine_rented_gpu h _ := rented h;
  rt_rent_fee_destroy_percent _ := 50000000;
  rt_get_machine_price h point n total := Some ((point * n) `div` total);
  rt_on_rent_start _ n := machine MachineInfo.Rented n;
  rt_on_confirmed _ _ := mret tt;
  rt_on_rent_end _ _ n _ last _ _ := machine (if last then MachineInfo.Online else MachineInfo.Rented) (- n);
  rt_on_confirm_expired _ n := machine MachineInfo.Rented (- n);
  rt_change_machine_rent_fee _ _ burnt fee :=
    st_modify (λ h, {| info := MachineInfo.change_rent_fee burnt fee (info h); rented := rented h |});
|}.
#[local] Instance nothing_held : Custodian Registry := λ _ _, 0.
Definition fee_state : GenericFunc.State := GenericFunc.genesis <| GenericFunc.FixedTxFee := Some 10 |>.
#[local] Instance fee : TxFee Ledger.t Registry := {|
  pay_fixed_tx_fee a := λ w,
    let r := GenericFunc.pay_fixed_tx_fee a (fee_state, w.2) in
    (r.1, (w.1, r.2.2));
|}.
#[local] Instance price : RentPrice Registry := {|
  dbc_amount_by_value _ v := if (0 <=? v) && (v <=? U128_MAX) then Some v else None;
  dlc_amount_by_value _ v := None;
|}.

#[local] Instance price_laws : RentPriceLaws Registry.
Proof.
  split. intros h v d Hd. cbn [dbc_amount_by_value price] in Hd.
  destruct (Z.leb_spec 0 v), (Z.leb_spec v U128_MAX); simpl in Hd; by simplify_eq.
Qed.
Lemma modify_solvent f : keeps_solvent (st_modify (L:=Ledger.t) (St:=Registry) f).
Proof. intros ext w Hw a. exact (Hw a). Qed.
#[local] Instance registry_laws : RTOpsLaws Ledger.t Registry.
Proof.
  split; intros; cbn [rt_rent_fee_destroy_percent rt_on_rent_start rt_on_confirmed rt_on_rent_end
    rt_on_confirm_expired rt_change_machine_rent_fee registry]; try apply modify_solvent; [done|].
  intros ext w Hw. exact Hw.
Qed.
#[local] Instance fee_laws : TxFeeLaws Ledger.t Registry.
Proof.
  split. intros a ext w Hw b. specialize (Hw b). cbn [pay_fixed_tx_fee fee].
  etrans; [exact Hw|]. cbv zeta. simpl snd at 2.
  rewrite (GenericFunc.fixed_tx_fee_reserved a (fee_state, w.2) 10); [done..|lia].
Qed.

Definition run (o : Origin) (c : Call) (x : BlockNumber * world) : BlockNumber * world := (x.1, (dispatch x.1 o c x.2).2).
Definition block (x : BlockNumber * world) : BlockNumber * world := (x.1 + 1, (on_finalize x.1 x.2).2).

Definition online : Registry := {|
  info := (MachineInfo.machine_online 5
    (VerifyOnline.CommitteeUploadInfo_default <| VerifyOnline.machine_id := m |>
       <| VerifyOnline.gpu_num := 4 |> <| VerifyOnline.calc_point := 9600 |>)
    (MachineInfo.new_bonding 9%N 9%N 1 0));
  rented := 0 |}.
Definition ledger : Ledger.t := {[1 := (1000, 0); 2 := (1000, 0); 9 := (5, 0); 50 := (5, 0); 100 := (1, 0)]}%N.
Definition start : BlockNumber * world := run Root (SetRentFeePot 50%N) (10, ((genesis, online), ledger)).
Definition booked := run (Signed 1%N) (RentMachineCall m 2 300) start.
Definition both := run (Signed 2%N) (RentMachineCall m 1 600) booked.
Definition confirmed := run (Signed 1%N) (ConfirmRent 0) both.
Definition later := Nat.iter 150 block confirmed.

Lemma rm_run_reachable o c x : call_typed c → NextRentId x.2.1.1 < U64_MAX → reachable x → reachable (run o c x).
Proof.
  intros Ht Hmax (now & h & l & Hr). exists now, h, l. eapply rtc_r; [exact Hr|]. destruct x as [t w].
  apply step_own. by apply step_call.
Qed.
Lemma blocks_reachable n x : reachable x → reachable (Nat.iter n block x).
Proof.
  intros Hr. induction n as [|n IH]; [exact Hr|]. destruct IH as (now & h & l & IH). exists now, h, l.
  eapply rtc_r; [exact IH|]. change (Nat.iter (S n) block x) with (block (Nat.iter n block x)).
  destruct (Nat.iter n block x) as [t w].
  apply step_own. apply step_block.
Qed.
Lemma start_reachable : reachable start.
Proof. apply rm_run_reachable; [done|reflexivity|]. exists 10, online, ledger. apply rtc_refl. Qed.
Lemma booked_reachable : reachable booked.
Proof. apply rm_run_reachable; [by vm_compute|vm_compute; reflexivity|apply start_reachable]. Qed.
Lemma rm_both_reachable : reachable both.
Proof. apply rm_run_reachable; [by vm_compute|vm_compute; reflexivity|apply booked_reachable]. Qed.
Lemma confirmed_reachable : reachable confirmed.
Proof. apply rm_run_reachable; [by vm_compute|vm_compute; reflexivity|apply rm_both_reachable]. Qed.
Lemma rm_later_reachable : reachable later.
Proof. apply blocks_reachable, confirmed_reachable. Qed.
Definition nobody : AccountId → Z := λ _, 0.
Lemma ledger_funded : funded nobody ((genesis, online), ledger).
Proof.
  split.
  - intros a. change (0 + (default 0 ((∅ : gmap AccountId Balance) !! a) + 0) ≤ reserved_balance ledger a).
    rewrite lookup_empty. exact (proj2 (balances_nonneg ledger a)).
  - intros id i Hi. change ((∅ : gmap Z RentOrderDetail) !! id = Some i) in Hi. by rewrite lookup_empty in Hi.
Qed.
Lemma run_funded o c x : funded nobody x.2 → funded nobody (run o c x).2.
Proof. exact (keeps_dispatch nobody x.1 o c x.2). Qed.
Lemma start_funded : funded nobody start.2.
Proof. exact (run_funded Root (SetRentFeePot 50%N) (10, ((genesis, online), ledger)) ledger_funded). Qed.
Lemma booked_funded : funded nobody booked.2.
Proof. exact (run_funded (Signed 1%N) (RentMachineCall m 2 300) start start_funded). Qed.
Lemma both_funded : funded nobody both.2.
Proof. exact (run_funded (Signed 2%N) (RentMachineCall m 1 600) booked booked_funded). Qed.

Lemma run_step o c x : call_typed c → NextRentId x.2.1.1 < U64_MAX → pallet_step x (run o c x).
Proof. destruct x as [t w]. apply step_call. Qed.
Lemma booking_step : pallet_step booked both.
Proof. apply run_step; [by vm_compute|vm_compute; reflexivity]. Qed.
#[local] Strategy 1000 [start booked both confirmed later].

Lemma pairs {x} : reachable (L:=Ledger.t) (RT:=Registry) x → reachable (x.1, x.2).
Proof. by rewrite <-surjective_pairing. Qed.

Lemma rm_reachable_invariant_witness :
  used_gpu (machine_rent_order both.2.1.1 m) = [0; 1; 2] ∧ Inv both.2.1.1.
Proof.
  split; [vm_compute; reflexivity|]. exact (rm_reachable_invariant both.1 both.2 (pairs rm_both_reachable)).
Defined.

Lemma both_rents :
  dispatch booked.1 (Signed 2%N) (RentMachineCall m 1 600) booked.2 = (Ok tt, both.2) ∧
  NextRentId booked.2.1.1 = 1 ∧ NextRentId both.2.1.1 = 2 ∧
  gpu_index <$> RentInfo both.2.1.1 !! 1 = Some [2].
Proof. split_and!; vm_compute; reflexivity. Qed.
Lemma rm_rent_exclusive_witness :
  ∃ i, RentInfo both.2.1.1 !! 1 = Some i ∧ gpu_index i = [2] ∧
    ∀ id' i', RentInfo booked.2.1.1 !! id' = Some i' → machine_id i' = m → 2 ∉ gpu_index i'.
Proof.
  destruct both_rents as (Hrun & Hnext & Hne & Hg).
  destruct (rm_rent_exclusive booked.1 2%N m 1 600 booked.2 both.2 (pairs booked_reachable)) as [Heq|H].
  - rewrite Hnext. reflexivity.
  - split; discriminate.
  - exact Hrun.
  - pose proof (f_equal (λ w : world, NextRentId w.1.1) Heq) as Hc. cbv beta in Hc. rewrite Hne, Hnext in Hc.
    discriminate Hc.
  - destruct H as (i & info & Hi & _ & _ & _ & _ & _ & _ & Hx & _). rewrite Hnext in Hi. exists i.
    rewrite Hi in Hg. injection Hg as Hg. split_and!; [exact Hi|exact Hg|].
    intros id' i' Hi' Hm'. apply (Hx id' i' 2 Hi' Hm'). rewrite Hg. left.
Defined.

Lemma rm_steps_solvent_witness : user_total_stake both.2.1.1 2%N = 100 ∧ solvent nobody both.2.
Proof.
  split; [vm_compute; reflexivity|].
  exact (rm_steps_solvent nobody booked both booked_reachable booking_step (proj1 booked_funded)).
Defined.

Lemma both_confirms :
  dispatch both.1 (Signed 1%N) (ConfirmRent 0) both.2 = (Ok tt, confirmed.2) ∧
  (λ i, (machine_id i, stake_amount i)) <$> RentInfo both.2.1.1 !! 0 = Some (m, 100) ∧
  MachineInfo.machine_stash <$> rt_machines_info both.2.1.2 m = Some 9%N ∧
  RentFeePot both.2.1.1 = Some 50%N ∧ per_mul (rt_rent_fee_destroy_percent both.2.1.2) 100 = 5.
Proof. split_and!; vm_compute; reflexivity. Qed.
Lemma rm_confirm_pays_exactly_witness :
  ∃ l2, moves both.2.2 l2 (λ c, at_account 9%N 95 c + at_account 50%N 5 c) (at_account 1%N (-100)).
Proof.
  destruct both_confirms as (Hrun & Hv & Hst & Hp & Hb).
  destruct (rm_confirm_pays_exactly nobody both.1 (Signed 1%N) 0 both.2 confirmed.2 (pairs rm_both_reachable)
    (proj1 both_funded)) as (a & i & inf & pot & l2 & Ha & Hi & _ & _ & _ & Hinf & Hpot & _ & _ & Hm & _).
  - intros b. apply Z.le_refl.
  - exact Hrun.
  - exists l2. injection Ha as <-. rewrite Hi in Hv. injection Hv as Hmi Hv. rewrite Hmi in Hinf.
    rewrite Hinf in Hst. injection Hst as Hst. rewrite Hp in Hpot. injection Hpot as <-.
    rewrite Hv, Hst, Hb in Hm. exact Hm.
Defined.

Lemma later_orders :
  later.1 = 160 ∧ rent_end <$> RentInfo later.2.1.1 !! 0 = Some 310 ∧
  list_at (ConfirmingOrder later.2.1.1) 160 = [1] ∧
  (λ i, (rent_end i, rent_status i, confirm_block i)) <$> RentInfo later.2.1.1 !! 1 =
    Some (610, WaitingVerifying, 160).
Proof. split_and!; vm_compute; reflexivity. Qed.

Lemma rm_never_hangs_witness :
  (dispatch both.1 (Signed 1%N) (RentMachineCall m 1 300) both.2).1 ≠ Err Hangs.
Proof.
  refine (rm_never_hangs both.1 (Signed 1%N) (RentMachineCall m 1 300) both.2 (pairs rm_both_reachable) _).
  vm_compute. reflexivity.
Defined.
End Demo.
End RentTheorems.
