(* ===== verification/ProfileTypes.v ===== *)
(** * The machine registry: its data

    What online-profile stores: the lists of machines by stage, the totals of a
    stash account, of a position and of the system, the points and rewards of an
    era, the recent rewards of a machine, and pending slashes. Models
    src/pallets/support/src/live_machine.rs, the stash totals of
    verify_online.rs, the slashes of verify_slash.rs, and of
    src/pallets/online-profile/src the files types/basic.rs,
    types/machine_reward.rs and the slash rates of utils.rs. *)
From stdpp Require Import base gmap fin_maps list numbers countable.
From Stdlib Require Import ZArith Lia Strings.Byte.
From S2P Require Import Prelude ItemList VerifyOnline RentalTypes.

Module ProfileTypes.
Import ItemList MachineInfo.
Abbreviation MachineId := (list byte) (only parsing).
Abbreviation EraIndex := Z (only parsing).
Abbreviation SlashId := Z (only parsing).

Definition SEVEN_MINUTES : Z := 7 * VerifyOnline.ONE_MINUTE.
Definition FOUR_HOURS : Z := 4 * VerifyOnline.ONE_HOUR.
Definition FIVE_DAYS : Z := 5 * VerifyOnline.ONE_DAY.
Definition TEN_DAYS : Z := 10 * VerifyOnline.ONE_DAY.
Definition REWARD_DURATION : Z := 365 * 2.
Definition REBOND_FREQUENCY : Z := 365 * VerifyOnline.ONE_DAY.

#[export] Instance Longitude_eq_dec : EqDecision Longitude.
Proof. solve_decision. Defined.
#[export] Instance Latitude_eq_dec : EqDecision Latitude.
Proof. solve_decision. Defined.
#[export] Instance Longitude_countable : Countable Longitude :=
  inj_countable' (λ x, match x with East n => inl n | West n => inr n end)
    (λ y, match y with inl n => East n | inr n => West n end) ltac:(by intros []).
#[export] Instance Latitude_countable : Countable Latitude :=
  inj_countable' (λ x, match x with South n => inl n | North n => inr n end)
    (λ y, match y with inl n => South n | inr n => North n end) ltac:(by intros []).

(** ** The machines by stage *)
Record LiveMachine := {
  bonding_machine : list MachineId;
  confirmed_machine : list MachineId;
  booked_machine : list MachineId;
  online_machine : list MachineId;
  fulfilling_machine : list MachineId;
  refused_machine : list MachineId;
  rented_machine : list MachineId;
  offline_machine : list MachineId;
  refused_mut_hardware_machine : list MachineId;
}.
#[export] Instance LiveMachine_eta : RecordEta LiveMachine := λ l,
  Build_LiveMachine (bonding_machine l) (confirmed_machine l) (booked_machine l) (online_machine l)
    (fulfilling_machine l) (refused_machine l) (rented_machine l) (offline_machine l)
    (refused_mut_hardware_machine l).
Definition LiveMachine_default : LiveMachine := {|
  bonding_machine := []; confirmed_machine := []; booked_machine := []; online_machine := [];
  fulfilling_machine := []; refused_machine := []; rented_machine := []; offline_machine := [];
  refused_mut_hardware_machine := [] |}.

Definition on_bonding (m : MachineId) (l : LiveMachine) : LiveMachine :=
  l <| bonding_machine ::= λ x, add_item x m |>.
Definition on_add_server_room (m : MachineId) (l : LiveMachine) : LiveMachine :=
  if is_ok (binary_search (bonding_machine l) m)
  then l <| bonding_machine ::= λ x, rm_item x m |> <| confirmed_machine ::= λ x, add_item x m |>
  else l.
Definition on_offline_change_hardware (m : MachineId) (l : LiveMachine) : LiveMachine :=
  l <| online_machine ::= λ x, rm_item x m |> <| bonding_machine ::= λ x, add_item x m |>.
Definition on_offline (m : MachineId) (l : LiveMachine) : LiveMachine :=
  l <| online_machine ::= λ x, rm_item x m |> <| rented_machine ::= λ x, rm_item x m |>
    <| offline_machine ::= λ x, add_item x m |>.
Definition on_exit (m : MachineId) (l : LiveMachine) : LiveMachine :=
  l <| online_machine ::= λ x, rm_item x m |>.

(** ** Totals *)
Record StashMachine := {
  total_machine : list MachineId;
  stash_online : list MachineId;
  stash_calc_points : Z;
  stash_gpu_num : Z;
  stash_rented_gpu : Z;
  total_earned_reward : Balance;
  total_claimed_reward : Balance;
  can_claim_reward : Balance;
  stash_rent_fee : Balance;
  stash_burn_fee : Balance;
}.
#[export] Instance StashMachine_eta : RecordEta StashMachine := λ s,
  Build_StashMachine (total_machine s) (stash_online s) (stash_calc_points s) (stash_gpu_num s)
    (stash_rented_gpu s) (total_earned_reward s) (total_claimed_reward s) (can_claim_reward s)
    (stash_rent_fee s) (stash_burn_fee s).
Definition StashMachine_default : StashMachine := {|
  total_machine := []; stash_online := []; stash_calc_points := 0; stash_gpu_num := 0;
  stash_rented_gpu := 0; total_earned_reward := 0; total_claimed_reward := 0; can_claim_reward := 0;
  stash_rent_fee := 0; stash_burn_fee := 0 |}.

Definition stash_new_bonding (m : MachineId) (s : StashMachine) : StashMachine :=
  s <| total_machine ::= λ x, add_item x m |>.
Definition claim_reward (s : StashMachine) : option (Balance * StashMachine) :=
  let can_claim := can_claim_reward s in
  total ← checked_add U128_MAX (total_claimed_reward s) can_claim;
  Some (can_claim, s <| can_claim_reward := 0 |> <| total_claimed_reward := total |>).
Definition stash_change_rent_fee (fee_to_destroy fee_to_stash : Balance) (s : StashMachine) : StashMachine :=
  s <| stash_burn_fee ::= λ v, saturating_add U128_MAX v fee_to_destroy |>
    <| stash_rent_fee ::= λ v, saturating_add U128_MAX v fee_to_stash |>.

Record SysInfoDetail := {
  total_gpu_num : Z;
  total_rented_gpu : Z;
  total_staker : Z;
  total_calc_points : Z;
  total_stake : Balance;
  sys_rent_fee : Balance;
  sys_burn_fee : Balance;
}.
#[export] Instance SysInfoDetail_eta : RecordEta SysInfoDetail := λ s,
  Build_SysInfoDetail (total_gpu_num s) (total_rented_gpu s) (total_staker s) (total_calc_points s)
    (total_stake s) (sys_rent_fee s) (sys_burn_fee s).
Definition SysInfoDetail_default : SysInfoDetail := {|
  total_gpu_num := 0; total_rented_gpu := 0; total_staker := 0; total_calc_points := 0;
  total_stake := 0; sys_rent_fee := 0; sys_burn_fee := 0 |}.
Definition on_stake_changed (amount : Balance) (is_add : bool) (s : SysInfoDetail) : SysInfoDetail :=
  s <| total_stake ::= λ v, if is_add then saturating_add U128_MAX v amount else saturating_sub v amount |>.
Definition sys_change_rent_fee (fee_to_destroy fee_to_stash : Balance) (s : SysInfoDetail) : SysInfoDetail :=
  s <| sys_burn_fee ::= λ v, saturating_add U128_MAX v fee_to_destroy |>
    <| sys_rent_fee ::= λ v, saturating_add U128_MAX v fee_to_stash |>.

Record PosInfo := {
  online_gpu : Z;
  offline_gpu : Z;
  rented_gpu : Z;
  online_gpu_calc_points : Z;
}.
#[export] Instance PosInfo_eta : RecordEta PosInfo := λ p,
  Build_PosInfo (online_gpu p) (offline_gpu p) (rented_gpu p) (online_gpu_calc_points p).
#[export] Instance PosInfo_eq_dec : EqDecision PosInfo.
Proof. solve_decision. Defined.
Definition PosInfo_default : PosInfo :=
  {| online_gpu := 0; offline_gpu := 0; rented_gpu := 0; online_gpu_calc_points := 0 |}.
(** [saturating_add] or [saturating_sub] of 64 bits. *)
Definition up_or_down (up : bool) (v d : Z) : Z :=
  if up then saturating_add U64_MAX v d else saturating_sub v d.
Definition pos_rent_changed (is_rented : bool) (gpu_num : Z) (p : PosInfo) : PosInfo :=
  p <| rented_gpu ::= λ v, up_or_down is_rented v gpu_num |>.
Definition pos_online_changed (is_online : bool) (gpu_num calc_point : Z) (p : PosInfo) : PosInfo :=
  let p := p <| online_gpu ::= λ v, up_or_down is_online v gpu_num |>
             <| online_gpu_calc_points ::= λ v, up_or_down is_online v calc_point |> in
  if is_online then p else p <| offline_gpu ::= λ v, saturating_add U64_MAX v gpu_num |>.
Definition on_machine_exit (gpu_num calc_point : Z) (p : PosInfo) : bool * PosInfo :=
  let p := p <| online_gpu ::= λ v, saturating_sub v gpu_num |>
             <| online_gpu_calc_points ::= λ v, saturating_sub v calc_point |> in
  (bool_decide (p = PosInfo_default), p).

(** ** Parameters and pending items *)
Record UserMutHardwareStakeInfo := {
  verify_fee : Balance;
  offline_slash : Balance;
  offline_time : BlockNumber;
  need_fulfilling : bool;
}.
#[export] Instance UserMutHardwareStakeInfo_eta : RecordEta UserMutHardwareStakeInfo := λ u,
  Build_UserMutHardwareStakeInfo (verify_fee u) (offline_slash u) (offline_time u) (need_fulfilling u).
Definition UserMutHardwareStakeInfo_default : UserMutHardwareStakeInfo :=
  {| verify_fee := 0; offline_slash := 0; offline_time := 0; need_fulfilling := false |}.

Record PhaseRewardInfoDetail := {
  online_reward_start_era : EraIndex;
  first_phase_duration : EraIndex;
  galaxy_on_era : EraIndex;
  phase_0_reward_per_era : Balance;
  phase_1_reward_per_era : Balance;
  phase_2_reward_per_era : Balance;
}.
#[export] Instance PhaseRewardInfoDetail_eta : RecordEta PhaseRewardInfoDetail := λ p,
  Build_PhaseRewardInfoDetail (online_reward_start_era p) (first_phase_duration p) (galaxy_on_era p)
    (phase_0_reward_per_era p) (phase_1_reward_per_era p) (phase_2_reward_per_era p).
Definition PhaseRewardInfoDetail_default : PhaseRewardInfoDetail := {|
  online_reward_start_era := 0; first_phase_duration := 0; galaxy_on_era := 0;
  phase_0_reward_per_era := 0; phase_1_reward_per_era := 0; phase_2_reward_per_era := 0 |}.

Record OnlineStakeParamsInfo := {
  online_stake_per_gpu : Balance;
  online_stake_usd_limit : Z;
  reonline_stake : Z;
  slash_review_stake : Balance;
}.
Record StandardGpuPointPrice := { gpu_point : Z; gpu_price : Z }.

Record OPPendingSlashInfo := {
  slash_who : AccountId;
  slash_machine : MachineId;
  slash_time : BlockNumber;
  slash_amount : Balance;
  slash_exec_time : BlockNumber;
  reporter : option AccountId;
  slash_renters : list AccountId;
  reward_to_committee : option (list AccountId);
  slash_reason : OPSlashReason;
}.
#[export] Instance OPPendingSlashInfo_eta : RecordEta OPPendingSlashInfo := λ s,
  Build_OPPendingSlashInfo (slash_who s) (slash_machine s) (slash_time s) (slash_amount s)
    (slash_exec_time s) (reporter s) (slash_renters s) (reward_to_committee s) (slash_reason s).
Record OPPendingSlashReviewInfo := {
  applicant : AccountId;
  staked_amount : Balance;
  apply_time : BlockNumber;
  expire_time : BlockNumber;
  review_reason : bytes;
}.

(** ** Slash rates by the time offline *)
Definition slash_percent (r : OPSlashReason) (duration : BlockNumber) : Z :=
  match r with
  | RentedReportOffline _ =>
      if duration <? SEVEN_MINUTES then 2
      else if duration <? VerifyOnline.TWO_DAYS then 4
      else if duration <? FIVE_DAYS then 30 else 50
  | OnlineReportOffline _ =>
      if duration <? SEVEN_MINUTES then 2
      else if duration <? VerifyOnline.TWO_DAYS then 4
      else if duration <? TEN_DAYS then 30 else 80
  | RentedInaccessible _ =>
      if duration <? SEVEN_MINUTES then 4
      else if duration <? VerifyOnline.TWO_DAYS then 8
      else if duration <? FIVE_DAYS then 60 else 100
  | RentedHardwareMalfunction _ | OnlineRentFailed _ =>
      if duration <? FOUR_HOURS then 6
      else if duration <? VerifyOnline.ONE_DAY then 12
      else if duration <? VerifyOnline.TWO_DAYS then 16
      else if duration <? FIVE_DAYS then 60 else 100
  | RentedHardwareCounterfeit _ =>
      if duration <? FOUR_HOURS then 12
      else if duration <? VerifyOnline.ONE_DAY then 24
      else if duration <? VerifyOnline.TWO_DAYS then 32
      else if duration <? FIVE_DAYS then 60 else 100
  | _ => 0
  end.

Definition reach_max_slash (r : OPSlashReason) (duration : Z) : bool :=
  match r with
  | RentedReportOffline _ | RentedInaccessible _ | RentedHardwareMalfunction _
  | RentedHardwareCounterfeit _ | OnlineRentFailed _ => 5 * VerifyOnline.ONE_DAY <? duration
  | OnlineReportOffline _ => 10 * VerifyOnline.ONE_DAY <? duration
  | _ => false
  end.

(** ** Points and rewards *)
Record MachineRecentRewardInfo := {
  reward_stash : AccountId;
  recent_machine_reward : list Balance;
  recent_reward_sum : Balance;
  reward_committee_deadline : EraIndex;
  reward_committee : list AccountId;
}.
#[export] Instance MachineRecentRewardInfo_eta : RecordEta MachineRecentRewardInfo := λ r,
  Build_MachineRecentRewardInfo (reward_stash r) (recent_machine_reward r) (recent_reward_sum r)
    (reward_committee_deadline r) (reward_committee r).
Definition add_new_reward (reward_amount : Balance) (r : MachineRecentRewardInfo) : MachineRecentRewardInfo :=
  let '(reduce, queue) :=
    if Nat.eqb (length (recent_machine_reward r)) 150
    then (default 0 (head (recent_machine_reward r)), tail (recent_machine_reward r) ++ [reward_amount])
    else (0, recent_machine_reward r ++ [reward_amount]) in
  r <| recent_machine_reward := queue |>
    <| recent_reward_sum ::= λ v, saturating_sub (saturating_add U128_MAX v reward_amount) reduce |>.

Record StashMachineStatistics := {
  online_gpu_num : Z;
  inflation : Z;
  machine_total_calc_point : Z;
  rent_extra_grade : Z;
}.
#[export] Instance StashMachineStatistics_eta : RecordEta StashMachineStatistics := λ s,
  Build_StashMachineStatistics (online_gpu_num s) (inflation s) (machine_total_calc_point s)
    (rent_extra_grade s).
Definition StashMachineStatistics_default : StashMachineStatistics := {|
  online_gpu_num := 0; inflation := 0; machine_total_calc_point := 0; rent_extra_grade := 0 |}.

Record EraStashPoints := {
  total : Z;
  staker_statistic : gmap AccountId StashMachineStatistics;
}.
#[export] Instance EraStashPoints_eta : RecordEta EraStashPoints := λ e,
  Build_EraStashPoints (total e) (staker_statistic e).
Definition EraStashPoints_default : EraStashPoints := {| total := 0; staker_statistic := ∅ |}.

Record MachineGradeStatus := { basic_grade : Z; is_rented : bool }.
Record AllMachineIdSnapDetail := { all_machine_id : list MachineId; snap_len : Z }.

Section points.
Context {P : PerThing}.

Definition total_grades (s : StashMachineStatistics) : option Z :=
  x ← checked_add U64_MAX (per_mul (inflation s) (machine_total_calc_point s)) (machine_total_calc_point s);
  checked_add U64_MAX x (rent_extra_grade s).

Definition statistic_of (e : EraStashPoints) (stash : AccountId) : StashMachineStatistics :=
  default StashMachineStatistics_default (staker_statistic e !! stash).

Definition on_online_changed (stash : AccountId) (gpu_num basic_grade : Z) (is_online : bool)
    (e : EraStashPoints) : EraStashPoints :=
  let s := statistic_of e stash in
  let pre_grade := default 0 (total_grades s) in
  let s := s <| online_gpu_num ::= λ v, up_or_down is_online v gpu_num |> in
  let s := s <| inflation := from_rational (Z.min (online_gpu_num s) 1000) 10000 |>
             <| machine_total_calc_point ::= λ v, up_or_down is_online v basic_grade |> in
  let new_grade := default 0 (total_grades s) in
  let e := e <| total ::= λ v, saturating_sub (saturating_add U64_MAX v new_grade) pre_grade |> in
  if online_gpu_num s =? 0 then e <| staker_statistic ::= delete stash |>
  else e <| staker_statistic ::= <[stash := s]> |>.

Definition on_rent_changed (stash : AccountId) (basic_grade : Z) (is_rented : bool)
    (e : EraStashPoints) : EraStashPoints :=
  let s := statistic_of e stash in
  let grade_on_rent := per_mul (from_rational 30 100) basic_grade in
  e <| total ::= λ v, up_or_down is_rented v grade_on_rent |>
    <| staker_statistic ::= <[stash := s <| rent_extra_grade ::= λ v, up_or_down is_rented v grade_on_rent |>]> |>.

Definition machine_actual_grade (inflation : Z) (g : MachineGradeStatus) : Z :=
  let rent_extra_grade := if is_rented g then per_mul (from_rational 30 100) (basic_grade g) else 0 in
  let inflation_extra_grade := per_mul inflation (basic_grade g) in
  saturating_add U64_MAX (saturating_add U64_MAX (basic_grade g) rent_extra_grade) inflation_extra_grade.

(** A [Perbill], with the range its type guarantees. *)
Record Part := { parts : Z; parts_typed : (0 <=? parts) && (parts <=? accuracy) = true }.
Lemma parts_range (p : Part) : 0 ≤ parts p ≤ accuracy.
Proof. pose proof (parts_typed p) as [?%Z.leb_le ?%Z.leb_le]%andb_true_iff. done. Qed.
End points.
#[global] Arguments Part P : clear implicits.

Section part.
Context {P : PerThing} {LP : PerThingLaws P}.
Program Definition percent_part (n : N) : Part P := {| parts := from_percent (Z.of_N n) |}.
Next Obligation.
  intros n. destruct (from_percent_part (Z.of_N n)); [lia|]. by apply andb_true_iff; split; apply Z.leb_le.
Qed.
End part.
End ProfileTypes.
