(* ===== verification/OnlineProfile.v ===== *)
(** * pallet-online-profile: the machine registry

    Stash accounts bond machines through a controller, the committee verifies
    them, they go online, are rented and go offline; stakes, points and rewards
    of an era, and slashes follow. Models src/pallets/online-profile/src: lib.rs,
    online_reward.rs, slash.rs, traits.rs and utils.rs, over the interfaces of
    RentalInterfaces.v; it implements the traits OCOps, RTOps and MTOps. *)
From stdpp Require Import base gmap fin_maps list numbers relations.
From Stdlib Require Import ZArith Lia Strings.Byte.
From S2P Require Import Prelude Currency Interfaces ItemList VerifyOnline RentalTypes ProfileTypes RentalInterfaces.

Module OnlineProfile.
Import ItemList MachineInfo ProfileTypes.

Inductive Event :=
| BondMachine (who : AccountId) (m : MachineId) (v : Balance)
| ControllerStashBonded (c s : AccountId)
| MachineOfflineToMutHardware (m : MachineId) (fee slash : Balance)
| StakeAdded (who : AccountId) (v : Balance)
| StakeReduced (who : AccountId) (v : Balance)
| ServerRoomGenerated (who : AccountId) (room : H256)
| MachineInfoAdded (m : MachineId)
| MachineInfoUpdated (m : MachineId)
| ClaimReward (who : AccountId) (v : Balance)
| ControllerReportOffline (m : MachineId)
| ControllerReportOnline (m : MachineId)
| SlashCanceled (id : SlashId) (who : AccountId) (v : Balance)
| MachineRestaked (m : MachineId) (pre new : Balance)
| MachineExit (m : MachineId)
| ApplySlashReview (id : SlashId)
| SlashExecuted (who : AccountId) (m : MachineId) (v : Balance)
| StashResetController (s pre new : AccountId)
| MachineAddStake (m : MachineId) (pre delta : Balance)
| AddSlash (m : MachineId) (id : SlashId)
| Slash (who : AccountId) (v : Balance) (r : OPSlashReason)
| MachineControllerChanged (m : MachineId) (pre new : AccountId)
| SlashAndReward (slashed rewarded : AccountId) (v : Balance) (r : OPSlashReason)
| NewSlash (id : SlashId)
| SetTmpVal (v : Z).

Inductive Error :=
| BadSignature | MachineIdExist | BalanceNotEnough | NotMachineController | PayTxFeeFailed
| ClaimRewardFailed | ConvertMachineIdToWalletFailed | NoStashBond | AlreadyController
| NoStashAccount | BadMsgLen | NotAllowedChangeMachineInfo | MachineStashNotEqualControllerStash
| CalcStakeAmountFailed | SigMachineIdNotEqualBondedMachineId | TelecomIsNull
| MachineStatusNotAllowed | ServerRoomNotFound | NotMachineStash | TooFastToReStake
| NoStakeToReduce | ReduceStakeFailed | GetReonlineStakeFailed | SlashIdNotExist | TimeNotAllowed
| ExpiredSlash | Unknown | ClaimThenFulfillFailed | NotAuthorized.

Definition from_online_err (e : OnlineErr) : Error :=
  match e with
  | MachineInfo.ClaimRewardFailed => ClaimRewardFailed
  | MachineInfo.NotMachineController => NotMachineController
  | MachineInfo.CalcStakeAmountFailed => CalcStakeAmountFailed
  | MachineInfo.TelecomIsNull => TelecomIsNull
  | MachineInfo.NotAllowedChangeMachineInfo => NotAllowedChangeMachineInfo
  end.

(** The origin that may cancel slashes, the decoding of an address, the
    signature by a machine, and the order in which a storage map is read. *)
Record Config := {
  CancelSlashOrigin : Origin → bool;
  get_account_from_str : bytes → option AccountId;
  verify_sig : bytes → bytes → bytes → bool;
  iter_order : list AccountId → list AccountId;
}.

Section pallet.
Context {P : PerThing} {LP : PerThingLaws P}.

Record State := {
  OnlineStakeParams : option OnlineStakeParamsInfo;
  StandardGPUPointPrice : option StandardGpuPointPrice;
  UserMutHardwareStake : gmap (AccountId * MachineId) UserMutHardwareStakeInfo;
  RentFeeDestroyPercent : Part P;
  SysInfo : SysInfoDetail;
  PosGPUInfo : gmap (Longitude * Latitude) PosInfo;
  StashController : gmap AccountId AccountId;
  ControllerStash : gmap AccountId AccountId;
  MachinesInfo : gmap MachineId MachineInfo;
  MachineRentedGPU : gmap MachineId Z;
  StashMachines : gmap AccountId StashMachine;
  StashServerRooms : gmap AccountId (list H256);
  ControllerMachines : gmap AccountId (list MachineId);
  LiveMachines : LiveMachine;
  CurrentEra : EraIndex;
  ErasStashPoints : gmap EraIndex EraStashPoints;
  ErasMachinePoints : gmap EraIndex (gmap MachineId MachineGradeStatus);
  PhaseRewardInfo : option PhaseRewardInfoDetail;
  EraReward : gmap EraIndex Balance;
  ErasMachineReward : gmap (EraIndex * MachineId) Balance;
  ErasMachineReleasedReward : gmap (EraIndex * MachineId) Balance;
  ErasStashReward : gmap (EraIndex * AccountId) Balance;
  ErasStashReleasedReward : gmap (EraIndex * AccountId) Balance;
  MachineRecentReward : gmap MachineId MachineRecentRewardInfo;
  AllMachineIdSnap : AllMachineIdSnapDetail;
  StashStake : gmap AccountId Balance;
  NextSlashId : Z;
  PendingSlash : gmap SlashId OPPendingSlashInfo;
  PendingSlashReview : gmap SlashId OPPendingSlashReviewInfo;
  PendingSlashReviewChecking : gmap BlockNumber (list SlashId);
  RentedFinished : gmap MachineId AccountId;
  PendingExecSlash : gmap BlockNumber (list SlashId);
  MaxSlashExeced : gmap MachineId BlockNumber;
  OfflineMachine2renters : gmap MachineId (list AccountId);
  Machine2PendingSlashIds : gmap MachineId (list SlashId);
  AuthorizedForceExitAccounts : list AccountId;
  events : list Event;
}.
#[export] Instance State_eta : RecordEta State := λ s,
  Build_State (OnlineStakeParams s) (StandardGPUPointPrice s) (UserMutHardwareStake s)
    (RentFeeDestroyPercent s) (SysInfo s) (PosGPUInfo s) (StashController s) (ControllerStash s)
    (MachinesInfo s) (MachineRentedGPU s) (StashMachines s) (StashServerRooms s)
    (ControllerMachines s) (LiveMachines s) (CurrentEra s) (ErasStashPoints s) (ErasMachinePoints s)
    (PhaseRewardInfo s) (EraReward s) (ErasMachineReward s) (ErasMachineReleasedReward s)
    (ErasStashReward s) (ErasStashReleasedReward s) (MachineRecentReward s) (AllMachineIdSnap s)
    (StashStake s) (NextSlashId s) (PendingSlash s) (PendingSlashReview s)
    (PendingSlashReviewChecking s) (RentedFinished s) (PendingExecSlash s) (MaxSlashExeced s)
    (OfflineMachine2renters s) (Machine2PendingSlashIds s) (AuthorizedForceExitAccounts s) (events s).

Definition genesis : State := {|
  OnlineStakeParams := None; StandardGPUPointPrice := None; UserMutHardwareStake := ∅;
  RentFeeDestroyPercent := percent_part 30; SysInfo := SysInfoDetail_default; PosGPUInfo := ∅;
  StashController := ∅; ControllerStash := ∅; MachinesInfo := ∅; MachineRentedGPU := ∅;
  StashMachines := ∅; StashServerRooms := ∅; ControllerMachines := ∅;
  LiveMachines := LiveMachine_default; CurrentEra := 0; ErasStashPoints := ∅;
  ErasMachinePoints := ∅; PhaseRewardInfo := None; EraReward := ∅; ErasMachineReward := ∅;
  ErasMachineReleasedReward := ∅; ErasStashReward := ∅; ErasStashReleasedReward := ∅;
  MachineRecentReward := ∅; AllMachineIdSnap := {| all_machine_id := []; snap_len := 0 |};
  StashStake := ∅; NextSlashId := 0; PendingSlash := ∅; PendingSlashReview := ∅;
  PendingSlashReviewChecking := ∅; RentedFinished := ∅; PendingExecSlash := ∅;
  MaxSlashExeced := ∅; OfflineMachine2renters := ∅; Machine2PendingSlashIds := ∅;
  AuthorizedForceExitAccounts := []; events := [] |}.

(** ** Reading the storage, with the defaults of its maps *)
Definition deposit_event (e : Event) (s : State) : State := s <| events ::= λ es, es ++ [e] |>.
Definition stash_stake (s : State) (a : AccountId) : Balance := default 0 (StashStake s !! a).
Definition stash_machines (s : State) (a : AccountId) : StashMachine :=
  default StashMachine_default (StashMachines s !! a).
Definition stash_server_rooms (s : State) (a : AccountId) : list H256 := default [] (StashServerRooms s !! a).
Definition controller_machines (s : State) (a : AccountId) : list MachineId :=
  default [] (ControllerMachines s !! a).
Definition eras_stash_points (s : State) (e : EraIndex) : EraStashPoints :=
  default EraStashPoints_default (ErasStashPoints s !! e).
Definition eras_machine_points (s : State) (e : EraIndex) : gmap MachineId MachineGradeStatus :=
  default ∅ (ErasMachinePoints s !! e).
Definition machine_rented_gpu (s : State) (m : MachineId) : Z := default 0 (MachineRentedGPU s !! m).
Definition user_mut_hardware_stake (s : State) (a : AccountId) (m : MachineId) : UserMutHardwareStakeInfo :=
  default UserMutHardwareStakeInfo_default (UserMutHardwareStake s !! (a, m)).
Definition max_slash_execed (s : State) (m : MachineId) : BlockNumber := default 0 (MaxSlashExeced s !! m).
Definition offline_machine_to_renters (s : State) (m : MachineId) : list AccountId :=
  default [] (OfflineMachine2renters s !! m).

Definition put_machine (m : MachineId) (i : MachineInfo) (s : State) : State :=
  s <| MachinesInfo ::= <[m := i]> |>.
Definition add_at `{Countable K} `{Ord A} (k : K) (x : A) (c : gmap K (list A)) : gmap K (list A) :=
  <[k := add_item (default [] (c !! k)) x]> c.
Definition rm_at `{Countable K} `{Ord A} (k : K) (x : A) (c : gmap K (list A)) : gmap K (list A) :=
  <[k := rm_item (default [] (c !! k)) x]> c.

(** ** Statistics of positions and eras *)
Definition pos_of (i : MachineInfo) : Longitude * Latitude :=
  (longitude_of (staker_customize_info (machine_info_detail i)),
   latitude_of (staker_customize_info (machine_info_detail i))).
Definition pos_gpu_info (s : State) (p : Longitude * Latitude) : PosInfo :=
  default PosInfo_default (PosGPUInfo s !! p).
Definition update_region_on_online_changed (i : MachineInfo) (is_online : bool) (s : State) : State :=
  s <| PosGPUInfo ::= <[pos_of i :=
    pos_online_changed is_online (gpu_num i) (calc_point i) (pos_gpu_info s (pos_of i))]> |>.
Definition update_region_on_exit (i : MachineInfo) (s : State) : State :=
  let '(is_empty, p) := on_machine_exit (gpu_num i) (calc_point i) (pos_gpu_info s (pos_of i)) in
  if is_empty then s <| PosGPUInfo ::= delete (pos_of i) |> else s <| PosGPUInfo ::= <[pos_of i := p]> |>.
Definition update_region_on_rent_changed (i : MachineInfo) (is_rented : bool) (s : State) : State :=
  s <| PosGPUInfo ::= <[pos_of i := pos_rent_changed is_rented (gpu_num i) (pos_gpu_info s (pos_of i))]> |>.

Definition next_era (s : State) : EraIndex := VerifyOnline.add_block (CurrentEra s) 1.
Definition get_stash_grades (s : State) (e : EraIndex) (stash : AccountId) : Z :=
  match staker_statistic (eras_stash_points s e) !! stash with
  | Some x => default 0 (total_grades x)
  | None => 0
  end.

Definition adjust_rent_fee_destroy_percent (gpu_num : Z) (current_era : EraIndex) (s : State) : State :=
  let s :=
    if gpu_num =? 5000 then
      let info := default PhaseRewardInfoDetail_default (PhaseRewardInfo s) in
      if galaxy_on_era info =? 0
      then s <| PhaseRewardInfo := Some (info <| galaxy_on_era := current_era |>) |> else s
    else s in
  let destroy_percent :=
    if gpu_num <=? 4999 then percent_part 30
    else if gpu_num <=? 9999 then percent_part 70 else percent_part 100 in
  if parts (RentFeeDestroyPercent s) <? parts destroy_percent
  then s <| RentFeeDestroyPercent := destroy_percent |> else s.

(** The points of the stash before and after the eras were written. *)
Definition update_points (stash : AccountId) (pre : Z) (s : State) (stash_machine : StashMachine)
    (sys_info : SysInfoDetail) : StashMachine * SysInfoDetail :=
  let new := get_stash_grades s (next_era s) stash in
  let change v := saturating_sub (saturating_add U64_MAX v new) pre in
  (stash_machine <| stash_calc_points ::= change |>, sys_info <| total_calc_points ::= change |>).

Definition snap_on_online_changed (m : MachineId) (i : MachineInfo) (is_online : bool) (s : State) : State :=
  let stash := machine_stash i in
  let era := CurrentEra s in
  let current_era_machine_snap := eras_machine_points s era in
  let next_era_machine_snap := eras_machine_points s (next_era s) in
  let stash_machine := stash_machines s stash in
  let sys_info := SysInfo s in
  let pre_stash_grade := get_stash_grades s (next_era s) stash in
  let current_era_is_online := bool_decide (is_Some (current_era_machine_snap !! m)) in
  let next_era_stash_snap :=
    on_online_changed stash (gpu_num i) (calc_point i) is_online (eras_stash_points s (next_era s)) in
  let current_era_stash_snap :=
    if negb is_online && current_era_is_online
    then on_online_changed stash (gpu_num i) (calc_point i) is_online (eras_stash_points s era)
    else eras_stash_points s era in
  let next_era_machine_snap' :=
    if is_online then <[m := {| basic_grade := calc_point i; is_rented := false |}]> next_era_machine_snap
    else if current_era_is_online then delete m next_era_machine_snap else next_era_machine_snap in
  let current_era_machine_snap' :=
    if negb is_online && current_era_is_online then delete m current_era_machine_snap
    else current_era_machine_snap in
  let s := s <| ErasStashPoints ::= <[next_era s := next_era_stash_snap]> |>
             <| ErasMachinePoints ::= <[next_era s := next_era_machine_snap']> |> in
  let s := if is_online then s
           else s <| ErasStashPoints ::= <[era := current_era_stash_snap]> |>
                  <| ErasMachinePoints ::= <[era := current_era_machine_snap']> |> in
  let sys_info := sys_info <| total_gpu_num ::= λ v, up_or_down is_online v (gpu_num i) |> in
  let stash_machine := stash_machine
    <| stash_online ::= λ l, if is_online then add_item l m else rm_item l m |>
    <| stash_gpu_num ::= λ v, up_or_down is_online v (gpu_num i) |> in
  let '(stash_machine, sys_info) := update_points stash pre_stash_grade s stash_machine sys_info in
  let s := adjust_rent_fee_destroy_percent (total_gpu_num sys_info) era s in
  let sys_info :=
    if is_online && Nat.eqb (length (stash_online stash_machine)) 1
    then sys_info <| total_staker ::= λ v, saturating_add U64_MAX v 1 |> else sys_info in
  let sys_info :=
    if negb is_online && Nat.eqb (length (stash_online stash_machine)) 0
    then sys_info <| total_staker ::= λ v, saturating_sub v 1 |> else sys_info in
  s <| SysInfo := sys_info |> <| StashMachines ::= <[stash := stash_machine]> |>.

Definition snap_on_rent_changed (m : MachineId) (i : MachineInfo) (rented : bool) (s : State) : State :=
  let stash := machine_stash i in
  let era := CurrentEra s in
  let current_era_machine_snap := eras_machine_points s era in
  let stash_machine := stash_machines s stash in
  let sys_info := SysInfo s in
  let current_era_is_rented :=
    match current_era_machine_snap !! m with Some g => is_rented g | None => false end in
  let pre_stash_grade := get_stash_grades s (next_era s) stash in
  let grade := {| basic_grade := calc_point i; is_rented := rented |} in
  let next_era_stash_snap := on_rent_changed stash (calc_point i) rented (eras_stash_points s (next_era s)) in
  let next_era_machine_snap := <[m := grade]> (eras_machine_points s (next_era s)) in
  let current_era_stash_snap :=
    if current_era_is_rented then on_rent_changed stash (calc_point i) rented (eras_stash_points s era)
    else eras_stash_points s era in
  let s := s <| ErasStashPoints ::= <[next_era s := next_era_stash_snap]> |>
             <| ErasMachinePoints ::= <[next_era s := next_era_machine_snap]> |> in
  let s := if rented then s
           else s <| ErasStashPoints ::= <[era := current_era_stash_snap]> |>
                  <| ErasMachinePoints ::= <[era := <[m := grade]> current_era_machine_snap]> |> in
  let sys_info := sys_info <| total_rented_gpu ::= λ v, up_or_down rented v (gpu_num i) |> in
  let stash_machine := stash_machine <| stash_rented_gpu ::= λ v, up_or_down rented v (gpu_num i) |> in
  let '(stash_machine, sys_info) := update_points stash pre_stash_grade s stash_machine sys_info in
  s <| SysInfo := sys_info |> <| StashMachines ::= <[stash := stash_machine]> |>.

(** ** A new era *)
Definition current_era_reward (s : State) : option Balance :=
  info ← PhaseRewardInfo s;
  let current_era := CurrentEra s in
  if current_era <? online_reward_start_era info then None
  else
    let era_duration := saturating_sub current_era (online_reward_start_era info) in
    let era_reward :=
      if era_duration <? first_phase_duration info then phase_0_reward_per_era info
      else if era_duration <? first_phase_duration info + 1825 then phase_1_reward_per_era info
      else phase_2_reward_per_era info in
    if negb (galaxy_on_era info =? 0) && (current_era <? galaxy_on_era info + 60)
    then checked_mul U128_MAX era_reward 2 else Some era_reward.

Definition update_snap_for_new_era (s : State) : State :=
  let current_era := next_era s in
  let s := s <| CurrentEra := current_era |> in
  let s := s <| EraReward ::= <[current_era := default 0 (current_era_reward s)]> |> in
  if current_era =? 1 then
    s <| ErasStashPoints ::= λ x, <[2 := EraStashPoints_default]> (<[1 := EraStashPoints_default]>
           (<[0 := EraStashPoints_default]> x)) |>
      <| ErasMachinePoints ::= λ x, <[2 := ∅]> (<[1 := ∅]> (<[0 := ∅]> x)) |>
  else
    s <| ErasStashPoints ::= <[next_era s := eras_stash_points s current_era]> |>
      <| ErasMachinePoints ::= <[next_era s := eras_machine_points s current_era]> |>.
End pallet.
#[global] Arguments State P : clear implicits.

Section operations.
Context {P : PerThing} {LP : PerThingLaws P}.
Context {L H : Type} `{!ReservableCurrency L}.
Context `{!GNOps L H, !CommitteeRewards L H, !ServerRooms H, !TxFee L H, !RentPrice H} (T : Config).
Abbreviation MP := (M ((State P * H) * L) (DispatchError Error)).
Abbreviation MU := (M ((State P * H) * L) unit).

(** ** Prices and stakes *)
Definition stake_per_gpu (w : (State P * H) * L) : option Balance :=
  params ← OnlineStakeParams w.1.1;
  stake_limit_by_value ← dbc_amount_by_value w.1.2 (online_stake_usd_limit params);
  Some (Z.min (online_stake_per_gpu params) stake_limit_by_value).
Definition stake_per_gpu_v2 (w : (State P * H) * L) : option Balance :=
  params ← OnlineStakeParams w.1.1;
  Some (per_mul (from_rational 1000 100000) (online_stake_per_gpu params)).
Definition cal_mut_hardware_stake (w : (State P * H) * L) : option Balance :=
  params ← OnlineStakeParams w.1.1;
  dbc_amount_by_value w.1.2 (reonline_stake params).
Definition get_machine_price (s : State P) (machine_point need_gpu total_gpu : Z) : option Z :=
  if total_gpu =? 0 then None
  else
    price ← StandardGPUPointPrice s;
    x ← checked_mul U64_MAX (gpu_price price) machine_point;
    x ← checked_mul U64_MAX x 10000;
    x ← checked_div x (gpu_point price);
    x ← checked_mul U64_MAX x need_gpu;
    x ← checked_div x total_gpu;
    checked_div x 10000.

Definition change_stake (who : AccountId) (amount : Balance) (is_add : bool) : MU unit :=
  stash_stake ← own_gets (λ s, stash_stake s who);
  stash_stake ← (if is_add then
    stash_stake ← ok_or (checked_add U128_MAX stash_stake amount) tt;
    ok ← gets (λ w, can_reserve who amount w.2);
    ensure ok tt;;
    m_reserve who amount tt;;
    mret stash_stake
  else
    stash_stake ← ok_or (checked_sub stash_stake amount) tt;
    m_unreserve who amount;;
    mret stash_stake);
  own_modify (λ s, s <| SysInfo ::= on_stake_changed amount is_add |>);;
  own_modify (λ s, s <| StashStake ::= <[who := stash_stake]> |>);;
  own_modify (deposit_event (if is_add then StakeAdded who amount else StakeReduced who amount)).

Definition update_snap_on_online_changed (m : MachineId) (is_online : bool) : MU unit :=
  maybe_info ← own_gets (λ s, MachinesInfo s !! m);
  machine_info ← ok_or maybe_info tt;
  own_modify (snap_on_online_changed m machine_info is_online).
Definition update_snap_on_rent_changed (m : MachineId) (is_rented : bool) : MU unit :=
  maybe_info ← own_gets (λ s, MachinesInfo s !! m);
  machine_info ← ok_or maybe_info tt;
  own_modify (snap_on_rent_changed m machine_info is_rented).

(** The loop over the online machines of a stash. *)
Fixpoint fulfill_loop (machines : list MachineId) (amount_left : Balance) : MU unit :=
  match machines with
  | [] => mret tt
  | m :: machines =>
      maybe_info ← own_gets (λ s, MachinesInfo s !! m);
      match maybe_info with
      | None => fulfill_loop machines amount_left
      | Some machine_info =>
          maybe_stake ← gets stake_per_gpu;
          stake_amount_per_gpu ← ok_or maybe_stake tt;
          stake_need ← ok_or (checked_mul U128_MAX stake_amount_per_gpu (gpu_num machine_info)) tt;
          if stake_need <=? stake_amount machine_info then fulfill_loop machines amount_left
          else
            let extra_need := stake_need - stake_amount machine_info in
            let pre_stake := stake_amount machine_info in
            if extra_need <=? amount_left then
              change_stake (machine_stash machine_info) extra_need true;;
              own_modify (put_machine m (machine_info <| stake_amount := stake_need |>));;
              own_modify (deposit_event (MachineAddStake m pre_stake extra_need));;
              fulfill_loop machines (saturating_sub amount_left extra_need)
            else
              change_stake (machine_stash machine_info) amount_left true;;
              own_modify (put_machine m (machine_info <| stake_amount :=
                saturating_add U128_MAX (stake_amount machine_info) amount_left |>));;
              own_modify (deposit_event (MachineAddStake m pre_stake amount_left))
      end
  end.
Definition fulfill_machine_stake (stash : AccountId) (amount : Balance) : MU unit :=
  stash_machines ← own_gets (λ s, stash_machines s stash);
  fulfill_loop (stash_online stash_machines) amount.

Definition machine_offline (m : MachineId) (status : MachineStatus) : MU unit :=
  maybe_info ← own_gets (λ s, MachinesInfo s !! m);
  machine_info ← ok_or maybe_info tt;
  own_modify (λ s, s <| LiveMachines ::= on_offline m |>);;
  (if bool_decide (machine_status machine_info = Rented) then
     own_modify (update_region_on_rent_changed machine_info false);;
     update_snap_on_rent_changed m false
   else mret tt);;
  own_modify (update_region_on_online_changed machine_info false);;
  update_snap_on_online_changed m false;;
  own_modify (put_machine m (machine_info <| machine_status := status |>)).

Definition do_machine_exit (m : MachineId) (machine_info : MachineInfo) : MP unit :=
  map_err (Module ReduceStakeFailed)
    (change_stake (machine_stash machine_info) (stake_amount machine_info) false);;
  own_modify (update_region_on_exit machine_info);;
  map_err (Module Unknown) (update_snap_on_online_changed m false);;
  own_modify (λ s, s <| LiveMachines ::= on_exit m |>);;
  own_modify (λ s,
    let machines := rm_item (controller_machines s (controller machine_info)) m in
    if Nat.eqb (length machines) 0 then s <| ControllerMachines ::= delete (controller machine_info) |>
    else s <| ControllerMachines ::= <[controller machine_info := machines]> |>);;
  own_modify (λ s, s <| MachinesInfo ::= delete m |>);;
  own_modify (deposit_event (MachineExit m)).

(** ** Slashes *)
Definition get_new_slash_id : MP SlashId :=
  slash_id ← own_gets NextSlashId;
  own_modify (λ s, s <| NextSlashId := if slash_id =? U64_MAX then 0 else slash_id + 1 |>);;
  mret slash_id.

Definition slash_and_reward (slash_who : AccountId) (slash_amount : Balance) (reward_to : list AccountId) :
    MU unit :=
  ignore (with_callee (E:=unit) (gn_slash_and_reward [slash_who] slash_amount reward_to));;
  own_modify (λ s, s <| StashStake ::= <[slash_who := saturating_sub (stash_stake s slash_who) slash_amount]> |>);;
  own_modify (λ s, s <| SysInfo ::= λ i, i <| total_stake ::= λ v, saturating_sub v slash_amount |> |>).

(** The status is changed in a copy that is not stored. *)
Definition try_to_change_machine_status_to_fulfill (slash_account : AccountId) (machine_info : MachineInfo) :
    MU unit :=
  staked_amount ← own_gets (λ s, stash_stake s slash_account);
  maybe_stake ← gets stake_per_gpu;
  stake_amount_per_gpu ← ok_or maybe_stake tt;
  stake_need ← ok_or (checked_mul U128_MAX stake_amount_per_gpu (gpu_num machine_info)) tt;
  let _ := if staked_amount <? stake_need then machine_info <| machine_status := WaitingFulfill |>
           else machine_info in
  mret tt.

Definition do_slash_deposit (slash_info : OPPendingSlashInfo) : MU unit :=
  maybe_info ← own_gets (λ s, MachinesInfo s !! slash_machine slash_info);
  machine_info ← ok_or maybe_info tt;
  reserved ← gets (λ w, reserved_balance w.2 (machine_stash machine_info));
  if reserved <? slash_amount slash_info then mret tt
  else
    let who := slash_who slash_info in
    let renters := slash_renters slash_info in
    let reward_to_reporter :=
      if Nat.eqb (length renters) 0 then 0 else per_mul (from_rational 10 100) (slash_amount slash_info) in
    let reward_to_committee_amount :=
      match reward_to_committee slash_info with
      | Some _ => per_mul (from_rational 20 100) (slash_amount slash_info)
      | None => 0
      end in
    let slash_to_treasury :=
      saturating_sub (saturating_sub (slash_amount slash_info) reward_to_reporter) reward_to_committee_amount in
    (if (0 <? reward_to_reporter) && negb (Nat.eqb (length renters) 0)
     then ignore (slash_and_reward who reward_to_reporter renters) else mret tt);;
    (match reward_to_committee slash_info with
     | Some committee =>
         if 0 <? reward_to_committee_amount
         then ignore (slash_and_reward who reward_to_committee_amount committee) else mret tt
     | None => mret tt
     end);;
    ignore (slash_and_reward who slash_to_treasury []);;
    try_to_change_machine_status_to_fulfill who machine_info.

Definition exec_a_slash (slash_id : SlashId) : MU unit :=
  maybe_slash ← own_gets (λ s, PendingSlash s !! slash_id);
  match maybe_slash with
  | None => mret tt
  | Some slash_info =>
      (match slash_reason slash_info with
       | CommitteeRefusedOnline | CommitteeRefusedMutHardware =>
           ignore (slash_and_reward (slash_who slash_info) (slash_amount slash_info)
             (default [] (reward_to_committee slash_info)))
       | _ => ignore (do_slash_deposit slash_info)
       end);;
      own_modify (deposit_event
        (SlashExecuted (slash_who slash_info) (slash_machine slash_info) (slash_amount slash_info)));;
      own_modify (λ s, s <| PendingSlash ::= delete slash_id |>)
  end.
Definition exec_pending_slash (now : BlockNumber) : MU unit :=
  pending_exec_slash ← own_gets (λ s, default [] (PendingExecSlash s !! now));
  for_each pending_exec_slash exec_a_slash.

Definition check_a_review (slash_id : SlashId) : MU unit :=
  maybe_review ← own_gets (λ s, PendingSlashReview s !! slash_id);
  review ← ok_or maybe_review tt;
  maybe_stash ← own_gets (λ s, ControllerStash s !! applicant review);
  stash ← ok_or maybe_stash tt;
  slash_and_reward stash (staked_amount review) [];;
  own_modify (λ s, s <| PendingSlashReview ::= delete slash_id |>).
Definition check_pending_slash (now : BlockNumber) : MU unit :=
  pending ← own_gets (λ s, PendingSlashReviewChecking s !! now);
  match pending with
  | None => mret tt
  | Some pending_slash_checking =>
      for_each pending_slash_checking check_a_review;;
      own_modify (λ s, s <| PendingSlashReviewChecking ::= delete now |>)
  end.

Definition new_offline_slash (now : BlockNumber) (slash_percent : Z) (m : MachineId)
    (reporter : option AccountId) (renters : list AccountId) (committee : option (list AccountId))
    (reason : OPSlashReason) : MU OPPendingSlashInfo :=
  maybe_info ← own_gets (λ s, MachinesInfo s !! m);
  machine_info ← ok_or maybe_info tt;
  mret {|
    slash_who := machine_stash machine_info; slash_machine := m; slash_time := now;
    slash_amount := per_mul (from_rational slash_percent 100) (stake_amount machine_info);
    slash_exec_time := VerifyOnline.add_block now VerifyOnline.TWO_DAYS;
    reporter := reporter; slash_renters := renters; reward_to_committee := committee;
    slash_reason := reason |}.

Definition new_slash_when_offline (now : BlockNumber) (m : MachineId) (reason : OPSlashReason)
    (reporter : option AccountId) (renters : list AccountId) (committee : option (list AccountId))
    (duration : BlockNumber) : MU OPPendingSlashInfo :=
  let percent := slash_percent reason duration in
  let late_reporter := if duration <=? VerifyOnline.TWO_DAYS then None else reporter in
  let '(reporter, renters, committee) :=
    match reason with
    | RentedReportOffline _ => (late_reporter, renters, None)
    | OnlineReportOffline _ => (None, [], None)
    | RentedInaccessible _ => (late_reporter, renters, committee)
    | RentedHardwareMalfunction _ | RentedHardwareCounterfeit _ | OnlineRentFailed _ =>
        (reporter, renters, committee)
    | _ => (None, [], None)
    end in
  new_offline_slash now percent m reporter renters committee reason.

Definition record_slash (m : MachineId) (slash_info : OPPendingSlashInfo) : MP unit :=
  slash_id ← get_new_slash_id;
  own_modify (λ s, s <| PendingExecSlash ::= add_at (slash_exec_time slash_info) slash_id |>);;
  own_modify (λ s, s <| PendingSlash ::= <[slash_id := slash_info]> |>);;
  own_modify (λ s, s <| Machine2PendingSlashIds ::= add_at m slash_id |>);;
  own_modify (deposit_event (AddSlash m slash_id)).

Definition do_cancel_slash (slash_id : SlashId) : MP unit :=
  maybe_slash ← own_gets (λ s, PendingSlash s !! slash_id);
  ensure (bool_decide (is_Some maybe_slash)) (Module SlashIdNotExist);;
  slash_info ← ok_or maybe_slash (Module Unknown);
  maybe_review ← own_gets (λ s, PendingSlashReview s !! slash_id);
  review ← ok_or maybe_review (Module Unknown);
  map_err (Module ReduceStakeFailed) (change_stake (slash_who slash_info) (slash_amount slash_info) false);;
  map_err (Module ReduceStakeFailed) (change_stake (slash_who slash_info) (staked_amount review) false);;
  own_modify (λ s, s <| PendingSlashReviewChecking ::= rm_at (slash_exec_time slash_info) slash_id |>);;
  own_modify (λ s, s <| PendingExecSlash ::= rm_at (slash_exec_time slash_info) slash_id |>);;
  own_modify (λ s, s <| PendingSlash ::= delete slash_id |>);;
  own_modify (λ s, s <| PendingSlashReview ::= delete slash_id |>);;
  own_modify (deposit_event (SlashCanceled slash_id (slash_who slash_info) (slash_amount slash_info))).

(** ** Rewards of an era *)
Definition calc_machine_total_reward (m : MachineId) (stash : AccountId) (era_total_reward : Balance)
    (era_machine_points : gmap MachineId MachineGradeStatus) (era_stash_points : EraStashPoints) : Balance :=
  let machine_actual_grade :=
    match era_machine_points !! m, staker_statistic era_stash_points !! stash with
    | Some g, Some x => machine_actual_grade (inflation x) g
    | _, _ => 0
    end in
  if total era_stash_points =? 0 then 0
  else per_mul (from_rational machine_actual_grade (total era_stash_points)) era_total_reward.

(** What of the reward of the era a machine's stash and committee get over time. *)
Definition machine_actual_total_reward (release_era deadline : EraIndex) (machine_total_reward : Balance) :
    Balance :=
  if deadline <? release_era then machine_total_reward
  else if saturating_sub deadline 150 <? release_era then
    let total_daily_release := per_mul (from_rational 1 200) machine_total_reward in
    let total_committee_release := per_mul (from_rational 1 100) total_daily_release in
    let release_day := saturating_sub deadline release_era in
    (machine_total_reward - total_committee_release * release_day) mod 2 ^ 128
  else per_mul (from_rational 99 100) machine_total_reward.

Definition released (r : MachineRecentRewardInfo) : Balance :=
  (per_mul (from_rational 49 200) (default 0 (last (recent_machine_reward r))) +
   per_mul (from_rational 1 200) (recent_reward_sum r)) mod 2 ^ 128.

Definition distribute_reward_to_machine (m : MachineId) (release_era : EraIndex)
    (era_total_reward : Balance) (era_machine_points : gmap MachineId MachineGradeStatus)
    (era_stash_points : EraStashPoints) : MU unit :=
  maybe_reward ← own_gets (λ s, MachineRecentReward s !! m);
  machine_reward_info ← ok_or maybe_reward tt;
  let stash := reward_stash machine_reward_info in
  stash_machine ← own_gets (λ s, stash_machines s stash);
  let machine_total_reward :=
    calc_machine_total_reward m stash era_total_reward era_machine_points era_stash_points in
  let machine_reward_info := add_new_reward machine_total_reward machine_reward_info in
  if recent_reward_sum machine_reward_info =? 0 then
    own_modify (λ s, s <| MachineRecentReward ::= <[m := machine_reward_info]> |>)
  else
    let released_reward := released machine_reward_info in
    let deadline := reward_committee_deadline machine_reward_info in
    let '(reward_to_stash, reward_to_committee) :=
      if deadline <? release_era then (released_reward, 0)
      else
        let release_to_stash := per_mul (from_rational 99 100) released_reward in
        (release_to_stash, saturating_sub released_reward release_to_stash) in
    let committee := reward_committee machine_reward_info in
    let committee_each_get :=
      per_mul (from_rational 1 (Z.of_nat (length committee) mod 2 ^ 32)) reward_to_committee in
    for_each committee (λ a, ignore (with_callee (E:=unit) (mc_add_reward a committee_each_get)));;
    let actual := machine_actual_total_reward release_era deadline machine_total_reward in
    let grow := saturating_add U128_MAX in
    own_modify (λ s, s
      <| ErasMachineReward ::= <[(release_era, m) := actual]> |>
      <| ErasStashReward ::= λ x, <[(release_era, stash) := grow (default 0 (x !! (release_era, stash))) actual]> x |>
      <| ErasMachineReleasedReward ::= λ x,
           <[(release_era, m) := grow (default 0 (x !! (release_era, m))) reward_to_stash]> x |>
      <| ErasStashReleasedReward ::= λ x,
           <[(release_era, stash) := grow (default 0 (x !! (release_era, stash))) reward_to_stash]> x |>
      <| StashMachines ::= <[stash := stash_machine
           <| can_claim_reward ::= λ v, grow v reward_to_stash |>
           <| total_earned_reward ::= λ v, grow v actual |>]> |>
      <| MachineRecentReward ::= <[m := machine_reward_info]> |>).

(** [n] machines from the front of the queue; the rest of it. *)
Fixpoint release_loop (n : nat) (queue : list MachineId) (release_era : EraIndex)
    (era_total_reward : Balance) (era_machine_points : gmap MachineId MachineGradeStatus)
    (era_stash_points : EraStashPoints) : MU (list MachineId) :=
  match n, queue with
  | O, _ | _, [] => mret queue
  | S n, m :: queue =>
      ignore (distribute_reward_to_machine m release_era era_total_reward era_machine_points era_stash_points);;
      release_loop n queue release_era era_total_reward era_machine_points era_stash_points
  end.

Definition get_all_stash (s : State P) : list AccountId := iter_order T (map_to_list (StashMachines s)).*1.

Definition backup_and_reward (now : BlockNumber) : MU unit :=
  let block_offset := now mod VerifyOnline.ONE_DAY in
  if block_offset =? 2 then
    own_modify (λ s,
      let all_machine := mjoin ((λ a, total_machine (stash_machines s a)) <$> get_all_stash s) in
      s <| AllMachineIdSnap := {| all_machine_id := all_machine; snap_len := Z.of_nat (length all_machine) |} |>)
  else if (3 <=? block_offset) && (block_offset <=? 62) then
    all_machine ← own_gets AllMachineIdSnap;
    let release_num := snap_len all_machine / 60 in
    release_era ← own_gets (λ s, saturating_sub (CurrentEra s) 1);
    era_total_reward ← own_gets (λ s, default 0 (EraReward s !! release_era));
    era_machine_points ← own_gets (λ s, eras_machine_points s release_era);
    era_stash_points ← own_gets (λ s, eras_stash_points s release_era);
    queue ← release_loop (Z.to_nat (release_num + 1)) (all_machine_id all_machine) release_era
      era_total_reward era_machine_points era_stash_points;
    own_modify (λ s, s <| AllMachineIdSnap :=
      {| all_machine_id := queue; snap_len := snap_len all_machine |} |>)
  else mret tt.

Definition on_initialize (block_number : BlockNumber) : MU unit :=
  backup_and_reward block_number;;
  (if block_number mod VerifyOnline.ONE_DAY =? 1 then own_modify update_snap_for_new_era else mret tt);;
  exec_pending_slash block_number;;
  ignore (check_pending_slash block_number).

(** ** Dispatchables *)
Definition set_reward_info (origin : Origin) (reward_info : PhaseRewardInfoDetail) : MP unit :=
  ensure_root origin;;
  own_modify (λ s, s <| PhaseRewardInfo := Some reward_info |>).
Definition set_online_stake_params (origin : Origin) (params : OnlineStakeParamsInfo) : MP unit :=
  ensure_root origin;;
  own_modify (λ s, s <| OnlineStakeParams := Some params |>).
Definition set_standard_gpu_point_price (origin : Origin) (point_price : StandardGpuPointPrice) : MP unit :=
  ensure_root origin;;
  own_modify (λ s, s <| StandardGPUPointPrice := Some point_price |>).
Definition set_rentfee_destroy_percent (origin : Origin) (percent : Part P) : MP unit :=
  ensure_root origin;;
  own_modify (λ s, s <| RentFeeDestroyPercent := percent |>).

Definition set_controller (origin : Origin) (controller : AccountId) : MP unit :=
  stash ← ensure_signed origin;
  is_controller ← own_gets (λ s, bool_decide (is_Some (ControllerStash s !! controller)));
  ensure (negb is_controller) (Module AlreadyController);;
  has_controller ← own_gets (λ s, bool_decide (is_Some (StashController s !! stash)));
  ensure (negb has_controller) (Module AlreadyController);;
  own_modify (λ s, s <| StashController ::= <[stash := controller]> |>);;
  own_modify (λ s, s <| ControllerStash ::= <[controller := stash]> |>);;
  own_modify (deposit_event (ControllerStashBonded controller stash)).

Definition set_machine_controller (new_controller : AccountId) (m : MachineId) : MP unit :=
  maybe_info ← own_gets (λ s, MachinesInfo s !! m);
  machine_info ← ok_or maybe_info (Module Unknown);
  own_modify (put_machine m (machine_info <| controller := new_controller |>)).
Definition stash_reset_controller (origin : Origin) (new_controller : AccountId) : MP unit :=
  stash ← ensure_signed origin;
  is_controller ← own_gets (λ s, bool_decide (is_Some (ControllerStash s !! new_controller)));
  ensure (negb is_controller) (Module AlreadyController);;
  maybe_controller ← own_gets (λ s, StashController s !! stash);
  pre_controller ← ok_or maybe_controller (Module Unknown);
  controller_machines ← own_gets (λ s, controller_machines s pre_controller);
  for_each controller_machines (set_machine_controller new_controller);;
  own_modify (λ s, s <| ControllerMachines ::= delete pre_controller |>);;
  own_modify (λ s, s <| ControllerMachines ::= <[new_controller := controller_machines]> |>);;
  own_modify (λ s, s <| StashController ::= <[stash := new_controller]> |>);;
  own_modify (λ s, s <| ControllerStash ::= delete pre_controller |>);;
  own_modify (λ s, s <| ControllerStash ::= <[new_controller := stash]> |>);;
  own_modify (deposit_event (StashResetController stash pre_controller new_controller)).

Definition offline_machine_change_hardware_info (now : BlockNumber) (origin : Origin) (m : MachineId) : MP unit :=
  who ← ensure_signed origin;
  maybe_info ← own_gets (λ s, MachinesInfo s !! m);
  machine_info ← ok_or maybe_info (Module Unknown);
  ensure (is_controller machine_info who) (Module NotMachineController);;
  ensure (is_online machine_info) (Module MachineStatusNotAllowed);;
  let machine_info := machine_info <| machine_status := StakerReportOffline now Online |> in
  let stash := machine_stash machine_info in
  maybe_fee ← gets cal_mut_hardware_stake;
  verify_fee ← ok_or maybe_fee (Module GetReonlineStakeFailed);
  let offline_slash := per_mul (from_rational 4 100) (stake_amount machine_info) in
  let total_stake := saturating_add U128_MAX verify_fee offline_slash in
  map_err (Module BalanceNotEnough) (change_stake stash total_stake true);;
  own_modify (λ s, s <| UserMutHardwareStake ::= <[(stash, m) := {|
    verify_fee := verify_fee; offline_slash := offline_slash; offline_time := now;
    need_fulfilling := false |}]> |>);;
  own_modify (update_region_on_online_changed machine_info false);;
  map_err (Module Unknown) (update_snap_on_online_changed m false);;
  own_modify (λ s, s <| LiveMachines ::= on_offline_change_hardware m |>);;
  own_modify (put_machine m machine_info);;
  own_modify (deposit_event (MachineOfflineToMutHardware m verify_fee offline_slash)).

Definition check_bonding_msg (stash : AccountId) (m : MachineId) (msg sig : bytes) : MP unit :=
  ensure (Nat.eqb (length msg) 112) (Module BadMsgLen);;
  ensure (bool_decide (m = take 64 msg)) (Module SigMachineIdNotEqualBondedMachineId);;
  sig_stash_account ← ok_or (get_account_from_str T (drop 64 msg)) (Module ConvertMachineIdToWalletFailed);
  ensure (bool_decide (sig_stash_account = stash)) (Module MachineStashNotEqualControllerStash);;
  ensure (verify_sig T msg sig m) (Module BadSignature).

Definition bond_machine (now : BlockNumber) (origin : Origin) (m : MachineId) (msg sig : bytes) : MP unit :=
  controller ← ensure_signed origin;
  maybe_stash ← own_gets (λ s, ControllerStash s !! controller);
  stash ← ok_or maybe_stash (Module NoStashBond);
  exists_already ← own_gets (λ s, bool_decide (is_Some (MachinesInfo s !! m)));
  ensure (negb exists_already) (Module MachineIdExist);;
  stash_machine ← own_gets (λ s, stash_machines s stash);
  ensure (negb (is_ok (binary_search (total_machine stash_machine) m))) (Module MachineIdExist);;
  check_bonding_msg stash m msg sig;;
  maybe_stake ← gets stake_per_gpu_v2;
  stake_amount ← ok_or maybe_stake (Module CalcStakeAmountFailed);
  map_err (Module PayTxFeeFailed) (with_callee (pay_fixed_tx_fee controller));;
  map_err (Module BalanceNotEnough) (change_stake stash stake_amount true);;
  own_modify (λ s, s <| StashMachines ::= <[stash := stash_new_bonding m (stash_machines s stash)]> |>);;
  own_modify (λ s, s <| LiveMachines ::= on_bonding m |>);;
  own_modify (λ s, s <| ControllerMachines ::= add_at controller m |>);;
  own_modify (put_machine m (new_bonding controller stash now stake_amount));;
  own_modify (deposit_event (BondMachine controller m stake_amount)).

Definition gen_server_room (origin : Origin) : MP unit :=
  controller ← ensure_signed origin;
  maybe_stash ← own_gets (λ s, ControllerStash s !! controller);
  stash ← ok_or maybe_stash (Module NoStashBond);
  map_err (Module PayTxFeeFailed) (with_callee (pay_fixed_tx_fee controller));;
  new_server_room ← with_callee (λ w : H * L, let '(r, h) := rnd_server_room w.1 in (Ok r, (h, w.2)));
  own_modify (λ s, s <| StashServerRooms ::= add_at stash new_server_room |>);;
  own_modify (deposit_event (ServerRoomGenerated controller new_server_room)).

Definition check_room (stash : AccountId) (info : StakerCustomizeInfo) : MP unit :=
  rooms ← own_gets (λ s, stash_server_rooms s stash);
  ensure (negb (Nat.eqb (length (telecom_operators info)) 0)) (Module TelecomIsNull);;
  ensure (is_ok (binary_search rooms (server_room info))) (Module ServerRoomNotFound).
Definition from_result {A} (r : result OnlineErr A) : MP A := λ w,
  match r with Ok a => (Ok a, w) | Err e => (Err (Module (from_online_err e)), w) end.
Definition put_server_room (m : MachineId) (info : StakerCustomizeInfo) : MP unit :=
  maybe_info ← own_gets (λ s, MachinesInfo s !! m);
  machine_info ← ok_or maybe_info (Module Unknown);
  own_modify (put_machine m (add_server_room_info info machine_info)).

Definition add_machine_info (origin : Origin) (m : MachineId) (server_room_info : StakerCustomizeInfo) : MP unit :=
  controller ← ensure_signed origin;
  maybe_info ← own_gets (λ s, MachinesInfo s !! m);
  machine_info ← ok_or maybe_info (Module Unknown);
  let stash := machine_stash machine_info in
  from_result (can_add_server_room machine_info controller);;
  check_room stash server_room_info;;
  is_reonline ← own_gets (λ s, bool_decide (is_Some (UserMutHardwareStake s !! (stash, m))));
  (if (is_reonline : bool) then
     reonline_stake ← own_gets (λ s, user_mut_hardware_stake s stash m);
     if verify_fee reonline_stake =? 0 then
       maybe_fee ← gets cal_mut_hardware_stake;
       fee ← ok_or maybe_fee (Module GetReonlineStakeFailed);
       map_err (Module BalanceNotEnough) (change_stake stash fee true);;
       own_modify (λ s, s <| UserMutHardwareStake ::=
         <[(stash, m) := reonline_stake <| verify_fee := fee |>]> |>)
     else mret tt
   else mret tt);;
  own_modify (λ s, s <| LiveMachines ::= on_add_server_room m |>);;
  put_server_room m server_room_info;;
  own_modify (deposit_event (MachineInfoAdded m)).

Definition update_machine_info (origin : Origin) (m : MachineId) (server_room_info : StakerCustomizeInfo) : MP unit :=
  controller ← ensure_signed origin;
  maybe_info ← own_gets (λ s, MachinesInfo s !! m);
  machine_info ← ok_or maybe_info (Module Unknown);
  from_result (can_update_server_room_info machine_info controller);;
  check_room (machine_stash machine_info) server_room_info;;
  put_server_room m server_room_info;;
  own_modify (deposit_event (MachineInfoUpdated m)).

Definition new_recent_reward (i : MachineInfo) : MachineRecentRewardInfo := {|
  reward_stash := machine_stash i; reward_committee_deadline := reward_deadline i;
  reward_committee := MachineInfo.reward_committee i; recent_machine_reward := [];
  recent_reward_sum := 0 |}.

Definition fulfill_machine (now : BlockNumber) (origin : Origin) (m : MachineId) : MP unit :=
  who ← ensure_signed origin;
  current_era ← own_gets CurrentEra;
  maybe_info ← own_gets (λ s, MachinesInfo s !! m);
  machine_info ← ok_or maybe_info (Module Unknown);
  live_machine ← own_gets LiveMachines;
  ensure (is_controller machine_info who) (Module NotMachineController);;
  ensure (is_ok (binary_search (fulfilling_machine live_machine) m)) (Module MachineStatusNotAllowed);;
  stake_need ← ok_or (checked_mul U128_MAX (init_stake_per_gpu machine_info) (gpu_num machine_info))
    (Module CalcStakeAmountFailed);
  machine_info ← (if stake_amount machine_info <? stake_need then
    map_err (Module BalanceNotEnough) (change_stake (machine_stash machine_info)
      (saturating_sub stake_need (stake_amount machine_info)) true);;
    mret (machine_info <| stake_amount := stake_need |>)
  else mret machine_info);
  let stash := machine_stash machine_info in
  own_modify (λ s, s <| UserMutHardwareStake ::= delete (stash, m) |>);;
  let machine_info := machine_info <| machine_status := Online |> <| online_height := now |>
    <| reward_deadline := VerifyOnline.add_block current_era REWARD_DURATION |> in
  own_modify (λ s, s <| MachineRecentReward ::= <[m := new_recent_reward machine_info]> |>);;
  let machine_info := machine_info <| last_online_height := now |> <| last_machine_restake := now |> in
  own_modify (update_region_on_online_changed machine_info true);;
  map_err (Module Unknown) (update_snap_on_online_changed m true);;
  own_modify (λ s, s <| LiveMachines := live_machine
    <| fulfilling_machine ::= λ l, rm_item l m |> <| online_machine ::= λ l, add_item l m |> |>);;
  own_modify (put_machine m machine_info).

Definition claim_rewards (origin : Origin) : MP unit :=
  who ← ensure_signed origin;
  maybe_stash ← own_gets (λ s, ControllerStash s !! who);
  stash ← ok_or maybe_stash (Module NoStashAccount);
  maybe_machine ← own_gets (λ s, StashMachines s !! stash);
  ensure (bool_decide (is_Some maybe_machine)) (Module NotMachineController);;
  claimed ← ok_or (claim_reward (default StashMachine_default maybe_machine)) (Module ClaimRewardFailed);
  let '(can_claim, stash_machine) := claimed in
  m_deposit_into_existing stash can_claim (Module ClaimRewardFailed);;
  map_err (Module ClaimThenFulfillFailed) (fulfill_machine_stake stash can_claim);;
  own_modify (deposit_event (ClaimReward stash can_claim));;
  own_modify (λ s, s <| StashMachines ::= <[stash := stash_machine]> |>).

Definition controller_report_offline (now : BlockNumber) (origin : Origin) (m : MachineId) : MP unit :=
  who ← ensure_signed origin;
  maybe_info ← own_gets (λ s, MachinesInfo s !! m);
  machine_info ← ok_or maybe_info (Module Unknown);
  ensure (is_controller machine_info who) (Module NotMachineController);;
  ensure (can_rent machine_info) (Module MachineStatusNotAllowed);;
  map_err (Module Unknown) (machine_offline m (StakerReportOffline now (machine_status machine_info)));;
  own_modify (deposit_event (ControllerReportOffline m)).

(** When a machine went offline, if it can report itself online again. *)
Definition offline_since (status : MachineStatus) : option BlockNumber :=
  match status with
  | StakerReportOffline t _ => Some t
  | ReporterReportOffline (RentedInaccessible t | RentedHardwareMalfunction t |
      RentedHardwareCounterfeit t | OnlineRentFailed t) _ _ _ => Some t
  | _ => None
  end.
(** The terms of the slash and the status before. *)
Definition offline_terms (s : State P) (m : MachineId) (i : MachineInfo) :
    option (OPSlashReason * option AccountId * list AccountId * option (list AccountId) * MachineStatus) :=
  match machine_status i with
  | StakerReportOffline t Online => Some (OnlineReportOffline t, None, [], None, Online)
  | StakerReportOffline t Rented => Some (RentedReportOffline t, None, renters i, None, Rented)
  | ReporterReportOffline reason before reporter committee =>
      Some (reason, Some reporter, offline_machine_to_renters s m, Some committee, before)
  | _ => None
  end.
Definition reported_offline (status : MachineStatus) : bool :=
  match status with ReporterReportOffline _ _ _ _ => true | _ => false end.

Definition controller_report_online (now : BlockNumber) (origin : Origin) (m : MachineId) : MP unit :=
  who ← ensure_signed origin;
  maybe_info ← own_gets (λ s, MachinesInfo s !! m);
  machine_info ← ok_or maybe_info (Module Unknown);
  ensure (is_controller machine_info who) (Module NotMachineController);;
  live_machine ← own_gets LiveMachines;
  offline_time ← ok_or (offline_since (machine_status machine_info)) (Module MachineStatusNotAllowed);
  let offline_duration := saturating_sub now offline_time in
  terms ← own_gets (λ s, offline_terms s m machine_info);
  match terms with
  | None => mret tt
  | Some (reason, reporter, renters, committee, status_before_offline) =>
      slash_info ← map_err (Module Unknown)
        (new_slash_when_offline now m reason reporter renters committee offline_duration);
      ever_slashed ← own_gets (λ s, max_slash_execed s m);
      let slash_info :=
        if reported_offline (machine_status machine_info) && reach_max_slash reason offline_duration &&
           (offline_time <? ever_slashed) && (ever_slashed <? now)
        then slash_info <| slash_amount := 0 |> else slash_info in
      let slash_info :=
        if (online_height machine_info <=? now) &&
           (365 * VerifyOnline.ONE_DAY <? saturating_sub now (online_height machine_info)) &&
           (last_online_height machine_info <=? offline_time) &&
           (10 * VerifyOnline.ONE_DAY <=? saturating_sub offline_time (last_online_height machine_info)) &&
           negb (reported_offline (machine_status machine_info))
        then slash_info <| slash_amount := 0 |> else slash_info in
      finished ← own_gets (λ s, bool_decide (is_Some (RentedFinished s !! m)));
      let machine_info := machine_info <| last_online_height := now |>
        <| machine_status := if (finished : bool) then Online else status_before_offline |> in
      (if negb (slash_amount slash_info =? 0) then
         map_err (Module BalanceNotEnough)
           (change_stake (machine_stash machine_info) (slash_amount slash_info) true);;
         record_slash m slash_info
       else mret tt);;
      map_err (Module Unknown) (update_snap_on_online_changed m true);;
      own_modify (update_region_on_online_changed machine_info true);;
      let live_machine := live_machine <| offline_machine ::= λ l, rm_item l m |> in
      live_machine ← (if bool_decide (machine_status machine_info = Rented) then
        map_err (Module Unknown) (update_snap_on_rent_changed m true);;
        own_modify (update_region_on_rent_changed machine_info true);;
        mret (live_machine <| rented_machine ::= λ l, add_item l m |>)
      else mret (live_machine <| online_machine ::= λ l, add_item l m |>));
      own_modify (λ s, s <| RentedFinished ::= delete m |>);;
      own_modify (λ s, s <| LiveMachines := live_machine |>);;
      own_modify (put_machine m machine_info);;
      own_modify (deposit_event (ControllerReportOnline m))
  end.

Definition machine_exit (now : BlockNumber) (origin : Origin) (m : MachineId) : MP unit :=
  who ← ensure_signed origin;
  maybe_info ← own_gets (λ s, MachinesInfo s !! m);
  machine_info ← ok_or maybe_info (Module Unknown);
  current_era ← own_gets CurrentEra;
  ensure (is_controller machine_info who) (Module NotMachineController);;
  ensure (is_online machine_info) (Module MachineStatusNotAllowed);;
  ensure (reward_deadline machine_info <=? VerifyOnline.add_block current_era 365) (Module TimeNotAllowed);;
  ensure (10 * VerifyOnline.ONE_DAY <=? saturating_sub now (last_online_height machine_info))
    (Module TimeNotAllowed);;
  do_machine_exit m machine_info.

Definition restake_online_machine (now : BlockNumber) (origin : Origin) (m : MachineId) : MP unit :=
  who ← ensure_signed origin;
  maybe_info ← own_gets (λ s, MachinesInfo s !! m);
  machine_info ← ok_or maybe_info (Module Unknown);
  let pre_stake := stake_amount machine_info in
  ensure (is_controller machine_info who) (Module NotMachineController);;
  ensure (REBOND_FREQUENCY <=? saturating_sub now (last_machine_restake machine_info))
    (Module TooFastToReStake);;
  maybe_stake ← gets stake_per_gpu;
  stake_per_gpu ← ok_or maybe_stake (Module CalcStakeAmountFailed);
  stake_need ← ok_or (checked_mul U128_MAX stake_per_gpu (gpu_num machine_info)) (Module CalcStakeAmountFailed);
  ensure (stake_need <? stake_amount machine_info) (Module NoStakeToReduce);;
  extra_stake ← ok_or (checked_sub (stake_amount machine_info) stake_need) (Module ReduceStakeFailed);
  let machine_info := machine_info <| stake_amount := stake_need |> <| last_machine_restake := now |>
    <| init_stake_per_gpu := stake_per_gpu |> in
  map_err (Module ReduceStakeFailed) (change_stake (machine_stash machine_info) extra_stake false);;
  own_modify (put_machine m machine_info);;
  own_modify (deposit_event (MachineRestaked m pre_stake stake_need)).

Definition apply_slash_review (now : BlockNumber) (origin : Origin) (slash_id : SlashId) (reason : bytes) : MP unit :=
  who ← ensure_signed origin;
  maybe_slash ← own_gets (λ s, PendingSlash s !! slash_id);
  slash_info ← ok_or maybe_slash (Module Unknown);
  maybe_info ← own_gets (λ s, MachinesInfo s !! slash_machine slash_info);
  machine_info ← ok_or maybe_info (Module Unknown);
  maybe_params ← own_gets OnlineStakeParams;
  params ← ok_or maybe_params (Module GetReonlineStakeFailed);
  ensure (bool_decide (controller machine_info = who)) (Module NotMachineController);;
  ensure (now <? slash_exec_time slash_info) (Module ExpiredSlash);;
  map_err (Module BalanceNotEnough) (change_stake (machine_stash machine_info) (slash_review_stake params) true);;
  own_modify (λ s, s <| PendingSlashReview ::= <[slash_id := {|
    applicant := who; staked_amount := slash_review_stake params; apply_time := now;
    expire_time := slash_exec_time slash_info; review_reason := reason |}]> |>);;
  own_modify (λ s, s <| PendingSlashReviewChecking ::= add_at (slash_exec_time slash_info) slash_id |>);;
  own_modify (deposit_event (ApplySlashReview slash_id)).

Definition cancel_slash (origin : Origin) (slash_id : SlashId) : MP unit :=
  ensure (CancelSlashOrigin T origin) BadOrigin;;
  do_cancel_slash slash_id.

Definition exec_slash (now : BlockNumber) (origin : Origin) (m : MachineId) : MP unit :=
  ensure_signed origin;;
  maybe_info ← own_gets (λ s, MachinesInfo s !! m);
  machine_info ← ok_or maybe_info (Module Unknown);
  match machine_status machine_info with
  | ReporterReportOffline reason _ reporter committee =>
      report_time ← ok_or (offline_since (machine_status machine_info)) (Module MachineStatusNotAllowed);
      let offline_duration := saturating_sub now report_time in
      ensure (reach_max_slash reason offline_duration) (Module MachineStatusNotAllowed);;
      ever_slashed ← own_gets (λ s, max_slash_execed s m);
      ensure (negb ((report_time <? ever_slashed) && (ever_slashed <? now))) (Module MachineStatusNotAllowed);;
      renters ← own_gets (λ s, offline_machine_to_renters s m);
      slash_info ← map_err (Module Unknown)
        (new_slash_when_offline now m reason (Some reporter) renters (Some committee) offline_duration);
      (if negb (slash_amount slash_info =? 0) then record_slash m slash_info else mret tt);;
      own_modify (λ s, s <| MaxSlashExeced ::= <[m := now]> |>)
  | _ => fail (Module MachineStatusNotAllowed)
  end.

Definition force_a_machine_exit (m : MachineId) : MP unit :=
  maybe_info ← own_gets (λ s, MachinesInfo s !! m);
  machine_info ← ok_or maybe_info (Module Unknown);
  do_machine_exit m machine_info.
Definition force_machine_exit (origin : Origin) (machine_ids : list MachineId) : MP unit :=
  signer ← ensure_signed origin;
  authorized ← own_gets AuthorizedForceExitAccounts;
  ensure (bool_decide (signer ∈ authorized)) (Module NotAuthorized);;
  for_each machine_ids force_a_machine_exit.

Definition update_authorized_force_exit_accounts (origin : Origin) (accounts : list AccountId) : MP unit :=
  ensure_root origin;;
  own_modify (λ s, s <| AuthorizedForceExitAccounts := accounts |>).

(** ** The trait OCOps: what the verifying committee does *)
Definition set_status (m : MachineId) (status : MachineStatus) : MU unit :=
  maybe_info ← own_gets (λ s, MachinesInfo s !! m);
  machine_info ← ok_or maybe_info tt;
  own_modify (put_machine m (machine_info <| machine_status := status |>)).
Definition booked_machine (m : MachineId) : MU unit :=
  set_status m CommitteeVerifying;;
  own_modify (λ s, s <| LiveMachines ::= λ l, l <| confirmed_machine ::= λ x, rm_item x m |>
    <| ProfileTypes.booked_machine ::= λ x, add_item x m |> |>).
Definition revert_booked_machine (m : MachineId) : MU unit :=
  set_status m DistributingOrder;;
  own_modify (λ s, s <| LiveMachines ::= λ l, l <| ProfileTypes.booked_machine ::= λ x, rm_item x m |>
    <| confirmed_machine ::= λ x, add_item x m |> |>).

(** Whether the stake of the machine's GPUs could be made up. *)
Definition top_up (stash : AccountId) (stake_need staked : Balance) : MU bool := λ w,
  if staked <? stake_need then
    match change_stake stash (saturating_sub stake_need staked) true w with
    | (Ok _, w') => (Ok true, w')
    | (Err _, w') => (Ok false, w')
    end
  else (Ok true, w).

Definition confirm_machine (now : BlockNumber) (verify_committee : list AccountId)
    (hardware_info : VerifyOnline.CommitteeUploadInfo) : MU unit :=
  current_era ← own_gets CurrentEra;
  let m := VerifyOnline.machine_id hardware_info in
  maybe_info ← own_gets (λ s, MachinesInfo s !! m);
  machine_info ← ok_or maybe_info tt;
  live_machines ← own_gets LiveMachines;
  let stash := machine_stash machine_info in
  is_reonline ← own_gets (λ s, bool_decide (is_Some (UserMutHardwareStake s !! (stash, m))));
  reonline_stake ← own_gets (λ s, user_mut_hardware_stake s stash m);
  (if (is_reonline : bool) then
     ignore (slash_and_reward stash (verify_fee reonline_stake) verify_committee);;
     ignore (slash_and_reward stash (offline_slash reonline_stake) [])
   else mret tt);;
  let reonline_stake :=
    if (is_reonline : bool) then reonline_stake <| verify_fee := 0 |> <| offline_slash := 0 |> else reonline_stake in
  let machine_info :=
    if is_reonline then machine_info
    else machine_info <| MachineInfo.reward_committee := verify_committee |> in
  let machine_info := machine_info <| machine_info_detail ::= λ d, d <| committee_upload_info := hardware_info |> |> in
  let live_machines := live_machines <| ProfileTypes.booked_machine ::= λ l, rm_item l m |> in
  let stake_need :=
    saturating_mul U128_MAX (init_stake_per_gpu machine_info) (VerifyOnline.gpu_num hardware_info) in
  staked ← top_up stash stake_need (stake_amount machine_info);
  if negb staked then
    own_modify (λ s, s <| UserMutHardwareStake ::=
      <[(stash, m) := reonline_stake <| need_fulfilling := true |>]> |>);;
    own_modify (put_machine m (machine_info <| machine_status := WaitingFulfill |>));;
    own_modify (λ s, s <| LiveMachines := live_machines <| fulfilling_machine ::= λ l, add_item l m |> |>)
  else
    let live_machines := live_machines <| online_machine ::= λ l, add_item l m |> in
    let machine_info := machine_info <| stake_amount := stake_need |> <| machine_status := Online |>
      <| last_online_height := now |> <| last_machine_restake := now |> in
    let machine_info :=
      if is_reonline then machine_info
      else machine_info <| online_height := now |>
        <| reward_deadline := VerifyOnline.add_block current_era REWARD_DURATION |> in
    (if is_reonline then own_modify (λ s, s <| UserMutHardwareStake ::= delete (stash, m) |>)
     else own_modify (λ s, s <| MachineRecentReward ::= <[m := new_recent_reward machine_info]> |>));;
    own_modify (put_machine m machine_info);;
    own_modify (λ s, s <| LiveMachines := live_machines |>);;
    own_modify (update_region_on_online_changed machine_info true);;
    ignore (update_snap_on_online_changed m true).

Definition refuse_mut_hardware (verify_committee : list AccountId) (m : MachineId) (stash : AccountId) : MU unit :=
  reonline_stake ← own_gets (λ s, user_mut_hardware_stake s stash m);
  own_modify (λ s, s <| LiveMachines ::= λ l, l <| ProfileTypes.booked_machine ::= λ x, rm_item x m |>
    <| bonding_machine ::= λ x, add_item x m |> |>);;
  ignore (slash_and_reward stash (verify_fee reonline_stake) verify_committee);;
  own_modify (λ s, s <| UserMutHardwareStake ::= <[(stash, m) := reonline_stake <| verify_fee := 0 |>]> |>).
Definition clean_refused (m : MachineId) (machine_info : MachineInfo) (s : State P) : State P :=
  s <| StashMachines ::= <[machine_stash machine_info :=
         (stash_machines s (machine_stash machine_info)) <| total_machine ::= λ l, rm_item l m |>]> |>
    <| ControllerMachines ::= rm_at (controller machine_info) m |>
    <| LiveMachines ::= λ l, l <| ProfileTypes.booked_machine ::= λ x, rm_item x m |>
         <| refused_machine ::= λ x, add_item x m |> |>
    <| MachinesInfo ::= delete m |>.
Definition refuse_machine (verify_committee : list AccountId) (m : MachineId) (w : (State P * H) * L) :
    option (AccountId * Balance) * ((State P * H) * L) :=
  match MachinesInfo w.1.1 !! m with
  | None => (None, w)
  | Some machine_info =>
      let stash := machine_stash machine_info in
      if bool_decide (is_Some (UserMutHardwareStake w.1.1 !! (stash, m)))
      then (None, (refuse_mut_hardware verify_committee m stash w).2)
      else
        let slash := per_mul (from_rational 5 100) (stake_amount machine_info) in
        match checked_sub (stake_amount machine_info) slash with
        | None => (None, w)
        | Some left_stake =>
            let w := (change_stake stash left_stake false w).2 in
            (Some (stash, slash), ((clean_refused m machine_info w.1.1, w.1.2), w.2))
        end
  end.

(** Also [mt_rm_stash_total_stake]. *)
Definition rm_stash_total_stake (stash : AccountId) (amount : Balance) : MU unit :=
  total ← own_gets (λ s, total_stake (SysInfo s));
  total ← ok_or (checked_sub total amount) tt;
  stake ← own_gets (λ s, stash_stake s stash);
  stake ← ok_or (checked_sub stake amount) tt;
  own_modify (λ s, s <| StashStake ::= <[stash := stake]> |>);;
  own_modify (λ s, s <| SysInfo ::= λ i, i <| total_stake := total |> |>).

(** ** The trait RTOps: what rentals do *)
Definition change_machine_status_on_rent_start (m : MachineId) (n : Z) : MU unit :=
  set_status m Rented;;
  own_modify (λ s, s <| MachineRentedGPU ::= <[m := saturating_add U32_MAX (machine_rented_gpu s m) n]> |>).

Definition change_machine_status_on_confirmed (m : MachineId) (renter : AccountId) : MU unit :=
  maybe_info ← own_gets (λ s, MachinesInfo s !! m);
  machine_info ← ok_or maybe_info tt;
  live_machines ← own_gets LiveMachines;
  let machine_info := machine_info <| renters ::= λ l, add_item l renter |>
    <| total_rented_times ::= λ v, (v + 1) mod 2 ^ 64 |> in
  (if negb (is_ok (binary_search (rented_machine live_machines) m)) then
     update_snap_on_rent_changed m true;;
     own_modify (λ s, s <| LiveMachines := live_machines <| online_machine ::= λ l, rm_item l m |>
       <| rented_machine ::= λ l, add_item l m |> |>);;
     own_modify (update_region_on_rent_changed machine_info true)
   else mret tt);;
  own_modify (put_machine m machine_info).

Definition change_machine_status_on_rent_end (now : BlockNumber) (m : MachineId) (rented_gpu_num : Z)
    (rent_duration : BlockNumber) (is_machine_last_rent is_renter_last_rent : bool) (renter : AccountId) : MU unit :=
  maybe_info ← own_gets (λ s, MachinesInfo s !! m);
  machine_info ← ok_or maybe_info tt;
  live_machines ← own_gets LiveMachines;
  rented ← own_gets (λ s, saturating_sub (machine_rented_gpu s m) rented_gpu_num);
  if gpu_num machine_info =? 0 then mret tt
  else
    let machine_info := machine_info <| total_rented_duration ::= λ v, VerifyOnline.add_block v
      (per_mul (from_rational rented_gpu_num (gpu_num machine_info)) rent_duration) |> in
    let machine_info :=
      if is_renter_last_rent then machine_info <| renters ::= λ l, rm_item l renter |> else machine_info in
    ended ← match machine_status machine_info with
      | ReporterReportOffline _ _ _ _ | StakerReportOffline _ _ =>
          own_modify (λ s, s <| RentedFinished ::= <[m := renter]> |>);;
          mret (machine_info, live_machines)
      | Rented =>
          if is_machine_last_rent then
            let machine_info := machine_info <| last_online_height := now |> <| machine_status := Online |> in
            update_snap_on_rent_changed m false;;
            own_modify (update_region_on_rent_changed machine_info false);;
            mret (machine_info, live_machines <| rented_machine ::= λ l, rm_item l m |>
              <| online_machine ::= λ l, add_item l m |>)
          else mret (machine_info, live_machines)
      | _ => mret (machine_info, live_machines)
      end;
    own_modify (λ s, s <| MachineRentedGPU ::= <[m := rented]> |>);;
    own_modify (λ s, s <| LiveMachines := ended.2 |>);;
    own_modify (put_machine m ended.1).

Definition change_machine_status_on_confirm_expired (m : MachineId) (n : Z) : MU unit :=
  rented ← own_gets (λ s, saturating_sub (machine_rented_gpu s m) n);
  (if rented =? 0 then set_status m Online else mret tt);;
  own_modify (λ s, s <| MachineRentedGPU ::= <[m := rented]> |>).

Definition change_machine_rent_fee (stash : AccountId) (m : MachineId) (fee_to_destroy fee_to_stash : Balance) :
    MU unit :=
  fulfill_machine_stake stash fee_to_stash;;
  maybe_info ← own_gets (λ s, MachinesInfo s !! m);
  machine_info ← ok_or maybe_info tt;
  own_modify (λ s, s <| SysInfo ::= sys_change_rent_fee fee_to_destroy fee_to_stash |>);;
  own_modify (λ s, s <| StashMachines ::= <[machine_stash machine_info :=
    stash_change_rent_fee fee_to_destroy fee_to_stash (stash_machines s (machine_stash machine_info))]> |>);;
  own_modify (put_machine m (change_rent_fee fee_to_destroy fee_to_stash machine_info)).

Definition reset_machine_renters (m : MachineId) (renters : list AccountId) : MU unit :=
  maybe_info ← own_gets (λ s, MachinesInfo s !! m);
  machine_info ← ok_or maybe_info tt;
  own_modify (put_machine m (machine_info <| MachineInfo.renters := renters |>)).

(** ** The trait MTOps: what fault reports do *)
Definition mt_machine_offline (reporter : AccountId) (committee : list AccountId) (m : MachineId)
    (fault_type : OPSlashReason) : MU unit :=
  maybe_info ← own_gets (λ s, MachinesInfo s !! m);
  machine_info ← ok_or maybe_info tt;
  machine_offline m (ReporterReportOffline fault_type (machine_status machine_info) reporter committee).
Definition add_offline_machine_to_renters (m : MachineId) (renters : list AccountId) (s : State P) : State P :=
  s <| OfflineMachine2renters ::= <[m := renters]> |>.

(** ** The registry behind the interfaces *)
#[export] Instance oc_ops : OCOps L (State P * H) := {|
  oc_confirmed_machines h := confirmed_machine (LiveMachines h.1);
  oc_booked_machines h := ProfileTypes.booked_machine (LiveMachines h.1);
  oc_controller_stash h a := ControllerStash h.1 !! a;
  oc_booked_machine := booked_machine;
  oc_revert_booked_machine := revert_booked_machine;
  oc_confirm_machine := confirm_machine;
  oc_refuse_machine := refuse_machine;
  oc_change_staked_balance := change_stake;
  oc_exec_slash := rm_stash_total_stake;
|}.
#[export] Instance rt_ops : RTOps L (State P * H) := {|
  rt_machines_info h m := MachinesInfo h.1 !! m;
  rt_machine_rented_gpu h m := machine_rented_gpu h.1 m;
  rt_rent_fee_destroy_percent h := parts (RentFeeDestroyPercent h.1);
  rt_get_machine_price h := get_machine_price h.1;
  rt_on_rent_start := change_machine_status_on_rent_start;
  rt_on_confirmed := change_machine_status_on_confirmed;
  rt_on_rent_end := change_machine_status_on_rent_end;
  rt_on_confirm_expired := change_machine_status_on_confirm_expired;
  rt_change_machine_rent_fee := change_machine_rent_fee;
|}.
#[export] Instance mt_ops : MTOps L (State P * H) := {|
  mt_machines_info h m := MachinesInfo h.1 !! m;
  mt_add_offline_machine_to_renters m renters h := (add_offline_machine_to_renters m renters h.1, h.2);
  RentalInterfaces.mt_machine_offline := mt_machine_offline;
  mt_change_staked_balance := change_stake;
  mt_rm_stash_total_stake := rm_stash_total_stake;
|}.

(** ** The pallet as a state machine *)
Inductive Call :=
| SetRewardInfo (info : PhaseRewardInfoDetail)
| SetOnlineStakeParams (params : OnlineStakeParamsInfo)
| SetStandardGpuPointPrice (price : StandardGpuPointPrice)
| SetRentfeeDestroyPercent (percent : Part P)
| SetController (controller : AccountId)
| StashResetControllerCall (controller : AccountId)
| OfflineMachineChangeHardwareInfo (m : MachineId)
| BondMachineCall (m : MachineId) (msg sig : bytes)
| GenServerRoom
| AddMachineInfo (m : MachineId) (info : StakerCustomizeInfo)
| FulfillMachine (m : MachineId)
| ClaimRewards
| ControllerReportOfflineCall (m : MachineId)
| ControllerReportOnlineCall (m : MachineId)
| MachineExitCall (m : MachineId)
| RestakeOnlineMachine (m : MachineId)
| ApplySlashReviewCall (id : SlashId) (reason : bytes)
| CancelSlash (id : SlashId)
| ExecSlash (m : MachineId)
| UpdateMachineInfo (m : MachineId) (info : StakerCustomizeInfo)
| ForceMachineExit (ms : list MachineId)
| UpdateAuthorizedForceExitAccounts (accounts : list AccountId).

Definition run_call (now : BlockNumber) (o : Origin) (c : Call) : MP unit :=
  match c with
  | SetRewardInfo info => set_reward_info o info
  | SetOnlineStakeParams params => set_online_stake_params o params
  | SetStandardGpuPointPrice price => set_standard_gpu_point_price o price
  | SetRentfeeDestroyPercent percent => set_rentfee_destroy_percent o percent
  | SetController controller => set_controller o controller
  | StashResetControllerCall controller => stash_reset_controller o controller
  | OfflineMachineChangeHardwareInfo m => offline_machine_change_hardware_info now o m
  | BondMachineCall m msg sig => bond_machine now o m msg sig
  | GenServerRoom => gen_server_room o
  | AddMachineInfo m info => add_machine_info o m info
  | FulfillMachine m => fulfill_machine now o m
  | ClaimRewards => claim_rewards o
  | ControllerReportOfflineCall m => controller_report_offline now o m
  | ControllerReportOnlineCall m => controller_report_online now o m
  | MachineExitCall m => machine_exit now o m
  | RestakeOnlineMachine m => restake_online_machine now o m
  | ApplySlashReviewCall id reason => apply_slash_review now o id reason
  | CancelSlash id => cancel_slash o id
  | ExecSlash m => exec_slash now o m
  | UpdateMachineInfo m info => update_machine_info o m info
  | ForceMachineExit ms => force_machine_exit o ms
  | UpdateAuthorizedForceExitAccounts accounts => update_authorized_force_exit_accounts o accounts
  end.
Definition dispatch (now : BlockNumber) (o : Origin) (c : Call) : MP unit := transactional (run_call now o c).

(** What the other pallets ask of the registry. *)
Inductive Request :=
| Booked (m : MachineId)
| RevertBooked (m : MachineId)
| Confirm (committee : list AccountId) (info : VerifyOnline.CommitteeUploadInfo)
| Refuse (committee : list AccountId) (m : MachineId)
| ChangeStaked (stash : AccountId) (v : Balance) (is_add : bool)
| RmTotalStake (stash : AccountId) (v : Balance)
| RentStart (m : MachineId) (n : Z)
| RentConfirmed (m : MachineId) (renter : AccountId)
| RentEnd (m : MachineId) (n : Z) (duration : BlockNumber) (last renter_last : bool) (renter : AccountId)
| ConfirmExpired (m : MachineId) (n : Z)
| RentFee (stash : AccountId) (m : MachineId) (burnt paid : Balance)
| ResetRenters (m : MachineId) (renters : list AccountId)
| Fault (reporter : AccountId) (committee : list AccountId) (m : MachineId) (fault : OPSlashReason)
| FaultRenters (m : MachineId) (renters : list AccountId).
Definition serve (now : BlockNumber) (r : Request) : MU unit :=
  match r with
  | Booked m => booked_machine m
  | RevertBooked m => revert_booked_machine m
  | Confirm committee info => confirm_machine now committee info
  | Refuse committee m => λ w, (Ok tt, (refuse_machine committee m w).2)
  | ChangeStaked stash v a => change_stake stash v a
  | RmTotalStake stash v => rm_stash_total_stake stash v
  | RentStart m n => change_machine_status_on_rent_start m n
  | RentConfirmed m renter => change_machine_status_on_confirmed m renter
  | RentEnd m n d last renter_last renter => change_machine_status_on_rent_end now m n d last renter_last renter
  | ConfirmExpired m n => change_machine_status_on_confirm_expired m n
  | RentFee stash m burnt paid => change_machine_rent_fee stash m burnt paid
  | ResetRenters m renters => reset_machine_renters m renters
  | Fault reporter committee m fault => mt_machine_offline reporter committee m fault
  | FaultRenters m renters => own_modify (add_offline_machine_to_renters m renters)
  end.

(** A call; a request of another pallet, which may keep what was written when
    it failed; the next block; and whatever the rest of the runtime does. *)
Inductive step : BlockNumber * ((State P * H) * L) → BlockNumber * ((State P * H) * L) → Prop :=
| step_call now o c w : step (now, w) (now, (dispatch now o c w).2)
| step_request now r w : step (now, w) (now, (serve now r w).2)
| step_block now w : step (now, w) (now + 1, (on_initialize (now + 1) w).2)
| step_others now s h h' l l' : step (now, ((s, h), l)) (now, ((s, h'), l')).
Definition reachable (c : BlockNumber * ((State P * H) * L)) : Prop :=
  ∃ h l, rtc step (0, ((genesis, h), l)) c.
End operations.
End OnlineProfile.
