(* ===== verification/ProfileSteps.v ===== *)
(** * pallet-online-profile: what its operations keep

    The registry as the rental pallet uses it: its operations leave the reserves
    sufficient, and count the rented GPUs of a machine. *)
From stdpp Require Import base gmap fin_maps list numbers relations.
From Stdlib Require Import ZArith Lia Strings.Byte.
From S2P Require Import Prelude Currency Interfaces ItemList VerifyOnline RentalTypes ProfileTypes RentalInterfaces OnlineProfile.

Module ProfileSteps.
Import ItemList MachineInfo ProfileTypes OnlineProfile.

(** The bodies of the calls and of the requests. *)
Create HintDb profile_ops.
#[export] Hint Unfold set_reward_info set_online_stake_params set_standard_gpu_point_price
  set_rentfee_destroy_percent set_controller stash_reset_controller set_machine_controller
  offline_machine_change_hardware_info bond_machine check_bonding_msg gen_server_room add_machine_info
  fulfill_machine claim_rewards controller_report_offline controller_report_online machine_exit
  restake_online_machine apply_slash_review cancel_slash do_cancel_slash exec_slash update_machine_info
  force_machine_exit force_a_machine_exit update_authorized_force_exit_accounts : profile_ops.
#[export] Hint Unfold booked_machine revert_booked_machine confirm_machine rm_stash_total_stake
  change_machine_status_on_rent_start change_machine_status_on_confirmed change_machine_status_on_rent_end
  change_machine_status_on_confirm_expired change_machine_rent_fee reset_machine_renters
  mt_machine_offline : profile_ops.

#[export] Instance custodian {P : PerThing} : Custodian (State P) := stash_stake.

Section money.
Context {P : PerThing} {LP : PerThingLaws P}.
Context {L H : Type} `{!ReservableCurrency L} `{!ReservableCurrencyLaws L} `{!Custodian H}.
Context `{!GNOps L H, !CommitteeRewards L H, !ServerRooms H, !TxFee L H, !RentPrice H} (T : Config).
Abbreviation W := ((State P * H) * L)%type.
Implicit Types (w : W) (m : MachineId) (ext : AccountId → Z).

(** Only the recorded stakes and the reserves matter. *)
Lemma op_solvent_own ext w s l :
  (∀ a, stash_stake s a - stash_stake w.1.1 a ≤ reserved_balance l a - reserved_balance w.2 a) →
  solvent ext w → solvent ext ((s, w.1.2), l).
Proof.
  intros Hd Hs a. specialize (Hd a). specialize (Hs a).
  change (ext a + (stash_stake w.1.1 a + held w.1.2 a) ≤ reserved_balance w.2 a) in Hs.
  change (ext a + (stash_stake s a + held w.1.2 a) ≤ reserved_balance l a). lia.
Qed.
Lemma solvent_modify {E} ext (f : State P → State P) :
  (∀ s, StashStake (f s) = StashStake s) → kept (solvent ext) (own_modify (E:=E) (L:=L) (H:=H) f).
Proof.
  intros Hf w Hw. apply (op_solvent_own ext w (f w.1.1) w.2); [|done]. intros a. unfold stash_stake. rewrite Hf. lia.
Qed.

Lemma stash_stake_at (s : State P) a v b :
  default 0 (<[a := v]> (StashStake s) !! b) = if decide (b = a) then v else stash_stake s b.
Proof.
  rewrite lookup_insert. unfold stash_stake. destruct (decide (a = b)), (decide (b = a)); by simplify_eq.
Qed.

(** The effect of a change of the stake. *)
Definition stake_changed a (v : Balance) (is_add : bool) (new : Balance) (s : State P) : State P :=
  deposit_event (if is_add then StakeAdded a v else StakeReduced a v)
    (s <| SysInfo ::= on_stake_changed v is_add |> <| StashStake ::= <[a := new]> |>).
Lemma change_stake_run a v is_add w :
  change_stake (H:=H) a v is_add w = (Err tt, w) ∨
  ∃ l new, change_stake (H:=H) a v is_add w = (Ok tt, ((stake_changed a v is_add new w.1.1, w.1.2), l)) ∧
    (if is_add then new = stash_stake w.1.1 a + v ∧ reserve a v w.2 = Some l
     else new = stash_stake w.1.1 a - v ∧ v ≤ stash_stake w.1.1 a ∧ l = (unreserve a v w.2).1).
Proof.
  unfold change_stake, own_gets. rewrite bind_gets. destruct is_add.
  - unfold checked_add. destruct (Z.leb_spec (stash_stake w.1.1 a + v) U128_MAX); [|by left].
    unfold mbind, M_bind, gets, ensure, m_reserve; simpl. destruct (can_reserve a v w.2); [|by left].
    destruct (reserve a v w.2) as [l|]; [|by left]. right. by exists l, (stash_stake w.1.1 a + v).
  - unfold checked_sub. destruct (Z.leb_spec v (stash_stake w.1.1 a)); [|by left]. right.
    exists (unreserve a v w.2).1, (stash_stake w.1.1 a - v). split; [|done].
    unfold mbind, M_bind, m_unreserve; simpl. by destruct (unreserve a v w.2).
Qed.
Lemma kept_stake ext a v is_add : 0 ≤ v → kept (solvent ext) (change_stake (H:=H) a v is_add).
Proof.
  intros Hv w Hw. destruct (change_stake_run a v is_add w) as [->|(l & new & -> & Hc)]; [done|].
  apply (op_solvent_own ext w (stake_changed a v is_add new w.1.1) l); [|done]. intros b.
  change (default 0 (<[a := new]> (StashStake w.1.1) !! b) - stash_stake w.1.1 b ≤
    reserved_balance l b - reserved_balance w.2 b). rewrite stash_stake_at. destruct is_add.
  - destruct Hc as [-> Hr]. apply reserve_spec in Hr as [_ Hm]; [|done]. destruct (Hm b) as [_ ->].
    unfold at_account. case_decide; subst; lia.
  - destruct Hc as (-> & Hle & ->). destruct (unreserve_spec a v w.2 Hv) as [_ Hm]. destruct (Hm b) as [_ ->].
    unfold at_account. case_decide; subst; lia.
Qed.

Lemma adjust_stake gpus era (s : State P) : StashStake (adjust_rent_fee_destroy_percent gpus era s) = StashStake s.
Proof. unfold adjust_rent_fee_destroy_percent. by repeat case_match. Qed.
Lemma snap_online_stake m i b (s : State P) : StashStake (snap_on_online_changed m i b s) = StashStake s.
Proof.
  unfold snap_on_online_changed. destruct (update_points _ _ _ _ _). simpl.
  rewrite adjust_stake. by destruct b.
Qed.
Lemma snap_rent_stake m i b (s : State P) : StashStake (snap_on_rent_changed m i b s) = StashStake s.
Proof. unfold snap_on_rent_changed. destruct (update_points _ _ _ _ _). simpl. by destruct b. Qed.
Lemma region_exit_stake i (s : State P) : StashStake (update_region_on_exit i s) = StashStake s.
Proof. unfold update_region_on_exit. by repeat case_match. Qed.

Ltac solvent_step :=
  first [kept_step | lazymatch goal with
  | |- kept _ (own_modify (snap_on_online_changed _ _ _)) => apply solvent_modify; intros ?; apply snap_online_stake
  | |- kept _ (own_modify (snap_on_rent_changed _ _ _)) => apply solvent_modify; intros ?; apply snap_rent_stake
  | |- kept _ (own_modify (update_region_on_exit _)) => apply solvent_modify; intros ?; apply region_exit_stake
  | |- kept _ (own_modify _) => apply solvent_modify; done
  | |- kept _ (update_snap_on_online_changed _ _) => unfold update_snap_on_online_changed
  | |- kept _ (update_snap_on_rent_changed _ _) => unfold update_snap_on_rent_changed
  | |- kept _ (set_status _ _) => unfold set_status
  end].
Ltac solvent_steps := repeat solvent_step.

Lemma kept_fulfill_loop ext machines v : 0 ≤ v → kept (solvent ext) (fulfill_loop (H:=H) machines v).
Proof.
  revert v. induction machines as [|m machines IH]; intros v Hv; cbn [fulfill_loop]; [apply kept_mret|].
  solvent_step. solvent_step; [|by apply IH]. do 3 solvent_step. case_match eqn:Hneed; [by apply IH|].
  apply Z.leb_gt in Hneed. case_match eqn:Hleft.
  - apply Z.leb_le in Hleft. solvent_step; [apply kept_stake; lia|]. do 2 (solvent_step; [solvent_steps|]).
    apply IH. unfold saturating_sub. lia.
  - solvent_step; [apply kept_stake; lia|]. solvent_steps.
Qed.
Lemma kept_fulfill ext a v : 0 ≤ v → kept (solvent ext) (fulfill_machine_stake (H:=H) a v).
Proof. intros Hv. unfold fulfill_machine_stake. solvent_step. by apply kept_fulfill_loop. Qed.

Lemma keeps_kept {A} (r : M W unit A) : (∀ ext, kept (solvent ext) r) → keeps_solvent r.
Proof. intros Hr ext. apply Hr. Qed.

(** What the rental pallet relies on of the registry. *)
#[export] Instance rt_ops_laws : RTOpsLaws L (State P * H).
Proof.
  split; cbn [rt_rent_fee_destroy_percent rt_on_rent_start rt_on_confirmed rt_on_rent_end
    rt_on_confirm_expired rt_change_machine_rent_fee rt_ops].
  - intros h. apply parts_range.
  - intros m n. apply keeps_kept. intros ext. unfold change_machine_status_on_rent_start. solvent_steps.
  - intros m a. apply keeps_kept. intros ext. unfold change_machine_status_on_confirmed. solvent_steps.
  - intros t m n d b b' a. apply keeps_kept. intros ext. unfold change_machine_status_on_rent_end. solvent_steps.
  - intros m n. apply keeps_kept. intros ext. unfold change_machine_status_on_confirm_expired. solvent_steps.
  - intros a m f g Hf Hg. apply keeps_kept. intros ext. unfold change_machine_rent_fee.
    solvent_step; [by apply kept_fulfill|]. solvent_steps.
Qed.

(** The fee and the prices of the rest of the runtime, beside the registry. *)
#[export] Instance tx_fee_beside : TxFee L (State P * H) := {|
  pay_fixed_tx_fee a := with_callee (pay_fixed_tx_fee a);
|}.
#[export] Instance tx_fee_beside_laws `{!TxFeeLaws L H} : TxFeeLaws L (State P * H).
Proof. split. intros a ext w Hw. apply with_callee_solvent; [|done]. intros ext'. apply tx_fee_solvent. Qed.
#[export] Instance price_beside : RentPrice (State P * H) := {|
  dbc_amount_by_value h := dbc_amount_by_value h.2;
  dlc_amount_by_value h := dlc_amount_by_value h.2;
|}.
#[export] Instance price_beside_laws `{!RentPriceLaws H} : RentPriceLaws (State P * H).
Proof. split. intros h v d Hd. exact (dbc_amount_typed h.2 v d Hd). Qed.
End money.

(** ** What an operation does not touch *)
Section frame.
Context {P : PerThing} {LP : PerThingLaws P} {L H : Type} {X : Type} (g : State P → X).
Abbreviation W := ((State P * H) * L)%type.

(** The part [g] of the storage is [x]. *)
Definition part_is (x : X) (w : W) : Prop := g w.1.1 = x.
Definition ignores (f : State P → State P) : Prop := ∀ s, g (f s) = g s.
Lemma part_modify {E} x f : ignores f → kept (part_is x) (own_modify (E:=E) f).
Proof. intros Hf w Hw. unfold part_is. simpl. by rewrite Hf. Qed.
Lemma part_callee {E A} x (m : M (H * L) E A) : kept (part_is x) (with_callee m).
Proof. by intros w Hw. Qed.
Lemma part_reserve {E} x `{!ReservableCurrency L} a v (e : E) : kept (part_is x) (m_reserve a v e).
Proof. intros w Hw. unfold m_reserve. by destruct (reserve a v w.2). Qed.
Lemma part_unreserve {E} x `{!ReservableCurrency L} a v : kept (part_is x) (m_unreserve (E:=E) a v).
Proof. intros w Hw. unfold m_unreserve. by destruct (unreserve a v w.2). Qed.
Lemma part_deposit {E} x `{!ReservableCurrency L} a v (e : E) : kept (part_is x) (m_deposit_into_existing a v e).
Proof. intros w Hw. unfold m_deposit_into_existing. by destruct (deposit_into_existing a v w.2). Qed.
Lemma part_signed x o : kept (part_is x) (ensure_signed (E:=Error) (S:=W) o).
Proof. intros w Hw. by destruct o. Qed.
Lemma part_root x o : kept (part_is x) (ensure_root (E:=Error) (S:=W) o).
Proof. intros w Hw. by destruct o. Qed.

(** The statistics change only these parts of the storage. *)
Lemma adjust_changes gpus era (s : State P) :
  ∃ a b, adjust_rent_fee_destroy_percent gpus era s = s <| PhaseRewardInfo := a |> <| RentFeeDestroyPercent := b |>.
Proof.
  unfold adjust_rent_fee_destroy_percent. destruct s. simpl.
  repeat case_match; simpl; eexists _, _; reflexivity.
Qed.
Lemma snap_online_changes m i b (s : State P) :
  ∃ c d e f g h, snap_on_online_changed m i b s = s <| ErasStashPoints := c |> <| ErasMachinePoints := d |>
    <| SysInfo := e |> <| StashMachines := f |> <| PhaseRewardInfo := g |> <| RentFeeDestroyPercent := h |>.
Proof.
  unfold snap_on_online_changed. destruct (update_points _ _ _ _ _) as [sm si]. cbn zeta iota.
  match goal with |- context [adjust_rent_fee_destroy_percent ?n ?e ?s1] =>
    destruct (adjust_changes n e s1) as (a1 & a2 & ->) end.
  destruct s, b; simpl; eexists _, _, _, _, _, _; reflexivity.
Qed.
Lemma snap_rent_changes m i b (s : State P) :
  ∃ c d e f, snap_on_rent_changed m i b s = s <| ErasStashPoints := c |> <| ErasMachinePoints := d |>
    <| SysInfo := e |> <| StashMachines := f |>.
Proof.
  unfold snap_on_rent_changed. destruct (update_points _ _ _ _ _) as [sm si].
  destruct s, b; simpl; eexists _, _, _, _; reflexivity.
Qed.
End frame.

(** Goes through an operation that does not touch the part. *)
Ltac untouched :=
  lazymatch goal with
  | |- ignores _ (snap_on_online_changed ?m ?i ?b) =>
      let s := fresh "s" in intros s; destruct (snap_online_changes m i b s) as (? & ? & ? & ? & ? & ? & ->); done
  | |- ignores _ (snap_on_rent_changed ?m ?i ?b) =>
      let s := fresh "s" in intros s; destruct (snap_rent_changes m i b s) as (? & ? & ? & ? & ->); done
  | |- ignores _ _ =>
      let s := fresh "s" in intros s;
      first [done | unfold update_region_on_exit, update_snap_for_new_era; simpl; by repeat case_match]
  end.
Ltac part_step :=
  first [kept_step | lazymatch goal with
  | |- kept _ (own_modify _) => apply part_modify; try untouched
  | |- kept _ (with_callee _) => apply part_callee
  | |- kept _ (m_reserve _ _ _) => apply part_reserve
  | |- kept _ (m_unreserve _ _) => apply part_unreserve
  | |- kept _ (m_deposit_into_existing _ _ _) => apply part_deposit
  | |- kept _ (ensure_signed _) => apply part_signed
  | |- kept _ (ensure_root _) => apply part_root
  | |- kept _ (update_snap_on_online_changed _ _) => unfold update_snap_on_online_changed
  | |- kept _ (update_snap_on_rent_changed _ _) => unfold update_snap_on_rent_changed
  | |- kept _ (set_status _ _) => unfold set_status
  | |- kept _ (change_stake _ _ _) => unfold change_stake
  | |- kept _ (slash_and_reward _ _ _) => unfold slash_and_reward
  | |- kept _ (fulfill_machine_stake _ _) => unfold fulfill_machine_stake
  | |- kept _ (machine_offline _ _) => unfold machine_offline
  | |- kept _ (do_machine_exit _ _) => unfold do_machine_exit
  | |- kept _ (new_slash_when_offline _ _ _ _ _ _ _) => unfold new_slash_when_offline, new_offline_slash
  | |- kept _ (record_slash _ _) => unfold record_slash
  | |- kept _ get_new_slash_id => unfold get_new_slash_id
  | |- kept _ (check_room _ _) => unfold check_room
  | |- kept _ (put_server_room _ _) => unfold put_server_room
  end].
Ltac part_steps := repeat part_step.

Section basic.
Context {P : PerThing} {LP : PerThingLaws P} {L H : Type} `{!ReservableCurrency L}.
Context `{!GNOps L H, !CommitteeRewards L H, !ServerRooms H, !TxFee L H, !RentPrice H}.
Context {X : Type} (g : State P → X) (x : X).
(** What the loops and the failing branches touch, besides the part. *)
Context (g_stake : ∀ a v b new, ignores g (stake_changed a v b new)).
Context (g_machine : ∀ m i, ignores g (put_machine m i)).
Context (g_event : ∀ e, ignores g (deposit_event e)).

Lemma part_stake a v b : kept (part_is g x) (change_stake (L:=L) (H:=H) a v b).
Proof.
  intros w Hw. destruct (change_stake_run a v b w) as [->|(l & new & -> & _)]; [done|].
  unfold part_is. simpl. by rewrite g_stake.
Qed.
Lemma part_fulfill machines v : kept (part_is g x) (fulfill_loop (L:=L) (H:=H) machines v).
Proof.
  revert v. induction machines as [|m machines IH]; intros v; cbn [fulfill_loop]; [apply kept_mret|].
  part_step. part_step; [|apply IH]. do 3 part_step. case_match; [apply IH|]. case_match.
  - part_step; [apply part_stake|]. part_step; [by apply part_modify|]. part_step; [by apply part_modify|]. apply IH.
  - part_step; [apply part_stake|]. part_step; by apply part_modify.
Qed.
Lemma part_result {A} (r : result OnlineErr A) : kept (part_is g x) (from_result (L:=L) (H:=H) r).
Proof. intros w Hw. by destruct r. Qed.
Lemma part_top_up a v b : kept (part_is g x) (top_up (L:=L) (H:=H) a v b).
Proof.
  intros w Hw. unfold top_up. destruct (b <? v); [|done].
  pose proof (part_stake a (saturating_sub v b) true w Hw) as Hs.
  by destruct (change_stake a (saturating_sub v b) true w) as [[] ?].
Qed.
End basic.

(** Goes through an operation, loops included. *)
Ltac count_step :=
  first [part_step | lazymatch goal with
  | |- kept _ (fulfill_loop _ _) => apply part_fulfill; intros; untouched
  | |- kept _ (from_result _) => apply part_result
  | |- kept _ (top_up _ _ _) => apply part_top_up; intros; untouched
  end].
Ltac count_steps := repeat count_step.

(** ** The rented GPUs of a machine are counted only by the rental requests *)
Section untouched.
Context {P : PerThing} {LP : PerThingLaws P} {L H : Type} `{!ReservableCurrency L}.
Context `{!GNOps L H, !CommitteeRewards L H, !ServerRooms H, !TxFee L H, !RentPrice H} (T : Config).
Abbreviation W := ((State P * H) * L)%type.

Lemma count_call now o c x : kept (part_is MachineRentedGPU x) (dispatch (L:=L) (H:=H) T now o c).
Proof.
  unfold dispatch. apply kept_transactional.
  destruct c; cbn [run_call]; autounfold with profile_ops; count_steps.
Qed.

Lemma count_deposit i x : kept (part_is MachineRentedGPU x) (do_slash_deposit (L:=L) (H:=H) i).
Proof. unfold do_slash_deposit, try_to_change_machine_status_to_fulfill. count_steps. Qed.
Lemma count_release n queue era r mp sp x :
  kept (part_is MachineRentedGPU x) (release_loop (L:=L) (H:=H) n queue era r mp sp).
Proof.
  revert queue. induction n as [|n IH]; intros [|m queue]; cbn [release_loop]; count_steps; [|apply IH].
  unfold distribute_reward_to_machine. count_steps.
Qed.
Lemma count_block now x : kept (part_is MachineRentedGPU x) (on_initialize (L:=L) (H:=H) T now).
Proof.
  unfold on_initialize. count_step.
  { unfold backup_and_reward. count_steps. apply count_release. }
  count_step; [count_steps|]. count_step.
  { unfold exec_pending_slash, exec_a_slash. count_steps; apply count_deposit. }
  unfold check_pending_slash, check_a_review. count_steps.
Qed.

Lemma refuse_kept (Q : W → Prop) committee m w :
  (∀ a, kept Q (refuse_mut_hardware committee m a)) → (∀ a v, kept Q (change_stake a v false)) →
  (∀ i w, Q w → Q ((clean_refused m i w.1.1, w.1.2), w.2)) → Q w → Q (refuse_machine committee m w).2.
Proof.
  intros Hm Hs Hc Hw. unfold refuse_machine. destruct (MachinesInfo w.1.1 !! m) as [i|]; [|done].
  case_bool_decide; [by apply Hm|]. case_match; [|done]. apply (Hc i (change_stake (machine_stash i) _ false w).2).
  by apply Hs.
Qed.

Definition counting (r : Request) : bool :=
  match r with RentStart _ _ | RentEnd _ _ _ _ _ _ | ConfirmExpired _ _ => true | _ => false end.
Lemma count_request now r x : counting r = false → kept (part_is MachineRentedGPU x) (serve (L:=L) (H:=H) now r).
Proof.
  destruct r; try done; intros _; cbn [serve]; autounfold with profile_ops; [count_steps|count_steps|count_steps| |count_steps..].
  intros w Hw. apply (refuse_kept (part_is MachineRentedGPU x)); [| | |done].
  - intros a. unfold refuse_mut_hardware. count_steps.
  - intros a v. count_steps.
  - done.
Qed.

(** A rental that starts adds its GPUs; one that ends or expires takes at most
    its GPUs away. *)
Lemma rent_start_counts m n w :
  (change_machine_status_on_rent_start (L:=L) (H:=H) m n w).1 = Ok tt →
  ∀ m', machine_rented_gpu (change_machine_status_on_rent_start (L:=L) (H:=H) m n w).2.1.1 m' =
    if decide (m' = m) then saturating_add U32_MAX (machine_rented_gpu w.1.1 m) n else machine_rented_gpu w.1.1 m'.
Proof.
  unfold change_machine_status_on_rent_start, set_status, own_gets. unfold mbind, M_bind, gets, ok_or. simpl.
  destruct (MachinesInfo w.1.1 !! m); [|done]. intros _ m'. simpl. unfold machine_rented_gpu. simpl.
  rewrite lookup_insert. destruct (decide (m = m')), (decide (m' = m)); by simplify_eq.
Qed.
(** A run that ends with the count [x] or [y]. *)
Definition either {E A} x y (r : M W E A) : Prop :=
  ∀ w, part_is MachineRentedGPU x w → part_is MachineRentedGPU x (r w).2 ∨ part_is MachineRentedGPU y (r w).2.
Lemma either_bind {E A B} x y (r : M W E A) (k : A → M W E B) :
  kept (part_is MachineRentedGPU x) r → (∀ a, either x y (k a)) → either x y (r ≫= k).
Proof.
  intros Hr Hk w Hw. specialize (Hr w Hw). unfold mbind, M_bind. destruct (r w) as [[a|e] w1]; [by apply Hk|by left].
Qed.
Lemma either_set {E B} x y f (k : unit → M W E B) :
  (∀ s, MachineRentedGPU s = x → MachineRentedGPU (f s) = y) → kept (part_is MachineRentedGPU y) (k tt) →
  either x y (own_modify f ≫= k).
Proof. intros Hf Hk w Hw. right. apply (Hk ((f w.1.1, w.1.2), w.2)). by apply Hf. Qed.
Lemma either_kept {E A} x y (r : M W E A) : kept (part_is MachineRentedGPU x) r → either x y r.
Proof. intros Hr w Hw. left. by apply Hr. Qed.

Definition counts_down m (n : Z) (w w' : W) : Prop :=
  ∀ m', machine_rented_gpu w.1.1 m' - (if decide (m' = m) then n else 0) ≤ machine_rented_gpu w'.1.1 m'.
Lemma counted_down {E A} m n (r : M W E A) w :
  0 ≤ n →
  either (MachineRentedGPU w.1.1) (<[m := saturating_sub (machine_rented_gpu w.1.1 m) n]> (MachineRentedGPU w.1.1)) r →
  counts_down m n w (r w).2.
Proof.
  intros Hn Hr m'. unfold machine_rented_gpu at 2. destruct (Hr w eq_refl) as [->| ->].
  - fold (machine_rented_gpu w.1.1 m'). case_decide; lia.
  - rewrite lookup_insert. destruct (decide (m = m')), (decide (m' = m)); simplify_eq; simpl; unfold saturating_sub; try lia.
    unfold machine_rented_gpu. lia.
Qed.
Lemma expired_counts m n w : 0 ≤ n → counts_down m n w (change_machine_status_on_confirm_expired (L:=L) (H:=H) m n w).2.
Proof.
  intros Hn. apply counted_down; [done|]. unfold change_machine_status_on_confirm_expired, own_gets.
  intros w1 Hw1. rewrite bind_gets.
  assert (machine_rented_gpu w1.1.1 m = machine_rented_gpu w.1.1 m) as ->.
  { unfold machine_rented_gpu. by rewrite Hw1. }
  revert w1 Hw1. apply either_bind; [count_steps|intros _].
  intros w1 Hw1. right. unfold part_is. simpl. by rewrite Hw1.
Qed.
Lemma rent_end_counts now m n d b b' a w :
  0 ≤ n → counts_down m n w (change_machine_status_on_rent_end (L:=L) (H:=H) now m n d b b' a w).2.
Proof.
  intros Hn. apply counted_down; [done|]. unfold change_machine_status_on_rent_end, own_gets.
  intros w1 Hw1. rewrite bind_gets. destruct (MachinesInfo w1.1.1 !! m) as [i|]; [|by left].
  rewrite bind_ok_or, !bind_gets.
  assert (machine_rented_gpu w1.1.1 m = machine_rented_gpu w.1.1 m) as ->.
  { unfold machine_rented_gpu. by rewrite Hw1. }
  set (lm := LiveMachines w1.1.1). clearbody lm. revert w1 Hw1.
  case_match; [apply either_kept, kept_mret|].
  apply either_bind; [count_steps|intros ended]. apply either_set; [intros s Hs; simpl; by rewrite Hs|count_steps].
Qed.
End untouched.
End ProfileSteps.
