(* ===== verification/ProfileOwners.v ===== *)
(** * pallet-online-profile: who owns which machine

    A stash has one controller and a controller one stash; a machine is listed
    under its controller, which belongs to its stash. Every operation keeps this,
    whatever the rest of the runtime does. *)
From stdpp Require Import base gmap fin_maps list numbers relations.
From Stdlib Require Import ZArith Lia Strings.Byte.
From S2P Require Import Prelude Currency Interfaces ItemList VerifyOnline RentalTypes ProfileTypes RentalInterfaces OnlineProfile ProfileSteps.

Module ProfileOwners.
Import ItemList MachineInfo ProfileTypes OnlineProfile ProfileSteps.

(** ** What concerns ownership *)
Section view.
Context {P : PerThing} {LP : PerThingLaws P}.
Implicit Types (s : State P) (m : MachineId) (a c : AccountId).

(** The controller and the stash of a machine. *)
Definition owner s m : option (AccountId * AccountId) :=
  (λ i, (controller i, machine_stash i)) <$> MachinesInfo s !! m.
Definition machines_of s a : list MachineId := total_machine (stash_machines s a).

Record same_owners s s' : Prop := {
  so_stash : StashController s' = StashController s;
  so_controller : ControllerStash s' = ControllerStash s;
  so_owner m : owner s' m = owner s m;
  so_listed : ControllerMachines s' = ControllerMachines s;
  so_machines a : machines_of s' a = machines_of s a;
}.
#[export] Instance same_owners_refl : Reflexive same_owners.
Proof. by intros s. Qed.
#[export] Instance same_owners_trans : Transitive same_owners.
Proof. intros s1 s2 s3 [] []. split; intros; etrans; eauto. Qed.

Record Owners s : Prop := {
  ow_pair a c : StashController s !! a = Some c ↔ ControllerStash s !! c = Some a;
  ow_stash m c a : owner s m = Some (c, a) → ControllerStash s !! c = Some a ∧ m ∈ machines_of s a;
  ow_listed c : sorted (controller_machines s c) ∧
    ∀ m, m ∈ controller_machines s c ↔ ∃ a, owner s m = Some (c, a);
  ow_machines a : sorted (machines_of s a);
}.
Lemma Owners_same s s' : same_owners s s' → Owners s → Owners s'.
Proof.
  intros [S1 S2 S3 S4 S5] [O1 O2 O3 O4]. unfold controller_machines in *. split.
  - intros a c. rewrite S1, S2. apply O1.
  - intros m c a. rewrite S2, S3, S5. apply O2.
  - intros c. unfold controller_machines. rewrite S4. destruct (O3 c) as [Hs Hm]. split; [done|].
    intros m. setoid_rewrite S3. apply Hm.
  - intros a. rewrite S5. apply O4.
Qed.

Lemma machines_of_insert s a sm b :
  machines_of (s <| StashMachines ::= <[a := sm]> |>) b = if decide (b = a) then total_machine sm else machines_of s b.
Proof.
  unfold machines_of, stash_machines. simpl. rewrite lookup_insert.
  destruct (decide (a = b)), (decide (b = a)); by simplify_eq.
Qed.
(** Writing a stash whose machines are the same. *)
Lemma same_stash s a sm :
  total_machine sm = machines_of s a → same_owners s (s <| StashMachines ::= <[a := sm]> |>).
Proof. intros Hsm. split; try done. intros b. rewrite machines_of_insert. case_decide; by subst. Qed.
(** Writing a machine of the same owner. *)
Lemma same_put s m i :
  owner s m = Some (controller i, machine_stash i) → same_owners s (put_machine m i s).
Proof.
  intros Hi. split; try done. intros m'. unfold owner, put_machine. simpl. rewrite lookup_insert.
  case_decide as Hm; [subst m'|done]. simpl. by rewrite <-Hi.
Qed.

Lemma stash_machines_of_online m i b s a :
  total_machine (stash_machines (snap_on_online_changed m i b s) a) = total_machine (stash_machines s a).
Proof.
  unfold snap_on_online_changed. cbn zeta. unfold update_points. cbn iota.
  match goal with |- context [adjust_rent_fee_destroy_percent ?n ?e ?s1] =>
    destruct (adjust_changes n e s1) as (a1 & a2 & ->) end.
  unfold stash_machines at 1. destruct b; simpl; rewrite lookup_insert; case_decide; subst; done.
Qed.
Lemma stash_machines_of_rent m i b s a :
  total_machine (stash_machines (snap_on_rent_changed m i b s) a) = total_machine (stash_machines s a).
Proof.
  unfold snap_on_rent_changed. cbn zeta. unfold update_points. cbn iota.
  unfold stash_machines at 1. destruct b; simpl; rewrite lookup_insert; case_decide; subst; done.
Qed.
Lemma same_online m i b s : same_owners s (snap_on_online_changed m i b s).
Proof.
  split; try (intros; apply stash_machines_of_online);
    destruct (snap_online_changes m i b s) as (? & ? & ? & ? & ? & ? & ->); done.
Qed.
Lemma same_rent m i b s : same_owners s (snap_on_rent_changed m i b s).
Proof.
  split; try (intros; apply stash_machines_of_rent);
    destruct (snap_rent_changes m i b s) as (? & ? & ? & ? & ->); done.
Qed.
Lemma same_exit i s : same_owners s (update_region_on_exit i s).
Proof. unfold update_region_on_exit. destruct (on_machine_exit _ _ _) as [[] ?]; done. Qed.
Lemma same_era s : same_owners s (update_snap_for_new_era s).
Proof. unfold update_snap_for_new_era. simpl. by case_match. Qed.
(** *** Changes of ownership *)
Lemma Owners_set s a c :
  ControllerStash s !! c = None → StashController s !! a = None → Owners s →
  Owners (s <| StashController ::= <[a := c]> |> <| ControllerStash ::= <[c := a]> |>).
Proof.
  intros Hc Ha [O1 O2 O3 O4]. split; simpl; try done.
  - intros a' c'. rewrite !lookup_insert_Some. specialize (O1 a' c'). split.
    + intros [[<- <-]|[Hne Hs]]; [by left|right]. split; [|by apply O1]. intros <-. apply O1 in Hs. congruence.
    + intros [[<- <-]|[Hne Hs]]; [by left|right]. split; [|by apply O1]. intros <-. apply O1 in Hs. congruence.
  - intros m c' a' Ho. destruct (O2 m c' a' Ho) as [Hs Hin]. split; [|done].
    rewrite lookup_insert_ne; [done|]. congruence.
Qed.

Lemma controller_machines_insert s c l c' :
  default [] (<[c := l]> (ControllerMachines s) !! c') = if decide (c' = c) then l else controller_machines s c'.
Proof.
  unfold controller_machines. rewrite lookup_insert. destruct (decide (c = c')), (decide (c' = c)); by simplify_eq.
Qed.

(** The machines of a controller get another. *)
Lemma Owners_reset s s' a pre new :
  Owners s → ControllerStash s !! new = None → StashController s !! a = Some pre →
  StashController s' = <[a := new]> (StashController s) →
  ControllerStash s' = <[new := a]> (delete pre (ControllerStash s)) →
  (∀ m, owner s' m = if decide (m ∈ controller_machines s pre) then Some (new, a) else owner s m) →
  ControllerMachines s' = <[new := controller_machines s pre]> (delete pre (ControllerMachines s)) →
  (∀ b, machines_of s' b = machines_of s b) → Owners s'.
Proof.
  intros [O1 O2 O3 O4] Hn Ha S1 S2 S3 S4 S5. pose proof (proj1 (O1 a pre) Ha) as Hp.
  assert (pre ≠ new) as Hne by congruence. split.
  - intros b c. rewrite S1, S2, !lookup_insert_Some, lookup_delete_Some. specialize (O1 b c) as Hbc. split.
    + intros [[<- <-]|[Hb Hs]]; [by left|right]. apply Hbc in Hs as Hs'. split_and!; [congruence| |done].
      intros <-. congruence.
    + intros [[<- <-]|(Hc & Hc' & Hs)]; [by left|right]. apply Hbc in Hs as Hs'. split; [|done].
      intros <-. congruence.
  - intros m c b. rewrite S2, S3, S5. destruct (O3 pre) as [_ Hpre]. case_decide as Hm.
    + intros [= <- <-]. rewrite lookup_insert_eq. split; [done|]. apply Hpre in Hm as [b Hb].
      apply O2 in Hb as [Hb ?]. by rewrite Hp in Hb; simplify_eq.
    + intros Ho. destruct (O2 m c b Ho) as [Hc Hin]. split; [|done].
      rewrite lookup_insert_ne by congruence. rewrite lookup_delete_ne; [done|]. intros <-. apply Hm, Hpre. eauto.
  - intros c. unfold controller_machines at 1 2. rewrite S4. destruct (decide (c = new)) as [->|Hc].
    + rewrite lookup_insert_eq. simpl. split; [apply O3|]. intros m. rewrite S3. case_decide as Hm.
      * split; [eauto|done].
      * split; [done|]. intros [b Hb]. apply O2 in Hb as [Hb _]. congruence.
    + rewrite lookup_insert_ne by done. destruct (decide (c = pre)) as [->|Hc'].
      * rewrite lookup_delete_eq. simpl. split; [apply sorted_nil|]. intros m. rewrite S3.
        split; [by intros ?%not_elem_of_nil|]. case_decide as Hm; [intros [b ?]; congruence|].
        intros [b Hb]. exfalso. apply Hm, (O3 pre). eauto.
      * rewrite lookup_delete_ne by done. fold (controller_machines s c). split; [apply O3|]. intros m.
        rewrite (proj2 (O3 c) m). rewrite S3. case_decide as Hm; [|done]. apply (O3 pre) in Hm as [b Hb]. naive_solver.
  - intros b. rewrite S5. apply O4.
Qed.

(** A new machine of a controller. *)
Lemma Owners_add s s' m c a :
  Owners s → ControllerStash s !! c = Some a → owner s m = None →
  StashController s' = StashController s → ControllerStash s' = ControllerStash s →
  (∀ m', owner s' m' = if decide (m' = m) then Some (c, a) else owner s m') →
  ControllerMachines s' = add_at c m (ControllerMachines s) →
  (∀ b, machines_of s' b = if decide (b = a) then add_item (machines_of s a) m else machines_of s b) → Owners s'.
Proof.
  intros [O1 O2 O3 O4] Hc Hm S1 S2 S3 S4 S5. split.
  - intros b d. rewrite S1, S2. apply O1.
  - intros m' d b. rewrite S2, S3, S5. case_decide as Hm'; [subst m'|].
    + intros [= <- <-]. rewrite decide_True by done. split; [done|]. apply add_item_spec; [apply O4|by left].
    + intros Ho. destruct (O2 m' d b Ho) as [? Hin]. split; [done|]. case_decide; [subst b|done].
      apply add_item_spec; [apply O4|by right].
  - intros d. unfold controller_machines at 1 2. rewrite S4. unfold add_at. rewrite controller_machines_insert.
    fold (controller_machines s c). destruct (O3 d) as [Hs Hin]. case_decide as Hd; [subst d|].
    + destruct (add_item_spec _ m Hs) as [Hs' He]. split; [done|]. intros m'. rewrite He, Hin, S3.
      case_decide; subst; naive_solver.
    + split; [done|]. intros m'. rewrite Hin, S3. case_decide; subst; naive_solver.
  - intros b. rewrite S5. case_decide; [|done]. apply add_item_spec, O4.
Qed.

(** A machine goes. *)
Lemma Owners_remove s s' m c a :
  Owners s → owner s m = Some (c, a) →
  StashController s' = StashController s → ControllerStash s' = ControllerStash s →
  (∀ m', owner s' m' = if decide (m' = m) then None else owner s m') →
  (∀ d, controller_machines s' d = if decide (d = c) then rm_item (controller_machines s c) m else controller_machines s d) →
  (∀ b, machines_of s' b = machines_of s b ∨ machines_of s' b = rm_item (machines_of s b) m) → Owners s'.
Proof.
  intros [O1 O2 O3 O4] Hm S1 S2 S3 S4 S5. split.
  - intros b d. rewrite S1, S2. apply O1.
  - intros m' d b. rewrite S2, S3. case_decide as Hm'; [done|]. intros Ho. destruct (O2 m' d b Ho) as [? Hin].
    split; [done|]. destruct (S5 b) as [->| ->]; [done|]. by apply rm_item_spec.
  - intros d. rewrite S4. destruct (O3 d) as [Hs Hin]. case_decide as Hd; [subst d|].
    + destruct (rm_item_spec _ m Hs) as [Hs' He]. split; [done|]. intros m'. rewrite He, Hin, S3.
      case_decide; subst; naive_solver.
    + split; [done|]. intros m'. rewrite Hin, S3. case_decide; subst; naive_solver.
  - intros b. destruct (S5 b) as [->| ->]; [apply O4|]. apply rm_item_spec, O4.
Qed.
End view.
(** ** What leaves ownership alone *)
Section steps.
Context {P : PerThing} {LP : PerThingLaws P} {L H : Type} `{!ReservableCurrency L}.
Context `{!GNOps L H, !CommitteeRewards L H, !ServerRooms H, !TxFee L H, !RentPrice H} (T : Config).
Context (s0 : State P).
Abbreviation W := ((State P * H) * L)%type.
Implicit Types (w : W) (m : MachineId).

Definition owners_as w : Prop := same_owners s0 w.1.1.
Lemma as_modify {E} f : (∀ s, same_owners s (f s)) → kept owners_as (own_modify (E:=E) f).
Proof. intros Hf w Hw. unfold owners_as. simpl. etrans; [exact Hw|apply Hf]. Qed.
Lemma as_put {E} m i w :
  owners_as w → MachinesInfo w.1.1 !! m = Some i →
  ∀ i', controller i' = controller i → machine_stash i' = machine_stash i →
  kept owners_as (own_modify (E:=E) (put_machine m i')).
Proof.
  intros Hw Hi i' Hc Hs w' Hw'. unfold owners_as. simpl. etrans; [exact Hw'|]. apply same_put.
  rewrite (so_owner _ _ Hw'), <-(so_owner _ _ Hw). unfold owner. rewrite Hi. simpl. by rewrite Hc, Hs.
Qed.
Lemma as_stash {E} a w sm f :
  owners_as w → total_machine sm = machines_of w.1.1 a →
  (∀ s, same_owners (s <| StashMachines ::= <[a := sm]> |>) (f s)) → kept owners_as (own_modify (E:=E) f).
Proof.
  intros Hw Hsm Hf w' Hw'. unfold owners_as. simpl. etrans; [exact Hw'|]. etrans; [|apply Hf]. apply same_stash.
  by rewrite (so_machines _ _ Hw'), <-(so_machines _ _ Hw).
Qed.
Lemma as_callee {E A} (r : M (H * L) E A) : kept owners_as (with_callee r).
Proof. by intros w Hw. Qed.
Lemma as_reserve {E} a v (e : E) : kept owners_as (m_reserve a v e).
Proof. intros w Hw. unfold m_reserve. by destruct (reserve a v w.2). Qed.
Lemma as_unreserve {E} a v : kept owners_as (m_unreserve (E:=E) a v).
Proof. intros w Hw. unfold m_unreserve. by destruct (unreserve a v w.2). Qed.
Lemma as_deposit {E} a v (e : E) : kept owners_as (m_deposit_into_existing a v e).
Proof. intros w Hw. unfold m_deposit_into_existing. by destruct (deposit_into_existing a v w.2). Qed.
Lemma as_signed o : kept owners_as (ensure_signed (E:=Error) (S:=W) o).
Proof. intros w Hw. by destruct o. Qed.
Lemma as_root o : kept owners_as (ensure_root (E:=Error) (S:=W) o).
Proof. intros w Hw. by destruct o. Qed.
Lemma as_result {A} (r : result OnlineErr A) : kept owners_as (from_result (L:=L) (H:=H) r).
Proof. intros w Hw. by destruct r. Qed.
Lemma as_stake a v b : kept owners_as (change_stake (L:=L) (H:=H) a v b).
Proof.
  intros w Hw. destruct (change_stake_run a v b w) as [->|(l & new & -> & _)]; [done|].
  unfold owners_as. etrans; [exact Hw|done].
Qed.
Lemma as_top_up a v b : kept owners_as (top_up (L:=L) (H:=H) a v b).
Proof.
  intros w Hw. unfold top_up. destruct (b <? v); [|done].
  pose proof (as_stake a (saturating_sub v b) true w Hw) as Hs.
  by destruct (change_stake a (saturating_sub v b) true w) as [[] ?].
Qed.

Ltac leaf :=
  match goal with
  | |- same_owners _ (snap_on_online_changed _ _ _ _) => apply same_online
  | |- same_owners _ (snap_on_rent_changed _ _ _ _) => apply same_rent
  | |- same_owners _ (update_region_on_exit _ _) => apply same_exit
  | |- same_owners _ (update_snap_for_new_era _) => apply same_era
  | |- same_owners _ (_ <| StashMachines ::= <[_ := _ ]> |>) => by apply same_stash
  | |- same_owners _ _ => done
  end.
Ltac same_info := first [done | unfold add_server_room_info; simpl; by repeat case_match].
Ltac as_step :=
  cbv beta;
  first [lazymatch goal with
  | |- kept _ (match ?x with _ => _ end ≫= _) => destruct x
  | |- kept _ ((_ ≫= _) ≫= _) => apply kept_assoc
  end | kept_step | lazymatch goal with
  | |- kept _ (own_modify (put_machine ?m _)) =>
      match goal with Hw : owners_as ?w, Hi : MachinesInfo ?w.1.1 !! m = Some ?i |- _ =>
        apply (as_put m i w Hw Hi); [same_info|same_info] end
  | |- kept _ (own_modify _) => apply as_modify; intros ?; leaf
  | |- kept _ (with_callee _) => apply as_callee
  | |- kept _ (m_reserve _ _ _) => apply as_reserve
  | |- kept _ (m_unreserve _ _) => apply as_unreserve
  | |- kept _ (m_deposit_into_existing _ _ _) => apply as_deposit
  | |- kept _ (ensure_signed _) => apply as_signed
  | |- kept _ (ensure_root _) => apply as_root
  | |- kept _ (change_stake _ _ _) => apply as_stake
  | |- kept _ (from_result _) => apply as_result
  | |- kept _ (top_up _ _ _) => apply as_top_up
  | |- kept _ (update_snap_on_online_changed _ _) => unfold update_snap_on_online_changed
  | |- kept _ (update_snap_on_rent_changed _ _) => unfold update_snap_on_rent_changed
  | |- kept _ (set_status _ _) => unfold set_status
  | |- kept _ (slash_and_reward _ _ _) => unfold slash_and_reward
  | |- kept _ (machine_offline _ _) => unfold machine_offline
  | |- kept _ (new_slash_when_offline _ _ _ _ _ _ _) => unfold new_slash_when_offline, new_offline_slash
  | |- kept _ (record_slash _ _) => unfold record_slash
  | |- kept _ get_new_slash_id => unfold get_new_slash_id
  | |- kept _ (check_room _ _) => unfold check_room
  | |- kept _ (put_server_room _ _) => unfold put_server_room
  end].
Ltac as_steps := repeat as_step.

Lemma as_fulfill machines v : kept owners_as (fulfill_loop (L:=L) (H:=H) machines v).
Proof.
  revert v. induction machines as [|m machines IH]; intros v; cbn [fulfill_loop]; [apply kept_mret|].
  as_step. as_step; [|apply IH]. as_steps; apply IH.
Qed.
Lemma as_fulfill_stake a v : kept owners_as (fulfill_machine_stake (L:=L) (H:=H) a v).
Proof. unfold fulfill_machine_stake. as_step. apply as_fulfill. Qed.

Lemma claim_total sm v sm' : claim_reward sm = Some (v, sm') → total_machine sm' = total_machine sm.
Proof. unfold claim_reward. intros. by repeat case_match; simplify_option_eq. Qed.

(** The calls that change who owns what. *)
Definition transfers (c : Call) : bool :=
  match c with
  | SetController _ | StashResetControllerCall _ | BondMachineCall _ _ _ | MachineExitCall _ | ForceMachineExit _ => true
  | _ => false
  end.
Lemma as_call now o c : transfers c = false → kept owners_as (dispatch (L:=L) (H:=H) T now o c).
Proof.
  unfold dispatch. intros Hc. apply kept_transactional.
  destruct c; try done; cbn [run_call]; autounfold with profile_ops; as_steps; [apply as_fulfill_stake|].
  match goal with Hw : owners_as ?w, Hc : claim_reward _ = _ |- _ =>
    exact (as_stash _ w _ _ Hw (claim_total _ _ _ Hc) (λ _, reflexivity _)) end.
Qed.

Lemma as_deposit_slash i : kept owners_as (do_slash_deposit (L:=L) (H:=H) i).
Proof. unfold do_slash_deposit, try_to_change_machine_status_to_fulfill. as_steps. Qed.
Lemma as_release n queue era r mp sp : kept owners_as (release_loop (L:=L) (H:=H) n queue era r mp sp).
Proof.
  revert queue. induction n as [|n IH]; intros [|m queue]; cbn [release_loop]; [apply kept_mret..|].
  as_step; [|apply IH]. unfold distribute_reward_to_machine. as_steps;
    match goal with Hw : owners_as ?w |- context [@insert _ StashMachine _ _ ?a ?sm] => by apply (as_stash a w sm _ Hw) end.
Qed.
Lemma as_block now : kept owners_as (on_initialize (L:=L) (H:=H) T now).
Proof.
  unfold on_initialize. as_step.
  { unfold backup_and_reward. as_steps. apply as_release. }
  kept_step; [as_steps|]. kept_step.
  { unfold exec_pending_slash, exec_a_slash. as_steps; apply as_deposit_slash. }
  unfold check_pending_slash, check_a_review. as_steps.
Qed.
Definition refuses (r : Request) : bool := match r with Refuse _ _ => true | _ => false end.
Lemma as_request now r : refuses r = false → kept owners_as (serve (L:=L) (H:=H) now r).
Proof.
  destruct r; try done; intros _; cbn [serve]; autounfold with profile_ops; as_steps. apply as_fulfill_stake.
Qed.

(** *** A run that ends in a state with consistent owners *)
Definition owned w : Prop := Owners w.1.1.
Definition leads {E A} (r : M W E A) : Prop := ∀ w, owners_as w → owned (r w).2.
Context (Hs0 : Owners s0).
Lemma leads_bind {E A B} (r : M W E A) (k : A → M W E B) :
  kept owners_as r → (∀ a, leads (k a)) → leads (r ≫= k).
Proof.
  intros Hr Hk w Hw. specialize (Hr w Hw). unfold mbind, M_bind.
  destruct (r w) as [[a|e] w1]; [by apply Hk|]. exact (Owners_same _ _ Hr Hs0).
Qed.
Lemma leads_gets {E A B} (f : W → A) (k : A → M W E B) :
  (∀ w, owners_as w → leads (k (f w))) → leads (gets f ≫= k).
Proof. intros Hk w Hw. rewrite bind_gets. by apply Hk. Qed.
Lemma leads_ok_or {E A B} (o : option A) (e : E) (k : A → M W E B) :
  (∀ a, o = Some a → leads (k a)) → leads (ok_or o e ≫= k).
Proof.
  intros Hk w Hw. destruct o as [a|]; [rewrite bind_ok_or; by apply Hk|]. exact (Owners_same _ _ Hw Hs0).
Qed.
Lemma leads_ensure {E B} b (e : E) (k : unit → M W E B) : (b = true → leads (k tt)) → leads (ensure b e ≫= k).
Proof. intros Hk w Hw. destruct b; [by apply Hk|]. exact (Owners_same _ _ Hw Hs0). Qed.

Ltac lead :=
  cbv beta;
  lazymatch goal with
  | |- leads (own_gets _ ≫= _) => apply leads_gets; intros ? ?
  | |- leads (gets _ ≫= _) => apply leads_gets; intros ? ?
  | |- leads (ok_or _ _ ≫= _) => apply leads_ok_or; intros ? ?
  | |- leads (ensure _ _ ≫= _) => apply leads_ensure; intros ?
  | |- leads (own_modify _ ≫= _) => fail
  | |- leads (_ ≫= _) => apply leads_bind; [as_steps|intros ?]
  end.
(** What was read, in terms of the first state. *)
Ltac view :=
  cbv beta in *;
  repeat match goal with
  | Hr : negb _ = true |- _ => apply negb_true_iff in Hr
  | Hr : bool_decide (is_Some _) = false |- _ => apply bool_decide_eq_false, eq_None_not_Some in Hr
  | Hr : MachinesInfo ?s !! ?m = ?o |- _ =>
      apply (f_equal (fmap (λ i, (controller i, machine_stash i)))) in Hr; fold (owner s m) in Hr; simpl in Hr
  | Hw : owners_as ?w, Hr : context [ControllerStash ?w.1.1] |- _ => rewrite (so_controller _ _ Hw) in Hr
  | Hw : owners_as ?w, Hr : context [StashController ?w.1.1] |- _ => rewrite (so_stash _ _ Hw) in Hr
  | Hw : owners_as ?w, Hr : context [owner ?w.1.1 _] |- _ => rewrite (so_owner _ _ Hw) in Hr
  end.

Lemma set_controller_leads o c : leads (set_controller (L:=L) (H:=H) o c).
Proof.
  unfold set_controller. repeat lead. view. intros w' Hw'.
  assert (owners_as w') as [S1 S2 _ _ _] by done. unfold owned.
  eapply Owners_same; [|apply (Owners_set w'.1.1 a c); [by rewrite S2|by rewrite S1|]]; [done|].
  exact (Owners_same _ _ Hw' Hs0).
Qed.

Lemma owner_put (s : State P) m i m' :
  owner (put_machine m i s) m' = if decide (m' = m) then Some (controller i, machine_stash i) else owner s m'.
Proof.
  unfold owner, put_machine. simpl. rewrite lookup_insert. destruct (decide (m = m')), (decide (m' = m)); by simplify_eq.
Qed.
Lemma bond_machine_leads now o m msg sig : leads (bond_machine (L:=L) (H:=H) T now o m msg sig).
Proof.
  unfold bond_machine, check_bonding_msg. repeat lead. view. intros w' Hw'.
  assert (owners_as w') as [S1 S2 S3 S4 S5] by done. unfold owned.
  match goal with Hc : ControllerStash s0 !! ?c = Some ?b |- _ => apply (Owners_add w'.1.1 _ m c b) end; try done.
  - exact (Owners_same _ _ Hw' Hs0).
  - by rewrite S2.
  - by rewrite S3.
  - intros m'. by etrans; [apply owner_put|].
  - intros b. by etrans; [apply machines_of_insert|].
Qed.

Lemma do_machine_exit_leads m i : owner s0 m = Some (controller i, machine_stash i) →
  leads (do_machine_exit (L:=L) (H:=H) m i).
Proof.
  intros Hi. unfold do_machine_exit. do 4 (apply leads_bind; [as_steps|intros _]). intros w' Hw'.
  assert (owners_as w') as [S1 S2 S3 S4 S5] by done. rewrite <-S3 in Hi. unfold owned.
  apply (Owners_remove w'.1.1 _ m _ _ (Owners_same _ _ Hw' Hs0) Hi); simpl; try (by case_match).
  - intros m'. unfold owner. simpl. case_match; simpl; rewrite lookup_delete;
      destruct (decide (m = m')), (decide (m' = m)); by simplify_eq.
  - intros d. unfold controller_machines at 1. simpl. case_match eqn:Hz; simpl.
    + rewrite lookup_delete. apply Nat.eqb_eq, nil_length_inv in Hz.
      destruct (decide (controller i = d)), (decide (d = controller i)); simplify_eq; simpl; by rewrite ?Hz.
    + apply controller_machines_insert.
  - intros b. left. by case_match.
Qed.
Lemma machine_exit_leads now o m : leads (machine_exit (L:=L) (H:=H) now o m).
Proof. unfold machine_exit. repeat lead. view. by apply do_machine_exit_leads. Qed.
Lemma force_exit_leads m : leads (force_a_machine_exit (L:=L) (H:=H) m).
Proof. unfold force_a_machine_exit. repeat lead. view. by apply do_machine_exit_leads. Qed.

(** The machines [ms], whose stash is [a], get the controller [new]. *)
Lemma set_controllers_run new a ms w :
  (∀ m, m ∈ ms → ∃ c, owner w.1.1 m = Some (c, a)) →
  ∃ s', for_each ms (set_machine_controller (L:=L) (H:=H) new) w = (Ok tt, ((s', w.1.2), w.2)) ∧
    StashController s' = StashController w.1.1 ∧ ControllerStash s' = ControllerStash w.1.1 ∧
    ControllerMachines s' = ControllerMachines w.1.1 ∧ StashMachines s' = StashMachines w.1.1 ∧
    ∀ m, owner s' m = if decide (m ∈ ms) then Some (new, a) else owner w.1.1 m.
Proof.
  revert w. induction ms as [|m ms IH]; intros w Hms.
  { exists w.1.1. split_and!; try done. by destruct w as [[] ?]. }
  destruct (Hms m) as [c Ho]; [by left|]. unfold owner in Ho.
  destruct (MachinesInfo w.1.1 !! m) as [i|] eqn:Hi; [|done]. simpl in Ho. injection Ho as _ Ha.
  assert (set_machine_controller (L:=L) (H:=H) new m w =
    (Ok tt, ((put_machine m (i <| controller := new |>) w.1.1, w.1.2), w.2))) as Hr.
  { unfold set_machine_controller, own_gets. by rewrite bind_gets, Hi, bind_ok_or. }
  assert (∀ m', owner (put_machine m (i <| controller := new |>) w.1.1) m' =
    if decide (m' = m) then Some (new, a) else owner w.1.1 m') as Hp.
  { intros m'. rewrite owner_put. simpl. by rewrite Ha. }
  destruct (IH ((put_machine m (i <| controller := new |>) w.1.1, w.1.2), w.2)) as (s' & Hr' & S1 & S2 & S3 & S4 & S5).
  { intros m' Hm'. simpl. rewrite Hp. case_decide; [eauto|]. apply Hms. by right. }
  exists s'. cbn [for_each]. rewrite (bind_run _ _ _ _ _ Hr). split_and!; try done.
  intros m'. rewrite S5. simpl. rewrite Hp.
  destruct (decide (m' ∈ ms)), (decide (m' ∈ m :: ms)) as [Hin|Hin], (decide (m' = m)) as [->|Hne]; try done;
    exfalso; revert Hin; rewrite elem_of_cons; naive_solver.
Qed.
Lemma stash_reset_leads o new : leads (stash_reset_controller (L:=L) (H:=H) o new).
Proof.
  unfold stash_reset_controller. do 6 lead. view. intros w' Hw'.
  match goal with Ha : StashController s0 !! ?b = Some ?c, Hw1 : owners_as ?w1
    |- context [controller_machines ?w1.1.1 ?c] => rename b into a, c into pre, Ha into Hsc;
    assert (controller_machines w1.1.1 pre = controller_machines w'.1.1 pre) as -> by
      (unfold controller_machines; by rewrite (so_listed _ _ Hw1), (so_listed _ _ Hw')) end.
  pose proof (Owners_same _ _ Hw' Hs0) as O. assert (owners_as w') as [S1 S2 _ _ _] by done.
  rewrite <-S1 in Hsc. match goal with Hn : ControllerStash s0 !! new = None |- _ => rewrite <-S2 in Hn end.
  destruct (set_controllers_run new a (controller_machines w'.1.1 pre) w') as (s' & Hr & R1 & R2 & R3 & R4 & R5).
  { intros m Hm. exists pre. apply (ow_listed _ O) in Hm as [b Hb]. apply (ow_stash _ O) in Hb as Hb'.
    apply (ow_pair _ O) in Hsc. destruct Hb' as [Hb' _]. rewrite Hb. congruence. }
  rewrite (bind_run _ _ _ _ _ Hr). unfold owned.
  apply (Owners_reset w'.1.1 _ a pre new); try done; simpl; rewrite ?R1, ?R2, ?R3; try done.
  intros b. unfold machines_of, stash_machines. simpl. by rewrite R4.
Qed.

Lemma refuse_leads committee m w : owners_as w → owned (refuse_machine (L:=L) (H:=H) committee m w).2.
Proof.
  intros Hw. assert (owned w) as O by exact (Owners_same _ _ Hw Hs0). unfold refuse_machine.
  destruct (MachinesInfo w.1.1 !! m) as [i|] eqn:Hi; [|done]. case_bool_decide.
  { assert (kept owners_as (refuse_mut_hardware (L:=L) (H:=H) committee m (machine_stash i))) as Hk by
      (unfold refuse_mut_hardware; as_steps).
    exact (Owners_same _ _ (Hk w Hw) Hs0). }
  destruct (checked_sub _ _) as [v|]; [|done].
  pose proof (as_stake (machine_stash i) v false w Hw) as Hw'. unfold owned. simpl.
  set (w' := (change_stake (machine_stash i) v false w).2) in *. clearbody w'.
  apply (Owners_remove w'.1.1 _ m (controller i) (machine_stash i) (Owners_same _ _ Hw' Hs0)); try done.
  - rewrite (so_owner _ _ Hw'), <-(so_owner _ _ Hw). unfold owner. by rewrite Hi.
  - intros m'. unfold owner. simpl. rewrite lookup_delete. destruct (decide (m = m')), (decide (m' = m)); by simplify_eq.
  - intros d. unfold controller_machines at 1. simpl. apply controller_machines_insert.
  - intros b. destruct (decide (b = machine_stash i)) as [->|Hb]; [right|left];
      (etrans; [apply machines_of_insert|]); [by rewrite decide_True|by rewrite decide_False].
Qed.
End steps.

(** ** Reachable states *)
Section reachable.
Context {P : PerThing} {LP : PerThingLaws P} {L H : Type} `{!ReservableCurrency L}.
Context `{!GNOps L H, !CommitteeRewards L H, !ServerRooms H, !TxFee L H, !RentPrice H} (T : Config).
Abbreviation W := ((State P * H) * L)%type.

Lemma kept_leads {E A} (r : M W E A) : (∀ s0, Owners s0 → leads s0 r) → kept owned r.
Proof. intros Hr w Hw. apply (Hr w.1.1 Hw w). unfold owners_as. reflexivity. Qed.
Lemma kept_as {E A} (r : M W E A) : (∀ s0, kept (owners_as s0) r) → kept owned r.
Proof. intros Hr w Hw. assert (owners_as w.1.1 (r w).2) as Hs by (by apply Hr). exact (Owners_same _ _ Hs Hw). Qed.

Lemma call_owned now o c : kept owned (dispatch (L:=L) (H:=H) T now o c).
Proof.
  destruct (transfers c) eqn:Hc; [|by apply kept_as; intros s0; apply as_call].
  unfold dispatch. apply kept_transactional. destruct c; try done; cbn [run_call].
  - apply kept_leads. intros. by apply set_controller_leads.
  - apply kept_leads. intros. by apply stash_reset_leads.
  - apply kept_leads. intros. by apply bond_machine_leads.
  - apply kept_leads. intros. by apply machine_exit_leads.
  - unfold force_machine_exit. kept_step; [intros w Hw; by destruct o|]. repeat kept_step.
    apply kept_leads. intros. by apply force_exit_leads.
Qed.
Lemma request_owned now r : kept owned (serve (L:=L) (H:=H) now r).
Proof.
  destruct (refuses r) eqn:Hr; [|by apply kept_as; intros s0; apply as_request].
  destruct r; try done. cbn [serve]. intros w Hw. apply (refuse_leads w.1.1 Hw). unfold owners_as. reflexivity.
Qed.
Lemma step_owned x y : step (L:=L) (H:=H) T x y → owned x.2 → owned y.2.
Proof.
  intros [now o c w|now r w|now w|now s h h' l l'] O; simpl in *.
  - by apply call_owned.
  - by apply request_owned.
  - revert O. apply kept_as. intros s0. apply as_block.
  - exact O.
Qed.
Lemma genesis_Owners : Owners (genesis (P:=P)).
Proof.
  split; simpl; try done.
  intros c. split; [apply sorted_nil|]. intros m. split; [by intros ?%not_elem_of_nil|]. by intros [a ?].
Qed.
Lemma reachable_owned x : reachable (L:=L) (H:=H) T x → owned x.2.
Proof.
  intros (h & l & Hr). apply (rtc_invariant (step T) (λ x, owned x.2) (0, ((genesis, h), l))); [|apply genesis_Owners|done].
  intros a b Hs. by apply step_owned.
Qed.
End reachable.
End ProfileOwners.
