(* ===== verification/ProfileSlashes.v ===== *)
(** * pallet-online-profile: slashes

    A slash is recorded with the block that executes it, two days ahead, and is
    gone after that block: executed, or cancelled before. *)
From stdpp Require Import base gmap fin_maps list numbers relations.
From Stdlib Require Import ZArith Lia Strings.Byte.
From S2P Require Import Prelude Currency Interfaces ItemList VerifyOnline RentalTypes ProfileTypes RentalInterfaces OnlineProfile ProfileSteps.

Module ProfileSlashes.
Import ItemList MachineInfo ProfileTypes OnlineProfile ProfileSteps.

(** ** How much is slashed *)
Definition worst (r : OPSlashReason) : Z :=
  match r with
  | RentedReportOffline _ => 50
  | OnlineReportOffline _ => 80
  | RentedInaccessible _ | RentedHardwareMalfunction _ | OnlineRentFailed _ | RentedHardwareCounterfeit _ => 100
  | _ => 0
  end.
Lemma slash_percent_range r d : 0 ≤ slash_percent r d ≤ worst r.
Proof. destruct r; cbn; repeat case_match; lia. Qed.
Lemma slash_percent_mono r d d' : d ≤ d' → slash_percent r d ≤ slash_percent r d'.
Proof.
  intros Hd.
  assert (SEVEN_MINUTES < FOUR_HOURS ∧ FOUR_HOURS < VerifyOnline.ONE_DAY ∧ VerifyOnline.ONE_DAY < VerifyOnline.TWO_DAYS ∧
    VerifyOnline.TWO_DAYS < FIVE_DAYS ∧ FIVE_DAYS < TEN_DAYS) as Ho by done.
  destruct r; cbn [slash_percent]; try done;
    repeat (match goal with |- context [?x <? ?y] => destruct (Z.ltb_spec x y) end; try lia).
Qed.

Section slashes.
Context {P : PerThing} {LP : PerThingLaws P} {L H : Type} `{!ReservableCurrency L}.
Context `{!GNOps L H, !CommitteeRewards L H, !ServerRooms H, !TxFee L H, !RentPrice H} (T : Config).
Abbreviation W := ((State P * H) * L)%type.
Implicit Types (s : State P) (w : W) (now : BlockNumber).

Definition slashes s := (PendingSlash s, PendingExecSlash s).
Definition listed s (b : BlockNumber) : list SlashId := default [] (PendingExecSlash s !! b).
(** Every pending slash waits for a block of the next two days. *)
Record Queued now s : Prop := {
  qu_sorted b : sorted (listed s b);
  qu_time id i : PendingSlash s !! id = Some i → now < slash_exec_time i ≤ now + VerifyOnline.TWO_DAYS;
  qu_listed id i : PendingSlash s !! id = Some i → id ∈ listed s (slash_exec_time i);
}.
Lemma Queued_same now s s' : slashes s' = slashes s → Queued now s → Queued now s'.
Proof. intros [= Hp He] [Q1 Q2 Q3]. unfold listed in *. split; unfold listed; rewrite ?Hp, ?He; done. Qed.
Definition queued now w : Prop := Queued now w.1.1.
Lemma kept_queued {E A} now (r : M W E A) : (∀ x, kept (part_is slashes x) r) → kept (queued now) r.
Proof. intros Hr w Hw. apply (Queued_same now w.1.1); [|done]. by apply (Hr (slashes w.1.1)). Qed.

(** The calls that record or cancel a slash. *)
Definition slashing (c : Call) : bool :=
  match c with ControllerReportOnlineCall _ | ExecSlash _ | CancelSlash _ => true | _ => false end.
Lemma part_call now o c x : slashing c = false → kept (part_is slashes x) (dispatch (L:=L) (H:=H) T now o c).
Proof.
  intros Hc. unfold dispatch. apply kept_transactional.
  destruct c; try done; cbn [run_call]; autounfold with profile_ops; count_steps.
Qed.
Lemma part_request now r x : kept (part_is slashes x) (serve (L:=L) (H:=H) now r).
Proof.
  destruct r; cbn [serve]; autounfold with profile_ops;
    [count_steps|count_steps|count_steps| |count_steps..].
  intros w Hw. apply (refuse_kept (part_is slashes x)); [| | |done].
  - intros a. unfold refuse_mut_hardware. count_steps.
  - intros a v. count_steps.
  - done.
Qed.

(** *** Recording and cancelling *)
Lemma listed_add s b id b' :
  default [] (add_at b id (PendingExecSlash s) !! b') = if decide (b' = b) then add_item (listed s b) id else listed s b'.
Proof.
  unfold add_at, listed. rewrite lookup_insert. destruct (decide (b = b')), (decide (b' = b)); by simplify_eq.
Qed.
Lemma listed_rm s b id b' :
  default [] (rm_at b id (PendingExecSlash s) !! b') = if decide (b' = b) then rm_item (listed s b) id else listed s b'.
Proof.
  unfold rm_at, listed. rewrite lookup_insert. destruct (decide (b = b')), (decide (b' = b)); by simplify_eq.
Qed.
Lemma Queued_add now s s' id i :
  Queued now s → now < slash_exec_time i ≤ now + VerifyOnline.TWO_DAYS →
  PendingSlash s' = <[id := i]> (PendingSlash s) →
  PendingExecSlash s' = add_at (slash_exec_time i) id (PendingExecSlash s) → Queued now s'.
Proof.
  intros [Q1 Q2 Q3] Ht Hp He. split; unfold listed; rewrite ?Hp, ?He.
  - intros b. rewrite listed_add. case_decide; [|done]. by apply add_item_spec.
  - intros id' j. rewrite lookup_insert_Some. intros [[_ <-]|[_ Hj]]; [done|by eapply Q2].
  - intros id' j. rewrite lookup_insert_Some, listed_add. intros [[<- <-]|[Hne Hj]].
    + rewrite decide_True by done. apply add_item_spec; [done|by left].
    + specialize (Q3 id' j Hj). case_decide as Hb; [|done]. apply add_item_spec; [done|]. right. by rewrite <-Hb.
Qed.
Lemma Queued_cancel now s s' id b :
  Queued now s → PendingSlash s' = delete id (PendingSlash s) →
  PendingExecSlash s' = rm_at b id (PendingExecSlash s) → Queued now s'.
Proof.
  intros [Q1 Q2 Q3] Hp He. split; unfold listed; rewrite ?Hp, ?He.
  - intros b'. rewrite listed_rm. case_decide; [|done]. by apply rm_item_spec.
  - intros id' j [_ Hj]%lookup_delete_Some. by eapply Q2.
  - intros id' j [Hne Hj]%lookup_delete_Some. rewrite listed_rm. specialize (Q3 id' j Hj).
    case_decide as Hb; [|done]. apply rm_item_spec; [done|]. rewrite <-Hb. split; [done|congruence].
Qed.

Ltac quiet := apply kept_queued; intros; count_steps.
Ltac queue_step :=
  cbv beta;
  lazymatch goal with
  | |- kept (queued _) (match ?x with _ => _ end ≫= _) => destruct x
  | |- kept (queued _) ((_ ≫= _) ≫= _) => apply kept_assoc
  | |- kept (queued _) (own_gets _ ≫= _) => kept_step
  | |- kept (queued _) (gets _ ≫= _) => kept_step
  | |- kept (queued _) (ok_or _ _ ≫= _) => kept_step
  | |- kept (queued _) (ensure _ _ ≫= _) => kept_step
  | |- kept (queued _) (mret _ ≫= _) => kept_step
  end.

Lemma record_queued now m i :
  slash_exec_time i = VerifyOnline.add_block now VerifyOnline.TWO_DAYS → 0 ≤ now → now + VerifyOnline.TWO_DAYS ≤ U32_MAX →
  kept (queued now) (record_slash (L:=L) (H:=H) m i).
Proof.
  intros Ht Hn Hmax w Hw. unfold record_slash, get_new_slash_id, own_gets. unfold mbind, M_bind, gets. simpl.
  apply (Queued_add now w.1.1 _ (NextSlashId w.1.1) i Hw); [|done..].
  rewrite Ht. assert (0 < VerifyOnline.TWO_DAYS) by done. unfold VerifyOnline.add_block, U32_MAX in *.
  rewrite Z.mod_small; lia.
Qed.
(** A new slash is executed two days from now. *)
Lemma new_slash_queued {B} now m r rep rs c d e (k : OPPendingSlashInfo → M W (DispatchError Error) B) :
  (∀ i, slash_exec_time i = VerifyOnline.add_block now VerifyOnline.TWO_DAYS → kept (queued now) (k i)) →
  kept (queued now) (map_err e (new_slash_when_offline now m r rep rs c d) ≫= k).
Proof.
  intros Hk w Hw. unfold new_slash_when_offline, new_offline_slash, own_gets.
  assert (∀ x y z r', queued now ((map_err e (maybe_info ← gets (λ w0 : W, MachinesInfo w0.1.1 !! m);
    machine_info ← ok_or maybe_info tt;
    mret {| slash_who := machine_stash machine_info; slash_machine := m; slash_time := now;
      slash_amount := per_mul (from_rational (slash_percent r' d) 100) (stake_amount machine_info);
      slash_exec_time := VerifyOnline.add_block now VerifyOnline.TWO_DAYS;
      reporter := x; slash_renters := y; reward_to_committee := z; slash_reason := r' |}) ≫= k) w).2) as Hgo.
  { intros x y z r'. unfold map_err. unfold mbind, M_bind, gets, ok_or, mret, M_ret. simpl.
    destruct (MachinesInfo w.1.1 !! m); [|done]. by apply Hk. }
  destruct r; apply Hgo.
Qed.

Lemma report_online_queued now o m :
  0 ≤ now → now + VerifyOnline.TWO_DAYS ≤ U32_MAX → kept (queued now) (controller_report_online (L:=L) (H:=H) now o m).
Proof.
  intros Hn Hmax. unfold controller_report_online. apply kept_bind; [quiet|intros a]. repeat queue_step.
  match goal with |- kept _ (match ?x with _ => _ end) => destruct x as [[[[[reason rep] rs] cm] before]|] end; [|quiet].
  apply new_slash_queued. intros i Hi. repeat (cbv beta zeta; queue_step); cbv zeta; [|quiet].
  apply kept_bind; [quiet|intros _].
  apply kept_bind; [apply record_queued; [by repeat case_match|done..]|intros _]. quiet.
Qed.
Lemma exec_slash_queued now o m :
  0 ≤ now → now + VerifyOnline.TWO_DAYS ≤ U32_MAX → kept (queued now) (exec_slash (L:=L) (H:=H) now o m).
Proof.
  intros Hn Hmax. unfold exec_slash. apply kept_bind; [quiet|intros a]. repeat queue_step.
  case_match; try solve [quiet]. repeat queue_step.
  apply new_slash_queued. intros i Hi. repeat (cbv beta zeta; queue_step); [|quiet].
  apply kept_bind; [by apply record_queued|intros _]. quiet.
Qed.
Lemma cancel_slash_queued now o id : kept (queued now) (cancel_slash (L:=L) (H:=H) T o id).
Proof.
  unfold cancel_slash, do_cancel_slash. repeat queue_step.
  do 2 (apply kept_bind; [quiet|intros _]). intros w Hw.
  by eapply (Queued_cancel now w.1.1 _ id _ Hw).
Qed.
Lemma call_queued now o c :
  0 ≤ now → now + VerifyOnline.TWO_DAYS ≤ U32_MAX → kept (queued now) (dispatch (L:=L) (H:=H) T now o c).
Proof.
  intros Hn Hmax. destruct (slashing c) eqn:Hc; [|by apply kept_queued; intros x; apply part_call].
  unfold dispatch. apply kept_transactional. destruct c; try done; cbn [run_call];
    [by apply report_online_queued|apply cancel_slash_queued|by apply exec_slash_queued].
Qed.

(** *** The block hook *)
Lemma exec_a_slash_run id w :
  ∃ w', exec_a_slash (L:=L) (H:=H) id w = (Ok tt, w') ∧
    PendingSlash w'.1.1 = delete id (PendingSlash w.1.1) ∧ PendingExecSlash w'.1.1 = PendingExecSlash w.1.1.
Proof.
  unfold exec_a_slash, own_gets. rewrite bind_gets. destruct (PendingSlash w.1.1 !! id) as [i|] eqn:Hi.
  - match goal with |- context [(?r ≫= ?k) w] =>
      assert (kept (part_is slashes (slashes w.1.1)) r) as Hk by
        (destruct (slash_reason i); unfold do_slash_deposit, try_to_change_machine_status_to_fulfill; count_steps);
      assert (∃ w1, r w = (Ok tt, w1)) as [w1 Hr] by (destruct (slash_reason i); eexists; reflexivity);
      specialize (Hk w eq_refl); rewrite (bind_run _ _ _ _ _ Hr); rewrite Hr in Hk end.
    injection Hk as Hp He. eexists. split_and!; [reflexivity| |]; simpl in *; by rewrite ?Hp, ?He.
  - exists w. split_and!; [done| |done]. symmetry. by apply delete_id.
Qed.
Lemma exec_loop_run ids w :
  ∃ w', for_each ids (exec_a_slash (L:=L) (H:=H)) w = (Ok tt, w') ∧
    (∀ id, PendingSlash w'.1.1 !! id = if decide (id ∈ ids) then None else PendingSlash w.1.1 !! id) ∧
    PendingExecSlash w'.1.1 = PendingExecSlash w.1.1.
Proof.
  revert w. induction ids as [|id ids IH]; intros w; [by exists w|].
  destruct (exec_a_slash_run id w) as (w1 & Hr & Hp & He). destruct (IH w1) as (w' & Hr' & Hp' & He').
  exists w'. cbn [for_each]. rewrite (bind_run _ _ _ _ _ Hr). split_and!; [done| |congruence].
  intros id'. rewrite Hp', Hp. destruct (decide (id' = id)) as [->|Hne].
  - rewrite lookup_delete_eq. rewrite (decide_True _ _ (list_elem_of_here _ _)). by case_decide.
  - rewrite lookup_delete_ne by done. destruct (decide (id' ∈ ids)) as [Hd|Hd].
    + by rewrite decide_True by (by right).
    + rewrite decide_False; [done|]. by intros [?|?]%elem_of_cons.
Qed.

Lemma release_loop_ok n queue era r mp sp w :
  ∃ l w', release_loop (L:=L) (H:=H) n queue era r mp sp w = (Ok l, w').
Proof.
  revert queue w. induction n as [|n IH]; intros [|m queue] w; cbn [release_loop]; [by eexists _, _..|].
  destruct (IH queue (distribute_reward_to_machine m era r mp sp w).2) as (l & w' & Hr). exists l, w'.
  by rewrite (bind_run _ _ w tt (distribute_reward_to_machine m era r mp sp w).2).
Qed.
Lemma backup_ok now w : ∃ w', backup_and_reward (L:=L) (H:=H) T now w = (Ok tt, w').
Proof.
  unfold backup_and_reward, own_gets. destruct (_ =? 2); [by eexists|]. destruct (_ && _); [|by eexists].
  rewrite !bind_gets. match goal with |- context [release_loop ?n ?q ?e ?r ?mp ?sp ≫= _] =>
    destruct (release_loop_ok n q e r mp sp w) as (l & w' & Hr) end.
  rewrite (bind_run _ _ _ _ _ Hr). by eexists.
Qed.
Lemma part_release n queue era r mp sp x : kept (part_is slashes x) (release_loop (L:=L) (H:=H) n queue era r mp sp).
Proof.
  revert queue. induction n as [|n IH]; intros [|m queue]; cbn [release_loop]; count_steps; [|apply IH].
  unfold distribute_reward_to_machine. count_steps.
Qed.
Lemma part_backup now x : kept (part_is slashes x) (backup_and_reward (L:=L) (H:=H) T now).
Proof. unfold backup_and_reward. count_steps. apply part_release. Qed.
Lemma part_check now x : kept (part_is slashes x) (ignore (E:=unit) (check_pending_slash (L:=L) (H:=H) now)).
Proof. unfold check_pending_slash, check_a_review. count_steps. Qed.

(** Every slash of the block is executed. *)
Lemma block_runs now w :
  ∃ w', on_initialize (L:=L) (H:=H) T now w = (Ok tt, w') ∧
    (∀ id, PendingSlash w'.1.1 !! id = if decide (id ∈ listed w.1.1 now) then None else PendingSlash w.1.1 !! id) ∧
    PendingExecSlash w'.1.1 = PendingExecSlash w.1.1.
Proof.
  destruct (backup_ok now w) as [w1 Hb]. pose proof (part_backup now (slashes w.1.1) w eq_refl) as P1.
  rewrite Hb in P1. simpl in P1. unfold on_initialize. rewrite (bind_run _ _ _ _ _ Hb).
  match goal with |- context [(?r ≫= ?k) w1] =>
    assert (∃ w2, r w1 = (Ok tt, w2) ∧ part_is slashes (slashes w.1.1) w2) as (w2 & Hr & P2) end.
  { case_match; [|by exists w1]. eexists. split; [done|].
    assert (ignores slashes (update_snap_for_new_era (P:=P))) as Hi by untouched.
    unfold part_is. simpl. by rewrite Hi. }
  rewrite (bind_run _ _ _ _ _ Hr). clear Hr. injection P2 as Pp Pe.
  assert (exec_pending_slash (L:=L) (H:=H) now w2 = for_each (listed w2.1.1 now) exec_a_slash w2) as Hx by done.
  destruct (exec_loop_run (listed w2.1.1 now) w2) as (w3 & H3 & Hp3 & He3). rewrite H3 in Hx.
  rewrite (bind_run _ _ _ _ _ Hx). pose proof (part_check now (slashes w3.1.1) w3 eq_refl) as P4.
  eexists. split; [reflexivity|]. injection P4 as P4p P4e. simpl. unfold listed in *. rewrite Pe in Hp3.
  split; [|by rewrite P4e, He3]. intros id. by rewrite P4p, Hp3, Pp.
Qed.
Lemma block_queued now w :
  queued now w → queued (now + 1) (on_initialize (L:=L) (H:=H) T (now + 1) w).2.
Proof.
  intros [Q1 Q2 Q3]. destruct (block_runs (now + 1) w) as (w' & Hr & Hp & He). rewrite Hr.
  split; simpl; unfold listed; rewrite ?He; [done|..].
  - intros id i. rewrite Hp. case_decide as Hl; [done|]. intros Hi. specialize (Q2 id i Hi). specialize (Q3 id i Hi).
    assert (slash_exec_time i ≠ now + 1) by (intros Ht; by rewrite Ht in Q3). lia.
  - intros id i. rewrite Hp. case_decide; [done|]. apply Q3.
Qed.

Lemma step_queued x y :
  step (L:=L) (H:=H) T x y → 0 ≤ x.1 → (x.1 + VerifyOnline.TWO_DAYS ≤ U32_MAX → queued x.1 x.2) →
  y.1 + VerifyOnline.TWO_DAYS ≤ U32_MAX → queued y.1 y.2.
Proof.
  intros [now o c w|now r w|now w|now s h h' l l'] Hn Q Hmax; simpl in *.
  - by apply call_queued; [..|apply Q].
  - specialize (Q Hmax). revert Q. apply kept_queued. intros p. apply part_request.
  - apply block_queued, Q. lia.
  - exact (Q Hmax).
Qed.
Lemma reachable_queued x :
  reachable (L:=L) (H:=H) T x → 0 ≤ x.1 ∧ (x.1 + VerifyOnline.TWO_DAYS ≤ U32_MAX → queued x.1 x.2).
Proof.
  intros (h & l & Hr).
  apply (rtc_invariant (step T) (λ x, 0 ≤ x.1 ∧ (x.1 + VerifyOnline.TWO_DAYS ≤ U32_MAX → queued x.1 x.2))
    (0, ((genesis, h), l))); [| |exact Hr].
  - intros y z Hs [Hn Hq]. split; [|by apply (step_queued y z)]. destruct Hs; simpl in *; lia.
  - split; [done|]. intros _. split; [intros b; apply sorted_nil|done..].
Qed.
End slashes.
End ProfileSlashes.
