(* ===== verification/ProfileTheorems.v ===== *)
(** * pallet-online-profile: what owners of machines can rely on

    Who owns a machine, how much of its stake a slash takes and when, and what a
    claim of rewards pays; and a run of the pallet. *)
From stdpp Require Import base gmap fin_maps list numbers relations.
From Stdlib Require Import ZArith Lia Strings.Byte.
From S2P Require Import Prelude Currency Interfaces GenericFunc ItemList Committee VerifyOnline RentalTypes ProfileTypes RentalInterfaces OnlineProfile ProfileSteps ProfileOwners ProfileSlashes.

Module ProfileTheorems.
Import ItemList MachineInfo ProfileTypes OnlineProfile ProfileSteps ProfileOwners ProfileSlashes.

Section theorems.
Context {P : PerThing} {LP : PerThingLaws P} {L H : Type} `{!ReservableCurrency L}.
Context `{!GNOps L H, !CommitteeRewards L H, !ServerRooms H, !TxFee L H, !RentPrice H} (T : Config).
Abbreviation W := ((State P * H) * L)%type.
Implicit Types (s : State P) (w : W) (now : BlockNumber) (m : MachineId).

(** ** Ownership *)

(** C16: in every reachable state, whatever the committee, the renters and the rest
    of the runtime did: a stash has one controller and a controller one stash,
    each the other's; the machines listed under a controller are exactly those
    recorded with it, each once; the controller of a machine belongs to the
    machine's stash, which lists the machine among its own. *)
Theorem op_reachable_owners now w :
  reachable (L:=L) (H:=H) T (now, w) →
  (∀ a c, StashController w.1.1 !! a = Some c ↔ ControllerStash w.1.1 !! c = Some a) ∧
  (∀ c, sorted (controller_machines w.1.1 c) ∧
     ∀ m, m ∈ controller_machines w.1.1 c ↔ ∃ i, MachinesInfo w.1.1 !! m = Some i ∧ controller i = c) ∧
  ∀ m i, MachinesInfo w.1.1 !! m = Some i →
    ControllerStash w.1.1 !! controller i = Some (machine_stash i) ∧
    m ∈ total_machine (stash_machines w.1.1 (machine_stash i)).
Proof.
  intros [O1 O2 O3 O4]%reachable_owned. simpl in *. split_and!; [done|..].
  - intros c. destruct (O3 c) as [Hs Hm]. split; [done|]. intros m. rewrite Hm. unfold owner.
    destruct (MachinesInfo w.1.1 !! m); naive_solver.
  - intros m i Hi. apply O2. unfold owner. by rewrite Hi.
Qed.

(** ** Slashes *)

(** C17: every pending slash is executed in time: in every reachable state it waits
    for a block of the next two days, and the hook of each block always runs to
    its end and removes every slash that is due then; what is pending afterwards
    was pending before and is due later, within two days. (Block numbers have 32
    bits; the last two days before they wrap are excluded.) *)
Theorem op_slashes_executed now w :
  reachable (L:=L) (H:=H) T (now, w) → now + 1 + VerifyOnline.TWO_DAYS ≤ U32_MAX →
  (∀ id i, PendingSlash w.1.1 !! id = Some i → now < slash_exec_time i ≤ now + VerifyOnline.TWO_DAYS) ∧
  ∃ w', on_initialize T (now + 1) w = (Ok tt, w') ∧
    (∀ id i, PendingSlash w.1.1 !! id = Some i → slash_exec_time i = now + 1 → PendingSlash w'.1.1 !! id = None) ∧
    ∀ id i, PendingSlash w'.1.1 !! id = Some i →
      PendingSlash w.1.1 !! id = Some i ∧ now + 1 < slash_exec_time i ≤ now + VerifyOnline.TWO_DAYS.
Proof.
  intros [_ Q]%reachable_queued Hmax. simpl in Q. destruct Q as [Q1 Q2 Q3]; [lia|]. split; [done|].
  destruct (block_runs T (now + 1) w) as (w' & Hr & Hp & _). exists w'. split_and!; [done|..].
  - intros id i Hi Ht. rewrite Hp, decide_True; [done|]. rewrite <-Ht. by eapply Q3.
  - intros id i. rewrite Hp. case_decide as Hl; [done|]. intros Hi. split; [done|].
    specialize (Q2 id i Hi). specialize (Q3 id i Hi).
    assert (slash_exec_time i ≠ now + 1) by (intros Ht; by rewrite Ht in Q3). lia.
Qed.

Lemma new_slash_Ok now m r rep rs c d w i w1 :
  new_slash_when_offline (L:=L) (H:=H) now m r rep rs c d w = (Ok i, w1) →
  w1 = w ∧ ∃ info, MachinesInfo w.1.1 !! m = Some info ∧ slash_who i = machine_stash info ∧ slash_machine i = m ∧
    slash_reason i = r ∧ slash_exec_time i = VerifyOnline.add_block now VerifyOnline.TWO_DAYS ∧
    slash_amount i = per_mul (from_rational (slash_percent r d) 100) (stake_amount info).
Proof.
  unfold new_slash_when_offline, new_offline_slash. destruct r; intros Hrun; run_inv; subst;
    (split; [done|]); eexists; split_and!; try done.
Qed.
Lemma percent_of r d v :
  0 ≤ v → let a := per_mul (from_rational (slash_percent r d) 100) v in
  0 ≤ a ≤ v ∧ 100 * a ≤ slash_percent r d * v + 50.
Proof.
  intros Hv. pose proof (slash_percent_range r d) as [Hp _]. assert (slash_percent r d ≤ 100) as Hp'.
  { etrans; [apply slash_percent_range|]. by destruct r. }
  pose proof (from_rational_floor (slash_percent r d) 100 ltac:(lia) ltac:(done)) as Hf.
  pose proof (from_rational_part (slash_percent r d) 100 Hp) as Hq. cbv zeta. split; [by apply per_mul_bounds|].
  pose proof (per_mul_nearest _ v Hq Hv) as Hn. pose proof accuracy_pos. nia.
Qed.

(** The ledger is not touched. *)
Definition ledger_is (l : L) w : Prop := w.2 = l.
Lemma ledger_modify {E} l f : kept (ledger_is l) (own_modify (E:=E) f).
Proof. by intros w Hw. Qed.
Ltac ledger_steps :=
  repeat first [kept_step | apply ledger_modify | progress unfold update_snap_on_online_changed, update_snap_on_rent_changed].

(** What a report of coming online does to the slashes and the stakes. *)
Definition books s := (PendingSlash s, StashStake s, NextSlashId s).
Lemma report_online_books now o m w w' :
  controller_report_online (L:=L) (H:=H) now o m w = (Ok tt, w') →
  (books w'.1.1 = books w.1.1 ∧ w'.2 = w.2) ∨
  ∃ info i, MachinesInfo w.1.1 !! m = Some info ∧ slash_amount i ≠ 0 ∧
    (∃ d, slash_amount i = per_mul (from_rational (slash_percent (slash_reason i) d) 100) (stake_amount info)) ∧
    slash_who i = machine_stash info ∧ slash_machine i = m ∧
    slash_exec_time i = VerifyOnline.add_block now VerifyOnline.TWO_DAYS ∧
    reserve (machine_stash info) (slash_amount i) w.2 = Some w'.2 ∧
    books w'.1.1 = (<[NextSlashId w.1.1 := i]> (PendingSlash w.1.1),
      <[machine_stash info := stash_stake w.1.1 (machine_stash info) + slash_amount i]> (StashStake w.1.1),
      if NextSlashId w.1.1 =? U64_MAX then 0 else NextSlashId w.1.1 + 1).
Proof.
  unfold controller_report_online. intros Hrun. apply bind_Ok in Hrun as (who & w0 & [_ ->]%ensure_signed_Ok & Hrun). unfold own_gets in Hrun.
  rewrite bind_gets in Hrun. destruct (MachinesInfo w.1.1 !! m) as [info|] eqn:Hinfo; [|done].
  rewrite bind_ok_or in Hrun. apply bind_Ok in Hrun as (u & w0 & [_ ->]%ensure_Ok & Hrun).
  rewrite bind_gets in Hrun. apply bind_Ok in Hrun as (t & w0 & [Ht ->]%ok_or_Ok & Hrun).
  rewrite bind_gets in Hrun. destruct (offline_terms w.1.1 m info) as [[[[[reason rep] rs] cm] before]|];
    [|by left; apply mret_Ok in Hrun as [_ ->]].
  apply bind_Ok in Hrun as (i & w0 & Hi%map_err_Ok & Hrun).
  apply new_slash_Ok in Hi as (-> & info' & Hinfo' & Hwho & Hm & Hr & Htime & Hamount).
  rewrite Hinfo in Hinfo'. injection Hinfo' as <-. rewrite !bind_gets in Hrun. cbv zeta in Hrun.
  match type of Hrun with ((if negb (slash_amount ?j =? 0) then _ else _) ≫= _) w = _ =>
    assert (slash_amount j ≠ 0 → j = i) as Hj by (repeat case_match; done); set (i' := j) in * end.
  clearbody i'. apply bind_Ok in Hrun as (u2 & w2 & H2 & Hrun).
  assert (books w'.1.1 = books w2.1.1 ∧ w'.2 = w2.2) as [-> ->].
  { revert Hrun. match goal with |- ?r w2 = _ → _ =>
      assert (kept (part_is books (books w2.1.1)) r) as Hk by count_steps;
      assert (kept (ledger_is w2.2) r) as Hl by ledger_steps end.
    intros Hrun. specialize (Hk w2 eq_refl). specialize (Hl w2 eq_refl). by rewrite Hrun in Hk, Hl. }
  destruct (Z.eqb_spec (slash_amount i') 0) as [Hz|Hz]; [left; by apply mret_Ok in H2 as [_ ->]|right].
  assert (i' = i) as -> by auto. cbn [negb] in H2. apply bind_Ok in H2 as (u3 & w3 & H3%map_err_Ok & H4).
  change (change_stake (machine_stash info) (slash_amount i) true w = (Ok u3, w3)) in H3.
  destruct (change_stake_run (machine_stash info) (slash_amount i) true w) as [He|(l & new & He & -> & Hl)];
    rewrite He in H3; [done|]. injection H3 as _ <-.
  unfold record_slash, get_new_slash_id in H4. unfold mbind, M_bind in H4. simpl in H4. injection H4 as _ <-.
  exists info, i. split_and!; try done. by exists (saturating_sub now t); rewrite Hr.
Qed.

(** A machine that reports itself online again is slashed only once and only
    for the time it was away: the call records at most one new slash, against
    the machine's stash, of the percentage of the machine's stake that the code
    fixes for the reason and the time offline, rounded to the nearest, never
    more than the stake; it is to be executed two days later, and its amount is
    reserved from the stash and added to its recorded stake at once. No other
    pending slash and no other stake changes. *)
Theorem op_report_online_slash `{!ReservableCurrencyLaws L} now o m w w' :
  (∀ i, MachinesInfo w.1.1 !! m = Some i → 0 ≤ stake_amount i) →
  dispatch (L:=L) (H:=H) T now o (ControllerReportOnlineCall m) w = (Ok tt, w') →
  (PendingSlash w'.1.1 = PendingSlash w.1.1 ∧ StashStake w'.1.1 = StashStake w.1.1 ∧ w'.2 = w.2) ∨
  ∃ info i, MachinesInfo w.1.1 !! m = Some info ∧
    let stash := machine_stash info in
    let v := slash_amount i in
    slash_machine i = m ∧ slash_who i = stash ∧ 0 < v ≤ stake_amount info ∧
    (∃ d, 100 * v ≤ slash_percent (slash_reason i) d * stake_amount info + 50) ∧
    slash_exec_time i = VerifyOnline.add_block now VerifyOnline.TWO_DAYS ∧
    moves w.2 w'.2 (at_account stash (- v)) (at_account stash v) ∧
    PendingSlash w'.1.1 = <[NextSlashId w.1.1 := i]> (PendingSlash w.1.1) ∧
    ∀ a, stash_stake w'.1.1 a = stash_stake w.1.1 a + at_account stash v a.
Proof.
  intros Hs Hrun. apply transactional_Ok in Hrun. cbn [run_call] in Hrun.
  destruct (report_online_books now o m w w' Hrun) as [[[= Hp Hst _] Hl]|(info & i & Hi & Hz & [d Hd] & Hwho & Hm & Ht & Hl & [= Hp Hst _])];
    [by left|right]. specialize (Hs info Hi). pose proof (percent_of (slash_reason i) d _ Hs) as [Hb Hb'].
  rewrite <-Hd in Hb, Hb'. exists info, i. cbv zeta. split_and!; try done; try lia; [by exists d|..].
  - apply reserve_spec in Hl as [_ Hl]; [done|lia].
  - intros a. unfold stash_stake at 1. rewrite Hst, stash_stake_at. unfold at_account. case_decide; subst; lia.
Qed.

(** ** Rewards *)

(** Whatever is reserved is recorded as stake, and no balance is lost. *)
Definition balanced (total unstaked : AccountId → Z) w : Prop := ∀ a,
  free_balance w.2 a + reserved_balance w.2 a = total a ∧ reserved_balance w.2 a - stash_stake w.1.1 a = unstaked a.
Lemma balanced_stake `{!ReservableCurrencyLaws L} t u a v :
  0 ≤ v → kept (balanced t u) (change_stake (L:=L) (H:=H) a v true).
Proof.
  intros Hv w Hw. destruct (change_stake_run a v true w) as [->|(l & new & -> & -> & Hr)]; [done|].
  apply reserve_spec in Hr as [_ Hm]; [|done]. intros b. destruct (Hw b) as [H1 H2], (Hm b) as [M1 M2]. simpl.
  rewrite M1, M2. unfold stash_stake at 1. simpl. rewrite stash_stake_at. unfold at_account in *. case_decide; subst; lia.
Qed.
Lemma balanced_modify {E} t u f : (∀ s, StashStake (f s) = StashStake s) → kept (balanced t u) (own_modify (E:=E) f).
Proof. intros Hf w Hw a. destruct (Hw a) as [H1 H2]. simpl. unfold stash_stake in *. by rewrite Hf. Qed.
Lemma balanced_fulfill `{!ReservableCurrencyLaws L} t u machines v :
  0 ≤ v → kept (balanced t u) (fulfill_loop (L:=L) (H:=H) machines v).
Proof.
  revert v. induction machines as [|m machines IH]; intros v Hv; cbn [fulfill_loop]; [apply kept_mret|].
  kept_step. case_match; [|by apply IH]. do 3 kept_step. case_match eqn:Hneed; [by apply IH|].
  apply Z.leb_gt in Hneed. case_match eqn:Hleft.
  - apply Z.leb_le in Hleft. apply kept_bind; [apply balanced_stake; lia|intros _].
    do 2 (apply kept_bind; [by apply balanced_modify|intros _]). apply IH. unfold saturating_sub. lia.
  - apply kept_bind; [by apply balanced_stake|intros _]. apply kept_bind; [|intros _]; by apply balanced_modify.
Qed.

(** A successful claim is by the controller of a stash and pays the stash
    exactly the rewards recorded for it, once: they are minted, the record goes to
    zero and the total claimed grows by them; no other account gains or loses,
    and what part of balances the claim reserves to fulfil the stakes of the
    stash's machines it records as stake, no more and no less. *)
Theorem op_claim_pays_exactly `{!ReservableCurrencyLaws L} now o w w' :
  (∀ a sm, StashMachines w.1.1 !! a = Some sm → 0 ≤ can_claim_reward sm) →
  dispatch (L:=L) (H:=H) T now o ClaimRewards w = (Ok tt, w') →
  ∃ who stash sm, o = Signed who ∧ ControllerStash w.1.1 !! who = Some stash ∧
    StashMachines w.1.1 !! stash = Some sm ∧
    StashMachines w'.1.1 !! stash = Some (sm <| can_claim_reward := 0 |>
      <| total_claimed_reward := total_claimed_reward sm + can_claim_reward sm |>) ∧
    ∀ a, free_balance w'.2 a + reserved_balance w'.2 a =
           free_balance w.2 a + reserved_balance w.2 a + at_account stash (can_claim_reward sm) a ∧
         reserved_balance w'.2 a - reserved_balance w.2 a = stash_stake w'.1.1 a - stash_stake w.1.1 a.
Proof.
  intros Hv Hrun. apply transactional_Ok in Hrun. cbn [run_call] in Hrun. unfold claim_rewards, own_gets in Hrun.
  apply bind_Ok in Hrun as (who & w0 & [-> ->]%ensure_signed_Ok & Hrun). rewrite bind_gets in Hrun.
  destruct (ControllerStash w.1.1 !! who) as [stash|] eqn:Hc; [|done]. rewrite bind_ok_or, bind_gets in Hrun.
  destruct (StashMachines w.1.1 !! stash) as [sm|] eqn:Hsm; [|done]. specialize (Hv stash sm Hsm).
  apply bind_Ok in Hrun as (u & w0 & [_ ->]%ensure_Ok & Hrun). simpl in Hrun.
  apply bind_Ok in Hrun as ([v sm'] & w0 & [Hclaim ->]%ok_or_Ok & Hrun).
  unfold claim_reward, checked_add in Hclaim. destruct (_ <=? U128_MAX); [|done]. simpl in Hclaim. injection Hclaim as <- <-.
  apply bind_Ok in Hrun as (u1 & w1 & (l & Hd & ->)%m_deposit_Ok & Hrun). apply deposit_spec in Hd as Hm; [|done].
  apply bind_Ok in Hrun as (u2 & w2 & Hf%map_err_Ok & Hrun).
  pose proof (balanced_fulfill (λ a, free_balance l a + reserved_balance l a) (λ a, reserved_balance l a - stash_stake w.1.1 a)
    (stash_online (stash_machines w.1.1 stash)) (can_claim_reward sm) Hv (w.1, l)) as Hb.
  change (fulfill_loop (stash_online (stash_machines w.1.1 stash)) (can_claim_reward sm) (w.1, l) = (Ok u2, w2)) in Hf.
  rewrite Hf in Hb. specialize (Hb ltac:(done)). unfold mbind, M_bind in Hrun. simpl in Hrun. injection Hrun as <-.
  exists who, stash, sm. split_and!; try done; [apply lookup_insert_eq|]. intros a. destruct (Hb a) as [B1 B2], (Hm a) as [M1 M2].
  unfold stash_stake in *. simpl in *. lia.
Qed.
End theorems.

#[local] Existing Instance GenericFunc.State_eta.
(** ** The rest of the runtime behind the registry's interfaces *)
Definition committee_rewards_via {L H} (get : H → Committee.State) (put : Committee.State → H → H) :
    CommitteeRewards L H := {|
  mc_add_reward who v := via get put (Committee.add_reward who v);
|}.
Definition server_rooms_via {H} (source : Z → H256) (get : H → GenericFunc.State)
    (put : GenericFunc.State → H → H) : ServerRooms H := {|
  rnd_server_room h :=
    let '(room, nonce) := GenericFunc.random_server_room source (GenericFunc.RandNonce (get h)) in
    (room, put ((get h) <| GenericFunc.RandNonce := nonce |>) h);
|}.
Definition tx_fee_via `{ReservableCurrency L, TreasuryCurrency L} {H}
    (get : H → GenericFunc.State) (put : GenericFunc.State → H → H) : TxFee L H := {|
  pay_fixed_tx_fee who := via get put (GenericFunc.pay_fixed_tx_fee who);
|}.

(** ** A run

    Stash 9 and its controller 10 bond a machine of four GPUs, the committee
    members 1 and 2 verify it; account 100 is the treasury. *)
Module Demo.
#[export] Existing Instances Ledger.currency Ledger.treasury_currency Ledger.laws Ledger.treasury_laws.
#[export] Existing Instances perbill perbill_laws.
#[export] Existing Instances MachineInfo.MachineInfo_eta VerifyOnline.CommitteeUploadInfo_eta.
#[export] Existing Instances GenericFunc.State_eta StashMachine_eta.
Abbreviation Rest := (Committee.State * GenericFunc.State)%type.
Definition put_committee (s : Committee.State) (h : Rest) : Rest := (s, h.2).
Definition put_generic (s : GenericFunc.State) (h : Rest) : Rest := (h.1, s).
#[export] Instance slash_ops : GNOps Ledger.t Rest := gn_ops.
#[export] Instance reward_ops : CommitteeRewards Ledger.t Rest := committee_rewards_via fst put_committee.
#[export] Instance room_ops : ServerRooms Rest := server_rooms_via (λ n, Z.to_N n) snd put_generic.
#[export] Instance fee_ops : TxFee Ledger.t Rest := tx_fee_via snd put_generic.
#[export] Instance price_ops : RentPrice Rest := {|
  dbc_amount_by_value _ v := if (0 <=? v) && (v <=? U128_MAX) then Some v else None;
  dlc_amount_by_value _ v := None;
|}.
#[export] Instance price_ops_laws : RentPriceLaws Rest.
Proof.
  split. intros h v d Hd. cbn [dbc_amount_by_value price_ops] in Hd.
  destruct (Z.leb_spec 0 v), (Z.leb_spec v U128_MAX); simpl in Hd; by simplify_eq.
Qed.
Definition config : Config := {|
  CancelSlashOrigin := λ o, match o with Root => true | _ => false end;
  get_account_from_str := λ _, Some 9%N;
  verify_sig := λ _ _ _, true;
  iter_order := λ l, l;
|}.
Abbreviation World := ((State perbill * Rest) * Ledger.t)%type.

Definition m : MachineId := repeat x6d 64.
Definition msg : bytes := m ++ repeat x30 48.
Definition hardware : VerifyOnline.CommitteeUploadInfo := VerifyOnline.CommitteeUploadInfo_default
  <| VerifyOnline.machine_id := m |> <| VerifyOnline.gpu_num := 4 |> <| VerifyOnline.calc_point := 9600 |>.
Definition params : OnlineStakeParamsInfo := {|
  online_stake_per_gpu := 100000; online_stake_usd_limit := 1000; reonline_stake := 50; slash_review_stake := 30 |}.
Definition phases : PhaseRewardInfoDetail := {|
  online_reward_start_era := 0; first_phase_duration := 100; galaxy_on_era := 0;
  phase_0_reward_per_era := 1000000; phase_1_reward_per_era := 0; phase_2_reward_per_era := 0 |}.
Definition rest : Rest := (Committee.genesis, GenericFunc.genesis <| GenericFunc.FixedTxFee := Some 10 |>).
Definition ledger : Ledger.t := {[1 := (10, 0); 2 := (10, 0); 9 := (10000, 0); 10 := (100, 0); 100 := (1, 0)]}%N.

Definition run (o : Origin) (c : Call) (x : BlockNumber * World) : BlockNumber * World := (x.1, (dispatch config x.1 o c x.2).2).
Definition ask (r : Request) (x : BlockNumber * World) : BlockNumber * World := (x.1, (serve x.1 r x.2).2).
Definition block (x : BlockNumber * World) : BlockNumber * World := (x.1 + 1, (on_initialize config (x.1 + 1) x.2).2).
Definition blocks (n : N) (x : BlockNumber * World) : BlockNumber * World := N.iter n block x.

Definition bonded := run (Signed 10%N) (BondMachineCall m msg [])
  (run (Signed 9%N) (SetController 10%N)
  (run Root (SetRewardInfo phases)
  (run Root (SetOnlineStakeParams params) (0, ((genesis, rest), ledger))))).
Definition online := ask (Confirm [1%N; 2%N] hardware) (ask (Booked m) (blocks 5 bonded)).
Definition away := run (Signed 10%N) (ControllerReportOfflineCall m) online.
Definition absent := blocks 80 away.
Definition back := run (Signed 10%N) (ControllerReportOnlineCall m) absent.
Definition swapped := run (Signed 10%N) (ControllerReportOnlineCall m)
  (run (Signed 10%N) (OfflineMachineChangeHardwareInfo m) online).
Definition reviewed := run (Signed 10%N) (ApplySlashReviewCall 0 []) (run (Signed 10%N) (ApplySlashReviewCall 0 []) back).
Definition cancelled := run Root (CancelSlash 0) reviewed.

Lemma op_run_reachable o c x : reachable config x → reachable config (run o c x).
Proof. intros (h & l & Hr). exists h, l. eapply rtc_r; [exact Hr|]. destruct x as [t w]. apply step_call. Qed.
Lemma op_ask_reachable r x : reachable config x → reachable config (ask r x).
Proof. intros (h & l & Hr). exists h, l. eapply rtc_r; [exact Hr|]. destruct x as [t w]. apply step_request. Qed.
Lemma op_blocks_reachable n x : reachable config x → reachable config (blocks n x).
Proof.
  intros Hr. unfold blocks. apply N.iter_invariant; [|exact Hr].
  intros y (h & l & Hy). exists h, l. eapply rtc_r; [exact Hy|]. destruct y as [t w]. apply step_block.
Qed.
Lemma bonded_reachable : reachable config bonded.
Proof. unfold bonded. do 4 apply op_run_reachable. exists rest, ledger. apply rtc_refl. Qed.
Lemma online_reachable : reachable config online.
Proof. unfold online. do 2 apply op_ask_reachable. apply op_blocks_reachable, bonded_reachable. Qed.
Lemma back_reachable : reachable config back.
Proof. unfold back, absent, away. apply op_run_reachable, op_blocks_reachable, op_run_reachable, online_reachable. Qed.
Lemma swapped_reachable : reachable config swapped.
Proof. unfold swapped. do 2 apply op_run_reachable. apply online_reachable. Qed.
Lemma op_cancelled_reachable : reachable config cancelled.
Proof. unfold cancelled, reviewed. do 3 apply op_run_reachable. apply back_reachable. Qed.

Lemma op_ran o c x : (dispatch config x.1 o c x.2).1 = Ok tt →
  dispatch config x.1 o c x.2 = (Ok tt, (run o c x).2).
Proof. intros Hok. unfold run. simpl. rewrite <-Hok. apply surjective_pairing. Qed.
Lemma back_ran : dispatch config absent.1 (Signed 10%N) (ControllerReportOnlineCall m) absent.2 = (Ok tt, back.2).
Proof. apply op_ran. vm_compute. reflexivity. Qed.
Lemma back_facts :
  back.1 = 85 ∧ controller_machines back.2.1.1 10%N = [m] ∧
  (λ i, (slash_exec_time i, slash_amount i)) <$> PendingSlash back.2.1.1 !! 0 = Some (28885, 160) ∧
  (λ i, (machine_stash i, stake_amount i)) <$> MachinesInfo absent.2.1.1 !! m = Some (9%N, 4000) ∧
  stash_stake absent.2.1.1 9%N = 4000 ∧ stash_stake back.2.1.1 9%N = 4160.
Proof. split_and!; vm_compute; reflexivity. Qed.

(** A machine taken offline to change its hardware can be reported online again
    at once, without the verification its owner staked for: it is online, and
    still among the machines to be verified. *)
Lemma op_swap_skips_verification :
  reachable config swapped ∧ machine_status <$> MachinesInfo swapped.2.1.1 !! m = Some Online ∧
  online_machine (LiveMachines swapped.2.1.1) = [m] ∧ bonding_machine (LiveMachines swapped.2.1.1) = [m] ∧
  is_Some (UserMutHardwareStake swapped.2.1.1 !! (9%N, m)).
Proof.
  split; [apply swapped_reachable|]. split_and!; try (vm_compute; reflexivity).
  eexists. vm_compute. reflexivity.
Qed.
(** A second application for the review of a slash replaces the first, whose
    stake stays reserved for ever, also after the slash is cancelled. *)
Lemma op_second_review_loses_stake :
  reachable config cancelled ∧ stash_stake online.2.1.1 9%N = 4000 ∧ stash_stake cancelled.2.1.1 9%N = 4030 ∧
  reserved_balance cancelled.2.2 9%N = 4030 ∧ PendingSlash cancelled.2.1.1 = ∅ ∧ PendingSlashReview cancelled.2.1.1 = ∅.
Proof. split; [apply op_cancelled_reachable|]. split_and!; vm_compute; reflexivity. Qed.

(** The stash's recorded stake is gone, what is reserved is held by others; the
    slash of the machine's full stake is executed all the same. *)
Definition spent : World :=
  (((online.2.1.1 <| StashStake := ∅ |> <| PendingSlash := {[0 := {|
       slash_who := 9%N; slash_machine := m; slash_time := 5; slash_amount := 4000; slash_exec_time := 6;
       reporter := None; slash_renters := []; reward_to_committee := None;
       slash_reason := OnlineRentFailed 5 |}]} |>), online.2.1.2), online.2.2).
Lemma op_slash_takes_others :
  stash_stake spent.1.1 9%N = 0 ∧ reserved_balance spent.2 9%N = 4000 ∧
  reserved_balance (exec_a_slash 0 spent).2.2 9%N = 0.
Proof. split_and!; vm_compute; reflexivity. Qed.

(** Rewards of 500, of which the claim stakes what the machine lacks. *)
Definition rich : World :=
  ((online.2.1.1 <| StashMachines ::= alter (λ sm, sm <| can_claim_reward := 500 |>) 9%N |>, online.2.1.2), online.2.2).
Definition paid := run (Signed 10%N) ClaimRewards (5, rich).
Lemma paid_ran : dispatch config 5 (Signed 10%N) ClaimRewards rich = (Ok tt, paid.2).
Proof. apply (op_ran (Signed 10%N) ClaimRewards (5, rich)). vm_compute. reflexivity. Qed.
Lemma paid_facts :
  map_Forall (λ _ sm, 0 ≤ can_claim_reward sm) (StashMachines rich.1.1) ∧
  ControllerStash rich.1.1 !! 10%N = Some 9%N ∧
  can_claim_reward <$> StashMachines rich.1.1 !! 9%N = Some 500.
Proof.
  split_and!; try (vm_compute; reflexivity).
  apply (bool_decide_unpack _). vm_compute. reflexivity.
Qed.
#[local] Strategy 1000 [bonded online away absent back swapped reviewed cancelled rich paid].

Lemma op_pairs {x} : reachable config x → reachable config (x.1, x.2).
Proof. by rewrite <-surjective_pairing. Qed.

Lemma op_reachable_owners_witness :
  ∃ i, MachinesInfo back.2.1.1 !! m = Some i ∧ controller i = 10%N.
Proof.
  destruct (op_reachable_owners config back.1 back.2 (op_pairs back_reachable)) as (_ & Hl & _).
  destruct (Hl 10%N) as [_ Hm]. apply Hm. destruct back_facts as (_ & -> & _). left.
Defined.
Lemma op_slashes_executed_witness :
  ∃ i, PendingSlash back.2.1.1 !! 0 = Some i ∧ slash_exec_time i = 28885 ∧
    85 < 28885 ≤ 85 + VerifyOnline.TWO_DAYS ∧ (on_initialize config 86 back.2).1 = Ok tt.
Proof.
  destruct back_facts as (Hnow & _ & Hp & _).
  destruct (op_slashes_executed config back.1 back.2 (op_pairs back_reachable)) as (Hq & w' & Hr & _).
  { rewrite Hnow. discriminate. }
  destruct (PendingSlash back.2.1.1 !! 0) as [i|] eqn:Hi; [|discriminate Hp]. injection Hp as Ht _.
  specialize (Hq 0 i Hi). rewrite Ht, Hnow in Hq. rewrite Hnow in Hr.
  exists i. split_and!; [reflexivity|exact Ht|apply Hq|apply Hq|].
  change 86 with (85 + 1). rewrite Hr. reflexivity.
Defined.
Lemma op_report_online_slash_witness :
  ∃ i, slash_machine i = m ∧ 0 < slash_amount i ≤ 4000 ∧
    moves absent.2.2 back.2.2 (at_account 9%N (- slash_amount i)) (at_account 9%N (slash_amount i)).
Proof.
  pose proof back_ran as Hrun. destruct back_facts as (_ & _ & _ & Hi & Hs & Hs').
  destruct (MachinesInfo absent.2.1.1 !! m) as [i0|] eqn:Hi0; [|discriminate Hi]. injection Hi as Hst Hsk.
  destruct (op_report_online_slash config absent.1 (Signed 10%N) m absent.2 back.2) as [(_ & He & _)|H].
  - intros i. rewrite Hi0. intros [= <-]. rewrite Hsk. discriminate.
  - exact Hrun.
  - exfalso. unfold stash_stake in Hs, Hs'. rewrite He, Hs in Hs'. discriminate Hs'.
  - destruct H as (info & i & Hinfo & H). rewrite Hi0 in Hinfo. injection Hinfo as <-. cbv zeta in H.
    rewrite Hst, Hsk in H. destruct H as (Hm & _ & Hv & _ & _ & Hmv & _). exists i. split_and!; [exact Hm|apply Hv|apply Hv|exact Hmv].
Defined.
Lemma op_claim_pays_exactly_witness :
  free_balance paid.2.2 9%N + reserved_balance paid.2.2 9%N = free_balance rich.2 9%N + reserved_balance rich.2 9%N + 500 ∧
  free_balance paid.2.2 10%N + reserved_balance paid.2.2 10%N = free_balance rich.2 10%N + reserved_balance rich.2 10%N + 0.
Proof.
  pose proof paid_ran as Hrun. destruct paid_facts as (Hnn & Hc & Hv).
  destruct (op_claim_pays_exactly config 5 (Signed 10%N) rich paid.2) as (who & stash & sm & Ho & Hc' & Hsm & _ & Hb).
  - exact Hnn.
  - exact Hrun.
  - injection Ho as <-. rewrite Hc in Hc'. injection Hc' as <-. rewrite Hsm in Hv. injection Hv as Hv.
    rewrite Hv in Hb. split; [exact (proj1 (Hb 9%N))|exact (proj1 (Hb 10%N))].
Defined.
End Demo.
End ProfileTheorems.
