(* ===== verification/Market.v ===== *)
(** * The rental market: rent-machine over online-profile

    Renting checks the number of GPUs asked for against a count kept by the
    machine registry, and takes them from its own records. The two agree for
    every machine as long as no successful request for it wraps the u32 sum of
    that check: the registry counts at least the GPUs of the orders, so every
    order has as many GPUs as it pays for. First against the interface of the
    registry, then with pallet-online-profile behind it. *)
From stdpp Require Import base gmap fin_maps list numbers relations.
From Stdlib Require Import ZArith Lia Strings.Byte.
From S2P Require Import Prelude Currency Interfaces GenericFunc ItemList Committee VerifyOnline RentalTypes ProfileTypes RentalInterfaces RentMachine RentSteps RentTheorems OnlineProfile ProfileSteps ProfileTheorems.

Module Market.
Import ItemList RentOrder RentMachine RentSteps.

(** ** The count of the registry *)
Abbreviation count := rt_machine_rented_gpu.
Class RTCountLaws (L RT : Type) `{RTOps L RT, TxFee L RT} : Prop := {
  start_counts m n x : (rt_on_rent_start m n x).1 = Ok tt →
    ∀ m', count (rt_on_rent_start m n x).2.1 m' =
      if decide (m' = m) then saturating_add U32_MAX (count x.1 m) n else count x.1 m';
  end_counts t m n d b b' a x : 0 ≤ n → ∀ m',
    count x.1 m' - (if decide (m' = m) then n else 0) ≤ count (rt_on_rent_end t m n d b b' a x).2.1 m';
  expired_counts m n x : 0 ≤ n → ∀ m',
    count x.1 m' - (if decide (m' = m) then n else 0) ≤ count (rt_on_confirm_expired m n x).2.1 m';
  confirmed_counts m a x m' : count (rt_on_confirmed m a x).2.1 m' = count x.1 m';
  rent_fee_counts a m f g x m' : count (rt_change_machine_rent_fee a m f g x).2.1 m' = count x.1 m';
  tx_fee_counts a (x : RT * L) m' : count (pay_fixed_tx_fee a x).2.1 m' = count x.1 m';
}.

(** The GPUs of the orders of a machine. *)
Definition ordered (o : gmap Z RentOrderDetail) (m : MachineId) : Z :=
  msum (λ _ i, if decide (machine_id i = m) then gpu_num i else 0) o.
Definition served (i : RentOrderDetail) : Prop := Z.of_nat (length (gpu_index i)) = gpu_num i.

Lemma ordered_insert_fresh o id i m :
  o !! id = None → ordered (<[id := i]> o) m = (if decide (machine_id i = m) then gpu_num i else 0) + ordered o m.
Proof. intros Hn. unfold ordered. by rewrite msum_insert_None. Qed.
Lemma ordered_insert o id i i0 m :
  o !! id = Some i0 → machine_id i = machine_id i0 → gpu_num i = gpu_num i0 → ordered (<[id := i]> o) m = ordered o m.
Proof. intros Hi Hm Hg. unfold ordered. rewrite (msum_insert_Some _ _ _ _ _ Hi), Hm, Hg. lia. Qed.
Lemma ordered_delete o id i m :
  o !! id = Some i → ordered (delete id o) m = ordered o m - (if decide (machine_id i = m) then gpu_num i else 0).
Proof. intros Hi. unfold ordered. by rewrite (msum_delete _ _ _ _ Hi). Qed.

(** GPUs that are all in some order of the machine are not more than ordered. *)
Lemma used_ordered (o : gmap Z RentOrderDetail) m (used : list Z) :
  NoDup used → (∀ id i, o !! id = Some i → machine_id i = m → served i) →
  (∀ x, x ∈ used → ∃ id i, o !! id = Some i ∧ machine_id i = m ∧ x ∈ gpu_index i) →
  Z.of_nat (length used) ≤ ordered o m.
Proof.
  revert used. induction o as [|id i o Hn IH] using map_ind; intros used Hnd Hs Hin.
  - destruct used as [|x used]; [done|]. destruct (Hin x) as (id & i & Hi & _); [by left|].
    by rewrite lookup_empty in Hi.
  - rewrite ordered_insert_fresh by done.
    assert (machine_id i = m → served i) as Hi by (apply (Hs id); apply lookup_insert_eq).
    assert (∀ id' i', o !! id' = Some i' → machine_id i' = m → served i') as Hs'.
    { intros id' i' Hi'. apply (Hs id'). rewrite lookup_insert_ne; congruence. }
    destruct (decide (machine_id i = m)) as [Hm|Hm].
    + assert (length (filter (.∈ gpu_index i) used) ≤ length (gpu_index i))%nat as H1.
      { apply submseteq_length, NoDup_submseteq; [by apply NoDup_filter|].
        intros x Hx. by apply list_elem_of_filter in Hx as [? _]. }
      assert (Z.of_nat (length (filter (.∉ gpu_index i) used)) ≤ ordered o m) as H2.
      { apply IH; [by apply NoDup_filter|done|]. intros x [Hx1 Hx2]%list_elem_of_filter.
        destruct (Hin x Hx2) as (id' & i' & Hi' & Hm' & Hx').
        apply lookup_insert_Some in Hi' as [[_ <-]|[_ Hi']]; [done|eauto]. }
      rewrite <-(length_filter_split (.∈ gpu_index i) used). specialize (Hi Hm). unfold served in Hi. lia.
    + apply IH; [done..|]. intros x Hx. destruct (Hin x Hx) as (id' & i' & Hi' & Hm' & Hx').
      apply lookup_insert_Some in Hi' as [[_ <-]|[_ Hi']]; [done|eauto].
Qed.

(** The records agree; no order has more GPUs than it pays for; and for every
    machine but the [wrapped] ones every order has the GPUs it pays for and the
    registry counts at least those. *)
Section counted.
Context {L RT : Type} `{!ReservableCurrency L} `{!RTOps L RT, !TxFee L RT, !RentPrice RT} {P : PerThing}.
Context `{!RentPriceLaws RT, !RTCountLaws L RT}.
Abbreviation W := ((State * RT) * L)%type.
Implicit Types (w : W) (s : State) (h : RT) (m : MachineId) (X : list MachineId).

Record counted X s h : Prop := {
  cd_inv : Inv s;
  cd_most id i : RentInfo s !! id = Some i → Z.of_nat (length (gpu_index i)) ≤ gpu_num i;
  cd_served id i : RentInfo s !! id = Some i → machine_id i ∉ X → served i;
  cd_count m : m ∉ X → ordered (RentInfo s) m ≤ count h m;
}.

Lemma counted_wider X X' s h : X ⊆ X' → counted X s h → counted X' s h.
Proof.
  intros HX C. destruct C as [I Hm Hs Hc].
  split; [done..|intros id i Hi Hn; apply (Hs id i Hi)|intros m Hn; apply Hc]; set_solver.
Qed.
Lemma served_num X id i s h : counted X s h → RentInfo s !! id = Some i → 0 ≤ gpu_num i.
Proof. intros C Hi. apply (cd_most _ _ _ C) in Hi. lia. Qed.
Lemma count_nonneg X s h m : counted X s h → m ∉ X → 0 ≤ count h m.
Proof.
  intros C HX. etrans; [|by apply (cd_count _ _ _ C)]. apply msum_nonneg. intros id i Hi.
  case_decide; [by eapply served_num|done].
Qed.

(** *** The calls *)
Definition counts_as (c : MachineId → Z) w : Prop := ∀ m, count w.1.2 m = c m.

Lemma kept_callee {E A} c (r : M (RT * L) E A) :
  (∀ x m, count (r x).2.1 m = count x.1 m) → kept (counts_as c) (with_callee (A:=State) r).
Proof. intros Hr w Hw m. unfold with_callee. simpl. rewrite Hr. apply Hw. Qed.
Lemma kept_own {E} c f : kept (counts_as c) (own_modify (E:=E) f).
Proof. intros w Hw. exact Hw. Qed.
Lemma kept_fails {A} c (r : M W (DispatchError Error) A) : kept (counts_as c) r → kept (counts_as c) (fails r).
Proof. intros Hr w Hw. specialize (Hr w Hw). unfold fails. by destruct (r w) as [[] ?]. Qed.
Lemma kept_transfer {E} c a b v (e : E) : kept (counts_as c) (m_transfer a b v KeepAlive e).
Proof. intros w Hw. unfold m_transfer. by destruct (transfer a b v KeepAlive w.2). Qed.
Lemma kept_renter_stake c a v b : kept (counts_as c) (change_renter_total_stake a v b).
Proof.
  intros w Hw. unfold change_renter_total_stake, own_gets. rewrite bind_gets. destruct b.
  - unfold mbind, M_bind, gets, ensure, m_reserve. simpl. destruct (can_reserve a v w.2); [|done].
    destruct (reserve a v w.2) as [l|]; [|done]. unfold ok_or, checked_add. by destruct (_ <=? U128_MAX).
  - unfold mbind, M_bind, ensure. destruct (v <=? user_total_stake w.1.1 a); [|done]. rewrite m_unreserve_run.
    by destruct (checked_sub _ _).
Qed.
Lemma kept_signed c o : kept (counts_as c) (ensure_signed (S:=W) (E:=Error) o).
Proof. intros w Hw. by destruct o. Qed.
Lemma kept_root c o : kept (counts_as c) (ensure_root (S:=W) (E:=Error) o).
Proof. intros w Hw. by destruct o. Qed.

Ltac count_step :=
  lazymatch goal with
  | |- kept _ (rt_gets _ ≫= _) => apply kept_gets; intros ? ?
  | |- kept _ (with_callee _) =>
      apply kept_callee; intros; first [apply confirmed_counts|apply rent_fee_counts|apply tx_fee_counts]
  | |- kept _ (own_modify _) => apply kept_own
  | |- kept _ (fails _) => apply kept_fails
  | |- kept _ (m_transfer _ _ _ _ _) => apply kept_transfer
  | |- kept _ (change_renter_total_stake _ _ _) => apply kept_renter_stake
  | |- kept _ (ensure_signed _) => apply kept_signed
  | |- kept _ (ensure_root _) => apply kept_root
  | |- kept _ (pay_rent_fee _ _ _ _) => unfold pay_rent_fee
  | |- _ => kept_step
  end.
Ltac count_steps := repeat count_step.

Definition rents (c : Call) : bool := match c with RentMachineCall _ _ _ => true | _ => false end.
Lemma call_counts now o c k : rents c = false → kept (counts_as k) (dispatch now o c).
Proof.
  intros Hc. unfold dispatch. count_step. destruct c as [pot|m n d|id|id d|m e]; [|done|..].
  - unfold set_rent_fee_pot. count_steps.
  - unfold confirm_rent. count_steps.
  - unfold relet_machine, relet_machine_by_block. count_steps.
  - unfold bond_evm_address. count_steps.
Qed.
(** The orders after a call that rents nothing. *)
Lemma counted_update X s s' h id i i0 :
  counted X s h → Inv s' → RentInfo s !! id = Some i0 → RentInfo s' = <[id := i]> (RentInfo s) →
  machine_id i = machine_id i0 → gpu_num i = gpu_num i0 → gpu_index i = gpu_index i0 → counted X s' h.
Proof.
  intros C I Hi Hs Hm Hn Hx. split; [done|..]; rewrite Hs.
  - intros id' j. rewrite lookup_insert_Some. intros [[_ <-]|[_ Hj]]; [|by eapply (cd_most _ _ _ C)].
    rewrite Hx, Hn. by apply (cd_most _ _ _ C id).
  - intros id' j. rewrite lookup_insert_Some. intros [[_ <-]|[_ Hj]]; [|by eapply (cd_served _ _ _ C)].
    unfold served. rewrite Hm, Hx, Hn. by apply (cd_served _ _ _ C id).
  - intros m. rewrite (ordered_insert _ id i i0) by done. apply (cd_count _ _ _ C).
Qed.
Lemma counted_same X s s' h : counted X s h → Inv s' → RentInfo s' = RentInfo s → counted X s' h.
Proof.
  intros C I Hs. split; [done|..]; rewrite Hs; [apply (cd_most _ _ _ C)|apply (cd_served _ _ _ C)|apply (cd_count _ _ _ C)].
Qed.
Lemma counted_count X s h h' : (∀ m, count h' m = count h m) → counted X s h → counted X s h'.
Proof. intros Hh [I Hm Hs Hc]. split; [done..|]. intros m. rewrite Hh. apply Hc. Qed.

Lemma call_counted X now o c w :
  rents c = false → call_typed c → NextRentId w.1.1 < U64_MAX → counted X w.1.1 w.1.2 →
  counted X (dispatch now o c w).2.1.1 (dispatch now o c w).2.1.2.
Proof.
  intros Hc Ht Hmax C. pose proof (dispatch_Inv now o c w _ Ht (cd_inv _ _ _ C) Hmax) as I'.
  apply (counted_count _ _ w.1.2); [by apply (call_counts now o c (count w.1.2))|].
  revert I'. unfold dispatch, transactional. destruct (_ w) as [[[]|e] w'] eqn:Hrun; intros I'; [|done]. simpl in *.
  destruct c as [pot|m n d|id|id d|m e]; cbn iota in Hrun; [|done|..].
  - unfold set_rent_fee_pot in Hrun. run_inv. match goal with Hf : fails _ _ = _ |- _ => apply fails_Ok in Hf; run_inv end.
    by apply (counted_same X w.1.1).
  - apply confirm_effect in Hrun as (a & i & info & pot & l1 & l2 & _ & Hi & _ & _ & _ & _ & _ & _ & _ & _ & _ & Hs & _).
    destruct Hs as (_ & _ & _ & HR & _). by apply (counted_update X w.1.1 _ _ id _ i C I' Hi HR).
  - unfold relet_machine in Hrun. run_inv. match goal with Hf : fails _ _ = _ |- _ => apply fails_Ok in Hf; run_inv end.
    apply relet_effect in Hrun as [->|(i & add & Hi & _ & _ & _ & _ & _ & Hs)]; [done|].
    destruct Hs as (_ & _ & _ & HR & _). by apply (counted_update X w.1.1 _ _ id _ i C I' Hi HR).
  - unfold bond_evm_address, rt_gets in Hrun. run_inv.
    match goal with Hf : fails _ _ = _ |- _ => apply fails_Ok in Hf; run_inv end. by apply (counted_same X w.1.1).
Qed.

(** *** Renting *)
Lemma rent_counts now a m n d w w' :
  rent_machine_by_block now a m n d w = (Ok tt, w') →
  w' = w ∨ ∀ m', count w'.1.2 m' =
    if decide (m' = m) then saturating_add U32_MAX (count w.1.2 m) n else count w.1.2 m'.
Proof.
  intros Hrun. unfold rent_machine_by_block, rt_gets in Hrun. run_inv. case_match; run_inv; [by left|].
  match goal with Hc : with_callee _ w = (_, ?w1) |- _ =>
    assert (∀ m', count w1.1.2 m' = count w.1.2 m') as Hw1 by
      (unfold with_callee in Hc; injection Hc as _ <-; intros m'; simpl; apply tx_fee_counts) end.
  match goal with Hs : change_renter_total_stake _ _ _ _ = _ |- _ => apply stake_add_Ok in Hs as (l1 & _ & _ & ->) end.
  match goal with Hd : new_rent_id ?w1 = (Ok _, ?w2) |- _ =>
    assert (w2.1.2 = w1.1.2) as Hw2 by
      (revert Hd; unfold new_rent_id; destruct (get_new_rent_id _) as [[? ?]|]; [|done]; by intros [= _ <-]) end.
  match type of Hrun with context [gen_rentable_gpu ?nn ?tt ?g] =>
    destruct (gen_rentable_gpu nn tt g) as [gpus g'] end.
  run_inv. right. intros m'.
  match goal with Hc : with_callee _ _ = (_, _) |- _ => unfold with_callee in Hc; injection Hc as Hok <- end.
  simpl in *. rewrite (start_counts m n _ Hok). simpl. by rewrite Hw2, !Hw1.
Qed.

(** What a rent that records an order does. *)
Lemma rent_recorded X now a m n d w w' :
  counted X w.1.1 w.1.2 → NextRentId w.1.1 < U64_MAX → 0 ≤ n →
  rent_machine_by_block now a m n d w = (Ok tt, w') →
  w' = w ∨ ∃ i info, RentInfo w'.1.1 = <[NextRentId w.1.1 := i]> (RentInfo w.1.1) ∧
    RentInfo w.1.1 !! NextRentId w.1.1 = None ∧ rt_machines_info w.1.2 m = Some info ∧
    machine_id i = m ∧ renter i = a ∧ gpu_num i = n ∧
    gpu_index i = take (Z.to_nat n) (free_gpus (used_gpu (machine_rent_order w.1.1 m)) 0 (Z.to_nat (MachineInfo.gpu_num info))) ∧
    (n + count w.1.2 m) mod 2 ^ 32 ≤ MachineInfo.gpu_num info ∧
    (∀ x, x ∈ gpu_index i → x ∉ used_gpu (machine_rent_order w.1.1 m)) ∧
    ∀ m', count w'.1.2 m' =
      if decide (m' = m) then saturating_add U32_MAX (count w.1.2 m) n else count w.1.2 m'.
Proof.
  intros C Hmax Hn Hrun. pose proof (cd_inv _ _ _ C) as I.
  destruct (rent_effect _ _ _ _ _ _ _ _ I Hmax Hn Hrun) as [->|(e & v & total & (info & Hinfo & ->) & Hcount & Hv & Hs)];
    [by left|].
  destruct (rent_counts _ _ _ _ _ _ _ Hrun) as [->|Hcd]; [by left|right].
  destruct (new_gpus _ m n (MachineInfo.gpu_num info) I Hn) as (Hnd & Hfree & Htake & _).
  destruct Hs as (_ & _ & _ & HR & _). simpl in HR.
  eexists _, info. split; [exact HR|]. split_and!; try done; simpl.
  - destruct (RentInfo w.1.1 !! NextRentId w.1.1) as [j|] eqn:Hj; [|done]. apply (inv_ids _ I) in Hj. lia.
  - intros x Hx. by apply Hfree.
Qed.

(** The GPUs are there when the sum of the check did not wrap. *)
Lemma rent_served X now a m n d w w' :
  counted X w.1.1 w.1.2 → m ∉ X → NextRentId w.1.1 < U64_MAX → 0 ≤ n → n + count w.1.2 m < 2 ^ 32 →
  rent_machine_by_block now a m n d w = (Ok tt, w') →
  w' = w ∨ ∃ i, RentInfo w'.1.1 = <[NextRentId w.1.1 := i]> (RentInfo w.1.1) ∧
    RentInfo w.1.1 !! NextRentId w.1.1 = None ∧ machine_id i = m ∧ renter i = a ∧ gpu_num i = n ∧ served i ∧
    (∀ x, x ∈ gpu_index i → x ∉ used_gpu (machine_rent_order w.1.1 m)) ∧
    ∀ m', count w'.1.2 m' = (if decide (m' = m) then n else 0) + count w.1.2 m'.
Proof.
  intros C HX Hmax Hn Hwrap Hrun. pose proof (cd_inv _ _ _ C) as I. pose proof (count_nonneg _ _ _ m C HX) as H0.
  destruct (rent_recorded _ _ _ _ _ _ _ _ C Hmax Hn Hrun)
    as [->|(i & info & HR & Hf & Hinfo & Hm & Ha & Hg & Hx & Hcount & Hu & Hc)]; [by left|right].
  exists i. split_and!; try done.
  - unfold served. rewrite Hx, Hg, length_take.
    pose proof (RentTheorems.free_gpus_enough (used_gpu (machine_rent_order w.1.1 m)) (Z.to_nat (MachineInfo.gpu_num info))) as Hen.
    destruct (inv_gpus _ I m) as [[_ Hsu] _ Hin].
    assert (∀ id j, RentInfo w.1.1 !! id = Some j → machine_id j = m → served j) as Hsv
      by (intros id j Hj Hjm; apply (cd_served _ _ _ C id j Hj); by rewrite Hjm).
    pose proof (used_ordered (RentInfo w.1.1) m _ (sorted_NoDup _ Hsu) Hsv (λ x, proj1 (Hin x))) as Hle.
    pose proof (cd_count _ _ _ C m HX). rewrite Z.mod_small in Hcount by lia. lia.
  - intros m'. rewrite Hc. case_decide; [subst m'|lia]. unfold saturating_add, U32_MAX. lia.
Qed.

Lemma rent_counted X now a m n d w w' :
  counted X w.1.1 w.1.2 → NextRentId w.1.1 < U64_MAX → 0 ≤ n → (m ∉ X → n + count w.1.2 m < 2 ^ 32) →
  rent_machine_by_block now a m n d w = (Ok tt, w') → counted X w'.1.1 w'.1.2.
Proof.
  intros C Hmax Hn Hwrap Hrun. pose proof (rent_Inv _ _ _ _ _ _ _ _ (cd_inv _ _ _ C) Hmax Hn Hrun) as I'.
  destruct (rent_recorded _ _ _ _ _ _ _ _ C Hmax Hn Hrun)
    as [->|(i & info & HR & Hf & Hinfo & Hm & _ & Hg & Hx & _ & _ & Hc)]; [done|].
  assert (m ∉ X → served i ∧ count w'.1.2 m = n + count w.1.2 m) as Hsv.
  { intros HX. destruct (rent_served _ _ _ _ _ _ _ _ C HX Hmax Hn (Hwrap HX) Hrun)
      as [->|(j & HR' & _ & _ & _ & _ & Hs & _ & Hc')].
    - exfalso. apply (f_equal (lookup (NextRentId w.1.1))) in HR. rewrite Hf, lookup_insert_eq in HR. done.
    - rewrite HR in HR'. apply (f_equal (lookup (NextRentId w.1.1))) in HR'. rewrite !lookup_insert_eq in HR'.
      injection HR' as ->. split; [done|]. by rewrite Hc', decide_True by done. }
  split; [done|..]; rewrite HR.
  - intros id' j. rewrite lookup_insert_Some. intros [[_ <-]|[_ Hj]]; [|by eapply (cd_most _ _ _ C)].
    rewrite Hx, Hg, length_take. lia.
  - intros id' j. rewrite lookup_insert_Some. intros [[_ <-]|[_ Hj]]; [|by eapply (cd_served _ _ _ C)].
    rewrite Hm. intros HX. by apply Hsv.
  - intros m' HX. rewrite ordered_insert_fresh, Hm, Hg by done. pose proof (cd_count _ _ _ C m' HX).
    destruct (decide (m = m')) as [<-|Hne]; [rewrite (proj2 (Hsv HX)); lia|].
    rewrite Hc, decide_False by congruence. lia.
Qed.

(** *** The hooks *)
Lemma counted_drop X s s' h h' id i :
  counted X s h → Inv s' → RentInfo s !! id = Some i → RentInfo s' = delete id (RentInfo s) →
  (∀ m, count h m - (if decide (m = machine_id i) then gpu_num i else 0) ≤ count h' m) → counted X s' h'.
Proof.
  intros C I Hi Hs Hc. split; [done|..]; rewrite Hs.
  - intros id' j [_ Hj]%lookup_delete_Some. by eapply (cd_most _ _ _ C).
  - intros id' j [_ Hj]%lookup_delete_Some. by eapply (cd_served _ _ _ C).
  - intros m HX. rewrite (ordered_delete _ id i) by done. pose proof (cd_count _ _ _ C m HX). specialize (Hc m).
    destruct (decide (machine_id i = m)), (decide (m = machine_id i)); simplify_eq; lia.
Qed.
Lemma cancel_counted X b id w :
  counted X w.1.1 w.1.2 → counted X (cancel_unconfirmed b id w).2.1.1 (cancel_unconfirmed b id w).2.1.2.
Proof.
  intros C. pose proof (cancel_run b id w (cd_inv _ _ _ C)) as Hc.
  destruct (RentInfo w.1.1 !! id) as [i|] eqn:Hi; [|by rewrite Hc].
  destruct Hc as (u & l' & _ & I' & ->). eapply (counted_drop X w.1.1 _ w.1.2); [done..|].
  intros m. unfold with_callee. simpl. apply (expired_counts (machine_id i) (gpu_num i) (w.1.2, l')).
  by eapply served_num.
Qed.
Lemma end_counted X b id i w :
  counted X w.1.1 w.1.2 → RentInfo w.1.1 !! id = Some i → rent_end i = b →
  ∃ w', end_rent b id w = (Ok tt, w') ∧ counted X w'.1.1 w'.1.2 ∧ RentInfo w'.1.1 = delete id (RentInfo w.1.1).
Proof.
  intros C Hi Hb. destruct (end_rent_run b id i w (cd_inv _ _ _ C) Hi Hb) as (u & h' & l' & Hr & I' & lr & ->).
  eexists. split_and!; [exact Hr| |done]. eapply (counted_drop X w.1.1 _ w.1.2); [done..|].
  intros m. apply (end_counts b (machine_id i) (gpu_num i) _ _ _ _ (w.1.2, w.2)). by eapply served_num.
Qed.
Lemma for_each_kept {E A} (Q : W → Prop) (ids : list A) (body : A → M W E unit) w :
  (∀ x, kept Q (body x)) → Q w → Q (for_each ids body w).2.
Proof. intros Hb. apply kept_for_each. intros x _. apply Hb. Qed.
Lemma end_loop_counted X b ids w :
  counted X w.1.1 w.1.2 → NoDup ids → (∀ id, id ∈ ids → by_key rent_end (RentInfo w.1.1) b id) →
  counted X (for_each ids (end_rent b) w).2.1.1 (for_each ids (end_rent b) w).2.1.2.
Proof.
  revert w. induction ids as [|id ids IH]; intros w C Hnd Hin; [done|].
  apply list.NoDup_cons in Hnd as [Hni Hnd]. destruct (Hin id) as (i & Hi & Hb); [by left|].
  destruct (end_counted X b id i w C Hi Hb) as (w' & Hr & C' & HR). cbn [for_each]. rewrite (bind_run _ _ _ _ _ Hr).
  apply IH; [done..|]. intros id' Hid'. rewrite HR. apply (by_key_delete rent_end _ id i); [done|].
  split; [apply Hin; by right|]. intros [_ ->]. done.
Qed.
Lemma finalize_counted X b w :
  counted X w.1.1 w.1.2 → counted X (on_finalize b w).2.1.1 (on_finalize b w).2.1.2.
Proof.
  intros C. unfold on_finalize. rewrite (bind_run _ _ w tt (check_machine_starting_status b w).2) by done.
  assert (counted X (check_machine_starting_status b w).2.1.1 (check_machine_starting_status b w).2.1.2) as C1.
  { unfold check_machine_starting_status, own_gets. rewrite bind_gets. destruct (ConfirmingOrder w.1.1 !! b); [|done].
    apply (for_each_kept (λ w, counted X w.1.1 w.1.2)); [|done]. intros id w1. apply cancel_counted. }
  set (w1 := (check_machine_starting_status b w).2) in *. clearbody w1.
  unfold ignore. simpl. unfold check_if_rent_finished, own_gets. rewrite bind_gets.
  destruct (inv_end _ (cd_inv _ _ _ C1) b) as [Hs He]. unfold list_at in Hs, He.
  destruct (RentEnding w1.1.1 !! b) as [ids|]; simpl in Hs, He; [|done].
  apply end_loop_counted; [done|by apply sorted_NoDup|]. by intros id ?%He.
Qed.
End counted.

(** ** With pallet-online-profile behind the interface *)
#[local] Existing Instances OnlineProfile.rt_ops ProfileSteps.tx_fee_beside.
#[local] Existing Instances ProfileSteps.price_beside ProfileSteps.price_beside_laws.
Section market.
Context {P : PerThing} {LP : PerThingLaws P} {L H : Type} `{!ReservableCurrency L}.
Context `{!GNOps L H, !CommitteeRewards L H, !ServerRooms H, !TxFee L H, !RentPrice H, !RentPriceLaws H}.
Context (T : OnlineProfile.Config).
Abbreviation Registry := (OnlineProfile.State P * H)%type.
Abbreviation World := ((State * Registry) * L)%type.
Implicit Types (w : World) (m : MachineId).

Lemma part_counts {E A} (r : M (Registry * L) E A) :
  (∀ x, kept (ProfileSteps.part_is OnlineProfile.MachineRentedGPU x) r) →
  ∀ x m, count (r x).2.1 m = count x.1 m.
Proof.
  intros Hr x m. change (OnlineProfile.machine_rented_gpu (r x).2.1.1 m = OnlineProfile.machine_rented_gpu x.1.1 m).
  unfold OnlineProfile.machine_rented_gpu. by rewrite (Hr _ x eq_refl).
Qed.
#[export] Instance profile_counts : RTCountLaws L Registry.
Proof.
  split.
  - intros m n x. apply ProfileSteps.rent_start_counts.
  - intros t m n d b b' a x Hn m'. exact (ProfileSteps.rent_end_counts t m n d b b' a x Hn m').
  - intros m n x Hn m'. exact (ProfileSteps.expired_counts m n x Hn m').
  - intros m a. apply part_counts. intros x.
    exact (ProfileSteps.count_request 0 (OnlineProfile.RentConfirmed m a) x eq_refl).
  - intros a m f g. apply part_counts. intros x.
    exact (ProfileSteps.count_request 0 (OnlineProfile.RentFee a m f g) x eq_refl).
  - intros a x m'. done.
Qed.

(** The machine of a request to rent that succeeds although the sum of its check
    wraps: the number asked for and the number rented do not fit in 32 bits. *)
Definition wraps (c : Call) (h : Registry) (r : result Stop unit) : list MachineId :=
  match c, r with
  | RentMachineCall m n _, Ok _ => if decide (2 ^ 32 ≤ n + count h m) then [m] else []
  | _, _ => []
  end.

(** A call or the hook of the rental pallet; a call, the hook or a request of
    another pallet to the registry; and whatever the rest of the runtime does.
    The machines of the requests that wrapped are listed beside the state. Ids
    of orders are taken not to run out. *)
Inductive step : (BlockNumber * World) * list MachineId → (BlockNumber * World) * list MachineId → Prop :=
| rent_call now o c w X : call_typed c → NextRentId w.1.1 < U64_MAX →
    step ((now, w), X) ((now, (dispatch now o c w).2), wraps c w.1.2 (dispatch now o c w).1 ++ X)
| rent_block now w X : step ((now, w), X) ((now + 1, (on_finalize now w).2), X)
| profile_call now o c w X : step ((now, w), X) ((now, (with_callee (OnlineProfile.dispatch T now o c) w).2), X)
| profile_block now w X : step ((now, w), X) ((now, (with_callee (OnlineProfile.on_initialize T now) w).2), X)
| profile_request now r w X : ProfileSteps.counting r = false →
    step ((now, w), X) ((now, (with_callee (OnlineProfile.serve now r) w).2), X)
| others now s p h h' l l' X : step ((now, ((s, (p, h)), l)), X) ((now, ((s, (p, h')), l')), X).
Definition reachable (x : BlockNumber * World) (wrapped : list MachineId) : Prop :=
  ∃ now h l, rtc step ((now, ((genesis, (OnlineProfile.genesis, h)), l)), []) (x, wrapped).

Lemma rent_call_counted X now o m n d w :
  0 ≤ n → NextRentId w.1.1 < U64_MAX → counted X w.1.1 w.1.2 →
  let r := dispatch now o (RentMachineCall m n d) w in
  counted (wraps (RentMachineCall m n d) w.1.2 r.1 ++ X) r.2.1.1 r.2.1.2.
Proof.
  intros Hn Hmax C r. destruct r as [[[]|e] w'] eqn:Hr; subst r; cbn [fst snd wraps].
  - apply transactional_Ok in Hr. cbn iota in Hr. unfold rent_machine in Hr. run_inv.
    match goal with Hf : fails _ _ = _ |- _ => apply fails_Ok in Hf; run_inv end.
    refine (rent_counted _ _ _ _ _ _ _ _ _ Hmax Hn _ Hr).
    + revert C. apply counted_wider. set_solver.
    + case_decide as Hd; [set_solver|intros _; exact (proj2 (Z.lt_nge _ _) Hd)].
  - unfold dispatch, transactional in Hr. destruct (rent_machine _ _ _ _ _ w) as [[]?]; [done|]. by injection Hr as _ <-.
Qed.
Lemma step_counted x y : step x y → counted x.2 x.1.2.1.1 x.1.2.1.2 → counted y.2 y.1.2.1.1 y.1.2.1.2.
Proof.
  intros [now o c w X Ht Hmax|now w X|now o c w X|now w X|now r w X Hr|now s p h h' l l' X] C; simpl in *.
  - destruct c as [pot|m n d|id|id d|m e]; [|destruct Ht as [[Hn _] _]; by apply rent_call_counted|..];
      apply call_counted; done.
  - by apply finalize_counted.
  - revert C. apply counted_count. intros m. apply (part_counts (OnlineProfile.dispatch T now o c)).
    intros c0. apply ProfileSteps.count_call.
  - revert C. apply counted_count. intros m. apply (part_counts (OnlineProfile.on_initialize T now)).
    intros c0. apply ProfileSteps.count_block.
  - revert C. apply counted_count. intros m. apply (part_counts (OnlineProfile.serve now r)).
    intros c0. by apply ProfileSteps.count_request.
  - revert C. by apply counted_count.
Qed.
Lemma reachable_counted x X : reachable x X → counted X x.2.1.1 x.2.1.2.
Proof.
  intros (now & h & l & Hr).
  apply (rtc_invariant step (λ x, counted x.2 x.1.2.1.1 x.1.2.1.2) ((now, ((genesis, (OnlineProfile.genesis, h)), l)), []) (x, X)); [|split|done].
  - intros a b Hs. by apply step_counted.
  - apply genesis_Inv.
  - intros id i Hi. simpl in Hi. by rewrite lookup_empty in Hi.
  - intros id i Hi. simpl in Hi. by rewrite lookup_empty in Hi.
  - intros m. done.
Qed.

(** C15: in every reachable state of the two pallets together, whatever calls,
    hooks and requests came before, the records of the rental pallet agree and no
    order has more GPUs than it pays for; and for every machine for which no
    request succeeded whose check wrapped the u32 sum of the number asked for and
    the number rented, every order has exactly as many GPUs as it pays for, and
    the registry counts at least the GPUs of the orders: what the rental pallet
    assumes of the registry it gets. *)
Theorem market_reachable_counted now w wrapped :
  reachable (now, w) wrapped →
  Inv w.1.1 ∧
  (∀ id i, RentInfo w.1.1 !! id = Some i →
     Z.of_nat (length (gpu_index i)) ≤ gpu_num i ∧
     (machine_id i ∉ wrapped → Z.of_nat (length (gpu_index i)) = gpu_num i)) ∧
  ∀ m, m ∉ wrapped → ordered (RentInfo w.1.1) m ≤ OnlineProfile.machine_rented_gpu w.1.2.1 m.
Proof.
  intros [I Hm Hs Hc]%reachable_counted. split_and!; [done| |exact Hc].
  intros id i Hi. split; [by apply (Hm id)|by apply (Hs id)].
Qed.

(** In the market, a successful request to rent, of a number that fits in 32
    bits with what is rented, for a machine for which no request wrapped before,
    either asks for nothing and changes nothing, or records an order of the
    caller with exactly the number of GPUs asked for, none of which is in use;
    the machine has them: the GPUs of all its orders and the new ones are not
    more than its GPUs; and the registry counts them. *)
Theorem market_rents_exactly now a m n d w w' wrapped :
  reachable (now, w) wrapped → m ∉ wrapped → NextRentId w.1.1 < U64_MAX → 0 ≤ n ≤ U32_MAX →
  n + OnlineProfile.machine_rented_gpu w.1.2.1 m < 2 ^ 32 →
  dispatch now (Signed a) (RentMachineCall m n d) w = (Ok tt, w') →
  w' = w ∨ ∃ i info, RentInfo w'.1.1 = <[NextRentId w.1.1 := i]> (RentInfo w.1.1) ∧
    OnlineProfile.MachinesInfo w.1.2.1 !! m = Some info ∧
    machine_id i = m ∧ renter i = a ∧ Z.of_nat (length (gpu_index i)) = n ∧
    (∀ x, x ∈ gpu_index i → x ∉ used_gpu (machine_rent_order w.1.1 m)) ∧
    ordered (RentInfo w'.1.1) m ≤ MachineInfo.gpu_num info ∧
    ∀ m', OnlineProfile.machine_rented_gpu w'.1.2.1 m' =
      (if decide (m' = m) then n else 0) + OnlineProfile.machine_rented_gpu w.1.2.1 m'.
Proof.
  intros Hr HX Hmax [Hn _] Hwrap Hrun. apply reachable_counted in Hr as C. simpl in C.
  apply transactional_Ok in Hrun. cbn iota in Hrun. unfold rent_machine in Hrun.
  run_inv. match goal with Hf : fails _ _ = _ |- _ => apply fails_Ok in Hf; run_inv end.
  destruct (rent_effect _ _ _ _ _ _ _ _ (cd_inv _ _ _ C) Hmax Hn Hrun)
    as [->|(e & v & total & (info & Hinfo & ->) & Hcount & _)]; [by left|].
  destruct (rent_served _ _ _ _ _ _ _ _ C HX Hmax Hn Hwrap Hrun)
    as [->|(i & HR & Hf & Hm & Ha & Hg & Hsv & Hx & Hc)]; [by left|right].
  exists i, info. split_and!; try done; [by rewrite Hsv|]. rewrite HR, ordered_insert_fresh, Hm, Hg by done.
  rewrite decide_True by done. pose proof (cd_count _ _ _ C m HX). pose proof (count_nonneg _ _ _ m C HX).
  change (n + count w.1.2 m < 2 ^ 32) in Hwrap. rewrite Z.mod_small in Hcount by lia. lia.
Qed.
End market.

(** ** A run

    The machine of the registry's run, and two renters of it: accounts 1 and 2. *)
Module Demo.
Import ProfileTheorems.Demo.
Abbreviation Rest := (Committee.State * GenericFunc.State)%type.
Abbreviation world := ((State * (OnlineProfile.State perbill * Rest)) * Ledger.t)%type.
Definition rent (o : Origin) (c : Call) (x : BlockNumber * world) : BlockNumber * world := (x.1, (dispatch x.1 o c x.2).2).
Definition profile (o : Origin) (c : OnlineProfile.Call) (x : BlockNumber * world) : BlockNumber * world :=
  (x.1, (with_callee (OnlineProfile.dispatch config x.1 o c) x.2).2).
Definition request (r : OnlineProfile.Request) (x : BlockNumber * world) : BlockNumber * world :=
  (x.1, (with_callee (OnlineProfile.serve x.1 r) x.2).2).

Definition ledger : Ledger.t :=
  {[1 := (1000, 0); 2 := (1000, 0); 9 := (10000, 0); 10 := (100, 0); 50 := (5, 0); 100 := (1, 0)]}%N.
Definition ready : BlockNumber * world :=
  request (OnlineProfile.Confirm [1%N; 2%N] hardware) (request (OnlineProfile.Booked m)
  (profile (Signed 10%N) (OnlineProfile.BondMachineCall m msg [])
  (profile (Signed 9%N) (OnlineProfile.SetController 10%N)
  (profile Root (OnlineProfile.SetStandardGpuPointPrice {| ProfileTypes.gpu_point := 9600; ProfileTypes.gpu_price := 9600 |})
  (profile Root (OnlineProfile.SetOnlineStakeParams params)
  (10, ((genesis, (OnlineProfile.genesis, rest)), ledger))))))).
Definition first := rent (Signed 1%N) (RentMachineCall m 2 300) ready.
Definition second := rent (Signed 2%N) (RentMachineCall m 1 600) first.

Lemma mk_rent_reachable o c x X :
  call_typed c → NextRentId x.2.1.1 < U64_MAX → reachable config x X →
  reachable config (rent o c x) (wraps c x.2.1.2 (dispatch x.1 o c x.2).1 ++ X).
Proof.
  intros Ht Hn (t & h & l & Hr). exists t, h, l. eapply rtc_r; [exact Hr|]. destruct x as [now w]. by apply rent_call.
Qed.
Lemma mk_profile_reachable o c x X : reachable config x X → reachable config (profile o c x) X.
Proof.
  intros (t & h & l & Hr). exists t, h, l. eapply rtc_r; [exact Hr|]. destruct x as [now w]. apply profile_call.
Qed.
Lemma mk_request_reachable r x X : ProfileSteps.counting r = false → reachable config x X → reachable config (request r x) X.
Proof.
  intros Hc (t & h & l & Hr). exists t, h, l. eapply rtc_r; [exact Hr|]. destruct x as [now w]. by apply profile_request.
Qed.
Lemma ready_reachable : reachable config ready [].
Proof.
  unfold ready. do 2 (apply mk_request_reachable; [done|]). do 4 apply mk_profile_reachable.
  exists 10, rest, ledger. apply rtc_refl.
Qed.
Lemma ready_fits o :
  wraps (RentMachineCall m 2 300) ready.2.1.2 o = [] ∧ NextRentId ready.2.1.1 < U64_MAX.
Proof. split; [|vm_compute; reflexivity]. destruct o; reflexivity. Qed.
Lemma first_fits o :
  wraps (RentMachineCall m 1 600) first.2.1.2 o = [] ∧ NextRentId first.2.1.1 < U64_MAX.
Proof. split; [|vm_compute; reflexivity]. destruct o; [|reflexivity]. vm_compute. reflexivity. Qed.
Lemma first_reachable : reachable config first [].
Proof.
  pose proof (mk_rent_reachable (Signed 1%N) (RentMachineCall m 2 300) ready []) as Hx.
  rewrite (proj1 (ready_fits _)) in Hx. apply Hx; [by vm_compute|apply (ready_fits (Ok tt))|apply ready_reachable].
Qed.
Lemma second_reachable : reachable config second [].
Proof.
  pose proof (mk_rent_reachable (Signed 2%N) (RentMachineCall m 1 600) first []) as Hx.
  rewrite (proj1 (first_fits _)) in Hx. apply Hx; [by vm_compute|apply (first_fits (Ok tt))|apply first_reachable].
Qed.

(** A request for almost all of u32 while two GPUs are rented: the sum of the
    check wraps to 1, and the order of 4294967295 GPUs gets the two that are
    left; the machine is then listed as wrapped. *)
Definition rich : BlockNumber * world := (first.1, (first.2.1, <[2%N := (10 ^ 30, 0)%N]> first.2.2)).
Definition greedy := rent (Signed 2%N) (RentMachineCall m (2 ^ 32 - 1) 600) rich.
Lemma rich_facts :
  NextRentId rich.2.1.1 < U64_MAX ∧
  wraps (RentMachineCall m (2 ^ 32 - 1) 600) rich.2.1.2
    (dispatch rich.1 (Signed 2%N) (RentMachineCall m (2 ^ 32 - 1) 600) rich.2).1 = [m] ∧
  (λ i, (gpu_num i, gpu_index i)) <$> RentInfo greedy.2.1.1 !! 1 = Some (2 ^ 32 - 1, [2; 3]).
Proof. split_and!; vm_compute; reflexivity. Qed.
Lemma rich_reachable : reachable config rich [].
Proof.
  destruct first_reachable as (t & h & l & Hr). exists t, h, l. eapply rtc_r; [exact Hr|].
  unfold rich. destruct first as [now [[s [p h0]] l0]]. apply others.
Qed.
Lemma greedy_reachable : reachable config greedy [m].
Proof.
  destruct rich_facts as (Hn & Hw & _).
  assert (call_typed (RentMachineCall m (2 ^ 32 - 1) 600)) as Ht by (split; split; [lia|unfold U32_MAX; lia..]).
  pose proof (mk_rent_reachable (Signed 2%N) _ rich [] Ht Hn rich_reachable) as Hx.
  rewrite Hw in Hx. exact Hx.
Qed.
Example market_wrap_underserves :
  reachable config greedy [m] ∧
  (λ i, (gpu_num i, gpu_index i)) <$> RentInfo greedy.2.1.1 !! 1 = Some (2 ^ 32 - 1, [2; 3]).
Proof. split; [exact greedy_reachable|apply rich_facts]. Qed.
Lemma mk_ran o c x : (dispatch x.1 o c x.2).1 = Ok tt → dispatch x.1 o c x.2 = (Ok tt, (rent o c x).2).
Proof. intros Hok. unfold rent. simpl. rewrite <-Hok. apply surjective_pairing. Qed.
Lemma second_ran : dispatch first.1 (Signed 2%N) (RentMachineCall m 1 600) first.2 = (Ok tt, second.2).
Proof. apply mk_ran. vm_compute. reflexivity. Qed.
Lemma second_facts :
  NextRentId first.2.1.1 = 1 ∧ NextRentId second.2.1.1 = 2 ∧ gpu_num <$> RentInfo second.2.1.1 !! 0 = Some 2 ∧
  OnlineProfile.machine_rented_gpu first.2.1.2.1 m = 2 ∧
  MachineInfo.gpu_num <$> OnlineProfile.MachinesInfo first.2.1.2.1 !! m = Some 4.
Proof. split_and!; vm_compute; reflexivity. Qed.
#[local] Strategy 1000 [ready first second].

Lemma mk_pairs {x X} : reachable config x X → reachable config (x.1, x.2) X.
Proof. by rewrite <-surjective_pairing. Qed.
Lemma market_reachable_counted_witness :
  ∃ i, RentInfo second.2.1.1 !! 0 = Some i ∧ Z.of_nat (length (gpu_index i)) = 2.
Proof.
  destruct (market_reachable_counted config second.1 second.2 [] (mk_pairs second_reachable)) as (_ & Hs & _).
  destruct second_facts as (_ & _ & Hg & _). destruct (RentInfo second.2.1.1 !! 0) as [i|] eqn:Hi; [|discriminate Hg].
  injection Hg as Hg. exists i. split; [reflexivity|]. rewrite <-Hg. apply (Hs 0 i Hi). apply not_elem_of_nil.
Defined.
Lemma market_rents_exactly_witness :
  ordered (RentInfo second.2.1.1) m ≤ 4 ∧ OnlineProfile.machine_rented_gpu second.2.1.2.1 m = 3.
Proof.
  destruct second_facts as (Hn & Hn' & _ & Hc & Hg).
  destruct (market_rents_exactly config first.1 2%N m 1 600 first.2 second.2 [] (mk_pairs first_reachable)) as [Heq|H].
  - apply not_elem_of_nil.
  - rewrite Hn. reflexivity.
  - split; discriminate.
  - rewrite Hc. reflexivity.
  - exact second_ran.
  - pose proof (f_equal (λ w : world, NextRentId w.1.1) Heq) as He. cbv beta in He. rewrite Hn, Hn' in He. discriminate He.
  - destruct H as (i & info & _ & Hinfo & _ & _ & _ & _ & Ho & Hm). rewrite Hinfo in Hg. injection Hg as Hg.
    rewrite Hg in Ho. split; [exact Ho|]. specialize (Hm m). rewrite Hc, decide_True in Hm by reflexivity. exact Hm.
Defined.
End Demo.
End Market.
