(* ===== verification/MaintainCommittee.v ===== *)
(** * pallet-maintain-committee

    Renters report faults of machines: that a machine cannot be reached, or,
    behind a hash, that its hardware fails or is not what was promised. Members
    of the committee book a report, commit to a verdict by its hash, reveal it,
    and the majority decides: the machine goes offline, or the reporter is
    slashed. Members who do not work are slashed too; each slash waits two days
    and may be appealed and cancelled. Models
    src/pallets/maintain-committee/src (lib.rs, slash.rs, utils.rs, types) over
    the interfaces of RentalInterfaces.v. *)
From stdpp Require Import base gmap fin_maps list numbers relations.
From Stdlib Require Import ZArith Lia Strings.Byte.
From S2P Require Import Prelude Currency Interfaces ItemList VerifyOnline RentalTypes RentalInterfaces ReportTypes.

Module MaintainCommittee.
Import ItemList Report.
Abbreviation ONE_HOUR := VerifyOnline.ONE_HOUR (only parsing).
Abbreviation TWO_DAYS := VerifyOnline.TWO_DAYS (only parsing).

Record MTPendingSlashReviewInfo := {
  applicant : AccountId;
  review_staked_amount : Balance;
  apply_time : BlockNumber;
  expire_time : BlockNumber;
  reason : bytes;
}.

Inductive Event :=
| ReportMachineFault (who : AccountId) (f : MachineFaultType)
| ReportCanceld (who : AccountId) (id : ReportId) (f : MachineFaultType)
| EncryptedInfoSent (from to : AccountId) (id : ReportId)
| HashSubmited (id : ReportId) (who : AccountId)
| RawInfoSubmited (id : ReportId) (who : AccountId)
| ReporterAddStake (who : AccountId) (v : Balance)
| ReporterReduceStake (who : AccountId) (v : Balance)
| ApplySlashReview (id : ReportId)
| CommitteeBookReport (who : AccountId) (id : ReportId).

Inductive Error :=
| NotCommittee | ErrAlreadyBooked | ErrOrderStatusNotFeat | ErrNotInBookedList | ErrNotOrderReporter
| ErrNotOrderCommittee | GetStakeAmountFailed | StakeFailed | OrderNotAllowCancel | ErrOrderNotAllowBook
| ErrNotProperCommittee | NotEqualReporterSubmit | NotEqualCommitteeSubmit | ReduceTotalStakeFailed
| PayTxFeeFailed | ErrNotNeedEncryptedInfo | ExpiredReport | AlreadySubmitConfirmation
| BalanceNotEnough | StakeNotEnough | BoxPubkeyIsNoneInFirstReport | NotReporter | TimeNotAllowed
| SlashIdNotExist | NotPendingReviewSlash | NotSlashed | AlreadyApplied | ExpiredApply | DuplicateHash
| NotMachineRenter | ReduceUsedStakeFailed | Unknown.

Definition from_report_err (e : ReportErr) : Error :=
  match e with
  | OrderNotAllowBook => ErrOrderNotAllowBook
  | AlreadyBooked => ErrAlreadyBooked
  | NotNeedEncryptedInfo => ErrNotNeedEncryptedInfo
  | NotOrderReporter => ErrNotOrderReporter
  | OrderStatusNotFeat => ErrOrderStatusNotFeat
  | NotOrderCommittee => ErrNotOrderCommittee
  | NotInBookedList => ErrNotInBookedList
  | NotProperCommittee => ErrNotProperCommittee
  end.

Definition into_op_err (fault_type : MachineFaultType) (time : BlockNumber) : MachineInfo.OPSlashReason :=
  match fault_type with
  | RentedInaccessible _ _ => MachineInfo.RentedInaccessible time
  | RentedHardwareMalfunction _ _ => MachineInfo.RentedHardwareMalfunction time
  | RentedHardwareCounterfeit _ _ => MachineInfo.RentedHardwareCounterfeit time
  | OnlineRentFailed _ _ => MachineInfo.OnlineRentFailed time
  end.

Record State := {
  CommitteeLimit : Z;
  ReporterStakeParams : option ReporterStakeParamsInfo;
  NextReportId : ReportId;
  ReporterStake : gmap AccountId ReporterStakeInfo;
  ReporterReport : gmap AccountId ReporterReportList;
  CommitteeOrder : gmap AccountId MTCommitteeOrderList;
  CommitteeOps : gmap (AccountId * ReportId) MTCommitteeOpsDetail;
  LiveReport : MTLiveReportList;
  ReportInfo : gmap ReportId MTReportInfoDetail;
  ReportResult : gmap ReportId Result.MTReportResultInfo;
  UnhandledReportResult : gmap BlockNumber (list ReportId);
  PendingSlashReview : gmap ReportId MTPendingSlashReviewInfo;
  events : list Event;
}.
#[export] Instance State_eta : RecordEta State := λ s,
  Build_State (CommitteeLimit s) (ReporterStakeParams s) (NextReportId s) (ReporterStake s)
    (ReporterReport s) (CommitteeOrder s) (CommitteeOps s) (LiveReport s) (ReportInfo s)
    (ReportResult s) (UnhandledReportResult s) (PendingSlashReview s) (events s).

Definition genesis : State := {|
  CommitteeLimit := 3; ReporterStakeParams := None; NextReportId := 0; ReporterStake := ∅;
  ReporterReport := ∅; CommitteeOrder := ∅; CommitteeOps := ∅; LiveReport := MTLiveReportList_default;
  ReportInfo := ∅; ReportResult := ∅; UnhandledReportResult := ∅; PendingSlashReview := ∅;
  events := [] |}.

(** The hash function, and who may cancel a slash. *)
Record Config := {
  blake2_128 : bytes → ReportHash;
  CancelSlashOrigin : Origin → bool;
}.

Definition deposit_event (e : Event) (s : State) : State := s <| events ::= λ es, es ++ [e] |>.

(** Reading and changing the maps with a default. *)
Definition reporter_stake_of (s : State) (a : AccountId) : ReporterStakeInfo :=
  default ReporterStakeInfo_default (ReporterStake s !! a).
Definition reporter_report (s : State) (a : AccountId) : ReporterReportList :=
  default ReporterReportList_default (ReporterReport s !! a).
Definition committee_order (s : State) (a : AccountId) : MTCommitteeOrderList :=
  default MTCommitteeOrderList_default (CommitteeOrder s !! a).
Definition committee_ops (s : State) (a : AccountId) (id : ReportId) : MTCommitteeOpsDetail :=
  default MTCommitteeOpsDetail_default (CommitteeOps s !! (a, id)).
Definition unhandled_report_result (s : State) (t : BlockNumber) : list ReportId :=
  default [] (UnhandledReportResult s !! t).

Definition mutate_stake (a : AccountId) (f : ReporterStakeInfo → ReporterStakeInfo) (s : State) : State :=
  s <| ReporterStake ::= <[a := f (reporter_stake_of s a)]> |>.
Definition mutate_report (a : AccountId) (f : ReporterReportList → ReporterReportList) (s : State) : State :=
  s <| ReporterReport ::= <[a := f (reporter_report s a)]> |>.
Definition mutate_order (a : AccountId) (f : MTCommitteeOrderList → MTCommitteeOrderList) (s : State) : State :=
  s <| CommitteeOrder ::= <[a := f (committee_order s a)]> |>.
Definition mutate_ops (a : AccountId) (id : ReportId) (f : MTCommitteeOpsDetail → MTCommitteeOpsDetail)
    (s : State) : State :=
  s <| CommitteeOps ::= <[(a, id) := f (committee_ops s a id)]> |>.
Definition put_info (id : ReportId) (r : MTReportInfoDetail) (s : State) : State :=
  s <| ReportInfo ::= <[id := r]> |>.
Definition put_result (id : ReportId) (r : Result.MTReportResultInfo) (s : State) : State :=
  s <| ReportResult ::= <[id := r]> |>.

(** ** Helpers (utils.rs) *)

Definition get_new_report_id (s : State) : ReportId * State :=
  let report_id := NextReportId s in
  (report_id, s <| NextReportId := if report_id =? U64_MAX then 0 else report_id + 1 |>).

Definition update_unhandled_report (id : ReportId) (is_add : bool) (slash_exec_time : BlockNumber)
    (s : State) : State :=
  let l := unhandled_report_result s slash_exec_time in
  s <| UnhandledReportResult ::= <[slash_exec_time := if is_add then add_item l id else rm_item l id]> |>.

Definition is_uniq_hash (id : ReportId) (r : MTReportInfoDetail) (h : ReportHash) (s : State) : bool :=
  forallb (λ a, negb (bool_decide (confirm_hash (committee_ops s a id) = h))) (hashed_committee r).

Definition change_reporter_stake_on_report_close (reporter : AccountId) (amount : Balance)
    (report_result : Result.ReportResultType) (s : State) : State :=
  match report_result with
  | Result.ReportNoConsensus => s
  | _ => mutate_stake reporter
           (change_stake_on_report_close amount (Result.punishes_reporter report_result)) s
  end.

Section pallet.
Context {L RT : Type} `{!ReservableCurrency L}.
Context `{!ManageCommittee L RT, !MTOps L RT, !GNOps L RT, !TxFee L RT, !RentOrders RT} {P : PerThing}.
Context (T : Config).
Abbreviation World := ((State * RT) * L)%type.
Abbreviation MM := (M World (DispatchError Error)).
Abbreviation MU := (M World unit).

Definition rt_gets {E A} (f : RT → A) : M World E A := gets (λ w, f w.1.2).
Definition report_ok {A} (r : result ReportErr A) : MM A :=
  match r with Ok a => mret a | Err e => fail (Module (from_report_err e)) end.
(** A call of another pallet whose error is replaced, or ignored. *)
Definition call_or {A} (e : Error) (m : M (RT * L) unit A) : MM A := map_err (Module e) (with_callee m).

Definition get_stake_per_order : MM Balance :=
  maybe_stake ← rt_gets mc_stake_per_order;
  ok_or maybe_stake (Module GetStakeAmountFailed).
Definition is_valid_committee (who : AccountId) : MM unit :=
  valid ← rt_gets (λ h, mc_is_valid_committee h who);
  ensure valid (Module NotCommittee).
Definition pay_tx_fee (who : AccountId) : MM unit := call_or PayTxFeeFailed (pay_fixed_tx_fee who).
Definition slash_and_reward (slash : list AccountId) (v : Balance) (reward : list AccountId) : MU unit :=
  with_callee (gn_slash_and_reward slash v reward).

(** The two conditions a reporter's stake must meet. *)
Definition free_stake_ok (params : ReporterStakeParamsInfo) (i : ReporterStakeInfo) : bool :=
  per_mul (min_free_stake_percent params) (staked_amount i)
    <=? saturating_sub (staked_amount i) (used_stake i).

(** The first report stakes the baseline; [mutate] writes what the closure
    changed also when it fails. *)
Definition pay_stake_when_report (reporter : AccountId) : MM unit :=
  maybe_params ← own_gets ReporterStakeParams;
  stake_params ← ok_or maybe_params (Module GetStakeAmountFailed);
  stake ← own_gets (λ s, reporter_stake_of s reporter);
  if staked_amount stake =? 0 then
    m_reserve reporter (stake_baseline stake_params) (Module BalanceNotEnough);;
    own_modify (mutate_stake reporter (λ i, i <| staked_amount := stake_baseline stake_params |>
      <| used_stake := stake_per_report stake_params |>))
  else
    let stake := stake <| used_stake ::= λ v, saturating_add U128_MAX v (stake_per_report stake_params) |> in
    own_modify (mutate_stake reporter (λ _, stake));;
    ensure (free_stake_ok stake_params stake) (Module StakeNotEnough).

Definition change_committee_stake_on_report_close (committee_list : list AccountId) (amount : Balance)
    (is_slash : bool) : MU unit :=
  for_each committee_list (λ a_committee,
    (if is_slash then with_callee (mc_change_total_stake a_committee amount false false) else mret tt);;
    with_callee (mc_change_used_stake a_committee amount false)).

Definition change_reporter_stake (reporter : AccountId) (amount : Balance) (is_add : bool) : MM unit :=
  maybe_params ← own_gets ReporterStakeParams;
  stake_params ← ok_or maybe_params (Module GetStakeAmountFailed);
  stake ← own_gets (λ s, reporter_stake_of s reporter);
  let stake := stake <| staked_amount ::= λ v,
    if is_add then saturating_add U128_MAX v amount else saturating_sub v amount |> in
  (if is_add || (0 <? used_stake stake) then
     ensure (used_stake stake <=? staked_amount stake) (Module StakeNotEnough);;
     ensure (free_stake_ok stake_params stake) (Module StakeNotEnough)
   else mret tt);;
  if is_add : bool then
    m_reserve reporter amount (Module BalanceNotEnough);;
    own_modify (mutate_stake reporter (λ _, stake));;
    own_modify (deposit_event (ReporterAddStake reporter amount))
  else
    m_unreserve reporter amount;;
    own_modify (mutate_stake reporter (λ _, stake));;
    own_modify (deposit_event (ReporterReduceStake reporter amount)).

(** Gives the caller's two lists with the new report. *)
Definition do_report_machine_fault (now : BlockNumber) (reporter : AccountId) (fault : MachineFaultType)
    (time : option BlockNumber) (live_report : MTLiveReportList) (reports : ReporterReportList) :
    MM (MTLiveReportList * ReporterReportList) :=
  maybe_params ← own_gets ReporterStakeParams;
  stake_params ← ok_or maybe_params (Module GetStakeAmountFailed);
  report_id ← own_gets (λ s, (get_new_report_id s).1);
  own_modify (λ s, (get_new_report_id s).2);;
  own_modify (put_info report_id
    (new_report reporter (default now time) fault (stake_per_report stake_params)));;
  own_modify (deposit_event (ReportMachineFault reporter fault));;
  mret (live_new_report report_id live_report, reporter_new_report report_id reports).

Definition book_report (now : BlockNumber) (committee : AccountId) (id : ReportId)
    (report_info : MTReportInfoDetail) (order_stake : Balance) (s : State) : State :=
  let mft := machine_fault_type report_info in
  let report_info := Report.book_report committee now report_info in
  let s := mutate_order committee (λ o, o <| booked_report ::= λ l, add_item l id |>) s in
  let s := mutate_ops committee id (ops_book_report mft now order_stake) s in
  let s := s <| LiveReport ::= live_book_report id mft (length (booked_committee report_info)) |> in
  put_info id report_info s.

(** ** Dispatchables *)

Definition set_reporter_stake_params (origin : Origin) (stake_params : ReporterStakeParamsInfo) : MM unit :=
  ensure_root origin;;
  own_modify (λ s, s <| ReporterStakeParams := Some stake_params |>).

(** The renter of an inaccessible machine is checked, its renters are kept in
    the registry, and the fee is paid. *)
Definition check_inaccessible (reporter : AccountId) (m : MachineId) (rent_order : Z) : MM unit :=
  maybe_rent ← rt_gets (λ h, rent_info h rent_order);
  rent_info ← ok_or maybe_rent (Module Unknown);
  ensure (bool_decide (RentOrder.renter rent_info = reporter)) (Module NotMachineRenter);;
  ensure (bool_decide (m = RentOrder.machine_id rent_info)) (Module NotMachineRenter);;
  result ← rt_gets (λ h, mt_machines_info h (RentOrder.machine_id rent_info));
  (match result with
   | Some machine_info =>
       if bool_decide (MachineInfo.machine_status machine_info = MachineInfo.Rented) then
         modify (λ w, ((w.1.1, mt_add_offline_machine_to_renters (RentOrder.machine_id rent_info)
           (MachineInfo.renters machine_info) w.1.2), w.2))
       else mret tt
   | None => mret tt
   end);;
  pay_tx_fee reporter.

Definition report_machine_fault (now : BlockNumber) (origin : Origin) (report_reason : MachineFaultType) :
    MM unit :=
  reporter ← ensure_signed origin;
  live_report ← own_gets LiveReport;
  reports ← own_gets (λ s, reporter_report s reporter);
  (match report_reason with
   | RentedInaccessible m rent_order => check_inaccessible reporter m rent_order
   | _ => mret tt
   end);;
  pay_stake_when_report reporter;;
  lists ← do_report_machine_fault now reporter report_reason None live_report reports;
  own_modify (λ s, s <| LiveReport := lists.1 |>);;
  own_modify (mutate_report reporter (λ _, lists.2)).

Definition reporter_add_stake (origin : Origin) (amount : Balance) : MM unit :=
  reporter ← ensure_signed origin;
  change_reporter_stake reporter amount true.
Definition reporter_reduce_stake (origin : Origin) (amount : Balance) : MM unit :=
  reporter ← ensure_signed origin;
  change_reporter_stake reporter amount false.

Definition reporter_cancel_report (origin : Origin) (id : ReportId) : MM unit :=
  who ← ensure_signed origin;
  maybe_info ← own_gets (λ s, ReportInfo s !! id);
  report_info ← ok_or maybe_info (Module Unknown);
  ensure (bool_decide (reporter report_info = who)) (Module NotReporter);;
  ensure (bool_decide (report_status report_info = Reported)) (Module OrderNotAllowCancel);;
  own_modify (mutate_stake who (change_stake_on_report_close (reporter_stake report_info) false));;
  own_modify (λ s, s <| LiveReport ::= live_cancel_report id |>);;
  own_modify (mutate_report who (reporter_cancel id));;
  own_modify (λ s, s <| ReportInfo ::= delete id |>);;
  own_modify (deposit_event (ReportCanceld who id (machine_fault_type report_info))).

Definition committee_book_report (now : BlockNumber) (origin : Origin) (id : ReportId) : MM unit :=
  committee ← ensure_signed origin;
  is_valid_committee committee;;
  maybe_info ← own_gets (λ s, ReportInfo s !! id);
  report_info ← ok_or maybe_info (Module Unknown);
  report_ok (can_book committee report_info);;
  order_stake ← get_stake_per_order;
  (if is_inaccessible (machine_fault_type report_info) then pay_tx_fee committee
   else call_or StakeFailed (mc_change_used_stake committee order_stake true));;
  own_modify (book_report now committee id report_info order_stake);;
  own_modify (deposit_event (CommitteeBookReport committee id)).

Definition reporter_add_encrypted_error_info (now : BlockNumber) (origin : Origin) (id : ReportId)
    (to_committee : AccountId) (info : bytes) : MM unit :=
  reporter ← ensure_signed origin;
  maybe_info ← own_gets (λ s, ReportInfo s !! id);
  report_info ← ok_or maybe_info (Module Unknown);
  ops ← own_gets (λ s, committee_ops s to_committee id);
  report_ok (can_submit_encrypted_info reporter to_committee report_info);;
  ensure (bool_decide (order_status ops = WaitingEncrypt)) (Module ErrOrderStatusNotFeat);;
  own_modify (put_info id
    (report_info <| get_encrypted_info_committee ::= λ l, add_item l to_committee |>));;
  own_modify (mutate_ops to_committee id (λ _, add_encry_info info now ops));;
  own_modify (deposit_event (EncryptedInfoSent reporter to_committee id)).

Definition committee_submit_verify_hash (now : BlockNumber) (origin : Origin) (id : ReportId)
    (h : ReportHash) : MM unit :=
  committee ← ensure_signed origin;
  order ← own_gets (λ s, committee_order s committee);
  ops ← own_gets (λ s, committee_ops s committee id);
  maybe_info ← own_gets (λ s, ReportInfo s !! id);
  report_info ← ok_or maybe_info (Module Unknown);
  report_ok (order_can_submit_hash id order);;
  report_ok (ops_can_submit_hash ops);;
  report_ok (can_submit_hash report_info);;
  uniq ← own_gets (is_uniq_hash id report_info h);
  ensure uniq (Module DuplicateHash);;
  let report_info := add_hash committee report_info in
  own_modify (λ s, s <| LiveReport ::= live_submit_hash id (machine_fault_type report_info)
    (length (hashed_committee report_info)) |>);;
  own_modify (put_info id report_info);;
  own_modify (mutate_ops committee id (λ _, ops_add_hash h now ops));;
  own_modify (mutate_order committee (λ _, order_add_hash id order));;
  own_modify (deposit_event (HashSubmited id committee)).

Definition vote_bytes (is_support : bool) : bytes := if is_support then [x31] else [x30].
(** [get_hash] of the parts. *)
Definition hash_of (parts : list bytes) : ReportHash := blake2_128 T (mjoin parts).

Definition committee_submit_verify_raw (now : BlockNumber) (origin : Origin) (id : ReportId)
    (m : MachineId) (rent_order : Z) (reporter_rand_str committee_rand_str err_reason extra : bytes)
    (support_report : bool) : MM unit :=
  committee ← ensure_signed origin;
  maybe_info ← own_gets (λ s, ReportInfo s !! id);
  report_info ← ok_or maybe_info (Module Unknown);
  report_ok (can_submit_raw committee report_info);;
  reporter_hash ← report_ok (get_reporter_hash report_info);
  let reporter_report_hash :=
    hash_of [m; VerifyOnline.to_string rent_order; reporter_rand_str; err_reason] in
  ensure (bool_decide (reporter_report_hash = reporter_hash)) (Module NotEqualReporterSubmit);;
  ops ← own_gets (λ s, committee_ops s committee id);
  order ← own_gets (λ s, committee_order s committee);
  let committee_report_hash :=
    hash_of [m; VerifyOnline.to_string rent_order; reporter_rand_str; committee_rand_str;
             vote_bytes support_report; err_reason] in
  ensure (bool_decide (committee_report_hash = confirm_hash ops)) (Module NotEqualCommitteeSubmit);;
  let report_info := add_raw committee support_report (Some m) err_reason report_info in
  own_modify (mutate_order committee (λ _, order_add_raw id order));;
  own_modify (mutate_ops committee id (λ _, ops_add_raw now support_report extra ops));;
  own_modify (put_info id report_info);;
  own_modify (deposit_event (RawInfoSubmited id committee)).

Definition committee_submit_inaccessible_raw (now : BlockNumber) (origin : Origin) (id : ReportId)
    (committee_rand_str : bytes) (is_support : bool) : MM unit :=
  committee ← ensure_signed origin;
  maybe_info ← own_gets (λ s, ReportInfo s !! id);
  report_info ← ok_or maybe_info (Module Unknown);
  ops ← own_gets (λ s, committee_ops s committee id);
  report_ok (can_submit_inaccessible_raw committee report_info);;
  ensure (bool_decide (hash_of [VerifyOnline.to_string id; committee_rand_str; vote_bytes is_support] =
    confirm_hash ops)) (Module NotEqualCommitteeSubmit);;
  own_modify (put_info id (add_raw committee is_support None [] report_info));;
  own_modify (mutate_ops committee id (ops_add_raw now is_support []));;
  own_modify (mutate_order committee (order_add_raw id));;
  own_modify (deposit_event (RawInfoSubmited id committee)).

Definition apply_slash_review (now : BlockNumber) (origin : Origin) (id : ReportId) (why : bytes) :
    MM unit :=
  who ← ensure_signed origin;
  maybe_params ← own_gets ReporterStakeParams;
  stake_params ← ok_or maybe_params (Module GetStakeAmountFailed);
  maybe_result ← own_gets (λ s, ReportResult s !! id);
  result_info ← ok_or maybe_result (Module Unknown);
  let stake := stake_per_report stake_params in
  let is_slashed_reporter := Result.is_slashed_reporter who result_info in
  let is_slashed_committee := Result.is_slashed_committee who result_info in
  let is_slashed_stash := Result.is_slashed_stash who result_info in
  applied ← own_gets (λ s, bool_decide (is_Some (PendingSlashReview s !! id)));
  ensure (negb applied) (Module AlreadyApplied);;
  ensure (is_slashed_reporter || is_slashed_committee || is_slashed_stash) (Module NotSlashed);;
  ensure (now <? Result.slash_exec_time result_info) (Module TimeNotAllowed);;
  ok ← gets (λ w, can_reserve who stake w.2);
  ensure ok (Module BalanceNotEnough);;
  (if is_slashed_reporter then
     change_reporter_stake who stake true;;
     pay_stake_when_report who
   else if is_slashed_committee then
     call_or BalanceNotEnough (mc_change_total_stake who stake true true);;
     call_or BalanceNotEnough (mc_change_used_stake who stake true)
   else if is_slashed_stash then
     call_or BalanceNotEnough (mt_change_staked_balance who stake true)
   else mret tt);;
  own_modify (λ s, s <| PendingSlashReview ::= <[id := {|
    applicant := who; review_staked_amount := stake; apply_time := now;
    expire_time := Result.slash_exec_time result_info; reason := why |}]> |>);;
  own_modify (deposit_event (ApplySlashReview id)).

(** Who is slashed and rewarded when a slash is cancelled. *)
Definition should_slash (r : Result.MTReportResultInfo) : list AccountId :=
  foldl add_item (Result.reward_committee r) (Result.unruly_committee r).

Definition cancel_reporter_slash (now : BlockNumber) (origin : Origin) (id : ReportId) : MM unit :=
  ensure (CancelSlashOrigin T origin) BadOrigin;;
  recorded ← own_gets (λ s, bool_decide (is_Some (ReportResult s !! id)));
  ensure recorded (Module SlashIdNotExist);;
  applied ← own_gets (λ s, bool_decide (is_Some (PendingSlashReview s !! id)));
  ensure applied (Module NotPendingReviewSlash);;
  maybe_result ← own_gets (λ s, ReportResult s !! id);
  report_result ← ok_or maybe_result (Module Unknown);
  maybe_review ← own_gets (λ s, PendingSlashReview s !! id);
  review ← ok_or maybe_review (Module Unknown);
  let who := applicant review in
  let staked := review_staked_amount review in
  ensure (now <? expire_time review) (Module ExpiredApply);;
  (if Result.is_slashed_reporter who report_result then change_reporter_stake who staked false
   else if Result.is_slashed_stash who report_result then
     call_or BalanceNotEnough (mt_change_staked_balance who staked false)
   else map_err (Module ReduceUsedStakeFailed) (change_committee_stake_on_report_close [who] staked false));;
  let is_reporter_slashed := Result.punishes_reporter (Result.report_result report_result) in
  let should_reward := Result.inconsistent_committee report_result in
  own_modify (mutate_stake (Result.reporter report_result)
    (change_stake_on_report_close (Result.reporter_stake report_result) (negb is_reporter_slashed)));;
  (if is_reporter_slashed then mret tt
   else ignore (slash_and_reward [Result.reporter report_result] (Result.reporter_stake report_result)
          should_reward));;
  let should_reward := if is_reporter_slashed then add_item should_reward (Result.reporter report_result)
                       else should_reward in
  ignore (slash_and_reward (should_slash report_result) (Result.committee_stake report_result) should_reward);;
  own_modify (update_unhandled_report id false (Result.slash_exec_time report_result));;
  own_modify (put_result id (report_result <| Result.slash_result := Result.Canceled |>));;
  own_modify (λ s, s <| PendingSlashReview ::= delete id |>).

(** ** Slashes and their review (slash.rs) *)

Definition exec_a_slash (id : ReportId) : MU unit :=
  maybe_result ← own_gets (λ s, ReportResult s !! id);
  info ← ok_or maybe_result tt;
  let reporter := Result.reporter info in
  let stake := Result.reporter_stake info in
  let report_result := Result.report_result info in
  own_modify (change_reporter_stake_on_report_close reporter stake report_result);;
  let slashed_committee := Result.unruly_committee info ++ Result.inconsistent_committee info in
  let reward_who :=
    match report_result with
    | Result.ReportSucceed => Result.reward_committee info ++ [reporter]
    | _ => []
    end in
  (if Result.punishes_reporter report_result then
     ignore (slash_and_reward [reporter] stake (Result.reward_committee info))
   else mret tt);;
  ignore (change_committee_stake_on_report_close (Result.reward_committee info) (Result.committee_stake info) false);;
  ignore (change_committee_stake_on_report_close slashed_committee (Result.committee_stake info) true);;
  ignore (slash_and_reward slashed_committee (Result.committee_stake info) reward_who);;
  own_modify (put_result id (info <| Result.slash_result := Result.Executed |>)).

Definition exec_slash (now : BlockNumber) : MU unit :=
  due ← own_gets (λ s, unhandled_report_result s now);
  for_each due exec_a_slash;;
  own_modify (λ s, s <| UnhandledReportResult ::= delete now |>).

Definition exec_a_review (now : BlockNumber) (id : ReportId) : MU unit :=
  maybe_review ← own_gets (λ s, PendingSlashReview s !! id);
  review_info ← ok_or maybe_review tt;
  maybe_result ← own_gets (λ s, ReportResult s !! id);
  result_info ← ok_or maybe_result tt;
  let who := applicant review_info in
  let staked := review_staked_amount review_info in
  if expire_time review_info <? now then mret tt
  else
    (if Result.is_slashed_reporter who result_info then
       own_modify (mutate_stake who (change_stake_on_report_close staked true))
     else if Result.is_slashed_committee who result_info then
       ignore (change_committee_stake_on_report_close [who] staked true)
     else if Result.is_slashed_stash who result_info then
       ignore (with_callee (E:=unit) (mt_rm_stash_total_stake who staked))
     else mret tt);;
    ignore (slash_and_reward [who] staked []);;
    own_modify (λ s, s <| PendingSlashReview ::= delete id |>).

(** The order of the storage iteration is that of the keys' hashes; any order
    is that of [map_to_list] here. *)
Definition exec_review (now : BlockNumber) : MU unit :=
  all_pending_review ← own_gets (λ s, (map_to_list (PendingSlashReview s)).*1);
  for_each all_pending_review (exec_a_review now).

Definition on_initialize (now : BlockNumber) : MU unit :=
  ignore (exec_review now);;
  ignore (exec_slash now).

(** ** Summary of the reports

    The hooks work on a copy of the live lists, which they store at the end; a
    helper that fails keeps what it did to the copy. *)
Abbreviation MS := (M (World * MTLiveReportList) unit).
Definition on_chain {A} (m : MU A) : MS A := λ w, let r := m w.1 in (r.1, (r.2, w.2)).
Definition own {A} (f : State → A) : MS A := on_chain (own_gets f).
Definition put (f : State → State) : MS unit := on_chain (own_modify f).
Definition live (f : MTLiveReportList → MTLiveReportList) : MS unit := modify (λ w, (w.1, f w.2)).
Definition on_live_report (m : MS unit) : MU unit := λ w,
  let r := m (w, LiveReport w.1.1) in
  own_modify (λ s, s <| LiveReport := r.2.2 |>) r.2.1.

(** Reporting anew, on the copies: whether it succeeded, and the reporter's
    list. *)
Definition report_again (now : BlockNumber) (report_info : MTReportInfoDetail) (reports : ReporterReportList) :
    MS (bool * ReporterReportList) := λ w,
  match do_report_machine_fault now (reporter report_info) (machine_fault_type report_info)
          (Some (report_time report_info)) w.2 reports w.1 with
  | (Ok (live_report, reports), w') => (Ok (true, reports), (w', live_report))
  | (Err _, w') => (Ok (false, reports), (w', w.2))
  end.

(** Who worked on the report: those who did not are recorded, and their
    records removed. *)
Definition close_order (id : ReportId) (report_info : MTReportInfoDetail) (a : AccountId) (s : State) : State :=
  let done := is_confirmed_committee a report_info in
  let order := clean_when_summary id done (committee_order s a) in
  let s := if done then s else s <| CommitteeOps ::= delete (a, id) |> in
  mutate_order a (λ _, order) s.
Definition add_unruly_committee (report_info : MTReportInfoDetail) (r : Result.MTReportResultInfo) :
    Result.MTReportResultInfo :=
  foldl (λ r a, if is_confirmed_committee a report_info then r else Result.add_unruly a r) r
    (booked_committee report_info).

Definition summary_inaccessible_report (now : BlockNumber) (id : ReportId) : MS unit :=
  maybe_info ← own (λ s, ReportInfo s !! id);
  report_info ← ok_or maybe_info tt;
  ensure (can_summary_inaccessible now report_info) tt;;
  if bool_decide (report_status report_info = WaitingBook) || bool_decide (report_status report_info = Verifying)
  then
    if (FIVE_MINUTES <=? saturating_sub now (first_book_time report_info)) ||
       Nat.eqb (length (hashed_committee report_info)) 3
    then live (time_to_submit_raw id);; put (put_info id (report_info <| report_status := SubmittingRaw |>))
    else mret tt
  else
    maybe_machine ← on_chain (rt_gets (λ h, mt_machines_info h (machine_id report_info)));
    machine_info ← ok_or maybe_machine tt;
    let report_result := add_unruly_committee report_info
      (Result.new_inaccessible_result now id report_info (MachineInfo.machine_stash machine_info)) in
    live (λ l, l <| waiting_raw_report ::= λ x, rm_item x id |>);;
    reports ← own (λ s, reporter_report s (reporter report_info));
    let reports := reports <| processing_report ::= λ x, rm_item x id |> in
    for_each (booked_committee report_info) (λ a, put (close_order id report_info a));;
    if Nat.eqb (length (confirmed_committee report_info)) 0 then
      again ← report_again now report_info reports;
      ensure again.1 tt;;
      let report_result := report_result <| Result.report_result := Result.ReportNoConsensus |>
                                         <| Result.reporter_stake := 0 |> in
      (if negb (Nat.eqb (length (Result.unruly_committee report_result)) 0) then
         put (update_unhandled_report id true (Result.slash_exec_time report_result));;
         put (put_result id report_result)
       else mret tt);;
      put (mutate_report (reporter report_info) (λ _, again.2 <| failed_report ::= λ x, add_item x id |>))
    else
      let support := support_committee report_info in
      let against := against_committee report_info in
      let supported := (length against <=? length support)%nat in
      (if supported then
         on_chain (with_callee (mt_machine_offline (reporter report_info) support (machine_id report_info)
           (into_op_err (machine_fault_type report_info) (report_time report_info))))
       else mret tt);;
      let '(inconsistent, reward) := if supported then (against, support) else (support, against) in
      let report_result := report_result
        <| Result.inconsistent_committee ::= λ x, expand_to_order x inconsistent |>
        <| Result.reward_committee ::= λ x, expand_to_order x reward |>
        <| Result.report_result := if supported then Result.ReportSucceed else Result.ReportRefused |> in
      let reports := if supported then reports <| succeed_report ::= λ x, add_item x id |>
                     else reports <| failed_report ::= λ x, add_item x id |> in
      put (mutate_report (reporter report_info) (λ _, reports));;
      put (put_info id (report_info <| report_status := CommitteeConfirmed |>));;
      live (λ l, (clean_unfinished_report id l) <| finished_report ::= λ x, add_item x id |>);;
      put (update_unhandled_report id true (Result.slash_exec_time report_result));;
      put (put_result id report_result).

Definition summary_inaccessible_hook (now : BlockNumber) : MU unit :=
  on_live_report
    (live_report ← gets (λ w, w.2);
     for_each (verifying_report live_report ++ bookable_report live_report ++ waiting_raw_report live_report)
       (λ id, ignore (summary_inaccessible_report now id))).

(** A report whose reporter did not send the member its details. *)
Definition release_member (id : ReportId) (a : AccountId) : MU unit :=
  ops ← own_gets (λ s, committee_ops s a id);
  ignore (with_callee (E:=unit) (mc_change_used_stake a (staked_balance ops) false));;
  own_modify (λ s, s <| CommitteeOps ::= delete (a, id) |>);;
  own_modify (mutate_order a (clean_unfinished_order id)).

Definition summary_before_submit_raw (now : BlockNumber) (id : ReportId) (reports : ReporterReportList)
    (report_result : Result.MTReportResultInfo) : MS unit :=
  maybe_info ← own (λ s, ReportInfo s !! id);
  report_info ← ok_or maybe_info tt;
  if negb (bool_decide (report_status report_info = Verifying)) then mret tt
  else
    verifying ← ok_or (verifying_committee report_info) tt;
    ops ← own (λ s, committee_ops s verifying id);
    let waited := saturating_sub now (booked_time ops) in
    if (HALF_HOUR <=? waited) && bool_decide (encrypted_err_info ops = None) then
      put (mutate_report (reporter report_info) (λ _, clean_not_submit_encrypted_report id reports));;
      for_each (booked_committee report_info) (λ a, on_chain (release_member id a));;
      live (λ l, l <| verifying_report ::= λ x, rm_item x id |>);;
      let report_result := report_result
        <| Result.report_result := Result.ReporterNotSubmitEncryptedInfo |> in
      put (update_unhandled_report id true (Result.slash_exec_time report_result));;
      put (put_result id report_result)
    else if ONE_HOUR <=? waited then
      live (clean_not_submit_hash_report id);;
      put (mutate_order verifying (λ o, o <| booked_report ::= λ l, rm_item l id |>));;
      put (put_info id (clean_not_submit_hash_committee verifying report_info));;
      put (λ s, s <| CommitteeOps ::= delete (verifying, id) |>);;
      let report_result := Result.add_unruly verifying report_result in
      put (update_unhandled_report id true (Result.slash_exec_time report_result));;
      put (put_result id report_result)
    else mret tt.

Definition summary_after_submit_raw (now : BlockNumber) (id : ReportId) : MS unit :=
  live (λ l, (clean_unfinished_report id l) <| waiting_raw_report ::= λ x, add_item x id |>);;
  maybe_info ← own (λ s, ReportInfo s !! id);
  report_info ← ok_or maybe_info tt;
  if bool_decide (report_status report_info = WaitingBook) then
    put (put_info id (report_info <| report_status := SubmittingRaw |>))
  else
    verifying ← ok_or (verifying_committee report_info) tt;
    ops ← own (λ s, committee_ops s verifying id);
    if saturating_sub now (booked_time ops) <? ONE_HOUR then
      put (mutate_order verifying (clean_unfinished_order id));;
      on_chain (ignore (with_callee (E:=unit) (mc_change_used_stake verifying (staked_balance ops) false)));;
      put (λ s, s <| CommitteeOps ::= delete (verifying, id) |>);;
      maybe_info ← own (λ s, ReportInfo s !! id);
      report_info ← ok_or maybe_info tt;
      put (put_info id (clean_not_submit_raw_committee verifying report_info))
    else mret tt.

Definition summary_verifying_report (now : BlockNumber) (id : ReportId) : MS unit :=
  committee_order_stake ← on_chain (rt_gets (λ h, default 0 (mc_stake_per_order h)));
  maybe_info ← own (λ s, ReportInfo s !! id);
  report_info ← ok_or maybe_info tt;
  ensure (can_summary_fault report_info) tt;;
  reports ← own (λ s, reporter_report s (reporter report_info));
  let report_result := {|
    Result.report_id := id; Result.reporter := reporter report_info;
    Result.reporter_stake := reporter_stake report_info; Result.committee_stake := committee_order_stake;
    Result.slash_time := now; Result.slash_exec_time := VerifyOnline.add_block now TWO_DAYS;
    Result.slash_result := Result.Pending; Result.inconsistent_committee := [];
    Result.unruly_committee := []; Result.reward_committee := []; Result.machine_stash := None;
    Result.machine_id := []; Result.report_result := Result.ReportResultType_default |} in
  if saturating_sub now (first_book_time report_info) <? THREE_HOURS then
    summary_before_submit_raw now id reports report_result
  else summary_after_submit_raw now id.

Definition finish_order (id : ReportId) (a : AccountId) (s : State) : State :=
  mutate_order a (λ o, o <| confirmed_report ::= λ x, rm_item x id |>
    <| order_finished_report ::= λ x, add_item x id |>) s.
Definition drop_order (id : ReportId) (a : AccountId) (s : State) : State :=
  mutate_order a (λ o, o <| booked_report ::= λ x, rm_item x id |> <| hashed_report ::= λ x, rm_item x id |>)
    (s <| CommitteeOps ::= delete (a, id) |>).

Definition summary_submitting_raw (now : BlockNumber) (id : ReportId) : MS unit :=
  committee_order_stake ← on_chain (rt_gets (λ h, default 0 (mc_stake_per_order h)));
  maybe_info ← own (λ s, ReportInfo s !! id);
  report_info ← ok_or maybe_info tt;
  if negb (can_summary now report_info) then mret tt
  else
    let fault_report_result := summary report_info in
    live (live_get_verify_result id fault_report_result);;
    current ← own (λ s, ReportResult s !! id);
    let report_result := Result.get_verify_result current now id committee_order_stake report_info in
    (match fault_report_result with
     | Confirmed support against _ =>
         for_each support (λ a, put (finish_order id a));;
         on_chain (with_callee (mt_machine_offline (reporter report_info) support (machine_id report_info)
           (into_op_err (machine_fault_type report_info) (report_time report_info))))
     | Refuse support against => for_each (support ++ against) (λ a, put (finish_order id a))
     | NoConsensus =>
         for_each (booked_committee report_info) (λ a, put (drop_order id a));;
         reports ← own (λ s, reporter_report s (reporter report_info));
         again ← report_again now report_info reports;
         put (mutate_report (reporter report_info) (λ _, again.2))
     end);;
    put (update_unhandled_report id true (VerifyOnline.add_block now TWO_DAYS));;
    put (put_result id report_result);;
    put (put_info id (if bool_decide (report_status report_info = Reported) then report_info
                      else report_info <| report_status := CommitteeConfirmed |>)).

Definition summary_fault_hook (now : BlockNumber) : MU unit :=
  on_live_report
    (live_report ← gets (λ w, w.2);
     for_each (verifying_report live_report ++ bookable_report live_report)
       (λ id, ignore (summary_verifying_report now id));;
     for_each (waiting_raw_report live_report) (λ id, ignore (summary_submitting_raw now id))).

Definition on_finalize (now : BlockNumber) : MU unit :=
  summary_fault_hook now;;
  summary_inaccessible_hook now.

(** ** The pallet as a state machine *)

Inductive Call :=
| SetReporterStakeParams (params : ReporterStakeParamsInfo)
| ReportMachineFaultCall (f : MachineFaultType)
| ReporterAddStakeCall (v : Balance)
| ReporterReduceStakeCall (v : Balance)
| ReporterCancelReport (id : ReportId)
| CommitteeBook (id : ReportId)
| ReporterAddEncryptedErrorInfo (id : ReportId) (to : AccountId) (info : bytes)
| CommitteeSubmitVerifyHash (id : ReportId) (h : ReportHash)
| CommitteeSubmitVerifyRaw (id : ReportId) (m : MachineId) (rent_order : Z)
    (reporter_rand_str committee_rand_str err_reason extra : bytes) (support : bool)
| CommitteeSubmitInaccessibleRaw (id : ReportId) (committee_rand_str : bytes) (support : bool)
| ApplySlashReviewCall (id : ReportId) (why : bytes)
| CancelReporterSlash (id : ReportId).

Definition run_call (now : BlockNumber) (o : Origin) (c : Call) : MM unit :=
  match c with
  | SetReporterStakeParams params => set_reporter_stake_params o params
  | ReportMachineFaultCall f => report_machine_fault now o f
  | ReporterAddStakeCall v => reporter_add_stake o v
  | ReporterReduceStakeCall v => reporter_reduce_stake o v
  | ReporterCancelReport id => reporter_cancel_report o id
  | CommitteeBook id => committee_book_report now o id
  | ReporterAddEncryptedErrorInfo id to info => reporter_add_encrypted_error_info now o id to info
  | CommitteeSubmitVerifyHash id h => committee_submit_verify_hash now o id h
  | CommitteeSubmitVerifyRaw id m rent r c e x v => committee_submit_verify_raw now o id m rent r c e x v
  | CommitteeSubmitInaccessibleRaw id r v => committee_submit_inaccessible_raw now o id r v
  | ApplySlashReviewCall id why => apply_slash_review now o id why
  | CancelReporterSlash id => cancel_reporter_slash now o id
  end.
Definition dispatch (now : BlockNumber) (o : Origin) (c : Call) : MM unit := transactional (run_call now o c).

(** A call; the end of a block with the beginning of the next; and whatever the
    rest of the runtime does. Report ids are not exhausted: a summary makes at
    most one new report of each live one. *)
Definition ids_left (s : State) : Prop :=
  NextReportId s + Z.of_nat (length (verifying_report (LiveReport s)) + length (bookable_report (LiveReport s)) +
    length (waiting_raw_report (LiveReport s))) < U64_MAX.
Inductive step : BlockNumber * World → BlockNumber * World → Prop :=
| step_call now o c w : ids_left w.1.1 → step (now, w) (now, (dispatch now o c w).2)
| step_block now w : ids_left w.1.1 → ids_left (summary_fault_hook now w).2.1.1 →
    step (now, w) (now + 1, (on_initialize (now + 1) (on_finalize now w).2).2)
| step_others now s h h' l l' : step (now, ((s, h), l)) (now, ((s, h'), l')).
Definition reachable (c : BlockNumber * World) : Prop :=
  ∃ now h l, 0 ≤ now ∧ rtc step (now, ((genesis, h), l)) c.
End pallet.
End MaintainCommittee.
