(* ===== verification/MaintainSteps.v ===== *)
(** * pallet-maintain-committee: what its operations leave alone

    Rules for sequences of writes, and the parts of the storage that the calls
    of other pallets and the changes of stakes do not touch. *)
From stdpp Require Import base gmap fin_maps list numbers relations.
From Stdlib Require Import ZArith Lia Strings.Byte.
From S2P Require Import Prelude Currency Interfaces ItemList VerifyOnline RentalTypes RentalInterfaces ReportTypes MaintainCommittee.

Module MaintainSteps.
Import ItemList Report MaintainCommittee.

(** ** Sequences of writes *)
Definition triple {S E A} (P : S → Prop) (m : M S E A) (Q : S → Prop) : Prop := ∀ s, P s → Q (m s).2.

Section triple.
Context {S E : Type}.
Implicit Types (P Q R : S → Prop).

Lemma triple_kept {A} P Q (m : M S E A) : kept P m → (∀ s, P s → Q s) → triple P m Q.
Proof. intros Hm HPQ s Hs. apply HPQ. by apply Hm. Qed.
Lemma triple_bind {A B} P R Q (m : M S E A) (k : A → M S E B) :
  (∀ s, R s → Q s) → triple P m R → (∀ a, triple R (k a) Q) → triple P (m ≫= k) Q.
Proof.
  intros HRQ Hm Hk s Hs. specialize (Hm s Hs). unfold mbind, M_bind.
  destruct (m s) as [[a|e] s1]; [by apply Hk|by apply HRQ].
Qed.
Lemma triple_seq {A B} P Q (m : M S E A) (k : A → M S E B) :
  (∀ s, P s → Q s) → kept P m → (∀ a, triple P (k a) Q) → triple P (m ≫= k) Q.
Proof. intros HPQ Hm. by apply triple_bind. Qed.
Lemma triple_ok_or {A B} P Q (o : option A) e (k : A → M S E B) :
  (∀ s, P s → Q s) → (∀ a, o = Some a → triple P (k a) Q) → triple P (ok_or o e ≫= k) Q.
Proof. intros HPQ Hk s Hs. destruct o as [a|]; [rewrite bind_ok_or; by apply Hk|by apply HPQ]. Qed.
Lemma triple_ensure {B} P Q b e (k : unit → M S E B) :
  (∀ s, P s → Q s) → (b = true → triple P (k tt) Q) → triple P (ensure b e ≫= k) Q.
Proof. intros HPQ Hk s Hs. destruct b; [by apply Hk|by apply HPQ]. Qed.
Lemma triple_mret {A} P Q (a : A) : (∀ s, P s → Q s) → triple P (mret a : M S E A) Q.
Proof. intros HPQ s Hs. by apply HPQ. Qed.
(** A loop that uses up a budget. *)
Lemma for_each_budget {A} (Q : nat → S → Prop) (l : list A) (body : A → M S E unit) n :
  (∀ k s, Q (Datatypes.S k) s → Q k s) →
  (∀ x k, triple (Q (Datatypes.S k)) (body x) (Q k)) → triple (Q (length l + n)%nat) (for_each l body) (Q n).
Proof.
  intros Hdown Hb. induction l as [|x l IH]; simpl; [by intros s Hs|].
  apply (triple_bind _ (Q (length l + n)%nat)).
  - clear - Hdown. induction (length l); simpl; [done|]. intros s Hs. auto.
  - apply Hb.
  - intros _. exact IH.
Qed.
End triple.

(** What a hook keeps of the chain beside its copy of the live lists. *)
Definition onchain {W C : Type} (Q : W → Prop) (x : W * C) : Prop := Q x.1.
Section on_chain.
Context {L RT : Type} (Q : (State * RT) * L → Prop).

Lemma kept_on_chain {A} (m : M ((State * RT) * L) unit A) : kept Q m → kept (onchain Q) (on_chain m).
Proof. intros Hm x Hx. exact (Hm _ Hx). Qed.
Lemma kept_put f : (∀ s h l, Q ((s, h), l) → Q ((f s, h), l)) → kept (onchain Q) (put f).
Proof. intros Hf [[[s h] l] c] Hx. exact (Hf s h l Hx). Qed.
Lemma kept_live f : kept (onchain Q) (live f).
Proof. by intros x. Qed.
Lemma kept_on_live_report (m : M (((State * RT) * L) * MTLiveReportList) unit unit) :
  (∀ s h l c, Q ((s, h), l) → Q ((s <| LiveReport := c |>, h), l)) →
  kept (onchain Q) m → kept Q (on_live_report m).
Proof.
  intros HQ Hm w Hw. specialize (Hm (w, LiveReport w.1.1) Hw). unfold on_live_report.
  destruct (m _) as [r [[[s h] l] c]]. by apply HQ.
Qed.
(** What a hook reads of the storage stays known. *)
Lemma triple_own {A B} (P : (((State * RT) * L) * MTLiveReportList) → Prop) R (f : State → A) (k : A → M _ unit B) :
  (∀ y, P y → triple (λ x, P x ∧ f x.1.1.1 = f y.1.1.1) (k (f y.1.1.1)) R) →
  triple P (own (L:=L) (RT:=RT) f ≫= k) R.
Proof. intros Hk [w c] Hx. exact (Hk (w, c) Hx (w, c) (conj Hx eq_refl)). Qed.
Lemma triple_put {A} (P P' : (((State * RT) * L) * MTLiveReportList) → Prop) R f (k : unit → M _ unit A) :
  (∀ s h l c, P (((s, h), l), c) → P' (((f s, h), l), c)) → triple P' (k tt) R → triple P (put f ≫= k) R.
Proof. intros Hf Hk [[[s h] l] c] Hx. exact (Hk _ (Hf s h l c Hx)). Qed.
Lemma triple_put_last (P R : (((State * RT) * L) * MTLiveReportList) → Prop) f :
  (∀ s h l c, P (((s, h), l), c) → R (((f s, h), l), c)) → triple P (put f) R.
Proof. intros Hf [[[s h] l] c] Hx. exact (Hf s h l c Hx). Qed.
End on_chain.

(** The bodies of the calls and of the helpers of the hooks. *)
Create HintDb maintain_ops.
#[export] Hint Unfold set_reporter_stake_params report_machine_fault reporter_add_stake reporter_reduce_stake
  reporter_cancel_report committee_book_report reporter_add_encrypted_error_info
  committee_submit_verify_hash committee_submit_verify_raw committee_submit_inaccessible_raw
  apply_slash_review cancel_reporter_slash check_inaccessible : maintain_ops.
#[export] Hint Unfold call_or report_ok get_stake_per_order is_valid_committee pay_tx_fee slash_and_reward
  pay_stake_when_report change_committee_stake_on_report_close change_reporter_stake
  do_report_machine_fault exec_slash exec_a_slash exec_review exec_a_review on_initialize
  release_member : maintain_ops.

Section frames.
Context {L RT : Type} `{!ReservableCurrency L}.
Context `{!ManageCommittee L RT, !MTOps L RT, !GNOps L RT, !TxFee L RT, !RentOrders RT} {P : PerThing}.
Abbreviation World := ((State * RT) * L)%type.
Implicit Types (w : World).
Context {X : Type} (g : State → X).

Definition part (x : X) w : Prop := g w.1.1 = x.

Lemma piece_callee {E A} x (m : M (RT * L) E A) : kept (part x) (with_callee m).
Proof. by intros w. Qed.
Lemma part_own {E} x f : (∀ s, g (f s) = g s) → kept (part x) (own_modify (E:=E) (H:=RT) (L:=L) f).
Proof. intros Hf w <-. apply Hf. Qed.
Lemma piece_reserve {E} x a v (e : E) : kept (part x) (m_reserve a v e : M World E unit).
Proof. intros w Hw. unfold m_reserve. by destruct (reserve a v w.2). Qed.
Lemma piece_unreserve {E} x a v : kept (part x) (m_unreserve a v : M World E Balance).
Proof. intros w Hw. rewrite m_unreserve_run. exact Hw. Qed.
Lemma part_outside {E} x (f : State * RT → RT) :
  kept (part x) (modify (λ w, ((w.1.1, f w.1), w.2)) : M World E unit).
Proof. by intros w. Qed.
Lemma part_Ok {E A} (m : M World E A) w a w' :
  (∀ x, kept (part x) m) → m w = (Ok a, w') → g w'.1.1 = g w.1.1.
Proof. intros Hm Hw. specialize (Hm _ w eq_refl). by rewrite Hw in Hm. Qed.
End frames.

(** Goes through a run none of whose writes changes the part. *)
Ltac part_step :=
  first
  [ lazymatch goal with
    | |- kept _ (rt_gets _ ≫= _) => apply kept_gets; intros ? ?
    | |- kept _ (ensure_signed ?o) => by destruct o; intros ?
    | |- kept _ (ensure_root ?o) => by destruct o; intros ?
    | |- kept _ (on_chain _) => apply kept_on_chain
    | |- kept _ (own _) => by intros ?
    | |- kept _ (live _) => by intros ?
    end
  | kept_step
  | lazymatch goal with
    | |- kept _ (with_callee _) => apply piece_callee
    | |- kept _ (m_reserve _ _ _) => apply piece_reserve
    | |- kept _ (m_unreserve _ _) => apply piece_unreserve
    | |- kept _ (modify (λ w, ((w.1.1, _), w.2))) => by intros ?
    | |- kept _ (own_modify _) => apply part_own; intros ?; try reflexivity
    end
  | progress cbv beta zeta
  | progress autounfold with maintain_ops ].
Ltac part_steps := repeat part_step.

Section quiet.
Context {L RT : Type} `{!ReservableCurrency L}.
Context `{!ManageCommittee L RT, !MTOps L RT, !GNOps L RT, !TxFee L RT, !RentOrders RT} {P : PerThing}.
Abbreviation World := ((State * RT) * L)%type.
Context {X : Type} (g : State → X).
(** The part does not contain the reporters' stakes and the events. *)
Context (g_stake : ∀ a f s, g (mutate_stake a f s) = g s) (g_event : ∀ e s, g (deposit_event e s) = g s).

Lemma part_pay x a : kept (part (L:=L) (RT:=RT) g x) (pay_stake_when_report a).
Proof. part_steps; auto. Qed.
Lemma part_change_stake x a v b : kept (part (L:=L) (RT:=RT) g x) (change_reporter_stake a v b).
Proof. part_steps; auto. Qed.
Lemma part_committee_stake x l v b :
  kept (part (L:=L) (RT:=RT) g x) (change_committee_stake_on_report_close l v b).
Proof. part_steps. Qed.
Lemma piece_check x a m i : kept (part (L:=L) (RT:=RT) g x) (check_inaccessible a m i).
Proof. part_steps. Qed.
Lemma part_slash_and_reward x l v k : kept (part (L:=L) (RT:=RT) g x) (slash_and_reward l v k).
Proof. part_steps. Qed.

(** Closing a report for its reporter. *)
Lemma part_close a v t s : g (change_reporter_stake_on_report_close a v t s) = g s.
Proof. destruct t; simpl; auto. Qed.
End quiet.
End MaintainSteps.
