(* ===== verification/MaintainVotes.v ===== *)
(** * pallet-maintain-committee: the votes on a report

    Who booked, committed to and revealed a verdict on a report: every step
    keeps the members of a report nested, at most three, and every counted vote
    an opening of the member's commitment. *)
From stdpp Require Import base gmap fin_maps list numbers relations.
From Stdlib Require Import ZArith Lia Strings.Byte.
From S2P Require Import Prelude Currency Interfaces ItemList VerifyOnline RentalTypes RentalInterfaces ReportTypes MaintainCommittee MaintainSteps.

Module MaintainVotes.
Import ItemList Report MaintainCommittee MaintainSteps.

Lemma add_item_grows `{OrdLaws A} (l : list A) x : (length (add_item l x) ≤ S (length l))%nat.
Proof.
  unfold add_item, vec_insert. destruct (binary_search l x); [lia|].
  rewrite length_app, length_take, length_cons, length_drop. lia.
Qed.
Lemma length_rm_item `{OrdLaws A} (l : list A) x : (length (rm_item l x) ≤ length l)%nat.
Proof.
  unfold rm_item. destruct (binary_search l x) as [i|]; [|lia].
  rewrite delete_take_drop, length_app, length_take, length_drop. lia.
Qed.

Section votes.
Context (T : Config).
Implicit Types (s : State) (id : ReportId) (r : MTReportInfoDetail) (a : AccountId).

(** A preimage of the commitment with this verdict; of a report behind a hash
    also a preimage of that hash. *)
Definition opens id r (v : bool) (h : ReportHash) : Prop :=
  match get_hash (machine_fault_type r) with
  | None => ∃ rand, hash_of T [VerifyOnline.to_string id; rand; vote_bytes v] = h
  | Some rh => ∃ m rent rr cr er,
      hash_of T [m; VerifyOnline.to_string rent; rr; er] = rh ∧
      hash_of T [m; VerifyOnline.to_string rent; rr; cr; vote_bytes v; er] = h
  end.

(** [h] gives the commitments of the members. *)
Record report_inv (h : AccountId → ReportHash) id r : Prop := {
  ri_booked : sorted (booked_committee r) ∧ (length (booked_committee r) ≤ 3)%nat;
  ri_hashed : sorted (hashed_committee r) ∧ ∀ a, a ∈ hashed_committee r → a ∈ booked_committee r;
  ri_confirmed : sorted (confirmed_committee r) ∧ ∀ a, a ∈ confirmed_committee r → a ∈ hashed_committee r;
  ri_sides : sorted (support_committee r) ∧ sorted (against_committee r);
  ri_votes a : a ∈ confirmed_committee r ↔ a ∈ support_committee r ∨ a ∈ against_committee r;
  ri_reported : report_status r = Reported → booked_committee r = [] ∧ first_book_time r = 0;
  ri_open a : a ∈ confirmed_committee r → report_status r = SubmittingRaw ∨ report_status r = CommitteeConfirmed;
  ri_verifying a : verifying_committee r = Some a → a ∈ booked_committee r ∧ a ∉ hashed_committee r;
  ri_support a : a ∈ support_committee r → opens id r true (h a);
  ri_against a : a ∈ against_committee r → opens id r false (h a);
}.

Definition commitment s id a : ReportHash := confirm_hash (committee_ops s a id).
Record VoteInv s : Prop := {
  vi_report id r : ReportInfo s !! id = Some r → 0 ≤ id < NextReportId s ∧ report_inv (commitment s id) id r;
  vi_next : 0 ≤ NextReportId s;
  vi_order a id : id ∈ booked_report (committee_order s a) →
    ∃ r, ReportInfo s !! id = Some r ∧ a ∈ booked_committee r ∧ a ∉ hashed_committee r;
  vi_sorted a : sorted (booked_report (committee_order s a));
}.

(** ** Parts of the storage *)
Lemma order_put s a f b :
  committee_order (mutate_order a f s) b = if decide (b = a) then f (committee_order s a) else committee_order s b.
Proof.
  unfold committee_order, mutate_order. simpl. rewrite lookup_insert.
  destruct (decide (a = b)), (decide (b = a)); by simplify_eq.
Qed.
Lemma ops_put s a i f b j :
  committee_ops (mutate_ops a i f s) b j =
    if decide (b = a ∧ j = i) then f (committee_ops s a i) else committee_ops s b j.
Proof.
  unfold committee_ops, mutate_ops. simpl. rewrite lookup_insert.
  destruct (decide ((a, i) = (b, j))), (decide (b = a ∧ j = i)); naive_solver.
Qed.

Lemma report_inv_hashes h h' id r :
  (∀ a, a ∈ confirmed_committee r → h' a = h a) → report_inv h id r → report_inv h' id r.
Proof.
  intros Hh [H1 H2 H3 H4 H5 H6 H7 H8 H9 H10]. split; try done.
  - intros a Ha. rewrite Hh by (apply H5; by left). auto.
  - intros a Ha. rewrite Hh by (apply H5; by right). auto.
Qed.

(** The invariant of a state with fewer bookings and the same commitments. *)
Lemma VoteInv_shrink s s' :
  NextReportId s' = NextReportId s → ReportInfo s' = ReportInfo s →
  (∀ id r a, ReportInfo s !! id = Some r → a ∈ confirmed_committee r → commitment s' id a = commitment s id a) →
  (∀ a, sorted (booked_report (committee_order s a)) → sorted (booked_report (committee_order s' a)) ∧
     ∀ id, id ∈ booked_report (committee_order s' a) → id ∈ booked_report (committee_order s a)) →
  VoteInv s → VoteInv s'.
Proof.
  intros HN HI HC HO [V1 V2 V3 V4]. split; rewrite ?HN.
  - intros id r. rewrite HI. intros Hr. destruct (V1 id r Hr) as [? Hi]. split; [done|].
    apply (report_inv_hashes (commitment s id)); [|done]. intros a Ha. by apply (HC id r).
  - done.
  - intros a id Hid. rewrite HI. apply V3. by apply (HO a (V4 a)).
  - intros a. by apply HO.
Qed.

(** Changing the report [id] alone, with its own bookings. *)
Lemma VoteInv_report s s' id r r' :
  VoteInv s → ReportInfo s !! id = Some r →
  NextReportId s' = NextReportId s → ReportInfo s' = <[id := r']> (ReportInfo s) →
  (∀ j a, j ≠ id → commitment s' j a = commitment s j a) →
  (report_inv (commitment s id) id r → report_inv (commitment s' id) id r') →
  (∀ a, sorted (booked_report (committee_order s' a)) ∧ ∀ j, j ∈ booked_report (committee_order s' a) →
     if decide (j = id) then a ∈ booked_committee r' ∧ a ∉ hashed_committee r'
     else j ∈ booked_report (committee_order s a)) →
  VoteInv s'.
Proof.
  intros [V1 V2 V3 V4] Hr HN HI HC Hinv HO. split; rewrite ?HN.
  - intros j rj. rewrite HI, lookup_insert. case_decide as Hj; [subst j; intros [= <-]|intros Hrj].
    + destruct (V1 id r Hr). auto.
    + destruct (V1 j rj Hrj) as [? Hi]. split; [done|]. eapply report_inv_hashes; [|exact Hi].
      intros a _. apply HC. congruence.
  - done.
  - intros a j Hj. destruct (HO a) as [_ Ho]. specialize (Ho j Hj). rewrite HI, lookup_insert.
    destruct (decide (j = id)) as [->|Hne]; [rewrite decide_True by done; eauto|].
    rewrite decide_False by done. by apply V3.
  - intros a. apply HO.
Qed.

(** ** Steps of one report *)
Lemma opens_fault id r r' v h :
  machine_fault_type r' = machine_fault_type r → opens id r v h → opens id r' v h.
Proof. unfold opens. by intros ->. Qed.

Lemma ri_new h id a now f v : report_inv h id (new_report a now f v).
Proof.
  unfold new_report. destruct f; split; simpl; try done; try (split; [apply sorted_nil|]);
    try set_solver; try apply sorted_nil; simpl; try lia.
Qed.
Lemma ri_status h id r st :
  st = SubmittingRaw ∨ st = CommitteeConfirmed → report_inv h id r → report_inv h id (r <| report_status := st |>).
Proof. intros Hst [H1 H2 H3 H4 H5 H6 H7 H8 H9 H10]. split; simpl; try done. by intros ->; destruct Hst. Qed.
Lemma ri_unvoted h id r : report_inv h id r →
  report_status r = WaitingBook ∨ report_status r = Verifying ∨ report_status r = Reported →
  ∀ a, a ∉ confirmed_committee r.
Proof. intros Hi Hst a Ha. apply (ri_open _ _ _ Hi) in Ha. intuition congruence. Qed.
(** Without votes the commitments do not matter. *)
Lemma ri_hashes_unvoted h h' id r : (∀ a, a ∉ confirmed_committee r) → report_inv h id r → report_inv h' id r.
Proof. intros Hn. apply report_inv_hashes. intros a Ha. by destruct (Hn a). Qed.

Lemma can_book_Ok a r : can_book a r = Ok tt →
  report_time r ≠ 0 ∧ (report_status r = Reported ∨ report_status r = WaitingBook) ∧
  (length (booked_committee r) < 3)%nat ∧ is_ok (binary_search (booked_committee r) a) = false.
Proof.
  unfold can_book. destruct (Z.eqb_spec (report_time r) 0); [done|].
  destruct (bool_decide _ || bool_decide _) eqn:Hst; simpl; [|done].
  destruct (Nat.ltb_spec (length (booked_committee r)) 3); simpl; [|done].
  destruct (is_ok _) eqn:Hb; [done|]. intros _. split_and!; try done.
  apply orb_true_iff in Hst as [Hst|Hst]; apply bool_decide_eq_true in Hst; auto.
Qed.
Lemma book_report_as a now r : ∃ t c v st,
  Report.book_report a now r = r <| booked_committee ::= λ l, add_item l a |> <| first_book_time := t |>
    <| confirm_start := c |> <| verifying_committee := v |> <| report_status := st |> ∧
  st ≠ Reported ∧ (v = Some a ∨ v = verifying_committee r).
Proof.
  unfold Report.book_report. cbn zeta. destruct r; simpl. repeat case_match; simplify_eq/=;
    do 4 eexists; (split; [reflexivity|]); (split; [done|]); auto.
Qed.
Lemma ri_book h id a now r :
  can_book a r = Ok tt → report_inv h id r → report_inv h id (Report.book_report a now r) ∧
    (a ∉ hashed_committee r) ∧ (∀ b, b ∈ booked_committee (Report.book_report a now r) ↔ b = a ∨ b ∈ booked_committee r) ∧
    hashed_committee (Report.book_report a now r) = hashed_committee r.
Proof.
  intros (_ & Hst & Hlen & Hb)%can_book_Ok Hi.
  assert (∀ b, b ∉ confirmed_committee r) as Hno by (apply (ri_unvoted h id); naive_solver).
  destruct Hi as [[Hs Hl] [Hh Hhb] H3 H4 H5 H6 H7 H8 H9 H10].
  destruct (add_item_spec _ a Hs) as [Hs' Hel]. pose proof (add_item_grows (booked_committee r) a) as Hla.
  assert (a ∉ booked_committee r) as Hna by (rewrite <-(is_ok_search _ _ Hs); congruence).
  assert (a ∉ hashed_committee r) as Hnh by auto.
  destruct (book_report_as a now r) as (t & c & v & st & -> & Hr & Hv). simpl. split; [|done].
  split; simpl; try done.
  - split; [done|lia].
  - split; [done|]. intros b Hb'. apply Hel. auto.
  - intros b Hb'. by destruct (Hno b).
  - intros b Hb'. rewrite Hel. destruct Hv as [->| ->]; [simplify_eq; auto|]. destruct (H8 b Hb'). auto.
Qed.
Lemma can_submit_hash_Ok r : can_submit_hash r = Ok tt →
  report_status r = Verifying ∨ (report_status r = WaitingBook ∧ is_inaccessible (machine_fault_type r) = true).
Proof.
  unfold can_submit_hash. destruct (is_inaccessible _) eqn:Hi.
  - destruct (bool_decide _ || bool_decide _) eqn:Hst; [|done]. intros _.
    apply orb_true_iff in Hst as [Hst|Hst]; apply bool_decide_eq_true in Hst; auto.
  - case_bool_decide; auto. done.
Qed.
Lemma add_hash_as a r : ∃ st,
  add_hash a r = r <| hashed_committee ::= λ l, add_item l a |> <| verifying_committee := None |> <| report_status := st |> ∧
  (st ≠ Reported ∨ st = report_status r).
Proof.
  unfold add_hash. cbn zeta. case_match; [by exists SubmittingRaw; split; [|left]|].
  case_match; [by exists WaitingBook; split; [|left]|]. exists (report_status r). split; [by destruct r|by right].
Qed.
Lemma ri_hash h h' id a r :
  can_submit_hash r = Ok tt → a ∈ booked_committee r →
  report_inv h id r → report_inv h' id (add_hash a r) ∧
    (∀ b, b ∈ hashed_committee (add_hash a r) ↔ b = a ∨ b ∈ hashed_committee r) ∧
    booked_committee (add_hash a r) = booked_committee r.
Proof.
  intros Hst%can_submit_hash_Ok Hb Hi.
  assert (∀ b, b ∉ confirmed_committee r) as Hno by (apply (ri_unvoted h id); naive_solver).
  apply (ri_hashes_unvoted h h') in Hi; [|done].
  destruct Hi as [H1 [Hh Hhb] H3 H4 H5 H6 H7 H8 H9 H10].
  destruct (add_item_spec _ a Hh) as [Hs' Hel].
  destruct (add_hash_as a r) as (st & -> & Hr). simpl. split; [|done].
  split; simpl; try done.
  - split; [done|]. intros b [->|Hb']%Hel; [done|auto].
  - split; [apply H3|]. intros b Hb'. by destruct (Hno b).
  - intros ->. destruct Hr as [Hr|Hr]; [done|]. naive_solver.
  - intros b Hb'. by destruct (Hno b).
Qed.
Lemma ri_raw h id a v m e r :
  report_status r = SubmittingRaw → a ∈ hashed_committee r → opens id r v (h a) →
  report_inv h id r → report_inv h id (add_raw a v m e r).
Proof.
  intros Hst Ha Ho [H1 H2 [Hc Hch] [Hs1 Hs2] H5 H6 H7 H8 H9 H10].
  destruct (add_item_spec _ a Hc) as [Hc' Hce], (add_item_spec _ a Hs1) as [Hs1' He1],
    (add_item_spec _ a Hs2) as [Hs2' He2].
  assert (∀ b, opens id (add_raw a v m e r) true (h b) ↔ opens id r true (h b)) as Hop1.
  { intros b. unfold add_raw, opens. destruct v, m; done. }
  assert (∀ b, opens id (add_raw a v m e r) false (h b) ↔ opens id r false (h b)) as Hop2.
  { intros b. unfold add_raw, opens. destruct v, m; done. }
  split; try setoid_rewrite Hop1; try setoid_rewrite Hop2;
    unfold add_raw; destruct v, m; simpl; try done; try setoid_rewrite Hce;
    try setoid_rewrite He1; try setoid_rewrite He2; try setoid_rewrite H5; try (split; [done|]);
    rewrite ?Hst; naive_solver.
Qed.
Lemma ri_clean_hash h h' id a r :
  report_status r = Verifying → verifying_committee r = Some a →
  report_inv h id r → report_inv h' id (clean_not_submit_hash_committee a r).
Proof.
  intros Hst Hv Hi.
  assert (∀ b, b ∉ confirmed_committee r) as Hno by (apply (ri_unvoted h id); naive_solver).
  apply (ri_hashes_unvoted h h') in Hi; [|done].
  destruct Hi as [[Hs Hl] [Hh Hhb] H3 H4 H5 H6 H7 H8 H9 H10]. destruct (H8 a Hv) as [Ha Hna].
  destruct (rm_item_spec _ a Hs) as [Hs' Hel].
  pose proof (length_rm_item (booked_committee r) a) as Hlr.
  unfold clean_not_submit_hash_committee. cbn zeta. simpl.
  assert (∀ b, b ∈ hashed_committee r → b ∈ rm_item (booked_committee r) a) as Hsub
    by (intros b Hb; apply Hel; split; [auto|congruence]).
  case_match eqn:Hz; split; simpl; try done; try (intros b Hb; by destruct (Hno b)); try (split; [done|lia]).
  intros _. split; [|done]. apply nil_length_inv. by apply Nat.eqb_eq in Hz.
Qed.
Lemma ri_clean_raw h id a r :
  verifying_committee r = Some a →
  report_inv h id r → report_inv h id (clean_not_submit_raw_committee a r).
Proof.
  intros Hv [[Hs Hl] [Hh Hhb] H3 H4 H5 H6 H7 H8 H9 H10]. destruct (H8 a Hv) as [Ha Hna].
  destruct (rm_item_spec _ a Hs) as [Hs' Hel].
  pose proof (length_rm_item (booked_committee r) a) as Hlr.
  unfold clean_not_submit_raw_committee. split; simpl; try done.
  - split; [done|lia].
  - split; [done|]. intros b Hb. apply Hel. split; [auto|congruence].
  - intros Hr. destruct (H6 Hr) as [Hb _]. rewrite Hb in Ha. by apply not_elem_of_nil in Ha.
Qed.

(** ** Writes *)
Definition shrinks (f : MTCommitteeOrderList → MTCommitteeOrderList) : Prop := ∀ o,
  sorted (booked_report o) → sorted (booked_report (f o)) ∧ ∀ id, id ∈ booked_report (f o) → id ∈ booked_report o.
Lemma shrinks_same f : (∀ o, booked_report (f o) = booked_report o) → shrinks f.
Proof. intros Hf o. by rewrite Hf. Qed.
Lemma shrinks_rm id f : (∀ o, booked_report (f o) = rm_item (booked_report o) id) → shrinks f.
Proof. intros Hf o Hs. rewrite Hf. destruct (rm_item_spec _ id Hs) as [? He]. split; [done|]. intros j. by intros [? _]%He. Qed.

Lemma V_order s a f : shrinks f → VoteInv s → VoteInv (mutate_order a f s).
Proof.
  intros Hf. apply VoteInv_shrink; try done. intros b Hs. rewrite order_put. case_decide; [subst b; by apply Hf|done].
Qed.
Lemma commitment_delete s a id j b : (b ≠ a ∨ j ≠ id) →
  commitment (s <| CommitteeOps ::= delete (a, id) |>) j b = commitment s j b.
Proof.
  intros Hne. unfold commitment, committee_ops. simpl. rewrite lookup_delete_ne; [done|]. intros [= -> ->]. by destruct Hne.
Qed.
Lemma V_drop_ops s a id r : ReportInfo s !! id = Some r → a ∉ confirmed_committee r →
  VoteInv s → VoteInv (s <| CommitteeOps ::= delete (a, id) |>).
Proof.
  intros Hr Ha. apply VoteInv_shrink; [done..| |by intros b Hs; split].
  intros j rj b Hj Hb. apply commitment_delete. destruct (decide (j = id)) as [->|]; [|by right]. left. intros ->. by simplify_eq.
Qed.
Lemma V_put s id r r' : ReportInfo s !! id = Some r →
  (∀ h, report_inv h id r → report_inv h id r') →
  (∀ a, a ∈ booked_committee r → a ∉ hashed_committee r → a ∈ booked_committee r' ∧ a ∉ hashed_committee r') →
  VoteInv s → VoteInv (put_info id r' s).
Proof.
  intros Hr Hinv Hbk V. apply (VoteInv_report s _ id r r'); try done; [apply Hinv|].
  intros a. split; [apply V|]. intros j Hj. case_decide; [subst j|done].
  destruct (vi_order _ V a id Hj) as (r0 & ? & ? & ?). simplify_eq. auto.
Qed.
Lemma V_status s id r st : ReportInfo s !! id = Some r → st = SubmittingRaw ∨ st = CommitteeConfirmed →
  VoteInv s → VoteInv (put_info id (r <| report_status := st |>) s).
Proof. intros Hr Hst. apply (V_put s id r); try done. intros h. by apply ri_status. Qed.

Lemma V_new s a t f v : VoteInv s → NextReportId s < U64_MAX →
  VoteInv (put_info (NextReportId s) (new_report a t f v) (get_new_report_id s).2).
Proof.
  intros [V1 V2 V3 V4] HN.
  assert (ReportInfo s !! NextReportId s = None) as Hfresh.
  { destruct (ReportInfo s !! NextReportId s) eqn:E; [|done]. apply V1 in E as [? _]. lia. }
  unfold put_info, get_new_report_id. cbn [snd]. destruct (Z.eqb_spec (NextReportId s) U64_MAX); [lia|].
  split; simpl; try done.
  - intros id r. rewrite lookup_insert. case_decide; [subst id; intros [= <-]; split; [lia|apply ri_new]|].
    intros [? ?]%V1. split; [lia|done].
  - lia.
  - intros b id Hb. destruct (V3 b id Hb) as (r & Hr & ?). exists r. split; [|done].
    rewrite lookup_insert_ne; [done|]. intros <-. congruence.
Qed.

Lemma V_book now a id r v s : ReportInfo s !! id = Some r → can_book a r = Ok tt →
  VoteInv s → VoteInv (book_report now a id r v s).
Proof.
  intros Hr Hcan V. destruct (vi_report _ V id r Hr) as [_ Hi].
  destruct (ri_book _ id a now r Hcan Hi) as (_ & Hna & Hel & Hh).
  assert (∀ j b, commitment (book_report now a id r v s) j b = commitment s j b) as Hc.
  { intros j b. unfold commitment, committee_ops, book_report, mutate_ops. simpl. rewrite lookup_insert.
    case_decide as Hd; [injection Hd as <- <-|done]. simpl.
    unfold ops_book_report. by destruct (is_inaccessible _). }
  apply (VoteInv_report s _ id r (Report.book_report a now r)); try done; [|].
  - intros _. eapply report_inv_hashes; [intros; apply Hc|]. by apply ri_book.
  - intros b. change (committee_order (book_report now a id r v s) b) with
      (committee_order (mutate_order a (λ o, o <| booked_report ::= λ l, add_item l id |>) s) b).
    rewrite order_put. pose proof (vi_sorted _ V) as Hs. case_decide as Hb.
    + subst b. destruct (add_item_spec _ id (Hs a)) as [Hs' He]. split; [done|]. simpl.
      intros j [->|Hj]%He; [rewrite decide_True by done; rewrite Hel, Hh; auto|]. case_decide as Hjd; [|done].
      rewrite Hel, Hh. auto.
    + split; [done|]. intros j Hj. case_decide as Hjd; [subst j|done].
      destruct (vi_order _ V b id Hj) as (r0 & ? & ? & ?). simplify_eq. rewrite Hel, Hh. auto.
Qed.

Lemma V_hash now a id h r o s : ReportInfo s !! id = Some r → can_submit_hash r = Ok tt →
  id ∈ booked_report (committee_order s a) → VoteInv s →
  VoteInv (mutate_order a (λ _, order_add_hash id (committee_order s a))
    (mutate_ops a id (λ _, ops_add_hash h now o) (put_info id (add_hash a r) s))).
Proof.
  intros Hr Hcan Hb V. destruct (vi_order _ V a id Hb) as (r0 & ? & Hab & Hah). simplify_eq.
  set (s' := mutate_order _ _ _). destruct (vi_report _ V id r Hr) as [_ Hi].
  destruct (ri_hash _ (commitment s' id) id a r Hcan Hab Hi) as (Hi' & Hel & Hbk).
  apply (VoteInv_report s s' id r (add_hash a r)); try done.
  - intros j b Hj. unfold commitment.
    change (committee_ops s' b j) with (committee_ops (mutate_ops a id (λ _, ops_add_hash h now o) s) b j).
    rewrite ops_put, decide_False by naive_solver. done.
  - intros b. unfold s'. rewrite order_put. pose proof (vi_sorted _ V) as Hs. case_decide as Hba.
    + subst b. destruct (rm_item_spec _ id (Hs a)) as [Hs' He]. split; [done|]. simpl.
      intros j [Hj Hne]%He. by rewrite decide_False.
    + split; [apply Hs|]. intros j Hj. case_decide as Hjd; [subst j|done].
      destruct (vi_order _ V b id Hj) as (r0 & ? & ? & ?). simplify_eq. rewrite Hel, Hbk. naive_solver.
Qed.

Lemma V_raw now a id v m e x r o s : ReportInfo s !! id = Some r → report_status r = SubmittingRaw →
  a ∈ hashed_committee r → o = committee_ops s a id → opens id r v (confirm_hash o) → VoteInv s →
  VoteInv (put_info id (add_raw a v m e r) (mutate_ops a id (λ _, ops_add_raw now v x o)
    (mutate_order a (λ _, order_add_raw id (committee_order s a)) s))).
Proof.
  intros Hr Hst Ha -> Ho V. set (s1 := mutate_ops _ _ _ _).
  assert (∀ j b, commitment s1 j b = commitment s j b) as Hc.
  { intros j b. unfold commitment, s1. rewrite ops_put. by case_decide as Hd; [destruct Hd as [-> ->]|]. }
  assert (VoteInv s1) as V1.
  { revert V. apply VoteInv_shrink; [done..|]. intros b Hs.
    change (committee_order s1 b) with (committee_order (mutate_order a (λ _, order_add_raw id (committee_order s a)) s) b).
    rewrite order_put. case_decide; [by subst|done]. }
  destruct (vi_report _ V1 id r Hr) as [_ Hi].
  apply (VoteInv_report s1 _ id r (add_raw a v m e r)); try done.
  - intros Hi1. apply (ri_raw (commitment s1 id)); try done. by rewrite Hc.
  - intros b. split; [apply V1|]. intros j Hj. case_decide; [subst j|done].
    destruct (vi_order _ V1 b id Hj) as (r0 & Hr0 & ? & ?).
    change (ReportInfo s !! id = Some r0) in Hr0. simplify_eq.
    unfold add_raw. by destruct v, m.
Qed.

Lemma V_cancel s id r : ReportInfo s !! id = Some r → report_status r = Reported →
  VoteInv s → VoteInv (s <| ReportInfo ::= delete id |>).
Proof.
  intros Hr Hst V. destruct (vi_report _ V id r Hr) as [_ Hi]. destruct (ri_reported _ _ _ Hi Hst) as [Hb _].
  destruct V as [V1 V2 V3 V4]. split; simpl; try done.
  - intros j rj [Hne Hj]%lookup_delete_Some. exact (V1 j rj Hj).
  - intros a j Hj. destruct (V3 a j Hj) as (r0 & Hr0 & Ha & ?). exists r0. split; [|done].
    apply lookup_delete_Some. split; [|done]. intros <-. simplify_eq. rewrite Hb in Ha.
    by apply not_elem_of_nil in Ha.
Qed.

(** The member who is checking a report leaves it. *)
Lemma V_leave s a id r r' : ReportInfo s !! id = Some r → verifying_committee r = Some a →
  (∀ h, report_inv h id r → report_inv h id r') →
  (∀ b, b ≠ a → b ∈ booked_committee r → b ∈ booked_committee r') → hashed_committee r' = hashed_committee r →
  id ∉ booked_report (committee_order s a) →
  VoteInv s → VoteInv (put_info id r' s).
Proof.
  intros Hr Hv Hinv Hbk Hh Hid V. apply (VoteInv_report s _ id r r'); try done; [apply Hinv|].
  intros b. split; [apply V|]. intros j Hj. case_decide; [subst j|done].
  destruct (vi_order _ V b id Hj) as (r0 & ? & ? & ?). simplify_eq. rewrite Hh. split; [|done].
  apply Hbk; [|done]. intros ->. done.
Qed.
Lemma booked_rm s a id f : VoteInv s → (∀ o, booked_report (f o) = rm_item (booked_report o) id) →
  id ∉ booked_report (committee_order (mutate_order a f s) a).
Proof.
  intros V Hf. rewrite order_put, decide_True by done. rewrite Hf.
  destruct (rm_item_spec _ id (vi_sorted _ V a)) as [_ He]. rewrite He. naive_solver.
Qed.

(** What the invariant is about. *)
Definition ballot s := (NextReportId s, CommitteeOrder s, CommitteeOps s, ReportInfo s).
Lemma V_frame s s' : ballot s' = ballot s → VoteInv s → VoteInv s'.
Proof.
  intros [= HN HO HC HI]. apply VoteInv_shrink; [done..| |].
  - intros id r a _ _. unfold commitment, committee_ops. by rewrite HC.
  - intros a. unfold committee_order. rewrite HO. auto.
Qed.


Lemma V_event e s : VoteInv s → VoteInv (deposit_event e s).
Proof. by apply V_frame. Qed.
Lemma V_live f s : VoteInv s → VoteInv (s <| LiveReport ::= f |>).
Proof. by apply V_frame. Qed.

(** ** The calls *)
Section pallet.
Context {L RT : Type} `{!ReservableCurrency L}.
Context `{!ManageCommittee L RT, !MTOps L RT, !GNOps L RT, !TxFee L RT, !RentOrders RT} {P : PerThing}.
Abbreviation World := ((State * RT) * L)%type.
Implicit Types (w : World).

(** The calls that only move stakes. *)
Definition staking (c : Call) : bool :=
  match c with
  | SetReporterStakeParams _ | ReporterAddStakeCall _ | ReporterReduceStakeCall _
  | ApplySlashReviewCall _ _ | CancelReporterSlash _ => true
  | _ => false
  end.
Lemma staking_ballot now o c x : staking c = true → kept (part (L:=L) (RT:=RT) ballot x) (run_call T now o c).
Proof. destruct c; try done; intros _; simpl; part_steps. Qed.

Lemma report_ok_Ok {A} (r : result ReportErr A) w (a : A) w' :
  report_ok (L:=L) (RT:=RT) r w = (Ok a, w') → r = Ok a ∧ w' = w.
Proof. destruct r; simpl; [|done]. by intros [= -> ->]. Qed.
Ltac call_inv := repeat match goal with
  | H : report_ok _ _ = (Ok _, _) |- _ => apply report_ok_Ok in H as [? ->]
  end; run_inv; repeat match goal with
  | H : report_ok _ _ = (Ok _, _) |- _ => apply report_ok_Ok in H as [? ->]
  | H : rt_gets _ _ = (Ok _, _) |- _ => apply gets_Ok in H as [? ->]
  end; simplify_eq.

(** Of a call that other pallets take part in, its own storage. *)
Lemma part_id {E A} (m : M World E A) w (a : A) w' :
  (∀ x, kept (part (L:=L) (RT:=RT) id x) m) → m w = (Ok a, w') → w'.1.1 = w.1.1.
Proof. exact (part_Ok id m w a w'). Qed.

Lemma votes_book now o id w u w' : VoteInv w.1.1 →
  committee_book_report now o id w = (Ok u, w') → VoteInv w'.1.1.
Proof.
  intros V Hrun. unfold committee_book_report, is_valid_committee, get_stake_per_order in Hrun. call_inv.
  match goal with H : (if _ then _ else _) w = (Ok _, ?w1) |- _ =>
    assert (w1.1.1 = w.1.1) as -> by (eapply part_id; [|exact H]; intros y; part_steps) end.
  by apply V_event, V_book.
Qed.
Lemma votes_encrypted now o id to info w u w' : VoteInv w.1.1 →
  reporter_add_encrypted_error_info now o id to info w = (Ok u, w') → VoteInv w'.1.1.
Proof.
  intros V Hrun. unfold reporter_add_encrypted_error_info in Hrun. call_inv.
  match goal with H : ReportInfo _ !! id = Some ?r |- _ => rename r into r0, H into Hr end.
  apply V_event.
  assert (VoteInv (put_info id (r0 <| get_encrypted_info_committee ::= λ l, add_item l to |>) w.1.1)) as V1.
  { apply (V_put _ id r0); try done. intros h []. by split. }
  revert V1. apply VoteInv_shrink; [done..| |by intros b Hs; split]. intros j r a _ _. unfold commitment.
  rewrite ops_put. by case_decide as Hd; [destruct Hd as [-> ->]|].
Qed.
Lemma votes_hash now o id h w u w' : VoteInv w.1.1 →
  committee_submit_verify_hash now o id h w = (Ok u, w') → VoteInv w'.1.1.
Proof.
  intros V Hrun. unfold committee_submit_verify_hash in Hrun. call_inv.
  match goal with H : order_can_submit_hash id (committee_order _ ?a) = Ok _ |- _ =>
    assert (id ∈ booked_report (committee_order w.1.1 a)) as Hb;
    [unfold order_can_submit_hash in H; destruct (is_ok _) eqn:Hok; [|done];
     by apply is_ok_search in Hok; [|apply (vi_sorted _ V)]|] end.
  apply V_event. match goal with |- VoteInv (mutate_order ?a _ (mutate_ops _ _ _ (put_info _ _ ?s))) =>
    apply (V_hash now a id h _ _ s) end; [done..|]. revert V. by apply V_frame.
Qed.
#[local] Arguments add_raw : simpl never.
Lemma can_submit_raw_Ok a r : can_submit_raw a r = Ok tt →
  report_status r = SubmittingRaw ∧ is_ok (binary_search (hashed_committee r) a) = true.
Proof. unfold can_submit_raw. case_bool_decide; [|done]. by destruct (is_ok _). Qed.
Lemma votes_raw now o id m rent rr cr er x v w u w' : VoteInv w.1.1 →
  committee_submit_verify_raw T now o id m rent rr cr er x v w = (Ok u, w') → VoteInv w'.1.1.
Proof.
  intros V Hrun. unfold committee_submit_verify_raw in Hrun. call_inv.
  match goal with H : ReportInfo _ !! id = Some ?r |- _ => rename H into Hr; destruct (vi_report _ V id r Hr) as [_ Hi] end.
  match goal with H : can_submit_raw _ _ = Ok _ |- _ => apply can_submit_raw_Ok in H as [Hst Hin] end.
  apply is_ok_search in Hin; [|apply Hi]. apply V_event, V_raw; try done.
  unfold opens. unfold get_reporter_hash in *. case_match; simplify_eq. by exists m, rent, rr, cr, er.
Qed.
Lemma votes_inaccessible_raw now o id cr v w u w' : VoteInv w.1.1 →
  committee_submit_inaccessible_raw T now o id cr v w = (Ok u, w') → VoteInv w'.1.1.
Proof.
  intros V Hrun. unfold committee_submit_inaccessible_raw in Hrun. call_inv.
  match goal with H : ReportInfo _ !! id = Some ?r |- _ => rename H into Hr; destruct (vi_report _ V id r Hr) as [_ Hi] end.
  match goal with H : can_submit_inaccessible_raw _ _ = Ok _ |- _ => unfold can_submit_inaccessible_raw in H end.
  case_bool_decide as Hst; [|done]. destruct (is_inaccessible _) eqn:Hf; [|done].
  destruct (is_ok _) eqn:Hin; [|done]. apply is_ok_search in Hin; [|apply Hi]. apply V_event.
  match goal with |- VoteInv (mutate_order ?a _ (mutate_ops _ _ _ (put_info _ (add_raw _ _ _ _ ?r) _))) =>
    apply (V_frame (put_info id (add_raw a v None [] r) (mutate_ops a id (λ _, ops_add_raw now v [] (committee_ops w.1.1 a id))
      (mutate_order a (λ _, order_add_raw id (committee_order w.1.1 a)) w.1.1)))); [reflexivity|] end.
  apply V_raw; try done. unfold opens. destruct (machine_fault_type _); try done. by exists cr.
Qed.
Lemma votes_cancel o id w u w' : VoteInv w.1.1 → reporter_cancel_report o id w = (Ok u, w') → VoteInv w'.1.1.
Proof.
  intros V Hrun. unfold reporter_cancel_report in Hrun. call_inv. apply V_event.
  apply (V_frame (w.1.1 <| ReportInfo ::= delete id |>)); [reflexivity|]. by eapply V_cancel.
Qed.
Lemma do_report_run now a f t lr rr w :
  do_report_machine_fault now a f t lr rr w =
  match ReporterStakeParams w.1.1 with
  | None => (Err (Module GetStakeAmountFailed), w)
  | Some p =>
      let n := NextReportId w.1.1 in
      (Ok (live_new_report n lr, reporter_new_report n rr),
       ((deposit_event (ReportMachineFault a f) (put_info n
          (new_report a (default now t) f (stake_per_report p)) (get_new_report_id w.1.1).2), w.1.2), w.2))
  end.
Proof. unfold do_report_machine_fault, own_gets. rewrite bind_gets. by destruct (ReporterStakeParams w.1.1). Qed.
Lemma votes_report now o f w u w' : VoteInv w.1.1 → NextReportId w.1.1 < U64_MAX →
  report_machine_fault now o f w = (Ok u, w') → VoteInv w'.1.1.
Proof.
  intros V HN Hrun. unfold report_machine_fault in Hrun. run_inv.
  match goal with H : _ w = (Ok _, ?w1), H' : pay_stake_when_report _ ?w1 = (Ok _, ?w2),
      H'' : do_report_machine_fault _ _ _ _ _ _ ?w2 = (Ok _, ?w3) |- _ =>
    assert (ballot w2.1.1 = ballot w.1.1) as Hb;
    [etrans; [eapply part_Ok; [|exact H']; intros y; by apply part_pay|
      eapply part_Ok; [|exact H]; intros y; case_match; part_steps]|];
    assert (VoteInv w2.1.1) as V2 by (by apply (V_frame w.1.1));
    apply (V_frame w3.1.1); [reflexivity|]; rewrite do_report_run in H'';
    destruct (ReporterStakeParams w2.1.1); [|done]; injection H'' as _ <- end.
  apply V_event, V_new; [done|]. by injection Hb as ->.
Qed.
Lemma votes_call now o c w : VoteInv w.1.1 → NextReportId w.1.1 < U64_MAX → VoteInv (dispatch T now o c w).2.1.1.
Proof.
  intros V HN. apply (transactional_preserves (λ w, VoteInv w.1.1)); [done|]. intros u w' Hrun.
  destruct (staking c) eqn:Hc.
  - apply (V_frame w.1.1); [|done]. eapply part_Ok; [|exact Hrun]. intros x. by apply staking_ballot.
  - destruct c; try done; simpl in Hrun;
      [exact (votes_report _ _ _ _ _ _ V HN Hrun)|exact (votes_cancel _ _ _ _ _ V Hrun)
      |exact (votes_book _ _ _ _ _ _ V Hrun)|exact (votes_encrypted _ _ _ _ _ _ _ _ V Hrun)
      |exact (votes_hash _ _ _ _ _ _ _ V Hrun)|exact (votes_raw _ _ _ _ _ _ _ _ _ _ _ _ _ V Hrun)
      |exact (votes_inaccessible_raw _ _ _ _ _ _ _ _ V Hrun)].
Qed.

(** ** The hooks *)

(** The invariant with [n] report ids left. *)
Definition counted (n : nat) w : Prop := VoteInv w.1.1 ∧ NextReportId w.1.1 + Z.of_nat n ≤ U64_MAX.
Definition known (n : nat) id r w : Prop := counted n w ∧ ReportInfo w.1.1 !! id = Some r.

Lemma counted_frame n w w' : ballot w'.1.1 = ballot w.1.1 → counted n w → counted n w'.
Proof. intros Hb [V HN]. split; [by apply (V_frame w.1.1)|]. by injection Hb as ->. Qed.
Lemma known_frame n id r w w' : ballot w'.1.1 = ballot w.1.1 → known n id r w → known n id r w'.
Proof. intros Hb [Hc Hr]. split; [by apply (counted_frame n w)|]. by injection Hb as _ _ _ ->. Qed.
Lemma known_part {E A} n id r (m : M World E A) :
  (∀ x, kept (part (L:=L) (RT:=RT) ballot x) m) → kept (known n id r) m.
Proof. intros Hm w Hw. apply (known_frame n id r w); [exact (Hm _ w eq_refl)|done]. Qed.
Lemma counted_part {E A} n (m : M World E A) :
  (∀ x, kept (part (L:=L) (RT:=RT) ballot x) m) → kept (counted n) m.
Proof. intros Hm w Hw. apply (counted_frame n w); [exact (Hm _ w eq_refl)|done]. Qed.
(** A write that keeps the invariant and the report. *)
Lemma known_put n id r f :
  (∀ s, ReportInfo (f s) = ReportInfo s ∧ NextReportId (f s) = NextReportId s) →
  (∀ s, ReportInfo s !! id = Some r → VoteInv s → VoteInv (f s)) → kept (onchain (known n id r)) (put f).
Proof.
  intros Hf HV. apply kept_put. intros s h l [[V HN] Hr]. destruct (Hf s) as [Hi Hn].
  unfold known, counted in *. simpl in *. rewrite Hi, Hn. auto.
Qed.

Lemma read_report {A} n id (k : MTReportInfoDetail → M (World * MTLiveReportList) unit A) :
  (∀ r, triple (onchain (known n id r)) (k r) (onchain (counted n))) →
  kept (onchain (counted n)) (own (λ s, ReportInfo s !! id) ≫= λ maybe, ok_or maybe tt ≫= k).
Proof.
  intros Hk. apply triple_own. intros y Hy. apply triple_ok_or; [by intros x [? _]|].
  intros r Hr x [Hx He]. apply Hk. split; [done|]. by rewrite He.
Qed.

Lemma known_unvoted n id r w : known n id r w →
  report_status r = Verifying ∨ report_status r = WaitingBook → ∀ a, a ∉ confirmed_committee r.
Proof. intros [[V _] Hr] Hst. destruct (vi_report _ V id r Hr) as [_ Hi]. apply (ri_unvoted _ _ _ Hi). naive_solver. Qed.
Lemma known_verifying n id r w a : known n id r w → verifying_committee r = Some a →
  a ∈ booked_committee r ∧ (a ∉ hashed_committee r) ∧ (a ∉ confirmed_committee r).
Proof.
  intros [[V _] Hr] Hv. destruct (vi_report _ V id r Hr) as [_ Hi]. destruct (ri_verifying _ _ _ Hi a Hv).
  split_and!; [done..|]. intros Hc. apply (ri_confirmed _ _ _ Hi) in Hc. done.
Qed.
Lemma shrinks_clean id : shrinks (clean_unfinished_order id).
Proof. by apply (shrinks_rm id). Qed.

Lemma known_drop n id r a : a ∉ confirmed_committee r →
  kept (onchain (known n id r)) (put (L:=L) (RT:=RT) (λ s, s <| CommitteeOps ::= delete (a, id) |>)).
Proof. intros Ha. apply known_put; [done|]. intros s Hr. by apply (V_drop_ops s a id r). Qed.
Lemma known_order n id r a f : shrinks f → kept (onchain (known n id r)) (put (L:=L) (RT:=RT) (mutate_order a f)).
Proof. intros Hf. apply known_put; [done|]. intros s _. by apply V_order. Qed.
Lemma known_other n id r f : (∀ s, ballot (f s) = ballot s) → kept (onchain (known n id r)) (put (L:=L) (RT:=RT) f).
Proof. intros Hf. apply kept_on_chain, known_part. intros x. by apply part_own. Qed.
Lemma counted_other n f : (∀ s, ballot (f s) = ballot s) → kept (onchain (counted n)) (put (L:=L) (RT:=RT) f).
Proof. intros Hf. apply kept_on_chain, counted_part. intros x. by apply part_own. Qed.

Lemma known_release n id r a : a ∉ confirmed_committee r → kept (known n id r) (release_member (L:=L) (RT:=RT) id a).
Proof.
  intros Ha. unfold release_member. kept_step. apply kept_bind; [apply known_part; intros x; part_steps|intros _].
  apply kept_bind.
  - intros w [[V HN] Hr]. split; [|done]. split; [by apply (V_drop_ops _ a id r)|done].
  - intros _ w [[V HN] Hr]. split; [|done]. split; [|done]. apply V_order; [apply shrinks_clean|done].
Qed.

(** The member who is checking a report, and is late, leaves it. *)
Lemma V_late s a id r : ReportInfo s !! id = Some r → report_status r = Verifying →
  verifying_committee r = Some a → a ∉ confirmed_committee r → VoteInv s →
  VoteInv ((put_info id (clean_not_submit_hash_committee a r)
    (mutate_order a (λ o, o <| booked_report ::= λ l, rm_item l id |>) s)) <| CommitteeOps ::= delete (a, id) |>).
Proof.
  intros Hr Hst Hv Hna V. eapply V_drop_ops; [apply lookup_insert_eq| |].
  { unfold clean_not_submit_hash_committee. by case_match. }
  apply (V_leave _ a id r); try done.
  - intros h Hi. by apply (ri_clean_hash h).
  - intros b Hb Hbb. unfold clean_not_submit_hash_committee.
    destruct (vi_report _ V id r Hr) as [_ Hi]. destruct (rm_item_spec _ a (proj1 (ri_booked _ _ _ Hi))) as [_ He].
    case_match; simpl; by apply He.
  - unfold clean_not_submit_hash_committee. by case_match.
  - by apply booked_rm.
  - apply V_order; [by apply (shrinks_rm id)|done].
Qed.

(** Steps of a hook that keep the invariant and the report it works on. *)
Ltac known_step :=
  lazymatch goal with
  | |- triple _ (live _ ≫= _) _ => apply triple_seq; [by intros ? []|apply kept_live|intros []]
  | |- triple _ (ok_or _ _ ≫= _) _ => apply triple_ok_or; [by intros ? []|intros ? ?]
  | |- triple _ (own _ ≫= _) _ =>
      apply triple_seq; [by intros ? []|by intros ?|intros ?]
  | |- triple _ (put _ ≫= _) _ =>
      apply triple_seq; [by intros ? []|apply known_other; intros ?; reflexivity|intros []]
  | |- triple _ (put _) _ => apply triple_kept; [apply known_other; intros ?; reflexivity|by intros ? []]
  | |- triple _ (mret _) _ => apply triple_mret; by intros ? []
  end.

Lemma known_pure n id r (A : Prop) {E B} (m : M (World * MTLiveReportList) E B) Q :
  (∀ w, known n id r w → A) → (A → triple (onchain (known n id r)) m Q) → triple (onchain (known n id r)) m Q.
Proof. intros HA Hm x Hx. exact (Hm (HA _ Hx) x Hx). Qed.

Lemma votes_before now id rr res n : kept (onchain (counted n)) (summary_before_submit_raw (L:=L) (RT:=RT) now id rr res).
Proof.
  apply read_report. intros r. destruct (bool_decide _) eqn:Hst; cbn [negb]; [|known_step].
  apply bool_decide_eq_true in Hst.
  apply (known_pure n id r _ _ _ (λ w Hw, known_unvoted n id r w Hw (or_introl Hst))). intros Hno.
  apply triple_ok_or; [by intros ? []|intros v Hv]. known_step. case_match.
  - known_step. apply triple_seq; [by intros ? []| |intros []].
    { apply kept_for_each. intros b _. apply kept_on_chain, known_release, Hno. }
    repeat known_step.
  - case_match; [|known_step]. known_step.
    apply (triple_put _ (λ x, VoteInv ((put_info id (clean_not_submit_hash_committee v r) x.1.1.1)
      <| CommitteeOps ::= delete (v, id) |>) ∧ NextReportId x.1.1.1 + Z.of_nat n ≤ U64_MAX)).
    { intros s h l c [[V HN] Hr]. split; [|done]. by apply (V_late s v id r). }
    apply (triple_put _ (λ x, VoteInv (x.1.1.1 <| CommitteeOps ::= delete (v, id) |>) ∧
      NextReportId x.1.1.1 + Z.of_nat n ≤ U64_MAX)); [done|].
    apply (triple_put _ (onchain (counted n))); [done|].
    apply triple_seq; [done|by apply counted_other|intros _]. apply triple_kept; [by apply counted_other|done].
Qed.
Lemma votes_after now id n : kept (onchain (counted n)) (summary_after_submit_raw (L:=L) (RT:=RT) now id).
Proof.
  unfold summary_after_submit_raw. apply kept_bind; [apply kept_live|intros _].
  apply read_report. intros r. case_bool_decide as Hst.
  { apply triple_put_last. intros s h l c [[V HN] Hr]. split; [|done]. apply V_status; auto. }
  apply triple_ok_or; [by intros ? []|intros v Hv]. known_step. case_match; [|known_step].
  apply (known_pure n id r _ _ _ (λ w Hw, known_verifying n id r w v Hw Hv)). intros (Hb & Hh & Hc).
  apply (triple_put _ (λ x, onchain (known n id r) x ∧ id ∉ booked_report (committee_order x.1.1.1 v))).
  { intros s h l c [[V HN] Hr]. split; [|by apply booked_rm].
    split; [|done]. split; [|done]. apply V_order; [apply shrinks_clean|done]. }
  apply triple_seq; [by intros x [[]]| |intros []].
  { intros x [Hk Hi]. split; [|done]. apply (kept_on_chain (known n id r)); [|done]. apply known_part. intros y. part_steps. }
  apply triple_seq; [by intros x [[]]| |intros []].
  { intros x [Hk Hi]. split; [|done]. by apply known_drop. }
  apply triple_own. intros y [[_ Hy] _]. cbn in Hy. rewrite Hy. apply triple_ok_or; [by intros x [[[]] _]|].
  intros r0 [= <-]. apply triple_put_last. intros s h l c [[[[V HN] Hr] Hi] _]. split; [|done].
  apply (V_leave s v id r); try done; [intros g; by apply ri_clean_raw|].
  intros b Hne Hbb. destruct (vi_report _ V id r Hr) as [_ Hri].
  destruct (rm_item_spec _ v (proj1 (ri_booked _ _ _ Hri))) as [_ He]. by apply He.
Qed.
Lemma votes_verifying now id n : kept (onchain (counted n)) (summary_verifying_report (L:=L) (RT:=RT) now id).
Proof.
  unfold summary_verifying_report. apply kept_bind; [by intros ?|intros v]. apply read_report. intros r.
  apply triple_ensure; [by intros ? []|intros _]. known_step. case_match.
  - intros x [Hx _]. by apply votes_before.
  - intros x [Hx _]. by apply votes_after.
Qed.

Lemma budget_down n w : counted (S n) w → counted n w.
Proof. intros [V HN]. split; [done|lia]. Qed.
Lemma known_down n id r w : known (S n) id r w → known n id r w.
Proof. intros [Hc Hr]. split; [by apply budget_down|done]. Qed.
Lemma read_last_report {A} n id (k : MTReportInfoDetail → M (World * MTLiveReportList) unit A) :
  (∀ r, triple (onchain (known (S n) id r)) (k r) (onchain (counted n))) →
  triple (onchain (counted (S n))) (own (λ s, ReportInfo s !! id) ≫= λ maybe, ok_or maybe tt ≫= k) (onchain (counted n)).
Proof.
  intros Hk. apply triple_own. intros y Hy. apply triple_ok_or; [by intros x [? _]; apply budget_down|].
  intros r Hr x [Hx He]. apply Hk. split; [done|]. by rewrite He.
Qed.
(** Reporting anew uses a fresh id. *)
Lemma known_again now n id r info reports :
  triple (onchain (known (S n) id r)) (report_again (L:=L) (RT:=RT) now info reports) (onchain (known n id r)).
Proof.
  intros [w c] [[V HN] Hr]. unfold report_again. cbn [fst snd]. rewrite do_report_run. cbn [fst] in *.
  assert (NextReportId w.1.1 < U64_MAX) as HN' by lia. assert (id < NextReportId w.1.1) as Hid by apply (vi_report _ V id r Hr).
  destruct (ReporterStakeParams w.1.1); [|split; [split; [done|cbn in *; lia]|done]].
  split; [split|].
  - by apply V_event, V_new.
  - cbn. destruct (Z.eqb_spec (NextReportId w.1.1) U64_MAX); lia.
  - cbn. rewrite lookup_insert_ne; [done|lia].
Qed.

Lemma known_finish n id r a : kept (onchain (known n id r)) (put (L:=L) (RT:=RT) (finish_order id a)).
Proof. apply known_order. by apply shrinks_same. Qed.
Lemma known_drop_order n id r a : a ∉ confirmed_committee r →
  kept (onchain (known n id r)) (put (L:=L) (RT:=RT) (drop_order id a)).
Proof.
  intros Ha. apply known_put; [done|]. intros s Hr V. apply V_order; [by apply (shrinks_rm id)|].
  by apply (V_drop_ops s a id r).
Qed.
Lemma summary_none r : summary r = NoConsensus → ∀ a, a ∉ confirmed_committee r.
Proof.
  unfold summary. destruct (Nat.eqb_spec (length (confirmed_committee r)) 0) as [Hz|]; [|by case_match].
  apply nil_length_inv in Hz. rewrite Hz. intros _ a. apply not_elem_of_nil.
Qed.
Lemma votes_submitting now id n :
  triple (onchain (counted (S n))) (summary_submitting_raw (L:=L) (RT:=RT) now id) (onchain (counted n)).
Proof.
  unfold summary_submitting_raw. apply triple_seq; [intros x; apply budget_down|by intros ?|intros v].
  apply read_last_report. intros r. destruct (can_summary now r); cbn [negb];
    [|apply triple_mret; intros ? []; by apply budget_down].
  assert (∀ x, onchain (C:=MTLiveReportList) (known (S n) id r) x → onchain (counted n) x) as Hd
    by (intros x []; by apply budget_down).
  apply triple_seq; [done|apply kept_live|intros _]. apply triple_seq; [done|by intros ?|intros current]. cbv zeta.
  apply (triple_bind _ (onchain (known n id r))); [by intros x []| |intros _].
  - destruct (summary r) as [sup ag e|sup ag|] eqn:Hsum.
    + apply triple_kept; [|intros x; apply known_down]. apply kept_bind; [apply kept_for_each; intros b _; apply known_finish|].
      intros _. apply kept_on_chain, known_part. intros y. apply piece_callee.
    + apply triple_kept; [|intros x; apply known_down]. apply kept_for_each. intros b _. apply known_finish.
    + apply triple_seq; [intros x; apply known_down|apply kept_for_each; intros b _; by apply known_drop_order, summary_none|].
      intros _. apply triple_seq; [intros x; apply known_down|by intros ?|intros reports].
      apply (triple_bind _ (onchain (known n id r))); [done|apply known_again|intros again].
      apply triple_kept; [by apply known_other|done].
  - do 2 known_step. apply triple_put_last. intros s h l c [[V HN] Hr]. split; [|done].
    case_bool_decide; [|apply V_status; auto]. by apply (V_put s id r).
Qed.

Lemma known_close n id r a : kept (onchain (known n id r)) (put (L:=L) (RT:=RT) (close_order id r a)).
Proof.
  apply known_put; [by intros s; unfold close_order; case_match|]. intros s Hr V.
  destruct (vi_report _ V id r Hr) as [_ Hi]. unfold close_order. cbn zeta.
  destruct (is_confirmed_committee a r) eqn:Hc.
  - revert V. apply VoteInv_shrink; try done. intros b Hs. rewrite order_put. case_decide; [by subst|done].
  - assert (a ∉ confirmed_committee r) as Hna.
    { unfold is_confirmed_committee in Hc. rewrite <-(is_ok_search _ _ (proj1 (ri_confirmed _ _ _ Hi))). congruence. }
    apply (V_drop_ops s a id r Hr Hna) in V. revert V. apply VoteInv_shrink; try done. intros b Hs.
    rewrite order_put. case_decide; [subst b|done]. simpl.
    destruct (rm_item_spec _ id Hs) as [Hs' He]. split; [done|]. by intros j [? _]%He.
Qed.
Lemma votes_inaccessible now id n :
  triple (onchain (counted (S n))) (summary_inaccessible_report (L:=L) (RT:=RT) now id) (onchain (counted n)).
Proof.
  apply read_last_report. intros r.
  assert (∀ x, onchain (C:=MTLiveReportList) (known (S n) id r) x → onchain (counted n) x) as Hd
    by (intros x []; by apply budget_down).
  apply triple_ensure; [done|intros _]. case_match.
  { case_match; [|by apply triple_mret]. apply triple_seq; [done|apply kept_live|intros _].
    apply triple_put_last. intros s h l c [[V HN] Hr]. split; [apply V_status; auto|cbn in *; lia]. }
  apply triple_seq; [done|by intros ?|intros machine]. apply triple_ok_or; [done|intros i _].
  apply triple_seq; [done|apply kept_live|intros _]. apply triple_seq; [done|by intros ?|intros reports]. cbv zeta.
  apply triple_seq; [done|apply kept_for_each; intros b _; apply known_close|intros _]. case_match.
  - apply (triple_bind _ (onchain (known n id r))); [by intros x []|apply known_again|intros again].
    apply triple_ensure; [by intros ? []|intros _].
    apply triple_seq; [by intros ? []| |intros _; known_step].
    case_match; [|apply kept_mret]. apply kept_bind; [by apply known_other|intros _; by apply known_other].
  - apply triple_seq; [done| |intros _].
    { case_match; [|apply kept_mret]. apply kept_on_chain, known_part. intros y. apply piece_callee. }
    case_match. apply triple_seq; [done|by apply known_other|intros _].
    apply (triple_put _ (onchain (counted n))).
    { intros s h y c [[V HN] Hr]. split; [apply V_status; auto|cbn in *; lia]. }
    apply triple_seq; [done|apply kept_live|intros _]. apply triple_seq; [done|by apply counted_other|intros _].
    apply triple_kept; [by apply counted_other|done].
Qed.

Lemma counted_le k n w : (n ≤ k)%nat → counted k w → counted n w.
Proof. intros Hle [V HN]. split; [done|lia]. Qed.
Lemma votes_fault_hook now w n : counted (length (waiting_raw_report (LiveReport w.1.1)) + n) w →
  counted n (summary_fault_hook now w).2.
Proof.
  intros Hw. unfold summary_fault_hook, on_live_report. rewrite bind_gets. cbn [fst snd].
  match goal with |- counted n (own_modify _ (?m ?x).2.1).2 => enough (onchain (counted n) (m x).2) as Hm end.
  { eapply counted_frame; [|exact Hm]. reflexivity. }
  apply (triple_seq (onchain (counted (length (waiting_raw_report (LiveReport w.1.1)) + n)))); [|..|done].
  - intros x. apply counted_le. lia.
  - apply kept_for_each. intros id _. apply kept_ignore, votes_verifying.
  - intros _. apply (for_each_budget (λ n, onchain (counted n))); [intros k x; apply budget_down|].
    intros id k x Hx. exact (votes_submitting now id k x Hx).
Qed.
Lemma votes_inaccessible_hook now w n :
  counted (length (verifying_report (LiveReport w.1.1)) + length (bookable_report (LiveReport w.1.1)) +
    length (waiting_raw_report (LiveReport w.1.1)) + n) w → counted n (summary_inaccessible_hook now w).2.
Proof.
  intros Hw. unfold summary_inaccessible_hook, on_live_report. rewrite bind_gets. cbn [fst snd].
  match goal with |- counted n (own_modify _ (?m ?x).2.1).2 => enough (onchain (counted n) (m x).2) as Hm end.
  { eapply counted_frame; [|exact Hm]. reflexivity. }
  apply (for_each_budget (λ n, onchain (counted n))); [intros k x; apply budget_down| |].
  - intros id k x Hx. exact (votes_inaccessible now id k x Hx).
  - rewrite !length_app. by rewrite Nat.add_assoc.
Qed.
Lemma ballot_initialize now x : kept (part (L:=L) (RT:=RT) ballot x) (on_initialize now).
Proof. part_steps; by apply part_close. Qed.

Lemma counted_left w : VoteInv w.1.1 → ids_left w.1.1 →
  counted (length (verifying_report (LiveReport w.1.1)) + length (bookable_report (LiveReport w.1.1)) +
    length (waiting_raw_report (LiveReport w.1.1)) + 0) w.
Proof. intros V Hl. split; [done|]. unfold ids_left in Hl. lia. Qed.
Lemma votes_step c c' : step T c c' → VoteInv c.2.1.1 → VoteInv c'.2.1.1.
Proof.
  intros [now o call w Hl|now w Hl Hl'|now s h h' l l'] V; cbn [fst snd] in *; [| |exact V].
  - apply votes_call; [done|]. unfold ids_left in Hl. lia.
  - match goal with |- VoteInv ((on_initialize ?t ?w1).2).1.1 =>
      apply (V_frame w1.1.1); [exact (ballot_initialize t _ w1 eq_refl)|] end.
    unfold on_finalize.
    assert (VoteInv (summary_fault_hook now w).2.1.1) as V1.
    { apply (votes_fault_hook now w 0). apply (counted_le _ _ _) with (2 := counted_left w V Hl). lia. }
    change ((summary_fault_hook now ≫= λ _, summary_inaccessible_hook now) w) with
      (summary_inaccessible_hook now (summary_fault_hook now w).2).
    by apply (votes_inaccessible_hook now _ 0), counted_left.
Qed.
Lemma votes_genesis : VoteInv genesis.
Proof.
  split; [done..| |]; intros a; unfold committee_order; simpl; rewrite lookup_empty; simpl; [|apply sorted_nil].
  by intros id ?%not_elem_of_nil.
Qed.
Lemma votes_reachable c : reachable T c → VoteInv c.2.1.1.
Proof.
  intros (now & h & l & _ & Hr). apply (rtc_invariant (step T) (λ c, VoteInv c.2.1.1)) in Hr; try done.
  - intros x y Hs V. exact (votes_step x y Hs V).
  - apply votes_genesis.
Qed.
End pallet.
End votes.
End MaintainVotes.
