(* ===== verification/MaintainSlashes.v ===== *)
(** * pallet-maintain-committee: when slashes and appeals are executed

    Every result that may slash waits in the queue of a block of the next two
    days and is executed there unless it is cancelled before; every appeal is
    executed at the beginning of the next block. *)
From stdpp Require Import base gmap fin_maps list numbers relations.
From Stdlib Require Import ZArith Lia Strings.Byte.
From S2P Require Import Prelude Currency Interfaces ItemList VerifyOnline RentalTypes RentalInterfaces ReportTypes MaintainCommittee MaintainSteps.

Module MaintainSlashes.
Import ItemList Report MaintainCommittee MaintainSteps.

Section dues.
Implicit Types (s : State) (id : ReportId) (t now : BlockNumber).

(** What the invariant is about. *)
Definition dues s := (ReportResult s, UnhandledReportResult s, PendingSlashReview s).

Record Due now s : Prop := {
  du_pending id r : ReportResult s !! id = Some r → Result.slash_result r = Result.Pending →
    now < Result.slash_exec_time r ≤ now + TWO_DAYS ∧ id ∈ unhandled_report_result s (Result.slash_exec_time r);
  du_queue t : sorted (unhandled_report_result s t) ∧
    ∀ id, id ∈ unhandled_report_result s t → is_Some (ReportResult s !! id);
  du_review id v : PendingSlashReview s !! id = Some v →
    apply_time v = now ∧ now < expire_time v ∧ is_Some (ReportResult s !! id);
}.
Lemma Due_frame now s s' : dues s' = dues s → Due now s → Due now s'.
Proof. intros [= HR HU HP] [D1 D2 D3]. split; unfold unhandled_report_result in *; rewrite ?HR, ?HU, ?HP; assumption. Qed.

Lemma queue_update s id b t u :
  unhandled_report_result (update_unhandled_report id b t s) u =
    if decide (u = t) then (if b then add_item else rm_item) (unhandled_report_result s t) id
    else unhandled_report_result s u.
Proof.
  unfold unhandled_report_result, update_unhandled_report. simpl. rewrite lookup_insert.
  destruct (decide (t = u)), (decide (u = t)); try by simplify_eq. by destruct b.
Qed.

(** A result is recorded and queued; it is replaced by one no longer pending. *)
Lemma Due_record now s id r :
  now < Result.slash_exec_time r ≤ now + TWO_DAYS → Due now s →
  Due now (put_result id r (update_unhandled_report id true (Result.slash_exec_time r) s)).
Proof.
  intros Ht [D1 D2 D3]. set (s1 := update_unhandled_report _ _ _ _).
  assert (∀ u, unhandled_report_result (put_result id r s1) u = unhandled_report_result s1 u) as Hq by done.
  assert (∀ j u, j ∈ unhandled_report_result s u → j ∈ unhandled_report_result s1 u) as Hmono.
  { intros j u Hj. unfold s1. rewrite queue_update. case_decide; [subst u|done].
    apply (add_item_spec _ _ (proj1 (D2 _))). auto. }
  split.
  - intros j rj. simpl. rewrite lookup_insert, Hq. case_decide as Hj; [subst j; intros [= <-] _|].
    + split; [done|]. unfold s1. rewrite queue_update, decide_True by done.
      apply (add_item_spec _ _ (proj1 (D2 _))). auto.
    + intros Hrj Hp. destruct (D1 j rj Hrj Hp). auto.
  - intros u. rewrite Hq. unfold s1. rewrite queue_update. simpl.
    assert (∀ j, j = id ∨ is_Some (ReportResult s !! j) → is_Some (<[id:=r]> (ReportResult s) !! j)) as Hi.
    { intros j. rewrite lookup_insert. case_decide; [done|]. intros [->|?]; done. }
    destruct (D2 u) as [Hs Hu]. case_decide as Hut; [subst u|split; [done|auto]].
    destruct (add_item_spec _ id Hs) as [Hs' He]. split; [done|]. intros j [->|?]%He; auto.
  - intros j v Hv. destruct (D3 j v Hv) as (? & ? & ?). split_and!; [done..|].
    simpl. rewrite lookup_insert. case_decide; done.
Qed.
Lemma Due_settle now s id r t x :
  ReportResult s !! id = Some r → Result.slash_result x ≠ Result.Pending → Due now s →
  Due now (put_result id x (update_unhandled_report id false t s)).
Proof.
  intros Hr Hx [D1 D2 D3]. set (s1 := update_unhandled_report _ _ _ _).
  assert (∀ u, unhandled_report_result (put_result id x s1) u = unhandled_report_result s1 u) as Hq by done.
  assert (∀ j, is_Some (ReportResult s !! j) → is_Some (<[id:=x]> (ReportResult s) !! j)) as Hi.
  { intros j. rewrite lookup_insert. by case_decide. }
  split.
  - intros j rj. simpl. rewrite lookup_insert, Hq. case_decide as Hj; [subst j; by intros [= <-]|].
    intros Hrj Hp. destruct (D1 j rj Hrj Hp) as [? Hin]. split; [done|]. unfold s1. rewrite queue_update.
    case_decide as Hu; [|done]. rewrite Hu in Hin.
    apply (rm_item_spec _ _ (proj1 (D2 _))). auto.
  - intros u. rewrite Hq. unfold s1. rewrite queue_update. simpl.
    destruct (D2 u) as [Hs Hu]. case_decide as Hut; [subst u|split; [done|auto]].
    destruct (rm_item_spec _ id Hs) as [Hs' He]. split; [done|]. intros j [? ?]%He; auto.
  - intros j v Hv. destruct (D3 j v Hv) as (? & ? & ?). split_and!; [done..|]. by apply Hi.
Qed.
Lemma Due_drop_review now s id : Due now s → Due now (s <| PendingSlashReview ::= delete id |>).
Proof. intros [D1 D2 D3]. split; [done..|]. simpl. intros j v [_ Hv]%lookup_delete_Some. auto. Qed.
Lemma Due_apply now s id v : apply_time v = now → now < expire_time v → is_Some (ReportResult s !! id) →
  Due now s → Due now (s <| PendingSlashReview ::= <[id := v]> |>).
Proof.
  intros Ha He Hr [D1 D2 D3]. split; [done..|]. simpl. intros j v'. rewrite lookup_insert.
  case_decide; [subst j; by intros [= <-]|apply D3].
Qed.
End dues.

(** ** The calls and the summaries *)
Section pallet.
Context {L RT : Type} `{!ReservableCurrency L}.
Context `{!ManageCommittee L RT, !MTOps L RT, !GNOps L RT, !TxFee L RT, !RentOrders RT} {P : PerThing}.
Context (T : Config).
Abbreviation World := ((State * RT) * L)%type.
Implicit Types (w : World) (now : BlockNumber) (id : ReportId).

(** The calls that neither apply for a review nor cancel a slash. *)
Definition reporting (c : Call) : bool :=
  match c with ApplySlashReviewCall _ _ | CancelReporterSlash _ => false | _ => true end.
Lemma reporting_dues now o c x : reporting c = true → kept (part (L:=L) (RT:=RT) dues x) (run_call T now o c).
Proof. destruct c; try done; intros _; simpl; part_steps. Qed.

Definition due now w : Prop := Due now w.1.1.
Lemma due_part {E A} now (m : M World E A) : (∀ x, kept (part (L:=L) (RT:=RT) dues x) m) → kept (due now) m.
Proof. intros Hm w Hw. apply (Due_frame now w.1.1); [exact (Hm _ w eq_refl)|done]. Qed.

Lemma due_apply now o id why w u w' : Due now w.1.1 →
  apply_slash_review now o id why w = (Ok u, w') → Due now w'.1.1.
Proof.
  intros D Hrun. unfold apply_slash_review in Hrun. run_inv.
  match goal with H : (if _ then _ else _) w = (Ok _, ?w1) |- _ =>
    assert (dues w1.1.1 = dues w.1.1) as Hd by (eapply part_Ok; [|exact H]; intros y; part_steps);
    assert (Due now w1.1.1) as D1 by (by apply (Due_frame now w.1.1)) end.
  eapply Due_frame; [|eapply (Due_apply now _ id); [..|exact D1]]; [reflexivity|done|done|].
  injection Hd as -> _ _. eauto.
Qed.
Lemma due_cancel now o id w u w' : Due now w.1.1 →
  cancel_reporter_slash T now o id w = (Ok u, w') → Due now w'.1.1.
Proof.
  intros D Hrun. unfold cancel_reporter_slash in Hrun. run_inv.
  match goal with H : (if _ then _ else _) w = (Ok _, ?w1), H' : (if _ then _ else _) _ = (Ok _, ?w2),
      Hr : ReportResult _ !! id = Some ?r |- _ =>
    assert (dues w1.1.1 = dues w.1.1) as Hd1 by (eapply part_Ok; [|exact H]; intros y; part_steps);
    apply (part_Ok dues) in H'; [|intros y; part_steps]; cbn [fst snd] in H';
    assert (dues w2.1.1 = dues w.1.1) as Hd2 by (by etrans);
    assert (Due now w2.1.1) as D2 by (by apply (Due_frame now w.1.1));
    apply (Due_frame now ((put_result id (r <| Result.slash_result := Result.Canceled |>)
      (update_unhandled_report id false (Result.slash_exec_time r) w2.1.1)) <| PendingSlashReview ::= delete id |>));
    [reflexivity|]; apply Due_drop_review, (Due_settle now _ id r); [|done..]; by injection Hd2 as -> _ _ end.
Qed.
Lemma due_call now o c w : Due now w.1.1 → Due now (dispatch T now o c w).2.1.1.
Proof.
  intros D. apply (transactional_preserves (λ w, Due now w.1.1)); [done|]. intros u w' Hrun.
  destruct (reporting c) eqn:Hc.
  - apply (Due_frame now w.1.1); [|done]. eapply part_Ok; [|exact Hrun]. intros x. by apply reporting_dues.
  - destruct c; try done; simpl in Hrun; [exact (due_apply _ _ _ _ _ _ _ D Hrun)|exact (due_cancel _ _ _ _ _ _ D Hrun)].
Qed.

(** *** The summaries *)
Lemma due_put now f : (∀ s, dues (f s) = dues s) → kept (onchain (due now)) (put (L:=L) (RT:=RT) f).
Proof. intros Hf. apply kept_on_chain, due_part. intros x. by apply part_own. Qed.
Lemma due_record {A} now id t r (k : unit → M (World * MTLiveReportList) unit A) :
  Result.slash_exec_time r = t → now < t ≤ now + TWO_DAYS → kept (onchain (due now)) (k tt) →
  kept (onchain (due now)) (put (update_unhandled_report id true t) ≫= λ _, put (put_result id r) ≫= k).
Proof.
  intros <- Ht Hk [[[s h] l] c] D. refine (Hk ((_, h, l), c) _). exact (Due_record now s id r Ht D).
Qed.
Lemma due_record_last now id t r :
  Result.slash_exec_time r = t → now < t ≤ now + TWO_DAYS →
  kept (onchain (due now)) (put (L:=L) (RT:=RT) (update_unhandled_report id true t) ≫= λ _, put (put_result id r)).
Proof. intros <- Ht [[[s h] l] c] D. exact (Due_record now s id r Ht D). Qed.
Ltac due_step :=
  first
  [ lazymatch goal with
    | |- kept _ (on_chain (rt_gets _) ≫= _) => apply kept_bind; [by intros ?|intros ?]
    | |- kept _ (own _ ≫= _) => apply kept_bind; [by intros ?|intros ?]
    | |- kept _ (live _) => apply kept_live
    | |- kept _ (put (update_unhandled_report _ _ _) ≫= λ _, put (put_result _ _) ≫= _) => apply due_record
    | |- kept _ (put (update_unhandled_report _ _ _) ≫= λ _, put (put_result _ _)) => apply due_record_last
    | |- kept _ (put _) => apply due_put; intros ?; reflexivity
    | |- kept _ (on_chain _) => apply kept_on_chain, due_part; intros ?; part_steps
    end
  | kept_step | progress cbv beta zeta ].
Section now.
Context (now : BlockNumber) (Hnow : 0 ≤ now) (Hlate : now + TWO_DAYS ≤ U32_MAX).

Lemma add_days : now < VerifyOnline.add_block now TWO_DAYS ≤ now + TWO_DAYS.
Proof. unfold VerifyOnline.add_block. rewrite Z.mod_small; [|unfold U32_MAX in Hlate]; change TWO_DAYS with 28800 in *; lia. Qed.
Lemma due_again info reports : kept (onchain (due now)) (report_again (L:=L) (RT:=RT) now info reports).
Proof.
  intros [w c] D. unfold report_again. cbn [fst snd].
  assert (∀ x, kept (part (L:=L) (RT:=RT) dues x) (do_report_machine_fault now (reporter info)
    (machine_fault_type info) (Some (report_time info)) c reports)) as Hk by (intros x; part_steps).
  specialize (Hk _ w eq_refl). destruct (do_report_machine_fault _ _ _ _ _ _ _) as [[[]|] w']; by apply (Due_frame now w.1.1).
Qed.
Lemma due_verifying id : kept (onchain (due now)) (summary_verifying_report (L:=L) (RT:=RT) now id).
Proof.
  pose proof add_days as Hd. unfold summary_verifying_report, summary_before_submit_raw, summary_after_submit_raw.
  repeat due_step; done.
Qed.
Lemma verify_result_time current id v r :
  Result.slash_exec_time (Result.get_verify_result current now id v r) = VerifyOnline.add_block now TWO_DAYS.
Proof. unfold Result.get_verify_result. destruct (summary r), current; done. Qed.
Lemma due_submitting id : kept (onchain (due now)) (summary_submitting_raw (L:=L) (RT:=RT) now id).
Proof.
  pose proof add_days as Hd. unfold summary_submitting_raw.
  repeat lazymatch goal with
  | |- kept _ (report_again _ _ _ ≫= _) => apply kept_bind; [apply due_again|intros ?]
  | _ => due_step
  end; [apply verify_result_time|done].
Qed.
Lemma unruly_time r x : Result.slash_exec_time (add_unruly_committee r x) = Result.slash_exec_time x.
Proof.
  unfold add_unruly_committee. revert x. induction (booked_committee r) as [|a l IH]; intros x; simpl; [done|].
  rewrite IH. by destruct (is_confirmed_committee a r).
Qed.
Lemma due_inaccessible id : kept (onchain (due now)) (summary_inaccessible_report (L:=L) (RT:=RT) now id).
Proof.
  pose proof add_days as Hd. unfold summary_inaccessible_report.
  repeat lazymatch goal with
  | |- kept _ (report_again _ _ _ ≫= _) => apply kept_bind; [apply due_again|intros ?]
  | _ => due_step
  end.
  - apply due_put. intros s. unfold close_order. by destruct (is_confirmed_committee _ _).
  - done.
  - simpl. rewrite unruly_time. exact Hd.
  - done.
  - simpl. rewrite unruly_time. exact Hd.
Qed.
Lemma due_finalize : kept (due now) (on_finalize (L:=L) (RT:=RT) now).
Proof.
  assert (∀ s h l c, due now (s, h, l) → due now (s <| LiveReport := c |>, h, l)) as Hl.
  { intros s h l c. apply Due_frame. reflexivity. }
  apply kept_bind; [|intros _].
  - unfold summary_fault_hook. apply kept_on_live_report; [exact Hl|]. apply kept_bind; [by intros ?|intros c].
    apply kept_bind; [|intros _].
    + apply kept_for_each. intros id _. apply kept_ignore, due_verifying.
    + apply kept_for_each. intros id _. apply kept_ignore, due_submitting.
  - unfold summary_inaccessible_hook. apply kept_on_live_report; [exact Hl|]. apply kept_bind; [by intros ?|intros c].
    apply kept_for_each. intros id _. apply kept_ignore, due_inaccessible.
Qed.
End now.

(** ** The beginning of a block *)

(** Runs that always succeed and leave the dues alone. *)
Definition runs {E A} (m : M World E A) : Prop := ∀ w, ∃ a w', m w = (Ok a, w') ∧ dues w'.1.1 = dues w.1.1.
Lemma runs_bind {E A B} (m : M World E A) (k : A → M World E B) : runs m → (∀ a, runs (k a)) → runs (m ≫= k).
Proof.
  intros Hm Hk w. destruct (Hm w) as (a & w1 & Hw & H1). destruct (Hk a w1) as (b & w2 & Hw' & H2).
  exists b, w2. unfold mbind, M_bind. rewrite Hw. split; [done|]. by rewrite H2.
Qed.
Lemma runs_ignore {E E' A} (m : M World E' A) : (∀ x, kept (part (L:=L) (RT:=RT) dues x) m) → runs (ignore m : M World E unit).
Proof. intros Hm w. exists tt, (m w).2. split; [done|]. exact (Hm _ w eq_refl). Qed.
Lemma runs_own {E} f : (∀ s, dues (f s) = dues s) → runs (own_modify f : M World E unit).
Proof. intros Hf w. exists tt, ((f w.1.1, w.1.2), w.2). split; [done|apply Hf]. Qed.
Lemma runs_mret {E A} (a : A) : runs (mret a : M World E A).
Proof. intros w. by exists a, w. Qed.
Ltac runs_step :=
  lazymatch goal with
  | |- runs (_ ≫= _) => apply runs_bind; [|intros ?]
  | |- runs (if _ then _ else _) => case_match
  | |- runs (ignore _) => apply runs_ignore; intros ?; part_steps
  | |- runs (own_modify _) => apply runs_own; intros ?; try reflexivity
  | |- runs (mret _) => apply runs_mret
  end.
(** A run of this kind before a last write. *)
Lemma runs_then {E A} (m : M World E A) f w : runs m →
  ∃ w', (m ≫= λ _, own_modify f) w = (Ok tt, w') ∧ ∃ s, dues s = dues w.1.1 ∧ w'.1.1 = f s.
Proof.
  intros Hm. destruct (Hm w) as (a & w1 & Hw & H1). exists ((f w1.1.1, w1.1.2), w1.2).
  unfold mbind, M_bind. rewrite Hw. split; [done|]. by exists w1.1.1.
Qed.

Lemma exec_a_review_run now id v r w :
  PendingSlashReview w.1.1 !! id = Some v → ReportResult w.1.1 !! id = Some r → now ≤ expire_time v →
  ∃ w', exec_a_review now id w = (Ok tt, w') ∧
    dues w'.1.1 = dues (w.1.1 <| PendingSlashReview ::= delete id |>).
Proof.
  intros Hv Hr Ht. unfold exec_a_review, own_gets. rewrite !bind_gets, Hv, bind_ok_or, bind_gets, Hr, bind_ok_or. cbv zeta.
  destruct (Z.ltb_spec (expire_time v) now); [lia|].
  match goal with |- ∃ _, (?m ≫= (λ _, ?n ≫= (λ _, own_modify ?f))) w = _ ∧ _ =>
    destruct (runs_then (m ≫= λ _, n) f w) as (w' & Hw & s & Hs & Hw') end.
  { repeat runs_step. }
  exists w'. rewrite <-Hw. split; [unfold mbind, M_bind; by destruct (_ w) as [[] ?]|].
  rewrite Hw'. injection Hs as H1 H2 H3. unfold dues. simpl. by rewrite H1, H2, H3.
Qed.

(** Every appeal in the list is executed. *)
Lemma exec_reviews_run now l w : NoDup l →
  (∀ id, id ∈ l → ∃ v r, PendingSlashReview w.1.1 !! id = Some v ∧ ReportResult w.1.1 !! id = Some r ∧ now ≤ expire_time v) →
  ∃ w', for_each l (exec_a_review now) w = (Ok tt, w') ∧
    ReportResult w'.1.1 = ReportResult w.1.1 ∧ UnhandledReportResult w'.1.1 = UnhandledReportResult w.1.1 ∧
    ∀ id, PendingSlashReview w'.1.1 !! id = if decide (id ∈ l) then None else PendingSlashReview w.1.1 !! id.
Proof.
  revert w. induction l as [|i l IH]; intros w Hnd Hl; simpl.
  { exists w. split_and!; try done. }
  apply NoDup_cons in Hnd as [Hi Hnd].
  destruct (Hl i ltac:(left)) as (v & r & Hv & Hr & Ht).
  destruct (exec_a_review_run now i v r w Hv Hr Ht) as (w1 & Hw1 & [= HR HU HP]).
  destruct (IH w1 Hnd) as (w2 & Hw2 & HR2 & HU2 & HP2).
  { intros j Hj. destruct (Hl j ltac:(by right)) as (vj & rj & Hvj & Hrj & Htj). exists vj, rj.
    rewrite HP, HR. split_and!; try done. rewrite lookup_delete_ne; [done|]. by intros ->. }
  exists w2. unfold mbind, M_bind. rewrite Hw1. split_and!; [done|by rewrite HR2|by rewrite HU2|].
  intros j. rewrite HP2, HP. destruct (decide (j ∈ l)); [rewrite decide_True by (by right); done|].
  destruct (decide (j ∈ i :: l)) as [[->|?]%elem_of_cons|Hn]; [apply lookup_delete_eq|done|].
  rewrite lookup_delete_ne; [done|]. intros ->. apply Hn. by left.
Qed.

Lemma exec_a_result_run id r w : ReportResult w.1.1 !! id = Some r →
  ∃ w', exec_a_slash id w = (Ok tt, w') ∧
    dues w'.1.1 = dues (put_result id (r <| Result.slash_result := Result.Executed |>) w.1.1).
Proof.
  intros Hr. unfold exec_a_slash, own_gets. rewrite bind_gets, Hr, bind_ok_or. cbv zeta.
  match goal with |- ∃ _, (?m ≫= (λ _, ?n ≫= (λ _, ?o ≫= (λ _, ?p ≫= (λ _, ?q ≫= (λ _, own_modify ?f)))))) w = _ ∧ _ =>
    destruct (runs_then (m ≫= λ _, n ≫= λ _, o ≫= λ _, p ≫= λ _, q) f w) as (w' & Hw & s & Hs & Hw') end.
  { repeat runs_step. apply part_close; done. }
  exists w'. rewrite <-Hw. split; [unfold mbind, M_bind; by repeat (case_match; simplify_eq/=)|].
  rewrite Hw'. injection Hs as H1 H2 H3. unfold dues. simpl. by rewrite H1, H2, H3.
Qed.
Lemma exec_results_run l w : (∀ id, id ∈ l → is_Some (ReportResult w.1.1 !! id)) →
  ∃ w', for_each l exec_a_slash w = (Ok tt, w') ∧
    UnhandledReportResult w'.1.1 = UnhandledReportResult w.1.1 ∧ PendingSlashReview w'.1.1 = PendingSlashReview w.1.1 ∧
    ∀ id, ReportResult w'.1.1 !! id =
      if decide (id ∈ l) then (λ r, r <| Result.slash_result := Result.Executed |>) <$> ReportResult w.1.1 !! id
      else ReportResult w.1.1 !! id.
Proof.
  revert w. induction l as [|i l IH]; intros w Hl; simpl.
  { exists w. split_and!; done. }
  destruct (Hl i ltac:(left)) as [r Hr].
  destruct (exec_a_result_run i r w Hr) as (w1 & Hw1 & [= HR HU HP]).
  assert (∀ j, j ∈ l → is_Some (ReportResult w1.1.1 !! j)) as Hl1.
  { intros j Hj. rewrite HR, lookup_insert. case_decide; [done|]. apply Hl. by right. }
  destruct (IH w1 Hl1) as (w2 & Hw2 & HU2 & HP2 & HR2).
  exists w2. unfold mbind, M_bind. rewrite Hw1. split_and!; [done|by rewrite HU2|by rewrite HP2|].
  intros j. rewrite HR2, HR, lookup_insert.
  destruct (decide (i = j)) as [<-|Hne].
  - rewrite Hr, (decide_True (P := i ∈ i :: l)) by left. by case_decide.
  - destruct (decide (j ∈ l)); [by rewrite decide_True by (by right)|].
    rewrite decide_False; [done|]. intros [->|?]%elem_of_cons; done.
Qed.

(** The beginning of a block executes every appeal, and every slash due in it. *)
Lemma initialize_run now w : Due now w.1.1 → ∃ w', on_initialize (now + 1) w = (Ok tt, w') ∧
  PendingSlashReview w'.1.1 = ∅ ∧
  (∀ id, ReportResult w'.1.1 !! id = if decide (id ∈ unhandled_report_result w.1.1 (now + 1)) then
     (λ r, r <| Result.slash_result := Result.Executed |>) <$> ReportResult w.1.1 !! id else ReportResult w.1.1 !! id) ∧
  UnhandledReportResult w'.1.1 = delete (now + 1) (UnhandledReportResult w.1.1).
Proof.
  intros [D1 D2 D3].
  destruct (exec_reviews_run (now + 1) (map_to_list (PendingSlashReview w.1.1)).*1 w) as (w1 & Hw1 & HR1 & HU1 & HP1).
  { apply NoDup_fst_map_to_list. }
  { intros id ([j v] & -> & Hv)%list_elem_of_fmap. apply elem_of_map_to_list in Hv. simpl.
    destruct (D3 j v Hv) as (_ & He & [r Hr]). exists v, r. split_and!; [done..|lia]. }
  assert (PendingSlashReview w1.1.1 = ∅) as Hnone.
  { apply map_eq. intros id. rewrite HP1, lookup_empty. case_decide as Hn; [done|].
    destruct (PendingSlashReview w.1.1 !! id) as [v|] eqn:Hv; [|done]. destruct Hn.
    apply list_elem_of_fmap. exists (id, v). split; [done|]. by apply elem_of_map_to_list. }
  assert (unhandled_report_result w1.1.1 (now + 1) = unhandled_report_result w.1.1 (now + 1)) as Hu.
  { unfold unhandled_report_result. by rewrite HU1. }
  destruct (exec_results_run (unhandled_report_result w1.1.1 (now + 1)) w1) as (w2 & Hw2 & HU2 & HP2 & HR2).
  { intros id. rewrite Hu, HR1. apply D2. }
  exists ((w2.1.1 <| UnhandledReportResult ::= delete (now + 1) |>, w2.1.2), w2.2).
  split_and!; simpl; [|by rewrite HP2|intros id; rewrite HR2, Hu, HR1; done|by rewrite HU2, HU1].
  unfold on_initialize, exec_review, exec_slash, own_gets.
  unfold ignore, mbind, M_bind, gets. rewrite Hw1. simpl. by rewrite Hw2.
Qed.
Lemma due_initialize now w : Due now w.1.1 → Due (now + 1) (on_initialize (now + 1) w).2.1.1.
Proof.
  intros D. destruct (initialize_run now w D) as (w' & -> & HP & HR & HU). destruct D as [D1 D2 D3]. cbn [snd].
  assert (∀ t, unhandled_report_result w'.1.1 t = if decide (t = now + 1) then [] else unhandled_report_result w.1.1 t) as Hq.
  { intros t. unfold unhandled_report_result. rewrite HU, lookup_delete.
    destruct (decide (now + 1 = t)), (decide (t = now + 1)); by simplify_eq. }
  split.
  - intros id r. rewrite HR, Hq. case_decide as Hin.
    { destruct (ReportResult w.1.1 !! id); simpl; [|done]. by intros [= <-]. }
    intros Hr Hp. destruct (D1 id r Hr Hp) as [[Hlo Hhi] Hi].
    assert (Result.slash_exec_time r ≠ now + 1) as Hne by (intros He; by rewrite He in Hi).
    rewrite decide_False by done. split; [lia|done].
  - intros t. rewrite Hq. case_decide; [split; [apply sorted_nil|by intros id ?%not_elem_of_nil]|].
    destruct (D2 t) as [Hs Ht]. split; [done|]. intros id Hid. rewrite HR. case_decide; [|by apply Ht].
    destruct (Ht id Hid) as [r ->]. done.
  - intros id v. rewrite HP, lookup_empty. done.
Qed.

Lemma due_step c c' : step T c c' → 0 ≤ c.1 → c'.1 + TWO_DAYS ≤ U32_MAX → Due c.1 c.2.1.1 → Due c'.1 c'.2.1.1.
Proof.
  intros [now o call w Hl|now w Hl Hl'|now s h h' l l'] H0 Hlate D; cbn [fst snd] in *; [| |exact D].
  - by apply due_call.
  - apply due_initialize, due_finalize; [done|lia|exact D].
Qed.
Lemma due_genesis now : Due now genesis.
Proof.
  split; simpl; [done| |done]. intros t. unfold unhandled_report_result. simpl. rewrite lookup_empty.
  split; [apply sorted_nil|by intros id ?%not_elem_of_nil].
Qed.
Lemma step_later c c' : step T c c' → c.1 ≤ c'.1.
Proof. intros []; cbn [fst]; lia. Qed.
(** In every reachable state, while block numbers fit their type. *)
Lemma due_reachable c : reachable T c → c.1 + TWO_DAYS ≤ U32_MAX → Due c.1 c.2.1.1.
Proof.
  intros (now & h & l & H0 & Hr). enough (0 ≤ c.1 ∧ (c.1 + TWO_DAYS ≤ U32_MAX → Due c.1 c.2.1.1)) as [_ He] by exact He.
  revert c Hr. apply (rtc_ind_r (λ c, 0 ≤ c.1 ∧ (c.1 + TWO_DAYS ≤ U32_MAX → Due c.1 c.2.1.1))).
  { split; [done|]. intros _. apply due_genesis. }
  intros c c' _ Hs [H1 IH]. pose proof (step_later _ _ Hs). split; [lia|]. intros Hlate.
  apply (due_step _ _ Hs); [done..|]. apply IH. lia.
Qed.
Lemma reachable_nonneg c : reachable T c → 0 ≤ c.1.
Proof.
  intros (now & h & l & H0 & Hr). revert c Hr. apply (rtc_ind_r (λ c, 0 ≤ c.1)); [done|].
  intros c c' _ Hs ?. pose proof (step_later _ _ Hs). lia.
Qed.
End pallet.
End MaintainSlashes.
