(* ===== verification/MaintainTheorems.v ===== *)
(** * pallet-maintain-committee: what reporters and members can rely on

    The votes on a report, the execution of its result, and what appeals and
    stakes of reporters are worth; then runs of the pallet over rent-machine,
    online-profile and committee. *)
From stdpp Require Import base gmap fin_maps list numbers relations.
From Stdlib Require Import ZArith Lia Strings.Byte.
From S2P Require Import Prelude Currency Interfaces GenericFunc ItemList Committee VerifyOnline RentalTypes RentalInterfaces RentMachine ProfileTypes OnlineProfile ProfileTheorems Market ReportTypes MaintainCommittee MaintainSteps MaintainVotes MaintainSlashes.

Module MaintainTheorems.
Import ItemList Report MaintainCommittee MaintainVotes MaintainSlashes.

Section theorems.
Context {L RT : Type} `{!ReservableCurrency L}.
Context `{!ManageCommittee L RT, !MTOps L RT, !GNOps L RT, !TxFee L RT, !RentOrders RT} {P : PerThing}.
Context (T : Config).
Abbreviation World := ((State * RT) * L)%type.
Implicit Types (w : World) (now : BlockNumber) (id : ReportId) (r : MTReportInfoDetail).

(** The verdict is the last byte of what an inaccessible machine's voter commits to. *)
Lemma vote_last id x y :
  mjoin [VerifyOnline.to_string id; x; vote_bytes true] ≠ mjoin [VerifyOnline.to_string id; y; vote_bytes false].
Proof.
  unfold mjoin, list_join. simpl. rewrite !app_assoc. intros Heq. apply app_inj_tail in Heq as [_ Heq]. done.
Qed.
(** So with a hash without collisions no commitment opens to both verdicts. *)
Lemma opens_one id r h :
  (∀ x y, blake2_128 T x = blake2_128 T y → x = y) → is_inaccessible (machine_fault_type r) = true →
  opens T id r true h → opens T id r false h → False.
Proof.
  intros Hinj Hf Hs Ha. unfold opens in *. destruct (machine_fault_type r); try done. simpl in *.
  destruct Hs as [x Hx], Ha as [y Hy]. apply (vote_last id x y), Hinj. exact (eq_trans Hx (eq_sym Hy)).
Qed.

(** C18: in every reachable state, of every report at most three members booked
    it; those who committed to a verdict had booked it, those who revealed it
    had committed; a member who revealed is on at least one side and the others
    on none; nobody is twice on a side; and the commitment of a member on a side
    opens to that verdict: it is the hash of a text that names it (and, of a
    report behind a hash, of the text the reporter's hash opens to). So a
    member is on both sides only with a commitment that opens to both verdicts,
    which does happen for reports behind a hash ([mt_vote_opens_both_ways]); of
    an inaccessible machine, with a hash without collisions, it does not:
    everyone who revealed is on exactly one side, so the sides add up. *)
Theorem mt_reachable_votes now w id r :
  reachable T (now, w) → ReportInfo w.1.1 !! id = Some r →
  (length (booked_committee r) ≤ 3)%nat ∧
  (∀ a, a ∈ hashed_committee r → a ∈ booked_committee r) ∧
  (∀ a, a ∈ confirmed_committee r → a ∈ hashed_committee r) ∧
  (∀ a, a ∈ confirmed_committee r ↔ a ∈ support_committee r ∨ a ∈ against_committee r) ∧
  NoDup (support_committee r) ∧ NoDup (against_committee r) ∧
  (∀ a, a ∈ support_committee r → opens T id r true (confirm_hash (committee_ops w.1.1 a id))) ∧
  (∀ a, a ∈ against_committee r → opens T id r false (confirm_hash (committee_ops w.1.1 a id))) ∧
  ((∀ x y, blake2_128 T x = blake2_128 T y → x = y) → is_inaccessible (machine_fault_type r) = true →
   (∀ a, a ∈ support_committee r → a ∉ against_committee r) ∧
   confirmed_committee r ≡ₚ support_committee r ++ against_committee r).
Proof.
  intros Hr Hi. apply votes_reachable in Hr as V. destruct (vi_report _ _ V id r Hi) as [_ I].
  pose proof (sorted_NoDup _ (proj1 (ri_sides _ _ _ _ I))) as N1.
  pose proof (sorted_NoDup _ (proj2 (ri_sides _ _ _ _ I))) as N2.
  split_and!; try apply I; [done..|]. intros Hinj Hf.
  assert (∀ a, a ∈ support_committee r → a ∉ against_committee r) as Hd.
  { intros a Hs%(ri_support _ _ _ _ I) Ha%(ri_against _ _ _ _ I). by apply (opens_one id r _ Hinj Hf Hs). }
  split; [done|]. apply NoDup_Permutation; [apply sorted_NoDup, I|by apply NoDup_app; split_and!|].
  intros a. rewrite elem_of_app. apply I.
Qed.

(** C19: every result still to be executed waits in the queue of a block of the
    next two days, and the block in whose queue it waits executes it: the hook
    at the beginning of each block runs to its end, and no result due then, and
    none of the past, stays pending. *)
Theorem mt_results_executed now w :
  reachable T (now, w) → now + TWO_DAYS ≤ U32_MAX →
  (∀ id x, ReportResult w.1.1 !! id = Some x → Result.slash_result x = Result.Pending →
     now < Result.slash_exec_time x ≤ now + TWO_DAYS ∧
     id ∈ unhandled_report_result w.1.1 (Result.slash_exec_time x)) ∧
  ∃ w', on_initialize (now + 1) (on_finalize now w).2 = (Ok tt, w') ∧
    ∀ id x, ReportResult (on_finalize now w).2.1.1 !! id = Some x → Result.slash_exec_time x = now + 1 →
      Result.slash_result x = Result.Pending →
      ReportResult w'.1.1 !! id = Some (x <| Result.slash_result := Result.Executed |>).
Proof.
  intros Hr Hlate. assert (0 ≤ now) as H0 by exact (reachable_nonneg T _ Hr).
  pose proof (due_reachable T _ Hr Hlate) as D. split; [apply D|].
  pose proof (due_finalize now H0 Hlate w D) as D1.
  destruct (initialize_run now _ D1) as (w' & Hw & _ & HR & _). exists w'. split; [done|].
  intros id x Hx Ht Hp. destruct (du_pending _ _ D1 id x Hx Hp) as [_ Hq]. rewrite Ht in Hq.
  by rewrite HR, decide_True, Hx by done.
Qed.

(** An appeal is over before it is due: in every reachable state each
    pending appeal was filed in the current block, although it may be granted
    until the slash is executed, up to two days later; the next block begins
    by executing all of them. *)
Theorem mt_appeals_end_with_block now w :
  reachable T (now, w) → now + TWO_DAYS ≤ U32_MAX →
  (∀ id v, PendingSlashReview w.1.1 !! id = Some v → apply_time v = now ∧ now < expire_time v) ∧
  ∃ w', on_initialize (now + 1) (on_finalize now w).2 = (Ok tt, w') ∧ PendingSlashReview w'.1.1 = ∅.
Proof.
  intros Hr Hlate. assert (0 ≤ now) as H0 by exact (reachable_nonneg T _ Hr).
  pose proof (due_reachable T _ Hr Hlate) as D. split.
  { intros id v Hv. by destruct (du_review _ _ D id v Hv) as (? & ? & _). }
  pose proof (due_finalize now H0 Hlate w D) as D1.
  destruct (initialize_run now _ D1) as (w' & Hw & HP & _). by exists w'.
Qed.

(** An account without reports in progress, also one that never staked as a
    reporter, can have its whole reserved balance released, whatever other
    pallets hold in it: reducing a stake checks nothing when none is in use. *)
Theorem mt_reduce_frees_reserves `{!ReservableCurrencyLaws L} now who v p w :
  ReporterStakeParams w.1.1 = Some p → used_stake (reporter_stake_of w.1.1 who) ≤ 0 →
  reserved_balance w.2 who ≤ v →
  ∃ w', dispatch T now (Signed who) (ReporterReduceStakeCall v) w = (Ok tt, w') ∧
    reserved_balance w'.2 who = 0 ∧
    free_balance w'.2 who = free_balance w.2 who + reserved_balance w.2 who ∧ w'.1.2 = w.1.2.
Proof.
  intros Hp Hu Hv. destruct (balances_nonneg w.2 who) as [_ Hn].
  destruct (unreserve_spec who v w.2 ltac:(lia)) as [_ Hm]. destruct (Hm who) as [Hf Hr].
  rewrite Z.min_r in Hf, Hr by lia. unfold at_account in Hf, Hr. rewrite decide_True in Hf, Hr by done.
  eexists. split.
  - unfold dispatch, transactional, run_call, reporter_reduce_stake, change_reporter_stake, own_gets.
    rewrite (bind_run _ _ w who w), bind_gets, Hp, bind_ok_or, bind_gets by done. cbv zeta.
    cbn [orb]. simpl. destruct (Z.ltb_spec 0 (used_stake (reporter_stake_of w.1.1 who))); [lia|].
    rewrite (bind_run _ _ w tt w) by done. erewrite bind_run by apply m_unreserve_run. reflexivity.
  - simpl. split_and!; [lia|done..].
Qed.
End theorems.

(** ** The pallet over the rental market

    The registry's requests and the rental orders, inside the market's state. *)
Definition mt_ops_inside {A L H} `{!MTOps L H} : MTOps L (A * H) := {|
  mt_machines_info h := mt_machines_info (L:=L) h.2;
  mt_add_offline_machine_to_renters m renters h := (h.1, mt_add_offline_machine_to_renters (L:=L) m renters h.2);
  mt_machine_offline a l m f := with_callee (mt_machine_offline a l m f);
  mt_change_staked_balance a v b := with_callee (mt_change_staked_balance a v b);
  mt_rm_stash_total_stake a v := with_callee (mt_rm_stash_total_stake a v);
|}.
Definition rent_orders {H} : RentOrders (RentMachine.State * H) := {|
  rent_info h id := RentMachine.RentInfo h.1 !! id;
|}.

(** ** Runs

    The machine of the market's run, which stash 9 owns and account 1 rents;
    accounts 3, 4 and 5 are the committee, account 100 is the treasury. *)
Module Demo.
Import ProfileTheorems.Demo.
Abbreviation Rest := (Committee.State * GenericFunc.State)%type.
Abbreviation Runtime := (RentMachine.State * (OnlineProfile.State perbill * Rest))%type.
Abbreviation world := ((State * Runtime) * Ledger.t)%type.
Definition put_rest (f : Rest → Rest) (h : Runtime) : Runtime := (h.1, (h.2.1, f h.2.2)).
#[local] Existing Instance OnlineProfile.mt_ops.
#[local] Instance registry : MTOps Ledger.t Runtime := mt_ops_inside.
#[local] Instance orders : RentOrders Runtime := rent_orders.
#[local] Instance members : ManageCommittee Ledger.t Runtime :=
  manage_committee_via (λ h, h.2.2.1) (λ c, put_rest (λ g, (c, g.2))).
#[local] Instance slashing : GNOps Ledger.t Runtime := gn_ops.
#[local] Instance fees : TxFee Ledger.t Runtime :=
  ProfileTheorems.tx_fee_via (λ h, h.2.2.2) (λ s, put_rest (λ g, (g.1, s))).

Definition T : Config := {|
  blake2_128 b := N.pos (encode b);
  CancelSlashOrigin o := match o with Root => true | _ => false end;
|}.
Definition committee_params : Committee.CommitteeStakeParamsInfo := {|
  Committee.stake_baseline := 100; Committee.stake_per_order := 10;
  Committee.min_free_stake_percent := 400000000 |}.
Definition join (a : AccountId) (w : Committee.State * Ledger.t) : Committee.State * Ledger.t :=
  let w := (Committee.dispatch Root (Committee.AddCommittee a) w).2 in
  (Committee.dispatch (Signed a) (Committee.SetBoxPubkey a) w).2.
Definition joined : Committee.State * Ledger.t :=
  foldr join (Committee.dispatch Root (Committee.SetCommitteeStakeParams committee_params)
    (Committee.genesis, {[3 := (1000, 0); 4 := (1000, 0); 5 := (1000, 0)]}%N ∪ Market.Demo.first.2.2)).2 [3; 4; 5]%N.
Definition start : BlockNumber * world :=
  (10, ((genesis, (Market.Demo.first.2.1.1, (Market.Demo.first.2.1.2.1, (joined.1, Market.Demo.first.2.1.2.2.2)))), joined.2)).
Definition stake_params : ReporterStakeParamsInfo := {|
  stake_baseline := 200; stake_per_report := 50; min_free_stake_percent := 400000000 |}.

(** A run of calls and blocks, while ids are left. *)
Inductive Act := Do (o : Origin) (c : Call) | Blocks (n : N).
#[local] Instance ids_left_dec s : Decision (ids_left s).
Proof. unfold ids_left. apply _. Defined.
Definition block (x : BlockNumber * world) : option (BlockNumber * world) :=
  if decide (ids_left x.2.1.1) then
    if decide (ids_left (summary_fault_hook x.1 x.2).2.1.1) then
      Some (x.1 + 1, (on_initialize (x.1 + 1) (on_finalize x.1 x.2).2).2)
    else None
  else None.
Definition act (x : BlockNumber * world) (a : Act) : option (BlockNumber * world) :=
  match a with
  | Do o c => if decide (ids_left x.2.1.1) then Some (x.1, (dispatch T x.1 o c x.2).2) else None
  | Blocks n => N.iter n (λ y, y ≫= block) (Some x)
  end.
Definition exec (l : list Act) (x : BlockNumber * world) : option (BlockNumber * world) :=
  foldl (λ y a, y ≫= λ x, act x a) (Some x) l.

Lemma block_steps x y : block x = Some y → step T x y.
Proof.
  unfold block. destruct (decide _) as [H1|]; [|discriminate 1]. destruct (decide _) as [H2|]; [|discriminate 1].
  intros <-%Some_inj. destruct x as [now w]. exact (step_block T now w H1 H2).
Qed.
Lemma act_steps x a y : act x a = Some y → rtc (step T) x y.
Proof.
  destruct a as [o c|n]; simpl.
  - destruct (decide _) as [H1|]; [|discriminate 1]. intros <-%Some_inj. apply rtc_once. destruct x as [now w].
    exact (step_call T now o c w H1).
  - revert y. apply (N.iter_invariant n _ _ (λ o, ∀ y, o = Some y → rtc (step T) x y)).
    + intros [u|] Hu y Hy; simpl in Hy; [|done]. eapply rtc_r; [by apply Hu|by apply block_steps].
    + intros y <-%Some_inj. apply rtc_refl.
Qed.
Lemma exec_steps l x y : exec l x = Some y → rtc (step T) x y.
Proof.
  revert x y. induction l as [|a l IH] using rev_ind; intros x y; unfold exec.
  - intros <-%Some_inj. apply rtc_refl.
  - rewrite foldl_app. simpl. intros (u & Hu & Hy)%bind_Some. etrans; [by apply IH|by eapply act_steps].
Qed.
(** The state after a run that goes through. *)
Definition after (l : list Act) (x : BlockNumber * world) : BlockNumber * world := default x (exec l x).
Lemma after_reachable l x : match exec l x with Some _ => true | None => false end = true →
  reachable T x → reachable T (after l x).
Proof.
  unfold after. destruct (exec l x) as [y|] eqn:He; [|done]. intros _ (now & h & w & H0 & Hr).
  exists now, h, w. split; [done|]. etrans; [exact Hr|by apply (exec_steps l)].
Qed.
Lemma genesis_reachable : reachable T start.
Proof. eexists _, _, _. split; [|apply rtc_refl]. done. Qed.

(** *** A report of an inaccessible machine *)
Definition nonce (a : AccountId) : bytes := VerifyOnline.to_string (Z.of_N a).
Definition commit (a : AccountId) (v : bool) : Act :=
  Do (Signed a) (CommitteeSubmitVerifyHash 0 (hash_of T [VerifyOnline.to_string 0; nonce a; vote_bytes v])).
Definition reveal (a : AccountId) (v : bool) : Act := Do (Signed a) (CommitteeSubmitInaccessibleRaw 0 (nonce a) v).
Definition book (a : AccountId) : Act := Do (Signed a) (CommitteeBook 0).
Definition voted := after
  [Do Root (SetReporterStakeParams stake_params);
   Do (Signed 1%N) (ReportMachineFaultCall (RentedInaccessible m 0)); book 3%N; book 4%N; book 5%N;
   commit 3%N true; commit 4%N true; commit 5%N false;
   reveal 3%N true; reveal 4%N true; reveal 5%N false] start.
Definition decided := after [Blocks 1] voted.
Definition appealed := after [Do (Signed 9%N) (ApplySlashReviewCall 0 [])] decided.
(** The stake recorded for a member, and its reserved balance. *)
Definition stakes (a : AccountId) (w : world) : Balance * Balance :=
  (Committee.staked_amount (Committee.committee_stake w.1.2.2.2.1 a), reserved_balance w.2 a).

(** *** Reports behind a hash *)
Definition rand : bytes := [x72].
Definition why : bytes := [x30; x78].
Definition fault : MachineFaultType :=
  RentedHardwareMalfunction (hash_of T [m; VerifyOnline.to_string 0; rand; why]) 0%N.
Definition reported := after
  [Do Root (SetReporterStakeParams stake_params); Do (Signed 1%N) (ReportMachineFaultCall fault)] start.
Definition send (a : AccountId) : Act := Do (Signed 1%N) (ReporterAddEncryptedErrorInfo 0 a []).
Definition fault_commit (a : AccountId) (c : bytes) (v : bool) : Act :=
  Do (Signed a) (CommitteeSubmitVerifyHash 0 (hash_of T [m; VerifyOnline.to_string 0; rand; c; vote_bytes v; why])).
Definition fault_reveal (r c e : bytes) (v : bool) : Call := CommitteeSubmitVerifyRaw 0 m 0 r c e [] v.

(** Member 3 commits to a verdict for the report, and reveals both. *)
Definition committed := after
  [book 3%N; send 3%N; fault_commit 3%N [x30] true; book 4%N; send 4%N; fault_commit 4%N [x61] true;
   book 5%N; send 5%N; fault_commit 5%N [x62] false] reported.
Definition twofold := after
  [Do (Signed 3%N) (fault_reveal rand [x30] why true);
   Do (Signed 3%N) (fault_reveal (rand ++ [x30]) [x31] [x78] false)] committed.

(** Member 3 commits; member 4 books ten blocks before the time to reveal. *)
Definition silenced := after
  [book 3%N; send 3%N; fault_commit 3%N [x61] true; Blocks 1790; book 4%N; Blocks 11] reported.
Definition blamed := after [Blocks 600] silenced.

(** Member 3 books, and does not commit within an hour. *)
Definition absent_member := after [book 3%N; send 3%N; Blocks 601] reported.
(** Member 4 then confirms the report. *)
Definition confirmed := after
  [book 4%N; send 4%N; fault_commit 4%N [x61] true; Blocks 1801; Do (Signed 4%N) (fault_reveal rand [x61] why true); Blocks 1] absent_member.
Definition once : world := (exec_slash 29410 confirmed.2).2.
Definition twice : world := (exec_slash 31212 once).2.

Lemma hash_inj x y : blake2_128 T x = blake2_128 T y → x = y.
Proof. simpl. intros Heq. apply (inj encode). by injection Heq. Qed.
Lemma mt_voted_reachable : reachable T voted.
Proof. unfold voted. apply after_reachable; [vm_compute; reflexivity|apply genesis_reachable]. Qed.
Lemma decided_runs : match exec [Blocks 1] voted with Some _ => true | None => false end = true.
Proof. vm_compute. reflexivity. Qed.
Lemma mt_decided_reachable : reachable T decided.
Proof. unfold decided. apply after_reachable; [exact decided_runs|exact mt_voted_reachable]. Qed.
Lemma appealed_runs : match exec [Do (Signed 9%N) (ApplySlashReviewCall 0 [])] decided with Some _ => true | None => false end = true.
Proof. vm_compute. reflexivity. Qed.
Lemma mt_appealed_reachable : reachable T appealed.
Proof. unfold appealed. apply after_reachable; [exact appealed_runs|exact mt_decided_reachable]. Qed.
Lemma reported_reachable : reachable T reported.
Proof. unfold reported. apply after_reachable; [vm_compute; reflexivity|apply genesis_reachable]. Qed.
Ltac run_from H := apply after_reachable; [vm_compute; reflexivity|exact H].
Lemma committed_reachable : reachable T committed.
Proof. unfold committed. run_from reported_reachable. Qed.
Lemma twofold_reachable : reachable T twofold.
Proof. unfold twofold. run_from committed_reachable. Qed.
Lemma silenced_reachable : reachable T silenced.
Proof. unfold silenced. run_from reported_reachable. Qed.
Lemma blamed_reachable : reachable T blamed.
Proof. unfold blamed. run_from silenced_reachable. Qed.
Lemma absent_reachable : reachable T absent_member.
Proof. unfold absent_member. run_from reported_reachable. Qed.
Lemma judged_reachable : reachable T confirmed.
Proof. unfold confirmed. run_from absent_reachable. Qed.

(** A commitment to a report behind a hash can open to both verdicts: its parts
    are hashed without separators, and a byte of the reporter's text can serve
    as the verdict. The member's two revelations are both accepted and counted,
    one on each side. *)
Lemma mt_vote_opens_both_ways :
  reachable T twofold ∧
  (∀ H : Config, hash_of H [m; VerifyOnline.to_string 0; rand; why] =
                 hash_of H [m; VerifyOnline.to_string 0; rand ++ [x30]; [x78]] ∧
     hash_of H [m; VerifyOnline.to_string 0; rand; [x30]; vote_bytes true; why] =
     hash_of H [m; VerifyOnline.to_string 0; rand ++ [x30]; [x31]; vote_bytes false; [x78]]) ∧
  (λ r, (support_committee r, against_committee r)) <$> ReportInfo twofold.2.1.1 !! 0 = Some ([3%N], [3%N]).
Proof. split; [exact twofold_reachable|]. split; [by intros H|]. vm_compute. reflexivity. Qed.
(** A member who books a report less than an hour before the time to reveal
    keeps it from being revealed: the summary removes the late member and
    leaves the report where only a hash can be submitted. The member who had
    committed cannot reveal, and is recorded as one who did not work. *)
Lemma mt_late_booking_silences :
  reachable T silenced ∧ reachable T blamed ∧
  (λ r, (hashed_committee r, report_status r)) <$> ReportInfo silenced.2.1.1 !! 0 = Some ([3%N], Verifying) ∧
  waiting_raw_report (LiveReport silenced.2.1.1) = [0] ∧
  (dispatch T silenced.1 (Signed 3%N) (fault_reveal rand [x61] why true) silenced.2).1 =
    Err (Module ErrOrderStatusNotFeat) ∧
  Result.unruly_committee <$> ReportResult blamed.2.1.1 !! 0 = Some [3%N].
Proof.
  split; [exact silenced_reachable|]. split; [exact blamed_reachable|]. split_and!; vm_compute; reflexivity.
Qed.
(** A member who does not commit in time makes the reporter pay: the result
    recorded against the member is that the report was refused, while the
    report is open again; if nobody books it, the reporter's stake is slashed. *)
Lemma mt_reporter_pays_for_member :
  reachable T absent_member ∧
  (λ x, (Result.report_result x, Result.unruly_committee x, Result.slash_exec_time x)) <$>
    ReportResult absent_member.2.1.1 !! 0 = Some (Result.ReportRefused, [3%N], 29410) ∧
  report_status <$> ReportInfo absent_member.2.1.1 !! 0 = Some Reported ∧
  staked_amount (reporter_stake_of absent_member.2.1.1 1%N) = 200 ∧
  staked_amount (reporter_stake_of (exec_slash 29410 absent_member.2).2.1.1 1%N) = 150 ∧
  reserved_balance (exec_slash 29410 absent_member.2).2.2 1%N = reserved_balance absent_member.2.2 1%N - 50.
Proof. split; [exact absent_reachable|]. split_and!; vm_compute; reflexivity. Qed.
(** The result of a report that had a late member is executed twice: it stays
    in the queue of the first record, and is queued again with the summary;
    the member loses the stake of an order twice. *)
Lemma mt_result_executed_twice :
  reachable T confirmed ∧ unhandled_report_result confirmed.2.1.1 29410 = [0] ∧
  unhandled_report_result confirmed.2.1.1 31212 = [0] ∧
  stakes 3%N confirmed.2 = (100, 100) ∧ stakes 3%N once = (90, 90) ∧ stakes 3%N twice = (80, 80).
Proof. split; [exact judged_reachable|]. split_and!; vm_compute; reflexivity. Qed.

Lemma voted_report : ∃ r, ReportInfo voted.2.1.1 !! 0 = Some r ∧ support_committee r = [3; 4]%N ∧
  against_committee r = [5]%N ∧ is_inaccessible (machine_fault_type r) = true.
Proof. eexists. vm_compute. split_and!; reflexivity. Qed.
Lemma decided_facts : decided.1 = 11 ∧ ∃ x, ReportResult decided.2.1.1 !! 0 = Some x ∧
  Result.slash_result x = Result.Pending ∧ Result.slash_exec_time x = 28810.
Proof. split; [vm_compute; reflexivity|]. eexists. vm_compute. split_and!; reflexivity. Qed.
Lemma appealed_facts : appealed.1 = 11 ∧ ∃ v, PendingSlashReview appealed.2.1.1 !! 0 = Some v ∧
  expire_time v = 28810.
Proof. split; [vm_compute; reflexivity|]. eexists. vm_compute. split; reflexivity. Qed.
Lemma freed_facts : ReporterStakeParams decided.2.1.1 = Some stake_params ∧
  used_stake (reporter_stake_of decided.2.1.1 9%N) = 0 ∧ reserved_balance decided.2.2 9%N = 4000 ∧
  OnlineProfile.stash_stake decided.2.1.2.2.1 9%N = 4000.
Proof. split_and!; vm_compute; reflexivity. Qed.
#[local] Strategy 1000 [voted decided appealed].
Lemma mt_pairs {x} : reachable T x → reachable T (x.1, x.2).
Proof. by rewrite <-surjective_pairing. Qed.

Lemma mt_reachable_votes_witness :
  ∃ r, ReportInfo voted.2.1.1 !! 0 = Some r ∧ support_committee r = [3; 4]%N ∧
    opens T 0 r true (confirm_hash (committee_ops voted.2.1.1 3%N 0)) ∧
    confirmed_committee r ≡ₚ [3; 4; 5]%N.
Proof.
  destruct voted_report as (r & Hr & Hs & Ha & Hf). exists r. split; [exact Hr|]. split; [exact Hs|].
  destruct (mt_reachable_votes T voted.1 voted.2 0 r (mt_pairs mt_voted_reachable) Hr) as (_ & _ & _ & _ & _ & _ & Ho & _ & Hc).
  split; [apply Ho; rewrite Hs; left|]. destruct (Hc hash_inj Hf) as [_ Hp]. rewrite Hs, Ha in Hp. exact Hp.
Defined.
Lemma mt_results_executed_witness :
  ∃ x, ReportResult decided.2.1.1 !! 0 = Some x ∧ 0 ∈ unhandled_report_result decided.2.1.1 28810 ∧
    (on_initialize 12 (on_finalize 11 decided.2).2).1 = Ok tt.
Proof.
  destruct decided_facts as (Ht & x & Hx & Hp & He).
  destruct (mt_results_executed T decided.1 decided.2 (mt_pairs mt_decided_reachable)) as (Hq & w' & Hw & _).
  - rewrite Ht. discriminate.
  - destruct (Hq 0 x Hx Hp) as [_ Hi]. rewrite He in Hi. rewrite Ht in Hw. exists x. split; [exact Hx|].
    split; [exact Hi|]. change 12 with (11 + 1). rewrite Hw. reflexivity.
Defined.
Lemma mt_appeals_end_with_block_witness :
  ∃ v, PendingSlashReview appealed.2.1.1 !! 0 = Some v ∧ expire_time v = 28810 ∧ apply_time v = 11 ∧
    PendingSlashReview (on_initialize 12 (on_finalize 11 appealed.2).2).2.1.1 = ∅.
Proof.
  destruct appealed_facts as (Ht & v & Hv & He).
  destruct (mt_appeals_end_with_block T appealed.1 appealed.2 (mt_pairs mt_appealed_reachable)) as (Hq & w' & Hw & Hn).
  - rewrite Ht. discriminate.
  - destruct (Hq 0 v Hv) as [Ha _]. rewrite Ht in Ha, Hw. exists v. split_and!; [exact Hv|exact He|exact Ha|].
    change 12 with (11 + 1). rewrite Hw. exact Hn.
Defined.
Lemma mt_reduce_frees_reserves_witness :
  reserved_balance decided.2.2 9%N = 4000 ∧ OnlineProfile.stash_stake decided.2.1.2.2.1 9%N = 4000 ∧
  ∃ w', dispatch T 11 (Signed 9%N) (ReporterReduceStakeCall 4000) decided.2 = (Ok tt, w') ∧
    reserved_balance w'.2 9%N = 0 ∧ OnlineProfile.stash_stake w'.1.2.2.1 9%N = 4000.
Proof.
  destruct freed_facts as (Hp & Hu & Hr & Hs). split; [exact Hr|]. split; [exact Hs|].
  destruct (mt_reduce_frees_reserves T 11 9%N 4000 stake_params decided.2 Hp) as (w' & Hw & Hz & _ & Hh).
  - rewrite Hu. discriminate.
  - rewrite Hr. discriminate.
  - exists w'. split; [exact Hw|]. split; [exact Hz|]. rewrite Hh. exact Hs.
Defined.
End Demo.
End MaintainTheorems.
