(* ===== verification/TerminatingState.v ===== *)
(** * pallet-terminating-rental: its storage

    The second rental mode repeats, in one pallet, the registry of machines, the
    verification of new machines, the rental orders and the fault reports. The
    storage items are grouped by the part that uses them: [Registry] and [Rents]
    here; the verification keeps the items of online-committee and the reports
    those of maintain-committee, whose records [State] are used again (both have
    appeals, which this pallet does not: their maps stay empty). Models the
    storage, events and errors of src/pallets/terminating-rental/src/lib.rs,
    types/custom_err.rs, and the methods "for terminating rental" of
    src/pallets/support/src/live_machine.rs and verify_online.rs. *)
From stdpp Require Import base gmap fin_maps list numbers.
From Stdlib Require Import ZArith Lia Strings.Byte.
From S2P Require Import Prelude Currency Interfaces ItemList VerifyOnline RentalTypes RentalInterfaces ReportTypes OnlineCommittee RentMachine ProfileTypes MaintainCommittee.

Module TerminatingState.
Import ItemList MachineInfo ProfileTypes RentOrder.
Abbreviation MachineId := (list byte) (only parsing).

(** ** The lists of machines and the totals of a stash *)
Definition live_bond_machine (m : MachineId) (l : LiveMachine) : LiveMachine :=
  l <| bonding_machine ::= λ x, add_item x m |>.
Definition live_add_machine_info (m : MachineId) (l : LiveMachine) : LiveMachine :=
  l <| bonding_machine ::= λ x, rm_item x m |> <| confirmed_machine ::= λ x, add_item x m |>.
Definition live_refuse_machine (m : MachineId) (l : LiveMachine) : LiveMachine :=
  l <| booked_machine ::= λ x, rm_item x m |> <| refused_machine ::= λ x, add_item x m |>.
Definition live_revert_book (m : MachineId) (l : LiveMachine) : LiveMachine :=
  l <| booked_machine ::= λ x, rm_item x m |> <| confirmed_machine ::= λ x, add_item x m |>.
Definition live_machine_exit (m : MachineId) (l : LiveMachine) : LiveMachine :=
  l <| online_machine ::= λ x, rm_item x m |> <| rented_machine ::= λ x, rm_item x m |>.
Definition live_machine_offline (m : MachineId) (l : LiveMachine) : LiveMachine :=
  l <| online_machine ::= λ x, rm_item x m |> <| rented_machine ::= λ x, rm_item x m |>
    <| offline_machine ::= λ x, add_item x m |>.

Definition stash_bond_machine (m : MachineId) (s : StashMachine) : StashMachine :=
  s <| total_machine ::= λ x, add_item x m |>.
Definition stash_refuse_machine (m : MachineId) (s : StashMachine) : StashMachine :=
  s <| total_machine ::= λ x, rm_item x m |>.
Definition stash_machine_online (m : MachineId) (gpu_num calc_point : Z) (s : StashMachine) : StashMachine :=
  s <| stash_online ::= λ x, add_item x m |>
    <| stash_gpu_num ::= λ v, saturating_add U64_MAX v gpu_num |>
    <| stash_calc_points ::= λ v, saturating_add U64_MAX v calc_point |>.
Definition stash_machine_exit (m : MachineId) (calc_point gpu_count rented_gpu_count : Z)
    (s : StashMachine) : StashMachine :=
  s <| total_machine ::= λ x, rm_item x m |> <| stash_online ::= λ x, rm_item x m |>
    <| stash_calc_points ::= λ v, saturating_sub v calc_point |>
    <| stash_gpu_num ::= λ v, saturating_sub v gpu_count |>
    <| stash_rented_gpu ::= λ v, saturating_sub v rented_gpu_count |>.

(** ** Storage *)
Record Registry := {
  OnlineDeposit : Balance;
  StashController : gmap AccountId AccountId;
  ControllerStash : gmap AccountId AccountId;
  StashServerRooms : gmap AccountId (list H256);
  StashMachines : gmap AccountId StashMachine;
  OfflineMachines : gmap BlockNumber (list MachineId);
  StashStake : gmap AccountId Balance;
  LiveMachines : LiveMachine;
  MachinesInfo : gmap MachineId MachineInfo;
  StakePerGPU : Balance;
  MachineRentedGPU : gmap MachineId Z;
  StandardGPUPointPrice : option StandardGpuPointPrice;
  RentedFinished : gmap MachineId AccountId;
}.
#[export] Instance Registry_eta : RecordEta Registry := λ r,
  Build_Registry (OnlineDeposit r) (StashController r) (ControllerStash r) (StashServerRooms r)
    (StashMachines r) (OfflineMachines r) (StashStake r) (LiveMachines r) (MachinesInfo r)
    (StakePerGPU r) (MachineRentedGPU r) (StandardGPUPointPrice r) (RentedFinished r).

Record Rents := {
  UserRented : gmap AccountId (list Z);
  MachineRentOrder : gmap MachineId MachineGPUOrder;
  NextRentId : Z;
  RentOrders : gmap Z RentOrderDetail;
  PendingConfirming : gmap BlockNumber (list Z);
  PendingRentEnding : gmap BlockNumber (list Z);
  RentFeePot : option AccountId;
  MaximumRentalDuration : Z;
  RenterTotalStake : gmap AccountId Balance;
}.
#[export] Instance Rents_eta : RecordEta Rents := λ r,
  Build_Rents (UserRented r) (MachineRentOrder r) (NextRentId r) (RentOrders r) (PendingConfirming r)
    (PendingRentEnding r) (RentFeePot r) (MaximumRentalDuration r) (RenterTotalStake r).

(** The events of the verification and of the reports are in the records of
    these parts. *)
Inductive Event :=
| ControllerStashBonded (controller stash : AccountId)
| ServerRoomGenerated (who : AccountId) (room : H256)
| StakeAdded (who : AccountId) (v : Balance)
| StakeReduced (who : AccountId) (v : Balance)
| MachineInfoAdded (m : MachineId)
| RentBlockNum (id : Z) (who : AccountId) (m : MachineId) (v : Balance) (d : BlockNumber) (num : Z)
| ConfirmReletBlockNum (who : AccountId) (m : MachineId) (v : Balance) (d : BlockNumber)
| ReletBlockNum (id : Z) (who : AccountId) (m : MachineId) (v : Balance) (d : BlockNumber) (num : Z).

Record State := {
  registry : Registry;
  rents : Rents;
  verify : OnlineCommittee.State;
  reports : MaintainCommittee.State;
  events : list Event;
}.
#[export] Instance State_eta : RecordEta State := λ s,
  Build_State (registry s) (rents s) (verify s) (reports s) (events s).

(** The pot of the burnt fees has no setter: a migration fixed it. *)
Definition genesis (pot : option AccountId) : State := {|
  registry := {| OnlineDeposit := 0; StashController := ∅; ControllerStash := ∅; StashServerRooms := ∅;
    StashMachines := ∅; OfflineMachines := ∅; StashStake := ∅; LiveMachines := LiveMachine_default;
    MachinesInfo := ∅; StakePerGPU := 0; MachineRentedGPU := ∅; StandardGPUPointPrice := None;
    RentedFinished := ∅ |};
  rents := {| UserRented := ∅; MachineRentOrder := ∅; NextRentId := 0; RentOrders := ∅;
    PendingConfirming := ∅; PendingRentEnding := ∅; RentFeePot := pot; MaximumRentalDuration := 60;
    RenterTotalStake := ∅ |};
  verify := OnlineCommittee.genesis; reports := MaintainCommittee.genesis; events := [] |}.

Definition deposit_event (e : Event) (s : State) : State := s <| events ::= λ es, es ++ [e] |>.

(** The values of the maps with a default. *)
Definition stash_machines (r : Registry) (a : AccountId) : StashMachine :=
  default StashMachine_default (StashMachines r !! a).
Definition stash_stake (r : Registry) (a : AccountId) : Balance := default 0 (StashStake r !! a).
Definition stash_server_rooms (r : Registry) (a : AccountId) : list H256 :=
  default [] (StashServerRooms r !! a).
Definition machine_rented_gpu (r : Registry) (m : MachineId) : Z := default 0 (MachineRentedGPU r !! m).
Definition offline_machines (r : Registry) (t : BlockNumber) : list MachineId :=
  default [] (OfflineMachines r !! t).
Definition machine_rent_order (r : Rents) (m : MachineId) : MachineGPUOrder :=
  default MachineGPUOrder_default (MachineRentOrder r !! m).
Definition renter_total_stake (r : Rents) (a : AccountId) : Balance := default 0 (RenterTotalStake r !! a).

Definition put_machine (m : MachineId) (i : MachineInfo) (r : Registry) : Registry :=
  r <| MachinesInfo ::= <[m := i]> |>.
Definition mutate_stash (a : AccountId) (f : StashMachine → StashMachine) (r : Registry) : Registry :=
  r <| StashMachines ::= <[a := f (stash_machines r a)]> |>.

(** ** Errors *)
Inductive Error :=
| AlreadyController | NoStashBond | PayTxFeeFailed | MachineIdExist
| SigMachineIdNotEqualBondedMachineId | ConvertMachineIdToWalletFailed | BadSignature | BadMsgLen
| MachineStashNotEqualControllerStash | BalanceNotEnough | ErrTelecomIsNull | ServerRoomNotFound
| ErrNotAllowedChangeMachineInfo | ErrNotMachineController | CalaStakeAmountFailed | ErrClaimRewardFailed
| DuplicateHash | InfoNotFeatHash | NotInBookList | AlreadySubmitRaw | AlreadySubmitHash | NotSubmitHash
| TimeNotAllow | MachineNotRentable | GetMachinePriceFailed | GPUNotEnough | OnlyHalfHourAllowed
| OnlyAllowIntegerMultipleOfHour | Overflow | InsufficientValue | NoOrderExist | NotOrderRenter
| ExpiredConfirm | StatusNotAllowed | UnlockToPayFeeFailed | StakeNotEnough | ReportNotAllowCancel
| ReportNotAllowBook | NotReporter | NotCommittee | AlreadyBooked | GetStakeAmountFailed | StakeFailed
| OrderStatusNotFeat | NotOrderReporter | NotOrderCommittee | NotNeedEncryptedInfo | NotInBookedList
| NotProperCommittee | NotEqualReporterSubmit | NotEqualCommitteeSubmit | Unknown | ReletTooShort
| OfflineNotYetAllowed.

Definition from_online_err (e : OnlineErr) : Error :=
  match e with
  | NotAllowedChangeMachineInfo => ErrNotAllowedChangeMachineInfo
  | TelecomIsNull => ErrTelecomIsNull
  | NotMachineController => ErrNotMachineController
  | CalcStakeAmountFailed => CalaStakeAmountFailed
  | ClaimRewardFailed => ErrClaimRewardFailed
  end.

(** The errors of the parts whose code is that of another pallet: the same names
    in this pallet's enum, with those of [VerifyErr] and [ReportErr]. *)
Definition verify_error (e : OnlineCommittee.Error) : Error :=
  match e with
  | OnlineCommittee.ErrNotInBookList => NotInBookList
  | OnlineCommittee.ErrAlreadySubmitHash => AlreadySubmitHash
  | OnlineCommittee.ErrTimeNotAllow => TimeNotAllow
  | OnlineCommittee.ErrNotSubmitHash => NotSubmitHash
  | OnlineCommittee.ErrAlreadySubmitRaw => AlreadySubmitRaw
  | OnlineCommittee.InfoNotFeatHash => InfoNotFeatHash
  | OnlineCommittee.DuplicateHash => DuplicateHash
  | OnlineCommittee.ErrOverflow => Overflow
  | _ => Unknown
  end.
Definition report_error (e : MaintainCommittee.Error) : Error :=
  match e with
  | MaintainCommittee.NotCommittee => NotCommittee
  | MaintainCommittee.ErrAlreadyBooked => AlreadyBooked
  | MaintainCommittee.ErrOrderStatusNotFeat => OrderStatusNotFeat
  | MaintainCommittee.ErrNotInBookedList => NotInBookedList
  | MaintainCommittee.ErrNotOrderReporter => NotOrderReporter
  | MaintainCommittee.ErrNotOrderCommittee => NotOrderCommittee
  | MaintainCommittee.GetStakeAmountFailed => GetStakeAmountFailed
  | MaintainCommittee.StakeFailed => StakeFailed
  | MaintainCommittee.OrderNotAllowCancel => ReportNotAllowCancel
  | MaintainCommittee.ErrOrderNotAllowBook => ReportNotAllowBook
  | MaintainCommittee.ErrNotProperCommittee => NotProperCommittee
  | MaintainCommittee.NotEqualReporterSubmit => NotEqualReporterSubmit
  | MaintainCommittee.NotEqualCommitteeSubmit => NotEqualCommitteeSubmit
  | MaintainCommittee.ErrNotNeedEncryptedInfo => NotNeedEncryptedInfo
  | MaintainCommittee.BalanceNotEnough => BalanceNotEnough
  | MaintainCommittee.StakeNotEnough => StakeNotEnough
  | MaintainCommittee.NotReporter => NotReporter
  | MaintainCommittee.DuplicateHash => DuplicateHash
  | _ => Unknown
  end.

(** Why a call has no result: its error, or a loop that does not end. *)
Inductive Stop := Fails (e : DispatchError Error) | Hangs.
Definition error (e : Error) : Stop := Fails (Module e).

(** The hash function, signatures and address decoding. *)
Record Config := {
  blake2_128 : bytes → Report.ReportHash;
  get_account_from_str : bytes → option AccountId;
  verify_sig : bytes → bytes → bytes → bool;
}.
Definition verify_config (T : Config) : OnlineCommittee.Config :=
  {| OnlineCommittee.blake2_128 := blake2_128 T; OnlineCommittee.CancelSlashOrigin := λ _, false |}.
Definition report_config (T : Config) : MaintainCommittee.Config :=
  {| MaintainCommittee.blake2_128 := blake2_128 T; MaintainCommittee.CancelSlashOrigin := λ _, false |}.

(** ** A part of the storage *)
Section focus.
Context {RT L : Type}.
Abbreviation World := ((State * RT) * L)%type.

(** Runs the code of a part on its items. *)
Definition focus {X E B} (get : State → X) (put : X → State → State) (m : M ((X * RT) * L) E B) :
    M World E B := λ w,
  let r := m ((get w.1.1, w.1.2), w.2) in (r.1, ((put r.2.1.1 w.1.1, r.2.1.2), r.2.2)).
Definition on_verify {E B} (m : M ((OnlineCommittee.State * RT) * L) E B) : M World E B :=
  focus verify (λ v s, s <| verify := v |>) m.
Definition on_reports {E B} (m : M ((MaintainCommittee.State * RT) * L) E B) : M World E B :=
  focus reports (λ v s, s <| reports := v |>) m.

(** The same, with the error renamed. *)
Definition rename_error {S E E' A} (f : E → E') (m : M S E A) : M S E' A := λ s,
  match m s with (Ok a, s') => (Ok a, s') | (Err e, s') => (Err (f e), s') end.
Definition renamed {E} (f : E → Error) (e : DispatchError E) : Stop :=
  Fails match e with
        | BadOrigin => BadOrigin
        | ArithmeticError => ArithmeticError
        | CurrencyError => CurrencyError
        | Module e => Module (f e)
        end.
Definition verify_call {A} (m : M ((OnlineCommittee.State * RT) * L) (DispatchError OnlineCommittee.Error) A) :
    M World Stop A := rename_error (renamed verify_error) (on_verify m).
Definition report_call {A} (m : M ((MaintainCommittee.State * RT) * L) (DispatchError MaintainCommittee.Error) A) :
    M World Stop A := rename_error (renamed report_error) (on_reports m).
Definition fails {S A} (m : M S (DispatchError Error) A) : M S Stop A := rename_error Fails m.

Definition reg_gets {E A} (f : Registry → A) : M World E A := own_gets (λ s, f (registry s)).
Definition reg_modify {E} (f : Registry → Registry) : M World E unit := own_modify (λ s, s <| registry ::= f |>).
Definition rent_gets {E A} (f : Rents → A) : M World E A := own_gets (λ s, f (rents s)).
Definition rent_modify {E} (f : Rents → Rents) : M World E unit := own_modify (λ s, s <| rents ::= f |>).
Definition rt_gets {E A} (f : RT → A) : M World E A := gets (λ w, f w.1.2).
End focus.
End TerminatingState.
