(* ===== verification/TerminatingRental.v ===== *)
(** * pallet-terminating-rental

    A rental mode in which either side may end an order early. Owners bond
    machines with a deposit, three members of the committee verify them, renters
    reserve the fee of an order and pay, when it ends, for the time used; the
    owner may take a machine offline, which ends its orders; renters report
    machines with false hardware. Models src/pallets/terminating-rental/src:
    lib.rs, online_verify_slash.rs and report_machine_fault.rs. The calls of the
    verification and of the reports whose code is, up to the names of the storage
    items, that of online-committee or maintain-committee are those of
    OnlineCommittee.v and MaintainCommittee.v, run on the items of this pallet;
    the distribution, the summary and the slashes of the verification are
    written out. *)
From stdpp Require Import base gmap fin_maps list numbers relations.
From Stdlib Require Import ZArith Lia Strings.Byte.
From S2P Require Import Prelude Currency Interfaces ItemList VerifyOnline RentalTypes RentalInterfaces ReportTypes OnlineCommittee RentMachine ProfileTypes MaintainCommittee TerminatingState.

Module TerminatingRental.
Import (hints) VerifyOnline OnlineCommittee MaintainCommittee Report.
Import ItemList MachineInfo ProfileTypes RentOrder TerminatingState.

Definition DISTRIBUTION : nat := 9.
Definition SUBMIT_HASH_END : Z := 36 * VerifyOnline.ONE_HOUR.
Definition SUBMIT_RAW_START : Z := 36 * VerifyOnline.ONE_HOUR.
Definition WAITING_CONFIRMING_DELAY : Z := 15 * VerifyOnline.ONE_MINUTE.

Section pallet.
Context {L RT : Type} `{!ReservableCurrency L}.
Context `{!ManageCommittee L RT, !GNOps L RT, !TxFee L RT, !RentPrice RT, !ServerRooms RT, !RandomDraw RT} {P : PerThing}.
Context (T : Config).
Abbreviation World := ((State * RT) * L)%type.
Abbreviation MT := (M World Stop).
Abbreviation MU := (M World unit).
Abbreviation MF := (M World Fault).
Abbreviation RWorld := ((MaintainCommittee.State * RT) * L)%type.

(** ** Machines and stakes *)

Definition pay_tx_fee (who : AccountId) : MT unit :=
  map_err (error PayTxFeeFailed) (with_callee (pay_fixed_tx_fee who)).

Definition check_bonding_msg (stash : AccountId) (m : MachineId) (msg sig : bytes) : MT unit :=
  ensure (Nat.eqb (length msg) 112) (error BadMsgLen);;
  ensure (bool_decide (m = take 64 msg)) (error SigMachineIdNotEqualBondedMachineId);;
  sig_stash_account ← ok_or (get_account_from_str T (drop 64 msg)) (error ConvertMachineIdToWalletFailed);
  ensure (bool_decide (sig_stash_account = stash)) (error MachineStashNotEqualControllerStash);;
  ensure (verify_sig T msg sig m) (error BadSignature).

Definition change_stash_total_stake (who : AccountId) (amount : Balance) (is_add : bool) : MU unit :=
  stash_stake ← reg_gets (λ r, stash_stake r who);
  stash_stake ← (if is_add then
    stash_stake ← ok_or (checked_add U128_MAX stash_stake amount) tt;
    ok ← gets (λ w, can_reserve who amount w.2);
    ensure ok tt;;
    m_reserve who amount tt;;
    mret stash_stake
  else
    stash_stake ← ok_or (checked_sub stash_stake amount) tt;
    m_unreserve who amount;;
    mret stash_stake);
  reg_modify (λ r, r <| StashStake ::= <[who := stash_stake]> |>);;
  own_modify (deposit_event (if is_add then StakeAdded who amount else StakeReduced who amount)).

Definition stake_per_gpu_limit : MT Balance :=
  by_num ← reg_gets StakePerGPU;
  by_value ← rt_gets (λ h, default by_num (dbc_amount_by_value h 800000000));
  mret (Z.min by_num by_value).

Definition get_machine_price (r : Registry) (machine_point need_gpu total_gpu : Z) : option Z :=
  if total_gpu =? 0 then None
  else
    price ← StandardGPUPointPrice r;
    x ← checked_mul U64_MAX (gpu_price price) machine_point;
    x ← checked_mul U64_MAX x 10000;
    x ← checked_div x (gpu_point price);
    x ← checked_mul U64_MAX x need_gpu;
    x ← checked_div x total_gpu;
    checked_div x 10000.

(** [Self::machines_info(..).ok_or(Unknown)], and the same of an order. *)
Definition the_machine (m : MachineId) : MT MachineInfo :=
  maybe_info ← reg_gets (λ r, MachinesInfo r !! m);
  ok_or maybe_info (error Unknown).
Definition the_order (id : Z) : MT RentOrderDetail :=
  maybe_order ← rent_gets (λ r, RentOrders r !! id);
  ok_or maybe_order (error Unknown).

Definition set_stake_per_gpu (origin : Origin) (v : Balance) : MT unit :=
  fails (ensure_root origin);;
  reg_modify (λ r, r <| StakePerGPU := v |>).
Definition set_online_deposit (origin : Origin) (v : Balance) : MT unit :=
  fails (ensure_root origin);;
  reg_modify (λ r, r <| OnlineDeposit := v |>).
Definition set_standard_gpu_point_price (origin : Origin) (point_price : StandardGpuPointPrice) : MT unit :=
  fails (ensure_root origin);;
  reg_modify (λ r, r <| StandardGPUPointPrice := Some point_price |>).

Definition set_controller (origin : Origin) (controller : AccountId) : MT unit :=
  stash ← fails (ensure_signed origin);
  taken ← reg_gets (λ r, bool_decide (is_Some (ControllerStash r !! controller)));
  ensure (negb taken) (error AlreadyController);;
  bound ← reg_gets (λ r, bool_decide (is_Some (StashController r !! stash)));
  ensure (negb bound) (error AlreadyController);;
  reg_modify (λ r, r <| StashController ::= <[stash := controller]> |>);;
  reg_modify (λ r, r <| ControllerStash ::= <[controller := stash]> |>);;
  own_modify (deposit_event (ControllerStashBonded controller stash)).

Definition gen_server_room (origin : Origin) : MT unit :=
  controller ← fails (ensure_signed origin);
  maybe_stash ← reg_gets (λ r, ControllerStash r !! controller);
  stash ← ok_or maybe_stash (error NoStashBond);
  pay_tx_fee controller;;
  new_server_room ← with_callee (λ w : RT * L, let '(r, h) := rnd_server_room w.1 in (Ok r, (h, w.2)));
  reg_modify (λ r, r <| StashServerRooms ::=
    <[stash := add_item (stash_server_rooms r stash) new_server_room]> |>);;
  own_modify (deposit_event (ServerRoomGenerated controller new_server_room)).

Definition bond_machine (now : BlockNumber) (origin : Origin) (m : MachineId) (msg sig : bytes) : MT unit :=
  controller ← fails (ensure_signed origin);
  maybe_stash ← reg_gets (λ r, ControllerStash r !! controller);
  stash ← ok_or maybe_stash (error NoStashBond);
  online_deposit ← reg_gets OnlineDeposit;
  exists_already ← reg_gets (λ r, bool_decide (is_Some (MachinesInfo r !! m)));
  ensure (negb exists_already) (error MachineIdExist);;
  check_bonding_msg stash m msg sig;;
  map_err (error BalanceNotEnough) (change_stash_total_stake stash online_deposit true);;
  reg_modify (λ r, r <| LiveMachines ::= live_bond_machine m |>);;
  reg_modify (mutate_stash stash (stash_bond_machine m));;
  reg_modify (put_machine m (MachineInfo.bond_machine controller stash now online_deposit)).

(** The caller controls the machine's stash. *)
Definition ensure_controller (info : MachineInfo) (who : AccountId) : MT unit :=
  controller ← reg_gets (λ r, StashController r !! machine_stash info);
  ensure (bool_decide (controller = Some who)) (error ErrNotMachineController).

Definition add_machine_info (origin : Origin) (m : MachineId) (info : StakerCustomizeInfo) : MT unit :=
  controller ← fails (ensure_signed origin);
  machine_info ← the_machine m;
  ensure_controller machine_info controller;;
  rooms ← reg_gets (λ r, stash_server_rooms r (machine_stash machine_info));
  ensure (is_ok (binary_search rooms (server_room info))) (error ServerRoomNotFound);;
  machine_info ← (match MachineInfo.add_machine_info info machine_info with
                  | Ok i => mret i
                  | Err e => fail (error (from_online_err e))
                  end);
  reg_modify (λ r, r <| LiveMachines ::= live_add_machine_info m |>);;
  reg_modify (put_machine m machine_info);;
  own_modify (deposit_event (MachineInfoAdded m)).

(** ** Orders *)

Definition change_renter_total_stake (who : AccountId) (amount : Balance) (is_add : bool) : MU unit :=
  current_stake ← rent_gets (λ r, renter_total_stake r who);
  new_stake ← (if is_add then
    ok ← gets (λ w, can_reserve who amount w.2);
    ensure ok tt;;
    m_reserve who amount tt;;
    ok_or (checked_add U128_MAX current_stake amount) tt
  else
    ensure (amount <=? current_stake) tt;;
    m_unreserve who amount;;
    ok_or (checked_sub current_stake amount) tt);
  rent_modify (λ r, r <| RenterTotalStake ::= <[who := new_stake]> |>).

(** The candidate of the loop does not change from one iteration to the next, so
    it ends at once or never. *)
Definition get_new_rent_id : MT Z := λ w,
  let rent_id := NextRentId (rents w.1.1) in
  let new_rent_id := if rent_id =? U64_MAX then 0 else rent_id + 1 in
  if decide (is_Some (RentOrders (rents w.1.1) !! new_rent_id)) then (Err Hangs, w)
  else (Ok rent_id, ((w.1.1 <| rents ::= λ r, r <| NextRentId := new_rent_id |> |>, w.1.2), w.2)).

Definition change_machine_status_on_rent_start (m : MachineId) (gpu_num : Z) : MU unit :=
  maybe_info ← reg_gets (λ r, MachinesInfo r !! m);
  machine_info ← ok_or maybe_info tt;
  reg_modify (put_machine m (machine_info <| machine_status := Rented |>));;
  reg_modify (λ r, r <| MachineRentedGPU ::=
    <[m := saturating_add U32_MAX (machine_rented_gpu r m) gpu_num]> |>).

Definition change_machine_status_on_confirmed (m : MachineId) (renter : AccountId) : MU unit :=
  maybe_info ← reg_gets (λ r, MachinesInfo r !! m);
  machine_info ← ok_or maybe_info tt;
  reg_modify (mutate_stash (machine_stash machine_info) (λ s, s <| stash_rented_gpu ::=
    λ v, saturating_add U64_MAX v (MachineInfo.gpu_num machine_info) |>));;
  reg_modify (put_machine m (machine_info <| renters ::= λ l, add_item l renter |>
    <| total_rented_times ::= λ v, (v + 1) mod 2 ^ 64 |>));;
  reg_modify (λ r, r <| LiveMachines ::= λ l, l <| online_machine ::= λ x, rm_item x m |>
    <| rented_machine ::= λ x, add_item x m |> |>).

Definition transfer_to (from to : AccountId) (v : Balance) : MT unit :=
  ignore (m_transfer (E:=unit) from to v KeepAlive tt).

(** Releases the renter's stake and pays the fee: 5% to the pot, of the 1% for
    the members who verified the machine its share to each, the rest to the
    stash, which stakes of it what the machine still lacks. *)
Definition pay_rent_fee (order : RentOrderDetail) (fee : Balance) (m : MachineId) : MT unit :=
  machine_info ← the_machine m;
  m_unreserve (renter order) (RentOrder.stake_amount order);;
  let reward_to_stash := per_mul (from_rational 99 100) fee in
  let reward_to_committee := saturating_sub fee reward_to_stash in
  pot ← rent_gets RentFeePot;
  let burn_amount := match pot with Some _ => per_mul (from_rational 5 100) fee | None => 0 end in
  (match pot with Some burn_pot => transfer_to (renter order) burn_pot burn_amount | None => mret tt end);;
  let fee := saturating_sub fee burn_amount in
  let committee := MachineInfo.reward_committee machine_info in
  let committee_each_get :=
    per_mul (from_rational 1 (Z.of_nat (length committee) mod 2 ^ 32)) reward_to_committee in
  for_each committee (λ a, transfer_to (renter order) a committee_each_get);;
  let fee := foldl (λ f _, saturating_sub f committee_each_get) fee committee in
  transfer_to (renter order) (machine_stash machine_info) fee;;
  limit ← stake_per_gpu_limit;
  max_stake ← ok_or (checked_mul U128_MAX limit (MachineInfo.gpu_num machine_info)) (error Overflow);
  if MachineInfo.stake_amount machine_info <? max_stake then
    let stake_amount := Z.min fee (saturating_sub max_stake (MachineInfo.stake_amount machine_info)) in
    m_reserve (machine_stash machine_info) stake_amount (Fails CurrencyError);;
    reg_modify (put_machine m (machine_info <| MachineInfo.stake_amount ::=
      λ v, saturating_add U128_MAX v stake_amount |>))
  else mret tt.

Definition rent_machine (now : BlockNumber) (origin : Origin) (m : MachineId) (rent_gpu_num : Z)
    (duration : BlockNumber) : MT unit :=
  who ← fails (ensure_signed origin);
  machine_info ← the_machine m;
  rented_gpu ← reg_gets (λ r, machine_rented_gpu r m);
  let gpu_num := MachineInfo.gpu_num machine_info in
  if (gpu_num =? 0) || (duration =? 0) then mret tt
  else
    ensure ((rent_gpu_num + rented_gpu) mod 2 ^ 32 <=? gpu_num) (error GPUNotEnough);;
    ensure (duration mod Report.HALF_HOUR =? 0) (error OnlyAllowIntegerMultipleOfHour);;
    ensure (can_rent machine_info) (error MachineNotRentable);;
    maximum ← rent_gets MaximumRentalDuration;
    let duration := Z.min duration (saturating_mul U32_MAX maximum VerifyOnline.ONE_DAY) in
    pay_tx_fee who;;
    maybe_price ← reg_gets (λ r, get_machine_price r (calc_point machine_info) rent_gpu_num gpu_num);
    machine_price ← ok_or maybe_price (error GetMachinePriceFailed);
    rent_fee_value ← ok_or (RentMachine.fee_value machine_price duration) (error Overflow);
    maybe_fee ← rt_gets (λ h, dbc_amount_by_value h rent_fee_value);
    rent_fee ← ok_or maybe_fee (error Overflow);
    rent_end ← ok_or (checked_add U32_MAX now duration) (error Overflow);
    map_err (error InsufficientValue) (change_renter_total_stake who rent_fee true);;
    rent_id ← get_new_rent_id;
    o ← rent_gets (λ r, machine_rent_order r m);
    let '(rentable_gpu_index, o) := gen_rentable_gpu rent_gpu_num gpu_num o in
    let o := o <| rent_order ::= λ l, add_item l rent_id |> in
    rent_modify (λ r, r <| MachineRentOrder ::= <[m := o]> |>);;
    rent_modify (λ r, r <| RentOrders ::= <[rent_id :=
      new_order m who now rent_end rent_fee rent_gpu_num rentable_gpu_index]> |>);;
    map_err (error Unknown) (change_machine_status_on_rent_start m rent_gpu_num);;
    rent_modify (λ r, r <| UserRented ::= RentMachine.add_to who rent_id |>
      <| PendingRentEnding ::= RentMachine.add_to rent_end rent_id |>
      <| PendingConfirming ::=
           RentMachine.add_to (VerifyOnline.add_block now WAITING_CONFIRMING_DELAY) rent_id |>);;
    own_modify (deposit_event (RentBlockNum rent_id who m rent_fee duration gpu_num)).

(** [mutate] with [rm_item]: the entry stays also when its list becomes empty. *)
Definition rm_at (t : BlockNumber) (id : Z) (x : gmap BlockNumber (list Z)) : gmap BlockNumber (list Z) :=
  <[t := rm_item (RentMachine.list_at x t) id]> x.

Definition confirm_rent (now : BlockNumber) (origin : Origin) (id : Z) : MT unit :=
  who ← fails (ensure_signed origin);
  order_info ← the_order id;
  let m := RentOrder.machine_id order_info in
  ensure (bool_decide (renter order_info = who)) (error NoOrderExist);;
  ensure (bool_decide (rent_status order_info = WaitingVerifying)) (error NoOrderExist);;
  machine_start_duration ← ok_or (checked_sub now (rent_start order_info)) (error Overflow);
  ensure (machine_start_duration <=? WAITING_CONFIRMING_DELAY) (error ExpiredConfirm);;
  machine_info ← the_machine m;
  ensure (bool_decide (machine_status machine_info = Rented)) (error StatusNotAllowed);;
  let rent_fee := RentOrder.stake_amount order_info in
  let rent_duration := saturating_sub (rent_end order_info) (rent_start order_info) in
  let order_info := confirm_order now order_info in
  map_err (error Unknown) (change_machine_status_on_confirmed m who);;
  rent_modify (λ r, r <| PendingConfirming ::=
    rm_at (VerifyOnline.add_block (rent_start order_info) WAITING_CONFIRMING_DELAY) id |>);;
  rent_modify (λ r, r <| RentOrders ::= <[id := order_info]> |>);;
  own_modify (deposit_event (ConfirmReletBlockNum who m rent_fee rent_duration)).

Definition relet_machine (now : BlockNumber) (origin : Origin) (id : Z) (duration : BlockNumber) : MT unit :=
  who ← fails (ensure_signed origin);
  order_info ← the_order id;
  let pre_rent_end := rent_end order_info in
  let m := RentOrder.machine_id order_info in
  let gpu_num := RentOrder.gpu_num order_info in
  ensure (10 * VerifyOnline.ONE_MINUTE <=? duration) (error ReletTooShort);;
  ensure (bool_decide (renter order_info = who)) (error NoOrderExist);;
  ensure (bool_decide (rent_status order_info = Renting)) (error NoOrderExist);;
  machine_info ← the_machine m;
  max_rent_end ← ok_or (checked_add U32_MAX now (60 * VerifyOnline.ONE_DAY)) (error Overflow);
  let wanted_rent_end := VerifyOnline.add_block pre_rent_end duration in
  let add_duration := if wanted_rent_end <=? max_rent_end then duration else 60 * VerifyOnline.ONE_DAY in
  if add_duration =? 0 then mret tt
  else
    maybe_price ← reg_gets (λ r, get_machine_price r (calc_point machine_info) gpu_num
      (MachineInfo.gpu_num machine_info));
    machine_price ← ok_or maybe_price (error GetMachinePriceFailed);
    rent_fee_value ← ok_or (RentMachine.fee_value machine_price add_duration) (error Overflow);
    maybe_fee ← rt_gets (λ h, dbc_amount_by_value h rent_fee_value);
    rent_fee ← ok_or maybe_fee (error Overflow);
    user_balance ← gets (λ w, free_balance w.2 who);
    ensure (rent_fee <? user_balance) (error InsufficientValue);;
    map_err (error InsufficientValue) (change_renter_total_stake who rent_fee true);;
    new_end ← ok_or (checked_add U32_MAX (rent_end order_info) add_duration) (error Overflow);
    new_stake ← ok_or (checked_add U128_MAX (RentOrder.stake_amount order_info) rent_fee) (error Overflow);
    let order_info := order_info <| rent_end := new_end |> <| RentOrder.stake_amount := new_stake |> in
    rent_modify (λ r, r <| PendingRentEnding ::= rm_at pre_rent_end id |>);;
    rent_modify (λ r, r <| PendingRentEnding ::= RentMachine.add_to new_end id |>);;
    rent_modify (λ r, r <| RentOrders ::= <[id := order_info]> |>);;
    own_modify (deposit_event (ReletBlockNum id who m rent_fee add_duration gpu_num)).

(** The part of an order's stake that pays for [used] of its time. *)
Definition fee_for (order : RentOrderDetail) (used : BlockNumber) : Balance :=
  per_mul (from_rational used (saturating_sub (rent_end order) (rent_start order)))
    (RentOrder.stake_amount order).

(** The loop over the other orders of the machine, which stops at an order of
    the same renter. *)
Fixpoint leave_machine (who : AccountId) (ids : list Z) : MT unit :=
  match ids with
  | [] => mret tt
  | id :: ids =>
      order ← the_order id;
      if bool_decide (renter order = who) then mret tt
      else
        machine_info ← the_machine (RentOrder.machine_id order);
        reg_modify (put_machine (RentOrder.machine_id order)
          (machine_info <| renters ::= λ l, rm_item l who |>));;
        leave_machine who ids
  end.

Definition terminate_rent (now : BlockNumber) (origin : Origin) (id : Z) : MT unit :=
  who ← fails (ensure_signed origin);
  order ← the_order id;
  ensure (bool_decide (who = renter order)) (error NotOrderRenter);;
  let rent_fee := fee_for order (saturating_sub now (rent_start order)) in
  let m := RentOrder.machine_id order in
  o ← rent_gets (λ r, machine_rent_order r m);
  let o := clean_expired_order id (gpu_index order) o in
  leave_machine who (rent_order o);;
  rent_modify (λ r, r <| MachineRentOrder ::= <[m := o]> |>);;
  pay_rent_fee order rent_fee m;;
  rent_modify (λ r, r <| RentOrders ::= delete id |>).

(** An order that the owner ends: the time used counts in full hours. *)
Definition settle_order (now : BlockNumber) (m : MachineId) (id : Z) : MT unit :=
  order ← the_order id;
  let rent_duration :=
    saturating_sub now (rent_start order) / VerifyOnline.ONE_HOUR * VerifyOnline.ONE_HOUR in
  pay_rent_fee order (fee_for order rent_duration) m;;
  rent_modify (λ r, r <| RentOrders ::= delete id |>).

Definition machine_offline (now : BlockNumber) (origin : Origin) (m : MachineId) : MT unit :=
  controller ← fails (ensure_signed origin);
  machine_info ← the_machine m;
  ensure_controller machine_info controller;;
  ensure (saturating_add U32_MAX (last_online_height machine_info) VerifyOnline.ONE_DAY <=? now)
    (error OfflineNotYetAllowed);;
  o ← rent_gets (λ r, machine_rent_order r m);
  reg_modify (put_machine m ((MachineInfo.machine_offline now machine_info) <| renters := [] |>));;
  for_each (rent_order o) (settle_order now m);;
  rent_modify (λ r, r <| MachineRentOrder ::= delete m |>);;
  reg_modify (λ r, r <| OfflineMachines ::=
    let t := VerifyOnline.add_block now (10 * VerifyOnline.ONE_DAY) in
    <[t := add_item (offline_machines r t) m]> |>).

Definition machine_online (now : BlockNumber) (origin : Origin) (m : MachineId) : MT unit :=
  controller ← fails (ensure_signed origin);
  machine_info ← the_machine m;
  ensure_controller machine_info controller;;
  match machine_status machine_info with
  | StakerReportOffline offline_expire_time _ =>
      reg_modify (λ r,
        let l := rm_item (offline_machines r offline_expire_time) m in
        r <| OfflineMachines ::= if Nat.eqb (length l) 0 then delete offline_expire_time
                                 else <[offline_expire_time := l]> |>);;
      reg_modify (put_machine m (machine_info <| machine_status := Online |> <| last_online_height := now |>))
  | _ => fail (error StatusNotAllowed)
  end.

Definition machine_exit (now : BlockNumber) (origin : Origin) (m : MachineId) : MT unit :=
  controller ← fails (ensure_signed origin);
  machine_info ← the_machine m;
  ensure_controller machine_info controller;;
  ensure (365 * VerifyOnline.ONE_DAY <=? saturating_sub now (online_height machine_info)) (error TimeNotAllow);;
  o ← rent_gets (λ r, machine_rent_order r m);
  for_each (rent_order o) (settle_order now m);;
  rent_modify (λ r, r <| MachineRentOrder ::= delete m |>);;
  m_unreserve (machine_stash machine_info) (MachineInfo.stake_amount machine_info);;
  reg_modify (λ r, r <| MachinesInfo ::= delete m |>);;
  used ← rent_gets (λ r, length (used_gpu (machine_rent_order r m)));
  reg_modify (mutate_stash (machine_stash machine_info) (stash_machine_exit m (calc_point machine_info)
    (MachineInfo.gpu_num machine_info) (Z.of_nat used)));;
  reg_modify (λ r, r <| LiveMachines ::= live_machine_exit m |>);;
  rent_modify (λ r, r <| MachineRentOrder ::= delete m |>).

(** ** The end of orders and of machines offline *)

Definition is_last_rent (r : Rents) (m : MachineId) : option bool :=
  orders ← mapM (λ id, RentOrders r !! id) (rent_order (machine_rent_order r m));
  let renting_count := length (filter (λ i, rent_status i = Renting) orders) in
  Some (renting_count <? 2)%nat.

Definition change_machine_status_on_rent_end (m : MachineId) (rented_gpu_num : Z)
    (rent_duration : BlockNumber) (is_last_rent : bool) (renter : AccountId) : MU unit :=
  maybe_info ← reg_gets (λ r, MachinesInfo r !! m);
  machine_info ← ok_or maybe_info tt;
  live_machines ← reg_gets LiveMachines;
  let gpu_num := MachineInfo.gpu_num machine_info in
  if gpu_num =? 0 then mret tt
  else
    let machine_info := machine_info
      <| total_rented_duration ::=
           λ v, VerifyOnline.add_block v (per_mul (from_rational rented_gpu_num gpu_num) rent_duration) |>
      <| renters ::= λ l, rm_item l renter |> in
    let ends := bool_decide (machine_status machine_info = Rented) && is_last_rent in
    let live_machines :=
      if ends then live_machines <| rented_machine ::= λ x, rm_item x m |>
                                 <| online_machine ::= λ x, add_item x m |>
      else live_machines in
    (match machine_status machine_info with
     | ReporterReportOffline _ _ _ _ | StakerReportOffline _ _ =>
         reg_modify (λ r, r <| RentedFinished ::= <[m := renter]> |>)
     | _ => mret tt
     end);;
    (if ends then
       reg_modify (mutate_stash (machine_stash machine_info) (λ s, s <| stash_rented_gpu ::=
         λ v, saturating_sub v gpu_num |>))
     else mret tt);;
    reg_modify (λ r, r <| MachineRentedGPU ::=
      <[m := saturating_sub (machine_rented_gpu r m) rented_gpu_num]> |>);;
    reg_modify (λ r, r <| LiveMachines := live_machines |>);;
    reg_modify (put_machine m (if ends then machine_info <| machine_status := Online |> else machine_info)).

Definition clean_order (who : AccountId) (id : Z) : MU unit :=
  maybe_order ← rent_gets (λ r, RentOrders r !! id);
  order ← ok_or maybe_order tt;
  rent_modify (λ r, r <| PendingRentEnding ::= RentMachine.rm_from (rent_end order) id |>
    <| PendingConfirming ::=
         RentMachine.rm_from (VerifyOnline.add_block (rent_start order) WAITING_CONFIRMING_DELAY) id |>
    <| MachineRentOrder ::= λ x, <[RentOrder.machine_id order :=
         clean_expired_order id (gpu_index order) (machine_rent_order r (RentOrder.machine_id order))]> x |>
    <| UserRented ::= RentMachine.rm_from who id |>
    <| RentOrders ::= delete id |>).

Definition finish_rent (id : Z) : MU unit :=
  maybe_order ← rent_gets (λ r, RentOrders r !! id);
  order ← ok_or maybe_order tt;
  let m := RentOrder.machine_id order in
  let rent_duration := saturating_sub (rent_end order) (rent_start order) in
  ignore (pay_rent_fee order (RentOrder.stake_amount order) m);;
  maybe_last ← rent_gets (λ r, is_last_rent r m);
  last ← ok_or maybe_last tt;
  ignore (change_machine_status_on_rent_end m (RentOrder.gpu_num order) rent_duration last (renter order));;
  ignore (clean_order (renter order) id).

Definition check_if_rent_finished (now : BlockNumber) : MU unit :=
  pending ← rent_gets (λ r, PendingRentEnding r !! now);
  match pending with
  | None => mret tt
  | Some pending_ending => for_each pending_ending finish_rent
  end.

Definition slash_and_reward (slash : list AccountId) (v : Balance) (reward : list AccountId) : MU unit :=
  with_callee (gn_slash_and_reward slash v reward).

Definition offline_timeout (m : MachineId) : MU unit :=
  maybe_info ← reg_gets (λ r, MachinesInfo r !! m);
  machine_info ← ok_or maybe_info tt;
  (match machine_status machine_info with
   | StakerReportOffline _ _ =>
       slash_and_reward [machine_stash machine_info] (MachineInfo.stake_amount machine_info) []
   | _ => mret tt
   end);;
  reg_modify (put_machine m (machine_info <| MachineInfo.stake_amount := 0 |>)).

Definition check_if_offline_timeout (now : BlockNumber) : MU unit :=
  pending ← reg_gets (λ r, OfflineMachines r !! now);
  match pending with
  | None => mret tt
  | Some offline_machines =>
      for_each offline_machines offline_timeout;;
      reg_modify (λ r, r <| OfflineMachines ::= delete now |>)
  end.

(** ** Verification of new machines *)

Definition lift_unit {A} (m : MU A) : MF A := map_err Failed m.

Definition book_machine (m : MachineId) : MF unit :=
  reg_modify (λ r, r <| LiveMachines ::= λ l, l <| confirmed_machine ::= λ x, rm_item x m |>
    <| booked_machine ::= λ x, add_item x m |> |>);;
  maybe_info ← reg_gets (λ r, MachinesInfo r !! m);
  machine_info ← ok_or maybe_info Failed;
  reg_modify (put_machine m (machine_info <| machine_status := CommitteeVerifying |>)).

(** [random_u32], which panics for the bound 0. *)
Definition random_u32 (max : Z) : MF Z := λ w,
  let '(x, h) := rnd_u32 max w.1.2 in
  (match x with Some i => Ok i | None => Err Panic end, ((w.1.1, h), w.2)).

(** [(i..DISTRIBUTION).step_by(3)] *)
Definition work_slots (i : nat) : list nat := filter (λ x, (x - i) mod 3 = 0)%nat (seq i (DISTRIBUTION - i)).

(** The last [n] rounds of the loop over [i in 0..3]. *)
Fixpoint pick_members (n i : nat) (committee : list AccountId) : MF (list VerifyOnline.VerifySequence) :=
  match n with
  | O => mret []
  | S n =>
      lucky_index ← random_u32 (Z.of_nat (length committee));
      a ← ok_or (committee !! Z.to_nat lucky_index) Panic;
      verify_sequence ← pick_members n (S i) (delete (Z.to_nat lucky_index) committee);
      mret ({| VerifyOnline.who := a; VerifyOnline.index := work_slots i |} :: verify_sequence)
  end.
Definition get_work_index : MF (option (list VerifyOnline.VerifySequence)) :=
  maybe_committee ← rt_gets mc_available_committee;
  match maybe_committee with
  | None => mret None
  | Some committee =>
      if (length committee <? 3)%nat then mret None
      else verify_sequence ← pick_members 3 0 committee; mret (Some verify_sequence)
  end.

Definition verify_modify (f : OnlineCommittee.State → OnlineCommittee.State) : MF unit :=
  own_modify (λ s, s <| verify ::= f |>).
Definition change_used_stake (a : AccountId) (v : Balance) (is_add : bool) : MF unit :=
  map_err Failed (with_callee (mc_change_used_stake a v is_add)).

Definition book_one (m : MachineId) (confirm_start now : BlockNumber)
    (work_index : VerifyOnline.VerifySequence) : MF unit :=
  let a := VerifyOnline.who work_index in
  maybe_stake ← rt_gets mc_stake_per_order;
  stake_need ← ok_or maybe_stake Failed;
  change_used_stake a stake_need true;;
  verify_modify (OnlineCommittee.mutate_machine m (λ c,
    c <| VerifyOnline.booked_committee ::= λ x, add_item x a |>
      <| VerifyOnline.book_time := now |> <| VerifyOnline.confirm_start_time := confirm_start |>));;
  verify_modify (OnlineCommittee.mutate_list a (λ l,
    l <| VerifyOnline.booked_machine ::= λ x, add_item x m |>));;
  verify_modify (OnlineCommittee.mutate_ops a m (λ o,
    let start_time := (λ x, VerifyOnline.add_block now
        (Z.of_nat x * SUBMIT_RAW_START / Z.of_nat DISTRIBUTION)) <$> VerifyOnline.index work_index in
    o <| VerifyOnline.staked_dbc := stake_need |> <| VerifyOnline.verify_time := start_time |>
      <| VerifyOnline.machine_status := VerifyOnline.Booked |>));;
  verify_modify (OnlineCommittee.deposit_event (OnlineCommittee.MachineDistributed m a)).

Definition distribute_machine (confirm_start now : BlockNumber) (m : MachineId) : MF unit :=
  own_modify (λ s, s <| verify ::= λ v, v <| OnlineCommittee.MachineCommittee ::= delete m |> |>);;
  maybe_work ← get_work_index;
  match maybe_work with
  | Some committee_work_index =>
      for_each committee_work_index (λ w, attempt tt (book_one m confirm_start now w));;
      attempt tt (book_machine m)
  | None => mret tt
  end.
Definition distribute_machines (now : BlockNumber) : MF unit :=
  machines ← reg_gets (λ r, confirmed_machine (LiveMachines r));
  for_each machines (distribute_machine (VerifyOnline.add_block now SUBMIT_HASH_END) now).

Definition confirm_machine (now : BlockNumber) (reported_committee : list AccountId)
    (info : VerifyOnline.CommitteeUploadInfo) : MU unit :=
  let m := VerifyOnline.machine_id info in
  maybe_info ← reg_gets (λ r, MachinesInfo r !! m);
  machine_info ← ok_or maybe_info tt;
  change_stash_total_stake (machine_stash machine_info) (MachineInfo.stake_amount machine_info) false;;
  let machine_info := (MachineInfo.machine_online now info machine_info)
    <| MachineInfo.reward_committee := reported_committee |> in
  reg_modify (put_machine m machine_info);;
  reg_modify (λ r, r <| LiveMachines ::= λ l, l <| booked_machine ::= λ x, rm_item x m |>
    <| online_machine ::= λ x, add_item x m |> |>);;
  reg_modify (mutate_stash (machine_stash machine_info)
    (stash_machine_online m (MachineInfo.gpu_num machine_info) (calc_point machine_info))).

Definition refuse_machine (m : MachineId) : MF (option (AccountId * Balance)) :=
  maybe_info ← reg_gets (λ r, MachinesInfo r !! m);
  match maybe_info with
  | None => mret None
  | Some machine_info =>
      reg_modify (λ r, r <| LiveMachines ::= live_refuse_machine m |>);;
      reg_modify (λ r, r <| MachinesInfo ::= delete m |>);;
      reg_modify (mutate_stash (machine_stash machine_info) (stash_refuse_machine m));;
      mret (Some (machine_stash machine_info, MachineInfo.stake_amount machine_info))
  end.

Definition revert_booked_machine (m : MachineId) : MF unit :=
  reg_modify (λ r, r <| LiveMachines ::= live_revert_book m |>);;
  maybe_info ← reg_gets (λ r, MachinesInfo r !! m);
  machine_info ← ok_or maybe_info Failed;
  reg_modify (put_machine m (MachineInfo.revert_book machine_info)).

(** [Self::revert_book], [add_summary_slash] and the final cleaning are
    online-committee's. *)
Definition summary_raw (m : MachineId) (now : BlockNumber) (stake_per_order : Balance) : MF unit :=
  c ← own_gets (λ s, OnlineCommittee.machine_committee (verify s) m);
  if VerifyOnline.can_submit_raw now c then
    verify_modify (λ v, v <| OnlineCommittee.MachineCommittee ::=
      <[m := c <| VerifyOnline.status := VerifyOnline.SubmittingRaw |>]> |>)
  else if negb (VerifyOnline.can_summary now c) then mret tt
  else
    submit_info ← own_gets (λ s,
      (λ a, VerifyOnline.machine_info (OnlineCommittee.committee_ops (verify s) a m)) <$>
        VerifyOnline.confirmed_committee c);
    summary ← ok_or (VerifyOnline.summary_confirmation c submit_info) Panic;
    stash_slash ← (match VerifyOnline.verify_result summary with
                   | VerifyOnline.Refused => refuse_machine m
                   | _ => mret None
                   end);
    (match VerifyOnline.verify_result summary with
     | VerifyOnline.Confirmed =>
         i ← ok_or (VerifyOnline.info summary) Panic;
         ignore (confirm_machine now (VerifyOnline.valid_vote summary) i);;
         for_each (VerifyOnline.valid_vote summary) (λ a,
           verify_modify (OnlineCommittee.mutate_list a
             (λ l, l <| VerifyOnline.online_machine ::= λ x, add_item x m |>)))
     | VerifyOnline.Refused => mret tt
     | VerifyOnline.NoConsensus =>
         verify_modify (OnlineCommittee.revert_book m);;
         revert_booked_machine m;;
         for_each (VerifyOnline.invalid_vote summary) (λ a,
           attempt tt (change_used_stake a stake_per_order false))
     end);;
    (if bool_decide (is_Some stash_slash) || VerifyOnline.should_slash_committee summary then
       let '(stash, amount) := match stash_slash with
                               | Some (a, v) => (Some a, v)
                               | None => (None, 0)
                               end in
       verify_modify (OnlineCommittee.add_summary_slash m stash amount summary stake_per_order now)
     else
       for_each (VerifyOnline.valid_vote summary) (λ a,
         attempt tt (change_used_stake a stake_per_order false)));;
    verify_modify (OnlineCommittee.mutate_machine m (VerifyOnline.after_summary summary));;
    verify_modify (OnlineCommittee.clean_up m (VerifyOnline.booked_committee c)).

Definition statistic_online_verify (now : BlockNumber) : MF unit :=
  booked ← reg_gets (λ r, booked_machine (LiveMachines r));
  stake_per_order ← rt_gets (λ h, default 0 (mc_stake_per_order h));
  for_each booked (λ m, attempt tt (summary_raw m now stake_per_order)).

Definition submit_confirm_hash (now : BlockNumber) (origin : Origin) (m : MachineId)
    (h : VerifyOnline.Hash16) : MT unit :=
  verify_call (OnlineCommittee.submit_confirm_hash now origin m h).
Definition submit_confirm_raw (now : BlockNumber) (origin : Origin) (i : VerifyOnline.CommitteeUploadInfo) :
    MT unit :=
  verify_call (OnlineCommittee.submit_confirm_raw (verify_config T) now origin i).

(** *** Slashes (online_verify_slash.rs) *)

Definition exec_slash (stash : AccountId) (amount : Balance) : MU unit :=
  stake ← reg_gets (λ r, stash_stake r stash);
  stake ← ok_or (checked_sub stake amount) tt;
  reg_modify (λ r, r <| StashStake ::= <[stash := stake]> |>).

Definition change_committee_stake (committee_list : list AccountId) (amount : Balance) (is_slash : bool) :
    MF unit :=
  for_each committee_list (λ a_committee,
    (if is_slash then map_err Failed (with_callee (mc_change_total_stake a_committee amount false false))
     else mret tt);;
    change_used_stake a_committee amount false).

(** Gives the list of unhandled slashes afterwards. *)
Definition do_a_slash (now : BlockNumber) (id : Z) (pending_unhandled_slash : list Z) : MF (list Z) :=
  maybe_slash ← own_gets (λ s, OnlineCommittee.PendingSlash (verify s) !! id);
  slash_info ← ok_or maybe_slash Failed;
  if now <? VerifyOnline.slash_exec_time slash_info then mret pending_unhandled_slash
  else
    (if negb (VerifyOnline.stash_slash_amount slash_info =? 0) then
       match VerifyOnline.machine_stash slash_info with
       | Some stash =>
           lift_unit (exec_slash stash (VerifyOnline.stash_slash_amount slash_info));;
           lift_unit (slash_and_reward [stash] (VerifyOnline.stash_slash_amount slash_info) [])
       | None => mret tt
       end
     else mret tt);;
    let slashed_committee := VerifyOnline.inconsistent_committee slash_info ++
      VerifyOnline.unruly_committee slash_info in
    change_committee_stake slashed_committee (VerifyOnline.committee_stake slash_info) true;;
    change_committee_stake (VerifyOnline.reward_committee slash_info)
      (VerifyOnline.committee_stake slash_info) false;;
    lift_unit (slash_and_reward slashed_committee (VerifyOnline.committee_stake slash_info) []);;
    verify_modify (λ v, v <| OnlineCommittee.PendingSlash ::=
      <[id := slash_info <| VerifyOnline.slash_result := VerifyOnline.Executed |>]> |>);;
    mret (rm_item pending_unhandled_slash id).

Fixpoint exec_slashes (now : BlockNumber) (ids pending : list Z) : MF (list Z) :=
  match ids with
  | [] => mret pending
  | id :: ids =>
      pending ← attempt pending (do_a_slash now id pending);
      exec_slashes now ids pending
  end.

Definition check_and_exec_pending_slash (now : BlockNumber) : MF unit :=
  unhandled ← own_gets (λ s, OnlineCommittee.UnhandledSlash (verify s));
  pending ← exec_slashes now unhandled unhandled;
  verify_modify (λ v, v <| OnlineCommittee.UnhandledSlash := pending |>).

(** ** Fault reports (report_machine_fault.rs)

    The storage of the parameters has a default here, so nothing fails when they
    are not set; the rest of these five functions is as in maintain-committee. *)
Section reports.
Import Report MaintainCommittee.
Abbreviation MR := (M RWorld (DispatchError MaintainCommittee.Error)).

Definition ReporterStakeParams_default : ReporterStakeParamsInfo :=
  {| stake_baseline := 0; stake_per_report := 0; min_free_stake_percent := 0 |}.
Definition reporter_stake_params (s : MaintainCommittee.State) : ReporterStakeParamsInfo :=
  default ReporterStakeParams_default (ReporterStakeParams s).

Definition pay_stake_when_report (reporter : AccountId) : MR unit :=
  stake_params ← own_gets reporter_stake_params;
  if stake_per_report stake_params =? 0 then mret tt
  else
    stake ← own_gets (λ s, reporter_stake_of s reporter);
    if staked_amount stake =? 0 then
      m_reserve reporter (stake_baseline stake_params) (Module MaintainCommittee.BalanceNotEnough);;
      own_modify (mutate_stake reporter (λ i, i <| staked_amount := stake_baseline stake_params |>
        <| used_stake := stake_per_report stake_params |>))
    else
      let stake := stake <| used_stake ::= λ v, saturating_add U128_MAX v (stake_per_report stake_params) |> in
      own_modify (mutate_stake reporter (λ _, stake));;
      ensure (free_stake_ok stake_params stake) (Module MaintainCommittee.StakeNotEnough).

Definition change_reporter_stake (reporter : AccountId) (amount : Balance) (is_add : bool) : MR unit :=
  stake_params ← own_gets reporter_stake_params;
  stake ← own_gets (λ s, reporter_stake_of s reporter);
  let stake := stake <| staked_amount ::= λ v,
    if is_add then saturating_add U128_MAX v amount else saturating_sub v amount |> in
  (if is_add || (0 <? used_stake stake) then
     ensure (used_stake stake <=? staked_amount stake) (Module MaintainCommittee.StakeNotEnough);;
     ensure (free_stake_ok stake_params stake) (Module MaintainCommittee.StakeNotEnough)
   else mret tt);;
  if is_add : bool then
    m_reserve reporter amount (Module MaintainCommittee.BalanceNotEnough);;
    own_modify (mutate_stake reporter (λ _, stake));;
    own_modify (MaintainCommittee.deposit_event (ReporterAddStake reporter amount))
  else
    m_unreserve reporter amount;;
    own_modify (mutate_stake reporter (λ _, stake));;
    own_modify (MaintainCommittee.deposit_event (ReporterReduceStake reporter amount)).

(** Gives the caller's two lists with the new report. *)
Definition do_report_machine_fault (now : BlockNumber) (reporter : AccountId) (fault : MachineFaultType)
    (time : option BlockNumber) (live_report : MTLiveReportList) (reports : ReporterReportList) :
    MR (MTLiveReportList * ReporterReportList) :=
  stake_params ← own_gets reporter_stake_params;
  report_id ← own_gets (λ s, (get_new_report_id s).1);
  own_modify (λ s, (get_new_report_id s).2);;
  own_modify (put_info report_id
    (new_report reporter (default now time) fault (stake_per_report stake_params)));;
  own_modify (MaintainCommittee.deposit_event (ReportMachineFault reporter fault));;
  mret (live_new_report report_id live_report, reporter_new_report report_id reports).

Definition do_report (now : BlockNumber) (origin : Origin) (report_hash : ReportHash) (box_pubkey : BoxPubkey) :
    MR unit :=
  reporter ← ensure_signed origin;
  live_report ← own_gets LiveReport;
  reports ← own_gets (λ s, reporter_report s reporter);
  pay_stake_when_report reporter;;
  lists ← do_report_machine_fault now reporter (RentedHardwareCounterfeit report_hash box_pubkey) None
    live_report reports;
  own_modify (λ s, s <| LiveReport := lists.1 |>);;
  own_modify (mutate_report reporter (λ _, lists.2)).

Definition change_stake (origin : Origin) (amount : Balance) (is_add : bool) : MR unit :=
  reporter ← ensure_signed origin;
  change_reporter_stake reporter amount is_add.

Definition do_book_report (now : BlockNumber) (origin : Origin) (id : ReportId) : MR unit :=
  committee ← ensure_signed origin;
  is_valid_committee committee;;
  maybe_info ← own_gets (λ s, ReportInfo s !! id);
  report_info ← ok_or maybe_info (Module MaintainCommittee.Unknown);
  report_ok (can_book committee report_info);;
  order_stake ← get_stake_per_order;
  call_or MaintainCommittee.StakeFailed (mc_change_used_stake committee order_stake true);;
  own_modify (book_report now committee id report_info order_stake);;
  own_modify (MaintainCommittee.deposit_event (CommitteeBookReport committee id)).

Definition report_again (now : BlockNumber) (report_info : MTReportInfoDetail) (reports : ReporterReportList) :
    M (RWorld * MTLiveReportList) unit ReporterReportList := λ w,
  match do_report_machine_fault now (reporter report_info) (machine_fault_type report_info)
          (Some (report_time report_info)) w.2 reports w.1 with
  | (Ok (live_report, reports), w') => (Ok reports, (w', live_report))
  | (Err _, w') => (Ok reports, (w', w.2))
  end.
End reports.

Definition report_machine_fault (now : BlockNumber) (origin : Origin) (report_hash : Report.ReportHash)
    (box_pubkey : H256) : MT unit := report_call (do_report now origin report_hash box_pubkey).
Definition set_reporter_stake_params (origin : Origin) (params : Report.ReporterStakeParamsInfo) : MT unit :=
  report_call (MaintainCommittee.set_reporter_stake_params origin params).
Definition reporter_add_stake (origin : Origin) (amount : Balance) : MT unit :=
  report_call (change_stake origin amount true).
Definition reporter_reduce_stake (origin : Origin) (amount : Balance) : MT unit :=
  report_call (change_stake origin amount false).
Definition reporter_cancel_report (origin : Origin) (id : Z) : MT unit :=
  report_call (MaintainCommittee.reporter_cancel_report origin id).
Definition committee_book_report (now : BlockNumber) (origin : Origin) (id : Z) : MT unit :=
  report_call (do_book_report now origin id).
Definition reporter_add_encrypted_error_info (now : BlockNumber) (origin : Origin) (id : Z)
    (to_committee : AccountId) (info : bytes) : MT unit :=
  report_call (MaintainCommittee.reporter_add_encrypted_error_info now origin id to_committee info).
Definition committee_submit_verify_hash (now : BlockNumber) (origin : Origin) (id : Z)
    (h : Report.ReportHash) : MT unit :=
  report_call (MaintainCommittee.committee_submit_verify_hash now origin id h).
Definition committee_submit_verify_raw (now : BlockNumber) (origin : Origin) (id : Z) (m : MachineId)
    (rent_order : Z) (reporter_rand_str committee_rand_str err_reason extra : bytes)
    (support_report : bool) : MT unit :=
  report_call (MaintainCommittee.committee_submit_verify_raw (report_config T) now origin id m rent_order
    reporter_rand_str committee_rand_str err_reason extra support_report).

Definition exec_report_slash (now : BlockNumber) : MU unit := on_reports (MaintainCommittee.exec_slash now).

(** *** The summary, on a copy of the live lists *)
Section summary.
Import Report.
Abbreviation MS := (M (World * MTLiveReportList) unit).

Definition in_reports {A} (m : M (RWorld * MTLiveReportList) unit A) : MS A := λ w,
  let r := m (((reports w.1.1.1, w.1.1.2), w.1.2), w.2) in
  (r.1, (((w.1.1.1 <| reports := r.2.1.1.1 |>, r.2.1.1.2), r.2.1.2), r.2.2)).
Definition own_report {A} (f : MaintainCommittee.State → A) : MS A := in_reports (MaintainCommittee.own f).
Definition put_report (f : MaintainCommittee.State → MaintainCommittee.State) : MS unit :=
  in_reports (MaintainCommittee.put f).
Definition on_pallet {A} (m : MU A) : MS A := λ w, let r := m w.1 in (r.1, (r.2, w.2)).

Definition summary_before_submit_raw (now : BlockNumber) (id : ReportId) (reports : ReporterReportList)
    (report_result : Result.MTReportResultInfo) : MS unit :=
  in_reports (MaintainCommittee.summary_before_submit_raw now id reports report_result).
Definition summary_after_submit_raw (now : BlockNumber) (id : ReportId) : MS unit :=
  in_reports (MaintainCommittee.summary_after_submit_raw now id).
Definition summary_verifying_report (now : BlockNumber) (id : ReportId) : MS unit :=
  in_reports (MaintainCommittee.summary_verifying_report now id).

(** The machine of a confirmed report. *)
Definition report_offline (report_info : MTReportInfoDetail) (committee : list AccountId) : MU unit :=
  let m := Report.machine_id report_info in
  maybe_info ← reg_gets (λ r, MachinesInfo r !! m);
  machine_info ← ok_or maybe_info tt;
  reg_modify (λ r, r <| LiveMachines ::= live_machine_offline m |>);;
  reg_modify (put_machine m (machine_info <| machine_status := ReporterReportOffline
    (MaintainCommittee.into_op_err (machine_fault_type report_info) (report_time report_info))
    (machine_status machine_info) (reporter report_info) committee |>)).

Definition summary_submitting_raw (now : BlockNumber) (id : ReportId) : MS unit :=
  committee_order_stake ← on_pallet (rt_gets (λ h, default 0 (mc_stake_per_order h)));
  maybe_info ← own_report (λ s, MaintainCommittee.ReportInfo s !! id);
  report_info ← ok_or maybe_info tt;
  if negb (can_summary now report_info) then mret tt
  else
    let fault_report_result := summary report_info in
    in_reports (MaintainCommittee.live (live_get_verify_result id fault_report_result));;
    current ← own_report (λ s, MaintainCommittee.ReportResult s !! id);
    let report_result := Result.get_verify_result current now id committee_order_stake report_info in
    (match fault_report_result with
     | Confirmed support against _ =>
         for_each support (λ a, put_report (MaintainCommittee.finish_order id a));;
         on_pallet (report_offline report_info (support ++ against))
     | Refuse support against =>
         for_each (support ++ against) (λ a, put_report (MaintainCommittee.finish_order id a))
     | NoConsensus =>
         for_each (booked_committee report_info) (λ a, put_report (MaintainCommittee.drop_order id a));;
         reports ← own_report (λ s, MaintainCommittee.reporter_report s (reporter report_info));
         reports ← in_reports (report_again now report_info reports);
         put_report (MaintainCommittee.mutate_report (reporter report_info) (λ _, reports))
     end);;
    put_report (MaintainCommittee.update_unhandled_report id true
      (VerifyOnline.add_block now VerifyOnline.TWO_DAYS));;
    put_report (MaintainCommittee.put_result id report_result);;
    put_report (MaintainCommittee.put_info id
      (if bool_decide (report_status report_info = Reported) then report_info
       else report_info <| report_status := CommitteeConfirmed |>)).

Definition on_live_report (m : MS unit) : MU unit := λ w,
  let r := m (w, MaintainCommittee.LiveReport (reports w.1.1)) in
  own_modify (λ s, s <| reports ::= λ x, x <| MaintainCommittee.LiveReport := r.2.2 |> |>) r.2.1.

Definition summary_fault_report_hook (now : BlockNumber) : MU unit :=
  on_live_report
    (live_report ← gets (λ w, w.2);
     for_each (verifying_report live_report ++ bookable_report live_report)
       (λ id, ignore (summary_verifying_report now id));;
     for_each (waiting_raw_report live_report) (λ id, ignore (summary_submitting_raw now id))).
End summary.

(** ** The hooks *)

Definition on_initialize (now : BlockNumber) : MF unit :=
  check_and_exec_pending_slash now;;
  ignore (summary_fault_report_hook now).

Definition on_finalize (now : BlockNumber) : MF unit :=
  statistic_online_verify now;;
  distribute_machines now;;
  ignore (check_if_rent_finished now);;
  ignore (check_if_offline_timeout now);;
  ignore (exec_report_slash now).

(** ** The pallet as a state machine *)

Inductive Call :=
| SetStakePerGpu (v : Balance)
| SetOnlineDeposit (v : Balance)
| SetStandardGpuPointPrice (p : StandardGpuPointPrice)
| SetReporterStakeParams (p : Report.ReporterStakeParamsInfo)
| SetController (controller : AccountId)
| GenServerRoom
| BondMachine (m : MachineId) (msg sig : bytes)
| AddMachineInfo (m : MachineId) (info : StakerCustomizeInfo)
| SubmitConfirmHash (m : MachineId) (h : VerifyOnline.Hash16)
| SubmitConfirmRaw (i : VerifyOnline.CommitteeUploadInfo)
| RentMachineCall (m : MachineId) (rent_gpu_num : Z) (duration : BlockNumber)
| ConfirmRent (id : Z)
| ReletMachine (id : Z) (duration : BlockNumber)
| TerminateRent (id : Z)
| MachineOfflineCall (m : MachineId)
| MachineOnlineCall (m : MachineId)
| MachineExitCall (m : MachineId)
| ReportMachineFaultCall (h : Report.ReportHash) (key : H256)
| ReporterAddStakeCall (v : Balance)
| ReporterReduceStakeCall (v : Balance)
| ReporterCancelReport (id : Z)
| CommitteeBookReportCall (id : Z)
| ReporterAddEncryptedErrorInfo (id : Z) (to_committee : AccountId) (info : bytes)
| CommitteeSubmitVerifyHash (id : Z) (h : Report.ReportHash)
| CommitteeSubmitVerifyRaw (id : Z) (m : MachineId) (rent_order : Z)
    (reporter_rand_str committee_rand_str err_reason extra : bytes) (support_report : bool).

Definition run_call (now : BlockNumber) (o : Origin) (c : Call) : MT unit :=
  match c with
  | SetStakePerGpu v => set_stake_per_gpu o v
  | SetOnlineDeposit v => set_online_deposit o v
  | SetStandardGpuPointPrice p => set_standard_gpu_point_price o p
  | SetReporterStakeParams p => set_reporter_stake_params o p
  | SetController a => set_controller o a
  | GenServerRoom => gen_server_room o
  | BondMachine m msg sig => bond_machine now o m msg sig
  | AddMachineInfo m i => add_machine_info o m i
  | SubmitConfirmHash m h => submit_confirm_hash now o m h
  | SubmitConfirmRaw i => submit_confirm_raw now o i
  | RentMachineCall m n d => rent_machine now o m n d
  | ConfirmRent id => confirm_rent now o id
  | ReletMachine id d => relet_machine now o id d
  | TerminateRent id => terminate_rent now o id
  | MachineOfflineCall m => machine_offline now o m
  | MachineOnlineCall m => machine_online now o m
  | MachineExitCall m => machine_exit now o m
  | ReportMachineFaultCall h k => report_machine_fault now o h k
  | ReporterAddStakeCall v => reporter_add_stake o v
  | ReporterReduceStakeCall v => reporter_reduce_stake o v
  | ReporterCancelReport id => reporter_cancel_report o id
  | CommitteeBookReportCall id => committee_book_report now o id
  | ReporterAddEncryptedErrorInfo id a i => reporter_add_encrypted_error_info now o id a i
  | CommitteeSubmitVerifyHash id h => committee_submit_verify_hash now o id h
  | CommitteeSubmitVerifyRaw id m n rr cr er x v => committee_submit_verify_raw now o id m n rr cr er x v
  end.
Definition dispatch (now : BlockNumber) (o : Origin) (c : Call) : MT unit := transactional (run_call now o c).

(** The arguments have the types of the source. *)
Definition call_typed (c : Call) : Prop :=
  match c with
  | SetStakePerGpu v | SetOnlineDeposit v | ReporterAddStakeCall v | ReporterReduceStakeCall v =>
      0 ≤ v ≤ U128_MAX
  | RentMachineCall _ n d => 0 ≤ n ≤ U32_MAX ∧ 0 ≤ d ≤ U32_MAX
  | ReletMachine _ d => 0 ≤ d ≤ U32_MAX
  | _ => True
  end.

(** Ids of orders, slashes and reports are left: for a new order, a slash of
    each machine being verified, and a new report in place of each open one. *)
Definition ids_left (s : State) : Prop :=
  NextRentId (rents s) < U64_MAX ∧
  OnlineCommittee.NextSlashId (verify s) + Z.of_nat (length (booked_machine (LiveMachines (registry s)))) ≤ U64_MAX ∧
  MaintainCommittee.ids_left (reports s).
(** A call, a change of the rest of the runtime, or the end of a block with the
    beginning of the next. *)
Inductive step : BlockNumber * World → BlockNumber * World → Prop :=
| step_call now o c w :
    call_typed c → ids_left w.1.1 → step (now, w) (now, (dispatch now o c w).2)
| step_block now w :
    ids_left w.1.1 → ids_left (on_finalize now w).2.1.1 →
    step (now, w) (now + 1, (on_initialize (now + 1) (on_finalize now w).2).2)
| step_others now s h h' l l' : step (now, ((s, h), l)) (now, ((s, h'), l')).

Definition reachable (c : BlockNumber * World) : Prop :=
  ∃ now pot h l, 0 ≤ now ∧ rtc step (now, ((genesis pot, h), l)) c.
End pallet.
End TerminatingRental.
