(* ===== verification/TerminatingSteps.v ===== *)
(** * pallet-terminating-rental: what its operations leave alone

    Which part of the storage a call or hook does not touch, and its verification
    part as an instance of online-committee: over the machines of this pallet,
    the hook that verifies and distributes machines is online-committee's. *)
From stdpp Require Import base gmap fin_maps list numbers relations.
From Stdlib Require Import ZArith Lia Strings.Byte.
From S2P Require Import Prelude Currency Interfaces ItemList VerifyOnline RentalTypes RentalInterfaces ReportTypes OnlineCommittee OnlineInvariant OnlineSteps RentMachine ProfileTypes MaintainCommittee TerminatingState TerminatingRental.

Module TerminatingSteps.
Import ItemList TerminatingState TerminatingRental.

Create HintDb terminating_ops.
#[export] Hint Unfold set_stake_per_gpu set_online_deposit set_standard_gpu_point_price set_reporter_stake_params
  set_controller gen_server_room bond_machine add_machine_info submit_confirm_hash submit_confirm_raw
  rent_machine confirm_rent relet_machine terminate_rent machine_offline machine_online machine_exit
  report_machine_fault reporter_add_stake reporter_reduce_stake reporter_cancel_report
  committee_book_report reporter_add_encrypted_error_info committee_submit_verify_hash
  committee_submit_verify_raw : terminating_ops.
#[export] Hint Unfold pay_tx_fee check_bonding_msg change_stash_total_stake stake_per_gpu_limit the_machine
  the_order ensure_controller change_renter_total_stake change_machine_status_on_rent_start
  change_machine_status_on_confirmed transfer_to pay_rent_fee settle_order
  change_machine_status_on_rent_end clean_order finish_rent check_if_rent_finished slash_and_reward
  offline_timeout check_if_offline_timeout : terminating_ops.
#[export] Hint Unfold lift_unit book_machine distribute_machine distribute_machines
  confirm_machine refuse_machine revert_booked_machine verify_modify change_used_stake summary_raw
  statistic_online_verify exec_slash do_a_slash check_and_exec_pending_slash
  exec_report_slash verify_call report_call : terminating_ops.

Section frames.
Context {L RT : Type} `{!ReservableCurrency L}.
Abbreviation World := ((State * RT) * L)%type.
Implicit Types (w : World).

Lemma kept_rename {S E E' A} Q (f : E → E') (m : M S E A) : kept Q m → kept Q (rename_error f m).
Proof. intros Hm s Hs. specialize (Hm s Hs). unfold rename_error. by destruct (m s) as [[] ?]. Qed.
Lemma kept_attempt {S A} Q (d : A) (m : M S Fault A) : kept Q m → kept Q (attempt d m).
Proof. intros Hm s Hs. specialize (Hm s Hs). unfold attempt. by destruct (m s) as [[|[]] ?]. Qed.

Lemma kept_on_pallet {A} (Q : World → Prop) (m : M World unit A) :
  kept Q m → kept (λ p, Q p.1) (on_pallet m).
Proof. intros Hm p Hp. exact (Hm p.1 Hp). Qed.
Lemma kept_on_live_lists (Q : World → Prop) m :
  (∀ f, kept Q (own_modify (E:=unit) (λ s, s <| reports ::= f |>))) →
  kept (λ p, Q p.1) m → kept Q (on_live_report m).
Proof. intros Hf Hm w Hw. apply Hf. exact (Hm (w, _) Hw). Qed.

Context {X : Type} (g : State → X).
Definition part (x : X) w : Prop := g w.1.1 = x.

Lemma on_callee {E A} x (m : M (RT * L) E A) : kept (part x) (with_callee m).
Proof. by intros w. Qed.
Lemma on_write {E} x f : (∀ s, g (f s) = g s) → kept (part x) (own_modify (E:=E) (H:=RT) (L:=L) f).
Proof. intros Hf w <-. apply Hf. Qed.
Lemma on_reserve {E} x a v (e : E) : kept (part x) (m_reserve a v e : M World E unit).
Proof. intros w Hw. unfold m_reserve. by destruct (reserve a v w.2). Qed.
Lemma on_unreserve {E} x a v : kept (part x) (m_unreserve a v : M World E Balance).
Proof. intros w Hw. rewrite m_unreserve_run. exact Hw. Qed.
Lemma on_transfer {E} x a b v k (e : E) : kept (part x) (m_transfer a b v k e : M World E unit).
Proof. intros w Hw. unfold m_transfer. by destruct (transfer a b v k w.2). Qed.
Lemma on_focus {Y E B} x get put (m : M ((Y * RT) * L) E B) :
  (∀ y s, g (put y s) = g s) → kept (part x) (focus get put m).
Proof. intros Hp w <-. apply Hp. Qed.
Lemma on_new_id x : (∀ r s, g (s <| rents := r |>) = g s) → kept (part x) (get_new_rent_id : M World Stop Z).
Proof. intros Hg w <-. unfold get_new_rent_id, part. case_decide; [done|]. apply (Hg _ w.1.1). Qed.
Lemma part_known {E A} (m : M World E A) w r w' : (∀ x, kept (part x) m) → m w = (r, w') → g w'.1.1 = g w.1.1.
Proof. intros Hm Hw. specialize (Hm _ w eq_refl). by rewrite Hw in Hm. Qed.
End frames.

(** ** The code of online-committee, on the items of this pallet

    The distribution of machines and the change of the stakes of members are
    written out in this pallet; they do what those of online-committee do. *)
Section same_code.
Context {L RT : Type} `{!ManageCommittee L RT, !RandomDraw RT}.
Abbreviation World := ((State * RT) * L)%type.
Implicit Types (w : World).

Definition same {E A} (m m' : M World E A) : Prop := ∀ w, m w = m' w.
Lemma same_kept {E A} Q (m m' : M World E A) : same m m' → kept Q m' → kept Q m.
Proof. intros Hm Hk w Hw. rewrite Hm. by apply Hk. Qed.
Lemma same_bind {E A B} (m m' : M World E A) (k k' : A → M World E B) :
  same m m' → (∀ a, same (k a) (k' a)) → same (m ≫= k) (m' ≫= k').
Proof. intros Hm Hk w. unfold mbind, M_bind. rewrite Hm. destruct (m' w) as [[a|e] w1]; [apply Hk|done]. Qed.
Lemma same_verify_bind {E A B} (m : M ((OnlineCommittee.State * RT) * L) E A) (k : A → _) (m' : M World E A) (k' : A → M World E B) :
  same m' (on_verify m) → (∀ a, same (k' a) (on_verify (k a))) → same (m' ≫= k') (on_verify (m ≫= k)).
Proof.
  intros Hm Hk [[[r0 r1 v0 r2 e0] h] l]. unfold mbind, M_bind. rewrite Hm. unfold on_verify, focus. simpl.
  destruct (m ((v0, h), l)) as [[a|e] [[v h1] l1]]; [|done]. simpl. rewrite Hk. reflexivity.
Qed.
Lemma same_verify_gets {E A} (f : RT → A) : same (E:=E) (rt_gets f) (on_verify (OnlineCommittee.rt_gets f)).
Proof. intros [[[] h] l]. done. Qed.
Lemma same_verify_mret {E A} (a : A) : same (E:=E) (mret a) (on_verify (mret a)).
Proof. intros [[[] h] l]. done. Qed.
Lemma same_verify_ok_or {E A} (o : option A) (e : E) : same (ok_or o e) (on_verify (ok_or o e)).
Proof. intros [[[] h] l]. by destruct o. Qed.
Lemma same_random max : same (random_u32 max) (on_verify (OnlineCommittee.draw max)).
Proof.
  intros [[[] h] l]. unfold random_u32, on_verify, focus, OnlineCommittee.draw. simpl.
  by destruct (rnd_u32 max h) as [[] h'].
Qed.
Lemma same_slots i : work_slots i = OnlineCommittee.slots i.
Proof.
  unfold work_slots, OnlineCommittee.slots. change OnlineCommittee.DISTRIBUTION with DISTRIBUTION.
  apply filter_agree. intros x [Hx _]%elem_of_seq.
  pose proof (Nat.div_mod_eq (x - i) 3). pose proof (Nat.div_mod_eq x 3). pose proof (Nat.div_mod_eq i 3).
  pose proof (Nat.mod_upper_bound x 3). pose proof (Nat.mod_upper_bound i 3). pose proof (Nat.mod_upper_bound (x - i) 3).
  lia.
Qed.
Lemma same_pick n i c : same (pick_members n i c) (on_verify (OnlineCommittee.draw_members n i c)).
Proof.
  revert i c. induction n as [|n IH]; intros i c; cbn [pick_members OnlineCommittee.draw_members];
    [apply same_verify_mret|].
  apply same_verify_bind; [apply same_random|intros x]. apply same_verify_bind; [apply same_verify_ok_or|intros a].
  apply same_verify_bind; [apply IH|intros l]. rewrite same_slots. apply same_verify_mret.
Qed.
Lemma same_work_index : same get_work_index (on_verify OnlineCommittee.get_work_index).
Proof.
  apply same_verify_bind; [apply same_verify_gets|intros [c|]; [|apply same_verify_mret]].
  case_match; [apply same_verify_mret|].
  apply same_verify_bind; [apply same_pick|intros l; apply same_verify_mret].
Qed.
Lemma same_call {A} (m : M (RT * L) unit A) : same (map_err Failed (with_callee m)) (on_verify (OnlineCommittee.call m)).
Proof.
  intros [[[] h] l]. unfold on_verify, focus, OnlineCommittee.call, map_err, with_callee. simpl.
  by destruct (m (h, l)) as [[] [? ?]].
Qed.
Lemma same_book_one m cs now sq : same (book_one m cs now sq) (on_verify (OnlineCommittee.book_one m cs now sq)).
Proof.
  apply same_verify_bind; [apply same_verify_gets|intros o]. apply same_verify_bind; [apply same_verify_ok_or|intros v].
  apply same_verify_bind; [apply same_call|intros _]. by intros [[[] h] l].
Qed.
Lemma same_for_each {X} (l : list X) (f : X → M World Fault unit) (g : X → M ((OnlineCommittee.State * RT) * L) Fault unit) :
  (∀ x, same (f x) (on_verify (g x))) → same (for_each l f) (on_verify (for_each l g)).
Proof.
  intros Hf. induction l as [|x l IH]; cbn [for_each]; [apply same_verify_mret|].
  apply same_verify_bind; [apply Hf|intros _; apply IH].
Qed.
Lemma same_stake l v b : same (change_committee_stake l v b) (on_verify (OnlineCommittee.change_committee_stake l v b)).
Proof.
  apply same_for_each. intros a. apply same_verify_bind; [|intros _; apply same_call].
  destruct b; [apply same_call|apply same_verify_mret].
Qed.
End same_code.

(** Goes through a run none of whose writes changes the part. *)
Ltac frame_step :=
  first
  [ lazymatch goal with
    | |- kept _ (rt_gets _ ≫= _) => apply kept_gets; intros ? ?
    | |- kept _ (reg_gets _ ≫= _) => apply kept_gets; intros ? ?
    | |- kept _ (rent_gets _ ≫= _) => apply kept_gets; intros ? ?
    | |- kept _ (fails _) => apply kept_rename
    | |- kept _ (rename_error _ _) => apply kept_rename
    | |- kept _ (attempt _ _) => apply kept_attempt
    | |- kept _ (ensure_signed ?o) => by destruct o; intros ?
    | |- kept _ (ensure_root ?o) => by destruct o; intros ?
    | |- kept _ (reg_gets _) => by intros ?
    | |- kept _ (rent_gets _) => by intros ?
    | |- kept _ (own_gets _) => by intros ?
    | |- kept _ (rt_gets _) => by intros ?
    end
  | kept_step
  | lazymatch goal with
    | |- kept _ (with_callee _) => apply on_callee
    | |- kept _ (m_reserve _ _ _) => apply on_reserve
    | |- kept _ (m_unreserve _ _) => apply on_unreserve
    | |- kept _ (m_transfer _ _ _ _ _) => apply on_transfer
    | |- kept _ (on_verify _) => apply on_focus; first [reflexivity | by auto]
    | |- kept _ (on_reports _) => apply on_focus; first [reflexivity | by auto]
    | |- kept _ (own_modify _) => apply on_write; first [reflexivity | by auto]
    | |- kept _ (reg_modify _) => apply on_write; first [reflexivity | by auto]
    | |- kept _ (rent_modify _) => apply on_write; first [reflexivity | by auto]
    | |- kept _ get_new_rent_id => apply on_new_id; reflexivity
    | |- kept _ get_work_index => apply (same_kept _ _ _ same_work_index)
    | |- kept _ (book_one _ _ _ _) => apply (same_kept _ _ _ (same_book_one _ _ _ _))
    | |- kept _ (change_committee_stake _ _ _) => apply (same_kept _ _ _ (same_stake _ _ _))
    end
  | progress cbv beta zeta
  | progress autounfold with terminating_ops ].
Ltac frame_steps := repeat frame_step.

Section calls.
Context {L RT : Type} `{!ReservableCurrency L}.
Context `{!ManageCommittee L RT, !GNOps L RT, !TxFee L RT, !RentPrice RT, !ServerRooms RT, !RandomDraw RT} {P : PerThing}.
Context (T : Config).
Abbreviation World := ((State * RT) * L)%type.

Lemma leave_part {X} (g : State → X) x who ids :
  (∀ f s, g (s <| registry ::= f |>) = g s) → kept (part (L:=L) (RT:=RT) g x) (leave_machine who ids).
Proof.
  intros Hg. induction ids as [|id ids IH]; cbn [leave_machine]; [apply kept_mret|].
  frame_steps. exact IH.
Qed.

(** The hooks of the slashes and of the reports. *)
Lemma pending_slash_part {X} (g : State → X) now x :
  (∀ f s, g (s <| registry ::= f |>) = g s) → (∀ f s, g (s <| verify ::= f |>) = g s) →
  (∀ v s, g (s <| verify := v |>) = g s) →
  kept (part (L:=L) (RT:=RT) g x) (check_and_exec_pending_slash now).
Proof.
  intros Hr Hv Hv'. unfold check_and_exec_pending_slash. apply kept_gets. intros w _.
  apply kept_bind; [|intros p; by apply on_write].
  generalize (OnlineCommittee.UnhandledSlash (verify w.1.1)) at 2.
  induction (OnlineCommittee.UnhandledSlash (verify w.1.1)) as [|id ids IH]; intros p; cbn [exec_slashes];
    [apply kept_mret|].
  apply kept_bind; [apply kept_attempt|intros p'; apply IH].
  unfold do_a_slash. apply kept_gets. intros w' _. apply kept_ok_or. intros i _. case_match; [apply kept_mret|].
  frame_steps.
Qed.
Lemma summary_kept (Q : World → Prop) now :
  (∀ v (w : World) h l, Q w → Q ((w.1.1 <| reports := v |>, h), l)) →
  (∀ i c, kept Q (report_offline i c)) → kept Q (summary_fault_report_hook now).
Proof.
  intros Hr Ho.
  assert (∀ A (m : M _ unit A), kept (λ p : World * Report.MTLiveReportList, Q p.1) (in_reports m)) as Hin
    by (intros A m p Hp; by apply Hr).
  apply kept_on_live_lists; [intros f w Hw; by apply (Hr (f (reports w.1.1)) w)|]. apply kept_gets. intros p _.
  apply kept_bind; [|intros _]; apply kept_for_each; intros id _; apply kept_ignore; [apply Hin|].
  unfold summary_submitting_raw, own_report, put_report. repeat (first [kept_step | apply Hin]; cbv beta zeta);
    apply kept_on_pallet; [by intros w|apply Ho].
Qed.
Lemma summary_part {X} (g : State → X) now x :
  (∀ f s, g (s <| registry ::= f |>) = g s) → (∀ v s, g (s <| reports := v |>) = g s) →
  kept (part (L:=L) (RT:=RT) g x) (summary_fault_report_hook now).
Proof.
  intros Hg Hr. apply summary_kept; [intros v w h l <-; apply Hr|].
  intros i c. unfold report_offline. frame_steps.
Qed.

(** The part a call belongs to, beside the registry. *)
Definition verifies (c : Call) : bool :=
  match c with SubmitConfirmHash _ _ | SubmitConfirmRaw _ => true | _ => false end.
Definition reporting (c : Call) : bool :=
  match c with
  | SetReporterStakeParams _ | ReportMachineFaultCall _ _ | ReporterAddStakeCall _
  | ReporterReduceStakeCall _ | ReporterCancelReport _ | CommitteeBookReportCall _
  | ReporterAddEncryptedErrorInfo _ _ _ | CommitteeSubmitVerifyHash _ _
  | CommitteeSubmitVerifyRaw _ _ _ _ _ _ _ _ => true
  | _ => false
  end.
Definition renting (c : Call) : bool :=
  match c with
  | RentMachineCall _ _ _ | ConfirmRent _ | ReletMachine _ _ | TerminateRent _ | MachineOfflineCall _
  | MachineExitCall _ => true
  | _ => false
  end.

Lemma call_verify now o c x : verifies c = false → kept (part (L:=L) (RT:=RT) verify x) (run_call T now o c).
Proof.
  destruct c; try done; intros _; cbn [run_call]; frame_steps; by apply leave_part.
Qed.
Lemma call_reports now o c x : reporting c = false → kept (part (L:=L) (RT:=RT) reports x) (run_call T now o c).
Proof.
  destruct c; try done; intros _; cbn [run_call]; frame_steps; by apply leave_part.
Qed.
Lemma call_rents now o c x : renting c = false → kept (part (L:=L) (RT:=RT) rents x) (run_call T now o c).
Proof.
  destruct c; try done; intros _; cbn [run_call]; frame_steps.
Qed.
End calls.
End TerminatingSteps.
