(* ===== verification/TerminatingVerify.v ===== *)
(** * pallet-terminating-rental: its verification of machines

    Over the registry of this pallet, the hook that summarises the reports of the
    committee and distributes new machines is online-committee's: a step-by-step
    simulation. The invariants of OnlineInvariant.v then hold here as well, and the hooks
    do not panic. *)
From stdpp Require Import base gmap fin_maps list numbers relations.
From Stdlib Require Import ZArith Lia Strings.Byte.
From S2P Require Import Prelude Currency Interfaces ItemList VerifyOnline RentalTypes RentalInterfaces ReportTypes OnlineCommittee OnlineInvariant OnlineSteps RentMachine ProfileTypes MaintainCommittee TerminatingState TerminatingRental TerminatingSteps.

Module TerminatingVerify.
Import (hints) OnlineCommittee.
Import ItemList TerminatingState TerminatingRental TerminatingSteps.
Abbreviation OC := OnlineCommittee.State (only parsing).

Section simulation.
Context {L RT : Type} `{!ReservableCurrency L}.
Context `{!ManageCommittee L RT, !GNOps L RT, !RandomDraw RT}.
Abbreviation World := ((State * RT) * L)%type.
(** The rest of the runtime as the verification sees it: the other storage of
    the pallet is part of it. *)
Abbreviation Rest := (State * RT)%type.
Abbreviation OWorld := ((OC * Rest) * L)%type.
Implicit Types (w : World).

(** ** What the rest promises to the verification *)
#[local] Instance rest_committee : ManageCommittee L Rest := {|
  mc_is_valid_committee h := mc_is_valid_committee h.2;
  mc_available_committee h := mc_available_committee h.2;
  mc_stake_per_order h := mc_stake_per_order h.2;
  mc_change_used_stake a v b := with_callee (mc_change_used_stake a v b);
  mc_change_total_stake a v b c := with_callee (mc_change_total_stake a v b c);
|}.
#[local] Instance rest_slash : GNOps L Rest := {|
  gn_slash_and_reward a v b := with_callee (gn_slash_and_reward a v b);
|}.
#[local] Instance rest_draw : RandomDraw Rest := {|
  rnd_u32 max h := let r := rnd_u32 max h.2 in (r.1, (h.1, r.2));
|}.
Lemma rest_draw_laws : RandomDrawLaws RT → RandomDrawLaws Rest.
Proof. intros HL. split. intros max h Hm. apply (rnd_u32_range max h.2 Hm). Qed.
#[local] Instance rest_registry : OCOps L Rest := {|
  oc_confirmed_machines h := ProfileTypes.confirmed_machine (LiveMachines (registry h.1));
  oc_booked_machines h := ProfileTypes.booked_machine (LiveMachines (registry h.1));
  oc_controller_stash h a := ControllerStash (registry h.1) !! a;
  oc_booked_machine m := map_err tt (book_machine m);
  oc_revert_booked_machine m := map_err tt (revert_booked_machine m);
  oc_confirm_machine now l i := ignore (confirm_machine now l i);
  oc_refuse_machine _ m w := let r := refuse_machine m w in
    (match r.1 with Ok x => x | Err _ => None end, r.2);
  oc_change_staked_balance a v b := change_stash_total_stake a v b;
  oc_exec_slash a v := exec_slash a v;
|}.

(** The pallet's storage as that of online-committee and the rest. *)
Definition split w : OWorld := ((verify w.1.1, (w.1.1 <| verify := OnlineCommittee.genesis |>, w.1.2)), w.2).
Definition sim {E A} (m : M World E A) (m' : M OWorld E A) : Prop :=
  ∀ w, m' (split w) = ((m w).1, split (m w).2).

Lemma sim_bind {E A B} (m : M World E A) m' (k : A → M World E B) k' :
  sim m m' → (∀ a, sim (k a) (k' a)) → sim (m ≫= k) (m' ≫= k').
Proof.
  intros Hm Hk w. unfold mbind, M_bind. rewrite Hm. destruct (m w) as [[a|e] w1]; [apply Hk|done].
Qed.
Lemma sim_mret {E A} (a : A) : sim (E:=E) (mret a) (mret a).
Proof. by intros w. Qed.
Lemma sim_ok_or {E A} (o : option A) (e : E) : sim (ok_or o e) (ok_or o e).
Proof. intros w. by destruct o. Qed.
Lemma sim_gets {E A} f f' : (∀ w, f' (split w) = f w) → sim (E:=E) (A:=A) (gets f) (gets f').
Proof. intros Hf w. unfold gets. by rewrite Hf. Qed.
Lemma sim_attempt {A} (d : A) m m' : sim m m' → sim (attempt d m) (attempt d m').
Proof. intros Hm w. unfold attempt. rewrite Hm. by destruct (m w) as [[|[]] ?]. Qed.
Lemma sim_for_each {E A} (l : list A) (f : A → M World E unit) f' :
  (∀ x, sim (f x) (f' x)) → sim (for_each l f) (for_each l f').
Proof. intros Hf. induction l; [apply sim_mret|]. by apply sim_bind. Qed.
Lemma sim_write {E} (f : OC → OC) :
  sim (E:=E) (own_modify (λ s, s <| verify ::= f |>)) (own_modify f).
Proof. by intros w. Qed.

(** A run that neither reads nor writes the verification. *)
Definition put_verify (v : OC) w : World := ((w.1.1 <| verify := v |>, w.1.2), w.2).
Definition indep {E A} (m : M World E A) : Prop := ∀ v w, m (put_verify v w) = ((m w).1, put_verify v (m w).2).

Lemma indep_bind {E A B} (m : M World E A) (k : A → M World E B) :
  indep m → (∀ a, indep (k a)) → indep (m ≫= k).
Proof.
  intros Hm Hk v w. unfold mbind, M_bind. rewrite Hm. destruct (m w) as [[a|e] w1]; [apply Hk|done].
Qed.
Lemma indep_split {E A} (m : M World E A) : indep m → sim m (with_callee m).
Proof.
  intros Hm w. change (with_callee m (split w)) with
    (let r := m (put_verify OnlineCommittee.genesis w) in (r.1, ((verify w.1.1, r.2.1), r.2.2))).
  rewrite Hm. cbv zeta. unfold split. simpl.
  replace (verify w.1.1) with (verify (m w).2.1.1); [done|].
  specialize (Hm (verify w.1.1) w). assert (put_verify (verify w.1.1) w = w) as Hw by by destruct w as [[[] ?] ?].
  rewrite Hw in Hm. rewrite (surjective_pairing (m w)) in Hm at 1. injection Hm as Hm. by rewrite Hm.
Qed.
Lemma sim_call {A} (m : M World Fault A) :
  indep m → (∀ w, (m w).1 ≠ Err Panic) → sim m (OnlineCommittee.call (map_err tt m)).
Proof.
  intros Hi Hp w. specialize (Hp w). transitivity (map_err Failed (map_err tt (with_callee m)) (split w)).
  - unfold OnlineCommittee.call, map_err, with_callee. by destruct (m ((split w).1.2, (split w).2)) as [[] ?].
  - unfold map_err. rewrite (indep_split m Hi). by destruct (m w) as [[|[]] ?].
Qed.
Lemma sim_call_ignore {E} (m : M World E unit) : indep m → sim (ignore m) (OnlineCommittee.call (ignore m)).
Proof.
  intros Hi w. exact (f_equal (λ x, (Ok tt, x.2)) (indep_split m Hi w)).
Qed.

(** The code the two pallets share, over the rest of each. *)
Definition shared {E A} (m : M ((OC * RT) * L) E A) (m' : M OWorld E A) : Prop :=
  ∀ v s h l, let r := m ((v, h), l) in m' ((v, (s, h)), l) = (r.1, ((r.2.1.1, (s, r.2.1.2)), r.2.2)).

Lemma shared_sim {E A} (m : M ((OC * RT) * L) E A) m' : shared m m' → sim (on_verify m) m'.
Proof. intros Hm w. unfold split. by rewrite Hm. Qed.
Lemma sim_same {E A} (m m0 : M World E A) m' : same m m0 → sim m0 m' → sim m m'.
Proof. intros Hm Hs w. rewrite Hm. apply Hs. Qed.
Lemma shared_bind {E A B} (m : M ((OC * RT) * L) E A) m' (k : A → M ((OC * RT) * L) E B) k' :
  shared m m' → (∀ a, shared (k a) (k' a)) → shared (m ≫= k) (m' ≫= k').
Proof.
  intros Hm Hk v s h l. unfold mbind, M_bind. rewrite Hm.
  destruct (m _) as [[a|e] [[v1 h1] l1]]; [apply Hk|done].
Qed.
Lemma shared_mret {E A} (a : A) : shared (E:=E) (mret a) (mret a).
Proof. by intros v s h l. Qed.
Lemma shared_ok_or {E A} (o : option A) (e : E) : shared (ok_or o e) (ok_or o e).
Proof. intros v s h l. by destruct o. Qed.

Lemma shared_draw max : shared (OnlineCommittee.draw max) (OnlineCommittee.draw max).
Proof.
  intros v s h l. unfold OnlineCommittee.draw. simpl. by destruct (rnd_u32 max h) as [[] h'].
Qed.
Lemma shared_draw_members n i c : shared (OnlineCommittee.draw_members n i c) (OnlineCommittee.draw_members n i c).
Proof.
  revert i c. induction n as [|n IH]; intros i c; cbn [OnlineCommittee.draw_members]; [apply shared_mret|].
  apply shared_bind; [apply shared_draw|intros x]. apply shared_bind; [apply shared_ok_or|intros a].
  apply shared_bind; [apply IH|intros ?; apply shared_mret].
Qed.
Lemma shared_work_index : shared OnlineCommittee.get_work_index OnlineCommittee.get_work_index.
Proof.
  apply (shared_bind (OnlineCommittee.rt_gets mc_available_committee)); [done|]. intros [c|]; [|apply shared_mret].
  case_match; [apply shared_mret|]. apply shared_bind; [apply shared_draw_members|]. intros ?. apply shared_mret.
Qed.
Lemma shared_used_stake a v b :
  shared (OnlineCommittee.change_committee_used_stake a v b) (OnlineCommittee.change_committee_used_stake a v b).
Proof.
  intros x s h l. unfold OnlineCommittee.change_committee_used_stake, OnlineCommittee.call, map_err, with_callee.
  simpl. by destruct (mc_change_used_stake a v b (h, l)) as [[] [? ?]].
Qed.
Lemma shared_book_one m cs now sq :
  shared (OnlineCommittee.book_one m cs now sq) (OnlineCommittee.book_one m cs now sq).
Proof.
  apply (shared_bind (OnlineCommittee.rt_gets mc_stake_per_order)); [done|]. intros o.
  apply shared_bind; [apply shared_ok_or|intros v]. apply shared_bind; [apply shared_used_stake|done].
Qed.
Lemma sim_used_stake a v b : sim (change_used_stake a v b) (OnlineCommittee.change_committee_used_stake a v b).
Proof.
  intros w. rewrite (shared_sim _ _ (shared_used_stake a v b)).
  unfold change_used_stake, on_verify, focus, OnlineCommittee.change_committee_used_stake, OnlineCommittee.call,
    map_err, with_callee. simpl.
  destruct (mc_change_used_stake a v b (w.1.2, w.2)) as [[] [? ?]]; by destruct w as [[[] ?] ?].
Qed.

(** ** The operations of the registry do not touch the verification *)
Lemma indep_reg_gets {E A} (f : Registry → A) : indep (E:=E) (reg_gets f).
Proof. by intros v w. Qed.
Lemma indep_reg_modify {E} f : indep (E:=E) (reg_modify f).
Proof. by intros v w. Qed.
Lemma indep_event {E} e : indep (E:=E) (own_modify (deposit_event e)).
Proof. by intros v w. Qed.
Lemma indep_ok_or {E A} (o : option A) (e : E) : indep (ok_or o e).
Proof. intros v w. by destruct o. Qed.
Lemma indep_mret {E A} (a : A) : indep (E:=E) (mret a).
Proof. by intros v w. Qed.
Lemma indep_unreserve {E} a x : indep (E:=E) (m_unreserve a x).
Proof. intros v w. by rewrite !m_unreserve_run. Qed.
#[local] Hint Resolve indep_reg_gets indep_reg_modify indep_event indep_ok_or indep_mret indep_unreserve : pallet.
Ltac indep := repeat first [solve [auto with pallet] | apply indep_bind; [|intros ?] | case_match].

Lemma indep_book m : indep (book_machine m).
Proof. unfold book_machine. indep. Qed.
Lemma indep_revert m : indep (revert_booked_machine m).
Proof. unfold revert_booked_machine. indep. Qed.
Lemma indep_refuse m : indep (refuse_machine m).
Proof. unfold refuse_machine. indep. Qed.
Lemma indep_confirm now l i : indep (confirm_machine now l i).
Proof. unfold confirm_machine, change_stash_total_stake. indep. Qed.

Lemma sim_book m : sim (book_machine m) (OnlineCommittee.call (oc_booked_machine m)).
Proof.
  apply sim_call; [apply indep_book|]. intros w. unfold book_machine, reg_modify, own_modify. rewrite bind_modify.
  unfold reg_gets, own_gets. rewrite bind_gets. by destruct (MachinesInfo _ !! m).
Qed.
Lemma sim_revert m : sim (revert_booked_machine m) (OnlineCommittee.call (oc_revert_booked_machine m)).
Proof.
  apply sim_call; [apply indep_revert|]. intros w. unfold revert_booked_machine, reg_modify, own_modify.
  rewrite bind_modify. unfold reg_gets, own_gets. rewrite bind_gets. by destruct (MachinesInfo _ !! m).
Qed.
Lemma sim_refuse l m : sim (refuse_machine m) (OnlineCommittee.refuse_machine l m).
Proof.
  intros w. pose proof (indep_split _ (indep_refuse m) w) as Hw.
  assert (∃ x, (refuse_machine m w).1 = Ok x) as [x Hx].
  { unfold refuse_machine, reg_gets, own_gets. rewrite bind_gets. destruct (MachinesInfo _ !! m); by eexists. }
  pose proof (f_equal fst Hw) as H1. pose proof (f_equal snd Hw) as H2. clear Hw. rewrite Hx in H1 |- *.
  unfold OnlineCommittee.refuse_machine, with_callee in *. cbn [oc_refuse_machine rest_registry].
  destruct (refuse_machine m ((split w).1.2, (split w).2)) as [r [h l1]]. cbn [fst snd] in *.
  by rewrite H1, <- H2.
Qed.

Lemma sim_summary_raw m now stake : sim (summary_raw m now stake) (OnlineCommittee.summary_raw m now stake).
Proof.
  apply sim_bind; [by apply sim_gets|intros c]. destruct (VerifyOnline.can_submit_raw now c); [apply sim_write|].
  destruct (VerifyOnline.can_summary now c); [|apply sim_mret].
  apply sim_bind; [by apply sim_gets|intros infos]. apply sim_bind; [apply sim_ok_or|intros r].
  apply sim_bind; [destruct (VerifyOnline.verify_result r); [apply sim_mret|apply sim_refuse|apply sim_mret]|].
  intros slash. apply sim_bind.
  { destruct (VerifyOnline.verify_result r); [|apply sim_mret|].
    - apply sim_bind; [apply sim_ok_or|intros i]. apply sim_bind; [apply sim_call_ignore, indep_confirm|intros _].
      apply sim_for_each. intros a. apply sim_write.
    - apply sim_bind; [apply sim_write|intros _]. apply sim_bind; [apply sim_revert|intros _].
      apply sim_for_each. intros a. apply sim_attempt, sim_used_stake. }
  intros _. apply sim_bind.
  { case_match; [destruct slash as [[]|]; apply sim_write|].
    apply sim_for_each. intros a. apply sim_attempt, sim_used_stake. }
  intros _. apply sim_bind; [apply sim_write|intros _; apply sim_write].
Qed.
Lemma sim_distribute cs now m : sim (distribute_machine cs now m) (OnlineCommittee.distribute_machine cs now m).
Proof.
  apply sim_bind; [apply sim_write|intros _]. apply sim_bind; [apply (sim_same _ _ _ same_work_index), shared_sim, shared_work_index|intros [seqs|]].
  - apply sim_bind; [|intros _; apply sim_attempt, sim_book].
    apply sim_for_each. intros sq. apply sim_attempt, (sim_same _ _ _ (same_book_one _ _ _ _)), shared_sim, shared_book_one.
  - apply sim_mret.
Qed.
Lemma sim_finalize now :
  sim (statistic_online_verify now;; distribute_machines now) (OnlineCommittee.on_finalize now).
Proof.
  apply sim_bind; [|intros _].
  - apply sim_bind; [by apply sim_gets|intros l]. apply sim_bind; [by apply sim_gets|intros v].
    apply sim_for_each. intros m. apply sim_attempt, sim_summary_raw.
  - apply sim_bind; [by apply sim_gets|intros l]. apply sim_for_each. intros m. apply sim_distribute.
Qed.
End simulation.

(** ** The hooks and calls *)
Section steps.
Context {L RT : Type} `{!ReservableCurrency L}.
Context `{!ManageCommittee L RT, !GNOps L RT, !TxFee L RT, !RentPrice RT, !ServerRooms RT, !RandomDraw RT} {P : PerThing}.
Context `{!RandomDrawLaws RT} (T : Config).
Abbreviation World := ((State * RT) * L)%type.
Abbreviation C := (verify_config T) (only parsing).
Import OnlineInvariant.
Implicit Types (w : World) (v : OC) (Q : OC → Prop).

(** A property of the verification. *)
Definition checked Q w : Prop := Q (verify w.1.1).

Lemma safe_leave {A} Q (m : M World Fault A) :
  (∀ x, kept (part verify x) m) → (∀ w, (m w).1 ≠ Err Panic) → safe (checked Q) (checked Q) m.
Proof. intros Hk Hp w Hw. split; [|apply Hp]. unfold checked. by rewrite (Hk _ w eq_refl). Qed.
Lemma safe_lift {A} Q (m : M World unit A) :
  (∀ x, kept (part verify x) m) → safe (checked Q) (checked Q) (lift_unit m).
Proof.
  intros Hk. apply safe_leave; [intros x; by apply kept_map_err|].
  intros w. unfold lift_unit, map_err. by destruct (m w) as [[] ?].
Qed.
Lemma safe_ignore {E A} Q (m : M World E A) :
  (∀ x, kept (part verify x) m) → safe (checked Q) (checked Q) (ignore m).
Proof. intros Hk. apply safe_leave; [intros x; by apply kept_ignore|done]. Qed.
Lemma safe_verify {A} Q Q' (m : M ((OC * RT) * L) Fault A) :
  safe (OnlineSteps.own Q) (OnlineSteps.own Q') m → safe (checked Q) (checked Q') (on_verify m).
Proof. intros Hm w Hw. exact (Hm ((verify w.1.1, w.1.2), w.2) Hw). Qed.
Lemma safe_equal {A} (X X' : World → Prop) (m m' : M World Fault A) : same m m' → safe X X' m' → safe X X' m.
Proof. intros Hm Hs w Hw. rewrite Hm. by apply Hs. Qed.
Lemma safe_checked_modify Q Q' f : (∀ v, Q v → Q' (f v)) → safe (checked Q) (checked Q') (verify_modify f).
Proof. intros Hf w Hw. split; [by apply Hf|done]. Qed.

(** The summary and the distribution, from the simulation. *)
Lemma verify_finalize now w :
  let v := verify w.1.1 in
  OnlineCommittee.NextSlashId v + Z.of_nat (length (ProfileTypes.booked_machine (LiveMachines (registry w.1.1)))) ≤ U64_MAX →
  BookInv C v → SlashInv now v →
  checked (OnlineSteps.core C now v 0) ((statistic_online_verify now;; distribute_machines now) w).2 ∧
  ((statistic_online_verify now;; distribute_machines now) w).1 ≠ Err Panic.
Proof.
  intros v Hn HB HS. pose proof (rest_draw_laws _) as HL.
  pose proof (@OnlineSteps.safe_on_finalize L (State * RT) rest_committee rest_registry rest_draw HL C now v
    (split w) eq_refl Hn HB HS) as Hs.
  by rewrite (sim_finalize now w) in Hs.
Qed.

Lemma do_a_slash_checked t v0 id pending :
  id ∈ pending →
  safely (checked (OnlineSteps.working_off C t v0 pending)) (do_a_slash t id pending)
    (λ p' w, checked (OnlineSteps.working_off C t v0 p') w ∧ ∀ id', id' ∈ pending → id' ≠ id → id' ∈ p')
    (checked (OnlineSteps.working_off C t v0 pending)).
Proof.
  intros Hid w Hw. unfold do_a_slash. unfold own_gets. rewrite bind_gets.
  destruct (OnlineCommittee.PendingSlash (verify w.1.1) !! id) as [i|] eqn:Hi; [|done]. rewrite bind_ok_or.
  destruct (Z.ltb_spec t (VerifyOnline.slash_exec_time i)) as [Hlt|Hge]; [by split|].
  set (Q v := OnlineSteps.working_off C t v0 pending v ∧ OnlineCommittee.PendingSlash v !! id = Some i).
  assert (∀ w, checked Q w → checked (OnlineSteps.working_off C t v0 pending) w) as HQ by (by intros w' [? _]).
  assert (checked Q w) as Hq by by split. clear Hw Hi. revert w Hq.
  assert (∀ A (m : M World Fault A), safe (checked Q) (checked Q) m →
    safely (checked Q) m (λ _, checked Q) (checked (OnlineSteps.working_off C t v0 pending))) as Hpass
    by (intros A m; by apply safe_safely).
  eapply safely_bind; [apply Hpass|intros []].
  { case_match; [|apply safe_mret]. destruct (VerifyOnline.machine_stash i); [|apply safe_mret].
    apply safe_seq; [|intros _]; apply safe_lift; intros x; unfold exec_slash, slash_and_reward; frame_steps. }
  do 2 (eapply safely_bind; [apply Hpass, (safe_equal _ _ _ _ (same_stake _ _ _)), safe_verify, OnlineSteps.safe_stake|intros []]).
  eapply safely_bind; [apply Hpass, safe_lift; intros x; apply on_callee|intros []].
  intros w [(HB & HS & Ha) Hi]. unfold verify_modify, own_modify. rewrite bind_modify.
  pose proof (si_sorted _ _ HS) as Hsort. simpl in Hsort. destruct (rm_item_spec _ id Hsort) as [Su Eu].
  assert (VerifyOnline.slash_result i = VerifyOnline.Pending) as Hpend.
  { apply (si_unhandled _ _ HS) in Hid as (j & Hj & Hres). simpl in Hj. congruence. }
  split; [split_and!|].
  - by apply (BookInv_same C (verify w.1.1)).
  - by eapply (slashes_decide t _ id i VerifyOnline.Executed (rm_item pending id)); [exact HS|..|left].
  - by eapply advanced_execute.
  - intros id' Hin Hne. by apply Eu.
Qed.

Lemma exec_slashes_checked t v0 ids pending w :
  NoDup ids → (∀ id, id ∈ ids → id ∈ pending) → checked (OnlineSteps.working_off C t v0 pending) w →
  ∃ pending' w', exec_slashes t ids pending w = (Ok pending', w') ∧
    checked (OnlineSteps.working_off C t v0 pending') w'.
Proof.
  intros Hnd. revert pending w. induction Hnd as [|id ids Hni Hnd IH]; intros pending w Hsub Hw; cbn [exec_slashes].
  - by exists pending, w.
  - pose proof (do_a_slash_checked t v0 id pending (Hsub id ltac:(constructor)) w Hw) as Hs.
    assert (∃ p' w', attempt pending (do_a_slash t id pending) w = (Ok p', w') ∧
      checked (OnlineSteps.working_off C t v0 p') w' ∧ ∀ id', id' ∈ pending → id' ≠ id → id' ∈ p')
      as (p' & w' & Hrun & Hw' & Hp').
    { unfold attempt. destruct (do_a_slash t id pending w) as [[p'|[]] w']; [|by eauto|done].
      destruct Hs. by exists p', w'. }
    rewrite (bind_run _ _ _ _ _ Hrun). apply IH; [|done]. intros id' Hin.
    apply Hp'; [apply Hsub; by constructor|]. by intros ->.
Qed.

Lemma safe_pending_slash t v0 :
  safe (checked (OnlineSteps.core C t v0 0)) (checked (OnlineSteps.core C t v0 0)) (check_and_exec_pending_slash t).
Proof.
  intros w (HB & HS & Ha & Hn). unfold check_and_exec_pending_slash, own_gets. rewrite bind_gets.
  set (u := OnlineCommittee.UnhandledSlash (verify w.1.1)).
  destruct (exec_slashes_checked t v0 u u w) as (p' & w' & Hrun & HB' & HS' & Ha').
  - apply sorted_NoDup, (si_sorted _ _ HS).
  - done.
  - split_and!; [done| |done]. eapply SlashInv_same; [|exact HS]. done.
  - rewrite (bind_run _ _ _ _ _ Hrun). split; [|done]. split_and!; [|done|done|].
    + by apply (BookInv_same C (verify w'.1.1)).
    + simpl. rewrite Z.add_0_r. apply (si_next _ _ HS').
Qed.

(** *** The rest of the hooks *)
Lemma summary_leaves_verify now x : kept (part (L:=L) (RT:=RT) verify x) (summary_fault_report_hook now).
Proof. by apply summary_part. Qed.
Lemma finished_leaves_verify now x : kept (part (L:=L) (RT:=RT) verify x) (check_if_rent_finished now).
Proof. frame_steps. Qed.
Lemma timeout_leaves_verify now x : kept (part (L:=L) (RT:=RT) verify x) (check_if_offline_timeout now).
Proof. frame_steps. Qed.

Lemma safe_finalize now w :
  let v := verify w.1.1 in ids_left w.1.1 → BookInv C v → SlashInv now v →
  checked (OnlineSteps.core C now v 0) (on_finalize now w).2 ∧ (on_finalize now w).1 ≠ Err Panic.
Proof.
  intros v (_ & Hn & _) HB HS. destruct (verify_finalize now w Hn HB HS) as [Hc Hp].
  assert (on_finalize now w = ((statistic_online_verify now;; distribute_machines now);;
    (ignore (check_if_rent_finished now);; ignore (check_if_offline_timeout now);;
     ignore (exec_report_slash now))) w) as ->.
  { unfold on_finalize, mbind, M_bind. by destruct (statistic_online_verify now w) as [[] ?]. }
  set (m := statistic_online_verify now;; distribute_machines now) in *.
  assert (safe (checked (OnlineSteps.core C now v 0)) (checked (OnlineSteps.core C now v 0))
    (ignore (check_if_rent_finished now);; ignore (check_if_offline_timeout now);;
     ignore (exec_report_slash now) : M World Fault unit)) as Hs.
  { apply safe_seq; [apply safe_ignore, finished_leaves_verify|intros _].
    apply safe_seq; [apply safe_ignore, timeout_leaves_verify|intros _].
    apply safe_ignore. intros x. unfold exec_report_slash. frame_steps. }
  revert Hs. generalize (ignore (check_if_rent_finished now);; ignore (check_if_offline_timeout now);;
     ignore (exec_report_slash now) : M World Fault unit). intros k Hs.
  unfold mbind, M_bind. destruct (m w) as [[[]|e] w1]; [by apply Hs|]. split; [done|].
  simpl in *. congruence.
Qed.
Lemma safe_initialize t v0 :
  safe (checked (OnlineSteps.core C t v0 0)) (checked (OnlineSteps.core C t v0 0))
    (on_initialize t : M World Fault unit).
Proof.
  apply safe_seq; [apply safe_pending_slash|intros _]. apply safe_ignore, summary_leaves_verify.
Qed.

(** *** The calls *)

(** The two calls of the verification use nothing of a registry. *)
#[local] Instance no_registry : OCOps L RT := {|
  oc_confirmed_machines _ := []; oc_booked_machines _ := []; oc_controller_stash _ _ := None;
  oc_booked_machine _ := mret tt; oc_revert_booked_machine _ := mret tt;
  oc_confirm_machine _ _ _ := mret tt; oc_refuse_machine _ _ x := (None, x);
  oc_change_staked_balance _ _ _ := mret tt; oc_exec_slash _ _ := mret tt |}.

Lemma checked_call {A} (m : M ((OC * RT) * L) (DispatchError OnlineCommittee.Error) A) w :
  verify (transactional (verify_call m) w).2.1.1 = (transactional m ((verify w.1.1, w.1.2), w.2)).2.1.1.
Proof.
  unfold transactional, verify_call, rename_error, on_verify, focus.
  by destruct (m ((verify w.1.1, w.1.2), w.2)) as [[] ?].
Qed.
Lemma dispatch_checked now o c w :
  BookInv C (verify w.1.1) → SlashInv now (verify w.1.1) →
  let v := verify (dispatch T now o c w).2.1.1 in
  BookInv C v ∧ SlashInv now v ∧ OnlineSteps.decided now (verify w.1.1) v.
Proof.
  intros HB HS v. destruct (verifies c) eqn:Hc.
  - assert (∃ c', v = (OnlineCommittee.dispatch C now o c' ((verify w.1.1, w.1.2), w.2)).2.1.1) as [c' ->];
      [|by apply (OnlineSteps.dispatch_keeps C now o c' ((verify w.1.1, w.1.2), w.2))].
    destruct c; try done.
    + eexists (OnlineCommittee.SubmitConfirmHash _ _). apply checked_call.
    + eexists (OnlineCommittee.SubmitConfirmRaw _). apply checked_call.
  - assert (v = verify w.1.1) as ->.
    { apply (kept_transactional _ _ (call_verify T now o c (verify w.1.1) Hc) w). done. }
    split_and!; [done..|by apply OnlineSteps.decided_same].
Qed.

Lemma step_checked c c' :
  step T c c' → BookInv C (verify c.2.1.1) → SlashInv c.1 (verify c.2.1.1) →
  BookInv C (verify c'.2.1.1) ∧ SlashInv c'.1 (verify c'.2.1.1) ∧
  (OnlineSteps.decided c.1 (verify c.2.1.1) (verify c'.2.1.1) ∨ advanced c'.1 (verify c.2.1.1) (verify c'.2.1.1)).
Proof.
  intros Hstep HB HS. destruct Hstep as [now o cl w _ _|now w Hids _|now s h h' l l']; simpl in *.
  - destruct (dispatch_checked now o cl w HB HS) as (? & ? & ?). auto.
  - destruct (safe_finalize now w Hids HB HS) as [(HB1 & HS1 & Ha1 & Hn1) _].
    destruct (safe_initialize (now + 1) (verify w.1.1) (on_finalize now w).2) as [(HB2 & HS2 & Ha2 & _) _].
    { split_and!; [done|eapply SlashInv_later; [|done]; lia| |done].
      intros id i Hi. destruct (Ha1 id i Hi) as (i' & ? & ? & [?|(? & ? & ?)]); exists i';
        (split_and!; [done..|]); [by left|right; split_and!; [done..|lia]]. }
    split_and!; [done..|by right].
  - split_and!; [done..|]. left. by apply OnlineSteps.decided_same.
Qed.
Lemma reachable_checked c :
  reachable T c → BookInv C (verify c.2.1.1) ∧ SlashInv c.1 (verify c.2.1.1).
Proof.
  intros (now & pot & h & l & _ & Hr).
  apply (rtc_invariant (step T) (λ c, BookInv C (verify c.2.1.1) ∧ SlashInv c.1 (verify c.2.1.1))
    (now, ((genesis pot, h), l))); [| |done].
  - intros a b Hs [HB HS]. by destruct (step_checked a b Hs HB HS) as (? & ? & _).
  - split; [apply genesis_books|apply genesis_slashes].
Qed.
End steps.
End TerminatingVerify.
