(* ===== verification/TerminatingReports.v ===== *)
(** * pallet-terminating-rental: its fault reports

    The invariant of the votes on a report of MaintainVotes.v, for the reports of
    this pallet: the code both pallets share keeps it by the lemmas of that file,
    the code that differs by those below. *)
From stdpp Require Import base gmap fin_maps list numbers relations.
From Stdlib Require Import ZArith Lia Strings.Byte.
From S2P Require Import Prelude Currency Interfaces ItemList VerifyOnline RentalTypes RentalInterfaces ReportTypes OnlineCommittee RentMachine ProfileTypes MaintainCommittee MaintainSteps MaintainVotes TerminatingState TerminatingRental TerminatingSteps.

Module TerminatingReports.
Import (hints) MaintainCommittee MaintainSteps.
Import ItemList TerminatingState TerminatingRental TerminatingSteps.
Import Report MaintainVotes.

Section reports.
Context {L RT : Type} `{!ReservableCurrency L}.
Context `{!ManageCommittee L RT, !GNOps L RT, !TxFee L RT, !RentPrice RT, !ServerRooms RT, !RandomDraw RT} {P : PerThing}.
Context (T : Config).
Abbreviation World := ((State * RT) * L)%type.
Abbreviation RWorld := ((MaintainCommittee.State * RT) * L)%type.
Abbreviation Live := MTLiveReportList (only parsing).
Abbreviation C := (report_config T) (only parsing).
Implicit Types (w : World) (Q R : RWorld → Prop).

(** The pallet as that of the reports. *)
Definition view w : RWorld := ((reports w.1.1, w.1.2), w.2).
Definition viewed Q (p : World * Live) : Prop := Q (view p.1).

Lemma triple_in {A} Q R (m : M (RWorld * Live) unit A) :
  MaintainSteps.triple (MaintainSteps.onchain Q) m (MaintainSteps.onchain R) →
  MaintainSteps.triple (viewed Q) (in_reports m) (viewed R).
Proof.
  intros Hm p Hp. specialize (Hm (view p.1, p.2) Hp). unfold viewed, in_reports, view in *. cbn [fst snd] in *.
  by destruct (m (_, p.2)) as [r [[[s h] l] c]].
Qed.
Lemma kept_in {A} Q (m : M (RWorld * Live) unit A) :
  kept (MaintainSteps.onchain Q) m → kept (viewed Q) (in_reports m).
Proof. apply triple_in. Qed.
Lemma kept_beside {A} n id r (m : M World unit A) :
  (∀ x, kept (part reports x) m) → kept (viewed (known C n id r)) (on_pallet m).
Proof.
  intros Hm p Hp. unfold viewed, view, known, counted in *. simpl in *.
  by rewrite (Hm _ p.1 eq_refl).
Qed.
Lemma own_report_run {A} (f : MaintainCommittee.State → A) (p : World * Live) :
  own_report f p = (Ok (f (reports p.1.1.1)), p).
Proof. by destruct p as [[[[] ?] ?] ?]. Qed.
Lemma read_own_report {A} n id (k : MTReportInfoDetail → M (World * Live) unit A) :
  (∀ r, MaintainSteps.triple (viewed (known C (S n) id r)) (k r) (viewed (counted C n))) →
  MaintainSteps.triple (viewed (counted C (S n)))
    (own_report (λ s, MaintainCommittee.ReportInfo s !! id) ≫= λ maybe, ok_or maybe tt ≫= k) (viewed (counted C n)).
Proof.
  intros Hk p Hp. rewrite (bind_run _ _ _ _ _ (own_report_run _ p)).
  destruct (MaintainCommittee.ReportInfo (reports p.1.1.1) !! id) as [r|] eqn:Hr; [|by apply budget_down].
  rewrite bind_ok_or. by apply Hk.
Qed.

(** ** Reporting *)
Lemma report_counterfeit_run now a f t lr rr (x : RWorld) :
  do_report_machine_fault now a f t lr rr x =
    let n := MaintainCommittee.NextReportId x.1.1 in
    (Ok (live_new_report n lr, reporter_new_report n rr),
     ((MaintainCommittee.deposit_event (MaintainCommittee.ReportMachineFault a f) (MaintainCommittee.put_info n
        (new_report a (default now t) f (stake_per_report (reporter_stake_params x.1.1)))
        (MaintainCommittee.get_new_report_id x.1.1).2), x.1.2), x.2)).
Proof. done. Qed.
Lemma known_report_again now n id r info lists :
  MaintainSteps.triple (MaintainSteps.onchain (known C (S n) id r)) (report_again (L:=L) (RT:=RT) now info lists)
    (MaintainSteps.onchain (known C n id r)).
Proof.
  intros [x c] [[V HN] Hr]. unfold report_again. cbn [fst snd] in *. rewrite report_counterfeit_run. cbn [fst snd].
  assert (MaintainCommittee.NextReportId x.1.1 < U64_MAX) as HN' by lia.
  assert (id < MaintainCommittee.NextReportId x.1.1) as Hid by apply (vi_report _ _ V id r Hr).
  split; [split|].
  - by apply V_event, V_new.
  - cbn. destruct (Z.eqb_spec (MaintainCommittee.NextReportId x.1.1) U64_MAX); lia.
  - cbn. rewrite lookup_insert_ne; [done|lia].
Qed.

(** ** The hooks *)
Lemma summary_votes now id n :
  MaintainSteps.triple (viewed (counted C (S n))) (summary_submitting_raw (L:=L) (RT:=RT) now id) (viewed (counted C n)).
Proof.
  unfold summary_submitting_raw. apply MaintainSteps.triple_seq; [intros p; apply budget_down|by intros ?|intros v].
  apply read_own_report. intros r. destruct (can_summary now r); cbn [negb];
    [|apply MaintainSteps.triple_mret; intros ? []; by apply budget_down].
  assert (∀ p, viewed (known C (S n) id r) p → viewed (counted C n) p) as Hd by (intros p []; by apply budget_down).
  apply MaintainSteps.triple_seq; [done|by apply kept_in, MaintainSteps.kept_live|intros _].
  apply MaintainSteps.triple_seq; [done|by intros ?|intros current]. cbv zeta.
  apply (MaintainSteps.triple_bind _ (viewed (known C n id r))); [by intros p []| |intros _].
  - destruct (summary r) as [sup ag e|sup ag|] eqn:Hsum.
    + apply MaintainSteps.triple_kept; [|intros p; apply known_down].
      apply kept_bind; [apply kept_for_each; intros b _; apply kept_in, known_finish|].
      intros _. apply kept_beside. intros x. unfold report_offline. frame_steps.
    + apply MaintainSteps.triple_kept; [|intros p; apply known_down].
      apply kept_for_each. intros b _. apply kept_in, known_finish.
    + apply MaintainSteps.triple_seq; [intros p; apply known_down| |intros _].
      { apply kept_for_each. intros b _. by apply kept_in, known_drop_order, summary_none. }
      apply MaintainSteps.triple_seq; [intros p; apply known_down|by intros ?|intros lists].
      apply (MaintainSteps.triple_bind _ (viewed (known C n id r)));
        [done|apply triple_in, known_report_again|intros again].
      apply MaintainSteps.triple_kept; [by apply kept_in, known_other|done].
  - do 2 (apply MaintainSteps.triple_seq; [by intros p []|by apply kept_in, known_other|intros _]).
    apply triple_in, MaintainSteps.triple_put_last. intros s h l c [[V HN] Hr]. split; [|done].
    case_bool_decide; [by apply (V_put C s id r)|apply V_status; auto].
Qed.
Lemma summary_hook_votes now w :
  VoteInv C (reports w.1.1) → MaintainCommittee.ids_left (reports w.1.1) →
  VoteInv C (reports (summary_fault_report_hook now w).2.1.1).
Proof.
  intros V Hl. set (k := length (waiting_raw_report (MaintainCommittee.LiveReport (reports w.1.1)))).
  unfold summary_fault_report_hook, on_live_report. rewrite bind_gets. cbn [fst snd].
  match goal with |- VoteInv _ (reports (own_modify _ (?m ?x).2.1).2.1.1) =>
    enough (viewed (counted C 0) (m x).2) as [Hm _] end; [by apply (V_frame C) with (2 := Hm)|].
  apply (MaintainSteps.triple_seq (viewed (counted C (k + 0)))).
  - intros p. apply counted_le. lia.
  - apply kept_for_each. intros id _. apply kept_ignore, kept_in, votes_verifying.
  - intros _. apply (MaintainSteps.for_each_budget (λ n, viewed (counted C n))); [intros n p; apply budget_down|].
    intros id n p Hp. exact (summary_votes now id n p Hp).
  - split; [done|]. unfold MaintainCommittee.ids_left in Hl. simpl. lia.
Qed.

(** What runs beside the reports leaves them alone. *)
Lemma pending_slash_reports now x : kept (part (L:=L) (RT:=RT) reports x) (check_and_exec_pending_slash now).
Proof. by apply pending_slash_part. Qed.

Lemma slash_ballot now x : kept (MaintainSteps.part (L:=L) (RT:=RT) ballot x) (MaintainCommittee.exec_slash now).
Proof. MaintainSteps.part_steps; by apply MaintainSteps.part_close. Qed.
Lemma finalize_votes now : kept (λ w, VoteInv C (reports w.1.1)) (on_finalize now).
Proof.
  assert (∀ m : M World Fault unit, (∀ x, kept (part reports x) m) →
    kept (λ w, VoteInv C (reports w.1.1)) m) as Hbeside.
  { intros m Hm w' V. by rewrite (Hm _ w' eq_refl). }
  unfold on_finalize. apply kept_bind; [apply Hbeside; intros x; frame_steps|intros _].
  apply kept_bind; [apply Hbeside; intros x; frame_steps|intros _].
  do 2 (apply kept_bind; [apply Hbeside; intros x; apply kept_ignore; frame_steps|intros _]).
  apply kept_ignore. intros w V. apply (V_frame C) with (2 := V).
  exact (slash_ballot now _ (view w) eq_refl).
Qed.

(** ** The calls *)
Lemma viewed_call {A} (m : M RWorld (DispatchError MaintainCommittee.Error) A) w :
  VoteInv C (reports w.1.1) →
  (∀ u x, m (view w) = (Ok u, x) → VoteInv C x.1.1) →
  VoteInv C (reports (transactional (report_call m) w).2.1.1).
Proof.
  intros V Hm. unfold transactional, report_call, rename_error, on_reports, focus.
  change (reports w.1.1, w.1.2, w.2) with (view w). destruct (m (view w)) as [[u|e] x]; [|done].
  exact (Hm u x eq_refl).
Qed.
Lemma votes_do_report now o h key (x : RWorld) u x' :
  VoteInv C x.1.1 → MaintainCommittee.NextReportId x.1.1 < U64_MAX →
  do_report now o h key x = (Ok u, x') → VoteInv C x'.1.1.
Proof.
  intros V HN Hrun. unfold do_report in Hrun. run_inv.
  match goal with H : pay_stake_when_report _ x = (Ok _, ?x1),
      H' : do_report_machine_fault _ _ _ _ _ _ ?x1 = (Ok _, ?x2) |- _ =>
    assert (ballot x1.1.1 = ballot x.1.1) as Hb;
    [eapply MaintainSteps.part_Ok; [|exact H]; intros y; unfold pay_stake_when_report; MaintainSteps.part_steps|];
    assert (VoteInv C x1.1.1) as V1 by (by apply (V_frame C x.1.1));
    apply (V_frame C x2.1.1); [reflexivity|]; rewrite report_counterfeit_run in H';
    apply (f_equal snd) in H'; cbn [snd] in H'; rewrite <- H'; cbn [fst snd] end.
  apply V_event, V_new; [done|]. by injection Hb as ->.
Qed.
Lemma votes_do_book now o id (x : RWorld) u x' :
  VoteInv C x.1.1 → do_book_report now o id x = (Ok u, x') → VoteInv C x'.1.1.
Proof.
  intros V Hrun.
  unfold do_book_report, MaintainCommittee.is_valid_committee, MaintainCommittee.get_stake_per_order in Hrun. run_inv.
  repeat match goal with
  | H : MaintainCommittee.rt_gets _ _ = (Ok _, _) |- _ => apply gets_Ok in H as [_ ->]
  | H : MaintainCommittee.report_ok _ _ = (Ok _, _) |- _ => apply report_ok_Ok in H as [Hcan ->]
  | H : MaintainCommittee.call_or _ _ _ = (Ok _, ?x1) |- _ =>
      apply (part_id) in H; [rewrite H|intros y; MaintainSteps.part_steps]
  end.
  by apply V_event, V_book.
Qed.
Lemma stake_ballot o v b x : kept (MaintainSteps.part (L:=L) (RT:=RT) ballot x) (change_stake o v b).
Proof. unfold change_stake, change_reporter_stake. MaintainSteps.part_steps. Qed.

Lemma dispatch_votes now o c w :
  VoteInv C (reports w.1.1) → MaintainCommittee.NextReportId (reports w.1.1) < U64_MAX →
  VoteInv C (reports (dispatch T now o c w).2.1.1).
Proof.
  intros V HN. pose proof V as Vw. change (VoteInv C (view w).1.1) in Vw. destruct (reporting c) eqn:Hc.
  - assert (∀ (m : M RWorld (DispatchError MaintainCommittee.Error) unit) u x,
      (∀ y, kept (MaintainSteps.part (L:=L) (RT:=RT) ballot y) m) → m (view w) = (Ok u, x) → VoteInv C x.1.1) as Hstake.
    { intros m u x Hm Hx. apply (V_frame C) with (2 := V). by apply (MaintainSteps.part_Ok ballot m (view w) u x). }
    destruct c; try done; unfold dispatch; cbn [run_call]; apply viewed_call; try done; intros u x Hx;
      [apply (Hstake _ _ _) with (2 := Hx); intros y; MaintainSteps.part_steps
      |exact (votes_do_report _ _ _ _ _ _ _ Vw HN Hx)
      |exact (Hstake _ _ _ (stake_ballot _ _ _) Hx)|exact (Hstake _ _ _ (stake_ballot _ _ _) Hx)
      |exact (votes_cancel _ _ _ _ _ _ Vw Hx)|exact (votes_do_book _ _ _ _ _ _ Vw Hx)
      |exact (votes_encrypted _ _ _ _ _ _ _ _ _ Vw Hx)|exact (votes_hash _ _ _ _ _ _ _ _ Vw Hx)
      |exact (votes_raw _ _ _ _ _ _ _ _ _ _ _ _ _ _ Vw Hx)].
  - unfold dispatch. by rewrite (kept_transactional _ _ (call_reports T now o c (reports w.1.1) Hc) w eq_refl).
Qed.

(** ** Reachable states *)
Lemma step_votes c c' : step T c c' → VoteInv C (reports c.2.1.1) → VoteInv C (reports c'.2.1.1).
Proof.
  intros [now o cl w _ (_ & _ & Hl)|now w _ (_ & _ & Hl)|now s h h' l l'] V; simpl in *.
  - apply dispatch_votes; [done|]. unfold MaintainCommittee.ids_left in Hl. lia.
  - apply (finalize_votes now) in V. revert Hl V. generalize (on_finalize now w).2. intros w1 Hl V.
    pose proof (pending_slash_reports (now + 1) _ w1 eq_refl) as Hk.
    unfold on_initialize, mbind, M_bind. destruct (check_and_exec_pending_slash (now + 1) w1) as [[u|e] w2];
      unfold part in Hk; simpl in Hk |- *; [|by rewrite Hk].
    apply summary_hook_votes; by rewrite Hk.
  - done.
Qed.
Lemma reachable_votes c : reachable T c → VoteInv C (reports c.2.1.1).
Proof.
  intros (now & pot & h & l & _ & Hr).
  apply (rtc_invariant (step T) (λ c, VoteInv C (reports c.2.1.1)) (now, ((genesis pot, h), l))); [|..|done].
  - exact step_votes.
  - apply votes_genesis.
Qed.
End reports.
End TerminatingReports.
