(* ===== verification/TerminatingOrders.v ===== *)
(** * pallet-terminating-rental: its rental orders

    The invariant of the orders of this pallet: ids, the GPUs each order holds,
    the lists by which the hook and the users find an order, and the ranges of an
    order's numbers; that every call and hook keeps it; and what the hook for
    the end of orders does. The GPUs are those of RentSteps.v. *)
From stdpp Require Import base gmap fin_maps list numbers relations.
From Stdlib Require Import ZArith Lia Strings.Byte.
From S2P Require Import Prelude Currency Interfaces ItemList VerifyOnline RentalTypes RentalInterfaces ReportTypes OnlineCommittee RentMachine RentSteps ProfileTypes MaintainCommittee TerminatingState TerminatingRental TerminatingSteps.

Module TerminatingOrders.
Import ItemList MachineInfo ProfileTypes RentOrder TerminatingState TerminatingRental TerminatingSteps.
Abbreviation list_at := RentMachine.list_at (only parsing).
Abbreviation Orders_map := (gmap Z RentOrderDetail) (only parsing).

(** ** Lists of orders by a key

    An order is listed under its key; what is listed there may also be the id of
    an order that is over, but not of one with another key. *)
Section tracks.
Context `{Countable K} (f : RentOrderDetail → K).
Implicit Types (o : Orders_map) (m : gmap K (list Z)).

Record tracks o (next : Z) m : Prop := {
  tk_sorted k : sorted (list_at m k);
  tk_listed k id : id ∈ list_at m k → id < next ∧ ∀ i, o !! id = Some i → f i = k;
  tk_found id i : o !! id = Some i → id ∈ list_at m (f i);
}.
(** [m'] is [m] without [id] at [k]. *)
Definition without (k : K) (id : Z) m m' : Prop :=
  ∀ k', list_at m' k' = if decide (k' = k) then rm_item (list_at m k) id else list_at m k'.

Lemma without_spec k id m m' : (∀ k, sorted (list_at m k)) → without k id m m' →
  ∀ k', sorted (list_at m' k') ∧ ∀ j, j ∈ list_at m' k' ↔ j ∈ list_at m k' ∧ ¬ (k' = k ∧ j = id).
Proof.
  intros Hs Hw k'. rewrite (Hw k'). case_decide as Hk; [subst k'|].
  - destruct (rm_item_spec _ id (Hs k)) as [? He]. split; [done|]. intros j. rewrite He. naive_solver.
  - split; [done|]. naive_solver.
Qed.
Lemma tracks_add o m id i :
  tracks o id m → tracks (<[id := i]> o) (id + 1) (RentMachine.add_to (f i) id m).
Proof.
  intros [Ts Tl Tf].
  assert (∀ k, sorted (list_at (RentMachine.add_to (f i) id m) k) ∧
    ∀ j, j ∈ list_at (RentMachine.add_to (f i) id m) k ↔ j ∈ list_at m k ∨ k = f i ∧ j = id) as Hadd.
  { intros k. rewrite RentSteps.list_at_add. case_decide as Hk; [subst k|].
    - destruct (add_item_spec _ id (Ts (f i))) as [? He]. split; [done|]. intros j. rewrite He. naive_solver.
    - split; [done|]. naive_solver. }
  split.
  - intros k. apply Hadd.
  - intros k j. rewrite (proj2 (Hadd k)). intros [Hj|[-> ->]].
    + destruct (Tl k j Hj) as [? Hk]. split; [lia|]. intros i'. rewrite lookup_insert_ne by lia. apply Hk.
    + split; [lia|]. intros i'. rewrite lookup_insert_eq. by intros [= <-].
  - intros j i'. rewrite (proj2 (Hadd (f i'))), lookup_insert_Some. intros [[<- <-]|[_ Hj]]; [by right|left; eauto].
Qed.
Lemma tracks_same o next m id i i0 :
  o !! id = Some i0 → f i = f i0 → tracks o next m → tracks (<[id := i]> o) next m.
Proof.
  intros Hi Hf [Ts Tl Tf]. split; [done| |].
  - intros k j Hj. destruct (Tl k j Hj) as [? Hk]. split; [done|]. intros i'. rewrite lookup_insert_Some.
    intros [[<- <-]|[_ ?]]; [rewrite Hf|]; eauto.
  - intros j i'. rewrite lookup_insert_Some. intros [[<- <-]|[_ ?]]; [rewrite Hf|]; eauto.
Qed.
Lemma tracks_move o next m m' id i i0 :
  o !! id = Some i0 → without (f i0) id m m' → tracks o next m →
  tracks (<[id := i]> o) next (RentMachine.add_to (f i) id m').
Proof.
  intros Hi Hw [Ts Tl Tf]. pose proof (without_spec _ _ _ _ Ts Hw) as Hm.
  destruct (Tl _ id (Tf id i0 Hi)) as [Hlt Hid].
  assert (∀ k, sorted (list_at (RentMachine.add_to (f i) id m') k) ∧
    ∀ j, j ∈ list_at (RentMachine.add_to (f i) id m') k ↔ j ∈ list_at m k ∧ j ≠ id ∨ k = f i ∧ j = id) as Hadd.
  { assert (∀ k j, j ∈ list_at m k ∧ ¬ (k = f i0 ∧ j = id) ↔ j ∈ list_at m k ∧ j ≠ id) as Hne.
    { intros k j. split; [|naive_solver]. intros [Hj Hn]. split; [done|]. intros ->. apply Hn. split; [|done].
      destruct (Tl k id Hj) as [_ Hk]. by rewrite (Hk i0 Hi). }
    intros k. rewrite RentSteps.list_at_add. destruct (Hm k) as [Hs He]. case_decide as Hk; [subst k|].
    - destruct (add_item_spec _ id Hs) as [? He']. split; [done|]. intros j. rewrite He', He, Hne. naive_solver.
    - split; [done|]. intros j. rewrite He, Hne. naive_solver. }
  split.
  - intros k. apply Hadd.
  - intros k j. rewrite (proj2 (Hadd k)). intros [[Hj Hn]|[-> ->]].
    + rewrite lookup_insert_ne by done. by apply Tl.
    + split; [done|]. intros i'. rewrite lookup_insert_eq. by intros [= <-].
  - intros j i'. rewrite (proj2 (Hadd (f i'))), lookup_insert_Some. intros [[<- <-]|[Hn Hj]]; [by right|left; eauto].
Qed.
Lemma tracks_smaller o o' next m :
  (∀ id i, o' !! id = Some i → o !! id = Some i) → tracks o next m → tracks o' next m.
Proof.
  intros Ho [Ts Tl Tf]. split; [done| |eauto]. intros k j Hj. destruct (Tl k j Hj). split; eauto.
Qed.
Lemma tracks_drop o next m m' k id :
  o !! id = None → without k id m m' → tracks o next m → tracks o next m'.
Proof.
  intros Hn Hw [Ts Tl Tf]. pose proof (without_spec _ _ _ _ Ts Hw) as Hm. split.
  - intros k'. apply Hm.
  - intros k' j [Hj _]%(proj2 (Hm k')). by apply Tl.
  - intros j i Hj. apply Hm. split; [eauto|]. intros [_ ->]. congruence.
Qed.
End tracks.

Lemma without_rm_from `{Countable K} (k : K) id m : without k id m (RentMachine.rm_from k id m).
Proof. intros k'. apply RentSteps.list_at_rm. Qed.
Lemma without_rm_at k id m : without k id m (rm_at k id m).
Proof.
  intros k'. unfold rm_at, RentMachine.list_at at 1. rewrite lookup_insert.
  destruct (decide (k = k')), (decide (k' = k)); by simplify_eq.
Qed.

(** ** The invariant *)
Record order_typed (i : RentOrderDetail) : Prop := {
  ot_stake : 0 ≤ RentOrder.stake_amount i ≤ U128_MAX;
  ot_time : 0 ≤ rent_start i ≤ rent_end i ∧ rent_end i ≤ U32_MAX;
  ot_num : 0 ≤ RentOrder.gpu_num i ≤ U32_MAX;
  ot_gpus : NoDup (gpu_index i) ∧ Z.of_nat (length (gpu_index i)) ≤ RentOrder.gpu_num i;
}.
Definition exclusive (o : Orders_map) : Prop := ∀ id id' i i' x,
  o !! id = Some i → o !! id' = Some i' → RentOrder.machine_id i = RentOrder.machine_id i' →
  x ∈ gpu_index i → x ∈ gpu_index i' → id = id'.
Record Orders (r : Rents) : Prop := {
  or_next : 0 ≤ NextRentId r ≤ U64_MAX;
  or_ids id i : RentOrders r !! id = Some i → 0 ≤ id < NextRentId r;
  or_typed id i : RentOrders r !! id = Some i → order_typed i;
  or_gpus m : RentSteps.gpus_ok (RentOrders r) m (machine_rent_order r m);
  or_exclusive : exclusive (RentOrders r);
  or_ending : tracks rent_end (RentOrders r) (NextRentId r) (PendingRentEnding r);
  or_user : tracks renter (RentOrders r) (NextRentId r) (UserRented r);
  or_maximum : 0 ≤ MaximumRentalDuration r;
}.

(** What the invariant reads. *)
Definition core (r : Rents) :=
  (UserRented r, MachineRentOrder r, NextRentId r, RentOrders r, PendingRentEnding r, MaximumRentalDuration r).
Lemma Orders_frame r r' : core r' = core r → Orders r → Orders r'.
Proof.
  intros [= HU HM HN HO HE HD] [O1 O2 O3 O4 O5 O6 O7 O8]. split; rewrite ?HU, ?HN, ?HO, ?HE, ?HD; try done.
  intros m. unfold machine_rent_order. rewrite HM. apply O4.
Qed.
Lemma genesis_orders pot : Orders (rents (genesis pot)).
Proof.
  assert (∀ `{Countable K} (f : RentOrderDetail → K), tracks f ∅ 0 ∅) as Ht.
  { intros K ? ? f. split; [intros k; apply sorted_nil|by intros k id ?%not_elem_of_nil|done]. }
  split; simpl; try done.
  intros m. split; [split; apply sorted_nil|..].
  - intros id. split; [by intros ?%not_elem_of_nil|by intros (i & Hi & _)].
  - intros x. split; [by intros ?%not_elem_of_nil|by intros (id & i & Hi & _)].
Qed.

(** ** One order changes *)
Section orders.
Implicit Types (r : Rents) (id : Z) (i : RentOrderDetail).

Lemma machine_order_insert r m g m' :
  default MachineGPUOrder_default (<[m := g]> (MachineRentOrder r) !! m') =
    if decide (m' = m) then g else machine_rent_order r m'.
Proof.
  rewrite lookup_insert. unfold machine_rent_order.
  destruct (decide (m = m')), (decide (m' = m)); by simplify_eq.
Qed.

Definition new_rent r i (g : MachineGPUOrder) : Rents :=
  let id := NextRentId r in
  r <| NextRentId := id + 1 |> <| MachineRentOrder ::= <[RentOrder.machine_id i := g]> |>
    <| RentOrders ::= <[id := i]> |> <| UserRented ::= RentMachine.add_to (renter i) id |>
    <| PendingRentEnding ::= RentMachine.add_to (rent_end i) id |>.

Lemma Orders_add r i g :
  Orders r → NextRentId r < U64_MAX → order_typed i →
  (∀ x, x ∈ gpu_index i → x ∉ used_gpu (machine_rent_order r (RentOrder.machine_id i))) →
  sorted (used_gpu g) →
  rent_order g = add_item (rent_order (machine_rent_order r (RentOrder.machine_id i))) (NextRentId r) →
  (∀ x, x ∈ used_gpu g ↔ x ∈ used_gpu (machine_rent_order r (RentOrder.machine_id i)) ∨ x ∈ gpu_index i) →
  Orders (new_rent r i g).
Proof.
  intros O Hmax Hok Hfree Hsu Hro Hug. pose proof (or_next r O) as Hnext. set (id := NextRentId r) in *.
  assert (RentOrders r !! id = None) as Hn.
  { destruct (RentOrders r !! id) as [j|] eqn:Hj; [|done]. apply (or_ids r O) in Hj. unfold id in Hj. lia. }
  split; simpl; fold id.
  - lia.
  - intros id' j. rewrite lookup_insert_Some. intros [[<- <-]|[_ Hj]]; [lia|]. apply (or_ids r O) in Hj. lia.
  - intros id' j. rewrite lookup_insert_Some. intros [[<- <-]|[_ Hj]]; [done|by eapply (or_typed r O)].
  - intros m. unfold machine_rent_order at 1. simpl. rewrite machine_order_insert. case_decide as Hm; [subst m|].
    + eapply RentSteps.gpus_add_here; [done|apply (or_gpus r O)|done..].
    + by apply RentSteps.gpus_add_other; [..|apply (or_gpus r O)].
  - intros id1 id2 j1 j2 x. rewrite !lookup_insert_Some.
    intros [[<- <-]|[Hn1 Hj1]] [[<- <-]|[Hn2 Hj2]] Hm Hx1 Hx2; [done|..|by eapply (or_exclusive r O)].
    + exfalso. apply (Hfree x Hx1). apply (or_gpus r O). eauto.
    + exfalso. apply (Hfree x Hx2). apply (or_gpus r O). eauto.
  - apply tracks_add, (or_ending r O).
  - apply tracks_add, (or_user r O).
  - apply (or_maximum r O).
Qed.

(** An order that keeps its machine, renter and GPUs. *)
Lemma Orders_update r id i i0 e :
  Orders r → RentOrders r !! id = Some i0 → order_typed i →
  RentOrder.machine_id i = RentOrder.machine_id i0 → gpu_index i = gpu_index i0 → renter i = renter i0 →
  tracks rent_end (<[id := i]> (RentOrders r)) (NextRentId r) e →
  Orders (r <| RentOrders ::= <[id := i]> |> <| PendingRentEnding := e |>).
Proof.
  intros O Hi Hok Hm Hg Hr He. split; simpl; [apply (or_next r O)| | | | |done| |apply (or_maximum r O)].
  - intros id' j. rewrite lookup_insert_Some. intros [[<- <-]|[_ Hj]]; by eapply (or_ids r O).
  - intros id' j. rewrite lookup_insert_Some. intros [[<- <-]|[_ Hj]]; [done|by eapply (or_typed r O)].
  - intros m. by apply (RentSteps.gpus_update (RentOrders r) m _ id i i0); [..|apply (or_gpus r O)].
  - intros id1 id2 j1 j2 x. rewrite !lookup_insert_Some.
    intros [[<- <-]|[Hn1 Hj1]] [[<- <-]|[Hn2 Hj2]]; [done|..|by eapply (or_exclusive r O)]; rewrite ?Hm, ?Hg;
      by eapply (or_exclusive r O).
  - by eapply tracks_same; [..|apply (or_user r O)].
Qed.

(** An order is over; its id may stay in the lists. *)
Lemma Orders_drop r id i u e :
  Orders r → RentOrders r !! id = Some i →
  (u = UserRented r ∨ ∃ a, u = RentMachine.rm_from a id (UserRented r)) →
  (e = PendingRentEnding r ∨ e = RentMachine.rm_from (rent_end i) id (PendingRentEnding r)) →
  Orders (r <| UserRented := u |> <| PendingRentEnding := e |>
    <| MachineRentOrder ::= <[RentOrder.machine_id i :=
         clean_expired_order id (gpu_index i) (machine_rent_order r (RentOrder.machine_id i))]> |>
    <| RentOrders ::= delete id |>).
Proof.
  intros O Hi Hu He.
  assert (∀ id' j, delete id (RentOrders r) !! id' = Some j → RentOrders r !! id' = Some j) as Hd
    by (by intros id' j [_ ?]%lookup_delete_Some).
  split; simpl; [apply (or_next r O)| | | | | | |apply (or_maximum r O)].
  - intros id' j Hj%Hd. by eapply (or_ids r O).
  - intros id' j Hj%Hd. by eapply (or_typed r O).
  - intros m. unfold machine_rent_order at 1. simpl. rewrite machine_order_insert. case_decide as Hm; [subst m|].
    + apply RentSteps.gpus_delete_here; [done| |apply (or_gpus r O)].
      intros id' j x Hj Hm Hx Hx'. by eapply (or_exclusive r O).
    + by eapply RentSteps.gpus_delete_other; [..|apply (or_gpus r O)].
  - intros id1 id2 j1 j2 x Hj1%Hd Hj2%Hd. by eapply (or_exclusive r O).
  - assert (tracks rent_end (delete id (RentOrders r)) (NextRentId r) (PendingRentEnding r))
      by (by eapply tracks_smaller, (or_ending r O)).
    destruct He as [-> | ->]; [done|]. eapply tracks_drop; [apply lookup_delete_eq|apply without_rm_from|done].
  - assert (tracks renter (delete id (RentOrders r)) (NextRentId r) (UserRented r))
      by (by eapply tracks_smaller, (or_user r O)).
    destruct Hu as [-> |[a ->]]; [done|]. eapply tracks_drop; [apply lookup_delete_eq|apply without_rm_from|done].
Qed.

(** All orders of a machine end. *)
Definition end_all r (m : MachineId) (o : Orders_map) : Rents :=
  r <| RentOrders := o |> <| MachineRentOrder ::= delete m |>.
Lemma Orders_end_all r m o :
  Orders r →
  (∀ id, o !! id = if decide (id ∈ rent_order (machine_rent_order r m)) then None else RentOrders r !! id) →
  Orders (end_all r m o).
Proof.
  intros O Ho.
  assert (∀ id i, o !! id = Some i ↔ RentOrders r !! id = Some i ∧ RentOrder.machine_id i ≠ m) as Hd.
  { intros id i. rewrite Ho. pose proof (RentSteps.go_orders _ _ _ (or_gpus r O m) id) as Hm. unfold RentSteps.by_key in Hm.
    case_decide as Hin; split; try done.
    - intros [Hi Hne]. apply Hm in Hin as (j & Hj & ?). congruence.
    - intros Hi. split; [done|]. intros Hmi. apply Hin, Hm. eauto.
    - by intros [? _]. }
  split; simpl; [apply (or_next r O)| | | | | | |apply (or_maximum r O)].
  - intros id i [Hi _]%Hd. by eapply (or_ids r O).
  - intros id i [Hi _]%Hd. by eapply (or_typed r O).
  - intros m'. unfold machine_rent_order. simpl. rewrite lookup_delete. case_decide as Hm; simpl.
    + subst m'. split; [split; apply sorted_nil|..].
      * intros id. split; [by intros ?%not_elem_of_nil|]. intros (i & [_ Hi]%Hd & ?). done.
      * intros x. split; [by intros ?%not_elem_of_nil|]. intros (id & i & [_ Hi]%Hd & ? & _). done.
    + eapply RentSteps.gpus_other; [..|apply (or_gpus r O)].
      * intros id. unfold RentSteps.by_key. setoid_rewrite Hd. naive_solver.
      * intros id i Hmi [Hi _]%Hd. eauto.
      * intros id i Hmi Hi. exists i. rewrite Hd. naive_solver.
  - intros id1 id2 j1 j2 x [Hj1 _]%Hd [Hj2 _]%Hd. by eapply (or_exclusive r O).
  - eapply tracks_smaller; [|apply (or_ending r O)]. by intros id i [? _]%Hd.
  - eapply tracks_smaller; [|apply (or_user r O)]. by intros id i [? _]%Hd.
Qed.

(** The GPUs of a new order: the first free ones, at most as many as wanted. *)
Lemma rentable_new r m n total :
  Orders r → 0 ≤ n →
  let g := machine_rent_order r m in
  let x := gen_rentable_gpu n total g in
  (NoDup x.1 ∧ Z.of_nat (length x.1) ≤ n) ∧ (∀ y, y ∈ x.1 → 0 ≤ y < total ∧ y ∉ used_gpu g) ∧
  rent_order x.2 = rent_order g ∧ sorted (used_gpu x.2) ∧ ∀ y, y ∈ used_gpu x.2 ↔ y ∈ used_gpu g ∨ y ∈ x.1.
Proof.
  intros O Hn. cbv zeta. destruct (RentSteps.go_sorted _ _ _ (or_gpus _ O m)) as [_ Hsu].
  destruct (gen_rentable_spec n total (machine_rent_order r m) Hsu Hn) as (Hg1 & Hg2 & Hg3 & Hg4).
  split_and!; try done; rewrite Hg1.
  - eapply sublist_NoDup; [|apply sublist_take]. apply NoDup_filter, NoDup_seqZ.
  - rewrite length_take. lia.
  - intros y Hin. eapply elem_of_sublist in Hin; [|apply sublist_take].
    apply list_elem_of_filter in Hin as [? Hin%elem_of_seqZ]. split; [lia|done].
Qed.
End orders.

(** ** The calls *)
Section calls.
Context {L RT : Type} `{!ReservableCurrency L}.
Context `{!ManageCommittee L RT, !GNOps L RT, !TxFee L RT, !RentPrice RT, !ServerRooms RT, !RandomDraw RT} {P : PerThing}.
Context (T : Config).
Abbreviation World := ((State * RT) * L)%type.
Implicit Types (w : World) (id : Z) (i : RentOrderDetail).

(** Opens a call, and says of its steps beside the orders that they leave them. *)
Definition core_of (s : State) := core (rents s).
Lemma renames_Ok {S E E' A} (f : E → E') (m : M S E A) (s : S) a s' :
  rename_error f m s = (Ok a, s') → m s = (Ok a, s').
Proof. unfold rename_error. destruct (m s) as [[] ?]; intros; by simplify_eq. Qed.
Ltac open_call := repeat (unfold fails, the_machine, the_order, reg_gets, rent_gets, reg_modify, rent_modify, rt_gets in *;
  repeat match goal with H : rename_error _ _ _ = (Ok _, _) |- _ => apply renames_Ok in H end; run_inv).
Ltac leaves_orders H := apply (part_known core_of) in H; [|intros ?; frame_steps].

Lemma new_id_Ok w id w' :
  get_new_rent_id w = (Ok id, w') → NextRentId (rents w.1.1) < U64_MAX →
  id = NextRentId (rents w.1.1) ∧
  w' = ((w.1.1 <| rents ::= λ r, r <| NextRentId := NextRentId r + 1 |> |>, w.1.2), w.2).
Proof.
  unfold get_new_rent_id. intros Hrun Hmax.
  rewrite (proj2 (Z.eqb_neq (NextRentId (rents w.1.1)) U64_MAX)) in Hrun by lia. case_decide; [done|]. by simplify_eq.
Qed.

Lemma rent_orders `{!RentPriceLaws RT} now o m n d w w' :
  0 ≤ now → 0 ≤ n ≤ U32_MAX → 0 ≤ d → Orders (rents w.1.1) → NextRentId (rents w.1.1) < U64_MAX →
  rent_machine now o m n d w = (Ok tt, w') → Orders (rents w'.1.1).
Proof.
  intros Hnow Hn Hd O Hmax Hrun. unfold rent_machine in Hrun. open_call. case_match; open_call; [done|].
  match goal with H : pay_tx_fee _ w = (Ok _, ?w1), H' : change_renter_total_stake _ _ _ ?w1 = (Ok _, ?w2) |- _ =>
    leaves_orders H; leaves_orders H'; rewrite H in H'; pose proof (Orders_frame _ _ H' O) as O1;
    assert (NextRentId (rents w2.1.1) < U64_MAX) as Hmax1 by (by injection H' as _ _ -> _ _ _) end.
  match goal with H : get_new_rent_id ?w2 = _ |- _ => apply new_id_Ok in H as [-> ->]; [|done]; set (r := rents w2.1.1) in * end.
  match type of Hrun with context [gen_rentable_gpu n ?total _] =>
    destruct (rentable_new r m n total O1) as (Hnd & Hfree & Hro & Hs & Hx); [lia|];
    simpl in Hrun; change (machine_rent_order _ m) with (machine_rent_order r m) in Hrun;
    destruct (gen_rentable_gpu n total _) as [gi g] end.
  open_call.
  match goal with H : change_machine_status_on_rent_start _ _ _ = _ |- _ => leaves_orders H; rename H into Hend end.
  match type of Hend with context [new_order m ?a now ?e ?v n gi] => set (i := new_order m a now e v n gi) in * end.
  apply (Orders_frame (new_rent r i (g <| rent_order ::= λ l, add_item l (NextRentId r) |>))).
  { injection Hend as HU HM HN HO HE HD. unfold core. simpl. by rewrite HU, HM, HN, HO, HE, HD. }
  pose proof (or_maximum _ O) as Hmx. apply Orders_add; try done; [|by intros y [_ ?]%Hfree|simpl; by rewrite Hro].
  match goal with H : dbc_amount_by_value _ _ = Some _ |- _ => apply dbc_amount_typed in H end.
  split; simpl; [done| |done|done]. unfold saturating_mul, U32_MAX, VerifyOnline.ONE_DAY, VerifyOnline.ONE_HOUR,
    VerifyOnline.ONE_MINUTE in *. lia.
Qed.

Lemma confirm_orders now o id w w' :
  Orders (rents w.1.1) → confirm_rent now o id w = (Ok tt, w') → Orders (rents w'.1.1).
Proof.
  intros O Hrun. unfold confirm_rent in Hrun. open_call.
  match goal with H : change_machine_status_on_confirmed _ _ _ = (Ok _, ?w1) |- _ => leaves_orders H; rename H into Hk end.
  match goal with H : RentOrders _ !! id = Some ?i |- _ =>
    apply (Orders_frame ((rents w.1.1) <| RentOrders ::= <[id := confirm_order now i]> |>
      <| PendingRentEnding := PendingRentEnding (rents w.1.1) |>)); [injection Hk as HU HM HN HO HE HD;
      unfold core; simpl; by rewrite HU, HM, HN, HO, HE, HD|];
    destruct (or_typed _ O id i H); eapply Orders_update; try done; by eapply tracks_same, or_ending end.
Qed.
Lemma relet_orders `{!RentPriceLaws RT} now o id d w w' :
  Orders (rents w.1.1) → relet_machine now o id d w = (Ok tt, w') → Orders (rents w'.1.1).
Proof.
  intros O Hrun. unfold relet_machine in Hrun. open_call.
  match type of Hrun with context [if ?b =? 0 then _ else _] => set (add := b) in * end.
  case_match; open_call; [done|].
  match goal with H : change_renter_total_stake _ _ _ _ = (Ok _, ?w1) |- _ => leaves_orders H; rename H into Hk end.
  match goal with Hi : RentOrders _ !! id = Some ?i, Hd : dbc_amount_by_value _ _ = Some ?v |- _ =>
    apply dbc_amount_typed in Hd; destruct (or_typed _ O id i Hi);
    set (j := i <| rent_end := rent_end i + add |> <| RentOrder.stake_amount := RentOrder.stake_amount i + v |>);
    apply (Orders_frame ((rents w.1.1) <| RentOrders ::= <[id := j]> |>
      <| PendingRentEnding := RentMachine.add_to (rent_end j) id (rm_at (rent_end i) id (PendingRentEnding (rents w.1.1))) |>));
    [injection Hk as HU HM HN HO HE HD; unfold core; simpl; by rewrite HU, HM, HN, HO, HE, HD|];
    eapply Orders_update; try done; [|by eapply tracks_move; [..|apply or_ending]; [|apply without_rm_at|]] end.
  split; simpl; [lia| |done..].
  assert (0 ≤ add); [|lia]. subst add. case_match; unfold VerifyOnline.ONE_DAY, VerifyOnline.ONE_HOUR, VerifyOnline.ONE_MINUTE in *; lia.
Qed.

Lemma terminate_orders now o id w w' :
  Orders (rents w.1.1) → terminate_rent now o id w = (Ok tt, w') → Orders (rents w'.1.1).
Proof.
  intros O Hrun. unfold terminate_rent in Hrun. open_call.
  match goal with H : leave_machine _ _ _ = _, H' : pay_rent_fee _ _ _ _ = _ |- _ =>
    apply (part_known core_of) in H; [|intros y; by apply leave_part]; leaves_orders H'; simpl in H' end.
  match goal with Hi : RentOrders _ !! id = Some ?i |- _ =>
    pose proof (Orders_drop _ id i _ _ O Hi (or_introl eq_refl) (or_introl eq_refl)) as O' end.
  revert O'. apply Orders_frame.
  repeat match goal with H : core_of _ = core_of _ |- _ => injection H as ? ? ? ? ? ? end.
  unfold core. simpl in *. congruence.
Qed.

(** The owner ends orders. *)
Lemma settle_core now m id w w' :
  settle_order now m id w = (Ok tt, w') →
  core (rents w'.1.1) = core ((rents w.1.1) <| RentOrders ::= delete id |>).
Proof.
  intros Hrun. unfold settle_order in Hrun. open_call.
  match goal with H : pay_rent_fee _ _ _ _ = _ |- _ => leaves_orders H; injection H as ? ? ? ? ? ? end.
  unfold core. simpl. congruence.
Qed.
Lemma settle_all now m ids w w' :
  for_each ids (settle_order now m) w = (Ok tt, w') →
  ∃ o, core (rents w'.1.1) = core ((rents w.1.1) <| RentOrders := o |>) ∧
    ∀ id, o !! id = if decide (id ∈ ids) then None else RentOrders (rents w.1.1) !! id.
Proof.
  revert w. induction ids as [|id ids IH]; intros w Hrun; cbn [for_each] in Hrun; run_inv.
  { exists (RentOrders (rents w.1.1)). split; [done|]. by intros j. }
  match goal with H : settle_order _ _ _ _ = _ |- _ => apply settle_core in H as Hs end.
  destruct (IH _ Hrun) as (o & Ho & Hl). exists o. injection Hs as ? ? ? HO ? ?. split.
  - rewrite Ho. unfold core. simpl. congruence.
  - intros j. rewrite Hl, HO. simpl. rewrite lookup_delete.
    destruct (decide (j ∈ ids)) as [Hj|Hj].
    + by rewrite decide_True by (by right).
    + destruct (decide (id = j)) as [->|Hne]; [by rewrite decide_True by (by left)|].
      rewrite decide_False; [done|]. intros [?|?]%elem_of_cons; congruence.
Qed.
Lemma offline_orders now o m w w' :
  Orders (rents w.1.1) → machine_offline now o m w = (Ok tt, w') → Orders (rents w'.1.1).
Proof.
  intros O Hrun. unfold machine_offline in Hrun. open_call.
  match goal with H : ensure_controller _ _ _ = _ |- _ => leaves_orders H; pose proof (Orders_frame _ _ H O) as O1 end.
  match goal with H : for_each _ _ _ = _ |- _ => apply settle_all in H as (all & Hc & Hl) end.
  pose proof (Orders_end_all _ m all O1 Hl) as O'. revert O'. apply Orders_frame.
  injection Hc as HU HM HN HO HE HD. unfold core. simpl in *. by rewrite HU, HM, HN, HO, HE, HD.
Qed.
Lemma exit_orders now o m w w' :
  Orders (rents w.1.1) → machine_exit now o m w = (Ok tt, w') → Orders (rents w'.1.1).
Proof.
  intros O Hrun. unfold machine_exit in Hrun. open_call.
  match goal with H : ensure_controller _ _ _ = _ |- _ => leaves_orders H; pose proof (Orders_frame _ _ H O) as O1 end.
  match goal with H : for_each _ _ _ = _ |- _ => apply settle_all in H as (all & Hc & Hl) end.
  pose proof (Orders_end_all _ m all O1 Hl) as O'. revert O'. apply Orders_frame.
  injection Hc as HU HM HN HO HE HD. unfold core. simpl in *. by rewrite HU, HM, HN, HO, HE, HD, ?delete_delete_eq.
Qed.

Lemma dispatch_orders `{!RentPriceLaws RT} now o c w :
  0 ≤ now → call_typed c → NextRentId (rents w.1.1) < U64_MAX → Orders (rents w.1.1) →
  Orders (rents (dispatch T now o c w).2.1.1).
Proof.
  intros Hnow Ht Hmax O. unfold dispatch. destruct (renting c) eqn:Hc.
  - apply (transactional_preserves (λ w, Orders (rents w.1.1))); [done|]. intros [] w' Hrun.
    destruct c; try done; simpl in Ht, Hrun.
    + destruct Ht as [Hn [Hd _]]. exact (rent_orders _ _ _ _ _ _ _ Hnow Hn Hd O Hmax Hrun).
    + exact (confirm_orders _ _ _ _ _ O Hrun).
    + exact (relet_orders _ _ _ _ _ _ O Hrun).
    + exact (terminate_orders _ _ _ _ _ O Hrun).
    + exact (offline_orders _ _ _ _ _ O Hrun).
    + exact (exit_orders _ _ _ _ _ O Hrun).
  - by rewrite (kept_transactional _ _ (call_rents T now o c (rents w.1.1) Hc) w eq_refl).
Qed.

(** ** The hooks *)
Lemma last_rent_known r m : Orders r → is_Some (is_last_rent r m).
Proof.
  intros O. unfold is_last_rent.
  assert (Forall (λ id, is_Some (RentOrders r !! id)) (rent_order (machine_rent_order r m))) as Hall.
  { apply list.Forall_forall. intros id Hid. apply (RentSteps.go_orders _ _ _ (or_gpus r O m)) in Hid as (i & Hi & _).
    eauto. }
  apply mapM_is_Some_2 in Hall as [l Hl]. rewrite Hl. eauto.
Qed.

(** The records of an order that ended. *)
Definition ended r id i : Rents :=
  r <| UserRented := RentMachine.rm_from (renter i) id (UserRented r) |>
    <| PendingRentEnding := RentMachine.rm_from (rent_end i) id (PendingRentEnding r) |>
    <| MachineRentOrder ::= <[RentOrder.machine_id i :=
         clean_expired_order id (gpu_index i) (machine_rent_order r (RentOrder.machine_id i))]> |>
    <| RentOrders ::= delete id |>.
Lemma ended_core r r' id i : core r' = core r → core (ended r' id i) = core (ended r id i).
Proof. intros [= ? ? ? ? ? ?]. unfold core, ended, machine_rent_order. simpl. congruence. Qed.

(** An order that is found ends, whatever becomes of its payment. *)
Lemma finish_run id i w :
  Orders (rents w.1.1) → RentOrders (rents w.1.1) !! id = Some i →
  ∃ w', finish_rent id w = (Ok tt, w') ∧ core (rents w'.1.1) = core (ended (rents w.1.1) id i).
Proof.
  intros O Hi. unfold finish_rent, rent_gets, own_gets. rewrite bind_gets, Hi, bind_ok_or. cbv zeta.
  set (w1 := (pay_rent_fee i (RentOrder.stake_amount i) (RentOrder.machine_id i) w).2).
  assert (core_of w1.1.1 = core_of w.1.1) as H1.
  { apply (part_known core_of (ignore (E:=unit) (pay_rent_fee i (RentOrder.stake_amount i) (RentOrder.machine_id i))) w (Ok tt));
      [intros x; frame_steps|done]. }
  rewrite (bind_run _ _ w tt w1) by done. rewrite bind_gets.
  destruct (last_rent_known (rents w1.1.1) (RentOrder.machine_id i)) as [b Hb]; [by apply (Orders_frame _ _ H1)|].
  rewrite Hb, bind_ok_or. set (m := change_machine_status_on_rent_end _ _ _ _ _ : M World unit unit).
  set (w2 := (m w1).2). assert (core_of w2.1.1 = core_of w1.1.1) as H2.
  { apply (part_known core_of (ignore (E:=unit) m) w1 (Ok tt)); [intros x; subst m; frame_steps|done]. }
  rewrite (bind_run _ _ w1 tt w2) by done. eexists. split; [done|].
  rewrite H1 in H2. rewrite <-(ended_core _ _ id i H2).
  unfold clean_order, rent_gets, own_gets. rewrite bind_gets.
  assert (RentOrders (rents w2.1.1) !! id = Some i) as -> by (by injection H2 as _ _ _ -> _ _).
  by rewrite bind_ok_or.
Qed.
Lemma finish_orders id w : Orders (rents w.1.1) → Orders (rents (finish_rent id w).2.1.1).
Proof.
  intros O. destruct (RentOrders (rents w.1.1) !! id) as [i|] eqn:Hi.
  - destruct (finish_run id i w O Hi) as (w' & -> & Hc). apply (Orders_frame _ _ Hc). by apply Orders_drop; eauto.
  - unfold finish_rent, rent_gets, own_gets. by rewrite bind_gets, Hi.
Qed.

(** If every order listed for the block is found, exactly those end. *)
Lemma finish_all ids w :
  Orders (rents w.1.1) → NoDup ids → (∀ id, id ∈ ids → is_Some (RentOrders (rents w.1.1) !! id)) →
  ∃ w', for_each ids finish_rent w = (Ok tt, w') ∧
    ∀ id, RentOrders (rents w'.1.1) !! id = if decide (id ∈ ids) then None else RentOrders (rents w.1.1) !! id.
Proof.
  revert w. induction ids as [|id ids IH]; intros w O Hnd Hin.
  { exists w. split; [done|]. by intros id. }
  apply list.NoDup_cons in Hnd as [Hni Hnd]. destruct (Hin id) as [i Hi]; [by left|].
  destruct (finish_run id i w O Hi) as (w1 & Hr & Hc).
  assert (RentOrders (rents w1.1.1) = delete id (RentOrders (rents w.1.1))) as Ho by (by injection Hc as _ _ _ -> _ _).
  destruct (IH w1) as (w' & Hr' & Hl).
  { apply (Orders_frame _ _ Hc). by apply Orders_drop; eauto. }
  { done. }
  { intros j Hj. rewrite Ho, lookup_delete_ne by congruence. apply Hin. by right. }
  exists w'. cbn [for_each]. rewrite (bind_run _ _ _ _ _ Hr). split; [done|].
  intros j. rewrite Hl, Ho, lookup_delete. destruct (decide (j ∈ ids)) as [Hj|Hj].
  - by rewrite decide_True by (by right).
  - destruct (decide (id = j)) as [->|Hne]; [by rewrite decide_True by (by left)|].
    rewrite decide_False; [done|]. intros [?|?]%elem_of_cons; congruence.
Qed.
Lemma finished_orders now : kept (λ w : World, Orders (rents w.1.1)) (check_if_rent_finished now).
Proof.
  unfold check_if_rent_finished. apply kept_gets. intros w _. case_match; [|apply kept_mret].
  apply kept_for_each. intros id _ w'. apply finish_orders.
Qed.

Lemma beside_orders {E A} (m : M World E A) :
  (∀ x, kept (part core_of x) m) → kept (λ w, Orders (rents w.1.1)) m.
Proof. intros Hm w O. apply (Orders_frame _ _ (Hm _ w eq_refl) O). Qed.
Lemma finalize_orders now : kept (λ w : World, Orders (rents w.1.1)) (on_finalize now).
Proof.
  unfold on_finalize. do 2 (apply kept_bind; [apply beside_orders; intros x; frame_steps|intros _]).
  apply kept_bind; [apply kept_ignore, finished_orders|intros _].
  apply kept_bind; [|intros _]; apply kept_ignore, beside_orders; intros x; frame_steps.
Qed.
Lemma initialize_orders now : kept (λ w : World, Orders (rents w.1.1)) (on_initialize now).
Proof.
  unfold on_initialize. apply kept_bind; [|intros _; apply kept_ignore]; apply beside_orders; intros x;
    [by apply pending_slash_part|by apply summary_part].
Qed.

(** ** Reachable states *)
Lemma reachable_orders `{!RentPriceLaws RT} c : reachable T c → 0 ≤ c.1 ∧ Orders (rents c.2.1.1).
Proof.
  intros (now & pot & h & l & Hnow & Hr).
  apply (rtc_invariant (step T) (λ c, 0 ≤ c.1 ∧ Orders (rents c.2.1.1)) (now, ((genesis pot, h), l))); [| |done].
  - intros a b [t o cl w Ht Hl|t w _ _|t s h1 h2 l1 l2] [Hb O]; simpl in *.
    + split; [done|]. apply dispatch_orders; try done. apply Hl.
    + split; [lia|]. by apply initialize_orders, finalize_orders.
    + done.
  - split; [done|apply genesis_orders].
Qed.
End calls.
End TerminatingOrders.
