(* ===== verification/TerminatingTyped.v ===== *)
(** * pallet-terminating-rental: the types of its numbers

    The model's integers stand for unsigned ones of the source. Every call with
    typed arguments and every hook keeps the stored amounts and counts within
    their Rust types. *)
From stdpp Require Import base gmap fin_maps list numbers relations.
From Stdlib Require Import ZArith Lia Strings.Byte.
From S2P Require Import Prelude Currency Interfaces ItemList VerifyOnline RentalTypes RentalInterfaces ReportTypes OnlineCommittee RentMachine ProfileTypes MaintainCommittee TerminatingState TerminatingRental TerminatingSteps.

Module TerminatingTyped.
Import (hints) OnlineCommittee.
Import ItemList MachineInfo ProfileTypes RentOrder TerminatingState TerminatingRental TerminatingSteps.
Abbreviation OC := OnlineCommittee.State (only parsing).

Definition u32 (v : Z) : Prop := 0 ≤ v ≤ U32_MAX.
Definition u128 (v : Z) : Prop := 0 ≤ v ≤ U128_MAX.

Record Typed (s : State) : Prop := {
  ty_deposit : u128 (OnlineDeposit (registry s));
  ty_per_gpu : u128 (StakePerGPU (registry s));
  ty_stash a : u128 (stash_stake (registry s) a);
  ty_gpus m : u32 (machine_rented_gpu (registry s) m);
  ty_machine m i : MachinesInfo (registry s) !! m = Some i → u128 (MachineInfo.stake_amount i);
  ty_renter a : u128 (renter_total_stake (rents s) a);
  ty_order id i : RentOrders (rents s) !! id = Some i → u32 (RentOrder.gpu_num i);
  ty_slash id i : OnlineCommittee.PendingSlash (verify s) !! id = Some i → u128 (VerifyOnline.stash_slash_amount i);
}.
(** What it reads. *)
Definition figures (s : State) :=
  (OnlineDeposit (registry s), StakePerGPU (registry s), StashStake (registry s), MachineRentedGPU (registry s),
   MachinesInfo (registry s), RenterTotalStake (rents s), RentOrders (rents s), OnlineCommittee.PendingSlash (verify s)).

Lemma Typed_frame s s' : figures s' = figures s → Typed s → Typed s'.
Proof.
  intros [= E1 E2 E3 E4 E5 E6 E7 E8] [T1 T2 T3 T4 T5 T6 T7 T8].
  split; unfold stash_stake, machine_rented_gpu, renter_total_stake in *;
    rewrite ?E1, ?E2, ?E3, ?E4, ?E5, ?E6, ?E7, ?E8; done.
Qed.
Lemma genesis_typed pot : Typed (genesis pot).
Proof. split; simpl; try done; unfold u128, u32, U128_MAX, U32_MAX; intros; cbn; lia. Qed.

(** ** Writes *)
Section writes.
Implicit Types (s : State).

Lemma u128_add a b : 0 ≤ a → 0 ≤ b → u128 (saturating_add U128_MAX a b).
Proof. unfold u128, saturating_add, U128_MAX. lia. Qed.
Lemma u128_0 : u128 0.
Proof. done. Qed.
Lemma typed_machine m i s : u128 (MachineInfo.stake_amount i) → Typed s → Typed (s <| registry ::= put_machine m i |>).
Proof.
  intros Hi []. split; simpl; try done. intros m' j. rewrite lookup_insert_Some. intros [[<- <-]|[_ ?]]; eauto.
Qed.
Lemma typed_remove m s : Typed s → Typed (s <| registry ::= λ r, r <| MachinesInfo ::= delete m |> |>).
Proof. intros []. split; simpl; try done. intros m' j [_ ?]%lookup_delete_Some. eauto. Qed.
Lemma typed_stash a v s : u128 v → Typed s → Typed (s <| registry ::= λ r, r <| StashStake ::= <[a := v]> |> |>).
Proof.
  intros Hv []. split; simpl; try done. intros b. unfold stash_stake. simpl. rewrite lookup_insert.
  case_decide; [done|apply ty_stash0].
Qed.
Lemma typed_gpus m f s : (∀ v, u32 v → u32 (f v)) → Typed s →
  Typed (s <| registry ::= λ r, r <| MachineRentedGPU ::= <[m := f (machine_rented_gpu r m)]> |> |>).
Proof.
  intros Hf []. split; simpl; try done. intros m'. unfold machine_rented_gpu. simpl. rewrite lookup_insert.
  case_decide; [apply Hf|]; apply ty_gpus0.
Qed.
Lemma typed_renter a v s : u128 v → Typed s → Typed (s <| rents ::= λ r, r <| RenterTotalStake ::= <[a := v]> |> |>).
Proof.
  intros Hv []. split; simpl; try done. intros b. unfold renter_total_stake. simpl. rewrite lookup_insert.
  case_decide; [done|apply ty_renter0].
Qed.
Lemma typed_order id i s : u32 (RentOrder.gpu_num i) → Typed s →
  Typed (s <| rents ::= λ r, r <| RentOrders ::= <[id := i]> |> |>).
Proof.
  intros Hi []. split; simpl; try done. intros id' j. rewrite lookup_insert_Some. intros [[<- <-]|[_ ?]]; eauto.
Qed.
Lemma typed_over id s : Typed s → Typed (s <| rents ::= λ r, r <| RentOrders ::= delete id |> |>).
Proof. intros []. split; simpl; try done. intros id' j [_ ?]%lookup_delete_Some. eauto. Qed.
Lemma typed_deposit v s : u128 v → Typed s → Typed (s <| registry ::= λ r, r <| OnlineDeposit := v |> |>).
Proof. intros Hv []. by split. Qed.
Lemma typed_per_gpu v s : u128 v → Typed s → Typed (s <| registry ::= λ r, r <| StakePerGPU := v |> |>).
Proof. intros Hv []. by split. Qed.
Lemma typed_verify f s :
  (∀ id i, OnlineCommittee.PendingSlash (f (verify s)) !! id = Some i →
     OnlineCommittee.PendingSlash (verify s) !! id = Some i ∨ u128 (VerifyOnline.stash_slash_amount i)) →
  Typed s → Typed (s <| verify ::= f |>).
Proof. intros Hf []. split; simpl; try done. intros id i [?|?]%Hf; eauto. Qed.
End writes.

(** ** The calls and hooks *)
Section typed.
Context {L RT : Type} `{!ReservableCurrency L}.
Context `{!ManageCommittee L RT, !GNOps L RT, !TxFee L RT, !RentPrice RT, !ServerRooms RT, !RandomDraw RT} {P : PerThing}.
Context `{!RentPriceLaws RT} (T : Config).
Abbreviation World := ((State * RT) * L)%type.
Definition typed (w : World) : Prop := Typed w.1.1.

Lemma typed_part {E A} (m : M World E A) : (∀ x, kept (part figures x) m) → kept typed m.
Proof. intros Hm w Hw. exact (Typed_frame _ _ (Hm _ w eq_refl) Hw). Qed.
Lemma typed_write {E} f : (∀ s, Typed s → Typed (f s)) → kept typed (own_modify (E:=E) (H:=RT) (L:=L) f).
Proof. intros Hf w Hw. by apply Hf. Qed.
Lemma typed_focus {E A} (m : M ((OC * RT) * L) E A) :
  (∀ p, kept (λ x, OnlineCommittee.PendingSlash x.1.1 = p) m) → kept typed (on_verify m).
Proof.
  intros Hm w Hw. apply Typed_frame with (2 := Hw). unfold figures. simpl.
  by rewrite (Hm _ ((verify w.1.1, w.1.2), w.2) eq_refl).
Qed.
Lemma kept_bind_post {S E A B} (Q : S → Prop) (R : A → Prop) (m : M S E A) (k : A → M S E B) :
  (∀ s, Q s → Q (m s).2 ∧ ∀ a, (m s).1 = Ok a → R a) → (∀ a, R a → kept Q (k a)) → kept Q (m ≫= k).
Proof.
  intros Hm Hk s Hs. destruct (Hm s Hs) as [Hq Ha]. unfold mbind, M_bind. destruct (m s) as [[a|e] s1]; [|done].
  by apply Hk; [apply Ha|].
Qed.
End typed.

(** Goes through a run; left are the writes of figures. *)
Ltac typed_leaf := first [apply typed_part; intros ?; solve [frame_steps] | idtac].
Ltac typed_step :=
  lazymatch goal with
  | |- kept _ ((_ ≫= _) ≫= _) => apply kept_assoc
  | |- kept _ ((if ?b then _ else _) ≫= _) => destruct b eqn:?
  | |- kept _ (match ?x with _ => _ end ≫= _) => destruct x eqn:?
  | |- kept _ (fail _ ≫= _) => by intros ?
  | |- kept _ (rt_gets _ ≫= _) => apply kept_gets; intros ? ?
  | |- kept _ (reg_gets _ ≫= _) => apply kept_gets; intros ? ?
  | |- kept _ (rent_gets _ ≫= _) => apply kept_gets; intros ? ?
  | |- kept _ (fails _) => apply kept_rename
  | |- kept _ (rename_error _ _) => apply kept_rename
  | |- kept _ (attempt _ _) => apply kept_attempt
  | |- kept _ (the_machine _ ≫= _) => unfold the_machine
  | |- kept _ (the_order _ ≫= _) => unfold the_order
  | |- _ => kept_step
  end.

Section operations.
Context {L RT : Type} `{!ReservableCurrency L}.
Context `{!ManageCommittee L RT, !GNOps L RT, !TxFee L RT, !RentPrice RT, !ServerRooms RT, !RandomDraw RT} {P : PerThing}.
Context `{!RentPriceLaws RT} (T : Config).
Abbreviation World := ((State * RT) * L)%type.

Lemma typed_stash_stake who v b : u128 v → kept (typed (L:=L) (RT:=RT)) (change_stash_total_stake who v b).
Proof.
  intros Hv. unfold change_stash_total_stake. apply kept_gets. intros s Hs.
  pose proof (ty_stash _ Hs who) as Hw. unfold u128 in *. destruct b; repeat typed_step; typed_leaf;
    apply typed_write; intros s' Hs'; apply typed_stash; try done.
  - match goal with H : checked_add _ _ _ = Some _ |- _ => apply checked_add_Some in H end. unfold u128. lia.
  - match goal with H : checked_sub _ _ = Some _ |- _ => apply checked_sub_Some in H end. unfold u128. lia.
Qed.
Lemma typed_renter_stake who v b : u128 v → kept (typed (L:=L) (RT:=RT)) (change_renter_total_stake who v b).
Proof.
  intros Hv. unfold change_renter_total_stake. apply kept_gets. intros s Hs.
  pose proof (ty_renter _ Hs who) as Hw. unfold u128 in *. destruct b; repeat typed_step; typed_leaf;
    apply typed_write; intros s' Hs'; apply typed_renter; try done.
  - match goal with H : checked_add _ _ _ = Some _ |- _ => apply checked_add_Some in H end. unfold u128. lia.
  - match goal with H : checked_sub _ _ = Some _ |- _ => apply checked_sub_Some in H end. unfold u128. lia.
Qed.
(** A machine that was read has a typed stake. *)
Lemma read_machine (w : World) m i : MachinesInfo (registry w.1.1) !! m = Some i → typed w → u128 (MachineInfo.stake_amount i).
Proof. intros Hi Hw. exact (ty_machine _ Hw m i Hi). Qed.
Lemma typed_put {E} m i : u128 (MachineInfo.stake_amount i) → kept (typed (L:=L) (RT:=RT)) (reg_modify (E:=E) (put_machine m i)).
Proof. intros Hi. apply typed_write. intros s. by apply typed_machine. Qed.
(** Writing back a machine that was read, with its stake. *)
Ltac put_read := apply typed_put; simpl; eapply read_machine; [eassumption|done].
Lemma rest_nonneg (l : list AccountId) e fee : 0 ≤ fee → 0 ≤ foldl (λ f _, saturating_sub f e) fee l.
Proof.
  revert fee. induction l as [|x l IH]; intros fee Hf; [done|]. apply IH. unfold saturating_sub. lia.
Qed.
Lemma typed_pay order fee m : kept (typed (L:=L) (RT:=RT)) (pay_rent_fee order fee m).
Proof.
  assert (∀ (w : World) i l e x y, MachinesInfo (registry w.1.1) !! m = Some i → typed w →
    u128 (saturating_add U128_MAX (MachineInfo.stake_amount i)
      (Z.min (foldl (λ f (_ : AccountId), saturating_sub f e) (saturating_sub fee x) l) (saturating_sub y (MachineInfo.stake_amount i)))))
    as Hadd.
  { intros w i l e x y Hi Hw. apply u128_add; [apply (read_machine w m i Hi Hw)|].
    apply Z.min_glb; [apply rest_nonneg|]; apply Z.le_max_l. }
  unfold pay_rent_fee. repeat typed_step; typed_leaf; apply typed_put; simpl; by eapply Hadd.
Qed.
Lemma typed_new_id : kept (typed (L:=L) (RT:=RT)) get_new_rent_id.
Proof. intros w Hw. unfold get_new_rent_id. case_decide; [done|]. by apply (Typed_frame w.1.1). Qed.
Lemma typed_rent_start m n : u32 n → kept (typed (L:=L) (RT:=RT)) (change_machine_status_on_rent_start m n).
Proof.
  intros Hn. unfold change_machine_status_on_rent_start. repeat typed_step; typed_leaf.
  - put_read.
  - apply typed_write. intros s'. apply (typed_gpus m (λ v, saturating_add U32_MAX v n)).
    unfold u32, saturating_add, U32_MAX in *. lia.
Qed.
Lemma typed_confirmed m a : kept (typed (L:=L) (RT:=RT)) (change_machine_status_on_confirmed m a).
Proof.
  unfold change_machine_status_on_confirmed. repeat typed_step; typed_leaf. put_read.
Qed.
Lemma typed_leave who ids : kept (typed (L:=L) (RT:=RT)) (leave_machine who ids).
Proof.
  induction ids as [|id ids IH]; cbn [leave_machine]; [apply kept_mret|]. repeat typed_step; [|exact IH].
  put_read.
Qed.
Lemma typed_drop_order {E} id :
  kept (typed (L:=L) (RT:=RT)) (rent_modify (E:=E) (λ r, r <| RentOrders ::= delete id |>)).
Proof. apply typed_write. intros s. apply typed_over. Qed.
Lemma typed_settle now m id : kept (typed (L:=L) (RT:=RT)) (settle_order now m id).
Proof. unfold settle_order. repeat typed_step; [apply typed_pay|apply typed_drop_order]. Qed.
Lemma typed_rent_end m n d b a : 0 ≤ n → kept (typed (L:=L) (RT:=RT)) (change_machine_status_on_rent_end m n d b a).
Proof.
  intros Hn. unfold change_machine_status_on_rent_end. repeat typed_step; typed_leaf; try put_read.
  all: apply typed_write; intros s'; apply (typed_gpus m (λ v, saturating_sub v n)); unfold u32, saturating_sub; lia.
Qed.
Lemma typed_clean a id : kept (typed (L:=L) (RT:=RT)) (clean_order a id).
Proof.
  unfold clean_order. repeat typed_step. apply typed_write. intros s' Hs.
  apply (Typed_frame (s' <| rents ::= λ r, r <| RentOrders ::= delete id |> |>)); [done|by apply typed_over].
Qed.
Lemma typed_finish id : kept (typed (L:=L) (RT:=RT)) (finish_rent id).
Proof.
  unfold finish_rent. repeat typed_step; [apply typed_pay|apply typed_rent_end|apply typed_clean].
  match goal with Hi : _ = Some ?i, Hs : typed _ |- 0 ≤ RentOrder.gpu_num ?i => exact (proj1 (ty_order _ Hs _ _ Hi)) end.
Qed.
Lemma typed_timeout m : kept (typed (L:=L) (RT:=RT)) (offline_timeout m).
Proof.
  unfold offline_timeout. repeat typed_step; typed_leaf; apply typed_put, u128_0.
Qed.
Lemma typed_confirm now l i : kept (typed (L:=L) (RT:=RT)) (confirm_machine now l i).
Proof.
  unfold confirm_machine. repeat typed_step; typed_leaf;
    [apply typed_stash_stake; eapply read_machine; [eassumption|done]|apply typed_put, u128_0].
Qed.
Lemma typed_revert m : kept (typed (L:=L) (RT:=RT)) (revert_booked_machine m).
Proof. unfold revert_booked_machine. repeat typed_step; typed_leaf. put_read. Qed.
Lemma typed_book m : kept (typed (L:=L) (RT:=RT)) (book_machine m).
Proof. unfold book_machine. repeat typed_step; typed_leaf. put_read. Qed.

(** *** The verification *)
Lemma typed_same_slashes f : (∀ v, OnlineCommittee.PendingSlash (f v) = OnlineCommittee.PendingSlash v) →
  kept (typed (L:=L) (RT:=RT)) (verify_modify f).
Proof. intros Hf. apply typed_write. intros s. apply typed_verify. intros id i. rewrite Hf. auto. Qed.
Lemma revert_slashes m v : OnlineCommittee.PendingSlash (OnlineCommittee.revert_book m v) = OnlineCommittee.PendingSlash v.
Proof.
  unfold OnlineCommittee.revert_book. simpl. generalize (VerifyOnline.booked_committee (OnlineCommittee.machine_committee v m)).
  intros l. revert v. induction l as [|a l IH]; intros v; simpl; [done|]. by rewrite IH.
Qed.
Lemma clean_up_slashes m l v : OnlineCommittee.PendingSlash (OnlineCommittee.clean_up m l v) = OnlineCommittee.PendingSlash v.
Proof.
  unfold OnlineCommittee.clean_up. revert v. induction l as [|a l IH]; intros v; simpl; [done|]. by rewrite IH.
Qed.
Lemma typed_used_stake a v b : kept (typed (L:=L) (RT:=RT)) (change_used_stake a v b).
Proof. apply typed_part. intros x. frame_steps. Qed.

(** The stake of a refused machine becomes the amount of a slash. *)
Lemma typed_refuse m (w : World) : typed w →
  typed (refuse_machine m w).2 ∧
  ∀ x, (refuse_machine m w).1 = Ok x → match x with Some (_, v) => u128 v | None => True end.
Proof.
  intros Hw. unfold refuse_machine, reg_gets, own_gets. rewrite bind_gets.
  destruct (MachinesInfo (registry w.1.1) !! m) as [i|] eqn:Hi; [|split; [done|by intros x [= <-]]]. split.
  - apply (Typed_frame (w.1.1 <| registry ::= λ r, r <| MachinesInfo ::= delete m |> |>)); [done|by apply typed_remove].
  - intros x [= <-]. exact (ty_machine _ Hw m i Hi).
Qed.
Lemma typed_summary m now v : kept (typed (L:=L) (RT:=RT)) (summary_raw m now v).
Proof.
  unfold summary_raw. apply kept_gets. intros w Hw. case_match; [by apply typed_same_slashes|].
  case_match; [apply kept_mret|]. apply kept_gets. intros w1 Hw1. apply kept_ok_or. intros sm _.
  apply (kept_bind_post _ (λ x, match x with Some (_, v) => u128 v | None => True end)).
  { intros w2 Hw2. destruct (VerifyOnline.verify_result sm); [|by apply typed_refuse|]; (split; [done|by intros x [= <-]]). }
  intros slash Hslash. apply kept_bind; [|intros _; apply kept_bind; [|intros _; apply kept_bind; [|intros _]]].
  - destruct (VerifyOnline.verify_result sm); [|apply kept_mret|].
    + apply kept_ok_or. intros i _. apply kept_bind; [apply kept_ignore, typed_confirm|intros _].
      apply kept_for_each. intros a _. by apply typed_same_slashes.
    + apply kept_bind; [apply typed_same_slashes, revert_slashes|intros _].
      apply kept_bind; [apply typed_revert|intros _]. apply kept_for_each. intros a _. apply kept_attempt, typed_used_stake.
  - destruct (bool_decide (is_Some slash) || _); [|apply kept_for_each; intros a _; apply kept_attempt, typed_used_stake].
    assert (∀ stash amount, u128 amount →
      kept (typed (L:=L) (RT:=RT)) (verify_modify (OnlineCommittee.add_summary_slash m stash amount sm v now))) as Hadd.
    { intros stash amount Ha. apply typed_write. intros s. apply typed_verify. intros id i. simpl.
      rewrite lookup_insert_Some. intros [[_ <-]|[_ ?]]; [by right|by left]. }
    destruct slash as [[a x]|]; apply Hadd; [done|apply u128_0].
  - by apply typed_same_slashes.
  - apply typed_same_slashes. apply clean_up_slashes.
Qed.
(** The code shared with online-committee leaves the slashes alone. *)
Abbreviation slashes_are p := (λ x : (OC * RT) * L, OnlineCommittee.PendingSlash x.1.1 = p).
Lemma slashes_callee {E A} p (m : M (RT * L) E A) : kept (slashes_are p) (with_callee m).
Proof. by intros x. Qed.
Lemma slashes_draw p n i c : kept (slashes_are p) (OnlineCommittee.draw_members n i c).
Proof.
  revert i c. induction n as [|n IH]; intros i c; cbn [OnlineCommittee.draw_members]; repeat first [kept_step | apply IH].
  intros x Hx. unfold OnlineCommittee.draw. by destruct (rnd_u32 _ _) as [[] ?].
Qed.
Lemma slashes_work_index p : kept (slashes_are p) OnlineCommittee.get_work_index.
Proof.
  unfold OnlineCommittee.get_work_index. apply kept_gets. intros x _. repeat first [kept_step | apply slashes_draw].
Qed.
Lemma slashes_book_one p m cs now sq : kept (slashes_are p) (OnlineCommittee.book_one m cs now sq).
Proof.
  unfold OnlineCommittee.book_one. apply kept_gets. intros x _.
  unfold OnlineCommittee.change_committee_used_stake, OnlineCommittee.call.
  repeat first [kept_step | apply slashes_callee]. by intros y.
Qed.
Lemma slashes_stake p l v b : kept (slashes_are p) (OnlineCommittee.change_committee_stake l v b).
Proof.
  unfold OnlineCommittee.change_committee_stake, OnlineCommittee.change_committee_total_stake,
    OnlineCommittee.change_committee_used_stake, OnlineCommittee.call.
  repeat first [kept_step | apply slashes_callee].
Qed.
Lemma typed_distribute cs now m : kept (typed (L:=L) (RT:=RT)) (distribute_machine cs now m).
Proof.
  unfold distribute_machine. apply kept_bind; [by apply typed_same_slashes|intros _].
  apply kept_bind; [apply (same_kept _ _ _ same_work_index), typed_focus, slashes_work_index|intros [seqs|]; [|apply kept_mret]].
  apply kept_bind; [|intros _; apply kept_attempt, typed_book].
  apply kept_for_each. intros sq _. apply kept_attempt, (same_kept _ _ _ (same_book_one _ _ _ _)), typed_focus. intros p. apply slashes_book_one.
Qed.
Lemma typed_a_slash now id pending : kept (typed (L:=L) (RT:=RT)) (do_a_slash now id pending).
Proof.
  unfold do_a_slash. apply kept_gets. intros w Hw. apply kept_ok_or. intros i Hi. pose proof (ty_slash _ Hw id i Hi) as Hv.
  case_match; [apply kept_mret|].
  assert (∀ l v r, kept (typed (L:=L) (RT:=RT)) (lift_unit (slash_and_reward l v r))) as Hsr
    by (intros; apply typed_part; intros x; frame_steps).
  apply kept_bind; [|intros _].
  { case_match; [|apply kept_mret]. case_match; [|apply kept_mret]. apply kept_bind; [|intros _; apply Hsr].
    apply kept_map_err. unfold exec_slash. apply kept_gets. intros w1 Hw1. apply kept_ok_or. intros x Hx.
    apply typed_write. intros s. apply typed_stash. apply checked_sub_Some in Hx as [-> ?].
    pose proof (ty_stash _ Hw1) as Hst. unfold u128 in *. specialize (Hst n). lia. }
  do 2 (apply kept_bind; [apply (same_kept _ _ _ (same_stake _ _ _)), typed_focus; intros p; apply slashes_stake|intros _]).
  apply kept_bind; [apply Hsr|intros _]. apply kept_bind; [|intros _; apply kept_mret].
  apply typed_write. intros s. apply typed_verify. intros id' j. simpl. rewrite lookup_insert_Some.
  intros [[_ <-]|[_ ?]]; [by right|by left].
Qed.

(** *** The hooks *)
Lemma typed_finalize now : kept (typed (L:=L) (RT:=RT)) (on_finalize now).
Proof.
  unfold on_finalize. apply kept_bind; [|intros _].
  { unfold statistic_online_verify. do 2 (apply kept_gets; intros ? _).
    apply kept_for_each. intros m _. apply kept_attempt, typed_summary. }
  apply kept_bind; [|intros _].
  { unfold distribute_machines. apply kept_gets. intros w _. apply kept_for_each. intros m _. apply typed_distribute. }
  apply kept_bind; [|intros _].
  { apply kept_ignore. unfold check_if_rent_finished. apply kept_gets. intros w _. case_match; [|apply kept_mret].
    apply kept_for_each. intros id _. apply typed_finish. }
  apply kept_bind; [|intros _].
  { apply kept_ignore. unfold check_if_offline_timeout. apply kept_gets. intros w _. case_match; [|apply kept_mret].
    apply kept_bind; [apply kept_for_each; intros m _; apply typed_timeout|intros _]. typed_leaf. }
  apply kept_ignore, typed_part. intros x. frame_steps.
Qed.
Lemma typed_initialize now : kept (typed (L:=L) (RT:=RT)) (on_initialize now).
Proof.
  unfold on_initialize. apply kept_bind; [|intros _].
  - unfold check_and_exec_pending_slash. apply kept_gets. intros w _. apply kept_bind; [|intros p; by apply typed_same_slashes].
    generalize (OnlineCommittee.UnhandledSlash (verify w.1.1)) at 2.
    induction (OnlineCommittee.UnhandledSlash (verify w.1.1)) as [|id ids IH]; intros p; cbn [exec_slashes]; [apply kept_mret|].
    apply kept_bind; [apply kept_attempt, typed_a_slash|intros p'; apply IH].
  - apply kept_ignore, summary_kept; [intros v w h l Hw; by apply (Typed_frame w.1.1)|].
    intros i c. unfold report_offline. repeat typed_step; typed_leaf. put_read.
Qed.

(** *** The calls *)
Lemma typed_put_order {E} id i : u32 (RentOrder.gpu_num i) →
  kept (typed (L:=L) (RT:=RT)) (rent_modify (E:=E) (λ r, r <| RentOrders ::= <[id := i]> |>)).
Proof. intros Hi. apply typed_write. intros s. by apply typed_order. Qed.
Lemma typed_rent now o m n d : u32 n → kept (typed (L:=L) (RT:=RT)) (rent_machine now o m n d).
Proof.
  intros Hn. unfold rent_machine. repeat typed_step; typed_leaf;
    [apply typed_renter_stake; by eapply dbc_amount_typed|apply typed_new_id|by apply typed_put_order|by apply typed_rent_start].
Qed.
(** An order that was read has a typed number of GPUs. *)
Lemma read_order (w : World) id i : RentOrders (rents w.1.1) !! id = Some i → typed w → u32 (RentOrder.gpu_num i).
Proof. intros Hi Hw. exact (ty_order _ Hw id i Hi). Qed.
Lemma typed_confirm_rent now o id : kept (typed (L:=L) (RT:=RT)) (confirm_rent now o id).
Proof.
  unfold confirm_rent. repeat typed_step; typed_leaf; [apply typed_confirmed|].
  apply typed_put_order. simpl. eapply read_order; [eassumption|done].
Qed.
Lemma typed_relet now o id d : kept (typed (L:=L) (RT:=RT)) (relet_machine now o id d).
Proof.
  unfold relet_machine. repeat typed_step; typed_leaf;
    first [apply typed_renter_stake; by eapply dbc_amount_typed
          |apply typed_put_order; simpl; eapply read_order; [eassumption|done]].
Qed.
Lemma typed_terminate now o id : kept (typed (L:=L) (RT:=RT)) (terminate_rent now o id).
Proof.
  unfold terminate_rent. repeat typed_step; typed_leaf; [apply typed_leave|apply typed_pay|apply typed_drop_order].
Qed.
Lemma typed_offline now o m : kept (typed (L:=L) (RT:=RT)) (machine_offline now o m).
Proof. unfold machine_offline. repeat typed_step; typed_leaf; [put_read|apply typed_settle]. Qed.
Lemma typed_online now o m : kept (typed (L:=L) (RT:=RT)) (machine_online now o m).
Proof. unfold machine_online. repeat typed_step; typed_leaf. put_read. Qed.
Lemma typed_exit now o m : kept (typed (L:=L) (RT:=RT)) (machine_exit now o m).
Proof.
  unfold machine_exit. repeat typed_step; typed_leaf; [apply typed_settle|].
  apply typed_write. intros s'. apply typed_remove.
Qed.
Lemma typed_bond now o m msg sig : kept (typed (L:=L) (RT:=RT)) (bond_machine T now o m msg sig).
Proof.
  unfold bond_machine, check_bonding_msg. repeat typed_step; typed_leaf.
  - apply typed_stash_stake. match goal with H : typed ?w |- u128 (OnlineDeposit (registry ?w.1.1)) => exact (ty_deposit _ H) end.
  - apply typed_put. simpl. match goal with H : typed ?w |- u128 (OnlineDeposit (registry ?w.1.1)) => exact (ty_deposit _ H) end.
Qed.
Lemma typed_add_info o m i : kept (typed (L:=L) (RT:=RT)) (add_machine_info o m i).
Proof.
  unfold add_machine_info. repeat typed_step; typed_leaf. apply typed_put.
  match goal with H : MachineInfo.add_machine_info _ ?j = Ok ?k, H' : _ = Some ?j |- _ =>
    assert (MachineInfo.stake_amount k = MachineInfo.stake_amount j) as ->;
    [unfold MachineInfo.add_machine_info in H; do 2 (case_match; [done|]); by injection H as <-|] end.
  eapply read_machine; [eassumption|done].
Qed.
Lemma slashes_submit p now o c :
  kept (slashes_are p) (OnlineCommittee.submit_confirm_hash (L:=L) (RT:=RT) now o c.1 c.2).
Proof.
  unfold OnlineCommittee.submit_confirm_hash, OnlineCommittee.verify_ok.
  repeat first [kept_step | by destruct o; intros ? | by intros ?].
Qed.
Lemma slashes_submit_raw p C now o i :
  kept (slashes_are p) (OnlineCommittee.submit_confirm_raw (L:=L) (RT:=RT) C now o i).
Proof.
  unfold OnlineCommittee.submit_confirm_raw, OnlineCommittee.verify_ok.
  repeat first [kept_step | by destruct o; intros ? | by intros ?].
Qed.

Lemma typed_call now o c : call_typed c → kept (typed (L:=L) (RT:=RT)) (dispatch T now o c).
Proof.
  intros Hc. apply kept_transactional. destruct c; cbn [run_call call_typed] in *;
    try (apply typed_part; intros x; solve [frame_steps]).
  - unfold set_stake_per_gpu. repeat typed_step; typed_leaf. apply typed_write. intros s. by apply typed_per_gpu.
  - unfold set_online_deposit. repeat typed_step; typed_leaf. apply typed_write. intros s. by apply typed_deposit.
  - apply typed_bond.
  - apply typed_add_info.
  - apply kept_rename, typed_focus. intros p. exact (slashes_submit p now o (m, h)).
  - apply kept_rename, typed_focus. intros p. apply slashes_submit_raw.
  - apply typed_rent, Hc.
  - apply typed_confirm_rent.
  - apply typed_relet.
  - apply typed_terminate.
  - apply typed_offline.
  - apply typed_online.
  - apply typed_exit.
Qed.
Lemma reachable_typed c : reachable T c → Typed c.2.1.1.
Proof.
  intros (now & pot & h & l & _ & Hr).
  apply (rtc_invariant (step T) (λ c, Typed c.2.1.1) (now, ((genesis pot, h), l))); [| |done].
  - intros x y [t o cl w Hc _|t w _ _|t s h1 h2 l1 l2] Hs; simpl in *; [by apply typed_call| |done].
    by apply typed_initialize, typed_finalize.
  - apply genesis_typed.
Qed.
End operations.
End TerminatingTyped.
