(* ===== verification/TerminatingTheorems.v ===== *)
(** * pallet-terminating-rental: its theorems

    Verification, reports, orders and the types of the stored numbers in every
    reachable state, what the hooks do, and what ending an order early costs. *)
From stdpp Require Import base gmap fin_maps list numbers relations.
From Stdlib Require Import ZArith Lia Strings.Byte.
From S2P Require Import Prelude Currency Interfaces ItemList VerifyOnline RentalTypes RentalInterfaces ReportTypes OnlineCommittee OnlineInvariant OnlineSteps RentMachine RentSteps ProfileTypes MaintainCommittee MaintainVotes TerminatingState TerminatingRental TerminatingSteps TerminatingVerify TerminatingReports TerminatingOrders TerminatingTyped.

Module TerminatingTheorems.
Import ItemList MachineInfo ProfileTypes RentOrder TerminatingState TerminatingRental TerminatingSteps TerminatingOrders.

(** ** The parts of a fee *)
Section fee.
Context {P : PerThing} `{!PerThingLaws P}.

Lemma hundredth : ∃ k, 1 ≤ k ∧ accuracy = 100 * k.
Proof.
  exists (from_percent 1). pose proof (from_percent_exact 1 ltac:(lia)). pose proof accuracy_pos. lia.
Qed.
Lemma percent_exact k x : accuracy = 100 * k → 0 ≤ x ≤ 100 → from_rational x 100 = x * k.
Proof.
  intros Hk Hx. pose proof (from_rational_floor (P:=P) x 100 ltac:(lia) ltac:(unfold U32_MAX; lia)). nia.
Qed.
(** The pot's 5% and the shares of at most three members fit in a fee. *)
Lemma fee_parts fee n :
  0 ≤ fee → (n ≤ 3)%nat →
  let c := fee - per_mul (from_rational 99 100) fee in
  let each := per_mul (from_rational 1 (Z.of_nat n)) c in
  let burn := per_mul (from_rational 5 100) fee in
  0 ≤ c ∧ 0 ≤ each ∧ 0 ≤ burn ∧ burn + Z.of_nat n * each ≤ fee.
Proof.
  intros Hf Hn. cbv zeta. destruct hundredth as (k & Hk & Ha).
  rewrite (percent_exact k 99), (percent_exact k 5) by (done || lia).
  pose proof (per_mul_bounds (P:=P) (99 * k) fee ltac:(lia) Hf). pose proof (per_mul_bounds (P:=P) (5 * k) fee ltac:(lia) Hf).
  pose proof (per_mul_nearest (P:=P) (99 * k) fee ltac:(lia) Hf) as Hs.
  pose proof (per_mul_nearest (P:=P) (5 * k) fee ltac:(lia) Hf) as Hb. rewrite Ha in Hs, Hb.
  set (s := per_mul (99 * k) fee) in *. set (b := per_mul (5 * k) fee) in *. set (c := fee - s).
  pose proof (from_rational_part (P:=P) 1 (Z.of_nat n) ltac:(lia)) as Hp.
  pose proof (per_mul_bounds (P:=P) _ c Hp ltac:(lia)). pose proof (per_mul_nearest (P:=P) _ c Hp ltac:(lia)) as He.
  set (p := from_rational 1 (Z.of_nat n)) in *. set (e := per_mul p c) in *.
  assert (200 * c ≤ 2 * fee + 100) by (unfold c; nia). assert (40 * b ≤ 2 * fee + 20) by nia.
  split_and!; try lia.
  assert (Z.of_nat n * e ≤ c + 1 ∧ (c = 0 → e = 0)) as [Hne Hz]; [|destruct (decide (c = 0)); nia || lia].
  split; [|lia]. destruct n as [|n]; [lia|].
  pose proof (from_rational_floor (P:=P) 1 (Z.of_nat (S n)) ltac:(lia) ltac:(unfold U32_MAX; lia)) as [Hpn _]. fold p in Hpn.
  rewrite Ha in Hpn, He. set (m := Z.of_nat (S n)) in *. assert (1 ≤ m ≤ 3) by lia.
  assert (2 * (100 * k * (m * e)) ≤ 2 * (100 * k * c) + 3 * (100 * k)) by nia. nia.
Qed.
End fee.

(** ** What an order costs its renter *)
Section money.
Context {L RT : Type} `{!ReservableCurrency L} `{!ReservableCurrencyLaws L}.
Context `{!RentPrice RT} {P : PerThing} `{!PerThingLaws P}.
Abbreviation World := ((State * RT) * L)%type.
Implicit Types (w : World) (a : AccountId).

(** Who is to be paid what of a fee: the pot, if there is one, its 5%, each
    verifier its share of the 1%, and the owner what is left. *)
Definition left_of (fee burn each : Balance) (n : nat) : Balance := Z.max 0 (Z.max 0 (fee - burn) - Z.of_nat n * each).
Definition shares (pot : option AccountId) (info : MachineInfo) (fee : Balance) : list (AccountId * Balance) :=
  let members := MachineInfo.reward_committee info in
  let burn := match pot with Some _ => per_mul (from_rational 5 100) fee | None => 0 end in
  let each := per_mul (from_rational 1 (Z.of_nat (length members) mod 2 ^ 32))
    (Z.max 0 (fee - per_mul (from_rational 99 100) fee)) in
  match pot with Some p => [(p, burn)] | None => [] end ++ ((λ c, (c, each)) <$> members) ++
  [(machine_stash info, left_of fee burn each (length members))].

(** Payments of [a] in order, each made in full unless the currency refuses it:
    those made, and the ledger afterwards. *)
Fixpoint settle a (ps : list (AccountId * Balance)) (l : L) : list (AccountId * Balance) * L :=
  match ps with
  | [] => ([], l)
  | p :: ps =>
      match transfer a p.1 p.2 KeepAlive l with
      | Some l1 => let r := settle a ps l1 in (p :: r.1, r.2)
      | None => settle a ps l
      end
  end.
Definition total (ps : list (AccountId * Balance)) : Balance := foldr (λ p x, p.2 + x) 0 ps.
Definition received (ps : list (AccountId * Balance)) (c : AccountId) : Balance :=
  foldr (λ p x, at_account p.1 p.2 c + x) 0 ps.

Lemma settle_app a ps qs l :
  settle a (ps ++ qs) l = ((settle a ps l).1 ++ (settle a qs (settle a ps l).2).1, (settle a qs (settle a ps l).2).2).
Proof.
  revert l. induction ps as [|p ps IH]; intros l; cbn [app settle fst snd]; [apply surjective_pairing|].
  destruct (transfer a p.1 p.2 KeepAlive l); [by rewrite IH|apply IH].
Qed.
Lemma settle_pays_out a ps l :
  Forall (λ p, 0 ≤ p.2) ps →
  moves l (settle a ps l).2
    (λ c, at_account a (- total (settle a ps l).1) c + received (settle a ps l).1 c) (λ _, 0).
Proof.
  intros Hps. revert l. induction Hps as [|p ps Hp _ IH]; intros l; cbn [settle].
  { intros c. unfold at_account. simpl. case_decide; lia. }
  destruct (transfer a p.1 p.2 KeepAlive l) as [l1|] eqn:Ht; [|apply IH].
  apply transfer_keep_alive_spec in Ht as [_ Hm]; [|done]. intros c. destruct (Hm c) as [E1 E2], (IH l1 c) as [E3 E4].
  cbn [fst snd total received foldr]. rewrite E3, E4, E1, E2. fold (total (settle a ps l1).1) (received (settle a ps l1).1 c).
  unfold at_account. split; repeat case_decide; lia.
Qed.
Lemma transfer_settles a b v w :
  (transfer_to a b v : M World Stop unit) w = (Ok tt, (w.1, (settle a [(b, v)] w.2).2)).
Proof.
  unfold transfer_to, ignore, m_transfer. cbn [settle fst snd]. destruct (transfer a b v KeepAlive w.2); [done|by destruct w].
Qed.
Lemma transfers_settle a v (l : list AccountId) w :
  (for_each l (λ b, transfer_to a b v) : M World Stop unit) w = (Ok tt, (w.1, (settle a ((λ c, (c, v)) <$> l) w.2).2)).
Proof.
  revert w. induction l as [|b l IH]; intros w; [by destruct w|]. cbn [for_each].
  rewrite (bind_run _ _ _ _ _ (transfer_settles a b v w)), IH, fmap_cons. cbn [settle fst snd].
  by destruct (transfer a b v KeepAlive w.2).
Qed.
Lemma rest_of (l : list AccountId) e fee :
  0 ≤ e → 0 ≤ fee → foldl (λ f _, saturating_sub f e) fee l = Z.max 0 (fee - Z.of_nat (length l) * e).
Proof.
  intros He. revert fee. induction l as [|x l IH]; intros fee Hf; [simpl; lia|].
  cbn [foldl length]. rewrite IH; unfold saturating_sub; lia.
Qed.
Lemma share_nonneg x y v : 0 ≤ x → 0 ≤ v → 0 ≤ per_mul (from_rational x y) v.
Proof. intros Hx Hv. apply per_mul_bounds; [by apply from_rational_part|done]. Qed.
Lemma shares_nonneg pot info fee : 0 ≤ fee → Forall (λ p, 0 ≤ p.2) (shares pot info fee).
Proof.
  intros Hf. unfold shares, left_of. apply Forall_app. split.
  { destruct pot; constructor; [|done]. simpl. by apply share_nonneg. }
  apply Forall_app. split; [|constructor; [simpl; lia|done]]. apply Forall_fmap, Forall_true.
  intros c. simpl. apply share_nonneg; lia.
Qed.
Lemma total_app ps qs : total (ps ++ qs) = total ps + total qs.
Proof. induction ps as [|p ps IH]; [done|]. simpl. fold (total (ps ++ qs)) (total ps). lia. Qed.
Lemma total_each v (l : list AccountId) : total ((λ c, (c, v)) <$> l) = Z.of_nat (length l) * v.
Proof. induction l as [|c l IH]; [done|]. rewrite fmap_cons. cbn [total foldr snd length]. fold (total ((λ c, (c, v)) <$> l)). lia. Qed.
(** The shares of a machine with at most three verifiers are the fee. *)
Lemma shares_total pot info fee :
  0 ≤ fee → (length (MachineInfo.reward_committee info) ≤ 3)%nat → total (shares pot info fee) = fee.
Proof.
  intros Hf Hlen. destruct (fee_parts fee _ Hf Hlen) as (Hc & He & Hb & Hle). cbv zeta in Hc, He, Hle.
  unfold shares, left_of. rewrite !total_app, total_each, Z.mod_small by lia. rewrite Z.max_r with (m := fee - _) by lia.
  destruct pot; cbn [total foldr snd]; lia.
Qed.

(** What a payment does to the ledger: the renter's stake is released, the
    shares are paid, and the owner reserves a part of its own. *)
Lemma pay_settles order fee m w w' :
  pay_rent_fee order fee m w = (Ok tt, w') → 0 ≤ fee →
  let l1 := (unreserve (renter order) (RentOrder.stake_amount order) w.2).1 in
  ∃ info restaked, MachinesInfo (registry w.1.1) !! m = Some info ∧ 0 ≤ restaked ≤ fee ∧
    moves (settle (renter order) (shares (RentFeePot (rents w.1.1)) info fee) l1).2 w'.2
      (at_account (machine_stash info) (- restaked)) (at_account (machine_stash info) restaked).
Proof.
  intros Hrun Hf l1. unfold pay_rent_fee, the_machine, reg_gets, rent_gets in Hrun. run_inv.
  match goal with H : MachinesInfo _ !! m = Some ?j |- _ => rename j into info; exists info; rename H into Hi end.
  unfold shares. cbv zeta. set (burn := match RentFeePot (rents w.1.1) with Some _ => _ | None => 0 end) in *.
  change (Z.max 0 (fee - per_mul (from_rational 99 100) fee)) with (saturating_sub fee (per_mul (from_rational 99 100) fee)).
  set (each := per_mul (from_rational 1 _) _) in *.
  assert (0 ≤ each) as He by (apply share_nonneg; unfold saturating_sub; lia).
  rewrite rest_of in * by (unfold saturating_sub; lia).
  change (Z.max 0 (saturating_sub fee burn - Z.of_nat (length (MachineInfo.reward_committee info)) * each))
    with (left_of fee burn each (length (MachineInfo.reward_committee info))) in *.
  set (rest := left_of _ _ _ _) in *.
  assert (0 ≤ burn) as Hb by (unfold burn; destruct (RentFeePot (rents w.1.1)); [by apply share_nonneg|done]).
  assert (0 ≤ rest ≤ fee) as Hr by (unfold rest, left_of; lia).
  rewrite !settle_app. cbn [snd].
  match goal with H : _ (w.1, _) = (Ok tt, ?y) |- _ =>
    assert (y = (w.1, (settle (renter order) match RentFeePot (rents w.1.1) with Some p => [(p, burn)] | None => [] end l1).2)) as ->;
    [destruct (RentFeePot (rents w.1.1)); [rewrite transfer_settles in H|]; by injection H as <-|clear H] end.
  match goal with H : for_each _ _ _ = _ |- _ => rewrite transfers_settle in H; injection H as <- end.
  match goal with H : transfer_to _ _ rest _ = _ |- _ => rewrite transfer_settles in H; injection H as <- end.
  match goal with H : stake_per_gpu_limit _ = (Ok _, ?y) |- _ => unfold stake_per_gpu_limit in H; injection H as _ <- end.
  cbn [fst snd] in *. case_match; run_inv.
  - unfold reg_modify in *. run_inv.
    match goal with H : reserve _ ?v _ = Some _ |- _ => exists v; apply reserve_spec in H as [_ Hm];
      [|by apply Z.min_glb; [lia|apply Z.le_max_l]] end.
    split; [done|]. split; [|exact Hm]. unfold saturating_sub. lia.
  - exists 0. split; [done|]. split; [lia|]. intros c. unfold at_account. case_decide; lia.
Qed.
Lemma fee_for_bounds order used :
  0 ≤ used → 0 ≤ RentOrder.stake_amount order → 0 ≤ fee_for order used ≤ RentOrder.stake_amount order.
Proof. intros Hu Hs. apply per_mul_bounds; [by apply from_rational_part|done]. Qed.
Lemma fee_for_all order used :
  order_typed order → rent_end order - rent_start order ≤ used → fee_for order used = RentOrder.stake_amount order.
Proof.
  intros [[Hs _] [Ht Hmax] _ _] Hu. unfold fee_for. set (d := saturating_sub (rent_end order) (rent_start order)).
  assert (0 ≤ d ≤ used ∧ d = rent_end order - rent_start order) as [Hd Hdd] by (unfold d, saturating_sub; lia).
  assert (from_rational used d = accuracy) as ->.
  { destruct (decide (d = 0 ∨ d < used)) as [|Hn]; [by apply from_rational_one|].
    assert (used = d) as -> by lia.
    pose proof (from_rational_floor (P:=P) d d ltac:(lia) ltac:(lia)). nia. }
  pose proof (accuracy_pos (P:=P)) as Ha.
  pose proof (per_mul_nearest (P:=P) (@accuracy P) (RentOrder.stake_amount order) ltac:(lia) Hs) as Hx.
  destruct (Z.lt_trichotomy (per_mul accuracy (RentOrder.stake_amount order)) (RentOrder.stake_amount order)) as [|[|]];
    [nia|done|nia].
Qed.

(** The fee is the share of the stake for the time used: at most half a unit
    above it, and less than half a unit and one part in [accuracy] of the stake
    below it. *)
Lemma fee_for_share order used :
  order_typed order → 0 ≤ used ≤ rent_end order - rent_start order → rent_start order < rent_end order →
  let stake := RentOrder.stake_amount order in
  let d := rent_end order - rent_start order in
  2 * d * fee_for order used ≤ 2 * used * stake + d ∧
  accuracy * (2 * used * stake) ≤ accuracy * (2 * d * fee_for order used + d) + 2 * d * stake.
Proof.
  intros [[Hs _] [Ht Hmax] _ _] Hu Hlt. cbv zeta. unfold fee_for.
  assert (saturating_sub (rent_end order) (rent_start order) = rent_end order - rent_start order) as ->
    by (unfold saturating_sub; lia).
  set (d := rent_end order - rent_start order) in *. assert (0 < d) as Hd by (unfold d; lia).
  pose proof (from_rational_part (P:=P) used d ltac:(lia)) as Hp.
  pose proof (from_rational_floor (P:=P) used d ltac:(lia) ltac:(lia)) as Hr.
  pose proof (per_mul_nearest (P:=P) _ (RentOrder.stake_amount order) Hp Hs) as Hn.
  pose proof (accuracy_pos (P:=P)) as Ha. set (r := from_rational used d) in *.
  set (f := per_mul r (RentOrder.stake_amount order)) in *. set (st := RentOrder.stake_amount order) in *.
  assert (d * (r * st) ≤ used * accuracy * st ≤ d * (r * st) + d * st) by nia.
  assert (2 * (d * (accuracy * f)) ≤ 2 * (d * (r * st)) + d * accuracy ∧
          2 * (d * (r * st)) ≤ 2 * (d * (accuracy * f)) + d * accuracy) by nia.
  split; [apply (Z.mul_le_mono_pos_l _ _ accuracy Ha)|]; lia.
Qed.

(** The loop over the other orders changes the list of renters alone. *)
Lemma leave_run who ids w w' :
  leave_machine who ids w = (Ok tt, w') →
  w'.2 = w.2 ∧ ∀ m j, MachinesInfo (registry w'.1.1) !! m = Some j →
    ∃ i r, MachinesInfo (registry w.1.1) !! m = Some i ∧ j = i <| renters := r |>.
Proof.
  revert w. induction ids as [|id ids IH]; intros w Hrun; cbn [leave_machine] in Hrun;
    unfold the_order, the_machine, rent_gets, reg_gets, reg_modify in Hrun; run_inv.
  { split; [done|]. intros m i Hi. exists i, (renters i). by destruct i. }
  case_match; run_inv; [split; [done|]; intros m i Hi; exists i, (renters i); by destruct i|].
  destruct (IH _ Hrun) as [-> Hm]. split; [done|]. intros m j Hj. destruct (Hm m j Hj) as (i & r & Hi & ->).
  simpl in Hi. apply lookup_insert_Some in Hi as [[<- <-]|[_ Hi]]; eauto.
Qed.
End money.

(** ** Theorems *)
Section theorems.
Context {L RT : Type} `{!ReservableCurrency L}.
Context `{!ManageCommittee L RT, !GNOps L RT, !TxFee L RT, !RentPrice RT, !ServerRooms RT, !RandomDraw RT} {P : PerThing}.
Context (T : Config).
Abbreviation World := ((State * RT) * L)%type.
Abbreviation OC := OnlineCommittee.State (only parsing).
Implicit Types (w : World).

(** The end of a block verifies machines as online-committee does. Over this
    pallet's own registry, its summary of the reports and its distribution of
    new machines end as the hook of online-committee ends, with the same
    verification records, registry, runtime and ledger; online-committee here runs on the
    verification records with the rest of the pallet as its machine registry. *)
Theorem tr_verification_refines now w :
  let oc_world w : (OC * (State * RT)) * L :=
    ((verify w.1.1, (w.1.1 <| verify := OnlineCommittee.genesis |>, w.1.2)), w.2) in
  let run := (statistic_online_verify now;; distribute_machines now) w in
  @OnlineCommittee.on_finalize L (State * RT) TerminatingVerify.rest_committee TerminatingVerify.rest_registry
    TerminatingVerify.rest_draw now (oc_world w) = (run.1, oc_world run.2).
Proof. exact (TerminatingVerify.sim_finalize now w). Qed.


(** C24: the hooks of a block never panic in a reachable state with ids left: every
    draw has members to draw from and every summary as many reports as
    members. *)
Theorem tr_hooks_never_panic `{!RandomDrawLaws RT} now w :
  reachable T (now, w) → ids_left w.1.1 →
  (on_finalize now w).1 ≠ Err Panic ∧ (on_initialize (now + 1) (on_finalize now w).2).1 ≠ Err Panic.
Proof.
  intros Hr Hids. destruct (TerminatingVerify.reachable_checked T _ Hr) as [HB HS].
  destruct (TerminatingVerify.safe_finalize T now w Hids HB HS) as [(HB1 & HS1 & Ha1 & Hn1) Hp1].
  split; [done|].
  destruct (TerminatingVerify.safe_initialize T (now + 1) (verify (on_finalize now w).2.1.1) (on_finalize now w).2)
    as [_ Hp2]; [|done].
  split_and!; [done|eapply OnlineInvariant.SlashInv_later; [|done]; lia|apply OnlineInvariant.advanced_refl|done].
Qed.

(** In every reachable state, the votes on every fault report are sound: at
    most three members booked it, only those committed and only those revealed,
    a counted verdict opens the member's commitment and the reporter's, the two
    sides cover exactly the members who revealed, and ids are not used twice. *)
Theorem tr_reachable_votes now w :
  reachable T (now, w) → MaintainVotes.VoteInv (report_config T) (reports w.1.1).
Proof. apply (TerminatingReports.reachable_votes T (now, w)). Qed.

(** C20: in every reachable state, the rental orders are in order: ids are below
    the next one, a machine's list holds exactly its orders, its GPUs in use are
    exactly those of its orders, no GPU belongs to two orders, and every order is
    listed at the block of its end and under its renter, where no order with
    another end or renter is. *)
Theorem tr_reachable_orders `{!RentPriceLaws RT} now w :
  reachable T (now, w) →
  let r := rents w.1.1 in let o := RentOrders r in
  (∀ id i, o !! id = Some i → 0 ≤ id < NextRentId r) ∧
  (∀ m id, id ∈ rent_order (machine_rent_order r m) ↔ ∃ i, o !! id = Some i ∧ RentOrder.machine_id i = m) ∧
  (∀ m x, x ∈ used_gpu (machine_rent_order r m) ↔
     ∃ id i, o !! id = Some i ∧ RentOrder.machine_id i = m ∧ x ∈ gpu_index i) ∧
  (∀ id id' i i' x, o !! id = Some i → o !! id' = Some i' → RentOrder.machine_id i = RentOrder.machine_id i' →
     x ∈ gpu_index i → x ∈ gpu_index i' → id = id') ∧
  (∀ id i b, o !! id = Some i → id ∈ RentMachine.list_at (PendingRentEnding r) b ↔ rent_end i = b) ∧
  (∀ id i a, o !! id = Some i → id ∈ RentMachine.list_at (UserRented r) a ↔ renter i = a).
Proof.
  intros Hr. destruct (reachable_orders T _ Hr) as [_ O]. cbn [snd] in O. cbv zeta.
  assert (∀ `{Countable K} (f : RentOrderDetail → K) next t,
    tracks f (RentOrders (rents w.1.1)) next t → ∀ id i k, RentOrders (rents w.1.1) !! id = Some i →
    id ∈ RentMachine.list_at t k ↔ f i = k) as Ht.
  { intros K ? ? f next t [_ Tl Tf] id i k Hi. split; [|intros <-; eauto]. intros Hin. by apply (Tl k id). }
  split_and!.
  - apply (or_ids _ O).
  - intros m. apply (RentSteps.go_orders _ _ _ (or_gpus _ O m)).
  - intros m. apply (RentSteps.go_used _ _ _ (or_gpus _ O m)).
  - apply (or_exclusive _ O).
  - intros id i b. apply (Ht _ _ _ _ _ _ (or_ending _ O)).
  - intros id i a. apply (Ht _ _ _ _ _ _ (or_user _ O)).
Qed.

(** In every reachable state, the stored numbers have the types of the
    source: stakes, deposits and slashes are unsigned 128-bit amounts, counts of
    GPUs unsigned 32-bit numbers, the next order id an unsigned 64-bit one, and an
    order ends after it starts, in a 32-bit block number, and has as many GPUs as
    it counts at most, each once. *)
Theorem tr_reachable_typed `{!RentPriceLaws RT} now w :
  reachable T (now, w) →
  TerminatingTyped.Typed w.1.1 ∧ 0 ≤ NextRentId (rents w.1.1) ≤ U64_MAX ∧
  ∀ id i, RentOrders (rents w.1.1) !! id = Some i → order_typed i.
Proof.
  intros Hr. destruct (reachable_orders T _ Hr) as [_ O]. cbn [snd] in O.
  split; [exact (TerminatingTyped.reachable_typed T _ Hr)|]. split; [|apply (or_typed _ O)].
  apply (or_next _ O).
Qed.

(** The verification at the end of a block, seen from the orders: it succeeds and
    leaves them alone. *)
Definition unfailing {A} (m : M World Fault A) : Prop := ∀ w, (m w).1 ≠ Err Failed.
Lemma unfailing_bind {A B} (m : M World Fault A) (k : A → M World Fault B) :
  unfailing m → (∀ a, unfailing (k a)) → unfailing (m ≫= k).
Proof.
  intros Hm Hk w. specialize (Hm w). unfold mbind, M_bind. destruct (m w) as [[a|e] w1]; [apply Hk|].
  intros [= ->]. done.
Qed.
Lemma unfailing_attempt {A} (d : A) (m : M World Fault A) : unfailing (attempt d m).
Proof. intros w. unfold attempt. by destruct (m w) as [[|[]] ?]. Qed.
Lemma unfailing_for_each {A} (l : list A) (f : A → M World Fault unit) :
  (∀ x, unfailing (f x)) → unfailing (for_each l f).
Proof. intros Hf. induction l as [|x l IH]; [by intros w|]. by apply unfailing_bind. Qed.
Lemma unfailing_draw n i c (w : (OC * RT) * L) : (OnlineCommittee.draw_members n i c w).1 ≠ Err Failed.
Proof.
  revert i c w. induction n as [|n IH]; intros i c w; cbn [OnlineCommittee.draw_members]; [done|].
  unfold mbind, M_bind. unfold OnlineCommittee.draw at 1. destruct (rnd_u32 _ _) as [[x|] h]; [|done].
  destruct (c !! Z.to_nat x) as [y|]; [|done]. cbn [ok_or].
  match goal with |- context [OnlineCommittee.draw_members n ?j ?d ?v] => specialize (IH j d v);
    destruct (OnlineCommittee.draw_members n j d v) as [[?|e] ?] end; [done|]. simpl in *. congruence.
Qed.
Lemma unfailing_verify now : unfailing (statistic_online_verify now;; distribute_machines now).
Proof.
  apply unfailing_bind; [|intros _].
  - do 2 (apply unfailing_bind; [done|intros ?]). apply unfailing_for_each. intros m. apply unfailing_attempt.
  - apply unfailing_bind; [done|intros machines]. apply unfailing_for_each. intros m.
    apply unfailing_bind; [done|intros _]. apply unfailing_bind.
    + intros w. rewrite same_work_index. unfold on_verify, focus, OnlineCommittee.get_work_index, OnlineCommittee.rt_gets.
      rewrite bind_gets. destruct (mc_available_committee _) as [c|]; [|done]. case_match; [done|].
      unfold mbind, M_bind.
      match goal with |- context [OnlineCommittee.draw_members ?n ?i ?d ?v] => pose proof (unfailing_draw n i d v);
        destruct (OnlineCommittee.draw_members n i d v) as [[?|e] ?] end; [done|]. simpl in *. congruence.
    + intros [seqs|]; [|done]. apply unfailing_bind; [apply unfailing_for_each; intros x|intros _]; apply unfailing_attempt.
Qed.
Lemma verify_then_orders `{!RandomDrawLaws RT} now w :
  reachable T (now, w) → ids_left w.1.1 →
  ∃ w1, (statistic_online_verify now;; distribute_machines now) w = (Ok tt, w1) ∧ rents w1.1.1 = rents w.1.1.
Proof.
  intros Hr Hids. destruct (TerminatingVerify.reachable_checked T _ Hr) as [HB HS].
  destruct (TerminatingVerify.verify_finalize T now w (proj1 (proj2 Hids)) HB HS) as [_ Hp].
  pose proof (unfailing_verify now w) as Hf.
  assert (kept (part (L:=L) (RT:=RT) rents (rents w.1.1)) (statistic_online_verify now;; distribute_machines now)) as Hk
    by frame_steps.
  specialize (Hk w eq_refl). destruct ((statistic_online_verify now;; distribute_machines now) w) as [[[]|[]] w1];
    [by exists w1|done..].
Qed.

(** C21: the hook at the end of a block ends orders in time: in a reachable state
    where every id listed for the block is that of an order, it ends exactly
    the orders whose end is this block, whatever becomes of their payments. *)
Theorem tr_hook_ends_orders `{!RandomDrawLaws RT} `{!RentPriceLaws RT} now w :
  reachable T (now, w) → ids_left w.1.1 →
  (∀ id, id ∈ RentMachine.list_at (PendingRentEnding (rents w.1.1)) now → is_Some (RentOrders (rents w.1.1) !! id)) →
  ∀ id, RentOrders (rents (on_finalize now w).2.1.1) !! id =
    (i ← RentOrders (rents w.1.1) !! id; if decide (rent_end i = now) then None else Some i).
Proof.
  intros Hr Hids Hfound id. destruct (reachable_orders T _ Hr) as [_ O]. cbn [snd] in O.
  destruct (verify_then_orders now w Hr Hids) as (w1 & Hrun & Hw1).
  assert (on_finalize now w = (ignore (check_if_rent_finished now);; ignore (check_if_offline_timeout now);;
    ignore (exec_report_slash now)) w1) as ->.
  { revert Hrun. unfold on_finalize, mbind, M_bind. destruct (statistic_online_verify now w) as [[] ?]; [|done].
    by intros ->. }
  assert (∀ w2, rents ((ignore (check_if_offline_timeout now);; ignore (exec_report_slash now)
    : M World Fault unit) w2).2.1.1 = rents w2.1.1) as Hrest.
  { intros w2. assert (kept (part (L:=L) (RT:=RT) rents (rents w2.1.1)) (ignore (check_if_offline_timeout now);;
      ignore (exec_report_slash now) : M World Fault unit)) as Hk by frame_steps. exact (Hk w2 eq_refl). }
  change (RentOrders (rents ((ignore (check_if_offline_timeout now);; ignore (exec_report_slash now) : M World Fault unit)
    (check_if_rent_finished now w1).2).2.1.1) !! id = (i ← RentOrders (rents w.1.1) !! id;
      if decide (rent_end i = now) then None else Some i)).
  rewrite Hrest. rewrite <- Hw1 in O, Hfound |- *. destruct (or_ending _ O) as [Ts Tl Tf].
  unfold check_if_rent_finished, rent_gets, own_gets. rewrite bind_gets. unfold RentMachine.list_at in Ts, Tl, Tf, Hfound.
  destruct (PendingRentEnding (rents w1.1.1) !! now) as [ids|] eqn:Hids'.
  - specialize (Ts now). rewrite Hids' in Ts. simpl in Ts, Hfound.
    destruct (finish_all ids w1 O (sorted_NoDup _ Ts) Hfound) as (w2 & -> & Hl). cbn [snd]. rewrite Hl.
    specialize (Tl now id). rewrite Hids' in Tl. simpl in Tl.
    destruct (RentOrders (rents w1.1.1) !! id) as [i|] eqn:Hi; simpl; [|by case_decide].
    destruct (decide (rent_end i = now)) as [He|He].
    + rewrite decide_True; [done|]. specialize (Tf id i Hi). rewrite He, Hids' in Tf. done.
    + rewrite decide_False; [done|]. intros Hin. apply He. by apply Tl.
  - cbn [snd]. destruct (RentOrders (rents w1.1.1) !! id) as [i|] eqn:Hi; simpl; [|done].
    rewrite decide_False; [done|]. intros He. specialize (Tf id i Hi). rewrite He, Hids' in Tf.
    by apply not_elem_of_nil in Tf.
Qed.

Lemma terminate_effect `{!ReservableCurrencyLaws L} `{!PerThingLaws P} now a id w w' :
  Orders (rents w.1.1) → terminate_rent now (Signed a) id w = (Ok tt, w') →
  ∃ i info, RentOrders (rents w.1.1) !! id = Some i ∧
    MachinesInfo (registry w.1.1) !! RentOrder.machine_id i = Some info ∧ renter i = a ∧
    (∃ restaked, let fee := fee_for i (Z.max 0 (now - rent_start i)) in 0 ≤ restaked ≤ fee ∧
      moves (settle a (shares (RentFeePot (rents w.1.1)) info fee) (unreserve a (RentOrder.stake_amount i) w.2).1).2
        w'.2 (at_account (machine_stash info) (- restaked)) (at_account (machine_stash info) restaked)) ∧
    RentOrders (rents w'.1.1) = delete id (RentOrders (rents w.1.1)) ∧
    ∀ x, x ∈ gpu_index i → x ∉ used_gpu (machine_rent_order (rents w'.1.1) (RentOrder.machine_id i)).
Proof.
  intros O Hrun. unfold terminate_rent, fails, the_order, rent_gets, rent_modify in Hrun. run_inv.
  match goal with H : rename_error _ _ _ = (Ok _, _) |- _ => apply renames_Ok in H end. run_inv.
  match goal with H : RentOrders _ !! id = Some ?j |- _ => rename j into i; rename H into Hi end.
  pose proof (or_typed _ O id i Hi) as Hty. pose proof (proj1 (ot_stake _ Hty)) as Hs0.
  pose proof (fee_for_bounds i (Z.max 0 (now - rent_start i)) ltac:(lia) Hs0) as Hfee.
  match goal with H : leave_machine _ _ _ = _ |- _ => pose proof (leave_run _ _ _ _ H) as [Hl Hk];
    apply (part_known rents) in H; [|intros y; by apply leave_part]; rename H into Hrents end.
  match goal with H : pay_rent_fee _ _ _ _ = _ |- _ => rename H into Hpay end.
  destruct (pay_settles _ _ _ _ _ Hpay) as (j & restaked & Hj & Hre & Hmv); [unfold saturating_sub; lia|].
  destruct (Hk _ _ Hj) as (info & r & Hm & ->). exists i, info. cbn [fst snd registry rents RentFeePot] in Hmv.
  apply (part_known rents) in Hpay; [|intros y; frame_steps]. simpl in Hpay. rewrite Hpay. cbn [RentOrders].
  rewrite Hrents in *. rewrite Hl in Hmv. split_and!; try done; [by exists restaked|].
  intros x Hx. unfold machine_rent_order at 1. simpl. rewrite lookup_insert_eq. simpl.
  destruct (RentSteps.go_sorted _ _ _ (or_gpus _ O (RentOrder.machine_id i))) as [_ Hsu].
  destruct (clean_spec id (gpu_index i) _ Hsu) as (_ & _ & He). intros [_ ?]%He. done.
Qed.

(** C22: what ending an order early costs, exactly: the order is the caller's; the
    fee is the share of its stake for the time used (all of it from the end of
    the order on), up to rounding; the stake, or what is still reserved of it, is
    released, and out of it the caller pays the shares of the fee (5% to the pot,
    if there is one, the verifiers' part of the 1% to each, the rest to the
    owner), each in full unless the currency refuses the transfer, and nothing
    else; the owner reserves at most the fee as the machine's stake; no other
    balance changes; the order is gone and its GPUs are free. With at most
    three verifiers the shares add up to the fee, so that a caller all of whose
    payments are accepted pays exactly the fee. *)
Theorem tr_terminate_pays `{!ReservableCurrencyLaws L} `{!PerThingLaws P} `{!RentPriceLaws RT} now a id w w' :
  reachable T (now, w) → terminate_rent now (Signed a) id w = (Ok tt, w') →
  ∃ i info restaked, RentOrders (rents w.1.1) !! id = Some i ∧
    MachinesInfo (registry w.1.1) !! RentOrder.machine_id i = Some info ∧ renter i = a ∧
    let stake := RentOrder.stake_amount i in
    let used := Z.max 0 (now - rent_start i) in
    let d := rent_end i - rent_start i in
    let fee := fee_for i used in
    let released := Z.min stake (reserved_balance w.2 a) in
    let due := shares (RentFeePot (rents w.1.1)) info fee in
    let paid := (settle a due (unreserve a stake w.2).1).1 in
    let stash := machine_stash info in
    0 ≤ fee ≤ stake ∧ (rent_end i ≤ now → fee = stake) ∧
    (rent_start i < rent_end i → now ≤ rent_end i →
       2 * d * fee ≤ 2 * used * stake + d ∧
       accuracy * (2 * used * stake) ≤ accuracy * (2 * d * fee + d) + 2 * d * stake) ∧
    ((length (MachineInfo.reward_committee info) ≤ 3)%nat → total due = fee) ∧ 0 ≤ restaked ≤ fee ∧
    moves w.2 w'.2
      (λ c, at_account a (released - total paid) c + received paid c + at_account stash (- restaked) c)
      (λ c, at_account a (- released) c + at_account stash restaked c) ∧
    RentOrders (rents w'.1.1) = delete id (RentOrders (rents w.1.1)) ∧
    ∀ x, x ∈ gpu_index i → x ∉ used_gpu (machine_rent_order (rents w'.1.1) (RentOrder.machine_id i)).
Proof.
  intros Hr Hrun. destruct (reachable_orders T _ Hr) as [_ O]. cbn [snd] in O.
  destruct (terminate_effect now a id w w' O Hrun) as (i & info & Hi & Hm & Ha & (restaked & Hre & Hmv) & Hdel & Hgpu).
  exists i, info, restaked. pose proof (or_typed _ O id i Hi) as Hty. pose proof (proj1 (ot_stake _ Hty)) as Hs0.
  destruct (ot_time _ Hty) as [Ht _].
  pose proof (fee_for_bounds i (Z.max 0 (now - rent_start i)) ltac:(lia) Hs0) as Hfee.
  cbv zeta. split_and!; try done; try lia.
  - intros Hend. apply fee_for_all; [done|]. lia.
  - intros Hlt Hle. apply fee_for_share; [done|lia..].
  - intros Hlen. apply shares_total; [lia|done].
  - destruct (unreserve_spec a (RentOrder.stake_amount i) w.2 Hs0) as [_ Hu].
    intros c. destruct (Hu c) as [E1 E2], (Hmv c) as [E3 E4].
    destruct (settle_pays_out a (shares (RentFeePot (rents w.1.1)) info (fee_for i (Z.max 0 (now - rent_start i))))
      (unreserve a (RentOrder.stake_amount i) w.2).1 (shares_nonneg _ _ _ (proj1 Hfee)) c) as [E5 E6].
    rewrite E3, E4, E5, E6, E1, E2. unfold at_account. split; repeat case_decide; lia.
Qed.
End theorems.
End TerminatingTheorems.
