(* ===== verification/TerminatingRuns.v ===== *)
(** * pallet-terminating-rental: runs

    The pallet with the committee and generic-func behind its interfaces, from
    its genesis: an owner bonds a machine, three members verify it, two renters
    rent a GPU each and one ends the order early. The runs witness the theorems
    and show what the code does not mean to do. *)
From stdpp Require Import base gmap fin_maps list numbers relations.
From Stdlib Require Import ZArith Lia Strings.Byte.
From S2P Require Import Prelude Currency Interfaces ItemList GenericFunc Committee VerifyOnline RentalTypes RentalInterfaces ReportTypes OnlineCommittee OnlineInvariant RentMachine ProfileTypes MaintainCommittee MaintainVotes ProfileTheorems TerminatingState TerminatingRental TerminatingOrders TerminatingTyped TerminatingTheorems.

Module TerminatingRuns.
Import (hints) ProfileTheorems.Demo Report.
Import ItemList MachineInfo ProfileTypes RentOrder TerminatingState TerminatingRental TerminatingTheorems.
Abbreviation Rest := (Committee.State * GenericFunc.State)%type.
Abbreviation world := ((State * Rest) * Ledger.t)%type.
#[local] Instance members : ManageCommittee Ledger.t Rest := manage_committee_via fst (λ c h, (c, h.2)).
#[local] Instance draws : RandomDraw Rest := random_draw_via (λ n, n) snd (λ g h, (h.1, g)).
#[local] Instance draws_laws : RandomDrawLaws Rest := random_draw_via_laws _ _ _.

Definition T : Config := {|
  blake2_128 b := N.pos (encode b);
  get_account_from_str _ := Some 9%N;
  verify_sig _ _ _ := true;
|}.
Definition committee_params : Committee.CommitteeStakeParamsInfo := {|
  Committee.stake_baseline := 100; Committee.stake_per_order := 10;
  Committee.min_free_stake_percent := 400000000 |}.
Definition join (a : AccountId) (w : Committee.State * Ledger.t) : Committee.State * Ledger.t :=
  let w := (Committee.dispatch Root (Committee.AddCommittee a) w).2 in
  (Committee.dispatch (Signed a) (Committee.SetBoxPubkey a) w).2.
(** Renters 1 and 2, members 3 to 5, stash 9 with controller 10, the pot 50 and
    the treasury 100. *)
Definition joined : Committee.State * Ledger.t :=
  foldr join (Committee.dispatch Root (Committee.SetCommitteeStakeParams committee_params)
    (Committee.genesis, {[1 := (100000, 0); 2 := (100000, 0); 3 := (1000, 0); 4 := (1000, 0); 5 := (1000, 0);
       9 := (10000, 0); 10 := (100, 0); 50 := (1, 0); 100 := (1, 0)]}%N)).2 [3; 4; 5]%N.
Definition start : BlockNumber * world :=
  (6000000, ((genesis (Some 50%N), (joined.1, ProfileTheorems.Demo.rest.2)), joined.2)).

(** ** Calls with typed arguments and blocks, while ids are left *)
Inductive Act := Do (o : Origin) (c : Call) | Blocks (n : N).
#[local] Instance ids_left_dec s : Decision (ids_left s).
Proof. unfold ids_left, MaintainCommittee.ids_left. apply _. Defined.
#[local] Instance call_typed_dec c : Decision (call_typed c).
Proof. destruct c; simpl; apply _. Defined.
Definition block (x : BlockNumber * world) : option (BlockNumber * world) :=
  if decide (ids_left x.2.1.1 ∧ ids_left (on_finalize x.1 x.2).2.1.1) then
    Some (x.1 + 1, (on_initialize (x.1 + 1) (on_finalize x.1 x.2).2).2)
  else None.
Definition act (x : BlockNumber * world) (a : Act) : option (BlockNumber * world) :=
  match a with
  | Do o c => if decide (call_typed c ∧ ids_left x.2.1.1) then Some (x.1, (dispatch T x.1 o c x.2).2) else None
  | Blocks n => N.iter n (λ y, y ≫= block) (Some x)
  end.
Definition exec (l : list Act) (x : BlockNumber * world) : option (BlockNumber * world) :=
  foldl (λ y a, y ≫= λ x, act x a) (Some x) l.

Lemma tr_block_steps x y : block x = Some y → step T x y.
Proof.
  unfold block. destruct (decide _) as [[H1 H2]|]; [|discriminate 1].
  intros <-%Some_inj. destruct x as [now w]. exact (step_block T now w H1 H2).
Qed.
Lemma tr_act_steps x a y : act x a = Some y → rtc (step T) x y.
Proof.
  destruct a as [o c|n]; simpl.
  - destruct (decide _) as [[H1 H2]|]; [|discriminate 1]. intros <-%Some_inj. apply rtc_once.
    destruct x as [now w]. exact (step_call T now o c w H1 H2).
  - revert y. apply (N.iter_invariant n _ _ (λ o, ∀ y, o = Some y → rtc (step T) x y)).
    + intros [u|] Hu y Hy; simpl in Hy; [|done]. eapply rtc_r; [by apply Hu|by apply tr_block_steps].
    + intros y <-%Some_inj. apply rtc_refl.
Qed.
Lemma tr_exec_steps l x y : exec l x = Some y → rtc (step T) x y.
Proof.
  revert x y. induction l as [|a l IH] using rev_ind; intros x y; unfold exec.
  - intros <-%Some_inj. apply rtc_refl.
  - rewrite foldl_app. simpl. intros (u & Hu & Hy)%bind_Some. etrans; [by apply IH|by eapply tr_act_steps].
Qed.
(** The state after a run that goes through. *)
Definition after (l : list Act) (x : BlockNumber * world) : BlockNumber * world := default x (exec l x).
Lemma tr_after_reachable l x : match exec l x with Some _ => true | None => false end = true →
  reachable T x → reachable T (after l x).
Proof.
  unfold after. destruct (exec l x) as [y|] eqn:He; [|done]. intros _ (now & pot & h & l' & H0 & Hr).
  exists now, pot, h, l'. split; [done|]. etrans; [exact Hr|by apply (tr_exec_steps l)].
Qed.
Ltac run_on H := apply tr_after_reachable; [vm_compute; reflexivity|exact H].

(** ** Bonding and verification *)
Definition m : list byte := ProfileTheorems.Demo.m.
Definition customize : StakerCustomizeInfo := {|
  server_room := 1%N; upload_net := 100; download_net := 100; longitude_of := Longitude_default;
  latitude_of := Latitude_default; telecom_operators := [[x74]]; is_bare_machine := false |}.
Definition setup : list Act :=
  [Do Root (SetOnlineDeposit 1000); Do Root (SetStakePerGpu 100);
   Do Root (SetStandardGpuPointPrice {| gpu_point := 1000; gpu_price := 5760 |});
   Do (Signed 9%N) (SetController 10%N); Do (Signed 10%N) GenServerRoom;
   Do (Signed 10%N) (BondMachine m ProfileTheorems.Demo.msg [])].
Definition bonded := after setup start.
Definition report (a : AccountId) : VerifyOnline.CommitteeUploadInfo := VerifyOnline.CommitteeUploadInfo_default
  <| VerifyOnline.machine_id := m |> <| VerifyOnline.is_support := true |> <| VerifyOnline.gpu_num := 4 |>
  <| VerifyOnline.calc_point := 4000 |> <| VerifyOnline.rand_str := VerifyOnline.to_string (Z.of_N a) |>.
Definition commit (a : AccountId) : Act :=
  Do (Signed a) (SubmitConfirmHash m (VerifyOnline.hash (blake2_128 T) (report a))).
Definition reveal (a : AccountId) : Act := Do (Signed a) (SubmitConfirmRaw (report a)).
Definition online := after
  (Do (Signed 10%N) (AddMachineInfo m customize) :: Blocks 1 :: (commit <$> [3; 4; 5]%N) ++
   (reveal <$> [3; 4; 5]%N) ++ [Blocks 1]) bonded.

(** ** Two renters *)
Definition rented := after
  [Do (Signed 1%N) (RentMachineCall m 1 300); Do (Signed 2%N) (RentMachineCall m 1 300);
   Do (Signed 1%N) (ConfirmRent 0); Do (Signed 2%N) (ConfirmRent 1)] online.
(** The block at which both orders end, and the next one. *)
Definition due := after [Blocks 300] rented.
Definition ended := after [Blocks 1] due.
(** Renter 1 ends the order half way; the other order is then long over. *)
Definition half := after [Blocks 150] rented.
Definition left_early := after [Do (Signed 1%N) (TerminateRent 0)] half.
Definition over := after [Blocks 500] left_early.
(** Renter 1 alone, who ends the order. *)
Definition vacated := after
  [Do (Signed 1%N) (RentMachineCall m 4 300); Do (Signed 1%N) (ConfirmRent 0); Do (Signed 1%N) (TerminateRent 0)] online.

(** ** A report of the rented machine *)
Definition rand : bytes := [x72].
Definition why : bytes := [x78].
Definition opening (parts : list bytes) : Report.ReportHash :=
  MaintainCommittee.hash_of (report_config T) ([m; VerifyOnline.to_string 0; rand] ++ parts).
Definition judge (a : AccountId) : list Act :=
  [Do (Signed a) (CommitteeBookReportCall 0); Do (Signed 1%N) (ReporterAddEncryptedErrorInfo 0 a []);
   Do (Signed a) (CommitteeSubmitVerifyHash 0 (opening [[x61]; MaintainCommittee.vote_bytes true; why]))].
Definition voted := after
  (Do (Signed 1%N) (ReportMachineFaultCall (opening [why]) 0%N) :: judge 3%N ++ [Blocks 1801;
   Do (Signed 3%N) (CommitteeSubmitVerifyRaw 0 m 0 rand [x61] why [] true)]) rented.
Definition confirmed := after [Blocks 1] voted.

(** ** Machines that leave *)
Definition swapped := after
  [Do (Signed 10%N) (MachineOfflineCall m); Do (Signed 10%N) (MachineOnlineCall m)] bonded.
Definition exited := after [Do (Signed 10%N) (MachineExitCall m)] bonded.
Definition day_later := after [Blocks 14400] ended.
Definition back := after [Do (Signed 10%N) (MachineOfflineCall m); Do (Signed 10%N) (MachineOnlineCall m)] day_later.

Lemma tr_start_reachable : reachable T start.
Proof. eexists _, _, _, _. split; [|apply rtc_refl]. done. Qed.
Lemma tr_bonded_reachable : reachable T bonded.
Proof. unfold bonded. run_on tr_start_reachable. Qed.
Lemma tr_online_reachable : reachable T online.
Proof. unfold online. run_on tr_bonded_reachable. Qed.
Lemma tr_rented_reachable : reachable T rented.
Proof. unfold rented. run_on tr_online_reachable. Qed.
Lemma tr_due_reachable : reachable T due.
Proof. unfold due. run_on tr_rented_reachable. Qed.
Lemma tr_ended_reachable : reachable T ended.
Proof. unfold ended. run_on tr_due_reachable. Qed.
Lemma tr_half_reachable : reachable T half.
Proof. unfold half. run_on tr_rented_reachable. Qed.
Lemma tr_over_reachable : reachable T over.
Proof.
  unfold over. apply tr_after_reachable; [vm_compute; reflexivity|].
  unfold left_early. run_on tr_half_reachable.
Qed.
Lemma tr_vacated_reachable : reachable T vacated.
Proof. unfold vacated. run_on tr_online_reachable. Qed.
Lemma tr_voted_reachable : reachable T voted.
Proof. unfold voted. run_on tr_rented_reachable. Qed.
Lemma tr_swapped_reachable : reachable T swapped.
Proof. unfold swapped. run_on tr_bonded_reachable. Qed.
Lemma tr_exited_reachable : reachable T exited.
Proof. unfold exited. run_on tr_bonded_reachable. Qed.
Lemma tr_back_reachable : reachable T back.
Proof.
  unfold back. apply tr_after_reachable; [vm_compute; reflexivity|]. unfold day_later. run_on tr_ended_reachable.
Qed.

(** ** What the code does not mean to do *)
Definition status (x : BlockNumber * world) : option MachineStatus :=
  machine_status <$> MachinesInfo (registry x.2.1.1) !! m.

(** An order that its renter ended stays listed for the block of its end. The
    hook of that block stops at it: the other order that ends there never ends,
    its GPU stays in use, and its renter's stake stays reserved. *)
Lemma tr_stale_id_blocks_hook :
  reachable T over ∧ RentMachine.list_at (PendingRentEnding (rents over.2.1.1)) 6000302 = [0; 1] ∧
  over.1 = 6000652 ∧ (λ i, (rent_end i, gpu_index i)) <$> RentOrders (rents over.2.1.1) !! 1 = Some (6000302, [1]) ∧
  RentOrders (rents over.2.1.1) !! 0 = None ∧ reserved_balance over.2.2 2%N = 120.
Proof. split; [exact tr_over_reachable|]. split_and!; vm_compute; reflexivity. Qed.
(** A renter who ends the only order of a machine leaves it as it was: Rented, by
    this renter, with all its GPUs counted as rented, so that nobody can rent it
    again; the order also stays in the renter's list and in the stake recorded
    for the renter. *)
Lemma tr_terminated_machine_stays_rented :
  reachable T vacated ∧ RentOrders (rents vacated.2.1.1) = ∅ ∧ status vacated = Some Rented ∧
  renters <$> MachinesInfo (registry vacated.2.1.1) !! m = Some [1%N] ∧
  machine_rented_gpu (registry vacated.2.1.1) m = 4 ∧
  (dispatch T vacated.1 (Signed 2%N) (RentMachineCall m 1 300) vacated.2).1 = Err (error GPUNotEnough) ∧
  UserRented (rents vacated.2.1.1) !! 1%N = Some [0] ∧
  renter_total_stake (rents vacated.2.1.1) 1%N = 480 ∧ reserved_balance vacated.2.2 1%N = 0.
Proof. split; [exact tr_vacated_reachable|]. split_and!; vm_compute; reflexivity. Qed.
(** A machine that nobody verified is Online after going offline and online. *)
Lemma tr_offline_skips_verification :
  reachable T swapped ∧ status bonded = Some AddingCustomizeInfo ∧ status swapped = Some Online ∧
  bonding_machine (LiveMachines (registry swapped.2.1.1)) = [m].
Proof. split; [exact tr_swapped_reachable|]. split_and!; vm_compute; reflexivity. Qed.
(** A machine that nobody verified may leave: it was online at block 0 as far as
    the check goes. Its deposit is released and stays in the stash's stake, and
    it stays among the machines being bonded. *)
Lemma tr_unverified_exit_keeps_stake :
  reachable T exited ∧ MachinesInfo (registry exited.2.1.1) !! m = None ∧
  stash_stake (registry exited.2.1.1) 9%N = 1000 ∧ reserved_balance exited.2.2 9%N = 0 ∧
  bonding_machine (LiveMachines (registry exited.2.1.1)) = [m].
Proof. split; [exact tr_exited_reachable|]. split_and!; vm_compute; reflexivity. Qed.
(** A machine that is online again stays listed for the end of its time offline:
    ten days later its recorded stake is set to 0, and the balance stays
    reserved. *)
Lemma tr_back_online_loses_stake :
  reachable T back ∧ status back = Some Online ∧ OfflineMachines (registry back.2.1.1) !! 6158703 = Some [m] ∧
  let later := (check_if_offline_timeout 6158703 back.2).2 in
  MachineInfo.stake_amount <$> MachinesInfo (registry back.2.1.1) !! m = Some 228 ∧
  MachineInfo.stake_amount <$> MachinesInfo (registry later.1.1) !! m = Some 0 ∧
  reserved_balance later.2 9%N = 228.
Proof. split; [exact tr_back_reachable|]. cbv zeta. split_and!; vm_compute; reflexivity. Qed.

(** ** Witnesses *)
Lemma tr_pairs {x} : reachable T x → reachable T (x.1, x.2).
Proof. by rewrite <-surjective_pairing. Qed.
Lemma tr_ran {A B} (p : A * B) a : p.1 = a → p = (a, p.2).
Proof. by intros <-; destruct p. Qed.
Lemma tr_half_ran : terminate_rent half.1 (Signed 1%N) 0 half.2 = (Ok tt, (terminate_rent half.1 (Signed 1%N) 0 half.2).2).
Proof. apply tr_ran. vm_compute. reflexivity. Qed.
Lemma tr_half_facts : half.1 = 6000152 ∧
  (∃ i, RentOrders (rents half.2.1.1) !! 0 = Some i ∧ RentOrder.machine_id i = m ∧
     RentOrder.stake_amount i = 120 ∧ rent_start i = 6000002 ∧ rent_end i = 6000302 ∧ gpu_index i = [0]) ∧
  (∃ info, MachinesInfo (registry half.2.1.1) !! m = Some info ∧ machine_stash info = 9%N ∧
     length (MachineInfo.reward_committee info) = 3%nat) ∧
  free_balance half.2.2 1%N = 99870 ∧ reserved_balance half.2.2 1%N = 120.
Proof.
  split; [vm_compute; reflexivity|]. split; [eexists; vm_compute; split_and!; reflexivity|].
  split; [eexists; vm_compute; split_and!; reflexivity|]. split; vm_compute; reflexivity.
Qed.
(** The stake of the order, the owner, and what renter 1 pays in all and to itself. *)
Lemma tr_half_pays i info :
  RentOrders (rents half.2.1.1) !! 0 = Some i →
  MachinesInfo (registry half.2.1.1) !! RentOrder.machine_id i = Some info →
  let fee := fee_for i (Z.max 0 (half.1 - rent_start i)) in
  let paid := (settle 1%N (shares (RentFeePot (rents half.2.1.1)) info fee)
    (unreserve 1%N (RentOrder.stake_amount i) half.2.2).1).1 in
  RentOrder.stake_amount i = 120 ∧ machine_stash info = 9%N ∧ total paid = 60 ∧ received paid 1%N = 0.
Proof.
  intros Hi Hm. vm_compute in Hi. injection Hi as <-. vm_compute in Hm. injection Hm as <-.
  split_and!; vm_compute; reflexivity.
Qed.
Lemma tr_due_facts : due.1 = 6000302 ∧ ids_left due.2.1.1 ∧
  RentMachine.list_at (PendingRentEnding (rents due.2.1.1)) 6000302 = [0; 1] ∧
  (∃ i, RentOrders (rents due.2.1.1) !! 0 = Some i ∧ rent_end i = 6000302) ∧
  (∃ i, RentOrders (rents due.2.1.1) !! 1 = Some i ∧ rent_end i = 6000302).
Proof.
  split; [vm_compute; reflexivity|]. split; [apply (bool_decide_unpack _); vm_compute; reflexivity|].
  split; [vm_compute; reflexivity|]. split; eexists; vm_compute; split; reflexivity.
Qed.
Lemma tr_rented_facts :
  (∃ i, RentOrders (rents rented.2.1.1) !! 0 = Some i ∧ gpu_index i = [0] ∧ RentOrder.machine_id i = m ∧ renter i = 1%N) ∧
  (∃ i, RentOrders (rents rented.2.1.1) !! 1 = Some i ∧ gpu_index i = [1] ∧ RentOrder.machine_id i = m ∧ renter i = 2%N).
Proof. split; eexists; vm_compute; split_and!; reflexivity. Qed.
Lemma tr_voted_facts : ∃ r, MaintainCommittee.ReportInfo (reports voted.2.1.1) !! 0 = Some r ∧
  Report.support_committee r = [3%N].
Proof. eexists. vm_compute. split; reflexivity. Qed.
Lemma tr_online_facts : OnlineCommittee.MachineCommittee (verify online.2.1.1) !! m ≠ None ∧
  VerifyOnline.confirmed_committee (OnlineCommittee.machine_committee (verify online.2.1.1) m) = [3; 4; 5]%N.
Proof. split; [vm_compute; discriminate|vm_compute; reflexivity]. Qed.
#[local] Strategy 1000 [bonded online rented due ended half left_early over vacated voted].

Lemma tr_hooks_never_panic_witness :
  (on_finalize due.1 due.2).1 ≠ Err Panic ∧ (on_initialize (due.1 + 1) (on_finalize due.1 due.2).2).1 ≠ Err Panic.
Proof.
  destruct tr_due_facts as (_ & Hids & _).
  exact (tr_hooks_never_panic T due.1 due.2 (tr_pairs tr_due_reachable) Hids).
Defined.
Lemma tr_reachable_votes_witness :
  ∃ r, MaintainCommittee.ReportInfo (reports voted.2.1.1) !! 0 = Some r ∧ Report.support_committee r = [3%N] ∧
    MaintainVotes.opens (report_config T) 0 r true (MaintainVotes.commitment (reports voted.2.1.1) 0 3%N).
Proof.
  destruct tr_voted_facts as (r & Hr & Hs). exists r. split; [exact Hr|]. split; [exact Hs|].
  pose proof (tr_reachable_votes T voted.1 voted.2 (tr_pairs tr_voted_reachable)) as Hv.
  destruct (MaintainVotes.vi_report _ _ Hv 0 r Hr) as [_ Hi].
  apply (MaintainVotes.ri_support _ _ _ _ Hi). rewrite Hs. left.
Defined.
Lemma tr_reachable_orders_witness :
  rent_order (machine_rent_order (rents rented.2.1.1) m) ≠ [] ∧ 0 ∈ used_gpu (machine_rent_order (rents rented.2.1.1) m) ∧
  1 ∈ RentMachine.list_at (UserRented (rents rented.2.1.1)) 2%N.
Proof.
  destruct tr_rented_facts as [(i & Hi & Hg & Hm & _) (j & Hj & _ & _ & Hn)].
  destruct (tr_reachable_orders T rented.1 rented.2 (tr_pairs tr_rented_reachable)) as (_ & Hl & Hu & _ & _ & Ha).
  split_and!.
  - intros He. assert (0 ∈ rent_order (machine_rent_order (rents rented.2.1.1) m)) as Hin
      by (apply Hl; exists i; split; [exact Hi|exact Hm]).
    rewrite He in Hin. by apply not_elem_of_nil in Hin.
  - apply Hu. exists 0, i. split; [exact Hi|]. split; [exact Hm|]. rewrite Hg. left.
  - apply (Ha 1 j 2%N Hj). exact Hn.
Defined.
Lemma tr_reachable_typed_witness :
  ∃ i, RentOrders (rents half.2.1.1) !! 0 = Some i ∧ TerminatingOrders.order_typed i ∧ TerminatingTyped.Typed half.2.1.1.
Proof.
  destruct tr_half_facts as (_ & (i & Hi & _) & _). exists i. split; [exact Hi|].
  destruct (tr_reachable_typed T half.1 half.2 (tr_pairs tr_half_reachable)) as (Ht & _ & Ho).
  split; [exact (Ho 0 i Hi)|exact Ht].
Defined.
Lemma tr_hook_ends_orders_witness :
  (∃ i, RentOrders (rents due.2.1.1) !! 1 = Some i ∧ rent_end i = due.1) ∧
  RentOrders (rents (on_finalize due.1 due.2).2.1.1) !! 0 = None ∧
  RentOrders (rents (on_finalize due.1 due.2).2.1.1) !! 1 = None.
Proof.
  destruct tr_due_facts as (Ht & Hids & Hl & (i & Hi & Ei) & (j & Hj & Ej)).
  split; [exists j; split; [exact Hj|rewrite Ht; exact Ej]|].
  assert (∀ id, id ∈ RentMachine.list_at (PendingRentEnding (rents due.2.1.1)) due.1 →
    is_Some (RentOrders (rents due.2.1.1) !! id)) as Hfound.
  { rewrite Ht, Hl. intros id Hid. apply elem_of_cons in Hid. destruct Hid as [Hid|Hid]; [subst id; eauto|].
    apply list_elem_of_singleton in Hid. subst id. eauto. }
  pose proof (tr_hook_ends_orders T due.1 due.2 (tr_pairs tr_due_reachable) Hids Hfound) as He.
  split; rewrite He; [rewrite Hi|rewrite Hj]; cbn [mbind option_bind]; (rewrite decide_True; [reflexivity|]);
    rewrite Ht; assumption.
Defined.
Lemma tr_terminate_pays_witness :
  let w' := (terminate_rent half.1 (Signed 1%N) 0 half.2).2 in
  reserved_balance w'.2 1%N = 0 ∧ free_balance w'.2 1%N = 99930 ∧ RentOrders (rents w'.1.1) !! 0 = None.
Proof.
  cbv zeta. destruct tr_half_facts as (Hnow & _ & _ & Hf & Hr).
  destruct (tr_terminate_pays T half.1 1%N 0 half.2 _ (tr_pairs tr_half_reachable) tr_half_ran)
    as (i & info & restaked & Hi & Hm & Ha & _ & _ & _ & _ & _ & Hmv & Ho & _).
  destruct (tr_half_pays i info Hi Hm) as (Hstake & Hst & Ht & Hrc).
  destruct (Hmv 1%N) as [Hfree Hres]. clear Hmv. rewrite Ht, Hrc, Hstake, Hst, Hf, Hr in Hfree.
  rewrite Hstake, Hst, Hr in Hres. split; [exact Hres|]. split; [exact Hfree|].
  rewrite Ho. apply lookup_delete_eq.
Defined.
End TerminatingRuns.
