(* ===== verification/X402.v ===== *)
(** * pallet-x402-settlement

    A merchant's payment intent goes through a facilitator: submitting it
    reserves the amount, the facilitator verifies it, and after a delay it is
    settled to the miner, or it fails or expires and the reserve is released.
    [State] is the pallet's storage (with the events it deposited), one
    definition per dispatchable, hook and helper of
    src/pallets/x402-settlement/src/lib.rs. *)
From stdpp Require Import base gmap fin_maps list numbers relations.
From Stdlib Require Import ZArith Lia.
From S2P Require Import Prelude Currency Interfaces.

Module X402.

Inductive PaymentIntentStatus := Pending | Verified | Settled | Failed.
#[export] Instance PaymentIntentStatus_eq_dec : EqDecision PaymentIntentStatus.
Proof. solve_decision. Defined.

Record PaymentIntent := {
  intent_id : Z;
  merchant : AccountId;
  miner : AccountId;
  amount : Balance;
  nonce : Z;
  replay_fingerprint : H256;
  facilitator_signature : bytes;
  status : PaymentIntentStatus;
  created_at : BlockNumber;
  verified_at : option BlockNumber;
  settled_at : option BlockNumber;
  expires_at : BlockNumber;
}.
#[export] Instance PaymentIntent_eta : RecordEta PaymentIntent := λ i,
  Build_PaymentIntent (intent_id i) (merchant i) (miner i) (amount i) (nonce i)
    (replay_fingerprint i) (facilitator_signature i) (status i) (created_at i)
    (verified_at i) (settled_at i) (expires_at i).

Record SettlementReceipt := {
  rcpt_intent_id : Z;
  rcpt_merchant : AccountId;
  rcpt_miner : AccountId;
  rcpt_amount : Balance;
  rcpt_settled_at : Z;
  rcpt_tx_hash : H256;
}.

Inductive Event :=
| PaymentIntentSubmitted (id : Z) (m n : AccountId) (v : Balance) (nc : Z)
| PaymentIntentVerified (id : Z) (facilitator : AccountId)
| PaymentIntentSettled (id : Z) (m n : AccountId) (v : Balance)
| PaymentIntentFailed (id : Z)
| PaymentIntentExpired (id : Z) (m : AccountId) (v : Balance).

Inductive Error :=
| InvalidNonce
| ReplayFingerprintUsedErr
| InvalidFacilitatorSignature
| PaymentIntentNotFound
| InvalidPaymentIntentStatus
| InsufficientBalance
| SettlementDelayNotMet
| NotAuthorized
| ArithmeticOverflow
| PaymentIntentExpiredErr
| TooManyPendingIntents.

(** The runtime's constants, and the parts of the host the pallet calls: the
    SCALE encoding of the signed message and sr25519 verification. *)
Record Config := {
  FacilitatorAccount : AccountId;
  MaxSignatureLen : Z;
  FacilitatorPublicKey : H256;
  SettlementDelay : BlockNumber;
  PaymentIntentTTL : BlockNumber;
  scale_encode : AccountId → AccountId → Balance → Z → H256 → bytes;
  sr25519_verify : bytes → bytes → H256 → bool;
}.

Record State := {
  NextIntentId : Z;
  PaymentIntents : gmap Z PaymentIntent;
  NonceUsed : gmap (AccountId * Z) bool;
  ReplayFingerprintUsed : gmap H256 bool;
  SettlementReceipts : gmap Z SettlementReceipt;
  PendingIntentIds : list Z;
  events : list Event;
}.
#[export] Instance State_eta : RecordEta State := λ s,
  Build_State (NextIntentId s) (PaymentIntents s) (NonceUsed s)
    (ReplayFingerprintUsed s) (SettlementReceipts s) (PendingIntentIds s) (events s).

Definition genesis : State := {|
  NextIntentId := 0; PaymentIntents := ∅; NonceUsed := ∅; ReplayFingerprintUsed := ∅;
  SettlementReceipts := ∅; PendingIntentIds := []; events := [] |}.

(** The bound of [PendingIntentIds : BoundedVec<u64, ConstU32<10000>>]. *)
Definition MaxPendingIntents : Z := 10000.

Definition contains_key `{Countable K} {V} (m : gmap K V) (k : K) : bool :=
  bool_decide (is_Some (m !! k)).

Section pallet.
Context `{ReservableCurrency L} (T : Config).
Abbreviation MX := (M (State * L) (DispatchError Error)).

Definition deposit_event (e : Event) (s : State) : State :=
  s <| events ::= λ es, es ++ [e] |>.

Definition verify_facilitator_signature (merchant miner : AccountId) (amount : Balance)
    (nonce : Z) (fingerprint : H256) (signature_bytes : bytes) : bool :=
  if negb (Nat.eqb (length signature_bytes) 64) then false
  else sr25519_verify T (take 64 signature_bytes)
         (scale_encode T merchant miner amount nonce fingerprint)
         (FacilitatorPublicKey T).

Definition submit_payment_intent (now : BlockNumber) (origin : Origin) (miner : AccountId)
    (amount : Balance) (nonce : Z) (fingerprint : H256) (signature : bytes) : MX unit :=
  merchant ← ensure_signed origin;
  used ← st_gets (λ s, contains_key (NonceUsed s) (merchant, nonce));
  ensure (negb used) (Module InvalidNonce);;
  replayed ← st_gets (λ s, contains_key (ReplayFingerprintUsed s) fingerprint);
  ensure (negb replayed) (Module ReplayFingerprintUsedErr);;
  ensure (Z.of_nat (length signature) <=? MaxSignatureLen T) (Module ArithmeticOverflow);;
  ensure (verify_facilitator_signature merchant miner amount nonce fingerprint signature)
    (Module InvalidFacilitatorSignature);;
  m_reserve merchant amount (Module InsufficientBalance);;
  intent_id ← st_gets NextIntentId;
  next_intent_id ← ok_or (checked_add U64_MAX intent_id 1) (Module ArithmeticOverflow);
  st_modify (λ s, s <| NextIntentId := next_intent_id |>);;
  st_modify (λ s, s <| NonceUsed ::= <[(merchant, nonce) := true]> |>);;
  st_modify (λ s, s <| ReplayFingerprintUsed ::= <[fingerprint := true]> |>);;
  pending ← st_gets PendingIntentIds;
  ensure (Z.of_nat (length pending) <? MaxPendingIntents) (Module TooManyPendingIntents);;
  st_modify (λ s, s <| PendingIntentIds ::= λ ids, ids ++ [intent_id] |>);;
  st_modify (λ s, s <| PaymentIntents ::= <[intent_id := {|
    intent_id := intent_id; merchant := merchant; miner := miner; amount := amount;
    nonce := nonce; replay_fingerprint := fingerprint;
    facilitator_signature := signature; status := Pending; created_at := now;
    verified_at := None; settled_at := None;
    expires_at := saturating_add U32_MAX now (PaymentIntentTTL T) |}]> |>);;
  st_modify (deposit_event (PaymentIntentSubmitted intent_id merchant miner amount nonce)).

Definition retain_ne (id : Z) (ids : list Z) : list Z := filter (λ x, x ≠ id) ids.

Definition verify_settlement (now : BlockNumber) (origin : Origin) (id : Z) : MX unit :=
  facilitator ← ensure_signed origin;
  ensure (bool_decide (facilitator = FacilitatorAccount T)) (Module NotAuthorized);;
  maybe_intent ← st_gets (λ s, PaymentIntents s !! id);
  intent ← ok_or maybe_intent (Module PaymentIntentNotFound);
  ensure (bool_decide (status intent = Pending)) (Module InvalidPaymentIntentStatus);;
  ensure (now <? expires_at intent) (Module PaymentIntentExpiredErr);;
  st_modify (λ s, s <| PendingIntentIds ::= retain_ne id |>);;
  st_modify (λ s, s <| PaymentIntents ::=
    <[id := intent <| status := Verified |> <| verified_at := Some now |>]> |>);;
  st_modify (deposit_event (PaymentIntentVerified id facilitator)).

(** [H256::from_low_u64_be(id)]: the hash whose low 64 bits are [id]. *)
Definition from_low_u64_be (id : Z) : H256 := Z.to_N id.

Definition finalize_settlement (now : BlockNumber) (origin : Origin) (id : Z) : MX unit :=
  caller ← ensure_signed origin;
  maybe_intent ← st_gets (λ s, PaymentIntents s !! id);
  intent ← ok_or maybe_intent (Module PaymentIntentNotFound);
  ensure (bool_decide (status intent = Verified)) (Module InvalidPaymentIntentStatus);;
  ensure (now <? expires_at intent) (Module PaymentIntentExpiredErr);;
  ensure (bool_decide (caller = merchant intent) || bool_decide (caller = miner intent)
          || bool_decide (caller = FacilitatorAccount T)) (Module NotAuthorized);;
  verified ← ok_or (verified_at intent) (Module InvalidPaymentIntentStatus);
  ensure (saturating_add U32_MAX verified (SettlementDelay T) <=? now)
    (Module SettlementDelayNotMet);;
  m_repatriate (merchant intent) (miner intent) (amount intent)
    (Module InsufficientBalance);;
  st_modify (λ s, s <| PaymentIntents ::=
    <[id := intent <| status := Settled |> <| settled_at := Some now |>]> |>);;
  st_modify (λ s, s <| SettlementReceipts ::= <[id := {|
    rcpt_intent_id := id; rcpt_merchant := merchant intent; rcpt_miner := miner intent;
    rcpt_amount := amount intent; rcpt_settled_at := saturated_into U64_MAX now;
    rcpt_tx_hash := from_low_u64_be id |}]> |>);;
  st_modify (deposit_event
    (PaymentIntentSettled id (merchant intent) (miner intent) (amount intent))).

Definition fail_payment_intent (origin : Origin) (id : Z) : MX unit :=
  facilitator ← ensure_signed origin;
  ensure (bool_decide (facilitator = FacilitatorAccount T)) (Module NotAuthorized);;
  maybe_intent ← st_gets (λ s, PaymentIntents s !! id);
  intent ← ok_or maybe_intent (Module PaymentIntentNotFound);
  ensure (bool_decide (status intent = Pending) || bool_decide (status intent = Verified))
    (Module InvalidPaymentIntentStatus);;
  m_unreserve (merchant intent) (amount intent);;
  st_modify (λ s, s <| PendingIntentIds ::= retain_ne id |>);;
  st_modify (λ s, s <| PaymentIntents ::= <[id := intent <| status := Failed |>]> |>);;
  st_modify (deposit_event (PaymentIntentFailed id)).

(** The body of the hook's loop for one pending id: whether it expired. *)
Definition expire_intent (now : BlockNumber) (id : Z) : MX bool :=
  maybe_intent ← st_gets (λ s, PaymentIntents s !! id);
  match maybe_intent with
  | Some intent =>
      if (expires_at intent <=? now) && bool_decide (status intent = Pending) then
        m_unreserve (merchant intent) (amount intent);;
        st_modify (λ s, s <| PaymentIntents ::= alter (λ i, i <| status := Failed |>) id |>);;
        st_modify (deposit_event (PaymentIntentExpired id (merchant intent) (amount intent)));;
        mret true
      else mret false
  | None => mret false
  end.

Fixpoint expire_intents (now : BlockNumber) (ids : list Z) : MX (list Z) :=
  match ids with
  | [] => mret []
  | id :: ids' =>
      expired ← expire_intent now id;
      rest ← expire_intents now ids';
      mret (if expired : bool then id :: rest else rest)
  end.

(** [on_initialize]; the weight it returns is its (reads, writes). *)
Definition on_initialize (now : BlockNumber) : MX (Z * Z) :=
  pending ← st_gets PendingIntentIds;
  expired_ids ← expire_intents now pending;
  (if Nat.eqb (length expired_ids) 0 then mret tt
   else st_modify (λ s, s <| PendingIntentIds ::= filter (λ id, id ∉ expired_ids) |>));;
  let total_checked := Z.of_nat (length pending) in
  let expired_count := Z.of_nat (length expired_ids) in
  mret (saturating_add U64_MAX total_checked 1,
        saturating_add U64_MAX (saturating_mul U64_MAX expired_count 2) 1).

(** [AttestationSettler::settle_for_attestation]; its error is a message,
    which no caller reads. *)
Inductive SettleError := IntentIdOverflow | TransferFailed.

Definition settle_for_attestation (now : BlockNumber) (merchant miner : AccountId)
    (amount : Balance) (attestation_id : Z) : M (State * L) SettleError Z :=
  intent_id ← st_gets NextIntentId;
  next_id ← ok_or (checked_add U64_MAX intent_id 1) IntentIdOverflow;
  st_modify (λ s, s <| NextIntentId := next_id |>);;
  m_transfer merchant miner amount KeepAlive TransferFailed;;
  st_modify (λ s, s <| SettlementReceipts ::= <[intent_id := {|
    rcpt_intent_id := intent_id; rcpt_merchant := merchant; rcpt_miner := miner;
    rcpt_amount := amount; rcpt_settled_at := saturated_into U64_MAX now;
    rcpt_tx_hash := from_low_u64_be intent_id |}]> |>);;
  st_modify (deposit_event (PaymentIntentSettled intent_id merchant miner amount));;
  mret intent_id.

Definition get_payment_intent (s : State) (id : Z) : option PaymentIntent :=
  PaymentIntents s !! id.
Definition get_settlement_receipt (s : State) (id : Z) : option SettlementReceipt :=
  SettlementReceipts s !! id.
Definition is_nonce_used (s : State) (account : AccountId) (nonce : Z) : bool :=
  contains_key (NonceUsed s) (account, nonce).
Definition is_replay_fingerprint_used (s : State) (fingerprint : H256) : bool :=
  contains_key (ReplayFingerprintUsed s) fingerprint.

(** ** The pallet as a state machine *)

Inductive Call :=
| SubmitPaymentIntent (miner : AccountId) (amount : Balance) (nonce : Z)
    (fingerprint : H256) (signature : bytes)
| VerifySettlement (id : Z)
| FinalizeSettlement (id : Z)
| FailPaymentIntent (id : Z).

(** The arguments are in the range of their types. *)
Definition call_typed (c : Call) : Prop :=
  match c with
  | SubmitPaymentIntent _ v n _ _ => 0 ≤ v ≤ U128_MAX ∧ 0 ≤ n ≤ U64_MAX
  | _ => True
  end.

Definition dispatch (now : BlockNumber) (o : Origin) (c : Call) : MX unit :=
  transactional
    match c with
    | SubmitPaymentIntent n v nc fp sig => submit_payment_intent now o n v nc fp sig
    | VerifySettlement id => verify_settlement now o id
    | FinalizeSettlement id => finalize_settlement now o id
    | FailPaymentIntent id => fail_payment_intent o id
    end.
End pallet.

(** ** What the pallet holds, and its invariant *)

Definition live (i : PaymentIntent) : bool :=
  bool_decide (status i = Pending) || bool_decide (status i = Verified).

Definition owed (a : AccountId) (i : PaymentIntent) : Z :=
  if live i && bool_decide (merchant i = a) then amount i else 0.

#[export] Instance custodian : Custodian State :=
  λ s a, msum (λ _, owed a) (PaymentIntents s).

(** The receipt a settled intent must have. *)
Definition receipt_matches (id : Z) (i : PaymentIntent) (r : SettlementReceipt) : Prop :=
  rcpt_intent_id r = id ∧ rcpt_merchant r = merchant i ∧ rcpt_miner r = miner i ∧
  rcpt_amount r = amount i.

(** The timeline of one intent at block [now]. *)
Definition timeline_ok (T : Config) (now : BlockNumber) (i : PaymentIntent) : Prop :=
  match status i with
  | Pending => verified_at i = None ∧ settled_at i = None
  | Verified => settled_at i = None ∧
      ∃ v, verified_at i = Some v ∧ created_at i ≤ v ≤ now ∧ v < expires_at i
  | Settled => ∃ v t, verified_at i = Some v ∧ settled_at i = Some t ∧
      created_at i ≤ v ≤ now ∧ saturating_add U32_MAX v (SettlementDelay T) ≤ t ≤ now ∧
      t < expires_at i
  | Failed => settled_at i = None
  end ∧ created_at i ≤ now.

Record Inv (T : Config) (now : BlockNumber) (s : State) : Prop := {
  inv_next : 0 ≤ NextIntentId s;
  inv_intent id i : PaymentIntents s !! id = Some i →
    0 ≤ id < NextIntentId s ∧ intent_id i = id ∧ 0 ≤ amount i ∧
    is_Some (NonceUsed s !! (merchant i, nonce i)) ∧
    is_Some (ReplayFingerprintUsed s !! replay_fingerprint i) ∧ timeline_ok T now i;
  inv_nonce id1 i1 id2 i2 :
    PaymentIntents s !! id1 = Some i1 → PaymentIntents s !! id2 = Some i2 →
    merchant i1 = merchant i2 → nonce i1 = nonce i2 → id1 = id2;
  inv_fingerprint id1 i1 id2 i2 :
    PaymentIntents s !! id1 = Some i1 → PaymentIntents s !! id2 = Some i2 →
    replay_fingerprint i1 = replay_fingerprint i2 → id1 = id2;
  inv_pending id : id ∈ PendingIntentIds s ↔
    ∃ i, PaymentIntents s !! id = Some i ∧ status i = Pending;
  inv_pending_nodup : NoDup (PendingIntentIds s);
  inv_pending_bound : Z.of_nat (length (PendingIntentIds s)) ≤ MaxPendingIntents;
  inv_receipt id r : SettlementReceipts s !! id = Some r → 0 ≤ id < NextIntentId s;
  inv_settled id i : PaymentIntents s !! id = Some i →
    if bool_decide (status i = Settled)
    then ∃ r, SettlementReceipts s !! id = Some r ∧ receipt_matches id i r
    else SettlementReceipts s !! id = None;
}.

Section theory.
Context `{ReservableCurrencyLaws L} (T : Config).
Implicit Types (s : State) (l : L) (i : PaymentIntent).

(** What the pallet itself does in one step, at which block. *)
Inductive pallet_step : BlockNumber * (State * L) → BlockNumber * (State * L) → Prop :=
| step_call now w o c :
    call_typed c → pallet_step (now, w) (now, (dispatch T now o c w).2)
| step_block now w :
    pallet_step (now, w) (now + 1, (on_initialize (now + 1) w).2)
| step_settle now w m n v aid :
    0 ≤ v ≤ U128_MAX →
    pallet_step (now, w) (now, (settle_for_attestation now m n v aid w).2).

(** Other pallets may change the ledger in between. *)
Inductive step : BlockNumber * (State * L) → BlockNumber * (State * L) → Prop :=
| step_pallet c c' : pallet_step c c' → step c c'
| step_ledger now s l l' : step (now, (s, l)) (now, (s, l')).

Definition reachable (c : BlockNumber * (State * L)) : Prop :=
  ∃ l, rtc step (0, (genesis, l)) c.

Lemma elem_of_retain_ne id id' ids : id' ∈ retain_ne id ids ↔ id' ∈ ids ∧ id' ≠ id.
Proof. unfold retain_ne. rewrite list_elem_of_filter. naive_solver. Qed.

(** *** Replacing one live intent by its next stage *)

Definition same_core i i' : Prop :=
  intent_id i' = intent_id i ∧ merchant i' = merchant i ∧ miner i' = miner i ∧
  amount i' = amount i ∧ nonce i' = nonce i ∧
  replay_fingerprint i' = replay_fingerprint i ∧ created_at i' = created_at i ∧
  expires_at i' = expires_at i.

(** An entry of the map after [id] got the next stage of its intent is an
    old entry up to the stage, so what holds of the cores still holds. *)
Lemma lookup_advance (m : gmap Z PaymentIntent) id i i' k j :
  m !! id = Some i → same_core i i' → <[id := i']> m !! k = Some j →
  ∃ j0, m !! k = Some j0 ∧ same_core j0 j ∧ (k = id → j0 = i ∧ j = i') ∧ (k ≠ id → j = j0).
Proof.
  intros Hi Hc [[<- <-]|[Hne Hj]]%lookup_insert_Some.
  - exists i. naive_solver.
  - exists j. unfold same_core. naive_solver.
Qed.

Lemma Inv_advance now s s' id i i' :
  Inv T now s → PaymentIntents s !! id = Some i →
  PaymentIntents s' = <[id := i']> (PaymentIntents s) → live i = true →
  same_core i i' → status i' ≠ Pending → timeline_ok T now i' →
  PendingIntentIds s' = retain_ne id (PendingIntentIds s) →
  NextIntentId s' = NextIntentId s → NonceUsed s' = NonceUsed s →
  ReplayFingerprintUsed s' = ReplayFingerprintUsed s →
  (if bool_decide (status i' = Settled)
   then ∃ r, receipt_matches id i' r ∧ SettlementReceipts s' = <[id := r]> (SettlementReceipts s)
   else SettlementReceipts s' = SettlementReceipts s) →
  Inv T now s'.
Proof.
  intros I Hi Hm Hlive Hc Hnp Ht Hp Hn Hnu Hru Hr. destruct I as [I0 I1 I2 I3 I4 I5 I6 I7 I8].
  pose proof (λ k j, lookup_advance _ id i i' k j Hi Hc) as Hla.
  assert (Hi_settled : SettlementReceipts s !! id = None).
  { specialize (I8 id i Hi). unfold live in Hlive.
    destruct (status i); try done; by rewrite bool_decide_eq_false_2 in I8. }
  split; rewrite ?Hm, ?Hp, ?Hn, ?Hnu, ?Hru; try done.
  - intros k j Hk. destruct (Hla k j Hk) as (j0 & Hj0 & Hcj & He & Hne).
    destruct (I1 k j0 Hj0) as (? & ? & ? & ? & ? & ?). unfold same_core in Hcj.
    destruct Hcj as (-> & -> & _ & -> & -> & -> & _). split_and!; try done; try lia.
    destruct (decide (k = id)) as [Heq|Hk']; [by destruct (He Heq) as [_ ->]|by rewrite Hne].
  - intros k1 j1 k2 j2 (x1 & ? & Hc1 & _)%Hla (x2 & ? & Hc2 & _)%Hla.
    destruct Hc1 as (_ & -> & _ & _ & -> & _), Hc2 as (_ & -> & _ & _ & -> & _). eauto.
  - intros k1 j1 k2 j2 (x1 & ? & Hc1 & _)%Hla (x2 & ? & Hc2 & _)%Hla.
    destruct Hc1 as (_ & _ & _ & _ & _ & -> & _), Hc2 as (_ & _ & _ & _ & _ & -> & _). eauto.
  - intros k. rewrite elem_of_retain_ne, I4. split.
    + intros [(j & Hj & ?) Hne]. exists j. by rewrite lookup_insert_ne.
    + intros (j & [[<- <-]|[Hne Hj]]%lookup_insert_Some & Hst); [done|]. naive_solver.
  - unfold retain_ne. by apply NoDup_filter.
  - etrans; [|exact I6]. unfold retain_ne. apply inj_le, length_filter.
  - intros k r Hk. case_bool_decide.
    + destruct Hr as (r0 & _ & Hr). rewrite Hr in Hk.
      apply lookup_insert_Some in Hk as [[<- _]|[_ Hk]]; [|eauto]. by destruct (I1 id i Hi).
    + rewrite Hr in Hk. eauto.
  - intros k j [[<- <-]|[Hne Hj]]%lookup_insert_Some.
    + case_bool_decide; [|by rewrite Hr]. destruct Hr as (r & ? & ->).
      exists r. by rewrite lookup_insert_eq.
    + replace (SettlementReceipts s' !! k) with (SettlementReceipts s !! k); [by apply I8|].
      case_bool_decide; [destruct Hr as (r & _ & ->); by rewrite lookup_insert_ne|by rewrite Hr].
Qed.

Lemma x402_Inv_later now now' s : now ≤ now' → Inv T now s → Inv T now' s.
Proof.
  intros Hle [I0 I1 I2 I3 I4 I5 I6 I7 I8]. split; try done.
  intros id i Hi. destruct (I1 id i Hi) as (? & ? & ? & ? & ? & [Ht ?]). split_and!; try done; try lia.
  split; [|lia]. destruct (status i); [done| | |done].
  - destruct Ht as (? & v & ?). naive_solver lia.
  - destruct Ht as (v & t & ?). exists v, t. naive_solver lia.
Qed.

(** *** Adding a fresh intent *)
Lemma Inv_submit now s s' i :
  Inv T now s → PaymentIntents s' = <[NextIntentId s := i]> (PaymentIntents s) →
  status i = Pending → intent_id i = NextIntentId s → 0 ≤ amount i →
  verified_at i = None → settled_at i = None → created_at i = now →
  NonceUsed s !! (merchant i, nonce i) = None →
  ReplayFingerprintUsed s !! replay_fingerprint i = None →
  Z.of_nat (length (PendingIntentIds s)) < MaxPendingIntents →
  PendingIntentIds s' = PendingIntentIds s ++ [NextIntentId s] →
  NextIntentId s' = NextIntentId s + 1 →
  NonceUsed s' = <[(merchant i, nonce i) := true]> (NonceUsed s) →
  ReplayFingerprintUsed s' = <[replay_fingerprint i := true]> (ReplayFingerprintUsed s) →
  SettlementReceipts s' = SettlementReceipts s →
  Inv T now s'.
Proof.
  intros [I0 I1 I2 I3 I4 I5 I6 I7 I8] Hm Hst Hid Ham Hv Hse Hcr Hnu Hru Hb Hp Hn Hnu' Hru' Hr.
  assert (Hfresh : PaymentIntents s !! NextIntentId s = None).
  { apply eq_None_not_Some. intros [j Hj]. destruct (I1 _ _ Hj). lia. }
  assert (Hnp : NextIntentId s ∉ PendingIntentIds s) by (rewrite I4; naive_solver).
  split; rewrite ?Hm, ?Hp, ?Hn, ?Hnu', ?Hru', ?Hr; try lia.
  - intros k j [[<- <-]|[Hne Hj]]%lookup_insert_Some.
    + rewrite !lookup_insert_eq. unfold timeline_ok. rewrite Hst, Hcr.
      solve_facts.
    + destruct (I1 k j Hj) as (? & ? & ? & ? & ? & ?). split_and!; try done; try lia.
      * destruct (decide ((merchant i, nonce i) = (merchant j, nonce j))) as [->|?];
          [by rewrite lookup_insert_eq|by rewrite lookup_insert_ne].
      * destruct (decide (replay_fingerprint i = replay_fingerprint j)) as [->|?];
          [by rewrite lookup_insert_eq|by rewrite lookup_insert_ne].
  - intros k1 j1 k2 j2 [[<- <-]|[? Hj1]]%lookup_insert_Some
      [[<- <-]|[? Hj2]]%lookup_insert_Some Hme Hne; [done| | |eauto].
    + destruct (I1 _ _ Hj2) as (_ & _ & _ & [x Hx] & _). rewrite <-Hme, <-Hne, Hnu in Hx. done.
    + destruct (I1 _ _ Hj1) as (_ & _ & _ & [x Hx] & _). rewrite Hme, Hne, Hnu in Hx. done.
  - intros k1 j1 k2 j2 [[<- <-]|[? Hj1]]%lookup_insert_Some
      [[<- <-]|[? Hj2]]%lookup_insert_Some Hf; [done| | |eauto].
    + destruct (I1 _ _ Hj2) as (_ & _ & _ & _ & [x Hx] & _). rewrite <-Hf, Hru in Hx. done.
    + destruct (I1 _ _ Hj1) as (_ & _ & _ & _ & [x Hx] & _). rewrite Hf, Hru in Hx. done.
  - intros k. rewrite elem_of_app, list_elem_of_singleton, I4. split.
    + intros [(j & Hj & ?)| ->]; [|exists i; by rewrite lookup_insert_eq].
      exists j. rewrite lookup_insert_ne; naive_solver.
    + intros (j & [[<- <-]|[? Hj]]%lookup_insert_Some & ?); naive_solver.
  - apply NoDup_app. split_and!; [done| |apply NoDup_singleton].
    intros x Hx ->%list_elem_of_singleton. done.
  - rewrite length_app. simpl. lia.
  - intros k r Hk. specialize (I7 k r Hk). lia.
  - intros k j [[<- <-]|[? Hj]]%lookup_insert_Some; [|by apply I8].
    rewrite bool_decide_eq_false_2 by (by rewrite Hst).
    apply eq_None_not_Some. intros [r Hk]. specialize (I7 _ _ Hk). lia.
Qed.

(** *** A direct settlement only takes an id and may leave a receipt *)
Lemma Inv_settle now s s' r :
  Inv T now s → NextIntentId s' = NextIntentId s + 1 →
  PaymentIntents s' = PaymentIntents s → PendingIntentIds s' = PendingIntentIds s →
  NonceUsed s' = NonceUsed s → ReplayFingerprintUsed s' = ReplayFingerprintUsed s →
  SettlementReceipts s' = SettlementReceipts s ∨
  SettlementReceipts s' = <[NextIntentId s := r]> (SettlementReceipts s) →
  Inv T now s'.
Proof.
  intros [I0 I1 I2 I3 I4 I5 I6 I7 I8] Hn Hm Hp Hnu Hru Hr.
  split; rewrite ?Hm, ?Hp, ?Hn, ?Hnu, ?Hru; try done; try lia.
  - intros k j Hj. destruct (I1 k j Hj). split; [lia|done].
  - intros k x Hk. destruct Hr as [Hr|Hr]; rewrite Hr in Hk; [specialize (I7 _ _ Hk); lia|].
    apply lookup_insert_Some in Hk as [[<- _]|[_ Hk]]; [lia|]. specialize (I7 _ _ Hk). lia.
  - intros k j Hj. replace (SettlementReceipts s' !! k) with (SettlementReceipts s !! k).
    { by apply I8. }
    destruct Hr as [->| ->]; [done|]. rewrite lookup_insert_ne; [done|].
    destruct (I1 k j Hj). lia.
Qed.

(** *** The expiry hook

    [expire] is the hook's effect on one intent; [due] says which ids it
    reports as expired. *)
Definition expired (now : BlockNumber) i : bool :=
  (expires_at i <=? now) && bool_decide (status i = Pending).
Definition expire (now : BlockNumber) i : PaymentIntent :=
  if expired now i then i <| status := Failed |> else i.
Definition due (now : BlockNumber) s (id : Z) : bool :=
  from_option (expired now) false (PaymentIntents s !! id).

(** Same storage up to the intents and the events. *)
Definition same_rest s s' : Prop :=
  NextIntentId s' = NextIntentId s ∧ NonceUsed s' = NonceUsed s ∧
  ReplayFingerprintUsed s' = ReplayFingerprintUsed s ∧
  SettlementReceipts s' = SettlementReceipts s ∧ PendingIntentIds s' = PendingIntentIds s.

Lemma expire_intent_run now id s l : ∃ s' l',
  expire_intent now id (s, l) = (Ok (due now s id), (s', l')) ∧ same_rest s s' ∧
  PaymentIntents s' = alter (expire now) id (PaymentIntents s) ∧
  l' = (if due now s id
        then from_option (λ i, (unreserve (merchant i) (amount i) l).1) l (PaymentIntents s !! id)
        else l).
Proof.
  unfold expire_intent, due, st_gets, gets, mbind, M_bind; simpl.
  destruct (PaymentIntents s !! id) as [i|] eqn:Hi; simpl; unfold expired.
  - destruct (_ && _) eqn:Hex.
    + unfold m_unreserve. simpl. destruct (unreserve (merchant i) (amount i) l) as [l' r] eqn:Hu.
      simpl. eexists _, _. split_and!; [done|done| |done].
      apply alter_ext. intros j Hj. simplify_eq. unfold expire, expired. by rewrite Hex.
    + exists s, l. split_and!; try done. symmetry. apply alter_id.
      intros j Hj. simplify_eq. unfold expire, expired. by rewrite Hex.
  - exists s, l. split_and!; try done. symmetry. apply alter_id. naive_solver.
Qed.

Lemma expire_intents_run now ids s l :
  NoDup ids → ∃ s' l',
    expire_intents now ids (s, l) = (Ok (filter (λ id, due now s id = true) ids), (s', l')) ∧
    same_rest s s' ∧
    ∀ k, PaymentIntents s' !! k =
      if decide (k ∈ ids) then expire now <$> PaymentIntents s !! k else PaymentIntents s !! k.
Proof.
  revert s l. induction ids as [|id ids IH]; intros s l Hnd.
  { exists s, l. by split_and!. }
  apply NoDup_cons in Hnd as [Hni Hnd]. simpl expire_intents.
  destruct (expire_intent_run now id s l) as (s1 & l1 & Hrun & Hr1 & Hm1 & _).
  destruct (IH s1 l1 Hnd) as (s2 & l2 & Hrun2 & Hr2 & Hm2).
  assert (Hdue : ∀ k, k ∈ ids → due now s1 k = due now s k).
  { intros k Hk. unfold due. rewrite Hm1, lookup_alter_ne; [done|]. by intros ->. }
  exists s2, l2. split_and!.
  - unfold mbind at 1, M_bind at 1. rewrite Hrun. unfold mbind, M_bind. rewrite Hrun2.
    simpl. repeat f_equal. rewrite filter_cons.
    rewrite (filter_agree _ (λ k, due now s k = true)) by (intros; by rewrite Hdue).
    by destruct (due now s id).
  - unfold same_rest in *. naive_solver congruence.
  - intros k. rewrite Hm2, Hm1. rewrite lookup_alter.
    destruct (decide (id = k)) as [->|Hne].
    + rewrite (decide_False (P := k ∈ ids)), (decide_True (P := k ∈ k :: ids)) by set_solver. done.
    + destruct (decide (k ∈ ids)); [rewrite decide_True|rewrite decide_False]; set_solver.
Qed.

Lemma on_initialize_run now0 now s l :
  Inv T now0 s → ∃ rw s' l',
    on_initialize now (s, l) = (Ok rw, (s', l')) ∧
    PaymentIntents s' = expire now <$> PaymentIntents s ∧
    PendingIntentIds s' = filter (λ id, due now s id = false) (PendingIntentIds s) ∧
    NextIntentId s' = NextIntentId s ∧ NonceUsed s' = NonceUsed s ∧
    ReplayFingerprintUsed s' = ReplayFingerprintUsed s ∧
    SettlementReceipts s' = SettlementReceipts s.
Proof.
  intros I. destruct (expire_intents_run now (PendingIntentIds s) s l (inv_pending_nodup _ _ _ I))
    as (s1 & l1 & Hrun & (Hn & Hnu & Hru & Hr & Hp) & Hm).
  set (ex := filter (λ id, due now s id = true) (PendingIntentIds s)) in *.
  assert (Hmap : PaymentIntents s1 = expire now <$> PaymentIntents s).
  { apply map_eq. intros k. rewrite Hm, lookup_fmap. destruct (decide _) as [|Hk]; [done|].
    destruct (PaymentIntents s !! k) as [i|] eqn:Hi; [|done]. simpl. unfold expire, expired.
    rewrite (bool_decide_eq_false_2 (status i = Pending)); [by rewrite andb_false_r|].
    intros ?. apply Hk, (inv_pending _ _ _ I). eauto. }
  assert (Hfil : filter (λ id, id ∉ ex) (PendingIntentIds s) =
                 filter (λ id, due now s id = false) (PendingIntentIds s)).
  { apply filter_agree. intros id Hid. unfold ex. rewrite list_elem_of_filter.
    destruct (due now s id); naive_solver. }
  unfold on_initialize, st_gets, gets. unfold mbind, M_bind; simpl. rewrite Hrun.
  destruct (Nat.eqb_spec (length ex) 0) as [He|_]; simpl; eexists _, _, _;
    split_and!; try done; [|by rewrite Hp].
  rewrite Hp, <-Hfil, (nil_length_inv ex He). symmetry. apply filter_all. set_solver.
Qed.

Lemma expire_core now i : same_core i (expire now i).
Proof. unfold expire. by destruct (expired now i). Qed.

Lemma timeline_expire now i : timeline_ok T now i → timeline_ok T now (expire now i).
Proof.
  unfold expire, expired. destruct (expires_at i <=? now); [|done].
  case_bool_decide as Hp; simpl; [|done]. unfold timeline_ok; simpl. rewrite Hp. naive_solver.
Qed.

Lemma expire_status now i :
  (status (expire now i) = Pending ↔ status i = Pending ∧ expired now i = false) ∧
  (status (expire now i) = Settled ↔ status i = Settled).
Proof.
  unfold expire. destruct (expired now i) eqn:He; simpl; [|naive_solver].
  unfold expired in He. apply andb_true_iff in He as [_ Hp%bool_decide_eq_true].
  rewrite Hp. naive_solver.
Qed.

Lemma Inv_expire now s s' :
  Inv T now s → PaymentIntents s' = expire now <$> PaymentIntents s →
  PendingIntentIds s' = filter (λ id, due now s id = false) (PendingIntentIds s) →
  NextIntentId s' = NextIntentId s → NonceUsed s' = NonceUsed s →
  ReplayFingerprintUsed s' = ReplayFingerprintUsed s →
  SettlementReceipts s' = SettlementReceipts s → Inv T now s'.
Proof.
  intros [I0 I1 I2 I3 I4 I5 I6 I7 I8] Hm Hp Hn Hnu Hru Hr.
  split; rewrite ?Hm, ?Hp, ?Hn, ?Hnu, ?Hru, ?Hr; try done.
  - intros k j (i & <- & Hi)%lookup_fmap_Some. destruct (I1 k i Hi) as (? & ? & ? & ? & ? & ?).
    destruct (expire_core now i) as (-> & -> & _ & -> & -> & -> & _).
    split_and!; try done; try lia. by apply timeline_expire.
  - intros k1 j1 k2 j2 (i1 & <- & Hi1)%lookup_fmap_Some (i2 & <- & Hi2)%lookup_fmap_Some.
    destruct (expire_core now i1) as (_ & -> & _ & _ & -> & _).
    destruct (expire_core now i2) as (_ & -> & _ & _ & -> & _). eauto.
  - intros k1 j1 k2 j2 (i1 & <- & Hi1)%lookup_fmap_Some (i2 & <- & Hi2)%lookup_fmap_Some.
    destruct (expire_core now i1) as (_ & _ & _ & _ & _ & -> & _).
    destruct (expire_core now i2) as (_ & _ & _ & _ & _ & -> & _). eauto.
  - intros k. rewrite list_elem_of_filter, I4. unfold due. setoid_rewrite lookup_fmap_Some. split.
    + intros (Hd & i & Hi & Hst). rewrite Hi in Hd. exists (expire now i).
      split; [eauto|]. by apply expire_status.
    + intros (j & (i & <- & Hi) & [Hst He]%expire_status). rewrite Hi. eauto.
  - by apply NoDup_filter.
  - etrans; [|exact I6]. apply inj_le, length_filter.
  - intros k j (i & <- & Hi)%lookup_fmap_Some. specialize (I8 k i Hi).
    destruct (expire_status now i) as [_ Hs]. rewrite (bool_decide_ext _ _ Hs).
    case_bool_decide; [|done]. unfold receipt_matches in *.
    destruct (expire_core now i) as (_ & -> & -> & -> & _). done.
Qed.

Lemma contains_key_false `{Countable K} {V} (m : gmap K V) k :
  contains_key m k = false ↔ m !! k = None.
Proof. unfold contains_key. rewrite bool_decide_eq_false, <-eq_None_not_Some. done. Qed.

Lemma live_spec i : live i = true ↔ status i = Pending ∨ status i = Verified.
Proof. unfold live. rewrite orb_true_iff, !bool_decide_eq_true. done. Qed.

Lemma x402_Inv_dispatch now o c w :
  call_typed c → Inv T now w.1 → Inv T now (dispatch T now o c w).2.1.
Proof.
  intros Hty I. destruct w as [s l]. unfold dispatch.
  apply (transactional_preserves (λ w, Inv T now w.1)); [done|]. intros a [s' l'] Hrun.
  destruct c as [n v nc fp sg|id|id|id]; simpl in *.
  - unfold submit_payment_intent in Hrun. run_inv.
    eapply Inv_submit; [exact I|reflexivity|..]; simpl; try done; try lia;
      by apply contains_key_false.
  - unfold verify_settlement in Hrun. run_inv. pose proof (inv_intent _ _ _ I id _ ltac:(eassumption))
      as (_ & _ & _ & _ & _ & [Ht Hcr]).
    eapply Inv_advance; [exact I|eassumption|reflexivity|..]; simpl; try done; [apply live_spec; auto|].
    split; [|done]. simpl. destruct (status _); naive_solver lia.
  - unfold finalize_settlement in Hrun. run_inv. pose proof (inv_intent _ _ _ I id _ ltac:(eassumption))
      as (_ & _ & _ & _ & _ & [Ht Hcr]).
    eapply Inv_advance; [exact I|eassumption|reflexivity|..]; simpl; try done; [apply live_spec; auto|..].
    + split; [|done]. simpl. destruct (status _); try done. destruct Ht as (_ & v & Hv & ?).
      simplify_eq. eexists _, now. solve_facts.
    + symmetry. apply filter_all. intros k Hk%(inv_pending _ _ _ I) ->. naive_solver congruence.
    + eexists. split; [|reflexivity]. done.
  - unfold fail_payment_intent in Hrun. run_inv. pose proof (inv_intent _ _ _ I id _ ltac:(eassumption))
      as (_ & _ & _ & _ & _ & [Ht Hcr]).
    eapply Inv_advance; [exact I|eassumption|reflexivity|..]; simpl; try done.
    split; [|done]. simpl. match goal with Hl : _ || _ = true |- _ =>
      apply live_spec in Hl as [Hs|Hs]; rewrite Hs in Ht end; naive_solver.
Qed.

Lemma Inv_settlement now m n v aid w :
  Inv T now w.1 → Inv T now (settle_for_attestation now m n v aid w).2.1.
Proof.
  intros I. destruct w as [s l]. unfold settle_for_attestation, m_transfer.
  unfold st_gets, gets, ok_or, mbind, M_bind; simpl.
  destruct (checked_add U64_MAX (NextIntentId s) 1) eqn:Hn; [|done]. guard_inv. subst. simpl.
  destruct (transfer m n v KeepAlive l); simpl; (eapply (Inv_settle now s); [exact I|..]);
    simpl; eauto.
  Unshelve. by split.
Qed.

Lemma x402_Inv_step c c' : step c c' → Inv T c.1 c.2.1 → Inv T c'.1 c'.2.1.
Proof.
  intros Hstep I. destruct Hstep as [c c' Hstep|now s l l']; [|done].
  destruct Hstep as [now w o c Hty|now [s l]|now w m n v aid Hv]; simpl in *.
  - by apply x402_Inv_dispatch.
  - apply (x402_Inv_later now (now + 1)) in I; [|lia].
    destruct (on_initialize_run (now + 1) (now + 1) s l I) as (rw & s' & l' & -> & ?). simpl.
    naive_solver eauto using Inv_expire.
  - by apply Inv_settlement.
Qed.

Lemma x402_Inv_genesis now : Inv T now genesis.
Proof.
  split; simpl; try done; [|constructor].
  intros k. rewrite elem_of_nil. setoid_rewrite lookup_empty. naive_solver.
Qed.

Lemma x402_Inv_reachable c : reachable c → Inv T c.1 c.2.1.
Proof.
  intros [l Hr]. 
  refine (rtc_invariant _ (λ c, Inv T c.1 c.2.1) _ _ _ _ Hr); [apply x402_Inv_step|apply x402_Inv_genesis].
Qed.

(** *** What a change of one intent does to the held funds *)

Lemma held_advance s s' id i i' a :
  PaymentIntents s !! id = Some i → PaymentIntents s' = <[id := i']> (PaymentIntents s) →
  held s' a = held s a - owed a i + owed a i'.
Proof. intros Hi Hm. unfold held, custodian. rewrite Hm.
  by apply (msum_insert_Some (λ _, owed a)). Qed.

Lemma owed_live a i : live i = true → owed a i = at_account (merchant i) (amount i) a.
Proof.
  intros Hl. unfold owed, at_account. rewrite Hl. simpl. repeat case_decide || case_bool_decide; congruence.
Qed.
Lemma owed_dead a i : live i = false → owed a i = 0.
Proof. intros Hl. unfold owed. by rewrite Hl. Qed.

(** Retiring a live intent together with its reserve keeps the pallet solvent. *)
Lemma solvent_retire ext s s' l l' id i i' df :
  PaymentIntents s !! id = Some i → PaymentIntents s' = <[id := i']> (PaymentIntents s) →
  live i = true → live i' = false → 0 ≤ amount i →
  moves l l' df (at_account (merchant i) (- Z.min (amount i) (reserved_balance l (merchant i)))) →
  solvent ext (s, l) → solvent ext (s', l').
Proof.
  intros Hi Hm Hl Hl' Ha Hmv. eapply solvent_release; [exact Ha|exact Hmv|].
  intros b. rewrite (held_advance _ _ _ _ _ b Hi Hm), (owed_live b i Hl), (owed_dead b i' Hl'). lia.
Qed.

Lemma x402_solvent_dispatch ext now o c w :
  call_typed c → Inv T now w.1 → solvent ext w → solvent ext (dispatch T now o c w).2.
Proof.
  intros Hty I Hs. destruct w as [s l]. apply (transactional_preserves (solvent ext)); [done|].
  intros a [s' l'] Hrun. destruct c as [n v nc fp sg|id|id|id]; simpl in *.
  - unfold submit_payment_intent in Hrun. run_inv. eapply solvent_reserve; [|eassumption| |exact Hs]; [lia|].
    intros b. unfold held, custodian; simpl. rewrite msum_insert_None; [rewrite owed_live by done; simpl; lia|].
    apply eq_None_not_Some. intros [j Hj]. destruct (inv_intent _ _ _ I _ _ Hj). lia.
  - unfold verify_settlement in Hrun. run_inv. revert Hs. apply solvent_reserved. intros b.
    erewrite (held_advance s _ id _ _ b); [|eassumption|reflexivity].
    rewrite !owed_live by (apply live_spec; simpl; auto). simpl. lia.
  - unfold finalize_settlement in Hrun. run_inv. 
    pose proof (inv_intent _ _ _ I id _ ltac:(eassumption)) as (_ & _ & Ha & _).
    eapply solvent_retire; [eassumption|reflexivity|apply live_spec; auto|done|done| |exact Hs].
    match goal with Hr : repatriate_reserved _ _ _ _ = _ |- _ =>
      apply (repatriate_spec _ _ _ _ _ _ Ha Hr) end.
  - unfold fail_payment_intent in Hrun. run_inv. 
    pose proof (inv_intent _ _ _ I id _ ltac:(eassumption)) as (_ & _ & Ha & _).
    eapply solvent_retire; [eassumption|reflexivity|done|done|done| |exact Hs].
    by apply unreserve_spec.
Qed.

(** *** The money the expiry hook moves *)

(** What the intents that are due at [now] would give back to [a]. *)
Definition refunds (now : BlockNumber) s (a : AccountId) : Z :=
  msum (λ _ i, if expired now i then owed a i else 0) (PaymentIntents s).

Definition amounts_ok s : Prop := ∀ id i, PaymentIntents s !! id = Some i → 0 ≤ amount i.

(** [free + refunds] and [reserved - refunds] of every account. *)
Definition settled_balances (now : BlockNumber) (w : State * L) (a : AccountId) : Z * Z :=
  (free_balance w.2 a + refunds now w.1 a, reserved_balance w.2 a - refunds now w.1 a).

Lemma expire_intent_money ext now id s l s' l' b :
  (∀ a, 0 ≤ ext a) → amounts_ok s → solvent ext (s, l) →
  expire_intent now id (s, l) = (Ok b, (s', l')) →
  amounts_ok s' ∧ solvent ext (s', l') ∧
  ∀ a, settled_balances now (s', l') a = settled_balances now (s, l) a.
Proof.
  intros Hext Ha Hs Hrun. destruct (expire_intent_run now id s l) as (s1 & l1 & Hr & _ & Hm & Hl).
  assert (s1 = s' ∧ l1 = l') as [-> ->] by (split; congruence). unfold due in Hl.
  destruct (PaymentIntents s !! id) as [i|] eqn:Hi; simpl in *; subst l'.
  2:{ rewrite alter_id in Hm by naive_solver. split_and!.
      - unfold amounts_ok. by rewrite Hm.
      - revert Hs. apply solvent_reserved. intros c. unfold held, custodian. rewrite Hm. lia.
      - intros c. unfold settled_balances, refunds; simpl. by rewrite Hm. }
  assert (Hm' : PaymentIntents s' = <[id := expire now i]> (PaymentIntents s)).
  { rewrite Hm. apply map_eq. intros k. rewrite lookup_alter, lookup_insert.
    destruct (decide (id = k)) as [<-|]; [by rewrite Hi|done]. }
  specialize (Ha id i Hi) as Hai.
  destruct (expire_core now i) as (_ & Hme & _ & Ham & _).
  assert (Hrest : amounts_ok s').
  { intros k j. rewrite Hm'. intros [[<- <-]|[_ ?]]%lookup_insert_Some; [lia|eauto]. }
  unfold settled_balances, refunds; simpl. rewrite Hm'.
  setoid_rewrite (λ a, msum_insert_Some (λ _ i, if expired now i then owed a i else 0) _ id (expire now i) i Hi).
  destruct (expired now i) eqn:He.
  - assert (Hlive : live i = true).
    { unfold expired in He. guard_inv. apply live_spec. auto. }
    assert (Hdead : live (expire now i) = false ∧ expired now (expire now i) = false).
    { unfold expire. rewrite He. unfold live, expired; simpl. by rewrite andb_false_r. }
    destruct Hdead as [Hdead ->].
    pose proof (unreserve_spec (merchant i) (amount i) l Hai) as [_ Hmv].
    split_and!; [done| |].
    + by eapply solvent_retire.
    + assert (amount i ≤ reserved_balance l (merchant i)).
      { apply (solvent_covers ext s); [done| |done].
        etrans; [|apply (msum_lookup_le (λ _, owed (merchant i)) _ id i); [|done]].
        - rewrite owed_live by done. unfold at_account. rewrite decide_True by done. lia.
        - intros k j Hj. specialize (Ha k j Hj). unfold owed. case_match; lia. }
      intros a. destruct (Hmv a) as [-> ->]. rewrite (owed_live a i Hlive).
      rewrite Z.min_l by done. unfold at_account. f_equal; case_decide; lia.
  - unfold expire. rewrite He, He. split_and!; [done| |intros a; f_equal; lia].
    revert Hs. apply solvent_reserved. intros c. unfold expire in Hm'. rewrite He in Hm'.
    rewrite (held_advance _ _ _ _ _ c Hi Hm'). lia.
Qed.

Lemma expire_intents_money ext now ids s l ex w' :
  (∀ a, 0 ≤ ext a) → amounts_ok s → solvent ext (s, l) →
  expire_intents now ids (s, l) = (Ok ex, w') →
  solvent ext w' ∧ ∀ a, settled_balances now w' a = settled_balances now (s, l) a.
Proof.
  intros Hext. revert s l ex. induction ids as [|id ids IH]; intros s l ex Ha Hs Hrun; simpl in Hrun.
  - by run_inv.
  - run_inv. destruct x0 as [s1 l1].
    destruct (expire_intent_money ext now id s l s1 l1 x) as (Ha1 & Hs1 & Hb1); try done.
    edestruct IH as [? Hb]; try done. split; [done|]. intros a. by rewrite Hb, Hb1.
Qed.

Lemma refunds_expired now s s' a :
  PaymentIntents s' = expire now <$> PaymentIntents s → refunds now s' a = 0.
Proof.
  intros Hm. unfold refunds. transitivity (msum (λ _ _, 0) (PaymentIntents s')).
  - apply msum_ext. intros k j. rewrite Hm. intros (i & <- & Hi)%lookup_fmap_Some.
    replace (expired now (expire now i)) with false; [done|].
    unfold expire. destruct (expired now i) eqn:He; [|done].
    unfold expired; simpl. by rewrite andb_false_r.
  - generalize (PaymentIntents s'). clear. intros m. induction m as [|k v m Hk IH] using map_ind;
      [apply msum_empty|]. rewrite msum_insert_None by done. lia.
Qed.

Lemma on_initialize_money ext now0 now s l :
  Inv T now0 s → (∀ a, 0 ≤ ext a) → solvent ext (s, l) →
  let w' := (on_initialize now (s, l)).2 in
  solvent ext w' ∧
  ∀ a, free_balance w'.2 a = free_balance l a + refunds now s a ∧
       reserved_balance w'.2 a = reserved_balance l a - refunds now s a.
Proof.
  intros I Hext Hs. destruct (on_initialize_run now0 now s l I) as (rw & s' & l' & Hrun & Hm & _).
  rewrite Hrun. simpl.
  assert (amounts_ok s) as Ha by (intros id i Hi; apply (inv_intent _ _ _ I id i Hi)).
  unfold on_initialize in Hrun. apply bind_Ok in Hrun as (p & w1 & [-> ->]%st_gets_Ok & Hrun).
  apply bind_Ok in Hrun as (ex & [s2 l2] & He & Hrun).
  destruct (expire_intents_money ext now _ s l _ _ Hext Ha Hs He) as [Hs2 Hb2].
  assert (PaymentIntents s' = PaymentIntents s2 ∧ l' = l2) as [Hm2 ->].
  { apply bind_Ok in Hrun as (u & w3 & Hrun & Hret). run_inv. case_match; by run_inv. }
  split.
  - intros a. specialize (Hs2 a). unfold held, custodian in *; simpl in *. by rewrite Hm2.
  - intros a. specialize (Hb2 a). unfold settled_balances in Hb2. simpl in Hb2.
    assert (refunds now s2 a = 0) as Hz by (by apply (refunds_expired now s); rewrite <-Hm2).
    rewrite Hz in Hb2. simplify_eq. lia.
Qed.

Lemma solvent_settlement ext now m n v aid w :
  0 ≤ v → solvent ext w → solvent ext (settle_for_attestation now m n v aid w).2.
Proof.
  intros Hv. destruct w as [s l]. apply solvent_reserved. intros a.
  unfold settle_for_attestation, m_transfer, st_gets, gets, ok_or, mbind, M_bind; simpl.
  destruct (checked_add _ _ _); simpl; [|lia].
  destruct (transfer m n v KeepAlive l) as [l'|] eqn:Ht; simpl; unfold held, custodian; simpl; [|lia].
  destruct (transfer_keep_alive_spec _ _ _ _ _ Hv Ht) as [_ Hm]. destruct (Hm a). lia.
Qed.

(** The pallet is the runtime's attestation settler. *)
#[export] Instance settler : AttestationSettler L State :=
  {| settler_error := SettleError; settle := settle_for_attestation |}.
#[export] Instance settler_laws : AttestationSettlerLaws L State.
Proof. split. intros. by apply solvent_settlement. Qed.

(** The stages an intent may pass through. *)
Inductive stage : PaymentIntentStatus → PaymentIntentStatus → Prop :=
| stage_same st : stage st st
| stage_verify : stage Pending Verified
| stage_expire : stage Pending Failed
| stage_settle : stage Verified Settled
| stage_fail : stage Verified Failed.

Definition advances s s' : Prop :=
  ∀ id i, PaymentIntents s !! id = Some i →
    ∃ i', PaymentIntents s' !! id = Some i' ∧ same_core i i' ∧ stage (status i) (status i').

Lemma x402_advances_insert s s' id i' :
  (∀ i, PaymentIntents s !! id = Some i → same_core i i' ∧ stage (status i) (status i')) →
  PaymentIntents s' = <[id := i']> (PaymentIntents s) → advances s s'.
Proof.
  intros Hi Hm k j Hj. rewrite Hm, lookup_insert. destruct (decide (id = k)) as [<-|].
  - exists i'. split; [done|]. eauto.
  - exists j. split_and!; [done|done|constructor].
Qed.

Lemma x402_advances_same s s' : PaymentIntents s' = PaymentIntents s → advances s s'.
Proof. intros Hm k j Hj. exists j. rewrite Hm. by split_and!; [| |constructor]. Qed.

Lemma x402_dispatch_advances now o c s l :
  Inv T now s → advances s (dispatch T now o c (s, l)).2.1.
Proof.
  intros I. apply (transactional_preserves (λ w, advances s w.1)); [by apply x402_advances_same|].
  intros a [s' l'] Hrun. destruct c as [n v nc fp sg|id|id|id]; simpl in *.
  - unfold submit_payment_intent in Hrun. run_inv. eapply x402_advances_insert; [|reflexivity].
    intros j Hj. destruct (inv_intent _ _ _ I _ _ Hj). lia.
  - unfold verify_settlement in Hrun. run_inv. eapply x402_advances_insert; [|reflexivity].
    intros j Hj. simplify_eq. split; [done|]. simpl. destruct (status _); try done. constructor.
  - unfold finalize_settlement in Hrun. run_inv. eapply x402_advances_insert; [|reflexivity].
    intros j Hj. simplify_eq. split; [done|]. simpl. destruct (status _); try done. constructor.
  - unfold fail_payment_intent in Hrun. run_inv. eapply x402_advances_insert; [|reflexivity].
    intros j Hj. simplify_eq. split; [done|]. simpl. destruct (status _); try done; constructor.
Qed.

(** C1: in every reachable state, at every block, the pallet's storage is
    consistent: intents are filed under their own fresh id, no two intents
    share a merchant's nonce or a replay fingerprint, the pending list holds
    exactly the pending intents once each and within its bound, an intent has
    a receipt, matching it, exactly when it is settled, and its timestamps
    tell that it was verified before its expiry and settled no earlier than
    the settlement delay. *)
Theorem x402_reachable_invariant c : reachable c → Inv T c.1 c.2.1.
Proof. apply x402_Inv_reachable. Qed.

(** C2: no call, hook or direct settlement ever promises more than is
    reserved: if the reserved balances cover the live intents on top of what
    the rest of the runtime holds ([ext]), they still do afterwards. *)
Theorem x402_steps_solvent ext c c' :
  (∀ a, 0 ≤ ext a) → reachable c → pallet_step c c' → solvent ext c.2 → solvent ext c'.2.
Proof.
  intros Hext I%x402_Inv_reachable Hstep Hs.
  destruct Hstep as [now w o c Hty|now [s l]|now w m n v aid Hv]; simpl in *.
  - by apply x402_solvent_dispatch.
  - by apply (on_initialize_money ext now).
  - apply solvent_settlement; [lia|done].
Qed.

(** C3: the life of an intent: once recorded it is never removed and its
    merchant, miner, amount, nonce, fingerprint and deadline never change;
    its status only moves pending -> verified -> settled, pending -> failed
    or verified -> failed, so a settled or failed intent is final. *)
Theorem x402_status_machine c c' :
  reachable c → step c c' → advances c.2.1 c'.2.1.
Proof.
  intros I%x402_Inv_reachable Hstep. destruct Hstep as [c c' Hstep|now s l l']; [|by apply x402_advances_same].
  destruct Hstep as [now [s l] o c Hty|now [s l]|now [s l] m n v aid Hv]; simpl in *.
  - by apply x402_dispatch_advances.
  - destruct (on_initialize_run now (now + 1) s l I) as (rw & s' & l' & -> & Hm & _).
    intros k i Hi. exists (expire (now + 1) i). simpl. rewrite Hm, lookup_fmap, Hi.
    split_and!; [done|apply expire_core|]. unfold expire. destruct (expired _ _) eqn:He; [|constructor].
    unfold expired in He. guard_inv. simpl. destruct (status i); try done. constructor.
  - apply x402_advances_same. unfold settle_for_attestation, m_transfer, st_gets, gets, ok_or, mbind, M_bind.
    simpl. destruct (checked_add _ _ _); simpl; [|done]. by destruct (transfer m n v KeepAlive l).
Qed.

(** C4: a settlement that succeeds pays the miner exactly the intent's amount
    out of the merchant's reserve and changes no other balance; it happens
    only for a verified, unexpired intent, after the settlement delay, at the
    request of the merchant, the miner or the facilitator, and it leaves the
    intent settled at this block with the matching receipt. *)
Theorem x402_finalize_pays_miner ext now o id s l s' l' :
  (∀ a, 0 ≤ ext a) → Inv T now s → solvent ext (s, l) →
  dispatch T now o (FinalizeSettlement id) (s, l) = (Ok tt, (s', l')) →
  ∃ i caller v,
    PaymentIntents s !! id = Some i ∧ status i = Verified ∧ o = Signed caller ∧
    (caller = merchant i ∨ caller = miner i ∨ caller = FacilitatorAccount T) ∧
    verified_at i = Some v ∧
    saturating_add U32_MAX v (SettlementDelay T) ≤ now < expires_at i ∧
    moves l l' (at_account (miner i) (amount i)) (at_account (merchant i) (- amount i)) ∧
    PaymentIntents s' !! id = Some (i <| status := Settled |> <| settled_at := Some now |>) ∧
    ∃ r, SettlementReceipts s' !! id = Some r ∧ receipt_matches id i r.
Proof.
  intros Hext I Hs Hrun. apply transactional_Ok in Hrun. cbn iota in Hrun. unfold finalize_settlement in Hrun. run_inv.
  match goal with Hi : PaymentIntents s !! id = Some ?i, Hc : _ || _ || _ = true,
    Hr : repatriate_reserved _ _ _ _ = _ |- _ =>
    exists i; rename Hi into Hlk, Hc into Hauth, Hr into Hrep; rename i into j end.
  eexists _, _. destruct (inv_intent _ _ _ I id j Hlk) as (_ & _ & Ha & _).
  split_and!; try done.
  - rewrite !orb_true_iff, !bool_decide_eq_true in Hauth. naive_solver.
  - destruct (repatriate_spec _ _ _ _ _ _ Ha Hrep) as [_ Hm]. rewrite Z.min_l in Hm; [done|].
    apply (solvent_covers ext s); [done| |done].
    etrans; [|apply (msum_lookup_le (λ _, owed (merchant j)) _ id j); [|done]].
    + rewrite owed_live by (apply live_spec; auto). unfold at_account. by rewrite decide_True.
    + intros k i Hi. destruct (inv_intent _ _ _ I k i Hi) as (_ & _ & ? & _). unfold owed. case_match; lia.
  - simpl. apply lookup_insert_eq.
  - eexists. simpl. rewrite lookup_insert_eq. done.
Qed.

(** The hook at block [now] never fails and, although it visits the
    pending list only, acts on every intent of the storage: exactly the
    pending intents whose deadline has come become failed, the pending list
    keeps exactly the others, and each merchant gets back from the reserve
    exactly the sum of the amounts of its expired intents. *)
Theorem x402_hook_expires_exactly ext now0 now s l :
  (∀ a, 0 ≤ ext a) → Inv T now0 s → solvent ext (s, l) →
  ∃ rw s' l', on_initialize now (s, l) = (Ok rw, (s', l')) ∧
    PaymentIntents s' = expire now <$> PaymentIntents s ∧
    (∀ id, id ∈ PendingIntentIds s' ↔
      ∃ i, PaymentIntents s !! id = Some i ∧ status i = Pending ∧ now < expires_at i) ∧
    ∀ a, free_balance l' a = free_balance l a + refunds now s a ∧
         reserved_balance l' a = reserved_balance l a - refunds now s a.
Proof.
  intros Hext I Hs. destruct (on_initialize_run now0 now s l I) as (rw & s' & l' & Hrun & Hm & Hp & _).
  exists rw, s', l'. split_and!; [done|done| |].
  - intros id. rewrite Hp, list_elem_of_filter, (inv_pending _ _ _ I). unfold due. split.
    + intros (Hd & i & Hi & Hst). rewrite Hi in Hd. simpl in Hd. exists i. split_and!; try done.
      unfold expired in Hd. rewrite (bool_decide_eq_true_2 _ Hst), andb_true_r in Hd. by guard_inv.
    + intros (i & Hi & Hst & Hlt). rewrite Hi. simpl. split; [|eauto].
      unfold expired. by rewrite (proj2 (Z.leb_gt _ _) Hlt).
  - pose proof (on_initialize_money ext now0 now s l I Hext Hs) as [_ Hb]. by rewrite Hrun in Hb.
Qed.

(** Exactly when a submission is accepted: the merchant's nonce and the
    fingerprint are unused, the signature has 64 bytes (within the configured
    bound) and is the facilitator's over these very parameters, the currency
    grants the reserve, an id is left and the pending list has room; and a
    refused submission changes nothing. *)
Theorem x402_submit_ok_iff now m n v nc fp sg s l :
  let c := SubmitPaymentIntent n v nc fp sg in
  (is_ok (dispatch T now (Signed m) c (s, l)).1 = true ↔
    NonceUsed s !! (m, nc) = None ∧ ReplayFingerprintUsed s !! fp = None ∧
    length sg = 64%nat ∧ 64 ≤ MaxSignatureLen T ∧
    sr25519_verify T sg (scale_encode T m n v nc fp) (FacilitatorPublicKey T) = true ∧
    is_Some (reserve m v l) ∧ NextIntentId s < U64_MAX ∧
    Z.of_nat (length (PendingIntentIds s)) < MaxPendingIntents) ∧
  (is_ok (dispatch T now (Signed m) c (s, l)).1 = false →
   (dispatch T now (Signed m) c (s, l)).2 = (s, l)).
Proof.
  intros c. unfold c. clear c. split; [split|].
  - destruct (dispatch _ _ _ _ _) as [[[]|e] [s' l']] eqn:Hrun; [intros _|done].
    apply transactional_Ok in Hrun. cbn iota in Hrun. unfold submit_payment_intent in Hrun. run_inv.
    unfold verify_facilitator_signature in *. case_match; [done|]. guard_inv.
    match goal with Hl : Nat.eqb _ _ = true |- _ => apply Nat.eqb_eq in Hl end.
    rewrite <-!contains_key_false. rewrite take_ge in * by lia.
    solve_facts.
  - intros (Hn & Hf & Hl & Hmax & Hsig & [l' Hr] & Hnext & Hp).
    unfold dispatch, transactional, submit_payment_intent, verify_facilitator_signature, m_reserve.
    unfold st_gets, gets, ok_or, checked_add, ensure, mbind, M_bind; simpl.
    apply contains_key_false in Hn, Hf. rewrite Hn; simpl. rewrite Hf; simpl. rewrite (proj2 (Z.leb_le _ _)) by lia; simpl.
    rewrite (proj2 (Nat.eqb_eq _ _) Hl); simpl. rewrite take_ge, Hsig by lia; simpl. rewrite Hr; simpl.
    rewrite (proj2 (Z.leb_le (NextIntentId s + 1) _)) by lia; simpl.
    by rewrite (proj2 (Z.ltb_lt _ _) Hp).
  - destruct (dispatch _ _ _ _ _) as [[|e] w'] eqn:Hrun; [done|]. intros _.
    by apply transactional_Err in Hrun.
Qed.
End theory.

(** ** A run on a concrete ledger

    Account 1 is a merchant with 1000 free, 2 a miner, 9 the facilitator; every
    signature verifies. The merchant pays 300; the intent is verified at block 1
    and settled at block 6, or it expires at block 100. *)
Module Demo.
Definition T : Config := {|
  FacilitatorAccount := 9; MaxSignatureLen := 128; FacilitatorPublicKey := 9;
  SettlementDelay := 5; PaymentIntentTTL := 100;
  scale_encode _ _ _ _ _ := []; sr25519_verify _ _ _ := true |}%N.
Definition ledger : Ledger.t := {[1 := (1000, 0); 2 := (10, 0); 9 := (5, 0)]}%N.
Definition sig : bytes := replicate 64 Byte.x00.
Definition pay : Call := SubmitPaymentIntent 2 300 7 77 sig.
Definition submitted : State * Ledger.t :=
  (dispatch T 0 (Signed 1%N) pay (genesis, ledger)).2.
Definition verified : State * Ledger.t :=
  (dispatch T 1 (Signed 9%N) (VerifySettlement 0) submitted).2.
Definition settled : State * Ledger.t :=
  (dispatch T 6 (Signed 2%N) (FinalizeSettlement 0) verified).2.

Lemma pay_typed : call_typed pay.
Proof. unfold pay, call_typed, U128_MAX, U64_MAX. lia. Qed.

Lemma x402_submitted_reachable : reachable T (0, submitted).
Proof.
  exists ledger. apply rtc_once, step_pallet.
  exact (step_call T 0 (genesis, ledger) (Signed 1%N) pay pay_typed).
Qed.

Lemma verified_Inv : Inv T 1 verified.1.
Proof.
  refine (x402_Inv_dispatch T 1 (Signed 9%N) (VerifySettlement 0) submitted Logic.I _).
  apply (x402_Inv_later T 0); [lia|]. exact (x402_Inv_reachable T (0, submitted) x402_submitted_reachable).
Qed.

Lemma genesis_solvent : solvent (λ _, 0) (genesis, ledger).
Proof. intros a. apply Ledger.nonneg. Qed.

Lemma x402_submitted_solvent : solvent (λ _, 0) submitted.
Proof.
  exact (x402_solvent_dispatch T (λ _, 0) 0 (Signed 1%N) pay (genesis, ledger) pay_typed
           (x402_Inv_genesis T 0) genesis_solvent).
Qed.

Lemma verified_solvent : solvent (λ _, 0) verified.
Proof.
  refine (x402_solvent_dispatch T (λ _, 0) 1 (Signed 9%N) (VerifySettlement 0) submitted Logic.I _
           x402_submitted_solvent).
  apply (x402_Inv_later T 0); [lia|]. exact (x402_Inv_reachable T (0, submitted) x402_submitted_reachable).
Qed.

Lemma x402_reachable_invariant_witness :
  reachable T (0, submitted) ∧ Inv T 0 submitted.1.
Proof.
  split; [exact x402_submitted_reachable|].
  exact (x402_reachable_invariant T (0, submitted) x402_submitted_reachable).
Defined.

Lemma x402_steps_solvent_witness :
  solvent (λ _, 0) (dispatch T 0 (Signed 9%N) (VerifySettlement 0) submitted).2.
Proof.
  refine (x402_steps_solvent T (λ _, 0) (0, submitted) (0, _) _ x402_submitted_reachable
            (step_call T 0 submitted (Signed 9%N) (VerifySettlement 0) Logic.I) x402_submitted_solvent).
  intros a. lia.
Defined.

Lemma x402_status_machine_witness :
  advances submitted.1 (on_initialize 1 submitted).2.1.
Proof.
  exact (x402_status_machine T (0, submitted) (1, _) x402_submitted_reachable
           (step_pallet T _ _ (step_block T 0 submitted))).
Defined.

Lemma x402_finalize_pays_miner_witness :
  dispatch T 6 (Signed 2%N) (FinalizeSettlement 0) verified = (Ok tt, settled) ∧
  ∃ i caller v, PaymentIntents verified.1 !! 0 = Some i ∧ Signed 2%N = Signed caller ∧
    verified_at i = Some v ∧
    moves verified.2 settled.2 (at_account (miner i) (amount i))
      (at_account (merchant i) (- amount i)).
Proof.
  assert (dispatch T 6 (Signed 2%N) (FinalizeSettlement 0) verified = (Ok tt, settled)) as Hrun
    by (apply run_eta; vm_compute; reflexivity).
  split; [exact Hrun|].
  destruct (x402_finalize_pays_miner T (λ _, 0) 6 (Signed 2%N) 0 verified.1 verified.2
              settled.1 settled.2) as (i & caller & v & H1 & _ & H2 & _ & H3 & _ & H4 & _).
  - intros a. lia.
  - apply (x402_Inv_later T 1); [lia|exact verified_Inv].
  - exact verified_solvent.
  - rewrite <-!surjective_pairing. exact Hrun.
  - exists i, caller, v. split_and!; assumption.
Defined.

Lemma x402_hook_expires_exactly_witness :
  ∃ rw s' l', on_initialize 100 submitted = (Ok rw, (s', l')) ∧
    free_balance l' 1%N = 700 + refunds 100 submitted.1 1%N ∧ refunds 100 submitted.1 1%N = 300.
Proof.
  destruct (x402_hook_expires_exactly T (λ _, 0) 0 100 submitted.1 submitted.2)
    as (rw & s' & l' & Hrun & _ & _ & Hb).
  - intros a. lia.
  - exact (x402_Inv_reachable T (0, submitted) x402_submitted_reachable).
  - exact x402_submitted_solvent.
  - exists rw, s', l'. split; [exact Hrun|]. split; [|vm_compute; reflexivity].
    destruct (Hb 1%N) as [-> _]. vm_compute. reflexivity.
Defined.
End Demo.
End X402.
