(* ===== verification/Attestation.v ===== *)
(** * pallet-agent-attestation

    Nodes register, send heartbeats and publish which models they serve; a
    node's attestation of a task result reserves a deposit, can be challenged
    during a window, and is then confirmed (which triggers the settler) or, when
    challenged, resolved by root. The pallet implements the scheduler's
    [TaskCompletionHandler]. Models src/pallets/agent-attestation/src/lib.rs;
    the settler is any [AttestationSettler], whose state [SH] runs beside the
    pallet's. *)
From stdpp Require Import base gmap fin_maps list numbers relations.
From Stdlib Require Import ZArith Lia.
From S2P Require Import Prelude Currency Interfaces X402.

Module Attestation.

Inductive AttestationStatus := Pending | Confirmed | Slashed | Defended.
#[export] Instance AttestationStatus_eq_dec : EqDecision AttestationStatus.
Proof. solve_decision. Defined.

Record Attestation := {
  id : Z;
  attester : AccountId;
  task_id : Z;
  result_hash : H256;
  model_id : bytes;
  input_tokens : Z;
  output_tokens : Z;
  deposit : Balance;
  status : AttestationStatus;
  submitted_at : BlockNumber;
  challenge_end : BlockNumber;
  challenger : option AccountId;
}.
#[export] Instance Attestation_eta : RecordEta Attestation := λ a,
  Build_Attestation (id a) (attester a) (task_id a) (result_hash a) (model_id a)
    (input_tokens a) (output_tokens a) (deposit a) (status a) (submitted_at a)
    (challenge_end a) (challenger a).

Record NodeRegistration := {
  node_owner : AccountId;
  gpu_uuid : bytes;
  tflops : Z;
  registered_at : BlockNumber;
  last_heartbeat : BlockNumber;
  is_active : bool;
}.
#[export] Instance NodeRegistration_eta : RecordEta NodeRegistration := λ n,
  Build_NodeRegistration (node_owner n) (gpu_uuid n) (tflops n) (registered_at n)
    (last_heartbeat n) (is_active n).

Record AgentCapability := {
  cap_owner : AccountId;
  model_ids : list bytes;
  max_concurrent : Z;
  price_per_token : Balance;
  region : bytes;
  updated_at : BlockNumber;
}.

Inductive Event :=
| NodeRegistered (who : AccountId) (tf : Z)
| HeartbeatReceived (who : AccountId) (block : BlockNumber)
| AttestationSubmitted (aid : Z) (who : AccountId) (task : Z) (hash : H256)
| AttestationChallenged (aid : Z) (who : AccountId)
| AttestationConfirmed (aid : Z)
| AgentCapabilityUpdated (who : AccountId) (model_count : Z)
| AttestationSlashed (aid : Z) (who : AccountId) (slash_amount : Balance)
| AttestationDefended (aid : Z).

Inductive Error :=
| NodeAlreadyRegistered
| NodeNotRegistered
| HeartbeatTooEarly
| AttestationNotFound
| AlreadyChallenged
| ChallengeWindowExpired
| ChallengeWindowNotExpired
| NotAttester
| InvalidStatus
| InsufficientDeposit
| ArithmeticOverflow
| InvalidModelId
| TooManyModels
| InvalidRegion
| DuplicateAttestation.

Record Config := {
  AttestationDeposit : Balance;
  ChallengeWindow : BlockNumber;
  SlashPercent : Z;
  HeartbeatInterval : BlockNumber;
  MaxModelIdLen : Z;
  MaxGpuUuidLen : Z;
  MaxModelsPerAgent : Z;
  AdminOrigin : Origin → bool;
}.

(** The range of the configured constants' types. *)
Definition config_typed (T : Config) : Prop :=
  0 ≤ AttestationDeposit T ∧ 0 ≤ ChallengeWindow T ∧ 0 ≤ SlashPercent T.

Record State := {
  NextAttestationId : Z;
  Attestations : gmap Z Attestation;
  Nodes : gmap AccountId NodeRegistration;
  AttesterTaskCount : gmap (AccountId * Z) Z;
  AgentCapabilities : gmap AccountId AgentCapability;
  ModelProviders : gmap (bytes * AccountId) bool;
  events : list Event;
}.
#[export] Instance State_eta : RecordEta State := λ s,
  Build_State (NextAttestationId s) (Attestations s) (Nodes s) (AttesterTaskCount s)
    (AgentCapabilities s) (ModelProviders s) (events s).

Definition genesis : State := {|
  NextAttestationId := 0; Attestations := ∅; Nodes := ∅; AttesterTaskCount := ∅;
  AgentCapabilities := ∅; ModelProviders := ∅; events := [] |}.

Definition task_count (s : State) (who : AccountId) (task : Z) : Z :=
  default 0 (AttesterTaskCount s !! (who, task)).

(** [BoundedVec::try_from]. *)
Definition bounded {A} (max : Z) (v : list A) : bool := Z.of_nat (length v) <=? max.

Definition deposit_event (e : Event) (s : State) : State :=
  s <| events ::= λ es, es ++ [e] |>.

Definition new_attestation (T : Config) (now : BlockNumber) (aid : Z) (who : AccountId)
    (task : Z) (hash : H256) (model : bytes) (inp out : Z) : Attestation := {|
  id := aid; attester := who; task_id := task; result_hash := hash; model_id := model;
  input_tokens := inp; output_tokens := out; deposit := AttestationDeposit T;
  status := Pending; submitted_at := now;
  challenge_end := saturating_add U32_MAX now (ChallengeWindow T); challenger := None |}.

(** [count.saturating_add(1)] on the u32 counter of an attester and a task. *)
Definition count_task (who : AccountId) (task : Z) (s : State) : State :=
  s <| AttesterTaskCount ::= <[(who, task) := saturating_add U32_MAX (task_count s who task) 1]> |>.

Section pallet.
Context `{ReservableCurrency L} {SH : Type} `{AttestationSettler L SH} {PB : PerThing}.
Context (T : Config).
Abbreviation MA := (M ((State * SH) * L) (DispatchError Error)).

Definition register_node (now : BlockNumber) (origin : Origin) (uuid : bytes) (tf : Z) : MA unit :=
  who ← ensure_signed origin;
  known ← own_gets (λ s, bool_decide (is_Some (Nodes s !! who)));
  ensure (negb known) (Module NodeAlreadyRegistered);;
  ensure (bounded (MaxGpuUuidLen T) uuid) (Module ArithmeticOverflow);;
  own_modify (λ s, s <| Nodes ::= <[who := {|
    node_owner := who; gpu_uuid := uuid; tflops := tf; registered_at := now;
    last_heartbeat := now; is_active := true |}]> |>);;
  own_modify (deposit_event (NodeRegistered who tf)).

Definition heartbeat (now : BlockNumber) (origin : Origin) : MA unit :=
  who ← ensure_signed origin;
  maybe_node ← own_gets (λ s, Nodes s !! who);
  node ← ok_or maybe_node (Module NodeNotRegistered);
  ensure (saturating_add U32_MAX (last_heartbeat node) (HeartbeatInterval T) <=? now)
    (Module HeartbeatTooEarly);;
  own_modify (deposit_event (HeartbeatReceived who now));;
  own_modify (λ s, s <| Nodes ::=
    <[who := node <| last_heartbeat := now |> <| is_active := true |>]> |>).

Definition submit_attestation (now : BlockNumber) (origin : Origin) (task : Z) (hash : H256)
    (model : bytes) (inp out : Z) : MA unit :=
  attester ← ensure_signed origin;
  known ← own_gets (λ s, bool_decide (is_Some (Nodes s !! attester)));
  ensure known (Module NodeNotRegistered);;
  count ← own_gets (λ s, task_count s attester task);
  ensure (count =? 0) (Module DuplicateAttestation);;
  m_reserve attester (AttestationDeposit T) (Module InsufficientDeposit);;
  ensure (bounded (MaxModelIdLen T) model) (Module ArithmeticOverflow);;
  aid ← own_gets NextAttestationId;
  next_id ← ok_or (checked_add U64_MAX aid 1) (Module ArithmeticOverflow);
  own_modify (λ s, s <| NextAttestationId := next_id |>);;
  own_modify (λ s, s <| Attestations ::=
    <[aid := new_attestation T now aid attester task hash model inp out]> |>);;
  own_modify (count_task attester task);;
  own_modify (deposit_event (AttestationSubmitted aid attester task hash)).

Definition challenge_attestation (now : BlockNumber) (origin : Origin) (aid : Z) : MA unit :=
  challenger_ ← ensure_signed origin;
  maybe_att ← own_gets (λ s, Attestations s !! aid);
  att ← ok_or maybe_att (Module AttestationNotFound);
  ensure (bool_decide (status att = Pending)) (Module InvalidStatus);;
  ensure (bool_decide (challenger att = None)) (Module AlreadyChallenged);;
  ensure (now <=? challenge_end att) (Module ChallengeWindowExpired);;
  own_modify (deposit_event (AttestationChallenged aid challenger_));;
  own_modify (λ s, s <| Attestations ::= <[aid := att <| challenger := Some challenger_ |>]> |>).

Definition confirm_attestation (now : BlockNumber) (origin : Origin) (aid : Z) : MA unit :=
  ensure (AdminOrigin T origin) BadOrigin;;
  maybe_att ← own_gets (λ s, Attestations s !! aid);
  att ← ok_or maybe_att (Module AttestationNotFound);
  ensure (bool_decide (status att = Pending)) (Module InvalidStatus);;
  ensure (bool_decide (challenger att = None)) (Module AlreadyChallenged);;
  ensure (challenge_end att <? now) (Module ChallengeWindowNotExpired);;
  m_unreserve (attester att) (deposit att);;
  own_modify (deposit_event (AttestationConfirmed aid));;
  ignore (with_callee (settle now (attester att) (attester att) (deposit att) aid));;
  own_modify (λ s, s <| Attestations ::= <[aid := att <| status := Confirmed |>]> |>).

Definition resolve_challenge (origin : Origin) (aid : Z) (attester_is_guilty : bool) : MA unit :=
  ensure_root origin;;
  maybe_att ← own_gets (λ s, Attestations s !! aid);
  att ← ok_or maybe_att (Module AttestationNotFound);
  ensure (bool_decide (status att = Pending)) (Module InvalidStatus);;
  ensure (bool_decide (is_Some (challenger att))) (Module InvalidStatus);;
  if attester_is_guilty then
    let slash_amount := per_mul (from_percent (SlashPercent T)) (deposit att) in
    m_slash_reserved (attester att) slash_amount;;
    let remainder := saturating_sub (deposit att) slash_amount in
    m_unreserve (attester att) remainder;;
    own_modify (deposit_event (AttestationSlashed aid (attester att) slash_amount));;
    own_modify (λ s, s <| Attestations ::= <[aid := att <| status := Slashed |>]> |>)
  else
    m_unreserve (attester att) (deposit att);;
    own_modify (deposit_event (AttestationDefended aid));;
    own_modify (λ s, s <| Attestations ::= <[aid := att <| status := Defended |>]> |>).

(** The index of model providers: drop the models of the old capability of
    [who], then enter the new ones. *)
Definition remove_providers (who : AccountId) (models : list bytes) (s : State) : State :=
  s <| ModelProviders ::= λ p, foldl (λ p m, delete (m, who) p) p models |>.
Definition insert_providers (who : AccountId) (models : list bytes) (s : State) : State :=
  s <| ModelProviders ::= λ p, foldl (λ p m, <[(m, who) := true]> p) p models |>.

Definition update_capability (now : BlockNumber) (origin : Origin) (models : list bytes)
    (max_conc : Z) (price : Balance) (reg : bytes) : MA unit :=
  who ← ensure_signed origin;
  known ← own_gets (λ s, bool_decide (is_Some (Nodes s !! who)));
  ensure known (Module NodeNotRegistered);;
  ensure (forallb (bounded (MaxModelIdLen T)) models) (Module InvalidModelId);;
  ensure (bounded (MaxModelsPerAgent T) models) (Module TooManyModels);;
  ensure (bounded 16 reg) (Module InvalidRegion);;
  old_cap ← own_gets (λ s, AgentCapabilities s !! who);
  own_modify (remove_providers who (from_option model_ids [] old_cap));;
  own_modify (insert_providers who models);;
  own_modify (λ s, s <| AgentCapabilities ::= <[who := {|
    cap_owner := who; model_ids := models; max_concurrent := max_conc;
    price_per_token := price; region := reg; updated_at := now |}]> |>);;
  own_modify (deposit_event (AgentCapabilityUpdated who (Z.of_nat (length models)))).

(** The accounts that serve a model; storage iteration has no meaningful order. *)
Definition get_providers_for_model (s : State) (model : bytes) : list AccountId :=
  omap (λ '((m, who), _),
    if bool_decide (m = model) && from_option is_active false (Nodes s !! who)
    then Some who else None) (map_to_list (ModelProviders s)).

(** [TaskCompletionHandler::on_task_completed]; what it wrote before an error
    stays written, since the scheduler ignores the error. *)
Inductive HandlerError := AttestationIdOverflow | ModelIdTooLong | ReserveFailed.

Definition on_task_completed (now : BlockNumber) (who : AccountId) (task : Z) (hash : H256)
    (model : bytes) (inp out : Z) : M ((State * SH) * L) HandlerError Z :=
  attestation_id ← own_gets NextAttestationId;
  next_id ← ok_or (checked_add U64_MAX attestation_id 1) AttestationIdOverflow;
  own_modify (λ s, s <| NextAttestationId := next_id |>);;
  ensure (bounded (MaxModelIdLen T) model) ModelIdTooLong;;
  m_reserve who (AttestationDeposit T) ReserveFailed;;
  own_modify (λ s, s <| Attestations ::=
    <[attestation_id := new_attestation T now attestation_id who task hash model inp out]> |>);;
  own_modify (count_task who task);;
  own_modify (deposit_event (AttestationSubmitted attestation_id who task hash));;
  mret attestation_id.

(** ** The pallet as a state machine *)
Inductive Call :=
| RegisterNode (uuid : bytes) (tf : Z)
| Heartbeat
| SubmitAttestation (task : Z) (hash : H256) (model : bytes) (inp out : Z)
| ChallengeAttestation (aid : Z)
| ConfirmAttestation (aid : Z)
| ResolveChallenge (aid : Z) (guilty : bool)
| UpdateCapability (models : list bytes) (max_conc : Z) (price : Balance) (reg : bytes).

Definition dispatch (now : BlockNumber) (o : Origin) (c : Call) : MA unit :=
  transactional
    match c with
    | RegisterNode u tf => register_node now o u tf
    | Heartbeat => heartbeat now o
    | SubmitAttestation t h m i ou => submit_attestation now o t h m i ou
    | ChallengeAttestation aid => challenge_attestation now o aid
    | ConfirmAttestation aid => confirm_attestation now o aid
    | ResolveChallenge aid g => resolve_challenge o aid g
    | UpdateCapability ms mc p r => update_capability now o ms mc p r
    end.
End pallet.

(** ** What the pallet holds, and its invariant *)

Definition owed (a : AccountId) (att : Attestation) : Z :=
  if bool_decide (status att = Pending) && bool_decide (attester att = a) then deposit att else 0.

#[export] Instance custodian : Custodian State :=
  λ s a, msum (λ _, owed a) (Attestations s).

(** How many attestations an attester has for a task. *)
Definition attested (s : State) (who : AccountId) (task : Z) : Z :=
  msum (λ _ a, if bool_decide (attester a = who) && bool_decide (task_id a = task) then 1 else 0)
    (Attestations s).

(** One attestation at block [now]: it is confirmed only unchallenged and after
    its window, slashed or defended only challenged. *)
Definition attestation_ok (T : Config) (now : BlockNumber) (a : Attestation) : Prop :=
  0 ≤ deposit a ∧ submitted_at a ≤ now ∧
  challenge_end a = saturating_add U32_MAX (submitted_at a) (ChallengeWindow T) ∧
  match status a with
  | Pending => True
  | Confirmed => challenger a = None ∧ challenge_end a < now
  | Slashed | Defended => is_Some (challenger a)
  end.

Record AttInv (T : Config) (now : BlockNumber) (s : State) : Prop := {
  inv_next : 0 ≤ NextAttestationId s;
  inv_att k a : Attestations s !! k = Some a →
    0 ≤ k < NextAttestationId s ∧ id a = k ∧ attestation_ok T now a;
  inv_count who task :
    task_count s who task = Z.min (attested s who task) U32_MAX;
}.

Record RegInv (now : BlockNumber) (s : State) : Prop := {
  inv_node who n : Nodes s !! who = Some n →
    node_owner n = who ∧ is_active n = true ∧ registered_at n ≤ last_heartbeat n ≤ now;
  inv_cap who cap : AgentCapabilities s !! who = Some cap →
    cap_owner cap = who ∧ is_Some (Nodes s !! who);
  inv_index m who : is_Some (ModelProviders s !! (m, who)) ↔
    ∃ cap, AgentCapabilities s !! who = Some cap ∧ m ∈ model_ids cap;
}.

Definition same_core (a a' : Attestation) : Prop :=
  id a' = id a ∧ attester a' = attester a ∧ task_id a' = task_id a ∧
  result_hash a' = result_hash a ∧ model_id a' = model_id a ∧ deposit a' = deposit a ∧
  submitted_at a' = submitted_at a ∧ challenge_end a' = challenge_end a.

(** Same registry, same attestations: what the other half of the storage leaves. *)
Definition same_registry (s s' : State) : Prop :=
  Nodes s' = Nodes s ∧ AgentCapabilities s' = AgentCapabilities s ∧
  ModelProviders s' = ModelProviders s.
Definition same_attestations (s s' : State) : Prop :=
  NextAttestationId s' = NextAttestationId s ∧ Attestations s' = Attestations s ∧
  AttesterTaskCount s' = AttesterTaskCount s.

Section theory.
Context `{ReservableCurrencyLaws L} {SH : Type} `{Custodian SH} `{!AttestationSettler L SH}.
Context `{!AttestationSettlerLaws L SH} {PB : PerThing} {PBL : PerThingLaws PB}.
Context (T : Config) (HT : config_typed T).
Implicit Types (s : State) (a : Attestation) (w : (State * SH) * L).

Inductive pallet_step : BlockNumber * ((State * SH) * L) → BlockNumber * ((State * SH) * L) → Prop :=
| step_call now w o c : pallet_step (now, w) (now, (dispatch T now o c w).2)
| step_completed now w who task hash model i o :
    pallet_step (now, w) (now, (on_task_completed T now who task hash model i o w).2).

(** Blocks pass, and the rest of the runtime acts on the settler and the ledger. *)
Inductive step : BlockNumber * ((State * SH) * L) → BlockNumber * ((State * SH) * L) → Prop :=
| step_pallet c c' : pallet_step c c' → step c c'
| step_other now now' s h h' l l' : now ≤ now' → step (now, ((s, h), l)) (now', ((s, h'), l')).

Definition reachable (c : BlockNumber * ((State * SH) * L)) : Prop :=
  ∃ h l, rtc step (0, ((genesis, h), l)) c.

Lemma AttInv_same now s s' : same_attestations s s' → AttInv T now s → AttInv T now s'.
Proof.
  intros (Hn & Ha & Hc) [I1 I2 I3]. split; unfold task_count, attested in *; by rewrite ?Hn, ?Ha, ?Hc.
Qed.
Lemma RegInv_same now s s' : same_registry s s' → RegInv now s → RegInv now s'.
Proof. intros (Hn & Hc & Hp) [I1 I2 I3]. split; by rewrite ?Hn, ?Hc, ?Hp. Qed.

Lemma att_Inv_later now now' s :
  now ≤ now' → AttInv T now s ∧ RegInv now s → AttInv T now' s ∧ RegInv now' s.
Proof.
  intros Hle [[I1 I2 I3] [J1 J2 J3]]. split; split; try done.
  - intros k a Hk. destruct (I2 k a Hk) as (? & ? & ? & ? & ? & Hst). unfold attestation_ok.
    split_and!; try done; try lia. destruct (status a); try done. destruct Hst. split; [done|lia].
  - intros who n Hn. destruct (J1 who n Hn) as (? & ? & ?). solve_facts.
Qed.

Lemma AttInv_add now s s' a :
  AttInv T now s → Attestations s' = <[NextAttestationId s := a]> (Attestations s) →
  id a = NextAttestationId s → attestation_ok T now a →
  NextAttestationId s' = NextAttestationId s + 1 →
  (∀ who task, task_count s' who task =
    if bool_decide (who = attester a) && bool_decide (task = task_id a)
    then saturating_add U32_MAX (task_count s who task) 1 else task_count s who task) →
  AttInv T now s'.
Proof.
  intros [I1 I2 I3] Hm Hid Hok Hn Hc.
  assert (Attestations s !! NextAttestationId s = None) as Hfresh.
  { apply eq_None_not_Some. intros [x Hx]. destruct (I2 _ _ Hx). lia. }
  split; rewrite ?Hn; [lia| |].
  - intros k b. rewrite Hm. intros [[<- <-]|[_ Hb]]%lookup_insert_Some; [split_and!; try done; lia|].
    destruct (I2 k b Hb) as (? & ? & ?). solve_facts.
  - intros who task. rewrite Hc, I3. unfold attested. rewrite Hm, msum_insert_None by done.
    rewrite (bool_decide_ext (who = attester a) (attester a = who)) by done.
    rewrite (bool_decide_ext (task = task_id a) (task_id a = task)) by done.
    unfold saturating_add. destruct (_ && _); lia.
Qed.

Lemma AttInv_skip now s s' :
  AttInv T now s → NextAttestationId s' = NextAttestationId s + 1 →
  Attestations s' = Attestations s → AttesterTaskCount s' = AttesterTaskCount s → AttInv T now s'.
Proof.
  intros [I1 I2 I3] Hn Ha Hc. split; unfold task_count, attested in *; rewrite ?Hn, ?Ha, ?Hc; try done; try lia.
  intros k a Hk. destruct (I2 k a Hk). split; [lia|done].
Qed.

Lemma AttInv_update now s s' k a a' :
  AttInv T now s → Attestations s !! k = Some a →
  Attestations s' = <[k := a']> (Attestations s) → same_core a a' → attestation_ok T now a' →
  NextAttestationId s' = NextAttestationId s → AttesterTaskCount s' = AttesterTaskCount s →
  AttInv T now s'.
Proof.
  intros [I1 I2 I3] Hk Hm Hc Hok Hn Hcount. destruct Hc as (Hid & Hatt & Htask & _).
  split; unfold task_count in *; rewrite ?Hn, ?Hcount; [done| |].
  - intros k' b. rewrite Hm. intros [[<- <-]|[_ Hb]]%lookup_insert_Some; [|eauto].
    destruct (I2 k a Hk) as (? & ? & _). solve_facts.
  - intros who task. rewrite I3. unfold attested. rewrite Hm, (msum_insert_Some _ _ _ _ _ Hk).
    rewrite Hatt, Htask. f_equal. lia.
Qed.

Lemma task_count_task who task s who' task' :
  task_count (count_task who task s) who' task' =
  if bool_decide (who' = who) && bool_decide (task' = task)
  then saturating_add U32_MAX (task_count s who' task') 1 else task_count s who' task'.
Proof.
  unfold task_count, count_task; simpl. rewrite lookup_insert.
  case_decide as Heq; [simplify_eq; by rewrite !bool_decide_eq_true_2|].
  destruct (bool_decide (who' = who)) eqn:E1, (bool_decide (task' = task)) eqn:E2; try done.
  guard_inv. congruence.
Qed.

(** *** The provider index *)

Lemma lookup_remove_providers who models s m who' :
  ModelProviders (remove_providers who models s) !! (m, who') =
  if decide (who' = who ∧ m ∈ models) then None else ModelProviders s !! (m, who').
Proof.
  unfold remove_providers; simpl. generalize (ModelProviders s). induction models as [|x models IH]; intros p; simpl.
  - rewrite decide_False by set_solver. done.
  - rewrite IH, lookup_delete. repeat case_decide; simplify_eq; set_solver.
Qed.

Lemma lookup_insert_providers who models s m who' :
  ModelProviders (insert_providers who models s) !! (m, who') =
  if decide (who' = who ∧ m ∈ models) then Some true else ModelProviders s !! (m, who').
Proof.
  unfold insert_providers; simpl. generalize (ModelProviders s). induction models as [|x models IH]; intros p; simpl.
  - rewrite decide_False by set_solver. done.
  - rewrite IH, lookup_insert. repeat case_decide; simplify_eq; set_solver.
Qed.

Lemma RegInv_capability now s s' who cap :
  RegInv now s → is_Some (Nodes s !! who) → cap_owner cap = who →
  Nodes s' = Nodes s → AgentCapabilities s' = <[who := cap]> (AgentCapabilities s) →
  ModelProviders s' = ModelProviders (insert_providers who (model_ids cap)
    (remove_providers who (from_option model_ids [] (AgentCapabilities s !! who)) s)) →
  RegInv now s'.
Proof.
  intros [I1 I2 I3] Hn Hown HN HC HP. split; rewrite ?HN, ?HC, ?HP; try done.
  - intros who' c [[<- <-]|[_ Hc]]%lookup_insert_Some; [done|eauto].
  - intros m who'. rewrite lookup_insert_providers, lookup_remove_providers, lookup_insert.
    destruct (decide (who = who')) as [<-|Hne].
    + assert (m ∈ model_ids cap ↔ ∃ cap0, Some cap = Some cap0 ∧ m ∈ model_ids cap0) as <- by naive_solver.
      case_decide as Hin; [naive_solver|]. case_decide as Hold; [naive_solver|].
      rewrite I3. split; [|naive_solver]. intros (c & Hc & Hm). destruct Hold. by rewrite Hc.
    + rewrite !decide_False by naive_solver. apply I3.
Qed.

Lemma RegInv_node now s s' who n :
  RegInv now s → Nodes s' = <[who := n]> (Nodes s) → node_owner n = who → is_active n = true →
  registered_at n ≤ last_heartbeat n ≤ now →
  AgentCapabilities s' = AgentCapabilities s → ModelProviders s' = ModelProviders s → RegInv now s'.
Proof.
  intros [I1 I2 I3] HN Hown Hact Ht HC HP. split; rewrite ?HN, ?HC, ?HP; try done.
  - intros who' x [[<- <-]|[_ Hx]]%lookup_insert_Some; [done|eauto].
  - intros who' c Hc. destruct (I2 who' c Hc) as [? [x Hx]]. split; [done|].
    rewrite lookup_insert. case_decide; [done|by eexists].
Qed.

Lemma new_attestation_ok now aid who task hash model i o :
  attestation_ok T now (new_attestation T now aid who task hash model i o).
Proof. destruct HT as (? & ? & ?). by split_and!. Qed.

Lemma att_Inv_dispatch now o c w :
  AttInv T now w.1.1 ∧ RegInv now w.1.1 →
  AttInv T now (dispatch T now o c w).2.1.1 ∧ RegInv now (dispatch T now o c w).2.1.1.
Proof.
  intros [I J]. destruct w as [[s h] l].
  apply (transactional_preserves (λ w, AttInv T now w.1.1 ∧ RegInv now w.1.1)); [done|].
  intros [] [[s' h'] l'] Hrun. destruct c; simpl in *.
  - unfold register_node in Hrun. run_inv. split; [by apply (AttInv_same now s)|].
    eapply RegInv_node; [exact J|reflexivity|..]; simpl; done || lia.
  - unfold heartbeat in Hrun. run_inv. split; [by apply (AttInv_same now s)|].
    destruct (inv_node _ _ J _ _ ltac:(eassumption)) as (? & ? & ?).
    eapply RegInv_node; [exact J|reflexivity|..]; simpl; done || lia.
  - unfold submit_attestation in Hrun. run_inv. split; [|by apply (RegInv_same now s)].
    eapply AttInv_add; [exact I|reflexivity|..]; simpl; try done; [apply new_attestation_ok|].
    intros. by etrans; [apply task_count_task|].
  - unfold challenge_attestation in Hrun. run_inv. split; [|by apply (RegInv_same now s)].
    destruct (inv_att _ _ _ I _ _ ltac:(eassumption)) as (_ & _ & ? & ? & ? & Hst).
    eapply AttInv_update; [exact I|eassumption|reflexivity|..]; simpl; try done.
    unfold attestation_ok; simpl. split_and!; try done. by destruct (status _).
  - unfold confirm_attestation in Hrun. run_inv. split; [|by apply (RegInv_same now s)].
    destruct (inv_att _ _ _ I _ _ ltac:(eassumption)) as (_ & _ & ? & ? & ? & Hst).
    eapply AttInv_update; [exact I|eassumption|reflexivity|..]; simpl; done.
  - unfold resolve_challenge in Hrun. destruct guilty; run_inv; (split; [|by apply (RegInv_same now s)]);
      destruct (inv_att _ _ _ I _ _ ltac:(eassumption)) as (_ & _ & ? & ? & ? & Hst);
      (eapply AttInv_update; [exact I|eassumption|reflexivity|..]); simpl; done.
  - unfold update_capability in Hrun. run_inv. split; [by apply (AttInv_same now s)|].
    eapply (RegInv_capability now s); [exact J|eassumption| | |reflexivity|]; done.
Qed.

Lemma Inv_completed now who task hash model i o w :
  AttInv T now w.1.1 ∧ RegInv now w.1.1 →
  let w' := (on_task_completed T now who task hash model i o w).2 in
  AttInv T now w'.1.1 ∧ RegInv now w'.1.1.
Proof.
  intros [I J]. destruct w as [[s h] l]. cbv zeta.
  unfold on_task_completed, own_gets, gets, ok_or, checked_add, ensure, m_reserve, mbind, M_bind. simpl in *.
  destruct (_ <=? _) eqn:Hid; simpl; [|done]. guard_inv.
  assert (RegInv now (s <| NextAttestationId := NextAttestationId s + 1 |>)) as J' by by apply (RegInv_same now s).
  destruct (bounded _ _); simpl; [|by split; [apply (AttInv_skip now s)|]].
  destruct (reserve _ _ _); simpl; [|by split; [apply (AttInv_skip now s)|]].
  split; [|by apply (RegInv_same now s)].
  eapply AttInv_add; [exact I|reflexivity|..]; simpl; try done; [apply new_attestation_ok|].
  intros. by etrans; [apply task_count_task|].
Qed.

Lemma att_Inv_genesis now : AttInv T now genesis ∧ RegInv now genesis.
Proof.
  split; split; try done. simpl. intros m who. rewrite lookup_empty, is_Some_alt. naive_solver.
Qed.

Lemma att_Inv_step c c' :
  step c c' → AttInv T c.1 c.2.1.1 ∧ RegInv c.1 c.2.1.1 → AttInv T c'.1 c'.2.1.1 ∧ RegInv c'.1 c'.2.1.1.
Proof.
  intros [? ? []|]; simpl; [apply att_Inv_dispatch|apply Inv_completed|by apply att_Inv_later].
Qed.

Lemma att_Inv_reachable c : reachable c → AttInv T c.1 c.2.1.1 ∧ RegInv c.1 c.2.1.1.
Proof.
  intros (h & l & Hr). revert Hr.
  apply (rtc_invariant step (λ c, AttInv T c.1 c.2.1.1 ∧ RegInv c.1 c.2.1.1)).
  - apply att_Inv_step.
  - apply att_Inv_genesis.
Qed.

(** *** Deposits *)

Lemma owed_pending b att :
  status att = Pending → owed b att = at_account (attester att) (deposit att) b.
Proof.
  intros Hp. unfold owed, at_account. rewrite bool_decide_eq_true_2 by done. simpl.
  rewrite (bool_decide_ext _ (b = attester att)) by done. by case_bool_decide; case_decide.
Qed.
Lemma owed_closed b att : status att ≠ Pending → owed b att = 0.
Proof. intros Hp. unfold owed. by rewrite bool_decide_eq_false_2. Qed.

Lemma held_update s s' k att att' b :
  Attestations s !! k = Some att → Attestations s' = <[k := att']> (Attestations s) →
  held s' b = held s b - owed b att + owed b att'.
Proof.
  intros Hk Hm. unfold held, custodian. rewrite Hm. by rewrite (msum_insert_Some (λ _, owed b) _ _ _ _ Hk).
Qed.

Lemma held_add now s s' att b :
  AttInv T now s → Attestations s' = <[NextAttestationId s := att]> (Attestations s) →
  held s' b = held s b + owed b att.
Proof.
  intros I Hm. unfold held, custodian. rewrite Hm, msum_insert_None; [lia|].
  apply eq_None_not_Some. intros [x Hx]. destruct (inv_att _ _ _ I _ _ Hx). lia.
Qed.

Lemma held_covers now s k att :
  AttInv T now s → Attestations s !! k = Some att → status att = Pending →
  deposit att ≤ held s (attester att).
Proof.
  intros I Hk Hp. etrans; [|apply (msum_lookup_le (λ _, owed (attester att)) _ k att); [|done]].
  - rewrite owed_pending by done. unfold at_account. by rewrite decide_True.
  - intros k' b Hb. destruct (inv_att _ _ _ I k' b Hb) as (_ & _ & ? & _). unfold owed. case_match; lia.
Qed.

(** Closing a pending attestation while its deposit leaves the reserve. *)
Lemma solvent_close ext s s' (h : SH) l l' k att att' df :
  0 ≤ deposit att → Attestations s !! k = Some att → status att = Pending →
  Attestations s' = <[k := att']> (Attestations s) → status att' ≠ Pending →
  moves l l' df (at_account (attester att) (- Z.min (deposit att) (reserved_balance l (attester att)))) →
  solvent ext ((s, h), l) → solvent ext ((s', h), l').
Proof.
  intros Hd Hk Hp Hm Hnp Hmv. eapply solvent_release; [exact Hd|exact Hmv|].
  intros b. unfold held, pair_custodian; simpl.
  rewrite (held_update s s' k att att' b Hk Hm), owed_pending, (owed_closed b att') by done. lia.
Qed.

(** Slashing a part of a deposit and releasing the rest takes it whole out of
    the reserve. *)
Lemma slash_then_release l (a : AccountId) v sl :
  0 ≤ sl ≤ v →
  let l1 := (slash_reserved a sl l).1 in
  let l2 := (unreserve a (saturating_sub v sl) l1).1 in
  moves l l2 (at_account a (Z.min (v - sl) (reserved_balance l a - Z.min sl (reserved_balance l a))))
    (at_account a (- Z.min v (reserved_balance l a))).
Proof.
  intros Hsl. rewrite saturating_sub_exact by lia. intros l1 l2 b.
  destruct (slash_spec a sl l ltac:(lia)) as [_ Hs]. destruct (unreserve_spec a (v - sl) l1 ltac:(lia)) as [_ Hu].
  fold l1 in Hs. fold l2 in Hu. destruct (Hs b) as [Hsf Hsr], (Hu b) as [Huf Hur], (Hs a) as [_ Hsa].
  rewrite Huf, Hur, Hsf, Hsr. revert Hsa. unfold at_account. pose proof (balances_nonneg l a).
  rewrite (decide_True (P:=a = a)) by done. intros ->. destruct (decide (b = a)); [subst|]; lia.
Qed.

Lemma slash_bounds v : 0 ≤ v → 0 ≤ per_mul (from_percent (SlashPercent T)) v ≤ v.
Proof. intros Hv. apply per_mul_bounds; [|done]. apply from_percent_part. by destruct HT as (_ & _ & ?). Qed.

Lemma att_solvent_dispatch ext now o c w :
  AttInv T now w.1.1 → solvent ext w → solvent ext (dispatch T now o c w).2.
Proof.
  intros I Hs. destruct w as [[s h] l].
  apply (transactional_preserves (solvent ext)); [done|].
  intros [] [[s' h'] l'] Hrun. destruct c; simpl in *.
  - unfold register_node in Hrun. run_inv. exact Hs.
  - unfold heartbeat in Hrun. run_inv. exact Hs.
  - unfold submit_attestation in Hrun. run_inv.
    eapply solvent_reserve; [|eassumption| |exact Hs]; [by destruct HT|]. intros b. unfold held, pair_custodian; simpl.
    erewrite (held_add now s _ _ b I); [|reflexivity]. rewrite owed_pending by done. simpl. lia.
  - unfold challenge_attestation in Hrun. run_inv. revert Hs. apply solvent_reserved.
    intros b. unfold held, pair_custodian; simpl.
    erewrite (held_update s _ aid _ _ b); [|eassumption|reflexivity]. rewrite !owed_pending by done. simpl. lia.
  - unfold confirm_attestation in Hrun. run_inv.
    destruct (inv_att _ _ _ I _ _ ltac:(eassumption)) as (_ & _ & ? & _).
    match goal with |- solvent _ ((?s1, _), _) =>
      apply (with_callee_solvent _ ext ((s1, h), _)) end; [intros; by apply settle_solvent|].
    eapply solvent_close; [..|exact Hs]; [done|eassumption|done|reflexivity|done|].
    by apply unreserve_spec.
  - unfold resolve_challenge in Hrun. destruct guilty; run_inv;
      destruct (inv_att _ _ _ I _ _ ltac:(eassumption)) as (_ & _ & ? & _);
      (eapply solvent_close; [..|exact Hs]; [done|eassumption|done|reflexivity|done|]).
    + apply slash_then_release. by apply slash_bounds.
    + by apply unreserve_spec.
  - unfold update_capability in Hrun. run_inv. exact Hs.
Qed.

Lemma solvent_completed ext now who task hash model i o w :
  AttInv T now w.1.1 → solvent ext w →
  solvent ext (on_task_completed T now who task hash model i o w).2.
Proof.
  intros I Hs. destruct w as [[s h] l].
  unfold on_task_completed, own_gets, gets, ok_or, checked_add, ensure, m_reserve, mbind, M_bind. simpl in *.
  destruct (_ <=? _); simpl; [|done]. destruct (bounded _ _); simpl; [|done].
  destruct (reserve _ _ _) eqn:Hr; simpl; [|done].
  eapply solvent_reserve; [|exact Hr| |exact Hs]; [by destruct HT|]. intros b. unfold held, pair_custodian; simpl.
  erewrite (held_add now s _ _ b I); [|reflexivity]. rewrite owed_pending by done. simpl. lia.
Qed.

(** The pallet is the runtime's task completion handler. *)
Definition handler : TaskCompletionHandler L (State * SH) := {|
  handler_error := HandlerError;
  handler_inv now hs := AttInv T now hs.1 ∧ RegInv now hs.1;
  task_completed := on_task_completed T |}.
Lemma handler_laws : @TaskCompletionHandlerLaws L (State * SH) _ _ handler.
Proof.
  split; simpl; [intros; by apply Inv_completed|]. intros ext now ? ? ? ? ? ? w [I _]. by apply (solvent_completed ext now).
Qed.

(** What a step may do to one attestation at block [now]. *)
Inductive stage (now : BlockNumber) (a a' : Attestation) : Prop :=
| stage_same : a' = a → stage now a a'
| stage_challenge c : status a = Pending → challenger a = None → now ≤ challenge_end a →
    status a' = Pending → challenger a' = Some c → stage now a a'
| stage_confirm : status a = Pending → challenger a = None → challenge_end a < now →
    status a' = Confirmed → challenger a' = None → stage now a a'
| stage_resolve c : status a = Pending → challenger a = Some c →
    status a' = Slashed ∨ status a' = Defended → challenger a' = Some c → stage now a a'.

Definition advances (now : BlockNumber) s s' : Prop :=
  ∀ k a, Attestations s !! k = Some a →
    ∃ a', Attestations s' !! k = Some a' ∧ same_core a a' ∧ stage now a a'.

Lemma att_advances_insert now s s' k a' :
  (∀ a, Attestations s !! k = Some a → same_core a a' ∧ stage now a a') →
  Attestations s' = <[k := a']> (Attestations s) → advances now s s'.
Proof.
  intros Hi Hm k' b Hb. rewrite Hm, lookup_insert. destruct (decide (k = k')) as [<-|].
  - exists a'. split; [done|]. eauto.
  - exists b. split_and!; [done|done|by constructor].
Qed.
Lemma att_advances_same now s s' : Attestations s' = Attestations s → advances now s s'.
Proof. intros Hm k b Hb. exists b. rewrite Hm. by split_and!; [| |constructor]. Qed.

Lemma att_dispatch_advances now o c w :
  AttInv T now w.1.1 → advances now w.1.1 (dispatch T now o c w).2.1.1.
Proof.
  intros I. destruct w as [[s h] l].
  apply (transactional_preserves (λ w, advances now s w.1.1)); [by apply att_advances_same|].
  intros [] [[s' h'] l'] Hrun. destruct c; simpl in *.
  - unfold register_node in Hrun. run_inv. by apply att_advances_same.
  - unfold heartbeat in Hrun. run_inv. by apply att_advances_same.
  - unfold submit_attestation in Hrun. run_inv. eapply att_advances_insert; [|reflexivity].
    intros b Hb. destruct (inv_att _ _ _ I _ _ Hb). lia.
  - unfold challenge_attestation in Hrun. run_inv. eapply att_advances_insert; [|reflexivity].
    intros b Hb. simplify_eq. split; [done|]. by eapply stage_challenge.
  - unfold confirm_attestation in Hrun. run_inv. eapply att_advances_insert; [|reflexivity].
    intros b Hb. simplify_eq. split; [done|]. by eapply stage_confirm.
  - unfold resolve_challenge in Hrun. destruct guilty; run_inv; (eapply att_advances_insert; [|reflexivity]);
      intros b Hb; simplify_eq; (split; [done|]);
      match goal with Hc : is_Some (challenger _) |- _ => destruct Hc as [c Hc] end;
      apply stage_resolve with c; simpl; auto.
  - unfold update_capability in Hrun. run_inv. by apply att_advances_same.
Qed.

Lemma completed_advances now who task hash model i o w :
  AttInv T now w.1.1 → advances now w.1.1 (on_task_completed T now who task hash model i o w).2.1.1.
Proof.
  intros I. destruct w as [[s h] l].
  unfold on_task_completed, own_gets, gets, ok_or, checked_add, ensure, m_reserve, mbind, M_bind. simpl in *.
  destruct (_ <=? _); simpl; [|by apply att_advances_same]. destruct (bounded _ _); simpl; [|by apply att_advances_same].
  destruct (reserve _ _ _); simpl; [|by apply att_advances_same].
  eapply att_advances_insert; [|reflexivity]. intros b Hb. destruct (inv_att _ _ _ I _ _ Hb). lia.
Qed.

Lemma elem_of_providers s m who :
  who ∈ get_providers_for_model s m ↔
  is_Some (ModelProviders s !! (m, who)) ∧ ∃ n, Nodes s !! who = Some n ∧ is_active n = true.
Proof.
  unfold get_providers_for_model. rewrite list_elem_of_omap. split.
  - intros ([[m' who'] b] & Hin%elem_of_map_to_list & Hif). case_match eqn:E; [|done].
    guard_inv. simplify_eq. split; [by eexists|]. destruct (Nodes s !! who) eqn:?; [|done]. by eexists.
  - intros ([b Hb] & n & Hn & Hact). exists ((m, who), b). rewrite elem_of_map_to_list. split; [done|].
    rewrite Hn, bool_decide_eq_true_2 by done. simpl. by rewrite Hact.
Qed.

Lemma providers_NoDup s m : NoDup (get_providers_for_model s m).
Proof.
  unfold get_providers_for_model. pose proof (NoDup_fst_map_to_list (ModelProviders s)) as Hnd.
  induction (map_to_list (ModelProviders s)) as [|[[m' who] b] l IH]; simpl in *; [constructor|].
  apply NoDup_cons in Hnd as [Hni Hnd]. specialize (IH Hnd).
  destruct (bool_decide (m' = m) && _) eqn:E; [|done]. guard_inv. subst m'.
  constructor; [|done]. rewrite list_elem_of_omap. intros ([[m2 who2] b2] & Hin & Hif).
  destruct (bool_decide (m2 = m) && _) eqn:E2; simplify_eq. guard_inv. subst. destruct Hni. apply list_elem_of_fmap.
  by exists ((m, who), b2).
Qed.

(** The slashed part is the configured percentage to the nearest unit. *)
Lemma slash_part_nearest v :
  0 ≤ v → SlashPercent T ≤ 100 →
  - 50 ≤ 100 * per_mul (from_percent (SlashPercent T)) v - SlashPercent T * v ≤ 50.
Proof.
  intros Hv Hpct. destruct HT as (_ & _ & Hp).
  pose proof (per_mul_nearest (from_percent (SlashPercent T)) v (from_percent_part _ Hp) Hv) as Hn.
  pose proof (from_percent_exact (SlashPercent T) (conj Hp Hpct)) as Hx. pose proof accuracy_pos.
  generalize dependent (per_mul (from_percent (SlashPercent T)) v). intros pm Hn.
  assert (100 * (from_percent (SlashPercent T) * v) = accuracy * (SlashPercent T * v)) as Hxv by nia.
  split; nia.
Qed.

(** C5: in every reachable state the pallet's storage is consistent: each
    attestation is filed under its own fresh id with the challenge window its
    submission fixed, it is confirmed only unchallenged and after that window
    and slashed or defended only when challenged, the per-task counters count
    the attestations, every capability belongs to a registered node and the
    provider index lists exactly the models of the current capabilities. *)
Theorem att_reachable_invariant c : reachable c → AttInv T c.1 c.2.1.1 ∧ RegInv c.1 c.2.1.1.
Proof. apply att_Inv_reachable. Qed.

(** No call and no task completion, whether it succeeds, fails or fails
    half-way, promises more deposits than are reserved, also through the
    settlement that a confirmation triggers in another pallet and whose error
    it ignores. *)
Theorem att_steps_solvent ext c c' :
  reachable c → pallet_step c c' → solvent ext c.2 → solvent ext c'.2.
Proof.
  intros [I _]%att_Inv_reachable Hstep Hs. destruct Hstep; simpl in *.
  - by apply att_solvent_dispatch.
  - by apply solvent_completed.
Qed.

(** C6: resolving a challenge splits the deposit exactly: with a guilty
    attester the slashed part of it, the configured percentage to the nearest
    unit, leaves the reserve for good and the rest returns to the attester's
    free balance; otherwise all of it returns. Only root resolves, only a
    challenged pending attestation, and no other account is touched. *)
Theorem att_resolve_splits_deposit ext now o aid guilty s h l s' h' l' :
  (∀ b, 0 ≤ ext b) → AttInv T now s → solvent ext (s, l) → SlashPercent T ≤ 100 →
  dispatch T now o (ResolveChallenge aid guilty) ((s, h), l) = (Ok tt, ((s', h'), l')) →
  ∃ att c slashed,
    o = Root ∧ h' = h ∧ Attestations s !! aid = Some att ∧
    status att = Pending ∧ challenger att = Some c ∧ 0 ≤ slashed ≤ deposit att ∧
    (if guilty : bool then - 50 ≤ 100 * slashed - SlashPercent T * deposit att ≤ 50
     else slashed = 0) ∧
    moves l l' (at_account (attester att) (deposit att - slashed))
      (at_account (attester att) (- deposit att)) ∧
    Attestations s' =
      <[aid := att <| status := if guilty then Slashed else Defended |>]> (Attestations s).
Proof.
  intros Hext I Hs Hpct Hrun. apply transactional_Ok in Hrun. cbn iota in Hrun.
  unfold resolve_challenge in Hrun. destruct guilty; run_inv;
    match goal with Hi : Attestations s !! aid = Some ?i, Hc : is_Some (challenger _) |- _ =>
      exists i; rename Hi into Hlk; destruct Hc as [c Hc]; exists c; rename i into att end;
    destruct (inv_att _ _ _ I aid att Hlk) as (_ & _ & Hd & _);
    pose proof (solvent_covers ext s l _ _ Hext (held_covers now s aid att I Hlk ltac:(done)) Hs) as Hcov.
  - exists (per_mul (from_percent (SlashPercent T)) (deposit att)).
    pose proof (slash_bounds (deposit att) Hd) as Hb. split_and!; try done; try lia.
    1,2: pose proof (slash_part_nearest (deposit att) Hd Hpct); lia.
    pose proof (slash_then_release l (attester att) (deposit att) _ Hb) as Hm. cbv zeta in Hm.
    by rewrite !Z.min_l in Hm by lia.
  - exists 0. rewrite Z.sub_0_r. destruct (unreserve_spec (attester att) (deposit att) l Hd) as [_ Hm].
    rewrite Z.min_l in Hm by done. by split_and!.
Qed.

(** The life of an attestation: it is never removed and what it attests,
    its deposit and its window never change; it is challenged at most once and
    only inside the window, confirmed only unchallenged and after the window,
    and slashed or defended only once challenged; a confirmed, slashed or
    defended attestation never changes again. *)
Theorem att_lifecycle c c' : reachable c → step c c' → advances c.1 c.2.1.1 c'.2.1.1.
Proof.
  intros [I _]%att_Inv_reachable Hstep. destruct Hstep as [? ? []|]; simpl in *.
  - by apply att_dispatch_advances.
  - by apply completed_advances.
  - by apply att_advances_same.
Qed.

(** The lookup of a model's providers is exact: although it reads the
    incremental index and filters on activity, it returns precisely the
    accounts whose current capability lists the model, each once. *)
Theorem att_providers_exact c m :
  reachable c →
  NoDup (get_providers_for_model c.2.1.1 m) ∧
  ∀ who, who ∈ get_providers_for_model c.2.1.1 m ↔
    ∃ cap, AgentCapabilities c.2.1.1 !! who = Some cap ∧ m ∈ model_ids cap.
Proof.
  intros [_ J]%att_Inv_reachable. split; [apply providers_NoDup|].
  intros who. rewrite elem_of_providers, (inv_index _ _ J). split; [naive_solver|].
  intros (cap & Hc & Hm). split; [eauto|]. destruct (inv_cap _ _ J _ _ Hc) as [_ [n Hn]].
  exists n. split; [done|]. by destruct (inv_node _ _ J _ _ Hn) as (_ & ? & _).
Qed.
End theory.

(** ** A run with the x402 pallet as the settler

    Account 1 has 1000 free, registers, offers a model and attests a task with a
    deposit of 100; account 2 challenges at block 3 and root finds account 1
    guilty at block 4, which costs it half of the deposit. *)
Module Demo.
#[local] Existing Instances X402.settler X402.settler_laws X402.custodian perbill perbill_laws.
Definition T : Config := {|
  AttestationDeposit := 100; ChallengeWindow := 10; SlashPercent := 50; HeartbeatInterval := 5;
  MaxModelIdLen := 8; MaxGpuUuidLen := 8; MaxModelsPerAgent := 4;
  AdminOrigin o := match o with Root => true | _ => false end |}.
Definition ledger : Ledger.t := {[1 := (1000, 0); 2 := (10, 0)]}%N.
Abbreviation World := ((State * X402.State) * Ledger.t)%type.
Definition model : bytes := [Byte.x01].
Definition start : World := ((genesis, X402.genesis), ledger).
Definition registered : World := (dispatch T 0 (Signed 1%N) (RegisterNode [] 10) start).2.
Definition offered : World :=
  (dispatch T 0 (Signed 1%N) (UpdateCapability [model] 1 5 []) registered).2.
Definition submitted : World :=
  (dispatch T 0 (Signed 1%N) (SubmitAttestation 7 77%N model 1 1) offered).2.
Definition confirmed : World := (dispatch T 11 Root (ConfirmAttestation 0) submitted).2.
Definition challenged : World :=
  (dispatch T 3 (Signed 2%N) (ChallengeAttestation 0) submitted).2.
Definition resolved : World := (dispatch T 4 Root (ResolveChallenge 0 true) challenged).2.
#[local] Strategy 1000 [start registered offered submitted confirmed challenged resolved].

Lemma att_T_typed : config_typed T.
Proof. by unfold config_typed. Qed.

Lemma offered_reachable : reachable T (0, offered).
Proof.
  exists X402.genesis, ledger. eapply rtc_l; [apply step_pallet, step_call|].
  apply rtc_once, step_pallet. apply (step_call T 0 registered).
Qed.
Lemma att_submitted_reachable : reachable T (0, submitted).
Proof.
  destruct offered_reachable as (h & l & Hr). exists h, l. eapply rtc_r; [exact Hr|].
  apply step_pallet. apply (step_call T 0 offered).
Qed.
Lemma later_reachable : reachable T (11, submitted).
Proof.
  destruct att_submitted_reachable as (h & l & Hr). exists h, l. eapply rtc_r; [exact Hr|].
  rewrite (surjective_pairing submitted), (surjective_pairing submitted.1). by apply step_other.
Qed.
Lemma submitted_Inv now : 0 ≤ now → AttInv T now submitted.1.1 ∧ RegInv now submitted.1.1.
Proof. intros ?. apply (att_Inv_later T 0); [done|]. apply (att_Inv_reachable T att_T_typed _ att_submitted_reachable). Qed.
Lemma challenged_Inv : AttInv T 4 challenged.1.1.
Proof.
  eapply (att_Inv_later T 3); [lia|]. apply (att_Inv_dispatch T att_T_typed 3 (Signed 2%N) _ submitted).
  by apply submitted_Inv.
Qed.

Lemma start_solvent : solvent (λ _, 0) start.
Proof. intros a. apply Ledger.nonneg. Qed.
Lemma att_submitted_solvent : solvent (λ _, 0) submitted.
Proof.
  apply (att_solvent_dispatch T att_T_typed); [by apply (att_Inv_reachable T att_T_typed _ offered_reachable)|].
  apply (att_solvent_dispatch T att_T_typed). { apply (att_Inv_dispatch T att_T_typed), att_Inv_genesis. }
  apply (att_solvent_dispatch T att_T_typed); [apply att_Inv_genesis|exact start_solvent].
Qed.

Lemma challenged_solvent : solvent (λ _, 0) challenged.
Proof. apply (att_solvent_dispatch T att_T_typed); [by apply submitted_Inv|exact att_submitted_solvent]. Qed.

Lemma att_reachable_invariant_witness :
  AttInv T 0 submitted.1.1 ∧ task_count submitted.1.1 1%N 7 = 1.
Proof.
  split; [|vm_compute; reflexivity].
  exact (proj1 (att_reachable_invariant T att_T_typed (0, submitted) att_submitted_reachable)).
Defined.

Lemma att_steps_solvent_witness :
  Attestations confirmed.1.1 !! 0 = (λ a, a <| status := Confirmed |>) <$> Attestations submitted.1.1 !! 0 ∧
  solvent (λ _, 0) confirmed.
Proof.
  split; [vm_compute; reflexivity|].
  apply (att_steps_solvent T att_T_typed (λ _, 0) (11, submitted) (11, confirmed)).
  - exact later_reachable.
  - apply step_call.
  - exact att_submitted_solvent.
Defined.

Lemma att_resolve_splits_deposit_witness :
  dispatch T 4 Root (ResolveChallenge 0 true) challenged = (Ok tt, resolved) ∧
  ∃ att c slashed, Attestations challenged.1.1 !! 0 = Some att ∧ challenger att = Some c ∧
    moves challenged.2 resolved.2 (at_account (attester att) (deposit att - slashed))
      (at_account (attester att) (- deposit att)).
Proof.
  assert (dispatch T 4 Root (ResolveChallenge 0 true) challenged = (Ok tt, resolved)) as Hrun
    by (apply run_eta; vm_compute; reflexivity).
  split; [exact Hrun|].
  destruct (att_resolve_splits_deposit T att_T_typed (λ a, 0 + held challenged.1.2 a) 4 Root 0 true
    challenged.1.1 challenged.1.2 challenged.2 resolved.1.1 resolved.1.2 resolved.2)
    as (att & c & sl & _ & _ & H1 & _ & H2 & _ & _ & H3 & _).
  - intros a. assert (challenged.1.2 = X402.genesis) as -> by (vm_compute; reflexivity).
    assert (held X402.genesis a = 0) as -> by apply msum_empty. lia.
  - exact challenged_Inv.
  - apply solvent_fst. exact challenged_solvent.
  - simpl. lia.
  - rewrite <-!surjective_pairing. exact Hrun.
  - exists att, c, sl. split_and!; assumption.
Defined.

Lemma att_lifecycle_witness :
  advances 0 submitted.1.1 (dispatch T 0 (Signed 2%N) (ChallengeAttestation 0) submitted).2.1.1.
Proof.
  exact (att_lifecycle T att_T_typed (0, submitted) (0, _) att_submitted_reachable
           (step_pallet T _ _ (step_call T 0 submitted (Signed 2%N) (ChallengeAttestation 0)))).
Defined.

Lemma att_providers_exact_witness :
  get_providers_for_model offered.1.1 model = [1%N] ∧
  ∃ cap, AgentCapabilities offered.1.1 !! 1%N = Some cap ∧ model ∈ model_ids cap.
Proof.
  assert (get_providers_for_model offered.1.1 model = [1%N]) as Hp by (vm_compute; reflexivity).
  split; [exact Hp|].
  apply (proj2 (att_providers_exact T att_T_typed (0, offered) model offered_reachable) 1%N).
  change (0, offered).2 with offered. rewrite Hp. constructor.
Defined.
End Demo.
End Attestation.
