(* ===== verification/ComputePool.v ===== *)
(** * pallet-compute-pool-scheduler: data and operations

    GPU owners register pools with a deposit; users submit tasks, which reserve
    a reward and a deposit in escrow and go to the best scored pool (or one the
    user prefers); the pool owner submits a proof, which anyone else verifies or
    a hook approves after a timeout; tasks that outlive their timeout fail.
    [Scheduler.State] is the pallet's storage, one definition per dispatchable,
    hook and helper of src/pallets/compute-pool-scheduler/src/lib.rs. The
    pallet notifies a [TaskCompletionHandler], whose state [SH] runs beside its
    own. What is proved of it is in the files PoolScoring, PoolInvariant and
    PoolMoney. *)
From stdpp Require Import base gmap fin_maps list numbers.
From Stdlib Require Import ZArith Lia.
From S2P Require Import Prelude Currency Interfaces.

Module Scheduler.

Inductive PoolStatus := Active | Inactive | Deregistered.
#[export] Instance PoolStatus_eq_dec : EqDecision PoolStatus.
Proof. solve_decision. Defined.

Inductive TaskPriority := Low | Normal | High | Critical.

Inductive TaskStatus :=
| Pending | Assigned | Computing | ProofSubmitted | Verifying | Completed | Failed.
#[export] Instance TaskStatus_eq_dec : EqDecision TaskStatus.
Proof. solve_decision. Defined.

Record TaskDimensions := { dim_m : Z; dim_n : Z; dim_k : Z }.

Record PoolScore := {
  reputation_score : Z;
  success_rate_score : Z;
  price_score : Z;
  nvlink_score : Z;
  final_score : Z;
}.
Definition default_score : PoolScore := {|
  reputation_score := 0; success_rate_score := 0; price_score := 0; nvlink_score := 0;
  final_score := 0 |}.

Record ComputePool := {
  pool_id : Z;
  owner : AccountId;
  gpu_model : bytes;
  gpu_memory : Z;
  has_nvlink : bool;
  nvlink_efficiency : Z;
  price_per_task : Balance;
  reputation : Z;
  success_rate : Z;
  total_tasks : Z;
  completed_tasks : Z;
  failed_tasks : Z;
  pool_status : PoolStatus;
  deposit_held : Balance;
  score : PoolScore;
}.
#[export] Instance ComputePool_eta : RecordEta ComputePool := λ p,
  Build_ComputePool (pool_id p) (owner p) (gpu_model p) (gpu_memory p) (has_nvlink p)
    (nvlink_efficiency p) (price_per_task p) (reputation p) (success_rate p) (total_tasks p)
    (completed_tasks p) (failed_tasks p) (pool_status p) (deposit_held p) (score p).

Record ComputeTask := {
  task_id : Z;
  user : AccountId;
  task_pool : Z;
  dimensions : TaskDimensions;
  priority : TaskPriority;
  status : TaskStatus;
  submitted_at : BlockNumber;
  proof_hash : option H256;
  verification_result : option bool;
  reward_amount : option Balance;
  disputed : bool;
}.
#[export] Instance ComputeTask_eta : RecordEta ComputeTask := λ t,
  Build_ComputeTask (task_id t) (user t) (task_pool t) (dimensions t) (priority t) (status t)
    (submitted_at t) (proof_hash t) (verification_result t) (reward_amount t) (disputed t).

Record ReputationInfo := {
  rep_reputation : Z;
  rep_total_tasks : Z;
  rep_successful_tasks : Z;
  rep_failed_tasks : Z;
}.
#[export] Instance ReputationInfo_eta : RecordEta ReputationInfo := λ r,
  Build_ReputationInfo (rep_reputation r) (rep_total_tasks r) (rep_successful_tasks r)
    (rep_failed_tasks r).
Definition default_reputation : ReputationInfo := {|
  rep_reputation := 80; rep_total_tasks := 0; rep_successful_tasks := 0; rep_failed_tasks := 0 |}.

Record TaskEscrow := {
  esc_user : AccountId;
  esc_pool_owner : AccountId;
  esc_reward : Balance;
  esc_deposit : Balance;
  claimed : bool;
}.
#[export] Instance TaskEscrow_eta : RecordEta TaskEscrow := λ e,
  Build_TaskEscrow (esc_user e) (esc_pool_owner e) (esc_reward e) (esc_deposit e) (claimed e).

Inductive Event :=
| PoolRegistered (pid : Z) (who : AccountId)
| PoolConfigUpdated (pid : Z)
| PoolDeregistered (pid : Z) (who : AccountId)
| TaskSubmitted (tid : Z) (who : AccountId)
| TaskAssigned (tid pid final : Z)
| TaskStatusChanged (tid : Z) (st : TaskStatus)
| ProofSubmittedEvent (tid pid : Z)
| ProofVerified (tid : Z) (result : bool)
| RewardAvailable (tid : Z) (amount : Balance)
| RewardClaimed (tid : Z) (who : AccountId) (amount : Balance)
| VerificationDisputed (tid : Z) (who : AccountId)
| TaskTimedOut (tid : Z)
| PoolSlashed (pid : Z) (amount : Balance)
| Staked (who : AccountId) (pid : Z) (amount : Balance)
| Unstaked (who : AccountId) (pid : Z) (amount : Balance)
| StakeSlashed (pid : Z) (amount : Balance).

Inductive Error :=
| PoolAlreadyExists | PoolNotFound | NotPoolOwner | PoolInactive | InvalidNvlinkEfficiency
| InvalidDimensions | TaskNotFound | NoAvailablePool | InvalidTaskState | NotTaskUser
| NotAssignedPoolOwner | InvalidProof | RewardNotAvailable | RewardAlreadyClaimed | TaskExpired
| DisputeNotAllowed | TooManyActiveTasks | ActiveTasksExist | InsufficientBalance
| ArithmeticOverflow | InsufficientStake | StakeNotFound | DisputeAlreadyFiled
| SelfVerificationNotAllowed | ProofNotSubmitted.

(** The storage maps are keyed by a hash, so the order in which their entries
    are visited is the database's: [pools_iter] and [pool_tasks_iter] give it. *)
Record Config := {
  PoolDeposit : Balance;
  TaskDeposit : Balance;
  FailureSlash : Balance;
  TaskTimeout : BlockNumber;
  MinPoolStake : Balance;
  StakeSlashPercent : Z;
  MaxTasksPerPool : Z;
  InitialReputation : Z;
  VerificationTimeout : BlockNumber;
  pools_iter : gmap Z ComputePool → list (Z * ComputePool);
  pool_tasks_iter : gmap Z (list Z) → list (Z * list Z);
}.

(** The range of the constants' types; iteration visits every entry once. *)
Record config_typed (T : Config) : Prop := {
  cfg_deposits : 0 ≤ PoolDeposit T ∧ 0 ≤ TaskDeposit T ∧ 0 ≤ FailureSlash T;
  cfg_times : 0 ≤ TaskTimeout T ∧ 0 ≤ VerificationTimeout T;
  cfg_max : 0 ≤ MaxTasksPerPool T ≤ U32_MAX;
  cfg_reputation : 0 ≤ InitialReputation T;
  cfg_pools_iter m : pools_iter T m ≡ₚ map_to_list m;
  cfg_pool_tasks_iter m : pool_tasks_iter T m ≡ₚ map_to_list m;
}.

Record State := {
  NextPoolId : Z;
  NextTaskId : Z;
  Pools : gmap Z ComputePool;
  PoolByOwner : gmap AccountId Z;
  Tasks : gmap Z ComputeTask;
  PoolTasks : gmap Z (list Z);
  ActiveTaskCount : gmap Z Z;
  MinerReputation : gmap AccountId ReputationInfo;
  Rewards : gmap Z Balance;
  TaskEscrowStore : gmap Z TaskEscrow;
  PoolStakes : gmap (Z * AccountId) Balance;
  TotalPoolStake : gmap Z Balance;
  ProofSubmittedAt : gmap Z BlockNumber;
  events : list Event;
}.
#[export] Instance State_eta : RecordEta State := λ s,
  Build_State (NextPoolId s) (NextTaskId s) (Pools s) (PoolByOwner s) (Tasks s) (PoolTasks s)
    (ActiveTaskCount s) (MinerReputation s) (Rewards s) (TaskEscrowStore s) (PoolStakes s)
    (TotalPoolStake s) (ProofSubmittedAt s) (events s).

Definition genesis : State := {|
  NextPoolId := 0; NextTaskId := 0; Pools := ∅; PoolByOwner := ∅; Tasks := ∅; PoolTasks := ∅;
  ActiveTaskCount := ∅; MinerReputation := ∅; Rewards := ∅; TaskEscrowStore := ∅;
  PoolStakes := ∅; TotalPoolStake := ∅; ProofSubmittedAt := ∅; events := [] |}.

(** The getters of the maps with a default. *)
Definition pool_tasks (s : State) (pid : Z) : list Z := default [] (PoolTasks s !! pid).
Definition active_task_count (s : State) (pid : Z) : Z := default 0 (ActiveTaskCount s !! pid).
Definition pool_stake (s : State) (pid : Z) (who : AccountId) : Balance :=
  default 0 (PoolStakes s !! (pid, who)).
Definition total_pool_stake (s : State) (pid : Z) : Balance := default 0 (TotalPoolStake s !! pid).
Definition miner_reputation (s : State) (who : AccountId) : ReputationInfo :=
  default default_reputation (MinerReputation s !! who).

Definition deposit_event (e : Event) (s : State) : State :=
  s <| events ::= λ es, es ++ [e] |>.

(** ** Scores, rewards and selection *)

Definition is_terminal (st : TaskStatus) : bool :=
  match st with Completed | Failed => true | _ => false end.

(** [None] is the arithmetic overflow. *)
Definition calculate_reward (d : TaskDimensions) (price : Balance) (nvlink : bool)
    (efficiency : Z) : option Balance :=
  mn ← checked_mul U128_MAX (dim_m d) (dim_n d);
  complexity ← checked_mul U128_MAX mn (dim_k d);
  let complexity_factor := Z.max 1 (complexity / 1000000) in
  let base_price := saturated_into U128_MAX price in
  reward ← checked_mul U128_MAX base_price complexity_factor;
  reward ← (if nvlink then
              x ← checked_mul U128_MAX reward efficiency; Some (x / 100)
            else Some reward);
  Some (saturated_into U128_MAX reward).

Definition calculate_pool_score (pool : ComputePool) (min_price max_price : Z) : PoolScore :=
  let reputation_score := Z.min (reputation pool) 100 in
  let success_rate_score := Z.min (success_rate pool) 100 in
  let price := saturated_into U128_MAX (price_per_task pool) in
  let normalized_price_score :=
    if max_price =? min_price then 100
    else
      let spread := saturating_sub max_price min_price in
      let delta := saturating_sub price min_price in
      saturating_sub 100 (saturating_mul U128_MAX delta 100 / spread) mod 2 ^ 32 in
  let nvlink_score :=
    if has_nvlink pool
    then saturating_mul U32_MAX (Z.min (nvlink_efficiency pool) 150) 100 / 150 else 0 in
  let reputation_component := saturating_mul U32_MAX reputation_score 40 in
  let success_component := saturating_mul U32_MAX success_rate_score 30 in
  let price_component := saturating_mul U32_MAX normalized_price_score 20 in
  let nvlink_component := saturating_mul U32_MAX nvlink_score 10 in
  {| reputation_score := reputation_component;
     success_rate_score := success_component;
     price_score := price_component;
     nvlink_score := nvlink_component;
     final_score :=
       saturating_add U32_MAX (saturating_add U32_MAX
         (saturating_add U32_MAX reputation_component success_component)
         price_component) nvlink_component |}.

(** The prices' range, and the first candidate with the highest score, as the
    two loops of the selection compute them. *)
Definition price_range (candidates : list (Z * ComputePool)) : Z * Z :=
  foldl (λ '(min_price, max_price) '(_, pool),
    let p := saturated_into U128_MAX (price_per_task pool) in
    (if p <? min_price then p else min_price, if max_price <? p then p else max_price))
    (U128_MAX, 0) candidates.

Definition best_scored (min_price max_price : Z) (candidates : list (Z * ComputePool)) :
    option (Z * PoolScore) :=
  foldl (λ best '(pid, pool),
    let sc := calculate_pool_score pool min_price max_price in
    match best with
    | Some (_, current) =>
        if final_score sc <=? final_score current then best else Some (pid, sc)
    | None => Some (pid, sc)
    end) None candidates.

Definition ensure_nvlink {S} (nvlink : bool) (efficiency : Z) : M S (DispatchError Error) unit :=
  if nvlink
  then ensure ((120 <=? efficiency) && (efficiency <=? 150)) (Module InvalidNvlinkEfficiency)
  else ensure (efficiency =? 100) (Module InvalidNvlinkEfficiency).

Section pallet.
Context `{ReservableCurrency L} {SH : Type} `{TaskCompletionHandler L SH} (T : Config).
Abbreviation MP := (M ((State * SH) * L) (DispatchError Error)).

(** The pools a task may go to: of the first 50 the database yields, the active
    ones with room and enough memory. *)
Definition candidates (s : State) (task : ComputeTask) : list (Z * ComputePool) :=
  filter (λ '(pid, pool),
    pool_status pool = Active ∧ active_task_count s pid < MaxTasksPerPool T ∧
    dim_k (dimensions task) ≤ gpu_memory pool) (take 50 (pools_iter T (Pools s))).

Definition set_score (pid : Z) (sc : PoolScore) (s : State) : State :=
  s <| Pools ::= alter (λ pool, pool <| score := sc |>) pid |>.

Definition select_best_pool_for_task (task : ComputeTask) : MP (Z * PoolScore) :=
  cands ← own_gets (λ s, candidates s task);
  ensure (negb (bool_decide (cands = []))) (Module NoAvailablePool);;
  let '(min_price, max_price) := price_range cands in
  selected ← ok_or (best_scored min_price max_price cands) (Module NoAvailablePool);
  own_modify (set_score selected.1 selected.2);;
  mret selected.

Definition decrement_pool_activity (pid tid : Z) (s : State) : State :=
  s <| ActiveTaskCount ::= <[pid := saturating_sub (active_task_count s pid) 1]> |>
    <| PoolTasks ::= <[pid := filter (λ id, id ≠ tid) (pool_tasks s pid)]> |>.

Definition rate_pool (success : bool) (pool : ComputePool) : ComputePool :=
  let total := saturating_add U32_MAX (total_tasks pool) 1 in
  let completed :=
    if success then saturating_add U32_MAX (completed_tasks pool) 1 else completed_tasks pool in
  let failed :=
    if success then failed_tasks pool else saturating_add U32_MAX (failed_tasks pool) 1 in
  pool <| total_tasks := total |> <| completed_tasks := completed |> <| failed_tasks := failed |>
    <| success_rate :=
         if 0 <? total then Z.min (saturating_mul U32_MAX completed 100 / total) 100
         else success_rate pool |>
    <| reputation :=
         if success then Z.min (saturating_add U32_MAX (reputation pool) 1) 100
         else saturating_sub (reputation pool) 2 |>.

Definition rate_miner (success : bool) (rep : ReputationInfo) : ReputationInfo :=
  let rep := rep <| rep_total_tasks ::= λ n, saturating_add U32_MAX n 1 |> in
  if success then
    rep <| rep_successful_tasks ::= λ n, saturating_add U32_MAX n 1 |>
        <| rep_reputation ::= λ n, Z.min (saturating_add U32_MAX n 1) 100 |>
  else
    rep <| rep_failed_tasks ::= λ n, saturating_add U32_MAX n 1 |>
        <| rep_reputation ::= λ n, saturating_sub n 2 |>.

Definition update_reputation (pid : Z) (success : bool) (s : State) : State :=
  match Pools s !! pid with
  | Some pool =>
      s <| Pools ::= <[pid := rate_pool success pool]> |>
        <| MinerReputation ::=
             <[owner pool := rate_miner success (miner_reputation s (owner pool))]> |>
  | None => s
  end.

(** [Tasks::try_mutate]. *)
Definition mutate_task (tid : Z) (f : ComputeTask → ComputeTask) : MP unit :=
  maybe_task ← own_gets (λ s, Tasks s !! tid);
  t ← ok_or maybe_task (Module TaskNotFound);
  own_modify (λ s, s <| Tasks ::= <[tid := f t]> |>).

Definition release_escrow (tid : Z) : MP unit :=
  own_modify (λ s, s <| Rewards ::= delete tid |>);;
  maybe_escrow ← own_gets (λ s, TaskEscrowStore s !! tid);
  own_modify (λ s, s <| TaskEscrowStore ::= delete tid |>);;
  match maybe_escrow with
  | Some escrow =>
      let total := saturating_add U128_MAX (esc_reward escrow) (esc_deposit escrow) in
      m_unreserve (esc_user escrow) total;; mret tt
  | None => mret tt
  end.

Definition slash_pool (pid : Z) : MP unit :=
  maybe_pool ← own_gets (λ s, Pools s !! pid);
  pool ← ok_or maybe_pool (Module PoolNotFound);
  if deposit_held pool =? 0 then mret tt
  else
    let slash_amount :=
      if FailureSlash T <? deposit_held pool then FailureSlash T else deposit_held pool in
    unslashed ← m_slash_reserved (owner pool) slash_amount;
    let actual_slashed := saturating_sub slash_amount unslashed in
    (if actual_slashed =? 0 then mret tt
     else own_modify (deposit_event (PoolSlashed pid actual_slashed)));;
    own_modify (λ s, s <| Pools ::=
      <[pid := pool <| deposit_held ::= λ d, saturating_sub d actual_slashed |>]> |>).

Definition mark_task_failed (tid : Z) (timed_out : bool) : MP unit :=
  maybe_task ← own_gets (λ s, Tasks s !! tid);
  task ← ok_or maybe_task (Module TaskNotFound);
  if is_terminal (status task) then mret tt
  else
    mutate_task tid (λ t, t <| status := Failed |> <| verification_result := Some false |>);;
    own_modify (decrement_pool_activity (task_pool task) tid);;
    own_modify (update_reputation (task_pool task) false);;
    own_modify (λ s, s <| ProofSubmittedAt ::= delete tid |>);;
    release_escrow tid;;
    slash_pool (task_pool task);;
    (if timed_out then own_modify (deposit_event (TaskTimedOut tid)) else mret tt);;
    own_modify (deposit_event (TaskStatusChanged tid Failed)).

Definition finalize_verification (now : BlockNumber) (tid pid : Z) (result : bool) : MP unit :=
  maybe_proof ← own_gets (λ s, Tasks s !! tid ≫= proof_hash);
  hash ← ok_or maybe_proof (Module ProofNotSubmitted);
  mutate_task tid (λ t, t <| status := Verifying |>);;
  own_modify (deposit_event (TaskStatusChanged tid Verifying));;
  let final := if result then Completed else Failed in
  mutate_task tid (λ t, t <| verification_result := Some result |> <| status := final |>);;
  own_modify (deposit_event (ProofVerified tid result));;
  own_modify (deposit_event (TaskStatusChanged tid final));;
  own_modify (decrement_pool_activity pid tid);;
  own_modify (update_reputation pid result);;
  own_modify (λ s, s <| ProofSubmittedAt ::= delete tid |>);;
  if result then
    maybe_reward ← own_gets (λ s, Tasks s !! tid ≫= reward_amount);
    match maybe_reward with
    | Some amount =>
        own_modify (λ s, s <| Rewards ::= <[tid := amount]> |>);;
        own_modify (deposit_event (RewardAvailable tid amount))
    | None => mret tt
    end;;
    maybe_task ← own_gets (λ s, Tasks s !! tid);
    final_task ← ok_or maybe_task (Module TaskNotFound);
    maybe_pool ← own_gets (λ s, Pools s !! task_pool final_task);
    pool ← ok_or maybe_pool (Module PoolNotFound);
    ignore (with_callee (task_completed now (owner pool) tid hash [] 0 0))
  else
    release_escrow tid;;
    slash_pool pid.

(** ** Dispatchables *)

Definition register_pool (origin : Origin) (model : bytes) (memory : Z) (nvlink : bool)
    (efficiency : Z) (price : Balance) : MP unit :=
  owner ← ensure_signed origin;
  known ← own_gets (λ s, bool_decide (is_Some (PoolByOwner s !! owner)));
  ensure (negb known) (Module PoolAlreadyExists);;
  ensure (0 <? memory) (Module InvalidDimensions);;
  ensure (negb (price =? 0)) (Module InsufficientBalance);;
  ensure_nvlink nvlink efficiency;;
  m_reserve owner (PoolDeposit T) (Module InsufficientBalance);;
  pid ← own_gets NextPoolId;
  own_modify (λ s, s <| Pools ::= <[pid := {|
    pool_id := pid; owner := owner; gpu_model := model; gpu_memory := memory;
    has_nvlink := nvlink; nvlink_efficiency := efficiency; price_per_task := price;
    reputation := Z.min (InitialReputation T) 100; success_rate := 100; total_tasks := 0;
    completed_tasks := 0; failed_tasks := 0; pool_status := Active;
    deposit_held := PoolDeposit T; score := default_score |}]> |>);;
  own_modify (λ s, s <| PoolByOwner ::= <[owner := pid]> |>);;
  own_modify (λ s, s <| MinerReputation ::= <[owner := {|
    rep_reputation := Z.min (InitialReputation T) 100; rep_total_tasks := 0;
    rep_successful_tasks := 0; rep_failed_tasks := 0 |}]> |>);;
  own_modify (λ s, s <| ActiveTaskCount ::= <[pid := 0]> |>);;
  next_pool_id ← ok_or (checked_add U64_MAX pid 1) (Module ArithmeticOverflow);
  own_modify (λ s, s <| NextPoolId := next_pool_id |>);;
  own_modify (deposit_event (PoolRegistered pid owner)).

Definition update_pool_config (origin : Origin) (pid : Z) (model : bytes) (memory : Z)
    (nvlink : bool) (efficiency : Z) (price : Balance) : MP unit :=
  sender ← ensure_signed origin;
  ensure (0 <? memory) (Module InvalidDimensions);;
  ensure (negb (price =? 0)) (Module InsufficientBalance);;
  ensure_nvlink nvlink efficiency;;
  maybe_pool ← own_gets (λ s, Pools s !! pid);
  pool ← ok_or maybe_pool (Module PoolNotFound);
  ensure (bool_decide (owner pool = sender)) (Module NotPoolOwner);;
  ensure (bool_decide (pool_status pool = Active) || bool_decide (pool_status pool = Inactive))
    (Module PoolInactive);;
  own_modify (λ s, s <| Pools ::= <[pid := pool <| gpu_model := model |>
    <| gpu_memory := memory |> <| has_nvlink := nvlink |> <| nvlink_efficiency := efficiency |>
    <| price_per_task := price |>]> |>);;
  own_modify (deposit_event (PoolConfigUpdated pid)).

Definition deregister_pool (origin : Origin) (pid : Z) : MP unit :=
  sender ← ensure_signed origin;
  maybe_pool ← own_gets (λ s, Pools s !! pid);
  pool ← ok_or maybe_pool (Module PoolNotFound);
  ensure (bool_decide (owner pool = sender)) (Module NotPoolOwner);;
  count ← own_gets (λ s, active_task_count s pid);
  ensure (count =? 0) (Module ActiveTasksExist);;
  own_modify (λ s, s <| Pools ::= delete pid |>);;
  own_modify (λ s, s <| PoolTasks ::= delete pid |>);;
  own_modify (λ s, s <| ActiveTaskCount ::= delete pid |>);;
  own_modify (λ s, s <| PoolByOwner ::= delete (owner pool) |>);;
  m_unreserve (owner pool) (deposit_held pool);;
  own_modify (deposit_event (PoolDeregistered pid (owner pool))).

(** The pool and the score of a submission: the preferred pool, or the best. *)
Definition choose_pool (task : ComputeTask) (preferred : option Z) : MP (Z * PoolScore) :=
  match preferred with
  | Some pid =>
      maybe_pool ← own_gets (λ s, Pools s !! pid);
      pool ← ok_or maybe_pool (Module PoolNotFound);
      ensure (bool_decide (pool_status pool = Active)) (Module PoolInactive);;
      count ← own_gets (λ s, active_task_count s pid);
      ensure (count <? MaxTasksPerPool T) (Module TooManyActiveTasks);;
      ensure (dim_k (dimensions task) <=? gpu_memory pool) (Module NoAvailablePool);;
      let price := saturated_into U128_MAX (price_per_task pool) in
      let sc := calculate_pool_score pool price price in
      own_modify (set_score pid sc);;
      mret (pid, sc)
  | None => select_best_pool_for_task task
  end.

Definition submit_task (now : BlockNumber) (origin : Origin) (dims : TaskDimensions)
    (prio : TaskPriority) (preferred : option Z) : MP unit :=
  user ← ensure_signed origin;
  ensure ((0 <? dim_m dims) && (0 <? dim_n dims) && (0 <? dim_k dims)) (Module InvalidDimensions);;
  tid ← own_gets NextTaskId;
  let task := {|
    task_id := tid; user := user; task_pool := 0; dimensions := dims; priority := prio;
    status := Pending; submitted_at := now; proof_hash := None; verification_result := None;
    reward_amount := None; disputed := false |} in
  own_modify (λ s, s <| Tasks ::= <[tid := task]> |>);;
  own_modify (deposit_event (TaskSubmitted tid user));;
  own_modify (deposit_event (TaskStatusChanged tid Pending));;
  chosen ← choose_pool task preferred;
  let '(pid, sc) := chosen : Z * PoolScore in
  maybe_pool ← own_gets (λ s, Pools s !! pid);
  pool ← ok_or maybe_pool (Module PoolNotFound);
  count ← own_gets (λ s, active_task_count s pid);
  ensure (count <? MaxTasksPerPool T) (Module TooManyActiveTasks);;
  reward ← ok_or (calculate_reward dims (price_per_task pool) (has_nvlink pool)
    (nvlink_efficiency pool)) ArithmeticError;
  let task_deposit := TaskDeposit T in
  let total_reserved := saturating_add U128_MAX reward task_deposit in
  m_reserve user total_reserved (Module InsufficientBalance);;
  mutate_task tid (λ t, t <| task_pool := pid |> <| status := Assigned |>
    <| reward_amount := Some reward |>);;
  own_modify (deposit_event (TaskAssigned tid pid (final_score sc)));;
  own_modify (deposit_event (TaskStatusChanged tid Assigned));;
  mutate_task tid (λ t, t <| status := Computing |>);;
  own_modify (deposit_event (TaskStatusChanged tid Computing));;
  ids ← own_gets (λ s, pool_tasks s pid);
  ensure (Z.of_nat (length ids) <? MaxTasksPerPool T) (Module TooManyActiveTasks);;
  own_modify (λ s, s <| PoolTasks ::= <[pid := ids ++ [tid]]> |>);;
  own_modify (λ s, s <| ActiveTaskCount ::=
    <[pid := saturating_add U32_MAX (active_task_count s pid) 1]> |>);;
  own_modify (λ s, s <| TaskEscrowStore ::= <[tid := {|
    esc_user := user; esc_pool_owner := owner pool; esc_reward := reward;
    esc_deposit := task_deposit; claimed := false |}]> |>);;
  next_task_id ← ok_or (checked_add U64_MAX tid 1) (Module ArithmeticOverflow);
  own_modify (λ s, s <| NextTaskId := next_task_id |>).

Definition submit_proof (now : BlockNumber) (origin : Origin) (tid : Z) (hash : H256) : MP unit :=
  sender ← ensure_signed origin;
  ensure (negb (bool_decide (hash = 0%N))) (Module InvalidProof);;
  maybe_task ← own_gets (λ s, Tasks s !! tid);
  task ← ok_or maybe_task (Module TaskNotFound);
  ensure (bool_decide (status task = Computing)) (Module InvalidTaskState);;
  maybe_pool ← own_gets (λ s, Pools s !! task_pool task);
  pool ← ok_or maybe_pool (Module PoolNotFound);
  ensure (bool_decide (owner pool = sender)) (Module NotAssignedPoolOwner);;
  ensure (now <=? saturating_add U32_MAX (submitted_at task) (TaskTimeout T)) (Module TaskExpired);;
  mutate_task tid (λ t, t <| proof_hash := Some hash |> <| status := ProofSubmitted |>);;
  own_modify (λ s, s <| ProofSubmittedAt ::= <[tid := now]> |>);;
  own_modify (deposit_event (ProofSubmittedEvent tid (task_pool task)));;
  own_modify (deposit_event (TaskStatusChanged tid ProofSubmitted)).

Definition verify_proof (now : BlockNumber) (origin : Origin) (tid : Z) (result : bool) : MP unit :=
  sender ← ensure_signed origin;
  maybe_task ← own_gets (λ s, Tasks s !! tid);
  task ← ok_or maybe_task (Module TaskNotFound);
  ensure (bool_decide (status task = ProofSubmitted)) (Module InvalidTaskState);;
  ensure (bool_decide (is_Some (proof_hash task))) (Module ProofNotSubmitted);;
  maybe_pool ← own_gets (λ s, Pools s !! task_pool task);
  pool ← ok_or maybe_pool (Module PoolNotFound);
  ensure (bool_decide (owner pool ≠ sender)) (Module SelfVerificationNotAllowed);;
  finalize_verification now tid (task_pool task) result.

Definition claim_reward (origin : Origin) (tid : Z) : MP unit :=
  sender ← ensure_signed origin;
  maybe_task ← own_gets (λ s, Tasks s !! tid);
  task ← ok_or maybe_task (Module TaskNotFound);
  ensure (bool_decide (status task = Completed)) (Module InvalidTaskState);;
  ensure (bool_decide (verification_result task = Some true)) (Module RewardNotAvailable);;
  maybe_pool ← own_gets (λ s, Pools s !! task_pool task);
  pool ← ok_or maybe_pool (Module PoolNotFound);
  ensure (bool_decide (owner pool = sender)) (Module NotAssignedPoolOwner);;
  maybe_reward ← own_gets (λ s, Rewards s !! tid);
  reward ← ok_or maybe_reward (Module RewardNotAvailable);
  maybe_escrow ← own_gets (λ s, TaskEscrowStore s !! tid);
  escrow ← ok_or maybe_escrow (Module RewardNotAvailable);
  ensure (negb (claimed escrow)) (Module RewardAlreadyClaimed);;
  remainder ← m_repatriate (esc_user escrow) sender reward (Module InsufficientBalance);
  ensure (remainder =? 0) (Module InsufficientBalance);;
  m_unreserve (esc_user escrow) (esc_deposit escrow);;
  own_modify (λ s, s <| TaskEscrowStore ::= <[tid := escrow <| claimed := true |>]> |>);;
  own_modify (λ s, s <| Rewards ::= delete tid |>);;
  own_modify (deposit_event (RewardClaimed tid sender reward)).

Definition dispute_verification (origin : Origin) (tid : Z) : MP unit :=
  sender ← ensure_signed origin;
  maybe_task ← own_gets (λ s, Tasks s !! tid);
  task ← ok_or maybe_task (Module TaskNotFound);
  ensure (bool_decide (user task = sender)) (Module NotTaskUser);;
  ensure (is_terminal (status task)) (Module DisputeNotAllowed);;
  ensure (negb (disputed task)) (Module DisputeAlreadyFiled);;
  match verification_result task with
  | Some true =>
      mutate_task tid (λ t, t <| status := Failed |> <| verification_result := Some false |>
        <| disputed := true |>);;
      own_modify (update_reputation (task_pool task) false);;
      release_escrow tid;;
      slash_pool (task_pool task);;
      own_modify (deposit_event (TaskStatusChanged tid Failed))
  | Some false =>
      mutate_task tid (λ t, t <| status := Completed |> <| verification_result := Some true |>
        <| disputed := true |>);;
      match reward_amount task with
      | Some amount =>
          own_modify (λ s, s <| Rewards ::= <[tid := amount]> |>);;
          own_modify (deposit_event (RewardAvailable tid amount))
      | None => mret tt
      end;;
      own_modify (update_reputation (task_pool task) true);;
      own_modify (deposit_event (TaskStatusChanged tid Completed))
  | None => fail (Module DisputeNotAllowed)
  end;;
  own_modify (deposit_event (VerificationDisputed tid sender)).

Definition stake_to_pool (origin : Origin) (pid : Z) (amount : Balance) : MP unit :=
  who ← ensure_signed origin;
  known ← own_gets (λ s, bool_decide (is_Some (Pools s !! pid)));
  ensure known (Module PoolNotFound);;
  m_reserve who amount (Module InsufficientBalance);;
  own_modify (λ s, s <| PoolStakes ::=
    <[(pid, who) := saturating_add U128_MAX (pool_stake s pid who) amount]> |>);;
  own_modify (λ s, s <| TotalPoolStake ::=
    <[pid := saturating_add U128_MAX (total_pool_stake s pid) amount]> |>);;
  own_modify (deposit_event (Staked who pid amount)).

Definition unstake_from_pool (origin : Origin) (pid : Z) (amount : Balance) : MP unit :=
  who ← ensure_signed origin;
  current_stake ← own_gets (λ s, pool_stake s pid who);
  ensure (amount <=? current_stake) (Module StakeNotFound);;
  m_unreserve who amount;;
  own_modify (λ s, s <| PoolStakes ::=
    <[(pid, who) := saturating_sub (pool_stake s pid who) amount]> |>);;
  own_modify (λ s, s <| TotalPoolStake ::=
    <[pid := saturating_sub (total_pool_stake s pid) amount]> |>);;
  own_modify (deposit_event (Unstaked who pid amount)).

(** ** The hook *)

(** One task of the scan: what it appends to the expired and the auto-verified
    tasks, and the reads it counts. *)
Definition scan_task (now : BlockNumber) (s : State) (acc : list Z * list Z * Z) (tid : Z) :
    list Z * list Z * Z :=
  let '(expired, auto_verify, reads) := acc in
  let reads := saturating_add U64_MAX reads 1 in
  match Tasks s !! tid with
  | None => (expired, auto_verify, reads)
  | Some task =>
      if is_terminal (status task) then (expired, auto_verify, reads)
      else
        let '(timed_out, reads) :=
          match bool_decide (status task = ProofSubmitted), ProofSubmittedAt s !! tid with
          | true, Some proof_at =>
              (saturating_add U32_MAX proof_at (VerificationTimeout T) <? now,
               saturating_add U64_MAX reads 1)
          | _, _ => (false, reads)
          end in
        if timed_out : bool then (expired, auto_verify ++ [tid], reads)
        else if saturating_add U32_MAX (submitted_at task) (TaskTimeout T) <? now
             then (expired ++ [tid], auto_verify, reads)
             else (expired, auto_verify, reads)
  end.

(** The ids the scan visits, pool by pool. *)
Definition scanned (s : State) : list Z :=
  concat (snd <$> pool_tasks_iter T (PoolTasks s)).

(** Approve a proof that waited too long; an error is dropped. *)
Definition auto_verify_task (now : BlockNumber) (tid : Z) : MP unit :=
  maybe_task ← own_gets (λ s, Tasks s !! tid);
  match maybe_task with
  | Some task => ignore (finalize_verification now tid (task_pool task) true)
  | None => mret tt
  end.

(** [on_initialize]; the weight it returns is that of its (reads, writes). *)
Definition on_initialize (now : BlockNumber) : MP (Z * Z) :=
  found ← own_gets (λ s, foldl (scan_task now s) ([], [], 0) (scanned s));
  let '(expired, auto_verify, reads) := found : list Z * list Z * Z in
  for_each auto_verify (auto_verify_task now);;
  for_each expired (λ tid, ignore (mark_task_failed tid true));;
  let total_processed :=
    saturating_add U64_MAX (Z.of_nat (length expired)) (Z.of_nat (length auto_verify)) in
  mret (saturating_add U64_MAX (saturating_add U64_MAX reads 1)
          (saturating_mul U64_MAX total_processed 5),
        saturating_mul U64_MAX total_processed 5).

(** ** [TaskComputeScheduler], the interface for other pallets *)

Inductive SchedulerError := NoActivePool | TaskIdOverflow | PoolTaskLimitReached | NoSuchTask.

(** Of the first 50 pools, the active one with the highest positive mean of
    reputation and success rate, the first one on a tie. *)
Definition best_rated (pools : list (Z * ComputePool)) : option (Z * ComputePool) * Z :=
  foldl (λ '(best_pool, best_score) '(pid, pool),
    if negb (bool_decide (pool_status pool = Active)) then (best_pool, best_score)
    else
      let sc := saturating_add U32_MAX (reputation pool) (success_rate pool) / 2 in
      if best_score <? sc then (Some (pid, pool), sc) else (best_pool, best_score))
    (None, 0) pools.

Definition schedule_compute (now : BlockNumber) (user : AccountId) (dims : Z * Z * Z) :
    M ((State * SH) * L) SchedulerError (Z * AccountId * Balance) :=
  best ← own_gets (λ s, (best_rated (take 50 (pools_iter T (Pools s)))).1);
  chosen ← ok_or best NoActivePool;
  let '(pid, pool) := chosen : Z * ComputePool in
  tid ← own_gets NextTaskId;
  next_task_id ← ok_or (checked_add U64_MAX tid 1) TaskIdOverflow;
  own_modify (λ s, s <| NextTaskId := next_task_id |>);;
  let estimated_cost := price_per_task pool in
  own_modify (λ s, s <| Tasks ::= <[tid := {|
    task_id := tid; user := user; task_pool := pid;
    dimensions := {| dim_m := dims.1.1; dim_n := dims.1.2; dim_k := dims.2 |};
    priority := Normal; status := Pending; submitted_at := now; proof_hash := None;
    verification_result := None; reward_amount := Some estimated_cost; disputed := false |}]> |>);;
  own_modify (λ s, s <| ActiveTaskCount ::=
    <[pid := saturating_add U32_MAX (active_task_count s pid) 1]> |>);;
  ids ← own_gets (λ s, pool_tasks s pid);
  ensure (Z.of_nat (length ids) <? MaxTasksPerPool T) PoolTaskLimitReached;;
  own_modify (λ s, s <| PoolTasks ::= <[pid := ids ++ [tid]]> |>);;
  maybe_task ← own_gets (λ s, Tasks s !! tid);
  t ← ok_or maybe_task NoSuchTask;
  own_modify (λ s, s <| Tasks ::= <[tid := t <| status := Computing |>]> |>);;
  mret (tid, owner pool, estimated_cost).

Definition is_task_completed (s : State) (tid : Z) : bool :=
  from_option (λ t, bool_decide (status t = Completed)) false (Tasks s !! tid).

(** ** The pallet as a state machine *)

Inductive Call :=
| RegisterPool (model : bytes) (memory : Z) (nvlink : bool) (efficiency : Z) (price : Balance)
| UpdatePoolConfig (pid : Z) (model : bytes) (memory : Z) (nvlink : bool) (efficiency : Z)
    (price : Balance)
| DeregisterPool (pid : Z)
| SubmitTask (dims : TaskDimensions) (prio : TaskPriority) (preferred : option Z)
| SubmitProof (tid : Z) (hash : H256)
| VerifyProof (tid : Z) (result : bool)
| ClaimReward (tid : Z)
| DisputeVerification (tid : Z)
| StakeToPool (pid : Z) (amount : Balance)
| UnstakeFromPool (pid : Z) (amount : Balance).

Definition dispatch (now : BlockNumber) (o : Origin) (c : Call) : MP unit :=
  transactional
    match c with
    | RegisterPool m mem nv e p => register_pool o m mem nv e p
    | UpdatePoolConfig pid m mem nv e p => update_pool_config o pid m mem nv e p
    | DeregisterPool pid => deregister_pool o pid
    | SubmitTask d pr pref => submit_task now o d pr pref
    | SubmitProof tid h => submit_proof now o tid h
    | VerifyProof tid r => verify_proof now o tid r
    | ClaimReward tid => claim_reward o tid
    | DisputeVerification tid => dispute_verification o tid
    | StakeToPool pid v => stake_to_pool o pid v
    | UnstakeFromPool pid v => unstake_from_pool o pid v
    end.
End pallet.

(** The arguments are in the range of their types (u32, u128). *)
Definition call_typed (c : Call) : Prop :=
  match c with
  | RegisterPool _ _ _ e p | UpdatePoolConfig _ _ _ _ e p => 0 ≤ e ≤ U32_MAX ∧ 0 ≤ p ≤ U128_MAX
  | SubmitTask d _ _ => 0 ≤ dim_m d ≤ U32_MAX ∧ 0 ≤ dim_n d ≤ U32_MAX ∧ 0 ≤ dim_k d ≤ U32_MAX
  | StakeToPool _ v | UnstakeFromPool _ v => 0 ≤ v ≤ U128_MAX
  | _ => True
  end.
End Scheduler.
