(* ===== verification/PoolScoring.v ===== *)
(** * pallet-compute-pool-scheduler: scores, rewards and the choice of a pool

    The arithmetic that decides who gets a task and what it costs: the score is
    a weighted sum that never saturates, the reward is the exact product or an
    overflow error, and the selection returns a best scored eligible pool. *)
From stdpp Require Import base gmap fin_maps list numbers.
From Stdlib Require Import ZArith Lia.
From S2P Require Import Prelude Currency Interfaces ComputePool.
Import Scheduler.

Module PoolScoring.

(** What the pallet keeps true of every pool it stores. *)
Definition pool_typed (p : ComputePool) : Prop :=
  0 ≤ reputation p ≤ 100 ∧ 0 ≤ success_rate p ≤ 100 ∧ 0 ≤ price_per_task p ≤ U128_MAX ∧
  if has_nvlink p then 120 ≤ nvlink_efficiency p ≤ 150 else nvlink_efficiency p = 100.

Definition price_part (p : ComputePool) (lo hi : Z) : Z :=
  if hi =? lo then 100
  else 100 - Z.min (100 * (price_per_task p - lo)) U128_MAX / (hi - lo).

Definition nvlink_part (p : ComputePool) : Z :=
  if has_nvlink p then nvlink_efficiency p * 100 / 150 else 0.

Lemma price_part_bounds p lo hi :
  lo ≤ price_per_task p ≤ hi → 0 ≤ price_part p lo hi ≤ 100.
Proof.
  intros Hp. unfold price_part. destruct (Z.eqb_spec hi lo) as [|Hne]; [lia|].
  assert (Z.min (100 * (price_per_task p - lo)) U128_MAX / (hi - lo) ≤ 100).
  { apply Z.div_le_upper_bound; lia. }
  assert (0 ≤ Z.min (100 * (price_per_task p - lo)) U128_MAX / (hi - lo)); [|lia].
  apply Z.div_pos; [|lia]. unfold U128_MAX. lia.
Qed.

Lemma nvlink_part_bounds p :
  pool_typed p → 0 ≤ nvlink_part p ≤ 100 ∧ (has_nvlink p = true → 80 ≤ nvlink_part p).
Proof.
  intros (_ & _ & _ & Hn). unfold nvlink_part. destruct (has_nvlink p); [|done].
  split; [split|intros _].
  - apply Z.div_pos; lia.
  - apply Z.div_le_upper_bound; lia.
  - apply Z.div_le_lower_bound; lia.
Qed.

(** The score without saturation and casts. *)
Lemma calculate_pool_score_exact p lo hi :
  pool_typed p → 0 ≤ lo ≤ price_per_task p → price_per_task p ≤ hi →
  calculate_pool_score p lo hi = {|
    reputation_score := 40 * reputation p;
    success_rate_score := 30 * success_rate p;
    price_score := 20 * price_part p lo hi;
    nvlink_score := 10 * nvlink_part p;
    final_score := 40 * reputation p + 30 * success_rate p + 20 * price_part p lo hi
                   + 10 * nvlink_part p |}.
Proof.
  intros Hty Hlo Hhi. pose proof (price_part_bounds p lo hi (conj (proj2 Hlo) Hhi)) as Hpp.
  pose proof (nvlink_part_bounds p Hty) as [Hnp _]. destruct Hty as (Hr & Hs & Hp & Hn).
  assert (nvlink_part p = if has_nvlink p
    then saturating_mul U32_MAX (Z.min (nvlink_efficiency p) 150) 100 / 150 else 0) as Hnv.
  { unfold nvlink_part, saturating_mul, U32_MAX. destruct (has_nvlink p); [|done].
    by rewrite !Z.min_l by lia. }
  assert (price_part p lo hi = if hi =? lo then 100 else
    saturating_sub 100 (saturating_mul U128_MAX (saturating_sub
      (saturated_into U128_MAX (price_per_task p)) lo) 100 / saturating_sub hi lo) mod 2 ^ 32) as Hpart.
  { revert Hpp. unfold price_part. destruct (hi =? lo) eqn:E; [done|]. guard_inv. intros Hpp.
    unfold saturated_into, saturating_mul. rewrite (Z.min_l (price_per_task p)) by lia.
    rewrite (saturating_sub_exact (price_per_task p)), (saturating_sub_exact hi) by lia.
    rewrite (Z.mul_comm _ 100), saturating_sub_exact by lia. rewrite Z.mod_small; [done|].
    split; [lia|]. apply (Z.le_lt_trans _ 100); [lia|done]. }
  unfold calculate_pool_score. cbv zeta. rewrite <-Hpart, <-Hnv.
  unfold saturating_mul, saturating_add, U32_MAX. rewrite !(Z.min_l _ 100) by lia.
  f_equal; lia.
Qed.

Lemma score_bounds p lo hi :
  pool_typed p → 0 ≤ lo ≤ price_per_task p → price_per_task p ≤ hi →
  0 ≤ final_score (calculate_pool_score p lo hi) ≤ 10000.
Proof.
  intros Hty Hlo Hhi. rewrite calculate_pool_score_exact by done. cbn.
  pose proof (price_part_bounds p lo hi (conj (proj2 Hlo) Hhi)).
  pose proof (nvlink_part_bounds p Hty) as [? _]. destruct Hty as (? & ? & _). lia.
Qed.

(** *** The price range *)

Lemma price_range_app cands pid p lo hi :
  0 ≤ price_per_task p ≤ U128_MAX → price_range cands = (lo, hi) →
  price_range (cands ++ [(pid, p)]) = (Z.min lo (price_per_task p), Z.max hi (price_per_task p)).
Proof.
  intros Hp Hr. unfold price_range in *. rewrite foldl_app, Hr; simpl.
  unfold saturated_into. rewrite Z.min_l by lia.
  destruct (Z.ltb_spec (price_per_task p) lo), (Z.ltb_spec hi (price_per_task p)); f_equal; lia.
Qed.

Definition prices_typed (cands : list (Z * ComputePool)) : Prop :=
  ∀ pid p, (pid, p) ∈ cands → 0 ≤ price_per_task p ≤ U128_MAX.

Lemma price_range_sound cands :
  prices_typed cands →
  let '(lo, hi) := price_range cands in
  0 ≤ lo ≤ U128_MAX ∧ ∀ pid p, (pid, p) ∈ cands → lo ≤ price_per_task p ≤ hi.
Proof.
  induction cands as [|[pid p] cands IH] using rev_ind; intros Hty.
  { split; [by unfold U128_MAX|]. set_solver. }
  destruct (price_range cands) as [lo hi] eqn:Hr.
  pose proof (Hty pid p ltac:(set_solver)) as Hp. rewrite (price_range_app _ _ _ _ _ Hp Hr).
  destruct IH as [Hlo Hin]. { intros q r Hq. apply (Hty q). set_solver. }
  split; [lia|]. intros q r [Hq|Hq]%elem_of_app; [specialize (Hin q r Hq); lia|].
  apply list_elem_of_singleton in Hq. simplify_eq. lia.
Qed.

(** The range is attained: its ends are prices of candidates. *)
Lemma price_range_attained cands :
  prices_typed cands → cands ≠ [] →
  let '(lo, hi) := price_range cands in
  (∃ pid p, (pid, p) ∈ cands ∧ price_per_task p = lo) ∧
  ∃ pid p, (pid, p) ∈ cands ∧ price_per_task p = hi.
Proof.
  induction cands as [|[pid p] cands IH] using rev_ind; intros Hty Hne; [done|].
  destruct (price_range cands) as [lo hi] eqn:Hr.
  pose proof (Hty pid p ltac:(set_solver)) as Hp. rewrite (price_range_app _ _ _ _ _ Hp Hr).
  destruct (decide (cands = [])) as [->|Hc].
  { injection Hr as <- <-. rewrite Z.min_r, Z.max_r by lia. split; exists pid, p; set_solver. }
  destruct IH as [(q1 & r1 & Hq1 & Hr1) (q2 & r2 & Hq2 & Hr2)];
    [intros q r Hq; apply (Hty q); set_solver|done|]. split.
  - destruct (Z.min_spec lo (price_per_task p)) as [[_ ->]|[_ ->]];
      [exists q1, r1|exists pid, p]; set_solver.
  - destruct (Z.max_spec hi (price_per_task p)) as [[_ ->]|[_ ->]];
      [exists pid, p|exists q2, r2]; set_solver.
Qed.

(** *** The best score *)

Lemma best_scored_spec lo hi cands :
  match best_scored lo hi cands with
  | None => cands = []
  | Some (pid, sc) =>
      (∃ p, (pid, p) ∈ cands ∧ sc = calculate_pool_score p lo hi) ∧
      ∀ q r, (q, r) ∈ cands → final_score (calculate_pool_score r lo hi) ≤ final_score sc
  end.
Proof.
  unfold best_scored. induction cands as [|[pid p] cands IH] using rev_ind; [done|].
  rewrite foldl_app; cbn [foldl]. destruct (foldl _ None cands) as [[b sc]|]; cbv zeta; cycle 1.
  { subst cands. split; [by exists p; set_solver|]. set_solver. }
  destruct IH as [(pb & Hb & Hsc) Hmax]. destruct (Z.leb_spec (final_score (calculate_pool_score p lo hi)) (final_score sc)).
  - split; [exists pb; set_solver|]. intros q r [Hq|[= -> ->]%list_elem_of_singleton]%elem_of_app; [by apply (Hmax q)|done].
  - split; [exists p; set_solver|]. intros q r [Hq|[= -> ->]%list_elem_of_singleton]%elem_of_app; [|done].
    specialize (Hmax q r Hq). lia.
Qed.

(** *** Rewards *)

Definition dims_typed (d : TaskDimensions) : Prop :=
  0 ≤ dim_m d ≤ U32_MAX ∧ 0 ≤ dim_n d ≤ U32_MAX ∧ 0 ≤ dim_k d ≤ U32_MAX.

(** The price scaled by the matrix size, in units of a million multiplications. *)
Definition base_reward (d : TaskDimensions) (price : Z) : Z :=
  price * Z.max 1 (dim_m d * dim_n d * dim_k d / 1000000).

Lemma complexity_fits d : dims_typed d → dim_m d * dim_n d * dim_k d ≤ U128_MAX.
Proof.
  unfold dims_typed, U32_MAX. intros (Hm & Hn & Hk).
  assert (dim_m d * dim_n d ≤ (2 ^ 32 - 1) * (2 ^ 32 - 1)) by (apply Z.mul_le_mono_nonneg; lia).
  transitivity ((2 ^ 32 - 1) * (2 ^ 32 - 1) * (2 ^ 32 - 1)); [apply Z.mul_le_mono_nonneg; lia|done].
Qed.

Lemma base_reward_ge d price : 0 ≤ price → price ≤ base_reward d price.
Proof. intros Hp. unfold base_reward. nia. Qed.

Lemma calculate_reward_Some d price nv e r :
  dims_typed d → 0 ≤ price ≤ U128_MAX → 0 ≤ e →
  calculate_reward d price nv e = Some r ↔
  base_reward d price ≤ U128_MAX ∧
  if nv : bool then base_reward d price * e ≤ U128_MAX ∧ r = base_reward d price * e / 100
  else r = base_reward d price.
Proof.
  intros Hd Hp He. pose proof (complexity_fits d Hd) as Hc. destruct Hd as (Hm & Hn & Hk).
  pose proof (base_reward_ge d price ltac:(lia)) as Hge.
  assert (dim_m d * dim_n d ≤ U128_MAX) as Hmn.
  { destruct (Z.eq_dec (dim_k d) 0); [|nia].
    transitivity (U32_MAX * U32_MAX); [apply Z.mul_le_mono_nonneg; lia|done]. }
  unfold calculate_reward, checked_mul, saturated_into. rewrite (Z.min_l price) by lia.
  rewrite (proj2 (Z.leb_le _ _) Hmn); simpl. rewrite (proj2 (Z.leb_le _ _) Hc); simpl.
  change (price * Z.max 1 (dim_m d * dim_n d * dim_k d / 1000000)) with (base_reward d price).
  destruct (Z.leb_spec (base_reward d price) U128_MAX); simpl; [|naive_solver lia].
  destruct nv; simpl; [|rewrite Z.min_l by done; naive_solver].
  destruct (Z.leb_spec (base_reward d price * e) U128_MAX); simpl; [|naive_solver lia].
  rewrite Z.min_l; [naive_solver|]. transitivity (base_reward d price * e); [|done].
  apply Z.div_le_upper_bound; nia.
Qed.

(** ** Claims *)

(** The score of a pool whose price lies in the price range is the exact
    weighted sum 40 reputation + 30 success rate + 20 price part + 10 nvlink
    part: no u32 operation of the code saturates and no cast loses bits, each
    part lies between 0 and 100, so the final score lies between 0 and 10000;
    a cheaper pool never has the lower price part. *)
Theorem pool_score_exact p lo hi :
  pool_typed p → 0 ≤ lo ≤ price_per_task p → price_per_task p ≤ hi →
  let sc := calculate_pool_score p lo hi in
  final_score sc = 40 * reputation p + 30 * success_rate p + 20 * price_part p lo hi
                   + 10 * nvlink_part p ∧
  0 ≤ price_part p lo hi ≤ 100 ∧ 0 ≤ nvlink_part p ≤ 100 ∧ 0 ≤ final_score sc ≤ 10000 ∧
  (∀ q, lo ≤ price_per_task q ≤ price_per_task p → price_part p lo hi ≤ price_part q lo hi).
Proof.
  intros Hty Hlo Hhi. cbv zeta. rewrite (calculate_pool_score_exact p lo hi Hty Hlo Hhi); simpl.
  pose proof (price_part_bounds p lo hi (conj (proj2 Hlo) Hhi)) as Hpp.
  pose proof (nvlink_part_bounds p Hty) as [Hnp _].
  split_and!; try lia; try (destruct Hty as (? & ? & _); lia).
  intros q Hq. unfold price_part. destruct (Z.eqb_spec hi lo); [done|].
  apply Z.sub_le_mono_l, Z.div_le_mono; lia.
Qed.

(** The reward is computed exactly or refused: it is the price times the
    number of millions of multiplications of the task (at least one), times
    the nvlink efficiency in percent for an nvlink pool, and the only refusal
    is that a product does not fit in 128 bits. *)
Theorem pool_reward_exact d price nv e r :
  dims_typed d → 0 ≤ price ≤ U128_MAX → 0 ≤ e →
  calculate_reward d price nv e = Some r ↔
  base_reward d price ≤ U128_MAX ∧
  if nv : bool then base_reward d price * e ≤ U128_MAX ∧ r = base_reward d price * e / 100
  else r = base_reward d price.
Proof. apply calculate_reward_Some. Qed.

Section selection.
Context {L SH : Type} (T : Config) (HT : config_typed T).
Implicit Types (s : State).

(** What makes a pool eligible for a task. *)
Definition eligible s (task : ComputeTask) (pid : Z) (p : ComputePool) : Prop :=
  Pools s !! pid = Some p ∧ pool_status p = Active ∧
  active_task_count s pid < MaxTasksPerPool T ∧ dim_k (dimensions task) ≤ gpu_memory p.

Lemma pools_iter_elem s pid p : (pid, p) ∈ pools_iter T (Pools s) ↔ Pools s !! pid = Some p.
Proof. rewrite (cfg_pools_iter _ HT). apply elem_of_map_to_list. Qed.

Lemma candidates_eligible s task pid p :
  (pid, p) ∈ candidates T s task → eligible s task pid p.
Proof.
  unfold candidates, eligible. rewrite list_elem_of_filter. intros [He Hin%subseteq_take].
  by rewrite <-pools_iter_elem.
Qed.

Lemma eligible_candidate s task pid p :
  (size (Pools s) ≤ 50)%nat → eligible s task pid p → (pid, p) ∈ candidates T s task.
Proof.
  intros Hsz [Hp He]. unfold candidates. rewrite take_ge, list_elem_of_filter, pools_iter_elem; [done|].
  by rewrite (cfg_pools_iter _ HT), length_map_to_list.
Qed.

Lemma select_best_run s task (h : SH) (l : L) :
  (∀ pid p, Pools s !! pid = Some p → pool_typed p) →
  match select_best_pool_for_task T task ((s, h), l) with
  | (Ok (pid, sc), w) =>
      w = ((set_score pid sc s, h), l) ∧
      ∃ p lo hi, (pid, p) ∈ candidates T s task ∧ eligible s task pid p ∧ sc = calculate_pool_score p lo hi ∧
        (∀ q r, (q, r) ∈ candidates T s task → lo ≤ price_per_task r ≤ hi ∧
           final_score (calculate_pool_score r lo hi) ≤ final_score sc) ∧
        (∃ q r, (q, r) ∈ candidates T s task ∧ price_per_task r = lo) ∧
        ∃ q r, (q, r) ∈ candidates T s task ∧ price_per_task r = hi
  | (Err e, w) =>
      e = Module NoAvailablePool ∧ w = ((s, h), l) ∧ candidates T s task = [] ∧
      ((size (Pools s) ≤ 50)%nat → ∀ pid p, ¬ eligible s task pid p)
  end.
Proof.
  intros Hty. assert (prices_typed (candidates T s task)) as Hpr.
  { intros pid p [Hp _]%candidates_eligible. by destruct (Hty _ _ Hp) as (_ & _ & ? & _). }
  unfold select_best_pool_for_task, own_gets, gets, ensure, mbind, M_bind. simpl.
  case_bool_decide as Hc; simpl.
  { split_and!; try done. intros Hsz pid p He%eligible_candidate; [|done]. rewrite Hc in He. set_solver. }
  pose proof (price_range_sound _ Hpr) as Hs. pose proof (price_range_attained _ Hpr Hc) as Ha.
  destruct (price_range (candidates T s task)) as [lo hi]. destruct Hs as [_ Hin], Ha as [Hlo Hhi].
  pose proof (best_scored_spec lo hi (candidates T s task)) as Hb. unfold ok_or.
  destruct (best_scored lo hi _) as [[pid sc]|]; [|done]. destruct Hb as [(p & Hp & ->) Hmax].
  split; [done|]. exists p, lo, hi. split_and!; try done; [by apply candidates_eligible|].
  intros q r Hq. split; [by apply (Hin q)|by apply (Hmax q)].
Qed.

(** The selection picks a best pool: on success the chosen pool is
    eligible, its stored score is computed against the true price range of the
    candidates, and no candidate scores higher; it fails exactly when there is
    no candidate, in particular it succeeds whenever some pool is eligible
    among at most 50 pools. Nothing but the chosen pool's score changes. *)
Theorem pool_select_best s task (h : SH) (l : L) :
  (∀ pid p, Pools s !! pid = Some p → pool_typed p) →
  match select_best_pool_for_task T task ((s, h), l) with
  | (Ok (pid, sc), w) =>
      w = ((set_score pid sc s, h), l) ∧
      ∃ p lo hi, (pid, p) ∈ candidates T s task ∧ eligible s task pid p ∧ sc = calculate_pool_score p lo hi ∧
        (∀ q r, (q, r) ∈ candidates T s task → lo ≤ price_per_task r ≤ hi ∧
           final_score (calculate_pool_score r lo hi) ≤ final_score sc) ∧
        (∃ q r, (q, r) ∈ candidates T s task ∧ price_per_task r = lo) ∧
        ∃ q r, (q, r) ∈ candidates T s task ∧ price_per_task r = hi
  | (Err e, w) =>
      e = Module NoAvailablePool ∧ w = ((s, h), l) ∧ candidates T s task = [] ∧
      ((size (Pools s) ≤ 50)%nat → ∀ pid p, ¬ eligible s task pid p)
  end.
Proof. apply select_best_run. Qed.
End selection.

(** ** Instances *)
Module Demo.
Definition pool (pid : Z) (rep price : Z) (nv : bool) : ComputePool := {|
  pool_id := pid; owner := 1%N; gpu_model := []; gpu_memory := 64; has_nvlink := nv;
  nvlink_efficiency := if nv then 150 else 100; price_per_task := price; reputation := rep;
  success_rate := 90; total_tasks := 10; completed_tasks := 9; failed_tasks := 1;
  pool_status := Active; deposit_held := 0; score := default_score |}.
Definition T : Config := {|
  PoolDeposit := 100; TaskDeposit := 10; FailureSlash := 5; TaskTimeout := 100; MinPoolStake := 0;
  StakeSlashPercent := 10; MaxTasksPerPool := 3; InitialReputation := 80;
  VerificationTimeout := 10; pools_iter := map_to_list; pool_tasks_iter := map_to_list |}.
Definition s : State :=
  genesis <| Pools := {[0 := pool 0 80 100 false; 1 := pool 1 70 50 true]} |>.
Definition task : ComputeTask := {|
  task_id := 0; user := 5%N; task_pool := 0; dimensions := {| dim_m := 1000; dim_n := 1000; dim_k := 8 |};
  priority := Normal; status := Pending; submitted_at := 0; proof_hash := None;
  verification_result := None; reward_amount := None; disputed := false |}.

Lemma pool_T_typed : config_typed T.
Proof. by split. Qed.
Lemma pool_ok pid rep price nv : 0 ≤ rep ≤ 100 → 0 ≤ price ≤ U128_MAX → pool_typed (pool pid rep price nv).
Proof. intros. unfold pool_typed; simpl. split_and!; try lia. by destruct nv. Qed.
Lemma s_typed pid p : Pools s !! pid = Some p → pool_typed p.
Proof.
  simpl. intros [[<- <-]|[_ [_ <-]%lookup_singleton_Some]]%lookup_insert_Some; by apply pool_ok.
Qed.

Lemma pool_score_exact_witness :
  final_score (calculate_pool_score (pool 1 70 50 true) 50 100) = 8500 ∧
  price_part (pool 1 70 50 true) 50 100 = 100.
Proof.
  pose proof (pool_score_exact (pool 1 70 50 true) 50 100
    (pool_ok 1 70 50 true ltac:(lia) ltac:(by unfold U128_MAX)) ltac:(simpl; lia) ltac:(simpl; lia))
    as (-> & _). split; vm_compute; reflexivity.
Defined.

Lemma pool_reward_exact_witness :
  calculate_reward (dimensions task) 50 true 150 = Some 600.
Proof.
  apply (pool_reward_exact (dimensions task) 50 true 150 600).
  - unfold dims_typed, U32_MAX; simpl. lia.
  - by unfold U128_MAX.
  - lia.
  - vm_compute. split; [discriminate|split; [discriminate|reflexivity]].
Defined.

Lemma pool_select_best_witness :
  ∃ sc w, select_best_pool_for_task T task ((s, tt), tt) = (Ok (1, sc), w) ∧
    w.1.1 = set_score 1 sc s.
Proof.
  pose proof (pool_select_best T pool_T_typed s task tt tt s_typed) as Hs.
  destruct (select_best_pool_for_task T task ((s, tt), tt)) as [[[pid sc]|e] w] eqn:Hrun.
  - destruct Hs as [-> _]. exists sc, ((set_score pid sc s, tt), tt).
    assert (pid = 1) as -> by (vm_compute in Hrun; congruence). split; reflexivity.
  - exfalso. vm_compute in Hrun. congruence.
Defined.
End Demo.
End PoolScoring.
