(* ===== verification/PoolInvariant.v ===== *)
(** * pallet-compute-pool-scheduler: the storage invariant

    Four invariants, one per part of the storage (pools, tasks and their queues,
    escrows and rewards, stakes), with one lemma per kind of transition; the
    runs of the shared helpers (release, slash, close a task) are computed once
    and used by the dispatchables and by the hook. *)
From stdpp Require Import base gmap fin_maps list numbers relations.
From Stdlib Require Import ZArith Lia.
From S2P Require Import Prelude Currency Interfaces ComputePool PoolScoring.
Import Scheduler PoolScoring.

Module PoolInvariant.

(** ** The invariants *)

Definition pool_ok (T : Config) (k : Z) (p : ComputePool) : Prop :=
  pool_id p = k ∧ pool_typed p ∧ pool_status p = Active ∧
  0 ≤ deposit_held p ≤ PoolDeposit T ∧ 0 < gpu_memory p ∧ 0 < price_per_task p ∧
  0 ≤ completed_tasks p ≤ total_tasks p ∧ total_tasks p ≤ U32_MAX ∧
  0 ≤ final_score (score p) ≤ 10000.

Record PoolsInv (T : Config) (s : State) : Prop := {
  pi_next : 0 ≤ NextPoolId s;
  pi_pool k p : Pools s !! k = Some p →
    0 ≤ k < NextPoolId s ∧ pool_ok T k p ∧ PoolByOwner s !! owner p = Some k;
  pi_owner o k : PoolByOwner s !! o = Some k → ∃ p, Pools s !! k = Some p ∧ owner p = o;
}.

(** A live task waits in the queue of its pool; a closed one has its verdict. *)
Definition task_ok (s : State) (k : Z) (t : ComputeTask) : Prop :=
  match status t with
  | Pending => proof_hash t = None ∧ verification_result t = None ∧ disputed t = false
  | Computing => proof_hash t = None ∧ verification_result t = None ∧ disputed t = false ∧
      k ∈ pool_tasks s (task_pool t)
  | ProofSubmitted => is_Some (proof_hash t) ∧ verification_result t = None ∧
      disputed t = false ∧ k ∈ pool_tasks s (task_pool t)
  | Completed => verification_result t = Some true
  | Failed => verification_result t = Some false
  | Assigned | Verifying => False
  end.

Definition queued (t : ComputeTask) : Prop := status t = Computing ∨ status t = ProofSubmitted.

Record TasksInv (T : Config) (now : BlockNumber) (s : State) : Prop := {
  ti_next : 0 ≤ NextTaskId s;
  ti_task k t : Tasks s !! k = Some t →
    0 ≤ k < NextTaskId s ∧ task_id t = k ∧ submitted_at t ≤ now ∧
    (∀ r, reward_amount t = Some r → 0 ≤ r) ∧ task_ok s k t;
  ti_queue pid k : k ∈ pool_tasks s pid →
    is_Some (Pools s !! pid) ∧ ∃ t, Tasks s !! k = Some t ∧ task_pool t = pid ∧ queued t;
  ti_nodup pid : NoDup (pool_tasks s pid);
  ti_count pid : Z.of_nat (length (pool_tasks s pid)) ≤ active_task_count s pid ∧
    Z.of_nat (length (pool_tasks s pid)) ≤ MaxTasksPerPool T;
  ti_proof k : is_Some (ProofSubmittedAt s !! k) ↔
    ∃ t, Tasks s !! k = Some t ∧ status t = ProofSubmitted;
  ti_proof_at k b t : ProofSubmittedAt s !! k = Some b → Tasks s !! k = Some t →
    submitted_at t ≤ b ≤ now;
}.

(** An escrow belongs to an undisputed task that has not failed; a claimed one
    was paid, an unclaimed one of a completed task has its reward ready. *)
Definition escrow_ok (s : State) (k : Z) (e : TaskEscrow) (t : ComputeTask) : Prop :=
  user t = esc_user e ∧ reward_amount t = Some (esc_reward e) ∧ disputed t = false ∧
  status t ≠ Failed ∧
  if claimed e then status t = Completed ∧ Rewards s !! k = None
  else status t = Completed → Rewards s !! k = Some (esc_reward e).

Record EscrowInv (s : State) : Prop := {
  ei_escrow k e : TaskEscrowStore s !! k = Some e →
    0 ≤ esc_reward e ∧ 0 ≤ esc_deposit e ∧ esc_reward e + esc_deposit e ≤ U128_MAX ∧
    ∃ t, Tasks s !! k = Some t ∧ escrow_ok s k e t;
  ei_reward k r : Rewards s !! k = Some r →
    ∃ t, Tasks s !! k = Some t ∧ status t = Completed ∧ reward_amount t = Some r;
}.

Definition stake_of (pid : Z) : Z * AccountId → Balance → Z :=
  λ k v, if bool_decide (k.1 = pid) then v else 0.

Record StakesInv (s : State) : Prop := {
  si_nonneg k v : PoolStakes s !! k = Some v → 0 ≤ v;
  si_total pid : total_pool_stake s pid = msum (stake_of pid) (PoolStakes s);
  si_bound pid : total_pool_stake s pid ≤ U128_MAX;
}.

Record Inv (T : Config) (now : BlockNumber) (s : State) : Prop := {
  inv_pools : PoolsInv T s;
  inv_tasks : TasksInv T now s;
  inv_escrow : EscrowInv s;
  inv_stakes : StakesInv s;
}.

(** ** Runs of the shared helpers *)

(** Task [k] leaves its pool's queue with a verdict: [t] becomes [t'] and its
    pool [p'] replaces [p]. *)
Record closes (s s' : State) (k : Z) (t t' : ComputeTask) (p' : ComputePool) : Prop := {
  cl_tasks : Tasks s' = <[k := t']> (Tasks s);
  cl_queue : PoolTasks s' =
    <[task_pool t := filter (λ id, id ≠ k) (pool_tasks s (task_pool t))]> (PoolTasks s);
  cl_count : ActiveTaskCount s' =
    <[task_pool t := saturating_sub (active_task_count s (task_pool t)) 1]> (ActiveTaskCount s);
  cl_proof : ProofSubmittedAt s' = delete k (ProofSubmittedAt s);
  cl_pools : Pools s' = <[task_pool t := p']> (Pools s);
  cl_owner : PoolByOwner s' = PoolByOwner s;
  cl_next : NextPoolId s' = NextPoolId s ∧ NextTaskId s' = NextTaskId s;
  cl_stakes : PoolStakes s' = PoolStakes s ∧ TotalPoolStake s' = TotalPoolStake s;
}.

Definition verdict (r : bool) (t : ComputeTask) : ComputeTask :=
  t <| verification_result := Some r |> <| status := if r then Completed else Failed |>.

(** What a release gives back to the user of task [k]. *)
Definition released `{ReservableCurrency L} (s : State) (k : Z) (l : L) : L :=
  match TaskEscrowStore s !! k with
  | Some e => (unreserve (esc_user e) (saturating_add U128_MAX (esc_reward e) (esc_deposit e)) l).1
  | None => l
  end.
Section runs.
Context `{ReservableCurrencyLaws L} {SH : Type} `{!TaskCompletionHandler L SH} (T : Config).
Implicit Types (s : State) (h : SH) (l : L).

Lemma release_escrow_run k s h l :
  release_escrow (SH:=SH) k ((s, h), l) =
  (Ok tt, ((s <| Rewards ::= delete k |> <| TaskEscrowStore ::= delete k |>, h),
     released s k l)).
Proof.
  unfold release_escrow, released. do 3 (erewrite bind_run by reflexivity). simpl.
  destruct (TaskEscrowStore s !! k); [|done]. by erewrite bind_run by apply m_unreserve_run.
Qed.

(** The slash takes what leaves the recorded deposit out of the reserve. *)
Lemma slash_pool_run pid p s h l :
  Pools s !! pid = Some p → 0 ≤ deposit_held p → 0 ≤ FailureSlash T →
  ∃ d es l', slash_pool (SH:=SH) T pid ((s, h), l) =
    (Ok tt, ((s <| Pools ::= <[pid := p <| deposit_held := d |>]> |> <| events := es |>, h), l')) ∧
    0 ≤ d ≤ deposit_held p ∧
    moves l l' (λ _, 0) (at_account (owner p) (- (deposit_held p - d))).
Proof.
  intros Hp Hd HF. unfold slash_pool. erewrite bind_run by reflexivity. simpl. rewrite Hp.
  erewrite bind_run by reflexivity. destruct (Z.eqb_spec (deposit_held p) 0) as [E|E].
  - exists 0, (events s), l. split_and!; try lia.
    + rewrite insert_id; [by destruct s|]. rewrite Hp. destruct p; simpl in *. by subst.
    + rewrite E. intros b. unfold at_account. split; [lia|]. destruct (decide (b = owner p)); lia.
  - set (sl := if _ <? _ then _ else _).
    assert (0 ≤ sl ≤ deposit_held p) as Hsl by (unfold sl; destruct (Z.ltb_spec (FailureSlash T) (deposit_held p)); lia).
    destruct (slash_spec (owner p) sl l ltac:(lia)) as [Hr Hm]. pose proof (balances_nonneg l (owner p)) as [_ Hnn].
    erewrite bind_run by apply m_slash_reserved_run. simpl.
    set (actual := saturating_sub sl _).
    assert (actual = Z.min sl (reserved_balance l (owner p))) as Ha by (unfold actual, saturating_sub; lia).
    exists (saturating_sub (deposit_held p) actual).
    destruct (Z.eqb_spec actual 0) as [E'|E']; (erewrite bind_run by reflexivity); eexists _, _;
      (split_and!; [reflexivity|unfold saturating_sub; lia..|]);
      by rewrite saturating_sub_exact, (Z.sub_sub_distr _ _ _), Z.sub_diag, Z.add_0_l, Ha by lia.
Qed.

Lemma mutate_task_run k f t s h l :
  Tasks s !! k = Some t →
  mutate_task k f ((s, h), l) = (Ok tt, ((s <| Tasks ::= <[k := f t]> |>, h), l)).
Proof. intros Hk. unfold mutate_task. erewrite bind_run by reflexivity. simpl. by rewrite Hk. Qed.

Lemma update_reputation_pool pid r s p :
  Pools s !! pid = Some p →
  update_reputation pid r s =
    s <| Pools ::= <[pid := rate_pool r p]> |>
      <| MinerReputation ::= <[owner p := rate_miner r (miner_reputation s (owner p))]> |>.
Proof. intros Hp. unfold update_reputation. by rewrite Hp. Qed.

(** The bookkeeping that closing a task with verdict [r] starts with. *)
Definition close_books (k : Z) (t t' : ComputeTask) (r : bool) s : State :=
  (update_reputation (task_pool t) r (decrement_pool_activity (task_pool t) k
    (s <| Tasks ::= <[k := t']> |>))) <| ProofSubmittedAt ::= delete k |>.

Definition same_money s s' : Prop :=
  Rewards s' = Rewards s ∧ TaskEscrowStore s' = TaskEscrowStore s.

Lemma close_books_spec k t t' r p s :
  Pools s !! task_pool t = Some p →
  closes s (close_books k t t' r s) k t t' (rate_pool r p) ∧ same_money s (close_books k t t' r s).
Proof.
  intros Hp. unfold close_books. rewrite (update_reputation_pool _ _ _ p) by exact Hp. by split.
Qed.

(** Releasing the escrow and slashing the pool after the books are closed. *)
Lemma release_slash_run k t t' p s s1 h l :
  closes s s1 k t t' p → same_money s s1 → 0 ≤ deposit_held p → 0 ≤ FailureSlash T →
  ∃ d s' l', (release_escrow (SH:=SH) k;; slash_pool T (task_pool t)) ((s1, h), l) = (Ok tt, ((s', h), l')) ∧
    closes s s' k t t' (p <| deposit_held := d |>) ∧
    Rewards s' = delete k (Rewards s) ∧ TaskEscrowStore s' = delete k (TaskEscrowStore s) ∧
    0 ≤ d ≤ deposit_held p ∧
    moves (released s k l) l' (λ _, 0) (at_account (owner p) (- (deposit_held p - d))).
Proof.
  intros Hcl [HR HE] Hd HF. erewrite bind_run by apply release_escrow_run.
  assert (released s1 k l = released s k l) as -> by (unfold released; by rewrite HE).
  set (s2 := s1 <| Rewards ::= delete k |> <| TaskEscrowStore ::= delete k |>).
  assert (Pools s2 !! task_pool t = Some p) as Hp2.
  { unfold s2. cbn. rewrite (cl_pools _ _ _ _ _ _ Hcl). apply lookup_insert_eq. }
  destruct (slash_pool_run _ _ s2 h (released s k l) Hp2 Hd HF) as (d & es & l' & Hrun & Hb & Hm).
  eexists d, _, l'. split; [exact Hrun|]. destruct Hcl. split_and!; try done; try lia.
  - split; try done. cbn. rewrite cl_pools0. apply insert_insert_eq.
  - cbn. by rewrite HR.
  - cbn. by rewrite HE.
Qed.

(** A failing task: release of its escrow, slash of its pool. *)
Lemma mark_task_failed_run k to t p s h l :
  Tasks s !! k = Some t → is_terminal (status t) = false →
  Pools s !! task_pool t = Some p → 0 ≤ deposit_held p → 0 ≤ FailureSlash T →
  ∃ d s' l', mark_task_failed (SH:=SH) T k to ((s, h), l) = (Ok tt, ((s', h), l')) ∧
    closes s s' k t (verdict false t) (rate_pool false p <| deposit_held := d |>) ∧
    Rewards s' = delete k (Rewards s) ∧ TaskEscrowStore s' = delete k (TaskEscrowStore s) ∧
    0 ≤ d ≤ deposit_held p ∧
    moves (released s k l) l' (λ _, 0) (at_account (owner p) (- (deposit_held p - d))).
Proof.
  intros Hk Hn Hp Hd HF. unfold mark_task_failed. erewrite bind_run by reflexivity. cbn [fst snd]. rewrite Hk.
  erewrite bind_run by reflexivity. rewrite Hn. erewrite bind_run by by apply mutate_task_run.
  do 3 (erewrite bind_run by reflexivity). cbn [fst snd].
  destruct (close_books_spec k t (verdict false t) false p s Hp) as [Hcl Hsm].
  change (field_update ProofSubmittedAt _ _) with (close_books k t (verdict false t) false s).
  generalize dependent (close_books k t (verdict false t) false s). intros s1 Hcl Hsm.
  destruct (release_slash_run k t _ _ s s1 h l Hcl Hsm Hd HF) as (d & s2 & l2 & Hrun & Hcl2 & HR & HE & Hb & Hm).
  rewrite bind_Ok in Hrun. destruct Hrun as ([] & w2 & Hrel & Hsl).
  erewrite bind_run by exact Hrel. erewrite bind_run by exact Hsl.
  destruct to; (erewrite bind_run by reflexivity); eexists d, _, l2; (split; [reflexivity|]);
    (split_and!; [by destruct Hcl2|done|done|apply Hb|apply Hb|exact Hm]).
Qed.

Lemma finalize_books k t (r : bool) p s :
  Pools s !! task_pool t = Some p →
  let s0 : State := deposit_event (TaskStatusChanged k Verifying)
    (s <| Tasks ::= <[k := t <| status := Verifying |>]> |>) in
  let s1 : State := deposit_event (TaskStatusChanged k (if r then Completed else Failed)) (deposit_event (ProofVerified k r)
    (s0 <| Tasks ::= <[k := verdict r (t <| status := Verifying |>)]> |>)) in
  let s2 : State := (update_reputation (task_pool t) r (decrement_pool_activity (task_pool t) k s1))
    <| ProofSubmittedAt ::= delete k |> in
  closes s s2 k t (verdict r t) (rate_pool r p) ∧ same_money s s2.
Proof.
  intros Hp. cbv zeta. rewrite (update_reputation_pool _ _ _ p) by exact Hp. split; [|done].
  split; try done. cbn. apply insert_insert_eq.
Qed.

(** A verdict of success: the reward becomes available, the handler is told. *)
Lemma reward_ready k t p s s1 h l :
  closes s s1 k t (verdict true t) p → same_money s s1 →
  ∃ s2, (match reward_amount t with
      | Some amount =>
          own_modify (λ s, s <| Rewards ::= <[k := amount]> |>);;
          own_modify (deposit_event (RewardAvailable k amount))
      | None => mret tt end : M (State * SH * L) (DispatchError Error) unit) ((s1, h), l) = (Ok tt, ((s2, h), l)) ∧
    closes s s2 k t (verdict true t) p ∧
    Rewards s2 = from_option (λ v, <[k := v]>) id (reward_amount t) (Rewards s) ∧
    TaskEscrowStore s2 = TaskEscrowStore s.
Proof.
  intros Hcl [HR HE].
  destruct (reward_amount t); eexists; (split; [reflexivity|]); (split; [by destruct Hcl|]); cbn; by rewrite HR.
Qed.

Lemma finalize_run now k t hash p r s h l :
  Tasks s !! k = Some t → proof_hash t = Some hash →
  Pools s !! task_pool t = Some p → 0 ≤ deposit_held p → 0 ≤ FailureSlash T →
  ∃ d s' h' l', finalize_verification T now k (task_pool t) r ((s, h), l) = (Ok tt, ((s', h'), l')) ∧
    closes s s' k t (verdict r t) (rate_pool r p <| deposit_held := d |>) ∧
    if r : bool then
      Rewards s' = from_option (λ v, <[k := v]>) id (reward_amount t) (Rewards s) ∧
      TaskEscrowStore s' = TaskEscrowStore s ∧ d = deposit_held p ∧
      (h', l') = (task_completed now (owner p) k hash [] 0 0 (h, l)).2
    else
      Rewards s' = delete k (Rewards s) ∧ TaskEscrowStore s' = delete k (TaskEscrowStore s) ∧
      h' = h ∧ 0 ≤ d ≤ deposit_held p ∧
      moves (released s k l) l' (λ _, 0) (at_account (owner p) (- (deposit_held p - d))).
Proof.
  intros Hk Hh Hp Hd HF. unfold finalize_verification. erewrite bind_run by reflexivity. cbn [fst snd].
  rewrite Hk. change (Some t ≫= proof_hash) with (proof_hash t). rewrite Hh.
  erewrite bind_run by reflexivity. erewrite bind_run by by apply mutate_task_run.
  erewrite bind_run by reflexivity. cbv zeta. cbn [fst snd].
  erewrite bind_run by (apply (mutate_task_run _ _ (t <| status := Verifying |>)); apply lookup_insert_eq).
  do 5 (erewrite bind_run by reflexivity). cbn [fst snd].
  destruct (finalize_books k t r p s Hp) as [Hcl Hsm].
  set (s1 := field_update ProofSubmittedAt _ _) in Hcl, Hsm.
  match goal with |- context [((?x, h), l)] => change x with s1 end. clearbody s1. destruct r.
  - erewrite bind_run by reflexivity. cbn [fst snd]. rewrite (cl_tasks _ _ _ _ _ _ Hcl), lookup_insert_eq.
    change (Some (verdict true t) ≫= reward_amount) with (reward_amount t).
    destruct (reward_ready k t _ s s1 h l Hcl Hsm) as (s2 & Hrew & Hcl2 & HR2 & HE2).
    erewrite bind_run by exact Hrew. erewrite bind_run by reflexivity. cbn [fst snd].
    rewrite (cl_tasks _ _ _ _ _ _ Hcl2), lookup_insert_eq. do 2 (erewrite bind_run by reflexivity). cbn [fst snd].
    change (task_pool (verdict true t)) with (task_pool t).
    rewrite (cl_pools _ _ _ _ _ _ Hcl2), lookup_insert_eq. erewrite bind_run by reflexivity.
    eexists (deposit_held p), s2, _, _. split; [reflexivity|].
    split; [exact Hcl2|]. split_and!; try done. symmetry. apply surjective_pairing.
  - destruct (release_slash_run k t _ _ s s1 h l Hcl Hsm Hd HF) as (d & s2 & l2 & Hrun & Hcl2 & HR & HE & Hb & Hm).
    exists d, s2, h, l2. split; [exact Hrun|]. split; [exact Hcl2|]. split_and!; try done; apply Hb.
Qed.
End runs.

(** ** Transitions, part by part *)
Section transitions.
Context (T : Config) (HT : config_typed T).
Implicit Types (s : State) (t : ComputeTask) (p : ComputePool).

Lemma pool_ok_rate k p r d :
  pool_ok T k p → 0 ≤ d ≤ deposit_held p → pool_ok T k (rate_pool r p <| deposit_held := d |>).
Proof.
  intros (Hid & (Hrep & Hsr & Hpr & Hnv) & Hst & Hdep & Hmem & Hprice & Hct & Htot & Hsc) Hd.
  unfold pool_ok, pool_typed; cbn. unfold saturating_add, saturating_sub, saturating_mul.
  rewrite (proj2 (Z.ltb_lt 0 _)) by (unfold U32_MAX in *; lia).
  split_and!; try done; try lia.
  all: try (destruct r; unfold U32_MAX in *; lia).
  apply Z.min_glb; [|lia]. apply Z.div_pos; destruct r; unfold U32_MAX in *; lia.
Qed.

(** *** Pools *)

Lemma PoolsInv_same s s' :
  PoolsInv T s → Pools s' = Pools s → PoolByOwner s' = PoolByOwner s →
  NextPoolId s' = NextPoolId s → PoolsInv T s'.
Proof. intros [I1 I2 I3] HP HO HN. split; by rewrite ?HP, ?HO, ?HN. Qed.

Lemma PoolsInv_update s s' k p p' :
  PoolsInv T s → Pools s !! k = Some p → Pools s' = <[k := p']> (Pools s) →
  owner p' = owner p → pool_ok T k p' → PoolByOwner s' = PoolByOwner s →
  NextPoolId s' = NextPoolId s → PoolsInv T s'.
Proof.
  intros [I1 I2 I3] Hk HP Ho Hok HO HN. split; rewrite ?HP, ?HO, ?HN; [done| |].
  - intros k' q [[<- <-]|[_ Hq]]%lookup_insert_Some; [|by apply I2].
    destruct (I2 k p Hk) as (? & _ & ?). by rewrite Ho.
  - intros o k' Hk'. destruct (I3 o k' Hk') as (q & Hq & Hoq). rewrite lookup_insert.
    destruct (decide (k = k')) as [<-|]; [|eauto]. exists p'. split; [done|]. congruence.
Qed.

Lemma PoolsInv_add s s' p :
  PoolsInv T s → Pools s' = <[NextPoolId s := p]> (Pools s) → pool_ok T (NextPoolId s) p →
  PoolByOwner s !! owner p = None → PoolByOwner s' = <[owner p := NextPoolId s]> (PoolByOwner s) →
  NextPoolId s' = NextPoolId s + 1 → PoolsInv T s'.
Proof.
  intros [I1 I2 I3] HP Hok Hnone HO HN. split; rewrite ?HP, ?HO, ?HN; [lia| |].
  - intros k q [[<- <-]|[Hne Hq]]%lookup_insert_Some; [rewrite lookup_insert_eq; solve_facts|].
    destruct (I2 k q Hq) as (? & ? & Hoq). split_and!; try done; try lia.
    rewrite lookup_insert_ne; [done|]. congruence.
  - intros o k [[<- <-]|[Hne Hk]]%lookup_insert_Some; [rewrite lookup_insert_eq; eauto|].
    destruct (I3 o k Hk) as (q & Hq & Hoq). exists q. rewrite lookup_insert_ne; [done|].
    destruct (I2 k q Hq). lia.
Qed.

Lemma PoolsInv_remove s s' k p :
  PoolsInv T s → Pools s !! k = Some p → Pools s' = delete k (Pools s) →
  PoolByOwner s' = delete (owner p) (PoolByOwner s) → NextPoolId s' = NextPoolId s → PoolsInv T s'.
Proof.
  intros [I1 I2 I3] Hk HP HO HN. destruct (I2 k p Hk) as (_ & _ & Hop).
  split; rewrite ?HP, ?HO, ?HN; [done| |].
  - intros k' q [Hne Hq]%lookup_delete_Some. destruct (I2 k' q Hq) as (? & ? & Hoq). split_and!; try done; try lia.
    rewrite lookup_delete_ne; [done|]. congruence.
  - intros o k' [Hne Hk']%lookup_delete_Some. destruct (I3 o k' Hk') as (q & Hq & Hoq). exists q.
    rewrite lookup_delete_ne; [done|]. intros <-. simplify_eq.
Qed.

(** *** Tasks and queues *)

Definition same_tasks s s' : Prop :=
  Tasks s' = Tasks s ∧ PoolTasks s' = PoolTasks s ∧ ActiveTaskCount s' = ActiveTaskCount s ∧
  ProofSubmittedAt s' = ProofSubmittedAt s ∧ NextTaskId s' = NextTaskId s.

Definition keeps_pools s s' : Prop := ∀ pid, is_Some (Pools s !! pid) → is_Some (Pools s' !! pid).

Lemma keeps_same s s' : Pools s' = Pools s → keeps_pools s s'.
Proof. intros Hp pid. by rewrite Hp. Qed.
Lemma keeps_insert s s' k p : Pools s' = <[k := p]> (Pools s) → keeps_pools s s'.
Proof. intros Hp pid Hs. rewrite Hp, lookup_insert. by case_decide. Qed.

Lemma TasksInv_same now s s' : TasksInv T now s → same_tasks s s' → keeps_pools s s' → TasksInv T now s'.
Proof.
  intros [I1 I2 I3 I4 I5 I6 I7] (HT1 & HT2 & HT3 & HT4 & HT5) HP.
  assert (∀ pid, pool_tasks s' pid = pool_tasks s pid) as Hq by (intros; unfold pool_tasks; by rewrite HT2).
  assert (∀ pid, active_task_count s' pid = active_task_count s pid) as Ha
    by (intros; unfold active_task_count; by rewrite HT3).
  split; rewrite ?HT1, ?HT4, ?HT5; try done.
  - intros k t Hk. destruct (I2 k t Hk) as (? & ? & ? & ? & Hok). unfold task_ok in *. by rewrite Hq.
  - intros pid k. rewrite Hq. intros Hk. destruct (I3 pid k Hk). eauto.
  - intros pid. by rewrite Hq.
  - intros pid. by rewrite Hq, Ha.
Qed.

Lemma TasksInv_later now now' s : now ≤ now' → TasksInv T now s → TasksInv T now' s.
Proof.
  intros Hle [I1 I2 I3 I4 I5 I6 I7]. split; try done.
  - intros k t Hk. destruct (I2 k t Hk) as (? & ? & ? & ? & ?). solve_facts.
  - intros k b t Hb Ht. specialize (I7 k b t Hb Ht). lia.
Qed.

(** Replacing task [k] by one whose queue entry stays as it was. *)
Lemma TasksInv_replace now s s' k t t' :
  TasksInv T now s → Tasks s !! k = Some t → Tasks s' = <[k := t']> (Tasks s) →
  task_id t' = task_id t → submitted_at t' = submitted_at t → task_pool t' = task_pool t →
  reward_amount t' = reward_amount t → task_ok s k t' → (queued t ↔ queued t') →
  PoolTasks s' = PoolTasks s → ActiveTaskCount s' = ActiveTaskCount s →
  NextTaskId s' = NextTaskId s → keeps_pools s s' →
  (∀ b, ProofSubmittedAt s' !! k = Some b → submitted_at t ≤ b ≤ now) →
  (is_Some (ProofSubmittedAt s' !! k) ↔ status t' = ProofSubmitted) →
  (∀ k', k' ≠ k → ProofSubmittedAt s' !! k' = ProofSubmittedAt s !! k') → TasksInv T now s'.
Proof.
  intros [I1 I2 I3 I4 I5 I6 I7] Hk HT1 Hid Hsub Hpool Hrew Hok Hqd HT2 HT3 HN HP Hb Hiff Hother.
  assert (∀ pid, pool_tasks s' pid = pool_tasks s pid) as Hq by (intros; unfold pool_tasks; by rewrite HT2).
  assert (∀ pid, active_task_count s' pid = active_task_count s pid) as Ha
    by (intros; unfold active_task_count; by rewrite HT3).
  assert (∀ k t, task_ok s' k t ↔ task_ok s k t) as Hto by (intros; unfold task_ok; by rewrite Hq).
  split; rewrite ?HN; try done.
  - intros k' u. rewrite HT1, Hto. intros [[<- <-]|[_ Hu]]%lookup_insert_Some; [|by apply I2].
    destruct (I2 k t Hk) as (? & ? & ? & ? & _). rewrite Hid, Hsub, Hrew. solve_facts.
  - intros pid k'. rewrite Hq. intros Hk'. destruct (I3 pid k' Hk') as (? & u & Hu & Hup & Huq).
    split; [by apply HP|]. rewrite HT1, lookup_insert. destruct (decide (k = k')) as [<-|]; [|eauto].
    simplify_eq. exists t'. split_and!; [done|done|by apply Hqd].
  - intros pid. by rewrite Hq.
  - intros pid. by rewrite Hq, Ha.
  - intros k'. rewrite HT1, lookup_insert. destruct (decide (k = k')) as [<-|Hne].
    + rewrite Hiff. naive_solver.
    + rewrite Hother by done. apply I6.
  - intros k' b u Hb' Hu. rewrite HT1, lookup_insert in Hu. destruct (decide (k = k')) as [<-|Hne].
    + simplify_eq. rewrite Hsub. by apply Hb.
    + rewrite Hother in Hb' by done. by apply (I7 k').
Qed.

Lemma pool_tasks_insert s s' pid ids pid' :
  PoolTasks s' = <[pid := ids]> (PoolTasks s) →
  pool_tasks s' pid' = if decide (pid' = pid) then ids else pool_tasks s pid'.
Proof.
  intros Hq. unfold pool_tasks. rewrite Hq, lookup_insert.
  destruct (decide (pid = pid')), (decide (pid' = pid)); by simplify_eq.
Qed.
Lemma active_count_insert s s' pid n pid' :
  ActiveTaskCount s' = <[pid := n]> (ActiveTaskCount s) →
  active_task_count s' pid' = if decide (pid' = pid) then n else active_task_count s pid'.
Proof.
  intros Hq. unfold active_task_count. rewrite Hq, lookup_insert.
  destruct (decide (pid = pid')), (decide (pid' = pid)); by simplify_eq.
Qed.

Lemma length_filter_ne (k : Z) (ids : list Z) :
  NoDup ids → k ∈ ids → Z.of_nat (length (filter (λ id, id ≠ k) ids)) = Z.of_nat (length ids) - 1.
Proof.
  induction 1 as [|x ids Hx Hnd IH]; [set_solver|]. intros [<-|Hk]%elem_of_cons.
  - rewrite filter_cons_False by naive_solver. rewrite filter_all by (intros y Hy ->; done). simpl. lia.
  - rewrite filter_cons_True by (intros ->; done). simpl. specialize (IH Hk). lia.
Qed.

(** A task that leaves the queue with its verdict. *)
Lemma TasksInv_close now s s' k t r p' :
  TasksInv T now s → Tasks s !! k = Some t → queued t →
  closes s s' k t (verdict r t) p' → TasksInv T now s'.
Proof.
  intros [I1 I2 I3 I4 I5 I6 I7] Hk Hqt [HT1 HT2 HT3 HT4 HP HO [_ HN] _].
  destruct (I2 k t Hk) as (Hk1 & Hk2 & Hk3 & Hk4 & Hok).
  assert (k ∈ pool_tasks s (task_pool t)) as Hin by (unfold task_ok in Hok; destruct Hqt as [E|E]; rewrite E in Hok; naive_solver).
  pose proof (λ pid, pool_tasks_insert s s' _ _ pid HT2) as Hq. pose proof (λ pid, active_count_insert s s' _ _ pid HT3) as Ha.
  assert (∀ pid k', k' ∈ pool_tasks s' pid ↔ k' ∈ pool_tasks s pid ∧ k' ≠ k) as Helem.
  { intros pid k'. rewrite Hq. destruct (decide (pid = task_pool t)) as [->|Hne].
    - rewrite list_elem_of_filter. naive_solver.
    - split; [|naive_solver]. intros Hk'. split; [done|]. intros ->.
      destruct (I3 pid k Hk') as (_ & u & Hu & Hup & _). simplify_eq. }
  split; rewrite ?HN; try done.
  - intros k' u. rewrite HT1. intros [[<- <-]|[Hne Hu]]%lookup_insert_Some.
    { split_and!; try done; try lia. unfold task_ok, verdict; cbn. by destruct r. }
    destruct (I2 k' u Hu) as (? & ? & ? & ? & Hu'). split_and!; try done; try lia.
    unfold task_ok in *. destruct (status u); try done; rewrite Helem; naive_solver.
  - intros pid k' [Hk' Hne]%Helem. destruct (I3 pid k' Hk') as (HP' & u & Hu & Hup & Huq). split.
    + rewrite HP, lookup_insert. by case_decide.
    + exists u. rewrite HT1, lookup_insert_ne by done. done.
  - intros pid. rewrite Hq. destruct (decide _); [apply NoDup_filter|]; done.
  - intros pid. rewrite Hq, Ha. destruct (decide _) as [->|]; [|done].
    rewrite length_filter_ne by done. unfold saturating_sub. destruct (I5 (task_pool t)). lia.
  - intros k'. rewrite HT4, HT1. destruct (decide (k = k')) as [<-|Hne].
    + rewrite lookup_delete_eq, lookup_insert_eq. split; [by intros [? ?]|].
      intros (u & Hu & Hst). injection Hu as <-. by destruct r.
    + rewrite lookup_delete_ne, lookup_insert_ne by done. apply I6.
  - intros k' b u. rewrite HT4, HT1. intros [Hne Hb]%lookup_delete_Some.
    rewrite lookup_insert_ne by done. by apply I7.
Qed.

Lemma Tasks_fresh now s : TasksInv T now s → Tasks s !! NextTaskId s = None.
Proof.
  intros I. apply eq_None_not_Some. intros [t Ht]. destruct (ti_task _ _ _ I _ _ Ht). lia.
Qed.

(** A new task: [queue] tells whether it entered its pool's queue. *)
Lemma TasksInv_add now s s' t (queue : bool) :
  TasksInv T now s → Tasks s' = <[NextTaskId s := t]> (Tasks s) →
  task_id t = NextTaskId s → submitted_at t = now → (∀ r, reward_amount t = Some r → 0 ≤ r) →
  proof_hash t = None → verification_result t = None → disputed t = false →
  status t = (if queue then Computing else Pending) →
  PoolTasks s' = (if queue then <[task_pool t := pool_tasks s (task_pool t) ++ [NextTaskId s]]> (PoolTasks s)
                  else PoolTasks s) →
  (queue = true → Z.of_nat (length (pool_tasks s (task_pool t))) < MaxTasksPerPool T) →
  ActiveTaskCount s' =
    <[task_pool t := saturating_add U32_MAX (active_task_count s (task_pool t)) 1]> (ActiveTaskCount s) →
  ProofSubmittedAt s' = ProofSubmittedAt s → NextTaskId s' = NextTaskId s + 1 →
  keeps_pools s s' → is_Some (Pools s' !! task_pool t) → TasksInv T now s'.
Proof.
  intros I HT1 Hid Hsub Hrew Hpf Hver Hdis Hst HT2 Hroom HT3 HT4 HN HP Hpool.
  pose proof (Tasks_fresh now s I) as Hfresh. destruct I as [I1 I2 I3 I4 I5 I6 I7].
  pose proof (λ pid, active_count_insert s s' _ _ pid HT3) as Ha.
  assert (∀ pid, pool_tasks s' pid = if decide (queue = true ∧ pid = task_pool t)
    then pool_tasks s pid ++ [NextTaskId s] else pool_tasks s pid) as Hq.
  { intros pid. destruct queue.
    - rewrite (pool_tasks_insert s s' _ _ pid HT2).
      destruct (decide (pid = task_pool t)), (decide (true = true ∧ pid = task_pool t)); naive_solver.
    - rewrite decide_False by naive_solver. unfold pool_tasks. by rewrite HT2. }
  assert (∀ pid, NextTaskId s ∉ pool_tasks s pid) as Hnq.
  { intros pid Hin. destruct (I3 pid _ Hin) as (_ & u & Hu & _). congruence. }
  assert (∀ pid k, k ∈ pool_tasks s' pid ↔ k ∈ pool_tasks s pid ∨ (queue = true ∧ pid = task_pool t ∧ k = NextTaskId s)) as Helem.
  { intros pid k. rewrite Hq. destruct (decide (queue = true ∧ pid = task_pool t)) as [E|E]; [|naive_solver]. rewrite elem_of_app, list_elem_of_singleton. naive_solver. }
  split; rewrite ?HN; try lia.
  - intros k u. rewrite HT1. intros [[<- <-]|[Hne Hu]]%lookup_insert_Some.
    { split_and!; try done; try lia. unfold task_ok. rewrite Hst. destruct queue; [|done].
      split_and!; try done. apply Helem. auto. }
    destruct (I2 k u Hu) as (? & ? & ? & ? & Hu'). split_and!; try done; try lia.
    unfold task_ok in *. destruct (status u); try done; rewrite Helem; naive_solver.
  - intros pid k [Hk|(Hqt & -> & ->)]%Helem.
    + destruct (I3 pid k Hk) as (? & u & Hu & Hup). split; [by apply HP|]. exists u.
      rewrite HT1, lookup_insert_ne; [done|]. congruence.
    + split; [done|]. exists t. rewrite HT1, lookup_insert_eq. unfold queued. rewrite Hst, Hqt. auto.
  - intros pid. rewrite Hq.
    destruct (decide (queue = true ∧ pid = task_pool t)) as [E|E]; [|done]. apply NoDup_app. split_and!; [done| |apply NoDup_singleton].
    intros k Hk ->%list_elem_of_singleton. by apply (Hnq pid).
  - intros pid. rewrite Hq, Ha. destruct (I5 pid) as [H1 H2]. pose proof (cfg_max _ HT) as Hmax.
    unfold saturating_add. destruct (decide (queue = true ∧ pid = task_pool t)) as [E|E].
    + destruct E as [Hqt ->]. rewrite decide_True by done. specialize (Hroom Hqt). rewrite length_app. simpl. lia.
    + destruct (decide (pid = task_pool t)); subst; lia.
  - intros k. rewrite HT4, HT1, I6, lookup_insert. destruct (decide (NextTaskId s = k)) as [<-|]; [|done].
    rewrite Hfresh. split; [naive_solver|]. intros (u & [= <-] & Hu). rewrite Hst in Hu. by destruct queue.
  - intros k b u. rewrite HT4, HT1. intros Hb [[<- <-]|[Hne Hu]]%lookup_insert_Some; [|by apply (I7 k)].
    destruct (proj1 (I6 (NextTaskId s))) as (u & Hu & _); [eauto|congruence].
Qed.

(** A pool without active tasks leaves with its (empty) queue. *)
Lemma TasksInv_remove now s s' pid :
  TasksInv T now s → active_task_count s pid = 0 → Tasks s' = Tasks s →
  PoolTasks s' = delete pid (PoolTasks s) → ActiveTaskCount s' = delete pid (ActiveTaskCount s) →
  ProofSubmittedAt s' = ProofSubmittedAt s → NextTaskId s' = NextTaskId s →
  Pools s' = delete pid (Pools s) → TasksInv T now s'.
Proof.
  intros [I1 I2 I3 I4 I5 I6 I7] H0 HT1 HT2 HT3 HT4 HN HP.
  assert (pool_tasks s pid = []) as Hnil by (apply length_zero_iff_nil; destruct (I5 pid); lia).
  assert (∀ q, pool_tasks s' q = pool_tasks s q) as Hq.
  { intros q. unfold pool_tasks in *. rewrite HT2. destruct (decide (pid = q)) as [<-|].
    - by rewrite lookup_delete_eq, Hnil.
    - by rewrite lookup_delete_ne. }
  assert (∀ q, active_task_count s' q = active_task_count s q) as Ha.
  { intros q. unfold active_task_count in *. rewrite HT3. destruct (decide (pid = q)) as [<-|].
    - by rewrite lookup_delete_eq, H0.
    - by rewrite lookup_delete_ne. }
  split; rewrite ?HT1, ?HT4, ?HN; try done.
  - intros k t Hk. destruct (I2 k t Hk) as (? & ? & ? & ? & Hok). unfold task_ok in *. by rewrite Hq.
  - intros q k. rewrite Hq. intros Hk. destruct (I3 q k Hk) as [Hs Ht]. split; [|done].
    rewrite HP, lookup_delete_ne; [done|]. intros <-. rewrite Hnil in Hk. set_solver.
  - intros q. by rewrite Hq.
  - intros q. by rewrite Hq, Ha.
Qed.

(** *** Escrows and rewards *)

Lemma EscrowInv_same s s' : EscrowInv s → Tasks s' = Tasks s → same_money s s' → EscrowInv s'.
Proof.
  intros [I1 I2] HT1 [HR HE]. split; rewrite ?HR, ?HE, ?HT1; [|done].
  intros k e Hk. destruct (I1 k e Hk) as (? & ? & ? & t & ? & Hok). split_and!; try done.
  exists t. split; [done|]. unfold escrow_ok in *. by rewrite HR.
Qed.

(** Task [k] changes while the escrows and rewards of the others stay. *)
Lemma EscrowInv_at s s' k t' :
  EscrowInv s → Tasks s' = <[k := t']> (Tasks s) →
  (∀ k', k' ≠ k → Rewards s' !! k' = Rewards s !! k' ∧ TaskEscrowStore s' !! k' = TaskEscrowStore s !! k') →
  (∀ e, TaskEscrowStore s' !! k = Some e → 0 ≤ esc_reward e ∧ 0 ≤ esc_deposit e ∧
     esc_reward e + esc_deposit e ≤ U128_MAX ∧ escrow_ok s' k e t') →
  (∀ r, Rewards s' !! k = Some r → status t' = Completed ∧ reward_amount t' = Some r) →
  EscrowInv s'.
Proof.
  intros [I1 I2] HT1 Hother HE HR. split.
  - intros k' e He. rewrite HT1, lookup_insert. destruct (decide (k = k')) as [<-|Hne].
    { destruct (HE e He) as (? & ? & ? & ?). split_and!; try done. eauto. }
    destruct (Hother k') as [HR' HE']; [done|]. rewrite HE' in He.
    destruct (I1 k' e He) as (? & ? & ? & t & Ht & Hok). split_and!; try done.
    exists t. split; [done|]. unfold escrow_ok in *. by rewrite HR'.
  - intros k' r Hr. rewrite HT1, lookup_insert. destruct (decide (k = k')) as [<-|Hne]; [naive_solver|].
    destruct (Hother k') as [HR' _]; [done|]. rewrite HR' in Hr. by apply I2.
Qed.

Lemma EscrowInv_live s s' k t t' :
  EscrowInv s → Tasks s !! k = Some t → Tasks s' = <[k := t']> (Tasks s) → same_money s s' →
  is_terminal (status t) = false → is_terminal (status t') = false → user t' = user t →
  reward_amount t' = reward_amount t → disputed t' = disputed t → EscrowInv s'.
Proof.
  intros I Hk HT1 [HR HE] Ht Ht' Hu Hr Hd. eapply EscrowInv_at; [exact I|exact HT1|..].
  - intros k' _. by rewrite HR, HE.
  - intros e He. rewrite HE in He. destruct (ei_escrow _ I k e He) as (? & ? & ? & u & Hu' & Hok).
    simplify_eq. split_and!; try done. unfold escrow_ok in *. rewrite Hu, Hr, Hd.
    destruct Hok as (? & ? & ? & ? & Hc). split_and!; try done; [by destruct (status t')|].
    destruct (claimed e); [destruct Hc as [Hc _]; by rewrite Hc in Ht|]. intros E. by rewrite E in Ht'.
  - intros r Hrw. rewrite HR in Hrw. destruct (ei_reward _ I k r Hrw) as (u & Hu' & Hst & _).
    simplify_eq. by rewrite Hst in Ht.
Qed.

Lemma EscrowInv_complete s s' k t p' :
  EscrowInv s → Tasks s !! k = Some t → is_terminal (status t) = false →
  closes s s' k t (verdict true t) p' →
  Rewards s' = from_option (λ v, <[k := v]>) id (reward_amount t) (Rewards s) →
  TaskEscrowStore s' = TaskEscrowStore s → EscrowInv s'.
Proof.
  intros I Hk Ht Hcl HR HE. eapply EscrowInv_at; [exact I|exact (cl_tasks _ _ _ _ _ _ Hcl)|..].
  - intros k' Hne. rewrite HR, HE. destruct (reward_amount t); cbn; [|done]. by rewrite lookup_insert_ne.
  - intros e He. rewrite HE in He. destruct (ei_escrow _ I k e He) as (? & ? & ? & u & Hu & Hok).
    simplify_eq. split_and!; try done. destruct Hok as (? & Hrw & ? & ? & Hc).
    unfold escrow_ok. split_and!; try done.
    destruct (claimed e); [destruct Hc as [Hc _]; by rewrite Hc in Ht|]. intros _.
    rewrite HR, Hrw. cbn. apply lookup_insert_eq.
  - intros r Hrw. split; [done|]. cbn. rewrite HR in Hrw. destruct (reward_amount t) as [v|]; cbn in Hrw.
    + by rewrite lookup_insert_eq in Hrw.
    + destruct (ei_reward _ I k r Hrw) as (u & Hu & Hst & _). simplify_eq. by rewrite Hst in Ht.
Qed.

Lemma EscrowInv_drop s s' k t' :
  EscrowInv s → Tasks s' = <[k := t']> (Tasks s) → Rewards s' = delete k (Rewards s) →
  TaskEscrowStore s' = delete k (TaskEscrowStore s) → EscrowInv s'.
Proof.
  intros I HT1 HR HE. eapply EscrowInv_at; [exact I|exact HT1|..].
  - intros k' Hne. by rewrite HR, HE, !lookup_delete_ne.
  - intros e He. by rewrite HE, lookup_delete_eq in He.
  - intros r Hr. by rewrite HR, lookup_delete_eq in Hr.
Qed.

(** A failed task that is completed after a dispute has no escrow any more. *)
Lemma EscrowInv_reinstate s s' k t t' :
  EscrowInv s → Tasks s !! k = Some t → status t = Failed → Tasks s' = <[k := t']> (Tasks s) →
  status t' = Completed → reward_amount t' = reward_amount t →
  Rewards s' = from_option (λ v, <[k := v]>) id (reward_amount t) (Rewards s) →
  TaskEscrowStore s' = TaskEscrowStore s → EscrowInv s'.
Proof.
  intros I Hk Hf HT1 Hst Hrw HR HE. eapply EscrowInv_at; [exact I|exact HT1|..].
  - intros k' Hne. rewrite HR, HE. destruct (reward_amount t); cbn; [|done]. by rewrite lookup_insert_ne.
  - intros e He. rewrite HE in He. destruct (ei_escrow _ I k e He) as (_ & _ & _ & u & Hu & Hok).
    simplify_eq. by destruct Hok as (_ & _ & _ & ? & _).
  - intros r Hr. split; [done|]. rewrite Hrw. rewrite HR in Hr. destruct (reward_amount t) as [v|]; cbn in Hr.
    + by rewrite lookup_insert_eq in Hr.
    + destruct (ei_reward _ I k r Hr) as (u & Hu & Hst' & _). simplify_eq. congruence.
Qed.

Lemma EscrowInv_claim s s' k e r :
  EscrowInv s → Tasks s' = Tasks s → TaskEscrowStore s !! k = Some e → Rewards s !! k = Some r →
  TaskEscrowStore s' = <[k := e <| claimed := true |>]> (TaskEscrowStore s) →
  Rewards s' = delete k (Rewards s) → EscrowInv s'.
Proof.
  intros I HT1 He Hr HE HR. destruct (ei_escrow _ I k e He) as (? & ? & ? & t & Ht & Hok).
  destruct (ei_reward _ I k r Hr) as (u & Hu & Hst & _). simplify_eq.
  eapply (EscrowInv_at s s' k t); [exact I|by rewrite insert_id|..].
  - intros k' Hne. by rewrite HR, HE, lookup_delete_ne, lookup_insert_ne.
  - intros e'. rewrite HE, lookup_insert_eq. intros [= <-]. destruct Hok as (? & ? & ? & ? & _).
    split_and!; try done. unfold escrow_ok; cbn. by rewrite HR, lookup_delete_eq.
  - intros r'. by rewrite HR, lookup_delete_eq.
Qed.

Lemma EscrowInv_add s s' k t e :
  EscrowInv s → Tasks s !! k = None → Tasks s' = <[k := t]> (Tasks s) → Rewards s' = Rewards s →
  TaskEscrowStore s' = partial_alter (λ _, e) k (TaskEscrowStore s) →
  from_option (λ e, 0 ≤ esc_reward e ∧ 0 ≤ esc_deposit e ∧ esc_reward e + esc_deposit e ≤ U128_MAX ∧
    user t = esc_user e ∧ reward_amount t = Some (esc_reward e) ∧ disputed t = false ∧
    status t = Computing ∧ claimed e = false) True e → EscrowInv s'.
Proof.
  intros I Hk HT1 HR HE Hok. eapply EscrowInv_at; [exact I|exact HT1|..].
  - intros k' Hne. by rewrite HR, HE, lookup_partial_alter_ne.
  - intros e'. rewrite HE, lookup_partial_alter_eq. intros ->. cbn in Hok.
    destruct Hok as (? & ? & ? & ? & ? & ? & Hst & Hc). split_and!; try done. unfold escrow_ok.
    rewrite Hc, Hst. by split_and!.
  - intros r Hr. rewrite HR in Hr. destruct (ei_reward _ I k r Hr) as (u & Hu & _). congruence.
Qed.

(** *** Stakes *)

Lemma StakesInv_same s s' :
  StakesInv s → PoolStakes s' = PoolStakes s → TotalPoolStake s' = TotalPoolStake s → StakesInv s'.
Proof. intros [I1 I2 I3] HS HTt. split; unfold total_pool_stake in *; by rewrite ?HS, ?HTt. Qed.

Lemma StakesInv_put s s' pid who v d :
  StakesInv s → v = pool_stake s pid who + d → 0 ≤ v → total_pool_stake s pid + d ≤ U128_MAX →
  PoolStakes s' = <[(pid, who) := v]> (PoolStakes s) →
  TotalPoolStake s' = <[pid := total_pool_stake s pid + d]> (TotalPoolStake s) → StakesInv s'.
Proof.
  intros [I1 I2 I3] Hv Hnn Hmax HS HTt.
  assert (∀ q, total_pool_stake s' q = if decide (q = pid) then total_pool_stake s pid + d else total_pool_stake s q) as Htot.
  { intros q. unfold total_pool_stake. rewrite HTt, lookup_insert.
    destruct (decide (pid = q)), (decide (q = pid)); by simplify_eq. }
  split.
  - intros k w. rewrite HS. intros [[_ <-]|[_ Hk]]%lookup_insert_Some; [done|eauto].
  - intros q. rewrite Htot, HS. unfold pool_stake in Hv.
    assert (msum (stake_of q) (<[(pid, who) := v]> (PoolStakes s)) =
      msum (stake_of q) (PoolStakes s) + (if decide (q = pid) then d else 0)) as ->.
    { destruct (PoolStakes s !! (pid, who)) as [x|] eqn:Hx; cbn in Hv.
      - rewrite (msum_insert_Some _ _ _ _ _ Hx). unfold stake_of; cbn. case_bool_decide; destruct (decide (q = pid)); subst; done || lia.
      - rewrite msum_insert_None by done. unfold stake_of; cbn. case_bool_decide; destruct (decide (q = pid)); subst; done || lia. }
    rewrite <-I2. case_decide; subst; lia.
  - intros q. rewrite Htot. case_decide; [lia|done].
Qed.
End transitions.

(** ** Effects: what each successful operation did to which part *)

Definition same_pools (s s' : State) : Prop :=
  Pools s' = Pools s ∧ PoolByOwner s' = PoolByOwner s ∧ NextPoolId s' = NextPoolId s.
Definition same_stakes (s s' : State) : Prop :=
  PoolStakes s' = PoolStakes s ∧ TotalPoolStake s' = TotalPoolStake s.

(** Pool [pid] is replaced; the owners and the ids stay. *)
Definition pool_becomes (s s' : State) (pid : Z) (p' : ComputePool) : Prop :=
  Pools s' = <[pid := p']> (Pools s) ∧ PoolByOwner s' = PoolByOwner s ∧ NextPoolId s' = NextPoolId s.

Section effects.
Context `{ReservableCurrencyLaws L} {SH : Type} `{!TaskCompletionHandler L SH}.
Context (T : Config) (HT : config_typed T).
Implicit Types (s : State) (h : SH) (l : L).

Lemma mutate_task_Ok k f (w w' : (State * SH) * L) u :
  mutate_task k f w = (Ok u, w') ↔
  ∃ t, Tasks w.1.1 !! k = Some t ∧ w' = (((w.1.1) <| Tasks ::= <[k := f t]> |>, w.1.2), w.2).
Proof.
  unfold mutate_task. rewrite bind_Ok. split.
  - intros (? & ? & [-> ->]%own_gets_Ok & Hr). apply bind_Ok in Hr as (t & ? & [Ht ->]%ok_or_Ok & ->%own_modify_Ok). eauto.
  - intros (t & Ht & ->). eexists _, _. split; [reflexivity|]. cbv beta. rewrite Ht. by destruct u.
Qed.

Lemma ensure_nvlink_Ok {S} nv e (w w' : S) u :
  ensure_nvlink nv e w = (Ok u, w') →
  w' = w ∧ if nv : bool then 120 ≤ e ≤ 150 else e = 100.
Proof. unfold ensure_nvlink. destruct nv; intros [? ->]%ensure_Ok; guard_inv; split; done || lia. Qed.

Ltac pool_run :=
  repeat first
    [ progress run_inv
    | match goal with
      | Hm : mutate_task _ _ _ = (Ok _, _) |- _ =>
          apply mutate_task_Ok in Hm; destruct Hm as (? & ? & ?); subst
      | Hm : ensure_nvlink _ _ _ = (Ok _, _) |- _ => apply ensure_nvlink_Ok in Hm; destruct Hm as [? ?]; subst
      end ].

Lemma register_effect o model mem nv e price s h l s' h' l' :
  0 ≤ price ≤ U128_MAX →
  register_pool T o model mem nv e price ((s, h), l) = (Ok tt, ((s', h'), l')) →
  ∃ p, Pools s' = <[NextPoolId s := p]> (Pools s) ∧ PoolByOwner s !! owner p = None ∧
    PoolByOwner s' = <[owner p := NextPoolId s]> (PoolByOwner s) ∧ NextPoolId s' = NextPoolId s + 1 ∧
    ActiveTaskCount s' = <[NextPoolId s := 0]> (ActiveTaskCount s) ∧
    Tasks s' = Tasks s ∧ PoolTasks s' = PoolTasks s ∧ ProofSubmittedAt s' = ProofSubmittedAt s ∧
    NextTaskId s' = NextTaskId s ∧ same_money s s' ∧ same_stakes s s' ∧
    deposit_held p = PoolDeposit T ∧ pool_ok T (NextPoolId s) p ∧
    reserve (owner p) (PoolDeposit T) l = Some l' ∧ h' = h.
Proof.
  intros Hprice Hrun. unfold register_pool in Hrun. pool_run. eexists. split; [reflexivity|]. cbn.
  split_and!; try done; [by apply eq_None_not_Some|].
  pose proof (cfg_deposits _ HT). pose proof (cfg_reputation _ HT).
  unfold pool_ok, pool_typed, U32_MAX; cbn. solve_facts.
Qed.

Lemma update_config_effect o pid model mem nv e price s h l s' h' l' :
  PoolsInv T s → 0 ≤ price ≤ U128_MAX →
  update_pool_config o pid model mem nv e price ((s, h), l) = (Ok tt, ((s', h'), l')) →
  ∃ p p', Pools s !! pid = Some p ∧ pool_becomes s s' pid p' ∧ same_tasks s s' ∧ same_money s s' ∧
    same_stakes s s' ∧ owner p' = owner p ∧ deposit_held p' = deposit_held p ∧ pool_ok T pid p' ∧
    h' = h ∧ l' = l.
Proof.
  intros I Hprice Hrun. unfold update_pool_config in Hrun. pool_run.
  match goal with Hp : Pools s !! pid = Some ?q |- _ => exists q; rename Hp into Hq; rename q into p0 end.
  eexists. split; [done|]. split; [by split_and!|]. cbn. split_and!; try done.
  destruct (pi_pool _ _ I _ _ Hq) as (_ & (? & (? & ? & _ & _) & ? & ? & _ & _ & ? & ? & ?) & _).
  unfold pool_ok, pool_typed; cbn. solve_facts.
Qed.

Lemma deregister_effect o pid s h l s' h' l' :
  deregister_pool o pid ((s, h), l) = (Ok tt, ((s', h'), l')) →
  ∃ p, Pools s !! pid = Some p ∧ o = Signed (owner p) ∧ active_task_count s pid = 0 ∧
    Pools s' = delete pid (Pools s) ∧ PoolByOwner s' = delete (owner p) (PoolByOwner s) ∧
    NextPoolId s' = NextPoolId s ∧ Tasks s' = Tasks s ∧ PoolTasks s' = delete pid (PoolTasks s) ∧
    ActiveTaskCount s' = delete pid (ActiveTaskCount s) ∧ ProofSubmittedAt s' = ProofSubmittedAt s ∧
    NextTaskId s' = NextTaskId s ∧ same_money s s' ∧ same_stakes s s' ∧ h' = h ∧
    l' = (unreserve (owner p) (deposit_held p) l).1.
Proof. intros Hrun. unfold deregister_pool in Hrun. pool_run. eexists. split_and!; done. Qed.

Lemma choose_pool_effect task pref pid sc s h l w :
  PoolsInv T s → choose_pool T task pref ((s, h), l) = (Ok (pid, sc), w) →
  w = ((set_score pid sc s, h), l) ∧ ∃ p, Pools s !! pid = Some p ∧ 0 ≤ final_score sc ≤ 10000.
Proof.
  intros I Hrun. assert (∀ q r, Pools s !! q = Some r → pool_typed r) as Hty.
  { intros q r Hq. by destruct (pi_pool _ _ I _ _ Hq) as (_ & (_ & ? & _) & _). }
  destruct pref as [q|]; cbn [choose_pool] in Hrun.
  - pool_run. split; [done|]. eexists. split; [eassumption|].
    match goal with Hp : Pools s !! _ = Some ?r |- _ =>
      pose proof (Hty _ _ Hp) as Hr; apply (score_bounds r (saturated_into U128_MAX (price_per_task r))
        (saturated_into U128_MAX (price_per_task r)) Hr) end;
    destruct Hr as (_ & _ & ? & _); unfold saturated_into; lia.
  - pose proof (select_best_run T HT s task h l Hty) as Hs. rewrite Hrun in Hs.
    destruct Hs as (-> & p & lo & hi & Hc & [Hp _] & -> & Hmax & (q & r & Hq & <-) & _).
    split; [done|]. exists p. split; [done|]. destruct (Hmax pid p Hc) as [? _].
    destruct (candidates_eligible T HT _ _ _ _ Hq) as [Hr _]. destruct (Hty q r Hr) as (_ & _ & ? & _).
    apply score_bounds; [by apply (Hty pid)|lia|lia].
Qed.

Lemma submit_task_effect now o dims prio pref s h l s' h' l' :
  PoolsInv T s → submit_task T now o dims prio pref ((s, h), l) = (Ok tt, ((s', h'), l')) →
  ∃ u pid p sc reward t e, o = Signed u ∧ Pools s !! pid = Some p ∧
    pool_becomes s s' pid (p <| score := sc |>) ∧ 0 ≤ final_score sc ≤ 10000 ∧
    calculate_reward dims (price_per_task p) (has_nvlink p) (nvlink_efficiency p) = Some reward ∧
    Tasks s' = <[NextTaskId s := t]> (Tasks s) ∧
    t = {| task_id := NextTaskId s; user := u; task_pool := pid; dimensions := dims;
           priority := prio; status := Computing; submitted_at := now; proof_hash := None;
           verification_result := None; reward_amount := Some reward; disputed := false |} ∧
    Z.of_nat (length (pool_tasks s pid)) < MaxTasksPerPool T ∧
    PoolTasks s' = <[pid := pool_tasks s pid ++ [NextTaskId s]]> (PoolTasks s) ∧
    ActiveTaskCount s' = <[pid := saturating_add U32_MAX (active_task_count s pid) 1]> (ActiveTaskCount s) ∧
    ProofSubmittedAt s' = ProofSubmittedAt s ∧ NextTaskId s' = NextTaskId s + 1 ∧
    Rewards s' = Rewards s ∧ TaskEscrowStore s' = <[NextTaskId s := e]> (TaskEscrowStore s) ∧
    e = {| esc_user := u; esc_pool_owner := owner p; esc_reward := reward;
           esc_deposit := TaskDeposit T; claimed := false |} ∧ same_stakes s s' ∧ h' = h ∧
    reserve u (saturating_add U128_MAX reward (TaskDeposit T)) l = Some l'.
Proof.
  intros I Hrun. unfold submit_task in Hrun. cbv zeta in Hrun. pool_run.
  match goal with Hc : choose_pool _ _ _ ((?s1, _), _) = (Ok ?x, _) |- _ =>
    destruct x as [pid sc]; destruct (choose_pool_effect _ _ _ _ s1 _ _ _
      (PoolsInv_same T s s1 I eq_refl eq_refl eq_refl) Hc) as (-> & p & Hp & Hsc); clear Hc end.
  cbn in Hp. pool_run. rewrite lookup_insert_eq in *. rewrite lookup_alter_eq in *.
  rewrite Hp in *. simplify_eq/=.
  match goal with Hr : calculate_reward _ _ _ _ = Some ?r |- _ => exists x, pid, p, sc, r end.
  eexists _, _. split_and!; try done; [|apply Hsc|apply Hsc|].
  - unfold pool_becomes; cbn. by rewrite (alter_Some _ _ _ _ Hp).
  - cbn. by rewrite !insert_insert_eq.
Qed.

Lemma submit_proof_effect now o k hash s h l s' h' l' :
  submit_proof T now o k hash ((s, h), l) = (Ok tt, ((s', h'), l')) →
  ∃ t p, Tasks s !! k = Some t ∧ status t = Computing ∧ Pools s !! task_pool t = Some p ∧
    o = Signed (owner p) ∧ now ≤ saturating_add U32_MAX (submitted_at t) (TaskTimeout T) ∧
    Tasks s' = <[k := t <| proof_hash := Some hash |> <| status := ProofSubmitted |>]> (Tasks s) ∧
    ProofSubmittedAt s' = <[k := now]> (ProofSubmittedAt s) ∧ PoolTasks s' = PoolTasks s ∧
    ActiveTaskCount s' = ActiveTaskCount s ∧ NextTaskId s' = NextTaskId s ∧ same_pools s s' ∧
    same_money s s' ∧ same_stakes s s' ∧ h' = h ∧ l' = l.
Proof. intros Hrun. unfold submit_proof in Hrun. pool_run. eexists _, _. split_and!; done. Qed.

Lemma verify_proof_effect now o k r s h l w :
  verify_proof T now o k r ((s, h), l) = (Ok tt, w) →
  ∃ u t p hash, o = Signed u ∧ Tasks s !! k = Some t ∧ status t = ProofSubmitted ∧
    proof_hash t = Some hash ∧ Pools s !! task_pool t = Some p ∧ u ≠ owner p ∧
    finalize_verification T now k (task_pool t) r ((s, h), l) = (Ok tt, w).
Proof.
  intros Hrun. unfold verify_proof in Hrun. pool_run.
  match goal with Hs : is_Some (proof_hash _) |- _ => destruct Hs as [hash Hhash] end.
  eexists _, _, _, hash. split_and!; done.
Qed.

Lemma claim_reward_effect o k s h l s' h' l' :
  claim_reward o k ((s, h), l) = (Ok tt, ((s', h'), l')) →
  ∃ t p r e l1, Tasks s !! k = Some t ∧ status t = Completed ∧ Pools s !! task_pool t = Some p ∧
    o = Signed (owner p) ∧ Rewards s !! k = Some r ∧ TaskEscrowStore s !! k = Some e ∧
    claimed e = false ∧ repatriate_reserved (esc_user e) (owner p) r l = Some (l1, 0) ∧
    l' = (unreserve (esc_user e) (esc_deposit e) l1).1 ∧ h' = h ∧
    TaskEscrowStore s' = <[k := e <| claimed := true |>]> (TaskEscrowStore s) ∧
    Rewards s' = delete k (Rewards s) ∧ same_pools s s' ∧ same_tasks s s' ∧ same_stakes s s'.
Proof. intros Hrun. unfold claim_reward in Hrun. pool_run. eexists _, _, _, _, _. split_and!; done. Qed.

Lemma stake_effect o pid v s h l s' h' l' :
  stake_to_pool o pid v ((s, h), l) = (Ok tt, ((s', h'), l')) →
  ∃ who, o = Signed who ∧ is_Some (Pools s !! pid) ∧ reserve who v l = Some l' ∧ h' = h ∧
    PoolStakes s' = <[(pid, who) := saturating_add U128_MAX (pool_stake s pid who) v]> (PoolStakes s) ∧
    TotalPoolStake s' = <[pid := saturating_add U128_MAX (total_pool_stake s pid) v]> (TotalPoolStake s) ∧
    same_pools s s' ∧ same_tasks s s' ∧ same_money s s'.
Proof. intros Hrun. unfold stake_to_pool in Hrun. pool_run. eexists. split_and!; done. Qed.

Lemma unstake_effect o pid v s h l s' h' l' :
  unstake_from_pool o pid v ((s, h), l) = (Ok tt, ((s', h'), l')) →
  ∃ who, o = Signed who ∧ v ≤ pool_stake s pid who ∧ l' = (unreserve who v l).1 ∧ h' = h ∧
    PoolStakes s' = <[(pid, who) := saturating_sub (pool_stake s pid who) v]> (PoolStakes s) ∧
    TotalPoolStake s' = <[pid := saturating_sub (total_pool_stake s pid) v]> (TotalPoolStake s) ∧
    same_pools s s' ∧ same_tasks s s' ∧ same_money s s'.
Proof. intros Hrun. unfold unstake_from_pool in Hrun. pool_run. eexists. split_and!; done. Qed.

Lemma slash_pool_none pid s h l :
  Pools s !! pid = None → slash_pool T pid ((s, h), l) = (Err (Module PoolNotFound), ((s, h), l)).
Proof. intros Hp. unfold slash_pool. erewrite bind_run by reflexivity. cbn. by rewrite Hp. Qed.

(** Task [k] alone changes, its pool becomes [p'] (if it still exists). *)
Definition retried s s' (k : Z) (t' : ComputeTask) (p' : option ComputePool) : Prop :=
  Tasks s' = <[k := t']> (Tasks s) ∧ PoolTasks s' = PoolTasks s ∧
  ActiveTaskCount s' = ActiveTaskCount s ∧ ProofSubmittedAt s' = ProofSubmittedAt s ∧
  NextTaskId s' = NextTaskId s ∧ same_stakes s s' ∧
  match p' with
  | Some q => pool_becomes s s' (task_pool t') q
  | None => same_pools s s'
  end.

Lemma retried_rep s k t' r :
  let s1 := update_reputation (task_pool t') r (s <| Tasks ::= <[k := t']> |>) in
  retried s s1 k t' (rate_pool r <$> Pools s !! task_pool t') ∧ same_money s s1.
Proof.
  cbv zeta. unfold update_reputation, retried. cbn. destruct (Pools s !! task_pool t'); cbn; by split_and!.
Qed.

Definition flipped (r : bool) (t : ComputeTask) : ComputeTask :=
  verdict r t <| disputed := true |>.

Lemma update_reputation_frame pid r s :
  let s' := update_reputation pid r s in
  Tasks s' = Tasks s ∧ PoolTasks s' = PoolTasks s ∧ ActiveTaskCount s' = ActiveTaskCount s ∧
  ProofSubmittedAt s' = ProofSubmittedAt s ∧ Rewards s' = Rewards s ∧
  TaskEscrowStore s' = TaskEscrowStore s ∧ NextTaskId s' = NextTaskId s ∧ same_stakes s s' ∧
  match Pools s !! pid with
  | Some p => pool_becomes s s' pid (rate_pool r p)
  | None => same_pools s s'
  end.
Proof. cbv zeta. unfold update_reputation. destruct (Pools s !! pid); by split_and!. Qed.

(** After the reputation update: release the escrow and slash the pool. *)
Lemma retried_release_slash k t' s s1 h l w :
  retried s s1 k t' (rate_pool false <$> Pools s !! task_pool t') → same_money s s1 →
  (∀ p, Pools s !! task_pool t' = Some p → 0 ≤ deposit_held p) → 
  (release_escrow k;; slash_pool T (task_pool t')) ((s1, h), l) = (Ok tt, w) →
  ∃ p d s' l', Pools s !! task_pool t' = Some p ∧ w = ((s', h), l') ∧
    retried s s' k t' (Some (rate_pool false p <| deposit_held := d |>)) ∧
    Rewards s' = delete k (Rewards s) ∧ TaskEscrowStore s' = delete k (TaskEscrowStore s) ∧
    0 ≤ d ≤ deposit_held p ∧
    moves (released s k l) l' (λ _, 0) (at_account (owner p) (- (deposit_held p - d))).
Proof.
  intros (HT1 & HT2 & HT3 & HT4 & HN & HS & HP) [HR HE] Hd Hrun.
  rewrite (bind_run _ _ _ _ _ (release_escrow_run k s1 h l)) in Hrun.
  assert (released s1 k l = released s k l) as Hrel by (unfold released; by rewrite HE). rewrite Hrel in Hrun.
  set (s2 := s1 <| Rewards ::= delete k |> <| TaskEscrowStore ::= delete k |>) in Hrun.
  assert (Pools s2 = Pools s1) as Hp2 by done.
  destruct (Pools s !! task_pool t') as [p|] eqn:Hp; cbn in HP; destruct HP as (HP & HO & HNp); cycle 1.
  { rewrite slash_pool_none in Hrun; [done|]. by rewrite Hp2, HP. }
  destruct (slash_pool_run T (task_pool t') (rate_pool false p) s2 h (released s k l)) as (d & es & l' & Hsl & Hb & Hm).
  { rewrite Hp2, HP. apply lookup_insert_eq. } { exact (Hd p eq_refl). } { by destruct (cfg_deposits _ HT) as (_ & _ & ?). }
  rewrite Hsl in Hrun. injection Hrun as <-. exists p, d. eexists _, l'. split; [done|]. split; [reflexivity|].
  split; [|cbn; by rewrite HR, HE].
  unfold retried, pool_becomes. cbn. rewrite HT1, HT2, HT3, HT4, HN, HO, HNp, HP, insert_insert_eq. by split_and!.
Qed.

Lemma dispute_effect o k s h l w :
  PoolsInv T s → dispute_verification T o k ((s, h), l) = (Ok tt, w) →
  ∃ t r s' l', Tasks s !! k = Some t ∧ o = Signed (user t) ∧ is_terminal (status t) = true ∧
    disputed t = false ∧ verification_result t = Some r ∧ w = ((s', h), l') ∧
    if r : bool then
      ∃ p d, Pools s !! task_pool t = Some p ∧
        retried s s' k (flipped false t) (Some (rate_pool false p <| deposit_held := d |>)) ∧
        Rewards s' = delete k (Rewards s) ∧ TaskEscrowStore s' = delete k (TaskEscrowStore s) ∧
        0 ≤ d ≤ deposit_held p ∧
        moves (released s k l) l' (λ _, 0) (at_account (owner p) (- (deposit_held p - d)))
    else
      retried s s' k (flipped true t) (rate_pool true <$> Pools s !! task_pool t) ∧
      Rewards s' = from_option (λ v, <[k := v]>) id (reward_amount t) (Rewards s) ∧
      TaskEscrowStore s' = TaskEscrowStore s ∧ l' = l.
Proof.
  intros I Hrun. unfold dispute_verification in Hrun.
  do 6 (apply bind_Ok in Hrun as (? & ? & ? & Hrun)). revert Hrun. pool_run. intros Hrun.
  match goal with Ht : Tasks s !! k = Some ?u |- _ => exists u; rename u into t; rename Ht into Hk end.
  apply bind_Ok in Hrun as ([] & [[s3 h3] l3] & Hmid & Hend%own_modify_Ok). subst w. cbn [fst snd].
  destruct (verification_result t) as [[]|] eqn:Hv; [| |by apply fail_Ok in Hmid];
    rewrite (bind_run _ _ _ _ _ (mutate_task_run _ _ _ _ _ _ Hk)) in Hmid.
  - erewrite bind_run in Hmid by reflexivity. cbn [fst snd] in Hmid.
    destruct (retried_rep s k (flipped false t) false) as [Hret Hsm].
    apply bind_Ok in Hmid as ([] & w1 & Hrel & Hmid).
    apply bind_Ok in Hmid as ([] & w2 & Hsl & Hev%own_modify_Ok).
    destruct (retried_release_slash k (flipped false t) s _ h l w2 Hret Hsm) as (p & d & s2 & l2 & Hp & -> & Hret2 & HR & HE & Hb & Hm).
    { intros p Hp. destruct (pi_pool _ _ I _ _ Hp) as (_ & (_ & _ & _ & ? & _) & _). lia. }
    { rewrite bind_Ok. exists tt, w1. by split. }
    cbn [fst snd] in Hev. injection Hev as -> -> ->. eexists true, _, _. split_and!; try done.
    exists p, d. split_and!; try done; apply Hb.
  - apply bind_Ok in Hmid as ([] & w1 & Hrew & Hmid).
    assert (∃ s1, w1 = ((s1, h), l) ∧ retried s s1 k (flipped true t) None ∧
        Rewards s1 = from_option (λ v, <[k := v]>) id (reward_amount t) (Rewards s) ∧
        TaskEscrowStore s1 = TaskEscrowStore s) as (s1 & -> & Hret & HR & HE).
    { match type of Hrew with context [((s <| Tasks ::= <[k := ?x]> |>, _), _)] => change x with (flipped true t) in Hrew end.
      destruct (reward_amount t).
      - apply bind_Ok in Hrew as ([] & w2 & ->%own_modify_Ok & ->%own_modify_Ok). eexists. split; [reflexivity|].
        by split_and!.
      - apply mret_Ok in Hrew as [_ ->]. eexists. split; [reflexivity|]. by split_and!. }
    apply bind_Ok in Hmid as ([] & w2 & ->%own_modify_Ok & Hev%own_modify_Ok). cbn [fst snd] in Hev.
    injection Hev as -> -> ->. destruct Hret as (HT1 & HT2 & HT3 & HT4 & HN & HS & HP & HO & HNp).
    destruct (update_reputation_frame (task_pool t) true s1) as (Hf1 & Hf2 & Hf3 & Hf4 & Hf5 & Hf6 & Hf7 & Hf8 & Hf9).
    eexists false, _, l. split_and!; try done; cbn; [|by rewrite Hf5|by rewrite Hf6].
    unfold retried; cbn. rewrite Hf1, Hf2, Hf3, Hf4, Hf7. destruct Hf8 as [Hf8 Hf8'], HS as [HS HS'].
    unfold same_stakes; cbn. rewrite Hf8, Hf8', HS, HS'. split_and!; try done.
    rewrite HP in Hf9. unfold pool_becomes, same_pools. cbn.
    destruct (Pools s !! task_pool t); cbn; destruct Hf9 as (-> & -> & ->); by rewrite ?HP.
Qed.

Lemma best_rated_elem pools pid p : (best_rated pools).1 = Some (pid, p) → (pid, p) ∈ pools.
Proof.
  unfold best_rated. induction pools as [|[q r] pools IH] using rev_ind; [done|].
  rewrite foldl_app; cbn [foldl]. destruct (foldl _ _ pools) as [best sc]; cbn in *.
  rewrite elem_of_app, list_elem_of_singleton.
  destruct (negb _); [auto|]. destruct (_ <? _); [|auto]. intros [= -> ->]. auto.
Qed.

(** Whatever [schedule_compute] returns, it added at most one task, which may
    have missed its queue. *)
Lemma schedule_effect now u dims s h l :
  ∃ s', (schedule_compute T now u dims ((s, h), l)).2 = ((s', h), l) ∧
    (s' = s ∨ ∃ p (queue : bool) t, Pools s !! task_pool t = Some p ∧
      Tasks s' = <[NextTaskId s := t]> (Tasks s) ∧ task_id t = NextTaskId s ∧ submitted_at t = now ∧
      reward_amount t = Some (price_per_task p) ∧ proof_hash t = None ∧
      verification_result t = None ∧ disputed t = false ∧
      status t = (if queue then Computing else Pending) ∧
      PoolTasks s' = (if queue
        then <[task_pool t := pool_tasks s (task_pool t) ++ [NextTaskId s]]> (PoolTasks s)
        else PoolTasks s) ∧
      (queue = true → Z.of_nat (length (pool_tasks s (task_pool t))) < MaxTasksPerPool T) ∧
      ActiveTaskCount s' =
        <[task_pool t := saturating_add U32_MAX (active_task_count s (task_pool t)) 1]> (ActiveTaskCount s) ∧
      ProofSubmittedAt s' = ProofSubmittedAt s ∧ NextTaskId s' = NextTaskId s + 1 ∧
      same_pools s s' ∧ same_money s s' ∧ same_stakes s s').
Proof.
  unfold schedule_compute. erewrite bind_run by reflexivity. cbn [fst snd].
  destruct (best_rated _).1 as [[pid p]|] eqn:Hb; [|eexists; split; [reflexivity|by left]].
  apply best_rated_elem, subseteq_take in Hb. rewrite (pools_iter_elem T HT s pid p) in Hb.
  erewrite bind_run by reflexivity. cbn beta iota. erewrite bind_run by reflexivity. unfold checked_add.
  destruct (_ <=? _); [|eexists; split; [reflexivity|by left]].
  do 5 (erewrite bind_run by reflexivity). cbn [fst snd].
  destruct (Z.ltb_spec (Z.of_nat (length (pool_tasks s pid))) (MaxTasksPerPool T)) as [Hroom|Hroom]; cycle 1.
  - eexists. split.
    { change (pool_tasks _ pid) with (pool_tasks s pid). unfold ensure, mbind, M_bind.
      rewrite (proj2 (Z.ltb_ge _ _) Hroom). reflexivity. }
    right. eexists p, false, _. split; [|split; [reflexivity|]]; [exact Hb|]. by split_and!.
  - eexists. split.
    { change (pool_tasks _ pid) with (pool_tasks s pid). unfold ensure, mbind, M_bind.
      rewrite (proj2 (Z.ltb_lt _ _) Hroom). cbn. rewrite lookup_insert_eq. reflexivity. }
    right. eexists p, true, _. split; [|split; [cbn; apply insert_insert_eq|]]; [exact Hb|]. by split_and!.
Qed.
End effects.
End PoolInvariant.
