(* ===== verification/PoolSteps.v ===== *)
(** * pallet-compute-pool-scheduler: steps, the hook and the invariant of reachable states

    The pallet as a transition system; every step keeps the storage invariant;
    the block hook is shown to act on every task of the storage exactly as a
    pure function of the task prescribes, although it walks the pools' queues in
    an arbitrary order and drops errors. *)
From stdpp Require Import base gmap fin_maps list numbers relations.
From Stdlib Require Import ZArith Lia.
From S2P Require Import Prelude Currency Interfaces ComputePool PoolScoring PoolInvariant.
Import Scheduler PoolScoring PoolInvariant.

Module PoolSteps.

(** No u128 sum of the native currency overflows: an account does not own
    2^128 - 1 units, and the stakes on a pool stay below that. *)
Definition fits `{ReservableCurrency L} (s : State) (l : L) (c : Call) : Prop :=
  match c with
  | SubmitTask _ _ _ => ∀ a, free_balance l a < U128_MAX
  | StakeToPool pid v => total_pool_stake s pid + v ≤ U128_MAX
  | _ => True
  end.

(** What the hook at block [now] decides about a task of the storage [s]. *)
Definition hook_verdict (T : Config) (now : BlockNumber) (s : State) (k : Z) (t : ComputeTask) :
    option bool :=
  let overdue := saturating_add U32_MAX (submitted_at t) (TaskTimeout T) <? now in
  match status t, ProofSubmittedAt s !! k with
  | ProofSubmitted, Some b =>
      if saturating_add U32_MAX b (VerificationTimeout T) <? now then Some true
      else if overdue then Some false else None
  | ProofSubmitted, None | Computing, _ => if overdue then Some false else None
  | _, _ => None
  end.

Definition decided (r : option bool) (t : ComputeTask) : ComputeTask :=
  from_option (λ r, verdict r t) t r.

Section theory.
Context `{ReservableCurrencyLaws L} {SH : Type} `{!TaskCompletionHandler L SH}.
Context (T : Config) (HT : config_typed T).
Implicit Types (s : State) (h : SH) (l : L).

Lemma Inv_pool_becomes now s s' pid p p' :
  Inv T now s → Pools s !! pid = Some p → pool_becomes s s' pid p' → owner p' = owner p →
  pool_ok T pid p' → PoolsInv T s' ∧ keeps_pools s s'.
Proof.
  intros I Hp (HP & HO & HN) Hown Hok. split; [|by eapply keeps_insert].
  eapply PoolsInv_update; [exact (inv_pools _ _ _ I)|done..].
Qed.

Lemma Inv_register now o m mem nv e pr s h l s' h' l' :
  Inv T now s → 0 ≤ pr ≤ U128_MAX →
  register_pool T o m mem nv e pr ((s, h), l) = (Ok tt, ((s', h'), l')) → Inv T now s'.
Proof.
  intros [IP IT IE IS] Hpr Hrun.
  destruct (register_effect T HT _ _ _ _ _ _ _ _ _ _ _ _ Hpr Hrun)
    as (p & HP & Hno & HO & HN & HA & HT1 & HT2 & HT3 & HT4 & HM & [HS1 HS2] & _ & Hok & _).
  split; [by eapply PoolsInv_add| |by eapply EscrowInv_same|by eapply StakesInv_same].
  assert (pool_tasks s (NextPoolId s) = []) as Hnil.
  { destruct (pool_tasks s (NextPoolId s)) as [|k q] eqn:E; [done|].
    destruct (ti_queue _ _ _ IT (NextPoolId s) k) as [[r Hr] _]; [rewrite E; constructor|].
    destruct (pi_pool _ _ IP _ _ Hr). lia. }
  assert (∀ q, pool_tasks s' q = pool_tasks s q) as Hq by (intros; unfold pool_tasks; by rewrite HT2).
  pose proof (λ q, active_count_insert s s' _ _ q HA) as Ha.
  destruct IT as [I1 I2 I3 I4 I5 I6 I7]. split; rewrite ?HT1, ?HT3, ?HT4; try done.
  - intros k t Hk. destruct (I2 k t Hk) as (? & ? & ? & ? & Htok). unfold task_ok in *. by rewrite Hq.
  - intros q k. rewrite Hq. intros Hk. destruct (I3 q k Hk). split; [|done]. by apply (keeps_insert s s' _ _ HP).
  - intros q. by rewrite Hq.
  - intros q. rewrite Hq, Ha. case_decide as E; [|done]. rewrite E, Hnil. cbn. pose proof (cfg_max _ HT). lia.
Qed.

Lemma Inv_update_config now o pid m mem nv e pr s h l s' h' l' :
  Inv T now s → 0 ≤ pr ≤ U128_MAX →
  update_pool_config o pid m mem nv e pr ((s, h), l) = (Ok tt, ((s', h'), l')) → Inv T now s'.
Proof.
  intros I Hpr Hrun.
  destruct (update_config_effect T _ _ _ _ _ _ _ _ _ _ _ _ _ (inv_pools _ _ _ I) Hpr Hrun)
    as (p & p' & Hp & HB & HTs & HM & [HS1 HS2] & Hown & _ & Hok & _).
  destruct (Inv_pool_becomes now s s' pid p p' I Hp HB Hown Hok) as [HP HK]. destruct I as [IP IT IE IS].
  split; [done|by eapply TasksInv_same|by destruct HTs; eapply EscrowInv_same|by eapply StakesInv_same].
Qed.

Lemma Inv_deregister now o pid s h l s' h' l' :
  Inv T now s → deregister_pool o pid ((s, h), l) = (Ok tt, ((s', h'), l')) → Inv T now s'.
Proof.
  intros [IP IT IE IS] Hrun. destruct (deregister_effect _ _ _ _ _ _ _ _ Hrun)
    as (p & Hp & _ & H0' & HP & HO & HN & HT1 & HT2 & HT3 & HT4 & HT5 & HM & [HS1 HS2] & _).
  split; [by eapply PoolsInv_remove|by eapply TasksInv_remove|by eapply EscrowInv_same|by eapply StakesInv_same].
Qed.

Lemma reward_nonneg d p r :
  dims_typed d → pool_typed p →
  calculate_reward d (price_per_task p) (has_nvlink p) (nvlink_efficiency p) = Some r → 0 ≤ r.
Proof.
  intros Hd (_ & _ & Hpr & Hnv) Hr.
  apply calculate_reward_Some in Hr as [_ Hr]; [|done|done|destruct (has_nvlink p); lia].
  pose proof (base_reward_ge d (price_per_task p) ltac:(lia)).
  destruct (has_nvlink p); [destruct Hr as [_ ->]; apply Z.div_pos; nia|lia].
Qed.

(** A granted reserve of a saturated sum was the exact sum. *)
Lemma reserve_total u r d l l' :
  (∀ a, free_balance l a < U128_MAX) → 0 ≤ r → 0 ≤ d →
  reserve u (saturating_add U128_MAX r d) l = Some l' → r + d ≤ U128_MAX.
Proof.
  intros Hf Hr Hd Hres. 
  assert (0 ≤ saturating_add U128_MAX r d) as Ht by (unfold saturating_add, U128_MAX; lia).
  destruct (reserve_spec _ _ _ _ Ht Hres) as [Hle _].
  specialize (Hf u). unfold saturating_add in Hle. lia.
Qed.

Lemma Inv_submit_task now o d pr pref s h l s' h' l' :
  Inv T now s → dims_typed d → (∀ a, free_balance l a < U128_MAX) →
  submit_task T now o d pr pref ((s, h), l) = (Ok tt, ((s', h'), l')) → Inv T now s'.
Proof.
  intros I Hd Hf Hrun.
  destruct (submit_task_effect T HT _ _ _ _ _ _ _ _ _ _ _ (inv_pools _ _ _ I) Hrun)
    as (u & pid & p & sc & r & t & e & _ & Hp & HB & Hsc & Hrew & HT1 & Ht & Hroom & HT2 & HT3 & HT4 & HT5 & HR & HE & He & [HS1 HS2] & _ & Hres).
  destruct (pi_pool _ _ (inv_pools _ _ _ I) _ _ Hp) as (_ & Hpok & _).
  assert (0 ≤ r) as Hr by (eapply reward_nonneg; [exact Hd| |exact Hrew]; by destruct Hpok as (_ & ? & _)).
  destruct (Inv_pool_becomes now s s' pid p _ I Hp HB) as [HP HK]; [done|by destruct Hpok as (? & ? & ? & ? & ? & ? & ? & ? & _)|].
  destruct I as [IP IT IE IS]. split; [done| | |by eapply StakesInv_same].
  - eapply (TasksInv_add T HT now s s' t true); subst t; try done.
    + intros ? [= <-]. done.
    + apply HK. by eexists.
  - eapply (EscrowInv_add s s' _ t (Some e)); [done|by eapply Tasks_fresh|done|done|done|]. subst t e. cbn.
    pose proof (cfg_deposits _ HT) as (_ & ? & _). split_and!; try done. by eapply reserve_total.
Qed.

Lemma Inv_submit_proof now o k hash s h l s' h' l' :
  Inv T now s → submit_proof T now o k hash ((s, h), l) = (Ok tt, ((s', h'), l')) → Inv T now s'.
Proof.
  intros [IP IT IE IS] Hrun. destruct (submit_proof_effect T _ _ _ _ _ _ _ _ _ _ Hrun)
    as (t & p & Hk & Hst & Hp & _ & _ & HT1 & HT4 & HT2 & HT3 & HT5 & (HP & HO & HN) & HM & [HS1 HS2] & _).
  destruct (ti_task _ _ _ IT k t Hk) as (_ & _ & Hsub & _ & Hok). unfold task_ok in Hok. rewrite Hst in Hok.
  split; [by eapply PoolsInv_same| | |by eapply StakesInv_same].
  - eapply (TasksInv_replace T now s s' k t); try done; try by apply keeps_same.
    + unfold task_ok; cbn. naive_solver.
    + unfold queued; cbn. rewrite Hst. naive_solver.
    + intros b. rewrite HT4, lookup_insert_eq. intros [= <-]. lia.
    + rewrite HT4, lookup_insert_eq. by split.
    + intros k' Hne. by rewrite HT4, lookup_insert_ne.
  - eapply EscrowInv_live; try done. by rewrite Hst.
Qed.

(** A queued task closed with verdict [r], in whatever way. *)
Lemma Inv_close now s s' k t r p d :
  Inv T now s → Tasks s !! k = Some t → queued t → Pools s !! task_pool t = Some p →
  closes s s' k t (verdict r t) (rate_pool r p <| deposit_held := d |>) → 0 ≤ d ≤ deposit_held p →
  (if r : bool then
     Rewards s' = from_option (λ v, <[k := v]>) id (reward_amount t) (Rewards s) ∧
     TaskEscrowStore s' = TaskEscrowStore s
   else Rewards s' = delete k (Rewards s) ∧ TaskEscrowStore s' = delete k (TaskEscrowStore s)) →
  Inv T now s'.
Proof.
  intros I Hk Hq Hp Hcl Hd Hm. pose proof (pi_pool _ _ (inv_pools _ _ _ I) _ _ Hp) as (_ & Hpok & _).
  pose proof Hcl as [HT1 _ _ _ HP HO [HN1 HN2] [HS1 HS2]]. destruct I as [IP IT IE IS].
  split; [|by eapply TasksInv_close| |by eapply StakesInv_same].
  - eapply PoolsInv_update; [exact IP|exact Hp|exact HP|done|by apply pool_ok_rate|done|done].
  - destruct r, Hm as [HR HE].
    + eapply EscrowInv_complete; try done. by destruct Hq as [->| ->].
    + by eapply EscrowInv_drop.
Qed.

Lemma Inv_verify_proof now o k r s h l s' h' l' :
  Inv T now s → verify_proof T now o k r ((s, h), l) = (Ok tt, ((s', h'), l')) → Inv T now s'.
Proof.
  intros I Hrun. destruct (verify_proof_effect T _ _ _ _ _ _ _ _ Hrun)
    as (u & t & p & hash & _ & Hk & Hst & Hh & Hp & _ & Hfin).
  destruct (pi_pool _ _ (inv_pools _ _ _ I) _ _ Hp) as (_ & (_ & _ & _ & Hdep & _) & _).
  destruct (finalize_run T now k t hash p r s h l Hk Hh Hp ltac:(lia) ltac:(apply (cfg_deposits _ HT)))
    as (d & s1 & h1 & l1 & Hrun' & Hcl & Hm). rewrite Hrun' in Hfin. injection Hfin as <- <- <-.
  eapply Inv_close; [exact I|exact Hk|by right|exact Hp|exact Hcl|..]; destruct r; naive_solver lia.
Qed.

Lemma Inv_claim now o k s h l s' h' l' :
  Inv T now s → claim_reward o k ((s, h), l) = (Ok tt, ((s', h'), l')) → Inv T now s'.
Proof.
  intros [IP IT IE IS] Hrun. destruct (claim_reward_effect _ _ _ _ _ _ _ _ Hrun)
    as (t & p & r & e & l1 & Hk & Hst & Hp & _ & Hr & He & _ & _ & _ & _ & HE & HR & (HP & HO & HN) & HTs & [HS1 HS2]).
  split; [by eapply PoolsInv_same| | |by eapply StakesInv_same].
  - eapply TasksInv_same; [done|done|by apply keeps_same].
  - destruct HTs. by eapply EscrowInv_claim.
Qed.

(** A disputed task flips its verdict outside the queues. *)
Lemma TasksInv_flip now s s' k t r p' :
  TasksInv T now s → Tasks s !! k = Some t → is_terminal (status t) = true →
  retried s s' k (flipped r t) p' → TasksInv T now s'.
Proof.
  intros IT Hk Hterm (HT1 & HT2 & HT3 & HT4 & HN & _ & HP).
  assert (¬ queued t) as Hnq by (intros [E|E]; by rewrite E in Hterm).
  assert (¬ is_Some (ProofSubmittedAt s !! k)) as Hnp.
  { rewrite (ti_proof _ _ _ IT). intros (u & Hu & E). simplify_eq. by rewrite E in Hterm. }
  eapply (TasksInv_replace T now s s' k t); try done.
  - unfold task_ok; cbn. by destruct r.
  - unfold queued at 2; cbn. destruct r; naive_solver.
  - destruct p'; [by eapply keeps_insert, HP|by apply keeps_same, HP].
  - intros b Hb. rewrite HT4 in Hb. destruct Hnp. by eexists.
  - rewrite HT4. cbn. destruct r; naive_solver.
  - intros k' _. by rewrite HT4.
Qed.

Lemma Inv_dispute now o k s h l s' h' l' :
  Inv T now s → dispute_verification T o k ((s, h), l) = (Ok tt, ((s', h'), l')) → Inv T now s'.
Proof.
  intros I Hrun. destruct (dispute_effect T HT _ _ _ _ _ _ (inv_pools _ _ _ I) Hrun)
    as (t & r & s1 & l1 & Hk & _ & Hterm & Hdis & Hv & [= <- <- <-] & Hr).
  pose proof (ti_task _ _ _ (inv_tasks _ _ _ I) k t Hk) as (_ & _ & _ & _ & Hok).
  destruct r.
  - destruct Hr as (p & d & Hp & Hret & HR & HE & Hd & _).
    pose proof (pi_pool _ _ (inv_pools _ _ _ I) _ _ Hp) as (_ & Hpok & _).
    pose proof Hret as (HT1 & _ & _ & _ & _ & [HS1 HS2] & HB).
    destruct (Inv_pool_becomes now s s' (task_pool t) p _ I Hp HB) as [HP _]; [done|by apply pool_ok_rate|].
    destruct I as [IP IT IE IS]. split; [done|by eapply TasksInv_flip|by eapply EscrowInv_drop|by eapply StakesInv_same].
  - destruct Hr as (Hret & HR & HE & _). pose proof Hret as (HT1 & _ & _ & _ & _ & [HS1 HS2] & HB).
    assert (status t = Failed) as Hst.
    { unfold task_ok in Hok. destruct (status t); try done. congruence. }
    destruct I as [IP IT IE IS] eqn:EI. split.
    + destruct (Pools s !! task_pool t) as [p|] eqn:Hp; cbn in HB.
      * destruct (pi_pool _ _ IP _ _ Hp) as (_ & Hpok & _).
        destruct (Inv_pool_becomes now s s' (task_pool t) p _ I Hp HB) as [HP _]; [done| |done].
        pose proof (pool_ok_rate T _ p true (deposit_held p) Hpok) as Hx.
        destruct Hpok as (_ & _ & _ & ? & _). apply Hx. lia.
      * destruct HB as (? & ? & ?). by eapply PoolsInv_same.
    + by eapply TasksInv_flip.
    + by eapply EscrowInv_reinstate.
    + by eapply StakesInv_same.
Qed.

Lemma stake_le_total s pid who : StakesInv s → 0 ≤ pool_stake s pid who ≤ total_pool_stake s pid.
Proof.
  intros [I1 I2 I3]. rewrite I2. unfold pool_stake.
  assert (∀ k v, PoolStakes s !! k = Some v → 0 ≤ stake_of pid k v) as Hnn
    by (intros k v Hk; unfold stake_of; case_bool_decide; [eauto|done]).
  destruct (PoolStakes s !! (pid, who)) as [v|] eqn:Hv; cbn; [|split; [done|by apply msum_nonneg]].
  split; [eauto|]. etrans; [|by apply (msum_lookup_le (stake_of pid) _ _ _ Hnn Hv)].
  unfold stake_of; cbn. by rewrite bool_decide_eq_true_2.
Qed.

Lemma Inv_stake now o pid v s h l s' h' l' :
  Inv T now s → 0 ≤ v → total_pool_stake s pid + v ≤ U128_MAX →
  stake_to_pool o pid v ((s, h), l) = (Ok tt, ((s', h'), l')) → Inv T now s'.
Proof.
  intros [IP IT IE IS] Hv Hmax Hrun. destruct (stake_effect _ _ _ _ _ _ _ _ _ Hrun)
    as (who & _ & _ & _ & _ & HS1 & HS2 & (HP & HO & HN) & HTs & HM).
  pose proof (stake_le_total s pid who IS) as Hle. rewrite !saturating_add_exact in HS1, HS2 by lia.
  split; [by eapply PoolsInv_same| | |].
  - eapply TasksInv_same; [done|done|by apply keeps_same].
  - destruct HTs. by eapply EscrowInv_same.
  - eapply (StakesInv_put s s' pid who _ v); try done. lia.
Qed.

Lemma Inv_unstake now o pid v s h l s' h' l' :
  Inv T now s → 0 ≤ v →
  unstake_from_pool o pid v ((s, h), l) = (Ok tt, ((s', h'), l')) → Inv T now s'.
Proof.
  intros [IP IT IE IS] Hv Hrun. destruct (unstake_effect _ _ _ _ _ _ _ _ _ Hrun)
    as (who & _ & Hle0 & _ & _ & HS1 & HS2 & (HP & HO & HN) & HTs & HM).
  pose proof (stake_le_total s pid who IS) as Hle. rewrite !saturating_sub_exact in HS1, HS2 by lia.
  split; [by eapply PoolsInv_same| | |].
  - eapply TasksInv_same; [done|done|by apply keeps_same].
  - destruct HTs. by eapply EscrowInv_same.
  - pose proof (si_bound _ IS pid). eapply (StakesInv_put s s' pid who _ (- v)); try done; lia.
Qed.

Lemma pool_Inv_dispatch now o c w :
  call_typed c → fits w.1.1 w.2 c → Inv T now w.1.1 → Inv T now (dispatch T now o c w).2.1.1.
Proof.
  intros Hty Hfit I. destruct w as [[s h] l].
  apply (transactional_preserves (λ w, Inv T now w.1.1)); [done|].
  intros [] [[s' h'] l'] Hrun. destruct c; cbn in Hty, Hfit, Hrun |- *.
  - by eapply Inv_register; [|apply Hty|exact Hrun].
  - by eapply Inv_update_config; [|apply Hty|exact Hrun].
  - by eapply Inv_deregister; [|exact Hrun].
  - by eapply Inv_submit_task; [| | |exact Hrun].
  - by eapply Inv_submit_proof; [|exact Hrun].
  - by eapply Inv_verify_proof; [|exact Hrun].
  - by eapply Inv_claim; [|exact Hrun].
  - by eapply Inv_dispute; [|exact Hrun].
  - by eapply Inv_stake; [|apply Hty| |exact Hrun].
  - by eapply Inv_unstake; [|apply Hty|exact Hrun].
Qed.

Lemma Inv_schedule now u dims (w : (State * SH) * L) :
  Inv T now w.1.1 → Inv T now (schedule_compute T now u dims w).2.1.1.
Proof.
  intros I. destruct w as [[s h] l]. destruct (schedule_effect T HT now u dims s h l) as (s' & -> & [->|Hadd]); [done|].
  destruct Hadd as (p & q & t & Hp & HT1 & Hid & Hsub & Hrew & Hpf & Hver & Hdis & Hst & HT2 & Hroom & HT3 & HT4 & HN & (HP & HO & HNp) & HM & [HS1 HS2]).
  destruct I as [IP IT IE IS]. cbn in *. split; [by eapply PoolsInv_same| | |by eapply StakesInv_same].
  - eapply (TasksInv_add T HT now s s' t q); try done; [|by apply keeps_same|by rewrite HP, Hp].
    intros r Hr. rewrite Hrew in Hr. injection Hr as <-.
    destruct (pi_pool _ _ IP _ _ Hp) as (_ & (_ & _ & _ & _ & _ & ? & _) & _). lia.
  - destruct HM as [HR HE]. eapply (EscrowInv_add s s' _ t None); [done|by eapply Tasks_fresh|done|done| |done].
    assert (TaskEscrowStore s !! NextTaskId s = None) as Hnone.
    { apply eq_None_not_Some. intros [e He]. destruct (ei_escrow _ IE _ _ He) as (_ & _ & _ & x & Hx & _).
      rewrite (Tasks_fresh T now s IT) in Hx. done. }
    rewrite HE, <-(partial_alter_self (TaskEscrowStore s) (NextTaskId s)) at 1. by rewrite Hnone.
Qed.

Lemma pool_Inv_later now now' s : now ≤ now' → Inv T now s → Inv T now' s.
Proof. intros Hle [IP IT IE IS]. split; try done. by eapply TasksInv_later. Qed.

Lemma pool_Inv_genesis now : Inv T now genesis.
Proof.
  pose proof (cfg_max _ HT). split; split; try done.
  - intros pid k Hk. by apply list_elem_of_In in Hk.
  - intros pid. constructor.
  - intros pid. change (pool_tasks genesis pid) with (@nil Z). split; [done|apply H1].
  - intros k. cbn. rewrite lookup_empty, is_Some_alt. naive_solver.
Qed.

(** *** The hook: what the scan finds *)

Lemma scan_task_spec now s ids :
  (∀ k, k ∈ ids → ∃ t, Tasks s !! k = Some t ∧ queued t) →
  ∃ reads, foldl (scan_task T now s) ([], [], 0) ids =
    (filter (λ k, Tasks s !! k ≫= hook_verdict T now s k = Some false) ids,
     filter (λ k, Tasks s !! k ≫= hook_verdict T now s k = Some true) ids, reads).
Proof.
  induction ids as [|k ids IH] using rev_ind; intros Hids; [by eexists|].
  destruct IH as [reads Hr]; [intros k' Hk'; apply Hids; set_solver|].
  destruct (Hids k ltac:(set_solver)) as (t & Ht & Hq).
  rewrite foldl_app, Hr, !filter_app; cbn [foldl]. unfold scan_task. rewrite Ht.
  rewrite !filter_cons, !filter_nil, Ht. cbn [mbind option_bind]. unfold hook_verdict.
  assert (is_terminal (status t) = false) as -> by by destruct Hq as [->| ->].
  destruct Hq as [E|E]; rewrite E.
  - rewrite bool_decide_eq_false_2 by done. cbn.
    destruct (_ <? now); eexists; repeat case_decide; rewrite ?app_nil_r; try done; congruence.
  - rewrite bool_decide_eq_true_2 by done. destruct (ProofSubmittedAt s !! k); cbn.
    + destruct (_ <? now); [|destruct (_ <? now)]; eexists; repeat case_decide; rewrite ?app_nil_r; try done; congruence.
    + destruct (_ <? now); eexists; repeat case_decide; rewrite ?app_nil_r; try done; congruence.
Qed.

Lemma elem_of_scanned s k : k ∈ scanned T s ↔ ∃ pid, k ∈ pool_tasks s pid.
Proof.
  unfold scanned. rewrite list_elem_of_In, in_concat. split.
  - intros (ids & Hids%list_elem_of_In & Hk%list_elem_of_In).
    apply list_elem_of_fmap in Hids as ([pid ids'] & -> & Hin). exists pid.
    rewrite (cfg_pool_tasks_iter _ HT), elem_of_map_to_list in Hin. unfold pool_tasks. by rewrite Hin.
  - intros (pid & Hk). unfold pool_tasks in Hk. destruct (PoolTasks s !! pid) as [ids|] eqn:E; cbn in Hk; [|set_solver].
    exists ids. rewrite <-!list_elem_of_In. split; [|done]. apply list_elem_of_fmap. exists (pid, ids).
    split; [done|]. by rewrite (cfg_pool_tasks_iter _ HT), elem_of_map_to_list.
Qed.

Lemma NoDup_concat_disjoint {A B} (l : list (A * list B)) :
  NoDup l.*1 → (∀ a x, (a, x) ∈ l → NoDup x) →
  (∀ a x b y k, (a, x) ∈ l → (b, y) ∈ l → k ∈ x → k ∈ y → a = b) → NoDup (concat l.*2).
Proof.
  induction l as [|[a x] l IH]; cbn; intros Hnd Hx Hdis; [constructor|].
  apply NoDup_cons in Hnd as [Ha Hnd]. apply NoDup_app. split_and!.
  - apply (Hx a). constructor.
  - intros k Hk Hin. apply list_elem_of_In, in_concat in Hin as (y & Hy%list_elem_of_In & Hky%list_elem_of_In).
    apply list_elem_of_fmap in Hy as ([b y'] & -> & Hb). cbn in Hky.
    assert (a = b) as <- by (apply (Hdis a x b y' k); [constructor|by constructor|done|done]).
    destruct Ha. apply list_elem_of_fmap. by exists (a, y').
  - apply IH; [done| |].
    + intros b y Hb. apply (Hx b). by constructor.
    + intros b y c z k Hb Hc. apply Hdis; by constructor.
Qed.

Lemma scanned_NoDup now s : TasksInv T now s → NoDup (scanned T s).
Proof.
  intros I. unfold scanned.
  assert (∀ pid ids, (pid, ids) ∈ pool_tasks_iter T (PoolTasks s) → pool_tasks s pid = ids) as Hin.
  { intros pid ids. rewrite (cfg_pool_tasks_iter _ HT), elem_of_map_to_list. unfold pool_tasks. by intros ->. }
  apply NoDup_concat_disjoint.
  - rewrite (cfg_pool_tasks_iter _ HT). apply NoDup_fst_map_to_list.
  - intros pid ids <-%Hin. apply (ti_nodup _ _ _ I).
  - intros a x b y k <-%Hin <-%Hin Hx Hy.
    destruct (ti_queue _ _ _ I a k Hx) as (_ & t & Ht & <- & _).
    destruct (ti_queue _ _ _ I b k Hy) as (_ & u & Hu & <- & _). by simplify_eq.
Qed.

(** *** The hook: its two loops

    [Q] is whatever else closing a task preserves. *)
Section loops.
Context (now : BlockNumber) (Q : (State * SH) * L → Prop).
Hypothesis Q_verify : ∀ s h l k t, Inv T now s → Tasks s !! k = Some t → status t = ProofSubmitted →
  Q ((s, h), l) → Q (finalize_verification T now k (task_pool t) true ((s, h), l)).2.
Hypothesis Q_fail : ∀ s h l k t, Inv T now s → Tasks s !! k = Some t → queued t →
  Q ((s, h), l) → Q (mark_task_failed T k true ((s, h), l)).2.

(** The tasks in [ids] got the verdict [r], the others are as they were. *)
Definition all_decided (r : bool) (ids : list Z) s s' : Prop :=
  ∀ k, Tasks s' !! k = (λ t, if decide (k ∈ ids) then verdict r t else t) <$> Tasks s !! k.

Lemma all_decided_nil r s : all_decided r [] s s.
Proof.
  intros k. destruct (Tasks s !! k); cbn; [|done]. by rewrite decide_False by set_solver.
Qed.
Lemma all_decided_cons r k ids s s1 s2 t :
  Tasks s !! k = Some t → k ∉ ids → Tasks s1 = <[k := verdict r t]> (Tasks s) →
  all_decided r ids s1 s2 → all_decided r (k :: ids) s s2.
Proof.
  intros Hk Hni H1 H2 k'. rewrite H2, H1, lookup_insert. destruct (decide (k = k')) as [<-|Hne].
  - rewrite Hk; cbn. rewrite decide_False, decide_True by set_solver. done.
  - destruct (Tasks s !! k') as [u|]; cbn; [|done].
    destruct (decide (k' ∈ ids)), (decide (k' ∈ k :: ids)); set_solver.
Qed.

Lemma queued_pool s k t :
  Inv T now s → Tasks s !! k = Some t → queued t →
  ∃ p, Pools s !! task_pool t = Some p ∧ 0 ≤ deposit_held p.
Proof.
  intros I Hk Hq. destruct (ti_task _ _ _ (inv_tasks _ _ _ I) k t Hk) as (_ & _ & _ & _ & Hok).
  destruct (ti_queue _ _ _ (inv_tasks _ _ _ I) (task_pool t) k) as [[p Hp] _].
  { unfold task_ok in Hok. destruct Hq as [E|E]; rewrite E in Hok; naive_solver. }
  exists p. split; [done|]. destruct (pi_pool _ _ (inv_pools _ _ _ I) _ _ Hp) as (_ & (_ & _ & _ & ? & _) & _). lia.
Qed.

Lemma auto_verify_loop ids s h l :
  Inv T now s → NoDup ids → (∀ k, k ∈ ids → ∃ t, Tasks s !! k = Some t ∧ status t = ProofSubmitted) →
  Q ((s, h), l) →
  ∃ s' h' l', for_each ids (auto_verify_task T now) ((s, h), l) = (Ok tt, ((s', h'), l')) ∧
    Inv T now s' ∧ Q ((s', h'), l') ∧ all_decided true ids s s'.
Proof.
  revert s h l. induction ids as [|k ids IH]; intros s h l I Hnd Hids HQ.
  { exists s, h, l. split_and!; try done. apply all_decided_nil. }
  apply NoDup_cons in Hnd as [Hni Hnd]. destruct (Hids k ltac:(set_solver)) as (t & Ht & Hst).
  destruct (queued_pool s k t I Ht ltac:(by right)) as (p & Hp & Hd).
  destruct (ti_task _ _ _ (inv_tasks _ _ _ I) k t Ht) as (_ & _ & _ & _ & Hok).
  unfold task_ok in Hok. rewrite Hst in Hok. destruct Hok as [[hash Hh] _].
  destruct (finalize_run T now k t hash p true s h l Ht Hh Hp Hd ltac:(apply (cfg_deposits _ HT)))
    as (d & s1 & h1 & l1 & Hrun & Hcl & HR & HE & -> & _).
  assert (Inv T now s1) as I1.
  { eapply Inv_close; [exact I|exact Ht|by right|exact Hp|exact Hcl|lia|done]. }
  pose proof (Q_verify s h l k t I Ht Hst HQ) as HQ1. rewrite Hrun in HQ1.
  destruct (IH s1 h1 l1 I1 Hnd) as (s2 & h2 & l2 & Hrun2 & I2 & HQ2 & Hall); [|done|].
  { intros k' Hk'. rewrite (cl_tasks _ _ _ _ _ _ Hcl), lookup_insert_ne by (intros <-; done). apply Hids. by constructor. }
  exists s2, h2, l2. split_and!; try done.
  - cbn [for_each]. erewrite bind_run; [exact Hrun2|]. unfold auto_verify_task.
    erewrite bind_run by reflexivity. cbn [fst snd]. rewrite Ht. unfold ignore. by rewrite Hrun.
  - eapply all_decided_cons; [done|done|exact (cl_tasks _ _ _ _ _ _ Hcl)|done].
Qed.

Lemma expire_loop ids s h l :
  Inv T now s → NoDup ids → (∀ k, k ∈ ids → ∃ t, Tasks s !! k = Some t ∧ queued t) → Q ((s, h), l) →
  ∃ s' h' l', for_each ids (λ k, ignore (mark_task_failed T k true)) ((s, h), l) =
      (Ok tt : result (DispatchError Error) unit, ((s', h'), l')) ∧
    Inv T now s' ∧ Q ((s', h'), l') ∧ all_decided false ids s s'.
Proof.
  revert s h l. induction ids as [|k ids IH]; intros s h l I Hnd Hids HQ.
  { exists s, h, l. split_and!; try done. apply all_decided_nil. }
  apply NoDup_cons in Hnd as [Hni Hnd]. destruct (Hids k ltac:(set_solver)) as (t & Ht & Hq).
  destruct (queued_pool s k t I Ht Hq) as (p & Hp & Hd).
  destruct (mark_task_failed_run T k true t p s h l Ht ltac:(by destruct Hq as [->| ->]) Hp Hd ltac:(apply (cfg_deposits _ HT)))
    as (d & s1 & l1 & Hrun & Hcl & HR & HE & Hb & _).
  assert (Inv T now s1) as I1.
  { eapply Inv_close; [exact I|exact Ht|exact Hq|exact Hp|exact Hcl|lia|done]. }
  pose proof (Q_fail s h l k t I Ht Hq HQ) as HQ1. rewrite Hrun in HQ1.
  destruct (IH s1 h l1 I1 Hnd) as (s2 & h2 & l2 & Hrun2 & I2 & HQ2 & Hall); [|done|].
  { intros k' Hk'. rewrite (cl_tasks _ _ _ _ _ _ Hcl), lookup_insert_ne by (intros <-; done). apply Hids. by constructor. }
  exists s2, h2, l2. split_and!; try done.
  - cbn [for_each]. erewrite bind_run; [exact Hrun2|]. unfold ignore. by rewrite Hrun.
  - eapply all_decided_cons; [done|done|exact (cl_tasks _ _ _ _ _ _ Hcl)|done].
Qed.

Lemma hook_run s h l :
  Inv T now s → Q ((s, h), l) →
  ∃ rw s' h' l', on_initialize T now ((s, h), l) = (Ok rw, ((s', h'), l')) ∧
    Inv T now s' ∧ Q ((s', h'), l') ∧
    ∀ k, Tasks s' !! k = (λ t, decided (hook_verdict T now s k t) t) <$> Tasks s !! k.
Proof.
  intros I HQ. pose proof (inv_tasks _ _ _ I) as IT.
  assert (∀ k, k ∈ scanned T s ↔ ∃ t, Tasks s !! k = Some t ∧ queued t) as Hsc.
  { intros k. rewrite elem_of_scanned. split.
    - intros [pid Hk]. destruct (ti_queue _ _ _ IT pid k Hk) as (_ & t & ? & _ & ?). eauto.
    - intros (t & Ht & Hq). exists (task_pool t). destruct (ti_task _ _ _ IT k t Ht) as (_ & _ & _ & _ & Hok).
      unfold task_ok in Hok. destruct Hq as [E|E]; rewrite E in Hok; naive_solver. }
  destruct (scan_task_spec now s (scanned T s)) as [reads Hscan]; [by intros k ?%Hsc|].
  set (expired := filter (λ k, _ = Some false) _) in Hscan.
  set (auto := filter (λ k, _ = Some true) _) in Hscan.
  assert (∀ k, k ∈ auto ↔ Tasks s !! k ≫= hook_verdict T now s k = Some true) as Hauto.
  { intros k. unfold auto. rewrite list_elem_of_filter, Hsc. split; [by intros [? _]|]. intros Hv. split; [done|].
    destruct (Tasks s !! k) as [t|]; [|done]. exists t. split; [done|]. cbn in Hv. unfold hook_verdict in Hv.
    unfold queued. destruct (status t); auto; done. }
  assert (∀ k, k ∈ expired ↔ Tasks s !! k ≫= hook_verdict T now s k = Some false) as Hexp.
  { intros k. unfold expired. rewrite list_elem_of_filter, Hsc. split; [by intros [? _]|]. intros Hv. split; [done|].
    destruct (Tasks s !! k) as [t|]; [|done]. exists t. split; [done|]. cbn in Hv. unfold hook_verdict in Hv.
    unfold queued. destruct (status t); auto; done. }
  pose proof (scanned_NoDup now s IT) as Hnd.
  destruct (auto_verify_loop auto s h l I (NoDup_filter _ _ Hnd)) as (s1 & h1 & l1 & Hrun1 & I1 & HQ1 & Hall1); [|done|].
  { intros k Hk%Hauto. destruct (Tasks s !! k) as [t|]; [|done]. exists t. split; [done|]. cbn in Hk.
    unfold hook_verdict in Hk. destruct (status t), (ProofSubmittedAt s !! k); repeat case_match; done. }
  destruct (expire_loop expired s1 h1 l1 I1 (NoDup_filter _ _ Hnd)) as (s2 & h2 & l2 & Hrun2 & I2 & HQ2 & Hall2); [|done|].
  { intros k Hk. pose proof Hk as [_ (t & Ht & Hq)%Hsc]%list_elem_of_filter. exists t. rewrite Hall1, Ht; cbn.
    rewrite decide_False; [done|]. rewrite Hauto. apply Hexp in Hk. congruence. }
  unfold on_initialize. erewrite bind_run by reflexivity. cbn [fst snd]. rewrite Hscan.
  erewrite bind_run by exact Hrun1. erewrite bind_run by exact Hrun2.
  eexists _, s2, h2, l2. split_and!; [reflexivity|done|done|].
  intros k. rewrite Hall2, Hall1. specialize (Hauto k). specialize (Hexp k).
  destruct (Tasks s !! k) as [t|]; cbn in *; [|done]. unfold decided.
  destruct (hook_verdict T now s k t) as [[]|]; cbn; repeat case_decide; naive_solver.
Qed.
End loops.

(** ** Steps *)

Inductive pallet_step : BlockNumber * ((State * SH) * L) → BlockNumber * ((State * SH) * L) → Prop :=
| step_call now w o c : call_typed c → fits w.1.1 w.2 c →
    pallet_step (now, w) (now, (dispatch T now o c w).2)
| step_block now w : pallet_step (now, w) (now + 1, (on_initialize T (now + 1) w).2)
| step_schedule now w u dims : pallet_step (now, w) (now, (schedule_compute T now u dims w).2).

(** The rest of the runtime acts on the handler and the ledger. *)
Inductive step : BlockNumber * ((State * SH) * L) → BlockNumber * ((State * SH) * L) → Prop :=
| step_pallet c c' : pallet_step c c' → step c c'
| step_other now s h h' l l' : step (now, ((s, h), l)) (now, ((s, h'), l')).

Definition reachable (c : BlockNumber * ((State * SH) * L)) : Prop :=
  ∃ h l, rtc step (0, ((genesis, h), l)) c.

Lemma pool_Inv_step c c' : step c c' → Inv T c.1 c.2.1.1 → Inv T c'.1 c'.2.1.1.
Proof.
  intros [? ? []|]; cbn; try done.
  - by apply pool_Inv_dispatch.
  - intros I%(pool_Inv_later _ (now + 1)); [|lia]. destruct w as [[s h] l].
    destruct (hook_run (now + 1) (λ _, True)) with s h l as (rw & s' & h' & l' & -> & ? & _); done.
  - apply Inv_schedule.
Qed.

Lemma pool_Inv_reachable c : reachable c → Inv T c.1 c.2.1.1.
Proof.
  intros (h & l & Hr). revert Hr. apply (rtc_invariant step (λ c, Inv T c.1 c.2.1.1)).
  - apply pool_Inv_step.
  - apply pool_Inv_genesis.
Qed.

(** *** The life of a task *)

Inductive stage (t t' : ComputeTask) : Prop :=
| stage_same : t' = t → stage t t'
| stage_proof hash : status t = Computing →
    t' = t <| proof_hash := Some hash |> <| status := ProofSubmitted |> → stage t t'
| stage_approve : status t = ProofSubmitted → t' = verdict true t → stage t t'
| stage_fail : status t = Computing ∨ status t = ProofSubmitted → t' = verdict false t → stage t t'
| stage_dispute r : is_terminal (status t) = true → disputed t = false →
    verification_result t = Some r → t' = flipped (negb r) t → stage t t'.

Definition advances s s' : Prop :=
  ∀ k t, Tasks s !! k = Some t → ∃ t', Tasks s' !! k = Some t' ∧ stage t t'.

Lemma pool_advances_same s s' : Tasks s' = Tasks s → advances s s'.
Proof. intros Hm k t Ht. exists t. rewrite Hm. split; [done|by constructor]. Qed.
Lemma pool_advances_insert s s' k t' :
  (∀ t, Tasks s !! k = Some t → stage t t') → Tasks s' = <[k := t']> (Tasks s) → advances s s'.
Proof.
  intros Hs Hm k' t Ht. rewrite Hm, lookup_insert. destruct (decide (k = k')) as [<-|].
  - exists t'. split; [done|by apply Hs].
  - exists t. split; [done|by constructor].
Qed.
Lemma advances_fresh now s s' t : Inv T now s → Tasks s' = <[NextTaskId s := t]> (Tasks s) → advances s s'.
Proof.
  intros I. apply pool_advances_insert. intros u Hu. by rewrite (Tasks_fresh T now s (inv_tasks _ _ _ I)) in Hu.
Qed.

Lemma pool_dispatch_advances now o c s h l :
  call_typed c → Inv T now s → advances s (dispatch T now o c ((s, h), l)).2.1.1.
Proof.
  intros Hty I. apply (transactional_preserves (λ w, advances s w.1.1)); [by apply pool_advances_same|].
  intros [] [[s' h'] l'] Hrun. destruct c; cbn in Hty, Hrun |- *.
  - apply register_effect in Hrun as (p & _ & _ & _ & _ & _ & ? & _); [by apply pool_advances_same|done|apply Hty].
  - apply (update_config_effect T) in Hrun as (p & p' & _ & _ & [? _] & _); [by apply pool_advances_same|apply I|apply Hty].
  - apply deregister_effect in Hrun as (p & _ & _ & _ & _ & _ & _ & ? & _). by apply pool_advances_same.
  - apply (submit_task_effect T HT) in Hrun as (u & pid & p & sc & r & t & e & _ & _ & _ & _ & _ & ? & _); [|apply I].
    by eapply advances_fresh.
  - apply submit_proof_effect in Hrun as (t & p & Hk & Hst & _ & _ & _ & HT1 & _).
    eapply pool_advances_insert; [|exact HT1]. intros u Hu. simplify_eq. by eapply stage_proof.
  - apply verify_proof_effect in Hrun as (u & t & p & hash & _ & Hk & Hst & Hh & Hp & _ & Hfin).
    destruct (pi_pool _ _ (inv_pools _ _ _ I) _ _ Hp) as (_ & (_ & _ & _ & Hdep & _) & _).
    destruct (finalize_run T now tid t hash p result s h l Hk Hh Hp ltac:(lia) ltac:(apply (cfg_deposits _ HT)))
      as (d & s1 & h1 & l1 & Hrun' & Hcl & _). rewrite Hrun' in Hfin. injection Hfin as <- <- <-.
    eapply pool_advances_insert; [|exact (cl_tasks _ _ _ _ _ _ Hcl)]. intros x Hx. simplify_eq.
    destruct result; [by apply stage_approve|apply stage_fail; auto].
  - apply claim_reward_effect in Hrun as (t & p & r & e & l1 & _ & _ & _ & _ & _ & _ & _ & _ & _ & _ & _ & _ & _ & [? _] & _).
    by apply pool_advances_same.
  - apply (dispute_effect T HT) in Hrun as (t & r & s1 & l1 & Hk & _ & Hterm & Hdis & Hv & [= <- <- <-] & Hr); [|apply I].
    assert (Tasks s' = <[tid := flipped (negb r) t]> (Tasks s)) as HT1.
    { destruct r; [destruct Hr as (p & d & _ & [? _] & _)|destruct Hr as [[? _] _]]; done. }
    eapply pool_advances_insert; [|exact HT1]. intros x Hx. simplify_eq. by eapply stage_dispute.
  - apply stake_effect in Hrun as (who & _ & _ & _ & _ & _ & _ & _ & [? _] & _). by apply pool_advances_same.
  - apply unstake_effect in Hrun as (who & _ & _ & _ & _ & _ & _ & _ & [? _] & _). by apply pool_advances_same.
Qed.

(** ** Claims *)

(** C7: in every reachable state the scheduler's storage is consistent: pools
    are filed under their id and their owner, with reputation and success rate
    between 0 and 100, a final score of at most 10000 and no more deposit than
    was taken; the running tasks are exactly the entries of their pools'
    queues, once each, within the bound and within the activity counter; a
    task is closed exactly when it has a verdict; an unclaimed escrow of a
    completed task has its reward ready and none is left for a failed task;
    and the total stake of a pool is the sum of the individual stakes. *)
Theorem pool_reachable_invariant c : reachable c → Inv T c.1 c.2.1.1.
Proof. apply pool_Inv_reachable. Qed.

(** The block hook never fails and, although it only walks the queues, in
    whatever order the database yields them, and drops the errors of its
    helpers, it decides every task of the storage as the timeouts prescribe: a
    proof that waited longer than the verification timeout is approved, any
    other running task past the task timeout fails, and nothing else changes. *)
Theorem pool_hook_decides_exactly now c :
  reachable c → c.1 ≤ now →
  ∃ rw w', on_initialize T now c.2 = (Ok rw, w') ∧
    ∀ k, Tasks w'.1.1 !! k =
      (λ t, decided (hook_verdict T now c.2.1.1 k t) t) <$> Tasks c.2.1.1 !! k.
Proof.
  intros I%pool_Inv_reachable Hle. apply (pool_Inv_later _ now) in I; [|done]. destruct c as [now0 [[s h] l]].
  destruct (hook_run now (λ _, True)) with s h l as (rw & s' & h' & l' & Hrun & _ & _ & Hall); try done.
  by exists rw, ((s', h'), l').
Qed.

(** The life of a task: it is never removed, its user, pool and reward
    never change; only a computing task gets a proof, only a submitted proof is
    approved, a running task may fail, and a closed task flips its verdict at
    most once, by a dispute. *)
Theorem pool_task_lifecycle c c' : reachable c → step c c' → advances c.2.1.1 c'.2.1.1.
Proof.
  intros I%pool_Inv_reachable Hstep. destruct Hstep as [c c' Hstep|]; [|by apply pool_advances_same].
  destruct Hstep as [now [[s h] l] o c Hty Hfit|now [[s h] l]|now [[s h] l] u dims]; cbn [fst snd] in *.
  - by apply pool_dispatch_advances.
  - apply (pool_Inv_later _ (now + 1)) in I; [|lia].
    destruct (hook_run (now + 1) (λ _, True)) with s h l as (rw & s' & h' & l' & -> & _ & _ & Hall); try done.
    intros k t Ht. cbn [fst snd]. rewrite Hall, Ht. cbn. eexists. split; [done|].
    unfold decided, hook_verdict. destruct (status t) eqn:E, (ProofSubmittedAt s !! k); repeat case_match; cbn;
      first [by apply stage_same|by apply stage_approve|by apply stage_fail; auto].
  - destruct (schedule_effect T HT now u dims s h l) as (s' & -> & [->|Hadd]); [by apply pool_advances_same|].
    destruct Hadd as (p & q & t & _ & ? & _). by eapply advances_fresh.
Qed.
End theory.
End PoolSteps.
