(* ===== verification/PoolMoney.v ===== *)
(** * pallet-compute-pool-scheduler: the money

    What the scheduler holds in reserve is the unclaimed escrows, the pools'
    deposits and the stakes. Every step keeps the reserved balances above that,
    with one exception that the theorems pin down: a dispute of a task whose
    reward was already claimed releases the escrow a second time. *)
From stdpp Require Import base gmap fin_maps list numbers relations.
From Stdlib Require Import ZArith Lia.
From S2P Require Import Prelude Currency Interfaces X402 Attestation.
From S2P Require Import ComputePool PoolScoring PoolInvariant PoolSteps.
Import Scheduler PoolScoring PoolInvariant PoolSteps.

Module PoolMoney.

Definition escrow_owed (a : AccountId) (_ : Z) (e : TaskEscrow) : Z :=
  if claimed e then 0 else at_account (esc_user e) (esc_reward e + esc_deposit e) a.
Definition pool_owed (a : AccountId) (_ : Z) (p : ComputePool) : Z :=
  at_account (owner p) (deposit_held p) a.
Definition stake_owed (a : AccountId) (k : Z * AccountId) (v : Balance) : Z := at_account k.2 v a.

Definition escrows_held (s : State) (a : AccountId) : Z := msum (escrow_owed a) (TaskEscrowStore s).
Definition pools_held (s : State) (a : AccountId) : Z := msum (pool_owed a) (Pools s).
Definition stakes_held (s : State) (a : AccountId) : Z := msum (stake_owed a) (PoolStakes s).

#[export] Instance custodian : Custodian State :=
  λ s a, escrows_held s a + pools_held s a + stakes_held s a.

(** The calls that do not dispute a task whose escrow was already paid out. *)
Definition disputes_unclaimed (s : State) (c : Call) : Prop :=
  match c with
  | DisputeVerification tid => ∀ e, TaskEscrowStore s !! tid = Some e → claimed e = false
  | _ => True
  end.

Section theory.
Context `{ReservableCurrencyLaws L} {SH : Type} `{Custodian SH} `{!TaskCompletionHandler L SH}.
Context `{!TaskCompletionHandlerLaws L SH} (T : Config) (HT : config_typed T).
Implicit Types (s : State) (h : SH) (l : L) (ext : AccountId → Z).

Lemma held_split s a : held s a = escrows_held s a + pools_held s a + stakes_held s a.
Proof. done. Qed.
Lemma held_pair s h a : held (s, h) a = held s a + held h a.
Proof. done. Qed.

(** The scheduler's own claims changed by no more than the reserves. *)
Lemma solvent_own ext s s' h l l' :
  (∀ a, held s' a - held s a ≤ reserved_balance l' a - reserved_balance l a) →
  solvent ext ((s, h), l) → solvent ext ((s', h), l').
Proof. intros Hd. apply solvent_reserved. intros a. rewrite !held_pair. specialize (Hd a). lia. Qed.

(** *** How each part of the claims moves *)

Lemma escrows_same s s' a : same_money s s' → escrows_held s' a = escrows_held s a.
Proof. intros [_ HE]. unfold escrows_held. by rewrite HE. Qed.
Lemma stakes_same s s' a : same_stakes s s' → stakes_held s' a = stakes_held s a.
Proof. intros [HS _]. unfold stakes_held. by rewrite HS. Qed.
Lemma pools_same s s' a : Pools s' = Pools s → pools_held s' a = pools_held s a.
Proof. intros HP. unfold pools_held. by rewrite HP. Qed.
Lemma pools_update s s' pid p p' a :
  Pools s !! pid = Some p → Pools s' = <[pid := p']> (Pools s) → owner p' = owner p →
  pools_held s' a = pools_held s a - at_account (owner p) (deposit_held p - deposit_held p') a.
Proof.
  intros Hp HP Ho. unfold pools_held. rewrite HP, (msum_insert_Some (pool_owed a) _ _ _ _ Hp).
  unfold pool_owed. rewrite Ho. unfold at_account. case_decide; lia.
Qed.
Lemma escrows_delete s s' k a :
  TaskEscrowStore s' = delete k (TaskEscrowStore s) →
  escrows_held s' a = escrows_held s a - from_option (escrow_owed a k) 0 (TaskEscrowStore s !! k).
Proof.
  intros HE. unfold escrows_held. rewrite HE. destruct (TaskEscrowStore s !! k) as [e|] eqn:He; cbn.
  - apply (msum_delete (escrow_owed a) _ _ _ He).
  - rewrite delete_id by done. lia.
Qed.

(** A release takes at most the escrow of its task out of the reserve. *)
Lemma released_reserved s k l a :
  EscrowInv s → (∀ e, TaskEscrowStore s !! k = Some e → claimed e = false) →
  reserved_balance l a - from_option (escrow_owed a k) 0 (TaskEscrowStore s !! k)
    ≤ reserved_balance (released s k l) a.
Proof.
  intros I Hc. unfold released. destruct (TaskEscrowStore s !! k) as [e|] eqn:He; cbn; [|lia].
  destruct (ei_escrow _ I k e He) as (Hr & Hd & Hmax & _). rewrite saturating_add_exact by done.
  destruct (unreserve_spec (esc_user e) (esc_reward e + esc_deposit e) l ltac:(lia)) as [_ Hm].
  destruct (Hm a) as [_ ->]. unfold escrow_owed. rewrite (Hc e eq_refl). unfold at_account. case_decide; lia.
Qed.

(** Releasing task [k]'s escrow and slashing its pool. *)
Lemma solvent_fail ext s s' h l l' k pid p p' d :
  EscrowInv s → (∀ e, TaskEscrowStore s !! k = Some e → claimed e = false) →
  TaskEscrowStore s' = delete k (TaskEscrowStore s) → Pools s !! pid = Some p →
  Pools s' = <[pid := p']> (Pools s) → owner p' = owner p → deposit_held p' = d →
  same_stakes s s' →
  moves (released s k l) l' (λ _, 0) (at_account (owner p) (- (deposit_held p - d))) →
  solvent ext ((s, h), l) → solvent ext ((s', h), l').
Proof.
  intros I Hc HE Hp HP Ho Hd HS Hm. apply solvent_own. intros a. rewrite !held_split.
  rewrite (escrows_delete s s' k a HE), (pools_update s s' pid p p' a Hp HP Ho), (stakes_same s s' a HS), Hd.
  pose proof (released_reserved s k l a I Hc). destruct (Hm a) as [_ ->]. unfold at_account. case_decide; lia.
Qed.

Lemma queued_unclaimed now s k t e :
  Inv T now s → Tasks s !! k = Some t → queued t → TaskEscrowStore s !! k = Some e → claimed e = false.
Proof.
  intros I Hk Hq He. destruct (ei_escrow _ (inv_escrow _ _ _ I) k e He) as (_ & _ & _ & u & Hu & (_ & _ & _ & _ & Hcl)).
  simplify_eq. destruct (claimed e); [|done]. destruct Hcl as [E _]. by destruct Hq as [E'|E']; rewrite E' in E.
Qed.

(** The world the hook's loops carry along. *)
Definition funded ext now (w : (State * SH) * L) : Prop := handler_inv now w.1.2 ∧ solvent ext w.

Lemma funded_fail ext now s h l k t to :
  Inv T now s → Tasks s !! k = Some t → queued t → funded ext now ((s, h), l) →
  funded ext now (mark_task_failed T k to ((s, h), l)).2.
Proof.
  intros I Hk Hq [Hh Hs]. destruct (queued_pool T now s k t I Hk Hq) as (p & Hp & Hd).
  destruct (mark_task_failed_run T k to t p s h l Hk ltac:(by destruct Hq as [->| ->]) Hp Hd ltac:(apply (cfg_deposits _ HT)))
    as (d & s1 & l1 & -> & Hcl & HR & HE & Hb & Hm). split; [done|].
  eapply (solvent_fail ext s s1 h l l1 k); [apply I| |exact HE|exact Hp|exact (cl_pools _ _ _ _ _ _ Hcl)|done|done|apply Hcl|exact Hm|exact Hs].
  intros e He. by eapply queued_unclaimed.
Qed.

Lemma funded_finalize ext now s h l k t hash r :
  Inv T now s → Tasks s !! k = Some t → status t = ProofSubmitted → proof_hash t = Some hash →
  funded ext now ((s, h), l) →
  funded ext now (finalize_verification T now k (task_pool t) r ((s, h), l)).2.
Proof.
  intros I Hk Hst Hh [Hi Hs]. destruct (queued_pool T now s k t I Hk ltac:(by right)) as (p & Hp & Hd).
  destruct (finalize_run T now k t hash p r s h l Hk Hh Hp Hd ltac:(apply (cfg_deposits _ HT)))
    as (d & s1 & h1 & l1 & -> & Hcl & Hm). destruct r.
  - destruct Hm as (HR & HE & -> & Hcall).
    assert (solvent ext ((s1, h), l)) as Hs1.
    { revert Hs. apply solvent_own. intros a. rewrite !held_split.
      rewrite (pools_update s s1 _ p _ a Hp (cl_pools _ _ _ _ _ _ Hcl)), (stakes_same s s1 a (cl_stakes _ _ _ _ _ _ Hcl)) by done.
      unfold escrows_held. rewrite HE. cbn. unfold at_account. case_decide; lia. }
    pose proof (task_completed_inv now (owner p) k hash [] 0 0 (h, l) Hi) as Hi'.
    pose proof (with_callee_solvent (task_completed now (owner p) k hash [] 0 0) ext ((s1, h), l)
      (λ ext', task_completed_solvent ext' now (owner p) k hash [] 0 0 (h, l) Hi) Hs1) as Hs2.
    unfold with_callee in Hs2. cbn [fst snd] in *. rewrite <-Hcall in Hi', Hs2. done.
  - destruct Hm as (HR & HE & -> & Hb & Hm). split; [done|].
    eapply (solvent_fail ext s s1 h l l1 k); [apply I| |exact HE|exact Hp|exact (cl_pools _ _ _ _ _ _ Hcl)|done|done|apply Hcl|exact Hm|exact Hs].
    intros e He. by eapply queued_unclaimed; [| |right|].
Qed.

Lemma held_same s s' a : same_pools s s' → same_money s s' → same_stakes s s' → held s' a = held s a.
Proof.
  intros (HP & _) HM HS. rewrite !held_split.
  by rewrite (pools_same s s' a HP), (escrows_same s s' a HM), (stakes_same s s' a HS).
Qed.

Lemma stakes_put s s' pid who v d a :
  v = pool_stake s pid who + d → PoolStakes s' = <[(pid, who) := v]> (PoolStakes s) →
  stakes_held s' a = stakes_held s a + at_account who d a.
Proof.
  intros Hv HS. unfold stakes_held, pool_stake in *. rewrite HS.
  destruct (PoolStakes s !! (pid, who)) as [x|] eqn:Hx; cbn in Hv.
  - rewrite (msum_insert_Some (stake_owed a) _ _ _ _ Hx). unfold stake_owed, at_account; cbn. case_decide; lia.
  - rewrite (msum_insert_None (stake_owed a)) by done. unfold stake_owed, at_account; cbn. case_decide; lia.
Qed.

Lemma solvent_register ext now o m mem nv e pr s h l s' h' l' :
  Inv T now s → 0 ≤ pr ≤ U128_MAX →
  register_pool T o m mem nv e pr ((s, h), l) = (Ok tt, ((s', h'), l')) →
  solvent ext ((s, h), l) → solvent ext ((s', h'), l').
Proof.
  intros I Hpr Hrun. apply register_effect in Hrun as
    (p & HP & _ & _ & _ & _ & _ & _ & _ & _ & HM & HS & Hdep & _ & Hres & ->); [|done|done].
  eapply solvent_reserve; [|exact Hres|]; [apply (cfg_deposits _ HT)|]. intros a.
  rewrite !held_pair, !held_split, (escrows_same s s' a HM), (stakes_same s s' a HS).
  unfold pools_held. rewrite HP, (msum_insert_None (pool_owed a)).
  - unfold pool_owed at 1. rewrite Hdep. lia.
  - apply eq_None_not_Some. intros [q Hq]. destruct (pi_pool _ _ (inv_pools _ _ _ I) _ _ Hq). lia.
Qed.

Lemma solvent_deregister ext now o pid s h l s' h' l' :
  Inv T now s → deregister_pool o pid ((s, h), l) = (Ok tt, ((s', h'), l')) →
  solvent ext ((s, h), l) → solvent ext ((s', h'), l').
Proof.
  intros I Hrun. apply deregister_effect in Hrun as
    (p & Hp & _ & _ & HP & _ & _ & _ & _ & _ & _ & _ & HM & HS & -> & ->).
  destruct (pi_pool _ _ (inv_pools _ _ _ I) _ _ Hp) as (_ & (_ & _ & _ & [Hd _] & _) & _).
  destruct (unreserve_spec (owner p) (deposit_held p) l Hd) as [_ Hm].
  eapply solvent_release; [exact Hd|exact Hm|]. intros a.
  rewrite !held_pair, !held_split, (escrows_same s s' a HM), (stakes_same s s' a HS).
  unfold pools_held. rewrite HP, (msum_delete (pool_owed a) _ _ _ Hp). unfold pool_owed. lia.
Qed.

Lemma solvent_submit_task ext now o d pr pref s h l s' h' l' :
  Inv T now s → dims_typed d → (∀ a, free_balance l a < U128_MAX) →
  submit_task T now o d pr pref ((s, h), l) = (Ok tt, ((s', h'), l')) →
  solvent ext ((s, h), l) → solvent ext ((s', h'), l').
Proof.
  intros I Hd Hf Hrun. apply (submit_task_effect T HT) in Hrun as
    (u & pid & p & sc & r & t & e & _ & Hp & (HP & _) & _ & Hrew & _ & _ & _ & _ & _ & _ & _ & _ & HE & He & HS & -> & Hres); [|apply I].
  destruct (pi_pool _ _ (inv_pools _ _ _ I) _ _ Hp) as (_ & (_ & Hty & _) & _).
  pose proof (reward_nonneg d p r Hd Hty Hrew) as Hr. pose proof (cfg_deposits _ HT) as (_ & Htd & _).
  pose proof (reserve_total u r (TaskDeposit T) l l' Hf Hr Htd Hres) as Hmax.
  rewrite saturating_add_exact in Hres by done. eapply solvent_reserve; [|exact Hres|]; [lia|]. intros a.
  rewrite !held_pair, !held_split, (stakes_same s s' a HS), (pools_update s s' pid p _ a Hp HP) by done.
  unfold escrows_held. rewrite HE, (msum_insert_None (escrow_owed a)).
  - subst e. unfold escrow_owed at 1. cbn. unfold at_account. repeat case_decide; lia.
  - apply eq_None_not_Some. intros [x Hx]. destruct (ei_escrow _ (inv_escrow _ _ _ I) _ _ Hx) as (_ & _ & _ & y & Hy & _).
    by rewrite (Tasks_fresh T now s (inv_tasks _ _ _ I)) in Hy.
Qed.

(** The ledger of a claim: the reward leaves the user's reserve for the pool's
    owner, the deposit returns to the user. *)
Lemma claim_moves now o k s h l s' h' l' :
  Inv T now s → claim_reward o k ((s, h), l) = (Ok tt, ((s', h'), l')) →
  ∃ t p e, Tasks s !! k = Some t ∧ status t = Completed ∧ Pools s !! task_pool t = Some p ∧
    o = Signed (owner p) ∧ TaskEscrowStore s !! k = Some e ∧ claimed e = false ∧ user t = esc_user e ∧
    reward_amount t = Some (esc_reward e) ∧ 0 ≤ esc_reward e ≤ reserved_balance l (esc_user e) ∧
    0 ≤ esc_deposit e ∧ h' = h ∧
    let back := Z.min (esc_deposit e) (reserved_balance l (esc_user e) - esc_reward e) in
    moves l l' (λ a, at_account (owner p) (esc_reward e) a + at_account (esc_user e) back a)
      (at_account (esc_user e) (- (esc_reward e + back))) ∧
    TaskEscrowStore s' = <[k := e <| claimed := true |>]> (TaskEscrowStore s) ∧
    same_pools s s' ∧ same_tasks s s' ∧ same_stakes s s'.
Proof.
  intros I Hrun. apply claim_reward_effect in Hrun as
    (t & p & r & e & l1 & Hk & Hst & Hp & -> & Hr & He & Hc & Hrep & -> & -> & HE & HR & HP & HTs & HS).
  destruct (ei_escrow _ (inv_escrow _ _ _ I) k e He) as (Hr0 & Hd0 & _ & u & Hu & (Hus & Hrw & _ & _ & Hcl)).
  simplify_eq. rewrite Hc in Hcl. specialize (Hcl Hst). simplify_eq.
  destruct (repatriate_spec _ _ _ _ _ _ Hr0 Hrep) as [Hrem Hm1].
  rewrite Z.min_l in Hm1 by lia.
  destruct (unreserve_spec (esc_user e) (esc_deposit e) l1 Hd0) as [_ Hm2].
  eexists _, p, e. split_and!; try done; try lia.
  intros back. split_and!; try done. intros a. unfold back. destruct (Hm1 a) as [Hf1 Hr1], (Hm2 a) as [-> ->], (Hm1 (esc_user e)) as [_ Hu1].
  unfold at_account in Hu1 at 1. rewrite decide_True in Hu1 by done. rewrite Hf1, Hr1, Hu1.
  unfold at_account. split; repeat case_decide; lia.
Qed.

Lemma solvent_claim ext now o k s h l s' h' l' :
  Inv T now s → claim_reward o k ((s, h), l) = (Ok tt, ((s', h'), l')) →
  solvent ext ((s, h), l) → solvent ext ((s', h'), l').
Proof.
  intros I Hrun. apply (claim_moves now) in Hrun as
    (t & p & e & _ & _ & _ & _ & He & Hc & _ & _ & Hr & Hd & -> & Hm & HE & (HP & _) & _ & HS); [|done].
  apply solvent_own. intros a. rewrite !held_split, (stakes_same s s' a HS), (pools_same s s' a HP).
  unfold escrows_held. rewrite HE, (msum_insert_Some (escrow_owed a) _ _ _ _ He).
  unfold escrow_owed at 2 3. cbn. rewrite Hc. destruct (Hm a) as [_ ->]. unfold at_account. case_decide; lia.
Qed.

Lemma solvent_dispute ext now o k s h l s' h' l' :
  Inv T now s → (∀ e, TaskEscrowStore s !! k = Some e → claimed e = false) →
  dispute_verification T o k ((s, h), l) = (Ok tt, ((s', h'), l')) →
  solvent ext ((s, h), l) → solvent ext ((s', h'), l').
Proof.
  intros I Hc Hrun. apply (dispute_effect T HT) in Hrun as
    (t & r & s1 & l1 & Hk & _ & _ & _ & _ & [= <- <- <-] & Hr); [|apply I]. destruct r.
  - destruct Hr as (p & d & Hp & (_ & _ & _ & _ & _ & HS & (HP & _)) & _ & HE & _ & Hm).
    by eapply (solvent_fail ext s s' h' l l' k); [apply I|exact Hc|exact HE|exact Hp|exact HP|..].
  - destruct Hr as ((_ & _ & _ & _ & _ & HS & HP) & _ & HE & ->). apply solvent_own. intros a.
    rewrite !held_split, (stakes_same s s' a HS). unfold escrows_held. rewrite HE.
    assert (pools_held s' a = pools_held s a); [|lia]. cbn in HP. destruct (Pools s !! task_pool t) as [p|] eqn:Hp.
    + destruct HP as (HP & _). rewrite (pools_update s s' _ p _ a Hp HP) by done. cbn. unfold at_account. case_decide; lia.
    + destruct HP as (HP & _). by apply pools_same.
Qed.

Lemma solvent_stake ext now o pid v s h l s' h' l' :
  Inv T now s → 0 ≤ v → total_pool_stake s pid + v ≤ U128_MAX →
  stake_to_pool o pid v ((s, h), l) = (Ok tt, ((s', h'), l')) →
  solvent ext ((s, h), l) → solvent ext ((s', h'), l').
Proof.
  intros I Hv Hmax Hrun. apply stake_effect in Hrun as (who & _ & _ & Hres & -> & HS1 & _ & (HP & _) & _ & HM).
  pose proof (stake_le_total s pid who (inv_stakes _ _ _ I)) as Hle. rewrite saturating_add_exact in HS1 by lia.
  eapply solvent_reserve; [exact Hv|exact Hres|]. intros a.
  rewrite !held_pair, !held_split, (escrows_same s s' a HM), (pools_same s s' a HP), (stakes_put s s' pid who _ v a eq_refl HS1). lia.
Qed.

Lemma solvent_unstake ext now o pid v s h l s' h' l' :
  Inv T now s → 0 ≤ v → unstake_from_pool o pid v ((s, h), l) = (Ok tt, ((s', h'), l')) →
  solvent ext ((s, h), l) → solvent ext ((s', h'), l').
Proof.
  intros I Hv Hrun. apply unstake_effect in Hrun as (who & _ & Hle & -> & -> & HS1 & _ & (HP & _) & _ & HM).
  rewrite saturating_sub_exact in HS1 by lia. destruct (unreserve_spec who v l Hv) as [_ Hm].
  eapply solvent_release; [exact Hv|exact Hm|]. intros a.
  rewrite !held_pair, !held_split, (escrows_same s s' a HM), (pools_same s s' a HP), (stakes_put s s' pid who _ (- v) a eq_refl HS1).
  unfold at_account. case_decide; lia.
Qed.

Lemma pool_solvent_dispatch ext now o c w :
  Inv T now w.1.1 → call_typed c → fits w.1.1 w.2 c → disputes_unclaimed w.1.1 c →
  handler_inv now w.1.2 → solvent ext w → solvent ext (dispatch T now o c w).2.
Proof.
  intros I Hty Hfit Hdis Hh Hs. destruct w as [[s h] l].
  apply (transactional_preserves (solvent ext)); [done|].
  intros [] [[s' h'] l'] Hrun. destruct c; cbn in Hty, Hfit, Hdis, Hrun, I, Hh.
  - by eapply solvent_register; [|apply Hty|exact Hrun|].
  - apply (update_config_effect T) in Hrun as (p & p' & Hp & (HP & _) & _ & HM & HS & Ho & Hd & _ & -> & ->); [|apply I|apply Hty].
    revert Hs. apply solvent_own. intros a. rewrite !held_split, (escrows_same s s' a HM), (stakes_same s s' a HS).
    rewrite (pools_update s s' pid p p' a Hp HP Ho). unfold at_account. case_decide; lia.
  - by eapply solvent_deregister; [|exact Hrun|].
  - by eapply solvent_submit_task; [| | |exact Hrun|].
  - apply submit_proof_effect in Hrun as (t & p & _ & _ & _ & _ & _ & _ & _ & _ & _ & _ & HP & HM & HS & -> & ->).
    revert Hs. apply solvent_own. intros a. rewrite (held_same s s' a HP HM HS). lia.
  - apply verify_proof_effect in Hrun as (u & t & p & hash & _ & Hk & Hst & Hhash & _ & _ & Hfin).
    pose proof (funded_finalize ext now s h l tid t hash result I Hk Hst Hhash (conj Hh Hs)) as [_ Hf].
    by rewrite Hfin in Hf.
  - by eapply solvent_claim; [|exact Hrun|].
  - by eapply solvent_dispute; [| |exact Hrun|].
  - by eapply solvent_stake; [|apply Hty| |exact Hrun|].
  - by eapply solvent_unstake; [|apply Hty|exact Hrun|].
Qed.

(** Only the approval of a proof reaches the handler. *)
Lemma handler_dispatch now o c w :
  Inv T now w.1.1 → call_typed c → handler_inv now w.1.2 → handler_inv now (dispatch T now o c w).2.1.2.
Proof.
  intros I Hty Hh. destruct w as [[s h] l].
  apply (transactional_preserves (λ w, handler_inv now w.1.2)); [done|].
  intros [] [[s' h'] l'] Hrun. destruct c; cbn in Hty, Hrun, I, Hh |- *.
  - apply register_effect in Hrun; [|done|apply Hty]. destruct_and?. naive_solver.
  - apply (update_config_effect T) in Hrun; [|apply I|apply Hty]. naive_solver.
  - apply deregister_effect in Hrun. naive_solver.
  - apply (submit_task_effect T HT) in Hrun; [|apply I]. naive_solver.
  - apply submit_proof_effect in Hrun. naive_solver.
  - apply verify_proof_effect in Hrun as (u & t & p & hash & _ & Hk & Hst & Hhash & Hp & _ & Hfin).
    destruct (queued_pool T now s tid t I Hk ltac:(by right)) as (q & Hq & Hd). simplify_eq.
    destruct (finalize_run T now tid t hash p result s h l Hk Hhash Hp Hd ltac:(apply (cfg_deposits _ HT)))
      as (d & s1 & h1 & l1 & Hrun' & _ & Hm). rewrite Hrun' in Hfin. injection Hfin as <- <- <-.
    destruct result; [|by destruct Hm as (_ & _ & -> & _)]. destruct Hm as (_ & _ & _ & Hcall).
    pose proof (task_completed_inv now (owner p) tid hash [] 0 0 (h, l) Hh) as Hi. by rewrite <-Hcall in Hi.
  - apply claim_reward_effect in Hrun. naive_solver.
  - apply (dispute_effect T HT) in Hrun; [|apply I]. naive_solver.
  - apply stake_effect in Hrun. naive_solver.
  - apply unstake_effect in Hrun. naive_solver.
Qed.

Lemma funded_dispatch ext now o c w :
  Inv T now w.1.1 → call_typed c → fits w.1.1 w.2 c → disputes_unclaimed w.1.1 c →
  funded ext now w → funded ext now (dispatch T now o c w).2.
Proof. intros I Hty Hfit Hdis [Hh Hs]. split; [by apply handler_dispatch|by apply pool_solvent_dispatch]. Qed.

Lemma funded_hook ext now w :
  Inv T now w.1.1 → funded ext now w → funded ext now (on_initialize T now w).2.
Proof.
  intros I Hf. destruct w as [[s h] l]. cbn in I.
  destruct (hook_run T HT now (funded ext now)) with s h l as (rw & s' & h' & l' & -> & _ & ? & _); try done.
  - intros s1 h1 l1 k t I1 Hk Hst. destruct (ti_task _ _ _ (inv_tasks _ _ _ I1) k t Hk) as (_ & _ & _ & _ & Hok).
    unfold task_ok in Hok. rewrite Hst in Hok. destruct Hok as [[hash Hhash] _]. by eapply funded_finalize.
  - intros s1 h1 l1 k t I1 Hk Hq. by eapply funded_fail.
Qed.

Lemma solvent_schedule ext now u dims (w : (State * SH) * L) :
  Inv T now w.1.1 → solvent ext w → solvent ext (schedule_compute T now u dims w).2.
Proof.
  intros I Hs. destruct w as [[s h] l].
  destruct (schedule_effect T HT now u dims s h l) as (s' & -> & [->|Hadd]); [done|].
  destruct Hadd as (p & q & t & _ & _ & _ & _ & _ & _ & _ & _ & _ & _ & _ & _ & _ & _ & HP & HM & HS).
  revert Hs. apply solvent_own. intros a. rewrite (held_same s s' a HP HM HS). lia.
Qed.

(** *** A completed task whose pool has gone *)

Definition orphaned s (k : Z) (t : ComputeTask) : Prop :=
  Tasks s !! k = Some t ∧ status t = Completed ∧ Pools s !! task_pool t = None ∧
  task_pool t < NextPoolId s.

Definition stays_orphaned s k t s' : Prop :=
  orphaned s' k t ∧ TaskEscrowStore s' !! k = TaskEscrowStore s !! k.

Lemma orphaned_frame s0 s s' k t :
  stays_orphaned s0 k t s → Tasks s' !! k = Tasks s !! k →
  TaskEscrowStore s' !! k = TaskEscrowStore s !! k →
  Pools s' !! task_pool t = Pools s !! task_pool t → NextPoolId s ≤ NextPoolId s' →
  stays_orphaned s0 k t s'.
Proof.
  intros ((Hk & Hst & Hp & Hlt) & He) HT1 HE HP HN. unfold stays_orphaned, orphaned.
  rewrite HT1, HE, HP. solve_facts.
Qed.

Lemma orphaned_fresh now s0 s k t :
  Inv T now s → stays_orphaned s0 k t s → k ≠ NextTaskId s.
Proof.
  intros I [[Hk _] _] ->. by rewrite (Tasks_fresh T now s (inv_tasks _ _ _ I)) in Hk.
Qed.

Lemma orphaned_pool s0 s k t pid p : stays_orphaned s0 k t s → Pools s !! pid = Some p → pid ≠ task_pool t.
Proof. intros [(_ & _ & Hp & _) _] Hq ->. congruence. Qed.

(** Closing another task leaves an orphan alone. *)
Lemma orphaned_close s0 s s' k t tid u u' p p' :
  stays_orphaned s0 k t s → Tasks s !! tid = Some u → queued u → Pools s !! task_pool u = Some p →
  closes s s' tid u u' p' →
  TaskEscrowStore s' = TaskEscrowStore s ∨ TaskEscrowStore s' = delete tid (TaskEscrowStore s) →
  stays_orphaned s0 k t s'.
Proof.
  intros Ho Hu Hq Hp Hcl HE. pose proof Ho as [(Hk & Hst & _) _].
  assert (tid ≠ k) as Hne by (intros ->; simplify_eq; by destruct Hq as [E|E]; rewrite E in Hst).
  eapply orphaned_frame; [exact Ho|..].
  - by rewrite (cl_tasks _ _ _ _ _ _ Hcl), lookup_insert_ne.
  - destruct HE as [->| ->]; [done|]. by rewrite lookup_delete_ne.
  - rewrite (cl_pools _ _ _ _ _ _ Hcl), lookup_insert_ne; [done|]. by eapply orphaned_pool.
  - destruct (cl_next _ _ _ _ _ _ Hcl). lia.
Qed.

Lemma orphaned_mark_failed now s0 s h l k t tid u to :
  Inv T now s → Tasks s !! tid = Some u → queued u → stays_orphaned s0 k t s →
  stays_orphaned s0 k t (mark_task_failed T tid to ((s, h), l)).2.1.1.
Proof.
  intros I Hu Hq Ho. destruct (queued_pool T now s tid u I Hu Hq) as (p & Hp & Hd).
  destruct (mark_task_failed_run T tid to u p s h l Hu ltac:(by destruct Hq as [->| ->]) Hp Hd ltac:(apply (cfg_deposits _ HT)))
    as (d & s1 & l1 & -> & Hcl & HR & HE & _). eapply orphaned_close; eauto.
Qed.

Lemma orphaned_finalize now s0 s h l k t tid u r hash :
  Inv T now s → Tasks s !! tid = Some u → status u = ProofSubmitted → proof_hash u = Some hash →
  stays_orphaned s0 k t s →
  stays_orphaned s0 k t (finalize_verification T now tid (task_pool u) r ((s, h), l)).2.1.1.
Proof.
  intros I Hu Hst Hh Ho. destruct (queued_pool T now s tid u I Hu ltac:(by right)) as (p & Hp & Hd).
  destruct (finalize_run T now tid u hash p r s h l Hu Hh Hp Hd ltac:(apply (cfg_deposits _ HT)))
    as (d & s1 & h1 & l1 & -> & Hcl & Hm). eapply orphaned_close; eauto; [by right|].
  destruct r; [left|right]; apply Hm.
Qed.

Lemma orphaned_dispatch now o c s0 s h l k t :
  call_typed c → Inv T now s → stays_orphaned s0 k t s →
  stays_orphaned s0 k t (dispatch T now o c ((s, h), l)).2.1.1.
Proof.
  intros Hty I Ho. apply (transactional_preserves (λ w, stays_orphaned s0 k t w.1.1)); [done|].
  intros [] [[s' h'] l'] Hrun. pose proof Ho as [(Hk & Hst & Hnone & Hlt) _].
  destruct c; cbn in Hty, Hrun |- *.
  - apply register_effect in Hrun as (p & HP & _ & _ & HN & _ & HT1 & _ & _ & _ & [_ HE] & _); [|done|apply Hty].
    eapply orphaned_frame; [exact Ho|by rewrite HT1|by rewrite HE|rewrite HP, lookup_insert_ne; [done|lia]|lia].
  - apply (update_config_effect T) in Hrun as (p & p' & Hp & (HP & _ & HN) & [HT1 _] & [_ HE] & _); [|apply I|apply Hty].
    eapply orphaned_frame; [exact Ho|by rewrite HT1|by rewrite HE| |lia].
    rewrite HP, lookup_insert_ne; [done|]. by eapply orphaned_pool.
  - apply deregister_effect in Hrun as (p & Hp & _ & _ & HP & _ & HN & HT1 & _ & _ & _ & _ & [_ HE] & _).
    eapply orphaned_frame; [exact Ho|by rewrite HT1|by rewrite HE| |lia].
    rewrite HP, lookup_delete_ne; [done|]. by eapply orphaned_pool.
  - apply (submit_task_effect T HT) in Hrun as (u & pid & p & sc & r & t' & e & _ & Hp & (HP & _ & HN) & _ & _ & HT1 & _ & _ & _ & _ & _ & _ & _ & HE & _); [|apply I].
    pose proof (orphaned_fresh now s0 s k t I Ho) as Hne.
    eapply orphaned_frame; [exact Ho|by rewrite HT1, lookup_insert_ne|by rewrite HE, lookup_insert_ne| |lia].
    rewrite HP, lookup_insert_ne; [done|]. by eapply orphaned_pool.
  - apply submit_proof_effect in Hrun as (u & p & Hu & Hc & _ & _ & _ & HT1 & _ & _ & _ & _ & (HP & _ & HN) & [_ HE] & _).
    eapply orphaned_frame; [exact Ho| |by rewrite HE|by rewrite HP|lia].
    rewrite HT1, lookup_insert_ne; [done|]. intros ->. congruence.
  - apply verify_proof_effect in Hrun as (u & t' & p & hash & _ & Hu & Hs' & Hhash & _ & _ & Hfin).
    pose proof (orphaned_finalize now s0 s h l k t tid t' result hash I Hu Hs' Hhash Ho) as Hf. by rewrite Hfin in Hf.
  - apply claim_reward_effect in Hrun as (u & p & r & e & l1 & Hu & _ & Hp & _ & _ & _ & _ & _ & _ & _ & HE & _ & (HP & _ & HN) & [HT1 _] & _).
    eapply orphaned_frame; [exact Ho|by rewrite HT1| |by rewrite HP|lia].
    rewrite HE, lookup_insert_ne; [done|]. intros ->. congruence.
  - apply (dispute_effect T HT) in Hrun as (u & r & s1 & l1 & Hu & _ & _ & _ & Hv & [= <- <- <-] & Hr); [|apply I].
    destruct r; cycle 1.
    { destruct Hr as ((HT1 & _ & _ & _ & _ & _ & HP) & _ & HE & _).
      assert (tid ≠ k) as Hne.
      { intros ->. destruct (ti_task _ _ _ (inv_tasks _ _ _ I) k u Hu) as (_ & _ & _ & _ & Hok).
        unfold task_ok in Hok. simplify_eq. rewrite Hst in Hok. congruence. }
      eapply orphaned_frame; [exact Ho|by rewrite HT1, lookup_insert_ne|by rewrite HE|..];
        destruct (Pools s !! task_pool u) eqn:Hp; cbn in HP; destruct HP as (HP & _ & HN); [|by rewrite HP|lia|lia].
      rewrite HP, lookup_insert_ne; [done|]. by eapply orphaned_pool. }
    destruct Hr as (p & d & Hp & (HT1 & _ & _ & _ & _ & _ & (HP & _ & HN)) & _ & HE & _).
    assert (tid ≠ k) as Hne by (intros ->; congruence).
    eapply orphaned_frame; [exact Ho|by rewrite HT1, lookup_insert_ne|by rewrite HE, lookup_delete_ne| |lia].
    rewrite HP, lookup_insert_ne; [done|]. by eapply orphaned_pool.
  - apply stake_effect in Hrun as (who & _ & _ & _ & _ & _ & _ & (HP & _ & HN) & [HT1 _] & [_ HE]).
    eapply orphaned_frame; [exact Ho|by rewrite HT1|by rewrite HE|by rewrite HP|lia].
  - apply unstake_effect in Hrun as (who & _ & _ & _ & _ & _ & _ & (HP & _ & HN) & [HT1 _] & [_ HE]).
    eapply orphaned_frame; [exact Ho|by rewrite HT1|by rewrite HE|by rewrite HP|lia].
Qed.

Lemma orphaned_step c c' s0 k t :
  step T c c' → Inv T c.1 c.2.1.1 → stays_orphaned s0 k t c.2.1.1 → stays_orphaned s0 k t c'.2.1.1.
Proof.
  intros Hstep I Ho. destruct Hstep as [c c' Hstep|]; [|done].
  destruct Hstep as [now [[s h] l] o c Hty Hfit|now [[s h] l]|now [[s h] l] u dims]; cbn [fst snd] in *.
  - by apply orphaned_dispatch.
  - apply (pool_Inv_later T _ (now + 1)) in I; [|lia].
    destruct (hook_run T HT (now + 1) (λ w, stays_orphaned s0 k t w.1.1)) with s h l as (rw & s' & h' & l' & -> & _ & ? & _); try done.
    + intros s1 h1 l1 k1 t1 I1 Hk1 Hst1. destruct (ti_task _ _ _ (inv_tasks _ _ _ I1) k1 t1 Hk1) as (_ & _ & _ & _ & Hok).
      unfold task_ok in Hok. rewrite Hst1 in Hok. destruct Hok as [[hash Hhash] _]. by eapply orphaned_finalize.
    + intros s1 h1 l1 k1 t1 I1 Hk1 Hq1. by eapply orphaned_mark_failed.
  - destruct (schedule_effect T HT now u dims s h l) as (s' & -> & [->|Hadd]); [done|].
    destruct Hadd as (p & q & t' & _ & HT1 & _ & _ & _ & _ & _ & _ & _ & _ & _ & _ & _ & _ & (HP & _ & HN) & [_ HE] & _).
    pose proof (orphaned_fresh now s0 s k t I Ho) as Hne.
    eapply orphaned_frame; [exact Ho|by cbn; rewrite HT1, lookup_insert_ne|by cbn; rewrite HE|by cbn; rewrite HP|cbn; lia].
Qed.

Lemma escrow_le_held now s k e :
  Inv T now s → TaskEscrowStore s !! k = Some e → claimed e = false →
  esc_reward e + esc_deposit e ≤ held s (esc_user e).
Proof.
  intros I He Hc. rewrite held_split.
  assert (0 ≤ pools_held s (esc_user e)).
  { apply msum_nonneg. intros q p Hp. destruct (pi_pool _ _ (inv_pools _ _ _ I) _ _ Hp) as (_ & (_ & _ & _ & ? & _) & _).
    unfold pool_owed, at_account. case_decide; lia. }
  assert (0 ≤ stakes_held s (esc_user e)).
  { apply msum_nonneg. intros q v Hv. pose proof (si_nonneg _ (inv_stakes _ _ _ I) _ _ Hv).
    unfold stake_owed, at_account. case_decide; lia. }
  enough (esc_reward e + esc_deposit e ≤ escrows_held s (esc_user e)) by lia.
  etrans; [|apply (msum_lookup_le (escrow_owed (esc_user e)) _ k e); [|done]].
  - unfold escrow_owed, at_account. by rewrite Hc, decide_True.
  - intros q x Hx. destruct (ei_escrow _ (inv_escrow _ _ _ I) _ _ Hx) as (? & ? & _).
    unfold escrow_owed, at_account. destruct (claimed x); [done|]. case_decide; lia.
Qed.

Lemma refused_unchanged now o c w :
  (∀ w', dispatch T now o c w ≠ (Ok tt, w')) →
  is_ok (dispatch T now o c w).1 = false ∧ (dispatch T now o c w).2 = w.
Proof.
  intros Hno. destruct (dispatch T now o c w) as [[[]|e] w'] eqn:Hrun; [by destruct (Hno w')|].
  split; [done|]. by apply transactional_Err in Hrun.
Qed.

Lemma orphaned_refused now' now o s h l k t :
  Inv T now' s → orphaned s k t →
  is_ok (dispatch T now o (ClaimReward k) ((s, h), l)).1 = false ∧
  is_ok (dispatch T now o (DisputeVerification k) ((s, h), l)).1 = false ∧
  (dispatch T now o (ClaimReward k) ((s, h), l)).2 = ((s, h), l) ∧
  (dispatch T now o (DisputeVerification k) ((s, h), l)).2 = ((s, h), l).
Proof.
  intros I (Hk & Hst & Hp & _).
  destruct (refused_unchanged now o (ClaimReward k) ((s, h), l)) as [-> ->].
  { intros [[s' h'] l'] Hrun%transactional_Ok. cbn iota in Hrun.
    apply claim_reward_effect in Hrun as (u & p & _ & _ & _ & Hu & _ & Hpu & _). congruence. }
  destruct (refused_unchanged now o (DisputeVerification k) ((s, h), l)) as [-> ->]; [|done].
  intros w' Hrun%transactional_Ok. cbn iota in Hrun.
  apply (dispute_effect T HT) in Hrun as (u & r & s1 & l1 & Hu & _ & _ & _ & Hv & _ & Hr); [|apply I].
  destruct (ti_task _ _ _ (inv_tasks _ _ _ I) k u Hu) as (_ & _ & _ & _ & Hok). simplify_eq.
  unfold task_ok in Hok. rewrite Hst in Hok. destruct r; [|congruence]. destruct Hr as (p & d & Hp' & _). congruence.
Qed.

(** ** Claims *)

(** C8: no step promises more than is reserved: if the reserved balances cover
    the unclaimed escrows, the pools' deposits and the stakes, on top of what
    the completion handler and the rest of the runtime hold, they still do
    after any call (a dispute of an already claimed task apart), after the
    hook with its dropped errors, and after a failed or successful scheduling
    request of another pallet. *)
Theorem pool_steps_solvent ext now w :
  reachable T (now, w) → funded ext now w →
  (∀ o c, call_typed c → fits w.1.1 w.2 c → disputes_unclaimed w.1.1 c →
     funded ext now (dispatch T now o c w).2) ∧
  (∀ now', now ≤ now' → funded ext now' w → funded ext now' (on_initialize T now' w).2) ∧
  (∀ u dims, solvent ext (schedule_compute T now u dims w).2).
Proof.
  intros I%(pool_Inv_reachable T HT) Hf. cbn [fst snd] in I. split_and!.
  - intros o c Hty Hfit Hdis. by apply funded_dispatch.
  - intros now' Hle Hf'. apply funded_hook; [|done]. by apply (pool_Inv_later T now).
  - intros u dims. destruct Hf. by apply solvent_schedule.
Qed.

(** C9: a successful claim pays exactly: the pool's owner gets the escrowed
    reward out of the user's reserve, the task deposit returns to the user and
    no other balance changes; only the pool's owner claims, only a completed
    task, only once, and what was held for the task is gone from the reserve. *)
Theorem pool_claim_pays_exactly ext now o k s h l s' h' l' :
  (∀ a, 0 ≤ ext a) → Inv T now s → solvent ext (s, l) →
  dispatch T now o (ClaimReward k) ((s, h), l) = (Ok tt, ((s', h'), l')) →
  ∃ t p e, Tasks s !! k = Some t ∧ status t = Completed ∧ Pools s !! task_pool t = Some p ∧
    o = Signed (owner p) ∧ TaskEscrowStore s !! k = Some e ∧ claimed e = false ∧
    user t = esc_user e ∧ reward_amount t = Some (esc_reward e) ∧
    moves l l' (λ a, at_account (owner p) (esc_reward e) a + at_account (user t) (esc_deposit e) a)
      (at_account (user t) (- (esc_reward e + esc_deposit e))) ∧
    TaskEscrowStore s' = <[k := e <| claimed := true |>]> (TaskEscrowStore s).
Proof.
  intros Hext I Hs Hrun. apply transactional_Ok in Hrun. cbn iota in Hrun.
  apply (claim_moves now) in Hrun as (t & p & e & Hk & Hst & Hp & -> & He & Hc & Hu & Hrw & Hr & Hd & -> & Hm & HE & _); [|done].
  exists t, p, e. split_and!; try done. rewrite Hu. rewrite Z.min_l in Hm; [done|].
  enough (esc_reward e + esc_deposit e ≤ reserved_balance l (esc_user e)) by lia.
  apply (solvent_covers ext s); [done| |done]. by apply (escrow_le_held now s k e).
Qed.

(** A pool's owner who deregisters before claiming strands the user's
    escrow: from then on, whatever happens, the task stays completed and its
    escrow stays as it is, every claim and every dispute of it fails and
    changes nothing. *)
Theorem pool_deregistered_locks_escrow c c' k t :
  reachable T c → orphaned c.2.1.1 k t → rtc (step T) c c' →
  orphaned c'.2.1.1 k t ∧ TaskEscrowStore c'.2.1.1 !! k = TaskEscrowStore c.2.1.1 !! k ∧
  ∀ now o, is_ok (dispatch T now o (ClaimReward k) c'.2).1 = false ∧
    is_ok (dispatch T now o (DisputeVerification k) c'.2).1 = false ∧
    (dispatch T now o (ClaimReward k) c'.2).2 = c'.2 ∧
    (dispatch T now o (DisputeVerification k) c'.2).2 = c'.2.
Proof.
  intros Hreach Ho Hsteps.
  assert (Inv T c'.1 c'.2.1.1 ∧ stays_orphaned c.2.1.1 k t c'.2.1.1) as [I Hst].
  { revert Hsteps. apply (rtc_invariant (step T) (λ c', Inv T c'.1 c'.2.1.1 ∧ stays_orphaned c.2.1.1 k t c'.2.1.1)).
    - intros a b Hab [I Hs]. split; [by eapply pool_Inv_step|by eapply orphaned_step].
    - split; [by apply (pool_Inv_reachable T HT)|done]. }
  destruct c' as [now' [[s h] l]]. cbn [fst snd] in *. destruct Hst as [Ho' HE]. split_and!; [done|done|].
  intros now o. by eapply (orphaned_refused now').
Qed.
End theory.

(** ** A run with the attestation pallet as the completion handler

    Account 1 runs a pool at 50 a task, account 5 submits a task (reward 400,
    deposit 10) and stakes 300; the proof is verified at block 3. The reward is
    claimed at block 4 and disputed at block 5; or the pool is deregistered. *)
Module Demo.
#[local] Existing Instances X402.settler X402.settler_laws X402.custodian Attestation.custodian perbill perbill_laws.
Abbreviation T := PoolScoring.Demo.T.
Abbreviation AT := Attestation.Demo.T.
Abbreviation Handler := (Attestation.State * X402.State)%type.
#[local] Instance handler : TaskCompletionHandler Ledger.t Handler := Attestation.handler AT.
#[local] Instance handler_laws : TaskCompletionHandlerLaws Ledger.t Handler :=
  Attestation.handler_laws AT Attestation.Demo.att_T_typed.
Definition T_typed : config_typed T := PoolScoring.Demo.pool_T_typed.

Abbreviation World := ((State * Handler) * Ledger.t)%type.
Definition start : World :=
  ((genesis, (Attestation.genesis, X402.genesis)), {[1 := (1000, 0); 5 := (1000, 0)]}%N).
Definition run (now : BlockNumber) (who : AccountId) (c : Call) (w : World) : World :=
  (dispatch T now (Signed who) c w).2.
Definition the_task : Call := SubmitTask {| dim_m := 1000; dim_n := 1000; dim_k := 8 |} Normal None.
Definition pooled : World := run 0 1 (RegisterPool [] 64 false 100 50) start.
Definition submitted : World := run 0 5 the_task pooled.
Definition proved : World := run 0 1 (SubmitProof 0 77%N) submitted.
Definition completed : World := run 0 5 (VerifyProof 0 true) proved.
Definition staked : World := run 0 5 (StakeToPool 0 300) completed.
Definition paid : World := run 0 1 (ClaimReward 0) staked.
Definition disputed_late : World := run 0 5 (DisputeVerification 0) paid.
Definition left_behind : World := run 0 1 (DeregisterPool 0) completed.
#[local] Strategy 1000 [start pooled submitted proved completed staked paid disputed_late left_behind].

Definition ok_call (w : World) (c : Call) : Prop := call_typed c ∧ fits w.1.1 w.2 c.

Lemma run_reachable who c w : ok_call w c → reachable T (0, w) → reachable T (0, run 0 who c w).
Proof.
  intros [Hty Hfit] (h & l & Hr). exists h, l. eapply rtc_r; [exact Hr|]. by apply step_pallet, step_call.
Qed.
Lemma run_ok who c w :
  is_ok (dispatch T 0 (Signed who) c w).1 = true →
  dispatch T 0 (Signed who) c w = (Ok tt, run 0 who c w).
Proof. unfold run. by destruct (dispatch T 0 (Signed who) c w) as [[[]|] ?]. Qed.

Definition good (w : World) : Prop := reachable T (0, w) ∧ funded (λ _, 0) 0 w.
Lemma run_good who c w : ok_call w c → disputes_unclaimed w.1.1 c → good w → good (run 0 who c w).
Proof.
  intros Hok Hd [Hr Hf]. split; [by apply run_reachable|]. destruct Hok.
  apply (funded_dispatch T T_typed); try done. exact (pool_Inv_reachable T T_typed _ Hr).
Qed.
Lemma start_good : good start.
Proof.
  split; [by exists (Attestation.genesis, X402.genesis), start.2|].
  split; [apply Attestation.att_Inv_genesis|]. intros a. apply Ledger.nonneg.
Qed.

(** No account of the ledger owns 2^128 - 1 units. *)
Lemma ledger_small (l : Ledger.t) :
  map_Forall (λ _ e, Z.of_N e.1 < U128_MAX) l → ∀ a, free_balance l a < U128_MAX.
Proof.
  intros Hl a. cbn. unfold Ledger.free, Ledger.entry. destruct (l !! a) as [e|] eqn:E; cbn; [by apply (Hl a)|done].
Qed.

Lemma submitted_good : good submitted.
Proof.
  apply run_good; [split| |apply run_good; [..|exact start_good]]; try done.
  change (∀ a, free_balance pooled.2 a < U128_MAX).
  apply ledger_small. apply (bool_decide_unpack _). vm_compute. done.
Qed.
Lemma completed_good : good completed.
Proof. do 2 (apply run_good; [done..|]). exact submitted_good. Qed.
Lemma staked_good : good staked.
Proof.
  apply run_good; [split; [done|]|done|exact completed_good].
  change (total_pool_stake completed.1.1 0 + 300 ≤ U128_MAX). vm_compute. done.
Qed.
Lemma paid_good : good paid.
Proof. apply run_good; [done..|exact staked_good]. Qed.

Lemma left_behind_good : good left_behind.
Proof. apply run_good; [done..|exact completed_good]. Qed.

Lemma pool_reachable_invariant_witness :
  Inv T 0 staked.1.1 ∧ total_pool_stake staked.1.1 0 = 300.
Proof.
  split; [|vm_compute; reflexivity].
  exact (pool_reachable_invariant T T_typed (0, staked) (proj1 staked_good)).
Defined.

(** At block 11 the proof submitted at block 0 is approved, at block 101 a task
    without a proof has failed. *)
Lemma pool_hook_decides_exactly_witness :
  (∃ rw w', on_initialize T 11 proved = (Ok rw, w') ∧
    Tasks w'.1.1 !! 0 = verdict true <$> Tasks proved.1.1 !! 0) ∧
  ∃ rw w', on_initialize T 101 submitted = (Ok rw, w') ∧
    Tasks w'.1.1 !! 0 = verdict false <$> Tasks submitted.1.1 !! 0.
Proof.
  assert (good proved) as Hp by (apply run_good; [done..|exact submitted_good]). split.
  - destruct (pool_hook_decides_exactly T T_typed 11 (0, proved) (proj1 Hp)) as (rw & w' & Hrun & Hall); [done|].
    exists rw, w'. split; [exact Hrun|]. rewrite Hall. vm_compute. reflexivity.
  - destruct (pool_hook_decides_exactly T T_typed 101 (0, submitted) (proj1 submitted_good)) as (rw & w' & Hrun & Hall); [done|].
    exists rw, w'. split; [exact Hrun|]. rewrite Hall. vm_compute. reflexivity.
Defined.

Lemma pool_task_lifecycle_witness : advances submitted.1.1 proved.1.1.
Proof.
  apply (pool_task_lifecycle T T_typed (0, submitted) (0, proved)).
  - exact (proj1 submitted_good).
  - apply step_pallet. by apply (step_call T 0 submitted (Signed 1%N) (SubmitProof 0 77%N)).
Defined.

Lemma pool_steps_solvent_witness :
  funded (λ _, 0) 0 paid ∧ funded (λ _, 0) 200 (on_initialize T 200 submitted).2.
Proof.
  destruct (pool_steps_solvent T T_typed (λ _, 0) 0 staked (proj1 staked_good) (proj2 staked_good)) as [H1 _].
  destruct (pool_steps_solvent T T_typed (λ _, 0) 0 submitted (proj1 submitted_good) (proj2 submitted_good)) as (_ & H2 & _).
  split; [apply (H1 (Signed 1%N) (ClaimReward 0)); done|].
  apply H2; [lia|]. destruct (proj2 submitted_good) as [[Ha Hr] Hs]. split; [|exact Hs].
  apply (Attestation.att_Inv_later AT 0 200); [lia|]. split; [exact Ha|exact Hr].
Defined.

Lemma pool_claim_pays_exactly_witness :
  dispatch T 0 (Signed 1%N) (ClaimReward 0) staked = (Ok tt, paid) ∧
  ∃ t p e, Tasks staked.1.1 !! 0 = Some t ∧ owner p = 1%N ∧
    moves staked.2 paid.2 (λ a, at_account (owner p) (esc_reward e) a + at_account (user t) (esc_deposit e) a)
      (at_account (user t) (- (esc_reward e + esc_deposit e))).
Proof.
  assert (dispatch T 0 (Signed 1%N) (ClaimReward 0) staked = (Ok tt, paid)) as Hrun
    by (apply run_eta; vm_compute; reflexivity).
  split; [exact Hrun|].
  destruct (pool_claim_pays_exactly T (λ a, 0 + held staked.1.2 a) 0 (Signed 1%N) 0 staked.1.1 staked.1.2 staked.2
    paid.1.1 paid.1.2 paid.2) as (t & p & e & H1 & _ & _ & H2 & _ & _ & _ & _ & H3 & _).
  - intros a. change (0 ≤ 0 + (held staked.1.2.1 a + held staked.1.2.2 a)).
    destruct (proj2 staked_good) as [[Ha _] _].
    assert (staked.1.2.2 = X402.genesis) as -> by (vm_compute; reflexivity).
    assert (held X402.genesis a = 0) as -> by apply msum_empty.
    assert (0 ≤ held staked.1.2.1 a); [|lia]. apply msum_nonneg. intros k x Hx.
    destruct (Attestation.inv_att _ _ _ Ha k x Hx) as (_ & _ & ? & _). unfold Attestation.owed. case_match; lia.
  - exact (pool_Inv_reachable T T_typed _ (proj1 staked_good)).
  - apply solvent_fst. rewrite <-!surjective_pairing. exact (proj2 (proj2 staked_good)).
  - rewrite <-!surjective_pairing. exact Hrun.
  - exists t, p, e. split_and!; [exact H1|congruence|exact H3].
Defined.

Lemma pool_deregistered_locks_escrow_witness :
  ∃ t e, orphaned left_behind.1.1 0 t ∧ TaskEscrowStore left_behind.1.1 !! 0 = Some e ∧
    is_ok (dispatch T 9 (Signed 1%N) (ClaimReward 0) left_behind).1 = false.
Proof.
  destruct (Tasks left_behind.1.1 !! 0) as [t|] eqn:Ht; [|vm_compute in Ht; congruence].
  destruct (TaskEscrowStore left_behind.1.1 !! 0) as [e|] eqn:He; [|vm_compute in He; congruence].
  assert (orphaned left_behind.1.1 0 t) as Ho.
  { split; [exact Ht|]. vm_compute in Ht. injection Ht as <-. split_and!; vm_compute; reflexivity. }
  exists t, e. split; [exact Ho|]. split; [reflexivity|].
  destruct (pool_deregistered_locks_escrow T T_typed (0, left_behind) (0, left_behind) 0 t) as (_ & _ & Hno).
  - exact (proj1 left_behind_good).
  - exact Ho.
  - apply rtc_refl.
  - exact (proj1 (Hno 9 (Signed 1%N))).
Defined.

(** A dispute filed after the reward was claimed succeeds and releases the
    escrow a second time: here the user, who had been paid back the deposit and
    whose reward had gone to the pool's owner, gets out of the reserve 300
    units that back the stake, so the reserve no longer covers what the pallet
    records. *)
Theorem pool_dispute_after_claim_overdraws :
  solvent (λ _, 0) paid ∧
  dispatch T 0 (Signed 5%N) (DisputeVerification 0) paid = (Ok tt, disputed_late) ∧
  pool_stake disputed_late.1.1 0 5%N = 300 ∧ reserved_balance disputed_late.2 5%N = 0 ∧
  ¬ solvent (λ _, 0) disputed_late.
Proof.
  split; [exact (proj2 (proj2 paid_good))|].
  split; [apply (run_ok 5%N (DisputeVerification 0) paid); vm_compute; reflexivity|].
  split; [vm_compute; reflexivity|]. split; [vm_compute; reflexivity|].
  intros Hs. specialize (Hs 5%N). vm_compute in Hs. by apply Hs.
Qed.
End Demo.
End PoolMoney.
