(* ===== verification/EvmInterface.v ===== *)
(** * The EVM side of the runtime

    What a precompiled contract of src/runtime/src/precompiles sees: the call
    ([Handle]), the arguments encoded by the Ethereum ABI, the selector of a
    function, the gas, and how it fails. The ABI (crate ethabi), Keccak-256, the
    hex decoder, the mapping of addresses to accounts and the cost of a weight
    are not in the repository: they are the record [Host], with what the code
    relies on in [HostLaws]. Also the pallet eth-precompile-whitelist, which says
    who may call a precompile (src/pallets/eth-precompile-whitelist/src/lib.rs). *)
From Stdlib Require Import ZArith Lia Strings.Byte Strings.String.
From stdpp Require Import base gmap fin_maps list numbers.
From S2P Require Import Prelude Currency.

Module Evm.
Abbreviation H160 := N (only parsing).

(** ** Arguments *)
Inductive ParamType := PAddress | PBytes | PString | PUint (bits : Z).
Inductive Token := TAddress (a : H160) | TBytes (b : bytes) | TString (s : bytes) | TUint (v : Z) | TBool (b : bool).
Definition into_address (t : Token) : option H160 := match t with TAddress a => Some a | _ => None end.
Definition into_bytes (t : Token) : option bytes := match t with TBytes b => Some b | _ => None end.
Definition into_string (t : Token) : option bytes := match t with TString s => Some s | _ => None end.
Definition into_uint (t : Token) : option Z := match t with TUint v => Some v | _ => None end.

Definition U256_MAX : Z := 2 ^ 256 - 1.
(** A word of the encoding has 256 bits, whatever the width of its type. *)
Definition has_type (p : ParamType) (t : Token) : Prop :=
  match p, t with
  | PAddress, TAddress _ | PBytes, TBytes _ | PString, TString _ => True
  | PUint _, TUint v => 0 ≤ v ≤ U256_MAX
  | _, _ => False
  end.

Record Host := {
  abi_decode : list ParamType → bytes → option (list Token);
  abi_encode : list Token → bytes;
  keccak256 : bytes → bytes;
  hex_account : bytes → option AccountId;
  into_account_id : H160 → AccountId;
  (** The gas of a number of storage reads and writes, and of a plain weight. *)
  db_gas : Z → Z → Z;
  parts_gas : Z → Z;
}.
Record HostLaws (T : Host) : Prop := {
  decode_typed ts b toks : abi_decode T ts b = Some toks → Forall2 has_type ts toks;
}.

(** ** Calls and their failures *)
Record Handle := { code_address : H160; context_address : H160; caller : H160; input : bytes }.

(** Why a call is reverted: the texts the code puts in the output. *)
Inductive Reason :=
| InvalidInput | InvalidSelector | DecodeFailed | BadParam | InvalidAddress | InvalidAmount
| NotFound | CallFailed | DelegateCalled | NotInWhitelist.
Inductive Failure := Revert (why : Reason) | OutOfGas | Panics.

(** Big-endian numbers, as [u32::from_be_bytes]. *)
Definition from_be_bytes (b : bytes) : Z := foldl (λ v x, 256 * v + Z.of_N (Byte.to_N x)) 0 b.
Definition str (s : String.string) : bytes := String.list_byte_of_string s.
#[global] Arguments str s%_string.

Section calls.
Context {W : Type} (T : Host).
Abbreviation PM := (M (Z * W) Failure).

Definition get_function_selector (s : bytes) : Z := from_be_bytes (take 4 (keccak256 T s)).

(** The function of the input among those of the contract, each with its
    signature. *)
Definition selected {A} (variants : list (bytes * A)) (h : Handle) : PM A :=
  ensure (Nat.leb 4 (length (input h))) (Revert InvalidInput);;
  let selector := from_be_bytes (take 4 (input h)) in
  ok_or (snd <$> List.find (λ v, get_function_selector v.1 =? selector) variants) (Revert InvalidSelector).

Definition decode (types : list ParamType) (h : Handle) : PM (list Token) :=
  ok_or (abi_decode T types (drop 4 (input h))) (Revert DecodeFailed).
(** [param[n].clone().into_..().ok_or_else(..)?]. *)
Definition arg {A} (params : list Token) (n : nat) (into : Token → option A) : PM A :=
  match params !! n with
  | Some t => ok_or (into t) (Revert BadParam)
  | None => fail Panics
  end.
(** [U256::as_u64] and [U256::as_u32] panic when the number does not fit. *)
Definition as_uint (max v : Z) : PM Z := if v <=? max then mret v else fail Panics.
Definition uint_arg (params : list Token) (n : nat) (max : Z) : PM Z :=
  v ← arg params n into_uint;
  as_uint max v.

Definition record_cost (cost : Z) : PM unit := λ w,
  if cost <=? w.1 then (Ok tt, (w.1 - cost, w.2)) else (Err OutOfGas, w).
Definition record_db (reads writes : Z) : PM unit := record_cost (db_gas T reads writes).
Definition record_parts (weight : Z) : PM unit := record_cost (parts_gas T weight).

(** A call of a pallet, whose error reverts the call of the contract; reading
    a pallet's storage. *)
Definition on_pallet {V E A} (get : W → V) (put : V → W → W) (m : M V E A) : PM A := λ w,
  let r := m (get w.2) in
  (match r.1 with Ok a => Ok a | Err _ => Err (Revert CallFailed) end, (w.1, put r.2 w.2)).
Definition reads {A} (f : W → A) : PM A := gets (λ w, f w.2).
(** The output of a call. *)
Definition returns (tokens : list Token) : PM bytes := mret (abi_encode T tokens).
Definition or_revert {E A} (r : result E A) : PM A :=
  match r with Ok a => mret a | Err _ => fail (Revert CallFailed) end.
End calls.

(** ** eth-precompile-whitelist *)
Record Whitelist := { PrecompileWhitelist : gmap H160 (list H160); events : list (H160 * list H160) }.
#[export] Instance Whitelist_eta : RecordEta Whitelist := λ w,
  Build_Whitelist (PrecompileWhitelist w) (events w).
Inductive Error := WhitelistExceedsLimit.
Definition whitelist_of (w : Whitelist) (precompile : H160) : list H160 :=
  default [] (PrecompileWhitelist w !! precompile).

Definition set_precompile_whitelist (WhitelistLimit : Z) (origin : Origin) (precompile : H160)
    (whitelist : list H160) : M Whitelist (DispatchError Error) unit :=
  ensure_root origin;;
  ensure (Z.of_nat (length whitelist) <=? WhitelistLimit) (Module WhitelistExceedsLimit);;
  modify (λ w, w <| PrecompileWhitelist ::= <[precompile := whitelist]> |>);;
  modify (λ w, w <| events ::= λ es, es ++ [(precompile, whitelist)] |>).
End Evm.
