(* ===== verification/Precompiles.v ===== *)
(** * The precompiled contracts of the runtime

    src/runtime/src/precompiles: the contracts through which EVM programs use the
    pallets, and the set that routes a call to them. Their state is a runtime
    with the storage of the pallets they read and call. *)
From Stdlib Require Import ZArith Lia Strings.Byte Strings.String.
From stdpp Require Import base gmap fin_maps list numbers.
From S2P Require Import Prelude Currency Interfaces Price TaskMode ZkCompute RentalTypes RentalInterfaces RentMachine X402 Attestation ComputePool EvmInterface.

Module Precompiles.
Import (hints) PriceOcw X402.
Import Evm.

(** ** dlc-price-ocw

    A copy of dbc-price-ocw (its storage is [PriceOcw.State]) with another
    conversion. *)
Definition get_dlc_price (s : PriceOcw.State) : option Balance :=
  avg ← PriceOcw.AvgPrice s; Some (saturated_into U128_MAX avg).
Definition get_dlc_amount_by_value (s : PriceOcw.State) (value : Z) : option Balance :=
  dlc_price ← PriceOcw.AvgPrice s;
  product ← checked_mul U128_MAX (saturated_into U128_MAX value) ONE_DBC;
  checked_div product (saturated_into U128_MAX dlc_price).

(** ** The runtime *)
Record Runtime (RT L : Type) := {
  whitelist : Whitelist;
  dbc_price : PriceOcw.State;
  dlc_price : PriceOcw.State;
  rentals : RentMachine.State;
  registry : RT;
  tasks : TaskMode.State;
  zk : ZkCompute.State;
  pools : Scheduler.State;
  agents : Attestation.State;
  payments : X402.State;
  ledger : L;
}.
#[global] Arguments Build_Runtime {RT L}.
#[global] Arguments whitelist {RT L}.
#[global] Arguments dbc_price {RT L}.
#[global] Arguments dlc_price {RT L}.
#[global] Arguments rentals {RT L}.
#[global] Arguments registry {RT L}.
#[global] Arguments tasks {RT L}.
#[global] Arguments zk {RT L}.
#[global] Arguments pools {RT L}.
#[global] Arguments agents {RT L}.
#[global] Arguments payments {RT L}.
#[global] Arguments ledger {RT L}.
#[export] Instance Runtime_eta {RT L} : RecordEta (Runtime RT L) := λ r,
  Build_Runtime (whitelist r) (dbc_price r) (dlc_price r) (rentals r) (registry r) (tasks r) (zk r)
    (pools r) (agents r) (payments r) (ledger r).

(** The signatures of the functions. *)
Inductive DBCPriceSelector := GetDBCPrice | GetDBCAmountByValue.
Inductive DLCPriceSelector := GetDLCPrice | GetDLCAmountByValue.
Inductive MachineInfoSelector :=
| GetMachineCalcPoint | GetMachineCPURate | GetMachineGPUCount | GetRentEndAt | IsMachineOwner
| GetDLCMachineRentFee | GetDBCMachineRentFee | GetUSDTMachineRentFee | GetDLCRentFeeByCalcPoint
| GetMachineGPUTypeAndMem.
Inductive AgentTaskSelector := CreateTaskOrder | QueryTaskStatus | GetModelPrice | RegisterNode.
Inductive ZkComputeSelector := QueryTask | ClaimReward.
Inductive ComputePoolSelector := QueryPool | QueryPoolTask.
Inductive AttestationSelector := QueryNode | Heartbeat.
Inductive X402Selector := QueryPaymentIntent | QuerySettlementReceipt.

Section precompiles.
Context {RT L : Type} `{!ReservableCurrency L} `{!RTOps L RT, !RentPrice RT}.
(** The rational parts of task-mode (Percent) and of rent-machine (Perbill). *)
Context {Q P : PerThing}.
Context (T : Host) (task_config : TaskMode.Config) (zk_config : ZkCompute.Config) (agent_config : Attestation.Config) (now : BlockNumber).
Abbreviation Runtime := (Runtime RT L).
Abbreviation PM := (M (Z * Runtime) Failure).

Definition on_tasks {A} (m : M (TaskMode.State * L) (DispatchError TaskMode.Error) A) : PM A :=
  on_pallet (λ r, (tasks r, ledger r)) (λ v r, r <| tasks := v.1 |> <| ledger := v.2 |>) m.
Definition on_zk {A} (m : M (ZkCompute.State * L) (DispatchError ZkCompute.Error) A) : PM A :=
  on_pallet (λ r, (zk r, ledger r)) (λ v r, r <| zk := v.1 |> <| ledger := v.2 |>) m.
Definition on_agents {A}
    (m : M ((Attestation.State * X402.State) * L) (DispatchError Attestation.Error) A) : PM A :=
  on_pallet (λ r, ((agents r, payments r), ledger r))
    (λ v r, r <| agents := v.1.1 |> <| payments := v.1.2 |> <| ledger := v.2 |>) m.
Definition on_balances {A} (m : M (unit * L) unit A) : PM A :=
  on_pallet (λ r, (tt, ledger r)) (λ v r, r <| ledger := v.2 |>) m.

(** ** bridge.rs *)
Definition strip_prefix (p s : bytes) : option bytes :=
  if bool_decide (take (length p) s = p) then Some (drop (length p) s) else None.

Definition bridge_transfer (h : Handle) : PM bytes :=
  param ← decode T [PAddress; PString; PUint 256] h;
  from ← arg param 0 into_address;
  let from := into_account_id T from in
  to ← arg param 1 into_string;
  let to := default to (strip_prefix (str "0x") to) in
  ensure (Nat.eqb (length to) 64) (Revert InvalidAddress);;
  to ← ok_or (hex_account T to) (Revert InvalidAddress);
  origin_amount ← arg param 2 into_uint;
  let amount := origin_amount / 1000 in
  ensure (origin_amount =? saturating_mul U256_MAX amount 1000) (Revert InvalidAmount);;
  amount ← ok_or (try_from U128_MAX amount) (Revert InvalidAmount);
  on_balances (m_transfer from to amount AllowDeath tt);;
  record_db T 2 1;;
  mret [].
Definition bridge (h : Handle) : PM bytes :=
  selected T [(str "transfer(address,string,uint256)", tt)] h;;
  bridge_transfer h.

(** ** dbc_price.rs, dlc_price.rs *)
Definition dbc_price_execute (h : Handle) : PM bytes :=
  selector ← selected T [(str "getDBCPrice()", GetDBCPrice);
                         (str "getDBCAmountByValue(uint256)", GetDBCAmountByValue)] h;
  match selector with
  | GetDBCPrice =>
      origin_value ← reads (λ r, default 0 (PriceOcw.get_dbc_price (dbc_price r)));
      let value := saturating_mul U256_MAX origin_value 1000 in
      record_db T 1 0;;
      returns T [TUint value]
  | GetDBCAmountByValue =>
      param ← decode T [PUint 256] h;
      origin_value ← arg param 0 into_uint;
      value ← ok_or (try_from U64_MAX origin_value) (Revert InvalidAmount);
      amount ← reads (λ r, default 0 (PriceOcw.get_dbc_amount_by_value (dbc_price r) value));
      record_db T 1 0;;
      returns T [TUint amount]
  end.
Definition dlc_price_execute (h : Handle) : PM bytes :=
  selector ← selected T [(str "getDLCPrice()", GetDLCPrice);
                         (str "getDLCAmountByValue(uint256)", GetDLCAmountByValue)] h;
  match selector with
  | GetDLCPrice =>
      origin_value ← reads (λ r, default 0 (get_dlc_price (dlc_price r)));
      record_db T 1 0;;
      returns T [TUint origin_value]
  | GetDLCAmountByValue =>
      param ← decode T [PUint 256] h;
      origin_value ← arg param 0 into_uint;
      value ← ok_or (try_from U64_MAX origin_value) (Revert InvalidAmount);
      amount ← reads (λ r, default 0 (get_dlc_amount_by_value (dlc_price r) value));
      record_db T 1 0;;
      returns T [TUint amount]
  end.

(** ** machine_info.rs *)

(** The four queries of one machine, and the three of the fee of renting it. *)
Definition query_machine (h : Handle) (f : RT → bytes → list Token) : PM bytes :=
  param ← decode T [PString] h;
  machine_id ← arg param 0 into_string;
  answer ← reads (λ r, f (registry r) machine_id);
  record_db T 1 0;;
  returns T answer.
Definition query_rent_fee (h : Handle)
    (fee : RT → bytes → BlockNumber → Z → result RentMachine.Error Z) : PM bytes :=
  param ← decode T [PString; PUint 256; PUint 256] h;
  machine_id ← arg param 0 into_string;
  rent_duration ← uint_arg param 1 U64_MAX;
  rent_gpu_count ← uint_arg param 2 U32_MAX;
  answer ← reads (λ r, fee (registry r) machine_id (saturated_into U32_MAX rent_duration) rent_gpu_count);
  rent_fee ← or_revert answer;
  record_db T 1 0;;
  returns T [TUint rent_fee].

Definition get_rent_end_at (h : Handle) : PM bytes :=
  param ← decode T [PString; PUint 256] h;
  machine_id ← arg param 0 into_string;
  rent_id ← uint_arg param 1 U64_MAX;
  answer ← reads (λ r, RentMachine.get_rent_end_at (rentals r) (registry r) machine_id rent_id);
  end_at ← or_revert answer;
  record_db T 1 0;;
  returns T [TUint (saturated_into U64_MAX end_at)].
Definition is_machine_owner (h : Handle) : PM bytes :=
  param ← decode T [PString; PAddress] h;
  machine_id ← arg param 0 into_string;
  evm_address ← arg param 1 into_address;
  answer ← reads (λ r, RentMachine.is_machine_owner (rentals r) (registry r) machine_id evm_address);
  is_owner ← or_revert answer;
  record_db T 1 0;;
  returns T [TBool is_owner].
Definition get_dlc_rent_fee_by_calc_point (h : Handle) : PM bytes :=
  param ← decode T [PUint 256; PUint 256; PUint 256; PUint 256] h;
  calc_point ← uint_arg param 0 U64_MAX;
  rent_duration ← uint_arg param 1 U64_MAX;
  rent_gpu_count ← uint_arg param 2 U32_MAX;
  total_gpu_count ← uint_arg param 3 U32_MAX;
  answer ← reads (λ r, RentMachine.get_dlc_rent_fee_by_calc_point (registry r) calc_point
    (saturated_into U32_MAX rent_duration) rent_gpu_count total_gpu_count);
  rent_fee ← or_revert answer;
  record_db T 1 0;;
  returns T [TUint rent_fee].

Definition machine_info_execute (h : Handle) : PM bytes :=
  selector ← selected T
    [(str "getMachineCalcPoint(string)", GetMachineCalcPoint);
     (str "getMachineCPURate(string)", GetMachineCPURate);
     (str "getMachineGPUCount(string)", GetMachineGPUCount);
     (str "getRentEndAt(string,uint256)", GetRentEndAt);
     (str "isMachineOwner(string,address)", IsMachineOwner);
     (str "getDLCMachineRentFee(string,uint256,uint256)", GetDLCMachineRentFee);
     (str "getDBCMachineRentFee(string,uint256,uint256)", GetDBCMachineRentFee);
     (str "getUSDTMachineRentFee(string,uint256,uint256)", GetUSDTMachineRentFee);
     (str "getDLCRentFeeByCalcPoint(uint256,uint256,uint256,uint256)", GetDLCRentFeeByCalcPoint);
     (str "getMachineGPUTypeAndMem(string)", GetMachineGPUTypeAndMem)] h;
  match selector with
  | GetMachineCalcPoint => query_machine h (λ r m, [TUint (RentMachine.get_machine_calc_point r m)])
  | GetMachineGPUTypeAndMem => query_machine h (λ r m,
      let '(gpu_type, gpu_mem) := RentMachine.get_machine_gpu_type_and_mem r m in [TBytes gpu_type; TUint gpu_mem])
  | GetMachineCPURate => query_machine h (λ r m, [TUint (RentMachine.get_machine_cpu_rate r m)])
  | GetMachineGPUCount => query_machine h (λ r m, [TUint (RentMachine.get_machine_gpu_num r m)])
  | GetRentEndAt => get_rent_end_at h
  | IsMachineOwner => is_machine_owner h
  | GetDLCMachineRentFee => query_rent_fee h RentMachine.get_dlc_machine_rent_fee
  | GetDBCMachineRentFee => query_rent_fee h RentMachine.get_dbc_machine_rent_fee
  | GetUSDTMachineRentFee => query_rent_fee h RentMachine.get_usdt_machine_rent_fee
  | GetDLCRentFeeByCalcPoint => get_dlc_rent_fee_by_calc_point h
  end.

(** ** agent_task.rs *)
Definition create_task_order (h : Handle) : PM bytes :=
  param ← decode T [PUint 64; PAddress; PUint 64; PUint 64] h;
  task_id ← uint_arg param 0 U64_MAX;
  miner_address ← arg param 1 into_address;
  let miner_account := into_account_id T miner_address in
  input_tokens ← uint_arg param 2 U64_MAX;
  output_tokens ← uint_arg param 3 U64_MAX;
  let caller_account := into_account_id T (caller h) in
  order_id ← reads (λ r, TaskMode.NextOrderId (tasks r));
  oracle ← reads dbc_price;
  on_tasks (TaskMode.create_task_order (P:=Q) task_config oracle now (Signed caller_account) task_id miner_account
    input_tokens output_tokens);;
  record_db T 2 2;;
  returns T [TUint order_id].

Definition task_status_code (s : TaskMode.TaskOrderStatus) : Z :=
  match s with
  | TaskMode.Pending => 0 | TaskMode.InProgress => 1 | TaskMode.Completed => 2 | TaskMode.Settled => 3
  end.
Definition query_task_status (h : Handle) : PM bytes :=
  param ← decode T [PUint 64] h;
  order_id ← uint_arg param 0 U64_MAX;
  maybe_order ← reads (λ r, TaskMode.TaskOrders (tasks r) !! order_id);
  order ← ok_or maybe_order (Revert NotFound);
  let miner_h160 := 0%N in
  record_db T 1 0;;
  returns T [TUint (task_status_code (TaskMode.status order)); TAddress miner_h160;
        TUint (TaskMode.total_dbc_charged order)].

Definition get_model_price (h : Handle) : PM bytes :=
  param ← decode T [PBytes] h;
  task_id_bytes ← arg param 0 into_bytes;
  let task_id := if Nat.leb 8 (length task_id_bytes) then from_be_bytes (take 8 task_id_bytes) else 0 in
  maybe_def ← reads (λ r, TaskMode.TaskDefinitions (tasks r) !! task_id);
  task_def ← ok_or maybe_def (Revert NotFound);
  record_db T 1 0;;
  returns T [TUint (TaskMode.input_price_usd_per_1k task_def)].

Definition register_node (h : Handle) : PM bytes :=
  param ← decode T [PBytes; PUint 32] h;
  gpu_uuid ← arg param 0 into_bytes;
  tflops ← uint_arg param 1 U32_MAX;
  let caller_account := into_account_id T (caller h) in
  on_agents (Attestation.register_node agent_config now (Signed caller_account) gpu_uuid tflops);;
  record_db T 1 1;;
  returns T [TBool true].

Definition agent_task_execute (h : Handle) : PM bytes :=
  selector ← selected T
    [(str "createTaskOrder(uint64,address,uint64,uint64)", CreateTaskOrder);
     (str "queryTaskStatus(uint64)", QueryTaskStatus);
     (str "getModelPrice(bytes)", GetModelPrice);
     (str "registerNode(bytes,uint32)", RegisterNode)] h;
  match selector with
  | CreateTaskOrder => create_task_order h
  | QueryTaskStatus => query_task_status h
  | GetModelPrice => get_model_price h
  | RegisterNode => register_node h
  end.

(** ** zk_compute.rs *)
Definition zk_status_code (s : ZkCompute.ZkVerificationStatus) : Z :=
  match s with ZkCompute.Pending => 0 | ZkCompute.Verified => 1 | ZkCompute.Failed => 2 end.
Definition zk_query_task (h : Handle) : PM bytes :=
  record_parts T 10000;;
  param ← decode T [PUint 64] h;
  task_id ← uint_arg param 0 U64_MAX;
  task ← reads (λ r, ZkCompute.Tasks (zk r) !! task_id);
  let '(status, (m, n, k)) :=
    match task with
    | Some t => (zk_status_code (ZkCompute.status t), ZkCompute.dimensions t)
    | None => (255, (0, 0, 0))
    end in
  returns T [TUint status; TUint m; TUint n; TUint k].
Definition zk_claim_reward (h : Handle) : PM bytes :=
  record_parts T 50000;;
  param ← decode T [PUint 64] h;
  task_id ← uint_arg param 0 U64_MAX;
  let from := into_account_id T (caller h) in
  on_zk (ZkCompute.claim_reward zk_config (Signed from) task_id);;
  returns T [TBool true].
Definition zk_compute_execute (h : Handle) : PM bytes :=
  selector ← selected T [(str "queryTask(uint64)", QueryTask); (str "claimReward(uint64)", ClaimReward)] h;
  match selector with
  | QueryTask => zk_query_task h
  | ClaimReward => zk_claim_reward h
  end.

(** ** compute_pool.rs *)
Definition query_pool (h : Handle) : PM bytes :=
  record_parts T 10000;;
  param ← decode T [PUint 64] h;
  pool_id ← uint_arg param 0 U64_MAX;
  pool ← reads (λ r, Scheduler.Pools (pools r) !! pool_id);
  let '(active, gpu_count, max_tasks) :=
    match pool with
    | Some p => (true, Scheduler.gpu_memory p, Scheduler.total_tasks p)
    | None => (false, 0, 0)
    end in
  returns T [TBool active; TUint gpu_count; TUint max_tasks].
Definition pool_status_code (s : Scheduler.TaskStatus) : Z :=
  match s with
  | Scheduler.Pending => 0 | Scheduler.Assigned => 1 | Scheduler.Computing => 2
  | Scheduler.ProofSubmitted => 3 | Scheduler.Verifying => 4 | Scheduler.Completed => 5
  | Scheduler.Failed => 6
  end.
Definition query_pool_task (h : Handle) : PM bytes :=
  record_parts T 10000;;
  param ← decode T [PUint 64] h;
  task_id ← uint_arg param 0 U64_MAX;
  task ← reads (λ r, Scheduler.Tasks (pools r) !! task_id);
  let '(found, pool_id, status) :=
    match task with
    | Some t => (true, Scheduler.task_pool t, pool_status_code (Scheduler.status t))
    | None => (false, 0, 255)
    end in
  returns T [TBool found; TUint pool_id; TUint status].
Definition compute_pool_execute (h : Handle) : PM bytes :=
  selector ← selected T [(str "queryPool(uint64)", QueryPool); (str "queryTask(uint64)", QueryPoolTask)] h;
  match selector with
  | QueryPool => query_pool h
  | QueryPoolTask => query_pool_task h
  end.

(** ** attestation.rs *)
Definition query_node (h : Handle) : PM bytes :=
  record_parts T 10000;;
  param ← decode T [PAddress] h;
  addr ← arg param 0 into_address;
  let account := into_account_id T addr in
  node ← reads (λ r, Attestation.Nodes (agents r) !! account);
  let '(registered, reputation) :=
    match node with Some n => (true, Attestation.tflops n) | None => (false, 0) end in
  returns T [TBool registered; TUint reputation].
Definition do_heartbeat (h : Handle) : PM bytes :=
  record_parts T 50000;;
  let from := into_account_id T (caller h) in
  on_agents (Attestation.heartbeat agent_config now (Signed from));;
  returns T [TBool true].
Definition attestation_execute (h : Handle) : PM bytes :=
  selector ← selected T [(str "queryNode(address)", QueryNode); (str "heartbeat()", Heartbeat)] h;
  match selector with
  | QueryNode => query_node h
  | Heartbeat => do_heartbeat h
  end.

(** ** x402_settlement.rs *)
Definition query_payment_intent (h : Handle) : PM bytes :=
  record_parts T 10000;;
  param ← decode T [PUint 64] h;
  intent_id ← uint_arg param 0 U64_MAX;
  intent ← reads (λ r, X402.get_payment_intent (payments r) intent_id);
  let '(found, settled) :=
    match intent with Some p => (true, bool_decide (X402.status p = X402.Settled)) | None => (false, false) end in
  returns T [TBool found; TBool settled].
Definition query_settlement_receipt (h : Handle) : PM bytes :=
  record_parts T 10000;;
  param ← decode T [PUint 64] h;
  intent_id ← uint_arg param 0 U64_MAX;
  receipt ← reads (λ r, X402.get_settlement_receipt (payments r) intent_id);
  returns T [TBool (bool_decide (is_Some receipt))].
Definition x402_execute (h : Handle) : PM bytes :=
  selector ← selected T [(str "queryPaymentIntent(uint64)", QueryPaymentIntent);
                         (str "querySettlementReceipt(uint64)", QuerySettlementReceipt)] h;
  match selector with
  | QueryPaymentIntent => query_payment_intent h
  | QuerySettlementReceipt => query_settlement_receipt h
  end.

(** ** mod.rs: the set *)
Definition used_addresses : list H160 :=
  [1; 2; 3; 4; 5; 1024; 1025; 1026; 2048; 2049; 2050; 2051; 2096; 2097; 2098; 2099; 2100]%N.
Definition is_precompile (address : H160) : bool := bool_decide (address ∈ used_addresses).

(** The contracts of the runtime; [others] are those of the Frontier project
    (ECRecover to Blake2F, SHA3, Dispatch, ECRecoverPublicKey). *)
Definition runtime_precompiles : list (H160 * (Handle → PM bytes)) :=
  [(2048%N, bridge); (2049%N, dbc_price_execute); (2050%N, dlc_price_execute);
   (2051%N, machine_info_execute); (2096%N, agent_task_execute); (2097%N, zk_compute_execute);
   (2098%N, compute_pool_execute); (2099%N, attestation_execute); (2100%N, x402_execute)].
Definition frontier_addresses : list H160 := [1; 2; 3; 4; 5; 6; 7; 8; 9; 1024; 1025; 1026]%N.
Definition routed (others : H160 → Handle → PM bytes) (address : H160) : option (Handle → PM bytes) :=
  if bool_decide (address ∈ frontier_addresses) then Some (others address)
  else match List.find (λ p, bool_decide (p.1 = address)) runtime_precompiles with
       | Some (_, run) => Some run
       | None => None
       end.

(** [None] when no contract has the address. *)
Definition execute (others : H160 → Handle → PM bytes) (h : Handle) : PM (option bytes) :=
  let address := code_address h in
  (if is_precompile address then
     ensure (negb ((9 <? address)%N && negb (bool_decide (context_address h = address))))
       (Revert DelegateCalled);;
     precompile_whitelist ← reads (λ r, whitelist_of (whitelist r) address);
     (if bool_decide (address = 2048%N) then
        ensure (bool_decide (caller h ∈ precompile_whitelist)) (Revert NotInWhitelist)
      else mret tt)
   else mret tt);;
  match routed others address with
  | Some run => out ← run h; mret (Some out)
  | None => mret None
  end.
End precompiles.
End Precompiles.
