(* ===== verification/PrecompileTheorems.v ===== *)
(** * The precompiled contracts: their theorems

    What an EVM program can do to the pallets: every successful call is a native
    call of its caller's account or a query, only the bridge moves the money of
    others and only for callers on its whitelist, and when a call panics. *)
From Stdlib Require Import ZArith Lia Strings.Byte Strings.String.
From stdpp Require Import base gmap fin_maps list numbers.
From S2P Require Import Prelude Currency Interfaces Price TaskMode ZkCompute RentalTypes RentalInterfaces RentMachine X402 Attestation ComputePool EvmInterface Precompiles.

Module PrecompileTheorems.
Import (hints) PriceOcw X402.
Import Evm Precompiles.

(** ** The steps of a contract *)
Section steps.
Context {W : Type} (T : Host).
Implicit Types (w : Z * W).

Lemma record_cost_Ok c w u w' : record_cost c w = (Ok u, w') ↔ c ≤ w.1 ∧ w' = (w.1 - c, w.2).
Proof. unfold record_cost. destruct u, (Z.leb_spec c w.1); naive_solver lia. Qed.
Lemma arg_Ok {A} ps n (into : Token → option A) w a w' :
  arg ps n into w = (Ok a, w') ↔ (∃ t, ps !! n = Some t ∧ into t = Some a) ∧ w' = w.
Proof. unfold arg. destruct (ps !! n) as [t|]; [rewrite ok_or_Ok|rewrite fail_Ok]; naive_solver. Qed.
Lemma uint_arg_Ok ps n max w v w' :
  uint_arg ps n max w = (Ok v, w') ↔ ps !! n = Some (TUint v) ∧ v ≤ max ∧ w' = w.
Proof.
  unfold uint_arg. rewrite bind_Ok. setoid_rewrite arg_Ok. unfold as_uint. split.
  - intros (x & w1 & [([] & Ht & [= ->]) ->] & Hx). destruct (Z.leb_spec x max) as [Hm|]; [|by apply fail_Ok in Hx].
    apply mret_Ok in Hx. naive_solver.
  - intros (Ht & Hm & ->). exists v, w. split; [eauto|]. by destruct (Z.leb_spec v max); [|lia].
Qed.
Lemma on_pallet_Ok {V E A} (get : W → V) put (m : M V E A) w a w' :
  on_pallet get put m w = (Ok a, w') ↔ ∃ v, m (get w.2) = (Ok a, v) ∧ w' = (w.1, put v w.2).
Proof.
  unfold on_pallet. destruct (m (get w.2)) as [[x|e] v]; simpl; [naive_solver|]. split; [done|].
  by intros (? & ? & _).
Qed.
Lemma or_revert_Ok {E A} (r : result E A) w a w' : or_revert r w = (Ok a, w') ↔ r = Ok a ∧ w' = w.
Proof. destruct r; simpl; [rewrite mret_Ok|rewrite fail_Ok]; naive_solver. Qed.
Lemma selected_Ok {A} (vs : list (bytes * A)) h w a w' : selected T vs h w = (Ok a, w') → w' = w.
Proof. unfold selected. intros. run_inv. done. Qed.
End steps.

Ltac evm_step :=
  match goal with
  | H : record_db _ _ _ _ = (Ok _, _) |- _ => apply record_cost_Ok in H; destruct H as [? ?]; subst
  | H : record_parts _ _ _ = (Ok _, _) |- _ => apply record_cost_Ok in H; destruct H as [? ?]; subst
  | H : uint_arg _ _ _ _ = (Ok _, _) |- _ => apply uint_arg_Ok in H; destruct H as (? & ? & ?); subst
  | H : arg _ _ _ _ = (Ok _, _) |- _ => apply arg_Ok in H; destruct H as [(? & ? & ?) ?]; subst
  | H : on_pallet _ _ _ _ = (Ok _, _) |- _ => apply on_pallet_Ok in H; destruct H as (? & H & ?); subst
  | H : or_revert _ _ = (Ok _, _) |- _ => apply or_revert_Ok in H; destruct H as [? ?]; subst
  | H : selected _ _ _ _ = (Ok _, _) |- _ => apply selected_Ok in H; subst
  | H : decode _ _ _ _ = (Ok _, _) |- _ => apply ok_or_Ok in H; destruct H as [? ?]; subst
  | H : reads _ _ = (Ok _, _) |- _ => apply gets_Ok in H; destruct H as [? ?]; subst
  | H : returns _ _ _ = (Ok _, _) |- _ => apply mret_Ok in H; destruct H as [? ?]; subst
  end.
Ltac run_inv ::=
  repeat first [run_step | origin_step | currency_step | callee_step | evm_step]; simplify_eq/=; guard_inv;
  repeat match goal with x : unit |- _ => clear x || destruct x end.

Section theorems.
Context {RT L : Type} `{!ReservableCurrency L} `{!RTOps L RT, !RentPrice RT} {Q P : PerThing}.
Context (T : Host) (task_config : TaskMode.Config) (zk_config : ZkCompute.Config).
Context (agent_config : Attestation.Config) (now : BlockNumber).
Abbreviation Runtime := (Runtime RT L).
Abbreviation run := (execute (Q:=Q) T task_config zk_config agent_config now).
Implicit Types (r : Runtime) (h : Handle).

(** What account [a] can do natively, of what the contracts offer. *)
Inductive native (a : AccountId) r : Runtime → Prop :=
| native_query : native a r r
| native_order tid m i o s l :
    0 ≤ i ≤ U64_MAX → 0 ≤ o ≤ U64_MAX →
    TaskMode.create_task_order (P:=Q) task_config (dbc_price r) now (Signed a) tid m i o (tasks r, ledger r) =
      (Ok tt, (s, l)) →
    native a r (r <| tasks := s |> <| ledger := l |>)
| native_register uuid tflops s :
    0 ≤ tflops ≤ U32_MAX →
    Attestation.register_node agent_config now (Signed a) uuid tflops ((agents r, payments r), ledger r) =
      (Ok tt, ((s, payments r), ledger r)) →
    native a r (r <| agents := s |>)
| native_heartbeat s :
    Attestation.heartbeat agent_config now (Signed a) ((agents r, payments r), ledger r) =
      (Ok tt, ((s, payments r), ledger r)) →
    native a r (r <| agents := s |>)
| native_claim id s l :
    ZkCompute.claim_reward zk_config (Signed a) id (zk r, ledger r) = (Ok tt, (s, l)) →
    native a r (r <| zk := s |> <| ledger := l |>).

Definition native_addresses : list H160 := [2049; 2050; 2051; 2096; 2097; 2098; 2099; 2100]%N.

(** The set runs the contract of the address, after its checks. *)
Lemma execute_runs others h w out w' :
  (9 <? code_address h)%N = true → run others h w = (Ok (Some out), w') →
  (is_precompile (code_address h) = true → context_address h = code_address h) ∧
  (code_address h = 2048%N → caller h ∈ whitelist_of (whitelist w.2) 2048) ∧
  ∃ f, routed (Q:=Q) T task_config zk_config agent_config now others (code_address h) = Some f ∧
       f h w = (Ok out, w').
Proof.
  intros Ha Hrun. unfold execute in Hrun. apply bind_Ok in Hrun as ([] & w1 & Hc & Hrun).
  assert (w1 = w ∧ (is_precompile (code_address h) = true → context_address h = code_address h) ∧
    (code_address h = 2048%N → caller h ∈ whitelist_of (whitelist w.2) 2048)) as (-> & H1 & H2).
  { destruct (is_precompile (code_address h)) eqn:Hp.
    - rewrite Ha in Hc. run_inv. destruct (bool_decide (code_address h = 2048%N)) eqn:Hb; run_inv;
        (split; [done|]); (split; [done|]); intros He; [|done]. by rewrite He in *.
    - run_inv. split; [done|]. split; [done|]. intros He. by rewrite He in Hp. }
  split; [done|]. split; [done|]. destruct (routed _ _ _ _ _ _ _) as [f|]; run_inv. eauto.
Qed.

(** Registering and heartbeats change the nodes only. *)
Lemma register_frame o u t (w w' : (Attestation.State * X402.State) * L) c n :
  Attestation.register_node c n o u t w = (Ok tt, w') → w'.1.2 = w.1.2 ∧ w'.2 = w.2.
Proof. unfold Attestation.register_node. intros. run_inv. done. Qed.
Lemma heartbeat_frame o (w w' : (Attestation.State * X402.State) * L) c n :
  Attestation.heartbeat c n o w = (Ok tt, w') → w'.1.2 = w.1.2 ∧ w'.2 = w.2.
Proof. unfold Attestation.heartbeat. intros. run_inv. done. Qed.

(** Every contract but the bridge does what its caller could do natively. *)
Lemma contracts_native h f w out w' :
  f ∈ [dbc_price_execute T; dlc_price_execute T; machine_info_execute T;
       agent_task_execute (Q:=Q) T task_config agent_config now; zk_compute_execute T zk_config; compute_pool_execute T;
       attestation_execute T agent_config now; x402_execute T] →
  HostLaws T → f h w = (Ok out, w') → native (into_account_id T (caller h)) w.2 w'.2.
Proof.
  intros Hf HT Hrun. destruct w as [g r].
  assert (∀ ts b toks n v, abi_decode T ts b = Some toks → toks !! n = Some (TUint v) → 0 ≤ v) as Hpos.
  { intros ts b toks n v Hd Hn. apply (decode_typed T HT) in Hd.
    destruct (Forall2_lookup_r _ _ _ _ _ Hd Hn) as (p & _ & Hp). destruct p; simpl in Hp; naive_solver. }
  repeat (apply elem_of_cons in Hf as [->|Hf]); [..|by apply not_elem_of_nil in Hf];
    unfold dbc_price_execute, dlc_price_execute, machine_info_execute, agent_task_execute, zk_compute_execute,
      compute_pool_execute, attestation_execute, x402_execute in Hrun; apply bind_Ok in Hrun as (sel & w1 & Hs & Hrun);
    apply selected_Ok in Hs as ->; destruct sel.
  all: unfold query_machine, query_rent_fee, get_rent_end_at, is_machine_owner, get_dlc_rent_fee_by_calc_point,
      create_task_order, query_task_status, get_model_price, register_node, zk_query_task, zk_claim_reward,
      query_pool, query_pool_task, query_node, do_heartbeat, query_payment_intent, query_settlement_receipt in Hrun.
  all: run_inv.
  all: repeat match goal with H : context [match ?x with _ => _ end] |- _ => destruct x; run_inv end.
  all: try apply native_query.
  - match goal with H : on_tasks _ _ = _ |- _ => apply on_pallet_Ok in H as ([s l] & H & ->); cbn [snd] in H end. simpl.
    eapply native_order; [..|eassumption]; (split; [by eapply Hpos|done]).
  - match goal with H : on_agents _ _ = _ |- _ => apply on_pallet_Ok in H as ([[s y] l] & H & ->); cbn [snd] in H end.
    match goal with H : Attestation.register_node _ _ _ _ _ _ = _ |- _ =>
      pose proof (register_frame _ _ _ _ _ _ _ H) as [? ?]; simplify_eq/= end.
    match goal with |- native _ _ ?x => assert (x = r <| agents := s |>) as -> by (by destruct r) end.
    eapply native_register; [|eassumption]; (split; [by eapply Hpos|done]).
  - match goal with H : on_zk _ _ = _ |- _ => apply on_pallet_Ok in H as ([s l] & H & ->); cbn [snd] in H end. simpl.
    eapply native_claim. eassumption.
  - match goal with H : on_agents _ _ = _ |- _ => apply on_pallet_Ok in H as ([[s y] l] & H & ->); cbn [snd] in H end.
    match goal with H : Attestation.heartbeat _ _ _ _ = _ |- _ =>
      pose proof (heartbeat_frame _ _ _ _ _ H) as [? ?]; simplify_eq/= end.
    match goal with |- native _ _ ?x => assert (x = r <| agents := s |>) as -> by (by destruct r) end.
    eapply native_heartbeat. eassumption.
Qed.

(** The contract at each address. *)
Lemma routed_native others address f :
  address ∈ native_addresses →
  routed (Q:=Q) T task_config zk_config agent_config now others address = Some f →
  f ∈ [dbc_price_execute T; dlc_price_execute T; machine_info_execute T;
       agent_task_execute (Q:=Q) T task_config agent_config now; zk_compute_execute T zk_config; compute_pool_execute T;
       attestation_execute T agent_config now; x402_execute T].
Proof.
  intros Ha Hf. repeat (apply elem_of_cons in Ha as [->|Ha]); [..|by apply not_elem_of_nil in Ha];
    injection Hf as <-; repeat (left; reflexivity) || right.
Qed.
Lemma routed_some others address :
  address ∈ 2048%N :: native_addresses →
  is_Some (routed (Q:=Q) T task_config zk_config agent_config now others address) ∧
  (9 <? address)%N = true ∧ is_precompile address = true.
Proof. intros Ha. repeat (apply elem_of_cons in Ha as [->|Ha]); [..|by apply not_elem_of_nil in Ha]; by eauto. Qed.
Lemma execute_answers others h w o w' :
  code_address h ∈ 2048%N :: native_addresses → run others h w = (Ok o, w') → is_Some o.
Proof.
  intros Ha Hrun. destruct (routed_some others _ Ha) as ([f Hf] & _). unfold execute in Hrun. rewrite Hf in Hrun.
  apply bind_Ok in Hrun as (? & ? & _ & Hrun). run_inv. eauto.
Qed.

(** C25: a call of a contract other than the bridge that succeeds was not made by
    DELEGATECALL or CALLCODE, is answered by the contract, and does to the
    pallets what a native call of the account of its caller does (creating a
    task order, registering a node, a heartbeat, claiming a reward, with
    arguments of their types), or nothing. *)
Theorem evm_calls_are_native others h g r o w' :
  HostLaws T → code_address h ∈ native_addresses → run others h (g, r) = (Ok o, w') →
  is_Some o ∧ context_address h = code_address h ∧ native (into_account_id T (caller h)) r w'.2.
Proof.
  intros HT Ha Hrun. assert (code_address h ∈ 2048%N :: native_addresses) as Ha' by by right.
  destruct (execute_answers _ _ _ _ _ Ha' Hrun) as [out ->]. destruct (routed_some others _ Ha') as (_ & H9 & Hp).
  destruct (execute_runs _ _ _ _ _ H9 Hrun) as (Hc & _ & f & Hf & Hrun').
  split; [eauto|]. split; [by apply Hc|].
  by apply (contracts_native h f (g, r) out w' (routed_native _ _ _ Ha Hf) HT).
Qed.


(** ** Money *)
Lemma native_money `{!ReservableCurrencyLaws L} `{!PerThingLaws Q} a r r' :
  TaskMode.config_ok (P:=Q) task_config → ZkCompute.config_ok zk_config →
  TaskMode.Inv task_config now (tasks r) → PriceOcw.Inv (dbc_price r) → ZkCompute.Inv zk_config now (zk r) →
  native a r r' →
  (∀ b, b ≠ a → b ≠ ZkCompute.PalletAccount zk_config →
     free_balance (ledger r') b = free_balance (ledger r) b ∧ reserved_balance (ledger r') b = reserved_balance (ledger r) b) ∧
  (a ≠ ZkCompute.PalletAccount zk_config →
     free_balance (ledger r) a + reserved_balance (ledger r) a ≤ free_balance (ledger r') a + reserved_balance (ledger r') a).
Proof.
  intros HT1 HT2 IT IP IZ. intros [|tid m i o s l Hi Ho Hrun|uuid tf s Ht Hrun|s Hrun|id s l Hrun]; simpl; try done.
  - apply (TaskMode.create_effect (Oracle:=PriceOcw.State) (P:=Q)) in Hrun
      as (c & task & or & price & usd & _ & [= <-] & _ & _ & _ & _ & _ & _ & _ & _ & _ & _ & _ & _ & _ & _ & _ & _ & H1 & H2 & H3 & _ & Hres & _);
      [|done..].
    apply reserve_spec in Hres as [_ Hm]; [|lia]. split.
    + intros b Hb _. destruct (Hm b) as [-> ->]. unfold at_account. rewrite !decide_False by done. lia.
    + intros _. destruct (Hm a) as [-> ->]. unfold at_account. rewrite !decide_True by done. lia.
  - apply ZkCompute.claim_effect in Hrun as (t & reward & l1 & Ht & [= ->] & _ & _ & Hrw & Htr & -> & _).
    destruct (ZkCompute.reward_exact zk_config HT2 now _ _ _ IZ Ht) as [Hpos He]. rewrite Hrw in He.
    assert (0 ≤ reward) by (destruct (_ <=? _); simplify_eq; apply Z.div_pos; lia).
    apply transfer_allow_death_spec in Htr as (_ & Hr & Hf); [|done].
    destruct (ZkCompute.inv_task _ _ _ IZ _ _ Ht) as (_ & _ & Hdep & _).
    destruct (unreserve_spec (ZkCompute.miner t) (ZkCompute.submission_deposit t) l1) as [_ Hu];
      [rewrite Hdep; apply HT2|]. split.
    + intros b Hb Hp. destruct (Hu b) as [-> ->]. unfold at_account. rewrite !decide_False by done.
      rewrite Hr, (Hf b Hp). unfold at_account. rewrite decide_False by done. lia.
    + intros Hp. destruct (Hu (ZkCompute.miner t)) as [-> ->]. unfold at_account. rewrite !decide_True by done.
      rewrite Hr, (Hf _ Hp). unfold at_account. rewrite decide_True by done. lia.
Qed.

(** A contract other than the bridge cannot spend the money of others: after
    a call that succeeds, where the pallets satisfy their invariants, the
    balances of every account but the caller's (and the one that pays the
    rewards of zk-compute) are what they were, and the caller has lost
    nothing: at most part of its balance is reserved. *)
Theorem evm_spends_caller_only `{!ReservableCurrencyLaws L} `{!PerThingLaws Q} others h g r o w' :
  HostLaws T → TaskMode.config_ok (P:=Q) task_config → ZkCompute.config_ok zk_config →
  TaskMode.Inv task_config now (tasks r) → PriceOcw.Inv (dbc_price r) → ZkCompute.Inv zk_config now (zk r) →
  code_address h ∈ native_addresses → run others h (g, r) = (Ok o, w') →
  let a := into_account_id T (caller h) in
  (∀ b, b ≠ a → b ≠ ZkCompute.PalletAccount zk_config →
     free_balance (ledger w'.2) b = free_balance (ledger r) b ∧
     reserved_balance (ledger w'.2) b = reserved_balance (ledger r) b) ∧
  (a ≠ ZkCompute.PalletAccount zk_config →
     free_balance (ledger r) a + reserved_balance (ledger r) a ≤
     free_balance (ledger w'.2) a + reserved_balance (ledger w'.2) a).
Proof.
  intros HT HT1 HT2 IT IP IZ Ha Hrun a. assert (code_address h ∈ 2048%N :: native_addresses) as Ha' by by right.
  destruct (execute_answers _ _ _ _ _ Ha' Hrun) as [out ->]. destruct (routed_some others _ Ha') as (_ & H9 & Hp).
  destruct (execute_runs _ _ _ _ _ H9 Hrun) as (_ & _ & f & Hf & Hrun').
  apply (native_money a r w'.2 HT1 HT2 IT IP IZ).
  by apply (contracts_native h f (g, r) out w' (routed_native _ _ _ Ha Hf) HT).
Qed.

(** The contract's createTaskOrder answers with the id of the order it made:
    after a call that succeeds the order of this id, which was new, is in
    progress, of the caller for the miner and the tokens of the arguments, and
    its charge is reserved in the caller's account. *)
Theorem evm_create_order_returns_id `{!ReservableCurrencyLaws L} `{!PerThingLaws Q} h g r out w' :
  HostLaws T → TaskMode.config_ok (P:=Q) task_config → TaskMode.Inv task_config now (tasks r) →
  PriceOcw.Inv (dbc_price r) →
  create_task_order (Q:=Q) T task_config now h (g, r) = (Ok out, w') →
  let id := TaskMode.NextOrderId (tasks r) in
  out = abi_encode T [TUint id] ∧ TaskMode.TaskOrders (tasks r) !! id = None ∧
  ∃ o tid m i p, abi_decode T [PUint 64; PAddress; PUint 64; PUint 64] (drop 4 (input h)) =
      Some [TUint tid; TAddress m; TUint i; TUint p] ∧
    TaskMode.TaskOrders (tasks w'.2) = <[id := o]> (TaskMode.TaskOrders (tasks r)) ∧
    TaskMode.customer o = into_account_id T (caller h) ∧ TaskMode.miner o = into_account_id T m ∧
    TaskMode.task_id o = tid ∧ TaskMode.status o = TaskMode.InProgress ∧
    0 ≤ TaskMode.total_dbc_charged o ∧
    reserved_balance (ledger w'.2) (into_account_id T (caller h)) =
      reserved_balance (ledger r) (into_account_id T (caller h)) + TaskMode.total_dbc_charged o.
Proof.
  intros HT HT1 IT IP Hrun id. unfold create_task_order in Hrun. run_inv.
  match goal with H : abi_decode _ _ _ = Some _ |- _ => rename H into Hd; pose proof (decode_typed T HT _ _ _ Hd) as Hty end.
  apply Forall2_cons_inv_l in Hty as (t1 & ? & Y1 & Hty & ->). apply Forall2_cons_inv_l in Hty as (t2 & ? & Y2 & Hty & ->).
  apply Forall2_cons_inv_l in Hty as (t3 & ? & Y3 & Hty & ->). apply Forall2_cons_inv_l in Hty as (t4 & ? & Y4 & Hty & ->).
  apply Forall2_nil_inv_l in Hty as ->. destruct t1, t2, t3, t4; simpl in Y1, Y2, Y3, Y4; try done. run_inv.
  match goal with H : on_tasks _ _ = _ |- _ => apply on_pallet_Ok in H as ([s l] & H & ->); cbn [snd] in H; rename H into Ht end.
  apply (TaskMode.create_effect (Oracle:=PriceOcw.State) (P:=Q)) in Ht
    as (c & task & o & price & usd & HO & [= <-] & _ & _ & _ & _ & _ & _ & _ & _ & _ & Htid & Hcu & Hmi & _ & Hst & _ & _ & H1 & H2 & H3 & _ & Hres & _);
    [|first [done|split; [apply Y3|done]|split; [apply Y4|done]]..].
  apply reserve_spec in Hres as [_ Hm]; [|lia]. split; [done|]. split.
  { destruct (TaskMode.TaskOrders (tasks r) !! id) as [o'|] eqn:Ho; [|done].
    destruct (TaskMode.inv_order _ _ _ IT id o' Ho) as (Hlt & _). unfold id in Hlt. lia. }
  eexists o, _, _, _, _. split; [exact Hd|]. split_and!; try done; [lia|].
  simpl. destruct (Hm (into_account_id T (caller h))) as [_ ->]. unfold at_account. by rewrite decide_True.
Qed.

(** ** Panics

    The functions of the contracts: the weight they charge before anything else,
    the types of their arguments, and the arguments they convert to a narrower
    integer, each with the largest value that fits. *)
Record Function := {
  charged_first : option Z;
  argument_types : list ParamType;
  converted : list (nat * Z);
}.
Definition fn (c : option Z) (ts : list ParamType) (cs : list (nat * Z)) : Function :=
  {| charged_first := c; argument_types := ts; converted := cs |}.
Definition by_id (c : option Z) : Function := fn c [PUint 64] [(0%nat, U64_MAX)].
Definition of_machine : Function := fn None [PString] [].
Definition rent_fee : Function := fn None [PString; PUint 256; PUint 256] [(1%nat, U64_MAX); (2%nat, U32_MAX)].
Definition contract_functions : list (H160 * list (bytes * Function)) :=
  [(2048%N, [(str "transfer(address,string,uint256)", fn None [PAddress; PString; PUint 256] [])]);
   (2049%N, [(str "getDBCPrice()", fn None [] []); (str "getDBCAmountByValue(uint256)", fn None [PUint 256] [])]);
   (2050%N, [(str "getDLCPrice()", fn None [] []); (str "getDLCAmountByValue(uint256)", fn None [PUint 256] [])]);
   (2051%N, [(str "getMachineCalcPoint(string)", of_machine); (str "getMachineCPURate(string)", of_machine);
             (str "getMachineGPUCount(string)", of_machine);
             (str "getRentEndAt(string,uint256)", fn None [PString; PUint 256] [(1%nat, U64_MAX)]);
             (str "isMachineOwner(string,address)", fn None [PString; PAddress] []);
             (str "getDLCMachineRentFee(string,uint256,uint256)", rent_fee);
             (str "getDBCMachineRentFee(string,uint256,uint256)", rent_fee);
             (str "getUSDTMachineRentFee(string,uint256,uint256)", rent_fee);
             (str "getDLCRentFeeByCalcPoint(uint256,uint256,uint256,uint256)",
              fn None [PUint 256; PUint 256; PUint 256; PUint 256]
                [(0%nat, U64_MAX); (1%nat, U64_MAX); (2%nat, U32_MAX); (3%nat, U32_MAX)]);
             (str "getMachineGPUTypeAndMem(string)", of_machine)]);
   (2096%N, [(str "createTaskOrder(uint64,address,uint64,uint64)",
              fn None [PUint 64; PAddress; PUint 64; PUint 64] [(0%nat, U64_MAX); (2%nat, U64_MAX); (3%nat, U64_MAX)]);
             (str "queryTaskStatus(uint64)", by_id None); (str "getModelPrice(bytes)", fn None [PBytes] []);
             (str "registerNode(bytes,uint32)", fn None [PBytes; PUint 32] [(1%nat, U32_MAX)])]);
   (2097%N, [(str "queryTask(uint64)", by_id (Some 10000)); (str "claimReward(uint64)", by_id (Some 50000))]);
   (2098%N, [(str "queryPool(uint64)", by_id (Some 10000)); (str "queryTask(uint64)", by_id (Some 10000))]);
   (2099%N, [(str "queryNode(address)", fn (Some 10000) [PAddress] []); (str "heartbeat()", fn (Some 50000) [] [])]);
   (2100%N, [(str "queryPaymentIntent(uint64)", by_id (Some 10000));
             (str "querySettlementReceipt(uint64)", by_id (Some 10000))])].

(** The function of a list whose selector begins the input. *)
Definition chosen {A} h (fs : list (bytes * A)) : option A :=
  if Nat.leb 4 (length (input h))
  then snd <$> List.find (λ f, get_function_selector T f.1 =? from_be_bytes (take 4 (input h))) fs else None.

(** An argument that does not fit. *)
Definition exceeds (cs : list (nat * Z)) (toks : list Token) : Prop :=
  ∃ n max v, (n, max) ∈ cs ∧ toks !! n = Some (TUint v) ∧ max < v.
Definition oversized (F : Function) h (g : Z) : Prop :=
  (∀ c, charged_first F = Some c → parts_gas T c ≤ g) ∧
  ∃ toks, abi_decode T (argument_types F) (drop 4 (input h)) = Some toks ∧ exceeds (converted F) toks.

Lemma exceeds_cons n max cs toks :
  exceeds ((n, max) :: cs) toks ↔ (∃ v, toks !! n = Some (TUint v) ∧ max < v) ∨ exceeds cs toks.
Proof. unfold exceeds. setoid_rewrite elem_of_cons. naive_solver. Qed.
Lemma exceeds_nil toks : exceeds [] toks ↔ False.
Proof. split; [|done]. by intros (n & max & v & ?%not_elem_of_nil & _). Qed.

Definition never {A} (m : M (Z * Runtime) Failure A) : Prop := ∀ w, (m w).1 ≠ Err Panics.
Lemma never_bind {A B} (m : M (Z * Runtime) Failure A) (k : A → M (Z * Runtime) Failure B) :
  never m → (∀ a, never (k a)) → never (m ≫= k).
Proof.
  intros Hm Hk w. specialize (Hm w). unfold mbind, M_bind. destruct (m w) as [[a|e] w1]; [apply Hk|].
  intros [= ->]. by apply Hm.
Qed.
Lemma never_ensure b why : never (ensure b (Revert why)).
Proof. intros w. unfold ensure. by destruct b. Qed.
Lemma never_ok_or {A} (o : option A) why : never (ok_or o (Revert why)).
Proof. intros w. unfold ok_or. by destruct o. Qed.
Lemma never_ret {A} (a : A) : never (mret a).
Proof. by intros w. Qed.
Lemma never_reads {A} (f : Runtime → A) : never (reads f).
Proof. by intros w. Qed.
Lemma never_cost c : never (record_cost c).
Proof. intros w. unfold record_cost. by destruct (_ <=? _). Qed.
Lemma never_pallet {V E A} get put (m : M V E A) : never (on_pallet (W:=Runtime) get put m).
Proof. intros w. unfold on_pallet. by destruct (m (get w.2)) as [[] ?]. Qed.
Lemma never_or_revert {E A} (r : result E A) : never (or_revert r).
Proof. intros w. by destruct r. Qed.
Ltac never_steps :=
  repeat first
    [ apply never_bind; [|intros ?]
    | apply never_ensure | apply never_ok_or | apply never_ret | apply never_reads | apply never_cost
    | apply never_pallet | apply never_or_revert
    | match goal with |- never (match ?x with _ => _ end) => destruct x end ].

(** When a program panics, step by step. *)
Abbreviation panics m w := ((m w).1 = Err Panics).
Lemma pan_never {A} (m : M (Z * Runtime) Failure A) w : never m → panics m w ↔ False.
Proof. intros Hm. specialize (Hm w). by split. Qed.
Lemma pan_cost {A} c (m : M (Z * Runtime) Failure A) w :
  panics (record_cost c;; m) w ↔ c ≤ w.1 ∧ panics m (w.1 - c, w.2).
Proof. unfold record_cost, mbind, M_bind. destruct (Z.leb_spec c w.1); [naive_solver|]. split; [done|lia]. Qed.
Lemma pan_ok_or {A B} (o : option A) why (k : A → M (Z * Runtime) Failure B) w :
  panics (ok_or o (Revert why) ≫= k) w ↔ ∃ a, o = Some a ∧ panics (k a) w.
Proof. unfold ok_or, mbind, M_bind. destruct o; naive_solver. Qed.
Lemma pan_arg {A B} toks n (into : Token → option A) t a (k : A → M (Z * Runtime) Failure B) w :
  toks !! n = Some t → into t = Some a → panics (arg toks n into ≫= k) w ↔ panics (k a) w.
Proof. intros Ht Hi. unfold arg. by rewrite Ht, Hi. Qed.
Lemma pan_uint {B} toks n max v (k : Z → M (Z * Runtime) Failure B) w :
  toks !! n = Some (TUint v) → panics (uint_arg toks n max ≫= k) w ↔ max < v ∨ panics (k v) w.
Proof.
  intros Ht. unfold uint_arg, arg. rewrite Ht. unfold as_uint, into_uint, ok_or, mbind, M_bind.
  destruct (Z.leb_spec v max); simpl; naive_solver lia.
Qed.
Lemma pan_selected {A B} (vs : list (bytes * A)) h (k : A → M (Z * Runtime) Failure B) w :
  panics (selected T vs h ≫= k) w ↔ ∃ a, chosen h vs = Some a ∧ panics (k a) w.
Proof.
  unfold selected, chosen, ensure, ok_or, mbind, M_bind. destruct (Nat.leb 4 _); simpl; [|naive_solver].
  destruct (List.find _ vs); simpl; naive_solver.
Qed.
Lemma chosen_fmap {A B} (f : A → B) h (vs : list (bytes * A)) : chosen h (prod_map id f <$> vs) = f <$> chosen h vs.
Proof.
  unfold chosen. destruct (Nat.leb 4 _); [|done]. induction vs as [|[s a] vs IH]; [done|].
  rewrite fmap_cons. cbn [List.find prod_map id fst snd]. by destruct (_ =? _).
Qed.

(** The functions, one by one. *)
Ltac open_tokens :=
  repeat match goal with
  | H : Forall2 has_type (_ :: _) _ |- _ =>
      let t := fresh "t" in let Y := fresh "Y" in apply Forall2_cons_inv_l in H as (t & ? & Y & H & ->);
      destruct t; simpl in Y; try done; clear Y
  | H : Forall2 has_type [] _ |- _ => apply Forall2_nil_inv_l in H as ->
  end.
Ltac pan_step :=
  first
  [ erewrite pan_uint by reflexivity
  | erewrite pan_arg by reflexivity
  | rewrite pan_never by never_steps ].
Lemma pan_decode {B} F h (k : list Token → M (Z * Runtime) Failure B) w :
  HostLaws T →
  (∀ toks, Forall2 has_type (argument_types F) toks → panics (k toks) w ↔ exceeds (converted F) toks) →
  panics (decode T (argument_types F) h ≫= k) w ↔
    ∃ toks, abi_decode T (argument_types F) (drop 4 (input h)) = Some toks ∧ exceeds (converted F) toks.
Proof.
  intros HT Hk. unfold decode. rewrite pan_ok_or. split; intros (toks & Hd & Hp); exists toks; (split; [done|]);
    apply Hk; [by apply (decode_typed T HT) in Hd|done|by apply (decode_typed T HT) in Hd|done].
Qed.
Definition panics_as (F : Function) h {A} (m : M (Z * Runtime) Failure A) : Prop :=
  ∀ w, panics m w ↔ oversized F h w.1.
Lemma as_free {B} F h (k : list Token → M (Z * Runtime) Failure B) :
  HostLaws T → charged_first F = None →
  (∀ w toks, Forall2 has_type (argument_types F) toks → panics (k toks) w ↔ exceeds (converted F) toks) →
  panics_as F h (decode T (argument_types F) h ≫= k).
Proof. intros HT Hc Hk w. rewrite (pan_decode F h k w HT (Hk w)). unfold oversized. rewrite Hc. naive_solver. Qed.
Lemma as_charged {B} F h c (k : list Token → M (Z * Runtime) Failure B) :
  HostLaws T → charged_first F = Some c →
  (∀ w toks, Forall2 has_type (argument_types F) toks → panics (k toks) w ↔ exceeds (converted F) toks) →
  panics_as F h (record_parts T c;; decode T (argument_types F) h ≫= k).
Proof.
  intros HT Hc Hk w. unfold record_parts. rewrite pan_cost, (pan_decode F h k _ HT (Hk _)).
  unfold oversized. rewrite Hc. naive_solver.
Qed.
Lemma as_never {A} F h (m : M (Z * Runtime) Failure A) : converted F = [] → never m → panics_as F h m.
Proof.
  intros Hc Hm w. rewrite (pan_never m w Hm). split; [done|]. intros (_ & toks & _ & He). rewrite Hc in He. by apply exceeds_nil in He.
Qed.
Lemma dispatch_panics {A} (vs : list (bytes * A)) (f : A → Function) (k : A → M (Z * Runtime) Failure bytes) h w :
  (∀ a, panics_as (f a) h (k a)) →
  panics (selected T vs h ≫= k) w ↔ ∃ F, chosen h (prod_map id f <$> vs) = Some F ∧ oversized F h w.1.
Proof.
  intros Hk. rewrite pan_selected, chosen_fmap. split.
  - intros (a & Ha & Hp). exists (f a). rewrite Ha. split; [done|by apply Hk].
  - intros (F & HF & Ho). apply fmap_Some in HF as (a & Ha & ->). exists a. split; [done|by apply Hk].
Qed.

(** A function: its arguments are decoded, the conversions come first, and what
    follows them does not panic. *)
Ltac function_panics HT :=
  first [ apply as_never; [reflexivity|solve [never_steps]]
        | apply as_charged; [exact HT|reflexivity|] | apply as_free; [exact HT|reflexivity|] ];
  let w := fresh "w" in let toks := fresh "toks" in let Hty := fresh "Hty" in
  intros w toks Hty; simpl in Hty; open_tokens; repeat pan_step; cbn [converted fn by_id of_machine rent_fee];
  repeat rewrite exceeds_cons; rewrite exceeds_nil; cbn [lookup list_lookup]; naive_solver.
Ltac contract_panics HT f :=
  rewrite (dispatch_panics _ f); [reflexivity|]; intros sel; destruct sel; cbv beta iota;
  unfold query_machine, query_rent_fee, get_rent_end_at, is_machine_owner,
    get_dlc_rent_fee_by_calc_point, create_task_order, query_task_status, get_model_price, register_node, zk_query_task,
    zk_claim_reward, query_pool, query_pool_task, query_node, do_heartbeat, query_payment_intent,
    query_settlement_receipt, returns, record_db, on_tasks, on_agents, on_zk, on_balances;
  function_panics HT.

(** The functions of the contract at an address. *)
Definition functions (address : H160) : list (bytes * Function) :=
  default [] (snd <$> List.find (λ p, bool_decide (p.1 = address)) contract_functions).
Abbreviation panics_only m h address := (∀ w : Z * Runtime,
  panics m w ↔ ∃ F, chosen h (functions address) = Some F ∧ oversized F h w.1).

Lemma bridge_panics h : HostLaws T → panics_only (bridge T h) h 2048%N.
Proof.
  intros HT w. unfold bridge.
  rewrite (dispatch_panics _ (λ _ : unit, fn None [PAddress; PString; PUint 256] [])); [reflexivity|]. intros [].
  unfold bridge_transfer, record_db, on_balances. function_panics HT.
Qed.
Lemma dbc_price_panics h : HostLaws T → panics_only (dbc_price_execute T h) h 2049%N.
Proof.
  intros HT w. unfold dbc_price_execute.
  contract_panics HT (λ s, match s with GetDBCPrice => fn None [] [] | GetDBCAmountByValue => fn None [PUint 256] [] end).
Qed.
Lemma dlc_price_panics h : HostLaws T → panics_only (dlc_price_execute T h) h 2050%N.
Proof.
  intros HT w. unfold dlc_price_execute.
  contract_panics HT (λ s, match s with GetDLCPrice => fn None [] [] | GetDLCAmountByValue => fn None [PUint 256] [] end).
Qed.
Lemma machine_info_panics h : HostLaws T → panics_only (machine_info_execute T h) h 2051%N.
Proof.
  intros HT w. unfold machine_info_execute.
  contract_panics HT (λ s, match s with
    | GetMachineCalcPoint | GetMachineCPURate | GetMachineGPUCount | GetMachineGPUTypeAndMem => of_machine
    | GetRentEndAt => fn None [PString; PUint 256] [(1%nat, U64_MAX)]
    | IsMachineOwner => fn None [PString; PAddress] []
    | GetDLCMachineRentFee | GetDBCMachineRentFee | GetUSDTMachineRentFee => rent_fee
    | GetDLCRentFeeByCalcPoint => fn None [PUint 256; PUint 256; PUint 256; PUint 256]
        [(0%nat, U64_MAX); (1%nat, U64_MAX); (2%nat, U32_MAX); (3%nat, U32_MAX)]
    end).
Qed.
Lemma agent_task_panics h : HostLaws T → panics_only (agent_task_execute (Q:=Q) T task_config agent_config now h) h 2096%N.
Proof.
  intros HT w. unfold agent_task_execute.
  contract_panics HT (λ s, match s with
    | CreateTaskOrder =>
        fn None [PUint 64; PAddress; PUint 64; PUint 64] [(0%nat, U64_MAX); (2%nat, U64_MAX); (3%nat, U64_MAX)]
    | QueryTaskStatus => by_id None | GetModelPrice => fn None [PBytes] []
    | RegisterNode => fn None [PBytes; PUint 32] [(1%nat, U32_MAX)]
    end).
Qed.
Lemma zk_panics h : HostLaws T → panics_only (zk_compute_execute T zk_config h) h 2097%N.
Proof.
  intros HT w. unfold zk_compute_execute.
  contract_panics HT (λ s, match s with QueryTask => by_id (Some 10000) | ClaimReward => by_id (Some 50000) end).
Qed.
Lemma compute_pool_panics h : HostLaws T → panics_only (compute_pool_execute T h) h 2098%N.
Proof.
  intros HT w. unfold compute_pool_execute.
  contract_panics HT (λ s, match s with QueryPool => by_id (Some 10000) | QueryPoolTask => by_id (Some 10000) end).
Qed.
Lemma attestation_panics h : HostLaws T → panics_only (attestation_execute T agent_config now h) h 2099%N.
Proof.
  intros HT w. unfold attestation_execute.
  contract_panics HT (λ s, match s with
    | QueryNode => fn (Some 10000) [PAddress] [] | Heartbeat => fn (Some 50000) [] [] end).
Qed.
Lemma x402_panics h : HostLaws T → panics_only (x402_execute T h) h 2100%N.
Proof.
  intros HT w. unfold x402_execute.
  contract_panics HT (λ s, match s with
    | QueryPaymentIntent => by_id (Some 10000) | QuerySettlementReceipt => by_id (Some 10000) end).
Qed.
Lemma routed_panics others h f :
  HostLaws T → code_address h ∈ 2048%N :: native_addresses →
  routed (Q:=Q) T task_config zk_config agent_config now others (code_address h) = Some f →
  panics_only (f h) h (code_address h).
Proof.
  intros HT. generalize (code_address h) as address. intros address Ha Hf.
  repeat (apply elem_of_cons in Ha as [->|Ha]); [..|by apply not_elem_of_nil in Ha]; injection Hf as <-;
    [by apply bridge_panics|by apply dbc_price_panics|by apply dlc_price_panics|by apply machine_info_panics
    |by apply agent_task_panics|by apply zk_panics|by apply compute_pool_panics|by apply attestation_panics|by apply x402_panics].
Qed.

(** C27: a call of a contract of the runtime panics exactly when it is made
    directly (and, at the bridge, by a caller on the whitelist), its input begins
    with the selector of a function of the contract, the gas pays for the weight
    the function charges before anything else, the rest of the input decodes to
    the types of the function's arguments, and one of the arguments it converts
    to u64 or u32 is larger than fits; [contract_functions] lists the functions. *)
Theorem evm_panics_oversized others h g r :
  HostLaws T → code_address h ∈ 2048%N :: native_addresses →
  (run others h (g, r)).1 = Err Panics ↔
    context_address h = code_address h ∧
    (code_address h = 2048%N → caller h ∈ whitelist_of (whitelist r) 2048) ∧
    ∃ F, chosen h (functions (code_address h)) = Some F ∧ oversized F h g.
Proof.
  intros HT Ha. destruct (routed_some others _ Ha) as ([f Hf] & H9 & Hp).
  pose proof (routed_panics others h f HT Ha Hf (g, r)) as Hpan. cbn [fst] in Hpan. rewrite <-Hpan.
  unfold execute. rewrite Hf, Hp, H9. unfold ensure, reads, mbind, M_bind, mret, M_ret. simpl.
  case_bool_decide as Hc; simpl; [|naive_solver].
  case_bool_decide as Hb; simpl.
  - rewrite Hb in *. case_bool_decide as Hw; simpl; [|naive_solver].
    destruct (f h (g, r)) as [[x|e] w1]; simpl;
      (split; [|intros (_ & _ & He); by simplify_eq]); [done|by intros [= ->]].
  - destruct (f h (g, r)) as [[x|e] w1]; simpl;
      (split; [|intros (_ & _ & He); by simplify_eq]); [done|by intros [= ->]].
Qed.
End theorems.

(** ** Calls on a concrete runtime

    The orders and prices of the run of TaskMode.v, the proofs of the run of
    ZkCompute.v, an ABI with words of 32 bytes, and the caller 7 on the
    whitelist of the bridge. *)
Module Demo.
#[local] Existing Instances Ledger.currency Ledger.laws percent percent_laws perbill perbill_laws.
#[local] Instance no_machines : RTOps Ledger.t unit := {|
  rt_machines_info _ _ := None; rt_machine_rented_gpu _ _ := 0; rt_rent_fee_destroy_percent _ := 0;
  rt_get_machine_price _ _ _ _ := None; rt_on_rent_start _ _ := mret tt; rt_on_confirmed _ _ := mret tt;
  rt_on_rent_end _ _ _ _ _ _ _ := mret tt; rt_on_confirm_expired _ _ := mret tt;
  rt_change_machine_rent_fee _ _ _ _ := mret tt |}.
#[local] Instance no_price : RentPrice unit := {| dbc_amount_by_value _ _ := None; dlc_amount_by_value _ _ := None |}.

(** *** An ABI *)
Definition word (b : bytes) (offset : nat) : option bytes :=
  let w := take 32 (drop offset b) in if Nat.eqb (length w) 32 then Some w else None.
Definition dynamic (b : bytes) (offset : nat) : option bytes :=
  at_ ← word b offset; n ← word b (Z.to_nat (from_be_bytes at_));
  Some (take (Z.to_nat (from_be_bytes n)) (drop (Z.to_nat (from_be_bytes at_) + 32) b)).
Definition decode_one (b : bytes) (offset : nat) (t : ParamType) : option Token :=
  match t with
  | PAddress => w ← word b offset; Some (TAddress (Z.to_N (from_be_bytes (drop 12 w))))
  | PBytes => TBytes <$> dynamic b offset
  | PString => TString <$> dynamic b offset
  | PUint _ => w ← word b offset; Some (TUint (from_be_bytes w))
  end.
Fixpoint decode_from (offset : nat) (ts : list ParamType) (b : bytes) : option (list Token) :=
  match ts with
  | [] => Some []
  | t :: ts => x ← decode_one b offset t; xs ← decode_from (offset + 32) ts b; Some (x :: xs)
  end.
Fixpoint be_bytes (n : nat) (v : Z) : bytes :=
  match n with
  | O => []
  | S n => be_bytes n (v / 256) ++ [default x00 (Byte.of_N (Z.to_N (v mod 256)))]
  end.
Definition encode_one (t : Token) : bytes :=
  match t with
  | TAddress a => be_bytes 32 (Z.of_N a)
  | TUint v => be_bytes 32 v
  | TBool b => be_bytes 32 (if b then 1 else 0)
  | TBytes b | TString b => b
  end.

Definition T : Host := {|
  abi_decode := decode_from 0;
  abi_encode ts := mjoin (encode_one <$> ts);
  keccak256 b := be_bytes 4 (foldl (λ v x, (257 * v + Z.of_N (Byte.to_N x)) mod 2 ^ 32) 0 b);
  hex_account b := Some (Z.to_N (from_be_bytes b));
  into_account_id a := a;
  db_gas r w := r + 2 * w;
  parts_gas n := n;
|}.
Lemma from_be_bound b : 0 ≤ from_be_bytes b < 256 ^ Z.of_nat (length b).
Proof.
  unfold from_be_bytes. induction b as [|x b IH] using rev_ind; [done|].
  rewrite foldl_app, length_app. simpl. rewrite Nat2Z.inj_add, Z.pow_add_r by lia. change (256 ^ Z.of_nat 1) with 256.
  pose proof (Byte.to_N_bounded x). lia.
Qed.
Lemma evm_host_laws : HostLaws T.
Proof.
  split. simpl. intros ts b toks. generalize 0%nat as k. revert toks.
  induction ts as [|t ts IH]; intros toks k Hd; simpl in Hd; [simplify_eq; constructor|].
  destruct (decode_one b k t) as [x|] eqn:Hx; [|done]. destruct (decode_from (k + 32) ts b) as [xs|] eqn:Hxs; [|done].
  simpl in Hd. simplify_eq. constructor; [|by eapply IH]. destruct t; simpl in Hx.
  - destruct (word b k); simpl in Hx; by simplify_eq.
  - destruct (dynamic b k); simpl in Hx; by simplify_eq.
  - destruct (dynamic b k); simpl in Hx; by simplify_eq.
  - destruct (word b k) as [w|] eqn:Hw; simpl in Hx; simplify_eq. simpl. unfold word in Hw.
    destruct (Nat.eqb_spec (length (take 32 (drop k b))) 32) as [Hl|]; simplify_eq.
    pose proof (from_be_bound (take 32 (drop k b))) as Hb. rewrite Hl in Hb. unfold U256_MAX.
    change (256 ^ Z.of_nat 32) with (2 ^ 256) in Hb. lia.
Qed.

(** *** Calls *)
Definition call (address : H160) (who : H160) (signature : bytes) (args : list Token) : Handle := {|
  code_address := address; context_address := address; caller := who;
  input := be_bytes 4 (get_function_selector T signature) ++ abi_encode T args |}.
Definition others (_ : H160) (_ : Handle) : M (Z * Runtime unit Ledger.t) Failure bytes := mret [].
Definition start : Runtime unit Ledger.t := {|
  whitelist := {| PrecompileWhitelist := {[2048 := [7]]}%N; events := [] |};
  dbc_price := TaskMode.Demo.price_oracle; dlc_price := PriceOcw.genesis; rentals := RentMachine.genesis;
  registry := tt; tasks := TaskMode.Demo.defined.1; zk := ZkDemo.accepted.1; pools := Scheduler.genesis;
  agents := Attestation.genesis; payments := X402.genesis;
  ledger := {[1 := (10000000000000000, 200); 2 := (10, 0); 7 := (5, 0); 8 := (5, 0); 50 := (5000, 0)]}%N |}.
Abbreviation exec h r := (execute (Q:=percent) T TaskMode.Demo.T ZkDemo.T Attestation.Demo.T 0 others h (100000, r)).

Definition order : Handle := call 2096 1 (str "createTaskOrder(uint64,address,uint64,uint64)")
  [TUint 0; TAddress 2; TUint 1000; TUint 2000].
Definition claim : Handle := call 2097 1 (str "claimReward(uint64)") [TUint 0].
(** The receiver's account is the number that the 64 digits spell. *)
Definition receiver : bytes := repeat x30 64.
Definition bridged (who : H160) (amount : Z) : Handle := call 2048 who (str "transfer(address,string,uint256)")
  [TAddress 8; TUint 96; TUint amount; TUint 66; TString (str "0x" ++ receiver)].
Definition huge : Handle := call 2097 1 (str "queryTask(uint64)") [TUint (2 ^ 64)].

(** The set runs the contracts at the addresses 6 to 9, which it says are none. *)
Lemma evm_unlisted_contracts :
  Forall (λ a, is_precompile a = false ∧ is_Some (routed (Q:=percent) T TaskMode.Demo.T ZkDemo.T Attestation.Demo.T 0
    others a)) [6; 7; 8; 9]%N.
Proof. repeat constructor; eauto. Qed.
(** The answer to queryTaskStatus has no miner: the order of miner 2 is answered
    with the address 0. *)
Lemma evm_status_without_miner :
  let r := (exec order start).2.2 in
  TaskMode.miner <$> TaskMode.TaskOrders (tasks r) !! 0 = Some 2%N ∧
  (exec (call 2096 1 (str "queryTaskStatus(uint64)") [TUint 0]) r).1 =
    Ok (Some (abi_encode T [TUint 1; TAddress 0; TUint 1515151515151515])).
Proof. cbv zeta. split; vm_compute; reflexivity. Qed.

#[local] Strategy 1000 [ZkDemo.accepted ZkDemo.both ZkDemo.first ZkDemo.act TaskMode.Demo.defined TaskMode.Demo.act].
Lemma evm_start_invariants :
  TaskMode.Inv TaskMode.Demo.T 0 (tasks start) ∧ PriceOcw.Inv (dbc_price start) ∧ ZkCompute.Inv ZkDemo.T 0 (zk start).
Proof.
  cbn [tasks dbc_price zk start]. split.
  - apply (TaskMode.tm_Inv_reachable TaskMode.Demo.T TaskMode.Demo.tm_config_ok (0, TaskMode.Demo.defined)), TaskMode.Demo.defined_reachable.
  - split; [exact TaskMode.Demo.tm_oracle_ok|].
    apply (ZkCompute.zk_Inv_reachable ZkDemo.T ZkDemo.zk_config_ok (0, ZkDemo.accepted)), ZkDemo.accepted_reachable.
Qed.
Lemma evm_ran {A B} (p : A * B) a : p.1 = a → p = (a, p.2).
Proof. by intros <-; destruct p. Qed.
Lemma evm_claim_ran : exec claim start = (Ok (Some (abi_encode T [TBool true])), (exec claim start).2).
Proof. apply evm_ran. vm_compute. reflexivity. Qed.
Lemma evm_order_ran : exec order start = (Ok (Some (abi_encode T [TUint 0])), (exec order start).2).
Proof. apply evm_ran. vm_compute. reflexivity. Qed.
Lemma evm_bridged_ran : exec (bridged 7 2000) start = (Ok (Some []), (exec (bridged 7 2000) start).2).
Proof. apply evm_ran. vm_compute. reflexivity. Qed.
Abbreviation create h r := (create_task_order (Q:=percent) T TaskMode.Demo.T 0 h (100000, r)).
Lemma evm_created : create order start = (Ok (abi_encode T [TUint 0]), (create order start).2).
Proof. apply evm_ran. vm_compute. reflexivity. Qed.
Lemma evm_facts : code_address claim = 2097%N ∧ code_address order = 2096%N ∧ code_address (bridged 7 2000) = 2048%N ∧
  caller claim = 1%N ∧ caller order = 1%N ∧
  abi_decode T [PAddress; PString; PUint 256] (drop 4 (input (bridged 7 2000))) =
    Some [TAddress 8; TString (str "0x" ++ receiver); TUint 2000] ∧
  abi_decode T [PUint 64] (drop 4 (input huge)) = Some [TUint (2 ^ 64)] ∧
  free_balance (ledger start) 8%N = 5 ∧ reserved_balance (ledger start) 1%N = 200.
Proof. split_and!; vm_compute; reflexivity. Qed.
#[local] Strategy 1000 [start order claim bridged huge receiver].

Lemma evm_calls_are_native_witness :
  native (Q:=percent) TaskMode.Demo.T ZkDemo.T Attestation.Demo.T 0 1%N start (exec claim start).2.2 ∧
  (exec claim start).1 = Ok (Some (abi_encode T [TBool true])).
Proof.
  destruct evm_facts as (Ha & _ & _ & Hc & _).
  assert (code_address claim ∈ native_addresses) as Hin by (rewrite Ha; apply (bool_decide_unpack _); reflexivity).
  destruct (evm_calls_are_native (Q:=percent) T TaskMode.Demo.T ZkDemo.T Attestation.Demo.T 0 others claim 100000 start _ _
    evm_host_laws Hin evm_claim_ran) as (_ & _ & Hn).
  rewrite Hc in Hn. split; [exact Hn|]. exact (f_equal fst evm_claim_ran).
Defined.
Lemma evm_spends_caller_only_witness :
  free_balance (ledger (exec order start).2.2) 8%N = 5 ∧
  free_balance (ledger start) 1%N + reserved_balance (ledger start) 1%N ≤
    free_balance (ledger (exec order start).2.2) 1%N + reserved_balance (ledger (exec order start).2.2) 1%N.
Proof.
  destruct evm_facts as (_ & Ha & _ & _ & Hc & _ & _ & H8 & _). destruct evm_start_invariants as (I1 & I2 & I3).
  assert (code_address order ∈ native_addresses) as Hin by (rewrite Ha; apply (bool_decide_unpack _); reflexivity).
  destruct (evm_spends_caller_only (Q:=percent) T TaskMode.Demo.T ZkDemo.T Attestation.Demo.T 0 others order 100000 start _ _
    evm_host_laws TaskMode.Demo.tm_config_ok ZkDemo.zk_config_ok I1 I2 I3 Hin evm_order_ran) as [Hb Hself].
  rewrite Hc in Hb, Hself.
  split; [|apply Hself; discriminate]. destruct (Hb 8%N) as [-> _]; [discriminate..|exact H8].
Defined.
Lemma evm_create_order_returns_id_witness :
  ∃ o, TaskMode.TaskOrders (tasks (create order start).2.2) !! 0 = Some o ∧ TaskMode.customer o = 1%N ∧
    reserved_balance (ledger (create order start).2.2) 1%N = 200 + TaskMode.total_dbc_charged o.
Proof.
  destruct evm_facts as (_ & _ & _ & _ & Hc & _ & _ & _ & Hr). destruct evm_start_invariants as (I1 & I2 & _).
  destruct (evm_create_order_returns_id (Q:=percent) T TaskMode.Demo.T 0 order 100000 start _ _
    evm_host_laws TaskMode.Demo.tm_config_ok I1 I2 evm_created)
    as (Hid & _ & o & tid & m & i & p & _ & Ho & Hcu & _ & _ & _ & _ & Hres).
  assert (TaskMode.NextOrderId (tasks start) = 0) as H0 by (vm_compute; reflexivity). rewrite H0 in Ho. rewrite Hc in Hcu, Hres.
  exists o. split; [rewrite Ho; apply lookup_insert_eq|]. split; [exact Hcu|].
  change (into_account_id T 1%N) with 1%N in Hres. rewrite Hr in Hres. exact Hres.
Defined.
Lemma evm_panics_oversized_witness :
  (exec huge start).1 = Err Panics ∧ (exec claim start).1 ≠ Err Panics ∧
  ¬ ∃ F, chosen T claim (functions 2097%N) = Some F ∧ oversized T F claim 100000.
Proof.
  destruct evm_facts as (Ha & _ & _ & _ & _ & _ & Hd & _). split.
  - apply (evm_panics_oversized (Q:=percent) T TaskMode.Demo.T ZkDemo.T Attestation.Demo.T 0 others huge 100000 start evm_host_laws).
    + apply (bool_decide_unpack _). vm_compute. reflexivity.
    + split; [vm_compute; reflexivity|]. split; [intros He; vm_compute in He; discriminate He|].
      exists (by_id (Some 10000)). split; [vm_compute; reflexivity|]. split; [intros c [= <-]; vm_compute; discriminate|].
      exists [TUint (2 ^ 64)]. split; [exact Hd|]. exists 0%nat, U64_MAX, (2 ^ 64). split; [left|]. split; reflexivity.
  - assert ((exec claim start).1 ≠ Err Panics) as Hno by (rewrite evm_claim_ran; discriminate).
    split; [exact Hno|]. intros HF. apply Hno.
    apply (evm_panics_oversized (Q:=percent) T TaskMode.Demo.T ZkDemo.T Attestation.Demo.T 0 others claim 100000 start evm_host_laws);
      rewrite Ha; [apply (bool_decide_unpack _); reflexivity|].
    split; [vm_compute; reflexivity|]. split; [discriminate|exact HF].
Defined.
End Demo.
End PrecompileTheorems.
