(* ===== verification/CouncilReward.v ===== *)
(** * pallet-council-reward

    The rewards of the council: the prime member and the members with most
    support, three in all, get a reward worth a number of dollars, up to a number
    of DBC each, from the treasury. Models src/pallets/council-reward/src/lib.rs
    (the hook that would call it is commented out there). The seats are those
    of pallet-elections-phragmen, whose members are its argument. *)
From stdpp Require Import base gmap fin_maps list numbers sorting.
From Stdlib Require Import ZArith Lia.
From S2P Require Import Prelude Currency Interfaces.

Module CouncilReward.
(** What the code reads of a seat. *)
Record SeatHolder := { who : AccountId; stake : Z }.
(** The three rewards, each a value in dollars and a maximum. *)
Record Config := {
  PrimerReward : Z * Balance;
  SecondReward : Z * Balance;
  ThirdReward : Z * Balance;
}.
Inductive Event := RewardCouncil (a : AccountId) (v : Balance).
Record State := { Treasury : option AccountId; events : list Event }.
#[export] Instance State_eta : RecordEta State := λ s, Build_State (Treasury s) (events s).
Definition deposit_event (e : Event) (s : State) : State := s <| events ::= λ es, es ++ [e] |>.

(** [sort_by] with the greater stake first; it keeps the order of equal ones. *)
Fixpoint insert_seat (x : SeatHolder) (l : list SeatHolder) : list SeatHolder :=
  match l with
  | [] => [x]
  | y :: l => if stake y <=? stake x then x :: y :: l else y :: insert_seat x l
  end.
Definition sort_seats (l : list SeatHolder) : list SeatHolder := foldr insert_seat [] l.

Section pallet.
Context {L O : Type} `{!ReservableCurrency L} `{!DbcPrice O} (T : Config).

Definition get_rewards (oracle : O) : list Balance :=
  (λ reward : Z * Balance, Z.min (default 0 (get_dbc_amount_by_value oracle reward.1)) reward.2) <$>
    [PrimerReward T; SecondReward T; ThirdReward T].

(** The loop over the members; an index out of range is a panic ([None]). *)
Fixpoint reward_members (prime : option AccountId) (rewards : list Balance) (members : list SeatHolder)
    (out : list (AccountId * Balance)) (reward_index : nat) : option (list (AccountId * Balance)) :=
  match members with
  | [] => Some out
  | member :: members =>
      if Nat.eqb (length out) 3 || Nat.leb 3 reward_index then Some out
      else if bool_decide (Some (who member) ≠ prime) then
        reward ← rewards !! reward_index;
        reward_members prime rewards members (out ++ [(who member, reward)]) (S reward_index)
      else reward_members prime rewards members out reward_index
  end.
Definition get_council_reward (oracle : O) (prime : option AccountId) (members : list SeatHolder) :
    option (list (AccountId * Balance)) :=
  let members := sort_seats members in
  let rewards := get_rewards oracle in
  match prime with
  | Some p =>
      reward ← rewards !! 0%nat;
      reward_members prime rewards members [(p, reward)] 1
  | None => reward_members prime rewards members [] 0
  end.

Definition pay_reward (treasury : AccountId) (r : AccountId * Balance) : M (State * L) unit unit := λ w,
  match transfer treasury r.1 r.2 KeepAlive w.2 with
  | Some l => (Ok tt, (deposit_event (RewardCouncil r.1 r.2) w.1, l))
  | None => (Ok tt, w)
  end.
Definition reward_council (oracle : O) (prime : option AccountId) (members : list SeatHolder) :
    M (State * L) unit unit :=
  maybe_treasury ← st_gets Treasury;
  council_reward ← ok_or (get_council_reward oracle prime members) tt;
  match maybe_treasury with
  | Some treasury => for_each council_reward (pay_reward treasury)
  | None => mret tt
  end.

(** ** Who is rewarded *)
Lemma insert_seat_perm x l : insert_seat x l ≡ₚ x :: l.
Proof.
  induction l as [|y l IH]; simpl; [done|]. destruct (_ <=? _); [done|]. rewrite IH. apply Permutation_swap.
Qed.
Lemma sort_seats_perm l : sort_seats l ≡ₚ l.
Proof. induction l as [|x l IH]; simpl; [done|]. by rewrite insert_seat_perm, IH. Qed.
Definition descending (l : list SeatHolder) : Prop := StronglySorted (λ x y, stake y ≤ stake x) l.
Lemma insert_seat_sorted x l : descending l → descending (insert_seat x l).
Proof.
  induction 1 as [|y l Hl IH Hy]; simpl; [repeat constructor|]. destruct (Z.leb_spec (stake y) (stake x)) as [Hle|Hlt].
  - constructor; [by constructor|]. constructor; [done|]. eapply list.Forall_impl; [exact Hy|]. intros z Hz. simpl in Hz. lia.
  - constructor; [done|]. rewrite insert_seat_perm. constructor; [lia|done].
Qed.
Lemma sort_seats_sorted l : descending (sort_seats l).
Proof. induction l; simpl; [constructor|by apply insert_seat_sorted]. Qed.

(** The loop rewards the members other than the prime, in order, while rewards
    are left. *)
Lemma reward_members_spec prime rewards members out :
  length rewards = 3%nat → (length out ≤ 3)%nat →
  let others := filter (λ m, Some (who m) ≠ prime) members in
  reward_members prime rewards members out (length out) =
    Some (out ++ zip (who <$> others) (drop (length out) rewards)).
Proof.
  intros Hr. cbv zeta. revert out. induction members as [|m ms IH]; intros out Hout; cbn [reward_members];
    [by rewrite app_nil_r|].
  destruct (decide (length out = 3%nat)) as [H3|H3].
  - rewrite H3. simpl. rewrite drop_ge by lia. by rewrite zip_with_nil_r, app_nil_r.
  - rewrite (proj2 (Nat.eqb_neq _ _) H3), (proj2 (Nat.leb_gt _ _)) by lia. simpl.
    rewrite filter_cons. destruct (decide (Some (who m) ≠ prime)) as [Hq|Hq];
      [rewrite bool_decide_eq_true_2 by done|rewrite bool_decide_eq_false_2 by done; by apply IH].
    destruct (lookup_lt_is_Some_2 rewards (length out)) as [v Hv]; [lia|]. rewrite Hv. simpl.
    specialize (IH (out ++ [(who m, v)])). rewrite length_app in IH. simpl in IH. rewrite Nat.add_1_r in IH.
    rewrite IH by lia. rewrite <-app_assoc. simpl. by rewrite (drop_S rewards v _ Hv).
Qed.

(** The accounts by rank: the prime, then the others by stake. *)
Definition ranking (prime : option AccountId) (members : list SeatHolder) : list AccountId :=
  option_list prime ++ (who <$> filter (λ m, Some (who m) ≠ prime) (sort_seats members)).
Lemma council_reward_ranking oracle prime members :
  get_council_reward oracle prime members = Some (zip (ranking prime members) (get_rewards oracle)).
Proof.
  unfold get_council_reward, ranking. destruct prime as [p|].
  - exact (reward_members_spec (Some p) (get_rewards oracle) (sort_seats members) [(p, _)] eq_refl ltac:(simpl; lia)).
  - exact (reward_members_spec None (get_rewards oracle) (sort_seats members) [] eq_refl ltac:(simpl; lia)).
Qed.
Lemma elem_of_ranking prime members a :
  a ∈ ranking prime members ↔ prime = Some a ∨ a ∈ who <$> members.
Proof.
  unfold ranking. rewrite elem_of_app. setoid_rewrite list_elem_of_fmap. setoid_rewrite list_elem_of_filter.
  setoid_rewrite sort_seats_perm. destruct prime as [p|]; simpl; rewrite ?list_elem_of_singleton, ?elem_of_nil.
  - destruct (decide (a = p)) as [->|]; naive_solver congruence.
  - naive_solver.
Qed.
Lemma ranking_NoDup prime members : NoDup (who <$> members) → NoDup (ranking prime members).
Proof.
  intros Hnd. unfold ranking. apply NoDup_app. split; [by destruct prime; simpl; [apply NoDup_singleton|constructor]|].
  split.
  - intros a Ha (m & -> & Hm)%list_elem_of_fmap. apply list_elem_of_filter in Hm as [Hm _]. destruct prime; simpl in Ha;
      [apply list_elem_of_singleton in Ha; congruence|by apply elem_of_nil in Ha].
  - rewrite <-(sort_seats_perm members) in Hnd. revert Hnd. generalize (sort_seats members) as l.
    induction l as [|m l IH]; [done|]. rewrite fmap_cons, NoDup_cons. intros [Hm Hl]. rewrite filter_cons.
    destruct (decide _); [|by apply IH]. rewrite fmap_cons, NoDup_cons. split; [|by apply IH].
    intros (y & Hwy & Hy)%list_elem_of_fmap. apply list_elem_of_filter in Hy as [_ Hy]. apply Hm.
    apply list_elem_of_fmap. eauto.
Qed.
(** Of two members other than the prime, the one with more stake ranks first. *)
Lemma ranking_stakes n prime members x y :
  NoDup (who <$> members) → x ∈ members → y ∈ members → Some (who x) ≠ prime → Some (who y) ≠ prime →
  who x ∈ take n (ranking prime members) → who y ∉ take n (ranking prime members) → stake y ≤ stake x.
Proof.
  intros Hnd Hx Hy Hxp Hyp. unfold ranking. rewrite take_app, <-fmap_take.
  set (o := filter _ (sort_seats members)). set (k := (n - _)%nat).
  assert (∀ m, m ∈ members → Some (who m) ≠ prime → m ∈ o) as Ho.
  { intros m Hm Hmp. apply list_elem_of_filter. split; [done|]. by rewrite sort_seats_perm. }
  assert (∀ a, a ∈ take n (option_list prime) → prime = Some a) as Hprime.
  { intros a Ha%elem_of_take. destruct Ha as (i & Ha%list_elem_of_lookup_2 & _). destruct prime; simpl in Ha;
      [apply list_elem_of_singleton in Ha; congruence|by apply elem_of_nil in Ha]. }
  rewrite !elem_of_app. intros [Hin|Hin] Hout; [apply Hprime in Hin; congruence|].
  apply list_elem_of_fmap in Hin as (x' & Hwx & Hin).
  assert (descending o) as Hs.
  { unfold o. pose proof (sort_seats_sorted members) as Hs. revert Hs. generalize (sort_seats members) as l.
    induction 1 as [|m l Hl IH Hm]; [constructor|]. rewrite filter_cons. destruct (decide _); [|done].
    constructor; [done|]. apply Forall_forall. intros z [_ Hz]%list_elem_of_filter. by eapply Forall_forall in Hm. }
  assert (x' = x) as ->.
  { assert (x' ∈ members) as Hx'. { apply elem_of_take in Hin as (i & Hi%list_elem_of_lookup_2 & _).
      apply list_elem_of_filter in Hi as [_ Hi]. by rewrite sort_seats_perm in Hi. }
    apply list_elem_of_lookup in Hx' as [i Hi], Hx as [j Hj].
    assert (i = j) as ->; [|congruence]. eapply (NoDup_lookup (who <$> members)); [done|rewrite list_lookup_fmap, Hi; reflexivity|].
    rewrite list_lookup_fmap, Hj. simpl. congruence. }
  assert (y ∈ drop k o) as Hyd.
  { specialize (Ho y Hy Hyp). rewrite <-(take_drop k o) in Ho. apply elem_of_app in Ho as [Ho|]; [|done].
    exfalso. apply Hout. right. apply list_elem_of_fmap. eauto. }
  rewrite <-(take_drop k o) in Hs. revert Hs Hin Hyd. generalize (take k o) (drop k o). clear.
  intros l1. induction l1 as [|z l1 IH]; intros l2 Hs Hx Hy; [by apply elem_of_nil in Hx|].
  inversion_clear Hs as [|? ? Hs' Hz]. apply elem_of_cons in Hx as [->|Hx]; [|by eapply IH].
  eapply Forall_forall in Hz; [exact Hz|]. apply elem_of_app. by right.
Qed.

(** ** What the treasury pays *)
Lemma pay_rewards_charge `{!ReservableCurrencyLaws L} treasury rs (s : State) (l : L) :
  Forall (λ r : AccountId * Balance, 0 ≤ r.2) rs →
  ∃ s' l', for_each rs (pay_reward treasury) (s, l) = (Ok tt, (s', l')) ∧
    free_balance l treasury - zsum rs.*2 ≤ free_balance l' treasury ∧
    ∀ a, a ≠ treasury → a ∉ rs.*1 → free_balance l' a = free_balance l a.
Proof.
  intros Hrs. revert s l. induction Hrs as [|[b v] rs Hv Hrs IH]; intros s l;
    [exists s, l; split; [done|]; split; [simpl; lia|done]|].
  rewrite !fmap_cons, zsum_cons. cbn [fst snd for_each] in *. unfold mbind, M_bind, pay_reward at 1. cbn [fst snd]. destruct (transfer treasury b v KeepAlive l) as [l1|] eqn:Ht.
  - destruct (IH (deposit_event (RewardCouncil b v) s) l1) as (s' & l' & Hrun & Hf & Ho). exists s', l'. split; [exact Hrun|].
    apply transfer_keep_alive_spec in Ht as [_ Hm]; [|done]. split.
    + destruct (Hm treasury) as [Hm' _]. revert Hm'. unfold at_account. rewrite decide_True by done. destruct (decide _); lia.
    + intros a Ha Hin. rewrite not_elem_of_cons in Hin. rewrite Ho by naive_solver. destruct (Hm a) as [-> _].
      unfold at_account. rewrite !decide_False by naive_solver. lia.
  - destruct (IH s l) as (s' & l' & Hrun & Hf & Ho). exists s', l'. split; [exact Hrun|]. split; [lia|].
    intros a Ha Hin. rewrite not_elem_of_cons in Hin. naive_solver.
Qed.

(** C28: who is rewarded, and what it costs: the call does not panic; at most
    three accounts get a reward, each once, the prime first; all members do when
    fewer than three are rewarded, and otherwise no member that is left out
    has more stake than one that is not (the prime apart); the treasury pays at
    most the three maxima, and only accounts with a reward get money. *)
Theorem council_rewards_top `{!ReservableCurrencyLaws L} oracle prime members s l treasury :
  NoDup (who <$> members) → Treasury s = Some treasury →
  (∀ v d, get_dbc_amount_by_value oracle v = Some d → 0 ≤ d) →
  0 ≤ (PrimerReward T).2 → 0 ≤ (SecondReward T).2 → 0 ≤ (ThirdReward T).2 →
  ∃ out s' l', get_council_reward oracle prime members = Some out ∧
    (length out ≤ 3)%nat ∧ NoDup out.*1 ∧ out.*2 `prefix_of` get_rewards oracle ∧
    (∀ p, prime = Some p → head out.*1 = Some p) ∧
    (∀ a, a ∈ out.*1 → prime = Some a ∨ a ∈ who <$> members) ∧
    ((length out < 3)%nat → ∀ m, m ∈ members → who m ∈ out.*1) ∧
    (∀ x y, x ∈ members → y ∈ members → Some (who x) ≠ prime → Some (who y) ≠ prime →
       who x ∈ out.*1 → who y ∉ out.*1 → stake y ≤ stake x) ∧
    reward_council oracle prime members (s, l) = (Ok tt, (s', l')) ∧
    free_balance l treasury - ((PrimerReward T).2 + (SecondReward T).2 + (ThirdReward T).2) ≤ free_balance l' treasury ∧
    ∀ a, a ≠ treasury → a ∉ out.*1 → free_balance l' a = free_balance l a.
Proof.
  intros Hnd Ht Hpos H1 H2 H3. set (k := ranking prime members).
  assert (∀ r : Z * Balance, 0 ≤ r.2 → 0 ≤ Z.min (default 0 (get_dbc_amount_by_value oracle r.1)) r.2 ≤ r.2) as Hr.
  { intros r Hr. assert (0 ≤ default 0 (get_dbc_amount_by_value oracle r.1)); [|lia].
    destruct (get_dbc_amount_by_value oracle r.1) eqn:Hv; simpl; [by eapply Hpos|done]. }
  assert ((zip k (get_rewards oracle)).*1 = take 3 k) as Hfst.
  { unfold get_rewards. simpl. destruct k as [|? [|? [|? k']]]; simpl; try done. by rewrite zip_with_nil_r. }
  assert ((zip k (get_rewards oracle)).*2 = take (length k) (get_rewards oracle)) as Hsnd.
  { unfold get_rewards. simpl. destruct k as [|? [|? [|? k']]]; simpl; try done. by rewrite zip_with_nil_r, take_nil. }
  assert (length (zip k (get_rewards oracle)) = length (take 3 k)) as Hlen by (by rewrite <-Hfst, length_fmap).
  rewrite length_take in Hlen.
  destruct (pay_rewards_charge treasury (zip k (get_rewards oracle)) s l) as (s' & l' & Hrun & Hf & Ho).
  { apply list.Forall_forall. intros [a v] Hav%elem_of_zip_r. unfold get_rewards in Hav.
    apply list_elem_of_fmap in Hav as (r & -> & Hin). simpl. apply Hr. set_solver. }
  exists (zip k (get_rewards oracle)), s', l'. rewrite Hfst, Hsnd. split; [apply council_reward_ranking|].
  split; [lia|]. split; [eapply sublist_NoDup; [by apply ranking_NoDup|apply sublist_take]|]. split; [by eexists; rewrite take_drop|].
  split; [by intros p ->|]. split.
  { intros a (i & Hi%list_elem_of_lookup_2 & _)%elem_of_take. by apply elem_of_ranking. }
  split. { intros Hlt m Hm. rewrite take_ge by lia. apply elem_of_ranking. right. by apply list_elem_of_fmap_2. }
  split; [intros x y; by apply ranking_stakes|]. split.
  { unfold reward_council, st_gets. rewrite bind_gets. simpl. rewrite Ht, council_reward_ranking. exact Hrun. }
  split; [|by rewrite <-Hfst]. etrans; [|exact Hf]. rewrite Hsnd. unfold get_rewards, zsum. simpl.
  pose proof (Hr (PrimerReward T) H1). pose proof (Hr (SecondReward T) H2). pose proof (Hr (ThirdReward T) H3).
  destruct (length k) as [|[|[|?]]]; simpl; rewrite ?take_nil; simpl; lia.
Qed.
End pallet.

(** ** A council of four, with the third as prime *)
Module Demo.
#[local] Existing Instances Ledger.currency Ledger.laws.
#[local] Instance fixed_price : DbcPrice unit :=
  {| oracle_inv _ := True; Interfaces.get_dbc_price _ := Some 1; Interfaces.get_dbc_amount_by_value _ v := Some (Z.max 0 v) |}.
Definition T : Config := {| PrimerReward := (60, 50); SecondReward := (30, 40); ThirdReward := (20, 40) |}.
Definition members : list SeatHolder :=
  [{| who := 1; stake := 5 |}; {| who := 2; stake := 9 |}; {| who := 3; stake := 1 |}; {| who := 4; stake := 9 |}]%N.
Definition s : State := {| Treasury := Some 100%N; events := [] |}.
Definition ledger : Ledger.t := {[100 := (1000, 0); 1 := (1, 0); 2 := (1, 0); 3 := (1, 0); 4 := (1, 0)]}%N.
Example council_rewards : get_council_reward T tt (Some 3%N) members = Some [(3%N, 50); (2%N, 30); (4%N, 20)].
Proof. vm_compute. reflexivity. Qed.
Lemma council_rewards_top_witness :
  ∃ s' l', reward_council T tt (Some 3%N) members (s, ledger) = (Ok tt, (s', l')) ∧
    870 ≤ free_balance l' 100%N ∧ free_balance l' 1%N = 1.
Proof.
  destruct (council_rewards_top T tt (Some 3%N) members s ledger 100%N) as
    (out & s' & l' & Hout & _ & _ & _ & _ & _ & _ & _ & Hrun & Hf & Ho).
  - repeat constructor; set_solver.
  - reflexivity.
  - intros v d Hd. simpl in Hd. injection Hd as <-. lia.
  - simpl. lia.
  - simpl. lia.
  - simpl. lia.
  - rewrite council_rewards in Hout. injection Hout as <-. exists s', l'. split; [exact Hrun|]. split.
    + change (free_balance ledger 100%N) with 1000 in Hf. simpl in Hf. exact Hf.
    + rewrite Ho; [reflexivity|discriminate|]. simpl. set_solver.
Defined.
End Demo.
End CouncilReward.
