(* ===== verification/StakingState.v ===== *)
(** * pallet-staking: data, ledgers, and the world around the pallet

    The chain's version of Substrate's staking pallet (src/pallets/staking), with
    yearly emission in phases, yearly rewards of the committee, the foundation and
    the treasury, validators disabled by governance and unlocking times it can
    change. This file has the structs of src/pallets/staking/src/lib.rs with the
    operations of a [StakingLedger], the slashing spans of slashing.rs, the storage
    of pallet/mod.rs in five records, and what the pallet uses of other pallets
    (balances with locks, the list of voters, sessions, reference counts,
    nomination pools) as the class [StakingHost]. *)
From stdpp Require Import base gmap fin_maps list numbers.
From Stdlib Require Import ZArith Lia.
From S2P Require Import Prelude Currency ItemList.

Abbreviation EraIndex := Z (only parsing).
Abbreviation SessionIndex := Z (only parsing).
Abbreviation SpanIndex := Z (only parsing).

(** [a + b] and [a - b] on 32-bit and 128-bit integers in a release build. *)
Definition add32 (a b : Z) : Z := (a + b) mod 2 ^ 32.
Definition sub32 (a b : Z) : Z := (a - b) mod 2 ^ 32.
Definition add128 (a b : Z) : Z := (a + b) mod 2 ^ 128.
Definition sub128 (a b : Z) : Z := (a - b) mod 2 ^ 128.
Lemma add128_exact a b : 0 ≤ a + b ≤ U128_MAX → add128 a b = a + b.
Proof. unfold add128, U128_MAX. intros ?. apply Z.mod_small. lia. Qed.
Lemma sub128_exact a b : 0 ≤ a - b ≤ U128_MAX → sub128 a b = a - b.
Proof. unfold sub128, U128_MAX. intros ?. apply Z.mod_small. lia. Qed.
Lemma add32_exact a b : 0 ≤ a + b ≤ U32_MAX → add32 a b = a + b.
Proof. unfold add32, U32_MAX. intros ?. apply Z.mod_small. lia. Qed.

(** [Perquintill], of which a slash uses a ratio rounded up, which does not exist
    above one or without a denominator, and a product rounded up. The ratio is
    computed in numbers reduced to 64 bits, so it may be short of the quotient
    by one part and by one over the denominator. *)
Class PerQuintill := {
  one : Z;
  from_rational_up : Z → Z → option Z;
  mul_ceil : Z → Balance → Balance;
}.
Class PerQuintillLaws (R : PerQuintill) : Prop := {
  mul_ceil_nonneg p x : 0 ≤ x → 0 ≤ mul_ceil p x;
  mul_ceil_one x : 0 ≤ x → mul_ceil one x = x;
  quintill_pos : 0 < one;
  mul_ceil_up p x : 0 ≤ x → p * x ≤ one * mul_ceil p x;
  from_rational_up_near p q r : 0 ≤ p → 0 ≤ q → from_rational_up p q = Some r →
    p * one ≤ (r + 1) * q + one;
}.
Definition perquintill : PerQuintill := {|
  one := 10 ^ 18;
  from_rational_up p q := if (q <=? 0) || (q <? p) then None else Some ((p * 10 ^ 18 + q - 1) / q);
  mul_ceil p x := Z.max 0 ((p * x + 10 ^ 18 - 1) / 10 ^ 18);
|}.
Lemma div_ceil_exact a x : 0 < a → (a * x + a - 1) / a = x.
Proof. intros Ha. replace (a * x + a - 1) with (a - 1 + x * a) by lia. rewrite Z.div_add, Z.div_small by lia. lia. Qed.
Lemma perquintill_laws : PerQuintillLaws perquintill.
Proof.
  split; cbn [mul_ceil one from_rational_up perquintill].
  - lia.
  - intros x Hx. rewrite div_ceil_exact by lia. lia.
  - lia.
  - intros p x Hx. pose proof (Z.div_mod (p * x + 10 ^ 18 - 1) (10 ^ 18) ltac:(lia)).
    pose proof (Z.mod_pos_bound (p * x + 10 ^ 18 - 1) (10 ^ 18) ltac:(lia)). lia.
  - intros p q r Hp Hq. destruct (Z.leb_spec q 0); [done|]. cbn [orb]. destruct (Z.ltb_spec q p); [done|]. intros [= <-].
    pose proof (Z.div_mod (p * 10 ^ 18 + q - 1) q ltac:(lia)). pose proof (Z.mod_pos_bound (p * 10 ^ 18 + q - 1) q ltac:(lia)). lia.
Qed.

Module StakingState.
Import ItemList.

(** ** Structs *)
Record ActiveEraInfo := { era_index : EraIndex; start : option Z }.
Record EraRewardPoints := { points_total : Z; individual : gmap AccountId Z }.
Definition EraRewardPoints_default : EraRewardPoints := {| points_total := 0; individual := ∅ |}.
Inductive RewardDestination := Staked | Stash | Controller | Account (a : AccountId) | NoDestination.
Record ValidatorPrefs := { commission : Z; blocked : bool }.
#[export] Instance ValidatorPrefs_eta : RecordEta ValidatorPrefs := λ p, Build_ValidatorPrefs (commission p) (blocked p).
Definition ValidatorPrefs_default : ValidatorPrefs := {| commission := 0; blocked := false |}.
Record UnlockChunk := { value : Balance; era : EraIndex }.
#[export] Instance UnlockChunk_eta : RecordEta UnlockChunk := λ c, Build_UnlockChunk (value c) (era c).
Record StakingLedger := {
  stash : AccountId;
  total : Balance;
  active : Balance;
  unlocking : list UnlockChunk;
  claimed_rewards : list EraIndex;
}.
#[export] Instance StakingLedger_eta : RecordEta StakingLedger := λ l,
  Build_StakingLedger (stash l) (total l) (active l) (unlocking l) (claimed_rewards l).
Record Nominations := { targets : list AccountId; submitted_in : EraIndex; suppressed : bool }.
#[export] Instance Nominations_eta : RecordEta Nominations := λ n,
  Build_Nominations (targets n) (submitted_in n) (suppressed n).
Record IndividualExposure := { who : AccountId; exposed : Balance }.
Record Exposure := { exposure_total : Balance; own : Balance; others : list IndividualExposure }.
Definition Exposure_default : Exposure := {| exposure_total := 0; own := 0; others := [] |}.
Record UnappliedSlash := {
  validator : AccountId;
  own_slash : Balance;
  other_slashes : list (AccountId * Balance);
  reporters : list AccountId;
  payout : Balance;
}.
#[export] Instance UnappliedSlash_eta : RecordEta UnappliedSlash := λ u,
  Build_UnappliedSlash (validator u) (own_slash u) (other_slashes u) (reporters u) (payout u).
Inductive Forcing := NotForcing | ForceNew | ForceNone | ForceAlways.
Record FoundationIssueRewards := {
  foundation_who : list AccountId;
  foundation_left_times : Z;
  foundation_first_era : EraIndex;
  foundation_interval : EraIndex;
  foundation_amount : Balance;
}.
#[export] Instance FoundationIssueRewards_eta : RecordEta FoundationIssueRewards := λ f,
  Build_FoundationIssueRewards (foundation_who f) (foundation_left_times f) (foundation_first_era f)
    (foundation_interval f) (foundation_amount f).
Record TreasuryIssueRewards := {
  treasury_account : AccountId;
  treasury_left_times : Z;
  treasury_first_era : EraIndex;
  treasury_interval : EraIndex;
  treasury_amount : Balance;
}.
#[export] Instance TreasuryIssueRewards_eta : RecordEta TreasuryIssueRewards := λ f,
  Build_TreasuryIssueRewards (treasury_account f) (treasury_left_times f) (treasury_first_era f)
    (treasury_interval f) (treasury_amount f).

(** ** The ledger of a stash *)
Definition consolidate_unlocked (l : StakingLedger) (current_era : EraIndex) : StakingLedger :=
  l <| total := foldl (λ t c, if current_era <? era c then t else saturating_sub t (value c)) (total l) (unlocking l) |>
    <| unlocking := filter (λ c, current_era < era c) (unlocking l) |>.

(** The loop takes chunks from the back. When the last chunk is more than what
    is left, it gives exactly what is left and the loop ends. *)
Fixpoint rebond_chunks (v unlocking_balance act : Balance) (rev_chunks : list UnlockChunk) :
    list UnlockChunk * Balance * Balance :=
  match rev_chunks with
  | [] => ([], unlocking_balance, act)
  | last :: rest =>
      if add128 unlocking_balance (value last) <=? v then
        let unlocking_balance := add128 unlocking_balance (value last) in
        let act := add128 act (value last) in
        if v <=? unlocking_balance then (rest, unlocking_balance, act)
        else rebond_chunks v unlocking_balance act rest
      else
        let diff := sub128 v unlocking_balance in
        (last <| value ::= λ x, sub128 x diff |> :: rest, add128 unlocking_balance diff, add128 act diff)
  end.
Definition ledger_rebond (l : StakingLedger) (v : Balance) : StakingLedger * Balance :=
  let '(rev_chunks, unlocking_balance, act) := rebond_chunks v 0 (active l) (reverse (unlocking l)) in
  (l <| active := act |> <| unlocking := reverse rev_chunks |>, unlocking_balance).

Section slash.
Context {R : PerQuintill}.

(** The closure of [slash]: what is left of a target, of the total and of the
    slash. *)
Definition slash_out_of (maybe_proportional : option Z) (minimum_balance target tot slash_remaining : Balance) :
    Balance * Balance * Balance :=
  let slash_from_target :=
    Z.min (Z.min (match maybe_proportional with Some ratio => mul_ceil ratio target | None => slash_remaining end)
      target) slash_remaining in
  let target := target - slash_from_target in
  let '(target, slash_from_target) :=
    if target <? minimum_balance then (0, saturating_add U128_MAX target slash_from_target)
    else (target, slash_from_target) in
  (target, saturating_sub tot slash_from_target, saturating_sub slash_remaining slash_from_target).

Fixpoint slash_chunks (maybe_proportional : option Z) (minimum_balance : Balance) (priority : list nat)
    (chunks : list UnlockChunk) (tot remaining : Balance) (slashed : gmap EraIndex Balance) :
    list UnlockChunk * Balance * gmap EraIndex Balance :=
  match priority with
  | [] => (chunks, tot, slashed)
  | i :: priority =>
      if remaining =? 0 then (chunks, tot, slashed)
      else match chunks !! i with
           | Some chunk =>
               let '(v, tot, remaining) := slash_out_of maybe_proportional minimum_balance (value chunk) tot remaining in
               slash_chunks maybe_proportional minimum_balance priority (<[i := chunk <| value := v |>]> chunks)
                 tot remaining (<[era chunk := v]> slashed)
           | None => (chunks, tot, slashed)
           end
  end.

(** How a slash is shared: the ratio, if it is proportional, and the order of
    the chunks. *)
Definition slash_plan (l : StakingLedger) (slash_amount : Balance) (slashable_chunks_start : EraIndex) :
    option Z * list nat :=
  let n := length (unlocking l) in
  match list_find (λ c, slashable_chunks_start ≤ era c) (unlocking l) with
  | Some (first_slashable_index, _) =>
      let affected_indices := seq first_slashable_index (n - first_slashable_index) in
      let unbonding_affected_balance :=
        foldl (λ sum i, match unlocking l !! i with Some chunk => saturating_add U128_MAX sum (value chunk) | None => sum end)
          0 affected_indices in
      let affected_balance := saturating_add U128_MAX (active l) unbonding_affected_balance in
      (Some (default one (from_rational_up slash_amount affected_balance)),
       affected_indices ++ reverse (seq 0 first_slashable_index))
  | None => (None, reverse (seq 0 n))
  end.

(** The ledger after the slash, what was slashed, and the chunks slashed, for
    [OnStakerSlash]. *)
Definition ledger_slash (BondingDuration : EraIndex) (l : StakingLedger) (slash_amount minimum_balance : Balance)
    (slash_era : EraIndex) : StakingLedger * Balance * option (gmap EraIndex Balance) :=
  if slash_amount =? 0 then (l, 0, None)
  else
    let pre_slash_total := total l in
    let '(maybe_proportional, priority) := slash_plan l slash_amount (add32 slash_era BondingDuration) in
    let '(act, tot, remaining) := slash_out_of maybe_proportional minimum_balance (active l) (total l) slash_amount in
    let '(chunks, tot, slashed) := slash_chunks maybe_proportional minimum_balance priority (unlocking l) tot remaining ∅ in
    (l <| active := act |> <| total := tot |> <| unlocking := filter (λ c, value c ≠ 0) chunks |>,
     saturating_sub pre_slash_total tot, Some slashed).
End slash.

(** ** Slashing spans *)
Record SlashingSpan := { index : SpanIndex; span_start : EraIndex; span_length : option EraIndex }.
Definition contains_era (s : SlashingSpan) (e : EraIndex) : bool :=
  (span_start s <=? e) && match span_length s with Some l => e <? add32 (span_start s) l | None => true end.
Record SlashingSpans := {
  span_index : SpanIndex;
  last_start : EraIndex;
  last_nonzero_slash : EraIndex;
  prior : list EraIndex;
}.
#[export] Instance SlashingSpans_eta : RecordEta SlashingSpans := λ s,
  Build_SlashingSpans (span_index s) (last_start s) (last_nonzero_slash s) (prior s).
Definition spans_new (window_start : EraIndex) : SlashingSpans :=
  {| span_index := 0; last_start := window_start; last_nonzero_slash := 0; prior := [] |}.
Definition spans_end_span (s : SlashingSpans) (now : EraIndex) : SlashingSpans * bool :=
  let next_start := add32 now 1 in
  if next_start <=? last_start s then (s, false)
  else (s <| prior ::= cons (sub32 next_start (last_start s)) |> <| last_start := next_start |>
          <| span_index ::= λ i, add32 i 1 |>, true).
Fixpoint prior_spans (last_start : EraIndex) (i : SpanIndex) (prior : list EraIndex) : list SlashingSpan :=
  match prior with
  | [] => []
  | len :: prior =>
      let start := sub32 last_start len in
      let i := sub32 i 1 in
      {| index := i; span_start := start; span_length := Some len |} :: prior_spans start i prior
  end.
Definition spans_iter (s : SlashingSpans) : list SlashingSpan :=
  {| index := span_index s; span_start := last_start s; span_length := None |} ::
    prior_spans (last_start s) (span_index s) (prior s).
Definition spans_prune (s : SlashingSpans) (window_start : EraIndex) : SlashingSpans * option (SpanIndex * SpanIndex) :=
  let ended span := match span_length span with
    | Some len => add32 (span_start span) len <=? window_start | None => false end in
  let old_idx := fst <$> list_find (λ span, ended span = true) (drop 1 (spans_iter s)) in
  let earliest_span_index := sub32 (span_index s) (Z.of_nat (length (prior s))) in
  let '(s, pruned) :=
    match old_idx with
    | Some o =>
        let s := s <| prior ::= take o |> in
        (s, Some (earliest_span_index, sub32 (span_index s) (Z.of_nat (length (prior s)))))
    | None => (s, None)
    end in
  (s <| last_start ::= Z.max window_start |>, pruned).
Record SpanRecord := { slashed : Balance; paid_out : Balance }.
#[export] Instance SpanRecord_eta : RecordEta SpanRecord := λ r, Build_SpanRecord (slashed r) (paid_out r).
Definition SpanRecord_default : SpanRecord := {| slashed := 0; paid_out := 0 |}.

(** ** An offence *)
Inductive DisableStrategy := DisableNever | DisableWhenSlashed | DisableAlways.
#[export] Instance DisableStrategy_eq : EqDecision DisableStrategy.
Proof. solve_decision. Defined.
Record SlashParams := {
  offender : AccountId;
  fraction : Z;
  exposure : Exposure;
  slash_era : EraIndex;
  window_start : EraIndex;
  params_now : EraIndex;
  reward_proportion : Z;
  disable_strategy : DisableStrategy;
}.
(** The spans under inspection; [inspected_paid] and [inspected_slash] are the
    references [paid_out] and [slash_of] of the source. *)
Record InspectingSpans := {
  dirty : bool;
  spans : SlashingSpans;
  inspected_paid : Balance;
  inspected_slash : Balance;
}.
#[export] Instance InspectingSpans_eta : RecordEta InspectingSpans := λ i,
  Build_InspectingSpans (dirty i) (spans i) (inspected_paid i) (inspected_slash i).

(** ** Storage *)
Record Stakers := {
  Bonded : gmap AccountId AccountId;
  Ledger : gmap AccountId StakingLedger;
  Payee : gmap AccountId RewardDestination;
  Validators : gmap AccountId ValidatorPrefs;
  Nominators : gmap AccountId Nominations;
}.
#[export] Instance Stakers_eta : RecordEta Stakers := λ s,
  Build_Stakers (Bonded s) (Ledger s) (Payee s) (Validators s) (Nominators s).
Record Params := {
  ValidatorCount : Z;
  MinimumValidatorCount : Z;
  Invulnerables : list AccountId;
  MinNominatorBond : Balance;
  MinValidatorBond : Balance;
  MinimumActiveStake : Balance;
  MinCommission : Z;
  MaxValidatorsCount : option Z;
  MaxNominatorsCount : option Z;
  ForceEra : Forcing;
  SlashRewardFraction : Z;
  ChillThreshold : option Z;
  CurrentPlannedSession : SessionIndex;
  DisabledValidators : list AccountId;
}.
#[export] Instance Params_eta : RecordEta Params := λ p,
  Build_Params (ValidatorCount p) (MinimumValidatorCount p) (Invulnerables p) (MinNominatorBond p) (MinValidatorBond p)
    (MinimumActiveStake p) (MinCommission p) (MaxValidatorsCount p) (MaxNominatorsCount p) (ForceEra p)
    (SlashRewardFraction p) (ChillThreshold p) (CurrentPlannedSession p) (DisabledValidators p).
Record Eras := {
  CurrentEra : option EraIndex;
  ActiveEra : option ActiveEraInfo;
  ErasStartSessionIndex : gmap EraIndex SessionIndex;
  ErasStakers : gmap (EraIndex * AccountId) Exposure;
  ErasStakersClipped : gmap (EraIndex * AccountId) Exposure;
  ErasValidatorPrefs : gmap (EraIndex * AccountId) ValidatorPrefs;
  ErasValidatorReward : gmap EraIndex Balance;
  ErasRewardPoints : gmap EraIndex EraRewardPoints;
  ErasTotalStake : gmap EraIndex Balance;
  BondedEras : list (EraIndex * SessionIndex);
}.
#[export] Instance Eras_eta : RecordEta Eras := λ e,
  Build_Eras (CurrentEra e) (ActiveEra e) (ErasStartSessionIndex e) (ErasStakers e) (ErasStakersClipped e)
    (ErasValidatorPrefs e) (ErasValidatorReward e) (ErasRewardPoints e) (ErasTotalStake e) (BondedEras e).
Record Slashes := {
  UnappliedSlashes : gmap EraIndex (list UnappliedSlash);
  ValidatorSlashInEra : gmap (EraIndex * AccountId) (Z * Balance);
  NominatorSlashInEra : gmap (EraIndex * AccountId) Balance;
  Spans : gmap AccountId SlashingSpans;
  SpanSlash : gmap (AccountId * SpanIndex) SpanRecord;
  OffendingValidators : list (Z * bool);
}.
#[export] Instance Slashes_eta : RecordEta Slashes := λ s,
  Build_Slashes (UnappliedSlashes s) (ValidatorSlashInEra s) (NominatorSlashInEra s) (Spans s) (SpanSlash s)
    (OffendingValidators s).
Record Emission := {
  Phase0RewardPerYear : Balance;
  Phase1RewardPerYear : Balance;
  Phase2RewardPerYear : Balance;
  RewardStartHeight : BlockNumber;
  CommitteeTeamRewardPerYear : option (list (AccountId * Balance));
  FirstCommitteeTeamReleaseEra : EraIndex;
  RewardTimes : Z;
  FoundationReward : option FoundationIssueRewards;
  TreasuryReward : option TreasuryIssueRewards;
}.
#[export] Instance Emission_eta : RecordEta Emission := λ e,
  Build_Emission (Phase0RewardPerYear e) (Phase1RewardPerYear e) (Phase2RewardPerYear e) (RewardStartHeight e)
    (CommitteeTeamRewardPerYear e) (FirstCommitteeTeamReleaseEra e) (RewardTimes e) (FoundationReward e)
    (TreasuryReward e).

Inductive Event :=
| EraPaid (era_index : EraIndex) (validator_payout remainder : Balance)
| Rewarded (stash : AccountId) (amount : Balance)
| Slashed (staker : AccountId) (amount : Balance)
| SlashReported (validator : AccountId) (fraction : Z) (slash_era : EraIndex)
| OldSlashingReportDiscarded (session_index : SessionIndex)
| StakersElected
| BondedEvent (stash : AccountId) (amount : Balance)
| Unbonded (stash : AccountId) (amount : Balance)
| Withdrawn (stash : AccountId) (amount : Balance)
| Kicked (nominator stash : AccountId)
| StakingElectionFailed
| Chilled (stash : AccountId)
| PayoutStarted (era_index : EraIndex) (validator_stash : AccountId)
| ValidatorPrefsSet (stash : AccountId) (prefs : ValidatorPrefs)
| ForceEraEvent (mode : Forcing)
| PhaseReward (phase : nat) (reward_per_year : Balance)
| UpdateUnlock (stash : AccountId) (unlocking_index : Z) (unlocking_era : EraIndex)
| DisabledValidatorEvent (validator : AccountId)
| EnabledValidator (validator : AccountId).
(** The pallet's errors, and two ways to fail that are not its own: an address
    that does not resolve, and a panic. *)
Inductive Error :=
| NotController | NotStash | AlreadyBonded | AlreadyPaired | EmptyTargets | DuplicateIndex
| InvalidSlashIndex | InsufficientBond | NoMoreChunks | NoUnlockChunk | FundedTarget
| InvalidEraToReward | InvalidNumberOfNominations | NotSortedAndUnique | AlreadyClaimed
| IncorrectHistoryDepth | IncorrectSlashingSpans | BadState | TooManyTargets | BadTarget
| CannotChillOther | TooManyNominators | TooManyValidators | CommissionTooLow | BoundNotMet
| Unknown | DisabledValidator | NotDisabledValidator | CannotLookup | Panics.

Record State := {
  stakers : Stakers;
  params : Params;
  eras : Eras;
  slashes : Slashes;
  emission : Emission;
  events : list Event;
}.
#[export] Instance State_eta : RecordEta State := λ s,
  Build_State (stakers s) (params s) (eras s) (slashes s) (emission s) (events s).

Record Config := {
  MaxNominations : Z;
  HistoryDepth : Z;
  SessionsPerEra : Z;
  BondingDuration : EraIndex;
  SlashDeferDuration : EraIndex;
  MaxNominatorRewardedPerValidator : Z;
  OffendingValidatorsThreshold : Z;
  MaxUnlockingChunks : Z;
  MinimumPeriod : Z;
  MaxWinners : Z;
  (** Who may cancel slashes and set the minimum commission, how an address
      resolves, and [CurrencyToVote]. *)
  AdminOrigin : Origin → bool;
  lookup : AccountId → option AccountId;
  to_vote : Balance → Balance → Z;
  to_currency : Z → Balance → Balance;
  (** Products of a [Percent], rounded to the nearest and down. *)
  percent_mul : Z → Z → Z;
  mul_floor : Z → Z → Z;
}.
End StakingState.

(** ** The other pallets

    [lock l a] is the amount of the lock of this pallet ([STAKING_ID]) on an
    account, [voters] the ids of the list of voters (bags-list). *)
Class StakingHost (L : Type) := {
  minimum_balance : Balance;
  total_issuance : L → Balance;
  deposit_creating : AccountId → Balance → L → L * Balance;
  lock : L → AccountId → Balance;
  set_lock : AccountId → Balance → L → L;
  remove_lock : AccountId → L → L;
  inc_consumers : AccountId → L → option L;
  dec_consumers : AccountId → L → L;
  voters : L → list AccountId;
  on_insert : AccountId → Z → L → L;
  on_update : AccountId → Z → L → L;
  on_remove : AccountId → L → L;
  session_validators : L → list AccountId;
  disable_session_validator : Z → L → L;
  prune_historical_up_to : Z → L → L;
  on_staker_slash : AccountId → Balance → gmap EraIndex Balance → L → L;
}.

(** Nothing the pallet can see changes. *)
Definition unseen `{ReservableCurrency L, !StakingHost L} (l l' : L) : Prop :=
  (∀ a, free_balance l' a = free_balance l a) ∧ (∀ a, lock l' a = lock l a) ∧ (∀ a, a ∈ voters l' ↔ a ∈ voters l).

(** What the traits document: a lock that is set has the amount given (setting one
    of nothing leaves the lock or removes it); what creates or destroys money leaves
    locks and voters alone; a listed id is listed until it is removed. *)
Class StakingHostLaws (L : Type) `{ReservableCurrency L, !TreasuryCurrency L, !StakingHost L} : Prop := {
  minimum_nonneg : 0 ≤ minimum_balance;
  free_bounds l a : 0 ≤ free_balance l a ≤ U128_MAX;
  set_lock_spec a v l b : 0 < v → lock (set_lock a v l) b = if decide (b = a) then v else lock l b;
  set_lock_other a v l b : b ≠ a → lock (set_lock a v l) b = lock l b;
  set_lock_free a v l b : free_balance (set_lock a v l) b = free_balance l b;
  set_lock_voters a v l : voters (set_lock a v l) = voters l;
  remove_lock_spec a l b : lock (remove_lock a l) b = if decide (b = a) then 0 else lock l b;
  remove_lock_free a l b : free_balance (remove_lock a l) b = free_balance l b;
  remove_lock_voters a l : voters (remove_lock a l) = voters l;
  deposit_creating_spec a v l : 0 ≤ v →
    let d := (deposit_creating a v l).2 in
    (d = 0 ∨ d = v) ∧ (∀ b, free_balance (deposit_creating a v l).1 b = free_balance l b + at_account a d b);
  deposit_creating_locks a v l b : lock (deposit_creating a v l).1 b = lock l b;
  deposit_creating_voters a v l : voters (deposit_creating a v l).1 = voters l;
  deposit_existing_locks a v l l' b : deposit_into_existing a v l = Some l' → lock l' b = lock l b;
  deposit_existing_voters a v l l' : deposit_into_existing a v l = Some l' → voters l' = voters l;
  slash_locks a v l b : lock (slash a v l).1 b = lock l b;
  slash_voters a v l : voters (slash a v l).1 = voters l;
  slash_missing a v l : 0 ≤ v → 0 ≤ (slash a v l).2 ≤ v;
  unbalanced_locks v l b : lock (on_unbalanced v l) b = lock l b;
  unbalanced_voters v l : voters (on_unbalanced v l) = voters l;
  inc_consumers_unseen a l l' : inc_consumers a l = Some l' → unseen l l';
  dec_consumers_unseen a l : unseen l (dec_consumers a l);
  on_insert_locks a v l b : free_balance (on_insert a v l) b = free_balance l b ∧ lock (on_insert a v l) b = lock l b;
  on_insert_voters a v l b : b ∈ voters (on_insert a v l) ↔ b = a ∨ b ∈ voters l;
  on_update_unseen a v l : unseen l (on_update a v l);
  on_remove_locks a l b : free_balance (on_remove a l) b = free_balance l b ∧ lock (on_remove a l) b = lock l b;
  on_remove_voters a l b : b ∈ voters (on_remove a l) ↔ b ≠ a ∧ b ∈ voters l;
  disable_unseen i l : unseen l (disable_session_validator i l);
  prune_unseen i l : unseen l (prune_historical_up_to i l);
  staker_slash_unseen a v m l : unseen l (on_staker_slash a v m l);
}.
