(* ===== verification/StakingLedgers.v ===== *)
(** * pallet-staking: the arithmetic of a ledger

    A ledger is consistent when its total is its active part and its unlocking
    chunks; consolidating, rebonding and slashing keep it so, and move exactly what
    they should. *)
From stdpp Require Import base gmap fin_maps list numbers.
From Stdlib Require Import ZArith Lia.
From S2P Require Import Prelude Currency ItemList StakingState.

Module StakingLedgers.
Import StakingState.

Definition unlocking_sum (chunks : list UnlockChunk) : Z := zsum (value <$> chunks).
#[global] Arguments unlocking_sum : simpl never.
Record ledger_ok (MaxUnlockingChunks : Z) (l : StakingLedger) : Prop := {
  ledger_sum : total l = active l + unlocking_sum (unlocking l);
  ledger_active : 0 ≤ active l;
  ledger_chunks : Forall (λ c, 0 < value c) (unlocking l);
  ledger_fits : total l ≤ U128_MAX;
  ledger_bounded : Z.of_nat (length (unlocking l)) ≤ MaxUnlockingChunks;
}.

Lemma unlocking_cons c k : unlocking_sum (c :: k) = value c + unlocking_sum k.
Proof. done. Qed.
Lemma unlocking_app k1 k2 : unlocking_sum (k1 ++ k2) = unlocking_sum k1 + unlocking_sum k2.
Proof. unfold unlocking_sum. by rewrite fmap_app, zsum_app. Qed.
Lemma unlocking_nonneg k : Forall (λ c, 0 ≤ value c) k → 0 ≤ unlocking_sum k.
Proof. induction 1; [done|]. rewrite unlocking_cons. lia. Qed.
Lemma chunks_nonneg k : Forall (λ c, 0 < value c) k → Forall (λ c, 0 ≤ value c) k.
Proof. apply Forall_impl. lia. Qed.
Lemma unlocking_pos k : Forall (λ c, 0 < value c) k → 0 ≤ unlocking_sum k.
Proof. intros Hk. by apply unlocking_nonneg, chunks_nonneg. Qed.
Lemma unlocking_insert k i c c' :
  k !! i = Some c → unlocking_sum (<[i := c']> k) = unlocking_sum k - value c + value c'.
Proof.
  revert i. induction k as [|x k IH]; intros [|i] Hi; simplify_eq/=; rewrite ?unlocking_cons; [lia|].
  rewrite (IH _ Hi). lia.
Qed.
Lemma chunk_le k i c : Forall (λ c, 0 ≤ value c) k → k !! i = Some c → value c ≤ unlocking_sum k.
Proof.
  intros Hk. revert i. induction Hk as [|x k Hx Hk IH]; intros i Hi; [done|]. rewrite unlocking_cons.
  pose proof (unlocking_nonneg k Hk). destruct i as [|i]; simplify_eq/=; [lia|]. specialize (IH i Hi). lia.
Qed.
Lemma unlocking_reverse k : unlocking_sum (reverse k) = unlocking_sum k.
Proof. induction k as [|c k IH]; [done|]. rewrite reverse_cons, unlocking_app, IH, !unlocking_cons. unfold unlocking_sum. simpl. lia. Qed.
Lemma unlocking_nonzero k : unlocking_sum (filter (λ c, value c ≠ 0) k) = unlocking_sum k.
Proof. induction k as [|c k IH]; [done|]. rewrite filter_cons. case_decide; rewrite ?unlocking_cons, ?IH; lia. Qed.
Lemma filter_length_le {A} (Q : A → Prop) `{∀ x, Decision (Q x)} (k : list A) : (length (filter Q k) ≤ length k)%nat.
Proof. induction k as [|x k IH]; [done|]. rewrite filter_cons. case_decide; simpl; lia. Qed.
Lemma Forall_filter {A} (P Q : A → Prop) `{∀ x, Decision (Q x)} (k : list A) : Forall P k → Forall P (filter Q k).
Proof. induction 1; [done|]. rewrite filter_cons. case_decide; [by constructor|done]. Qed.

Section ledgers.
Context {R : PerQuintill} `{!PerQuintillLaws R}.
Context (max_chunks : Z).

(** ** Consolidating *)
Lemma consolidate_sum e k t :
  Forall (λ c, 0 ≤ value c) k → unlocking_sum k ≤ t →
  foldl (λ t c, if e <? era c then t else saturating_sub t (value c)) t k =
    t - unlocking_sum k + unlocking_sum (filter (λ c, e < era c) k).
Proof.
  intros Hk. revert t. induction Hk as [|c k Hc Hk IH]; intros t Ht; [unfold unlocking_sum; simpl; lia|].
  rewrite unlocking_cons in *. pose proof (unlocking_nonneg k Hk). rewrite filter_cons. simpl.
  destruct (Z.ltb_spec e (era c)); [rewrite decide_True by done|rewrite decide_False by lia].
  - rewrite IH by lia. rewrite unlocking_cons. lia.
  - rewrite IH; rewrite saturating_sub_exact by lia; lia.
Qed.
Lemma consolidate_ok l e :
  ledger_ok max_chunks l → ledger_ok max_chunks (consolidate_unlocked l e) ∧
    total (consolidate_unlocked l e) = active l + unlocking_sum (filter (λ c, e < era c) (unlocking l)) ∧
    total (consolidate_unlocked l e) ≤ total l.
Proof.
  intros [Hsum Ha Hk Hfit Hlen]. pose proof (unlocking_pos _ Hk). pose proof (chunks_nonneg _ Hk).
  pose proof (unlocking_pos _ (Forall_filter _ (λ c, e < era c) _ Hk)).
  pose proof (filter_length_le (λ c, e < era c) (unlocking l)).
  assert (unlocking_sum (filter (λ c, e < era c) (unlocking l)) ≤ unlocking_sum (unlocking l)).
  { clear -Hk. induction Hk as [|c k Hc Hk IH]; [done|]. rewrite filter_cons. case_decide; rewrite ?unlocking_cons; lia. }
  unfold consolidate_unlocked. cbn. rewrite consolidate_sum by (done || lia).
  split; [|lia]. split; cbn [total active unlocking field_update]; rewrite ?consolidate_sum by (done || lia); [lia|done|by apply Forall_filter|lia|lia].
Qed.

(** ** Rebonding *)
Lemma rebond_chunks_spec v ub act k :
  0 ≤ ub ≤ v → v ≤ U128_MAX → 0 ≤ act → Forall (λ c, 0 < value c) k →
  act + unlocking_sum k ≤ U128_MAX → ub + unlocking_sum k ≤ U128_MAX → (ub = v → k = [] ∨ v = 0) →
  let '(k', ub', act') := rebond_chunks v ub act k in
  ub' = Z.min v (ub + unlocking_sum k) ∧ act' = act + (ub' - ub) ∧
  unlocking_sum k' = unlocking_sum k - (ub' - ub) ∧ Forall (λ c, 0 < value c) k' ∧ (length k' ≤ length k)%nat.
Proof.
  intros Hub Hv Hact Hk. revert ub act Hub Hact. induction Hk as [|c k Hc Hk IH]; intros ub act Hub Hact Ha Hu Hne;
    cbn [rebond_chunks]; rewrite ?unlocking_cons in *; pose proof (unlocking_pos k Hk) as Hs || idtac.
  - change (unlocking_sum []) with 0 in *. split_and!; [lia|lia|lia|done|done].
  - rewrite add128_exact by lia. destruct (Z.leb_spec (ub + value c) v).
    + rewrite add128_exact by lia. destruct (Z.leb_spec v (ub + value c)).
      * split_and!; [lia|lia|lia|done|simpl; lia].
      * pose proof (IH (ub + value c) (act + value c)) as Hr.
        destruct (rebond_chunks v (ub + value c) (act + value c) k) as [[k' ub'] act'].
        destruct Hr as (-> & -> & Hs' & Hf & Hl); [lia|lia|lia|lia|lia|]. split_and!; [lia|lia|lia|done|simpl; lia].
    + rewrite sub128_exact by lia. rewrite !add128_exact by lia. split_and!; [lia|lia| | |simpl; lia].
      * rewrite unlocking_cons. cbn. rewrite sub128_exact by lia. lia.
      * constructor; [|done]. cbn. rewrite sub128_exact by lia. lia.
Qed.
Lemma rebond_ok l v :
  ledger_ok max_chunks l → 0 ≤ v ≤ U128_MAX →
  let '(l', r) := ledger_rebond l v in
  ledger_ok max_chunks l' ∧ r = Z.min v (unlocking_sum (unlocking l)) ∧ active l' = active l + r ∧
  total l' = total l ∧ stash l' = stash l ∧ claimed_rewards l' = claimed_rewards l.
Proof.
  intros [Hsum Ha Hk Hfit Hlen] Hv. pose proof (unlocking_pos _ Hk) as Hn. unfold ledger_rebond.
  pose proof (rebond_chunks_spec v 0 (active l) (reverse (unlocking l))) as Hr.
  rewrite unlocking_reverse in Hr. rewrite length_reverse in Hr.
  destruct (rebond_chunks v 0 (active l) (reverse (unlocking l))) as [[k' ub'] act'].
  destruct Hr as (-> & -> & Hs & Hf & Hl); [lia|lia|lia|by apply Forall_reverse|lia|lia|lia|].
  cbn. split_and!; [|lia|lia|done|done|done]. split; cbn.
  - rewrite unlocking_reverse. lia.
  - lia.
  - by apply Forall_reverse.
  - done.
  - rewrite length_reverse. lia.
Qed.

(** ** Slashing *)

(** What is asked of a part of the ledger that holds [x], when [rem] is left to
    slash. *)
Definition share (prop : option Z) (rem x : Z) : Z := match prop with Some ratio => mul_ceil ratio x | None => rem end.

(** A part is slashed by its share, as far as it and the slash reach; if that
    leaves dust, by all it has. *)
Lemma slash_out_of_spec prop min_b target tot rem :
  0 ≤ target ≤ tot → tot ≤ U128_MAX → 0 ≤ rem →
  ∃ d, slash_out_of prop min_b target tot rem = (target - d, tot - d, Z.max 0 (rem - d)) ∧ 0 ≤ d ≤ target ∧
    Z.min (Z.min (share prop rem target) target) rem ≤ d ∧ (rem < d → d < rem + min_b ∧ d = target).
Proof.
  intros Ht Htot Hr. unfold slash_out_of. fold (share prop rem target).
  assert (0 ≤ share prop rem target) by (unfold share; destruct prop; [apply mul_ceil_nonneg; lia|done]).
  destruct (Z.ltb_spec (target - Z.min (Z.min (share prop rem target) target) rem) min_b).
  - exists target. rewrite saturating_add_exact by lia. rewrite saturating_sub_exact by lia.
    split; [f_equal; [f_equal|]; unfold saturating_sub; lia|]. split_and!; lia.
  - exists (Z.min (Z.min (share prop rem target) target) rem). rewrite saturating_sub_exact by lia.
    split; [done|]. split_and!; lia.
Qed.

(** The sum of [f] over the chunks at the given places. *)
Definition at_places (f : Z → Z) (k : list UnlockChunk) (ps : list nat) : Z :=
  zsum ((λ i, match k !! i with Some c => f (value c) | None => 0 end) <$> ps).
Lemma at_places_cons f k i ps :
  at_places f k (i :: ps) = match k !! i with Some c => f (value c) | None => 0 end + at_places f k ps.
Proof. done. Qed.
Lemma at_places_app f k ps qs : at_places f k (ps ++ qs) = at_places f k ps + at_places f k qs.
Proof. unfold at_places. by rewrite fmap_app, zsum_app. Qed.
Lemma at_places_reverse f k ps : at_places f k (reverse ps) = at_places f k ps.
Proof.
  induction ps as [|i ps IH]; [done|]. rewrite reverse_cons, at_places_app, IH, !at_places_cons. unfold at_places. simpl. lia.
Qed.
Lemma at_places_elsewhere f k i c ps : i ∉ ps → at_places f (<[i := c]> k) ps = at_places f k ps.
Proof.
  induction ps as [|j ps IH]; intros Hi; [done|]. apply not_elem_of_cons in Hi as [Hj Hi].
  rewrite !at_places_cons, (IH Hi). by rewrite list_lookup_insert_ne.
Qed.
Lemma at_places_le f g k ps :
  (∀ c, c ∈ k → f (value c) ≤ g (value c)) → at_places f k ps ≤ at_places g k ps.
Proof.
  intros Hfg. induction ps as [|i ps IH]; [done|]. rewrite !at_places_cons.
  destruct (k !! i) as [c|] eqn:Hi; [|lia]. apply list_elem_of_lookup_2 in Hi. specialize (Hfg c Hi). lia.
Qed.
Lemma at_places_scale a b f g k ps :
  (∀ c, c ∈ k → a * f (value c) ≤ b * g (value c)) → a * at_places f k ps ≤ b * at_places g k ps.
Proof.
  intros Hfg. induction ps as [|i ps IH]; [unfold at_places; simpl; lia|]. rewrite !at_places_cons.
  destruct (k !! i) as [c|] eqn:Hi; [|lia]. apply list_elem_of_lookup_2 in Hi. specialize (Hfg c Hi). lia.
Qed.
Lemma at_places_all k n : at_places id k (seq n (length k - n)) = unlocking_sum (drop n k).
Proof.
  revert n. induction k as [|c k IH]; intros n; [by destruct n|]. destruct n as [|n].
  - assert (∀ m ps, at_places id (c :: k) (S <$> seq m ps) = at_places id k (seq m ps)) as Hshift.
    { intros m ps. unfold at_places. by rewrite <-list_fmap_compose. }
    simpl length. rewrite Nat.sub_0_r. cbn [seq]. rewrite at_places_cons, <-fmap_S_seq, Hshift.
    specialize (IH 0%nat). rewrite Nat.sub_0_r in IH. rewrite IH. cbn [drop lookup list_lookup]. by rewrite unlocking_cons.
  - simpl length. replace (S (length k) - S n)%nat with (length k - n)%nat by lia. rewrite <-fmap_S_seq.
    assert (at_places id (c :: k) (S <$> seq n (length k - n)) = at_places id k (seq n (length k - n))) as ->
      by (unfold at_places; by rewrite <-list_fmap_compose). apply IH.
Qed.

(** A lower bound on what the loop takes of a part, whatever is left to slash. *)
Definition takes (prop : option Z) (f : Z → Z) : Prop :=
  ∀ rem x, 0 ≤ x → 0 ≤ f x ∧ Z.min rem (f x) ≤ Z.min (Z.min (share prop rem x) x) rem.
Lemma at_places_nonneg f prop k ps : takes prop f → Forall (λ c, 0 ≤ value c) k → 0 ≤ at_places f k ps.
Proof.
  intros Hf Hk. induction ps as [|i ps IH]; [done|]. rewrite at_places_cons. destruct (k !! i) as [c|] eqn:Hi; [|lia].
  pose proof (Forall_lookup_1 _ _ _ _ Hk Hi) as Hc. destruct (Hf 0 (value c) Hc). lia.
Qed.
Lemma filter_drops (k : list UnlockChunk) c :
  c ∈ k → value c = 0 → Nat.lt (length (filter (λ c, value c ≠ 0) k)) (length k).
Proof.
  intros Hc Hv. induction k as [|x k IH]; [by apply not_elem_of_nil in Hc|]. rewrite filter_cons.
  pose proof (filter_length_le (λ c, value c ≠ 0) k). apply elem_of_cons in Hc as [<-|Hc].
  - rewrite decide_False by auto. simpl. lia.
  - specialize (IH Hc). case_decide; simpl; lia.
Qed.
Lemma filter_positive (k : list UnlockChunk) :
  Forall (λ c, 0 ≤ value c) k → Forall (λ c, 0 < value c) (filter (λ c, value c ≠ 0) k).
Proof. induction 1; [done|]. rewrite filter_cons. case_decide; [constructor; [lia|done]|done]. Qed.

Lemma slash_chunks_spec prop min_b f pri k tot rem m :
  takes prop f → NoDup pri → (∀ i, i ∈ pri → (i < length k)%nat) →
  Forall (λ c, 0 ≤ value c) k → unlocking_sum k ≤ tot → tot ≤ U128_MAX → 0 ≤ rem →
  ∃ k' d m', slash_chunks prop min_b pri k tot rem m = (k', tot - d, m') ∧ 0 ≤ d ∧
    unlocking_sum k' = unlocking_sum k - d ∧ Forall (λ c, 0 ≤ value c) k' ∧ length k' = length k ∧
    Z.min rem (at_places f k pri) ≤ d ∧ (rem < d → d < rem + min_b ∧ ∃ c, c ∈ k' ∧ value c = 0) ∧ (rem = 0 → d = 0 ∧ k' = k).
Proof.
  intros Hf. revert k tot rem m. induction pri as [|i pri IH]; intros k tot rem m Hnd Hin Hk Hs Htot Hr; cbn [slash_chunks].
  { exists k, 0, m. rewrite Z.sub_0_r. change (at_places f k []) with 0. split_and!; (done || lia). }
  pose proof (at_places_nonneg f prop k (i :: pri) Hf Hk) as Hat.
  destruct (Z.eqb_spec rem 0) as [->|]; [exists k, 0, m; rewrite Z.sub_0_r; split_and!; (done || lia)|].
  apply list.NoDup_cons in Hnd as [Hni Hnd].
  destruct (lookup_lt_is_Some_2 k i) as [c Hi]; [apply Hin; by left|]. rewrite Hi.
  pose proof (Forall_lookup_1 _ _ _ _ Hk Hi) as Hc. cbn in Hc. pose proof (chunk_le k i c Hk Hi).
  destruct (slash_out_of_spec prop min_b (value c) tot rem) as (d & -> & Hd & Hlow & Hup); [lia|lia|lia|].
  set (c' := c <| value := value c - d |>).
  assert (value c' = value c - d) as Hc' by done. pose proof (unlocking_insert k i c c' Hi) as Hu.
  destruct (IH (<[i := c']> k) (tot - d) (Z.max 0 (rem - d)) (<[era c := value c - d]> m))
    as (k' & d' & m' & -> & Hd' & Hs' & Hk' & Hlen & Hlow' & Hup' & Hz).
  - done.
  - intros j Hj. rewrite length_insert. apply Hin. by right.
  - apply Forall_insert; [done|]. lia.
  - lia.
  - lia.
  - lia.
  - rewrite at_places_elsewhere in Hlow' by done. rewrite at_places_cons, Hi. rewrite length_insert in Hlen.
    destruct (Hf rem (value c) Hc) as [Hf0 Hfr].
    exists k', (d + d'), m'. rewrite Z.sub_add_distr. split_and!; [done|lia|lia|done|done|lia| |lia].
    intros Hover. destruct (Z_lt_le_dec rem d) as [Hlt|Hle].
    + destruct Hz as [-> ->]; [lia|]. destruct (Hup Hlt). split; [lia|]. exists c'. split; [|lia].
      apply list_elem_of_lookup. exists i. apply list_lookup_insert_eq. by eapply lookup_lt_Some.
    + destruct Hup' as [Hb Hx]; [lia|]. split; [lia|done].
Qed.

(** The balance a proportional slash is shared over. *)
Lemma affected_sum k ps s :
  Forall (λ c, 0 ≤ value c) k → 0 ≤ s → s + at_places id k ps ≤ U128_MAX →
  foldl (λ sum i, match k !! i with Some chunk => saturating_add U128_MAX sum (value chunk) | None => sum end) s ps =
    s + at_places id k ps.
Proof.
  intros Hk. revert s. induction ps as [|i ps IH]; intros s Hs Hb; [unfold at_places; simpl; lia|].
  rewrite at_places_cons in *. cbn [foldl].
  assert (0 ≤ at_places id k ps) by (apply (at_places_nonneg id None); [intros rem x Hx; unfold share; split; unfold id; lia|done]).
  destruct (k !! i) as [c|] eqn:Hi; [|apply IH; lia]. pose proof (Forall_lookup_1 _ _ _ _ Hk Hi) as Hc. cbn in Hc. unfold id in *.
  rewrite saturating_add_exact by lia. rewrite IH by lia. lia.
Qed.

(** How a slash is shared: over every part of the ledger, as much of each as it
    takes for the slash up to the precision of the ratio. *)
Lemma slash_plan_spec l amount start prop pri :
  ledger_ok max_chunks l → 0 ≤ amount → slash_plan l amount start = (prop, pri) →
  NoDup pri ∧ (∀ i, i ∈ pri → (i < length (unlocking l))%nat) ∧ ∃ f, takes prop f ∧
    let taken := f (active l) + at_places f (unlocking l) pri in
    Z.min amount (total l) ≤ taken + total l / one + 1 ∧
    ((∀ c, c ∈ unlocking l → era c < start) → taken = total l).
Proof.
  intros [Hsum Ha Hk Hfit Hlen] Hamt. pose proof (unlocking_pos _ Hk) as Hn. apply chunks_nonneg in Hk.
  pose proof quintill_pos as Hone. assert (0 ≤ total l / one) as Hdiv by (apply Z.div_pos; lia).
  pose proof (at_places_all (unlocking l) 0) as Hall. rewrite Nat.sub_0_r, drop_0 in Hall.
  assert (takes None id) as Hid by (intros rem x Hx; unfold share, id; lia).
  unfold slash_plan. destruct (list_find _ _) as [[i c]|] eqn:Hfind.
  2:{ intros [= <- <-]. split; [rewrite reverse_Permutation; apply NoDup_seq|]. split; [intros i [_ ?]%elem_of_reverse%elem_of_seq; lia|].
      exists id. split; [done|]. cbv zeta. rewrite at_places_reverse, Hall. unfold id. split; [lia|]. intros _. lia. }
  apply list_find_Some in Hfind as (Hi & Hc & _). apply lookup_lt_Some in Hi as Hlt.
  set (aff := seq i (length (unlocking l) - i)). set (old := reverse (seq 0 i)).
  assert (at_places id (unlocking l) aff ≤ unlocking_sum (unlocking l) ∧ ∀ f, (∀ x, f x = x) →
    at_places f (unlocking l) (aff ++ old) = unlocking_sum (unlocking l)) as [Haff Hev].
  { pose proof (at_places_nonneg id None (unlocking l) (seq 0 i) Hid Hk).
    assert (at_places id (unlocking l) (seq 0 i) + at_places id (unlocking l) aff = unlocking_sum (unlocking l)) as Hsplit.
    { rewrite <-at_places_app. unfold aff. rewrite <-seq_app. replace (i + (length (unlocking l) - i))%nat with (length (unlocking l)) by lia. done. }
    split; [lia|]. intros f Hf. assert (∀ ps, at_places f (unlocking l) ps = at_places id (unlocking l) ps) as He.
    { intros ps. apply Z.le_antisymm; apply at_places_le; intros x _; rewrite Hf; unfold id; lia. }
    rewrite He, at_places_app. unfold old. rewrite at_places_reverse. lia. }
  pose proof (at_places_nonneg id None (unlocking l) aff Hid Hk) as Haff0.
  rewrite affected_sum by (done || lia). rewrite Z.add_0_l, saturating_add_exact by lia.
  set (ratio := default one _). intros [= <- <-]. split; [|split].
  { apply list.NoDup_app. split_and!; [apply NoDup_seq| |unfold old; rewrite reverse_Permutation; apply NoDup_seq].
    intros x [Hx _]%elem_of_seq [_ Hy]%elem_of_reverse%elem_of_seq. lia. }
  { intros x [[_ ?]%elem_of_seq|[_ ?]%elem_of_reverse%elem_of_seq]%elem_of_app; lia. }
  set (f x := Z.min (mul_ceil ratio x) x). assert (takes (Some ratio) f) as Htk.
  { intros rem x Hx. pose proof (mul_ceil_nonneg ratio x Hx). unfold f, share. lia. }
  exists f. split; [done|]. cbv zeta. split.
  2:{ intros Hold. apply list_elem_of_lookup_2 in Hi. specialize (Hold c Hi). lia. }
  rewrite at_places_app. pose proof (at_places_nonneg f _ (unlocking l) old Htk Hk) as Hold0.
  destruct (Z_le_gt_dec one ratio) as [Hge|Hlt'].
  { assert (∀ x, 0 ≤ x → f x = x) as Hf.
    { intros x Hx. unfold f. pose proof (mul_ceil_up ratio x Hx). assert (one * x ≤ one * mul_ceil ratio x) by nia. nia. }
    assert (at_places id (unlocking l) (aff ++ old) ≤ at_places f (unlocking l) (aff ++ old)) as Hle.
    { apply at_places_le. intros x Hx. rewrite Hf; [done|]. by apply (proj1 (list.Forall_forall _ _) Hk). }
    rewrite Hev, at_places_app in Hle by done. rewrite Hf by done. lia. }
  assert (∀ x, 0 ≤ x → ratio * x ≤ one * f x) as Hf.
  { intros x Hx. unfold f. pose proof (mul_ceil_up ratio x Hx). nia. }
  assert (ratio * at_places id (unlocking l) aff ≤ one * at_places f (unlocking l) aff) as Hle.
  { apply at_places_scale. intros x Hx. apply Hf. by apply (proj1 (list.Forall_forall _ _) Hk). }
  specialize (Hf (active l) Ha). unfold ratio in *. clear Hev.
  destruct (from_rational_up amount _) as [r|] eqn:Hr; simpl in *; [|lia].
  apply from_rational_up_near in Hr; [|lia|lia].
  set (A := at_places id (unlocking l) aff) in *. set (F := at_places f (unlocking l) aff) in *.
  assert (one * (amount - (f (active l) + F) - 1) ≤ total l) as Hq by nia.
  assert (amount - (f (active l) + F) - 1 ≤ total l / one) by (apply Z.div_le_lower_bound; lia). lia.
Qed.

Lemma ledger_slash_spec bonding l amount min_b e :
  ledger_ok max_chunks l → 0 ≤ amount → 0 ≤ min_b →
  ∃ l' d chunks, ledger_slash bonding l amount min_b e = (l', d, chunks) ∧
    ledger_ok max_chunks l' ∧ stash l' = stash l ∧ claimed_rewards l' = claimed_rewards l ∧
    d = total l - total l' ∧ 0 ≤ d ≤ total l ∧
    (amount < d → d < amount + min_b ∧ (active l' = 0 ∨ Nat.lt (length (unlocking l')) (length (unlocking l)))) ∧
    Z.min amount (total l) ≤ d + total l / one + 1 ∧
    ((∀ c, c ∈ unlocking l → era c < add32 e bonding) → Z.min amount (total l) ≤ d).
Proof.
  intros Hok Hamt Hmin. pose proof Hok as [Hsum Ha Hk Hfit Hlen]. pose proof (unlocking_pos _ Hk) as Hn. unfold ledger_slash.
  assert (0 ≤ total l / one) as Hdiv by (apply Z.div_pos; [lia|apply quintill_pos]).
  destruct (Z.eqb_spec amount 0) as [->|Hne].
  { exists l, 0, None. split_and!; (done || lia). }
  destruct (slash_plan l amount (add32 e bonding)) as [prop pri] eqn:Hplan.
  destruct (slash_plan_spec l amount _ prop pri Hok Hamt Hplan) as (Hnd & Hin & f & Hf & Hnear & Hexact). cbv zeta in Hnear, Hexact.
  destruct (slash_out_of_spec prop min_b (active l) (total l) amount) as (d & -> & Hd & Hlow & Hup); [lia|lia|lia|].
  destruct (slash_chunks_spec prop min_b f pri (unlocking l) (total l - d) (Z.max 0 (amount - d)) ∅)
    as (k' & d' & m' & -> & Hd' & Hs' & Hk' & Hlen' & Hlow' & Hup' & Hz); [done|done|done|by apply chunks_nonneg|lia|lia|lia|].
  destruct (Hf amount (active l) Ha) as [Hf0 Hfa].
  eexists _, _, _. split; [done|]. cbn [total active unlocking stash claimed_rewards field_update].
  pose proof (unlocking_nonneg _ Hk'). rewrite saturating_sub_exact by lia.
  split_and!; [|done|done|cbn; lia|lia|lia| |lia|].
  - split; cbn; [rewrite unlocking_nonzero; lia|lia|by apply filter_positive|lia|].
    pose proof (filter_length_le (λ c, value c ≠ 0) k'). lia.
  - intros Hover. destruct (Z_lt_le_dec amount d) as [Hlt|Hle].
    + destruct Hz as [-> _]; [lia|]. destruct (Hup Hlt). split; [lia|]. left. cbn. lia.
    + destruct Hup' as [Hb (c & Hc & Hv)]; [lia|]. split; [lia|]. right. cbn. rewrite <-Hlen'. by eapply filter_drops.
  - intros Hold. specialize (Hexact Hold). lia.
Qed.
End ledgers.
End StakingLedgers.
