(* ===== verification/Staking.v ===== *)
(** * pallet-staking: operations

    The calls of src/pallets/staking/src/pallet/mod.rs, the eras, payouts and the
    chain's emission of pallet/impls.rs, and the offences of slashing.rs. An
    election is an argument: what the election provider answers. [P] are the parts
    Perbill, [R] Perquintill. *)
From stdpp Require Import base gmap fin_maps list numbers.
From Stdlib Require Import ZArith Lia.
From S2P Require Import Prelude Currency ItemList StakingState.

Module Staking.
Import ItemList StakingState.

Section pallet.
Context {L : Type} `{!ReservableCurrency L, !TreasuryCurrency L, !StakingHost L}.
Context {P : PerThing} {R : PerQuintill}.
Context (T : Config).
Abbreviation MC := (M (State * L) (DispatchError Error)).

Definition host_gets {A} (f : L → A) : MC A := gets (λ w, f w.2).
Definition stakers_gets {A} (f : Stakers → A) : MC A := st_gets (λ s, f (stakers s)).
Definition params_gets {A} (f : Params → A) : MC A := st_gets (λ s, f (params s)).
Definition eras_gets {A} (f : Eras → A) : MC A := st_gets (λ s, f (eras s)).
Definition slashes_gets {A} (f : Slashes → A) : MC A := st_gets (λ s, f (slashes s)).
Definition emission_gets {A} (f : Emission → A) : MC A := st_gets (λ s, f (emission s)).
Definition stakers_modify (f : Stakers → Stakers) : MC unit := st_modify (λ s, s <| stakers ::= f |>).
Definition params_modify (f : Params → Params) : MC unit := st_modify (λ s, s <| params ::= f |>).
Definition eras_modify (f : Eras → Eras) : MC unit := st_modify (λ s, s <| eras ::= f |>).
Definition slashes_modify (f : Slashes → Slashes) : MC unit := st_modify (λ s, s <| slashes ::= f |>).
Definition emission_modify (f : Emission → Emission) : MC unit := st_modify (λ s, s <| emission ::= f |>).
Definition deposit_event (e : Event) : MC unit := st_modify (λ s, s <| events ::= λ es, es ++ [e] |>).
Definition error {A} (e : Error) : MC A := fail (Module e).

(** ** Stakers (impls.rs) *)
Definition slashable_balance_of (k : Stakers) (a : AccountId) : Balance :=
  match c ← Bonded k !! a; Ledger k !! c with Some l => active l | None => 0 end.
Definition weight_of (a : AccountId) : MC Z :=
  k ← stakers_gets id;
  issuance ← host_gets total_issuance;
  mret (to_vote T (slashable_balance_of k a) issuance).

Definition update_ledger (controller : AccountId) (ledger : StakingLedger) : MC unit :=
  m_ledger (set_lock (stash ledger) (total ledger));;
  stakers_modify (λ k, k <| Ledger ::= <[controller := ledger]> |>).
(** The list of voters learns of a new weight. *)
Definition update_voter (a : AccountId) : MC unit :=
  listed ← host_gets (λ l, bool_decide (a ∈ voters l));
  if (listed : bool) then weight ← weight_of a; m_ledger (on_update a weight) else mret tt.
Definition ledger_of (controller : AccountId) : MC StakingLedger :=
  l ← stakers_gets (λ k, Ledger k !! controller);
  ok_or l (Module NotController).

Definition do_add_nominator (a : AccountId) (nominations : Nominations) : MC unit :=
  known ← stakers_gets (λ k, bool_decide (is_Some (Nominators k !! a)));
  (if (known : bool) then mret tt else weight ← weight_of a; m_ledger (on_insert a weight));;
  stakers_modify (λ k, k <| Nominators ::= <[a := nominations]> |>).
Definition do_remove_nominator (a : AccountId) : MC bool :=
  known ← stakers_gets (λ k, bool_decide (is_Some (Nominators k !! a)));
  if (known : bool) then
    stakers_modify (λ k, k <| Nominators ::= delete a |>);;
    m_ledger (on_remove a);;
    mret true
  else mret false.
Definition do_add_validator (a : AccountId) (prefs : ValidatorPrefs) : MC unit :=
  known ← stakers_gets (λ k, bool_decide (is_Some (Validators k !! a)));
  (if (known : bool) then mret tt else weight ← weight_of a; m_ledger (on_insert a weight));;
  stakers_modify (λ k, k <| Validators ::= <[a := prefs]> |>).
Definition do_remove_validator (a : AccountId) : MC bool :=
  known ← stakers_gets (λ k, bool_decide (is_Some (Validators k !! a)));
  if (known : bool) then
    stakers_modify (λ k, k <| Validators ::= delete a |>);;
    m_ledger (on_remove a);;
    mret true
  else mret false.
Definition chill_stash (a : AccountId) : MC unit :=
  chilled_as_validator ← do_remove_validator a;
  chilled_as_nominator ← do_remove_nominator a;
  if chilled_as_validator || chilled_as_nominator then deposit_event (Chilled a) else mret tt.

Definition clear_stash_metadata (a : AccountId) (num_slashing_spans : Z) : MC unit :=
  spans ← slashes_gets (λ k, Spans k !! a);
  match spans with
  | None => mret tt
  | Some spans =>
      ensure (Z.of_nat (length (spans_iter spans)) <=? num_slashing_spans) (Module IncorrectSlashingSpans);;
      slashes_modify (λ k, k <| Spans ::= delete a |>);;
      for_each (spans_iter spans) (λ span, slashes_modify (λ k, k <| SpanSlash ::= delete (a, index span) |>))
  end.
Definition kill_stash (a : AccountId) (num_slashing_spans : Z) : MC unit :=
  controller ← stakers_gets (λ k, Bonded k !! a);
  controller ← ok_or controller (Module NotStash);
  clear_stash_metadata a num_slashing_spans;;
  stakers_modify (λ k, k <| Bonded ::= delete a |>);;
  stakers_modify (λ k, k <| Ledger ::= delete controller |>);;
  stakers_modify (λ k, k <| Payee ::= delete a |>);;
  do_remove_validator a;;
  do_remove_nominator a;;
  m_ledger (dec_consumers a).

Definition do_withdraw_unbonded (controller : AccountId) (num_slashing_spans : Z) : MC unit :=
  ledger ← ledger_of controller;
  let old_total := total ledger in
  current_era ← eras_gets CurrentEra;
  let ledger := match current_era with Some e => consolidate_unlocked ledger e | None => ledger end in
  (if bool_decide (unlocking ledger = []) && (active ledger <? minimum_balance) then
     kill_stash (stash ledger) num_slashing_spans;;
     m_ledger (remove_lock (stash ledger))
   else update_ledger controller ledger);;
  if total ledger <? old_total then deposit_event (Withdrawn (stash ledger) (old_total - total ledger)) else mret tt.

(** ** Payouts (impls.rs) *)
Definition try_deposit (a : AccountId) (v : Balance) : MC (option Balance) := λ w,
  match deposit_into_existing a v w.2 with
  | Some l => (Ok (Some v), (w.1, l))
  | None => (Ok None, w)
  end.
Definition create_deposit (a : AccountId) (v : Balance) : MC Balance := λ w,
  let '(l, d) := deposit_creating a v w.2 in (Ok d, (w.1, l)).

Definition make_payout (a : AccountId) (amount : Balance) : MC (option Balance) :=
  k ← stakers_gets id;
  match default Staked (Payee k !! a) with
  | Controller =>
      match Bonded k !! a with
      | Some controller => d ← create_deposit controller amount; mret (Some d)
      | None => mret None
      end
  | Stash => try_deposit a amount
  | Staked =>
      match c ← Bonded k !! a; l ← Ledger k !! c; Some (c, l) with
      | Some (controller, l) =>
          let l := l <| active ::= λ x, add128 x amount |> <| total ::= λ x, add128 x amount |> in
          r ← try_deposit a amount;
          update_ledger controller l;;
          mret r
      | None => mret None
      end
  | Account dest_account => d ← create_deposit dest_account amount; mret (Some d)
  | NoDestination => mret None
  end.
(** A payout with the event it leaves. *)
Definition reward_staker (a : AccountId) (amount : Balance) : MC unit :=
  imbalance ← make_payout a amount;
  match imbalance with Some d => deposit_event (Rewarded a d) | None => mret tt end.

(** The era among those claimed. *)
Definition claim_era (current_era : EraIndex) (e : EraIndex) (ledger : StakingLedger) : MC StakingLedger :=
  let claimed := filter (λ x, saturating_sub current_era (HistoryDepth T) ≤ x) (claimed_rewards ledger) in
  match binary_search claimed e with
  | Ok _ => error AlreadyClaimed
  | Err pos =>
      ensure (Z.of_nat (length claimed) <? HistoryDepth T) (Module BoundNotMet);;
      mret (ledger <| claimed_rewards := vec_insert pos e claimed |>)
  end.

Definition do_payout_stakers (validator_stash : AccountId) (e : EraIndex) : MC unit :=
  k ← eras_gets id;
  current_era ← ok_or (CurrentEra k) (Module InvalidEraToReward);
  ensure ((e <=? current_era) && (saturating_sub current_era (HistoryDepth T) <=? e)) (Module InvalidEraToReward);;
  era_payout ← ok_or (ErasValidatorReward k !! e) (Module InvalidEraToReward);
  controller ← stakers_gets (λ k, Bonded k !! validator_stash);
  controller ← ok_or controller (Module NotStash);
  ledger ← ledger_of controller;
  ledger ← claim_era current_era e ledger;
  let exposure := default Exposure_default (ErasStakersClipped k !! (e, stash ledger)) in
  stakers_modify (λ k, k <| Ledger ::= <[controller := ledger]> |>);;
  let era_reward_points := default EraRewardPoints_default (ErasRewardPoints k !! e) in
  let validator_reward_points := default 0 (individual era_reward_points !! stash ledger) in
  if validator_reward_points =? 0 then mret tt
  else
    let validator_total_reward_part := from_rational validator_reward_points (points_total era_reward_points) in
    let validator_total_payout := per_mul validator_total_reward_part era_payout in
    let validator_prefs := default ValidatorPrefs_default (ErasValidatorPrefs k !! (e, validator_stash)) in
    let validator_commission_payout := per_mul (commission validator_prefs) validator_total_payout in
    let validator_leftover_payout := validator_total_payout - validator_commission_payout in
    let validator_exposure_part := from_rational (own exposure) (exposure_total exposure) in
    let validator_staking_payout := per_mul validator_exposure_part validator_leftover_payout in
    deposit_event (PayoutStarted e (stash ledger));;
    reward_staker (stash ledger) (add128 validator_staking_payout validator_commission_payout);;
    for_each (others exposure) (λ nominator,
      let nominator_exposure_part := from_rational (exposed nominator) (exposure_total exposure) in
      reward_staker (who nominator) (per_mul nominator_exposure_part validator_leftover_payout)).

(** ** Slashes (slashing.rs) *)
Definition do_slash (a : AccountId) (v : Balance) (reward_payout slashed_imbalance : Balance) (slash_era : EraIndex) :
    MC (Balance * Balance) :=
  k ← stakers_gets id;
  match c ← Bonded k !! a; l ← Ledger k !! c; Some (c, l) with
  | None => mret (reward_payout, slashed_imbalance)
  | Some (controller, ledger) =>
      let '(ledger, v, chunks) := ledger_slash (BondingDuration T) ledger v minimum_balance slash_era in
      match chunks with
      | Some chunks => m_ledger (on_staker_slash (stash ledger) (active ledger) chunks)
      | None => mret tt
      end;;
      if v =? 0 then mret (reward_payout, slashed_imbalance)
      else
        missing ← host_gets (λ l, (slash a v l).2);
        m_ledger (λ l, (slash a v l).1);;
        update_ledger controller ledger;;
        deposit_event (Slashed a v);;
        mret (if missing =? 0 then reward_payout else saturating_sub reward_payout missing,
              slashed_imbalance + (v - missing))
  end.
Fixpoint do_slashes (l : list (AccountId * Balance)) (reward_payout slashed_imbalance : Balance) (slash_era : EraIndex) :
    MC (Balance * Balance) :=
  match l with
  | [] => mret (reward_payout, slashed_imbalance)
  | (nominator, nominator_slash) :: l =>
      r ← do_slash nominator nominator_slash reward_payout slashed_imbalance slash_era;
      do_slashes l r.1 r.2 slash_era
  end.
(** Pays each reporter its part; what is left of the reward. *)
Fixpoint pay_each (reporters : list AccountId) (per_reporter reward_payout : Balance) : MC Balance :=
  match reporters with
  | [] => mret reward_payout
  | reporter :: reporters =>
      let reporter_reward := Z.min per_reporter reward_payout in
      create_deposit reporter reporter_reward;;
      pay_each reporters per_reporter (reward_payout - reporter_reward)
  end.
Definition pay_reporters (reward_payout slashed_imbalance : Balance) (reporters : list AccountId) : MC unit :=
  if (reward_payout =? 0) || bool_decide (reporters = []) then m_ledger (on_unbalanced slashed_imbalance)
  else
    let reward_payout := Z.min reward_payout slashed_imbalance in
    let value_slashed := slashed_imbalance - reward_payout in
    let per_reporter := reward_payout / Z.of_nat (length reporters) in
    rest ← pay_each reporters per_reporter reward_payout;
    m_ledger (on_unbalanced (value_slashed + rest)).
Definition apply_slash (u : UnappliedSlash) (slash_era : EraIndex) : MC unit :=
  r ← do_slash (validator u) (own_slash u) (payout u) 0 slash_era;
  r ← do_slashes (other_slashes u) r.1 r.2 slash_era;
  pay_reporters r.1 r.2 (reporters u).
Definition apply_unapplied_slashes (active_era : EraIndex) : MC unit :=
  era_slashes ← slashes_gets (λ k, default [] (UnappliedSlashes k !! active_era));
  slashes_modify (λ k, k <| UnappliedSlashes ::= delete active_era |>);;
  for_each era_slashes (λ u, apply_slash u (saturating_sub active_era (SlashDeferDuration T))).

(** ** Offences (slashing.rs) *)
Definition REWARD_F1 : Z := from_percent 50.

Definition fetch_spans (a : AccountId) (window_start : EraIndex) (paid slash_of : Balance) : MC InspectingSpans :=
  stored ← slashes_gets (λ k, Spans k !! a);
  match stored with
  | Some spans => mret {| dirty := false; spans := spans; inspected_paid := paid; inspected_slash := slash_of |}
  | None =>
      let spans := spans_new window_start in
      slashes_modify (λ k, k <| Spans ::= <[a := spans]> |>);;
      mret {| dirty := false; spans := spans; inspected_paid := paid; inspected_slash := slash_of |}
  end.
Definition end_span (i : InspectingSpans) (now : EraIndex) : InspectingSpans :=
  let '(s, ended) := spans_end_span (spans i) now in
  i <| spans := s |> <| dirty ::= orb ended |>.
Definition add_slash (i : InspectingSpans) (amount : Balance) (slash_era : EraIndex) : InspectingSpans :=
  i <| inspected_slash ::= λ x, add128 x amount |>
    <| spans ::= λ s, s <| last_nonzero_slash ::= λ e, Z.max e slash_era |> |>.
Definition era_span (i : InspectingSpans) (e : EraIndex) : option SlashingSpan :=
  List.find (λ span, contains_era span e) (spans_iter (spans i)).

(** What a slash does to the record of its span: the record, whether it is
    another one, the reward, and what was not slashed before. *)
Definition span_update (reward_proportion : Z) (slash : Balance) (span_record : SpanRecord) :
    SpanRecord * bool * Balance * option Balance :=
  let reward r := per_mul REWARD_F1 (saturating_sub (per_mul reward_proportion slash) (paid_out r)) in
  let '(r, changed, reward, difference) :=
    if slashed span_record <? slash then
      (span_record <| slashed := slash |>, true, reward span_record, Some (slash - slashed span_record))
    else if slashed span_record =? slash then (span_record, false, reward span_record, None)
    else (span_record, false, 0, None) in
  if reward =? 0 then (r, changed, reward, difference)
  else (r <| paid_out ::= λ x, add128 x reward |>, true, reward, difference).

Definition compare_and_update_span_slash (a : AccountId) (reward_proportion : Z) (i : InspectingSpans)
    (slash_era : EraIndex) (slash : Balance) : MC (InspectingSpans * option SpanIndex) :=
  match era_span i slash_era with
  | None => mret (i, None)
  | Some target_span =>
      span_record ← slashes_gets (λ k, default SpanRecord_default (SpanSlash k !! (a, index target_span)));
      let '(r, changed, reward, difference) := span_update reward_proportion slash span_record in
      let i := match difference with Some d => add_slash i d slash_era | None => i end in
      let i := if reward =? 0 then i else i <| inspected_paid ::= λ x, add128 x reward |> in
      if changed then
        slashes_modify (λ k, k <| SpanSlash ::= <[(a, index target_span) := r]> |>);;
        mret (i <| dirty := true |>, Some (index target_span))
      else mret (i, Some (index target_span))
  end.
(** [Drop for InspectingSpans]. *)
Definition drop_spans (a : AccountId) (window_start : EraIndex) (i : InspectingSpans) : MC unit :=
  if dirty i then
    let '(s, pruned) := spans_prune (spans i) window_start in
    match pruned with
    | Some (first, last) =>
        for_each (seqZ first (last - first)) (λ span_index, slashes_modify (λ k, k <| SpanSlash ::= delete (a, span_index) |>))
    | None => mret tt
    end;;
    slashes_modify (λ k, k <| Spans ::= <[a := s]> |>)
  else mret tt.

Definition set_force_era (mode : Forcing) : MC unit :=
  params_modify (λ k, k <| ForceEra := mode |>);;
  deposit_event (ForceEraEvent mode).
Definition ensure_new_era : MC unit :=
  mode ← params_gets ForceEra;
  match mode with
  | ForceAlways | ForceNew => mret tt
  | _ => set_force_era ForceNew
  end.
Definition add_offending_validator (a : AccountId) (disable : bool) : MC unit :=
  validators ← host_gets session_validators;
  match list_find (λ v, v = a) validators with
  | None => mret tt
  | Some (validator_index, _) =>
      let i := Z.of_nat validator_index in
      offending ← slashes_gets OffendingValidators;
      match binary_search offending.*1 i with
      | Err pos =>
          let offending := vec_insert pos (i, disable) offending in
          let offending_threshold := per_mul (OffendingValidatorsThreshold T) (Z.of_nat (length validators)) in
          (if offending_threshold <=? Z.of_nat (length offending) then ensure_new_era else mret tt);;
          (if disable then m_ledger (disable_session_validator i) else mret tt);;
          slashes_modify (λ k, k <| OffendingValidators := offending |>)
      | Ok pos =>
          match offending !! pos with
          | Some (_, false) =>
              if disable then
                m_ledger (disable_session_validator i);;
                slashes_modify (λ k, k <| OffendingValidators := <[pos := (i, true)]> offending |>)
              else mret tt
          | _ => mret tt
          end
      end
  end.

Definition kick_out_if_recent (p : SlashParams) : MC unit :=
  i ← fetch_spans (offender p) (window_start p) 0 0;
  i ← (if bool_decide (index <$> era_span i (slash_era p) = Some (span_index (spans i))) then
         chill_stash (offender p);; mret (end_span i (params_now p))
       else mret i);
  add_offending_validator (offender p) (bool_decide (disable_strategy p = DisableAlways));;
  drop_spans (offender p) (window_start p) i.

Fixpoint slash_nominators (p : SlashParams) (prior_slash_p : Z) (nominators : list IndividualExposure)
    (reward_payout : Balance) (nominators_slashed : list (AccountId * Balance)) :
    MC (Balance * list (AccountId * Balance)) :=
  match nominators with
  | [] => mret (reward_payout, nominators_slashed)
  | nominator :: nominators =>
      let a := who nominator in
      let own_slash_prior := per_mul prior_slash_p (exposed nominator) in
      let own_slash_by_validator := per_mul (fraction p) (exposed nominator) in
      let own_slash_difference := saturating_sub own_slash_by_validator own_slash_prior in
      prior_era_slash ← slashes_gets (λ k, default 0 (NominatorSlashInEra k !! (slash_era p, a)));
      let era_slash := add128 prior_era_slash own_slash_difference in
      slashes_modify (λ k, k <| NominatorSlashInEra ::= <[(slash_era p, a) := era_slash]> |>);;
      i ← fetch_spans a (window_start p) reward_payout 0;
      it ← compare_and_update_span_slash a (reward_proportion p) i (slash_era p) era_slash;
      let i := if bool_decide (it.2 = Some (span_index (spans it.1))) then end_span it.1 (params_now p) else it.1 in
      drop_spans a (window_start p) i;;
      slash_nominators p prior_slash_p nominators (inspected_paid i) (nominators_slashed ++ [(a, inspected_slash i)])
  end.

Definition compute_slash (p : SlashParams) : MC (option UnappliedSlash) :=
  let a := offender p in
  let own_slash := per_mul (fraction p) (own (exposure p)) in
  if per_mul (fraction p) (exposure_total (exposure p)) =? 0 then kick_out_if_recent p;; mret None
  else
    prior ← slashes_gets (λ k, ValidatorSlashInEra k !! (slash_era p, a));
    let prior_slash_p := match prior with Some (f, _) => f | None => 0 end in
    if fraction p <=? prior_slash_p then mret None
    else
      slashes_modify (λ k, k <| ValidatorSlashInEra ::= <[(slash_era p, a) := (fraction p, own_slash)]> |>);;
      i ← fetch_spans a (window_start p) 0 0;
      it ← compare_and_update_span_slash a (reward_proportion p) i (slash_era p) own_slash;
      i ← (if bool_decide (it.2 = Some (span_index (spans it.1))) then
             chill_stash a;; mret (end_span it.1 (params_now p))
           else mret it.1);
      drop_spans a (window_start p) i;;
      add_offending_validator a (bool_decide (disable_strategy p ≠ DisableNever));;
      n ← slash_nominators p prior_slash_p (others (exposure p)) 0 [];
      mret (Some {| validator := a; own_slash := inspected_slash i; other_slashes := n.2; reporters := [];
                    payout := add128 (inspected_paid i) n.1 |}).

(** One offender of a report: its stash with its exposure, its reporters, and the
    part of its stake to slash. *)
Definition punish (invulnerables : list AccountId) (active_era slash_era window_start : EraIndex) (reward_proportion : Z)
    (strategy : DisableStrategy) (o : (AccountId * Exposure) * list AccountId * Z) : MC unit :=
  let '(a, e, reported_by, f) := o in
  if bool_decide (a ∈ invulnerables) then mret tt
  else
    unapplied ← compute_slash {| offender := a; fraction := f; exposure := e; slash_era := slash_era;
      window_start := window_start; params_now := active_era; reward_proportion := reward_proportion;
      disable_strategy := strategy |};
    deposit_event (SlashReported a f slash_era);;
    match unapplied with
    | None => mret tt
    | Some u =>
        let u := u <| reporters := reported_by |> in
        if SlashDeferDuration T =? 0 then apply_slash u slash_era
        else
          let due := saturating_add U32_MAX (saturating_add U32_MAX slash_era (SlashDeferDuration T)) 1 in
          slashes_modify (λ k, k <| UnappliedSlashes ::= λ m, <[due := default [] (m !! due) ++ [u]]> m |>)
    end.
Definition on_offence (offenders : list ((AccountId * Exposure) * list AccountId)) (slash_fraction : list Z)
    (slash_session : SessionIndex) (strategy : DisableStrategy) : MC unit :=
  reward_proportion ← params_gets SlashRewardFraction;
  k ← eras_gets id;
  match ActiveEra k with
  | None => mret tt
  | Some active =>
      let active_era := era_index active in
      let start_session := default 0 (ErasStartSessionIndex k !! active_era) in
      let window_start := saturating_sub active_era (BondingDuration T) in
      let slash_era :=
        if start_session <=? slash_session then Some active_era
        else fst <$> List.find (λ b : EraIndex * SessionIndex, b.2 <=? slash_session) (reverse (BondedEras k)) in
      match slash_era with
      | None => mret tt
      | Some slash_era =>
          invulnerables ← params_gets Invulnerables;
          for_each (zip offenders slash_fraction)
            (punish invulnerables active_era slash_era window_start reward_proportion strategy)
      end
  end.
(** [FilterHistoricalOffences]: [report] is the handler it passes offences to. *)
Definition report_offence (report : MC unit) (offence_session : SessionIndex) : MC unit :=
  bonded_eras ← eras_gets BondedEras;
  match head bonded_eras with
  | Some (_, start) =>
      if start <=? offence_session then report else deposit_event (OldSlashingReportDiscarded offence_session)
  | None => deposit_event (OldSlashingReportDiscarded offence_session)
  end.

(** ** Eras (impls.rs) *)
Definition clear_era {A} (e : EraIndex) : gmap (EraIndex * AccountId) A → gmap (EraIndex * AccountId) A :=
  filter (λ kv, kv.1.1 ≠ e).
Definition clear_era_information (e : EraIndex) : MC unit :=
  eras_modify (λ k, k <| ErasStakers ::= clear_era e |> <| ErasStakersClipped ::= clear_era e |>
    <| ErasValidatorPrefs ::= clear_era e |> <| ErasValidatorReward ::= delete e |> <| ErasRewardPoints ::= delete e |>
    <| ErasTotalStake ::= delete e |> <| ErasStartSessionIndex ::= delete e |>).
Definition clear_era_metadata (e : EraIndex) : MC unit :=
  slashes_modify (λ k, k <| ValidatorSlashInEra ::= clear_era e |> <| NominatorSlashInEra ::= clear_era e |>).

Definition collect_exposure (issuance : Balance) (support : AccountId * list (AccountId * Z)) : AccountId * Exposure :=
  (support.1,
   foldl (λ x (vote : AccountId * Z),
     let stake := to_currency T vote.2 issuance in
     let x := if decide (vote.1 = support.1) then
                {| exposure_total := exposure_total x; own := saturating_add U128_MAX (own x) stake; others := others x |}
              else {| exposure_total := exposure_total x; own := own x;
                      others := others x ++ [{| who := vote.1; exposed := stake |}] |} in
     {| exposure_total := saturating_add U128_MAX (exposure_total x) stake; own := own x; others := others x |})
     Exposure_default support.2).
(** [sort_by] with the greater exposure first, keeping the order of equal ones. *)
Fixpoint insert_exposure (x : IndividualExposure) (l : list IndividualExposure) : list IndividualExposure :=
  match l with
  | [] => [x]
  | y :: l => if exposed y <=? exposed x then x :: y :: l else y :: insert_exposure x l
  end.
Definition clip (e : Exposure) : Exposure :=
  let clipped_max_len := Z.to_nat (MaxNominatorRewardedPerValidator T) in
  if Nat.ltb clipped_max_len (length (others e)) then
    {| exposure_total := exposure_total e; own := own e;
       others := take clipped_max_len (foldr insert_exposure [] (others e)) |}
  else e.
Definition store_stakers_info (exposures : list (AccountId * Exposure)) (new_planned_era : EraIndex) :
    MC (list AccountId) :=
  for_each exposures (λ x : AccountId * Exposure,
    eras_modify (λ k, k <| ErasStakers ::= <[(new_planned_era, x.1) := x.2]> |>);;
    eras_modify (λ k, k <| ErasStakersClipped ::= <[(new_planned_era, x.1) := clip x.2]> |>));;
  let total_stake := foldl (λ t (x : AccountId * Exposure), saturating_add U128_MAX t (exposure_total x.2)) 0 exposures in
  eras_modify (λ k, k <| ErasTotalStake ::= <[new_planned_era := total_stake]> |>);;
  for_each exposures.*1 (λ a : AccountId,
    pref ← stakers_gets (λ k, default ValidatorPrefs_default (Validators k !! a));
    eras_modify (λ k, k <| ErasValidatorPrefs ::= <[(new_planned_era, a) := pref]> |>));;
  mret exposures.*1.
Definition trigger_new_era (start_session_index : SessionIndex) (exposures : list (AccountId * Exposure)) :
    MC (list AccountId) :=
  current ← eras_gets CurrentEra;
  let new_planned_era := match current with Some e => add32 e 1 | None => 0 end in
  eras_modify (λ k, k <| CurrentEra := Some new_planned_era |>);;
  eras_modify (λ k, k <| ErasStartSessionIndex ::= <[new_planned_era := start_session_index]> |>);;
  match checked_sub new_planned_era (add32 (HistoryDepth T) 1) with
  | Some old_era => clear_era_information old_era
  | None => mret tt
  end;;
  store_stakers_info exposures new_planned_era.

(** What an election answers: the winners with their votes. *)
Abbreviation Election := (option (list (AccountId * list (AccountId * Z)))).
Definition try_trigger_new_era (start_session_index : SessionIndex) (election : Election) : MC (option (list AccountId)) :=
  match election with
  | None => deposit_event StakingElectionFailed;; mret None
  | Some supports =>
      issuance ← host_gets total_issuance;
      let exposures := collect_exposure issuance <$> supports in
      minimum ← params_gets MinimumValidatorCount;
      if Z.of_nat (length exposures) <? Z.max minimum 1 then
        current ← eras_gets CurrentEra;
        match current with
        | None =>
            eras_modify (λ k, k <| CurrentEra := Some 0 |>);;
            eras_modify (λ k, k <| ErasStartSessionIndex ::= <[0 := start_session_index]> |>)
        | Some _ => mret tt
        end;;
        deposit_event StakingElectionFailed;;
        mret None
      else
        deposit_event StakersElected;;
        stashes ← trigger_new_era start_session_index exposures;
        mret (Some stashes)
  end.
Definition new_session (session_index : SessionIndex) (election : Election) : MC (option (list AccountId)) :=
  params_modify (λ k, k <| CurrentPlannedSession := session_index |>);;
  current ← eras_gets CurrentEra;
  match current with
  | Some current_era =>
      start ← eras_gets (λ k, default 0 (ErasStartSessionIndex k !! current_era));
      let era_length := saturating_sub session_index start in
      mode ← params_gets ForceEra;
      let go := match mode with
        | ForceNew | ForceAlways => true
        | NotForcing => SessionsPerEra T <=? era_length
        | ForceNone => false
        end in
      if go then
        maybe_new_era_validators ← try_trigger_new_era session_index election;
        mode ← params_gets ForceEra;
        (if bool_decide (is_Some maybe_new_era_validators) && match mode with ForceNew => true | _ => false end
         then set_force_era NotForcing else mret tt);;
        mret maybe_new_era_validators
      else mret None
  | None => try_trigger_new_era session_index election
  end.

Definition start_era (start_session : SessionIndex) : MC unit :=
  active ← eras_gets ActiveEra;
  let active_era := match active with Some info => add32 (era_index info) 1 | None => 0 end in
  eras_modify (λ k, k <| ActiveEra := Some {| era_index := active_era; start := None |} |>);;
  bonded ← eras_gets BondedEras;
  let bonded := bonded ++ [(active_era, start_session)] in
  (if BondingDuration T <? active_era then
     let first_kept := active_era - BondingDuration T in
     let n_to_prune := match list_find (λ b : EraIndex * SessionIndex, first_kept ≤ b.1) bonded with
       | Some (n, _) => n | None => length bonded end in
     for_each (take n_to_prune bonded) (λ b : EraIndex * SessionIndex, clear_era_metadata b.1);;
     let bonded := drop n_to_prune bonded in
     match head bonded with
     | Some (_, first_session) => m_ledger (prune_historical_up_to first_session)
     | None => mret tt
     end;;
     eras_modify (λ k, k <| BondedEras := bonded |>)
   else eras_modify (λ k, k <| BondedEras := bonded |>));;
  apply_unapplied_slashes active_era.
Definition start_session (start_session : SessionIndex) : MC unit :=
  k ← eras_gets id;
  let next_active_era := match ActiveEra k with Some e => add32 (era_index e) 1 | None => 0 end in
  match ErasStartSessionIndex k !! next_active_era with
  | Some next_start => if next_start <=? start_session then start_era start_session else mret tt
  | None => mret tt
  end;;
  offending ← slashes_gets OffendingValidators;
  for_each offending (λ o : Z * bool, if o.2 then m_ledger (disable_session_validator o.1) else mret tt).

(** *** The emission: rewards of the committee, the foundation and the treasury,
    and the payout of an era by the phase of the chain *)
Definition reward_to_committee_team : M (State * L) unit unit := λ w,
  let e := emission w.1 in
  if RewardTimes e <? 1 then (Ok tt, w)
  else match CommitteeTeamRewardPerYear e with
       | None => (Err tt, w)
       | Some rewards =>
           let l := foldl (λ l (r : AccountId * Balance), (deposit_creating r.1 r.2 l).1) w.2 rewards in
           (Ok tt, (w.1 <| emission ::= λ e, e <| RewardTimes ::= λ n, n - 1 |> |>, l))
       end.
Definition foundation_due (e : EraIndex) (f : FoundationIssueRewards) : bool :=
  (0 <? foundation_left_times f) && (foundation_first_era f <=? e) &&
  ((e - foundation_first_era f) mod foundation_interval f =? 0).
Definition treasury_due (e : EraIndex) (t : TreasuryIssueRewards) : bool :=
  (0 <? treasury_left_times t) && (treasury_first_era t <=? e) &&
  ((e - treasury_first_era t) mod treasury_interval t =? 0).
Definition issue_reward (e : EraIndex) : M (State * L) unit unit := λ w,
  match FoundationReward (emission w.1), TreasuryReward (emission w.1) with
  | Some f, Some t =>
      if (foundation_interval f =? 0) || (treasury_interval t =? 0) then (Ok tt, w)
      else
        let w :=
          if foundation_due e f then
            (w.1 <| emission ::= λ k, k <| FoundationReward := Some (f <| foundation_left_times ::= λ n, n - 1 |>) |> |>,
             foldl (λ l a, (deposit_creating a (foundation_amount f) l).1) w.2 (foundation_who f))
          else w in
        let w :=
          if treasury_due e t then
            (w.1 <| emission ::= λ k, k <| TreasuryReward := Some (t <| treasury_left_times ::= λ n, n - 1 |>) |> |>,
             (deposit_creating (treasury_account t) (treasury_amount t) w.2).1)
          else w in
        (Ok tt, w)
  | _, _ => (Err tt, w)
  end.
(** [inflation::compute_total_payout] and [ConvertCurve::era_payout]. *)
Definition compute_total_payout (milliseconds_per_year yearly_inflation_amount era_duration : Z) : Balance * Balance :=
  let portion := from_rational era_duration milliseconds_per_year in
  let payout := per_mul portion yearly_inflation_amount in
  (payout, payout).
Definition era_payout (milliseconds_per_year yearly_inflation_amount era_duration : Z) : Balance * Balance :=
  let '(validator_payout, max_payout) := compute_total_payout milliseconds_per_year yearly_inflation_amount era_duration in
  (validator_payout, saturating_sub max_payout validator_payout).
Definition MILLISECONDS_PER_YEAR : Z := 1000 * 3600 * 24 * 36525 / 100.
Definition yearly_inflation (e : Emission) (now : BlockNumber) : Balance :=
  let block_per_year := MILLISECONDS_PER_YEAR / saturating_mul U64_MAX (MinimumPeriod T) 2 in
  if now <? RewardStartHeight e then 0
  else if now <? 3 * block_per_year + RewardStartHeight e then Phase0RewardPerYear e
  else if now <? 8 * block_per_year + RewardStartHeight e then Phase1RewardPerYear e
  else Phase2RewardPerYear e.
Definition end_era (now : BlockNumber) (now_as_millis : Z) (active_era : ActiveEraInfo) : MC unit :=
  match start active_era with
  | None => mret tt
  | Some active_era_start =>
      first_release_date ← emission_gets FirstCommitteeTeamReleaseEra;
      (if era_index active_era =? first_release_date then ignore reward_to_committee_team
       else if (first_release_date <? era_index active_era) && ((era_index active_era - first_release_date) mod 365 =? 0)
       then ignore reward_to_committee_team else mret tt);;
      ignore (issue_reward (era_index active_era));;
      let era_duration := (now_as_millis - active_era_start) mod 2 ^ 64 in
      yearly_inflation_amount ← emission_gets (λ e, yearly_inflation e now);
      let '(validator_payout, remainder) := era_payout MILLISECONDS_PER_YEAR yearly_inflation_amount era_duration in
      deposit_event (EraPaid (era_index active_era) validator_payout remainder);;
      eras_modify (λ k, k <| ErasValidatorReward ::= <[era_index active_era := validator_payout]> |>);;
      m_ledger (on_unbalanced remainder);;
      slashes_modify (λ k, k <| OffendingValidators := [] |>)
  end.
Definition end_session (now : BlockNumber) (now_as_millis : Z) (session_index : SessionIndex) : MC unit :=
  k ← eras_gets id;
  match ActiveEra k with
  | None => mret tt
  | Some active =>
      match ErasStartSessionIndex k !! add32 (era_index active) 1 with
      | Some next_start => if next_start =? add32 session_index 1 then end_era now now_as_millis active else mret tt
      | None => mret tt
      end
  end.
Definition on_finalize (now_as_millis : Z) : MC unit :=
  active ← eras_gets ActiveEra;
  match active with
  | Some info =>
      match start info with
      | None => eras_modify (λ k, k <| ActiveEra := Some {| era_index := era_index info; start := Some now_as_millis |} |>)
      | Some _ => mret tt
      end
  | None => mret tt
  end.
Definition reward_by_ids (validators_points : list (AccountId * Z)) : MC unit :=
  active ← eras_gets ActiveEra;
  match active with
  | None => mret tt
  | Some info =>
      eras_modify (λ k, k <| ErasRewardPoints ::= λ m,
        <[era_index info :=
          foldl (λ (r : EraRewardPoints) (vp : AccountId * Z),
            {| points_total := add32 (points_total r) vp.2;
               individual := <[vp.1 := add32 (default 0 (individual r !! vp.1)) vp.2]> (individual r) |})
            (default EraRewardPoints_default (m !! era_index info)) validators_points]> m |>)
  end.
Definition note_author (author : AccountId) : MC unit := reward_by_ids [(author, 20)].

(** *** What an election is told *)
Fixpoint npos_voters (k : Stakers) (issuance : Balance) (max_allowed_len voters_left : nat) (l : list AccountId)
    (all_voters : list (AccountId * Z * list AccountId)) (min_active_stake : Z) :
    list (AccountId * Z * list AccountId) * Z :=
  match l, voters_left with
  | voter :: l, S voters_left =>
      if Nat.leb max_allowed_len (length all_voters) then (all_voters, min_active_stake)
      else
        let voter_weight := to_vote T (slashable_balance_of k voter) issuance in
        match Nominators k !! voter with
        | Some n =>
            let all_voters := if bool_decide (targets n = []) then all_voters
                              else all_voters ++ [(voter, voter_weight, targets n)] in
            npos_voters k issuance max_allowed_len voters_left l all_voters (Z.min voter_weight min_active_stake)
        | None =>
            let all_voters := if bool_decide (is_Some (Validators k !! voter))
                              then all_voters ++ [(voter, voter_weight, [voter])] else all_voters in
            npos_voters k issuance max_allowed_len voters_left l all_voters min_active_stake
        end
  | _, _ => (all_voters, min_active_stake)
  end.
Definition get_npos_voters (maybe_max_len : option nat) : MC (list (AccountId * Z * list AccountId)) :=
  listed ← host_gets voters;
  k ← stakers_gets id;
  issuance ← host_gets total_issuance;
  let all_voter_count := length listed in
  let max_allowed_len := Nat.min (default all_voter_count maybe_max_len) all_voter_count in
  let '(all_voters, min_active_stake) := npos_voters k issuance max_allowed_len (2 * max_allowed_len) listed [] U64_MAX in
  params_modify (λ p, p <| MinimumActiveStake := if bool_decide (all_voters = []) then 0 else min_active_stake |>);;
  mret all_voters.

(** ** Calls (mod.rs) *)
Definition bond (origin : Origin) (v : Balance) (payee : RewardDestination) : MC unit :=
  a ← ensure_signed origin;
  k ← stakers_gets id;
  ensure (bool_decide (Bonded k !! a = None)) (Module AlreadyBonded);;
  ensure (negb (bool_decide (is_Some (Ledger k !! a)))) (Module AlreadyPaired);;
  ensure (minimum_balance <=? v) (Module InsufficientBond);;
  consumed ← host_gets (inc_consumers a);
  l ← ok_or consumed (Module BadState);
  m_ledger (λ _, l);;
  stakers_modify (λ k, k <| Bonded ::= <[a := a]> |> <| Payee ::= <[a := payee]> |>);;
  current_era ← eras_gets (λ k, default 0 (CurrentEra k));
  let last_reward_era := saturating_sub current_era (HistoryDepth T) in
  stash_balance ← host_gets (λ l, free_balance l a);
  let v := Z.min v stash_balance in
  deposit_event (BondedEvent a v);;
  let claimed := seqZ last_reward_era (current_era - last_reward_era) in
  ensure (Z.of_nat (length claimed) <=? HistoryDepth T) (Module BoundNotMet);;
  update_ledger a {| stash := a; total := v; active := v; unlocking := []; claimed_rewards := claimed |}.

Definition bond_extra (origin : Origin) (max_additional : Balance) : MC unit :=
  a ← ensure_signed origin;
  controller ← stakers_gets (λ k, Bonded k !! a);
  controller ← ok_or controller (Module NotStash);
  ledger ← ledger_of controller;
  stash_balance ← host_gets (λ l, free_balance l a);
  match checked_sub stash_balance (total ledger) with
  | Some extra =>
      let extra := Z.min extra max_additional in
      let ledger := ledger <| total ::= λ x, add128 x extra |> <| active ::= λ x, add128 x extra |> in
      ensure (minimum_balance <=? active ledger) (Module InsufficientBond);;
      update_ledger controller ledger;;
      update_voter a;;
      deposit_event (BondedEvent a extra)
  | None => mret tt
  end.

(** The least bond the role of a stash asks for. *)
Definition min_active_bond (a : AccountId) : MC Balance :=
  k ← stakers_gets id;
  p ← params_gets id;
  mret (if bool_decide (is_Some (Nominators k !! a)) then MinNominatorBond p
        else if bool_decide (is_Some (Validators k !! a)) then MinValidatorBond p else 0).
(** The chunks with another one: the last takes it if it is of the same era. *)
Definition push_chunk (v : Balance) (e : EraIndex) (chunks : list UnlockChunk) : list UnlockChunk :=
  match list.last chunks with
  | Some chunk =>
      if era chunk =? e then
        take (length chunks - 1) chunks ++ [chunk <| value ::= λ x, saturating_add U128_MAX x v |>]
      else chunks ++ [{| value := v; era := e |}]
  | None => chunks ++ [{| value := v; era := e |}]
  end.
Definition unbond (origin : Origin) (v : Balance) : MC unit :=
  controller ← ensure_signed origin;
  ledger ← ledger_of controller;
  (if Z.of_nat (length (unlocking ledger)) =? MaxUnlockingChunks T then
     real_num_slashing_spans ← slashes_gets (λ k,
       match Spans k !! controller with Some s => Z.of_nat (length (spans_iter s)) | None => 0 end);
     do_withdraw_unbonded controller real_num_slashing_spans
   else mret tt);;
  ledger ← ledger_of controller;
  let v := Z.min v (active ledger) in
  ensure (Z.of_nat (length (unlocking ledger)) <? MaxUnlockingChunks T) (Module NoMoreChunks);;
  if v =? 0 then mret tt
  else
    let remaining := active ledger - v in
    let '(v, remaining) := if remaining <? minimum_balance then (add128 v remaining, 0) else (v, remaining) in
    min_bond ← min_active_bond (stash ledger);
    ensure (min_bond <=? remaining) (Module InsufficientBond);;
    current_era ← eras_gets (λ k, default 0 (CurrentEra k));
    let e := add32 current_era (BondingDuration T) in
    let ledger := ledger <| active := remaining |> <| unlocking ::= push_chunk v e |> in
    update_ledger controller ledger;;
    update_voter (stash ledger);;
    deposit_event (Unbonded (stash ledger) v).

Definition withdraw_unbonded (origin : Origin) (num_slashing_spans : Z) : MC unit :=
  controller ← ensure_signed origin;
  do_withdraw_unbonded controller num_slashing_spans.

(** [count < max] where there is a maximum. *)
Definition below (max : option Z) (count : Z) : bool := match max with Some m => count <? m | None => true end.
Definition validate (origin : Origin) (prefs : ValidatorPrefs) : MC unit :=
  controller ← ensure_signed origin;
  ledger ← ledger_of controller;
  p ← params_gets id;
  ensure (MinValidatorBond p <=? active ledger) (Module InsufficientBond);;
  let a := stash ledger in
  ensure (MinCommission p <=? commission prefs) (Module CommissionTooLow);;
  ensure (negb (bool_decide (a ∈ DisabledValidators p))) (Module DisabledValidator);;
  k ← stakers_gets id;
  ensure (bool_decide (is_Some (Validators k !! a)) || below (MaxValidatorsCount p) (Z.of_nat (size (Validators k))))
    (Module TooManyValidators);;
  do_remove_nominator a;;
  do_add_validator a prefs;;
  deposit_event (ValidatorPrefsSet a prefs).

Fixpoint resolve_targets (k : Stakers) (old : list AccountId) (l : list AccountId) : result Error (list AccountId) :=
  match l with
  | [] => Ok []
  | t :: l =>
      match lookup T t with
      | None => Err CannotLookup
      | Some n =>
          if bool_decide (n ∈ old) || negb (blocked (default ValidatorPrefs_default (Validators k !! n))) then
            match resolve_targets k old l with Ok ns => Ok (n :: ns) | Err e => Err e end
          else Err BadTarget
      end
  end.
Definition nominate (origin : Origin) (addresses : list AccountId) : MC unit :=
  controller ← ensure_signed origin;
  ledger ← ledger_of controller;
  p ← params_gets id;
  ensure (MinNominatorBond p <=? active ledger) (Module InsufficientBond);;
  let a := stash ledger in
  k ← stakers_gets id;
  ensure (bool_decide (is_Some (Nominators k !! a)) || below (MaxNominatorsCount p) (Z.of_nat (size (Nominators k))))
    (Module TooManyNominators);;
  ensure (negb (bool_decide (addresses = []))) (Module EmptyTargets);;
  ensure (Z.of_nat (length addresses) <=? MaxNominations T) (Module TooManyTargets);;
  let old := match Nominators k !! a with Some n => targets n | None => [] end in
  resolved ← match resolve_targets k old addresses with Ok ts => mret ts | Err e => error e end;
  current_era ← eras_gets (λ k, default 0 (CurrentEra k));
  do_remove_validator a;;
  do_add_nominator a {| targets := resolved; submitted_in := current_era; suppressed := false |}.

Definition chill (origin : Origin) : MC unit :=
  controller ← ensure_signed origin;
  ledger ← ledger_of controller;
  chill_stash (stash ledger).
Definition set_payee (origin : Origin) (payee : RewardDestination) : MC unit :=
  controller ← ensure_signed origin;
  ledger ← ledger_of controller;
  stakers_modify (λ k, k <| Payee ::= <[stash ledger := payee]> |>).
Definition set_controller (origin : Origin) : MC unit :=
  a ← ensure_signed origin;
  k ← stakers_gets id;
  old_controller ← ok_or (Bonded k !! a) (Module NotStash);
  ensure (negb (bool_decide (is_Some (Ledger k !! a)))) (Module AlreadyPaired);;
  if bool_decide (old_controller = a) then mret tt
  else
    stakers_modify (λ k, k <| Bonded ::= <[a := a]> |>);;
    match Ledger k !! old_controller with
    | Some l => stakers_modify (λ k, k <| Ledger ::= λ m, <[a := l]> (delete old_controller m) |>)
    | None => mret tt
    end.

Definition put_validator_count (n : Z) : MC unit :=
  ensure (n <=? MaxWinners T) (Module TooManyValidators);;
  params_modify (λ p, p <| ValidatorCount := n |>).
Definition set_validator_count (origin : Origin) (n : Z) : MC unit :=
  ensure_root origin;;
  put_validator_count n.
Definition increase_validator_count (origin : Origin) (additional : Z) : MC unit :=
  ensure_root origin;;
  old ← params_gets ValidatorCount;
  n ← ok_or (checked_add U32_MAX old additional) ArithmeticError;
  put_validator_count n.
Definition scale_validator_count (origin : Origin) (factor : Z) : MC unit :=
  ensure_root origin;;
  old ← params_gets ValidatorCount;
  n ← ok_or (checked_add U32_MAX old (mul_floor T factor old)) ArithmeticError;
  put_validator_count n.
Definition force_eras (origin : Origin) (mode : Forcing) : MC unit :=
  ensure_root origin;;
  set_force_era mode.
Definition force_no_eras (origin : Origin) : MC unit := force_eras origin ForceNone.
Definition force_new_era (origin : Origin) : MC unit := force_eras origin ForceNew.
Definition force_new_era_always (origin : Origin) : MC unit := force_eras origin ForceAlways.
Definition set_invulnerables (origin : Origin) (l : list AccountId) : MC unit :=
  ensure_root origin;;
  params_modify (λ p, p <| Invulnerables := l |>).
Definition force_unstake (origin : Origin) (a : AccountId) (num_slashing_spans : Z) : MC unit :=
  ensure_root origin;;
  kill_stash a num_slashing_spans;;
  m_ledger (remove_lock a).

Fixpoint is_sorted_and_unique (l : list Z) : bool :=
  match l with
  | x :: (y :: _) as l => (x <? y) && is_sorted_and_unique l
  | _ => true
  end.
(** The loop that removes the indices, each moved by those removed before. *)
Fixpoint remove_indices {A} (removed : nat) (indices : list Z) (l : list A) : list A :=
  match indices with
  | [] => l
  | i :: indices => remove_indices (S removed) indices (delete (Z.to_nat i - removed)%nat l)
  end.
Definition cancel_deferred_slash (origin : Origin) (e : EraIndex) (slash_indices : list Z) : MC unit :=
  ensure (AdminOrigin T origin) BadOrigin;;
  last_item ← ok_or (list.last slash_indices) (Module EmptyTargets);
  ensure (is_sorted_and_unique slash_indices) (Module NotSortedAndUnique);;
  unapplied ← slashes_gets (λ k, default [] (UnappliedSlashes k !! e));
  ensure (last_item <? Z.of_nat (length unapplied)) (Module InvalidSlashIndex);;
  slashes_modify (λ k, k <| UnappliedSlashes ::= <[e := remove_indices 0 slash_indices unapplied]> |>).
Definition payout_stakers (origin : Origin) (validator_stash : AccountId) (e : EraIndex) : MC unit :=
  _ ← ensure_signed origin;
  do_payout_stakers validator_stash e.
Definition rebond (origin : Origin) (v : Balance) : MC unit :=
  controller ← ensure_signed origin;
  ledger ← ledger_of controller;
  ensure (negb (bool_decide (unlocking ledger = []))) (Module NoUnlockChunk);;
  let '(ledger, rebonded_value) := ledger_rebond ledger v in
  ensure (minimum_balance <=? active ledger) (Module InsufficientBond);;
  deposit_event (BondedEvent (stash ledger) rebonded_value);;
  update_ledger controller ledger;;
  update_voter (stash ledger).
Definition reap_stash (origin : Origin) (a : AccountId) (num_slashing_spans : Z) : MC unit :=
  _ ← ensure_signed origin;
  balance ← host_gets (λ l, free_balance l a + reserved_balance l a);
  (if balance <? minimum_balance then mret tt
   else
     k ← stakers_gets id;
     controller ← ok_or (Bonded k !! a) (Module NotStash);
     let bonded_total := match Ledger k !! controller with Some l => total l | None => 0 end in
     ensure (bonded_total <? minimum_balance) (Module FundedTarget));;
  kill_stash a num_slashing_spans;;
  m_ledger (remove_lock a).
(** [Vec::swap_remove]. *)
Definition swap_remove {A} (i : nat) (l : list A) : list A :=
  match list.last l with Some x => take (length l - 1) (<[i := x]> l) | None => l end.
Definition kick_one (a nom_stash : AccountId) : MC unit :=
  maybe_nom ← stakers_gets (λ k, Nominators k !! nom_stash);
  match maybe_nom with
  | Some nom =>
      match list_find (λ v, v = a) (targets nom) with
      | Some (pos, _) =>
          stakers_modify (λ k, k <| Nominators ::= <[nom_stash := nom <| targets ::= swap_remove pos |>]> |>);;
          deposit_event (Kicked nom_stash a)
      | None => mret tt
      end
  | None => mret tt
  end.
Definition kick (origin : Origin) (addresses : list AccountId) : MC unit :=
  controller ← ensure_signed origin;
  ledger ← ledger_of controller;
  who ← ok_or (mapM (lookup T) addresses) (Module CannotLookup);
  for_each who (kick_one (stash ledger)).

Inductive ConfigOp := Noop | SetTo (v : Z) | Remove.
Definition config_op (op : ConfigOp) (old : Z) : Z := match op with Noop => old | SetTo v => v | Remove => 0 end.
Definition config_op_option (op : ConfigOp) (old : option Z) : option Z :=
  match op with Noop => old | SetTo v => Some v | Remove => None end.
Definition set_staking_configs (origin : Origin)
    (min_nominator_bond min_validator_bond max_nominator_count max_validator_count chill_threshold min_commission : ConfigOp) :
    MC unit :=
  ensure_root origin;;
  params_modify (λ p, p <| MinNominatorBond ::= config_op min_nominator_bond |>
    <| MinValidatorBond ::= config_op min_validator_bond |>
    <| MaxNominatorsCount ::= config_op_option max_nominator_count |>
    <| MaxValidatorsCount ::= config_op_option max_validator_count |>
    <| ChillThreshold ::= config_op_option chill_threshold |>
    <| MinCommission ::= config_op min_commission |>).
(** Whether others may take its role from a stash. (In the model every stored
    nomination can be decoded.) *)
Definition chillable (p : Params) (k : Stakers) (ledger : StakingLedger) : bool :=
  let a := stash ledger in
  match ChillThreshold p with
  | None => false
  | Some threshold =>
      if bool_decide (is_Some (Nominators k !! a)) then
        match MaxNominatorsCount p with
        | None => false
        | Some max => (percent_mul T threshold max <? Z.of_nat (size (Nominators k))) && (active ledger <? MinNominatorBond p)
        end
      else if bool_decide (is_Some (Validators k !! a)) then
        match MaxValidatorsCount p with
        | None => false
        | Some max => (percent_mul T threshold max <? Z.of_nat (size (Validators k))) && (active ledger <? MinValidatorBond p)
        end
      else active ledger <? 0
  end.
Definition chill_other (origin : Origin) (controller : AccountId) : MC unit :=
  caller ← ensure_signed origin;
  ledger ← ledger_of controller;
  p ← params_gets id;
  k ← stakers_gets id;
  ensure (bool_decide (caller = controller) || chillable p k ledger) (Module CannotChillOther);;
  chill_stash (stash ledger).
Definition force_apply_min_commission (origin : Origin) (validator_stash : AccountId) : MC unit :=
  _ ← ensure_signed origin;
  min_commission ← params_gets MinCommission;
  prefs ← stakers_gets (λ k, Validators k !! validator_stash);
  prefs ← ok_or prefs (Module NotStash);
  stakers_modify (λ k, k <| Validators ::= <[validator_stash :=
    prefs <| commission ::= λ c, if c <? min_commission then min_commission else c |>]> |>).
Definition set_min_commission (origin : Origin) (c : Z) : MC unit :=
  ensure (AdminOrigin T origin) BadOrigin;;
  params_modify (λ p, p <| MinCommission := c |>).

(** *** Governance of the emission, of unlocking times and of validators *)
Definition set_emission (origin : Origin) (f : Emission → Emission) : MC unit :=
  ensure_root origin;;
  emission_modify f.
Definition set_reward_start_height (origin : Origin) (h : BlockNumber) : MC unit :=
  set_emission origin (λ e, e <| RewardStartHeight := h |>).
Definition set_phase0_reward (origin : Origin) (v : Balance) : MC unit :=
  set_emission origin (λ e, e <| Phase0RewardPerYear := v |>);; deposit_event (PhaseReward 0 v).
Definition set_phase1_reward (origin : Origin) (v : Balance) : MC unit :=
  set_emission origin (λ e, e <| Phase1RewardPerYear := v |>);; deposit_event (PhaseReward 1 v).
Definition set_phase2_reward (origin : Origin) (v : Balance) : MC unit :=
  set_emission origin (λ e, e <| Phase2RewardPerYear := v |>);; deposit_event (PhaseReward 2 v).
Definition set_first_committee_team_reward_date (origin : Origin) (e : EraIndex) : MC unit :=
  set_emission origin (λ k, k <| FirstCommitteeTeamReleaseEra := e |>).
Definition add_committee_team_reward_per_year (origin : Origin) (reward_to : AccountId) (v : Balance) : MC unit :=
  ensure_root origin;;
  rewards ← emission_gets CommitteeTeamRewardPerYear;
  rewards ← ok_or rewards (Module Unknown);
  emission_modify (λ e, e <| CommitteeTeamRewardPerYear := Some (rewards ++ [(reward_to, v)]) |>).
(** [Vec::remove] panics when the index is out of range. *)
Definition rm_committee_team_reward_by_index (origin : Origin) (i : Z) : MC unit :=
  ensure_root origin;;
  rewards ← emission_gets CommitteeTeamRewardPerYear;
  rewards ← ok_or rewards (Module Unknown);
  ensure (i <? Z.of_nat (length rewards)) (Module Panics);;
  emission_modify (λ e, e <| CommitteeTeamRewardPerYear := Some (delete (Z.to_nat i) rewards) |>).
Definition set_foundation_params (origin : Origin) (f : FoundationIssueRewards) : MC unit :=
  set_emission origin (λ e, e <| FoundationReward := Some f |>).
Definition set_treasury_params (origin : Origin) (t : TreasuryIssueRewards) : MC unit :=
  set_emission origin (λ e, e <| TreasuryReward := Some t |>).
Definition set_unlock_after_eras (origin : Origin) (account : AccountId) (unlocking_index : Z) (after_eras : EraIndex) :
    MC unit :=
  ensure_root origin;;
  ledger ← ledger_of account;
  if Z.of_nat (length (unlocking ledger)) <=? unlocking_index then mret tt
  else
    current_era ← eras_gets (λ k, default 0 (CurrentEra k));
    let new_unlocking_era := add32 current_era after_eras in
    let ledger := ledger <| unlocking ::= alter (λ c, c <| era := new_unlocking_era |>) (Z.to_nat unlocking_index) |> in
    update_ledger account ledger;;
    update_voter (stash ledger);;
    deposit_event (UpdateUnlock (stash ledger) unlocking_index new_unlocking_era).
Definition disable_validator (origin : Origin) (a : AccountId) : MC unit :=
  ensure_root origin;;
  disabled ← params_gets DisabledValidators;
  if bool_decide (a ∈ disabled) then mret tt
  else
    ensure (Z.of_nat (length disabled) <? 100) (Module TooManyValidators);;
    params_modify (λ p, p <| DisabledValidators := disabled ++ [a] |>);;
    deposit_event (DisabledValidatorEvent a).
Definition enable_validator (origin : Origin) (a : AccountId) : MC unit :=
  ensure_root origin;;
  disabled ← params_gets DisabledValidators;
  ensure (bool_decide (a ∈ disabled)) (Module NotDisabledValidator);;
  params_modify (λ p, p <| DisabledValidators := filter (λ x, x ≠ a) disabled |>);;
  deposit_event (EnabledValidator a).

(** *** Genesis: what the runtime's configuration stakes. A failed assertion
    panics. *)
Inductive StakerStatus := Idle | ValidatorStatus | NominatorStatus (votes : list AccountId).
Definition genesis_staker (x : AccountId * Balance * StakerStatus) : MC unit :=
  let '(a, balance, status) := x in
  stash_balance ← host_gets (λ l, free_balance l a);
  ensure (balance <=? stash_balance) (Module Panics);;
  bond (Signed a) balance Staked;;
  match status with
  | ValidatorStatus => validate (Signed a) ValidatorPrefs_default
  | NominatorStatus votes => nominate (Signed a) votes
  | Idle => mret tt
  end;;
  count ← params_gets ValidatorCount;
  ensure (count <=? MaxWinners T) (Module Panics).
Definition genesis_build (configured : list (AccountId * Balance * StakerStatus)) : MC unit :=
  for_each configured genesis_staker;;
  k ← stakers_gets id;
  count ← host_gets (λ l, Z.of_nat (length (voters l)));
  ensure (count =? Z.of_nat (size (Nominators k)) + Z.of_nat (size (Validators k))) (Module Panics).

(** *** Dispatch *)
Inductive Call :=
| Bond (v : Balance) (payee : RewardDestination)
| BondExtra (max_additional : Balance)
| Unbond (v : Balance)
| WithdrawUnbonded (num_slashing_spans : Z)
| Validate (prefs : ValidatorPrefs)
| Nominate (addresses : list AccountId)
| Chill
| SetPayee (payee : RewardDestination)
| SetController
| SetValidatorCount (n : Z)
| IncreaseValidatorCount (additional : Z)
| ScaleValidatorCount (factor : Z)
| ForceNoEras
| ForceNewEra
| ForceNewEraAlways
| SetInvulnerables (l : list AccountId)
| ForceUnstake (a : AccountId) (num_slashing_spans : Z)
| CancelDeferredSlash (e : EraIndex) (slash_indices : list Z)
| PayoutStakers (validator_stash : AccountId) (e : EraIndex)
| Rebond (v : Balance)
| ReapStash (a : AccountId) (num_slashing_spans : Z)
| Kick (addresses : list AccountId)
| SetStakingConfigs (min_nominator_bond min_validator_bond max_nominator_count max_validator_count chill_threshold
    min_commission : ConfigOp)
| ChillOther (controller : AccountId)
| ForceApplyMinCommission (validator_stash : AccountId)
| SetMinCommission (c : Z)
| SetRewardStartHeight (h : BlockNumber)
| SetPhase0Reward (v : Balance)
| SetPhase1Reward (v : Balance)
| SetPhase2Reward (v : Balance)
| SetFirstCommitteeTeamRewardDate (e : EraIndex)
| AddCommitteeTeamRewardPerYear (reward_to : AccountId) (v : Balance)
| RmCommitteeTeamRewardByIndex (i : Z)
| SetFoundationParams (f : FoundationIssueRewards)
| SetTreasuryParams (t : TreasuryIssueRewards)
| SetUnlockAfterEras (account : AccountId) (unlocking_index : Z) (after_eras : EraIndex)
| DisableValidator (a : AccountId)
| EnableValidatorCall (a : AccountId).
Definition run_call (o : Origin) (c : Call) : MC unit :=
  match c with
  | Bond v payee => bond o v payee
  | BondExtra v => bond_extra o v
  | Unbond v => unbond o v
  | WithdrawUnbonded n => withdraw_unbonded o n
  | Validate prefs => validate o prefs
  | Nominate addresses => nominate o addresses
  | Chill => chill o
  | SetPayee payee => set_payee o payee
  | SetController => set_controller o
  | SetValidatorCount n => set_validator_count o n
  | IncreaseValidatorCount n => increase_validator_count o n
  | ScaleValidatorCount f => scale_validator_count o f
  | ForceNoEras => force_no_eras o
  | ForceNewEra => force_new_era o
  | ForceNewEraAlways => force_new_era_always o
  | SetInvulnerables l => set_invulnerables o l
  | ForceUnstake a n => force_unstake o a n
  | CancelDeferredSlash e js => cancel_deferred_slash o e js
  | PayoutStakers a e => payout_stakers o a e
  | Rebond v => rebond o v
  | ReapStash a n => reap_stash o a n
  | Kick addresses => kick o addresses
  | SetStakingConfigs a b c d e f => set_staking_configs o a b c d e f
  | ChillOther controller => chill_other o controller
  | ForceApplyMinCommission a => force_apply_min_commission o a
  | SetMinCommission c => set_min_commission o c
  | SetRewardStartHeight h => set_reward_start_height o h
  | SetPhase0Reward v => set_phase0_reward o v
  | SetPhase1Reward v => set_phase1_reward o v
  | SetPhase2Reward v => set_phase2_reward o v
  | SetFirstCommitteeTeamRewardDate e => set_first_committee_team_reward_date o e
  | AddCommitteeTeamRewardPerYear a v => add_committee_team_reward_per_year o a v
  | RmCommitteeTeamRewardByIndex i => rm_committee_team_reward_by_index o i
  | SetFoundationParams f => set_foundation_params o f
  | SetTreasuryParams t => set_treasury_params o t
  | SetUnlockAfterEras a i n => set_unlock_after_eras o a i n
  | DisableValidator a => disable_validator o a
  | EnableValidatorCall a => enable_validator o a
  end.
(** A call that fails leaves no trace. *)
Definition dispatch (o : Origin) (c : Call) : MC unit := transactional (run_call o c).
End pallet.
End Staking.
