(* ===== verification/StakingSteps.v ===== *)
(** * pallet-staking: the invariant and its steps

    [Inv] ties the maps of the stakers to each other, to the locks and to the list
    of voters, orders the eras, and remembers which payouts were claimed ([X]); every
    call, session hook and offence keeps it. [same] is what most of the code leaves
    alone. *)
From stdpp Require Import base gmap fin_maps list numbers relations.
From Stdlib Require Import ZArith Lia.
From S2P Require Import Prelude Currency ItemList RentalInterfaces StakingState StakingLedgers Staking.

Module StakingSteps.
Import ItemList StakingState StakingLedgers Staking.

Create HintDb staking_ops.
#[export] Hint Unfold host_gets stakers_gets params_gets eras_gets slashes_gets emission_gets stakers_modify
  params_modify eras_modify slashes_modify emission_modify deposit_event error : staking_ops.

Lemma sorted_seqZ m n : sorted (seqZ m n).
Proof.
  intros i j x y Hij [-> _]%lookup_seqZ [-> _]%lookup_seqZ. unfold cmp, Z_ord. apply Z.compare_lt_iff. lia.
Qed.
Lemma sorted_filter {A} `{OrdLaws A} (Q : A → Prop) `{∀ x, Decision (Q x)} (l : list A) : sorted l → sorted (filter Q l).
Proof. apply sorted_sublist. apply sublist_filter. Qed.

Section steps.
Context {L : Type} `{!ReservableCurrency L, !TreasuryCurrency L, !StakingHost L, !StakingHostLaws L}.
Context {P : PerThing} {R : PerQuintill} `{!PerThingLaws P, !PerQuintillLaws R}.
Context (T : Config).
Abbreviation World := (State * L)%type.
Abbreviation MC := (M World (DispatchError Error)).
Implicit Types (w : World) (X : AccountId → EraIndex → Prop).

(** ** The invariant *)
Definition window (cur : EraIndex) : EraIndex := saturating_sub cur (HistoryDepth T).
(** The payout of era [e] of the stash is over: it is claimed as long as it could
    be. *)
Definition settled (a : AccountId) (e : EraIndex) (s : State) : Prop :=
  ∃ cur, CurrentEra (eras s) = Some cur ∧ e < cur ∧
    ∀ c l, Bonded (stakers s) !! a = Some c → Ledger (stakers s) !! c = Some l → window cur ≤ e → e ∈ claimed_rewards l.
Definition slash_ok (u : UnappliedSlash) : Prop := 0 ≤ own_slash u ∧ Forall (λ x : AccountId * Balance, 0 ≤ x.2) (other_slashes u).
Definition staked (k : Stakers) (a : AccountId) : Prop := is_Some (Validators k !! a) ∨ is_Some (Nominators k !! a).

Record Inv X w : Prop := {
  inv_bonded a c : Bonded (stakers w.1) !! a = Some c → ∃ l, Ledger (stakers w.1) !! c = Some l ∧ stash l = a;
  inv_owner c l : Ledger (stakers w.1) !! c = Some l → Bonded (stakers w.1) !! stash l = Some c;
  inv_ledger c l : Ledger (stakers w.1) !! c = Some l → ledger_ok (MaxUnlockingChunks T) l ∧ sorted (claimed_rewards l);
  inv_locked c l : Ledger (stakers w.1) !! c = Some l → 0 < total l → lock w.2 (stash l) = total l;
  inv_unlocked a : Bonded (stakers w.1) !! a = None → lock w.2 a = 0;
  inv_role a : staked (stakers w.1) a → is_Some (Bonded (stakers w.1) !! a);
  inv_one_role a : Validators (stakers w.1) !! a = None ∨ Nominators (stakers w.1) !! a = None;
  inv_voters a : a ∈ voters w.2 ↔ staked (stakers w.1) a;
  inv_current cur : CurrentEra (eras w.1) = Some cur → 0 ≤ cur ≤ U32_MAX;
  inv_start e x : ErasStartSessionIndex (eras w.1) !! e = Some x → ∃ cur, CurrentEra (eras w.1) = Some cur ∧ e ≤ cur;
  inv_active e : era_index <$> ActiveEra (eras w.1) = Some e → ∃ cur, CurrentEra (eras w.1) = Some cur ∧ 0 ≤ e ≤ cur;
  inv_rewards e p : ErasValidatorReward (eras w.1) !! e = Some p → ∃ cur, CurrentEra (eras w.1) = Some cur ∧ e < cur;
  inv_slashes e us : UnappliedSlashes (slashes w.1) !! e = Some us → Forall slash_ok us;
  inv_settled a e : X a e → settled a e w.1;
}.

(** ** What most of the code leaves alone *)
Definition view (s : State) :=
  (Bonded (stakers s), Ledger (stakers s), Validators (stakers s), Nominators (stakers s),
   (CurrentEra (eras s), era_index <$> ActiveEra (eras s), ErasStartSessionIndex (eras s), ErasValidatorReward (eras s)),
   UnappliedSlashes (slashes s)).
Definition same_host (l0 l : L) : Prop := (∀ a, lock l a = lock l0 a) ∧ (∀ a, a ∈ voters l ↔ a ∈ voters l0).
Definition same w0 w : Prop := view w.1 = view w0.1 ∧ same_host w0.2 w.2.

Lemma same_refl w : same w w.
Proof. by repeat split. Qed.
Lemma same_trans w1 w2 w3 : same w1 w2 → same w2 w3 → same w1 w3.
Proof.
  intros (Hv & Hl & Hm) (Hv' & Hl' & Hm'). split; [congruence|]. split; intros a.
  - by rewrite Hl', Hl.
  - by rewrite Hm', Hm.
Qed.
Lemma unseen_same_host l l' : unseen l l' → same_host l l'.
Proof. intros (_ & Hl & Hv). split; [done|]. intros a. by rewrite Hv. Qed.

Lemma Inv_same_view X w w' : same w w' → Inv X w → Inv X w'.
Proof.
  intros (Hv & Hl & Hm) [H1 H2 H3 H4 H5 H6 H7 H8 H9 H10 H11 H12 H13 H14]. unfold view in Hv.
  injection Hv as E1 E2 E3 E4 E5 E6 E7 E8 E9.
  split; unfold staked, settled in *; rewrite ?E1, ?E2, ?E3, ?E4, ?E5, ?E6, ?E7, ?E8, ?E9; try assumption.
  - intros c l Hc Ht. rewrite Hl. by eapply H4.
  - intros a Ha. rewrite Hl. by apply H5.
  - intros a. rewrite Hm. apply H8.
Qed.
Lemma kept_same {E A} X (m : M World E A) : (∀ w0, kept (same w0) m) → kept (Inv X) m.
Proof. intros Hm w Hw. apply (Inv_same_view X w); [|done]. apply Hm, same_refl. Qed.

Lemma same_write {E} w0 f : (∀ s, view (f s) = view s) → kept (same w0) (st_modify (E:=E) f).
Proof. intros Hf w [Hv Hl]. split; [|done]. cbn. by rewrite Hf. Qed.
Lemma same_ledger {E} w0 f : (∀ l, same_host l (f l)) → kept (same w0) (m_ledger (E:=E) f).
Proof. intros Hf w Hw. eapply same_trans; [exact Hw|]. split; [done|]. apply Hf. Qed.
Lemma kept_st_gets {E A B} (Q' : World → Prop) (f : State → A) (k : A → M World E B) :
  (∀ w, Q' w → kept Q' (k (f w.1))) → kept Q' (st_gets f ≫= k).
Proof. intros Hk w Hw. exact (Hk w Hw w Hw). Qed.
End steps.

(** Goes through a run none of whose writes can be seen in [same]. *)
Ltac same_step :=
  first
  [ lazymatch goal with
    | |- kept _ (st_gets _ ≫= _) => apply kept_st_gets; intros ? ?
    | |- kept _ (st_gets _) => by intros ?
    | |- kept _ (gets _) => by intros ?
    | |- kept _ (ensure_signed ?o) => by destruct o; intros ?
    | |- kept _ (ensure_root ?o) => by destruct o; intros ?
    end
  | kept_step
  | lazymatch goal with
    | |- kept (same _) (st_modify _) => apply same_write; reflexivity
    | |- kept (same _) (m_ledger _) => apply same_ledger; intros ?; by auto with staking_ops
    end
  | solve [auto with staking_ops]
  | progress cbv beta zeta
  | progress autounfold with staking_ops ].
Ltac same_steps := repeat same_step.

Section quiet.
Context {L : Type} `{!ReservableCurrency L, !TreasuryCurrency L, !StakingHost L, !StakingHostLaws L}.
Context {P : PerThing} {R : PerQuintill}.
Context (T : Config).
Abbreviation World := (State * L)%type.
Abbreviation MC := (M World (DispatchError Error)).
Implicit Types (w : World).

Lemma host_deposit_creating a v (l : L) : same_host l (deposit_creating a v l).1.
Proof. split; intros b; [apply deposit_creating_locks|by rewrite deposit_creating_voters]. Qed.
Lemma host_on_unbalanced v (l : L) : same_host l (on_unbalanced v l).
Proof. split; intros b; [apply unbalanced_locks|by rewrite unbalanced_voters]. Qed.
Lemma host_slash a v (l : L) : same_host l (slash a v l).1.
Proof. split; intros b; [apply slash_locks|by rewrite slash_voters]. Qed.
Lemma host_disable i (l : L) : same_host l (disable_session_validator i l).
Proof. apply unseen_same_host, disable_unseen. Qed.
Lemma host_prune i (l : L) : same_host l (prune_historical_up_to i l).
Proof. apply unseen_same_host, prune_unseen. Qed.
Lemma host_dec a (l : L) : same_host l (dec_consumers a l).
Proof. apply unseen_same_host, dec_consumers_unseen. Qed.
Lemma host_update a v (l : L) : same_host l (on_update a v l).
Proof. apply unseen_same_host, on_update_unseen. Qed.
Lemma host_staker_slash a v m (l : L) : same_host l (on_staker_slash a v m l).
Proof. apply unseen_same_host, staker_slash_unseen. Qed.
#[local] Hint Resolve host_deposit_creating host_on_unbalanced host_slash host_disable host_prune host_dec
  host_update host_staker_slash : staking_ops.

Lemma same_create_deposit w0 a v : kept (same w0) (create_deposit a v : MC Balance).
Proof.
  intros w Hw. unfold create_deposit. destruct (deposit_creating a v w.2) as [l d] eqn:Hd. eapply same_trans; [exact Hw|].
  split; [done|]. pose proof (host_deposit_creating a v w.2) as Hl. by rewrite Hd in Hl.
Qed.
Lemma same_try_deposit w0 a v : kept (same w0) (try_deposit a v : MC (option Balance)).
Proof.
  intros w Hw. unfold try_deposit. destruct (deposit_into_existing a v w.2) as [l|] eqn:Hd; [|done].
  eapply same_trans; [exact Hw|]. split; [done|]. split; intros b; cbn.
  - by eapply deposit_existing_locks.
  - by erewrite deposit_existing_voters by done.
Qed.
#[local] Hint Resolve same_create_deposit same_try_deposit : staking_ops.

Lemma same_weight_of w0 a : kept (same w0) (weight_of T a : MC Z).
Proof. unfold weight_of. same_steps. Qed.
#[local] Hint Resolve same_weight_of : staking_ops.
Lemma same_update_voter w0 a : kept (same w0) (update_voter T a : MC unit).
Proof. unfold update_voter. same_steps. Qed.
Lemma same_clear_stash_metadata w0 a n : kept (same w0) (clear_stash_metadata a n : MC unit).
Proof. unfold clear_stash_metadata. same_steps. Qed.
Lemma same_fetch_spans w0 a e p d : kept (same w0) (fetch_spans a e p d : MC InspectingSpans).
Proof. unfold fetch_spans. same_steps. Qed.
Lemma same_compare w0 a p i e v : kept (same w0) (compare_and_update_span_slash a p i e v : MC _).
Proof. unfold compare_and_update_span_slash. same_steps. Qed.
Lemma same_drop_spans w0 a e i : kept (same w0) (drop_spans a e i : MC unit).
Proof. unfold drop_spans. same_steps. Qed.
Lemma same_set_force_era w0 m : kept (same w0) (set_force_era m : MC unit).
Proof. unfold set_force_era. same_steps. Qed.
#[local] Hint Resolve same_set_force_era same_fetch_spans same_compare same_drop_spans : staking_ops.
Lemma same_ensure_new_era w0 : kept (same w0) (ensure_new_era : MC unit).
Proof. unfold ensure_new_era. same_steps. Qed.
#[local] Hint Resolve same_ensure_new_era : staking_ops.
Lemma same_add_offending w0 a d : kept (same w0) (add_offending_validator T a d : MC unit).
Proof. unfold add_offending_validator. same_steps. Qed.
Lemma same_slash_nominators w0 p f ns r out : kept (same w0) (slash_nominators p f ns r out : MC _).
Proof. revert r out. induction ns as [|n ns IH]; intros r out; cbn [slash_nominators]; same_steps. Qed.
Lemma same_pay_each w0 rs per v : kept (same w0) (pay_each rs per v : MC Balance).
Proof. revert v. induction rs as [|r rs IH]; intros v; cbn [pay_each]; same_steps. Qed.
#[local] Hint Resolve same_pay_each : staking_ops.
Lemma same_pay_reporters w0 v d rs : kept (same w0) (pay_reporters v d rs : MC unit).
Proof. unfold pay_reporters. same_steps. Qed.
Lemma same_clear_era_metadata w0 e : kept (same w0) (clear_era_metadata e : MC unit).
Proof. unfold clear_era_metadata. same_steps. Qed.
Lemma same_reward_by_ids w0 l : kept (same w0) (reward_by_ids l : MC unit).
Proof. unfold reward_by_ids. same_steps. Qed.
Lemma same_on_finalize w0 t : kept (same w0) (on_finalize t : MC unit).
Proof.
  intros w Hw. unfold on_finalize, eras_gets, st_gets. rewrite bind_gets.
  destruct (ActiveEra (eras w.1)) as [info|] eqn:Ha; [|done]. destruct (start info); [done|].
  destruct Hw as [Hv Hl]. split; [|done]. rewrite <-Hv. unfold view. cbn. by rewrite Ha.
Qed.
Lemma same_get_npos_voters w0 n : kept (same w0) (get_npos_voters T n : MC _).
Proof. unfold get_npos_voters. same_steps. Qed.
End quiet.
#[export] Hint Extern 1 (same_host _ _) => first
  [ apply host_deposit_creating | apply host_on_unbalanced | apply host_slash | apply host_disable | apply host_prune
  | apply host_dec | apply host_update | apply host_staker_slash ] : staking_ops.
#[export] Hint Extern 1 (kept (same _) _) => first
  [ apply same_create_deposit | apply same_try_deposit | apply same_weight_of | apply same_update_voter
  | apply same_clear_stash_metadata | apply same_fetch_spans | apply same_compare | apply same_drop_spans
  | apply same_set_force_era | apply same_ensure_new_era | apply same_add_offending | apply same_slash_nominators
  | apply same_pay_each | apply same_pay_reporters | apply same_clear_era_metadata | apply same_reward_by_ids
  | apply same_on_finalize | apply same_get_npos_voters ] : staking_ops.
End StakingSteps.
