(* ===== verification/StakingInvariant.v ===== *)
(** * pallet-staking: the invariant is kept

    By the operations that change ledgers, roles, eras and pending slashes, and so
    by every call and hook. *)
From stdpp Require Import base gmap fin_maps list numbers relations.
From Stdlib Require Import ZArith Lia.
From S2P Require Import Prelude Currency ItemList RentalInterfaces StakingState StakingLedgers Staking StakingSteps.

Module StakingInvariant.
Import ItemList StakingState StakingLedgers Staking StakingSteps.

Section invariant.
Context {L : Type} `{!ReservableCurrency L, !TreasuryCurrency L, !StakingHost L, !StakingHostLaws L}.
Context {P : PerThing} {R : PerQuintill} `{!PerThingLaws P, !PerQuintillLaws R}.
Context (T : Config).
Abbreviation World := (State * L)%type.
Abbreviation MC := (M World (DispatchError Error)).
Implicit Types (w : World) (X : AccountId → EraIndex → Prop).

(** ** Ledgers *)
Definition put_ledger (c : AccountId) (l : StakingLedger) w : World :=
  (w.1 <| stakers ::= λ k, k <| Ledger ::= <[c := l]> |> |>, set_lock (stash l) (total l) w.2).
Lemma update_ledger_run c l w : update_ledger c l w = (Ok tt, put_ledger c l w).
Proof. done. Qed.

(** Claims that can still be made are kept. *)
Definition keeps_claims w (l l' : StakingLedger) : Prop :=
  sorted (claimed_rewards l') ∧
  ∀ cur e, CurrentEra (eras w.1) = Some cur → window T cur ≤ e → e ∈ claimed_rewards l → e ∈ claimed_rewards l'.
Lemma same_claims X w c l l' :
  Inv T X w → Ledger (stakers w.1) !! c = Some l → claimed_rewards l' = claimed_rewards l → keeps_claims w l l'.
Proof. intros Hw Hl Hc. unfold keeps_claims. rewrite Hc. split; [by apply (inv_ledger _ _ _ Hw c l Hl)|done]. Qed.

Lemma Inv_replace X w c l l' (h : L) :
  Inv T X w → Ledger (stakers w.1) !! c = Some l → stash l' = stash l → ledger_ok (MaxUnlockingChunks T) l' →
  keeps_claims w l l' → (0 < total l' → lock h (stash l) = total l') → (∀ a, a ≠ stash l → lock h a = lock w.2 a) →
  (∀ a, a ∈ voters h ↔ a ∈ voters w.2) →
  Inv T X (w.1 <| stakers ::= λ k, k <| Ledger ::= <[c := l']> |> |>, h).
Proof.
  intros Hw Hl Hst Hok [Hsort Hcl] Hset Hother Hv. destruct Hw as [H1 H2 H3 H4 H5 H6 H7 H8 H9 H10 H11 H12 H13 H14].
  pose proof (H2 c l Hl) as Hb. split; cbn; try assumption.
  - intros a c' Ha. rewrite lookup_insert. destruct (decide (c = c')) as [<-|]; [|by apply H1].
    destruct (H1 a c Ha) as (l0 & Hl0 & <-). simplify_eq. eauto.
  - intros c' l0. rewrite lookup_insert. case_decide; [|by apply H2]. intros [= <-]. subst c'. by rewrite Hst.
  - intros c' l0. rewrite lookup_insert. case_decide; [|by apply H3]. by intros [= <-].
  - intros c' l0. rewrite lookup_insert. case_decide as Hc.
    + intros [= <-] Ht. rewrite Hst. by apply Hset.
    + intros Hl0 Ht. rewrite Hother; [by eapply H4|]. intros Heq. apply H2 in Hl0. rewrite Heq in Hl0. congruence.
  - intros a Ha. rewrite Hother; [by apply H5|]. intros ->. congruence.
  - intros a. rewrite Hv. apply H8.
  - intros a e HX. destruct (H14 a e HX) as (cur & Hcur & He & Hall). exists cur. split; [done|]. split; [done|].
    cbn. intros c' l0 Ha. rewrite lookup_insert. case_decide; [|by apply Hall]. intros [= <-] Hwin. subst c'. eauto.
Qed.
Lemma Inv_put_ledger X w c l l' :
  Inv T X w → Ledger (stakers w.1) !! c = Some l → stash l' = stash l → ledger_ok (MaxUnlockingChunks T) l' →
  keeps_claims w l l' → Inv T X (put_ledger c l' w).
Proof.
  intros Hw Hl Hst Hok Hcl. apply (Inv_replace X w c l); [done..| | |]; rewrite Hst.
  - intros Ht. rewrite set_lock_spec by done. by rewrite decide_True.
  - intros a Ha. by apply set_lock_other.
  - intros a. by rewrite set_lock_voters.
Qed.

(** ** Roles *)
Lemma Inv_roles X w (k : Stakers) (l' : L) :
  Inv T X w → Bonded k = Bonded (stakers w.1) → Ledger k = Ledger (stakers w.1) →
  (∀ a, lock l' a = lock w.2 a) → (∀ a, staked k a → is_Some (Bonded (stakers w.1) !! a)) →
  (∀ a, Validators k !! a = None ∨ Nominators k !! a = None) → (∀ a, a ∈ voters l' ↔ staked k a) →
  Inv T X (w.1 <| stakers := k |>, l').
Proof.
  intros [H1 H2 H3 H4 H5 H6 H7 H8 H9 H10 H11 H12 H13 H14] HB HL Hlock Hst Hone Hv.
  split; unfold settled in *; cbn; rewrite ?HB, ?HL; try assumption.
  - intros c l Hc Ht. rewrite Hlock. by eapply H4.
  - intros a Ha. rewrite Hlock. by apply H5.
Qed.

Definition drop_validator (a : AccountId) w : World :=
  if decide (is_Some (Validators (stakers w.1) !! a)) then
    (w.1 <| stakers ::= λ k, k <| Validators ::= delete a |> |>, on_remove a w.2) else w.
Definition drop_nominator (a : AccountId) w : World :=
  if decide (is_Some (Nominators (stakers w.1) !! a)) then
    (w.1 <| stakers ::= λ k, k <| Nominators ::= delete a |> |>, on_remove a w.2) else w.
Lemma remove_validator_run a w :
  do_remove_validator a w = (Ok (bool_decide (is_Some (Validators (stakers w.1) !! a))), drop_validator a w).
Proof.
  unfold do_remove_validator, drop_validator, stakers_gets, st_gets. rewrite bind_gets. cbv beta.
  case_decide as Hd; [by rewrite bool_decide_eq_true_2|by rewrite bool_decide_eq_false_2].
Qed.
Lemma remove_nominator_run a w :
  do_remove_nominator a w = (Ok (bool_decide (is_Some (Nominators (stakers w.1) !! a))), drop_nominator a w).
Proof.
  unfold do_remove_nominator, drop_nominator, stakers_gets, st_gets. rewrite bind_gets. cbv beta.
  case_decide as Hd; [by rewrite bool_decide_eq_true_2|by rewrite bool_decide_eq_false_2].
Qed.

Lemma staked_delete_validator k a b : staked (k <| Validators ::= delete a |>) b ↔
  (b ≠ a ∧ is_Some (Validators k !! b)) ∨ is_Some (Nominators k !! b).
Proof. unfold staked. cbn. rewrite lookup_delete_is_Some. naive_solver. Qed.
Lemma staked_delete_nominator k a b : staked (k <| Nominators ::= delete a |>) b ↔
  is_Some (Validators k !! b) ∨ (b ≠ a ∧ is_Some (Nominators k !! b)).
Proof. unfold staked. cbn. rewrite lookup_delete_is_Some. naive_solver. Qed.

Lemma Inv_drop_validator X a w : Inv T X w → Inv T X (drop_validator a w).
Proof.
  intros Hw. unfold drop_validator. case_decide as Ha; [|done].
  apply (Inv_roles X w ((stakers w.1) <| Validators ::= delete a |>)); [done..| | | |].
  - intros b. apply on_remove_locks.
  - intros b Hb%staked_delete_validator. apply (inv_role _ _ _ Hw). unfold staked. naive_solver.
  - intros b. cbn. destruct (inv_one_role _ _ _ Hw b) as [Hb|Hb]; [left|by right]. by apply lookup_delete_None; right.
  - intros b. rewrite staked_delete_validator, on_remove_voters, (inv_voters _ _ _ Hw). unfold staked.
    destruct (inv_one_role _ _ _ Hw a) as [Hn|Hn]; [destruct Ha; congruence|]. split; [naive_solver|].
    intros [[? ?]|Hs]; [naive_solver|]. split; [|by right]. intros ->. destruct Hs. congruence.
Qed.
Lemma Inv_drop_nominator X a w : Inv T X w → Inv T X (drop_nominator a w).
Proof.
  intros Hw. unfold drop_nominator. case_decide as Ha; [|done].
  apply (Inv_roles X w ((stakers w.1) <| Nominators ::= delete a |>)); [done..| | | |].
  - intros b. apply on_remove_locks.
  - intros b Hb%staked_delete_nominator. apply (inv_role _ _ _ Hw). unfold staked. naive_solver.
  - intros b. cbn. destruct (inv_one_role _ _ _ Hw b) as [Hb|Hb]; [by left|right]. by apply lookup_delete_None; right.
  - intros b. rewrite staked_delete_nominator, on_remove_voters, (inv_voters _ _ _ Hw). unfold staked.
    destruct (inv_one_role _ _ _ Hw a) as [Hn|Hn]; [|destruct Ha; congruence]. split; [naive_solver|].
    intros [Hs|[? ?]]; [|naive_solver]. split; [|by left]. intros ->. destruct Hs. congruence.
Qed.
Lemma kept_chill_stash X a : kept (Inv T X) (chill_stash a : MC unit).
Proof.
  intros w Hw. unfold chill_stash. rewrite (bind_run _ _ _ _ _ (remove_validator_run a w)).
  rewrite (bind_run _ _ _ _ _ (remove_nominator_run a _)).
  assert (Inv T X (drop_nominator a (drop_validator a w))) as Hi by by apply Inv_drop_nominator, Inv_drop_validator.
  destruct (_ || _); [|done]. apply (kept_same T X (deposit_event (Chilled a) : MC unit)); [|done].
  intros w0. same_steps.
Qed.

Lemma staked_insert_validator k a p b : staked (k <| Validators ::= <[a := p]> |>) b ↔ b = a ∨ staked k b.
Proof. unfold staked. cbn. rewrite lookup_insert_is_Some'. naive_solver. Qed.
Lemma staked_insert_nominator k a p b : staked (k <| Nominators ::= <[a := p]> |>) b ↔ b = a ∨ staked k b.
Proof. unfold staked. cbn. rewrite lookup_insert_is_Some'. naive_solver. Qed.
(** The list of voters with [a], which is there or is inserted. *)
Definition listed w (a : AccountId) (l' : L) : Prop :=
  (staked (stakers w.1) a ∧ l' = w.2) ∨ ∃ v, l' = on_insert a v w.2.
Lemma listed_spec X w a l' : Inv T X w → listed w a l' →
  (∀ b, lock l' b = lock w.2 b) ∧ (∀ b, b ∈ voters l' ↔ b = a ∨ staked (stakers w.1) b).
Proof.
  intros Hw [[Ha ->]|[v ->]]; split; intros b.
  - done.
  - rewrite (inv_voters _ _ _ Hw). naive_solver.
  - apply on_insert_locks.
  - rewrite on_insert_voters, (inv_voters _ _ _ Hw). done.
Qed.
Lemma Inv_add_validator X a p w l' :
  Inv T X w → is_Some (Bonded (stakers w.1) !! a) → Nominators (stakers w.1) !! a = None → listed w a l' →
  Inv T X (w.1 <| stakers ::= λ k, k <| Validators ::= <[a := p]> |> |>, l').
Proof.
  intros Hw Hb Hn Hl. destruct (listed_spec X w a l' Hw Hl) as [Hlock Hv].
  apply (Inv_roles X w ((stakers w.1) <| Validators ::= <[a := p]> |>)); [done..| | |].
  - intros b [->|Hs]%staked_insert_validator; [done|by apply (inv_role _ _ _ Hw)].
  - intros b. cbn. destruct (decide (b = a)) as [->|]; [by right|]. rewrite lookup_insert_ne by done. apply (inv_one_role _ _ _ Hw).
  - intros b. by rewrite Hv, staked_insert_validator.
Qed.
Lemma Inv_add_nominator X a p w l' :
  Inv T X w → is_Some (Bonded (stakers w.1) !! a) → Validators (stakers w.1) !! a = None → listed w a l' →
  Inv T X (w.1 <| stakers ::= λ k, k <| Nominators ::= <[a := p]> |> |>, l').
Proof.
  intros Hw Hb Hn Hl. destruct (listed_spec X w a l' Hw Hl) as [Hlock Hv].
  apply (Inv_roles X w ((stakers w.1) <| Nominators ::= <[a := p]> |>)); [done..| | |].
  - intros b [->|Hs]%staked_insert_nominator; [done|by apply (inv_role _ _ _ Hw)].
  - intros b. cbn. destruct (decide (b = a)) as [->|]; [by left|]. rewrite lookup_insert_ne by done. apply (inv_one_role _ _ _ Hw).
  - intros b. by rewrite Hv, staked_insert_nominator.
Qed.
Lemma add_validator_run a p w : ∃ l', do_add_validator T a p w =
    (Ok tt, (w.1 <| stakers ::= λ k, k <| Validators ::= <[a := p]> |> |>, l')) ∧ listed w a l'.
Proof.
  unfold do_add_validator, stakers_gets, st_gets. rewrite bind_gets. cbv beta. case_bool_decide as Hk.
  - eexists. split; [done|]. left. split; [by left|done].
  - eexists. split; [reflexivity|]. right. eauto.
Qed.
Lemma add_nominator_run a p w : ∃ l', do_add_nominator T a p w =
    (Ok tt, (w.1 <| stakers ::= λ k, k <| Nominators ::= <[a := p]> |> |>, l')) ∧ listed w a l'.
Proof.
  unfold do_add_nominator, stakers_gets, st_gets. rewrite bind_gets. cbv beta. case_bool_decide as Hk.
  - eexists. split; [done|]. left. split; [by right|done].
  - eexists. split; [reflexivity|]. right. eauto.
Qed.

(** ** Leaving *)
Definition forget (a c : AccountId) (s : State) : State :=
  s <| stakers ::= λ k, k <| Bonded ::= delete a |> <| Ledger ::= delete c |> <| Payee ::= delete a |> |>.
Lemma Inv_forget X w a c l' :
  Inv T X w → Bonded (stakers w.1) !! a = Some c → ¬ staked (stakers w.1) a →
  (∀ b, lock l' b = if decide (b = a) then 0 else lock w.2 b) → (∀ b, b ∈ voters l' ↔ b ∈ voters w.2) →
  Inv T X (forget a c w.1, l').
Proof.
  intros [H1 H2 H3 H4 H5 H6 H7 H8 H9 H10 H11 H12 H13 H14] Ha Hns Hlock Hv.
  destruct (H1 a c Ha) as (l & Hl & Hst).
  split; unfold settled, staked in *; cbn; try assumption.
  - intros b c' [Hb Hc]%lookup_delete_Some. destruct (H1 b c' Hc) as (l0 & Hl0 & Hs0). exists l0.
    split; [|done]. apply lookup_delete_Some. split; [|done]. intros ->. congruence.
  - intros c' l0 [Hc Hl0]%lookup_delete_Some. apply lookup_delete_Some. split; [|by apply H2].
    intros Heq. apply H2 in Hl0. congruence.
  - intros c' l0 [Hc Hl0]%lookup_delete_Some. by apply (H3 c').
  - intros c' l0 [Hc Hl0]%lookup_delete_Some Ht. rewrite Hlock, decide_False; [by eapply H4|].
    intros Heq. apply H2 in Hl0. congruence.
  - intros b Hb. rewrite Hlock. case_decide; [done|]. apply H5. apply lookup_delete_None in Hb as [?|?]; [congruence|done].
  - intros b Hb. apply lookup_delete_is_Some. split; [|by apply H6]. intros ->. done.
  - intros b. rewrite Hv. apply H8.
  - intros b e HX. destruct (H14 b e HX) as (cur & Hcur & He & Hall). exists cur. split; [done|]. split; [done|].
    intros c' l0 [Hb Hc]%lookup_delete_Some [? Hl0]%lookup_delete_Some. by eapply Hall.
Qed.
Lemma drop_validator_forget a c w b : drop_validator b (forget a c w.1, w.2) =
  (forget a c (drop_validator b w).1, (drop_validator b w).2).
Proof. unfold drop_validator. cbn. by case_decide. Qed.
Lemma drop_nominator_forget a c w b : drop_nominator b (forget a c w.1, w.2) =
  (forget a c (drop_nominator b w).1, (drop_nominator b w).2).
Proof. unfold drop_nominator. cbn. by case_decide. Qed.
Lemma dropped_not_staked a w : ¬ staked (stakers (drop_nominator a (drop_validator a w)).1) a.
Proof.
  unfold drop_nominator, drop_validator. repeat case_decide; unfold staked; cbn in *; rewrite ?lookup_delete_eq in *;
    intros [[? ?]|[? ?]]; try done; naive_solver.
Qed.
Lemma dropped_bonded a w : Bonded (stakers (drop_nominator a (drop_validator a w)).1) = Bonded (stakers w.1).
Proof. unfold drop_nominator, drop_validator. by repeat case_decide. Qed.

Lemma kill_stash_Inv X a n w u w' :
  Inv T X w → kill_stash a n w = (Ok u, w') → Inv T X (w'.1, remove_lock a w'.2).
Proof.
  intros Hw. unfold kill_stash, stakers_gets, st_gets. rewrite bind_gets. cbv beta.
  destruct (Bonded (stakers w.1) !! a) as [c|] eqn:Ha; [rewrite bind_ok_or|done].
  rewrite bind_Ok. intros ([] & w1 & Hc & Hrun).
  pose proof (same_clear_stash_metadata w a n w (same_refl w)) as Hs. rewrite Hc in Hs. simpl in Hs.
  apply (Inv_same_view T X w w1 Hs) in Hw. assert (Bonded (stakers w1.1) !! a = Some c) as Ha1.
  { destruct Hs as [Hs _]. unfold view in Hs. injection Hs as -> _ _ _ _ _ _ _ _. done. }
  unfold stakers_modify, st_modify in Hrun. rewrite !bind_modify in Hrun. cbn [fst snd] in Hrun.
  rewrite (bind_run _ _ _ _ _ (remove_validator_run a _)) in Hrun.
  rewrite (bind_run _ _ _ _ _ (remove_nominator_run a _)) in Hrun.
  apply m_ledger_Ok in Hrun as ->. cbn [fst snd].
  change (w1.1 <| stakers ::= λ k, k <| Bonded ::= delete a |> |>
            <| stakers ::= λ k, k <| Ledger ::= delete c |> |> <| stakers ::= λ k, k <| Payee ::= delete a |> |>)
    with (forget a c w1.1).
  rewrite drop_validator_forget, drop_nominator_forget. cbn [fst snd].
  apply Inv_forget.
  - by apply Inv_drop_nominator, Inv_drop_validator.
  - by rewrite dropped_bonded.
  - apply dropped_not_staked.
  - intros b. rewrite remove_lock_spec. case_decide; [done|]. apply host_dec.
  - intros b. rewrite remove_lock_voters. apply host_dec.
Qed.

Lemma ledger_of_Ok c w l w' : ledger_of c w = (Ok l, w') ↔ Ledger (stakers w.1) !! c = Some l ∧ w' = w.
Proof. unfold ledger_of, stakers_gets, st_gets. rewrite bind_gets. apply ok_or_Ok. Qed.
Lemma kept_event X e : kept (Inv T X) (deposit_event e : MC unit).
Proof. apply kept_same. intros w0. same_steps. Qed.
Lemma kept_run {E A} (Q : World → Prop) (m : M World E A) w r w' : kept Q m → Q w → m w = (r, w') → Q w'.
Proof. intros Hm Hw Hr. specialize (Hm w Hw). by rewrite Hr in Hm. Qed.

Lemma consolidated_ok w l (l' := match CurrentEra (eras w.1) with Some e => consolidate_unlocked l e | None => l end) :
  ledger_ok (MaxUnlockingChunks T) l →
  ledger_ok (MaxUnlockingChunks T) l' ∧ stash l' = stash l ∧ claimed_rewards l' = claimed_rewards l ∧ total l' ≤ total l.
Proof.
  intros Hok. unfold l'. destruct (CurrentEra (eras w.1)) as [e|]; [|done].
  destruct (consolidate_ok _ l e Hok) as (? & _ & ?). done.
Qed.
Lemma withdraw_Inv X c n w u w' : Inv T X w → do_withdraw_unbonded c n w = (Ok u, w') → Inv T X w'.
Proof.
  intros Hw. unfold do_withdraw_unbonded. rewrite bind_Ok. intros (l & w1 & [Hl ->]%ledger_of_Ok & Hrun).
  unfold eras_gets, st_gets in Hrun. rewrite bind_gets in Hrun. cbv beta zeta in Hrun.
  destruct (consolidated_ok w l) as (Hok & Hst & Hcl & _); [by apply (inv_ledger _ _ _ Hw c)|].
  set (l' := match CurrentEra (eras w.1) with Some e => _ | None => l end) in *.
  apply bind_Ok in Hrun as ([] & w2 & Hmain & Hend). assert (Inv T X w2) as Hw2.
  { destruct (_ && _).
    - apply bind_Ok in Hmain as ([] & w3 & Hk & ->%m_ledger_Ok). by eapply kill_stash_Inv.
    - rewrite update_ledger_run in Hmain. simplify_eq. apply (Inv_put_ledger X w c l); [done..|].
      by eapply same_claims. }
  destruct (total l' <? total l); [|apply mret_Ok in Hend as [_ ->]; done].
  by eapply kept_run; [apply (kept_event X)|exact Hw2|exact Hend].
Qed.

(** ** Slashes *)
Lemma slash_Inv X a v r i e : 0 ≤ v → kept (Inv T X) (do_slash T a v r i e : MC _).
Proof.
  intros Hv w Hw. unfold do_slash, stakers_gets, st_gets. rewrite bind_gets. cbv beta.
  destruct (Bonded _ !! a) as [c|] eqn:Ha; [|done]. cbn [mbind option_bind].
  destruct (Ledger _ !! c) as [l|] eqn:Hl; [|done]. cbn [mbind option_bind].
  destruct (ledger_slash_spec (MaxUnlockingChunks T) (BondingDuration T) l v minimum_balance e) as
    (l' & d & chunks & -> & Hok & Hst & Hcl & _); [by apply (inv_ledger _ _ _ Hw c)|done|apply minimum_nonneg|].
  set (l1 := match chunks with Some m => on_staker_slash (stash l') (active l') m w.2 | None => w.2 end).
  assert (Inv T X (w.1, l1)) as Hw1.
  { apply (Inv_same_view T X w); [|done]. split; [done|]. unfold l1. destruct chunks; [apply host_staker_slash|by split]. }
  rewrite (bind_run _ _ w tt (w.1, l1)) by (destruct chunks; [done|by destruct w]).
  destruct (d =? 0); [done|]. unfold host_gets. rewrite bind_gets. cbv beta.
  unfold m_ledger. rewrite bind_modify. cbv beta. cbn [fst snd].
  assert (Inv T X (w.1, (slash a d l1).1)) as Hw2 by by (apply (Inv_same_view T X (w.1, l1)); [split; [done|apply host_slash]|]).
  rewrite (bind_run _ _ _ _ _ (update_ledger_run c l' _)).
  assert (Inv T X (put_ledger c l' (w.1, (slash a d l1).1))) as Hw3.
  { apply (Inv_put_ledger X _ c l); [done..|]. by eapply same_claims. }
  unfold deposit_event, st_modify. rewrite bind_modify. cbv beta. apply (Inv_same_view T X _ _) with (2 := Hw3).
  split; [done|]. by split.
Qed.
Lemma slashes_Inv X l r i e : Forall (λ x : AccountId * Balance, 0 ≤ x.2) l → kept (Inv T X) (do_slashes T l r i e : MC _).
Proof.
  intros Hl. revert r i. induction Hl as [|[a v] l Hv Hl IH]; intros r i; cbn [do_slashes]; [apply kept_mret|].
  apply kept_bind; [by apply slash_Inv|]. intros x. apply IH.
Qed.
Lemma apply_slash_Inv X u e : slash_ok u → kept (Inv T X) (apply_slash T u e : MC unit).
Proof.
  intros [Hown Hothers]. unfold apply_slash. apply kept_bind; [by apply slash_Inv|]. intros x.
  apply kept_bind; [by apply slashes_Inv|]. intros y. apply kept_same. intros w0. apply same_pay_reporters.
Qed.

(** Pending slashes may change as long as none is negative. *)
Lemma Inv_pending X w f :
  (∀ m : gmap EraIndex (list UnappliedSlash), (∀ e us, m !! e = Some us → Forall slash_ok us) →
     ∀ e us, f m !! e = Some us → Forall slash_ok us) →
  Inv T X w → Inv T X (w.1 <| slashes ::= λ k, k <| UnappliedSlashes ::= f |> |>, w.2).
Proof.
  intros Hf [H1 H2 H3 H4 H5 H6 H7 H8 H9 H10 H11 H12 H13 H14]. split; try assumption. cbn. by apply Hf.
Qed.
Lemma apply_unapplied_Inv X e : kept (Inv T X) (apply_unapplied_slashes T e : MC unit).
Proof.
  unfold apply_unapplied_slashes, slashes_gets. apply kept_st_gets. intros w Hw. apply kept_bind.
  { intros w1 Hw1. apply Inv_pending; [|done]. intros m Hm e' us [_ Hus]%lookup_delete_Some. by eapply Hm. }
  intros _. apply kept_for_each. intros u Hu. apply apply_slash_Inv.
  destruct (UnappliedSlashes (slashes w.1) !! e) as [us|] eqn:Hus; simpl in Hu; [|by apply elem_of_nil in Hu].
  pose proof (inv_slashes _ _ _ Hw e us Hus) as Hok. by eapply Forall_forall in Hok.
Qed.

(** ** Offences *)
Lemma compare_nonneg a p i e v w it w' :
  0 ≤ inspected_slash i → compare_and_update_span_slash a p i e v w = (Ok it, w') → 0 ≤ inspected_slash it.1.
Proof.
  intros Hi. unfold compare_and_update_span_slash. destruct (era_span i e) as [t|]; [|intros [-> _]%mret_Ok; done].
  unfold slashes_gets, st_gets. rewrite bind_gets. cbv beta.
  destruct (span_update p v _) as [[[r ch] rw] df].
  set (i1 := match df with Some d => add_slash i d e | None => i end).
  assert (0 ≤ inspected_slash i1) as Hi1.
  { unfold i1. destruct df; [|done]. cbn. unfold add128. apply Z.mod_pos_bound. lia. }
  destruct ch, (rw =? 0); intros Hr; run_inv; done.
Qed.
Lemma fetch_nonneg a e p w i w' : fetch_spans a e p 0 w = (Ok i, w') → inspected_slash i = 0.
Proof. unfold fetch_spans, slashes_gets, slashes_modify. intros Hr. run_inv. case_match; run_inv; done. Qed.
Lemma end_span_slash i e : inspected_slash (end_span i e) = inspected_slash i.
Proof. unfold end_span. by destruct (spans_end_span _ _). Qed.
Lemma slash_nominators_nonneg p f ns r out w x w' :
  Forall (λ y : AccountId * Balance, 0 ≤ y.2) out → slash_nominators p f ns r out w = (Ok x, w') →
  Forall (λ y : AccountId * Balance, 0 ≤ y.2) x.2.
Proof.
  revert r out w. induction ns as [|n ns IH]; intros r out w Hout; cbn [slash_nominators].
  - intros [-> _]%mret_Ok. done.
  - rewrite bind_Ok. intros (v & w1 & _ & Hr). rewrite bind_Ok in Hr. destruct Hr as ([] & w2 & _ & Hr).
    rewrite bind_Ok in Hr. destruct Hr as (i & w3 & Hi%fetch_nonneg & Hr).
    rewrite bind_Ok in Hr. destruct Hr as (it & w4 & Hit%compare_nonneg & Hr); [|lia]. cbv zeta in Hr.
    rewrite bind_Ok in Hr. destruct Hr as ([] & w5 & _ & Hr). eapply IH; [|exact Hr].
    apply Forall_app. split; [done|]. constructor; [|done]. cbn. case_bool_decide; rewrite ?end_span_slash; done.
Qed.
Lemma compute_slash_ok p w u w' : compute_slash T p w = (Ok (Some u), w') → slash_ok u.
Proof.
  unfold compute_slash. destruct (_ =? 0); [intros Hr; run_inv|].
  rewrite bind_Ok. intros (pr & w1 & _ & Hr). cbv zeta in Hr.
  destruct (_ <=? _); [run_inv|]. rewrite bind_Ok in Hr. destruct Hr as ([] & w2 & _ & Hr).
  rewrite bind_Ok in Hr. destruct Hr as (i & w3 & Hi%fetch_nonneg & Hr).
  rewrite bind_Ok in Hr. destruct Hr as (it & w4 & Hit%compare_nonneg & Hr); [|lia].
  rewrite bind_Ok in Hr. destruct Hr as (i2 & w5 & Hi2 & Hr).
  assert (inspected_slash i2 = inspected_slash it.1) as Hs.
  { destruct (bool_decide _); [apply bind_Ok in Hi2 as ([] & w6 & _ & Hi2)|]; apply mret_Ok in Hi2 as [-> _];
      [apply end_span_slash|done]. }
  rewrite bind_Ok in Hr. destruct Hr as ([] & w6 & _ & Hr). rewrite bind_Ok in Hr. destruct Hr as ([] & w7 & _ & Hr).
  rewrite bind_Ok in Hr. destruct Hr as (n & w8 & Hn%slash_nominators_nonneg & Hr); [|done].
  apply mret_Ok in Hr as [[= ->] _]. split; [cbn; lia|done].
Qed.
Lemma compute_slash_Inv X p : kept (Inv T X) (compute_slash T p : MC _).
Proof.
  unfold compute_slash, kick_out_if_recent, slashes_gets, slashes_modify. repeat first
    [ apply kept_chill_stash | apply kept_same; intros w0; solve [same_steps] | apply kept_st_gets; intros ? ?
    | progress cbv zeta | kept_step ].
Qed.
Lemma punish_Inv X inv ae se ws rp st o : kept (Inv T X) (punish T inv ae se ws rp st o : MC unit).
Proof.
  intros w Hw. unfold punish. destruct o as [[[a x] rs] f]. case_bool_decide; [done|].
  set (p := Build_SlashParams _ _ _ _ _ _ _ _). unfold mbind at 1, M_bind at 1.
  pose proof (compute_slash_Inv X p w Hw) as Hw1. destruct (compute_slash T p w) as [[u|er] w1] eqn:Hc; simpl in Hw1; [|done].
  apply (kept_bind (Inv T X)); [apply kept_event| |exact Hw1]. intros _. destruct u as [u|]; [|apply kept_mret].
  apply compute_slash_ok in Hc. cbv zeta. destruct (_ =? 0); [by apply apply_slash_Inv|].
  intros w2 Hw2. apply Inv_pending; [|done]. intros m Hm e us. rewrite lookup_insert. case_decide; [|by apply Hm].
  intros [= <-]. apply Forall_app. split; [|by constructor].
  destruct (m !! _) as [us|] eqn:Hus; simpl; [by eapply Hm|constructor].
Qed.
Lemma on_offence_Inv X os fs se st : kept (Inv T X) (on_offence T os fs se st : MC unit).
Proof.
  unfold on_offence. repeat first [progress autounfold with staking_ops | apply kept_st_gets; intros ? ? | progress cbv zeta | kept_step].
  apply punish_Inv.
Qed.

(** ** Payouts *)
Definition roomy (room : Z) w : Prop := ∀ c l, Ledger (stakers w.1) !! c = Some l → total l + room ≤ U128_MAX.
Lemma roomy_same B w w' : same w w' → roomy B w → roomy B w'.
Proof. intros [Hv _] Hb c l. unfold view in Hv. injection Hv as _ E2 _ _ _ _ _ _ _. rewrite E2. apply Hb. Qed.
Lemma roomy_less B B' w : B' ≤ B → roomy B w → roomy B' w.
Proof. intros HB Hb c l Hl. specialize (Hb c l Hl). lia. Qed.

Lemma make_payout_Inv X B a v w r w' :
  Inv T X w → roomy B w → 0 ≤ v ≤ B → make_payout a v w = (r, w') → Inv T X w' ∧ roomy (B - v) w'.
Proof.
  intros Hw Hb Hv. assert (∀ w1, same w w1 → Inv T X w1 ∧ roomy (B - v) w1) as Hsame.
  { intros w1 Hs. split; [by eapply Inv_same_view|]. eapply roomy_less, roomy_same; [|done..]. lia. }
  assert (∀ (A : Type) (m : MC A) r1 w1, (∀ w0, kept (same w0) m) → m w = (r1, w1) → Inv T X w1 ∧ roomy (B - v) w1) as Hq.
  { intros A m r1 w1 Hm Hr. apply Hsame. specialize (Hm w w (same_refl w)). by rewrite Hr in Hm. }
  unfold make_payout, stakers_gets, st_gets. rewrite bind_gets. cbv beta.
  destruct (default Staked _) as [| | |dest|]; try (apply Hq; intros w0; solve [same_steps]).
  destruct (Bonded _ !! a) as [c|] eqn:Ha; [|intros [= <- <-]; apply Hsame, same_refl]. cbn [mbind option_bind].
  destruct (Ledger _ !! c) as [l|] eqn:Hl; [|intros [= <- <-]; apply Hsame, same_refl]. cbn [mbind option_bind].
  cbv zeta. unfold mbind at 1, M_bind at 1. pose proof (same_try_deposit w a v w (same_refl w)) as Hs.
  destruct (try_deposit a v w) as [[d|er] w1] eqn:Hd; simpl in Hs; [|intros [= <- <-]; by apply Hsame].
  rewrite (bind_run _ _ _ _ _ (update_ledger_run c _ w1)). intros [= <- <-].
  assert (Inv T X w1) as Hw1 by by eapply Inv_same_view. assert (Ledger (stakers w1.1) !! c = Some l) as Hl1.
  { destruct Hs as [Hs _]. unfold view in Hs. injection Hs as _ -> _ _ _ _ _ _ _. done. }
  pose proof (Hb c l Hl) as Hroom. destruct (inv_ledger _ _ _ Hw1 c l Hl1) as [[Hsum Hact Hk Hfit Hlen] _].
  pose proof (unlocking_pos _ Hk). split.
  - apply (Inv_put_ledger X w1 c l); [done|done|done| |by eapply same_claims].
    split; cbn; rewrite ?add128_exact by lia; try lia; done.
  - intros c' l'. unfold put_ledger. cbn. rewrite lookup_insert. case_decide.
    + intros [= <-]. cbn. rewrite add128_exact by lia. lia.
    + intros Hl'. assert (roomy B w1) as Hb1 by by eapply roomy_same. specialize (Hb1 c' l' Hl'). lia.
Qed.
Lemma reward_staker_Inv X B a v w r w' :
  Inv T X w → roomy B w → 0 ≤ v ≤ B → reward_staker a v w = (r, w') → Inv T X w' ∧ roomy (B - v) w'.
Proof.
  intros Hw Hb Hv. unfold reward_staker, mbind at 1, M_bind at 1.
  destruct (make_payout a v w) as [[d|er] w1] eqn:Hm; destruct (make_payout_Inv X B a v w _ w1 Hw Hb Hv Hm) as [Hw1 Hb1].
  - destruct d as [d|]; [|by intros [= <- <-]]. intros [= <- <-]. split; [by apply (kept_event X (Rewarded a d) w1)|done].
  - by intros [= <- <-].
Qed.
Lemma reward_all_Inv {A} X p (l : list A) who amount w r w' :
  Inv T X w → roomy (Z.of_nat (length l) * p) w → (∀ x, x ∈ l → 0 ≤ amount x ≤ p) → 0 ≤ p →
  for_each l (λ x, reward_staker (who x) (amount x)) w = (r, w') → Inv T X w'.
Proof.
  intros Hw Hb Ham Hp. revert w Hw Hb. induction l as [|x l IH]; intros w Hw Hb; cbn [for_each]; [by intros [= <- <-]|].
  assert (0 ≤ amount x ≤ p) as Hx by (apply Ham; by left). cbn [length] in Hb.
  set (B := Z.of_nat (S (length l)) * p) in Hb. assert (B = p + Z.of_nat (length l) * p) as HB by lia.
  assert (0 ≤ Z.of_nat (length l) * p) by lia.
  unfold mbind, M_bind. destruct (reward_staker (who x) (amount x) w) as [[[]|er] w1] eqn:Hr;
    destruct (reward_staker_Inv X B (who x) (amount x) w _ w1 Hw Hb ltac:(lia) Hr) as [Hw1 Hb1]; [|by intros [= <- <-]].
  apply IH; [|done|]; [intros y Hy; apply Ham; by right|]. eapply roomy_less; [|exact Hb1]. lia.
Qed.

(** The numbers a payout reads have their types, and the ledgers have room for
    what it adds. *)
Definition payable (a : AccountId) (e : EraIndex) w : Prop := ∀ p, ErasValidatorReward (eras w.1) !! e = Some p →
  let x := default Exposure_default (ErasStakersClipped (eras w.1) !! (e, a)) in
  let points := default EraRewardPoints_default (ErasRewardPoints (eras w.1) !! e) in
  let prefs := default ValidatorPrefs_default (ErasValidatorPrefs (eras w.1) !! (e, a)) in
  0 ≤ p ∧ 0 ≤ own x ∧ Forall (λ n, 0 ≤ exposed n) (others x) ∧ 0 ≤ default 0 (individual points !! a) ∧
  0 ≤ commission prefs ≤ accuracy ∧ roomy (Z.of_nat (S (length (others x))) * p) w.

Lemma claim_era_Ok cur e l w l' w' :
  sorted (claimed_rewards l) → claim_era T cur e l w = (Ok l', w') →
  w' = w ∧ (e ∉ filter (λ x, window T cur ≤ x) (claimed_rewards l)) ∧ sorted (claimed_rewards l') ∧
  (∀ x, x ∈ claimed_rewards l' ↔ x = e ∨ (window T cur ≤ x ∧ x ∈ claimed_rewards l)) ∧
  l' = l <| claimed_rewards := claimed_rewards l' |>.
Proof.
  intros Hs. unfold claim_era. fold (window T cur). set (cl := filter _ (claimed_rewards l)). cbv zeta.
  assert (sorted cl) as Hcl by by apply sorted_filter. pose proof (binary_search_found cl e Hcl) as Hf.
  pose proof (is_ok_search cl e Hcl) as Hin.
  destruct (binary_search cl e) as [pos|pos]; [unfold error; intros Hr; run_inv|]. intros Hr. run_inv.
  split; [done|]. split; [intros Hel; by apply Hin in Hel|]. cbn. split; [by apply vec_insert_sorted|]. split; [|done].
  intros x. rewrite elem_of_vec_insert. unfold cl. by rewrite list_elem_of_filter.
Qed.
Lemma payout_amounts p part comm own_part :
  0 ≤ p → 0 ≤ part ≤ accuracy → 0 ≤ comm ≤ accuracy → 0 ≤ own_part ≤ accuracy →
  let t := per_mul part p in let c := per_mul comm t in
  0 ≤ t ≤ p ∧ 0 ≤ c ≤ t ∧ 0 ≤ per_mul own_part (t - c) ≤ t - c.
Proof.
  intros Hp Hpart Hcomm Hown t c. assert (0 ≤ t ≤ p) as Ht by by apply per_mul_bounds.
  assert (0 ≤ c ≤ t) as Hc by (apply per_mul_bounds; lia). split; [done|]. split; [done|]. apply per_mul_bounds; lia.
Qed.

Lemma Inv_claimed X a e c l l' p w :
  Inv T X w → Bonded (stakers w.1) !! a = Some c → Ledger (stakers w.1) !! c = Some l → keeps_claims w l l' →
  e ∈ claimed_rewards l' → l' = l <| claimed_rewards := claimed_rewards l' |> → ErasValidatorReward (eras w.1) !! e = Some p →
  Inv T (λ a' e', X a' e' ∨ a' = a ∧ e' = e) (w.1 <| stakers ::= λ k, k <| Ledger ::= <[c := l']> |> |>, w.2).
Proof.
  intros Hw Ha Hl Hk He Hl' Hp. destruct (inv_ledger _ _ _ Hw c l Hl) as [Hok _].
  assert (Inv T X (w.1 <| stakers ::= λ k, k <| Ledger ::= <[c := l']> |> |>, w.2)) as Hi.
  { apply (Inv_replace X w c l); [done|done|by rewrite Hl'| |done| |done|done].
    - rewrite Hl'. destruct Hok. split; done.
    - intros Ht. rewrite Hl' in Ht |- *. exact (inv_locked _ _ _ Hw c l Hl Ht). }
  destruct Hi as [H1 H2 H3 H4 H5 H6 H7 H8 H9 H10 H11 H12 H13 H14]. split; try assumption.
  intros a' e' [HX|[-> ->]]; [by apply H14|]. destruct (H12 e p Hp) as (cur & Hcur & Hlt). exists cur. split; [done|]. split; [done|].
  cbn. intros c' l0 Ha'. simplify_eq. rewrite lookup_insert, decide_True by done. by intros [= <-].
Qed.
Lemma payout_Inv X a e w u w' :
  Inv T X w → payable a e w → do_payout_stakers T a e w = (Ok u, w') →
  Inv T (λ a' e', X a' e' ∨ a' = a ∧ e' = e) w'.
Proof.
  intros Hw Hpay. unfold do_payout_stakers, eras_gets, st_gets. rewrite bind_gets. cbv beta.
  change (id (eras w.1)) with (eras w.1).
  destruct (CurrentEra _) as [cur|] eqn:Hcur; [rewrite bind_ok_or|done].
  rewrite bind_Ok. intros ([] & w1 & [Hwin ->]%ensure_Ok & Hrun). revert Hrun.
  destruct (ErasValidatorReward _ !! e) as [p|] eqn:Hp; [rewrite bind_ok_or|done].
  unfold stakers_gets, st_gets. rewrite bind_gets. cbv beta.
  destruct (Bonded (stakers w.1) !! a) as [c|] eqn:Ha; [rewrite bind_ok_or|done].
  rewrite bind_Ok. intros (l & w2 & [Hl ->]%ledger_of_Ok & Hrun). revert Hrun.
  destruct (inv_ledger _ _ _ Hw c l Hl) as [Hok Hsort].
  rewrite bind_Ok. intros (l' & w3 & (-> & _ & Hs' & Hin & Hl')%claim_era_Ok & Hrun); [|done].
  assert (stash l' = a) as Hst.
  { rewrite Hl'. cbn. destruct (inv_bonded _ _ _ Hw a c Ha) as (l0 & Hl0 & <-). by simplify_eq. }
  destruct (Hpay p Hp) as (Hp0 & Hown & Hoth & Hpts & Hcomm & Hroom).
  unfold stakers_modify, st_modify in Hrun. rewrite bind_modify in Hrun. rewrite Hst in Hrun. cbv beta zeta in Hrun.
  set (x := default Exposure_default (ErasStakersClipped (eras w.1) !! (e, a))) in *.
  set (w1 := (w.1 <| stakers ::= λ k, k <| Ledger ::= <[c := l']> |> |>, w.2)) in Hrun.
  assert (Inv T (λ a' e', X a' e' ∨ a' = a ∧ e' = e) w1) as Hw1.
  { eapply Inv_claimed; [done|done|exact Hl| |by apply Hin; left|done|exact Hp]. split; [done|].
    intros cur' e' Hcur' Hwin' He'. apply Hin. right. split; [|done]. congruence. }
  assert (roomy (Z.of_nat (S (length (others x))) * p) w1) as Hr1.
  { intros c' l0. unfold w1. cbn. rewrite lookup_insert. case_decide; [|by apply Hroom]. intros [= <-].
    rewrite Hl'. cbn. by apply (Hroom c). }
  destruct (_ =? 0); [apply mret_Ok in Hrun as [_ ->]; done|].
  match type of Hrun with context [reward_staker a (add128 (per_mul ?o (per_mul ?pt _ - per_mul ?cm _)) _)] =>
    destruct (payout_amounts p pt cm o) as (Ht & Hc & Ho); [done|by apply from_rational_part|done|by apply from_rational_part|];
    set (t := per_mul pt p) in *; set (cp := per_mul cm t) in * end.
  apply bind_Ok in Hrun as ([] & w2 & Hev & Hrun). unfold deposit_event in Hev. apply st_modify_Ok in Hev as ->.
  set (w2 := (w1.1 <| events ::= _ |>, w1.2)) in Hrun.
  assert (same w1 w2) as Hs2 by (split; [done|by split]). apply (Inv_same_view T _ _ _ Hs2) in Hw1. apply (roomy_same _ _ _ Hs2) in Hr1.
  set (B := Z.of_nat (S (length (others x))) * p) in Hr1.
  assert (B = p + Z.of_nat (length (others x)) * p) as HB by lia. assert (0 ≤ Z.of_nat (length (others x)) * p) by lia.
  pose proof (Hr1 c l') as Hfit. unfold w2, w1 in Hfit. cbn in Hfit. rewrite lookup_insert, decide_True in Hfit by done.
  specialize (Hfit eq_refl). assert (0 ≤ total l') by (rewrite Hl'; cbn; destruct Hok as [? ? Hk _ _]; pose proof (unlocking_pos _ Hk); lia).
  apply bind_Ok in Hrun as ([] & w3 & Hown' & Hrun).
  rewrite add128_exact in Hown' by lia.
  match type of Hown' with reward_staker _ ?v _ = _ =>
    destruct (reward_staker_Inv _ B a v w2 _ w3 Hw1 Hr1 ltac:(lia) Hown') as [Hw3 Hr3] end.
  refine (reward_all_Inv _ p (others x) who _ w3 _ w' Hw3 _ _ Hp0 Hrun).
  - eapply roomy_less; [|exact Hr3]. lia.
  - intros n Hn. eapply Forall_forall in Hoth; [|exact Hn].
    destruct (per_mul_bounds (from_rational (exposed n) (exposure_total x)) (t - cp)) as [? ?]; [by apply from_rational_part|lia|].
    cbv beta. lia.
Qed.
End invariant.
End StakingInvariant.
