(* ===== verification/StakingEras.v ===== *)
(** * pallet-staking: the hooks of a session keep the invariant

    Planning, starting and ending eras, and the emission that goes with the end of
    one. *)
From stdpp Require Import base gmap fin_maps list numbers relations.
From Stdlib Require Import ZArith Lia.
From S2P Require Import Prelude Currency ItemList RentalInterfaces StakingState StakingLedgers Staking StakingSteps StakingInvariant.

Module StakingEras.
Import ItemList StakingState StakingLedgers Staking StakingSteps StakingInvariant.

Section runs.
Context {L : Type} `{!ReservableCurrency L, !TreasuryCurrency L, !StakingHost L, !StakingHostLaws L}.
Context {P : PerThing} {R : PerQuintill} `{!PerThingLaws P, !PerQuintillLaws R}.
Context (T : Config).
Abbreviation World := (State * L)%type.
Abbreviation MC := (M World (DispatchError Error)).
Implicit Types (w : World) (X : AccountId → EraIndex → Prop).

(** ** Eras *)
Lemma window_mono a b : a ≤ b → window T a ≤ window T b.
Proof. unfold window, saturating_sub. lia. Qed.
Lemma Inv_eras X w (k : Eras) :
  Inv T X w →
  (∀ cur, CurrentEra (eras w.1) = Some cur → ∃ cur', CurrentEra k = Some cur' ∧ cur ≤ cur') →
  (∀ cur, CurrentEra k = Some cur → 0 ≤ cur ≤ U32_MAX) →
  (∀ e x, ErasStartSessionIndex k !! e = Some x → ∃ cur, CurrentEra k = Some cur ∧ e ≤ cur) →
  (∀ e, era_index <$> ActiveEra k = Some e → ∃ cur, CurrentEra k = Some cur ∧ 0 ≤ e ≤ cur) →
  (∀ e p, ErasValidatorReward k !! e = Some p → ∃ cur, CurrentEra k = Some cur ∧ e < cur) →
  Inv T X (w.1 <| eras := k |>, w.2).
Proof.
  intros [H1 H2 H3 H4 H5 H6 H7 H8 H9 H10 H11 H12 H13 H14] Hcur Hb Hs Ha Hr. split; try assumption.
  intros a e HX. destruct (H14 a e HX) as (cur & Hc & He & Hall). destruct (Hcur cur Hc) as (cur' & Hc' & Hle).
  exists cur'. split; [done|]. split; [lia|]. intros c l Hac Hl Hwin. eapply Hall; [done..|].
  pose proof (window_mono cur cur' Hle). lia.
Qed.
(** A new era is planned; what is stored about eras goes with old ones. *)
Definition eras_left w : Prop := ∀ cur, CurrentEra (eras w.1) = Some cur → cur < U32_MAX.
Definition next_era w : EraIndex := match CurrentEra (eras w.1) with Some e => add32 e 1 | None => 0 end.
Lemma next_era_spec X w : Inv T X w → eras_left w →
  0 ≤ next_era w ≤ U32_MAX ∧ ∀ cur, CurrentEra (eras w.1) = Some cur → cur ≤ next_era w.
Proof.
  intros Hw Hleft. unfold next_era. destruct (CurrentEra (eras w.1)) as [cur|] eqn:Hc; [|split; [unfold U32_MAX; lia|done]].
  specialize (Hleft cur Hc). pose proof (inv_current _ _ _ Hw cur Hc). rewrite add32_exact by (unfold U32_MAX in *; lia).
  split; [lia|]. intros c [= <-]. lia.
Qed.
Lemma Inv_new_era X w : Inv T X w → eras_left w →
  Inv T X (w.1 <| eras ::= λ k, k <| CurrentEra := Some (next_era w) |> |>, w.2).
Proof.
  intros Hw Hleft. destruct (next_era_spec X w Hw Hleft) as [Hb Hle].
  apply (Inv_eras X w ((eras w.1) <| CurrentEra := Some (next_era w) |>)); [done|..]; cbn.
  - intros cur Hc. exists (next_era w). split; [done|by apply Hle].
  - by intros cur [= <-].
  - intros e x Hs. destruct (inv_start _ _ _ Hw e x Hs) as (cur & Hc & He). exists (next_era w). split; [done|]. specialize (Hle cur Hc). lia.
  - intros e Ha. destruct (inv_active _ _ _ Hw e Ha) as (cur & Hc & He). exists (next_era w). split; [done|]. specialize (Hle cur Hc). lia.
  - intros e p Hp. destruct (inv_rewards _ _ _ Hw e p Hp) as (cur & Hc & He). exists (next_era w). split; [done|]. specialize (Hle cur Hc). lia.
Qed.
Lemma Inv_start X w e x : Inv T X w → CurrentEra (eras w.1) = Some e →
  Inv T X (w.1 <| eras ::= λ k, k <| ErasStartSessionIndex ::= <[e := x]> |> |>, w.2).
Proof.
  intros Hw Hc. apply (Inv_eras X w ((eras w.1) <| ErasStartSessionIndex ::= <[e := x]> |>)); [done|..]; cbn; try apply Hw.
  - intros cur Hcur. exists cur. split; [done|lia].
  - intros e' y. rewrite lookup_insert. case_decide; [|apply Hw]. intros [= <-]. exists e. split; [done|lia].
Qed.
Lemma clear_era_Inv X e : kept (Inv T X) (clear_era_information e : MC unit).
Proof.
  intros w Hw. unfold clear_era_information, eras_modify, st_modify, modify. cbn [snd].
  match goal with |- Inv _ _ (?s <| eras ::= ?f |>, _) => apply (Inv_eras X w (f (eras w.1))) end; [done|..]; cbn; try apply Hw.
  - intros cur Hcur. exists cur. split; [done|lia].
  - intros e' x [_ Hs]%lookup_delete_Some. by apply (inv_start _ _ _ Hw e' x).
  - intros e' p [_ Hs]%lookup_delete_Some. by apply (inv_rewards _ _ _ Hw e' p).
Qed.
Lemma same_store_stakers w0 xs e : kept (same w0) (store_stakers_info T xs e : MC _).
Proof. unfold store_stakers_info. same_steps. Qed.

Lemma trigger_Inv X w s xs r w' : Inv T X w → eras_left w → trigger_new_era T s xs w = (r, w') → Inv T X w'.
Proof.
  intros Hw Hleft. unfold trigger_new_era, eras_gets, eras_modify, st_gets, st_modify. rewrite bind_gets, !bind_modify. cbv beta zeta.
  cbn [fst snd]. fold (next_era w). intros Hrun.
  pose proof (Inv_new_era X w Hw Hleft) as Hw1.
  assert (Inv T X (w.1 <| eras ::= λ k, k <| CurrentEra := Some (next_era w) |> |>
    <| eras ::= λ k, k <| ErasStartSessionIndex ::= <[next_era w := s]> |> |>, w.2)) as Hw2
    by exact (Inv_start X _ (next_era w) s Hw1 eq_refl).
  revert Hrun. apply kept_run; [|exact Hw2]. apply kept_bind.
  - case_match; [apply clear_era_Inv|apply kept_mret].
  - intros _. apply kept_same. intros w0. apply same_store_stakers.
Qed.

Lemma try_trigger_Inv X w s el r w' : Inv T X w → eras_left w → try_trigger_new_era T s el w = (r, w') → Inv T X w'.
Proof.
  intros Hw Hleft. unfold try_trigger_new_era. destruct el as [supports|].
  2:{ apply kept_run; [|done]. apply kept_bind; [apply kept_event|intros _; apply kept_mret]. }
  unfold host_gets, params_gets, st_gets. rewrite bind_gets. cbv zeta. rewrite bind_gets. cbv beta. destruct (_ <? _).
  - unfold eras_gets, st_gets. rewrite bind_gets. cbv beta. destruct (CurrentEra (eras w.1)) as [cur|] eqn:Hcur.
    + apply kept_run; [|done]. apply kept_bind; [apply kept_mret|]. intros _.
      apply kept_bind; [apply kept_event|intros _; apply kept_mret].
    + assert (next_era w = 0) as Hn by (unfold next_era; by rewrite Hcur).
      pose proof (Inv_new_era X w Hw Hleft) as Hw1. rewrite Hn in Hw1.
      unfold eras_modify, st_modify, mbind at 1, M_bind at 1, mbind at 1, M_bind at 1, modify. cbn [fst snd].
      apply kept_run; [apply kept_bind; [apply kept_event|intros _; apply kept_mret]|].
      exact (Inv_start X _ 0 s Hw1 eq_refl).
  - unfold mbind at 1, M_bind at 1, deposit_event at 1, st_modify, modify. cbn [fst snd].
    unfold mbind, M_bind. destruct (trigger_new_era T s _ _) as [[st|er] w1] eqn:Ht;
      (eapply trigger_Inv in Ht; [intros [= <- <-]; exact Ht| |done]); apply (kept_event T X StakersElected w Hw).
Qed.
Lemma new_session_Inv X w s el r w' : Inv T X w → eras_left w → new_session T s el w = (r, w') → Inv T X w'.
Proof.
  intros Hw Hleft. unfold new_session, params_modify, st_modify. rewrite bind_modify. cbv beta.
  set (w1 := (_, w.2)). assert (same w w1) as Hs by (split; [done|by split]).
  assert (Inv T X w1) as Hw1 by by eapply Inv_same_view. assert (eras_left w1) as Hleft1 by exact Hleft.
  unfold eras_gets, params_gets, st_gets. rewrite bind_gets. cbv beta. destruct (CurrentEra (eras w1.1)) as [cur|].
  - rewrite bind_gets. cbv zeta. rewrite bind_gets. cbv beta zeta. destruct (match ForceEra (params w1.1) with ForceAlways | ForceNew => _ | _ => _ end).
    + unfold mbind at 1, M_bind at 1. destruct (try_trigger_new_era T s el w1) as [[v|er] w2] eqn:Ht;
        (apply (try_trigger_Inv X) in Ht; [|done..]); [|by intros [= <- <-]].
      apply kept_run; [|exact Ht]. apply kept_same. intros w0. same_steps.
    + by intros [= <- <-].
  - by apply try_trigger_Inv.
Qed.

Lemma start_era_Inv X w s e r w' :
  Inv T X w → (∃ x, ErasStartSessionIndex (eras w.1) !! (match ActiveEra (eras w.1) with Some i => add32 (era_index i) 1 | None => 0 end) = Some x) →
  e = match ActiveEra (eras w.1) with Some i => add32 (era_index i) 1 | None => 0 end → 0 ≤ e →
  start_era T s w = (r, w') → Inv T X w'.
Proof.
  intros Hw [x Hx] He He0. unfold start_era, eras_gets, st_gets. rewrite bind_gets. cbv beta zeta.
  match goal with |- (eras_modify ?f ≫= ?k) w = _ → _ => rewrite (bind_run (eras_modify f) k w tt (w.1 <| eras ::= f |>, w.2) eq_refl) end.
  rewrite <-He in Hx |- *.
  assert (Inv T X (w.1 <| eras ::= λ k, k <| ActiveEra := Some {| era_index := e; start := None |} |> |>, w.2)) as Hw1.
  { apply (Inv_eras X w ((eras w.1) <| ActiveEra := Some {| era_index := e; start := None |} |>)); [done|..]; cbn; try apply Hw.
    - intros cur Hcur. exists cur. split; [done|lia].
    - intros e' [= <-]. destruct (inv_start _ _ _ Hw e x Hx) as (cur & Hc & Hle). exists cur. split; [done|lia]. }
  apply kept_run; [|exact Hw1]. apply kept_gets. intros w2 _. cbv zeta. apply kept_bind.
  - apply kept_same. intros w0. same_steps.
  - intros _. apply apply_unapplied_Inv.
Qed.
Lemma active_next X w i : Inv T X w → eras_left w → ActiveEra (eras w.1) = Some i → 0 ≤ era_index i ∧ add32 (era_index i) 1 = era_index i + 1.
Proof.
  intros Hw Hleft Hi. destruct (inv_active _ _ _ Hw (era_index i)) as (cur & Hc & Hb); [by rewrite Hi|].
  specialize (Hleft cur Hc). split; [lia|]. apply add32_exact. lia.
Qed.
Lemma start_session_Inv X w s r w' : Inv T X w → eras_left w → start_session T s w = (r, w') → Inv T X w'.
Proof.
  intros Hw Hleft. unfold start_session, eras_gets, st_gets. rewrite bind_gets. cbv beta zeta.
  change (id (eras w.1)) with (eras w.1).
  set (e := match ActiveEra (eras w.1) with Some i => add32 (era_index i) 1 | None => 0 end).
  assert (kept (Inv T X) (slashes_gets OffendingValidators ≫= λ offending, for_each offending
    (λ o : Z * bool, if o.2 then m_ledger (disable_session_validator o.1) else mret tt) : MC unit)) as Hend.
  { apply kept_same. intros w0. same_steps. }
  assert (0 ≤ e) as He.
  { unfold e. destruct (ActiveEra (eras w.1)) as [i|] eqn:Hi; [|done]. destruct (active_next X w i Hw Hleft Hi). lia. }
  destruct (ErasStartSessionIndex (eras w.1) !! e) as [x|] eqn:Hx; [|by apply kept_run].
  destruct (_ <=? _); [|by apply kept_run].
  unfold mbind at 1, M_bind at 1. destruct (start_era T s w) as [[[]|er] w1] eqn:Ht;
    (eapply (start_era_Inv X w s e) in Ht; [|done|by exists x|done..]); [by apply kept_run|by intros [= <- <-]].
Qed.

(** ** The emission *)
Lemma same_deposits (l : L) (ds : list (AccountId * Balance)) :
  same_host l (foldl (λ l r, (deposit_creating r.1 r.2 l).1) l ds).
Proof.
  revert l. induction ds as [|[a v] ds IH]; intros l; [by split|]. destruct (IH (deposit_creating a v l).1) as [H1 H2].
  destruct (host_deposit_creating a v l) as [H3 H4]. split; intros b; simpl; [by rewrite H1, H3|by rewrite H2, H4].
Qed.
Lemma same_reward_committee w0 : kept (same w0) reward_to_committee_team.
Proof.
  intros w Hw. unfold reward_to_committee_team. cbv zeta. destruct (_ <? _); [done|]. destruct (CommitteeTeamRewardPerYear _) as [rs|]; [|done].
  eapply same_trans; [exact Hw|]. split; [done|]. apply same_deposits.
Qed.
Lemma same_issue_reward w0 e : kept (same w0) (issue_reward e).
Proof.
  intros w Hw. unfold issue_reward. destruct (FoundationReward _) as [f|]; [|done]. destruct (TreasuryReward _) as [t|]; [|done].
  destruct (_ || _); [done|]. cbv zeta. eapply same_trans; [exact Hw|]. clear Hw w0.
  set (w1 := if foundation_due e f then _ else w). assert (same w w1) as Hs1.
  { unfold w1. destruct (foundation_due e f); [|apply same_refl]. split; [done|].
    pose proof (same_deposits w.2 ((λ a, (a, foundation_amount f)) <$> foundation_who f)) as Hd.
    rewrite foldl_fmap in Hd. exact Hd. }
  destruct (treasury_due e t); [|exact Hs1]. eapply same_trans; [exact Hs1|]. split; [done|]. apply host_deposit_creating.
Qed.
Definition at_era X (cur : EraIndex) w : Prop := Inv T X w ∧ CurrentEra (eras w.1) = Some cur.
Lemma kept_at_era {E A} X cur (m : M World E A) : (∀ w0, kept (same w0) m) → kept (at_era X cur) m.
Proof.
  intros Hm w [Hw Hc]. specialize (Hm w w (same_refl w)). split; [by eapply Inv_same_view|]. destruct Hm as [Hv _].
  unfold view in Hv. injection Hv as _ _ _ _ Heq _ _ _ _. by rewrite Heq.
Qed.
Lemma paid_at_era X cur e p : e < cur →
  kept (at_era X cur) (eras_modify (λ k, k <| ErasValidatorReward ::= <[e := p]> |>) : MC unit).
Proof.
  intros He w [Hw Hc]. split; [|done].
  apply (Inv_eras X w ((eras w.1) <| ErasValidatorReward ::= <[e := p]> |>)); [done|..]; cbn; try apply Hw.
  - intros c Hcur. exists c. split; [done|lia].
  - intros e' p'. rewrite lookup_insert. case_decide; [|apply Hw]. intros _. exists cur. split; [done|lia].
Qed.
#[local] Hint Extern 1 (kept (same _) _) => first [apply same_reward_committee | apply same_issue_reward] : staking_ops.
Lemma end_session_Inv X w now ms s r w' : Inv T X w → eras_left w → end_session T now ms s w = (r, w') → Inv T X w'.
Proof.
  intros Hw Hleft. unfold end_session, eras_gets, st_gets. rewrite bind_gets. cbv beta. change (id (eras w.1)) with (eras w.1).
  destruct (ActiveEra (eras w.1)) as [i|] eqn:Hi; [|by intros [= <- <-]].
  destruct (ErasStartSessionIndex (eras w.1) !! _) as [x|] eqn:Hx; [|by intros [= <- <-]].
  destruct (_ =? _); [|by intros [= <- <-]]. destruct (active_next X w i Hw Hleft Hi) as [H0 Hnext]. rewrite Hnext in Hx.
  destruct (inv_start _ _ _ Hw _ _ Hx) as (cur & Hc & Hle).
  unfold end_era. destruct (start i); [|by intros [= <- <-]].
  intros Hrun. refine (proj1 (kept_run (at_era X cur) _ w r w' _ (conj Hw Hc) Hrun)). clear Hrun.
  repeat first [apply kept_at_era; intros ?; solve [same_steps] | apply kept_st_gets; intros ? _ | progress cbv zeta
    | apply kept_bind; [|intros ?] | case_match | apply paid_at_era; lia].
Qed.
End runs.
End StakingEras.
