(* ===== verification/StakingCalls.v ===== *)
(** * pallet-staking: the calls keep the invariant

    One lemma for each call that changes ledgers, roles or pending slashes; the
    calls of governance change nothing the invariant speaks of. *)
From stdpp Require Import base gmap fin_maps list numbers relations.
From Stdlib Require Import ZArith Lia.
From S2P Require Import Prelude Currency ItemList RentalInterfaces StakingState StakingLedgers Staking StakingSteps StakingInvariant.

Module StakingCalls.
Import ItemList StakingState StakingLedgers Staking StakingSteps StakingInvariant.

(** The chunks after one is pushed. *)
Lemma push_chunk_sum v e k :
  Forall (λ c, 0 < value c) k → 0 < v → unlocking_sum k + v ≤ U128_MAX →
  unlocking_sum (push_chunk v e k) = unlocking_sum k + v ∧ Forall (λ c, 0 < value c) (push_chunk v e k) ∧
  (length (push_chunk v e k) ≤ S (length k))%nat.
Proof.
  intros Hk Hv Hfit. assert (∀ c, value c = v → unlocking_sum (k ++ [c]) = unlocking_sum k + v ∧
    Forall (λ c, 0 < value c) (k ++ [c]) ∧ (length (k ++ [c]) ≤ S (length k))%nat) as Happ.
  { intros c Hc. rewrite unlocking_app, unlocking_cons, length_app. change (unlocking_sum []) with 0. simpl. split_and!; [lia| |lia].
    apply Forall_app. split; [done|]. constructor; [lia|done]. }
  unfold push_chunk. destruct (list.last k) as [c|] eqn:Hc; [|by apply Happ]. destruct (_ =? _); [|by apply Happ].
  clear Happ. apply last_Some in Hc as [k' ->]. replace (length (k' ++ [c]) - 1)%nat with (length k') by (rewrite length_app; simpl; lia). rewrite take_app_length.
  apply Forall_app in Hk as [Hk' [Hc _]%Forall_cons]. pose proof (unlocking_pos _ Hk').
  rewrite !unlocking_app, !unlocking_cons in *. change (unlocking_sum []) with 0 in *.
  set (c' := c <| value ::= λ x, saturating_add U128_MAX x v |>). assert (value c' = value c + v) as Hc' by (unfold c'; cbn; apply saturating_add_exact; lia).
  rewrite Hc', !length_app. cbn [length]. split_and!; [lia| |lia]. apply Forall_app. split; [done|]. constructor; [lia|done].
Qed.
Lemma unlocking_alter_era i f k : (∀ c, value (f c) = value c) →
  unlocking_sum (alter f i k) = unlocking_sum k ∧ (Forall (λ c, 0 < value c) k → Forall (λ c, 0 < value c) (alter f i k)).
Proof.
  intros Hf. revert i. induction k as [|c k IH]; intros i; [done|]. destruct i as [|i].
  - change (alter f 0%nat (c :: k)) with (f c :: k). rewrite !unlocking_cons, Hf. split; [done|].
    intros [? ?]%Forall_cons. constructor; [by rewrite Hf|done].
  - change (alter f (S i) (c :: k)) with (c :: alter f i k). rewrite !unlocking_cons. destruct (IH i) as [-> Hall].
    split; [done|]. intros [? ?]%Forall_cons. constructor; auto.
Qed.
Lemma remove_indices_all {A} (Q : A → Prop) n js (l : list A) : Forall Q l → Forall Q (remove_indices n js l).
Proof.
  revert n l. induction js as [|j js IH]; intros n l Hl; simpl; [done|]. apply IH. by apply Forall_delete.
Qed.

Section calls.
Context {L : Type} `{!ReservableCurrency L, !TreasuryCurrency L, !StakingHost L, !StakingHostLaws L}.
Context {P : PerThing} {R : PerQuintill} `{!PerThingLaws P, !PerQuintillLaws R}.
Context (T : Config).
Abbreviation World := (State * L)%type.
Abbreviation MC := (M World (DispatchError Error)).
Implicit Types (w : World) (X : AccountId → EraIndex → Prop).

(** A run that succeeds keeps the invariant. *)
Definition safe {A} X (m : MC A) : Prop := ∀ w u w', Inv T X w → m w = (Ok u, w') → Inv T X w'.
Lemma safe_kept {A} X (m : MC A) : kept (Inv T X) m → safe X m.
Proof. intros Hm w u w' Hw. by apply kept_run. Qed.
Lemma safe_same {A} X (m : MC A) : (∀ w0, kept (same w0) m) → safe X m.
Proof. intros Hm. by apply safe_kept, kept_same. Qed.
Lemma st_safe_bind {A B} X (m : MC A) (f : A → MC B) : safe X m → (∀ a, safe X (f a)) → safe X (m ≫= f).
Proof. intros Hm Hf w u w' Hw (a & w1 & Ha & Hr)%bind_Ok. eapply Hf; [|exact Hr]. by eapply Hm. Qed.
Lemma safe_gets {A B} X (f : State → A) (k : A → MC B) :
  (∀ w u w', Inv T X w → k (f w.1) w = (Ok u, w') → Inv T X w') → safe X (st_gets f ≫= k).
Proof. intros Hk w u w' Hw. unfold st_gets. rewrite bind_gets. by apply Hk. Qed.
(** What can only follow a change of a ledger. *)
Lemma safe_voter X a : safe X (update_voter T a : MC unit).
Proof. apply safe_same. intros w0. same_steps. Qed.
Lemma safe_event X e : safe X (deposit_event e : MC unit).
Proof. apply safe_kept, kept_event. Qed.
Lemma safe_chill X a : safe X (chill_stash a : MC unit).
Proof. apply safe_kept, kept_chill_stash. Qed.

Lemma update_ledger_Ok c l w u w' : update_ledger c l w = (Ok u, w') → w' = put_ledger c l w.
Proof. rewrite update_ledger_run. by intros [= _ <-]. Qed.

(** ** Bonds *)
Lemma Inv_bond X w a v pay claimed l1 :
  Inv T X w → Bonded (stakers w.1) !! a = None → Ledger (stakers w.1) !! a = None → unseen w.2 l1 → 0 ≤ v ≤ U128_MAX →
  sorted claimed → (∀ cur e, CurrentEra (eras w.1) = Some cur → window T cur ≤ e → e < cur → e ∈ claimed) →
  0 ≤ MaxUnlockingChunks T →
  Inv T X (put_ledger a {| stash := a; total := v; active := v; unlocking := []; claimed_rewards := claimed |}
    (w.1 <| stakers ::= λ k, k <| Bonded ::= <[a := a]> |> <| Payee ::= <[a := pay]> |> |>, l1)).
Proof.
  intros [H1 H2 H3 H4 H5 H6 H7 H8 H9 H10 H11 H12 H13 H14] Ha Hl (_ & Hlock & Hvot) Hv Hs Hcl Hmax.
  split; unfold put_ledger, settled, staked in *; cbn; try assumption.
  - intros b c. rewrite lookup_insert. case_decide; [intros [= <-]; subst b; rewrite lookup_insert_eq; eauto|].
    intros Hb. destruct (H1 b c Hb) as (l & Hc & Hst). exists l. split; [|done]. rewrite lookup_insert_ne; [done|]. intros ->. congruence.
  - intros c l. rewrite !lookup_insert. case_decide; [intros [= <-]; subst c; cbn; by rewrite decide_True|].
    intros Hc. pose proof (H2 c l Hc) as Hb. rewrite decide_False; [done|]. intros Heq. congruence.
  - intros c l. rewrite lookup_insert. case_decide; [|by apply H3]. intros [= <-]. cbn. split; [|done].
    split; cbn; try done; try lia. change (unlocking_sum []) with 0. lia.
  - intros c l. rewrite lookup_insert. case_decide.
    + intros [= <-] Ht. cbn in *. rewrite set_lock_spec by done. by rewrite decide_True.
    + intros Hc Ht. rewrite set_lock_other; [rewrite Hlock; by eapply H4|]. intros Heq. apply H2 in Hc. congruence.
  - intros b. rewrite lookup_insert. case_decide; [done|]. intros Hb. rewrite set_lock_other by done. rewrite Hlock. by apply H5.
  - intros b Hb. rewrite lookup_insert. case_decide; [done|]. by apply H6.
  - intros b. rewrite set_lock_voters, Hvot. apply H8.
  - intros b e HX. destruct (H14 b e HX) as (cur & Hcur & He & Hall). exists cur. split; [done|]. split; [done|].
    intros c l. rewrite !lookup_insert. case_decide.
    + intros [= <-]. rewrite decide_True by done. intros [= <-] Hwin. by eapply Hcl.
    + intros Hc. rewrite decide_False; [by apply Hall|]. intros <-. destruct (H1 b a Hc) as (? & ? & ?). congruence.
Qed.
Lemma bond_Inv X o v pay : 0 ≤ v → 0 ≤ MaxUnlockingChunks T → safe X (bond T o v pay : MC unit).
Proof.
  intros Hv Hmax w u w' Hw Hr. unfold bond in Hr. apply bind_Ok in Hr as (a & w1 & [_ ->]%ensure_signed_Ok & Hr).
  unfold stakers_gets, st_gets in Hr. rewrite bind_gets in Hr. change (id (stakers w.1)) with (stakers w.1) in Hr.
  do 3 (apply bind_Ok in Hr as ([] & ? & [? ->]%ensure_Ok & Hr)). unfold host_gets in Hr. rewrite bind_gets in Hr.
  apply bind_Ok in Hr as (l1 & ? & [Hl1 ->]%ok_or_Ok & Hr). apply inc_consumers_unseen in Hl1.
  unfold m_ledger, stakers_modify, st_modify, eras_gets, st_gets in Hr.
  rewrite !bind_modify, !bind_gets in Hr. cbv beta zeta in Hr. cbn [fst snd] in Hr.
  unfold deposit_event, st_modify in Hr. rewrite bind_modify in Hr. cbn [fst snd] in Hr.
  apply bind_Ok in Hr as ([] & ? & [? ->]%ensure_Ok & Hr). apply update_ledger_Ok in Hr as ->.
  match goal with |- Inv _ _ (put_ledger _ ?l (?s <| events ::= ?f |>, _)) =>
    apply (Inv_same_view T X (put_ledger a l (s, l1))); [split; [done|by split]|] end.
  repeat match goal with H : bool_decide _ = true |- _ => apply bool_decide_eq_true in H
    | H : negb _ = true |- _ => apply negb_true_iff, bool_decide_eq_false, eq_None_not_Some in H end.
  pose proof (free_bounds l1 a). apply Inv_bond; [done..|lia|apply sorted_seqZ| |done]. cbn.
  intros cur e -> Hwin He. cbn. apply elem_of_seqZ. fold (window T cur). lia.
Qed.
Lemma bond_extra_Inv X o v : 0 ≤ v → safe X (bond_extra T o v : MC unit).
Proof.
  intros Hv w u w' Hw Hr. unfold bond_extra in Hr. apply bind_Ok in Hr as (a & w1 & [_ ->]%ensure_signed_Ok & Hr).
  unfold stakers_gets, st_gets in Hr. rewrite bind_gets in Hr. apply bind_Ok in Hr as (c & ? & [Ha ->]%ok_or_Ok & Hr).
  apply bind_Ok in Hr as (l & ? & [Hl ->]%ledger_of_Ok & Hr). unfold host_gets in Hr. rewrite bind_gets in Hr.
  destruct (checked_sub _ _) as [extra|] eqn:He; [|apply mret_Ok in Hr as [_ ->]; done].
  apply checked_sub_Some in He as [-> Hle]. apply bind_Ok in Hr as ([] & ? & [? ->]%ensure_Ok & Hr).
  rewrite (bind_run _ _ _ _ _ (update_ledger_run c _ w)) in Hr. revert Hr.
  apply st_safe_bind with (X := X); [apply safe_voter|intros _; apply safe_event|].
  destruct (inv_ledger _ _ _ Hw c l Hl) as [[Hsum Hact Hk Hfit Hlen] _].
  pose proof (unlocking_pos _ Hk). pose proof (free_bounds w.2 a).
  apply (Inv_put_ledger T X w c l); [done|done|done| |by eapply same_claims].
  split; cbn; rewrite ?add128_exact by lia; try lia; done.
Qed.
Lemma unbonded_ok l v rem e :
  ledger_ok (MaxUnlockingChunks T) l → 0 < v → v + rem = active l → 0 ≤ rem → Z.of_nat (length (unlocking l)) < MaxUnlockingChunks T →
  ledger_ok (MaxUnlockingChunks T) (l <| active := rem |> <| unlocking ::= push_chunk v e |>).
Proof.
  intros [Hsum Hact Hk Hfit Hlen] Hv Hrem H0 Hroom. pose proof (unlocking_pos _ Hk).
  destruct (push_chunk_sum v e (unlocking l)) as (Hs & Hf & Hl); [done|lia|lia|]. split; cbn; [lia|lia|done|lia|lia].
Qed.
Lemma unbond_Inv X o v : 0 ≤ v → safe X (unbond T o v : MC unit).
Proof.
  intros Hv w u w' Hw Hr. unfold unbond in Hr. apply bind_Ok in Hr as (c & w0 & [_ ->]%ensure_signed_Ok & Hr).
  apply bind_Ok in Hr as (l0 & ? & [_ ->]%ledger_of_Ok & Hr). apply bind_Ok in Hr as ([] & w1 & Hwd & Hr).
  assert (Inv T X w1) as Hw1.
  { destruct (_ =? _); [|apply mret_Ok in Hwd as [_ ->]; done]. unfold slashes_gets, st_gets in Hwd. rewrite bind_gets in Hwd.
    by eapply withdraw_Inv. }
  clear dependent w. apply bind_Ok in Hr as (l & ? & [Hl ->]%ledger_of_Ok & Hr). cbv zeta in Hr.
  apply bind_Ok in Hr as ([] & ? & [Hroom%Z.ltb_lt ->]%ensure_Ok & Hr).
  destruct (Z.eqb_spec (Z.min v (active l)) 0) as [|Hne]; [apply mret_Ok in Hr as [_ ->]; done|].
  destruct (inv_ledger _ _ _ Hw1 c l Hl) as [Hok _]. pose proof Hok as [Hsum Hact Hk Hfit Hlen]. pose proof (unlocking_pos _ Hk).
  destruct (if _ <? _ then _ else _) as [v1 rem] eqn:Hcut. assert (0 < v1 ∧ v1 + rem = active l ∧ 0 ≤ rem) as (Hv1 & Hrem & Hr0).
  { revert Hcut. case_match; intros [= <- <-]; [rewrite add128_exact by lia|]; lia. }
  unfold min_active_bond, stakers_gets, params_gets, st_gets, eras_gets in Hr.
  apply bind_Ok in Hr as (mb & ? & (? & ? & [? ->]%gets_Ok & (? & ? & [? ->]%gets_Ok & [? ->]%mret_Ok)%bind_Ok)%bind_Ok & Hr).
  apply bind_Ok in Hr as ([] & ? & [_ ->]%ensure_Ok & Hr). unfold st_gets in Hr. rewrite bind_gets in Hr. cbv beta zeta in Hr.
  rewrite (bind_run _ _ _ _ _ (update_ledger_run c _ w1)) in Hr. revert Hr.
  apply st_safe_bind with (X := X); [apply safe_voter|intros _; apply safe_event|].
  apply (Inv_put_ledger T X w1 c l); [done|done|done|by apply unbonded_ok|by eapply same_claims].
Qed.
Lemma rebond_Inv X o v : 0 ≤ v ≤ U128_MAX → safe X (rebond T o v : MC unit).
Proof.
  intros Hv w u w' Hw Hr. unfold rebond in Hr. apply bind_Ok in Hr as (c & w0 & [_ ->]%ensure_signed_Ok & Hr).
  apply bind_Ok in Hr as (l & ? & [Hl ->]%ledger_of_Ok & Hr). apply bind_Ok in Hr as ([] & ? & [_ ->]%ensure_Ok & Hr).
  destruct (inv_ledger _ _ _ Hw c l Hl) as [Hok _]. pose proof (rebond_ok (MaxUnlockingChunks T) l v Hok Hv) as Hre.
  destruct (ledger_rebond l v) as [l' r]. destruct Hre as (Hok' & _ & _ & _ & Hst & Hcl).
  apply bind_Ok in Hr as ([] & ? & [_ ->]%ensure_Ok & Hr). apply bind_Ok in Hr as ([] & w1 & Hev & Hr).
  unfold deposit_event in Hev. apply st_modify_Ok in Hev as ->. set (w1 := (_, w.2)) in Hr.
  assert (Inv T X w1) as Hw1 by (apply (Inv_same_view T X w); [split; [done|by split]|done]).
  rewrite (bind_run _ _ _ _ _ (update_ledger_run c _ w1)) in Hr. revert Hr. apply safe_voter with (X := X).
  apply (Inv_put_ledger T X w1 c l); [done|exact Hl|done|done|]. by eapply same_claims.
Qed.
Lemma unlock_later_ok l i f : (∀ c, value (f c) = value c) → ledger_ok (MaxUnlockingChunks T) l →
  ledger_ok (MaxUnlockingChunks T) (l <| unlocking ::= alter f i |>).
Proof.
  intros Hval [Hsum Hact Hk Hfit Hlen]. destruct (unlocking_alter_era i f (unlocking l) Hval) as [Hs Hf]. split.
  - change (total l = active l + unlocking_sum (alter f i (unlocking l))). by rewrite Hs.
  - done.
  - by apply Hf.
  - done.
  - change (Z.of_nat (length (alter f i (unlocking l))) ≤ MaxUnlockingChunks T). by rewrite length_alter.
Qed.
Lemma set_unlock_Inv X o a i n : safe X (set_unlock_after_eras T o a i n : MC unit).
Proof.
  intros w u w' Hw Hr. unfold set_unlock_after_eras in Hr. apply bind_Ok in Hr as (c & w0 & [_ ->]%ensure_root_Ok & Hr).
  apply bind_Ok in Hr as (l & ? & [Hl ->]%ledger_of_Ok & Hr). destruct (_ <=? _); [apply mret_Ok in Hr as [_ ->]; done|].
  unfold eras_gets, st_gets in Hr. rewrite bind_gets in Hr. cbv beta zeta in Hr.
  rewrite (bind_run _ _ _ _ _ (update_ledger_run a _ w)) in Hr. revert Hr.
  apply st_safe_bind with (X := X); [apply safe_voter|intros _; apply safe_event|].
  destruct (inv_ledger _ _ _ Hw a l Hl) as [[Hsum Hact Hk Hfit Hlen] _].
  apply (Inv_put_ledger T X w a l); [done|done|done| |by eapply same_claims].
  apply unlock_later_ok; [done|by split].
Qed.
Lemma withdraw_unbonded_Inv X o n : safe X (withdraw_unbonded o n : MC unit).
Proof. intros w u w' Hw (c & w0 & [_ ->]%ensure_signed_Ok & Hr)%bind_Ok. by eapply withdraw_Inv. Qed.

(** ** Roles *)
Lemma validate_Inv X o p : safe X (validate T o p : MC unit).
Proof.
  intros w u w' Hw Hr. unfold validate in Hr. apply bind_Ok in Hr as (c & w0 & [_ ->]%ensure_signed_Ok & Hr).
  apply bind_Ok in Hr as (l & ? & [Hl ->]%ledger_of_Ok & Hr). unfold params_gets, stakers_gets, st_gets in Hr.
  rewrite bind_gets in Hr. do 3 (apply bind_Ok in Hr as ([] & ? & [_ ->]%ensure_Ok & Hr)). rewrite bind_gets in Hr.
  apply bind_Ok in Hr as ([] & ? & [_ ->]%ensure_Ok & Hr). rewrite (bind_run _ _ _ _ _ (remove_nominator_run _ w)) in Hr.
  pose proof (Inv_drop_nominator T X (stash l) w Hw) as Hw1. pose proof (inv_owner _ _ _ Hw c l Hl) as Hb.
  destruct (add_validator_run T (stash l) p (drop_nominator (stash l) w)) as (l' & Hadd & Hlisted).
  rewrite (bind_run _ _ _ _ _ Hadd) in Hr. revert Hr. apply safe_event with (X := X).
  apply Inv_add_validator; [done|..|done]; unfold drop_nominator; case_decide as Hd; cbn; rewrite ?lookup_delete_eq; eauto.
  by apply eq_None_not_Some.
Qed.
Lemma nominate_Inv X o ts : safe X (nominate T o ts : MC unit).
Proof.
  intros w u w' Hw Hr. unfold nominate in Hr. apply bind_Ok in Hr as (c & w0 & [_ ->]%ensure_signed_Ok & Hr).
  apply bind_Ok in Hr as (l & ? & [Hl ->]%ledger_of_Ok & Hr). unfold params_gets, stakers_gets, eras_gets, st_gets in Hr.
  rewrite bind_gets in Hr. apply bind_Ok in Hr as ([] & ? & [_ ->]%ensure_Ok & Hr). rewrite bind_gets in Hr.
  do 3 (apply bind_Ok in Hr as ([] & ? & [_ ->]%ensure_Ok & Hr)). cbv zeta in Hr.
  apply bind_Ok in Hr as (rs & w1 & Hrs & Hr). assert (w1 = w) as ->.
  { destruct (resolve_targets _ _ _ _); [by apply mret_Ok in Hrs as [_ ->]|]. unfold error in Hrs. run_inv. }
  rewrite bind_gets in Hr. rewrite (bind_run _ _ _ _ _ (remove_validator_run _ w)) in Hr.
  pose proof (Inv_drop_validator T X (stash l) w Hw) as Hw1. pose proof (inv_owner _ _ _ Hw c l Hl) as Hb.
  match type of Hr with do_add_nominator _ ?a ?n ?w1 = _ => destruct (add_nominator_run T a n w1) as (l' & Hadd & Hlisted) end.
  rewrite Hadd in Hr. injection Hr as _ <-.
  apply Inv_add_nominator; [done|..|done]; unfold drop_validator; case_decide as Hd; cbn; rewrite ?lookup_delete_eq; eauto.
  by apply eq_None_not_Some.
Qed.
Lemma chill_Inv X o : safe X (chill o : MC unit).
Proof.
  intros w u w' Hw (c & w0 & [_ ->]%ensure_signed_Ok & (l & ? & [_ ->]%ledger_of_Ok & Hr)%bind_Ok)%bind_Ok. by eapply safe_chill.
Qed.
Lemma chill_other_Inv X o c : safe X (chill_other T o c : MC unit).
Proof.
  intros w u w' Hw (a & w0 & [_ ->]%ensure_signed_Ok & (l & ? & [_ ->]%ledger_of_Ok & Hr)%bind_Ok)%bind_Ok.
  unfold params_gets, stakers_gets, st_gets in Hr. rewrite !bind_gets in Hr.
  apply bind_Ok in Hr as ([] & ? & [_ ->]%ensure_Ok & Hr). by eapply safe_chill.
Qed.
(** A role is rewritten. *)
Lemma Inv_rewrite_nominator X w a n n' :
  Inv T X w → Nominators (stakers w.1) !! a = Some n → Inv T X (w.1 <| stakers ::= λ k, k <| Nominators ::= <[a := n']> |> |>, w.2).
Proof.
  intros Hw Hn. apply Inv_add_nominator; [done|..].
  - apply (inv_role _ _ _ Hw). right. eauto.
  - destruct (inv_one_role _ _ _ Hw a); [done|congruence].
  - left. split; [right; eauto|done].
Qed.
Lemma kick_one_Inv X a n : kept (Inv T X) (kick_one a n : MC unit).
Proof.
  intros w Hw. unfold kick_one, stakers_gets, st_gets. rewrite bind_gets. cbv beta.
  destruct (Nominators _ !! n) as [nom|] eqn:Hn; [|done]. destruct (list_find _ _) as [[pos ?]|]; [|done].
  apply kept_event. by eapply Inv_rewrite_nominator.
Qed.
Lemma kick_Inv X o ts : safe X (kick T o ts : MC unit).
Proof.
  intros w u w' Hw (c & w0 & [_ ->]%ensure_signed_Ok & (l & ? & [_ ->]%ledger_of_Ok & Hr)%bind_Ok)%bind_Ok.
  apply bind_Ok in Hr as (ns & ? & [_ ->]%ok_or_Ok & Hr). revert Hr. apply kept_run; [|done].
  apply kept_for_each. intros n _. apply kick_one_Inv.
Qed.
Lemma force_commission_Inv X o a : safe X (force_apply_min_commission o a : MC unit).
Proof.
  intros w u w' Hw (c & w0 & [_ ->]%ensure_signed_Ok & Hr)%bind_Ok. unfold params_gets, stakers_gets, st_gets in Hr.
  rewrite !bind_gets in Hr. apply bind_Ok in Hr as (p & ? & [Hp ->]%ok_or_Ok & Hr). unfold stakers_modify in Hr.
  apply st_modify_Ok in Hr as ->. apply Inv_add_validator; [done|..].
  - apply (inv_role _ _ _ Hw). left. eauto.
  - destruct (inv_one_role _ _ _ Hw a); [congruence|done].
  - left. split; [left; eauto|done].
Qed.

(** ** Leaving *)
Lemma force_unstake_Inv X o a n : safe X (force_unstake o a n : MC unit).
Proof.
  intros w u w' Hw (c & w0 & [_ ->]%ensure_root_Ok & ([] & w1 & Hk & ->%m_ledger_Ok)%bind_Ok)%bind_Ok. by eapply kill_stash_Inv.
Qed.
Lemma reap_stash_Inv X o a n : safe X (reap_stash o a n : MC unit).
Proof.
  intros w u w' Hw (c & w0 & [_ ->]%ensure_signed_Ok & Hr)%bind_Ok. unfold host_gets in Hr. rewrite bind_gets in Hr.
  apply bind_Ok in Hr as ([] & w1 & Hg & ([] & w2 & Hk & ->%m_ledger_Ok)%bind_Ok). eapply kill_stash_Inv; [|exact Hk].
  revert Hg. apply safe_same with (X := X); [|done]. intros w0. same_steps.
Qed.

(** ** The controller *)
Lemma Inv_repair X w a c l :
  Inv T X w → Bonded (stakers w.1) !! a = Some c → Ledger (stakers w.1) !! c = Some l → Ledger (stakers w.1) !! a = None →
  Inv T X (w.1 <| stakers ::= λ k, k <| Bonded ::= <[a := a]> |> <| Ledger ::= λ m, <[a := l]> (delete c m) |> |>, w.2).
Proof.
  intros [H1 H2 H3 H4 H5 H6 H7 H8 H9 H10 H11 H12 H13 H14] Ha Hl Hno. destruct (H1 a c Ha) as (l0 & ? & Hst). simplify_eq/=.
  assert (∀ c' l', (<[stash l := l]> (delete c (Ledger (stakers w.1)))) !! c' = Some l' →
    ∃ c0, Ledger (stakers w.1) !! c0 = Some l') as Hback.
  { intros c' l'. rewrite lookup_insert. case_decide; [intros [= <-]; eauto|]. intros [_ ?]%lookup_delete_Some. eauto. }
  split; unfold settled, staked in *; cbn; try assumption.
  - intros b c'. rewrite lookup_insert. case_decide; [intros [= <-]; subst b; rewrite lookup_insert_eq; eauto|].
    intros Hb. destruct (H1 b c' Hb) as (l1 & Hc & Hs). exists l1. split; [|done]. apply lookup_insert_Some. right.
    split; [congruence|]. apply lookup_delete_Some. split; [|done]. intros <-. congruence.
  - intros c' l'. rewrite lookup_insert. case_decide; [intros [= <-]; subst c'; by rewrite lookup_insert_eq|].
    intros [Hc Hl']%lookup_delete_Some. rewrite lookup_insert_ne; [by apply H2|]. intros Heq. apply H2 in Hl'. congruence.
  - intros c' l' [c0 Hc]%Hback. by eapply H3.
  - intros c' l' [c0 Hc]%Hback. by eapply H4.
  - intros b. rewrite lookup_insert. case_decide; [done|apply H5].
  - intros b Hb. rewrite lookup_insert. case_decide; [done|by apply H6].
  - intros b e HX. destruct (H14 b e HX) as (cur & Hcur & He & Hall). exists cur. split; [done|]. split; [done|].
    intros c' l'. rewrite !lookup_insert. case_decide; [intros [= <-]; rewrite decide_True by done; intros [= <-]; subst b; by apply (Hall c)|].
    intros Hb. case_decide; [destruct (H1 b c' Hb) as (? & ? & ?); congruence|]. intros [_ ?]%lookup_delete_Some. by eapply Hall.
Qed.
Lemma set_controller_Inv X o : safe X (set_controller o : MC unit).
Proof.
  intros w u w' Hw (a & w0 & [_ ->]%ensure_signed_Ok & Hr)%bind_Ok. unfold stakers_gets, st_gets in Hr. rewrite bind_gets in Hr.
  change (id (stakers w.1)) with (stakers w.1) in Hr. apply bind_Ok in Hr as (c & ? & [Ha ->]%ok_or_Ok & Hr).
  apply bind_Ok in Hr as ([] & ? & [Hno ->]%ensure_Ok & Hr). case_bool_decide; [apply mret_Ok in Hr as [_ ->]; done|].
  apply negb_true_iff, bool_decide_eq_false, eq_None_not_Some in Hno.
  destruct (inv_bonded _ _ _ Hw a c Ha) as (l & Hl & Hst). rewrite Hl in Hr. unfold stakers_modify, st_modify in Hr.
  rewrite bind_modify in Hr. injection Hr as _ <-. by apply (Inv_repair X w a c l).
Qed.

(** ** Slashes and payouts *)
Lemma cancel_Inv X o e js : safe X (cancel_deferred_slash T o e js : MC unit).
Proof.
  intros w u w' Hw ([] & w0 & [_ ->]%ensure_Ok & Hr)%bind_Ok. apply bind_Ok in Hr as (j & ? & [_ ->]%ok_or_Ok & Hr).
  apply bind_Ok in Hr as ([] & ? & [_ ->]%ensure_Ok & Hr). unfold slashes_gets, st_gets in Hr. rewrite bind_gets in Hr.
  apply bind_Ok in Hr as ([] & ? & [_ ->]%ensure_Ok & Hr). unfold slashes_modify in Hr. apply st_modify_Ok in Hr as ->.
  apply Inv_pending; [|done]. intros m Hm e' us. rewrite lookup_insert. case_decide; [|by apply Hm]. intros [= <-].
  apply remove_indices_all. destruct (UnappliedSlashes _ !! e) as [us|] eqn:Hus; [|constructor]. by eapply (inv_slashes _ _ _ Hw).
Qed.
Lemma payout_stakers_Inv X o a e w u w' :
  Inv T X w → payable a e w → payout_stakers T o a e w = (Ok u, w') → Inv T (λ a' e', X a' e' ∨ a' = a ∧ e' = e) w'.
Proof. intros Hw Hp (c & w0 & [_ ->]%ensure_signed_Ok & Hr)%bind_Ok. by eapply payout_Inv. Qed.
End calls.
End StakingCalls.
