(* ===== verification/StakingRuns.v ===== *)
(** * pallet-staking: runs of the chain

    From genesis, the steps are the calls, the hooks of sessions, blocks, offences
    and elections, and whatever other pallets do to balances without touching this
    pallet's locks and voters. The invariant holds in every reachable state. *)
From stdpp Require Import base gmap fin_maps list numbers relations.
From Stdlib Require Import ZArith Lia.
From S2P Require Import Prelude Currency ItemList RentalInterfaces StakingState StakingLedgers Staking StakingSteps StakingInvariant StakingEras StakingCalls.

Module StakingRuns.
Import ItemList StakingState StakingLedgers Staking StakingSteps StakingInvariant StakingEras StakingCalls.

Section runs.
Context {L : Type} `{!ReservableCurrency L, !TreasuryCurrency L, !StakingHost L}.
Context {P : PerThing} {R : PerQuintill}.
Context (T : Config).
Abbreviation World := (State * L)%type.
Abbreviation MC := (M World (DispatchError Error)).
Implicit Types (w : World) (X : AccountId → EraIndex → Prop).

(** The arguments of a call have their types; a payout also needs room in the
    ledgers it adds to. *)
Definition typed (c : Call) w : Prop :=
  match c with
  | Bond v _ | BondExtra v | Unbond v => 0 ≤ v
  | Rebond v => 0 ≤ v ≤ U128_MAX
  | PayoutStakers a e => payable a e w
  | _ => True
  end.

Inductive step w : World → Prop :=
| step_call o c r w' : typed c w → dispatch T o c w = (r, w') → step w w'
| step_new_session i election r w' : eras_left w → new_session T i election w = (r, w') → step w w'
| step_start_session i r w' : eras_left w → start_session T i w = (r, w') → step w w'
| step_end_session now ms i r w' : eras_left w → end_session T now ms i w = (r, w') → step w w'
| step_finalize ms r w' : on_finalize ms w = (r, w') → step w w'
| step_author a r w' : note_author a w = (r, w') → step w w'
| step_offence os fs s st session r w' :
    report_offence (on_offence T os fs s st) session w = (r, w') → step w w'
| step_voters n r w' : get_npos_voters T n w = (r, w') → step w w'
| step_others l' : same_host w.2 l' → step w (w.1, l').

(** Before genesis nothing is staked, locked or planned. *)
Definition blank w : Prop :=
  stakers w.1 = {| Bonded := ∅; Ledger := ∅; Payee := ∅; Validators := ∅; Nominators := ∅ |} ∧
  CurrentEra (eras w.1) = None ∧ ActiveEra (eras w.1) = None ∧ ErasStartSessionIndex (eras w.1) = ∅ ∧
  ErasValidatorReward (eras w.1) = ∅ ∧ UnappliedSlashes (slashes w.1) = ∅ ∧
  (∀ a, lock w.2 a = 0) ∧ (∀ a, a ∉ voters w.2).
Definition reachable w : Prop := ∃ configured w0 w1,
  blank w0 ∧ Forall (λ x : AccountId * Balance * StakerStatus, 0 ≤ x.1.2) configured ∧
  genesis_build T configured w0 = (Ok tt, w1) ∧ rtc step w1 w.
End runs.

Section invariant.
Context {L : Type} `{!ReservableCurrency L, !TreasuryCurrency L, !StakingHost L, !StakingHostLaws L}.
Context {P : PerThing} {R : PerQuintill} `{!PerThingLaws P, !PerQuintillLaws R}.
Context (T : Config) (Hchunks : 0 ≤ MaxUnlockingChunks T).
Abbreviation World := (State * L)%type.
Abbreviation MC := (M World (DispatchError Error)).
Implicit Types (w : World) (X : AccountId → EraIndex → Prop).

Lemma Inv_weaken X X' w : (∀ a e, X' a e → X a e) → Inv T X w → Inv T X' w.
Proof. intros HX [H1 H2 H3 H4 H5 H6 H7 H8 H9 H10 H11 H12 H13 H14]. split; try assumption. auto. Qed.

Ltac by_kind := first
  [ solve [apply safe_same; intros ?; autounfold with staking_ops; same_steps]
  | solve [eauto using bond_Inv, bond_extra_Inv, unbond_Inv, withdraw_unbonded_Inv, validate_Inv, nominate_Inv, chill_Inv,
      set_controller_Inv, force_unstake_Inv, cancel_Inv, rebond_Inv, reap_stash_Inv, kick_Inv, chill_other_Inv,
      force_commission_Inv, set_unlock_Inv] ].
Lemma other_call_safe X o c w0 : typed c w0 → (∀ a e, c ≠ PayoutStakers a e) → safe T X (run_call T o c : MC unit).
Proof.
  intros Ht Hno. destruct c; try (by destruct (Hno validator_stash e)); cbn [run_call typed] in *;
    unfold set_payee, set_validator_count, increase_validator_count, scale_validator_count, put_validator_count,
      force_no_eras, force_new_era, force_new_era_always, force_eras, set_invulnerables, set_staking_configs, set_min_commission,
      set_reward_start_height, set_phase0_reward, set_phase1_reward, set_phase2_reward, set_first_committee_team_reward_date,
      add_committee_team_reward_per_year, rm_committee_team_reward_by_index, set_foundation_params, set_treasury_params,
      set_emission, disable_validator, enable_validator, ledger_of; by_kind.
Qed.
Lemma st_dispatch_Inv X o c w r w' : Inv T X w → typed c w → dispatch T o c w = (r, w') → Inv T X w'.
Proof.
  intros Hw Ht. unfold dispatch, transactional. destruct (run_call T o c w) as [[u|er] w1] eqn:Hr; intros [= <- <-]; [|done].
  destruct c; try (by eapply (other_call_safe X o); [exact Ht|done|exact Hw|exact Hr]).
  eapply payout_stakers_Inv in Hr; [|done..]. revert Hr. apply Inv_weaken. by left.
Qed.
(** A payout that succeeds is over. *)
Lemma payout_settled X o a e w w' : Inv T X w → payable a e w → dispatch T o (PayoutStakers a e) w = (Ok tt, w') →
  Inv T (λ a' e', a' = a ∧ e' = e) w'.
Proof.
  intros Hw Hp. unfold dispatch, transactional. destruct (run_call T o _ w) as [[[]|er] w1] eqn:Hr; [|done].
  intros [= <-]. eapply payout_stakers_Inv in Hr; [|done..]. revert Hr. apply Inv_weaken. by right.
Qed.
Lemma step_Inv X w w' : Inv T X w → step T w w' → Inv T X w'.
Proof.
  intros Hw. destruct 1 as [o c r w' Ht Hr|i el r w' He Hr|i r w' He Hr|now ms i r w' He Hr|ms r w' Hr|a r w' Hr
    |os fs s st session r w' Hr|n r w' Hr|l' Hl].
  - by eapply st_dispatch_Inv.
  - by eapply new_session_Inv.
  - by eapply start_session_Inv.
  - by eapply end_session_Inv.
  - revert Hr. apply kept_run; [|done]. apply kept_same. intros ?. apply same_on_finalize.
  - revert Hr. apply kept_run; [|done]. apply kept_same. intros ?. apply same_reward_by_ids.
  - revert Hr. apply kept_run; [|done]. unfold report_offence, eras_gets. apply kept_st_gets. intros w1 _.
    repeat case_match; try apply kept_event. apply on_offence_Inv.
  - revert Hr. apply kept_run; [|done]. apply kept_same. intros ?. apply same_get_npos_voters.
  - apply (Inv_same_view T X w); [|done]. by split.
Qed.
Lemma steps_Inv X w w' : Inv T X w → rtc (step T) w w' → Inv T X w'.
Proof. intros Hw Hs. induction Hs as [|w w1 w2 H1 _ IH]; [done|]. apply IH. by eapply step_Inv. Qed.

Lemma blank_Inv w : blank w → Inv T (λ _ _, False) w.
Proof.
  intros (Hk & Hc & Ha & Hs & Hr & Hu & Hl & Hv). split; unfold staked; rewrite ?Hk, ?Hc, ?Ha, ?Hs, ?Hr, ?Hu; cbn; try done.
  - intros a [[x Hx]|[x Hx]]; by rewrite lookup_empty in Hx.
  - intros a. left. by rewrite lookup_empty.
  - intros a. split; [intros Hin; by apply Hv in Hin|]. intros [[x Hx]|[x Hx]]; by rewrite lookup_empty in Hx.
Qed.
Lemma genesis_staker_safe X x : 0 ≤ x.1.2 → safe T X (genesis_staker T x : MC unit).
Proof.
  destruct x as [[a v] status]. cbn [fst snd]. intros Hv w u w' Hw Hr. unfold genesis_staker, host_gets in Hr. rewrite bind_gets in Hr.
  apply bind_Ok in Hr as ([] & ? & [_ ->]%ensure_Ok & Hr). revert w u w' Hw Hr. refine (_ : safe T X _).
  apply st_safe_bind; [by apply bond_Inv|]. intros _. apply st_safe_bind; [|intros _; apply safe_same; intros ?; same_steps].
  destruct status; [apply safe_same; intros ?; same_steps|apply validate_Inv|apply nominate_Inv].
Qed.
Lemma st_genesis_Inv X w configured w' :
  Inv T X w → Forall (λ x : AccountId * Balance * StakerStatus, 0 ≤ x.1.2) configured →
  genesis_build T configured w = (Ok tt, w') → Inv T X w'.
Proof.
  intros Hw Hall Hr. unfold genesis_build in Hr. apply bind_Ok in Hr as ([] & w1 & Hrun & Hr). assert (Inv T X w1) as Hw1.
  { clear Hr. revert w Hw Hrun. induction Hall as [|x l Hx Hl IH]; intros w Hw Hrun; cbn [for_each] in Hrun.
    - by apply mret_Ok in Hrun as [_ ->].
    - apply bind_Ok in Hrun as ([] & w2 & Hx' & Hrun). eapply IH; [|exact Hrun]. by eapply genesis_staker_safe. }
  unfold stakers_gets, st_gets, host_gets in Hr. rewrite !bind_gets in Hr. by apply ensure_Ok in Hr as [_ ->].
Qed.
Lemma st_reachable_Inv w : reachable T w → Inv T (λ _ _, False) w.
Proof.
  intros (configured & w0 & w1 & Hb & Hall & Hg & Hs). eapply steps_Inv; [|exact Hs].
  eapply st_genesis_Inv; [|done|exact Hg]. by apply blank_Inv.
Qed.
End invariant.
End StakingRuns.
