(* ===== verification/StakingTheorems.v ===== *)
(** * pallet-staking: theorems

    What holds of ledgers in every reachable state, payouts that cannot be repeated,
    what a slash can take, what the end of an era issues, and rebonding as the
    inverse of unbonding; and runs of the pallet on a concrete host. *)
From stdpp Require Import base gmap fin_maps list numbers relations.
From Stdlib Require Import ZArith Lia.
From S2P Require Import Prelude Currency ItemList RentalInterfaces StakingState StakingLedgers Staking StakingSteps StakingInvariant StakingEras StakingCalls StakingRuns.

Module StakingTheorems.
Import ItemList StakingState StakingLedgers Staking StakingSteps StakingInvariant StakingEras StakingCalls StakingRuns.

(** ** A concrete host: balances, locks and the list of voters *)
Record Book := { coins : Ledger.t; locks : gmap AccountId Balance; listed_ids : list AccountId; session_ids : list AccountId }.
#[export] Instance Book_eta : RecordEta Book := λ b, Build_Book (coins b) (locks b) (listed_ids b) (session_ids b).
Definition book_free (b : Book) (a : AccountId) : Balance := Z.min (Ledger.free (coins b) a) U128_MAX.
Definition on_coins (f : Ledger.t → Ledger.t) (b : Book) : Book := b <| coins ::= f |>.
#[local] Instance book_currency : ReservableCurrency Book := {|
  free_balance := book_free;
  reserved_balance b := Ledger.reserved (coins b);
  reserve a v b := (λ c, b <| coins := c |>) <$> reserve a v (coins b);
  unreserve a v b := let r := unreserve a v (coins b) in (b <| coins := r.1 |>, r.2);
  repatriate_reserved a a' v b := (λ r, (b <| coins := r.1 |>, r.2)) <$> repatriate_reserved a a' v (coins b);
  slash_reserved a v b := let r := slash_reserved a v (coins b) in (b <| coins := r.1 |>, r.2);
  transfer a a' v k b := (λ c, b <| coins := c |>) <$> transfer a a' v k (coins b);
  can_reserve a v b := can_reserve a v (coins b);
  deposit_into_existing a v b := (λ c, b <| coins := c |>) <$> deposit_into_existing a v (coins b);
|}.
#[local] Instance book_treasury : TreasuryCurrency Book := {|
  can_slash a v b := can_slash a v (coins b);
  slash a v b := let r := slash a v (coins b) in (b <| coins := r.1 |>, r.2);
  make_free_balance_be a v b := on_coins (make_free_balance_be a v) b;
  treasury := treasury;
  on_unbalanced v b := on_coins (on_unbalanced v) b;
|}.
#[local] Instance book_host : StakingHost Book := {|
  minimum_balance := 10;
  total_issuance b := map_fold (λ _ (x : N * N) t, Z.of_N x.1 + Z.of_N x.2 + t) 0 (coins b);
  deposit_creating a v b :=
    if Ledger.free (coins b) a + v <=? U128_MAX then
      (b <| coins ::= λ c, Ledger.put c a (Ledger.free c a + v) (Ledger.reserved c a) |>, v) else (b, 0);
  lock b a := default 0 (locks b !! a);
  set_lock a v b := if v =? 0 then b else b <| locks ::= <[a := v]> |>;
  remove_lock a b := b <| locks ::= delete a |>;
  inc_consumers a b := (λ _, b) <$> coins b !! a;
  dec_consumers a b := b;
  voters := listed_ids;
  on_insert a v b := b <| listed_ids ::= cons a |>;
  on_update a v b := b;
  on_remove a b := b <| listed_ids ::= filter (λ x, x ≠ a) |>;
  session_validators := session_ids;
  disable_session_validator i b := b;
  prune_historical_up_to i b := b;
  on_staker_slash a v m b := b;
|}.
#[local] Instance book_laws : StakingHostLaws Book.
Proof.
  assert (∀ (l : Book), unseen l l) as Hrefl by by repeat split.
  split; cbn; try done.
  - intros b a. pose proof (Ledger.nonneg (coins b) a). unfold book_free, U128_MAX. lia.
  - intros a v b c Hv. destruct (Z.eqb_spec v 0); [lia|]. cbn. rewrite lookup_insert.
    destruct (decide (a = c)), (decide (c = a)); done.
  - intros a v b c Hc. destruct (v =? 0); [done|]. cbn. by rewrite lookup_insert_ne.
  - intros a v b c. by destruct (v =? 0).
  - intros a v b. by destruct (v =? 0).
  - intros a b c. rewrite lookup_delete. destruct (decide (a = c)), (decide (c = a)); done.
  - intros a v b Hv. pose proof (Ledger.nonneg (coins b) a). destruct (Z.leb_spec (Ledger.free (coins b) a + v) U128_MAX); cbn.
    + split; [by right|]. intros c. unfold book_free, at_account. cbn. rewrite Ledger.free_put by lia. case_decide; [subst|]; lia.
    + split; [by left|]. intros c. unfold at_account. case_decide; lia.
  - intros a v b c. by destruct (_ <=? _).
  - intros a v b. by destruct (_ <=? _).
  - intros a v b b' c. by intros (x & _ & ->)%fmap_Some.
  - intros a v b b'. by intros (x & _ & ->)%fmap_Some.
  - intros a v b Hv. pose proof (Ledger.nonneg (coins b) a). lia.
  - intros a b b'. by intros (x & _ & ->)%fmap_Some.
  - intros a v b c. set_solver.
  - intros a b c. rewrite list_elem_of_filter. done.
Qed.

(** ** What the end of an era issues *)
(** The committee is due every 365 eras from the first on, while releases remain. *)
Definition team_due (k : Emission) (e : EraIndex) : bool :=
  (e =? FirstCommitteeTeamReleaseEra k) ||
  (FirstCommitteeTeamReleaseEra k <? e) && ((e - FirstCommitteeTeamReleaseEra k) mod 365 =? 0).
Definition team_rewards (k : Emission) (e : EraIndex) : list (AccountId * Balance) :=
  if team_due k e && (1 <=? RewardTimes k) then default [] (CommitteeTeamRewardPerYear k) else [].
(** The foundation and the treasury are only served when both are configured, with
    intervals. *)
Definition served (k : Emission) : option (FoundationIssueRewards * TreasuryIssueRewards) :=
  match FoundationReward k, TreasuryReward k with
  | Some f, Some t => if (foundation_interval f =? 0) || (treasury_interval t =? 0) then None else Some (f, t)
  | _, _ => None
  end.
Definition issue_rewards (k : Emission) (e : EraIndex) : list (AccountId * Balance) :=
  match served k with
  | Some (f, t) =>
      (if foundation_due e f then (λ a, (a, foundation_amount f)) <$> foundation_who f else []) ++
      (if treasury_due e t then [(treasury_account t, treasury_amount t)] else [])
  | None => []
  end.
Definition era_rewards (k : Emission) (e : EraIndex) : list (AccountId * Balance) := team_rewards k e ++ issue_rewards k e.
(** Each beneficiary served has one time less to come. *)
Definition count_team (k : Emission) (e : EraIndex) : Emission :=
  if team_due k e && (1 <=? RewardTimes k) && bool_decide (is_Some (CommitteeTeamRewardPerYear k))
  then k <| RewardTimes ::= λ n, n - 1 |> else k.
Definition count_issue (k : Emission) (e : EraIndex) : Emission :=
  match served k with
  | Some (f, t) =>
      let k1 := if foundation_due e f then k <| FoundationReward := Some (f <| foundation_left_times ::= λ n, n - 1 |>) |> else k in
      if treasury_due e t then k1 <| TreasuryReward := Some (t <| treasury_left_times ::= λ n, n - 1 |>) |> else k1
  | None => k
  end.
(** The amount of a year, by the whole years since the start of the rewards: three of the
    first phase, five of the second, then the third. *)
Definition years_since (T : Config) (k : Emission) (now : BlockNumber) : Z :=
  (now - RewardStartHeight k) / (MILLISECONDS_PER_YEAR / (2 * MinimumPeriod T)).
Definition phase_amount (T : Config) (k : Emission) (now : BlockNumber) : Balance :=
  if now <? RewardStartHeight k then 0
  else if years_since T k now <? 3 then Phase0RewardPerYear k
  else if years_since T k now <? 8 then Phase1RewardPerYear k else Phase2RewardPerYear k.
Definition pay_all {L : Type} `{!StakingHost L} (ds : list (AccountId * Balance)) (l : L) : L :=
  foldl (λ l r, (deposit_creating r.1 r.2 l).1) l ds.

Section theorems.
Context {L : Type} `{!ReservableCurrency L, !TreasuryCurrency L, !StakingHost L, !StakingHostLaws L}.
Context {P : PerThing} {R : PerQuintill} `{!PerThingLaws P, !PerQuintillLaws R}.
Context (T : Config).
Abbreviation World := (State * L)%type.
Abbreviation MC := (M World (DispatchError Error)).
Implicit Types (w : World) (X : AccountId → EraIndex → Prop).


(** ** Payouts *)
Lemma settled_refused X a e w u w' : Inv T X w → X a e → do_payout_stakers T a e w ≠ (Ok u, w').
Proof.
  intros Hw HX. destruct (inv_settled _ _ _ Hw a e HX) as (cur & Hcur & He & Hall).
  unfold do_payout_stakers, eras_gets, st_gets. rewrite bind_gets. cbv beta. change (id (eras w.1)) with (eras w.1).
  rewrite Hcur, bind_ok_or. rewrite bind_Ok. intros ([] & w1 & [Hwin ->]%ensure_Ok & Hr).
  apply andb_true_iff in Hwin as [_ Hwin%Z.leb_le]. fold (window T cur) in Hwin.
  apply bind_Ok in Hr as (p & ? & [_ ->]%ok_or_Ok & Hr). unfold stakers_gets, st_gets in Hr. rewrite bind_gets in Hr.
  apply bind_Ok in Hr as (c & ? & [Hc ->]%ok_or_Ok & Hr). apply bind_Ok in Hr as (l & ? & [Hl ->]%ledger_of_Ok & Hr).
  apply bind_Ok in Hr as (l' & ? & (_ & Hno & _)%claim_era_Ok & _); [|by apply (inv_ledger _ _ _ Hw c)].
  apply Hno, list_elem_of_filter. split; [done|]. by apply (Hall c).
Qed.
(** C30: A payout of an era to the stakers of a validator that succeeded in a reachable
    state never succeeds again, whatever calls, eras, unstaking and bonding anew
    follow. *)
Theorem st_paid_once w o a e w1 w2 o' :
  0 ≤ MaxUnlockingChunks T → reachable T w → payable a e w → dispatch T o (PayoutStakers a e) w = (Ok tt, w1) →
  rtc (step T) w1 w2 → ∃ er, dispatch T o' (PayoutStakers a e) w2 = (Err er, w2).
Proof.
  intros Hmax Hr Hp Hd Hs. apply st_reachable_Inv in Hr; [|done]. apply (payout_settled T _ o a e w w1 Hr Hp) in Hd.
  apply (steps_Inv T Hmax _ _ _ Hd) in Hs. unfold dispatch, transactional, run_call.
  destruct (payout_stakers T o' a e w2) as [[u|er] w3] eqn:Hrun; [|eauto].
  apply bind_Ok in Hrun as (b & ? & [_ ->]%ensure_signed_Ok & Hrun). by apply (settled_refused _ a e w2 u w3 Hs) in Hrun.
Qed.

(** ** Slashes *)
(** C32: What a slash of [v] on a bonded stash of a reachable state takes of its ledger.
    It runs without error and takes [v], or all there is, up to the precision of the
    ratio of a proportional slash (one part in [one] of the ledger, and one unit);
    exactly at least that when no chunk unlocks late enough for the slash to be
    proportional. It takes more than [v] only by emptying a part that would be left as dust,
    the active stake or a chunk, and then by less than the minimum balance; the doc of
    [StakingLedger::slash] says that it never takes more ([slash_exceeds_amount] is such
    a slash). The ledger stays consistent and locked, the other ledgers are as before, and
    no more is destroyed than the ledger lost. *)
Theorem st_slash_bounded w a c l v paid destroyed e :
  0 ≤ MaxUnlockingChunks T → reachable T w → Bonded (stakers w.1) !! a = Some c → Ledger (stakers w.1) !! c = Some l → 0 ≤ v →
  ∃ x w' l', do_slash T a v paid destroyed e w = (Ok x, w') ∧ Ledger (stakers w'.1) !! c = Some l' ∧
    let taken := total l - total l' in
    0 ≤ taken ∧
    (v < taken → taken < v + minimum_balance ∧
       (active l' = 0 ∨ Nat.lt (length (unlocking l')) (length (unlocking l)))) ∧
    Z.min v (total l) ≤ taken + total l / one + 1 ∧
    ((∀ k, k ∈ unlocking l → era k < add32 e (BondingDuration T)) → Z.min v (total l) ≤ taken) ∧
    total l' = active l' + unlocking_sum (unlocking l') ∧ (0 < total l' → lock w'.2 a = total l') ∧
    (∀ c', c' ≠ c → Ledger (stakers w'.1) !! c' = Ledger (stakers w.1) !! c') ∧
    destroyed ≤ x.2 ≤ destroyed + taken.
Proof.
  intros Hmax Hr Ha Hl Hv. apply st_reachable_Inv in Hr as Hw; [|done]. destruct (inv_bonded _ _ _ Hw a c Ha) as (? & ? & Hst). simplify_eq.
  pose proof (slash_Inv T _ (stash l) v paid destroyed e Hv w Hw) as Hw'. revert Hw'.
  destruct (inv_ledger _ _ _ Hw c l Hl) as [Hok _]. pose proof Hok as [Hsum _ _ _ _].
  destruct (ledger_slash_spec (MaxUnlockingChunks T) (BondingDuration T) l v minimum_balance e Hok Hv minimum_nonneg) as
    (l' & d & chunks & Hsl & Hok' & Hst' & _ & Hd & Hd0 & Hbound & Hnear & Hexact).
  pose proof (slash_missing (stash l) d) as Hmiss.
  unfold do_slash, stakers_gets, st_gets. rewrite bind_gets. change (id (stakers w.1)) with (stakers w.1). rewrite Ha. cbn [mbind option_bind].
  rewrite Hl. cbn [mbind option_bind]. rewrite Hsl.
  set (l1 := match chunks with Some m => on_staker_slash (stash l') (active l') m w.2 | None => w.2 end).
  rewrite (bind_run _ _ w tt (w.1, l1)) by (destruct chunks; [done|by destruct w]).
  destruct (Z.eqb_spec d 0) as [->|Hne].
  { intros Hw'. eexists _, _, l. cbv zeta. rewrite Z.sub_diag. split; [done|]. split; [done|]. split_and!; try done; try lia.
    - intros Ht. by apply (inv_locked _ _ _ Hw' c).
    - cbn [snd]. lia. }
  unfold host_gets. rewrite bind_gets. unfold m_ledger. rewrite bind_modify. cbv beta. cbn [fst snd].
  rewrite (bind_run _ _ _ _ _ (update_ledger_run c l' _)). unfold deposit_event, st_modify. rewrite bind_modify. intros Hw'.
  eexists _, _, l'. split; [done|]. assert (Ledger (stakers (w.1 <| stakers ::= λ k, k <| Ledger ::= <[c := l']> |> |>)) !! c = Some l') as Hl'
    by (cbn; by rewrite lookup_insert_eq). specialize (Hmiss l1 ltac:(lia)).
  split; [exact Hl'|]. cbv zeta. rewrite <-Hd. split_and!; [lia|done|done|done|by destruct Hok'| | |cbn [fst snd]; lia|cbn [fst snd]; lia].
  - intros Ht. pose proof (inv_locked _ _ _ Hw' c l' Hl' Ht) as Hlock. rewrite Hst' in Hlock. exact Hlock.
  - intros c' Hc. cbn. by rewrite lookup_insert_ne.
Qed.

(** ** The emission *)
Lemma pay_all_app ds ds' (l : L) : pay_all (ds ++ ds') l = pay_all ds' (pay_all ds l).
Proof. apply foldl_app. Qed.
Lemma with_emission (s : State) : s <| emission := emission s |> = s.
Proof. by destruct s. Qed.
Lemma team_run e w :
  (if e =? FirstCommitteeTeamReleaseEra (emission w.1) then ignore reward_to_committee_team
   else if (FirstCommitteeTeamReleaseEra (emission w.1) <? e) && ((e - FirstCommitteeTeamReleaseEra (emission w.1)) mod 365 =? 0)
   then ignore reward_to_committee_team else mret tt : MC unit) w =
  (Ok tt, (w.1 <| emission := count_team (emission w.1) e |>, pay_all (team_rewards (emission w.1) e) w.2)).
Proof.
  assert ((ignore reward_to_committee_team : MC unit) w = (Ok tt,
    (w.1 <| emission := if (1 <=? RewardTimes (emission w.1)) && bool_decide (is_Some (CommitteeTeamRewardPerYear (emission w.1)))
                        then (emission w.1) <| RewardTimes ::= λ n, n - 1 |> else emission w.1 |>,
     pay_all (if 1 <=? RewardTimes (emission w.1) then default [] (CommitteeTeamRewardPerYear (emission w.1)) else []) w.2))) as Hrun.
  { unfold ignore, reward_to_committee_team. destruct (Z.ltb_spec (RewardTimes (emission w.1)) 1).
    - destruct (Z.leb_spec 1 (RewardTimes (emission w.1))); [lia|]. cbn [andb]. rewrite with_emission. by destruct w.
    - destruct (Z.leb_spec 1 (RewardTimes (emission w.1))); [|lia]. destruct (CommitteeTeamRewardPerYear (emission w.1)) as [rs|]; cbn [andb].
      + by rewrite bool_decide_eq_true_2 by eauto.
      + rewrite bool_decide_eq_false_2 by (by intros [? ?]). rewrite with_emission. by destruct w. }
  unfold count_team, team_rewards, team_due. destruct (_ =? FirstCommitteeTeamReleaseEra _); cbn [orb andb]; [exact Hrun|].
  destruct (_ && (_ =? 0)); cbn [andb]; [exact Hrun|]. rewrite with_emission. by destruct w.
Qed.
Lemma issue_run e w :
  (ignore (issue_reward e) : MC unit) w =
  (Ok tt, (w.1 <| emission := count_issue (emission w.1) e |>, pay_all (issue_rewards (emission w.1) e) w.2)).
Proof.
  unfold ignore, issue_reward, count_issue, issue_rewards, served.
  destruct (FoundationReward (emission w.1)) as [f|]; [|rewrite with_emission; by destruct w].
  destruct (TreasuryReward (emission w.1)) as [t|]; [|rewrite with_emission; by destruct w].
  destruct (_ || _); [rewrite with_emission; by destruct w|]. cbv zeta. rewrite pay_all_app. unfold pay_all.
  destruct (foundation_due e f), (treasury_due e t); cbn [foldl]; rewrite ?foldl_fmap, ?with_emission; by destruct w.
Qed.
Lemma count_team_same k e :
  served (count_team k e) = served k ∧ issue_rewards (count_team k e) e = issue_rewards k e ∧
  ∀ now, yearly_inflation T (count_team k e) now = yearly_inflation T k now.
Proof. unfold count_team. by destruct (_ && _). Qed.
Lemma count_issue_yearly k e now : yearly_inflation T (count_issue k e) now = yearly_inflation T k now.
Proof. unfold count_issue. destruct (served k) as [[f t]|]; [|done]. by destruct (foundation_due e f), (treasury_due e t). Qed.
Lemma yearly_phase k now : 0 < 2 * MinimumPeriod T ≤ MILLISECONDS_PER_YEAR → yearly_inflation T k now = phase_amount T k now.
Proof.
  intros Hp. unfold yearly_inflation, phase_amount, years_since.
  assert (MILLISECONDS_PER_YEAR = 31557600000) as Hy by (vm_compute; reflexivity).
  replace (saturating_mul U64_MAX (MinimumPeriod T) 2) with (2 * MinimumPeriod T)
    by (unfold saturating_mul, U64_MAX; lia).
  set (y := MILLISECONDS_PER_YEAR / (2 * MinimumPeriod T)). assert (0 < y) by (apply Z.div_str_pos; lia).
  assert (∀ n, ((now - RewardStartHeight k) / y <? n) = (now <? n * y + RewardStartHeight k)) as Hlt.
  { intros n. apply eq_bool_prop_intro. rewrite !Is_true_true, !Z.ltb_lt. split; intros Hn.
    - pose proof (Z.mul_succ_div_gt (now - RewardStartHeight k) y ltac:(lia)). nia.
    - apply Z.div_lt_upper_bound; lia. }
  by rewrite !Hlt.
Qed.
(** C31: At the last session of an era the chain pays exactly the beneficiaries that are
    due (the committee every 365 eras, the foundation and the treasury at their intervals),
    counts each of them down once, records for the era the part of the yearly amount of the
    current phase (three years of the first, five of the second, then the third) that the
    era's duration is of a year, which is at most that amount, and leaves no remainder to
    the treasury. *)
Theorem st_end_era_issues w now ms session i begun :
  0 < 2 * MinimumPeriod T ≤ MILLISECONDS_PER_YEAR →
  ActiveEra (eras w.1) = Some i → start i = Some begun →
  ErasStartSessionIndex (eras w.1) !! add32 (era_index i) 1 = Some (add32 session 1) →
  let k := emission w.1 in
  let yearly := phase_amount T k now in
  let paid := per_mul (from_rational ((ms - begun) mod 2 ^ 64) MILLISECONDS_PER_YEAR) yearly in
  ∃ w', end_session T now ms session w = (Ok tt, w') ∧
    w'.2 = on_unbalanced 0 (pay_all (era_rewards k (era_index i)) w.2) ∧
    emission w'.1 = count_issue (count_team k (era_index i)) (era_index i) ∧
    ErasValidatorReward (eras w'.1) = <[era_index i := paid]> (ErasValidatorReward (eras w.1)) ∧
    events w'.1 = events w.1 ++ [EraPaid (era_index i) paid 0] ∧ (0 ≤ yearly → 0 ≤ paid ≤ yearly).
Proof.
  intros Hperiod Hi Hb Hs k yearly paid. unfold end_session, eras_gets, st_gets. rewrite bind_gets. change (id (eras w.1)) with (eras w.1).
  rewrite Hi, Hs, Z.eqb_refl. unfold end_era. rewrite Hb. unfold emission_gets, st_gets. rewrite bind_gets.
  rewrite (bind_run _ _ _ _ _ (team_run _ w)). rewrite (bind_run _ _ _ _ _ (issue_run _ _)). rewrite bind_gets. cbn [fst snd].
  change (emission (?s <| emission := ?x |>)) with x. rewrite count_issue_yearly. destruct (count_team_same k (era_index i)) as (_ & Hiss & Hy).
  fold k. rewrite Hy, Hiss, yearly_phase by done. fold yearly. unfold era_payout, compute_total_payout. cbv zeta. fold paid.
  replace (saturating_sub paid paid) with 0 by (unfold saturating_sub; lia).
  eexists. split; [reflexivity|]. cbn [fst snd]. unfold era_rewards. rewrite pay_all_app. split_and!; try done.
  intros Hyr. apply per_mul_bounds; [|done]. apply from_rational_part.
  pose proof (Z.mod_pos_bound (ms - begun) (2 ^ 64)). lia.
Qed.

(** ** Unbonding and rebonding *)
Lemma same_Ledger w w' : same w w' → Ledger (stakers w'.1) = Ledger (stakers w.1).
Proof. intros [Hv _]. unfold view in Hv. by injection Hv. Qed.
Lemma update_voter_Ok a w : ∃ w', update_voter T a w = (Ok tt, w') ∧ Ledger (stakers w'.1) = Ledger (stakers w.1).
Proof.
  pose proof (same_update_voter T w a w (same_refl w)) as Hs. apply same_Ledger in Hs. revert Hs.
  unfold update_voter, host_gets. rewrite bind_gets. cbv beta. destruct (bool_decide _); [|eauto].
  unfold weight_of, stakers_gets, host_gets, st_gets, m_ledger. eauto.
Qed.
Lemma rebond_pushed l v e :
  ledger_ok (MaxUnlockingChunks T) l → 0 < v ≤ active l →
  ledger_rebond (l <| active := active l - v |> <| unlocking ::= push_chunk v e |>) v = (l, v).
Proof.
  intros [Hsum Hact Hk Hfit Hlen] Hv. pose proof (unlocking_pos _ Hk). unfold ledger_rebond. cbn [active unlocking field_update].
  assert (rebond_chunks v 0 (active l - v) (reverse (push_chunk v e (unlocking l))) = (reverse (unlocking l), v, active l)) as Hrun.
  { assert (∀ k, rebond_chunks v 0 (active l - v) (reverse (k ++ [{| value := v; era := e |}])) = (reverse k, v, active l)) as Hnew.
    { intros k. rewrite reverse_app. cbn. rewrite add128_exact by lia. rewrite Z.add_0_l, Z.leb_refl, add128_exact by lia.
      repeat f_equal. lia. }
    unfold push_chunk. destruct (list.last (unlocking l)) as [c|] eqn:Hc; [|apply Hnew]. destruct (_ =? _); [|apply Hnew].
    apply last_Some in Hc as [k Hk']. rewrite Hk' in *.
    replace (length (k ++ [c]) - 1)%nat with (length k) by (rewrite length_app; simpl; lia). rewrite take_app_length, !reverse_app.
    apply Forall_app in Hk as [Hk1 [Hlast _]%Forall_cons]. rewrite unlocking_app, unlocking_cons in *. change (unlocking_sum []) with 0 in *.
    pose proof (unlocking_pos _ Hk1). cbn. rewrite saturating_add_exact, add128_exact by lia.
    destruct (Z.leb_spec (0 + (value c + v)) v); [lia|]. rewrite (sub128_exact v 0) by lia.
    rewrite sub128_exact, !add128_exact by lia. destruct c. cbn. repeat f_equal; lia. }
  change (match rebond_chunks v 0 (active l - v) (reverse (push_chunk v e (unlocking l))) with
    | (rev_chunks, ub, act) => (l <| active := active l - v |> <| unlocking ::= push_chunk v e |> <| active := act |> <| unlocking := reverse rev_chunks |>, ub) end
    = (l, v)).
  rewrite Hrun, reverse_involutive. by destruct l.
Qed.
Lemma bind_ensure_true {A} b er (k : unit → MC A) w : b = true → (ensure b er ≫= k) w = k tt w.
Proof. by intros ->. Qed.
(** The ledger an unbonding starts from: with a full queue the chunks that are due are
    withdrawn first. *)
Definition unbonds_from (w : World) (l : StakingLedger) : StakingLedger :=
  if decide (Z.of_nat (length (unlocking l)) = MaxUnlockingChunks T)
  then match CurrentEra (eras w.1) with Some e => consolidate_unlocked l e | None => l end else l.
(** What unbonding [v] of the active stake [x] unbonds: at most all of it, and all of it if
    it would leave dust. *)
Definition unbonds (x v : Balance) : Balance := if decide (x - Z.min v x < minimum_balance) then x else Z.min v x.

Lemma unbonds_from_ok w l :
  ledger_ok (MaxUnlockingChunks T) l → ledger_ok (MaxUnlockingChunks T) (unbonds_from w l) ∧ active (unbonds_from w l) = active l.
Proof.
  intros Hok. unfold unbonds_from. case_decide; [|done]. destruct (CurrentEra (eras w.1)) as [e|]; [|done].
  by destruct (consolidate_ok _ l e Hok) as (? & _ & _).
Qed.
Lemma withdraw_Ledger w c l n u w' :
  Ledger (stakers w.1) !! c = Some l → minimum_balance ≤ active l → do_withdraw_unbonded c n w = (Ok u, w') →
  Ledger (stakers w'.1) !! c = Some (match CurrentEra (eras w.1) with Some e => consolidate_unlocked l e | None => l end).
Proof.
  intros Hl Hmin Hr. unfold do_withdraw_unbonded in Hr. apply bind_Ok in Hr as (l0 & ? & [Hl0 ->]%ledger_of_Ok & Hr). simplify_eq.
  unfold eras_gets, st_gets in Hr. rewrite bind_gets in Hr. cbv beta zeta in Hr.
  set (l' := match CurrentEra (eras w.1) with Some e => _ | None => l end) in *.
  assert (active l' = active l) as Ha by (unfold l'; by destruct (CurrentEra (eras w.1))).
  rewrite Ha in Hr. destruct (Z.ltb_spec (active l) minimum_balance); [lia|]. rewrite andb_false_r in Hr.
  rewrite (bind_run _ _ _ _ _ (update_ledger_run c l' w)) in Hr.
  destruct (total l' <? total l); [unfold deposit_event in Hr; apply st_modify_Ok in Hr as ->|apply mret_Ok in Hr as [_ ->]];
    cbn; apply lookup_insert_eq.
Qed.
Lemma unbond_Ledger w c l v u w' :
  Ledger (stakers w.1) !! c = Some l → ledger_ok (MaxUnlockingChunks T) l →
  0 < v → 0 < active l → minimum_balance ≤ active l → unbond T (Signed c) v w = (Ok u, w') →
  let base := unbonds_from w l in let x := unbonds (active l) v in
  0 < x ≤ active l ∧
  ∃ e, Ledger (stakers w'.1) !! c = Some (base <| active := active l - x |> <| unlocking ::= push_chunk x e |>).
Proof.
  intros Hl Hok Hv Hact Hmin Hr. cbv zeta. destruct (unbonds_from_ok w l Hok) as [Hok' Ha'].
  pose proof Hok' as [_ _ Hk' Hfit' _]. pose proof (unlocking_pos _ Hk').
  pose proof (minimum_nonneg (L:=L)) as Hm0. split; [unfold unbonds; case_decide; lia|].
  unfold unbond in Hr. apply bind_Ok in Hr as (c' & w0 & [[= <-] ->]%ensure_signed_Ok & Hr).
  apply bind_Ok in Hr as (l0 & ? & [Hl0 ->]%ledger_of_Ok & Hr). simplify_eq.
  apply bind_Ok in Hr as ([] & w1 & Hwd & Hr).
  assert (Ledger (stakers w1.1) !! c = Some (unbonds_from w l)) as Hl1.
  { unfold unbonds_from. destruct (Z.eqb_spec (Z.of_nat (length (unlocking l))) (MaxUnlockingChunks T)) as [He|He].
    - rewrite decide_True by done. unfold slashes_gets, st_gets in Hwd. rewrite bind_gets in Hwd. by eapply withdraw_Ledger.
    - rewrite decide_False by done. by apply mret_Ok in Hwd as [_ ->]. }
  clear Hwd. set (base := unbonds_from w l) in *. clearbody base. clear dependent w.
  apply bind_Ok in Hr as (l0 & ? & [Hl0 ->]%ledger_of_Ok & Hr). simplify_eq. rewrite Ha' in Hr. cbv zeta in Hr.
  apply bind_Ok in Hr as ([] & ? & [_ ->]%ensure_Ok & Hr).
  destruct (Z.eqb_spec (Z.min v (active l)) 0); [lia|].
  assert ((if active l - Z.min v (active l) <? minimum_balance then (add128 (Z.min v (active l)) (active l - Z.min v (active l)), 0)
    else (Z.min v (active l), active l - Z.min v (active l))) = (unbonds (active l) v, active l - unbonds (active l) v)) as Hcut.
  { unfold unbonds. destruct (Z.ltb_spec (active l - Z.min v (active l)) minimum_balance);
      [rewrite decide_True by done; rewrite add128_exact; [f_equal; lia|]|by rewrite decide_False by lia].
    destruct Hok' as [Hs _ _ _ _]. lia. }
  rewrite Hcut in Hr. clear Hcut.
  unfold min_active_bond, stakers_gets, params_gets, st_gets, eras_gets in Hr.
  apply bind_Ok in Hr as (mb & ? & (? & ? & [? ->]%gets_Ok & (? & ? & [? ->]%gets_Ok & [? ->]%mret_Ok)%bind_Ok)%bind_Ok & Hr).
  apply bind_Ok in Hr as ([] & ? & [_ ->]%ensure_Ok & Hr). unfold st_gets in Hr. rewrite bind_gets in Hr. cbv beta zeta in Hr.
  rewrite (bind_run _ _ _ _ _ (update_ledger_run c _ w1)) in Hr.
  match type of Hr with context [update_voter T ?a ≫= _] => match type of Hr with context [put_ledger c ?l2 w1] =>
    destruct (update_voter_Ok a (put_ledger c l2 w1)) as (w2 & Hrun & Heq) end end.
  rewrite (bind_run _ _ _ _ _ Hrun) in Hr. unfold deposit_event in Hr. apply st_modify_Ok in Hr as ->.
  eexists. cbn. rewrite Heq. apply lookup_insert_eq.
Qed.
(** C33: Rebonding undoes unbonding. A controller whose active stake is at least the minimum
    balance unbonds [v]: what is unbonded is [x], which is [v], or the whole active stake when
    [v] is more than that or would leave dust; where the queue of chunks is full the chunks
    that are due are withdrawn first. Rebonding [x] at once succeeds and gives back the very ledger
    that [x] was unbonded from, whether or not the chunk was merged with the last. *)
Theorem st_unbond_rebond w c l v w1 :
  0 ≤ MaxUnlockingChunks T → reachable T w → Ledger (stakers w.1) !! c = Some l →
  0 < v → 0 < active l → minimum_balance ≤ active l → dispatch T (Signed c) (Unbond v) w = (Ok tt, w1) →
  let base := unbonds_from w l in let x := unbonds (active l) v in
  0 < x ≤ active l ∧ active <$> Ledger (stakers w1.1) !! c = Some (active l - x) ∧
  ∃ w2, dispatch T (Signed c) (Rebond x) w1 = (Ok tt, w2) ∧ Ledger (stakers w2.1) !! c = Some base.
Proof.
  intros Hmax Hr Hl Hv Hact Hmin. apply st_reachable_Inv in Hr as Hw; [|done]. destruct (inv_ledger _ _ _ Hw c l Hl) as [Hok _].
  unfold dispatch at 1, transactional. cbn [run_call]. destruct (unbond T (Signed c) v w) as [[[]|er] w'] eqn:Hrun; [|done].
  intros [= <-]. cbv zeta. apply (unbond_Ledger w c l v) in Hrun as [Hx [e Hl1]]; [|done..]. split; [done|].
  destruct (unbonds_from_ok w l Hok) as [Hok' Ha]. set (base := unbonds_from w l) in *. set (x := unbonds (active l) v) in *.
  split; [by rewrite Hl1|]. rewrite <-Ha in Hl1, Hx.
  set (l1 := base <| active := active base - x |> <| unlocking ::= push_chunk x e |>) in *.
  assert (unlocking l1 ≠ []) as Hne.
  { unfold l1. cbn. unfold push_chunk. repeat case_match; intros Hnil; by apply app_eq_nil in Hnil as [_ ?]. }
  destruct (update_voter_Ok (stash base) (put_ledger c base (w'.1 <| events ::= λ es, es ++ [BondedEvent (stash base) x] |>, w'.2))) as (w2 & Hvot & Heq).
  exists w2. split; [|rewrite Heq; apply lookup_insert_eq]. unfold dispatch, transactional. cbn [run_call]. unfold rebond.
  rewrite (bind_run (ensure_signed (Signed c)) _ w' c w' eq_refl).
  rewrite (bind_run (ledger_of c) _ w' l1 w') by (by apply ledger_of_Ok).
  rewrite bool_decide_eq_false_2 by done. rewrite bind_ensure_true by done. unfold l1. rewrite rebond_pushed by done.
  rewrite bind_ensure_true by lia. unfold deposit_event, st_modify. rewrite bind_modify. rewrite (bind_run _ _ _ _ _ (update_ledger_run c base _)).
  by rewrite Hvot.
Qed.
End theorems.

(** ** Runs on the concrete host

    Account 1 validates with 500 and account 2 nominates it with 300; an era passes, is
    paid, and the next one begins. *)
#[local] Existing Instances perbill perbill_laws perquintill perquintill_laws.
Definition T0 : Config := {|
  MaxNominations := 16; HistoryDepth := 84; SessionsPerEra := 6; BondingDuration := 14; SlashDeferDuration := 13;
  MaxNominatorRewardedPerValidator := 256; OffendingValidatorsThreshold := from_percent 17; MaxUnlockingChunks := 32;
  MinimumPeriod := 3000; MaxWinners := 1000; AdminOrigin := λ o, match o with Root => true | _ => false end;
  lookup := Some; to_vote := λ v _, v; to_currency := λ v _, v;
  percent_mul := λ p x, p * x / 100; mul_floor := λ p x, p * x / 100 |}.
Definition book0 : Book :=
  {| coins := {[ 1 := (1000, 0); 2 := (500, 0); 3 := (50, 0) ]}%N; locks := ∅; listed_ids := []; session_ids := [1%N] |}.
Definition state0 : State := {|
  stakers := {| Bonded := ∅; Ledger := ∅; Payee := ∅; Validators := ∅; Nominators := ∅ |};
  params := {| ValidatorCount := 1; MinimumValidatorCount := 1; Invulnerables := []; MinNominatorBond := 0; MinValidatorBond := 0;
    MinimumActiveStake := 0; MinCommission := 0; MaxValidatorsCount := None; MaxNominatorsCount := None; ForceEra := NotForcing;
    SlashRewardFraction := 0; ChillThreshold := None; CurrentPlannedSession := 0; DisabledValidators := [] |};
  eras := {| CurrentEra := None; ActiveEra := None; ErasStartSessionIndex := ∅; ErasStakers := ∅; ErasStakersClipped := ∅;
    ErasValidatorPrefs := ∅; ErasValidatorReward := ∅; ErasRewardPoints := ∅; ErasTotalStake := ∅; BondedEras := [] |};
  slashes := {| UnappliedSlashes := ∅; ValidatorSlashInEra := ∅; NominatorSlashInEra := ∅; Spans := ∅; SpanSlash := ∅;
    OffendingValidators := [] |};
  emission := {| Phase0RewardPerYear := 10 ^ 9; Phase1RewardPerYear := 5 * 10 ^ 8; Phase2RewardPerYear := 25 * 10 ^ 7;
    RewardStartHeight := 0; CommitteeTeamRewardPerYear := Some [(3%N, 70)]; FirstCommitteeTeamReleaseEra := 0; RewardTimes := 3;
    FoundationReward := Some {| foundation_who := [3%N]; foundation_left_times := 2; foundation_first_era := 0;
      foundation_interval := 30; foundation_amount := 11 |};
    TreasuryReward := Some {| treasury_account := 100%N; treasury_left_times := 2; treasury_first_era := 5;
      treasury_interval := 30; treasury_amount := 13 |} |};
  events := [] |}.
Definition configured0 : list (AccountId * Balance * StakerStatus) :=
  [(1%N, 500, ValidatorStatus); (2%N, 300, NominatorStatus [1%N])].
Definition after {A} (m : M (State * Book) (DispatchError Error) A) (w : State * Book) : State * Book := (m w).2.
Definition at_genesis : State * Book := after (genesis_build T0 configured0) (state0, book0).
Definition votes0 : option (list (AccountId * list (AccountId * Z))) := Some [(1%N, [(1%N, 500); (2%N, 300)])].
Definition era_planned := after (new_session T0 0 votes0) at_genesis.
Definition era_started := after (start_session T0 0) era_planned.
Definition era_dated := after (on_finalize 1000) era_started.
Definition era_noted := after (note_author 1%N) era_dated.
Definition next_planned := after (new_session T0 6 votes0) era_noted.
Definition era_ended := after (end_session T0 3600 21600000 5) next_planned.
Definition next_started := after (start_session T0 6) era_ended.
Definition paid_out_world := after (dispatch T0 (Signed 3%N) (PayoutStakers 1%N 0)) next_started.
Definition chilled_world := after (dispatch T0 (Signed 1%N) Chill) paid_out_world.
Definition unbonded_world := after (dispatch T0 (Signed 1%N) (Unbond 100)) paid_out_world.

Lemma after_run {A} (m : M (State * Book) (DispatchError Error) A) w : m w = ((m w).1, after m w).
Proof. apply surjective_pairing. Qed.
Ltac era_left := intros ? Hc; vm_compute in Hc; first [discriminate Hc | injection Hc as <-; reflexivity].
Lemma reachable_step w w' : reachable T0 w → step T0 w w' → reachable T0 w'.
Proof. intros (c & w0 & w1 & Hb & Hc & Hg & Hs) Hstep. exists c, w0, w1. split_and!; [done..|]. by eapply rtc_r. Qed.
Lemma st_genesis_reachable : reachable T0 at_genesis.
Proof.
  exists configured0, (state0, book0), at_genesis. split; [|split; [by repeat constructor|split; [vm_compute; reflexivity|apply rtc_refl]]].
  unfold blank. cbn. split_and!; try done. intros a. apply not_elem_of_nil.
Qed.
Lemma planned_reachable : reachable T0 next_planned.
Proof.
  apply (reachable_step era_noted); [|refine (step_new_session T0 era_noted 6 votes0 _ _ _ (after_run _ era_noted)); era_left].
  apply (reachable_step era_dated); [|exact (step_author T0 era_dated 1%N _ _ (after_run _ era_dated))].
  apply (reachable_step era_started); [|exact (step_finalize T0 era_started 1000 _ _ (after_run _ era_started))].
  apply (reachable_step era_planned); [|refine (step_start_session T0 era_planned 0 _ _ _ (after_run _ era_planned)); era_left].
  apply (reachable_step at_genesis); [apply st_genesis_reachable|].
  refine (step_new_session T0 at_genesis 0 votes0 _ _ _ (after_run _ at_genesis)). era_left.
Qed.
Lemma started_reachable : reachable T0 next_started.
Proof.
  apply (reachable_step era_ended); [|refine (step_start_session T0 era_ended 6 _ _ _ (after_run _ era_ended)); era_left].
  apply (reachable_step next_planned); [apply planned_reachable|].
  refine (step_end_session T0 next_planned 3600 21600000 5 _ _ _ (after_run _ next_planned)). era_left.
Qed.
Lemma started_payable : payable 1%N 0 next_started.
Proof.
  intros p Hp. vm_compute in Hp. injection Hp as <-. cbv zeta. split; [done|]. split; [by vm_compute|].
  split; [vm_compute; by repeat constructor|]. split; [by vm_compute|]. split; [by vm_compute|].
  assert (map_Forall (λ _ l, total l ≤ 1000) (Ledger (stakers next_started.1))) as Hall by (apply (bool_decide_unpack _); by vm_compute).
  intros c l Hl. specialize (Hall c l Hl). cbn in Hall.
  match goal with |- _ + ?room ≤ _ => replace room with 1368862 by (vm_compute; reflexivity) end. unfold U128_MAX. lia.
Qed.
Lemma paid_reachable : reachable T0 paid_out_world.
Proof.
  apply (reachable_step next_started); [apply started_reachable|].
  exact (step_call T0 next_started (Signed 3%N) (PayoutStakers 1%N 0) _ _ started_payable (after_run _ next_started)).
Qed.

Lemma st_paid_once_witness : ∃ er, dispatch T0 (Signed 2%N) (PayoutStakers 1%N 0) chilled_world = (Err er, chilled_world).
Proof.
  apply (st_paid_once T0 next_started (Signed 3%N) 1%N 0 paid_out_world chilled_world); [done|apply started_reachable|apply started_payable|vm_compute; reflexivity|].
  apply rtc_once. exact (step_call T0 paid_out_world (Signed 1%N) Chill _ _ I (after_run _ paid_out_world)).
Defined.
Lemma st_slash_bounded_witness : ∃ x w' l', do_slash T0 1%N 428265 0 0 0 paid_out_world = (Ok x, w') ∧
  Ledger (stakers w'.1) !! 1%N = Some l' ∧ 428265 ≤ 428269 - total l' < 428265 + 10.
Proof.
  destruct (st_slash_bounded T0 paid_out_world 1%N 1%N
    {| stash := 1%N; total := 428269; active := 428269; unlocking := []; claimed_rewards := [0] |} 428265 0 0 0)
    as (x & w' & l' & H1 & H2 & _ & H3 & _ & H4 & _); [done|apply paid_reachable|vm_compute; reflexivity|vm_compute; reflexivity|done|].
  exists x, w', l'. split; [done|]. split; [done|]. cbn [total active unlocking] in H3, H4.
  assert (Z.min 428265 428269 ≤ 428269 - total l') as H5 by (apply H4; intros k Hk; destruct (not_elem_of_nil k Hk)).
  change (Z.min 428265 428269) with 428265 in H5. clear H4 H1 H2. change minimum_balance with 10 in H3. lia.
Defined.
Lemma st_end_era_issues_witness : ∃ w', end_session T0 3600 21600000 5 next_planned = (Ok tt, w') ∧
  ErasValidatorReward (eras w'.1) !! 0 = Some 684431 ∧ RewardTimes (emission w'.1) = 2.
Proof.
  destruct (st_end_era_issues T0 next_planned 3600 21600000 5 {| era_index := 0; start := Some 1000 |} 1000) as
    (w' & H1 & _ & H3 & H4 & _); [by vm_compute|vm_compute; reflexivity..|]. exists w'. split; [exact H1|]. rewrite H4, H3.
  split; vm_compute; reflexivity.
Defined.
Lemma st_unbond_rebond_witness : ∃ w2, dispatch T0 (Signed 1%N) (Rebond 100) unbonded_world = (Ok tt, w2) ∧
  total <$> Ledger (stakers w2.1) !! 1%N = Some 428269.
Proof.
  destruct (st_unbond_rebond T0 paid_out_world 1%N
    {| stash := 1%N; total := 428269; active := 428269; unlocking := []; claimed_rewards := [0] |} 100 unbonded_world)
    as (_ & _ & w2 & H1 & H2); [done|apply paid_reachable|vm_compute; reflexivity|done|done|done|vm_compute; reflexivity|].
  exists w2. split; [exact H1|]. by rewrite H2.
Defined.

(** ** Defects *)
(** A slash takes more than its amount when it leaves dust: here 428269 for 428265. *)
Example slash_exceeds_amount :
  (ledger_slash 14 {| stash := 1%N; total := 428269; active := 428269; unlocking := []; claimed_rewards := [] |} 428265 10 0).1.2 = 428269.
Proof. vm_compute. reflexivity. Qed.
(** A chunk that governance moves to a later era is taken as the first slashable one, and
    the chunks after it share the slash although they unlock before the era that the slash
    is about plus the bonding duration. *)
Example moved_chunk_exposes_later_chunks :
  let l := {| stash := 1%N; total := 3000; active := 1000;
              unlocking := [{| value := 1000; era := 12 |}; {| value := 1000; era := 13 |}]; claimed_rewards := [] |} in
  let moved := l <| unlocking ::= alter (λ c, c <| era := 40 |>) 0%nat |> in
  unlocking (ledger_slash 14 l 600 10 20).1.1 = unlocking l ∧
  value <$> unlocking (ledger_slash 14 moved 600 10 20).1.1 = [800; 800].
Proof. vm_compute. done. Qed.
Example committee_index_panics :
  (dispatch T0 Root (RmCommitteeTeamRewardByIndex 1) next_planned).1 = Err (Module Panics).
Proof. vm_compute. reflexivity. Qed.
(** Where the list of the committee was never stored no call can start one. *)
Lemma committee_list_not_started {L} `{!ReservableCurrency L, !TreasuryCurrency L, !StakingHost L} T o a v (w : State * L) :
  CommitteeTeamRewardPerYear (emission w.1) = None → (dispatch T o (AddCommitteeTeamRewardPerYear a v) w).2 = w.
Proof.
  intros Hn. unfold dispatch, transactional, run_call.
  destruct (add_committee_team_reward_per_year o a v w) as [[u|er] w'] eqn:Hr; [|done]. unfold add_committee_team_reward_per_year in Hr.
  apply bind_Ok in Hr as (x & w0 & [_ ->]%ensure_root_Ok & Hr). unfold emission_gets, st_gets in Hr. rewrite bind_gets, Hn in Hr.
  by apply bind_Ok in Hr as (? & ? & [? _]%ok_or_Ok & _).
Qed.
(** The treasury gets nothing while the foundation is not configured. *)
Lemma treasury_needs_foundation k e : FoundationReward k = None → issue_rewards k e = [].
Proof. unfold issue_rewards, served. by intros ->. Qed.
End StakingTheorems.
